(* ===== verification/_CoqProject ===== *)
-Q . S2P
Prelude.v
Machine.v
Cstring.v
Kalloc.v
Vm.v
Frames.v
Tables.v
Cow.v
Dealloc.v
Kvm.v
Fork.v
Fault.v
Sample.v
Alloc.v
Spaces.v
Race.v
Ptable.v
Sched.v
Proc.v
Pages.v
ProcInv.v
ProcOps.v
ProcLife.v
ProcExit.v
ProcSys.v
ProcThms.v
Exec.v
ExecVm.v
ExecLoad.v
ExecProc.v
ExecThms.v
ExecSample.v
Trap.v
TrapSafe.v
Entry.v
LockThms.v
Bio.v
BioSpec.v
Ide.v
Boot.v
Mp.v
Log.v
LogSpec.v
LogLoops.v
LogThms.v
LogOps.v
Fs.v
FsBlk.v
FsAlloc.v
FsInode.v
FsFile.v
FsWrite.v
FsThms.v
FsDir.v
Mkfs.v
MkfsAppend.v
MkfsMade.v
MkfsThms.v
ForkRet.v
MkfsRead.v
Pipe.v
Syscall.v
File.v
Console.v
ConsoleThms.v
ConsoleEdit.v
Dev.v
Cpus.v
ProcShow.v
User.v
Progs.v
Grep.v
Sh.v
ShThms.v
ShCmd.v
ShRun.v
Kbd.v
UmallocInv.v
UmallocThms.v
UmallocObjs.v
