(* ===== verification/Prelude.v ===== *)
(** * xv6-CoW: a verification development

    xv6-CoW is the teaching kernel xv6 for i386 with copy-on-write [fork],
    three schedulers, a process listing and a console with a history of
    commands.  This library translates the C and assembly sources under
    [src/source] into Rocq functions and proves what they do.

    ** Reading a definition

    A routine of the source is a function of the same name.  A routine that
    changes state is a computation [M S A] over the state [S] of its component
    (below in this file): it ends with a value and a new state ([Ok]), in
    [panic] ([Panic]), in an access that C does not define or the processor
    faults on ([Fault]), asleep ([Block]) or at its bound of iterations
    ([NoFuel]).  [wp c Q s] says that [c] started in [s] ends in [Ok] and that
    the result satisfies [Q]; a theorem stated with [wp] says that the routine
    returns and neither panics nor faults.  Integers are [Z] with the
    wrap-around of their C type written out ([u32], [i32], ...); memory is a
    function from addresses to bytes; an array of structures is a list, a
    pointer into it an index or, where the source computes with it, the address.
    A routine that calls [sched] or [sleep] ends there; what follows when the
    process runs again is a definition of its own.  One component works on the
    state of another through [zoom].

    ** The components and their files

    - Machine constants, byte memory and the string routines ([mmu.h],
      [memlayout.h], [param.h], [x86.h], [string.c]): [Machine], [Cstring].
    - Physical pages and virtual memory ([kalloc.c], [vm.c]).  [Kalloc] and [Vm]
      are the code: the free list is threaded through the pages, page tables are
      words in memory.  [Frames] is the abstract state (the role of every page,
      the entry of every mapped page); [Tables], [Cow], [Dealloc], [Kvm], [Fork],
      [Fault] and [Alloc] show that each routine steps it; [Spaces] states the
      contract with user programs; [Race] is two faults at once; [Sample] is a
      concrete memory.
    - Processes ([proc.c], [proc.h]).  [Ptable] is the table and the schedulers,
      [Sched] what they choose, [Proc] the life of a process; [Pages] is the
      interface to memory; [ProcInv], [ProcOps], [ProcLife], [ProcExit] the
      invariant and its preservation, [ProcSys] the system as steps, [ProcThms]
      the theorems; [ProcShow] the listings.
    - [exec] ([exec.c], [elf.h]): [Exec] is the code; [ExecVm], [ExecLoad],
      [ExecProc], [ExecThms], [ExecSample] the proof.
    - Traps and system calls ([trap.c], [syscall.c], [sysproc.c]): [Trap],
      [TrapSafe], and [Syscall] for the arguments.  [Entry] is the assembly:
      [vectors.pl], [trapasm.S], [swtch.S], [usys.S], with [tvinit].
    - Start-up and devices: [Boot] ([bootmain.c]), [Cpus] ([bootasm.S],
      [entry.S], [entryother.S], [main.c], [seginit], [mycpu], [sched]), [Mp]
      ([mp.c]), [Dev] ([lapic.c], [ioapic.c], [picirq.c], [uart.c]), [Ide]
      ([ide.c]), [Kbd] ([kbd.c]), and [ForkRet] for the start of the file system
      in the first process.
    - Locks ([spinlock.c], [sleeplock.c]): [LockThms].
    - The disk ([bio.c], [memide.c], [log.c], [fs.c]): [Bio] and [BioSpec] are
      the cache; [Log], [LogSpec], [LogLoops], [LogThms], [LogOps] the log; [Fs],
      [FsBlk], [FsAlloc], [FsInode], [FsFile], [FsWrite], [FsThms], [FsDir] files
      and directories.
    - Open files ([file.c], [sysfile.c], [pipe.c]): [File], [Pipe].
    - The console ([console.c]): [Console], [ConsoleThms], [ConsoleEdit].
    - [mkfs] ([mkfs.c]): [Mkfs], [MkfsAppend], [MkfsMade], [MkfsThms], [MkfsRead].
    - User programs: [User] is the library and the small programs ([ulib.c],
      [printf.c], [cat.c], [wc.c], [echo.c], [ls.c], ...), [Grep] is [grep.c],
      [Progs] is [forktest.c] and [schedTest.c]; [Sh], [ShThms], [ShCmd], [ShRun]
      the shell ([sh.c]); [UmallocInv], [UmallocThms], [UmallocObjs] the
      allocator ([umalloc.c]).

    Components that meet do so through classes: [FileOps], [FileRefs],
    [FileLaws] and [ExecFiles] are what processes need of files, [FileCalls] and
    [CallLaws] what the dispatch of system calls needs of them, [DevSw] the
    device table, [Disk] the size of the disk, [Sys] and [SysLaws] what a user
    program sees of the kernel, [Sbrk] what [malloc] does.  [KernelImage],
    [ProcTable] and [CpuInfo] are addresses that the linker and the machine
    choose.  Sample modules have instances of the classes, and apply the theorems
    with hypotheses to concrete states.

    ** What is shown

    - Memory: to user programs, address spaces behave as separate memories that
      [fork] copies ([Spaces.copyuvm_refines], [user_write_refines]); reference
      counts are exact ([refcount_exact]), pages are given back ([freevm_releases])
      and every other fault is refused ([pagefault_other]).  Two faults that
      overlap leak a page ([Race.concurrent_faults_leak]), and [allocuvm] can
      report success without a mapping ([Alloc.allocuvm_false_success]).
    - Processes: [fork], [exit] and [exec] do what they promise
      ([ProcThms.fork_correct], [exit_correct], [ExecThms.exec_correct]); in every
      reachable state the processes are isolated ([reachable_isolated]); no trap
      breaks the kernel ([TrapSafe.trap_safe]); the lottery is fair and a
      runnable process is found ([Sched.lottery_fair], [scheduler_progress]).
    - Entering the kernel: the frame and the registers are those the C code
      expects ([Entry.trap_saves_registers], [swtch_returns],
      [new_process_starts]); spin locks exclude ([LockThms.spinlock_excludes]);
      arguments of system calls lie in the process
      ([Syscall.arguments_in_process]).
    - Start-up: the loader puts the kernel in place ([Boot.bootmain_loads]), the
      processors are found and started ([Mp.mpinit_reads], [Cpus.others_start]),
      and [sched] keeps the interrupt flag of a process across processors
      ([Cpus.sched_keeps_flag]).
    - Disk: requests are served in order ([Ide.requests_in_order]); a system call
      is atomic with respect to a crash at any disk write
      ([LogOps.end_op_atomic]), though the space reserved is one block short
      ([log_reservation_short]); what is written is read back
      ([FsThms.write_then_read], [FsWrite.writei_correct]); what [mkfs] makes is
      a file system whose files the kernel finds and reads after its start
      ([MkfsThms.mkfs_makes_image], [MkfsRead.mkfs_then_read]).
    - Pipes are bounded queues ([Pipe.pipe_fifo]); the console is a line editor
      with a history ([ConsoleEdit.console_implements_editor]).
    - User programs: [grep] prints the lines its pattern denotes
      ([Grep.match_correct], [grep_main_prints]); the shell parses every line and
      runs it with the processes and descriptors its syntax stands for
      ([ShCmd.parsecmd_ends], [ShRun.shell_wires_line]); objects from [malloc] are
      separate ([UmallocObjs.objects_separate]); [forktest] passes under every
      order of steps, and the children that [schedTest] puts into its lottery
      queue are never chosen ([Progs.forktest_passes], [lottery_children_starve]).

    ** Bounds

    A loop that is not structural has a bound of iterations.  Where the source
    gives the number (the bytes of a read, the entries of a directory, the length
    of a line or a path, the characters of a number) the definition computes a
    bound from it, and the theorem shows that it is enough.  Where it depends on
    the world (the length of a file in [cat], [wc], [grep] and [ls], the free
    list in [free], a device that becomes ready, the clock in [cmostime]) the
    bound is an argument, and the theorem says which values are enough.  A
    spinning [acquire] returns only if the lock is freed; its theorem is about
    every interleaving of the processors instead.  Sizes are those of the source:
    64 processes, 50 inodes in the cache, 30 buffers, 30 blocks of log, 1000
    blocks of disk.

    ** Not modelled

    - Processors other than the one that runs, except where the code is about
      them: locks, [Race], [Ide], and [Cpus].  The other components run with
      their lock held from its acquisition to its release.
    - Timing, caches of the processor and of address translation; [lcr3]
      records the page directory that is loaded.
    - [seginit] stores through %gs, which no code sets up ([Cpus.seginit_flat]);
      in [pagefault] the variable [proc] is taken to be the current process.
    - The messages printed on the way, except where printing is the subject.
    - [main], [mpenter] and [mpmain] as one sequence: the routines they call are
      modelled one by one.
    - [middle.c] beyond its sort and its text, and the endless loops of [init.c]
      and of [sh.c] around the modelled parts.
    - The test programs [usertests.c] and [stressfs.c] and the demonstrations
      ([zombie.c], [sf.c], [ps.c], [myproc.c], [setQueue.c], ...), which only
      make system calls; the generated [vectors.S]; the build scripts. *)
From stdpp Require Import base gmap list numbers strings.
From Stdlib Require Import ZArith Lia ZifyBool.

Open Scope Z_scope.

(** ** Machine integers

    C's [uint], [int], [char] and [short] on i386, as [Z] with the
    wrap-around written out.  [int] and [char] are two's complement, and
    [char] is signed, as gcc has them for this target. *)

Definition u32 (x : Z) : Z := x mod 4294967296.
Definition i32 (x : Z) : Z := (x + 2147483648) mod 4294967296 - 2147483648.
Definition u16 (x : Z) : Z := x mod 65536.
Definition i16 (x : Z) : Z := (x + 32768) mod 65536 - 32768.
Definition u8 (x : Z) : Z := x mod 256.
Definition i8 (x : Z) : Z := (x + 128) mod 256 - 128.

Create HintDb xv6.
#[export] Hint Unfold u32 i32 u16 i16 u8 i8 : xv6.

(** [zlia] is [lia] after unfolding the constants of the development and
    turning [/] and [mod] by constants into linear equations. *)
Ltac zunfold := repeat autounfold with xv6 in *.
Ltac zlia := zunfold; Z.to_euclidean_division_equations; lia.
Ltac zbool :=
  repeat match goal with
  | H : (_ =? _) = true |- _ => apply Z.eqb_eq in H
  | H : (_ =? _) = false |- _ => apply Z.eqb_neq in H
  | H : (_ <? _) = true |- _ => apply Z.ltb_lt in H
  | H : (_ <? _) = false |- _ => apply Z.ltb_ge in H
  | H : (_ <=? _) = true |- _ => apply Z.leb_le in H
  | H : (_ <=? _) = false |- _ => apply Z.leb_gt in H
  | H : (_ && _)%bool = true |- _ => apply andb_true_iff in H; destruct H
  | H : (_ || _)%bool = false |- _ => apply orb_false_iff in H; destruct H
  | H : negb _ = true |- _ => apply negb_true_iff in H
  | H : negb _ = false |- _ => apply negb_false_iff in H
  end.

Lemma u32_id (x : Z) : 0 <= x < 4294967296 -> u32 x = x.
Proof. intros; unfold u32; apply Z.mod_small; lia. Qed.

Lemma u32_range (x : Z) : 0 <= u32 x < 4294967296.
Proof. unfold u32; apply Z.mod_pos_bound; lia. Qed.

Lemma i32_id (x : Z) : -2147483648 <= x < 2147483648 -> i32 x = x.
Proof. intros; unfold i32; rewrite Z.mod_small; lia. Qed.

Lemma i8_id (x : Z) : -128 <= x < 128 -> i8 x = x.
Proof. intros; unfold i8; rewrite Z.mod_small; lia. Qed.

(** ** Lists *)

Lemma alter_item {A} (f : A -> A) (i : nat) (x : A) (l : list A) : l !! i = Some x -> alter f i l = <[i := f x]> l.
Proof. revert i. induction l as [|y l IH]; intros [|i] H; cbn in *; [done..|by injection H as ->|]. f_equal. by apply IH. Qed.

(** ** Kernel computations

    A kernel routine is a function from the state of its component to a
    result: it returns a value in a new state; it calls [panic]; it makes an
    access the hardware or the language does not define ([Fault]: a null or
    out-of-range pointer, an index outside an array); it goes to sleep on a
    channel ([Block]) waiting for another thread; or a loop of the model
    used up its bound ([NoFuel]). *)

Inductive result (S A : Type) : Type :=
| Ok (a : A) (s : S)
| Panic (msg : string)
| Fault (why : string)
| Block (chan : Z)
| NoFuel.
Arguments Ok {S A} a s.
Arguments Panic {S A} msg.
Arguments Fault {S A} why.
Arguments Block {S A} chan.
Arguments NoFuel {S A}.

Definition M (S A : Type) : Type := S -> result S A.

Section Monad.
Context {S : Type}.

Definition ret {A} (a : A) : M S A := fun s => Ok a s.

Definition bind {A B} (c : M S A) (k : A -> M S B) : M S B := fun s =>
  match c s with
  | Ok a s' => k a s'
  | Panic m => Panic m
  | Fault w => Fault w
  | Block ch => Block ch
  | NoFuel => NoFuel
  end.

Definition gets {A} (f : S -> A) : M S A := fun s => Ok (f s) s.
Definition modify (f : S -> S) : M S unit := fun s => Ok tt (f s).
Definition panic {A} (m : string) : M S A := fun _ => Panic m.
Definition fault {A} (w : string) : M S A := fun _ => Fault w.
Definition sleep_on {A} (ch : Z) : M S A := fun _ => Block ch.
Definition when (b : bool) (c : M S unit) : M S unit := if b then c else ret tt.

(** A C loop: [body] either continues with a new loop state ([inl]) or
    leaves the loop ([inr]). *)
Fixpoint loop {A B} (fuel : nat) (body : A -> M S (A + B)) (a : A) : M S B :=
  match fuel with
  | O => fun _ => NoFuel
  | Datatypes.S n =>
      bind (body a) (fun r =>
        match r with
        | inl a' => loop n body a'
        | inr b => ret b
        end)
  end.
End Monad.

Declare Scope kernel_scope.
Delimit Scope kernel_scope with K.
Notation "'let!' x ':=' c 'in' k" := (bind c (fun x => k))
  (at level 200, x pattern, c at level 100, k at level 200,
   format "'let!'  x  ':='  c  'in' '//' k") : kernel_scope.
Notation "c ';;;' k" := (bind c (fun _ => k))
  (at level 200, right associativity, format "c  ';;;' '//' k") : kernel_scope.
Open Scope kernel_scope.

(** Running a routine of one component inside a larger state. *)
Definition zoom {S T A} (get : T -> S) (put : S -> T -> T) (c : M S A) : M T A :=
  fun t =>
    match c (get t) with
    | Ok a s => Ok a (put s t)
    | Panic m => Panic m
    | Fault w => Fault w
    | Block ch => Block ch
    | NoFuel => NoFuel
    end.

(** ** Total-correctness triples

    [wp c Q s]: from [s], [c] returns, and its value and final state satisfy
    [Q].  A panic, a fault, a sleep or an exhausted bound is excluded. *)
Definition wp {S A} (c : M S A) (Q : A -> S -> Prop) (s : S) : Prop :=
  match c s with
  | Ok a s' => Q a s'
  | _ => False
  end.

Section WpRules.
Context {S : Type}.
Implicit Types (s : S).

Lemma wp_ret {A} (a : A) Q s : Q a s -> wp (ret a) Q s.
Proof. exact id. Qed.

Lemma wp_bind {A B} (c : M S A) (k : A -> M S B) Q s :
  wp c (fun a s' => wp (k a) Q s') s -> wp (bind c k) Q s.
Proof. unfold wp, bind. by destruct (c s). Qed.

Lemma wp_gets {A} (f : S -> A) Q s : Q (f s) s -> wp (gets f) Q s.
Proof. exact id. Qed.

Lemma wp_modify (f : S -> S) Q s : Q tt (f s) -> wp (modify f) Q s.
Proof. exact id. Qed.

Lemma wp_mono {A} (c : M S A) (Q Q' : A -> S -> Prop) s :
  wp c Q s -> (forall a s', Q a s' -> Q' a s') -> wp c Q' s.
Proof. unfold wp. destruct (c s); auto. Qed.

Lemma wp_when (b : bool) (c : M S unit) Q s :
  (b = true -> wp c Q s) -> (b = false -> Q tt s) -> wp (when b c) Q s.
Proof. destruct b; cbn; auto. Qed.

Lemma wp_Ok {A} (c : M S A) (Q : A -> S -> Prop) s :
  wp c Q s -> exists a s', c s = Ok a s' /\ Q a s'.
Proof. unfold wp. destruct (c s) eqn:E; try done. eauto. Qed.

Lemma wp_from_Ok {A} (c : M S A) (Q : A -> S -> Prop) s a s' :
  c s = Ok a s' -> Q a s' -> wp c Q s.
Proof. unfold wp. by intros ->. Qed.

(** Loops: an invariant, a measure that decreases, fuel above it. *)
Lemma wp_loop {A B} (I : A -> S -> Prop) (mu : A -> nat)
    (body : A -> M S (A + B)) (Q : B -> S -> Prop) :
  (forall a s, I a s ->
     wp (body a) (fun r s' =>
       match r with
       | inl a' => I a' s' /\ (mu a' < mu a)%nat
       | inr b => Q b s'
       end) s) ->
  forall fuel a s, I a s -> (mu a < fuel)%nat -> wp (loop fuel body a) Q s.
Proof.
  intros Hbody fuel. induction fuel as [|n IH]; intros a s HI Hlt; [lia|].
  cbn. apply wp_bind. eapply wp_mono; [by apply Hbody|].
  intros [a'|b] s'; cbn; [|auto]. intros [HI' Hmu]. apply IH; [done|lia].
Qed.

Lemma wp_zoom {T A} (get : T -> S) (put : S -> T -> T) (c : M S A) Q (t : T) :
  wp c (fun a s => Q a (put s t)) (get t) -> wp (zoom get put c) Q t.
Proof. unfold wp, zoom. by destruct (c (get t)). Qed.
End WpRules.

(** Symbolic execution of the straight-line parts of a routine. *)
Ltac wp_step :=
  match goal with
  | |- wp (bind _ _) _ _ => apply wp_bind
  | |- wp (ret _) _ _ => apply wp_ret
  | |- wp (gets _) _ _ => apply wp_gets
  | |- wp (modify _) _ _ => apply wp_modify
  | |- wp (if ?b then _ else _) _ _ => destruct b eqn:?
  | |- wp (when ?b _) _ _ => apply wp_when; intros
  end.
Ltac wp_steps := repeat (wp_step; cbn beta iota).

(** ** Parts of the state that a routine leaves alone *)

Definition leaves {S A B} (f : S -> B) (c : M S A) : Prop := forall s a s', c s = Ok a s' -> f s' = f s.

Section Leaves.
Context {S B : Type} (f : S -> B).

Lemma leaves_ret {A} (a : A) : leaves f (ret a).
Proof. by intros s b s' [= <- <-]. Qed.
Lemma leaves_gets {A} (g : S -> A) : leaves f (gets g).
Proof. by intros s b s' [= <- <-]. Qed.
Lemma leaves_modify (g : S -> S) : (forall s, f (g s) = f s) -> leaves f (modify g).
Proof. intros H s b s' [= <- <-]. apply H. Qed.
Lemma leaves_panic {A} (m : string) : leaves f (panic (A := A) m).
Proof. by intros s b s'. Qed.
Lemma leaves_fault {A} (m : string) : leaves f (fault (A := A) m).
Proof. by intros s b s'. Qed.
Lemma leaves_bind {A C} (c : M S A) (k : A -> M S C) : leaves f c -> (forall a, leaves f (k a)) -> leaves f (bind c k).
Proof.
  intros H1 H2 s b s'. unfold bind. destruct (c s) as [a s1| | | |] eqn:E; try done. intros E2.
  by rewrite (H2 a s1 b s' E2), (H1 s a s1 E).
Qed.
Lemma leaves_when (b : bool) (c : M S unit) : leaves f c -> leaves f (when b c).
Proof. intros H. destruct b; [done|apply leaves_ret]. Qed.
Lemma leaves_loop {A C} (fuel : nat) (body : A -> M S (A + C)) (a : A) :
  (forall a, leaves f (body a)) -> leaves f (loop fuel body a).
Proof.
  intros H. revert a. induction fuel as [|n IH]; intros a; [by intros s b s'|]. cbn.
  apply leaves_bind; [done|]. intros [a'|b]; [done|apply leaves_ret].
Qed.
Lemma leaves_wp {A} (c : M S A) (Q : A -> S -> Prop) s :
  leaves f c -> wp c Q s -> wp c (fun a s' => Q a s' /\ f s' = f s) s.
Proof. unfold wp. intros H. destruct (c s) as [a s1| | | |] eqn:E; try done. intros HQ. split; [done|by eapply H]. Qed.
End Leaves.

Lemma leaves_zoom {S T A B} (f : T -> B) (get : T -> S) (put : S -> T -> T) (c : M S A) :
  (forall x t, f (put x t) = f t) -> leaves f (zoom get put c).
Proof. intros H t a t'. unfold zoom. destruct (c (get t)); try done. intros [= <- <-]. apply H. Qed.

Ltac leaves_step :=
  first
    [ apply leaves_ret | apply leaves_gets | apply leaves_panic | apply leaves_fault
    | apply leaves_modify; intros; reflexivity
    | apply leaves_zoom; intros; reflexivity
    | apply leaves_when | apply leaves_loop; intros
    | apply leaves_bind; [|intros]
    | match goal with |- leaves _ (match ?x with _ => _ end) => destruct x end
    | assumption ].
Ltac leaves := repeat leaves_step.
