(* ===== verification/Machine.v ===== *)
(** * Machine: addresses, page-table bits and byte memory

    The constants and macros of [param.h], [memlayout.h] and [mmu.h], and
    physical memory as a function from addresses to bytes with the
    little-endian 32-bit accesses the kernel makes. *)
From stdpp Require Import base gmap list numbers strings.
From Stdlib Require Import ZArith Lia ZifyBool.
From S2P Require Import Prelude.

(** ** Constants *)

Definition NPROC : Z := 64.
Definition KSTACKSIZE : Z := 4096.
Definition NOFILE : Z := 16.
Definition NFILE : Z := 100.
Definition NINODE : Z := 50.
Definition NDEV : Z := 10.
Definition ROOTDEV : Z := 1.
Definition MAXARG : Z := 32.
Definition MAXOPBLOCKS : Z := 10.
Definition LOGSIZE : Z := MAXOPBLOCKS * 3.
Definition NBUF : Z := MAXOPBLOCKS * 3.
Definition FSSIZE : Z := 1000.

Definition EXTMEM : Z := 0x100000.
Definition PHYSTOP : Z := 0xE000000.
Definition DEVSPACE : Z := 0xFE000000.
Definition KERNBASE : Z := 0x80000000.
Definition KERNLINK : Z := KERNBASE + EXTMEM.

Definition V2P (a : Z) : Z := u32 (a - KERNBASE).
Definition P2V (a : Z) : Z := u32 (a + KERNBASE).

Definition NPDENTRIES : Z := 1024.
Definition NPTENTRIES : Z := 1024.
Definition PGSIZE : Z := 4096.
Definition PGSHIFT : Z := 12.
Definition PTXSHIFT : Z := 12.
Definition PDXSHIFT : Z := 22.

Definition PTE_P : Z := 1.
Definition PTE_W : Z := 2.
Definition PTE_U : Z := 4.
Definition PTE_PS : Z := 128.

Definition PDX (va : Z) : Z := Z.land (Z.shiftr va PDXSHIFT) 0x3FF.
Definition PTX (va : Z) : Z := Z.land (Z.shiftr va PTXSHIFT) 0x3FF.

Definition PGROUNDUP (sz : Z) : Z :=
  Z.land (u32 (sz + PGSIZE - 1)) (u32 (Z.lnot (PGSIZE - 1))).
Definition PGROUNDDOWN (a : Z) : Z := Z.land a (u32 (Z.lnot (PGSIZE - 1))).

Definition PTE_ADDR (pte : Z) : Z := Z.land pte (u32 (Z.lnot 0xFFF)).
Definition PTE_FLAGS (pte : Z) : Z := Z.land pte 0xFFF.

#[export] Hint Unfold NPROC KSTACKSIZE NOFILE NFILE NINODE NDEV ROOTDEV MAXARG
  MAXOPBLOCKS LOGSIZE NBUF FSSIZE EXTMEM PHYSTOP DEVSPACE KERNBASE KERNLINK
  V2P P2V NPDENTRIES NPTENTRIES PGSIZE PGSHIFT PTXSHIFT PDXSHIFT
  PTE_P PTE_W PTE_U PTE_PS : xv6.

(** ** Arithmetic readings of the bit macros *)

Lemma testbit_u32_high (x n : Z) :
  0 <= x < 4294967296 -> 32 <= n -> Z.testbit x n = false.
Proof.
  intros Hx Hn. rewrite <- (Z.mod_small x (2 ^ 32)) by (cbn; lia).
  apply Z.mod_pow2_bits_high; lia.
Qed.

Lemma land_mask_high (x : Z) :
  0 <= x < 4294967296 -> Z.land x 0xFFFFF000 = x - x mod 4096.
Proof.
  intros Hx.
  assert (E : Z.land x 0xFFFFF000 = Z.ldiff x (Z.ones 12)).
  { change 0xFFFFF000 with (Z.shiftl (Z.ones 20) 12).
    apply Z.bits_inj'. intros n Hn.
    rewrite Z.land_spec, Z.ldiff_spec, Z.shiftl_spec by lia.
    destruct (Z.lt_ge_cases n 12).
    - rewrite (Z.testbit_neg_r _ (n - 12)), Z.ones_spec_low by lia.
      by rewrite !andb_false_r.
    - rewrite (Z.ones_spec_high 12) by lia.
      destruct (Z.lt_ge_cases n 32).
      + rewrite Z.ones_spec_low by lia. done.
      + by rewrite testbit_u32_high by lia. }
  rewrite E, Z.ldiff_ones_r by lia.
  rewrite Z.shiftl_mul_pow2, Z.shiftr_div_pow2 by lia.
  change (2 ^ 12) with 4096. pose proof (Z.div_mod x 4096). lia.
Qed.

(** A page-aligned address or-ed with bits below the page size. *)
Lemma lor_aligned (f k : Z) : f mod 4096 = 0 -> 0 <= k < 4096 -> Z.lor f k = f + k.
Proof.
  intros Hf Hk. symmetry. apply Z.add_nocarry_lor.
  apply Z.bits_inj'. intros n Hn. rewrite Z.land_spec, Z.bits_0.
  destruct (Z.lt_ge_cases n 12).
  - rewrite <- (Z.mod_pow2_bits_low f 12 n) by lia.
    change (2 ^ 12) with 4096. by rewrite Hf, Z.bits_0.
  - rewrite <- (Z.mod_small k (2 ^ 12)) by (cbn; lia).
    rewrite (Z.mod_pow2_bits_high k) by lia. apply andb_false_r.
Qed.

Lemma PTE_ADDR_eq (w : Z) : 0 <= w < 4294967296 -> PTE_ADDR w = w - w mod 4096.
Proof. apply land_mask_high. Qed.

Lemma PGROUNDDOWN_eq (a : Z) : 0 <= a < 4294967296 -> PGROUNDDOWN a = a - a mod 4096.
Proof. apply land_mask_high. Qed.

Lemma PGROUNDUP_eq (a : Z) :
  0 <= a <= 4294963200 -> PGROUNDUP a = (a + 4095) - (a + 4095) mod 4096.
Proof.
  intros H. unfold PGROUNDUP. rewrite (u32_id (a + PGSIZE - 1)) by zlia.
  change (u32 (Z.lnot (PGSIZE - 1))) with 0xFFFFF000.
  rewrite land_mask_high by zlia. zlia.
Qed.

Lemma PTE_FLAGS_eq (w : Z) : PTE_FLAGS w = w mod 4096.
Proof. unfold PTE_FLAGS. change 0xFFF with (Z.ones 12). by rewrite Z.land_ones by lia. Qed.

Lemma PDX_eq (va : Z) : PDX va = va / 4194304 mod 1024.
Proof.
  unfold PDX. change 0x3FF with (Z.ones 10). rewrite Z.land_ones by lia.
  by rewrite Z.shiftr_div_pow2 by zlia.
Qed.

Lemma PTX_eq (va : Z) : PTX va = va / 4096 mod 1024.
Proof.
  unfold PTX. change 0x3FF with (Z.ones 10). rewrite Z.land_ones by lia.
  by rewrite Z.shiftr_div_pow2 by zlia.
Qed.

(** Testing, clearing and setting a single flag. *)
Lemma land_pow2 (w n : Z) :
  0 <= n -> Z.land w (2 ^ n) = if Z.testbit w n then 2 ^ n else 0.
Proof.
  intros Hn. apply Z.bits_inj'. intros k Hk.
  rewrite Z.land_spec, Z.pow2_bits_eqb by lia.
  destruct (Z.eqb_spec n k) as [<-|Hne].
  - rewrite andb_true_r. destruct (Z.testbit w n) eqn:E.
    + by rewrite Z.pow2_bits_true by lia.
    + by rewrite Z.bits_0.
  - rewrite andb_false_r. destruct (Z.testbit w n).
    + by rewrite Z.pow2_bits_false by lia.
    + by rewrite Z.bits_0.
Qed.

Lemma land_pow2_eqb (w n : Z) :
  0 <= n -> (Z.land w (2 ^ n) =? 0) = negb (Z.testbit w n).
Proof.
  intros Hn. rewrite land_pow2 by done.
  assert (2 ^ n <> 0) by (apply Z.pow_nonzero; lia).
  destruct (Z.testbit w n); [by apply Z.eqb_neq|done].
Qed.

Lemma land_PTE_P (w : Z) : (Z.land w PTE_P =? 0) = negb (Z.testbit w 0).
Proof. apply (land_pow2_eqb w 0); lia. Qed.
Lemma land_PTE_W (w : Z) : (Z.land w PTE_W =? 0) = negb (Z.testbit w 1).
Proof. apply (land_pow2_eqb w 1); lia. Qed.
Lemma land_PTE_U (w : Z) : (Z.land w PTE_U =? 0) = negb (Z.testbit w 2).
Proof. apply (land_pow2_eqb w 2); lia. Qed.

(** [*pte &= ~flag] for a flag [2^b] below the page size. *)
Definition clear_bit (w b : Z) : Z := Z.land w (u32 (Z.lnot (2 ^ b))).

Lemma u32_lnot_pow2_testbit (b n : Z) :
  0 <= b -> 0 <= n < 32 -> Z.testbit (u32 (Z.lnot (2 ^ b))) n = negb (b =? n).
Proof.
  intros Hb Hn. unfold u32. change 4294967296 with (2 ^ 32).
  by rewrite Z.mod_pow2_bits_low, Z.lnot_spec, Z.pow2_bits_eqb by lia.
Qed.

Lemma testbit_clear_bit (w b n : Z) :
  0 <= w < 4294967296 -> 0 <= b -> 0 <= n ->
  Z.testbit (clear_bit w b) n = Z.testbit w n && negb (b =? n).
Proof.
  intros Hw Hb Hn. unfold clear_bit. rewrite Z.land_spec.
  destruct (Z.lt_ge_cases n 32).
  - by rewrite u32_lnot_pow2_testbit by lia.
  - by rewrite (testbit_u32_high w) by lia.
Qed.

Lemma u32_bits (w : Z) :
  (forall n, 32 <= n -> Z.testbit w n = false) -> 0 <= w -> w < 4294967296.
Proof.
  intros Hb Hw. change 4294967296 with (2 ^ 32).
  destruct (Z.lt_ge_cases w (2 ^ 32)) as [|Hge]; [done|exfalso].
  assert (0 < w) by lia.
  assert (32 <= Z.log2 w).
  { apply Z.log2_le_pow2; lia. }
  pose proof (Z.bit_log2 w). rewrite Hb in *; [|done]. naive_solver lia.
Qed.

Lemma clear_bit_range (w b : Z) :
  0 <= w < 4294967296 -> 0 <= b -> 0 <= clear_bit w b < 4294967296.
Proof.
  intros Hw Hb.
  assert (0 <= clear_bit w b) by (apply Z.land_nonneg; lia).
  split; [done|]. apply u32_bits; [|done]. intros n Hn.
  rewrite testbit_clear_bit by lia. by rewrite testbit_u32_high by lia.
Qed.

Lemma clear_bit_PTE_ADDR (w b : Z) :
  0 <= b < 12 -> PTE_ADDR (clear_bit w b) = PTE_ADDR w.
Proof.
  intros Hb. unfold PTE_ADDR, clear_bit. rewrite <- Z.land_assoc. f_equal.
  change (u32 (Z.lnot 0xFFF)) with (Z.shiftl (Z.ones 20) 12).
  apply Z.bits_inj'. intros n Hn. rewrite Z.land_spec, Z.shiftl_spec by lia.
  destruct (Z.lt_ge_cases n 12); [|destruct (Z.lt_ge_cases n 32)].
  - by rewrite (Z.testbit_neg_r _ (n - 12)), andb_false_r by lia.
  - rewrite u32_lnot_pow2_testbit by lia.
    by replace (b =? n) with false by (symmetry; apply Z.eqb_neq; lia).
  - by rewrite Z.ones_spec_high, andb_false_r by lia.
Qed.

(** Bits of [f | k]. *)
Lemma testbit_aligned (f k n : Z) :
  f mod 4096 = 0 -> 0 <= k < 4096 -> 0 <= n < 12 ->
  Z.testbit (f + k) n = Z.testbit k n.
Proof.
  intros Hf Hk Hn. rewrite <- (Z.mod_pow2_bits_low (f + k) 12 n) by lia.
  change (2 ^ 12) with 4096. f_equal.
  rewrite Z.add_mod, Hf, Z.add_0_l, Z.mod_mod by lia. apply Z.mod_small; lia.
Qed.

Lemma lor_range (x y : Z) :
  0 <= x < 4096 -> 0 <= y < 4096 -> 0 <= Z.lor x y < 4096.
Proof.
  intros Hx Hy. split; [apply Z.lor_nonneg; lia|].
  destruct (Z.eq_dec (Z.lor x y) 0) as [->|Hnz]; [lia|].
  change 4096 with (2 ^ 12). apply Z.log2_lt_pow2.
  { assert (0 <= Z.lor x y) by (apply Z.lor_nonneg; lia). lia. }
  rewrite Z.log2_lor by lia.
  assert (forall z, 0 <= z < 4096 -> Z.log2 z < 12) as Hl.
  { intros z Hz. destruct (Z.eq_dec z 0) as [->|]; [by compute|].
    apply Z.log2_lt_pow2; [lia|]. change (2 ^ 12) with 4096. lia. }
  pose proof (Hl x Hx). pose proof (Hl y Hy). lia.
Qed.

(** ** Byte memory *)

(** Physical memory: an address to the byte there. *)
Definition memory : Type := Z -> Z.

Definition mem_wf (m : memory) : Prop := forall a, 0 <= m a < 256.

Definition store8 (m : memory) (a b : Z) : memory :=
  fun x => if x =? a then u8 b else m x.

Definition load32 (m : memory) (a : Z) : Z :=
  m a + 256 * m (a + 1) + 65536 * m (a + 2) + 16777216 * m (a + 3).

Definition store32 (m : memory) (a v : Z) : memory :=
  fun x =>
    if x =? a then v mod 256
    else if x =? a + 1 then v / 256 mod 256
    else if x =? a + 2 then v / 65536 mod 256
    else if x =? a + 3 then v / 16777216 mod 256
    else m x.

(** Agreement of two memories on [n] bytes from [a]. *)
Definition same_range (m m' : memory) (a n : Z) : Prop :=
  forall x, a <= x < a + n -> m' x = m x.

Lemma load32_range (m : memory) (a : Z) : mem_wf m -> 0 <= load32 m a < 4294967296.
Proof.
  intros H. unfold load32.
  pose proof (H a); pose proof (H (a + 1)); pose proof (H (a + 2));
    pose proof (H (a + 3)). lia.
Qed.

Lemma load32_same (m m' : memory) (a : Z) :
  same_range m m' a 4 -> load32 m' a = load32 m a.
Proof. intros H. unfold load32. by rewrite !H by lia. Qed.

Lemma store32_wf (m : memory) (a v : Z) : mem_wf m -> mem_wf (store32 m a v).
Proof. intros H x. unfold store32. repeat case_match; (apply H || zlia). Qed.

Lemma store32_other (m : memory) (a v x : Z) :
  x < a \/ a + 4 <= x -> store32 m a v x = m x.
Proof. intros H. unfold store32. repeat case_match; zbool; lia. Qed.

Lemma load32_store32_eq (m : memory) (a v : Z) :
  0 <= v < 4294967296 -> load32 (store32 m a v) a = v.
Proof.
  intros H. unfold load32, store32.
  replace (a =? a) with true by lia.
  replace (a + 1 =? a) with false by lia. replace (a + 1 =? a + 1) with true by lia.
  replace (a + 2 =? a) with false by lia. replace (a + 2 =? a + 1) with false by lia.
  replace (a + 2 =? a + 2) with true by lia.
  replace (a + 3 =? a) with false by lia. replace (a + 3 =? a + 1) with false by lia.
  replace (a + 3 =? a + 2) with false by lia. replace (a + 3 =? a + 3) with true by lia.
  zlia.
Qed.

Lemma load32_store32_ne (m : memory) (a b v : Z) :
  b + 4 <= a \/ a + 4 <= b -> load32 (store32 m a v) b = load32 m b.
Proof. intros H. apply load32_same. intros x Hx. apply store32_other. lia. Qed.
