(* ===== verification/Cstring.v ===== *)
(** * Cstring: the kernel's string routines ([string.c])

    The block routines work on memory, the string routines on memory seen
    from a pointer.  Each is the source's loop; the lemmas give the range or
    the list of characters it computes. *)
From stdpp Require Import base gmap list numbers strings.
From Stdlib Require Import ZArith Lia ZifyBool.
From S2P Require Import Prelude Machine.

(** ** Block routines *)

(** [x86.h]: [rep stosb] and [rep stosl]. *)
Fixpoint stosb (m : memory) (addr data : Z) (cnt : nat) : memory :=
  match cnt with
  | O => m
  | S n => stosb (store8 m addr data) (addr + 1) data n
  end.

Fixpoint stosl (m : memory) (addr data : Z) (cnt : nat) : memory :=
  match cnt with
  | O => m
  | S n => stosl (store32 m addr data) (addr + 4) data n
  end.

Definition memset (m : memory) (dst c n : Z) : memory :=
  if (Z.rem (i32 dst) 4 =? 0) && (n mod 4 =? 0) then
    let c := Z.land c 0xFF in
    stosl m dst
      (Z.lor (Z.lor (Z.lor (Z.shiftl c 24) (Z.shiftl c 16)) (Z.shiftl c 8)) c)
      (Z.to_nat (n / 4))
  else stosb m dst c (Z.to_nat n).

Fixpoint memcmp (v1 v2 : Z -> Z) (n : nat) : Z :=
  match n with
  | O => 0
  | S n => if v1 0 =? v2 0 then memcmp (fun i => v1 (i + 1)) (fun i => v2 (i + 1)) n
           else v1 0 - v2 0
  end.

(** The two loops of [memmove]: [*d++ = *s++] and [*--d = *--s]. *)
Fixpoint copy_up (m : memory) (d s : Z) (n : nat) : memory :=
  match n with
  | O => m
  | S n => copy_up (store8 m d (m s)) (d + 1) (s + 1) n
  end.

Fixpoint copy_down (m : memory) (d s : Z) (n : nat) : memory :=
  match n with
  | O => m
  | S n => copy_down (store8 m (d - 1) (m (s - 1))) (d - 1) (s - 1) n
  end.

Definition memmove (m : memory) (dst src n : Z) : memory :=
  if (src <? dst) && (dst <? src + n)
  then copy_down m (dst + n) (src + n) (Z.to_nat n)
  else copy_up m dst src (Z.to_nat n).

Definition memcpy (m : memory) (dst src n : Z) : memory := memmove m dst src n.

(** ** String routines *)

(** Memory seen from a pointer. *)
Definition view (m : memory) (a : Z) : Z -> Z := fun i => m (a + i).
Definition next (p : Z -> Z) : Z -> Z := fun i => p (i + 1).

Fixpoint strncmp (p q : Z -> Z) (n : nat) : Z :=
  match n with
  | O => 0
  | S n => if negb (p 0 =? 0) && (p 0 =? q 0) then strncmp (next p) (next q) n
           else p 0 - q 0
  end.

(** [strncpy]: the copy loop, which tests [n-- > 0] before each character
    and stops after copying a NUL, then the padding loop.  After the copy
    loop stops on the count, [n] is [-1] and nothing is padded. *)
Fixpoint strncpy_pad (m : memory) (s : Z) (n : nat) : memory :=
  match n with
  | O => m
  | S n => strncpy_pad (store8 m s 0) (s + 1) n
  end.

Fixpoint strncpy (m : memory) (s : Z) (t : Z -> Z) (n : nat) : memory :=
  match n with
  | O => m
  | S n =>
      if t 0 =? 0 then strncpy_pad (store8 m s (t 0)) (s + 1) n
      else strncpy (store8 m s (t 0)) (s + 1) (next t) n
  end.

(** [safestrcpy]: the copy loop tests [--n > 0]; the terminator is written
    where the loop stopped. *)
Fixpoint safestrcpy_loop (m : memory) (s : Z) (t : Z -> Z) (n : nat) : memory :=
  match n with
  | O => store8 m s 0
  | S n =>
      if t 0 =? 0 then store8 (store8 m s (t 0)) (s + 1) 0
      else safestrcpy_loop (store8 m s (t 0)) (s + 1) (next t) n
  end.

Definition safestrcpy (m : memory) (s : Z) (t : Z -> Z) (n : Z) : memory :=
  if n <=? 0 then m else safestrcpy_loop m s t (Z.to_nat (n - 1)).

(** [strlen], with a bound on the number of characters inspected. *)
Fixpoint strlen (fuel : nat) (s : Z -> Z) : option Z :=
  match fuel with
  | O => None
  | S n => if s 0 =? 0 then Some 0 else Z.succ <$> strlen n (next s)
  end.

(** ** What the block routines compute *)

Lemma store8_eq (m : memory) (a b : Z) : store8 m a b a = u8 b.
Proof. unfold store8. by rewrite Z.eqb_refl. Qed.

Lemma store8_ne (m : memory) (a b x : Z) : x <> a -> store8 m a b x = m x.
Proof. intros H. unfold store8. by rewrite (proj2 (Z.eqb_neq x a)). Qed.

Lemma store8_wf (m : memory) (a b : Z) : mem_wf m -> mem_wf (store8 m a b).
Proof. intros H x. unfold store8. case_match; [zlia|apply H]. Qed.

Lemma stosb_spec (cnt : nat) (m : memory) (a c x : Z) :
  stosb m a c cnt x = if (a <=? x) && (x <? a + Z.of_nat cnt) then u8 c else m x.
Proof.
  revert m a. induction cnt as [|n IH]; intros m a; cbn [stosb].
  - by replace ((a <=? x) && (x <? a + Z.of_nat 0)) with false by lia.
  - rewrite IH. destruct (Z.eq_dec x a) as [->|Hne].
    + replace ((a + 1 <=? a) && _) with false by lia.
      replace ((a <=? a) && _) with true by lia. apply store8_eq.
    + rewrite store8_ne by done. repeat case_match; zbool; lia.
Qed.

Lemma store32_splat (m : memory) (a c x : Z) :
  0 <= c < 256 -> a <= x < a + 4 ->
  store32 m a (16777216 * c + 65536 * c + 256 * c + c) x = c.
Proof. intros Hc Hx. unfold store32. repeat case_match; zbool; zlia. Qed.

Lemma stosl_spec (cnt : nat) (m : memory) (a c x : Z) :
  0 <= c < 256 ->
  stosl m a (16777216 * c + 65536 * c + 256 * c + c) cnt x =
  if (a <=? x) && (x <? a + 4 * Z.of_nat cnt) then c else m x.
Proof.
  intros Hc. revert m a. induction cnt as [|n IH]; intros m a; cbn [stosl].
  - by replace ((a <=? x) && (x <? a + 4 * Z.of_nat 0)) with false by lia.
  - rewrite IH. destruct (decide (a <= x < a + 4)) as [Hx|Hx].
    + replace ((a + 4 <=? x) && _) with false by lia.
      replace ((a <=? x) && _) with true by lia. by apply store32_splat.
    + rewrite store32_other by lia. repeat case_match; zbool; lia.
Qed.

Lemma splat_value (c : Z) :
  0 <= c < 256 ->
  Z.lor (Z.lor (Z.lor (Z.shiftl c 24) (Z.shiftl c 16)) (Z.shiftl c 8)) c
  = 16777216 * c + 65536 * c + 256 * c + c.
Proof.
  intros Hc.
  assert (disj : forall x y k, 0 <= k -> 0 <= y < 2 ^ k ->
            Z.lor (Z.shiftl x k) y = x * 2 ^ k + y).
  { intros x y k Hk Hy. rewrite <- Z.shiftl_mul_pow2 by done. symmetry.
    apply Z.add_nocarry_lor, Z.bits_inj'. intros n Hn.
    rewrite Z.land_spec, Z.bits_0. destruct (Z.lt_ge_cases n k).
    - by rewrite Z.shiftl_spec_low.
    - rewrite <- (Z.mod_small y (2 ^ k)) by done.
      by rewrite Z.mod_pow2_bits_high, andb_false_r by lia. }
  rewrite <- !Z.lor_assoc.
  rewrite (disj c c 8) by (cbn; lia).
  rewrite (disj c _ 16) by (cbn; lia).
  rewrite (disj c _ 24) by (cbn; lia). cbn. lia.
Qed.

(** [memset] fills exactly the [n] bytes at [dst], whichever of its two
    loops it takes. *)
Lemma memset_spec (m : memory) (dst c n x : Z) :
  0 <= n ->
  memset m dst c n x = if (dst <=? x) && (x <? dst + n) then u8 c else m x.
Proof.
  intros Hn. unfold memset.
  destruct ((Z.rem (i32 dst) 4 =? 0) && (n mod 4 =? 0)) eqn:E.
  - zbool. assert (Hc : Z.land c 0xFF = u8 c).
    { change 0xFF with (Z.ones 8). by rewrite Z.land_ones by lia. }
    rewrite Hc, splat_value, stosl_spec by zlia.
    replace (4 * Z.of_nat (Z.to_nat (n / 4))) with n by zlia. done.
  - rewrite stosb_spec. by rewrite Z2Nat.id by done.
Qed.

Lemma copy_up_spec (n : nat) (m : memory) (d s x : Z) :
  mem_wf m -> d <= s \/ s + Z.of_nat n <= d ->
  copy_up m d s n x = if (d <=? x) && (x <? d + Z.of_nat n) then m (s + (x - d)) else m x.
Proof.
  revert m d s. induction n as [|n IH]; intros m d s Hwf Hd; cbn [copy_up].
  - by replace ((d <=? x) && (x <? d + Z.of_nat 0)) with false by lia.
  - rewrite IH; [|by apply store8_wf|lia].
    destruct (Z.eq_dec x d) as [->|Hne].
    + replace ((d + 1 <=? d) && _) with false by lia.
      replace ((d <=? d) && _) with true by lia. rewrite store8_eq.
      replace (s + (d - d)) with s by lia. specialize (Hwf s). zlia.
    + destruct ((d + 1 <=? x) && (x <? d + 1 + Z.of_nat n)) eqn:E.
      * zbool. replace ((d <=? x) && _) with true by lia.
        rewrite store8_ne by lia. f_equal. lia.
      * rewrite store8_ne by done.
        by replace ((d <=? x) && (x <? d + Z.of_nat (S n))) with false by lia.
Qed.

Lemma copy_down_spec (n : nat) (m : memory) (d s x : Z) :
  mem_wf m -> s <= d ->
  copy_down m d s n x =
  if (d - Z.of_nat n <=? x) && (x <? d) then m (s + (x - d)) else m x.
Proof.
  revert m d s. induction n as [|n IH]; intros m d s Hwf Hd; cbn [copy_down].
  - by replace ((d - Z.of_nat 0 <=? x) && (x <? d)) with false by lia.
  - rewrite IH; [|by apply store8_wf|lia].
    destruct (Z.eq_dec x (d - 1)) as [->|Hne].
    + replace ((d - 1 - Z.of_nat n <=? d - 1) && (d - 1 <? d - 1)) with false by lia.
      replace ((d - Z.of_nat (S n) <=? d - 1) && (d - 1 <? d)) with true by lia.
      rewrite store8_eq. replace (s + (d - 1 - d)) with (s - 1) by lia.
      specialize (Hwf (s - 1)). zlia.
    + destruct ((d - 1 - Z.of_nat n <=? x) && (x <? d - 1)) eqn:E.
      * zbool. replace ((d - Z.of_nat (S n) <=? x) && (x <? d)) with true by lia.
        rewrite store8_ne by lia. f_equal. lia.
      * rewrite store8_ne by done.
        by replace ((d - Z.of_nat (S n) <=? x) && (x <? d)) with false by lia.
Qed.

(** [memmove] copies the old contents of the source range, overlapping or
    not. *)
Lemma memmove_spec (m : memory) (dst src n x : Z) :
  mem_wf m -> 0 <= n ->
  memmove m dst src n x =
  if (dst <=? x) && (x <? dst + n) then m (src + (x - dst)) else m x.
Proof.
  intros Hwf Hn. unfold memmove.
  destruct ((src <? dst) && (dst <? src + n)) eqn:E; zbool.
  - rewrite copy_down_spec by (done || lia). rewrite Z2Nat.id by done.
    replace (dst + n - n) with dst by lia.
    replace (src + n + (x - (dst + n))) with (src + (x - dst)) by lia. done.
  - rewrite copy_up_spec; [by rewrite Z2Nat.id|done|].
    rewrite Z2Nat.id by done. lia.
Qed.

(** ** What the string routines compute *)

(** The C string at [t] has length [k]. *)
Definition cstr_len (t : Z -> Z) (k : Z) : Prop :=
  0 <= k /\ t k = 0 /\ forall j, 0 <= j < k -> t j <> 0.

Lemma cstr_len_next (t : Z -> Z) (k : Z) :
  t 0 <> 0 -> cstr_len t k -> cstr_len (next t) (k - 1).
Proof.
  intros Ht (Hk & H0 & Hj). unfold next.
  assert (k <> 0) by (intros ->; done).
  split; [lia|split].
  - by replace (k - 1 + 1) with k by lia.
  - intros j Hlt. apply Hj. lia.
Qed.

Lemma cstr_len_0 (t : Z -> Z) (k : Z) : t 0 = 0 -> cstr_len t k -> k = 0.
Proof. intros Ht (Hk & H0 & Hj). destruct (Z.eq_dec k 0); [done|]. by apply Hj in Ht; [|lia]. Qed.

Lemma strlen_spec (fuel : nat) (t : Z -> Z) (k : Z) :
  cstr_len t k -> k < Z.of_nat fuel -> strlen fuel t = Some k.
Proof.
  revert t k. induction fuel as [|n IH]; intros t k Hk Hlt.
  { destruct Hk. lia. }
  cbn [strlen]. case_match; zbool.
  - by rewrite (cstr_len_0 t k).
  - rewrite (IH (next t) (k - 1)) by (by apply cstr_len_next || lia).
    cbn. f_equal. lia.
Qed.

Lemma strncmp_eq (n : nat) (p q : Z -> Z) :
  strncmp p q n = 0 <->
  forall i, 0 <= i < Z.of_nat n -> (forall j, 0 <= j < i -> p j <> 0) -> p i = q i.
Proof.
  revert p q. induction n as [|n IH]; intros p q; cbn [strncmp].
  { split; [intros _ i Hi; lia|done]. }
  case_match; zbool.
  - rewrite IH. unfold next. split; intros H'.
    + intros i Hi Hj. destruct (Z.eq_dec i 0) as [->|]; [done|].
      replace i with (i - 1 + 1) by lia. apply H'; [lia|].
      intros j Hlt. apply Hj. lia.
    + intros i Hi Hj. apply H'; [lia|]. intros j Hlt.
      destruct (Z.eq_dec j 0) as [->|]; [done|].
      replace j with (j - 1 + 1) by lia. apply Hj. lia.
  - split; intros H'.
    + assert (p 0 = q 0) as E by lia. rewrite E, Z.eqb_refl, andb_true_r in H.
      zbool. intros i Hi Hj. destruct (Z.eq_dec i 0) as [->|]; [done|].
      exfalso. apply (Hj 0); lia.
    + rewrite H'; [lia|lia|]. intros j Hlt. lia.
Qed.

Lemma strncpy_pad_spec (n : nat) (m : memory) (s x : Z) :
  strncpy_pad m s n x = if (s <=? x) && (x <? s + Z.of_nat n) then 0 else m x.
Proof.
  revert m s. induction n as [|n IH]; intros m s; cbn [strncpy_pad].
  - by replace ((s <=? x) && (x <? s + Z.of_nat 0)) with false by lia.
  - rewrite IH. destruct (Z.eq_dec x s) as [->|].
    + replace ((s + 1 <=? s) && _) with false by lia.
      replace ((s <=? s) && _) with true by lia. apply store8_eq.
    + rewrite store8_ne by done. repeat case_match; zbool; lia.
Qed.

(** [strncpy] copies the string up to its end or [n] characters, fills the
    rest of the [n] bytes with NULs and touches nothing else. *)
Lemma strncpy_spec (n : nat) (m : memory) (s : Z) (t : Z -> Z) (k x : Z) :
  mem_wf t -> cstr_len t k ->
  strncpy m s t n x =
  if (s <=? x) && (x <? s + Z.of_nat n)
  then if x - s <? k then t (x - s) else 0
  else m x.
Proof.
  revert m s t k. induction n as [|n IH]; intros m s t k Hwf Hk; cbn [strncpy].
  { by replace ((s <=? x) && (x <? s + Z.of_nat 0)) with false by lia. }
  destruct (Z.eqb_spec (t 0) 0) as [E|E].
  - rewrite (cstr_len_0 t k) by done. rewrite strncpy_pad_spec.
    destruct (Z.eq_dec x s) as [->|].
    + replace ((s + 1 <=? s) && _) with false by lia.
      replace ((s <=? s) && _) with true by lia. rewrite store8_eq, E.
      by replace (s - s <? 0) with false by lia.
    + rewrite store8_ne by done. repeat case_match; zbool; lia.
  - rewrite (IH _ _ _ (k - 1)) by
      (by apply cstr_len_next || (intros a; unfold next; apply Hwf)).
    assert (0 < k).
    { destruct Hk as (? & H0 & _). destruct (Z.eq_dec k 0) as [->|]; [done|lia]. }
    unfold next. destruct (Z.eq_dec x s) as [->|].
    + replace ((s + 1 <=? s) && _) with false by lia.
      replace ((s <=? s) && _) with true by lia. rewrite store8_eq, Z.sub_diag.
      replace (0 <? k) with true by lia. specialize (Hwf 0). zlia.
    + rewrite store8_ne by done.
      replace (x - (s + 1) + 1) with (x - s) by lia.
      repeat case_match; zbool; lia.
Qed.

Lemma safestrcpy_loop_spec (n : nat) (m : memory) (s : Z) (t : Z -> Z) (k x : Z) :
  mem_wf t -> cstr_len t k ->
  (x < s \/ s + Z.of_nat n < x -> safestrcpy_loop m s t n x = m x) /\
  (x = s + Z.min k (Z.of_nat n) -> safestrcpy_loop m s t n x = 0) /\
  (s <= x < s + Z.min k (Z.of_nat n) -> safestrcpy_loop m s t n x = t (x - s)).
Proof.
  revert m s t k. induction n as [|n IH]; intros m s t k Hwf Hk;
    cbn [safestrcpy_loop]; pose proof (proj1 Hk) as Hk0.
  { split; [|split]; intros Hx; [by rewrite store8_ne by lia| |lia].
    replace x with s by lia. apply store8_eq. }
  destruct (Z.eqb_spec (t 0) 0) as [E|E].
  - rewrite (cstr_len_0 t k) by done. split; [|split]; intros Hx; [| |lia].
    + by rewrite !store8_ne by lia.
    + replace x with s by lia. by rewrite store8_ne, store8_eq, E by lia.
  - assert (k <> 0) by (intros ->; by destruct Hk as (_ & ? & _)).
    destruct (IH (store8 m s (t 0)) (s + 1) (next t) (k - 1)) as (H1 & H2 & H3);
      [intros a; apply Hwf|by apply cstr_len_next|].
    split; [|split]; intros Hx.
    + rewrite H1 by lia. by rewrite store8_ne by lia.
    + apply H2. lia.
    + destruct (Z.eq_dec x s) as [->|].
      * rewrite H1, store8_eq, Z.sub_diag by lia. specialize (Hwf 0). zlia.
      * rewrite H3 by lia. unfold next. f_equal. lia.
Qed.
