(* ===== verification/Kalloc.v ===== *)
(** * Kalloc: the physical page allocator ([kalloc.c])

    The state of the memory subsystem, shared by [kalloc.c] and [vm.c], and
    the allocator: the free list is the chain of [struct run]s threaded
    through the free pages themselves, in byte memory. *)
From stdpp Require Import base gmap list numbers strings.
From Stdlib Require Import ZArith Lia ZifyBool.
From S2P Require Import Prelude Machine Cstring.

(** ** State *)

(** The symbols [end] and [data] of the linker script [kernel.ld]. *)
Class KernelImage := {
  kend : Z;
  kdata : Z;
}.

Class KernelImageOk `{KernelImage} : Prop := {
  kdata_aligned : kdata mod PGSIZE = 0;
  kdata_low : KERNLINK < kdata;
  kdata_end : kdata < kend;
  kend_high : kend <= KERNBASE + PHYSTOP;
}.

(** The fields of the task state segment [switchuvm] sets, and the selector
    it loads. *)
Record taskstate := mktss { ss0 : Z; esp0 : Z; iomb : Z; tr : Z }.

(** The memory subsystem: physical memory, [kmem] of [kalloc.c], and the
    [lock], [pg_refcount], [kpgdir] of [vm.c] with the page-table register.
    A spinlock is the flag "held by this CPU". *)
Record vmst := mkvm {
  mem : memory;
  use_lock : Z;
  kmem_lock : bool;
  freelist : Z;
  numFreePages : Z;
  vm_lock : bool;
  pg_refcount : Z -> Z;
  kpgdir : Z;
  cr3 : Z;
  tss : taskstate;
}.

Definition set_mem (x : memory) (s : vmst) : vmst :=
  mkvm x (use_lock s) (kmem_lock s) (freelist s) (numFreePages s) (vm_lock s)
       (pg_refcount s) (kpgdir s) (cr3 s) (tss s).
Definition set_use_lock (x : Z) (s : vmst) : vmst :=
  mkvm (mem s) x (kmem_lock s) (freelist s) (numFreePages s) (vm_lock s)
       (pg_refcount s) (kpgdir s) (cr3 s) (tss s).
Definition set_kmem_lock (x : bool) (s : vmst) : vmst :=
  mkvm (mem s) (use_lock s) x (freelist s) (numFreePages s) (vm_lock s)
       (pg_refcount s) (kpgdir s) (cr3 s) (tss s).
Definition set_freelist (x : Z) (s : vmst) : vmst :=
  mkvm (mem s) (use_lock s) (kmem_lock s) x (numFreePages s) (vm_lock s)
       (pg_refcount s) (kpgdir s) (cr3 s) (tss s).
Definition set_numFreePages (x : Z) (s : vmst) : vmst :=
  mkvm (mem s) (use_lock s) (kmem_lock s) (freelist s) x (vm_lock s)
       (pg_refcount s) (kpgdir s) (cr3 s) (tss s).
Definition set_vm_lock (x : bool) (s : vmst) : vmst :=
  mkvm (mem s) (use_lock s) (kmem_lock s) (freelist s) (numFreePages s) x
       (pg_refcount s) (kpgdir s) (cr3 s) (tss s).
Definition set_pg_refcount (x : Z -> Z) (s : vmst) : vmst :=
  mkvm (mem s) (use_lock s) (kmem_lock s) (freelist s) (numFreePages s) (vm_lock s)
       x (kpgdir s) (cr3 s) (tss s).
Definition set_kpgdir (x : Z) (s : vmst) : vmst :=
  mkvm (mem s) (use_lock s) (kmem_lock s) (freelist s) (numFreePages s) (vm_lock s)
       (pg_refcount s) x (cr3 s) (tss s).
Definition set_cr3 (x : Z) (s : vmst) : vmst :=
  mkvm (mem s) (use_lock s) (kmem_lock s) (freelist s) (numFreePages s) (vm_lock s)
       (pg_refcount s) (kpgdir s) x (tss s).
Definition set_tss (x : taskstate) (s : vmst) : vmst :=
  mkvm (mem s) (use_lock s) (kmem_lock s) (freelist s) (numFreePages s) (vm_lock s)
       (pg_refcount s) (kpgdir s) (cr3 s) x.

Abbreviation MV := (M vmst).

(** ** Access to memory through kernel pointers

    The kernel maps physical [0, PHYSTOP) at [KERNBASE]; a pointer outside
    that window (a null pointer in particular) faults. *)

Definition kvalid (v n : Z) : bool := (KERNBASE <=? v) && (v + n <=? KERNBASE + PHYSTOP).

Definition kload (v : Z) : MV Z := fun s =>
  if kvalid v 4 then Ok (load32 (mem s) (V2P v)) s else Fault "kernel load".

Definition kstore (v x : Z) : MV unit := fun s =>
  if kvalid v 4 then Ok tt (set_mem (store32 (mem s) (V2P v) x) s)
  else Fault "kernel store".

Definition kmemset (dst c n : Z) : MV unit := fun s =>
  if kvalid dst n then Ok tt (set_mem (memset (mem s) (V2P dst) c n) s)
  else Fault "memset".

Definition kmemmove (dst src n : Z) : MV unit := fun s =>
  if kvalid dst n && kvalid src n
  then Ok tt (set_mem (memmove (mem s) (V2P dst) (V2P src) n) s)
  else Fault "memmove".

(** ** The lock of the allocator *)

Definition acquire_kmem : MV unit := fun s =>
  if kmem_lock s then Panic "acquire" else Ok tt (set_kmem_lock true s).
Definition release_kmem : MV unit := fun s =>
  if kmem_lock s then Ok tt (set_kmem_lock false s) else Panic "release".

(** ** Operations *)

Section Ops.
Context `{KernelImage}.

Definition kfree (v : Z) : MV unit :=
  modify (fun s => set_numFreePages (i32 (numFreePages s + 1)) s) ;;;
  if negb (v mod PGSIZE =? 0) || (v <? kend) || (PHYSTOP <=? V2P v)
  then panic "kfree"
  else
    kmemset v 1 PGSIZE ;;;
    let! ul := gets use_lock in
    when (negb (ul =? 0)) acquire_kmem ;;;
    let! fl := gets freelist in
    kstore v fl ;;;
    modify (set_freelist v) ;;;
    let! ul := gets use_lock in
    when (negb (ul =? 0)) release_kmem.

Definition kalloc : MV Z :=
  modify (fun s => set_numFreePages (i32 (numFreePages s - 1)) s) ;;;
  let! ul := gets use_lock in
  when (negb (ul =? 0)) acquire_kmem ;;;
  let! r := gets freelist in
  (if negb (r =? 0)
   then let! nxt := kload r in modify (set_freelist nxt)
   else ret tt) ;;;
  let! ul := gets use_lock in
  when (negb (ul =? 0)) release_kmem ;;;
  ret r.

Definition getNumFreePages : MV Z :=
  let! ul := gets use_lock in
  when (negb (ul =? 0)) acquire_kmem ;;;
  let! r := gets numFreePages in
  let! ul := gets use_lock in
  when (negb (ul =? 0)) release_kmem ;;;
  ret r.

(** The loop [for(; p + PGSIZE <= vend; p += PGSIZE) kfree(p)]. *)
Definition freerange_body (vend p : Z) : MV (Z + unit) :=
  if u32 (p + PGSIZE) <=? vend
  then kfree p ;;; ret (inl (u32 (p + PGSIZE)))
  else ret (inr tt).

Definition freerange (vstart vend : Z) : MV unit :=
  let p := PGROUNDUP vstart in
  loop (S (Z.to_nat ((vend - p) / PGSIZE + 1))) (freerange_body vend) p.

Definition kinit1 (vstart vend : Z) : MV unit :=
  modify (set_kmem_lock false) ;;;
  modify (set_use_lock 0) ;;;
  freerange vstart vend ;;;
  modify (set_numFreePages 0).

Definition kinit2 (vstart vend : Z) : MV unit :=
  freerange vstart vend ;;;
  modify (set_use_lock 1).
End Ops.

(** ** The free list as an abstract list of pages *)

Section Spec.
Context `{KI : KernelImage} `{KIO : !KernelImageOk}.

(** A page the allocator manages, by physical address. *)
Definition page_ok (f : Z) : Prop :=
  f mod PGSIZE = 0 /\ kend - KERNBASE <= f /\ f < PHYSTOP.

(** The chain from [h] in memory [m] is the list of pages [l]. *)
Fixpoint freelist_rep (m : memory) (h : Z) (l : list Z) : Prop :=
  match l with
  | [] => h = 0
  | f :: l' => h = P2V f /\ page_ok f /\ freelist_rep m (load32 m f) l'
  end.

Lemma page_ok_bounds (f : Z) : page_ok f -> EXTMEM < f /\ f + PGSIZE <= PHYSTOP.
Proof.
  intros (Ha & Hl & Hh). pose proof kdata_low. pose proof kdata_end. zlia.
Qed.

Lemma P2V_page (f : Z) : page_ok f -> P2V f = f + KERNBASE.
Proof. intros Hf. apply page_ok_bounds in Hf. zlia. Qed.

Lemma V2P_P2V (f : Z) : 0 <= f < 4294967296 -> V2P (P2V f) = f.
Proof. zlia. Qed.

Lemma V2P_P2V_page (f : Z) : page_ok f -> V2P (P2V f) = f.
Proof. intros Hf. apply page_ok_bounds in Hf. zlia. Qed.

Lemma P2V_page_nonzero (f : Z) : page_ok f -> P2V f <> 0.
Proof. intros Hf. rewrite P2V_page by done. apply page_ok_bounds in Hf. zlia. Qed.

Lemma kvalid_page (f off n : Z) :
  page_ok f -> 0 <= off -> off + n <= PGSIZE -> kvalid (P2V f + off) n = true.
Proof.
  intros Hf Ho Hn. rewrite P2V_page by done. apply page_ok_bounds in Hf.
  unfold kvalid. zlia.
Qed.

(** Distinct pages do not overlap. *)
Lemma pages_disjoint (f g x : Z) :
  f mod PGSIZE = 0 -> g mod PGSIZE = 0 -> f <> g ->
  f <= x < f + PGSIZE -> x < g \/ g + PGSIZE <= x.
Proof. zlia. Qed.

Lemma freelist_rep_pages (m : memory) (h : Z) (l : list Z) :
  freelist_rep m h l -> Forall page_ok l.
Proof.
  revert h. induction l as [|f l IH]; intros h; [constructor|].
  intros (_ & Hf & Hl). constructor; eauto.
Qed.

Lemma freelist_rep_same (m m' : memory) (h : Z) (l : list Z) :
  (forall f, f ∈ l -> same_range m m' f 4) ->
  freelist_rep m h l -> freelist_rep m' h l.
Proof.
  revert h. induction l as [|f l IH]; intros h Hs; [done|].
  intros (-> & Hf & Hl). split; [done|split; [done|]].
  rewrite (load32_same m m') by (apply Hs; left).
  apply IH; [|done]. intros g Hg. apply Hs. by right.
Qed.

(** *** Equations of the operations *)

Lemma kalloc_empty (s : vmst) :
  kmem_lock s = false -> freelist s = 0 ->
  kalloc s = Ok 0 (set_numFreePages (i32 (numFreePages s - 1)) s).
Proof.
  destruct s as [m ul kl fl nf vl rc kp c t]; cbn. intros -> ->.
  unfold kalloc, bind, modify, gets, when, ret, acquire_kmem, release_kmem; cbn.
  destruct (ul =? 0) eqn:E; cbn; rewrite ?E; done.
Qed.

Lemma kalloc_cons (s : vmst) (f : Z) :
  kmem_lock s = false -> page_ok f -> freelist s = P2V f ->
  kalloc s = Ok (P2V f)
    (set_freelist (load32 (mem s) f)
      (set_numFreePages (i32 (numFreePages s - 1)) s)).
Proof.
  destruct s as [m ul kl fl nf vl rc kp c t]; cbn. intros -> Hf ->.
  pose proof (kvalid_page f 0 4 Hf ltac:(lia) ltac:(zlia)) as Hv.
  rewrite Z.add_0_r in Hv.
  pose proof (P2V_page_nonzero f Hf) as Hnz.
  unfold kalloc, bind, modify, gets, when, ret, acquire_kmem, release_kmem, kload; cbn.
  destruct (ul =? 0) eqn:E; cbn; rewrite (proj2 (Z.eqb_neq _ _) Hnz); cbn;
    rewrite Hv, V2P_P2V_page by done; cbn; by rewrite E.
Qed.

Lemma kfree_page (s : vmst) (f : Z) :
  kmem_lock s = false -> page_ok f ->
  kfree (P2V f) s = Ok tt
    (set_freelist (P2V f)
      (set_mem (store32 (memset (mem s) f 1 PGSIZE) f (freelist s))
        (set_numFreePages (i32 (numFreePages s + 1)) s))).
Proof.
  destruct s as [m ul kl fl nf vl rc kp c t]; cbn. intros -> Hf.
  pose proof (kvalid_page f 0 4 Hf ltac:(lia) ltac:(zlia)) as Hv4.
  pose proof (kvalid_page f 0 PGSIZE Hf ltac:(lia) ltac:(zlia)) as Hv.
  rewrite Z.add_0_r in Hv4, Hv.
  pose proof (V2P_P2V_page f Hf) as HV. pose proof (P2V_page f Hf) as HP.
  destruct Hf as (Ha & Hl & Hh).
  unfold kfree, bind, modify, gets, when, ret, acquire_kmem, release_kmem, kstore,
    kmemset; cbn.
  replace (negb (P2V f mod PGSIZE =? 0) || (P2V f <? kend) || (PHYSTOP <=? V2P (P2V f)))
    with false; cycle 1.
  { rewrite HV, HP. zlia. }
  rewrite Hv. cbn. destruct (ul =? 0) eqn:E; cbn; rewrite Hv4; cbn; by rewrite HV, E.
Qed.

(** A page that is not page-aligned, lies inside the kernel image or past
    the end of memory is refused. *)
Lemma kfree_panic (s : vmst) (v : Z) :
  v mod PGSIZE <> 0 \/ v < kend \/ PHYSTOP <= V2P v -> kfree v s = Panic "kfree".
Proof.
  intros Hv. unfold kfree, bind, modify, panic.
  replace (negb (v mod PGSIZE =? 0) || (v <? kend) || (PHYSTOP <=? V2P v))
    with true; [done|]. zunfold. lia.
Qed.

(** *** The operations on the abstract list *)

Lemma freelist_rep_head (m : memory) (h : Z) (l : list Z) :
  freelist_rep m h l -> 0 <= h < 4294967296.
Proof.
  destruct l as [|f l]; cbn; [lia|]. intros (-> & _). apply u32_range.
Qed.

Lemma page_write_other (m : memory) (f h x : Z) :
  x < f \/ f + PGSIZE <= x -> store32 (memset m f 1 PGSIZE) f h x = m x.
Proof.
  intros Hx. rewrite store32_other by zlia. rewrite memset_spec by zlia.
  by replace ((f <=? x) && (x <? f + PGSIZE)) with false by zlia.
Qed.

Lemma memset_wf (m : memory) (a c n : Z) : mem_wf m -> 0 <= n -> mem_wf (memset m a c n).
Proof. intros H Hn x. rewrite memset_spec by done. case_match; [zlia|apply H]. Qed.

(** Freeing a page pushes it on the list and changes no other page. *)
Lemma kfree_push (s : vmst) (f : Z) (l : list Z) :
  kmem_lock s = false -> mem_wf (mem s) -> page_ok f -> f ∉ l ->
  freelist_rep (mem s) (freelist s) l ->
  exists m', kfree (P2V f) s = Ok tt
      (set_freelist (P2V f) (set_mem m'
        (set_numFreePages (i32 (numFreePages s + 1)) s))) /\
    freelist_rep m' (P2V f) (f :: l) /\ mem_wf m' /\
    (forall x, x < f \/ f + PGSIZE <= x -> m' x = mem s x).
Proof.
  intros Hlk Hwf Hf Hfl Hrep. eexists. rewrite kfree_page by done.
  split; [reflexivity|]. split; [|split].
  - split; [done|split; [done|]].
    rewrite load32_store32_eq by (by eapply freelist_rep_head).
    eapply freelist_rep_same; [|done]. intros g Hg x Hx.
    apply page_write_other. eapply freelist_rep_pages in Hrep.
    rewrite Forall_forall in Hrep. destruct (Hrep g Hg) as (Ha & _).
    assert (f <> g) by (intros ->; done).
    assert (x < f \/ f + PGSIZE <= x) by
      (apply (pages_disjoint g f x); [done|apply Hf|done|zlia]).
    done.
  - by apply store32_wf, memset_wf.
  - intros x Hx. by apply page_write_other.
Qed.

(** Allocating pops the list, and fails exactly when it is empty. *)
Lemma kalloc_pop (s : vmst) (l : list Z) :
  kmem_lock s = false -> freelist_rep (mem s) (freelist s) l ->
  match l with
  | [] => kalloc s = Ok 0 (set_numFreePages (i32 (numFreePages s - 1)) s)
  | f :: l' => exists h',
      kalloc s = Ok (P2V f)
        (set_freelist h' (set_numFreePages (i32 (numFreePages s - 1)) s)) /\
      freelist_rep (mem s) h' l'
  end.
Proof.
  intros Hlk Hrep. destruct l as [|f l']; cbn in Hrep.
  - by apply kalloc_empty.
  - destruct Hrep as (Hh & Hf & Hl). eexists. split; [|exact Hl].
    by apply kalloc_cons.
Qed.

(** The pages [f, f + PGSIZE, ...] pushed in turn on [l]. *)
Fixpoint run_pages (f : Z) (n : nat) (l : list Z) : list Z :=
  match n with
  | O => l
  | S n => run_pages (f + PGSIZE) n (f :: l)
  end.

Lemma run_pages_snoc (n : nat) (f : Z) (l : list Z) :
  run_pages f (S n) l = (f + PGSIZE * Z.of_nat n) :: run_pages f n l.
Proof.
  revert f l. induction n as [|n IH]; intros f l.
  - cbn. f_equal. lia.
  - change (run_pages f (S (S n)) l) with (run_pages (f + PGSIZE) (S n) (f :: l)).
    rewrite IH. cbn. f_equal. zlia.
Qed.

Lemma run_pages_elem (n : nat) (f g : Z) (l : list Z) :
  g ∈ run_pages f n l <->
  g ∈ l \/ exists i, 0 <= i < Z.of_nat n /\ g = f + PGSIZE * i.
Proof.
  induction n as [|n IH].
  - cbn. split; [auto|]. intros [?|(i & ? & _)]; [done|lia].
  - rewrite run_pages_snoc, elem_of_cons, IH. split.
    + intros [->|[?|(i & ? & ->)]]; [right; exists (Z.of_nat n); split; [lia|done]|auto|].
      right. exists i. split; [lia|done].
    + intros [?|(i & Hi & ->)]; [auto|].
      destruct (decide (i = Z.of_nat n)) as [->|]; [auto|].
      right. right. exists i. split; [lia|done].
Qed.

Lemma run_pages_length (n : nat) (f : Z) (l : list Z) :
  length (run_pages f n l) = (n + length l)%nat.
Proof. induction n as [|n IH]; [done|]. rewrite run_pages_snoc. cbn. lia. Qed.

Definition range_count (p vend : Z) : nat := Z.to_nat ((vend - p) / PGSIZE).

(** [freerange] pushes every page that lies wholly in the range, in
    ascending order, and counts each. *)
Lemma freerange_push (s : vmst) (vstart vend : Z) (l : list Z) :
  let p := PGROUNDUP vstart in
  kmem_lock s = false -> mem_wf (mem s) ->
  kend <= vstart -> vstart <= KERNBASE + PHYSTOP ->
  p <= vend -> vend <= KERNBASE + PHYSTOP ->
  freelist_rep (mem s) (freelist s) l ->
  (forall f, f ∈ l -> f < V2P p \/ V2P vend <= f) ->
  wp (freerange vstart vend) (fun _ s' =>
    exists m' h', let n := range_count p vend in
      s' = set_freelist h' (set_mem m'
        (set_numFreePages (numFreePages s') s)) /\
      (numFreePages s' - (numFreePages s + Z.of_nat n)) mod 4294967296 = 0 /\
      mem_wf m' /\
      freelist_rep m' h' (run_pages (V2P p) n l)) s.
Proof.
  intros p Hlk Hwf Hlo Hvs Hpv Hhi Hrep Hl. unfold freerange. fold p.
  pose proof kdata_low; pose proof kdata_end.
  assert (Hp : p mod PGSIZE = 0 /\ vstart <= p < vstart + PGSIZE).
  { unfold p. rewrite PGROUNDUP_eq by zlia. zlia. }
  set (inv := fun (q : Z) (s' : vmst) =>
    exists m' h' n, q = p + PGSIZE * Z.of_nat n /\ q <= vend /\
      s' = set_freelist h' (set_mem m' (set_numFreePages (numFreePages s') s)) /\
      (numFreePages s' - (numFreePages s + Z.of_nat n)) mod 4294967296 = 0 /\
      mem_wf m' /\ freelist_rep m' h' (run_pages (V2P p) n l)).
  eapply (wp_loop inv (fun q => Z.to_nat ((vend - q) / PGSIZE))).
  - intros q s1 (m1 & h1 & n & Hq & Hqv & Hs1 & Hnf & Hwf1 & Hrep1).
    unfold freerange_body. rewrite (u32_id (q + PGSIZE)) by zlia.
    destruct (Z.leb_spec (q + PGSIZE) vend) as [Hle|Hgt].
    + assert (Hq2 : q = P2V (V2P q)) by zlia.
      assert (Hpg : page_ok (V2P q)) by (split; zlia).
      assert (Hnew : V2P q ∉ run_pages (V2P p) n l).
      { rewrite run_pages_elem. intros [Hin|(i & Hi & Heq)].
        - destruct (Hl _ Hin); zlia.
        - zlia. }
      destruct (kfree_push s1 (V2P q) (run_pages (V2P p) n l)) as (m2 & E2 & R2 & W2 & _);
        try done; try (by rewrite Hs1).
      apply wp_bind. rewrite Hq2 at 1. unfold wp at 1. rewrite E2. apply wp_ret.
      split; [|zlia].
      exists m2, (P2V (V2P q)), (S n). rewrite run_pages_snoc.
      replace (V2P p + PGSIZE * Z.of_nat n) with (V2P q) by zlia.
      cbn [numFreePages set_freelist set_mem set_numFreePages].
      split; [zlia|]. split; [lia|]. split; [rewrite Hs1; done|].
      split; [zlia|done].
    + apply wp_ret. exists m1, h1.
      replace (range_count p vend) with n; [done|].
      unfold range_count. zlia.
  - exists (mem s), (freelist s), 0%nat.
    split; [lia|]. split; [done|]. split; [by destruct s|].
    split; [zlia|done].
  - zlia.
Qed.
End Spec.
