(* ===== verification/Vm.v ===== *)
(** * Vm: virtual memory ([vm.c])

    Page tables in byte memory, user address spaces, copy-on-write fork and
    the page-fault handler, as the source has them. *)
From stdpp Require Import base gmap list numbers strings.
From Stdlib Require Import ZArith Lia ZifyBool.
From S2P Require Import Prelude Machine Cstring Kalloc.

(** ** The lock and the reference counts of [vm.c] *)

Definition acquire_vm : MV unit := fun s =>
  if vm_lock s then Panic "acquire" else Ok tt (set_vm_lock true s).
Definition release_vm : MV unit := fun s =>
  if vm_lock s then Ok tt (set_vm_lock false s) else Panic "release".

(** [char pg_refcount[PHYSTOP >> PGSHIFT]] *)
Definition NREFCOUNT : Z := Z.shiftr PHYSTOP PGSHIFT.

Definition rc_get (i : Z) : MV Z := fun s =>
  if (0 <=? i) && (i <? NREFCOUNT) then Ok (pg_refcount s i) s
  else Fault "pg_refcount index".

Definition rc_set (i x : Z) : MV unit := fun s =>
  if (0 <=? i) && (i <? NREFCOUNT)
  then Ok tt (set_pg_refcount (fun j => if j =? i then i8 x else pg_refcount s j) s)
  else Fault "pg_refcount index".

(** [acquire(&lock); pg_refcount[..] = pg_refcount[..] + 1; release(&lock);] *)
Definition rc_incr (pa : Z) : MV unit :=
  acquire_vm ;;;
  let! c := rc_get (Z.shiftr pa PGSHIFT) in
  rc_set (Z.shiftr pa PGSHIFT) (c + 1) ;;;
  release_vm.

Definition lcr3 (v : Z) : MV unit := modify (set_cr3 v).

(** Writing [n] bytes at a kernel pointer. *)
Fixpoint write_bytes (m : memory) (a : Z) (p : Z -> Z) (n : nat) : memory :=
  match n with
  | O => m
  | S n => write_bytes (store8 m a (p 0)) (a + 1) (Cstring.next p) n
  end.

Definition kwrite (dst : Z) (p : Z -> Z) (n : Z) : MV unit := fun s =>
  if kvalid dst n then Ok tt (set_mem (write_bytes (mem s) (V2P dst) p (Z.to_nat n)) s)
  else Fault "memmove".

Section Ops.
Context `{KernelImage}.

(** ** Page tables *)

Definition walkpgdir (pgdir va : Z) (alloc : bool) : MV Z :=
  let pde := u32 (pgdir + 4 * PDX va) in
  let! e := kload pde in
  if negb (Z.land e PTE_P =? 0)
  then let pgtab := P2V (PTE_ADDR e) in ret (u32 (pgtab + 4 * PTX va))
  else if negb alloc then ret 0
  else
    let! pgtab := kalloc in
    if pgtab =? 0 then ret 0
    else
      kmemset pgtab 0 PGSIZE ;;;
      kstore pde (Z.lor (Z.lor (Z.lor (V2P pgtab) PTE_P) PTE_W) PTE_U) ;;;
      ret (u32 (pgtab + 4 * PTX va)).

(** The loop of [mappages]; its state is [(a, pa)]. *)
Definition mappages_body (pgdir last perm : Z) (ap : Z * Z) : MV (Z * Z + Z) :=
  let '(a, pa) := ap in
  let! pte := walkpgdir pgdir a true in
  if pte =? 0 then ret (inr (-1))
  else
    let! e := kload pte in
    if negb (Z.land e PTE_P =? 0) then panic "remap"
    else
      kstore pte (Z.lor (Z.lor pa perm) PTE_P) ;;;
      if a =? last then ret (inr 0)
      else ret (inl (u32 (a + PGSIZE), u32 (pa + PGSIZE))).

Definition mappages (pgdir va size pa perm : Z) : MV Z :=
  let a := PGROUNDDOWN va in
  let last := PGROUNDDOWN (u32 (va + size - 1)) in
  loop (S (Z.to_nat (u32 (last - a) / PGSIZE))) (mappages_body pgdir last perm) (a, pa).

(** ** Giving memory back *)

(** [if(--pg_refcount[pa >> PGSHIFT] == 0) kfree(P2V(pa));] under [lock]. *)
Definition rc_decr_free (pa : Z) : MV unit :=
  acquire_vm ;;;
  let! c := rc_get (Z.shiftr pa PGSHIFT) in
  rc_set (Z.shiftr pa PGSHIFT) (c - 1) ;;;
  let! c' := rc_get (Z.shiftr pa PGSHIFT) in
  when (c' =? 0) (kfree (P2V pa)) ;;;
  release_vm.

Definition deallocuvm_body (pgdir oldsz a : Z) : MV (Z + unit) :=
  if negb (a <? oldsz) then ret (inr tt)
  else
    let! pte := walkpgdir pgdir a false in
    if pte =? 0
    then ret (inl (u32 (u32 (a + (NPTENTRIES - 1) * PGSIZE) + PGSIZE)))
    else
      let! e := kload pte in
      (if negb (Z.land e PTE_P =? 0) then
         let pa := PTE_ADDR e in
         if pa =? 0 then panic "kfree"
         else rc_decr_free pa ;;; kstore pte 0
       else ret tt) ;;;
      ret (inl (u32 (a + PGSIZE))).

Definition deallocuvm (pgdir oldsz newsz : Z) : MV Z :=
  if oldsz <=? newsz then ret oldsz
  else
    let a := PGROUNDUP newsz in
    loop (S (Z.to_nat ((oldsz - a) / PGSIZE + 1))) (deallocuvm_body pgdir oldsz) a ;;;
    ret newsz.

Definition freevm_body (pgdir i : Z) : MV (Z + unit) :=
  if negb (i <? NPDENTRIES) then ret (inr tt)
  else
    let! e := kload (u32 (pgdir + 4 * i)) in
    when (negb (Z.land e PTE_P =? 0)) (kfree (P2V (PTE_ADDR e))) ;;;
    ret (inl (i + 1)).

Definition freevm (pgdir : Z) : MV unit :=
  if pgdir =? 0 then panic "freevm: no pgdir"
  else
    deallocuvm pgdir KERNBASE 0 ;;;
    loop (S (Z.to_nat NPDENTRIES)) (freevm_body pgdir) 0 ;;;
    kfree pgdir.

(** ** The kernel part of a page table *)

Record kmap_entry := mkkmap { virt : Z; phys_start : Z; phys_end : Z; perm : Z }.

Definition kmap : list kmap_entry :=
  [ mkkmap KERNBASE 0 EXTMEM PTE_W;
    mkkmap KERNLINK (V2P KERNLINK) (V2P kdata) 0;
    mkkmap kdata (V2P kdata) PHYSTOP PTE_W;
    mkkmap DEVSPACE DEVSPACE 0 PTE_W ].

Fixpoint setupkvm_loop (pgdir : Z) (ks : list kmap_entry) : MV Z :=
  match ks with
  | [] => ret pgdir
  | k :: ks =>
      let! r := mappages pgdir (virt k) (u32 (phys_end k - phys_start k))
                  (phys_start k) (perm k) in
      if r <? 0 then freevm pgdir ;;; ret 0
      else setupkvm_loop pgdir ks
  end.

Definition setupkvm : MV Z :=
  let! pgdir := kalloc in
  if pgdir =? 0 then ret 0
  else
    kmemset pgdir 0 PGSIZE ;;;
    if DEVSPACE <? P2V PHYSTOP then panic "PHYSTOP too high"
    else setupkvm_loop pgdir kmap.

Definition switchkvm : MV unit :=
  let! k := gets kpgdir in lcr3 (V2P k).

Definition kvmalloc : MV unit :=
  let! k := setupkvm in
  modify (set_kpgdir k) ;;;
  switchkvm.

(** [switchuvm(p)], given whether [p] is null and its [kstack] and
    [pgdir]; segment selectors are [SEG << 3]. *)
Definition switchuvm (p_null : bool) (kstack pgdir : Z) : MV unit :=
  if p_null then panic "switchuvm: no process"
  else if kstack =? 0 then panic "switchuvm: no kstack"
  else if pgdir =? 0 then panic "switchuvm: no pgdir"
  else
    modify (set_tss (mktss (Z.shiftl 2 3) (u32 (kstack + KSTACKSIZE)) 0xFFFF
                           (Z.shiftl 5 3))) ;;;
    lcr3 (V2P pgdir).

(** ** User memory *)

(** [init] is the image of initcode, seen from its first byte.  The
    result of [mappages] is not examined. *)
Definition inituvm (pgdir : Z) (init : Z -> Z) (sz : Z) : MV unit :=
  let! mem := kalloc in
  rc_incr (V2P mem) ;;;
  if PGSIZE <=? sz then panic "inituvm: more than a page"
  else
    kmemset mem 0 PGSIZE ;;;
    let! _ := mappages pgdir 0 PGSIZE (V2P mem) (Z.lor PTE_W PTE_U) in
    kwrite mem init sz.

(** [readi(ip, dst, off, n)] is given as the count it returns and the
    bytes it stores. *)
Definition loaduvm_body (readi : Z -> Z -> Z * (Z -> Z)) (pgdir addr offset sz i : Z) :
    MV (Z + Z) :=
  if negb (i <? sz) then ret (inr 0)
  else
    let! pte := walkpgdir pgdir (u32 (addr + i)) false in
    if pte =? 0 then panic "loaduvm: address should exist"
    else
      let! e := kload pte in
      let pa := PTE_ADDR e in
      let n := if u32 (sz - i) <? PGSIZE then u32 (sz - i) else PGSIZE in
      let '(r, bytes) := readi (u32 (offset + i)) n in
      kwrite (P2V pa) bytes (Z.min (Z.max 0 r) n) ;;;
      if negb (r =? n) then ret (inr (-1))
      else ret (inl (u32 (i + PGSIZE))).

Definition loaduvm (readi : Z -> Z -> Z * (Z -> Z)) (pgdir addr offset sz : Z) : MV Z :=
  if negb (addr mod PGSIZE =? 0) then panic "loaduvm: addr must be page aligned"
  else loop (S (Z.to_nat (sz / PGSIZE + 1)))
            (loaduvm_body readi pgdir addr offset sz) 0.

Definition allocuvm_body (pgdir oldsz newsz a : Z) : MV (Z + Z) :=
  if negb (a <? newsz) then ret (inr newsz)
  else
    let! mem := kalloc in
    if mem =? 0 then
      let! _ := deallocuvm pgdir newsz oldsz in ret (inr 0)
    else
      kmemset mem 0 PGSIZE ;;;
      let! _ := mappages pgdir a PGSIZE (V2P mem) (Z.lor PTE_W PTE_U) in
      rc_incr (V2P mem) ;;;
      ret (inl (u32 (a + PGSIZE))).

Definition allocuvm (pgdir oldsz newsz : Z) : MV Z :=
  if KERNBASE <=? newsz then ret 0
  else if newsz <? oldsz then ret oldsz
  else
    let a := PGROUNDUP oldsz in
    loop (S (Z.to_nat ((newsz - a) / PGSIZE + 1))) (allocuvm_body pgdir oldsz newsz) a.

Definition clearpteu (pgdir uva : Z) : MV unit :=
  let! pte := walkpgdir pgdir uva false in
  if pte =? 0 then panic "clearpteu"
  else
    let! e := kload pte in
    kstore pte (clear_bit e 2).

(** ** Copy-on-write fork *)

(** One iteration of the loop of [copyuvm] and [cowuvm] (the two differ in
    one panic message only): the parent's entry loses [PTE_W] and the child
    gets the same frame with the same flags. *)
Definition share_body (msg : string) (pgdir d sz i : Z) : MV (Z + Z) :=
  if negb (i <? sz) then lcr3 (V2P pgdir) ;;; ret (inr d)
  else
    let! pte := walkpgdir pgdir i false in
    if pte =? 0 then panic msg
    else
      let! e := kload pte in
      if Z.land e PTE_P =? 0 then panic "copyuvm: page not present"
      else
        kstore pte (clear_bit e 1) ;;;
        let! e := kload pte in
        let pa := PTE_ADDR e in
        let flags := PTE_FLAGS e in
        let! r := mappages d i PGSIZE pa flags in
        if r <? 0 then
          freevm d ;;;
          lcr3 (V2P pgdir) ;;;
          ret (inr 0)
        else
          rc_incr pa ;;;
          ret (inl (u32 (i + PGSIZE))).

Definition share_uvm (msg : string) (pgdir sz : Z) : MV Z :=
  let! d := setupkvm in
  if d =? 0 then ret 0
  else loop (S (Z.to_nat (sz / PGSIZE + 1))) (share_body msg pgdir d sz) 0.

Definition copyuvm (pgdir sz : Z) : MV Z :=
  share_uvm "copyuvm: pte should exist" pgdir sz.

Definition cowuvm (pgdir sz : Z) : MV Z :=
  share_uvm "cowuvm: pte should exist" pgdir sz.

(** ** Access to another address space *)

(** The entry is read without testing the pointer [walkpgdir] returns. *)
Definition uva2ka (pgdir uva : Z) : MV Z :=
  let! pte := walkpgdir pgdir uva false in
  let! e := kload pte in
  if Z.land e PTE_P =? 0 then ret 0
  else if Z.land e PTE_U =? 0 then ret 0
  else ret (P2V (PTE_ADDR e)).

(** The loop of [copyout]; its state is [(va, buf, len)], [buf] being the
    bytes still to be written. *)
Definition copyout_body (pgdir : Z) (st : Z * (Z -> Z) * Z) :
    MV (Z * (Z -> Z) * Z + Z) :=
  let '(va, buf, len) := st in
  if len <=? 0 then ret (inr 0)
  else
    let va0 := PGROUNDDOWN va in
    let! pa0 := uva2ka pgdir va0 in
    if pa0 =? 0 then ret (inr (-1))
    else
      let n := u32 (PGSIZE - (va - va0)) in
      let n := if len <? n then len else n in
      kwrite (u32 (pa0 + (va - va0))) buf n ;;;
      ret (inl (u32 (va0 + PGSIZE), fun i => buf (n + i), u32 (len - n))).

Definition copyout (pgdir va : Z) (p : Z -> Z) (len : Z) : MV Z :=
  loop (S (Z.to_nat (len / PGSIZE + 2))) (copyout_body pgdir) (va, p, len).

(** ** The page-fault handler *)

(** The copy of a shared page, from after the release of [lock] to the
    end of the handler; the result says whether the process was killed. *)
Definition pagefault_copy (pgdir pte pa : Z) : MV bool :=
  let! mem := kalloc in
  if mem =? 0 then ret true
  else
    kmemmove mem (P2V pa) PGSIZE ;;;
    acquire_vm ;;;
    let! c := rc_get (Z.shiftr pa PGSHIFT) in
    rc_set (Z.shiftr pa PGSHIFT) (c - 1) ;;;
    let! c := rc_get (Z.shiftr (V2P mem) PGSHIFT) in
    rc_set (Z.shiftr (V2P mem) PGSHIFT) (c + 1) ;;;
    release_vm ;;;
    kstore pte (Z.lor (Z.lor (Z.lor (V2P mem) PTE_P) PTE_W) PTE_U) ;;;
    lcr3 (V2P pgdir) ;;;
    ret false.

(** [va] is the contents of CR2 and [pgdir] the page table of the current
    process; the result says whether the handler set [proc->killed]. *)
Definition pagefault (va pgdir : Z) : MV bool :=
  if KERNBASE <=? va then ret true
  else
    let! pte := walkpgdir pgdir va false in
    if pte =? 0 then ret true
    else
      let! e := kload pte in
      if Z.land e PTE_U =? 0 then ret true
      else if Z.land e PTE_P =? 0 then ret true
      else if negb (Z.land e PTE_W =? 0)
      then panic "Unknown page fault due to a writable pte"
      else
        let pa := PTE_ADDR e in
        acquire_vm ;;;
        let! c := rc_get (Z.shiftr pa PGSHIFT) in
        if c =? 1 then
          release_vm ;;;
          kstore pte (Z.lor e PTE_W) ;;;
          lcr3 (V2P pgdir) ;;;
          ret false
        else if 1 <? c then
          release_vm ;;;
          pagefault_copy pgdir pte pa
        else
          release_vm ;;;
          panic "Pagefault due to wrong ref count".
End Ops.

(** ** The hardware's view of a page table

    The x86 two-level walk for an access from user mode: both entries must
    be present and user-accessible, and writable for a write. *)
Definition mmu_allows (e : Z) (wr : bool) : bool :=
  Z.testbit e 0 && Z.testbit e 2 && (negb wr || Z.testbit e 1).

Definition mmu (m : memory) (dir va : Z) (wr : bool) : option Z :=
  let pde := load32 m (dir + 4 * PDX va) in
  if mmu_allows pde wr then
    let pte := load32 m (PTE_ADDR pde + 4 * PTX va) in
    if mmu_allows pte wr then Some (PTE_ADDR pte + va mod PGSIZE) else None
  else None.

(** A user-mode load and store through the page table at [dir]. *)
Definition user_load (m : memory) (dir va : Z) : option Z :=
  m <$> mmu m dir va false.

Definition user_store (m : memory) (dir va b : Z) : option memory :=
  (fun pa => store8 m pa b) <$> mmu m dir va true.
