(* ===== verification/Frames.v ===== *)
(** * Frames: the abstract state of physical memory and page tables

    Every page the allocator manages has one role: free, a page directory, a
    page-table page, a page mapped into user memory, or a page handed to
    another part of the kernel.  The abstract state records the roles, the
    page-table page behind each directory slot and the entry of each mapped
    virtual page; [tbl] says that byte memory and the free list represent
    it.  The lemmas are the abstract steps the code of [kalloc.c] and the
    page-table routines of [vm.c] make. *)
From stdpp Require Import base gmap list numbers strings.
From Stdlib Require Import ZArith Lia ZifyBool.
From S2P Require Import Prelude Machine Cstring Kalloc Vm.

(** ** Abstract state *)

Inductive owner :=
| OFree
| OKern
| ODir
| OTab (p i : Z)
| OUser.

#[export] Instance owner_eq_dec : EqDecision owner.
Proof. solve_decision. Defined.

Record avm := mkavm {
  free : list Z;
  own : gmap Z owner;
  tab : gmap (Z * Z) Z;
  maps : gmap (Z * Z) Z;
}.

(** Pages whose contents the page-table code does not interpret. *)
Definition data_role (r : owner) : Prop := r = OKern \/ r = OUser.

(** Virtual page numbers: [NVPN] in all, user memory below [UVPN]. *)
Definition NVPN : Z := 1048576.
Definition UVPN : Z := 524288.
#[export] Hint Unfold NVPN UVPN : xv6.

(** A decoded entry: [None] when the present bit is clear. *)
Definition present (w : Z) : bool := Z.testbit w 0.
Definition slot_rep (w : Z) (o : option Z) : Prop :=
  match o with
  | Some e => w = e
  | None => present w = false
  end.

Lemma present_land (w : Z) : (Z.land w PTE_P =? 0) = negb (present w).
Proof. apply land_PTE_P. Qed.

Lemma slot_absent (w : Z) : slot_rep w None -> (Z.land w PTE_P =? 0) = true.
Proof. intros H. rewrite present_land. by rewrite (H : present w = false). Qed.

Section Frames.
Context `{KI : KernelImage} `{KIO : !KernelImageOk}.

Record tbl (m : memory) (h : Z) (A : avm) : Prop := mktbl {
  tb_wf : mem_wf m;
  tb_pages : forall f r, own A !! f = Some r -> page_ok f;
  tb_free : freelist_rep m h (free A);
  tb_nodup : NoDup (free A);
  tb_free_own : forall f, f ∈ free A <-> own A !! f = Some OFree;
  tb_tab_own : forall p i t, tab A !! (p, i) = Some t <-> own A !! t = Some (OTab p i);
  tb_tab_dir : forall p i t, tab A !! (p, i) = Some t ->
                 own A !! p = Some ODir /\ 0 <= i < 1024;
  tb_pde : forall p i, own A !! p = Some ODir -> 0 <= i < 1024 ->
             slot_rep (load32 m (p + 4 * i)) ((fun t => t + 7) <$> tab A !! (p, i));
  tb_pte : forall p i t j, tab A !! (p, i) = Some t -> 0 <= j < 1024 ->
             slot_rep (load32 m (t + 4 * j)) (maps A !! (p, 1024 * i + j));
  tb_maps : forall p v e, maps A !! (p, v) = Some e ->
             0 <= v < NVPN /\ is_Some (tab A !! (p, v / 1024)) /\ present e = true;
}.

(** Memory agrees outside the page [f]. *)
Definition same_outside (f : Z) (m m' : memory) : Prop :=
  forall x, x < f \/ f + PGSIZE <= x -> m' x = m x.

Lemma load32_outside (m m' : memory) (f g off : Z) :
  same_outside f m m' -> page_ok f -> page_ok g -> f <> g ->
  0 <= off -> off + 4 <= PGSIZE -> load32 m' (g + off) = load32 m (g + off).
Proof.
  intros Hm (Hf & _) (Hg & _) Hne H0 H4. apply load32_same. intros x Hx.
  apply Hm. apply (pages_disjoint g f x); [done..|zlia].
Qed.

Lemma freelist_outside (m m' : memory) (f h : Z) (l : list Z) :
  same_outside f m m' -> page_ok f -> f ∉ l ->
  freelist_rep m h l -> freelist_rep m' h l.
Proof.
  intros Hm Hf Hl Hr. eapply freelist_rep_same; [|done]. intros g Hg x Hx.
  pose proof (freelist_rep_pages _ _ _ Hr) as Hp. rewrite Forall_forall in Hp.
  destruct (Hp g Hg) as (Ha & _). apply Hm.
  apply (pages_disjoint g f x); [done|apply Hf|by intros ->|zlia].
Qed.

(** A page with an uninterpreted role may be written freely. *)
Lemma tbl_write (m m' : memory) (h : Z) (A : avm) (f : Z) (r : owner) :
  tbl m h A -> mem_wf m' -> same_outside f m m' ->
  own A !! f = Some r -> data_role r -> tbl m' h A.
Proof.
  intros T Hwf Hm Hf Hr. pose proof (tb_pages _ _ _ T) as HP.
  assert (Hne : forall g r', own A !! g = Some r' -> ~ data_role r' -> f <> g).
  { intros g r' Hg Hr' ->. rewrite Hf in Hg. by simplify_eq. }
  split; try apply T; try done.
  - eapply freelist_outside; eauto using tb_free.
    rewrite (tb_free_own _ _ _ T). intros E. eapply Hne; eauto.
    by intros [|].
  - intros p i Hp Hi. erewrite load32_outside; [by apply (tb_pde _ _ _ T)|..];
      eauto; [|zlia..]. eapply Hne; eauto. by intros [|].
  - intros p i t j Ht Hj. erewrite load32_outside; [by apply (tb_pte _ _ _ T)|..]; eauto;
      try zlia; apply (tb_tab_own _ _ _ T) in Ht; eauto.
    eapply Hne; eauto. by intros [|].
Qed.

(** *** Allocation and release of a page *)

Definition take_free (f : Z) (l : list Z) (A : avm) : avm :=
  mkavm l (<[f := OKern]> (own A)) (tab A) (maps A).
Definition give_free (f : Z) (A : avm) : avm :=
  mkavm (f :: free A) (<[f := OFree]> (own A)) (tab A) (maps A).

(** Changing the role of a page to one the tables do not mention. *)
Lemma own_insert_tab (A : avm) (f : Z) (r r0 : owner) :
  own A !! f = Some r0 -> (forall p i, r0 <> OTab p i) -> (forall p i, r <> OTab p i) ->
  (forall p i t, tab A !! (p, i) = Some t <-> own A !! t = Some (OTab p i)) ->
  forall p i t, tab A !! (p, i) = Some t <-> <[f := r]> (own A) !! t = Some (OTab p i).
Proof.
  intros Hf Hr0 Hr HT p i t. rewrite HT. destruct (decide (f = t)) as [->|Hne].
  - rewrite lookup_insert_eq, Hf. split; intros E; simplify_eq; naive_solver.
  - by rewrite lookup_insert_ne.
Qed.

Lemma tbl_take (m : memory) (h h' f : Z) (l : list Z) (A : avm) :
  tbl m h A -> free A = f :: l -> freelist_rep m h' l -> tbl m h' (take_free f l A).
Proof.
  intros T Hfl Hrep.
  assert (Hf : own A !! f = Some OFree).
  { apply (tb_free_own _ _ _ T). rewrite Hfl. left. }
  pose proof (tb_nodup _ _ _ T) as Hnd. rewrite Hfl in Hnd.
  apply NoDup_cons in Hnd as [Hfl' Hnd].
  split; cbn; try apply T; try done.
  - intros g r Hg. destruct (decide (f = g)) as [->|Hne].
    + by apply (tb_pages _ _ _ T) in Hf.
    + rewrite lookup_insert_ne in Hg by done. by apply (tb_pages _ _ _ T) in Hg.
  - intros g. destruct (decide (f = g)) as [->|Hne].
    + rewrite lookup_insert_eq. split; [done|]. by intros [=].
    + rewrite lookup_insert_ne by done. rewrite <- (tb_free_own _ _ _ T), Hfl, elem_of_cons.
      naive_solver.
  - eapply own_insert_tab; eauto using tb_tab_own.
  - intros p i t Ht. apply (tb_tab_dir _ _ _ T) in Ht as [Hp Hi]. split; [|done].
    rewrite lookup_insert_ne; [done|]. intros ->. by rewrite Hf in Hp.
  - intros p i Hp Hi. apply (tb_pde _ _ _ T); [|done].
    destruct (decide (f = p)) as [->|Hne]; [by rewrite lookup_insert_eq in Hp|].
    by rewrite lookup_insert_ne in Hp.
Qed.

Lemma tbl_give (m m' : memory) (h h' f : Z) (A : avm) :
  tbl m h A -> own A !! f = Some OKern -> mem_wf m' -> same_outside f m m' ->
  freelist_rep m' h' (f :: free A) -> tbl m' h' (give_free f A).
Proof.
  intros T Hf Hwf Hm Hrep.
  assert (T' : tbl m' h A) by (eapply tbl_write; eauto; by left).
  assert (Hnf : f ∉ free A).
  { rewrite (tb_free_own _ _ _ T). by rewrite Hf. }
  split; cbn; try apply T'; try done.
  - intros g r Hg. destruct (decide (f = g)) as [->|Hne].
    + by apply (tb_pages _ _ _ T) in Hf.
    + rewrite lookup_insert_ne in Hg by done. by apply (tb_pages _ _ _ T) in Hg.
  - constructor; [done|apply T].
  - intros g. rewrite elem_of_cons. destruct (decide (f = g)) as [->|Hne].
    + rewrite lookup_insert_eq. naive_solver.
    + rewrite lookup_insert_ne by done. rewrite <- (tb_free_own _ _ _ T). naive_solver.
  - eapply own_insert_tab; eauto using tb_tab_own.
  - intros p i t Ht. apply (tb_tab_dir _ _ _ T) in Ht as [Hp Hi]. split; [|done].
    rewrite lookup_insert_ne; [done|]. intros ->. by rewrite Hf in Hp.
  - intros p i Hp Hi. apply (tb_pde _ _ _ T'); [|done].
    destruct (decide (f = p)) as [->|Hne]; [by rewrite lookup_insert_eq in Hp|].
    by rewrite lookup_insert_ne in Hp.
Qed.

Lemma store32_outside (m : memory) (f off v : Z) :
  0 <= off -> off + 4 <= PGSIZE -> same_outside f m (store32 m (f + off) v).
Proof. intros H0 H4 x Hx. apply store32_other. zlia. Qed.

Lemma memset_outside (m : memory) (f c : Z) : same_outside f m (memset m f c PGSIZE).
Proof.
  intros x Hx. rewrite memset_spec by zlia.
  by replace ((f <=? x) && (x <? f + PGSIZE)) with false by zlia.
Qed.

Lemma same_outside_trans (f : Z) (m1 m2 m3 : memory) :
  same_outside f m1 m2 -> same_outside f m2 m3 -> same_outside f m1 m3.
Proof. intros H1 H2 x Hx. by rewrite H2, H1. Qed.

Lemma load32_memset0 (m : memory) (f off : Z) :
  0 <= off -> off + 4 <= PGSIZE -> load32 (memset m f 0 PGSIZE) (f + off) = 0.
Proof.
  intros H0 H4. unfold load32. rewrite !memset_spec by zlia.
  repeat match goal with
  | |- context [(f <=? ?x) && (?x <? f + PGSIZE)] =>
      replace ((f <=? x) && (x <? f + PGSIZE)) with true by zlia
  end. done.
Qed.

Lemma tab_distinct (m : memory) (h : Z) (A : avm) (p i p' i' t : Z) :
  tbl m h A -> tab A !! (p, i) = Some t -> tab A !! (p', i') = Some t ->
  p = p' /\ i = i'.
Proof.
  intros T H1 H2. apply (tb_tab_own _ _ _ T) in H1, H2. naive_solver.
Qed.

Lemma tab_page (m : memory) (h : Z) (A : avm) (p i t : Z) :
  tbl m h A -> tab A !! (p, i) = Some t -> page_ok t.
Proof. intros T Ht. apply (tb_tab_own _ _ _ T) in Ht. by eapply tb_pages. Qed.

(** *** A new page directory *)

Definition make_dir (f : Z) (A : avm) : avm :=
  mkavm (free A) (<[f := ODir]> (own A)) (tab A) (maps A).

Lemma own_insert_free (A : avm) (f : Z) (r r0 : owner) :
  own A !! f = Some r0 -> r0 <> OFree -> r <> OFree ->
  (forall g, g ∈ free A <-> own A !! g = Some OFree) ->
  forall g, g ∈ free A <-> <[f := r]> (own A) !! g = Some OFree.
Proof.
  intros Hf H0 Hr HF g. rewrite HF. destruct (decide (f = g)) as [->|Hne].
  - rewrite lookup_insert_eq, Hf. split; intros [=]; congruence.
  - by rewrite lookup_insert_ne.
Qed.

Lemma own_insert_pages (A : avm) (f : Z) (r r0 : owner) :
  own A !! f = Some r0 -> (forall g r', own A !! g = Some r' -> page_ok g) ->
  forall g r', <[f := r]> (own A) !! g = Some r' -> page_ok g.
Proof.
  intros Hf HP g r'. destruct (decide (f = g)) as [->|Hne]; [eauto|].
  rewrite lookup_insert_ne by done. eauto.
Qed.

Lemma tbl_make_dir (m : memory) (h : Z) (A : avm) (f : Z) :
  tbl m h A -> own A !! f = Some OKern ->
  (forall i, 0 <= i < 1024 -> load32 m (f + 4 * i) = 0) ->
  tbl m h (make_dir f A).
Proof.
  intros T Hf Hz. split; cbn; try apply T.
  - eapply own_insert_pages; eauto using tb_pages.
  - eapply own_insert_free; eauto using tb_free_own; done.
  - eapply own_insert_tab; eauto using tb_tab_own.
  - intros p i t Ht. apply (tb_tab_dir _ _ _ T) in Ht as [Hp Hi]. split; [|done].
    rewrite lookup_insert_ne; [done|]. intros ->. by rewrite Hf in Hp.
  - intros p i Hp Hi. destruct (decide (f = p)) as [->|Hne].
    + destruct (tab A !! (p, i)) eqn:E; cbn.
      * apply (tb_tab_dir _ _ _ T) in E as [E _]. by rewrite Hf in E.
      * by rewrite Hz.
    + rewrite lookup_insert_ne in Hp by done. by apply (tb_pde _ _ _ T).
Qed.

(** *** Linking a page-table page into a directory *)

Definition link_tab (p i t : Z) (A : avm) : avm :=
  mkavm (free A) (<[t := OTab p i]> (own A)) (<[(p, i) := t]> (tab A)) (maps A).

Lemma tbl_link (m : memory) (h : Z) (A : avm) (p i t : Z) :
  tbl m h A -> own A !! p = Some ODir -> 0 <= i < 1024 ->
  tab A !! (p, i) = None -> own A !! t = Some OKern ->
  (forall j, 0 <= j < 1024 -> load32 m (t + 4 * j) = 0) ->
  tbl (store32 m (p + 4 * i) (t + 7)) h (link_tab p i t A).
Proof.
  intros T Hp Hi Hn Ht Hz. pose proof (tb_pages _ _ _ T) as HP.
  assert (Hpt : p <> t) by (intros ->; congruence).
  pose proof (page_ok_bounds _ (HP _ _ Ht)) as Htb.
  assert (Hm : same_outside p m (store32 m (p + 4 * i) (t + 7)))
    by (apply store32_outside; zlia).
  split; cbn; try apply T.
  - apply store32_wf, T.
  - eapply own_insert_pages; eauto.
  - eapply freelist_outside; eauto using tb_free.
    rewrite (tb_free_own _ _ _ T). by rewrite Hp.
  - eapply own_insert_free; eauto using tb_free_own; done.
  - intros p' i' t'. destruct (decide ((p, i) = (p', i'))) as [E|E].
    + simplify_eq. rewrite lookup_insert_eq. destruct (decide (t = t')) as [->|Hne].
      * by rewrite lookup_insert_eq.
      * rewrite lookup_insert_ne by done. rewrite <- (tb_tab_own _ _ _ T). naive_solver.
    + rewrite lookup_insert_ne by done. destruct (decide (t = t')) as [->|Hne].
      * rewrite lookup_insert_eq, (tb_tab_own _ _ _ T), Ht. naive_solver.
      * rewrite lookup_insert_ne by done. apply (tb_tab_own _ _ _ T).
  - intros p' i' t' Ht'. rewrite lookup_insert_ne.
    + destruct (decide ((p, i) = (p', i'))) as [E|E]; [by simplify_eq|].
      rewrite lookup_insert_ne in Ht' by done. by apply (tb_tab_dir _ _ _ T) in Ht'.
    + intros ->. destruct (decide ((p, i) = (p', i'))) as [E|E]; [by simplify_eq|].
      rewrite lookup_insert_ne in Ht' by done.
      apply (tb_tab_dir _ _ _ T) in Ht' as [? _]. congruence.
  - intros p' i' Hp' Hi'.
    assert (t <> p') as Hne by (intros ->; by rewrite lookup_insert_eq in Hp').
    rewrite lookup_insert_ne in Hp' by done.
    destruct (decide (p = p')) as [<-|Hpp]; [destruct (decide (i = i')) as [<-|Hii]|].
    + rewrite lookup_insert_eq. cbn. apply load32_store32_eq. zlia.
    + rewrite lookup_insert_ne by naive_solver. rewrite load32_store32_ne by lia.
      by apply (tb_pde _ _ _ T).
    + rewrite lookup_insert_ne by naive_solver.
      erewrite load32_outside; [by apply (tb_pde _ _ _ T)|..]; eauto; zlia.
  - intros p' i' t' j Ht' Hj. destruct (decide ((p, i) = (p', i'))) as [E|E].
    + simplify_eq. rewrite lookup_insert_eq in Ht'. simplify_eq.
      erewrite load32_outside; eauto; [|zlia..]. rewrite Hz by done.
      destruct (maps A !! _) as [e|] eqn:Em; cbn; [|done].
      apply (tb_maps _ _ _ T) in Em as (_ & [t'' Et] & _).
      replace ((1024 * i' + j) / 1024) with i' in Et by zlia. congruence.
    + rewrite lookup_insert_ne in Ht' by done.
      erewrite load32_outside; [by eapply (tb_pte _ _ _ T)|..]; eauto using tab_page; try zlia.
      intros ->. apply (tb_tab_own _ _ _ T) in Ht'. congruence.
  - intros p' v e Hv. apply (tb_maps _ _ _ T) in Hv as (? & [t' Ht'] & ?).
    split; [done|split; [|done]]. destruct (decide ((p, i) = (p', v / 1024))) as [E|E].
    + rewrite E, lookup_insert_eq. eauto.
    + rewrite lookup_insert_ne by done. eauto.
Qed.

(** *** Writing a page-table entry *)

Definition put_entry (k : Z * Z) (w : Z) (mp : gmap (Z * Z) Z) : gmap (Z * Z) Z :=
  if present w then <[k := w]> mp else delete k mp.

Definition set_entry (k : Z * Z) (w : Z) (A : avm) : avm :=
  mkavm (free A) (own A) (tab A) (put_entry k w (maps A)).

Lemma put_entry_eq (k : Z * Z) (w : Z) (mp : gmap (Z * Z) Z) :
  put_entry k w mp !! k = if present w then Some w else None.
Proof.
  unfold put_entry. case_match; [apply lookup_insert_eq|apply lookup_delete_eq].
Qed.

Lemma put_entry_ne (k k' : Z * Z) (w : Z) (mp : gmap (Z * Z) Z) :
  k <> k' -> put_entry k w mp !! k' = mp !! k'.
Proof.
  intros Hne. unfold put_entry.
  case_match; [by apply lookup_insert_ne|by apply lookup_delete_ne].
Qed.

Lemma tbl_set_entry (m : memory) (h : Z) (A : avm) (p i t j w : Z) :
  tbl m h A -> tab A !! (p, i) = Some t -> 0 <= j < 1024 -> 0 <= w < 4294967296 ->
  tbl (store32 m (t + 4 * j) w) h (set_entry (p, 1024 * i + j) w A).
Proof.
  intros T Ht Hj Hw. pose proof (tb_pages _ _ _ T) as HP.
  pose proof (tab_page _ _ _ _ _ _ T Ht) as Htp.
  pose proof Ht as Hto. apply (tb_tab_own _ _ _ T) in Hto.
  pose proof (tb_tab_dir _ _ _ T _ _ _ Ht) as [Hpd Hi].
  assert (Hm : same_outside t m (store32 m (t + 4 * j) w))
    by (apply store32_outside; zlia).
  split; cbn; try apply T.
  - apply store32_wf, T.
  - eapply freelist_outside; eauto using tb_free.
    rewrite (tb_free_own _ _ _ T). by rewrite Hto.
  - intros p' i' Hp' Hi'. erewrite load32_outside; [by apply (tb_pde _ _ _ T)|..]; eauto;
      try zlia. intros ->. congruence.
  - intros p' i' t' j' Ht' Hj'. destruct (decide (t = t')) as [<-|Hne].
    + destruct (tab_distinct _ _ _ _ _ _ _ _ T Ht Ht') as [<- <-].
      destruct (decide (j = j')) as [<-|Hjj].
      * rewrite load32_store32_eq by done. rewrite put_entry_eq. by case_match.
      * rewrite load32_store32_ne by lia.
        rewrite put_entry_ne by (intros [=]; lia). by eapply (tb_pte _ _ _ T).
    + rewrite put_entry_ne; cycle 1.
      { intros [=]. assert (i = i') by lia. simplify_eq. }
      erewrite load32_outside; [by eapply (tb_pte _ _ _ T)|..]; eauto using tab_page; zlia.
  - intros p' v e Hv. destruct (decide ((p, 1024 * i + j) = (p', v))) as [E|E].
    + simplify_eq. rewrite put_entry_eq in Hv. destruct (present w) eqn:Ew; [|done].
      simplify_eq. split; [zlia|split; [|done]].
      replace ((1024 * i + j) / 1024) with i by zlia. eauto.
    + rewrite put_entry_ne in Hv by done. by eapply tb_maps.
Qed.
End Frames.
