(* ===== verification/Tables.v ===== *)
(** * Tables: the page-table routines against the abstract state

    [walkpgdir], [mappages], [setupkvm] and [freevm] of [vm.c] as
    transformations of the abstract state of [Frames]. *)
From stdpp Require Import base gmap list numbers strings.
From Stdlib Require Import ZArith Lia ZifyBool.
From S2P Require Import Prelude Machine Cstring Kalloc Vm Frames.

(** The state differs only in memory, the free list and its count. *)
Definition phys_only (s s' : vmst) : Prop :=
  s' = set_mem (mem s') (set_freelist (freelist s')
         (set_numFreePages (numFreePages s') s)).

Lemma set_mem_twice (m m' : memory) (s : vmst) : set_mem m (set_mem m' s) = set_mem m s.
Proof. done. Qed.

Lemma phys_only_refl (s : vmst) : phys_only s s.
Proof. by destruct s. Qed.

Lemma phys_only_trans (s1 s2 s3 : vmst) :
  phys_only s1 s2 -> phys_only s2 s3 -> phys_only s1 s3.
Proof. unfold phys_only. intros H1 H2. rewrite H2, H1. by destruct s1, s2, s3. Qed.

Section Tables.
Context `{KI : KernelImage} `{KIO : !KernelImageOk}.

Record rep (s : vmst) (A : avm) : Prop := mkrep {
  rp_kl : kmem_lock s = false;
  rp_tbl : tbl (mem s) (freelist s) A;
}.

(** Contents of the pages with an uninterpreted role are unchanged. *)
Definition data_same (A : avm) (s s' : vmst) : Prop :=
  forall g r, own A !! g = Some r -> data_role r ->
    same_range (mem s) (mem s') g PGSIZE.

(** [A'] is [A] with some free pages made page tables of [p]. *)
Record grow (p : Z) (A A' : avm) : Prop := mkgrow {
  gr_own : forall x, own A' !! x = own A !! x \/
             (own A !! x = Some OFree /\ exists i, own A' !! x = Some (OTab p i));
  gr_tab : forall q i, q <> p -> tab A' !! (q, i) = tab A !! (q, i);
  gr_sub : tab A ⊆ tab A';
}.

Lemma grow_refl (p : Z) (A : avm) : grow p A A.
Proof. split; auto. Qed.

Lemma grow_trans (p : Z) (A1 A2 A3 : avm) : grow p A1 A2 -> grow p A2 A3 -> grow p A1 A3.
Proof.
  intros [O1 T1 S1] [O2 T2 S2]. split.
  - intros x. destruct (O1 x) as [E1|(E1 & i & F1)], (O2 x) as [E2|(E2 & i' & F2)].
    + left. congruence.
    + right. rewrite E1 in E2. eauto.
    + right. rewrite F1 in E2. eauto.
    + congruence.
  - intros q i Hq. by rewrite T2, T1.
  - by transitivity (tab A2).
Qed.

Lemma grow_keep (p : Z) (A A' : avm) (x : Z) (r : owner) :
  grow p A A' -> own A !! x = Some r -> r <> OFree -> own A' !! x = Some r.
Proof. intros G Hx Hr. destruct (gr_own _ _ _ G x) as [->|[E _]]; congruence. Qed.

(** At most [n] pages were taken from the free list. *)
Definition takes (n : nat) (A A' : avm) : Prop :=
  exists l, free A = l ++ free A' /\ (length l <= n)%nat.

Lemma takes_0 (n : nat) (A A' : avm) : free A' = free A -> takes n A A'.
Proof. intros E. exists []. split; [by rewrite E|cbn; lia]. Qed.

Lemma takes_trans (n k : nat) (A1 A2 A3 : avm) :
  takes n A1 A2 -> takes k A2 A3 -> takes (n + k) A1 A3.
Proof.
  intros (l1 & E1 & H1) (l2 & E2 & H2). exists (l1 ++ l2).
  split; [by rewrite E1, E2, app_assoc|rewrite length_app; lia].
Qed.

Lemma takes_length (n : nat) (A A' : avm) :
  takes n A A' -> (length (free A) <= n + length (free A'))%nat.
Proof. intros (l & -> & H). rewrite length_app. lia. Qed.

Lemma takes_mono (n k : nat) (A A' : avm) : takes n A A' -> (n <= k)%nat -> takes k A A'.
Proof. intros (l & E & H) Hk. exists l. split; [done|lia]. Qed.

Lemma data_same_refl (A : avm) (s : vmst) : data_same A s s.
Proof. intros g r _ _ x _. done. Qed.

Lemma data_same_trans (p : Z) (A A' : avm) (s1 s2 s3 : vmst) :
  grow p A A' -> data_same A s1 s2 -> data_same A' s2 s3 -> data_same A s1 s3.
Proof.
  intros G H1 H2 g r Hg Hr x Hx.
  assert (own A' !! g = Some r) as Hg'.
  { eapply grow_keep; eauto. by destruct Hr; subst. }
  rewrite (H2 g r Hg' Hr x Hx). by apply (H1 g r).
Qed.

(** *** Index arithmetic *)

Lemma PDX_vpn (va : Z) : 0 <= va < 4294967296 -> PDX va = va / 4096 / 1024 /\ 0 <= PDX va < 1024.
Proof. intros H. rewrite PDX_eq. zlia. Qed.

Lemma PTX_vpn (va : Z) : PTX va = (va / 4096) mod 1024 /\ 0 <= PTX va < 1024.
Proof. rewrite PTX_eq. zlia. Qed.

Lemma pde_decode (t : Z) :
  page_ok t -> negb (Z.land (t + 7) PTE_P =? 0) = true /\ PTE_ADDR (t + 7) = t.
Proof.
  intros Ht. pose proof (page_ok_bounds t Ht). destruct Ht as (Ha & _). split.
  - rewrite land_PTE_P, testbit_aligned by zlia. done.
  - rewrite PTE_ADDR_eq by zlia. zlia.
Qed.

(** *** [walkpgdir] *)

Definition pte_ptr (t va : Z) : Z := P2V t + 4 * PTX va.

Lemma pte_ptr_facts (t va : Z) :
  page_ok t ->
  u32 (P2V t + 4 * PTX va) = pte_ptr t va /\ kvalid (pte_ptr t va) 4 = true /\
  V2P (pte_ptr t va) = t + 4 * PTX va /\ pte_ptr t va <> 0.
Proof.
  intros Ht. pose proof (PTX_vpn va) as [_ Hx]. pose proof (page_ok_bounds t Ht).
  unfold pte_ptr. rewrite !P2V_page by done.
  split; [zlia|]. split; [unfold kvalid; zlia|]. split; zlia.
Qed.

Lemma pde_ptr_facts (p va : Z) :
  page_ok p -> 0 <= va < 4294967296 ->
  kvalid (u32 (P2V p + 4 * PDX va)) 4 = true /\
  V2P (u32 (P2V p + 4 * PDX va)) = p + 4 * PDX va.
Proof.
  intros Hp Hva. pose proof (PDX_vpn va Hva) as [_ Hx]. pose proof (page_ok_bounds p Hp).
  rewrite !P2V_page by done. split; [unfold kvalid; zlia|zlia].
Qed.

Lemma walk_found (s : vmst) (A : avm) (p va t : Z) (alloc : bool) :
  rep s A -> own A !! p = Some ODir -> 0 <= va < 4294967296 ->
  tab A !! (p, PDX va) = Some t ->
  walkpgdir (P2V p) va alloc s = Ok (pte_ptr t va) s.
Proof.
  intros [_ T] Hp Hva Ht. pose proof (tb_pages _ _ _ T _ _ Hp) as Hpp.
  pose proof (PDX_vpn va Hva) as [_ Hpx].
  destruct (pde_ptr_facts p va Hpp Hva) as [Hv HV].
  pose proof (tab_page _ _ _ _ _ _ T Ht) as Htp.
  pose proof (tb_pde _ _ _ T p (PDX va) Hp Hpx) as Hpde.
  rewrite Ht in Hpde. cbn in Hpde. destruct (pde_decode t Htp) as [HP HA].
  unfold walkpgdir, bind, kload. rewrite Hv, HV, Hpde, HP, HA. unfold ret. f_equal.
  by apply pte_ptr_facts.
Qed.

Lemma pde_absent (s : vmst) (A : avm) (p va : Z) :
  rep s A -> own A !! p = Some ODir -> 0 <= va < 4294967296 ->
  tab A !! (p, PDX va) = None ->
  kload (u32 (P2V p + 4 * PDX va)) s = Ok (load32 (mem s) (p + 4 * PDX va)) s /\
  negb (Z.land (load32 (mem s) (p + 4 * PDX va)) PTE_P =? 0) = false.
Proof.
  intros [_ T] Hp Hva Ht. pose proof (tb_pages _ _ _ T _ _ Hp) as Hpp.
  pose proof (PDX_vpn va Hva) as [_ Hpx].
  destruct (pde_ptr_facts p va Hpp Hva) as [Hv HV].
  pose proof (tb_pde _ _ _ T p (PDX va) Hp Hpx) as Hpde.
  rewrite Ht in Hpde. apply slot_absent in Hpde. split.
  - unfold kload. by rewrite Hv, HV.
  - by rewrite Hpde.
Qed.

Lemma walk_absent (s : vmst) (A : avm) (p va : Z) :
  rep s A -> own A !! p = Some ODir -> 0 <= va < 4294967296 ->
  tab A !! (p, PDX va) = None ->
  walkpgdir (P2V p) va false s = Ok 0 s.
Proof.
  intros R Hp Hva Ht. destruct (pde_absent s A p va R Hp Hva Ht) as [E1 E2].
  unfold walkpgdir, bind. by rewrite E1, E2.
Qed.

(** *** The allocator against the abstract state *)

Lemma rep_kalloc (s : vmst) (A : avm) :
  rep s A ->
  match free A with
  | [] => exists s', kalloc s = Ok 0 s' /\ rep s' A /\ phys_only s s' /\ mem s' = mem s
  | f :: l => exists s', kalloc s = Ok (P2V f) s' /\ rep s' (take_free f l A) /\
                phys_only s s' /\ mem s' = mem s
  end.
Proof.
  intros [Hk T]. pose proof (kalloc_pop s (free A) Hk (tb_free _ _ _ T)) as HA.
  destruct (free A) as [|f l] eqn:Hfl.
  - eexists. split; [exact HA|]. by destruct s.
  - destruct HA as (h' & HA & Hrep). eexists. split; [exact HA|].
    split; [|by destruct s]. split; [by destruct s..|].
    destruct s; cbn in *. by eapply tbl_take.
Qed.

Lemma rep_kfree (s : vmst) (A : avm) (f : Z) :
  rep s A -> own A !! f = Some OKern ->
  exists s', kfree (P2V f) s = Ok tt s' /\ rep s' (give_free f A) /\ phys_only s s' /\
    same_outside f (mem s) (mem s').
Proof.
  intros [Hk T] Hf. destruct (kfree_push s f (free A)) as (m' & E & R & W & S);
    try done; try apply T.
  - by apply (tb_pages _ _ _ T) in Hf.
  - rewrite (tb_free_own _ _ _ T). by rewrite Hf.
  - eexists. split; [exact E|]. destruct s; cbn in *.
    split; [|done]. split; [done..|]. cbn. by eapply tbl_give.
Qed.

Lemma rep_write (s : vmst) (A : avm) (m' : memory) (f : Z) (r : owner) :
  rep s A -> mem_wf m' -> same_outside f (mem s) m' ->
  own A !! f = Some r -> data_role r -> rep (set_mem m' s) A.
Proof.
  intros [Hk T] Hwf Hm Hf Hr. split; [by destruct s..|].
  destruct s; cbn in *. by eapply tbl_write.
Qed.

Lemma kmemset_page (s : vmst) (f c : Z) :
  page_ok f -> kmemset (P2V f) c PGSIZE s = Ok tt (set_mem (memset (mem s) f c PGSIZE) s).
Proof.
  intros Hf. pose proof (kvalid_page f 0 PGSIZE Hf ltac:(lia) ltac:(zlia)) as Hv.
  rewrite Z.add_0_r in Hv. unfold kmemset. by rewrite Hv, V2P_P2V_page.
Qed.

Lemma pde_value (t : Z) :
  page_ok t -> Z.lor (Z.lor (Z.lor (V2P (P2V t)) PTE_P) PTE_W) PTE_U = t + 7.
Proof.
  intros Ht. rewrite V2P_P2V_page by done. rewrite <- !Z.lor_assoc.
  apply lor_aligned; [apply Ht|]. by compute.
Qed.

(** A page just taken from the free list, zeroed and linked as the table
    of slot [i] of directory [p]. *)
Definition linked (s : vmst) (p i f : Z) : vmst :=
  set_mem (store32 (memset (mem s) f 0 PGSIZE) (p + 4 * i) (f + 7)) s.

Lemma linked_rep (s : vmst) (A : avm) (p i f : Z) (l : list Z) :
  rep s (take_free f l A) -> own A !! p = Some ODir -> own A !! f = Some OFree ->
  0 <= i < 1024 -> tab A !! (p, i) = None ->
  rep (linked s p i f) (link_tab p i f (take_free f l A)).
Proof.
  intros R Hp Hf Hi Ht. assert (f <> p) by (intros ->; congruence).
  assert (Hk : own (take_free f l A) !! f = Some OKern) by apply lookup_insert_eq.
  assert (R' : rep (set_mem (memset (mem s) f 0 PGSIZE) s) (take_free f l A)).
  { eapply rep_write; eauto; [|apply memset_outside|by left].
    apply memset_wf; [apply (rp_tbl _ _ R)|zlia]. }
  split; [apply R..|]. cbn. apply tbl_link; try done.
  - apply (rp_tbl _ _ R').
  - cbn. by rewrite lookup_insert_ne.
  - intros j Hj. apply load32_memset0; zlia.
Qed.

Lemma linked_data (s0 s : vmst) (A : avm) (p i f : Z) :
  rep s0 A -> mem s = mem s0 -> own A !! p = Some ODir -> own A !! f = Some OFree ->
  0 <= i < 1024 -> data_same A s0 (linked s p i f).
Proof.
  intros R HM Hp Hf Hi g r Hg Hr x Hx. cbn.
  pose proof (tb_pages _ _ _ (rp_tbl _ _ R)) as HP.
  assert (g <> p) by (intros ->; rewrite Hp in Hg; by destruct Hr; simplify_eq).
  assert (g <> f) by (intros ->; rewrite Hf in Hg; by destruct Hr; simplify_eq).
  rewrite (store32_outside _ p (4 * i) (f + 7)); [|zlia|zlia|].
  - rewrite memset_outside; [by rewrite HM|].
    by apply (pages_disjoint g f x); [eapply HP..| |].
  - by apply (pages_disjoint g p x); [eapply HP..| |].
Qed.

Lemma grow_link (A : avm) (p i f : Z) (l : list Z) :
  own A !! f = Some OFree -> tab A !! (p, i) = None ->
  grow p A (link_tab p i f (take_free f l A)).
Proof.
  intros Hf Ht. split; cbn.
  - intros x. destruct (decide (f = x)) as [->|Hne].
    + right. rewrite lookup_insert_eq. eauto.
    + left. by rewrite !lookup_insert_ne.
  - intros q j Hq. by rewrite lookup_insert_ne by naive_solver.
  - by apply insert_subseteq.
Qed.

(** [walkpgdir] with allocation: the table is there, or it is taken from
    the free list, or the free list is empty and nothing changes. *)
Lemma walk_alloc (s : vmst) (A : avm) (p va : Z) :
  rep s A -> own A !! p = Some ODir -> 0 <= va < 4294967296 ->
  wp (walkpgdir (P2V p) va true) (fun r s' => exists A',
    rep s' A' /\ phys_only s s' /\ data_same A s s' /\ grow p A A' /\
    maps A' = maps A /\ takes 1 A A' /\
    ((r = 0 /\ A' = A /\ free A = [] /\ tab A !! (p, PDX va) = None) \/
     (exists t, tab A' !! (p, PDX va) = Some t /\ r = pte_ptr t va))) s.
Proof.
  intros R Hp Hva. destruct (tab A !! (p, PDX va)) as [t|] eqn:Ht.
  { eapply wp_from_Ok; [by eapply walk_found|]. exists A.
    split_and!; eauto using phys_only_refl, data_same_refl, grow_refl, takes_0. }
  destruct (pde_absent s A p va R Hp Hva Ht) as [E1 E2].
  unfold walkpgdir. apply wp_bind. eapply wp_from_Ok; [exact E1|]. rewrite E2. cbn [negb].
  apply wp_bind. pose proof (rep_kalloc s A R) as HA.
  destruct (free A) as [|f l] eqn:Hfl.
  { destruct HA as (s' & EA & R' & P' & M'). eapply wp_from_Ok; [exact EA|].
    rewrite Z.eqb_refl. apply wp_ret. exists A. split_and!; eauto using grow_refl, takes_0.
    intros g r _ _ x _. by rewrite M'. }
  destruct HA as (s1 & EA & R1 & P1 & M1). eapply wp_from_Ok; [exact EA|].
  assert (Hf : own A !! f = Some OFree).
  { apply (tb_free_own _ _ _ (rp_tbl _ _ R)). rewrite Hfl. left. }
  pose proof (tb_pages _ _ _ (rp_tbl _ _ R) _ _ Hf) as Hfp.
  pose proof (tb_pages _ _ _ (rp_tbl _ _ R) _ _ Hp) as Hpp.
  destruct (pde_ptr_facts p va Hpp Hva) as [Hv HV].
  pose proof (PDX_vpn va Hva) as [_ Hpx].
  rewrite (proj2 (Z.eqb_neq _ _) (P2V_page_nonzero f Hfp)).
  apply wp_bind. eapply wp_from_Ok; [by apply kmemset_page|].
  apply wp_bind. eapply wp_from_Ok.
  { unfold kstore. rewrite Hv, HV. reflexivity. }
  rewrite pde_value by done. rewrite set_mem_twice.
  change (set_mem _ s1) with (linked s1 p (PDX va) f). apply wp_ret.
  exists (link_tab p (PDX va) f (take_free f l A)).
  split_and!; [by eapply linked_rep| | |by apply grow_link|done|by exists [f]|].
  - eapply phys_only_trans; [exact P1|]. by destruct s1.
  - by apply (linked_data s s1).
  - right. exists f. cbn. rewrite lookup_insert_eq. split; [done|].
    by apply pte_ptr_facts.
Qed.

(** *** Reading and writing entries *)

Definition vpn (va : Z) : Z := va / 4096.

Lemma vpn_split (va : Z) :
  0 <= va < 4294967296 ->
  1024 * PDX va + PTX va = vpn va /\ vpn va / 1024 = PDX va /\ 0 <= vpn va < NVPN.
Proof.
  intros Hva. pose proof (PDX_vpn va Hva) as [-> _]. pose proof (PTX_vpn va) as [-> _].
  unfold vpn. zlia.
Qed.

Lemma kload_pte (s : vmst) (t va : Z) :
  page_ok t -> kload (pte_ptr t va) s = Ok (load32 (mem s) (t + 4 * PTX va)) s.
Proof.
  intros Ht. destruct (pte_ptr_facts t va Ht) as (_ & Hv & HV & _).
  unfold kload. by rewrite Hv, HV.
Qed.

Lemma kstore_pte (s : vmst) (t va w : Z) :
  page_ok t ->
  kstore (pte_ptr t va) w s = Ok tt (set_mem (store32 (mem s) (t + 4 * PTX va) w) s).
Proof.
  intros Ht. destruct (pte_ptr_facts t va Ht) as (_ & Hv & HV & _).
  unfold kstore. by rewrite Hv, HV.
Qed.

Lemma entry_rep (s : vmst) (A : avm) (p va t : Z) :
  rep s A -> 0 <= va < 4294967296 -> tab A !! (p, PDX va) = Some t ->
  slot_rep (load32 (mem s) (t + 4 * PTX va)) (maps A !! (p, vpn va)).
Proof.
  intros [_ T] Hva Ht. destruct (vpn_split va Hva) as (<- & _ & _).
  apply (tb_pte _ _ _ T); [done|apply PTX_vpn].
Qed.

Lemma rep_set_entry (s : vmst) (A : avm) (p va t w : Z) :
  rep s A -> 0 <= va < 4294967296 -> tab A !! (p, PDX va) = Some t ->
  0 <= w < 4294967296 ->
  rep (set_mem (store32 (mem s) (t + 4 * PTX va) w) s) (set_entry (p, vpn va) w A).
Proof.
  intros [Hk T] Hva Ht Hw. split; [done..|]. destruct (vpn_split va Hva) as (<- & _ & _).
  cbn. apply tbl_set_entry; try done. apply PTX_vpn.
Qed.

Lemma set_entry_data (s : vmst) (A : avm) (p va t w : Z) :
  rep s A -> tab A !! (p, PDX va) = Some t ->
  data_same A s (set_mem (store32 (mem s) (t + 4 * PTX va) w) s).
Proof.
  intros [_ T] Ht g r Hg Hr x Hx. cbn. pose proof (tab_page _ _ _ _ _ _ T Ht) as Htp.
  pose proof (tb_pages _ _ _ T _ _ Hg) as Hgp. pose proof (PTX_vpn va) as [_ Hpx].
  apply (store32_outside _ t (4 * PTX va) w); [zlia..|].
  apply (pages_disjoint g t x); [apply Hgp|apply Htp| |done].
  intros ->. apply (tb_tab_own _ _ _ T) in Ht. rewrite Hg in Ht.
  by destruct Hr; simplify_eq.
Qed.

Lemma grow_set_entry (p : Z) (A : avm) (k : Z * Z) (w : Z) : grow p A (set_entry k w A).
Proof. split; auto. Qed.

(** The value [mappages] stores: frame, permissions, present. *)
Definition mk_pte (pa perm : Z) : Z := Z.lor (Z.lor pa perm) PTE_P.

Lemma mk_pte_facts (pa perm : Z) :
  pa mod 4096 = 0 -> 0 <= pa < 4294967296 -> 0 <= perm < 4096 ->
  mk_pte pa perm = pa + Z.lor perm PTE_P /\ 0 <= mk_pte pa perm < 4294967296 /\
  present (mk_pte pa perm) = true /\ PTE_ADDR (mk_pte pa perm) = pa.
Proof.
  intros Ha Hpa Hp. assert (Hr : 0 <= Z.lor perm PTE_P < 4096) by (apply lor_range; zlia).
  assert (E : mk_pte pa perm = pa + Z.lor perm PTE_P).
  { unfold mk_pte. rewrite <- Z.lor_assoc. by apply lor_aligned. }
  split; [done|]. rewrite E. split; [zlia|]. split.
  - unfold present. rewrite testbit_aligned, Z.lor_spec by lia. by rewrite orb_true_r.
  - rewrite PTE_ADDR_eq by zlia. zlia.
Qed.

(** *** [mappages] *)

(** One iteration maps the page, or finds the free list empty. *)
Lemma mappages_body_spec (s : vmst) (A : avm) (p last perm a pa : Z) :
  rep s A -> own A !! p = Some ODir -> 0 <= a < 4294967296 ->
  pa mod 4096 = 0 -> 0 <= pa < 4294967296 -> 0 <= perm < 4096 ->
  maps A !! (p, vpn a) = None ->
  wp (mappages_body (P2V p) last perm (a, pa)) (fun r s' => exists A',
    rep s' A' /\ phys_only s s' /\ data_same A s s' /\ grow p A A' /\ takes 1 A A' /\
    ((r = inr (-1) /\ A' = A /\ free A = [] /\ tab A !! (p, PDX a) = None) \/
     (maps A' = <[(p, vpn a) := mk_pte pa perm]> (maps A) /\
      r = if a =? last then inr 0 else inl (u32 (a + PGSIZE), u32 (pa + PGSIZE))))) s.
Proof.
  intros R Hp Ha Hpa Hpar Hperm Hn. destruct (mk_pte_facts pa perm) as (_ & Hw & Hpr & _);
    try done.
  unfold mappages_body. apply wp_bind. eapply wp_mono; [by apply walk_alloc|].
  intros r s1 (A1 & R1 & P1 & D1 & G1 & M1 & K1 & [(-> & -> & Hfl & Ht)|(t & Ht & ->)]).
  { rewrite Z.eqb_refl. apply wp_ret. exists A. split_and!; eauto. }
  pose proof (tab_page _ _ _ _ _ _ (rp_tbl _ _ R1) Ht) as Htp.
  destruct (pte_ptr_facts t a Htp) as (_ & _ & _ & Hnz).
  rewrite (proj2 (Z.eqb_neq _ _) Hnz).
  apply wp_bind. eapply wp_from_Ok; [by apply kload_pte|].
  pose proof (entry_rep s1 A1 p a t R1 Ha Ht) as Hs. rewrite M1, Hn in Hs.
  rewrite (slot_absent _ Hs). cbn [negb].
  apply wp_bind. eapply wp_from_Ok; [by apply kstore_pte|]. fold (mk_pte pa perm).
  assert (E : put_entry (p, vpn a) (mk_pte pa perm) (maps A1)
              = <[(p, vpn a) := mk_pte pa perm]> (maps A)).
  { unfold put_entry. by rewrite Hpr, M1. }
  enough (rep (set_mem (store32 (mem s1) (t + 4 * PTX a) (mk_pte pa perm)) s1)
            (set_entry (p, vpn a) (mk_pte pa perm) A1) /\
          phys_only s (set_mem (store32 (mem s1) (t + 4 * PTX a) (mk_pte pa perm)) s1) /\
          data_same A s (set_mem (store32 (mem s1) (t + 4 * PTX a) (mk_pte pa perm)) s1) /\
          grow p A (set_entry (p, vpn a) (mk_pte pa perm) A1)) as (Q1 & Q2 & Q3 & Q4).
  { destruct (a =? last); apply wp_ret; eexists; eauto 10. }
  split_and!.
  - by apply rep_set_entry.
  - eapply phys_only_trans; [exact P1|]. by destruct s1.
  - eapply data_same_trans; [exact G1|exact D1|]. by eapply set_entry_data.
  - eapply grow_trans; [exact G1|]. apply grow_set_entry.
Qed.

(** [mp'] is [mp] with [k] consecutive virtual pages of [p] mapped. *)
Definition mapped (p v0 k : Z) (ent : Z -> Z) (mp mp' : gmap (Z * Z) Z) : Prop :=
  forall q v, mp' !! (q, v) =
    if decide (q = p /\ v0 <= v < v0 + k) then Some (ent (v - v0)) else mp !! (q, v).

Lemma mapped_0 (p v0 : Z) (ent : Z -> Z) (mp : gmap (Z * Z) Z) : mapped p v0 0 ent mp mp.
Proof. intros q v. rewrite decide_False; [done|lia]. Qed.

Lemma mapped_S (p v0 k : Z) (ent : Z -> Z) (mp mp' : gmap (Z * Z) Z) :
  0 <= k -> mapped p v0 k ent mp mp' ->
  mapped p v0 (k + 1) ent mp (<[(p, v0 + k) := ent k]> mp').
Proof.
  intros Hk HM q v. destruct (decide ((p, v0 + k) = (q, v))) as [[= <- <-]|Hne].
  - rewrite lookup_insert_eq, decide_True by lia. f_equal. f_equal. lia.
  - rewrite lookup_insert_ne by done. rewrite HM.
    destruct (decide (q = p /\ v0 <= v < v0 + k)) as [Hin|Hin].
    + rewrite decide_True by lia. done.
    + rewrite decide_False; [done|]. intros [-> Hv].
      apply Hin. split; [done|]. assert (v <> v0 + k) by congruence. lia.
Qed.

Definition range_ent (pa perm i : Z) : Z := mk_pte (pa + 4096 * i) perm.

(** [mappages] maps all [n] pages, or stops after some of them with the
    free list empty. *)
Lemma mappages_spec (s : vmst) (A : avm) (p va pa perm n : Z) :
  rep s A -> own A !! p = Some ODir ->
  va mod 4096 = 0 -> 0 <= va -> 1 <= n -> va + 4096 * n <= 4294967296 ->
  pa mod 4096 = 0 -> 0 <= pa -> pa + 4096 * n <= 4294967296 -> 0 <= perm < 4096 ->
  (forall i, 0 <= i < n -> maps A !! (p, vpn va + i) = None) ->
  wp (mappages (P2V p) va (4096 * n) pa perm) (fun r s' => exists A' k,
    rep s' A' /\ phys_only s s' /\ data_same A s s' /\ grow p A A' /\
    mapped p (vpn va) k (range_ent pa perm) (maps A) (maps A') /\
    takes (Z.to_nat k) A A' /\
    ((r = 0 /\ k = n) \/
     (r = -1 /\ 0 <= k < n /\ free A' = [] /\
      tab A' !! (p, PDX (va + 4096 * k)) = None))) s.
Proof.
  intros R Hp Hva Hva0 Hn Hvar Hpa Hpa0 Hpar Hperm Hfresh. unfold mappages.
  rewrite (PGROUNDDOWN_eq va), (u32_id (va + 4096 * n - 1)) by lia.
  rewrite (PGROUNDDOWN_eq (va + 4096 * n - 1)) by lia.
  replace (va - va mod 4096) with va by lia.
  replace (va + 4096 * n - 1 - (va + 4096 * n - 1) mod 4096)
    with (va + 4096 * (n - 1)) by zlia.
  set (inv := fun (st : Z * Z) (s' : vmst) => exists A' j,
    st = (va + 4096 * j, pa + 4096 * j) /\ 0 <= j < n /\
    rep s' A' /\ phys_only s s' /\ data_same A s s' /\ grow p A A' /\
    mapped p (vpn va) j (range_ent pa perm) (maps A) (maps A') /\
    takes (Z.to_nat j) A A').
  eapply (wp_loop inv (fun st => Z.to_nat (n - 1 - (fst st - va) / 4096))).
  - intros st s1 (A1 & j & -> & Hj & R1 & P1 & D1 & G1 & M1 & K1).
    assert (Hp1 : own A1 !! p = Some ODir) by (by eapply grow_keep).
    assert (Hvj : vpn (va + 4096 * j) = vpn va + j) by (unfold vpn; zlia).
    eapply wp_mono; [apply (mappages_body_spec s1 A1); try done; try zlia|].
    { rewrite Hvj, M1, decide_False by lia. by apply Hfresh. }
    intros r s2 (A2 & R2 & P2 & D2 & G2 & K2 & [(-> & -> & Hfl & Ht)|(M2 & ->)]).
    + exists A1, j. split_and!; eauto 10 using phys_only_trans, data_same_trans.
    + rewrite Hvj in M2.
      assert (M2' : mapped p (vpn va) (j + 1) (range_ent pa perm) (maps A) (maps A2)).
      { rewrite M2. refine (mapped_S _ _ _ (range_ent pa perm) _ _ _ M1). lia. }
      assert (K2' : takes (Z.to_nat (j + 1)) A A2).
      { eapply takes_mono; [by eapply takes_trans|lia]. }
      destruct (Z.eqb_spec (va + 4096 * j) (va + 4096 * (n - 1))) as [E|E].
      * exists A2, (j + 1). split_and!; eauto using phys_only_trans, data_same_trans, grow_trans.
        left. split; [done|lia].
      * split.
        -- exists A2, (j + 1).
           split; [rewrite !u32_id by zlia; f_equal; zlia|].
           split; [lia|]. split_and!; eauto using phys_only_trans, data_same_trans, grow_trans.
        -- cbn [fst]. rewrite u32_id by zlia. zlia.
  - exists A, 0. split; [f_equal; lia|]. split; [lia|].
    split_and!; eauto using phys_only_refl, data_same_refl, grow_refl, mapped_0, takes_0.
  - cbn [fst]. rewrite u32_id by zlia. zlia.
Qed.
End Tables.
