(* ===== verification/Cow.v ===== *)
(** * Cow: reference counts and the copy-on-write invariant

    The number of user entries that point at each page, the invariant that
    ties [pg_refcount] to it and keeps shared pages read-only, and the
    routines of [vm.c] that maintain it when memory is given back. *)
From stdpp Require Import base gmap list numbers strings.
From Stdlib Require Import ZArith Lia ZifyBool.
From S2P Require Import Prelude Machine Cstring Kalloc Vm Frames Tables.

(** ** Counting references *)

(** The entry [(p, v) -> e] is a user mapping of the page [f]. *)
Definition refers (f : Z) (kv : (Z * Z) * Z) : Prop :=
  kv.1.2 < UVPN /\ PTE_ADDR kv.2 = f.

#[export] Instance refers_dec (f : Z) (kv : (Z * Z) * Z) : Decision (refers f kv).
Proof. unfold refers. apply _. Defined.

Definition refs (mp : gmap (Z * Z) Z) (f : Z) : nat := size (filter (refers f) mp).

Lemma refs_insert (mp : gmap (Z * Z) Z) (k : Z * Z) (e f : Z) :
  mp !! k = None ->
  refs (<[k := e]> mp) f =
  ((if decide (refers f (k, e)) then 1 else 0) + refs mp f)%nat.
Proof.
  intros Hk. unfold refs. destruct (decide (refers f (k, e))) as [H|H].
  - rewrite map_filter_insert_True by done. rewrite map_size_insert_None; [done|].
    apply map_lookup_filter_None_2. by left.
  - rewrite map_filter_insert_not'; [done|done|]. intros y. by rewrite Hk.
Qed.

Lemma refs_delete (mp : gmap (Z * Z) Z) (k : Z * Z) (e f : Z) :
  mp !! k = Some e ->
  refs mp f = ((if decide (refers f (k, e)) then 1 else 0) + refs (delete k mp) f)%nat.
Proof.
  intros Hk. rewrite <- refs_insert by apply lookup_delete_eq.
  by rewrite insert_delete_eq, insert_id.
Qed.

(** The count depends only on which page each user entry points at. *)
Lemma refs_fmap (mp : gmap (Z * Z) Z) (f : Z) :
  refs mp f = size (filter (fun kv : (Z * Z) * Z => kv.1.2 < UVPN /\ kv.2 = f) (PTE_ADDR <$> mp)).
Proof. unfold refs. rewrite map_filter_fmap, map_size_fmap. done. Qed.

Lemma refs_frames_ext (mp mp' : gmap (Z * Z) Z) (f : Z) :
  (forall p v, v < UVPN -> PTE_ADDR <$> mp' !! (p, v) = PTE_ADDR <$> mp !! (p, v)) ->
  refs mp' f = refs mp f.
Proof.
  intros H. rewrite !refs_fmap. f_equal. apply map_filter_strong_ext_1.
  intros [p v] e. cbn. rewrite !lookup_fmap.
  split; intros [[Hv He] Hk]; (split; [done|]); [by rewrite <- H|by rewrite H].
Qed.

Lemma refs_user_ext (mp mp' : gmap (Z * Z) Z) (f : Z) :
  (forall p v, v < UVPN -> mp' !! (p, v) = mp !! (p, v)) -> refs mp' f = refs mp f.
Proof. intros H. apply refs_frames_ext. intros p v Hv. by rewrite H. Qed.

(** Replacing an entry by one for the same page. *)
Lemma refs_replace (mp : gmap (Z * Z) Z) (k : Z * Z) (e e' f : Z) :
  mp !! k = Some e -> PTE_ADDR e' = PTE_ADDR e -> refs (<[k := e']> mp) f = refs mp f.
Proof.
  intros Hk He. apply refs_frames_ext. intros p v _. destruct (decide (k = (p, v))) as [->|Hne].
  - rewrite lookup_insert_eq, Hk. cbn. by rewrite He.
  - by rewrite lookup_insert_ne.
Qed.

Lemma refs_pos (mp : gmap (Z * Z) Z) (p v e : Z) :
  mp !! (p, v) = Some e -> v < UVPN -> (0 < refs mp (PTE_ADDR e))%nat.
Proof.
  intros Hk Hv. rewrite (refs_delete mp (p, v) e _ Hk). rewrite decide_True by done. lia.
Qed.

Lemma refs_two (mp : gmap (Z * Z) Z) (p v e p' v' e' : Z) :
  mp !! (p, v) = Some e -> mp !! (p', v') = Some e' -> (p, v) <> (p', v') ->
  v < UVPN -> v' < UVPN -> PTE_ADDR e' = PTE_ADDR e -> (2 <= refs mp (PTE_ADDR e))%nat.
Proof.
  intros Hk Hk' Hne Hv Hv' He. rewrite (refs_delete mp (p, v) e _ Hk), decide_True by done.
  rewrite (refs_delete (delete (p, v) mp) (p', v') e').
  - rewrite decide_True; [lia|]. split; [done|]. done.
  - by rewrite lookup_delete_ne.
Qed.

Lemma refs_zero (mp : gmap (Z * Z) Z) (f : Z) :
  (forall p v e, mp !! (p, v) = Some e -> v < UVPN -> PTE_ADDR e <> f) -> refs mp f = 0%nat.
Proof.
  intros H. unfold refs. apply map_size_empty_iff, map_empty. intros [p v].
  apply map_lookup_filter_None_2. right. intros e Hk [Hv He]. by eapply H.
Qed.

Lemma refs_nonzero (mp : gmap (Z * Z) Z) (f : Z) :
  (0 < refs mp f)%nat -> exists p v e, mp !! (p, v) = Some e /\ v < UVPN /\ PTE_ADDR e = f.
Proof.
  unfold refs. intros H. destruct (map_choose (filter (refers f) mp)) as ([p v] & e & Hk).
  { intros E. rewrite E, map_size_empty in H. lia. }
  apply map_lookup_filter_Some in Hk as (Hk & Hv & He). eauto 10.
Qed.

(** ** The invariant *)

Section Cow.
Context `{KI : KernelImage} `{KIO : !KernelImageOk}.

Record cow (rc : Z -> Z) (A : avm) : Prop := mkcow {
  cw_user : forall f, own A !! f = Some OUser <-> (0 < refs (maps A) f)%nat;
  cw_refs : forall f, page_ok f -> rc (f / 4096) = Z.of_nat (refs (maps A) f);
  cw_bound : forall f, (refs (maps A) f <= 127)%nat;
  cw_shared : forall p v e, maps A !! (p, v) = Some e -> v < UVPN ->
                Z.testbit e 1 = true -> refs (maps A) (PTE_ADDR e) = 1%nat;
  cw_inj : forall p v v' e e', maps A !! (p, v) = Some e -> maps A !! (p, v') = Some e' ->
             v < UVPN -> v' < UVPN -> PTE_ADDR e = PTE_ADDR e' -> v = v';
}.

(** The invariant of the memory subsystem. *)
Record vminv (s : vmst) (A : avm) : Prop := mkvminv {
  vi_rep : rep s A;
  vi_lock : vm_lock s = false;
  vi_cow : cow (pg_refcount s) A;
}.

(** The state differs in memory, free list, free count and reference
    counts only. *)
Definition vm_only (s s' : vmst) : Prop :=
  phys_only (set_pg_refcount (pg_refcount s') s) s'.

Lemma vm_only_refl (s : vmst) : vm_only s s.
Proof. by destruct s. Qed.
Lemma vm_only_trans (s1 s2 s3 : vmst) : vm_only s1 s2 -> vm_only s2 s3 -> vm_only s1 s3.
Proof. unfold vm_only, phys_only. intros H1 H2. rewrite H2, H1. by destruct s1, s2, s3. Qed.
Lemma phys_vm_only (s s' : vmst) : phys_only s s' -> vm_only s s'.
Proof. unfold vm_only, phys_only. intros ->. by destruct s. Qed.

Lemma phys_only_rc (s s' : vmst) : phys_only s s' -> pg_refcount s' = pg_refcount s.
Proof. by intros ->. Qed.

(** The invariant depends on the user pages and the user entries only. *)
Lemma cow_same (rc : Z -> Z) (A A' : avm) :
  cow rc A -> (forall f, own A' !! f = Some OUser <-> own A !! f = Some OUser) ->
  (forall q v, v < UVPN -> maps A' !! (q, v) = maps A !! (q, v)) -> cow rc A'.
Proof.
  intros [CU CR CB CS CI] HO HM. split.
  - intros f. rewrite (refs_user_ext (maps A)) by done. by rewrite HO.
  - intros f Hf. rewrite CR by done. f_equal. symmetry. by apply refs_user_ext.
  - intros f. rewrite (refs_user_ext (maps A)) by done. done.
  - intros q v e Hk Hv Hw. rewrite HM in Hk by done.
    rewrite (refs_user_ext (maps A)) by done. by eapply CS.
  - intros q v v' e e' Hk Hk' Hv Hv' He. rewrite HM in Hk, Hk' by done. by eapply CI.
Qed.

Lemma cow_grow (rc : Z -> Z) (p : Z) (A A' : avm) :
  cow rc A -> grow p A A' ->
  (forall q v, v < UVPN -> maps A' !! (q, v) = maps A !! (q, v)) -> cow rc A'.
Proof.
  intros C G HM. eapply cow_same; [done| |done]. intros f.
  by destruct (gr_own _ _ _ G f) as [->|(-> & i & ->)].
Qed.

Lemma user_page (s : vmst) (A : avm) (p v e : Z) :
  vminv s A -> maps A !! (p, v) = Some e -> v < UVPN ->
  own A !! PTE_ADDR e = Some OUser /\ page_ok (PTE_ADDR e).
Proof.
  intros [R _ C] Hk Hv. assert (Ho : own A !! PTE_ADDR e = Some OUser).
  { apply (cw_user _ _ C). by eapply refs_pos. }
  split; [done|]. by apply (tb_pages _ _ _ (rp_tbl _ _ R)) in Ho.
Qed.

Lemma unused_refs (rc : Z -> Z) (A : avm) (g : Z) :
  cow rc A -> own A !! g <> Some OUser -> refs (maps A) g = 0%nat.
Proof.
  intros C Hg. destruct (decide (0 < refs (maps A) g)%nat) as [H|]; [|lia].
  by apply (cw_user _ _ C) in H.
Qed.

(** Two data roles are interchangeable for the page tables. *)
Definition relabel (f : Z) (r : owner) (A : avm) : avm :=
  mkavm (free A) (<[f := r]> (own A)) (tab A) (maps A).

Lemma rep_relabel (s : vmst) (A : avm) (f : Z) (r r' : owner) :
  rep s A -> own A !! f = Some r -> data_role r -> data_role r' ->
  rep s (relabel f r' A).
Proof.
  intros [Hk T] Hf Hr Hr'. split; [done..|].
  assert (r <> OFree /\ r' <> OFree) as [? ?] by (destruct Hr, Hr'; subst; done).
  assert (forall p i, r <> OTab p i) by (intros; destruct Hr; subst; done).
  assert (forall p i, r' <> OTab p i) by (intros; destruct Hr'; subst; done).
  split; cbn; try apply T.
  - eapply own_insert_pages; eauto using tb_pages.
  - eapply own_insert_free; eauto using tb_free_own.
  - eapply own_insert_tab; eauto using tb_tab_own.
  - intros p i t Ht. apply (tb_tab_dir _ _ _ T) in Ht as [Hp Hi]. split; [|done].
    rewrite lookup_insert_ne; [done|]. intros ->. rewrite Hf in Hp. by destruct Hr; simplify_eq.
  - intros p i Hp Hi. apply (tb_pde _ _ _ T); [|done].
    destruct (decide (f = p)) as [->|Hne].
    + rewrite lookup_insert_eq in Hp. by destruct Hr'; simplify_eq.
    + by rewrite lookup_insert_ne in Hp.
Qed.

(** ** Dropping one reference *)

(** The reference count of page [f] changed by [d]. *)
Definition rc_add (f d : Z) (rc : Z -> Z) (j : Z) : Z :=
  if j =? f / 4096 then rc j + d else rc j.

Lemma rc_index (f : Z) :
  page_ok f -> Z.shiftr f PGSHIFT = f / 4096 /\
  ((0 <=? f / 4096) && (f / 4096 <? NREFCOUNT)) = true.
Proof.
  intros Hf. pose proof (page_ok_bounds f Hf). split; [by rewrite Z.shiftr_div_pow2|].
  change NREFCOUNT with 57344. zlia.
Qed.

Lemma rc_get_page (s : vmst) (f : Z) :
  page_ok f -> rc_get (Z.shiftr f PGSHIFT) s = Ok (pg_refcount s (f / 4096)) s.
Proof. intros Hf. destruct (rc_index f Hf) as [E1 E2]. unfold rc_get. by rewrite E1, E2. Qed.

Lemma rc_set_page (s : vmst) (f x : Z) :
  page_ok f -> rc_set (Z.shiftr f PGSHIFT) x s =
  Ok tt (set_pg_refcount (fun j => if j =? f / 4096 then i8 x else pg_refcount s j) s).
Proof. intros Hf. destruct (rc_index f Hf) as [E1 E2]. unfold rc_set. by rewrite E1, E2. Qed.

(** The page given back when its last reference goes. *)
Definition drop_page (f : Z) (A : avm) : avm :=
  if decide (refs (maps A) f = 1%nat) then give_free f (relabel f OKern A) else A.

Definition drop_entry (k : Z * Z) (f : Z) (A : avm) : avm :=
  set_entry k 0 (drop_page f A).

Lemma rep_lock (s : vmst) (A : avm) (b : bool) : rep s A -> rep (set_vm_lock b s) A.
Proof. intros [Hk T]. by split. Qed.
Lemma rep_rc (s : vmst) (A : avm) (rc : Z -> Z) : rep s A -> rep (set_pg_refcount rc s) A.
Proof. intros [Hk T]. by split. Qed.

Lemma rc_decr_free_spec (s : vmst) (A : avm) (f : Z) :
  rep s A -> vm_lock s = false -> own A !! f = Some OUser ->
  pg_refcount s (f / 4096) = Z.of_nat (refs (maps A) f) ->
  (0 < refs (maps A) f <= 127)%nat ->
  wp (rc_decr_free f) (fun _ s' =>
    rep s' (drop_page f A) /\ vm_lock s' = false /\ vm_only s s' /\
    (forall j, pg_refcount s' j = rc_add f (-1) (pg_refcount s) j) /\
    same_outside f (mem s) (mem s') /\
    (refs (maps A) f <> 1%nat -> mem s' = mem s)) s.
Proof.
  intros R Hl Hf Hc Hb. pose proof (tb_pages _ _ _ (rp_tbl _ _ R) _ _ Hf) as Hp.
  unfold rc_decr_free. apply wp_bind. eapply wp_from_Ok.
  { unfold acquire_vm. by rewrite Hl. }
  apply wp_bind. eapply wp_from_Ok; [by apply rc_get_page|].
  apply wp_bind. eapply wp_from_Ok; [by apply rc_set_page|].
  apply wp_bind. eapply wp_from_Ok; [by apply rc_get_page|]. cbn [pg_refcount set_pg_refcount set_vm_lock].
  rewrite Z.eqb_refl, Hc, i8_id by lia.
  set (s1 := set_pg_refcount _ _).
  assert (R1 : rep s1 A) by (by apply rep_rc, rep_lock).
  assert (Hrc : forall j, pg_refcount s1 j = rc_add f (-1) (pg_refcount s) j).
  { intros j. cbn. unfold rc_add. destruct (Z.eqb_spec j (f / 4096)) as [->|]; [|done].
    by rewrite Hc. }
  unfold drop_page. destruct (decide (refs (maps A) f = 1%nat)) as [E1|E1].
  - rewrite E1. cbn [Z.of_nat]. change (Z.pos (Pos.of_succ_nat 0) - 1 =? 0) with true. cbn [when].
    assert (R2 : rep s1 (relabel f OKern A)).
    { eapply rep_relabel; [done|done|by right|by left]. }
    destruct (rep_kfree s1 _ f R2) as (s2 & Ek & R3 & P3 & M3); [apply lookup_insert_eq|].
    apply wp_bind. eapply wp_from_Ok; [exact Ek|]. rewrite P3.
    eapply wp_from_Ok; [reflexivity|].
    split_and!; try done.
    + rewrite P3 in R3. by apply rep_lock.
    + unfold vm_only, phys_only. destruct s; cbn in Hl. by subst.
  - destruct (Z.eqb_spec (Z.of_nat (refs (maps A) f) - 1) 0); [lia|].
    apply wp_bind. apply wp_ret. eapply wp_from_Ok; [reflexivity|].
    split_and!; try done; [by apply rep_lock|].
    unfold vm_only, phys_only. destruct s; cbn in Hl. by subst.
Qed.

(** What giving user memory back does to the rest of the state: user
    pages may become free, entries of [p] in a range may go. *)
Record shrink (p v0 v1 : Z) (A A' : avm) : Prop := mkshrink {
  sh_own : forall x, own A' !! x = own A !! x \/
             (own A !! x = Some OUser /\ own A' !! x = Some OFree);
  sh_tab : tab A' = tab A;
  sh_maps : forall q v, maps A' !! (q, v) = maps A !! (q, v) \/
              (q = p /\ v0 <= v < v1 /\ maps A' !! (q, v) = None);
}.

Lemma shrink_refl (p v0 v1 : Z) (A : avm) : shrink p v0 v1 A A.
Proof. split; auto. Qed.

Lemma shrink_trans (p v0 v1 : Z) (A1 A2 A3 : avm) :
  shrink p v0 v1 A1 A2 -> shrink p v0 v1 A2 A3 -> shrink p v0 v1 A1 A3.
Proof.
  intros [O1 T1 M1] [O2 T2 M2]. split.
  - intros x. destruct (O1 x) as [E1|[E1 F1]], (O2 x) as [E2|[E2 F2]]; rewrite ?E2.
    + by left.
    + right. split; congruence.
    + right. split; congruence.
    + congruence.
  - congruence.
  - intros q v. destruct (M2 q v) as [E2|E2]; [|by right].
    destruct (M1 q v) as [E1|(? & ? & E1)]; [left|right]; rewrite E2; auto.
Qed.

(** Data pages of the smaller state keep their contents. *)
Lemma shrink_data (p v0 v1 : Z) (A1 A2 A3 : avm) (s1 s2 s3 : vmst) :
  shrink p v0 v1 A2 A3 -> data_same A2 s1 s2 -> data_same A3 s2 s3 -> data_same A3 s1 s3.
Proof.
  intros S D1 D2 g r Hg Hr x Hx. rewrite (D2 g r Hg Hr x Hx). apply (D1 g r); [|done..].
  destruct (sh_own _ _ _ _ _ S g) as [<-|[_ E]]; [done|].
  rewrite Hg in E. by destruct Hr; simplify_eq.
Qed.

Lemma drop_maps (k : Z * Z) (f : Z) (A : avm) :
  maps (drop_entry k f A) = delete k (maps A).
Proof.
  unfold drop_entry, drop_page, set_entry, put_entry. cbn [maps present].
  change (present 0) with false. by case_decide.
Qed.

Lemma drop_own (k : Z * Z) (f : Z) (A : avm) (x : Z) :
  own (drop_entry k f A) !! x =
  if decide (x = f /\ refs (maps A) f = 1%nat) then Some OFree else own A !! x.
Proof.
  unfold drop_entry, drop_page, set_entry. cbn [own].
  destruct (decide (refs (maps A) f = 1%nat)) as [E|E]; cbn.
  - destruct (decide (f = x)) as [<-|Hne].
    + by rewrite lookup_insert_eq, decide_True.
    + rewrite !lookup_insert_ne, decide_False by naive_solver. done.
  - rewrite decide_False by naive_solver. done.
Qed.

Lemma drop_shrink (p v v0 v1 f : Z) (A : avm) :
  own A !! f = Some OUser -> v0 <= v < v1 -> shrink p v0 v1 A (drop_entry (p, v) f A).
Proof.
  intros Hf Hv. split.
  - intros x. rewrite drop_own. case_decide as Hd; [|by left]. destruct Hd as [-> _]. by right.
  - unfold drop_entry, drop_page. by case_decide.
  - intros q w. rewrite drop_maps. destruct (decide ((p, v) = (q, w))) as [E|E].
    + simplify_eq. right. by rewrite lookup_delete_eq.
    + left. by rewrite lookup_delete_ne.
Qed.

Lemma page_index_inj (f g : Z) : page_ok f -> page_ok g -> f / 4096 = g / 4096 -> f = g.
Proof. intros (Hf & _) (Hg & _). zlia. Qed.

Lemma cow_ext (rc rc' : Z -> Z) (A : avm) :
  cow rc A -> (forall j, rc' j = rc j) -> cow rc' A.
Proof. intros [CU CR CB CS CI] H. split; try done. intros f Hf. rewrite H. auto. Qed.

Lemma cow_drop (rc : Z -> Z) (A : avm) (p v e : Z) :
  cow rc A -> maps A !! (p, v) = Some e -> v < UVPN -> page_ok (PTE_ADDR e) ->
  cow (rc_add (PTE_ADDR e) (-1) rc) (drop_entry (p, v) (PTE_ADDR e) A).
Proof.
  intros [CU CR CB CS CI] Hk Hv Hp. set (f := PTE_ADDR e) in *.
  assert (HR : forall g, refs (maps A) g =
            ((if decide (g = f) then 1 else 0) + refs (delete (p, v) (maps A)) g)%nat).
  { intros g. rewrite (refs_delete _ _ _ g Hk). f_equal. apply decide_ext.
    unfold refers; cbn. fold f. naive_solver. }
  assert (Hsub : forall q w e', delete (p, v) (maps A) !! (q, w) = Some e' ->
                   maps A !! (q, w) = Some e').
  { intros q w e' E. by apply lookup_delete_Some in E as [_ E]. }
  split; rewrite ?drop_maps.
  - intros g. rewrite drop_own. specialize (HR g) as HRg. specialize (CU g).
    destruct (decide (g = f)) as [->|Hne].
    + destruct (decide (refs (maps A) f = 1%nat)) as [E|E].
      * rewrite decide_True by done. split; [done|lia].
      * rewrite decide_False by naive_solver. rewrite CU. lia.
    + rewrite decide_False by naive_solver. rewrite CU. lia.
  - intros g Hg. unfold rc_add. specialize (HR g). rewrite CR by done.
    destruct (decide (g = f)) as [->|Hne]; [rewrite Z.eqb_refl; lia|].
    rewrite (proj2 (Z.eqb_neq _ _)); [lia|]. intros E. apply Hne.
    by apply page_index_inj.
  - intros g. specialize (HR g). specialize (CB g). lia.
  - intros q w e' E Hw Hb. apply Hsub in E as E'. pose proof (refs_pos _ _ _ _ E Hw).
    specialize (HR (PTE_ADDR e')). rewrite (CS q w e' E' Hw Hb) in HR. lia.
  - intros q w w' e1 e2 E1 E2. eauto.
Qed.

(** ** Changing the flags of an entry *)

Lemma cow_flags (rc : Z -> Z) (A : avm) (p v e e' : Z) :
  cow rc A -> maps A !! (p, v) = Some e -> v < UVPN -> present e' = true ->
  PTE_ADDR e' = PTE_ADDR e ->
  (Z.testbit e' 1 = true -> refs (maps A) (PTE_ADDR e) = 1%nat) ->
  cow rc (set_entry (p, v) e' A).
Proof.
  intros [CU CR CB CS CI] Hk Hv Hpr He Hw. unfold set_entry, put_entry. rewrite Hpr.
  assert (HR : forall f, refs (<[(p, v) := e']> (maps A)) f = refs (maps A) f).
  { intros f. by eapply refs_replace. }
  assert (HF : forall q w e1, <[(p, v) := e']> (maps A) !! (q, w) = Some e1 ->
            exists e0, maps A !! (q, w) = Some e0 /\ PTE_ADDR e0 = PTE_ADDR e1 /\
              (e1 = e0 \/ (e1 = e' /\ e0 = e))).
  { intros q w e1. destruct (decide ((p, v) = (q, w))) as [<-|Hne].
    - rewrite lookup_insert_eq. intros [= <-]. eauto 10.
    - rewrite lookup_insert_ne by done. eauto. }
  split; cbn [maps own].
  - intros f. by rewrite HR.
  - intros f Hf. rewrite HR. auto.
  - intros f. rewrite HR. auto.
  - intros q w e1 E1 Hw1 Hb. rewrite HR. apply HF in E1 as (e0 & E0 & EA & [->|[-> ->]]).
    + by eapply CS.
    + rewrite <- EA. by apply Hw.
  - intros q w w' e1 e2 E1 E2 Hw1 Hw2 EA.
    apply HF in E1 as (? & E1 & F1 & _), E2 as (? & E2 & F2 & _).
    eapply CI; eauto. congruence.
Qed.

Lemma vminv_flags (s : vmst) (A : avm) (p va t e e' : Z) :
  vminv s A -> 0 <= va < 2147483648 -> tab A !! (p, PDX va) = Some t ->
  maps A !! (p, vpn va) = Some e -> 0 <= e' < 4294967296 -> present e' = true ->
  PTE_ADDR e' = PTE_ADDR e ->
  (Z.testbit e' 1 = true -> refs (maps A) (PTE_ADDR e) = 1%nat) ->
  vminv (set_mem (store32 (mem s) (t + 4 * PTX va) e') s) (set_entry (p, vpn va) e' A).
Proof.
  intros [R L C] Hva Ht Hk Hr Hpr He Hw. split; [by apply rep_set_entry; try lia|done|].
  eapply cow_flags; eauto. unfold vpn. zlia.
Qed.
End Cow.
