(* ===== verification/Dealloc.v ===== *)
(** * Dealloc: giving user memory back ([deallocuvm], [freevm])

    [deallocuvm] unmaps exactly the pages of its range and frees a page
    exactly when its last reference goes; [freevm] returns every page of an
    address space. *)
From stdpp Require Import base gmap list numbers strings.
From Stdlib Require Import ZArith Lia ZifyBool.
From S2P Require Import Prelude Machine Cstring Kalloc Vm Frames Tables Cow.

Section Dealloc.
Context `{KI : KernelImage} `{KIO : !KernelImageOk}.

(** [deallocuvm] skips 1024 pages from where it finds no page table: it
    reaches every mapped page of [v0, v1) when one of these holds. *)
Definition dealloc_ok (A : avm) (p v0 v1 : Z) : Prop :=
  v0 mod 1024 = 0 \/ is_Some (tab A !! (p, v0 / 1024)) \/
  (forall v, v0 <= v < v1 -> maps A !! (p, v) = None).

Lemma entry_nonzero (t va : Z) : page_ok t -> (pte_ptr t va =? 0) = false.
Proof. intros Ht. apply Z.eqb_neq. by apply pte_ptr_facts. Qed.

Lemma user_entry_loaded (s : vmst) (A : avm) (p va t : Z) :
  rep s A -> 0 <= va < 4294967296 -> tab A !! (p, PDX va) = Some t ->
  (Z.land (load32 (mem s) (t + 4 * PTX va)) PTE_P =? 0) =
    match maps A !! (p, vpn va) with Some _ => false | None => true end /\
  (forall e, maps A !! (p, vpn va) = Some e -> load32 (mem s) (t + 4 * PTX va) = e).
Proof.
  intros R Hva Ht. pose proof (entry_rep s A p va t R Hva Ht) as Hs.
  destruct (maps A !! (p, vpn va)) as [e|] eqn:E.
  - cbn in Hs. rewrite Hs. split; [|naive_solver].
    apply (tb_maps _ _ _ (rp_tbl _ _ R)) in E as (_ & _ & Hpr).
    by rewrite present_land, Hpr.
  - split; [|done]. by apply slot_absent.
Qed.

(** One reference dropped and its entry cleared. *)
Lemma unmap_spec (s : vmst) (A : avm) (p va t e : Z) :
  vminv s A -> 0 <= va < 2147483648 -> tab A !! (p, PDX va) = Some t ->
  maps A !! (p, vpn va) = Some e ->
  wp (rc_decr_free (PTE_ADDR e) ;;; kstore (pte_ptr t va) 0) (fun _ s' =>
    vminv s' (drop_entry (p, vpn va) (PTE_ADDR e) A) /\ vm_only s s' /\
    data_same (drop_entry (p, vpn va) (PTE_ADDR e) A) s s') s.
Proof.
  intros V Hva Ht He. pose proof V as [R Hl C].
  assert (Hu : vpn va < UVPN) by (unfold vpn; zlia).
  destruct (user_page s A p (vpn va) e V He Hu) as [Ho Hp].
  apply wp_bind. eapply wp_mono.
  { apply (rc_decr_free_spec s A); try done; [by apply (cw_refs _ _ C)|].
    split; [by eapply refs_pos|apply (cw_bound _ _ C)]. }
  intros _ s1 (R1 & L1 & P1 & RC1 & M1 & M1').
  assert (Ht1 : tab (drop_page (PTE_ADDR e) A) !! (p, PDX va) = Some t).
  { unfold drop_page. by case_decide. }
  pose proof (tab_page _ _ _ _ _ _ (rp_tbl _ _ R1) Ht1) as Htp.
  eapply wp_from_Ok; [by apply kstore_pte|].
  split; [split|split].
  - apply (rep_set_entry s1 _ p va t 0); try done. lia.
  - done.
  - eapply cow_ext; [by apply cow_drop|]. intros j. by rewrite <- RC1.
  - eapply vm_only_trans; [exact P1|]. by destruct s1.
  - intros g r Hg Hr x Hx. rewrite drop_own in Hg. case_decide as Hd; [by destruct Hr; simplify_eq|].
    assert (Hg1 : own (drop_page (PTE_ADDR e) A) !! g = Some r).
    { pose proof (drop_own (p, vpn va) (PTE_ADDR e) A g) as E.
      rewrite decide_False in E by done. cbn in E. by rewrite <- Hg. }
    rewrite (set_entry_data s1 _ p va t 0 R1 Ht1 g r Hg1 Hr x Hx).
    destruct (decide (refs (maps A) (PTE_ADDR e) = 1%nat)) as [E1|E1].
    + apply M1. apply (pages_disjoint g (PTE_ADDR e) x); [|apply Hp|naive_solver|done].
      by apply (tb_pages _ _ _ (rp_tbl _ _ R) _ _ Hg).
    + by rewrite M1' by done.
Qed.

Lemma dealloc_body_spec (s : vmst) (A : avm) (p oldsz v0 j v1 : Z) :
  vminv s A -> own A !! p = Some ODir -> 0 <= v0 <= j -> j < v1 -> v1 <= UVPN ->
  v1 = (oldsz + 4095) / 4096 -> oldsz <= KERNBASE -> dealloc_ok A p j v1 ->
  wp (deallocuvm_body (P2V p) oldsz (4096 * j)) (fun r s' => exists A' j',
    r = inl (4096 * j') /\ j < j' <= j + 1024 /\ vminv s' A' /\ vm_only s s' /\
    data_same A' s s' /\ shrink p v0 v1 A A' /\ dealloc_ok A' p j' v1 /\
    (forall v, j <= v < j' -> v < v1 -> maps A' !! (p, v) = None)) s.
Proof.
  intros V Hp Hj Hj1 Hv1 Ev1 Hsz Hok. pose proof V as [R Hl C].
  assert (Hva : 0 <= 4096 * j < 4294967296) by zlia.
  assert (Hvj : vpn (4096 * j) = j) by (unfold vpn; zlia).
  destruct (vpn_split _ Hva) as (_ & Hx & _). rewrite Hvj in Hx.
  unfold deallocuvm_body. rewrite (proj2 (Z.ltb_lt (4096 * j) oldsz)) by zlia. cbn [negb].
  apply wp_bind. destruct (tab A !! (p, PDX (4096 * j))) as [t|] eqn:Ht.
  - pose proof (tab_page _ _ _ _ _ _ (rp_tbl _ _ R) Ht) as Htp.
    eapply wp_from_Ok; [by eapply walk_found|]. rewrite entry_nonzero by done.
    apply wp_bind. eapply wp_from_Ok; [by apply kload_pte|].
    destruct (user_entry_loaded s A p _ t R Hva Ht) as [EP EV]. rewrite Hvj in EP, EV.
    rewrite EP. replace (u32 (4096 * j + PGSIZE)) with (4096 * (j + 1)) by (rewrite u32_id; zlia).
    assert (Hnext : forall A', shrink p v0 v1 A A' -> dealloc_ok A' p (j + 1) v1).
    { intros A' S. unfold dealloc_ok. rewrite (sh_tab _ _ _ _ _ S).
      destruct (decide ((j + 1) mod 1024 = 0)) as [|Hm]; [by left|]. right; left.
      replace ((j + 1) / 1024) with (PDX (4096 * j)) by zlia. eauto. }
    destruct (maps A !! (p, j)) as [e|] eqn:He; cbn [negb]; apply wp_bind.
    + rewrite (EV e) by done. assert (Hu : j < UVPN) by lia.
      destruct (user_page s A p j e V He Hu) as [Ho Hfp].
      pose proof (page_ok_bounds _ Hfp). rewrite (proj2 (Z.eqb_neq (PTE_ADDR e) 0)) by zlia.
      eapply wp_mono; [apply (unmap_spec s A p); try done; [zlia|by rewrite Hvj]|].
      rewrite Hvj. intros _ s1 (V1 & P1 & D1). apply wp_ret.
      assert (S1 : shrink p v0 v1 A (drop_entry (p, j) (PTE_ADDR e) A)).
      { apply drop_shrink; [done|lia]. }
      exists (drop_entry (p, j) (PTE_ADDR e) A), (j + 1). split_and!; eauto; [lia..|].
      intros v Hv _. rewrite drop_maps. replace v with j by lia. apply lookup_delete_eq.
    + apply wp_ret, wp_ret. exists A, (j + 1).
      split_and!; eauto using vm_only_refl, data_same_refl, shrink_refl; [lia..|].
      intros v Hv _. by replace v with j by lia.
  - eapply wp_from_Ok; [by eapply walk_absent|]. rewrite Z.eqb_refl. apply wp_ret.
    exists A, (j + 1024). split.
    { f_equal. zlia. }
    assert (Hn : forall v, j <= v < j + 1024 -> v < v1 -> maps A !! (p, v) = None).
    { intros v Hv Hv2. destruct Hok as [Hm|[[t' E]|Hn]]; [|congruence|apply Hn; lia].
      destruct (maps A !! (p, v)) as [e|] eqn:E; [|done].
      apply (tb_maps _ _ _ (rp_tbl _ _ R)) in E as (_ & [t' E'] & _).
      replace (v / 1024) with (PDX (4096 * j)) in E' by zlia. congruence. }
    split_and!; eauto using vm_only_refl, data_same_refl, shrink_refl; [lia..|].
    destruct Hok as [Hm|[[t' E]|Hno]]; [left; zlia|congruence|right; right].
    intros v Hv. apply Hno. lia.
Qed.

(** [deallocuvm] leaves nothing mapped in the range and drops exactly the
    references of the range. *)
Lemma deallocuvm_spec (s : vmst) (A : avm) (p oldsz newsz : Z) :
  vminv s A -> own A !! p = Some ODir -> 0 <= newsz < oldsz -> oldsz <= KERNBASE ->
  dealloc_ok A p ((newsz + 4095) / 4096) ((oldsz + 4095) / 4096) ->
  wp (deallocuvm (P2V p) oldsz newsz) (fun r s' => exists A',
    r = newsz /\ vminv s' A' /\ vm_only s s' /\ data_same A' s s' /\
    shrink p ((newsz + 4095) / 4096) ((oldsz + 4095) / 4096) A A' /\
    (forall v, (newsz + 4095) / 4096 <= v < (oldsz + 4095) / 4096 ->
       maps A' !! (p, v) = None)) s.
Proof.
  intros V Hp Hn Ho Hok. unfold deallocuvm. rewrite (proj2 (Z.leb_gt oldsz newsz)) by lia.
  rewrite PGROUNDUP_eq by zlia.
  replace (newsz + 4095 - (newsz + 4095) mod 4096) with (4096 * ((newsz + 4095) / 4096)) by zlia.
  remember ((newsz + 4095) / 4096) as v0 eqn:Ev0.
  remember ((oldsz + 4095) / 4096) as v1 eqn:Ev1.
  apply wp_bind.
  eapply (wp_loop (fun a s' => exists A' j, a = 4096 * j /\ v0 <= j /\ vminv s' A' /\
      vm_only s s' /\ data_same A' s s' /\ shrink p v0 v1 A A' /\ dealloc_ok A' p j v1 /\
      (forall v, v0 <= v < j -> v < v1 -> maps A' !! (p, v) = None))
    (fun a => Z.to_nat (v1 - a / 4096))).
  - intros a s1 (A1 & j & -> & Hj & V1 & P1 & D1 & S1 & K1 & N1).
    destruct (decide (j < v1)) as [Hlt|Hge].
    + eapply wp_mono.
      { apply (dealloc_body_spec s1 A1 p oldsz v0 j v1); try done; try zlia.
        destruct (sh_own _ _ _ _ _ S1 p) as [->|[E _]]; congruence. }
      intros r s2 (A2 & j' & -> & Hj' & V2 & P2 & D2 & S2 & K2 & N2). split; [|zlia].
      exists A2, j'. split_and!; eauto using vm_only_trans, shrink_trans; [lia| |].
      * by eapply shrink_data.
      * intros v Hv Hv1. destruct (decide (j <= v)); [apply N2; lia|].
        destruct (sh_maps _ _ _ _ _ S2 p v) as [->|(_ & _ & E)]; [apply N1; lia|done].
    + unfold deallocuvm_body. rewrite (proj2 (Z.ltb_ge (4096 * j) oldsz)) by zlia.
      apply wp_ret, wp_ret. exists A1. split_and!; eauto. intros v Hv. apply N1; lia.
  - exists A, v0. split_and!; eauto using vm_only_refl, data_same_refl, shrink_refl; lia.
  - zlia.
Qed.

(** ** [freevm] *)

(** The directory [p] and its tables, no longer read as page tables. *)
Definition retire_own (p x : Z) (r : owner) : owner :=
  if decide (x = p) then OKern
  else match r with OTab q _ => if decide (q = p) then OKern else r | _ => r end.

Definition retire (p : Z) (A : avm) : avm :=
  mkavm (free A) (map_imap (fun x r => Some (retire_own p x r)) (own A))
        (filter (fun kv => kv.1.1 <> p) (tab A)) (filter (fun kv => kv.1.1 <> p) (maps A)).

Lemma retire_lookup (p x : Z) (A : avm) :
  own (retire p A) !! x = retire_own p x <$> own A !! x.
Proof. cbn. rewrite map_lookup_imap. by destruct (own A !! x). Qed.

Lemma retire_filter {V} (mp : gmap (Z * Z) V) (p q i : Z) :
  filter (fun kv : (Z * Z) * V => kv.1.1 <> p) mp !! (q, i) =
  if decide (q = p) then None else mp !! (q, i).
Proof.
  destruct (decide (q = p)) as [->|Hne].
  - apply map_lookup_filter_None_2. right. intros y _ H. by apply H.
  - rewrite map_lookup_filter. destruct (mp !! (q, i)) as [y|]; [|done]. cbn.
    by rewrite option_guard_True.
Qed.

Lemma retire_role (A : avm) (p x : Z) (r : owner) :
  r <> OKern ->
  own (retire p A) !! x = Some r <->
  x <> p /\ own A !! x = Some r /\ (forall i, r <> OTab p i).
Proof.
  intros Hr. rewrite retire_lookup. unfold retire_own. destruct (own A !! x) as [r'|]; cbn.
  - destruct (decide (x = p)) as [->|Hx]; [split; [congruence|by intros [? _]]|].
    destruct r' as [| | |q k|]; cbn.
    4: destruct (decide (q = p)) as [->|Hq].
    all: split; [intros [= <-]; split_and!; done || (intros; congruence)|].
    all: intros (_ & [= <-] & Hi); try done. by destruct (Hi k).
  - split; [done|]. by intros (_ & ? & _).
Qed.

Lemma rep_retire (s : vmst) (A : avm) (p : Z) :
  rep s A -> own A !! p = Some ODir -> rep s (retire p A).
Proof.
  intros [Hk T] Hp. split; [done|].
  split; try apply T.
  - intros f r. rewrite retire_lookup. destruct (own A !! f) eqn:E; [|done].
    intros _. by eapply tb_pages.
  - intros f. cbn [free retire]. rewrite (tb_free_own _ _ _ T), retire_role by done.
    split; [|by intros (_ & ? & _)]. intros Hf. split_and!; [congruence|done..].
  - intros q i t. cbn [tab retire]. rewrite retire_filter, retire_role by done.
    rewrite <- (tb_tab_own _ _ _ T). case_decide as Hq.
    + split; [done|]. intros (_ & _ & Hi). subst. by destruct (Hi i).
    + split; [|by intros (_ & ? & _)]. intros Ht. split_and!; [|done|congruence].
      intros ->. apply (tb_tab_own _ _ _ T) in Ht. congruence.
  - intros q i t. cbn [tab retire]. rewrite retire_filter, retire_role by done.
    case_decide; [done|]. intros Ht. by apply (tb_tab_dir _ _ _ T) in Ht as [? ?].
  - intros q i. rewrite retire_role by done. intros (Hq & Hd & _) Hi. cbn [tab retire].
    rewrite retire_filter, decide_False by done. by apply (tb_pde _ _ _ T).
  - intros q i t j. cbn [tab maps retire]. rewrite !retire_filter. case_decide; [done|].
    intros Ht Hj. by eapply (tb_pte _ _ _ T).
  - intros q v e. cbn [tab maps retire]. rewrite !retire_filter. case_decide; [done|].
    intros E. by eapply (tb_maps _ _ _ T).
Qed.

(** No user page of [p] is mapped. *)
Definition no_user (p : Z) (A : avm) : Prop :=
  forall v, v < UVPN -> maps A !! (p, v) = None.

Lemma cow_retire (rc : Z -> Z) (A : avm) (p : Z) :
  cow rc A -> own A !! p = Some ODir -> no_user p A -> cow rc (retire p A).
Proof.
  intros C Hp Hn. eapply cow_same; [done|..].
  - intros f. rewrite retire_role by done.
    split; [by intros (_ & ? & _)|]. intros Hf. split_and!; [congruence|done..].
  - intros q v Hv. cbn. rewrite retire_filter. case_decide; [subst; by rewrite Hn|done].
Qed.

Lemma cow_give (rc : Z -> Z) (A : avm) (f : Z) :
  cow rc A -> own A !! f = Some OKern -> cow rc (give_free f A).
Proof.
  intros C Hf. eapply cow_same; [done| |done]. intros g. cbn [own give_free].
  destruct (decide (f = g)) as [<-|Hne].
  - by rewrite lookup_insert_eq, Hf.
  - by rewrite lookup_insert_ne.
Qed.

(** The pages after the first [i] tables of [p] have been freed. *)
Definition partly_freed (p i x : Z) (A : avm) : option owner :=
  match own A !! x with
  | Some (OTab q k) => if decide (q = p) then Some (if decide (k < i) then OFree else OKern)
                       else Some (OTab q k)
  | r => if decide (x = p) then Some OKern else r
  end.

Record freeing (p i : Z) (A A' : avm) : Prop := mkfreeing {
  fg_own : forall x, own A' !! x = partly_freed p i x A;
  fg_tab : tab A' = tab (retire p A);
  fg_maps : maps A' = maps (retire p A);
}.

Lemma freeing_0 (p : Z) (s : vmst) (A : avm) :
  rep s A -> own A !! p = Some ODir -> freeing p 0 A (retire p A).
Proof.
  intros R Hp. split; [|done..]. intros x. rewrite retire_lookup. unfold partly_freed, retire_own.
  destruct (decide (x = p)) as [->|Hx]; [by rewrite Hp|].
  destruct (own A !! x) as [[| | |q k|]|] eqn:E; cbn; try done. case_decide; [|done].
  apply (tb_tab_own _ _ _ (rp_tbl _ _ R)), (tb_tab_dir _ _ _ (rp_tbl _ _ R)) in E as [_ ?].
  by rewrite decide_False by lia.
Qed.

Lemma freeing_skip (p i : Z) (s : vmst) (A A' : avm) :
  rep s A -> tab A !! (p, i) = None -> freeing p i A A' -> freeing p (i + 1) A A'.
Proof.
  intros R Ht [FO FT FM]. split; [|done..]. intros x. rewrite FO. unfold partly_freed.
  destruct (own A !! x) as [[| | |q k|]|] eqn:E; try done.
  destruct (decide (q = p)) as [->|]; [|done]. do 2 f_equal.
  apply (tb_tab_own _ _ _ (rp_tbl _ _ R)) in E.
  assert (k <> i) by congruence. repeat case_decide; done || lia.
Qed.

Lemma freeing_step (p i t : Z) (s : vmst) (A A' : avm) :
  rep s A -> tab A !! (p, i) = Some t -> freeing p i A A' ->
  own A' !! t = Some OKern /\ freeing p (i + 1) A (give_free t A').
Proof.
  intros R Ht [FO FT FM]. pose proof (rp_tbl _ _ R) as T.
  pose proof Ht as Ho. apply (tb_tab_own _ _ _ T) in Ho. split.
  - rewrite FO. unfold partly_freed. rewrite Ho, decide_True, decide_False by (done || lia). done.
  - split; [|done..]. intros x. cbn [own give_free]. destruct (decide (t = x)) as [<-|Hne].
    + rewrite lookup_insert_eq. unfold partly_freed. rewrite Ho.
      rewrite decide_True, decide_True by (done || lia). done.
    + rewrite lookup_insert_ne by done. rewrite FO. unfold partly_freed.
      destruct (own A !! x) as [[| | |q k|]|] eqn:E; try done.
      destruct (decide (q = p)) as [->|]; [|done]. do 2 f_equal.
      apply (tb_tab_own _ _ _ T) in E. assert (k <> i) by congruence.
      repeat case_decide; done || lia.
Qed.

(** What [freevm] does: every page of the address space is free, the user
    pages nobody else maps included. *)
Record released (p : Z) (A A' : avm) : Prop := mkreleased {
  rl_dir : own A' !! p = Some OFree;
  rl_tab : forall x i, own A !! x = Some (OTab p i) -> own A' !! x = Some OFree;
  rl_own : forall x, x <> p -> (forall i, own A !! x <> Some (OTab p i)) ->
             own A' !! x = own A !! x \/ (own A !! x = Some OUser /\ own A' !! x = Some OFree);
  rl_tabs : forall q i, tab A' !! (q, i) = if decide (q = p) then None else tab A !! (q, i);
  rl_maps : forall q v, maps A' !! (q, v) = if decide (q = p) then None else maps A !! (q, v);
}.

Lemma phys_only_lock (s s' : vmst) : phys_only s s' -> vm_lock s' = vm_lock s.
Proof. by intros ->. Qed.

(** State of [freevm]'s loop: [i] directory slots have been visited. *)
Record freevm_inv (p : Z) (A : avm) (s : vmst) (i : Z) (s' : vmst) : Prop := mkfvi {
  fv_i : 0 <= i <= 1024;
  fv_st : exists A', vminv s' A' /\ freeing p i A A';
  fv_phys : phys_only s s';
  fv_dir : same_range (mem s) (mem s') p PGSIZE;
  fv_data : data_same A s s';
}.

Lemma freevm_body_spec (p : Z) (A : avm) (s s1 : vmst) (i : Z) :
  rep s A -> own A !! p = Some ODir -> freevm_inv p A s i s1 -> i < 1024 ->
  wp (freevm_body (P2V p) i) (fun r s2 => r = inl (i + 1) /\ freevm_inv p A s (i + 1) s2) s1.
Proof.
  intros R Hp [Hi (A1 & V1 & F1) P1 HD DS] Hlt. pose proof (rp_tbl _ _ R) as T.
  pose proof (tb_pages _ _ _ T _ _ Hp) as Hpp. pose proof (page_ok_bounds _ Hpp) as Hpb.
  assert (Hld : kload (u32 (P2V p + 4 * i)) s1 = Ok (load32 (mem s) (p + 4 * i)) s1).
  { rewrite P2V_page by done. unfold kload. replace (kvalid _ 4) with true by (unfold kvalid; zlia).
    replace (V2P _) with (p + 4 * i) by zlia. f_equal. apply load32_same.
    intros x Hx. apply HD. zlia. }
  unfold freevm_body. rewrite (proj2 (Z.ltb_lt i NPDENTRIES)) by done. cbn [negb].
  apply wp_bind. eapply wp_from_Ok; [exact Hld|].
  pose proof (tb_pde _ _ _ T p i Hp ltac:(lia)) as Hpde.
  destruct (tab A !! (p, i)) as [t|] eqn:Ht.
  - cbn in Hpde. pose proof (tab_page _ _ _ _ _ _ T Ht) as Htp.
    destruct (pde_decode t Htp) as [E1 E2]. rewrite Hpde, E1, E2. cbn [when].
    destruct (freeing_step p i t s A A1 R Ht F1) as [Hk F2].
    destruct (rep_kfree s1 A1 t (vi_rep _ _ V1) Hk) as (s2 & Ek & R2 & P2 & M2).
    apply wp_bind. eapply wp_from_Ok; [exact Ek|]. apply wp_ret. split; [done|].
    assert (HM : forall g, page_ok g -> g <> t -> same_range (mem s1) (mem s2) g PGSIZE).
    { intros g Hg Hne x Hx. apply M2. by apply (pages_disjoint g t x); [apply Hg|apply Htp|..]. }
    apply (tb_tab_own _ _ _ T) in Ht.
    split; [lia| |by eapply phys_only_trans|..].
    + exists (give_free t A1). split; [|done]. split; [done|..].
      * rewrite (phys_only_lock _ _ P2). apply V1.
      * rewrite (phys_only_rc _ _ P2). apply cow_give; [apply V1|done].
    + intros x Hx. rewrite (HM p); [by apply HD|done|congruence|done].
    + intros g r Hg Hr x Hx. rewrite (HM g); [by apply (DS g r)|by eapply tb_pages| |done].
      intros ->. rewrite Ht in Hg. by destruct Hr; simplify_eq.
  - rewrite (slot_absent _ Hpde). cbn [negb when]. apply wp_bind, wp_ret, wp_ret.
    split; [done|]. split; [lia| |done..]. exists A1. split; [done|]. by eapply freeing_skip.
Qed.

Lemma freevm_loop_spec (p : Z) (A : avm) (s : vmst) :
  vminv s A -> own A !! p = Some ODir -> no_user p A ->
  wp (loop (S (Z.to_nat NPDENTRIES)) (freevm_body (P2V p)) 0)
     (fun _ s' => freevm_inv p A s 1024 s') s.
Proof.
  intros [R L C] Hp Hn.
  eapply (wp_loop (freevm_inv p A s) (fun i => Z.to_nat (1024 - i))).
  - intros i s1 I. destruct (decide (i < 1024)) as [Hlt|Hge].
    + eapply wp_mono; [by eapply freevm_body_spec|]. intros r s2 [-> I2].
      split; [done|]. pose proof (fv_i _ _ _ _ _ I). lia.
    + pose proof (fv_i _ _ _ _ _ I). replace i with 1024 in * by lia.
      by apply wp_ret.
  - split; [lia| |apply phys_only_refl|done|apply data_same_refl].
    exists (retire p A). split; [|by eapply freeing_0]. split; [by apply rep_retire|done|].
    by apply cow_retire.
  - unfold NPDENTRIES. lia.
Qed.

Lemma freeing_released (p : Z) (s : vmst) (A A' : avm) :
  rep s A -> own A !! p = Some ODir -> freeing p 1024 A A' ->
  own A' !! p = Some OKern /\ released p A (give_free p A').
Proof.
  intros R Hp [FO FT FM]. pose proof (rp_tbl _ _ R) as T. split.
  { rewrite FO. unfold partly_freed. by rewrite Hp, decide_True. }
  split; cbn [own tab maps give_free].
  - apply lookup_insert_eq.
  - intros x i Hx. rewrite lookup_insert_ne by congruence. rewrite FO. unfold partly_freed.
    rewrite Hx, decide_True by done. apply (tb_tab_own _ _ _ T), (tb_tab_dir _ _ _ T) in Hx as [_ ?].
    by rewrite decide_True by lia.
  - intros x Hx Ht. left. rewrite lookup_insert_ne by done. rewrite FO. unfold partly_freed.
    destruct (own A !! x) as [[| | |q k|]|] eqn:E; rewrite ?(decide_False (P := x = p)) by done; try done.
    rewrite decide_False; [done|]. intros ->. by destruct (Ht k).
  - intros q i. rewrite FT. apply retire_filter.
  - intros q v. rewrite FM. apply retire_filter.
Qed.

Lemma shrink_released (p v0 v1 : Z) (A A1 A' : avm) :
  shrink p v0 v1 A A1 -> released p A1 A' -> released p A A'.
Proof.
  intros [SO ST SM] [RD RT RO RTs RM]. split; [done|..].
  - intros x i Hx. apply (RT x i). destruct (SO x) as [->|[E _]]; congruence.
  - intros x Hx Ht. assert (Ht1 : forall i, own A1 !! x <> Some (OTab p i)).
    { intros i. destruct (SO x) as [->|[_ E]]; [done|congruence]. }
    destruct (SO x) as [E|[E1 E2]]; destruct (RO x Hx Ht1) as [F|[F1 F2]]; rewrite <- ?E in *.
    + by left.
    + by right.
    + right. by rewrite F.
    + congruence.
  - intros q i. by rewrite RTs, ST.
  - intros q v. rewrite RM. case_decide; [done|]. by destruct (SM q v) as [?|(? & _)].
Qed.

Lemma released_data (p : Z) (A A' : avm) (g : Z) (r : owner) :
  released p A A' -> own A' !! g = Some r -> data_role r -> g <> p /\ own A !! g = Some r.
Proof.
  intros [RD RT RO _ _] Hg Hr. assert (g <> p).
  { intros ->. rewrite RD in Hg. by destruct Hr; simplify_eq. }
  split; [done|]. destruct (RO g) as [<-|[_ E]]; [done| |done|].
  - intros i Hi. rewrite (RT g i Hi) in Hg. by destruct Hr; simplify_eq.
  - rewrite E in Hg. by destruct Hr; simplify_eq.
Qed.

(** [freevm] returns every page of the address space to the allocator. *)
Lemma freevm_spec (s : vmst) (A : avm) (p : Z) :
  vminv s A -> own A !! p = Some ODir ->
  wp (freevm (P2V p)) (fun _ s' => exists A',
    vminv s' A' /\ vm_only s s' /\ data_same A' s s' /\ released p A A') s.
Proof.
  intros V Hp. pose proof (tb_pages _ _ _ (rp_tbl _ _ (vi_rep _ _ V)) _ _ Hp) as Hpp.
  unfold freevm. rewrite (proj2 (Z.eqb_neq _ _) (P2V_page_nonzero p Hpp)).
  apply wp_bind. eapply wp_mono.
  { apply (deallocuvm_spec s A p KERNBASE 0); [done|done|by compute|by compute|]. by left. }
  intros _ s1 (A1 & _ & V1 & P1 & D1 & S1 & N1).
  change ((0 + 4095) / 4096) with 0 in *. change ((KERNBASE + 4095) / 4096) with UVPN in *.
  assert (Hp1 : own A1 !! p = Some ODir).
  { destruct (sh_own _ _ _ _ _ S1 p) as [->|[E _]]; congruence. }
  assert (Hn1 : no_user p A1).
  { intros v Hv. destruct (decide (0 <= v)); [by apply N1|].
    destruct (maps A1 !! (p, v)) eqn:E; [|done].
    apply (tb_maps _ _ _ (rp_tbl _ _ (vi_rep _ _ V1))) in E as (? & _). lia. }
  apply wp_bind. eapply wp_mono; [by apply freevm_loop_spec|].
  intros _ s2 [_ (A2 & V2 & F2) P2 HD2 DS2].
  destruct (freeing_released p s1 A1 A2 (vi_rep _ _ V1) Hp1 F2) as [Hk2 RL].
  destruct (rep_kfree s2 A2 p (vi_rep _ _ V2) Hk2) as (s3 & Ek & R3 & P3 & M3).
  eapply wp_from_Ok; [exact Ek|]. exists (give_free p A2).
  split; [split|split_and!]; [done|..].
  - rewrite (phys_only_lock _ _ P3). apply V2.
  - rewrite (phys_only_rc _ _ P3). apply cow_give; [apply V2|done].
  - eapply vm_only_trans; [exact P1|]. apply phys_vm_only. by eapply phys_only_trans.
  - intros g r Hg Hr x Hx. destruct (released_data _ _ _ _ _ RL Hg Hr) as [Hne Hg1].
    pose proof (tb_pages _ _ _ (rp_tbl _ _ (vi_rep _ _ V1)) _ _ Hg1) as Hgp.
    rewrite M3 by (by apply (pages_disjoint g p x); [apply Hgp|apply Hpp|..]).
    rewrite (DS2 g r Hg1 Hr x Hx). by apply (D1 g r).
  - by eapply shrink_released.
Qed.
End Dealloc.
