(* ===== verification/Kvm.v ===== *)
(** * Kvm: building a page table with the kernel part ([setupkvm])

    [setupkvm] returns a directory that maps exactly the ranges of [kmap],
    or, when memory runs out on the way, gives everything back. *)
From stdpp Require Import base gmap list numbers strings.
From Stdlib Require Import ZArith Lia ZifyBool.
From S2P Require Import Prelude Machine Cstring Kalloc Vm Frames Tables Cow Dealloc.

Section Kvm.
Context `{KI : KernelImage} `{KIO : !KernelImageOk}.

(** Number of pages of a [kmap] entry, and the entries it stands for. *)
Definition knum (k : kmap_entry) : Z := u32 (phys_end k - phys_start k) / 4096.

Fixpoint kent (ks : list kmap_entry) (v : Z) : option Z :=
  match ks with
  | [] => None
  | k :: ks =>
      if decide (vpn (virt k) <= v < vpn (virt k) + knum k)
      then Some (range_ent (phys_start k) (perm k) (v - vpn (virt k)))
      else kent ks v
  end.

Record kmap_wf (k : kmap_entry) : Prop := mkkwf {
  kw_virt : virt k mod 4096 = 0 /\ KERNBASE <= virt k;
  kw_size : u32 (phys_end k - phys_start k) = 4096 * knum k /\ 1 <= knum k;
  kw_vend : virt k + 4096 * knum k <= 4294967296;
  kw_phys : phys_start k mod 4096 = 0 /\ 0 <= phys_start k;
  kw_pend : phys_start k + 4096 * knum k <= 4294967296;
  kw_perm : 0 <= perm k < 4096;
}.

(** The first range of the list is disjoint from the later ones. *)
Fixpoint kmap_disjoint (ks : list kmap_entry) : Prop :=
  match ks with
  | [] => True
  | k :: ks => (forall v, vpn (virt k) <= v < vpn (virt k) + knum k -> kent ks v = None) /\
               kmap_disjoint ks
  end.

Lemma kmap_ok : Forall kmap_wf kmap /\ kmap_disjoint kmap.
Proof.
  pose proof kdata_aligned as Ha. pose proof kdata_low. pose proof kdata_end.
  pose proof kend_high. unfold kmap. split.
  - repeat apply List.Forall_cons; try apply List.Forall_nil; split; unfold knum;
      cbn [virt phys_start phys_end perm]; zlia.
  - cbn [kmap_disjoint kent virt phys_start phys_end perm]. unfold knum, vpn;
      cbn [virt phys_start phys_end perm].
    split_and!; try done; intros v Hv; repeat (rewrite decide_False; [|zlia]); done.
Qed.

(** [mp'] is [mp] with the ranges of [ks] mapped in [p]. *)
Definition kmapped (p : Z) (ks : list kmap_entry) (mp mp' : gmap (Z * Z) Z) : Prop :=
  forall q v, mp' !! (q, v) =
    if decide (q = p) then match kent ks v with Some e => Some e | None => mp !! (q, v) end
    else mp !! (q, v).

Lemma kmapped_cons (p : Z) (k : kmap_entry) (ks : list kmap_entry) (mp mp1 mp2 : gmap (Z * Z) Z) :
  (forall v, vpn (virt k) <= v < vpn (virt k) + knum k -> kent ks v = None) ->
  mapped p (vpn (virt k)) (knum k) (range_ent (phys_start k) (perm k)) mp mp1 ->
  kmapped p ks mp1 mp2 -> kmapped p (k :: ks) mp mp2.
Proof.
  intros Hd M1 M2 q v. rewrite M2, M1. destruct (decide (q = p)) as [->|Hq].
  - cbn [kent]. destruct (decide (vpn (virt k) <= v < vpn (virt k) + knum k)) as [Hv|Hv].
    + rewrite Hd by done. by rewrite decide_True.
    + rewrite decide_False by naive_solver. done.
  - rewrite decide_False by naive_solver. done.
Qed.

Lemma kent_range (ks : list kmap_entry) (v : Z) (e : Z) :
  Forall kmap_wf ks -> kent ks v = Some e -> UVPN <= v.
Proof.
  induction 1 as [|k ks Hk Hks IH]; cbn; [done|]. case_decide; [|done].
  intros _. destruct (kw_virt _ Hk). unfold vpn in *. zlia.
Qed.

Lemma grow_released (p : Z) (A A1 A' : avm) :
  own A !! p = Some ODir -> (forall q v, q <> p -> maps A1 !! (q, v) = maps A !! (q, v)) ->
  grow p A A1 -> released p A1 A' -> released p A A'.
Proof.
  intros Hp HM [GO GT GS] [RD RT RO RTs RM]. split; [done|..].
  - intros x i Hx. apply (RT x i). destruct (GO x) as [->|[E _]]; congruence.
  - intros x Hx Ht. destruct (GO x) as [E|(E & i & E')].
    + rewrite <- E. apply RO; [done|]. intros i. by rewrite E.
    + left. by rewrite E, (RT x i E').
  - intros q i. rewrite RTs. case_decide; [done|]. by apply GT.
  - intros q v. rewrite RM. case_decide; [done|]. by apply HM.
Qed.

Lemma grow_data_role (p : Z) (A A' : avm) (g : Z) (r : owner) :
  grow p A A' -> own A' !! g = Some r -> data_role r -> own A !! g = Some r.
Proof.
  intros G Hg Hr. destruct (gr_own _ _ _ G g) as [<-|(_ & i & E)]; [done|].
  rewrite E in Hg. by destruct Hr; simplify_eq.
Qed.

(** The loop over [kmap]. *)
Lemma setupkvm_loop_spec (p : Z) (ks : list kmap_entry) (s : vmst) (A : avm) :
  vminv s A -> own A !! p = Some ODir -> Forall kmap_wf ks -> kmap_disjoint ks ->
  (forall v, is_Some (kent ks v) -> maps A !! (p, v) = None) ->
  wp (setupkvm_loop (P2V p) ks) (fun r s' => exists A',
    vminv s' A' /\ vm_only s s' /\ data_same A' s s' /\
    ((r = P2V p /\ grow p A A' /\ kmapped p ks (maps A) (maps A')) \/
     (r = 0 /\ released p A A'))) s.
Proof.
  intros V Hp Hwf. revert s A V Hp. induction Hwf as [|k ks Hk Hks IH]; intros s A V Hp Hd Hfr.
  { apply wp_ret. exists A. split_and!; eauto using vm_only_refl, data_same_refl.
    left. split_and!; eauto using grow_refl. intros q v. cbn. by case_decide. }
  destruct Hd as [Hd1 Hd2]. cbn [setupkvm_loop]. apply wp_bind.
  destruct Hk as [[Kv1 Kv2] [Ks1 Ks2] Kve [Kp1 Kp2] Kpe Kpm]. rewrite Ks1.
  eapply wp_mono; [apply (mappages_spec s A); try done; [apply V|zlia|]|].
  { intros i Hi. apply Hfr. cbn [kent]. rewrite decide_True by lia. eauto. }
  intros r s1 (A1 & n & R1 & P1 & D1 & G1 & M1 & _ & Hr).
  assert (Hp1 : own A1 !! p = Some ODir) by (by eapply grow_keep).
  assert (Hn : 0 <= n <= knum k) by (destruct Hr as [[_ ->]|(_ & ? & _)]; lia).
  assert (HUV : UVPN <= vpn (virt k)) by (clear -Kv2; unfold vpn; zlia).
  assert (V1 : vminv s1 A1).
  { split; [done|rewrite (phys_only_lock _ _ P1); apply V|].
    rewrite (phys_only_rc _ _ P1). eapply cow_grow; [apply V|done|].
    intros q v Hv. rewrite M1, decide_False by lia. done. }
  destruct Hr as [[-> ->]|(-> & Hn' & _)].
  - change (0 <? 0) with false. eapply wp_mono.
    { apply (IH s1 A1); try done. intros v Hv. rewrite M1.
      destruct (decide (p = p /\ vpn (virt k) <= v < vpn (virt k) + knum k)) as [[_ Hin]|Hout].
      - rewrite Hd1 in Hv by done. by destruct Hv.
      - apply Hfr. cbn. case_decide; eauto. }
    intros r s2 (A2 & V2 & P2 & D2 & Q). exists A2. split_and!; [done|..].
    + eapply vm_only_trans; [by apply phys_vm_only|done].
    + intros g r' Hg Hr x Hx. rewrite (D2 g r' Hg Hr x Hx).
      apply (D1 g r'); [eapply grow_data_role; [exact G1| |done]|done..].
      destruct Q as [(_ & G2 & _)|(_ & RL)]; [by eapply grow_data_role|].
      by apply (released_data _ _ _ _ _ RL Hg Hr).
    + destruct Q as [(-> & G2 & M2)|(-> & RL)]; [left|right].
      * split_and!; eauto using grow_trans. by eapply kmapped_cons.
      * split; [done|]. apply (grow_released p A A1 A2); [done| |done|done]. intros q v Hq.
        by rewrite M1, decide_False by (by intros [? _]).
  - change (-1 <? 0) with true. apply wp_bind. eapply wp_mono; [by apply freevm_spec|].
    intros _ s2 (A2 & V2 & P2 & D2 & RL). apply wp_ret. exists A2. split_and!; [done|..].
    + eapply vm_only_trans; [by apply phys_vm_only|done].
    + intros g r' Hg Hr x Hx. rewrite (D2 g r' Hg Hr x Hx).
      apply (D1 g r'); [eapply grow_data_role; [exact G1| |done]|done..].
      by apply (released_data _ _ _ _ _ RL Hg Hr).
    + right. split; [done|]. apply (grow_released p A A1 A2); [done| |done|done]. intros q v Hq.
      by rewrite M1, decide_False by (by intros [? _]).
Qed.

(** [A'] is [A] with the free page [f] made a directory that holds the
    kernel part only. *)
Record newdir (f : Z) (A A' : avm) : Prop := mknewdir {
  nd_free : own A !! f = Some OFree;
  nd_dir : own A' !! f = Some ODir;
  nd_own : forall x, x <> f -> own A' !! x = own A !! x \/
             (own A !! x = Some OFree /\ exists i, own A' !! x = Some (OTab f i));
  nd_tab : forall q i, q <> f -> tab A' !! (q, i) = tab A !! (q, i);
  nd_maps : forall q v, maps A' !! (q, v) =
              if decide (q = f) then kent kmap v else maps A !! (q, v);
}.

(** Nothing changed but the order of the free list. *)
Definition restored (A A' : avm) : Prop :=
  own A' = own A /\ tab A' = tab A /\ maps A' = maps A.

Lemma free_no_tab (m : memory) (h : Z) (A : avm) (f i : Z) (r : owner) :
  tbl m h A -> own A !! f = Some r -> r <> ODir -> tab A !! (f, i) = None.
Proof.
  intros T Hf Hr. destruct (tab A !! (f, i)) eqn:E; [|done].
  apply (tb_tab_dir _ _ _ T) in E as [? _]. congruence.
Qed.

Lemma free_no_maps (m : memory) (h : Z) (A : avm) (f v : Z) (r : owner) :
  tbl m h A -> own A !! f = Some r -> r <> ODir -> maps A !! (f, v) = None.
Proof.
  intros T Hf Hr. destruct (maps A !! (f, v)) eqn:E; [|done].
  apply (tb_maps _ _ _ T) in E as (_ & [t Ht] & _). by rewrite (free_no_tab _ _ _ _ _ _ T Hf Hr) in Ht.
Qed.

Lemma newdir_grow (s : vmst) (f : Z) (l : list Z) (A A' : avm) :
  rep s A -> own A !! f = Some OFree -> grow f (make_dir f (take_free f l A)) A' ->
  kmapped f kmap (maps A) (maps A') -> newdir f A A'.
Proof.
  intros R Hf [GO GT GS] M. split; [done|..].
  - destruct (GO f) as [->|[E _]]; [apply lookup_insert_eq|].
    cbn in E. by rewrite lookup_insert_eq in E.
  - intros x Hx. specialize (GO x). cbn in GO. by rewrite !lookup_insert_ne in GO.
  - done.
  - intros q v. rewrite M. case_decide; [subst|done].
    rewrite (free_no_maps _ _ _ _ _ _ (rp_tbl _ _ R) Hf) by done. by destruct (kent kmap v).
Qed.

Lemma released_restored (s s' : vmst) (f : Z) (l : list Z) (A A' : avm) :
  vminv s A -> vminv s' A' -> own A !! f = Some OFree ->
  released f (make_dir f (take_free f l A)) A' -> restored A A'.
Proof.
  intros V V' Hf [RD RT RO RTs RM]. pose proof (rp_tbl _ _ (vi_rep _ _ V)) as T.
  assert (EM : maps A' = maps A).
  { apply map_eq. intros [q v]. rewrite RM. cbn. case_decide; [subst|done].
    by rewrite (free_no_maps _ _ _ _ _ _ T Hf). }
  split_and!; [..|done]; apply map_eq.
  - intros x. destruct (decide (x = f)) as [->|Hx]; [congruence|].
    assert (Ex : own (make_dir f (take_free f l A)) !! x = own A !! x).
    { cbn. by rewrite !lookup_insert_ne. }
    destruct (RO x Hx) as [E|[E E']]; rewrite ?Ex in *; [|done|].
    + intros i Hi. apply (tb_tab_own _ _ _ T) in Hi.
      by rewrite (free_no_tab _ _ _ _ _ _ T Hf) in Hi.
    + exfalso. apply (cw_user _ _ (vi_cow _ _ V)) in E. rewrite <- EM in E.
      apply (cw_user _ _ (vi_cow _ _ V')) in E. congruence.
  - intros [q i]. rewrite RTs. cbn. case_decide; [subst|done].
    by rewrite (free_no_tab _ _ _ _ _ _ T Hf).
Qed.

Lemma vminv_make_dir (s s1 : vmst) (A : avm) (f : Z) (l : list Z) :
  vminv s A -> own A !! f = Some OFree -> rep s1 (take_free f l A) -> phys_only s s1 ->
  vminv (set_mem (memset (mem s1) f 0 PGSIZE) s1) (make_dir f (take_free f l A)).
Proof.
  intros V Hf R1 P1. pose proof (tb_pages _ _ _ (rp_tbl _ _ (vi_rep _ _ V)) _ _ Hf) as Hfp.
  assert (Ho : own (take_free f l A) !! f = Some OKern) by apply lookup_insert_eq.
  assert (R2 : rep (set_mem (memset (mem s1) f 0 PGSIZE) s1) (take_free f l A)).
  { eapply rep_write; eauto; [|apply memset_outside|by left].
    apply memset_wf; [apply (rp_tbl _ _ R1)|zlia]. }
  split; cbn [vm_lock pg_refcount set_mem].
  - split; [apply R2|]. apply tbl_make_dir; [apply R2|done|].
    intros i Hi. apply load32_memset0; zlia.
  - rewrite (phys_only_lock _ _ P1). apply V.
  - rewrite (phys_only_rc _ _ P1). eapply cow_same; [apply V| |done].
    intros g. cbn. destruct (decide (f = g)) as [<-|Hne].
    + by rewrite lookup_insert_eq, Hf.
    + by rewrite !lookup_insert_ne.
Qed.

Lemma setupkvm_spec (s : vmst) (A : avm) :
  vminv s A ->
  wp setupkvm (fun r s' => exists A',
    vminv s' A' /\ vm_only s s' /\ data_same A' s s' /\
    ((exists f, r = P2V f /\ newdir f A A') \/ (r = 0 /\ restored A A'))) s.
Proof.
  intros V. pose proof (vi_rep _ _ V) as R. pose proof (rp_tbl _ _ R) as T.
  pose proof (rep_kalloc s A R) as HA. unfold setupkvm. apply wp_bind.
  destruct (free A) as [|f l] eqn:Hfl; destruct HA as (s1 & EA & R1 & P1 & M1);
    (eapply wp_from_Ok; [exact EA|]).
  { rewrite Z.eqb_refl. apply wp_ret. exists A. split_and!; eauto using phys_vm_only.
    - split; [done|rewrite (phys_only_lock _ _ P1); apply V|].
      rewrite (phys_only_rc _ _ P1). apply V.
    - intros g r _ _ x _. by rewrite M1.
    - by right. }
  assert (Hf : own A !! f = Some OFree).
  { apply (tb_free_own _ _ _ T). rewrite Hfl. left. }
  pose proof (tb_pages _ _ _ T _ _ Hf) as Hfp.
  rewrite (proj2 (Z.eqb_neq _ _) (P2V_page_nonzero f Hfp)).
  apply wp_bind. eapply wp_from_Ok; [by apply kmemset_page|].
  change (DEVSPACE <? P2V PHYSTOP) with false. cbv iota.
  pose proof (vminv_make_dir s s1 A f l V Hf R1 P1) as V2.
  set (s2 := set_mem _ s1) in *. destruct kmap_ok as [Kw Kd].
  eapply wp_mono; [apply (setupkvm_loop_spec f kmap s2 _ V2); try done|].
  { apply lookup_insert_eq. }
  { intros v _. cbn. by apply (free_no_maps _ _ _ _ _ _ T Hf). }
  intros r s3 (A3 & V3 & P3 & D3 & Q). exists A3. split_and!; [done|..].
  - eapply vm_only_trans; [by apply phys_vm_only|].
    eapply vm_only_trans; [|exact P3]. by destruct s1.
  - intros g r' Hg Hr x Hx. rewrite (D3 g r' Hg Hr x Hx). cbn. rewrite <- M1.
    assert (g <> f).
    { intros ->. destruct Q as [(_ & G & _)|(_ & RL)].
      - apply (grow_data_role _ _ _ _ _ G) in Hg; [|done]. cbn in Hg.
        rewrite lookup_insert_eq in Hg. by destruct Hr; simplify_eq.
      - by destruct (released_data _ _ _ _ _ RL Hg Hr). }
    apply memset_outside. apply (pages_disjoint g f x); [|apply Hfp|done..].
    apply (tb_pages _ _ _ (rp_tbl _ _ (vi_rep _ _ V3)) _ _ Hg).
  - destruct Q as [(-> & G & M)|(-> & RL)]; [left|right].
    + exists f. split; [done|]. by eapply newdir_grow.
    + split; [done|]. by eapply (released_restored s s3).
Qed.
End Kvm.
