(* ===== verification/Fork.v ===== *)
(** * Fork: sharing an address space copy-on-write ([copyuvm])

    [copyuvm] gives the child exactly the parent's user pages, shared and
    write-protected on both sides, counts the new references, and undoes its
    work when memory runs out. *)
From stdpp Require Import base gmap list numbers strings.
From Stdlib Require Import ZArith Lia ZifyBool.
From S2P Require Import Prelude Machine Cstring Kalloc Vm Frames Tables Cow Dealloc Kvm.

Section Fork.
Context `{KI : KernelImage} `{KIO : !KernelImageOk}.

Lemma entry_facts (s : vmst) (A : avm) (p v e : Z) :
  rep s A -> maps A !! (p, v) = Some e ->
  0 <= v < NVPN /\ 0 <= e < 4294967296 /\ present e = true /\
  exists t, tab A !! (p, v / 1024) = Some t.
Proof.
  intros [_ T] He. pose proof (tb_maps _ _ _ T _ _ _ He) as (Hv & [t Ht] & Hpr).
  pose proof (tb_pte _ _ _ T p (v / 1024) t (v mod 1024) Ht ltac:(zlia)) as Hs.
  replace (1024 * (v / 1024) + v mod 1024) with v in Hs by zlia. rewrite He in Hs. cbn in Hs.
  split_and!; [zlia..| | |done|eauto]; rewrite <- Hs; apply load32_range, T.
Qed.

Lemma mk_pte_id (e : Z) :
  0 <= e < 4294967296 -> present e = true -> mk_pte (PTE_ADDR e) (PTE_FLAGS e) = e.
Proof.
  intros Hr Hp. rewrite PTE_ADDR_eq by done. rewrite PTE_FLAGS_eq.
  destruct (mk_pte_facts (e - e mod 4096) (e mod 4096)) as [-> _]; [zlia..|].
  replace (Z.lor (e mod 4096) PTE_P) with (e mod 4096); [lia|].
  apply Z.bits_inj'. intros n Hn. rewrite Z.lor_spec. change PTE_P with (2 ^ 0).
  rewrite Z.pow2_bits_eqb by lia. destruct (Z.eqb_spec 0 n) as [<-|]; [|by rewrite orb_false_r].
  change 4096 with (2 ^ 12). rewrite Z.mod_pow2_bits_low by lia.
  unfold present in Hp. by rewrite Hp.
Qed.

(** The entry without write permission. *)
Definition protect (e : Z) : Z := clear_bit e 1.

Lemma protect_facts (e : Z) :
  0 <= e < 4294967296 -> present e = true ->
  0 <= protect e < 4294967296 /\ present (protect e) = true /\
  PTE_ADDR (protect e) = PTE_ADDR e /\ Z.testbit (protect e) 1 = false.
Proof.
  intros Hr Hp. unfold protect. split; [by apply clear_bit_range|]. split_and!.
  - unfold present. rewrite testbit_clear_bit by lia. unfold present in Hp. by rewrite Hp.
  - by apply clear_bit_PTE_ADDR.
  - rewrite testbit_clear_bit by lia. by rewrite andb_false_r.
Qed.

(** One more reference to the page of [(p, v)], from [(d, v)]. *)
Lemma cow_share (rc : Z -> Z) (A A' : avm) (p d v e : Z) :
  cow rc A -> maps A !! (p, v) = Some e -> v < UVPN -> Z.testbit e 1 = false ->
  maps A !! (d, v) = None -> d <> p -> page_ok (PTE_ADDR e) ->
  (refs (maps A) (PTE_ADDR e) <= 126)%nat ->
  (forall w e', w < UVPN -> maps A !! (d, w) = Some e' -> PTE_ADDR e' <> PTE_ADDR e) ->
  (forall f, own A' !! f = Some OUser <-> own A !! f = Some OUser) ->
  maps A' = <[(d, v) := e]> (maps A) ->
  cow (rc_add (PTE_ADDR e) 1 rc) A'.
Proof.
  intros [CU CR CB CS CI] Hk Hv Hw Hd Hdp Hp Hb Hinj HO HM. set (f := PTE_ADDR e) in *.
  assert (HR : forall g, refs (maps A') g =
            ((if decide (g = f) then 1 else 0) + refs (maps A) g)%nat).
  { intros g. rewrite HM, refs_insert by done. f_equal. apply decide_ext.
    unfold refers; cbn. fold f. naive_solver. }
  assert (HL : forall q w e', maps A' !! (q, w) = Some e' ->
            (q = d /\ w = v /\ e' = e) \/ maps A !! (q, w) = Some e').
  { intros q w e'. rewrite HM. destruct (decide ((d, v) = (q, w))) as [[= <- <-]|Hne].
    - rewrite lookup_insert_eq. intros [= <-]. by left.
    - rewrite lookup_insert_ne by done. by right. }
  assert (H1 : (0 < refs (maps A) f)%nat) by (by eapply refs_pos).
  split.
  - intros g. rewrite HO, CU, HR. case_decide; [subst; lia|lia].
  - intros g Hg. unfold rc_add. rewrite HR, CR by done.
    destruct (decide (g = f)) as [->|Hne]; [rewrite Z.eqb_refl; lia|].
    rewrite (proj2 (Z.eqb_neq _ _)); [lia|]. intros E. by apply Hne, page_index_inj.
  - intros g. rewrite HR. specialize (CB g). case_decide; [subst; lia|lia].
  - intros q w e' E Hw' Hb'. apply HL in E as [(-> & -> & ->)|E]; [congruence|].
    rewrite HR. rewrite (CS q w e' E Hw' Hb'). case_decide as Ef; [|done]. exfalso.
    assert (Hne : (p, v) <> (q, w)) by (intros [= -> ->]; congruence).
    pose proof (refs_two _ _ _ _ _ _ _ Hk E Hne Hv Hw' Ef) as H2.
    pose proof (CS q w e' E Hw' Hb') as H3. rewrite Ef in H3. fold f in H2. lia.
  - intros q w w' e1 e2 E1 E2 Hw1 Hw2 EA.
    apply HL in E1 as [(-> & -> & ->)|E1], E2 as [(? & -> & ->)|E2]; subst; try done.
    + by destruct (Hinj w' e2 Hw2 E2).
    + by destruct (Hinj w e1 Hw1 E1).
    + by eapply CI.
Qed.

Lemma rc_incr_spec (s : vmst) (f : Z) :
  page_ok f -> vm_lock s = false -> -128 <= pg_refcount s (f / 4096) < 127 ->
  exists rc, rc_incr f s = Ok tt (set_pg_refcount rc s) /\
    (forall j, rc j = rc_add f 1 (pg_refcount s) j).
Proof.
  intros Hf Hl Hc. unfold rc_incr, bind, acquire_vm. rewrite Hl, rc_get_page by done.
  rewrite rc_set_page by done. eexists. split.
  - unfold release_vm. cbn. destruct s; cbn in Hl. subst. reflexivity.
  - intros j. cbn. unfold rc_add. destruct (Z.eqb_spec j (f / 4096)) as [->|]; [|done].
    by rewrite i8_id by lia.
Qed.

Lemma mapped_1 (p v pa perm : Z) (mp mp' : gmap (Z * Z) Z) :
  mapped p v 1 (range_ent pa perm) mp mp' -> mp' = <[(p, v) := mk_pte pa perm]> mp.
Proof.
  intros M. apply map_eq. intros [q w]. rewrite M.
  destruct (decide ((p, v) = (q, w))) as [[= <- <-]|Hne].
  - rewrite lookup_insert_eq, decide_True by lia. unfold range_ent. do 2 f_equal. lia.
  - rewrite lookup_insert_ne by done. rewrite decide_False; [done|].
    intros [-> ?]. apply Hne. f_equal. lia.
Qed.

Lemma mapped_none (p v : Z) (ent : Z -> Z) (mp mp' : gmap (Z * Z) Z) :
  mapped p v 0 ent mp mp' -> mp' = mp.
Proof. intros M. apply map_eq. intros [q w]. rewrite M, decide_False by lia. done. Qed.

(** [mappages] for one page. *)
Lemma mappages_one (s : vmst) (A : avm) (p va pa perm : Z) :
  rep s A -> own A !! p = Some ODir -> va mod 4096 = 0 -> 0 <= va < 2147483648 ->
  pa mod 4096 = 0 -> 0 <= pa < 2147483648 -> 0 <= perm < 4096 ->
  maps A !! (p, vpn va) = None ->
  wp (mappages (P2V p) va PGSIZE pa perm) (fun r s' => exists A',
    rep s' A' /\ phys_only s s' /\ data_same A s s' /\ grow p A A' /\
    ((r = 0 /\ maps A' = <[(p, vpn va) := mk_pte pa perm]> (maps A) /\ takes 1 A A') \/
     (r = -1 /\ maps A' = maps A /\ free A = [] /\ tab A' !! (p, PDX va) = None))) s.
Proof.
  intros R Hp Hva Hvr Hpa Hpr Hperm Hn. change PGSIZE with (4096 * 1).
  eapply wp_mono; [apply (mappages_spec s A); try done; try lia|].
  { intros i Hi. by replace (vpn va + i) with (vpn va) by lia. }
  intros r s' (A' & k & R' & P' & D' & G' & M' & K' & [[-> ->]|(-> & Hk & Hf & Ht)]);
    exists A'; split_and!; try done.
  - left. split_and!; [done|by apply mapped_1|done].
  - right. replace k with 0 in * by lia. rewrite Z.mul_0_r, Z.add_0_r in Ht.
    split_and!; try done; [by eapply mapped_none|].
    destruct K' as (l & E & Hl). rewrite Hf, app_nil_r in E. rewrite E. destruct l; [done|cbn in Hl; lia].
Qed.

(** What one iteration of the loop of [copyuvm] does to page [j]. *)
Definition share_step (p d j e : Z) (mp : gmap (Z * Z) Z) : gmap (Z * Z) Z :=
  <[(d, j) := protect e]> (<[(p, j) := protect e]> mp).

(** The first half: the parent's entry is write-protected. *)
Lemma protect_entry (s : vmst) (A : avm) (p j t e : Z) :
  vminv s A -> 0 <= j < UVPN -> tab A !! (p, PDX (4096 * j)) = Some t ->
  maps A !! (p, j) = Some e ->
  let s' := set_mem (store32 (mem s) (t + 4 * PTX (4096 * j)) (protect e)) s in
  vminv s' (set_entry (p, j) (protect e) A) /\ vm_only s s' /\ data_same A s s' /\
  maps (set_entry (p, j) (protect e) A) = <[(p, j) := protect e]> (maps A) /\
  load32 (mem s') (t + 4 * PTX (4096 * j)) = protect e.
Proof.
  intros V Hj Ht He s'. assert (Hvj : vpn (4096 * j) = j) by (unfold vpn; zlia).
  destruct (entry_facts s A p j e (vi_rep _ _ V) He) as (_ & Hr & Hpr & _).
  destruct (protect_facts e Hr Hpr) as (Hr' & Hpr' & HA & Hw). split_and!.
  - pose proof (vminv_flags s A p (4096 * j) t e (protect e) V) as F. rewrite Hvj in F.
    apply F; try done; [zlia|]. intros. congruence.
  - by destruct s.
  - apply set_entry_data with (p := p) (A := A); [apply V|done].
  - cbn. unfold put_entry. by rewrite Hpr'.
  - apply load32_store32_eq. done.
Qed.

Lemma vm_only_cr3 (c : Z) (s s' : vmst) :
  vm_only s s' -> vm_only (set_cr3 c s) (set_cr3 c s').
Proof. unfold vm_only, phys_only. intros ->. by destruct s. Qed.

(** The state differs in memory, allocator, reference counts and CR3 only. *)
Definition vm_frame (s s' : vmst) : Prop := vm_only (set_cr3 (cr3 s') s) s'.

Lemma vm_only_frame (s s' : vmst) : vm_only s s' -> vm_frame s s'.
Proof. unfold vm_frame, vm_only, phys_only. intros ->. by destruct s. Qed.

Lemma vm_frame_cr3 (c : Z) (s s' : vmst) : vm_only (set_cr3 c s) s' -> vm_frame s s'.
Proof. unfold vm_frame, vm_only, phys_only. intros ->. by destruct s. Qed.

Lemma vm_frame_trans (s1 s2 s3 : vmst) : vm_frame s1 s2 -> vm_frame s2 s3 -> vm_frame s1 s3.
Proof. unfold vm_frame, vm_only, phys_only. intros H1 H2. rewrite H2, H1. by destruct s1, s2, s3. Qed.

Lemma vm_frame_kpgdir (s s' : vmst) : vm_frame s s' -> kpgdir s' = kpgdir s /\ tss s' = tss s.
Proof. unfold vm_frame, vm_only, phys_only. intros ->. by destruct s. Qed.

Lemma vminv_cr3 (c : Z) (s : vmst) (A : avm) : vminv s A -> vminv (set_cr3 c s) A.
Proof. intros [[Hk T] L C]. by split. Qed.

(** The second half: the child's entry and the reference count, or, when
    there is no memory for a page table, the release of the child. *)
Lemma share_map (s : vmst) (A : avm) (p d j e : Z) :
  vminv s A -> own A !! d = Some ODir -> d <> p -> 0 <= j < UVPN ->
  maps A !! (p, j) = Some e -> Z.testbit e 1 = false -> maps A !! (d, j) = None ->
  (refs (maps A) (PTE_ADDR e) <= 126)%nat ->
  (forall w e', w < UVPN -> maps A !! (d, w) = Some e' -> PTE_ADDR e' <> PTE_ADDR e) ->
  wp (let! r := mappages (P2V d) (4096 * j) PGSIZE (PTE_ADDR e) (PTE_FLAGS e) in
      if r <? 0 then freevm (P2V d) ;;; lcr3 (V2P (P2V p)) ;;; ret (inr 0)
      else rc_incr (PTE_ADDR e) ;;; ret (inl (u32 (4096 * j + PGSIZE))))
    (fun r s' => exists A', vminv s' A' /\
      ((r = inl (4096 * (j + 1)) /\ vm_only s s' /\ data_same A s s' /\ grow d A A' /\
        maps A' = <[(d, j) := e]> (maps A)) \/
       (r = inr 0 /\ vm_only (set_cr3 (V2P (P2V p)) s) s' /\ data_same A' s s' /\
        released d A A'))) s.
Proof.
  intros V Hd Hdp Hj He Hw Hdn Hb Hinj.
  assert (Hvj : vpn (4096 * j) = j) by (unfold vpn; zlia).
  destruct (entry_facts s A p j e (vi_rep _ _ V) He) as (_ & Hr & Hpr & _).
  destruct (user_page s A p j e V He ltac:(lia)) as [Ho Hfp].
  pose proof (page_ok_bounds _ Hfp) as Hfb.
  apply wp_bind. eapply wp_mono.
  { apply (mappages_one s A d (4096 * j)); try done; [apply V|zlia|zlia|apply Hfp|zlia| |].
    - rewrite PTE_FLAGS_eq. zlia.
    - by rewrite Hvj. }
  rewrite mk_pte_id, Hvj by done.
  intros r s1 (A1 & R1 & P1 & D1 & G1 & [(-> & M1 & _)|(-> & M1 & _)]).
  - change (0 <? 0) with false. cbv iota.
    destruct (rc_incr_spec s1 (PTE_ADDR e)) as (rc & Ei & Hrc); [done|..].
    { rewrite (phys_only_lock _ _ P1). apply V. }
    { rewrite (phys_only_rc _ _ P1), (cw_refs _ _ (vi_cow _ _ V)) by done. lia. }
    apply wp_bind. eapply wp_from_Ok; [exact Ei|]. apply wp_ret. exists A1.
    split; [split|left; split_and!].
    + by apply rep_rc.
    + cbn. rewrite (phys_only_lock _ _ P1). apply V.
    + eapply cow_ext; [|exact Hrc]. rewrite (phys_only_rc _ _ P1).
      eapply (cow_share _ A A1 p d j); eauto; [apply V|lia|].
      intros f. by destruct (gr_own _ _ _ G1 f) as [->|(-> & i & ->)].
    + f_equal. zlia.
    + eapply vm_only_trans; [by apply phys_vm_only|]. by destruct s1.
    + done.
    + done.
    + done.
  - change (-1 <? 0) with true. cbv iota.
    assert (V1 : vminv s1 A1).
    { split; [done|rewrite (phys_only_lock _ _ P1); apply V|].
      rewrite (phys_only_rc _ _ P1). eapply cow_grow; [apply V|done|]. intros. by rewrite M1. }
    apply wp_bind. eapply wp_mono; [apply (freevm_spec s1 A1); [done|by eapply grow_keep]|].
    intros _ s2 (A2 & V2 & P2 & D2 & RL). apply wp_bind, wp_modify, wp_ret. exists A2.
    split; [by apply vminv_cr3|]. right. split_and!; [done|..].
    + apply vm_only_cr3. eapply vm_only_trans; [by apply phys_vm_only|done].
    + intros g r' Hg Hr' x Hx. cbn [mem set_cr3]. rewrite (D2 g r' Hg Hr' x Hx).
      apply (D1 g r'); [eapply grow_data_role; [exact G1| |done]|done..].
      by apply (released_data _ _ _ _ _ RL Hg Hr').
    + apply (grow_released d A A1 A2); [done| |done|done]. intros. by rewrite M1.
Qed.

Lemma share_body_spec (msg : string) (s : vmst) (A : avm) (p d sz j e : Z) :
  vminv s A -> own A !! p = Some ODir -> own A !! d = Some ODir -> d <> p ->
  0 <= j -> 4096 * j < sz -> sz <= KERNBASE ->
  maps A !! (p, j) = Some e -> maps A !! (d, j) = None ->
  (refs (maps A) (PTE_ADDR e) <= 126)%nat ->
  (forall w e', w < UVPN -> maps A !! (d, w) = Some e' -> PTE_ADDR e' <> PTE_ADDR e) ->
  wp (share_body msg (P2V p) (P2V d) sz (4096 * j)) (fun r s' => exists A', vminv s' A' /\
      ((r = inl (4096 * (j + 1)) /\ vm_only s s' /\ data_same A s s' /\ grow d A A' /\
        maps A' = share_step p d j e (maps A)) \/
       (r = inr 0 /\ vm_only (set_cr3 (V2P (P2V p)) s) s' /\ data_same A' s s' /\
        released d (set_entry (p, j) (protect e) A) A'))) s.
Proof.
  intros V Hp Hd Hdp Hj0 Hj Hsz He Hdn Hb Hinj.
  assert (Hva : 0 <= 4096 * j < 4294967296) by zlia.
  assert (Hvj : vpn (4096 * j) = j) by (unfold vpn; zlia).
  assert (HjU : 0 <= j < UVPN) by zlia.
  pose proof (vi_rep _ _ V) as R.
  destruct (entry_facts s A p j e R He) as (_ & Hr & Hpr & t & Ht).
  destruct (protect_facts e Hr Hpr) as (Hr' & Hpr' & HA' & Hw').
  destruct (vpn_split _ Hva) as (_ & Hx & _). rewrite Hvj in Hx. rewrite Hx in Ht.
  pose proof (tab_page _ _ _ _ _ _ (rp_tbl _ _ R) Ht) as Htp.
  destruct (user_entry_loaded s A p _ t R Hva Ht) as [EP EV]. rewrite Hvj, He in EP.
  destruct (protect_entry s A p j t e V HjU Ht He) as (V1 & P1 & D1 & M1 & L1).
  unfold share_body. rewrite (proj2 (Z.ltb_lt (4096 * j) sz)) by done. cbn [negb].
  apply wp_bind. eapply wp_from_Ok; [by eapply walk_found|]. rewrite entry_nonzero by done.
  apply wp_bind. eapply wp_from_Ok; [by apply kload_pte|]. rewrite EP.
  apply wp_bind. eapply wp_from_Ok; [by apply kstore_pte|].
  rewrite (EV e) by (by rewrite Hvj). fold (protect e).
  apply wp_bind. eapply wp_from_Ok; [by apply kload_pte|]. rewrite L1.
  eapply wp_mono.
  { apply (share_map _ _ p d j (protect e) V1); try done.
    - rewrite M1. apply lookup_insert_eq.
    - rewrite M1. rewrite lookup_insert_ne by congruence. done.
    - rewrite M1, HA'. erewrite refs_replace; eauto.
    - rewrite M1, HA'. intros w e' Hw. rewrite lookup_insert_ne by congruence. by apply Hinj. }
  intros r s2 (A2 & V2 & [(-> & P2 & D2 & G2 & M2)|(-> & P2 & D2 & RL)]); exists A2;
    (split; [done|]); [left|right]; split_and!; try done.
  - intros g r Hg Hr0 x Hx'. rewrite (D2 g r Hg Hr0 x Hx'). by apply (D1 g r).
  - by destruct G2.
  - by rewrite M2, M1.
  - intros g r Hg Hr0 x Hx'. rewrite (D2 g r Hg Hr0 x Hx'). apply (D1 g r); [|done..].
    by destruct (released_data _ _ _ _ _ RL Hg Hr0).
Qed.

(** ** Reference counts are bounded by the number of address spaces *)

Definition dirs (A : avm) : gset Z := dom (filter (fun kv => kv.2 = ODir) (own A)).

Lemma elem_of_dirs (A : avm) (p : Z) : p ∈ dirs A <-> own A !! p = Some ODir.
Proof.
  unfold dirs. rewrite elem_of_dom. split.
  - intros [r Hr]. apply map_lookup_filter_Some in Hr as [Hr E]. cbn in E. by subst.
  - intros H. exists ODir. by apply map_lookup_filter_Some.
Qed.

Lemma refs_le_size (rc : Z -> Z) (A : avm) (f : Z) (X : gset Z) :
  cow rc A ->
  (forall p v e, maps A !! (p, v) = Some e -> v < UVPN -> PTE_ADDR e = f -> p ∈ X) ->
  (refs (maps A) f <= size X)%nat.
Proof.
  intros C HX. unfold refs. rewrite <- length_map_to_list.
  set (l := map_to_list (filter (refers f) (maps A))).
  assert (Hl : forall kv, kv ∈ l -> maps A !! (kv.1.1, kv.1.2) = Some kv.2 /\ kv.1.2 < UVPN /\ PTE_ADDR kv.2 = f).
  { intros [[q v] e] H. apply elem_of_map_to_list, map_lookup_filter_Some in H as (H & Hv & He). done. }
  rewrite <- (length_fmap (fun kv : (Z * Z) * Z => kv.1.1) l).
  assert (HN : NoDup ((fun kv : (Z * Z) * Z => kv.1.1) <$> l)).
  { apply NoDup_fmap_2_strong; [|apply NoDup_map_to_list].
    intros [[q v] e] [[q' v'] e'] H1 H2 E. cbn in E. subst q'.
    apply Hl in H1 as (H1 & Hv & He), H2 as (H2 & Hv' & He'). cbn in *.
    assert (v = v') as <- by (eapply (cw_inj _ _ C); eauto; congruence). congruence. }
  rewrite <- (size_list_to_set (C := gset Z)) by done. apply subseteq_size.
  intros q Hq. apply elem_of_list_to_set, list_elem_of_fmap in Hq as ([[q' v] e] & -> & H).
  apply Hl in H as (H & Hv & He). by eapply HX.
Qed.

(** ** The loop of [copyuvm] *)

(** The first [j] pages of [p] are shared with [d]. *)
Definition sharing (p d j : Z) (mp mp' : gmap (Z * Z) Z) : Prop :=
  forall q v, mp' !! (q, v) =
    if decide ((q = p \/ q = d) /\ 0 <= v < j) then protect <$> mp !! (p, v)
    else mp !! (q, v).

(** The first [k] pages of [p] are write-protected. *)
Definition protected (p k : Z) (mp mp' : gmap (Z * Z) Z) : Prop :=
  forall q v, mp' !! (q, v) =
    if decide (q = p /\ 0 <= v < k) then protect <$> mp !! (q, v) else mp !! (q, v).

Lemma sharing_step (p d j e : Z) (mp mp' : gmap (Z * Z) Z) :
  0 <= j -> mp !! (p, j) = Some e -> sharing p d j mp mp' ->
  sharing p d (j + 1) mp (share_step p d j e mp').
Proof.
  intros Hj He H q v. unfold share_step. destruct (decide ((d, j) = (q, v))) as [[= <- <-]|Hd].
  { rewrite lookup_insert_eq, decide_True by (split; [by right|lia]). by rewrite He. }
  rewrite lookup_insert_ne by done. destruct (decide ((p, j) = (q, v))) as [[= <- <-]|Hp].
  { rewrite lookup_insert_eq, decide_True by (split; [by left|lia]). by rewrite He. }
  rewrite lookup_insert_ne by done. rewrite H.
  destruct (decide ((q = p \/ q = d) /\ 0 <= v < j)) as [[Hq Hv]|Hn].
  - rewrite decide_True; [done|]. split; [done|lia].
  - rewrite decide_False; [done|]. intros [Hq Hv]. apply Hn. split; [done|].
    assert (v <> j); [|lia]. intros ->. destruct Hq; subst; congruence.
Qed.

Lemma protect_frames (s : vmst) (A : avm) (p k : Z) (mp' : gmap (Z * Z) Z) (f : Z) :
  rep s A -> protected p k (maps A) mp' -> refs mp' f = refs (maps A) f.
Proof.
  intros R H. apply refs_frames_ext. intros q v _. rewrite H. case_decide; [|done].
  destruct (maps A !! (q, v)) as [e|] eqn:E; [|done]. cbn. f_equal.
  by apply clear_bit_PTE_ADDR.
Qed.

(** A fork that fails on the way leaves the page ownership as it was. *)
Lemma failed_share (s s2 : vmst) (A A0 A1 A2 : avm) (p d j e : Z) :
  vminv s A -> vminv s2 A2 -> newdir d A A0 -> grow d A0 A1 -> d <> p -> 0 <= j ->
  sharing p d j (maps A0) (maps A1) -> maps A0 !! (p, j) = Some e -> present (protect e) = true ->
  released d (set_entry (p, j) (protect e) A1) A2 ->
  own A2 = own A /\ tab A2 = tab A /\ protected p (j + 1) (maps A) (maps A2).
Proof.
  intros V V2 [NF ND NO NT NM] [GO GT GS] Hdp Hj Sh He Hpr [RD RT RO RTs RM].
  pose proof (rp_tbl _ _ (vi_rep _ _ V)) as T.
  assert (HM : protected p (j + 1) (maps A) (maps A2)).
  { intros q v. rewrite RM. destruct (decide (q = d)) as [->|Hqd].
    { rewrite decide_False by (by intros [? _]). by rewrite (free_no_maps _ _ _ _ _ _ T NF). }
    cbn. unfold put_entry. rewrite Hpr. rewrite NM, decide_False in He by done.
    destruct (decide ((p, j) = (q, v))) as [[= <- <-]|Hne].
    - rewrite lookup_insert_eq, decide_True by lia. by rewrite He.
    - rewrite lookup_insert_ne, Sh, !NM, (decide_False (P := p = d)) by done.
      rewrite (decide_False (P := q = d)) by done.
      destruct (decide (q = p)) as [->|Hq].
      + assert (v <> j) by congruence. repeat case_decide; done || lia.
      + rewrite !decide_False; [done|..]; intros [? ?]; naive_solver. }
  split_and!; [..|done]; apply map_eq.
  - intros x. destruct (decide (x = d)) as [->|Hx]; [congruence|].
    assert (HT : forall i, own A !! x <> Some (OTab d i)).
    { intros i Hi. apply (tb_tab_own _ _ _ T) in Hi. by rewrite (free_no_tab _ _ _ _ _ _ T NF) in Hi. }
    destruct (GO x) as [E1|(F1 & i & E1)]; destruct (NO x Hx) as [E0|(F0 & i0 & E0)].
    + destruct (RO x Hx) as [E|[E E']]; cbn [own set_entry] in *; rewrite ?E1, ?E0 in *; [done|done|].
      exfalso. apply (cw_user _ _ (vi_cow _ _ V)) in E.
      rewrite <- (protect_frames s A p (j + 1) (maps A2) x (vi_rep _ _ V) HM) in E.
      apply (cw_user _ _ (vi_cow _ _ V2)) in E. congruence.
    + rewrite F0. apply (RT x i0). cbn. congruence.
    + rewrite (RT x i) by (cbn; congruence). congruence.
    + rewrite F0. apply (RT x i). done.
  - intros [q i]. rewrite RTs. cbn. case_decide as Hq.
    + subst. by rewrite (free_no_tab _ _ _ _ _ _ T NF).
    + by rewrite GT, NT.
Qed.

(** What [copyuvm] asks of the parent: the pages below [sz] are mapped, and
    there are few enough address spaces for a [char] count. *)
Record forkable (p sz : Z) (A : avm) : Prop := mkforkable {
  fo_dir : own A !! p = Some ODir;
  fo_sz : 0 <= sz <= KERNBASE;
  fo_pages : forall v, 0 <= v < (sz + 4095) / 4096 -> is_Some (maps A !! (p, v));
  fo_dirs : (size (dirs A) <= 126)%nat;
}.

(** What it achieves: [d] is a new address space with the kernel part and
    the parent's pages, write-protected in both. *)
Record forked (p d n : Z) (A A' : avm) : Prop := mkforked {
  fk_free : own A !! d = Some OFree;
  fk_dir : own A' !! d = Some ODir;
  fk_own : forall x, x <> d -> own A' !! x = own A !! x \/
             (own A !! x = Some OFree /\ exists i, own A' !! x = Some (OTab d i));
  fk_maps : forall q v, maps A' !! (q, v) =
    if decide ((q = p \/ q = d) /\ 0 <= v < n) then protect <$> maps A !! (p, v)
    else if decide (q = d) then kent kmap v else maps A !! (q, v);
}.

Record share_inv (p d n : Z) (A0 : avm) (s0 : vmst) (a : Z) (s : vmst) : Prop := mkshinv {
  si_st : exists A' j, a = 4096 * j /\ 0 <= j <= n /\ vminv s A' /\ grow d A0 A' /\
            sharing p d j (maps A0) (maps A');
  si_vm : vm_only s0 s;
  si_data : data_same A0 s0 s;
}.

Lemma kent_user (v : Z) : v < UVPN -> kent kmap v = None.
Proof.
  intros Hv. destruct (kent kmap v) eqn:E; [|done].
  apply kent_range in E; [lia|]. apply kmap_ok.
Qed.

(** The pages still to be shared are as at the start. *)
Lemma share_next (p d n j : Z) (s1 : vmst) (A A0 A1 : avm) :
  vminv s1 A1 -> newdir d A A0 -> grow d A0 A1 -> d <> p -> 0 <= j < n -> n <= UVPN ->
  (forall v, 0 <= v < n -> is_Some (maps A !! (p, v))) -> (size (dirs A) <= 126)%nat ->
  sharing p d j (maps A0) (maps A1) ->
  exists e, maps A0 !! (p, j) = Some e /\ maps A1 !! (p, j) = Some e /\
    maps A1 !! (d, j) = None /\ (refs (maps A1) (PTE_ADDR e) <= 126)%nat /\
    (forall w e', w < UVPN -> maps A1 !! (d, w) = Some e' -> PTE_ADDR e' <> PTE_ADDR e).
Proof.
  intros V1 [NF ND NO NT NM] G Hdp Hj Hn Hpg Hds Sh.
  destruct (Hpg j Hj) as [e He]. exists e.
  assert (He0 : maps A0 !! (p, j) = Some e) by (rewrite NM, decide_False by done; done).
  assert (He1 : maps A1 !! (p, j) = Some e) by (rewrite Sh, decide_False by lia; done).
  assert (Hinj : forall w e', w < UVPN -> maps A1 !! (d, w) = Some e' -> PTE_ADDR e' <> PTE_ADDR e).
  { intros w e' Hw E EA. rewrite Sh in E. case_decide as Hc.
    - destruct (maps A0 !! (p, w)) as [e0|] eqn:E0; [|done]. cbn in E. simplify_eq.
      assert (Hpw : maps A1 !! (p, w) = Some (protect e0)).
      { rewrite Sh, decide_True by (split; [by left|lia]). by rewrite E0. }
      assert (w = j); [|lia].
      eapply (cw_inj _ _ (vi_cow _ _ V1) p w j); eauto. lia.
    - rewrite NM, decide_True, kent_user in E by done. done. }
  split_and!; try done.
  - rewrite Sh, decide_False by lia. rewrite NM, decide_True by done. by rewrite kent_user by lia.
  - etransitivity; [|exact Hds]. eapply refs_le_size; [apply V1|].
    intros q v e' E Hv EA. apply elem_of_dirs.
    assert (q <> d) by (intros ->; by eapply Hinj).
    destruct (entry_facts s1 A1 q v e' (vi_rep _ _ V1) E) as (_ & _ & _ & t & Ht).
    apply (tb_tab_dir _ _ _ (rp_tbl _ _ (vi_rep _ _ V1))) in Ht as [Ho _].
    destruct (gr_own _ _ _ G q) as [E1|(_ & i & E1)]; [|congruence].
    destruct (NO q) as [E2|(_ & i & E2)]; congruence.
Qed.

Lemma forked_intro (p d n : Z) (A A0 A1 : avm) :
  newdir d A A0 -> grow d A0 A1 -> d <> p -> sharing p d n (maps A0) (maps A1) ->
  forked p d n A A1.
Proof.
  intros [NF ND NO NT NM] G1 Hdp S1. split; [done|..].
  - by eapply grow_keep.
  - intros x Hx. destruct (gr_own _ _ _ G1 x) as [E1|(F1 & i & E1)];
      destruct (NO x Hx) as [E2|(F2 & i' & E2)].
    + left. congruence.
    + right. split; [done|]. exists i'. congruence.
    + right. split; [congruence|eauto].
    + congruence.
  - intros q v. rewrite S1, !NM. by rewrite (decide_False (P := p = d)).
Qed.

Lemma share_uvm_spec (msg : string) (s : vmst) (A : avm) (p sz : Z) :
  vminv s A -> forkable p sz A ->
  wp (share_uvm msg (P2V p) sz) (fun r s' => exists A',
    vminv s' A' /\ vm_frame s s' /\ data_same A' s s' /\
    ((exists d, r = P2V d /\ d <> p /\ forked p d ((sz + 4095) / 4096) A A') \/
     (r = 0 /\ own A' = own A /\ tab A' = tab A /\
      exists k, 0 <= k <= (sz + 4095) / 4096 /\ protected p k (maps A) (maps A')))) s.
Proof.
  intros V [Hp Hsz Hpg Hds]. remember ((sz + 4095) / 4096) as n eqn:En.
  unfold share_uvm. apply wp_bind. eapply wp_mono; [by apply setupkvm_spec|].
  intros r s0 (A0 & V0 & P0 & D0 & [(d & -> & ND)|(-> & EO & ET & EM)]); cycle 1.
  { rewrite Z.eqb_refl. apply wp_ret. exists A0. split_and!; try done; [by apply vm_only_frame|]. right.
    split_and!; try done. exists 0. split; [zlia|]. intros q v.
    rewrite decide_False by lia. by rewrite EM. }
  assert (Hdp : d <> p) by (intros ->; pose proof (nd_free _ _ _ ND); congruence).
  assert (Hp0 : own A0 !! p = Some ODir).
  { destruct (nd_own _ _ _ ND p) as [->|[E _]]; congruence. }
  pose proof (tb_pages _ _ _ (rp_tbl _ _ (vi_rep _ _ V)) _ _ (nd_free _ _ _ ND)) as Hdpg.
  rewrite (proj2 (Z.eqb_neq _ _) (P2V_page_nonzero d Hdpg)).
  eapply (wp_loop (share_inv p d n A0 s0) (fun a => Z.to_nat (n - a / 4096))).
  - intros a s1 [(A1 & j & -> & Hj & V1 & G1 & S1) P1 D1].
    destruct (decide (j < n)) as [Hlt|Hge].
    + destruct (share_next p d n j s1 A A0 A1) as (e & E0 & E1 & Ed & Hb & Hi); try done; [lia|zlia|].
      eapply wp_mono.
      { apply (share_body_spec msg s1 A1 p d sz j e); try done; try zlia; eapply grow_keep; eauto.
        apply ND. }
      intros r s2 (A2 & V2 & [(-> & P2 & D2 & G2 & M2)|(-> & P2 & D2 & RL)]).
      * split; [|zlia]. split; [|by eapply vm_only_trans|by eapply data_same_trans].
        exists A2, (j + 1). split_and!; eauto using grow_trans; [lia..|].
        rewrite M2. apply sharing_step; [lia|done..].
      * exists A2. destruct (entry_facts _ _ _ _ _ (vi_rep _ _ V1) E1) as (_ & Hr & Hpr & _).
        destruct (protect_facts e Hr Hpr) as (_ & Hpr' & _).
        destruct (failed_share s s2 A A0 A1 A2 p d j e) as (FO & FT & FP); try done; [lia|].
        split_and!; [done| | |right; split_and!; try done; exists (j + 1); split; [lia|done]].
        { eapply vm_frame_trans; [apply vm_only_frame; by eapply vm_only_trans|].
          by eapply vm_frame_cr3. }
        intros g r Hg Hr0 x Hx. rewrite (D2 g r Hg Hr0 x Hx).
        destruct (released_data _ _ _ _ _ RL Hg Hr0) as [_ Hg1]. cbn in Hg1.
        apply (grow_data_role _ _ _ _ _ G1) in Hg1; [|done].
        rewrite (D1 g r Hg1 Hr0 x Hx). by apply (D0 g r).
    + assert (j = n) as -> by lia.
      unfold share_body. rewrite (proj2 (Z.ltb_ge (4096 * n) sz)) by zlia. cbn [negb].
      apply wp_bind, wp_modify, wp_ret. exists A1. split_and!; [by apply vminv_cr3|..].
      * eapply vm_frame_trans; [apply vm_only_frame; by eapply vm_only_trans|]. by destruct s1.
      * intros g r Hg Hr x Hx. cbn [mem set_cr3].
        apply (grow_data_role _ _ _ _ _ G1) in Hg; [|done].
        rewrite (D1 g r Hg Hr x Hx). by apply (D0 g r).
      * left. exists d. split_and!; try done. by eapply forked_intro.
  - split; [|apply vm_only_refl|apply data_same_refl].
    exists A0, 0. split_and!; eauto using grow_refl; [lia|zlia|].
    intros q v. rewrite decide_False by lia. done.
  - zlia.
Qed.
End Fork.
