(* ===== verification/Fault.v ===== *)
(** * Fault: the page-fault handler and what user programs see

    The hardware walk in terms of the abstract state, isolation of user
    stores, and the copy-on-write handler [pagefault]. *)
From stdpp Require Import base gmap list numbers strings.
From Stdlib Require Import ZArith Lia ZifyBool.
From S2P Require Import Prelude Machine Cstring Kalloc Vm Frames Tables Cow Dealloc Kvm Fork.

Section Fault.
Context `{KI : KernelImage} `{KIO : !KernelImageOk}.

(** ** The hardware walk *)

Lemma mmu_spec (s : vmst) (A : avm) (p va : Z) (wr : bool) :
  rep s A -> own A !! p = Some ODir -> 0 <= va < 4294967296 ->
  mmu (mem s) p va wr =
    match maps A !! (p, vpn va) with
    | Some e => if mmu_allows e wr then Some (PTE_ADDR e + va mod 4096) else None
    | None => None
    end.
Proof.
  intros R Hp Hva. pose proof (rp_tbl _ _ R) as T. pose proof (PDX_vpn va Hva) as [_ Hpx].
  destruct (vpn_split va Hva) as (_ & Hx & _).
  pose proof (tb_pde _ _ _ T p (PDX va) Hp Hpx) as Hpde. unfold mmu.
  destruct (tab A !! (p, PDX va)) as [t|] eqn:Ht.
  - cbn in Hpde. pose proof (tab_page _ _ _ _ _ _ T Ht) as Htp.
    destruct (pde_decode t Htp) as [_ HA]. rewrite Hpde.
    assert (mmu_allows (t + 7) wr = true) as ->.
    { unfold mmu_allows. destruct Htp as (Ha & _). rewrite !testbit_aligned by zlia. by destruct wr. }
    rewrite HA. pose proof (entry_rep s A p va t R Hva Ht) as Hs.
    destruct (maps A !! (p, vpn va)) as [e|]; [cbn in Hs; by rewrite Hs|].
    assert (Hn : present (load32 (mem s) (t + 4 * PTX va)) = false) by exact Hs.
    unfold mmu_allows. unfold present in Hn. by rewrite Hn.
  - assert (Hn : present (load32 (mem s) (p + 4 * PDX va)) = false) by exact Hpde.
    destruct (maps A !! (p, vpn va)) eqn:E.
    { apply (tb_maps _ _ _ T) in E as (_ & [t E] & _). rewrite Hx in E. congruence. }
    unfold mmu_allows. unfold present in Hn. by rewrite Hn.
Qed.

(** What a user program reads at [va]. *)
Lemma user_load_spec (s : vmst) (A : avm) (p va : Z) :
  rep s A -> own A !! p = Some ODir -> 0 <= va < 4294967296 ->
  user_load (mem s) p va =
    match maps A !! (p, vpn va) with
    | Some e => if mmu_allows e false then Some (mem s (PTE_ADDR e + va mod 4096)) else None
    | None => None
    end.
Proof.
  intros R Hp Hva. unfold user_load. rewrite (mmu_spec s A) by done.
  repeat case_match; done.
Qed.

(** Two user addresses in writable pages share a byte only if they are the
    same address of the same space. *)
Lemma writable_private (s : vmst) (A : avm) (p v e q w e' : Z) :
  vminv s A -> maps A !! (p, v) = Some e -> maps A !! (q, w) = Some e' ->
  v < UVPN -> w < UVPN -> Z.testbit e 1 = true -> PTE_ADDR e' = PTE_ADDR e -> (q, w) = (p, v).
Proof.
  intros V He He' Hv Hw Hb EA. destruct (decide ((p, v) = (q, w))) as [->|Hne]; [done|].
  pose proof (refs_two _ _ _ _ _ _ _ He He' Hne Hv Hw EA).
  rewrite (cw_shared _ _ (vi_cow _ _ V) p v e He Hv Hb) in *. lia.
Qed.

Lemma page_offset (f g va va' : Z) :
  f mod 4096 = 0 -> g mod 4096 = 0 -> f + va mod 4096 = g + va' mod 4096 ->
  f = g /\ va mod 4096 = va' mod 4096.
Proof. intros. zlia. Qed.

Lemma user_store_spec (s : vmst) (A : avm) (p va b : Z) (m' : memory) :
  vminv s A -> own A !! p = Some ODir -> 0 <= va < KERNBASE ->
  user_store (mem s) p va b = Some m' ->
  vminv (set_mem m' s) A /\
  (forall q va', own A !! q = Some ODir -> 0 <= va' < KERNBASE ->
     user_load m' q va' =
     if decide (q = p /\ va' = va) then Some (u8 b) else user_load (mem s) q va').
Proof.
  intros V Hp Hva HS. pose proof V as [R L C].
  assert (Hu : vpn va < UVPN) by (unfold vpn; zlia).
  unfold user_store in HS. rewrite (mmu_spec s A) in HS by (done || zlia).
  destruct (maps A !! (p, vpn va)) as [e|] eqn:He; [|done].
  destruct (mmu_allows e true) eqn:Hal; [|done]. cbn in HS. simplify_eq.
  destruct (user_page s A p _ e V He Hu) as [Ho Hfp].
  assert (Hw : Z.testbit e 1 = true).
  { unfold mmu_allows in Hal. apply andb_prop in Hal as [_ Hal]. done. }
  assert (R' : rep (set_mem (store8 (mem s) (PTE_ADDR e + va mod 4096) b) s) A).
  { eapply rep_write; [done|apply store8_wf, R| |exact Ho|by right].
    intros x Hx. apply store8_ne. zlia. }
  split; [by split|]. intros q va' Hq Hva'.
  assert (Hu' : vpn va' < UVPN) by (unfold vpn; zlia).
  pose proof (user_load_spec _ A q va' R' Hq ltac:(zlia)) as E1. cbn [mem set_mem] in E1.
  rewrite E1. rewrite (user_load_spec s A) by (done || zlia).
  destruct (maps A !! (q, vpn va')) as [e'|] eqn:He'.
  - destruct (decide (PTE_ADDR e' + va' mod 4096 = PTE_ADDR e + va mod 4096)) as [E|E].
    + destruct (user_page s A q _ e' V He' Hu') as [_ Hfp'].
      apply page_offset in E as [EA EO]; [|apply Hfp'|apply Hfp].
      pose proof (writable_private s A p _ e q _ e' V He He' Hu Hu' Hw EA) as [= -> Ev].
      rewrite EA, EO, store8_eq, decide_True by (split; [done|unfold vpn in Ev; zlia]).
      rewrite Ev, He in He'. simplify_eq. unfold mmu_allows in *.
      apply andb_prop in Hal as [-> _]. done.
    + rewrite store8_ne by done. rewrite decide_False; [done|].
      intros [-> ->]. rewrite He in He'. by simplify_eq.
  - rewrite decide_False; [done|]. intros [-> ->]. congruence.
Qed.

(** ** A private copy of a shared page *)

Definition private_pte (g : Z) : Z := Z.lor (Z.lor (Z.lor g PTE_P) PTE_W) PTE_U.

Lemma private_pte_facts (g : Z) :
  page_ok g ->
  private_pte g = g + 7 /\ 0 <= private_pte g < 4294967296 /\
  present (private_pte g) = true /\ PTE_ADDR (private_pte g) = g /\
  mmu_allows (private_pte g) true = true.
Proof.
  intros Hg. pose proof (page_ok_bounds g Hg). destruct (pde_decode g Hg) as [_ HA].
  assert (E : private_pte g = g + 7).
  { pose proof (pde_value g Hg) as HV. by rewrite V2P_P2V_page in HV. }
  rewrite E. destruct Hg as (Ha & _). split_and!; [done|zlia|zlia|..|done|].
  - unfold present. by rewrite testbit_aligned by zlia.
  - unfold mmu_allows. by rewrite !testbit_aligned by zlia.
Qed.

(** Entry [(p, v)] moves from its shared page to the free page [g]. *)
Definition privatize (p v g : Z) (l : list Z) (A : avm) : avm :=
  set_entry (p, v) (private_pte g) (relabel g OUser (take_free g l A)).

Lemma privatize_maps (p v g : Z) (l : list Z) (A : avm) :
  page_ok g -> maps (privatize p v g l A) = <[(p, v) := private_pte g]> (maps A).
Proof.
  intros Hg. destruct (private_pte_facts g Hg) as (_ & _ & Hpr & _).
  unfold privatize, set_entry, put_entry. cbn [maps relabel take_free]. by rewrite Hpr.
Qed.

Lemma privatize_own (p v g x : Z) (l : list Z) (A : avm) :
  own (privatize p v g l A) !! x = if decide (x = g) then Some OUser else own A !! x.
Proof.
  cbn. case_decide as E; [subst; apply lookup_insert_eq|]. by rewrite !lookup_insert_ne.
Qed.

Lemma cow_privatize (rc : Z -> Z) (A : avm) (p v e g : Z) (l : list Z) :
  cow rc A -> maps A !! (p, v) = Some e -> v < UVPN ->
  page_ok (PTE_ADDR e) -> page_ok g -> own A !! g = Some OFree ->
  (2 <= refs (maps A) (PTE_ADDR e))%nat ->
  cow (rc_add g 1 (rc_add (PTE_ADDR e) (-1) rc)) (privatize p v g l A).
Proof.
  intros C Hk Hv Hf Hg Ho H2. pose proof C as [CU CR CB CS CI]. set (f := PTE_ADDR e) in *.
  destruct (private_pte_facts g Hg) as (_ & _ & _ & HA & _).
  assert (Hg0 : refs (maps A) g = 0%nat).
  { eapply unused_refs; [done|congruence]. }
  assert (Hfg : f <> g) by (intros E; rewrite E in H2; lia).
  assert (HR : forall h, (refs (maps (privatize p v g l A)) h + (if decide (h = f) then 1 else 0) =
            (if decide (h = g) then 1 else 0) + refs (maps A) h)%nat).
  { intros h. rewrite privatize_maps by done. rewrite <- insert_delete_eq.
    rewrite refs_insert by apply lookup_delete_eq. rewrite (refs_delete (maps A) _ e h Hk).
    rewrite (decide_ext (refers h (p, v, private_pte g)) (h = g))
      by (unfold refers; cbn; rewrite HA; naive_solver).
    rewrite (decide_ext (refers h (p, v, e)) (h = f)) by (unfold refers; cbn; fold f; naive_solver).
    lia. }
  assert (HL : forall q w e1, maps (privatize p v g l A) !! (q, w) = Some e1 ->
            (q = p /\ w = v /\ PTE_ADDR e1 = g) \/
            ((q, w) <> (p, v) /\ maps A !! (q, w) = Some e1)).
  { intros q w e1. rewrite privatize_maps by done.
    destruct (decide ((p, v) = (q, w))) as [[= <- <-]|Hne].
    - rewrite lookup_insert_eq. intros [= <-]. by left.
    - rewrite lookup_insert_ne by done. by right. }
  assert (HNG : forall q w e1, maps A !! (q, w) = Some e1 -> w < UVPN -> PTE_ADDR e1 <> g).
  { intros q w e1 E Hw EA. pose proof (refs_pos _ _ _ _ E Hw). rewrite EA in *. lia. }
  split.
  - intros h. rewrite privatize_own. specialize (HR h). destruct (decide (h = g)) as [->|Hh].
    + rewrite decide_False in HR by done. split; [lia|done].
    + rewrite CU. case_decide; subst; lia.
  - intros h Hh. specialize (HR h). unfold rc_add.
    assert (Ei : forall x, page_ok x -> (h / 4096 =? x / 4096) = bool_decide (h = x)).
    { intros x Hx. case_bool_decide as E; [subst; apply Z.eqb_refl|].
      apply Z.eqb_neq. intros E'. by apply E, page_index_inj. }
    rewrite !Ei, (CR h Hh) by done. repeat case_bool_decide; repeat case_decide; congruence || lia.
  - intros h. specialize (HR h). specialize (CB h). repeat case_decide; subst; lia.
  - intros q w e1 E Hw Hb. specialize (HR (PTE_ADDR e1)).
    apply HL in E as [(-> & -> & EA)|[_ E]].
    + rewrite EA in *. rewrite decide_False, decide_True in HR by done. lia.
    + rewrite (CS q w e1 E Hw Hb) in HR. rewrite (decide_False (P := _ = g)) in HR by eauto.
      destruct (decide (PTE_ADDR e1 = f)) as [EA|]; [|lia].
      pose proof (CS q w e1 E Hw Hb) as H1. rewrite EA in H1. lia.
  - intros q w w' e1 e2 E1 E2 Hw Hw' EA.
    apply HL in E1 as [(-> & -> & A1)|[N1 E1]], E2 as [(? & -> & A2)|[N2 E2]]; subst; try done.
    + destruct (HNG _ _ _ E2 Hw'). congruence.
    + destruct (HNG _ _ _ E1 Hw). congruence.
    + by eapply CI.
Qed.

(** ** The handler *)

(** The fault at page [v] of [p] is resolved: the entry is now writable and
    private, shows the same bytes, and nothing else moved. *)
Record resolved (p v e : Z) (s s' : vmst) (A A' : avm) : Prop := mkresolved {
  rs_entry : exists e', maps A' = <[(p, v) := e']> (maps A) /\ mmu_allows e' true = true /\
               (forall off, 0 <= off < 4096 ->
                  mem s' (PTE_ADDR e' + off) = mem s (PTE_ADDR e + off));
  rs_data : data_same A s s';
  rs_own : forall x r, own A !! x = Some r -> r <> OFree -> own A' !! x = Some r;
  rs_free : exists l, free A = l ++ free A' /\ (length l <= 1)%nat;
  rs_dirs : forall x, own A' !! x = Some ODir -> own A !! x = Some ODir;
}.

Lemma set_w_facts (e : Z) :
  0 <= e < 4294967296 -> present e = true -> Z.testbit e 2 = true ->
  0 <= Z.lor e PTE_W < 4294967296 /\ present (Z.lor e PTE_W) = true /\
  PTE_ADDR (Z.lor e PTE_W) = PTE_ADDR e /\ mmu_allows (Z.lor e PTE_W) true = true.
Proof.
  intros Hr Hp Hu. split_and!.
  - apply Z.lor_nonneg. zlia.
  - apply u32_bits; [|apply Z.lor_nonneg; zlia]. intros n Hn. rewrite Z.lor_spec.
    rewrite !testbit_u32_high by zlia. done.
  - unfold present in *. rewrite Z.lor_spec. by rewrite Hp.
  - unfold PTE_ADDR. rewrite Z.land_lor_distr_l.
    replace (Z.land PTE_W _) with 0 by reflexivity. by rewrite Z.lor_0_r.
  - unfold mmu_allows. unfold present in Hp. rewrite !Z.lor_spec, Hp, Hu.
    change (Z.testbit PTE_W 1) with true. by rewrite !orb_true_r.
Qed.

(** The branch of the last reference. *)
Lemma fault_last (s : vmst) (A : avm) (p va t e : Z) :
  vminv s A -> 0 <= va < KERNBASE -> tab A !! (p, PDX va) = Some t ->
  maps A !! (p, vpn va) = Some e -> Z.testbit e 2 = true ->
  refs (maps A) (PTE_ADDR e) = 1%nat ->
  let s' := set_mem (store32 (mem s) (t + 4 * PTX va) (Z.lor e PTE_W)) s in
  vminv s' (set_entry (p, vpn va) (Z.lor e PTE_W) A) /\
  resolved p (vpn va) e s s' A (set_entry (p, vpn va) (Z.lor e PTE_W) A).
Proof.
  intros V Hva Ht He Hu H1 s'. pose proof (vi_rep _ _ V) as R.
  destruct (entry_facts s A p _ e R He) as (_ & Hr & Hpr & _).
  destruct (set_w_facts e Hr Hpr Hu) as (Wr & Wp & WA & Wm).
  destruct (user_page s A p _ e V He ltac:(unfold vpn; zlia)) as [Ho Hfp].
  assert (D : data_same A s s') by (by eapply set_entry_data).
  split; [apply (vminv_flags s A p va t e); done || zlia|].
  split; [|done|done|exists []; split; [done|cbn; lia]|done].
  exists (Z.lor e PTE_W). split_and!; [cbn; unfold put_entry; by rewrite Wp|done|].
  rewrite WA. intros off Hoff. apply (D (PTE_ADDR e) OUser); [done|by right|zlia].
Qed.

(** The memory after the copy of a page to [g]. *)
Lemma copy_page_facts (m : memory) (f g : Z) :
  mem_wf m -> page_ok f -> page_ok g ->
  mem_wf (memmove m g f PGSIZE) /\ same_outside g m (memmove m g f PGSIZE) /\
  (forall off, 0 <= off < 4096 -> memmove m g f PGSIZE (g + off) = m (f + off)).
Proof.
  intros Hwf Hf Hg. assert (HS : forall x, memmove m g f PGSIZE x =
    if (g <=? x) && (x <? g + PGSIZE) then m (f + (x - g)) else m x).
  { intros x. by apply memmove_spec. }
  split_and!.
  - intros x. rewrite HS. case_match; apply Hwf.
  - intros x Hx. rewrite HS. replace (_ && _) with false; [done|]. symmetry. apply andb_false_iff. lia.
  - intros off Hoff. rewrite HS. replace (_ && _) with true; [f_equal; lia|].
    symmetry. apply andb_true_iff. zlia.
Qed.

Lemma kmemmove_page (s : vmst) (f g : Z) :
  page_ok f -> page_ok g ->
  kmemmove (P2V g) (P2V f) PGSIZE s = Ok tt (set_mem (memmove (mem s) g f PGSIZE) s).
Proof.
  intros Hf Hg. pose proof (kvalid_page f 0 PGSIZE Hf ltac:(lia) ltac:(zlia)) as Kf.
  pose proof (kvalid_page g 0 PGSIZE Hg ltac:(lia) ltac:(zlia)) as Kg.
  rewrite Z.add_0_r in Kf, Kg. unfold kmemmove. rewrite Kf, Kg. cbn [andb].
  by rewrite !V2P_P2V_page.
Qed.

(** The state after the copy to [g]. *)
Definition copied (s1 : vmst) (t va f g : Z) (rc : Z -> Z) : vmst :=
  set_mem (store32 (memmove (mem s1) g f PGSIZE) (t + 4 * PTX va) (private_pte g))
          (set_pg_refcount rc s1).

(** The branch of a shared page, once a page has been found. *)
Lemma copied_resolved (s s1 : vmst) (A : avm) (p va t e g : Z) (l : list Z) (rc : Z -> Z) :
  vminv s A -> 0 <= va < KERNBASE -> tab A !! (p, PDX va) = Some t ->
  maps A !! (p, vpn va) = Some e -> free A = g :: l ->
  rep s1 (take_free g l A) -> mem s1 = mem s ->
  rep (copied s1 t va (PTE_ADDR e) g rc) (privatize p (vpn va) g l A) /\
  resolved p (vpn va) e s (copied s1 t va (PTE_ADDR e) g rc) A (privatize p (vpn va) g l A).
Proof.
  intros V Hva Ht He Hfl R1 M1. pose proof (vi_rep _ _ V) as R.
  assert (Hgo : own A !! g = Some OFree).
  { apply (tb_free_own _ _ _ (rp_tbl _ _ R)). rewrite Hfl. left. }
  pose proof (tb_pages _ _ _ (rp_tbl _ _ R) _ _ Hgo) as Hgp.
  destruct (user_page s A p _ e V He ltac:(unfold vpn; zlia)) as [Ho Hfp].
  destruct (private_pte_facts g Hgp) as (_ & Wr & Wp & WA & Wm).
  destruct (copy_page_facts (mem s1) (PTE_ADDR e) g) as (Mwf & Mo & Mc); [apply R1|done..|].
  assert (Hk : own (take_free g l A) !! g = Some OKern) by apply lookup_insert_eq.
  set (s2 := set_mem (memmove (mem s1) g (PTE_ADDR e) PGSIZE) (set_pg_refcount rc s1)).
  assert (R2 : rep s2 (relabel g OUser (take_free g l A))).
  { eapply rep_relabel; [|exact Hk|by left|by right].
    eapply rep_write; [by apply rep_rc|done|exact Mo|exact Hk|by left]. }
  split; [apply (rep_set_entry s2 _ p va t); [done|zlia|done..]|].
  assert (D3 : forall x r, own (relabel g OUser (take_free g l A)) !! x = Some r -> data_role r ->
      same_range (mem s2) (mem (copied s1 t va (PTE_ADDR e) g rc)) x PGSIZE).
  { intros x r Hx Hr. apply (set_entry_data s2 _ p va t (private_pte g) R2 Ht x r Hx Hr). }
  split.
  - exists (private_pte g). split_and!; [by apply privatize_maps|done|]. rewrite WA.
    intros off Hoff. rewrite (D3 g OUser); [|cbn; apply lookup_insert_eq|by right|zlia].
    cbn. by rewrite Mc, M1.
  - intros x r Hx Hr y Hy. assert (x <> g) by (intros ->; rewrite Hgo in Hx; by destruct Hr; simplify_eq).
    rewrite (D3 x r); [|cbn; by rewrite !lookup_insert_ne|done|done]. rewrite <- M1. apply Mo.
    apply (pages_disjoint x g y); [|apply Hgp|done..].
    apply (tb_pages _ _ _ (rp_tbl _ _ R) _ _ Hx).
  - intros x r Hx Hr. rewrite privatize_own. rewrite decide_False; [done|congruence].
  - exists [g]. split; [by rewrite Hfl|done].
  - intros x. rewrite privatize_own. by case_decide.
Qed.

(** The entry is found and read before the reference count is looked at. *)
Lemma pagefault_entry (s : vmst) (A : avm) (p va t e : Z) :
  rep s A -> own A !! p = Some ODir -> 0 <= va < KERNBASE ->
  tab A !! (p, PDX va) = Some t -> maps A !! (p, vpn va) = Some e ->
  walkpgdir (P2V p) va false s = Ok (pte_ptr t va) s /\
  kload (pte_ptr t va) s = Ok e s /\ (pte_ptr t va =? 0) = false.
Proof.
  intros R Hp Hva Ht He. pose proof (tab_page _ _ _ _ _ _ (rp_tbl _ _ R) Ht) as Htp.
  assert (Hva' : 0 <= va < 4294967296) by zlia.
  destruct (user_entry_loaded s A p va t R Hva' Ht) as [_ EV].
  split_and!; [by eapply walk_found| |by apply entry_nonzero].
  rewrite kload_pte by done. by rewrite (EV e).
Qed.

(** The two updates of [pg_refcount] stay in the range of a [char]. *)
Lemma move_ref_counts (f g j : Z) (rc : Z -> Z) :
  f / 4096 <> g / 4096 -> rc (g / 4096) = 0 -> -127 <= rc (f / 4096) <= 127 ->
  let rc1 := fun j => if j =? f / 4096 then i8 (rc (f / 4096) - 1) else rc j in
  (if j =? g / 4096 then i8 (rc1 (g / 4096) + 1) else rc1 j) =
  rc_add g 1 (rc_add f (-1) rc) j.
Proof.
  intros Hne Hg Hf rc1. unfold rc_add, rc1.
  rewrite (proj2 (Z.eqb_neq (g / 4096) (f / 4096))), Hg by done.
  destruct (Z.eqb_spec j (g / 4096)) as [->|].
  - rewrite (proj2 (Z.eqb_neq (g / 4096) (f / 4096))), Hg by done. done.
  - destruct (Z.eqb_spec j (f / 4096)) as [->|]; [|done]. by rewrite i8_id by lia.
Qed.

(** The copy runs to its end when a page is free. *)
Lemma pagefault_copy_run (s : vmst) (A : avm) (p va t e g : Z) (l : list Z) :
  vminv s A -> tab A !! (p, PDX va) = Some t -> free A = g :: l ->
  maps A !! (p, vpn va) = Some e -> 0 <= va < KERNBASE ->
  exists s1 rc, phys_only s s1 /\ mem s1 = mem s /\ rep s1 (take_free g l A) /\
    (forall j, rc j = rc_add g 1 (rc_add (PTE_ADDR e) (-1) (pg_refcount s)) j) /\
    pagefault_copy (P2V p) (pte_ptr t va) (PTE_ADDR e) s =
    Ok false (set_cr3 (V2P (P2V p)) (copied s1 t va (PTE_ADDR e) g rc)).
Proof.
  intros V Ht Hfl He Hva. pose proof V as [R L C]. pose proof (rp_tbl _ _ R) as T.
  pose proof (tab_page _ _ _ _ _ _ T Ht) as Htp.
  destruct (user_page s A p _ e V He ltac:(unfold vpn; zlia)) as [Ho Hfp].
  pose proof (rep_kalloc s A R) as HA. rewrite Hfl in HA.
  destruct HA as (s1 & EA & R1 & P1 & M1).
  assert (Hgo : own A !! g = Some OFree) by (apply (tb_free_own _ _ _ T); rewrite Hfl; left).
  pose proof (tb_pages _ _ _ T _ _ Hgo) as Hgp.
  assert (Hne : PTE_ADDR e / 4096 <> g / 4096).
  { intros E. apply page_index_inj in E; [|done..]. congruence. }
  pose proof (cw_refs _ _ C (PTE_ADDR e) Hfp) as Hcf. pose proof (cw_bound _ _ C (PTE_ADDR e)) as Hbf.
  pose proof (cw_refs _ _ C g Hgp) as Hcg. rewrite (unused_refs _ _ g C) in Hcg by congruence.
  pose proof (phys_only_lock _ _ P1) as L1. rewrite L in L1.
  pose proof (phys_only_rc _ _ P1) as RC1. exists s1. eexists. split_and!; [done|done|done|..]; cycle 1.
  - unfold pagefault_copy, bind. rewrite EA, (proj2 (Z.eqb_neq _ _) (P2V_page_nonzero g Hgp)).
    rewrite kmemmove_page by done. unfold acquire_vm. cbn [vm_lock set_mem]. rewrite L1.
    rewrite (V2P_P2V_page g), (rc_get_page _ (PTE_ADDR e)), (rc_set_page _ (PTE_ADDR e)) by done.
    rewrite (rc_get_page _ g), (rc_set_page _ g) by done. unfold release_vm.
    cbn [vm_lock set_mem set_vm_lock set_pg_refcount]. rewrite kstore_pte by done.
    destruct s1; cbn in L1. subst. reflexivity.
  - intros j. cbn. rewrite RC1. apply move_ref_counts; congruence || lia.
Qed.

Lemma pagefault_shared (s : vmst) (A : avm) (p va t e : Z) :
  vminv s A -> own A !! p = Some ODir -> 0 <= va < KERNBASE ->
  tab A !! (p, PDX va) = Some t -> maps A !! (p, vpn va) = Some e ->
  (2 <= refs (maps A) (PTE_ADDR e))%nat ->
  wp (pagefault_copy (P2V p) (pte_ptr t va) (PTE_ADDR e))
    (fun killed s' => exists A', vminv s' A' /\
       if killed then A' = A /\ free A = [] /\ mem s' = mem s
       else resolved p (vpn va) e s s' A A') s.
Proof.
  intros V Hp Hva Ht He H2. pose proof V as [R L C]. destruct (free A) as [|g l] eqn:Hfl.
  - pose proof (rep_kalloc s A R) as HA. rewrite Hfl in HA. destruct HA as (s1 & EA & R1 & P1 & M1).
    unfold pagefault_copy. apply wp_bind. eapply wp_from_Ok; [exact EA|].
    rewrite Z.eqb_refl. apply wp_ret. exists A. split; [|done].
    split; [done|rewrite (phys_only_lock _ _ P1); apply V|].
    rewrite (phys_only_rc _ _ P1). apply V.
  - destruct (pagefault_copy_run s A p va t e g l) as (s1 & rc & P1 & M1 & R1 & Hrc & E); try done.
    eapply wp_from_Ok; [exact E|].
    destruct (copied_resolved s s1 A p va t e g l rc) as [R2 RS]; try done.
    exists (privatize p (vpn va) g l A). split; [|by destruct RS; split].
    apply vminv_cr3. split; [done|cbn; rewrite (phys_only_lock _ _ P1); apply V|].
    assert (Hgo : own A !! g = Some OFree).
    { apply (tb_free_own _ _ _ (rp_tbl _ _ R)). rewrite Hfl. left. }
    assert (HU : vpn va < UVPN) by (unfold vpn; zlia).
    destruct (user_page s A p _ e V He HU) as [_ Hfp].
    eapply cow_ext; [apply cow_privatize; try done|exact Hrc].
    by apply (tb_pages _ _ _ (rp_tbl _ _ R) _ _ Hgo).
Qed.

(** Up to the decision on the reference count the state does not change. *)
Lemma pagefault_check (s : vmst) (A : avm) (p va t e : Z) :
  vminv s A -> own A !! p = Some ODir -> 0 <= va < KERNBASE ->
  tab A !! (p, PDX va) = Some t -> maps A !! (p, vpn va) = Some e ->
  Z.testbit e 2 = true -> Z.testbit e 1 = false ->
  pagefault va (P2V p) s =
  if decide (refs (maps A) (PTE_ADDR e) = 1%nat)
  then (kstore (pte_ptr t va) (Z.lor e PTE_W) ;;; lcr3 (V2P (P2V p)) ;;; ret false) s
  else pagefault_copy (P2V p) (pte_ptr t va) (PTE_ADDR e) s.
Proof.
  intros V Hp Hva Ht He Hu Hw. pose proof V as [R L C].
  destruct (entry_facts s A p _ e R He) as (_ & _ & Hpr & _).
  destruct (pagefault_entry s A p va t e) as (E1 & E2 & E3); try done.
  assert (HU : vpn va < UVPN) by (unfold vpn; zlia).
  destruct (user_page s A p _ e V He HU) as [Ho Hfp].
  pose proof (refs_pos _ _ _ _ He HU) as H0.
  assert (ES : release_vm (set_vm_lock true s) = Ok tt s).
  { unfold release_vm. cbn. destruct s; cbn in L. by subst. }
  unfold pagefault. rewrite (proj2 (Z.leb_gt KERNBASE va)) by lia.
  unfold bind at 1. rewrite E1, E3. unfold bind at 1. rewrite E2.
  rewrite land_PTE_U, Hu, present_land, Hpr, land_PTE_W, Hw. cbn [negb].
  unfold bind at 1, acquire_vm. rewrite L. unfold bind at 1. rewrite rc_get_page by done.
  cbn [pg_refcount set_vm_lock]. rewrite (cw_refs _ _ C) by done.
  destruct (decide (refs (maps A) (PTE_ADDR e) = 1%nat)) as [->|H1].
  - change (Z.of_nat 1 =? 1) with true. unfold bind at 1. by rewrite ES.
  - rewrite (proj2 (Z.eqb_neq _ 1)), (proj2 (Z.ltb_lt 1 _)) by lia. unfold bind at 1. by rewrite ES.
Qed.

(** What [pagefault] does at an address whose entry is [e]. *)
Lemma pagefault_spec (s : vmst) (A : avm) (p va e : Z) :
  vminv s A -> own A !! p = Some ODir -> 0 <= va < KERNBASE ->
  maps A !! (p, vpn va) = Some e -> Z.testbit e 2 = true -> Z.testbit e 1 = false ->
  wp (pagefault va (P2V p)) (fun killed s' => exists A', vminv s' A' /\
    if killed then A' = A /\ free A = [] /\ mem s' = mem s
    else resolved p (vpn va) e s s' A A') s.
Proof.
  intros V Hp Hva He Hu Hw. pose proof V as [R L C].
  destruct (entry_facts s A p _ e R He) as (_ & _ & _ & t & Ht).
  destruct (vpn_split va ltac:(zlia)) as (_ & Hx & _). rewrite Hx in Ht.
  pose proof (tab_page _ _ _ _ _ _ (rp_tbl _ _ R) Ht) as Htp.
  pose proof (refs_pos _ _ _ _ He ltac:(unfold vpn; zlia)) as H0.
  unfold wp. rewrite (pagefault_check s A p va t e) by done.
  destruct (decide (refs (maps A) (PTE_ADDR e) = 1%nat)) as [H1|H1].
  - unfold bind, lcr3. rewrite kstore_pte by done.
    destruct (fault_last s A p va t e) as [V1 RS]; try done.
    eexists. split; [by apply vminv_cr3|]. by destruct RS; split.
  - eapply pagefault_shared; done || lia.
Qed.

(** ** What user programs see *)

(** The user view of the address space [q]. *)
Definition same_views (A : avm) (s s' : vmst) : Prop :=
  forall q va, own A !! q = Some ODir -> 0 <= va < KERNBASE ->
    user_load (mem s') q va = user_load (mem s) q va.

Lemma resolved_views (s s' : vmst) (A A' : avm) (p v e : Z) :
  vminv s A -> vminv s' A' -> maps A !! (p, v) = Some e -> v < UVPN ->
  Z.testbit e 2 = true -> resolved p v e s s' A A' -> same_views A s s'.
Proof.
  intros V V' He Hv Hu [(e' & HM & Hal & HC) HD HO] q va Hq Hva.
  assert (Hq' : own A' !! q = Some ODir) by (by eapply HO).
  rewrite (user_load_spec s' A'), (user_load_spec s A) by (done || apply V || apply V' || zlia).
  rewrite HM. destruct (decide ((p, v) = (q, vpn va))) as [E|E].
  - rewrite <- E, lookup_insert_eq, He.
    destruct (entry_facts s A p v e (vi_rep _ _ V) He) as (_ & _ & Hpr & _).
    unfold mmu_allows in *. unfold present in Hpr. rewrite Hpr, Hu. cbn [andb orb negb].
    apply andb_prop in Hal as [-> _]. cbn [andb]. f_equal. apply HC. zlia.
  - rewrite lookup_insert_ne by done. destruct (maps A !! (q, vpn va)) as [e1|] eqn:E1; [|done].
    case_match; [|done]. f_equal.
    destruct (user_page s A q _ e1 V E1 ltac:(unfold vpn; zlia)) as [Ho _].
    apply (HD (PTE_ADDR e1) OUser); [done|by right|zlia].
Qed.

(** A user-mode store of one byte: when the hardware refuses it, the trap
    handler runs and the instruction is executed again. *)
Definition user_try (dir va b : Z) : MV bool := fun s =>
  match user_store (mem s) dir va b with
  | Some m' => Ok true (set_mem m' s)
  | None => Ok false s
  end.

Definition user_write (dir va b : Z) : MV bool :=
  let! ok := user_try dir va b in
  if ok then ret false
  else
    let! killed := pagefault va (P2V dir) in
    if killed then ret true
    else
      let! ok := user_try dir va b in
      if ok then ret false else fault "user store".

(** The specification: address spaces are separate functions. *)
Definition spec_write (p va b : Z) (V : Z -> Z -> option Z) (q va' : Z) : option Z :=
  if decide (q = p /\ va' = va) then Some (u8 b) else V q va'.

Lemma user_write_spec (s : vmst) (A : avm) (p va b : Z) :
  vminv s A -> own A !! p = Some ODir -> 0 <= va < KERNBASE ->
  is_Some (user_load (mem s) p va) ->
  wp (user_write p va b) (fun killed s' => exists A',
    vminv s' A' /\ (forall x r, own A !! x = Some r -> r <> OFree -> own A' !! x = Some r) /\
    forall q va', own A !! q = Some ODir -> 0 <= va' < KERNBASE ->
      user_load (mem s') q va' =
      if killed then user_load (mem s) q va'
      else spec_write p va b (user_load (mem s)) q va') s.
Proof.
  intros V Hp Hva [b0 Hb]. unfold user_write. apply wp_bind. unfold user_try at 1.
  destruct (user_store (mem s) p va b) as [m'|] eqn:ES; (eapply wp_from_Ok; [rewrite ES; reflexivity|]).
  { destruct (user_store_spec s A p va b m') as [V' HV]; try done. apply wp_ret. eauto. }
  rewrite (user_load_spec s A) in Hb by (done || apply V || zlia).
  destruct (maps A !! (p, vpn va)) as [e|] eqn:He; [|done].
  destruct (mmu_allows e false) eqn:Hal; [|done].
  unfold user_store in ES. rewrite (mmu_spec s A), He in ES by (done || apply V || zlia).
  destruct (mmu_allows e true) eqn:Hal'; [done|].
  assert (Z.testbit e 2 = true /\ Z.testbit e 1 = false) as [Hu Hw].
  { unfold mmu_allows in *. destruct (Z.testbit e 0), (Z.testbit e 1), (Z.testbit e 2); done. }
  apply wp_bind. eapply wp_mono; [by apply (pagefault_spec s A p va e)|].
  intros [|] s1 (A1 & V1 & H1).
  { destruct H1 as (-> & _ & HM). apply wp_ret. exists A. rewrite HM. done. }
  pose proof (resolved_views s s1 A A1 p _ e V V1 He ltac:(unfold vpn; zlia) Hu H1) as HV1.
  destruct H1 as [(e' & HM & Ha & _) _ HO]. assert (Hp1 := HO p ODir Hp ltac:(done)).
  assert (exists m', user_store (mem s1) p va b = Some m') as [m' ES1].
  { unfold user_store. rewrite (mmu_spec s1 A1), HM, lookup_insert_eq, Ha
      by (done || apply V1 || zlia). cbn. eauto. }
  apply wp_bind. eapply wp_from_Ok; [unfold user_try; rewrite ES1; reflexivity|]. apply wp_ret.
  destruct (user_store_spec s1 A1 p va b m') as [V' HV]; try done.
  exists A1. split_and!; try done. intros q va' Hq Hva'. cbn [mem set_mem].
  rewrite HV by (done || by eapply HO). unfold spec_write. case_decide; [done|]. by apply HV1.
Qed.
End Fault.
