(* ===== verification/Sample.v ===== *)
(** * Sample: a small memory state that satisfies the invariant

    Two address spaces share one read-only page, two pages are free, two are
    kernel stacks, one is the kernel's page directory: the state of a parent and
    a child right after [fork].  The kernel image has the
    addresses of the build's [kernel.sym]. *)
From stdpp Require Import base gmap list numbers strings.
From Stdlib Require Import ZArith Lia ZifyBool.
From S2P Require Import Prelude Machine Cstring Kalloc Vm Frames Tables Cow.

#[export] Instance sample_image : KernelImage := {| kend := 0x80124e18; kdata := 0x80109000 |}.

#[export] Instance sample_image_ok : KernelImageOk.
Proof. by split; vm_compute. Qed.

Module Sample.
Definition parent : Z := 0x125000.
Definition ptab : Z := 0x126000.
Definition child : Z := 0x127000.
Definition ctab : Z := 0x128000.
Definition page : Z := 0x129000.
Definition spare : Z := 0x12a000.
Definition spare2 : Z := 0x12b000.
Definition kdir : Z := 0x12c000.
Definition stack1 : Z := 0x12d000.
Definition stack2 : Z := 0x12e000.
Definition pte : Z := page + 5.

Definition A0 : avm :=
  mkavm [spare; spare2]
    (<[parent := OKern]> (<[ptab := OKern]> (<[child := OKern]> (<[ctab := OKern]>
      (<[page := OKern]> (<[kdir := OKern]> (<[stack1 := OKern]> (<[stack2 := OKern]>
      (<[spare2 := OFree]> {[ spare := OFree ]}))))))))) ∅ ∅.
Definition A1 : avm := make_dir kdir (make_dir child (make_dir parent A0)).
Definition A2 : avm := link_tab child 0 ctab (link_tab parent 0 ptab A1).
Definition A3 : avm := set_entry (child, 0) pte (set_entry (parent, 0) pte A2).
Definition abs : avm := relabel page OUser A3.

Definition m0 : memory := store32 (fun _ => 0) spare (P2V spare2).
Definition m2 : memory := store32 (store32 m0 parent (ptab + 7)) child (ctab + 7).
Definition memory : memory := store32 (store32 m2 ptab pte) ctab pte.

Definition state : vmst :=
  mkvm memory 0 false (P2V spare) 2 false (fun j => if j =? page / 4096 then 2 else 0)
       (P2V kdir) parent (mktss 0 0 0 0).

Ltac lookups H :=
  repeat (apply lookup_insert_Some in H as [[<- ?]|[? H]]);
  try (apply lookup_singleton_Some in H as [<- ?]).

Lemma tbl_A0 : tbl m0 (P2V spare) A0.
Proof.
  assert (HP : forall f r, own A0 !! f = Some r -> page_ok f).
  { intros f r H. cbn [own A0] in H. lookups H; split_and!; by vm_compute. }
  split; cbn [free own tab maps A0]; try done.
  - apply store32_wf. intros a. lia.
  - apply NoDup_cons_2; [by rewrite list_elem_of_singleton|apply NoDup_singleton].
  - intros f. rewrite elem_of_cons, list_elem_of_singleton. split; [by intros [-> | ->]|].
    intros H. lookups H; auto; done.
  - intros p i t. rewrite lookup_empty. split; [done|]. intros H. by lookups H.
  - intros p i H. by lookups H.
Qed.

Lemma zero_page (t j : Z) : t <= spare - 4096 \/ spare + 4096 <= t -> 0 <= j < 1024 -> load32 m0 (t + 4 * j) = 0.
Proof. intros Ht Hj. unfold m0. rewrite load32_store32_ne; [done|lia]. Qed.

Lemma tbl_A1 : tbl m0 (P2V spare) A1.
Proof.
  assert (H : forall d, d <> spare -> d mod 4096 = 0 -> forall j, 0 <= j < 1024 -> load32 m0 (d + 4 * j) = 0).
  { intros d Hd Hm j Hj. apply zero_page; [|done]. unfold spare in *. zlia. }
  apply tbl_make_dir; [apply tbl_make_dir; [apply tbl_make_dir; [apply tbl_A0|done|]|done|]|done|]; by apply H.
Qed.

Lemma tbl_A2 : tbl m2 (P2V spare) A2.
Proof.
  apply (tbl_link _ _ _ child 0 ctab); try done.
  - apply (tbl_link _ _ _ parent 0 ptab); try done; [apply tbl_A1|].
    intros j Hj. by apply zero_page; [unfold spare, ptab, ctab; lia|].
  - intros j Hj. rewrite load32_store32_ne; [by apply zero_page; [unfold spare, ptab, ctab; lia|]|]. unfold parent, ctab. lia.
Qed.

Lemma tbl_A3 : tbl memory (P2V spare) A3.
Proof.
  apply (tbl_set_entry _ _ _ child 0 ctab 0 pte); try done.
  apply (tbl_set_entry _ _ _ parent 0 ptab 0 pte); try done. apply tbl_A2.
Qed.

Lemma abs_maps (p v e : Z) :
  maps abs !! (p, v) = Some e -> v = 0 /\ e = pte /\ (p = child \/ p = parent).
Proof.
  change (maps abs) with (<[(child, 0) := pte]> (<[(parent, 0) := pte]> (∅ : gmap (Z * Z) Z))).
  intros H. apply lookup_insert_Some in H as [[[= <- <-] <-]|[_ H]]; [auto|].
  apply lookup_insert_Some in H as [[[= <- <-] <-]|[_ H]]; [auto|]. by rewrite lookup_empty in H.
Qed.

Lemma abs_refs (f : Z) : refs (maps abs) f = if decide (f = page) then 2%nat else 0%nat.
Proof.
  change (maps abs) with (<[(child, 0) := pte]> (<[(parent, 0) := pte]> (∅ : gmap (Z * Z) Z))).
  rewrite refs_insert, refs_insert by done.
  unfold refs. rewrite map_filter_empty, map_size_empty.
  destruct (decide (f = page)) as [->|Hne].
  - by rewrite !decide_True.
  - rewrite !decide_False; [done|..]; intros [_ H]; apply Hne; by rewrite <- H.
Qed.

Lemma inv : vminv state abs.
Proof.
  split; [|done|].
  - eapply (rep_relabel _ _ _ OKern); [split; [done|apply tbl_A3]|done|by left|by right].
  - split.
    + intros f. rewrite abs_refs. case_decide as E; [subst; split; [lia|done]|].
      split; [|lia]. intros H. exfalso.
      cbn [own abs relabel A3 set_entry A2 link_tab A1 make_dir A0] in H. lookups H; done.
    + intros f Hf. rewrite abs_refs. cbn. case_decide as E; [subst; done|].
      destruct (Z.eqb_spec (f / 4096) (page / 4096)); [|done].
      destruct E. apply page_index_inj; [done|split_and!; by vm_compute|done].
    + intros f. rewrite abs_refs. case_decide; lia.
    + intros p v e H. apply abs_maps in H as (_ & -> & _).
      intros _ Hw. discriminate Hw.
    + intros p v v' e e' H H'. by apply abs_maps in H as (-> & _), H' as (-> & _).
Qed.

(** The same state with one free page less. *)
Definition low : avm := take_free spare [spare2] abs.
Definition low_state : vmst := set_freelist (P2V spare2) state.

Lemma low_inv : vminv low_state low.
Proof.
  destruct inv as [[Hk T] L C]. split; [split; [done|]|done|].
  - cbn [mem freelist low_state set_freelist].
    pose proof (tb_free _ _ _ T) as (_ & _ & Hrep).
    eapply tbl_take; [exact T|done|]. exact Hrep.
  - eapply cow_same; [exact C| |done]. intros f. cbn [own low take_free].
    destruct (decide (spare = f)) as [<-|Hne].
    + rewrite lookup_insert_eq. split; done.
    + by rewrite lookup_insert_ne.
Qed.
End Sample.
