(* ===== verification/Alloc.v ===== *)
(** * Alloc: growing user memory ([allocuvm])

    [allocuvm] maps fresh zeroed private pages up to the new size, or undoes
    its work; when the page for a page table is the one that is missing, it
    reports success with the page unmapped. *)
From stdpp Require Import base gmap list numbers strings.
From Stdlib Require Import ZArith Lia ZifyBool.
From S2P Require Import Prelude Machine Cstring Kalloc Vm Frames Tables Cow Dealloc Kvm Fork Fault Sample.

Section Alloc.
Context `{KI : KernelImage} `{KIO : !KernelImageOk}.

(** A first reference to a page nobody mapped. *)
Lemma cow_new (rc : Z -> Z) (A A' : avm) (p v e : Z) :
  cow rc A -> maps A !! (p, v) = None -> v < UVPN -> page_ok (PTE_ADDR e) ->
  own A !! PTE_ADDR e <> Some OUser -> maps A' = <[(p, v) := e]> (maps A) ->
  (forall f, own A' !! f = Some OUser <-> f = PTE_ADDR e \/ own A !! f = Some OUser) ->
  cow (rc_add (PTE_ADDR e) 1 rc) A'.
Proof.
  intros C Hn Hv Hp Ho HM HO. pose proof C as [CU CR CB CS CI]. set (g := PTE_ADDR e) in *.
  pose proof (unused_refs _ _ _ C Ho) as H0.
  assert (HR : forall h, refs (maps A') h = ((if decide (h = g) then 1 else 0) + refs (maps A) h)%nat).
  { intros h. rewrite HM, refs_insert by done. f_equal. apply decide_ext.
    unfold refers; cbn. fold g. naive_solver. }
  assert (HL : forall q w e1, maps A' !! (q, w) = Some e1 ->
            (q = p /\ w = v /\ e1 = e) \/ maps A !! (q, w) = Some e1).
  { intros q w e1. rewrite HM. destruct (decide ((p, v) = (q, w))) as [[= <- <-]|Hne].
    - rewrite lookup_insert_eq. intros [= <-]. by left.
    - rewrite lookup_insert_ne by done. by right. }
  assert (HG : forall q w e1, maps A !! (q, w) = Some e1 -> w < UVPN -> PTE_ADDR e1 <> g).
  { intros q w e1 E Hw EA. pose proof (refs_pos _ _ _ _ E Hw). rewrite EA in *. lia. }
  split.
  - intros h. rewrite HO, CU, HR. case_decide; [subst|]; split; try lia; naive_solver lia.
  - intros h Hh. rewrite HR. unfold rc_add. rewrite CR by done.
    destruct (decide (h = g)) as [->|Hne]; [rewrite Z.eqb_refl; lia|].
    rewrite (proj2 (Z.eqb_neq _ _)); [lia|]. intros E. by apply Hne, page_index_inj.
  - intros h. rewrite HR. specialize (CB h). case_decide; [subst; lia|lia].
  - intros q w e1 E Hw Hb. rewrite HR. apply HL in E as [(-> & -> & ->)|E].
    + fold g. rewrite decide_True by done. lia.
    + rewrite decide_False by eauto. rewrite (CS q w e1); done.
  - intros q w w' e1 e2 E1 E2 Hw Hw' EA.
    apply HL in E1 as [(-> & -> & ->)|E1], E2 as [(? & -> & ->)|E2]; subst; try done.
    + by destruct (HG _ _ _ E2 Hw').
    + by destruct (HG _ _ _ E1 Hw).
    + by eapply CI.
Qed.

Lemma user_pte (g : Z) : page_ok g -> mk_pte g (Z.lor PTE_W PTE_U) = private_pte g.
Proof.
  intros Hg. destruct (private_pte_facts g Hg) as [-> _]. pose proof (page_ok_bounds g Hg).
  destruct (mk_pte_facts g (Z.lor PTE_W PTE_U)) as [-> _]; [apply Hg|zlia|done|done].
Qed.

(** The pages [v0, j) of [p] have been added to [A]. *)
Record added (p v0 j : Z) (A A' : avm) (s' : vmst) : Prop := mkadded {
  ad_maps : forall q v, q <> p \/ v < v0 \/ j <= v -> maps A' !! (q, v) = maps A !! (q, v);
  ad_new : forall v, v0 <= v < j -> exists f, maps A' !! (p, v) = Some (private_pte f) /\
             own A !! f = Some OFree /\ own A' !! f = Some OUser /\
             (forall x, f <= x < f + 4096 -> mem s' x = 0);
  ad_own : forall x, own A' !! x = own A !! x \/
             (own A !! x = Some OFree /\
              (own A' !! x = Some OUser \/ exists i, own A' !! x = Some (OTab p i)));
  ad_tab : tab A ⊆ tab A';
  ad_other : forall q i, q <> p -> tab A' !! (q, i) = tab A !! (q, i);
}.

Lemma added_0 (p v0 : Z) (A : avm) (s : vmst) : added p v0 v0 A A s.
Proof. split; try done; [lia|auto]. Qed.

Lemma private_pte_inj (f g : Z) : page_ok f -> page_ok g -> private_pte f = private_pte g -> f = g.
Proof.
  intros Hf Hg E. destruct (private_pte_facts f Hf) as [Ef _], (private_pte_facts g Hg) as [Eg _]. lia.
Qed.

(** One more page. *)
Lemma added_step (p v0 j g : Z) (A A1 A2 : avm) (s1 s2 : vmst) :
  added p v0 j A A1 s1 -> v0 <= j -> own A1 !! g = Some OFree ->
  maps A2 = <[(p, j) := private_pte g]> (maps A1) ->
  (forall x, own A2 !! x = own A1 !! x \/
     (own A1 !! x = Some OFree /\ (x = g \/ exists i, own A2 !! x = Some (OTab p i)))) ->
  own A2 !! g = Some OUser -> tab A1 ⊆ tab A2 ->
  (forall q i, q <> p -> tab A2 !! (q, i) = tab A1 !! (q, i)) ->
  data_same A1 s1 s2 -> (forall x, g <= x < g + 4096 -> mem s2 x = 0) ->
  added p v0 (j + 1) A A2 s2.
Proof.
  intros [AM AN AO AT AX] Hj Hg HM HO Hgu HT HX HD HZ.
  assert (HgA : own A !! g = Some OFree).
  { destruct (AO g) as [<-|(E & [E'|[i E']])]; congruence. }
  split.
  - intros q v Hqv. rewrite HM, lookup_insert_ne by (intros [= -> ->]; lia). apply AM. lia.
  - intros v Hv. destruct (decide (v = j)) as [->|Hne].
    + exists g. rewrite HM, lookup_insert_eq. done.
    + destruct (AN v ltac:(lia)) as (f & E & Hf & Hu & Hz). exists f.
      rewrite HM, lookup_insert_ne by congruence. split_and!; try done.
      * destruct (HO f) as [->|[E' _]]; [done|congruence].
      * intros x Hx. rewrite (HD f OUser Hu) by (by right || zlia). by apply Hz.
  - intros x. destruct (decide (x = g)) as [->|Hx]; [right; auto|].
    destruct (HO x) as [->|(E & [?|[i E']])]; [apply AO|done|].
    right. destruct (AO x) as [E1|(E1 & [E2|[i' E2]])]; [|congruence|congruence].
    split; [congruence|eauto].
  - by transitivity (tab A1).
  - intros q i Hq. by rewrite HX, AX.
Qed.

(** The mapping of one page cannot fail: its table exists, or a page is left
    for it after the user page is taken. *)
Definition mappable (p v : Z) (A : avm) : Prop :=
  is_Some (tab A !! (p, v / 1024)) \/ (2 <= length (free A))%nat.

Record page_added (p j g : Z) (A A2 : avm) (s s' : vmst) : Prop := mkpadded {
  pa_maps : maps A2 = <[(p, j) := private_pte g]> (maps A);
  pa_own : forall x, own A2 !! x = own A !! x \/
     (own A !! x = Some OFree /\ (x = g \/ exists i, own A2 !! x = Some (OTab p i)));
  pa_new : own A !! g = Some OFree /\ own A2 !! g = Some OUser;
  pa_tab : tab A ⊆ tab A2;
  pa_other : forall q i, q <> p -> tab A2 !! (q, i) = tab A !! (q, i);
  pa_data : data_same A s s';
  pa_zero : forall x, g <= x < g + 4096 -> mem s' x = 0;
  pa_takes : takes 2 A A2;
}.

(** The abstract side of one iteration. *)
Lemma page_added_intro (p j g : Z) (l : list Z) (A A1 : avm) (s s2 s3 s' : vmst) :
  own A !! g = Some OFree -> free A = g :: l -> page_ok g ->
  (forall x r, own A !! x = Some r -> page_ok x) ->
  grow p (take_free g l A) A1 -> takes 1 (take_free g l A) A1 ->
  maps A1 = <[(p, j) := private_pte g]> (maps A) ->
  same_outside g (mem s) (mem s2) -> (forall x, g <= x < g + 4096 -> mem s2 x = 0) ->
  data_same (take_free g l A) s2 s3 -> mem s' = mem s3 ->
  page_added p j g A (relabel g OUser A1) s s'.
Proof.
  intros Hg Hfl Hgp HP G (l1 & E1 & L1) HM HS HZ HD HE.
  assert (Hne : forall x r, own A !! x = Some r -> data_role r -> x <> g).
  { intros x r Hx Hr ->. rewrite Hg in Hx. by destruct Hr; simplify_eq. }
  split; cbn [own maps tab relabel].
  - done.
  - intros x. destruct (decide (g = x)) as [<-|Hx].
    + right. rewrite lookup_insert_eq. auto.
    + rewrite lookup_insert_ne by done. pose proof (gr_own _ _ _ G x) as GO. cbn in GO.
      rewrite lookup_insert_ne in GO by done. destruct GO as [->|[? ?]]; auto.
  - by rewrite lookup_insert_eq.
  - apply (gr_sub _ _ _ G).
  - apply (gr_tab _ _ _ G).
  - intros x r Hx Hr y Hy. rewrite HE, (HD x r); [|cbn; rewrite lookup_insert_ne by
      (intros ->; by eapply Hne); done|done|done].
    apply HS. apply (pages_disjoint x g y); [|apply Hgp|by eapply Hne|done].
    by apply (HP x r).
  - intros x Hx. rewrite HE, (HD g OKern); [by apply HZ| |by left|zlia].
    cbn. apply lookup_insert_eq.
  - exists (g :: l1). cbn in E1. cbn [free relabel]. rewrite Hfl, E1. split; [done|cbn; lia].
Qed.

Lemma alloc_page (s : vmst) (A : avm) (p j oldsz newsz g : Z) (l : list Z) :
  vminv s A -> own A !! p = Some ODir -> 0 <= j < UVPN -> maps A !! (p, j) = None ->
  free A = g :: l -> mappable p j A -> 4096 * j < newsz ->
  wp (allocuvm_body (P2V p) oldsz newsz (4096 * j)) (fun r s' =>
    r = inl (4096 * (j + 1)) /\ vm_only s s' /\
    exists A2, vminv s' A2 /\ page_added p j g A A2 s s') s.
Proof.
  intros V Hp Hj Hn Hfl Hmap Hlt. pose proof V as [R L C]. pose proof (rp_tbl _ _ R) as T.
  assert (Hgo : own A !! g = Some OFree) by (apply (tb_free_own _ _ _ T); rewrite Hfl; left).
  pose proof (tb_pages _ _ _ T _ _ Hgo) as Hgp. pose proof (page_ok_bounds _ Hgp) as Hgb.
  assert (Hvj : vpn (4096 * j) = j) by (unfold vpn; zlia).
  destruct (vpn_split (4096 * j) ltac:(zlia)) as (_ & Hx & _). rewrite Hvj in Hx.
  pose proof (rep_kalloc s A R) as HA. rewrite Hfl in HA. destruct HA as (s1 & EA & R1 & P1 & M1).
  unfold allocuvm_body. rewrite (proj2 (Z.ltb_lt (4096 * j) newsz)) by done. cbn [negb].
  apply wp_bind. eapply wp_from_Ok; [exact EA|].
  rewrite (proj2 (Z.eqb_neq _ _) (P2V_page_nonzero g Hgp)), V2P_P2V_page by done.
  apply wp_bind. eapply wp_from_Ok; [by apply kmemset_page|].
  assert (Hk : own (take_free g l A) !! g = Some OKern) by apply lookup_insert_eq.
  assert (R2 : rep (set_mem (memset (mem s1) g 0 PGSIZE) s1) (take_free g l A)).
  { eapply rep_write; eauto; [|apply memset_outside|by left].
    apply memset_wf; [apply (rp_tbl _ _ R1)|zlia]. }
  apply wp_bind. eapply wp_mono.
  { apply (mappages_one _ (take_free g l A) p (4096 * j)); try done; [|zlia|zlia|apply Hgp|zlia|].
    - cbn. rewrite lookup_insert_ne; [done|congruence].
    - by rewrite Hvj. }
  rewrite Hvj, user_pte by done.
  intros r s3 (A1 & R3 & P3 & D3 & G3 & [(-> & M3 & K3)|(_ & _ & Hf & Ht)]); cycle 1.
  { exfalso. destruct Hmap as [[t Et]|Hlen].
    - rewrite Hx in Et. rewrite (lookup_weaken _ _ _ _ Et (gr_sub _ _ _ G3)) in Ht. done.
    - rewrite Hfl in Hlen. cbn in Hf. rewrite Hf in Hlen. cbn in Hlen. lia. }
  assert (L3 : vm_lock s3 = false).
  { rewrite (phys_only_lock _ _ P3). cbn. by rewrite (phys_only_lock _ _ P1). }
  assert (RC3 : pg_refcount s3 = pg_refcount s).
  { rewrite (phys_only_rc _ _ P3). cbn. by rewrite (phys_only_rc _ _ P1). }
  destruct (rc_incr_spec s3 g) as (rc & Ei & Hrc); [done|done|..].
  { rewrite RC3, (cw_refs _ _ C g Hgp), (unused_refs _ _ _ C); [lia|congruence]. }
  apply wp_bind. eapply wp_from_Ok; [exact Ei|]. apply wp_ret.
  destruct (private_pte_facts g Hgp) as (_ & _ & _ & HAg & _).
  assert (PA : page_added p j g A (relabel g OUser A1) s (set_pg_refcount rc s3)).
  { eapply (page_added_intro p j g l A A1 s (set_mem (memset (mem s1) g 0 PGSIZE) s1) s3); try done.
    - apply (tb_pages _ _ _ T).
    - rewrite <- M1. apply memset_outside.
    - intros x Hx'. cbn. rewrite memset_spec by zlia.
      replace (_ && _) with true; [done|]. symmetry. apply andb_true_iff. zlia. }
  split; [f_equal; rewrite u32_id; zlia|]. split.
  - eapply vm_only_trans; [by apply phys_vm_only|].
    eapply (vm_only_trans _ (set_mem (memset (mem s1) g 0 PGSIZE) s1)); [by destruct s1|].
    eapply vm_only_trans; [by apply phys_vm_only|]. by destruct s3.
  - exists (relabel g OUser A1). split; [|done]. split; [|done|].
    + apply rep_rc. eapply rep_relabel; [done| |by left|by right]. by eapply grow_keep.
    + eapply cow_ext; [|exact Hrc]. rewrite RC3. rewrite <- HAg at 1.
      eapply (cow_new _ A); rewrite ?HAg; try done; [lia|congruence|].
      pose proof (pa_new _ _ _ _ _ _ _ PA) as [N1 N2].
      intros f. destruct (pa_own _ _ _ _ _ _ _ PA f) as [E|(E & [->|[i E']])].
      * rewrite E. split; [by right|]. intros [->|]; [|done]. congruence.
      * split; [by left|]. intros _. apply PA.
      * rewrite E', E. split; [done|]. intros [->|?]; [congruence|done].
Qed.

Definition can_map (p v0 v1 : Z) (A : avm) : Prop :=
  (forall v, v0 <= v < v1 -> is_Some (tab A !! (p, v / 1024))) \/
  (2 * Z.to_nat (v1 - v0) <= length (free A))%nat.

(** After a failed [allocuvm] only page tables may have been added. *)
Record undone (p : Z) (A A' : avm) : Prop := mkundone {
  un_maps : maps A' = maps A;
  un_own : forall x, own A' !! x = own A !! x \/
             (own A !! x = Some OFree /\ exists i, own A' !! x = Some (OTab p i));
}.

Lemma added_undone (p v0 v1 j : Z) (s s1 s2 : vmst) (A A1 A2 : avm) :
  vminv s A -> vminv s2 A2 -> v0 <= j <= v1 ->
  (forall v, v0 <= v < v1 -> maps A !! (p, v) = None) ->
  added p v0 j A A1 s1 -> shrink p v0 v1 A1 A2 ->
  (forall v, v0 <= v < v1 -> maps A2 !! (p, v) = None) -> undone p A A2.
Proof.
  intros V V2 Hj Hfr [AM _ AO _ _] [SO _ SM] HN.
  assert (EM : maps A2 = maps A).
  { apply map_eq. intros [q v]. destruct (decide (q = p /\ v0 <= v < v1)) as [[-> Hv]|Hd].
    - by rewrite HN, Hfr.
    - destruct (SM q v) as [->|(-> & Hv & _)]; [|by destruct Hd].
      apply AM. destruct (decide (q = p)); [subst|auto]. right. lia. }
  assert (EU : forall x, own A2 !! x = Some OUser <-> own A !! x = Some OUser).
  { intros x. rewrite (cw_user _ _ (vi_cow _ _ V2)), (cw_user _ _ (vi_cow _ _ V)). by rewrite EM. }
  split; [done|]. intros x. specialize (EU x).
  destruct (AO x) as [E1|(E1 & [E2|[i E2]])]; destruct (SO x) as [F1|[F1 F2]].
  - left. congruence.
  - exfalso. rewrite F1 in E1. rewrite <- E1, F2 in EU. naive_solver.
  - exfalso. rewrite F1, E2, E1 in EU. naive_solver.
  - left. congruence.
  - right. split; [done|]. exists i. congruence.
  - congruence.
Qed.

Definition alloc_post (p oldsz newsz : Z) (s : vmst) (A : avm) (r : Z) (s' : vmst) : Prop :=
  exists A', vminv s' A' /\ vm_only s s' /\ data_same A s s' /\
    ((r = newsz /\ added p ((oldsz + 4095) / 4096) ((newsz + 4095) / 4096) A A' s' /\
      takes (2 * Z.to_nat ((newsz + 4095) / 4096 - (oldsz + 4095) / 4096)) A A') \/
     (r = 0 /\ undone p A A' /\
      (length (free A) < 2 * Z.to_nat ((newsz + 4095) / 4096 - (oldsz + 4095) / 4096))%nat)).

Lemma added_dir (p v0 j x : Z) (A A' : avm) (s : vmst) (r : owner) :
  added p v0 j A A' s -> own A !! x = Some r -> r <> OFree -> own A' !! x = Some r.
Proof. intros H Hx Hr. destruct (ad_own _ _ _ _ _ _ H x) as [->|[E _]]; congruence. Qed.

(** Out of memory at page [j]: what was added is removed again. *)
Lemma alloc_fail (s s1 : vmst) (A A1 : avm) (p oldsz newsz v0 v1 j : Z) :
  vminv s A -> vminv s1 A1 -> own A !! p = Some ODir -> 0 <= oldsz -> newsz < KERNBASE ->
  v0 = (oldsz + 4095) / 4096 -> v1 = (newsz + 4095) / 4096 -> v0 <= j < v1 ->
  (forall v, v0 <= v < v1 -> maps A !! (p, v) = None) -> is_Some (tab A !! (p, v0 / 1024)) ->
  added p v0 j A A1 s1 -> vm_only s s1 -> data_same A s s1 -> free A1 = [] ->
  takes (2 * Z.to_nat (j - v0)) A A1 ->
  wp (allocuvm_body (P2V p) oldsz newsz (4096 * j)) (fun r s' =>
    r = inr 0 /\ alloc_post p oldsz newsz s A 0 s') s1.
Proof.
  intros V V1 Hp Ho Hn E0 E1 Hj Hfr [t Ht] Ad P1 D1 Hfl K1. pose proof (vi_rep _ _ V1) as R1.
  pose proof (rep_kalloc s1 A1 R1) as HA. rewrite Hfl in HA. destruct HA as (s2 & EA & R2 & P2 & M2).
  unfold allocuvm_body. rewrite (proj2 (Z.ltb_lt (4096 * j) newsz)) by zlia. cbn [negb].
  apply wp_bind. eapply wp_from_Ok; [exact EA|]. rewrite Z.eqb_refl.
  assert (V2 : vminv s2 A1).
  { split; [done|rewrite (phys_only_lock _ _ P2); apply V1|].
    rewrite (phys_only_rc _ _ P2). apply V1. }
  apply wp_bind. eapply wp_mono.
  { apply (deallocuvm_spec s2 A1 p newsz oldsz); [done|by eapply added_dir|zlia|zlia|].
    right; left. rewrite <- E0. exists t. by eapply lookup_weaken, (ad_tab _ _ _ _ _ _ Ad). }
  rewrite <- E0, <- E1. intros _ s3 (A3 & _ & V3 & P3 & D3 & S3 & N3). apply wp_ret. split; [done|].
  pose proof (added_undone p v0 v1 j s s1 s3 A A1 A3 V V3 ltac:(lia) Hfr Ad S3 N3) as U.
  apply takes_length in K1. rewrite Hfl in K1. cbn in K1.
  exists A3. split_and!; [done| | |right; split_and!; [done|done|lia]].
  - eapply vm_only_trans; [exact P1|]. eapply vm_only_trans; [by apply phys_vm_only|done].
  - intros g r Hg Hr x Hx. assert (Hg3 : own A3 !! g = Some r).
    { destruct (un_own _ _ _ U g) as [->|[E _]]; [done|]. rewrite E in Hg. by destruct Hr; simplify_eq. }
    rewrite (D3 g r Hg3 Hr x Hx), M2. by apply (D1 g r).
Qed.

Lemma allocuvm_spec (s : vmst) (A : avm) (p oldsz newsz : Z) :
  vminv s A -> own A !! p = Some ODir -> 0 <= oldsz <= newsz -> newsz < KERNBASE ->
  (forall v, (oldsz + 4095) / 4096 <= v < (newsz + 4095) / 4096 -> maps A !! (p, v) = None) ->
  can_map p ((oldsz + 4095) / 4096) ((newsz + 4095) / 4096) A ->
  wp (allocuvm (P2V p) oldsz newsz) (alloc_post p oldsz newsz s A) s.
Proof.
  intros V Hp Ho Hn Hfr Hcan. unfold allocuvm.
  rewrite (proj2 (Z.leb_gt KERNBASE newsz)), (proj2 (Z.ltb_ge newsz oldsz)) by lia.
  rewrite PGROUNDUP_eq by zlia.
  replace (oldsz + 4095 - (oldsz + 4095) mod 4096) with (4096 * ((oldsz + 4095) / 4096)) by zlia.
  remember ((oldsz + 4095) / 4096) as v0 eqn:E0. remember ((newsz + 4095) / 4096) as v1 eqn:E1.
  eapply (wp_loop (fun a s' => exists A' j, a = 4096 * j /\ v0 <= j <= v1 /\ vminv s' A' /\
      vm_only s s' /\ data_same A s s' /\ added p v0 j A A' s' /\
      takes (2 * Z.to_nat (j - v0)) A A') (fun a => Z.to_nat (v1 - a / 4096))).
  - intros a s1 (A1 & j & -> & Hj & V1 & P1 & D1 & Ad & K1).
    destruct (decide (j < v1)) as [Hlt|Hge].
    + destruct (free A1) as [|g l] eqn:Hfl.
      * eapply wp_mono; [eapply (alloc_fail s s1 A A1 p oldsz newsz v0 v1 j); try done; [lia|lia|]|].
        { destruct Hcan as [Hc|Hc]; [apply Hc; lia|]. apply takes_length in K1. rewrite Hfl in K1.
          cbn in K1. lia. }
        by intros r s2 [-> H].
      * assert (Hmap : mappable p j A1).
        { destruct Hcan as [Hc|Hc]; [left|right].
          - destruct (Hc j ltac:(lia)) as [t Ht]. exists t.
            by eapply lookup_weaken, (ad_tab _ _ _ _ _ _ Ad).
          - apply takes_length in K1. lia. }
        eapply wp_mono.
        { apply (alloc_page s1 A1 p j oldsz newsz g l); try done; [by eapply added_dir|zlia| |zlia].
          rewrite (ad_maps _ _ _ _ _ _ Ad) by lia. apply Hfr. lia. }
        intros r s2 (-> & P2 & A2 & V2 & PA). pose proof PA as [PM PO [PN1 PN2] PT PX PD PZ PK].
        split; [|zlia]. exists A2, (j + 1). split_and!; [done|lia|lia|done|..].
        -- by eapply vm_only_trans.
        -- intros x r Hx Hr y Hy. rewrite (PD x r); [by apply (D1 x r)| |done|done].
           eapply added_dir; [exact Ad|done|]. by destruct Hr; subst.
        -- eapply (added_step p v0 j g A A1 A2 s1 s2); try done. lia.
        -- eapply takes_mono; [by eapply takes_trans|lia].
    + assert (j = v1) as -> by lia. unfold allocuvm_body.
      rewrite (proj2 (Z.ltb_ge (4096 * v1) newsz)) by zlia. apply wp_ret.
      exists A1. split_and!; try done. left. by rewrite <- E0, <- E1.
  - exists A, v0. split_and!; eauto using vm_only_refl, data_same_refl, added_0, takes_0; zlia.
  - zlia.
Qed.

(** C7. [allocuvm] grows an address space by fresh, zeroed, private, writable
    pages and nothing else changes; or, out of memory, it returns 0, with the
    user mappings as before and at most page tables kept.  It needs the page
    tables of the range to exist, or two free pages per new page; it takes at
    most two free pages per new page, and fails only when there are fewer. *)
Theorem allocuvm_grows (s : vmst) (A : avm) (p oldsz newsz : Z) :
  vminv s A -> own A !! p = Some ODir -> 0 <= oldsz <= newsz -> newsz < KERNBASE ->
  (forall v, (oldsz + 4095) / 4096 <= v < (newsz + 4095) / 4096 -> maps A !! (p, v) = None) ->
  can_map p ((oldsz + 4095) / 4096) ((newsz + 4095) / 4096) A ->
  wp (allocuvm (P2V p) oldsz newsz) (alloc_post p oldsz newsz s A) s.
Proof. apply allocuvm_spec. Qed.

(** With nothing free, no page table can appear. *)
Lemma no_free_no_table (s s' : vmst) (A A' : avm) (p i : Z) :
  rep s A -> rep s' A' -> free A = [] -> grow p A A' -> tab A !! (p, i) = None ->
  free A' = [] /\ tab A' !! (p, i) = None.
Proof.
  intros R R' Hfl G Ht.
  assert (Hno : forall x, own A !! x <> Some OFree).
  { intros x E. apply (tb_free_own _ _ _ (rp_tbl _ _ R)) in E. rewrite Hfl in E. by apply elem_of_nil in E. }
  split.
  - destruct (free A') as [|x l] eqn:E; [done|]. exfalso.
    assert (Ex : own A' !! x = Some OFree) by (apply (tb_free_own _ _ _ (rp_tbl _ _ R')); rewrite E; left).
    destruct (gr_own _ _ _ G x) as [E'|[E' _]]; apply (Hno x); congruence.
  - destruct (tab A' !! (p, i)) as [t|] eqn:E; [|done]. exfalso.
    apply (tb_tab_own _ _ _ (rp_tbl _ _ R')) in E.
    destruct (gr_own _ _ _ G t) as [E'|[E' _]]; [|by apply (Hno t)].
    rewrite E' in E. apply (tb_tab_own _ _ _ (rp_tbl _ _ R)) in E. congruence.
Qed.

(** [mappages] on a page whose table is missing, with no free page left. *)
Lemma mappages_no_table (s : vmst) (B : avm) (p j g : Z) :
  rep s B -> own B !! p = Some ODir -> 0 <= j < UVPN - 1 -> page_ok g -> maps B !! (p, j) = None ->
  tab B !! (p, PDX (4096 * j)) = None -> free B = [] ->
  wp (mappages (P2V p) (4096 * j) PGSIZE g (Z.lor PTE_W PTE_U))
     (fun _ s' => exists A1, rep s' A1 /\ phys_only s s' /\ grow p B A1 /\ maps A1 = maps B /\ free A1 = []) s.
Proof.
  intros R Hp Hj Hgp Hn Ht Hfl. assert (Hvj : vpn (4096 * j) = j) by (unfold vpn; zlia). pose proof (page_ok_bounds _ Hgp) as Hgb.
  destruct (vpn_split (4096 * j) ltac:(zlia)) as (_ & Hx & _). rewrite Hvj in Hx. eapply wp_mono.
  { apply (mappages_one _ B p (4096 * j)); try done; [zlia|zlia|apply Hgp|zlia|by rewrite Hvj]. }
  rewrite Hvj. intros r s3 (A1 & R3 & P3 & D3 & G3 & Hr).
  destruct (no_free_no_table _ s3 B A1 p (PDX (4096 * j)) R R3 Hfl G3 Ht) as [F3 T3].
  destruct Hr as [(_ & M3 & _)|(-> & M3 & _)]; [|by exists A1].
  exfalso. destruct (tb_maps _ _ _ (rp_tbl _ _ R3) p j (mk_pte g (Z.lor PTE_W PTE_U))) as (_ & [t Et] & _).
  - rewrite M3. apply lookup_insert_eq.
  - rewrite Hx in Et. congruence.
Qed.

(** The page is gone from the free list, counted once and mapped nowhere. *)
Definition lost (g : Z) (A : avm) (s' : vmst) : Prop :=
  exists A', rep s' A' /\ maps A' = maps A /\ free A' = [] /\ own A' !! g = Some OKern /\
    pg_refcount s' (g / 4096) = 1.

(** C8. When the last free page goes to user memory and the page table for it
    is missing, [allocuvm] ignores the failure of [mappages]: it returns the
    new size with the page unmapped and lost. *)
Theorem allocuvm_false_success (s : vmst) (A : avm) (p j g : Z) :
  vminv s A -> own A !! p = Some ODir -> 0 <= j < UVPN - 1 ->
  maps A !! (p, j) = None -> tab A !! (p, j / 1024) = None -> free A = [g] ->
  wp (allocuvm (P2V p) (4096 * j) (4096 * (j + 1)))
     (fun r s' => r = 4096 * (j + 1) /\ lost g A s') s.
Proof.
  intros V Hp Hj Hn Ht Hfl. pose proof V as [R L C]. pose proof (rp_tbl _ _ R) as T.
  assert (Hgo : own A !! g = Some OFree) by (apply (tb_free_own _ _ _ T); rewrite Hfl; left).
  pose proof (tb_pages _ _ _ T _ _ Hgo) as Hgp. pose proof (page_ok_bounds _ Hgp) as Hgb.
  assert (Hvj : vpn (4096 * j) = j) by (unfold vpn; zlia).
  destruct (vpn_split (4096 * j) ltac:(zlia)) as (_ & Hx & _). rewrite Hvj in Hx. rewrite Hx in Ht.
  pose proof (rep_kalloc s A R) as HA. rewrite Hfl in HA. destruct HA as (s1 & EA & R1 & P1 & M1).
  unfold allocuvm. rewrite (proj2 (Z.leb_gt KERNBASE _)), (proj2 (Z.ltb_ge _ (4096 * j))) by zlia.
  rewrite PGROUNDUP_eq by zlia.
  replace (4096 * j + 4095 - (4096 * j + 4095) mod 4096) with (4096 * j) by zlia.
  replace ((4096 * (j + 1) - 4096 * j) / PGSIZE + 1) with 2 by zlia.
  change (Z.to_nat 2) with 2%nat. cbn [loop]. apply wp_bind. unfold allocuvm_body at 1.
  rewrite (proj2 (Z.ltb_lt (4096 * j) _)) by lia. cbn [negb].
  apply wp_bind. eapply wp_from_Ok; [exact EA|].
  rewrite (proj2 (Z.eqb_neq _ _) (P2V_page_nonzero g Hgp)), V2P_P2V_page by done.
  apply wp_bind. eapply wp_from_Ok; [by apply kmemset_page|].
  assert (R2 : rep (set_mem (memset (mem s1) g 0 PGSIZE) s1) (take_free g [] A)).
  { eapply rep_write; eauto; [|apply memset_outside|apply lookup_insert_eq|by left].
    apply memset_wf; [apply (rp_tbl _ _ R1)|zlia]. }
  apply wp_bind. eapply wp_mono; [apply (mappages_no_table _ (take_free g [] A) p j g R2); try done; cbn; rewrite lookup_insert_ne; [done|congruence]|].
  intros r s3 (A1 & R3 & P3 & G3 & M3 & F3).
  assert (L3 : vm_lock s3 = false).
  { rewrite (phys_only_lock _ _ P3). cbn. by rewrite (phys_only_lock _ _ P1). }
  assert (RC3 : pg_refcount s3 (g / 4096) = 0).
  { rewrite (phys_only_rc _ _ P3). cbn. rewrite (phys_only_rc _ _ P1).
    rewrite (cw_refs _ _ C g Hgp), (unused_refs _ _ _ C); [lia|congruence]. }
  destruct (rc_incr_spec s3 g) as (rc & Ei & Hrc); [done|done|lia|].
  apply wp_bind. eapply wp_from_Ok; [exact Ei|]. apply wp_ret.
  replace (u32 (4096 * j + PGSIZE)) with (4096 * (j + 1)) by (rewrite u32_id; zlia).
  apply wp_bind. unfold allocuvm_body. rewrite Z.ltb_irrefl. apply wp_ret, wp_ret.
  split; [done|]. exists A1. split_and!; [by apply rep_rc|done|done| |].
  - eapply grow_keep; [exact G3|apply lookup_insert_eq|done].
  - cbn. rewrite Hrc. unfold rc_add. by rewrite Z.eqb_refl, RC3.
Qed.
End Alloc.

Lemma sample_can_map : can_map Sample.parent 1 2 Sample.abs.
Proof.
  left. intros v Hv. assert (v = 1) as -> by lia. by eexists.
Qed.

Lemma allocuvm_grows_witness :
  can_map Sample.parent 1 2 Sample.abs /\
  wp (allocuvm (P2V Sample.parent) 4096 8192)
     (alloc_post Sample.parent 4096 8192 Sample.state Sample.abs) Sample.state.
Proof.
  split; [exact sample_can_map|].
  apply (allocuvm_grows Sample.state Sample.abs Sample.parent 4096 8192 Sample.inv);
    [reflexivity|lia|reflexivity| |exact sample_can_map].
  intros v Hv. change (1 <= v < 2) in Hv. replace v with 1 by lia. reflexivity.
Defined.

Lemma allocuvm_false_success_witness :
  free Sample.low = [Sample.spare2] /\
  wp (allocuvm (P2V Sample.parent) (4096 * 1024) (4096 * (1024 + 1)))
     (fun r s' => r = 4096 * (1024 + 1) /\ lost Sample.spare2 Sample.low s') Sample.low_state.
Proof.
  split; [reflexivity|].
  apply (allocuvm_false_success Sample.low_state Sample.low Sample.parent 1024 Sample.spare2
           Sample.low_inv); [reflexivity|split; [discriminate|reflexivity]|reflexivity..].
Defined.
