(* ===== verification/Spaces.v ===== *)
(** * Spaces: address spaces as separate memories

    The contract of the memory subsystem: to user programs, address spaces
    behave as separate byte maps that [copyuvm] copies eagerly, although the
    pages are shared until the first write.  Also the behaviour of the fault
    handler on every other address, the bound on reference counts, and the
    concrete state that shows the hypotheses are satisfiable. *)
From stdpp Require Import base gmap list numbers strings.
From Stdlib Require Import ZArith Lia ZifyBool.
From S2P Require Import Prelude Machine Cstring Kalloc Vm Frames Tables Cow Dealloc Kvm Fork Fault Sample.

Section Spaces.
Context `{KI : KernelImage} `{KIO : !KernelImageOk}.

(** [fork] in the specification: the child starts with a copy of the
    parent's first [n] pages, and nothing else. *)
Definition spec_fork (p d n : Z) (V : Z -> Z -> option Z) (q va : Z) : option Z :=
  if decide (q = d) then (if decide (va < 4096 * n) then V p va else None) else V q va.

Lemma protect_read (e : Z) :
  0 <= e < 4294967296 -> mmu_allows (protect e) false = mmu_allows e false.
Proof.
  intros He. unfold mmu_allows, protect. rewrite !testbit_clear_bit by lia. cbn.
  by rewrite !andb_true_r.
Qed.

(** Write-protecting entries does not change what can be read. *)
Lemma load_protected (s s' : vmst) (A A' : avm) (p q va e : Z) :
  vminv s A -> vminv s' A' -> data_same A' s s' -> 0 <= va < KERNBASE ->
  own A' !! q = Some ODir -> own A !! p = Some ODir ->
  maps A !! (p, vpn va) = Some e ->
  maps A' !! (q, vpn va) = Some e \/ maps A' !! (q, vpn va) = Some (protect e) ->
  user_load (mem s') q va = user_load (mem s) p va.
Proof.
  intros V V' D Hva Hq Hp He He'. assert (HU : vpn va < UVPN) by (unfold vpn; zlia).
  rewrite (user_load_spec s A), (user_load_spec s' A') by (done || apply V || apply V' || zlia).
  destruct (entry_facts s A p _ e (vi_rep _ _ V) He) as (_ & Hr & Hpr & _).
  destruct (protect_facts e Hr Hpr) as (_ & _ & HA & _). rewrite He.
  assert (HL : exists e', maps A' !! (q, vpn va) = Some e' /\ PTE_ADDR e' = PTE_ADDR e /\
            mmu_allows e' false = mmu_allows e false).
  { destruct He' as [E|E]; eexists; (split; [exact E|]); [done|]. split; [done|by apply protect_read]. }
  destruct HL as (e' & E & EA & EM). rewrite E, EA, EM.
  destruct (user_page s' A' q _ e' V' E HU) as [Ho _]. rewrite EA in Ho.
  case_match; [|done]. f_equal. apply (D _ _ Ho); [by right|zlia].
Qed.

Lemma load_unmapped (s : vmst) (A : avm) (p va : Z) :
  vminv s A -> own A !! p = Some ODir -> 0 <= va < KERNBASE ->
  maps A !! (p, vpn va) = None -> user_load (mem s) p va = None.
Proof. intros V Hp Hva Hn. by rewrite (user_load_spec s A), Hn by (done || apply V || zlia). Qed.

Lemma protected_views (s s' : vmst) (A A' : avm) (p k : Z) :
  vminv s A -> vminv s' A' -> data_same A' s s' -> own A' = own A ->
  protected p k (maps A) (maps A') -> same_views A s s'.
Proof.
  intros V V' D HO HP q va Hq Hva. assert (Hq' : own A' !! q = Some ODir) by (by rewrite HO).
  destruct (maps A !! (q, vpn va)) as [e|] eqn:E.
  - eapply (load_protected s s' A A' q q va e); eauto. rewrite HP, E. case_decide; auto.
  - rewrite (load_unmapped s A), (load_unmapped s' A'); try done.
    rewrite HP, E. by case_decide.
Qed.

Lemma forked_views (s s' : vmst) (A A' : avm) (p d n q va : Z) :
  vminv s A -> vminv s' A' -> data_same A' s s' -> own A !! p = Some ODir ->
  forked p d n A A' -> n <= UVPN -> d <> p ->
  q = d \/ own A !! q = Some ODir -> 0 <= va < KERNBASE ->
  user_load (mem s') q va = spec_fork p d n (user_load (mem s)) q va.
Proof.
  intros V V' D Hp [FF FD FO FM] Hn Hdp Hq Hva.
  assert (HU : 0 <= vpn va < UVPN) by (unfold vpn; zlia).
  assert (Hlt : va < 4096 * n <-> vpn va < n) by (unfold vpn; zlia).
  unfold spec_fork. destruct (decide (q = d)) as [->|Hqd].
  - destruct (decide (va < 4096 * n)) as [H1|H1].
    + assert (EM : maps A' !! (d, vpn va) = protect <$> maps A !! (p, vpn va)).
      { rewrite FM, decide_True; [done|]. split; [by right|lia]. }
      destruct (maps A !! (p, vpn va)) as [e|] eqn:E.
      * eapply (load_protected s s' A A' p d va e); eauto.
      * by rewrite (load_unmapped s A), (load_unmapped s' A').
    + rewrite (load_unmapped s' A'); try done. rewrite FM, decide_False by lia.
      rewrite decide_True by done. apply kent_user. lia.
  - destruct Hq as [?|Hq]; [done|].
    assert (Hq' : own A' !! q = Some ODir).
    { destruct (FO q Hqd) as [->|[E _]]; congruence. }
    destruct (maps A !! (q, vpn va)) as [e|] eqn:E.
    + eapply (load_protected s s' A A' q q va e); eauto. rewrite FM.
      case_decide as Hc.
      * destruct Hc as [[-> | ->] _]; [|done]. rewrite E. by right.
      * rewrite decide_False by done. by left.
    + rewrite (load_unmapped s A), (load_unmapped s' A'); try done. rewrite FM.
      case_decide as Hc.
      * destruct Hc as [[-> | ->] _]; [|done]. by rewrite E.
      * by rewrite decide_False.
Qed.

(** ** [copyuvm] *)

Definition fork_post (p sz : Z) (s : vmst) (A : avm) (r : Z) (s' : vmst) : Prop :=
  exists A', vminv s' A' /\
    ((exists d, r = P2V d /\ own A !! d = Some OFree /\ own A' !! d = Some ODir /\
        forall q va, q = d \/ own A !! q = Some ODir -> 0 <= va < KERNBASE ->
          user_load (mem s') q va =
          spec_fork p d ((sz + 4095) / 4096) (user_load (mem s)) q va) \/
     (r = 0 /\ own A' = own A /\ tab A' = tab A /\ same_views A s s')).

(** C1. [copyuvm] refines an eager copy of the address space.  From any
    state that satisfies the invariant, when the parent's pages below [sz]
    are mapped and there are at most 126 address spaces, it returns (no
    panic, no stray access, no endless loop); either a new directory whose
    user memory reads byte for byte as the parent's did, with every other
    space reading as before, or 0 with no page leaked and no view changed.
    The invariant holds again in both cases. *)
Theorem copyuvm_refines (s : vmst) (A : avm) (p sz : Z) :
  vminv s A -> forkable p sz A ->
  wp (copyuvm (P2V p) sz) (fork_post p sz s A) s.
Proof.
  intros V F. eapply wp_mono; [by apply share_uvm_spec|].
  pose proof (fo_sz _ _ _ F) as Hsz. pose proof (fo_dir _ _ _ F) as Hp.
  intros r s' (A' & V' & _ & D & [(d & -> & Hdp & Fk)|(-> & EO & ET & k & Hk & HP)]); exists A'.
  - split; [done|]. left. exists d. split_and!; [done|apply Fk|apply Fk|].
    intros q va Hq Hva. eapply forked_views; eauto. zlia.
  - split; [done|]. right. split_and!; try done. by eapply protected_views.
Qed.

(** ** A user store *)

Definition write_post (p va b : Z) (s : vmst) (A : avm) (killed : bool) (s' : vmst) : Prop :=
  exists A', vminv s' A' /\
    (forall x r, own A !! x = Some r -> r <> OFree -> own A' !! x = Some r) /\
    forall q va', own A !! q = Some ODir -> 0 <= va' < KERNBASE ->
      user_load (mem s') q va' =
      if killed then user_load (mem s) q va'
      else spec_write p va b (user_load (mem s)) q va'.

(** C2. A store to readable user memory, with the fault handler run when the
    page is write-protected, changes exactly that byte of exactly that
    address space (or, with no memory left for the copy, kills the process
    and changes nothing anybody can read), and keeps the invariant. *)
Theorem user_write_refines (s : vmst) (A : avm) (p va b : Z) :
  vminv s A -> own A !! p = Some ODir -> 0 <= va < KERNBASE ->
  is_Some (user_load (mem s) p va) ->
  wp (user_write p va b) (write_post p va b s A) s.
Proof. apply user_write_spec. Qed.

(** ** Release of an address space *)

Definition free_post (p : Z) (s : vmst) (A : avm) (s' : vmst) : Prop :=
  exists A', vminv s' A' /\ own A' !! p = Some OFree /\
    (forall x i, own A !! x = Some (OTab p i) -> own A' !! x = Some OFree) /\
    (forall x, own A !! x = Some OUser ->
       (forall q v e, maps A !! (q, v) = Some e -> v < UVPN -> PTE_ADDR e = x -> q = p) ->
       own A' !! x = Some OFree) /\
    (forall q va, own A !! q = Some ODir -> q <> p -> 0 <= va < KERNBASE ->
       own A' !! q = Some ODir /\ user_load (mem s') q va = user_load (mem s) q va).

(** C3. [freevm] gives back the directory, its page tables and every user
    page no other space maps, and no other space can tell. *)
Theorem freevm_releases (s : vmst) (A : avm) (p : Z) :
  vminv s A -> own A !! p = Some ODir ->
  wp (freevm (P2V p)) (fun _ s' => free_post p s A s') s.
Proof.
  intros V Hp. eapply wp_mono; [by apply freevm_spec|].
  intros _ s' (A' & V' & _ & D & RL). pose proof RL as [RD RT RO RTs RM].
  exists A'. split_and!; try done.
  - intros x Hx Hq. destruct (RO x) as [E|[_ E]]; [congruence|intros; congruence| |done].
    exfalso. rewrite Hx in E. apply (cw_user _ _ (vi_cow _ _ V')) in E.
    apply refs_nonzero in E as (q & v & e & E & Hv & EA). rewrite RM in E.
    case_decide as Hqp; [done|]. by destruct Hqp; eapply Hq.
  - intros q va Hq Hne Hva. assert (Hq' : own A' !! q = Some ODir).
    { destruct (RO q Hne) as [->|[E _]]; congruence || (intros; congruence). }
    split; [done|]. destruct (maps A !! (q, vpn va)) as [e|] eqn:E.
    + eapply (load_protected s s' A A' q q va e); eauto. left. by rewrite RM, decide_False.
    + rewrite (load_unmapped s A), (load_unmapped s' A'); try done. by rewrite RM, decide_False.
Qed.

(** ** The fault handler on every other address *)

(** The faults the handler refuses: a kernel address, an unmapped page, a
    page without user permission. *)
Definition refused (A : avm) (p va : Z) : Prop :=
  KERNBASE <= va \/
  match maps A !! (p, vpn va) with Some e => Z.testbit e 2 = false | None => True end.

Lemma pagefault_other_spec (s : vmst) (A : avm) (p va : Z) :
  vminv s A -> own A !! p = Some ODir -> 0 <= va < 4294967296 ->
  (refused A p va -> pagefault va (P2V p) s = Ok true s) /\
  (forall e, va < KERNBASE -> maps A !! (p, vpn va) = Some e -> Z.testbit e 2 = true ->
     Z.testbit e 1 = true ->
     pagefault va (P2V p) s = Panic "Unknown page fault due to a writable pte").
Proof.
  intros V Hp Hva. pose proof (vi_rep _ _ V) as R. destruct (vpn_split va Hva) as (_ & Hx & _).
  unfold pagefault. destruct (Z.leb_spec KERNBASE va) as [Hk|Hk]; [split; [done|lia]|].
  destruct (tab A !! (p, PDX va)) as [t|] eqn:Ht.
  - pose proof (tab_page _ _ _ _ _ _ (rp_tbl _ _ R) Ht) as Htp.
    destruct (user_entry_loaded s A p va t R Hva Ht) as [EP EV].
    unfold bind. rewrite (walk_found s A p va t false R Hp Hva Ht), entry_nonzero, kload_pte by done.
    rewrite land_PTE_U, land_PTE_W, EP. unfold refused. split.
    + intros [?|Hm]; [lia|]. destruct (maps A !! (p, vpn va)) as [e|]; [|by destruct (Z.testbit _ 2)].
      by rewrite (EV e), Hm.
    + intros e _ He Hu Hw. rewrite (EV e He), Hu, Hw, He. done.
  - unfold bind. rewrite (walk_absent s A p va R Hp Hva Ht), Z.eqb_refl. split; [done|].
    intros e _ He. apply (tb_maps _ _ _ (rp_tbl _ _ R)) in He as (_ & [t He] & _).
    rewrite Hx in He. congruence.
Qed.

(** C4. Every page fault that is not a write to a copy-on-write page is
    answered by killing the process, with no change of state; a fault on
    a writable user page is the "unknown page fault" panic. *)
Theorem pagefault_other (s : vmst) (A : avm) (p va : Z) :
  vminv s A -> own A !! p = Some ODir -> 0 <= va < 4294967296 ->
  (refused A p va -> pagefault va (P2V p) s = Ok true s) /\
  (forall e, va < KERNBASE -> maps A !! (p, vpn va) = Some e -> Z.testbit e 2 = true ->
     Z.testbit e 1 = true ->
     pagefault va (P2V p) s = Panic "Unknown page fault due to a writable pte").
Proof. apply pagefault_other_spec. Qed.

(** ** [deallocuvm] and [setupkvm] *)

Definition dealloc_post (p oldsz newsz : Z) (s : vmst) (A : avm) (r : Z) (s' : vmst) : Prop :=
  exists A', r = newsz /\ vminv s' A' /\ data_same A' s s' /\
    forall q v, maps A' !! (q, v) =
      if decide (q = p /\ (newsz + 4095) / 4096 <= v < (oldsz + 4095) / 4096)
      then None else maps A !! (q, v).

(** [deallocuvm] unmaps exactly the pages between the two sizes, drops
    one reference for each, frees those nobody else maps, and touches no
    other page. *)
Theorem deallocuvm_unmaps (s : vmst) (A : avm) (p oldsz newsz : Z) :
  vminv s A -> own A !! p = Some ODir -> 0 <= newsz < oldsz -> oldsz <= KERNBASE ->
  dealloc_ok A p ((newsz + 4095) / 4096) ((oldsz + 4095) / 4096) ->
  wp (deallocuvm (P2V p) oldsz newsz) (dealloc_post p oldsz newsz s A) s.
Proof.
  intros V Hp Hn Ho Hok. eapply wp_mono; [by apply deallocuvm_spec|].
  intros r s' (A' & -> & V' & _ & D & S & HN). exists A'. split_and!; try done.
  intros q v. case_decide as Hc; [destruct Hc as [-> Hv]; by apply HN|].
  destruct (sh_maps _ _ _ _ _ S q v) as [?|(? & ? & _)]; [done|]. by destruct Hc.
Qed.

Definition setup_post (s : vmst) (A : avm) (r : Z) (s' : vmst) : Prop :=
  exists A', vminv s' A' /\ data_same A' s s' /\
    ((exists f, r = P2V f /\ own A !! f = Some OFree /\ own A' !! f = Some ODir /\
        forall q v, maps A' !! (q, v) = if decide (q = f) then kent kmap v else maps A !! (q, v)) \/
     (r = 0 /\ own A' = own A /\ tab A' = tab A /\ maps A' = maps A)).

(** [setupkvm] returns a directory that maps exactly the ranges of
    [kmap], or 0 with every page it took given back. *)
Theorem setupkvm_maps (s : vmst) (A : avm) :
  vminv s A -> wp setupkvm (setup_post s A) s.
Proof.
  intros V. eapply wp_mono; [by apply setupkvm_spec|].
  intros r s' (A' & V' & _ & D & [(f & -> & ND)|(-> & E)]); exists A'; split_and!; try done.
  - left. exists f. split_and!; [done|apply ND..].
  - right. by destruct E as (? & ? & ?).
Qed.
End Spaces.

(** ** The hypotheses hold in the state of [Sample] *)

Lemma sample_forkable : forkable Sample.parent 4096 Sample.abs.
Proof.
  split; [done|by vm_compute| |by vm_compute; lia].
  intros v Hv. assert (v = 0) as -> by (change ((4096 + 4095) / 4096) with 1 in Hv; lia).
  by eexists.
Qed.

Lemma sample_readable : is_Some (user_load (mem Sample.state) Sample.parent 0).
Proof.
  rewrite (user_load_spec _ Sample.abs); [|apply Sample.inv|done|done].
  by eexists.
Qed.

Lemma copyuvm_refines_witness :
  forkable Sample.parent 4096 Sample.abs /\
  wp (copyuvm (P2V Sample.parent) 4096)
     (fork_post Sample.parent 4096 Sample.state Sample.abs) Sample.state.
Proof.
  split; [exact sample_forkable|].
  apply (copyuvm_refines Sample.state Sample.abs Sample.parent 4096 Sample.inv sample_forkable).
Defined.

Lemma user_write_refines_witness :
  is_Some (user_load (mem Sample.state) Sample.parent 0) /\
  wp (user_write Sample.parent 0 42)
     (write_post Sample.parent 0 42 Sample.state Sample.abs) Sample.state.
Proof.
  split; [exact sample_readable|].
  apply (user_write_refines Sample.state Sample.abs Sample.parent 0 42 Sample.inv);
    [reflexivity|split; [discriminate|reflexivity]|exact sample_readable].
Defined.

Lemma freevm_releases_witness :
  own Sample.abs !! Sample.child = Some ODir /\
  wp (freevm (P2V Sample.child))
     (fun _ s' => free_post Sample.child Sample.state Sample.abs s') Sample.state.
Proof.
  split; [reflexivity|].
  apply (freevm_releases Sample.state Sample.abs Sample.child Sample.inv). reflexivity.
Defined.

Lemma pagefault_other_witness :
  pagefault KERNBASE (P2V Sample.parent) Sample.state = Ok true Sample.state.
Proof.
  destruct (pagefault_other Sample.state Sample.abs Sample.parent KERNBASE Sample.inv) as [H _];
    [reflexivity|split; [discriminate|reflexivity]|].
  apply H. left. discriminate.
Defined.

Lemma deallocuvm_unmaps_witness :
  dealloc_ok Sample.abs Sample.parent 0 1 /\
  wp (deallocuvm (P2V Sample.parent) 4096 0)
     (dealloc_post Sample.parent 4096 0 Sample.state Sample.abs) Sample.state.
Proof.
  split; [left; reflexivity|].
  apply (deallocuvm_unmaps Sample.state Sample.abs Sample.parent 4096 0 Sample.inv);
    [reflexivity|lia|discriminate|left; reflexivity].
Defined.

Lemma setupkvm_maps_witness :
  vminv Sample.state Sample.abs /\
  wp setupkvm (setup_post Sample.state Sample.abs) Sample.state.
Proof.
  split; [exact Sample.inv|]. apply (setupkvm_maps Sample.state Sample.abs Sample.inv).
Defined.
