(* ===== verification/Race.v ===== *)
(** * Race: two page faults on the same shared page

    [pagefault] releases [lock] between reading the reference count and
    decrementing it.  Two processes that fault on a page they share may both
    read 2 and both copy: the count drops to 0 without the page being freed. *)
From stdpp Require Import base gmap list numbers strings.
From Stdlib Require Import ZArith Lia ZifyBool.
From S2P Require Import Prelude Machine Cstring Kalloc Vm Frames Tables Cow Dealloc Kvm Fork Fault Sample.

Section Race.
Context `{KI : KernelImage} `{KIO : !KernelImageOk}.

(** [f] is in no page table, has no references and is not on the free
    list. *)
Definition leaked (f : Z) (s : vmst) : Prop :=
  exists A, rep s A /\ pg_refcount s (f / 4096) = 0 /\ f ∉ free A /\
    forall q v e, maps A !! (q, v) = Some e -> v < UVPN -> PTE_ADDR e <> f.

(** The state in which two entries, [e] and [e'], share a page. *)
Record two_sharers (A : avm) (p va e q va' e' : Z) : Prop := mksharers {
  ts_p : own A !! p = Some ODir /\ 0 <= va < KERNBASE /\ maps A !! (p, vpn va) = Some e;
  ts_q : own A !! q = Some ODir /\ 0 <= va' < KERNBASE /\ maps A !! (q, vpn va') = Some e';
  ts_ne : (p, vpn va) <> (q, vpn va');
  ts_page : PTE_ADDR e' = PTE_ADDR e /\ refs (maps A) (PTE_ADDR e) = 2%nat;
  ts_flags : Z.testbit e 2 = true /\ Z.testbit e 1 = false /\
             Z.testbit e' 2 = true /\ Z.testbit e' 1 = false;
  ts_free : (2 <= length (free A))%nat;
}.

(** Once [q]'s fault is resolved, [p] is the only user of the page. *)
Lemma last_sharer (s s1 : vmst) (A A1 : avm) (p va e q va' e' : Z) :
  vminv s1 A1 -> two_sharers A p va e q va' e' -> resolved q (vpn va') e' s s1 A A1 ->
  maps A1 !! (p, vpn va) = Some e /\ refs (maps A1) (PTE_ADDR e) = 1%nat /\
  exists g l, free A1 = g :: l.
Proof.
  intros V1 [(Hp & Hva & He) (Hq & Hva' & He') Hne [EA H2] _ Hfr].
  intros [(e1 & HM & Hal & _) _ HO (l & Hl & Hll)].
  assert (HU : vpn va < UVPN) by (unfold vpn; zlia).
  assert (HU' : vpn va' < UVPN) by (unfold vpn; zlia).
  assert (He1 : maps A1 !! (p, vpn va) = Some e) by (rewrite HM, lookup_insert_ne; done).
  assert (Hq1 : maps A1 !! (q, vpn va') = Some e1) by (rewrite HM; apply lookup_insert_eq).
  assert (Hw : Z.testbit e1 1 = true).
  { unfold mmu_allows in Hal. by apply andb_prop in Hal as [_ ?]. }
  pose proof (cw_shared _ _ (vi_cow _ _ V1) _ _ _ Hq1 HU' Hw) as H1.
  assert (EN : PTE_ADDR e1 <> PTE_ADDR e).
  { intros E. pose proof (refs_two _ _ _ _ _ _ _ He1 Hq1 Hne HU HU' E). rewrite E in H1. lia. }
  split_and!; [done| |].
  - rewrite (refs_delete _ _ _ (PTE_ADDR e) He') in H2. rewrite decide_True in H2 by done.
    rewrite HM, <- insert_delete_eq, refs_insert by apply lookup_delete_eq.
    rewrite decide_False; [lia|]. by intros [_ ?].
  - destruct (free A1) as [|g l']; [|eauto]. rewrite app_nil_r in Hl. rewrite <- Hl in Hll. lia.
Qed.

(** C6. Two page faults can interleave so that a page is lost.  In any state
    where exactly two entries share a page and two pages are free, [p]'s
    handler reads a count above 1 and goes on to copy; if [q]'s handler
    runs to its end at that point, [p]'s copy leaves the page with count 0,
    unmapped, and not on the free list. *)
Theorem concurrent_faults_leak (s : vmst) (A : avm) (p va e q va' e' t : Z) :
  vminv s A -> two_sharers A p va e q va' e' -> tab A !! (p, PDX va) = Some t ->
  pagefault va (P2V p) s = pagefault_copy (P2V p) (pte_ptr t va) (PTE_ADDR e) s /\
  wp (pagefault va' (P2V q) ;;; pagefault_copy (P2V p) (pte_ptr t va) (PTE_ADDR e))
     (fun killed s' => killed = false /\ leaked (PTE_ADDR e) s') s.
Proof.
  intros V TS Ht. pose proof TS as [(Hp & Hva & He) (Hq & Hva' & He') Hne [EA H2] (U & W & U' & W') Hfr].
  split.
  { rewrite (pagefault_check s A p va t e) by done. rewrite H2. done. }
  apply wp_bind. eapply wp_mono; [by apply (pagefault_spec s A q va' e')|].
  intros [|] s1 (A1 & V1 & H1).
  { destruct H1 as (_ & Hnil & _). rewrite Hnil in Hfr. cbn in Hfr. lia. }
  destruct (last_sharer s s1 A A1 p va e q va' e' V1 TS H1) as (He1 & HR1 & g & l & Hfl).
  assert (Ht1 : tab A1 !! (p, PDX va) = Some t).
  { apply (tb_tab_own _ _ _ (rp_tbl _ _ (vi_rep _ _ V1))).
    apply (tb_tab_own _ _ _ (rp_tbl _ _ (vi_rep _ _ V))) in Ht.
    by apply (rs_own _ _ _ _ _ _ _ H1). }
  destruct (pagefault_copy_run s1 A1 p va t e g l) as (s2 & rc & P2 & M2 & R2 & Hrc & E); try done.
  eapply wp_from_Ok; [exact E|]. split; [done|].
  destruct (copied_resolved s1 s2 A1 p va t e g l rc) as [R3 _]; try done.
  assert (Hg : own A1 !! g = Some OFree).
  { apply (tb_free_own _ _ _ (rp_tbl _ _ (vi_rep _ _ V1))). rewrite Hfl. left. }
  pose proof (tb_pages _ _ _ (rp_tbl _ _ (vi_rep _ _ V1)) _ _ Hg) as Hgp.
  assert (HU : vpn va < UVPN) by (unfold vpn; zlia).
  destruct (user_page s1 A1 p _ e V1 He1 HU) as [Ho Hfp].
  assert (Hgf : PTE_ADDR e <> g) by congruence.
  exists (privatize p (vpn va) g l A1). split_and!.
  - destruct R3 as [Hk T]. by split.
  - cbn. rewrite Hrc. unfold rc_add. rewrite Z.eqb_refl.
    rewrite (proj2 (Z.eqb_neq _ _)) by (intros E'; by apply Hgf, page_index_inj).
    rewrite (cw_refs _ _ (vi_cow _ _ V1)), HR1 by done. done.
  - rewrite (tb_free_own _ _ _ (rp_tbl _ _ R3)), privatize_own, decide_False by done. congruence.
  - intros q0 v e0. rewrite privatize_maps by done. destruct (private_pte_facts g Hgp) as (_ & _ & _ & HA & _).
    destruct (decide ((p, vpn va) = (q0, v))) as [<-|Hk].
    + rewrite lookup_insert_eq. intros [= <-] _. congruence.
    + rewrite lookup_insert_ne by done. intros E0 Hv EA0.
      pose proof (refs_two _ _ _ _ _ _ _ He1 E0 Hk HU Hv EA0). lia.
Qed.
End Race.

Lemma sample_sharers :
  two_sharers Sample.abs Sample.parent 0 Sample.pte Sample.child 0 Sample.pte.
Proof.
  split; [done..|split; [done|]|done|cbn; lia].
  rewrite Sample.abs_refs. by rewrite decide_True.
Qed.

Lemma concurrent_faults_leak_witness :
  two_sharers Sample.abs Sample.parent 0 Sample.pte Sample.child 0 Sample.pte /\
  wp (pagefault 0 (P2V Sample.child) ;;;
      pagefault_copy (P2V Sample.parent) (pte_ptr Sample.ptab 0) (PTE_ADDR Sample.pte))
     (fun killed s' => killed = false /\ leaked (PTE_ADDR Sample.pte) s') Sample.state.
Proof.
  split; [exact sample_sharers|].
  apply (concurrent_faults_leak Sample.state Sample.abs Sample.parent 0 Sample.pte
           Sample.child 0 Sample.pte Sample.ptab Sample.inv sample_sharers).
  reflexivity.
Defined.
