(* ===== verification/Ptable.v ===== *)
(** * Ptable: the process table ([proc.h], [proc.c])

    The data of a process, the searches and updates of the table, and the
    three schedulers with the rule that combines them. *)
From stdpp Require Import base gmap list numbers strings.
From Stdlib Require Import ZArith Lia ZifyBool.
From S2P Require Import Prelude Machine.

(** ** Data *)

(** [struct trapframe] of [x86.h], without the padding. *)
Record trapframe := mktf {
  edi : Z;
  esi : Z;
  ebp : Z;
  oesp : Z;
  ebx : Z;
  edx : Z;
  ecx : Z;
  eax : Z;
  gs : Z;
  fs : Z;
  es : Z;
  ds : Z;
  trapno : Z;
  err : Z;
  eip : Z;
  cs : Z;
  eflags : Z;
  esp : Z;
  ss : Z;
}.

Definition set_eax (x : Z) (r : trapframe) : trapframe :=
  mktf (edi r) (esi r) (ebp r) (oesp r) (ebx r) (edx r) (ecx r) x (gs r) (fs r) (es r) (ds r)
    (trapno r) (err r) (eip r) (cs r) (eflags r) (esp r) (ss r).
Definition set_eip (x : Z) (r : trapframe) : trapframe :=
  mktf (edi r) (esi r) (ebp r) (oesp r) (ebx r) (edx r) (ecx r) (eax r) (gs r) (fs r) (es r)
    (ds r) (trapno r) (err r) x (cs r) (eflags r) (esp r) (ss r).
Definition set_esp (x : Z) (r : trapframe) : trapframe :=
  mktf (edi r) (esi r) (ebp r) (oesp r) (ebx r) (edx r) (ecx r) (eax r) (gs r) (fs r) (es r)
    (ds r) (trapno r) (err r) (eip r) (cs r) (eflags r) x (ss r).

(** [struct context]. *)
Record cpu_context := mkcontext { c_edi : Z; c_esi : Z; c_ebx : Z; c_ebp : Z; c_eip : Z }.

(** [enum procstate] *)
Inductive procstate := UNUSED | EMBRYO | SLEEPING | RUNNABLE | RUNNING | ZOMBIE.

#[export] Instance procstate_eq_dec : EqDecision procstate.
Proof. solve_decision. Defined.

(** The value of a state as an [int]. *)
Definition state_num (s : procstate) : Z :=
  match s with
  | UNUSED => 0 | EMBRYO => 1 | SLEEPING => 2 | RUNNABLE => 3 | RUNNING => 4 | ZOMBIE => 5
  end.

(** [enum schedAlgorithms] of [defs.h] *)
Definition PRIORITY : Z := 0.
Definition SJF : Z := 1.
Definition LOTTERY : Z := 2.

(** [struct proc].  Pointers are addresses, 0 when null; [name] is the text before
    the terminating 0. *)
Record proc := mkproc {
  sz : Z;
  pgdir : Z;
  kstack : Z;
  state : procstate;
  pid : Z;
  parent : Z;
  tf : trapframe;
  context : cpu_context;
  chan : Z;
  killed : Z;
  ofile : list Z;
  cwd : Z;
  name : string;
  lottery_ticket : Z;
  schedQueue : Z;
  priority : Z;
  burst_time : Z;
  creation_time : Z;
  process_count : Z;
}.

Definition set_sz (x : Z) (r : proc) : proc :=
  mkproc x (pgdir r) (kstack r) (state r) (pid r) (parent r) (tf r) (context r) (chan r)
    (killed r) (ofile r) (cwd r) (name r) (lottery_ticket r) (schedQueue r) (priority r)
    (burst_time r) (creation_time r) (process_count r).
Definition set_pgdir (x : Z) (r : proc) : proc :=
  mkproc (sz r) x (kstack r) (state r) (pid r) (parent r) (tf r) (context r) (chan r) (killed
    r) (ofile r) (cwd r) (name r) (lottery_ticket r) (schedQueue r) (priority r) (burst_time
    r) (creation_time r) (process_count r).
Definition set_kstack (x : Z) (r : proc) : proc :=
  mkproc (sz r) (pgdir r) x (state r) (pid r) (parent r) (tf r) (context r) (chan r) (killed
    r) (ofile r) (cwd r) (name r) (lottery_ticket r) (schedQueue r) (priority r) (burst_time
    r) (creation_time r) (process_count r).
Definition set_state (x : procstate) (r : proc) : proc :=
  mkproc (sz r) (pgdir r) (kstack r) x (pid r) (parent r) (tf r) (context r) (chan r) (killed
    r) (ofile r) (cwd r) (name r) (lottery_ticket r) (schedQueue r) (priority r) (burst_time
    r) (creation_time r) (process_count r).
Definition set_pid (x : Z) (r : proc) : proc :=
  mkproc (sz r) (pgdir r) (kstack r) (state r) x (parent r) (tf r) (context r) (chan r)
    (killed r) (ofile r) (cwd r) (name r) (lottery_ticket r) (schedQueue r) (priority r)
    (burst_time r) (creation_time r) (process_count r).
Definition set_parent (x : Z) (r : proc) : proc :=
  mkproc (sz r) (pgdir r) (kstack r) (state r) (pid r) x (tf r) (context r) (chan r) (killed
    r) (ofile r) (cwd r) (name r) (lottery_ticket r) (schedQueue r) (priority r) (burst_time
    r) (creation_time r) (process_count r).
Definition set_tf (x : trapframe) (r : proc) : proc :=
  mkproc (sz r) (pgdir r) (kstack r) (state r) (pid r) (parent r) x (context r) (chan r)
    (killed r) (ofile r) (cwd r) (name r) (lottery_ticket r) (schedQueue r) (priority r)
    (burst_time r) (creation_time r) (process_count r).
Definition set_context (x : cpu_context) (r : proc) : proc :=
  mkproc (sz r) (pgdir r) (kstack r) (state r) (pid r) (parent r) (tf r) x (chan r) (killed r)
    (ofile r) (cwd r) (name r) (lottery_ticket r) (schedQueue r) (priority r) (burst_time r)
    (creation_time r) (process_count r).
Definition set_chan (x : Z) (r : proc) : proc :=
  mkproc (sz r) (pgdir r) (kstack r) (state r) (pid r) (parent r) (tf r) (context r) x (killed
    r) (ofile r) (cwd r) (name r) (lottery_ticket r) (schedQueue r) (priority r) (burst_time
    r) (creation_time r) (process_count r).
Definition set_killed (x : Z) (r : proc) : proc :=
  mkproc (sz r) (pgdir r) (kstack r) (state r) (pid r) (parent r) (tf r) (context r) (chan r)
    x (ofile r) (cwd r) (name r) (lottery_ticket r) (schedQueue r) (priority r) (burst_time
    r) (creation_time r) (process_count r).
Definition set_ofile (x : list Z) (r : proc) : proc :=
  mkproc (sz r) (pgdir r) (kstack r) (state r) (pid r) (parent r) (tf r) (context r) (chan r)
    (killed r) x (cwd r) (name r) (lottery_ticket r) (schedQueue r) (priority r) (burst_time
    r) (creation_time r) (process_count r).
Definition set_cwd (x : Z) (r : proc) : proc :=
  mkproc (sz r) (pgdir r) (kstack r) (state r) (pid r) (parent r) (tf r) (context r) (chan r)
    (killed r) (ofile r) x (name r) (lottery_ticket r) (schedQueue r) (priority r)
    (burst_time r) (creation_time r) (process_count r).
Definition set_name (x : string) (r : proc) : proc :=
  mkproc (sz r) (pgdir r) (kstack r) (state r) (pid r) (parent r) (tf r) (context r) (chan r)
    (killed r) (ofile r) (cwd r) x (lottery_ticket r) (schedQueue r) (priority r)
    (burst_time r) (creation_time r) (process_count r).
Definition set_lottery_ticket (x : Z) (r : proc) : proc :=
  mkproc (sz r) (pgdir r) (kstack r) (state r) (pid r) (parent r) (tf r) (context r) (chan r)
    (killed r) (ofile r) (cwd r) (name r) x (schedQueue r) (priority r) (burst_time r)
    (creation_time r) (process_count r).
Definition set_schedQueue (x : Z) (r : proc) : proc :=
  mkproc (sz r) (pgdir r) (kstack r) (state r) (pid r) (parent r) (tf r) (context r) (chan r)
    (killed r) (ofile r) (cwd r) (name r) (lottery_ticket r) x (priority r) (burst_time r)
    (creation_time r) (process_count r).
Definition set_priority (x : Z) (r : proc) : proc :=
  mkproc (sz r) (pgdir r) (kstack r) (state r) (pid r) (parent r) (tf r) (context r) (chan r)
    (killed r) (ofile r) (cwd r) (name r) (lottery_ticket r) (schedQueue r) x (burst_time r)
    (creation_time r) (process_count r).
Definition set_burst_time (x : Z) (r : proc) : proc :=
  mkproc (sz r) (pgdir r) (kstack r) (state r) (pid r) (parent r) (tf r) (context r) (chan r)
    (killed r) (ofile r) (cwd r) (name r) (lottery_ticket r) (schedQueue r) (priority r) x
    (creation_time r) (process_count r).
Definition set_creation_time (x : Z) (r : proc) : proc :=
  mkproc (sz r) (pgdir r) (kstack r) (state r) (pid r) (parent r) (tf r) (context r) (chan r)
    (killed r) (ofile r) (cwd r) (name r) (lottery_ticket r) (schedQueue r) (priority r)
    (burst_time r) x (process_count r).
Definition set_process_count (x : Z) (r : proc) : proc :=
  mkproc (sz r) (pgdir r) (kstack r) (state r) (pid r) (parent r) (tf r) (context r) (chan r)
    (killed r) (ofile r) (cwd r) (name r) (lottery_ticket r) (schedQueue r) (priority r)
    (burst_time r) (creation_time r) x.

(** A zeroed slot: the initial contents of the table. *)
Definition tf_zero : trapframe := mktf 0 0 0 0 0 0 0 0 0 0 0 0 0 0 0 0 0 0 0.
Definition context_zero : cpu_context := mkcontext 0 0 0 0 0.
Definition proc_zero : proc :=
  mkproc 0 0 0 UNUSED 0 0 tf_zero context_zero 0 0 (replicate 16 0) 0 EmptyString 0 0 0 0 0 0.

(** The addresses of the table and of [forkret]; the address of slot [i], with
    [sizeof(struct proc)]. *)
Class ProcTable := { ptable_proc : Z; forkret : Z }.
Class ProcTableOk `{ProcTable} : Prop := { ptable_high : 2147483648 <= ptable_proc < 4294967296 - 64 * 148 }.
Definition PROCSIZE : Z := 148.
Definition proc_ptr `{ProcTable} (i : nat) : Z := ptable_proc + PROCSIZE * Z.of_nat i.

(** ** The schedulers *)

Definition eligible (queue : Z) (p : proc) : bool :=
  bool_decide (state p = RUNNABLE) && (schedQueue p =? queue).

(** [generate_random]: unsigned arithmetic on [ticks], and a division by the
    converted argument; [None] is the divide fault. *)
Definition generate_random (ticks toMod : Z) : option Z :=
  let x := u32 (12345678 + u32 (u32 (u32 (ticks * ticks) * ticks) * ticks)) in
  if u32 toMod =? 0 then None else Some (i32 (x mod u32 toMod)).

(** First loop of [lotterySched]. *)
Fixpoint sum_lotteries (sum : Z) (ps : list proc) : Z :=
  match ps with
  | [] => sum
  | p :: ps =>
      sum_lotteries (if eligible LOTTERY p then i32 (sum + lottery_ticket p) else sum) ps
  end.

(** Second loop: [i] is the index of the head of [ps]. *)
Fixpoint lottery_pick (i : nat) (random_ticket isLotterySelected : Z)
    (highLottery_ticket : option nat) (ps : list proc) : option nat :=
  match ps with
  | [] => if negb (isLotterySelected =? 0) then highLottery_ticket else None
  | p :: ps =>
      if negb (eligible LOTTERY p)
      then lottery_pick (S i) random_ticket isLotterySelected highLottery_ticket ps
      else
        let r := i32 (random_ticket - lottery_ticket p) in
        let '(h, sel) := if isLotterySelected =? 0 then (Some i, 1)
                         else (highLottery_ticket, isLotterySelected) in
        let '(h, sel) := if (r <=? 0) && (sel =? 1) then (Some i, 2) else (h, sel) in
        lottery_pick (S i) r sel h ps
  end.

Definition lotterySched (ticks : Z) (ps : list proc) : option (option nat) :=
  match generate_random ticks (sum_lotteries 1 ps) with
  | None => None
  | Some r => Some (lottery_pick 0 r 0 None ps)
  end.

(** The loop of [prioritySched] and [SJFSched], which differ in the queue
    and in the field compared. *)
Fixpoint least_pick (queue : Z) (key : proc -> Z) (i : nat) (best : option (nat * Z))
    (ps : list proc) : option nat :=
  match ps with
  | [] => fst <$> best
  | p :: ps =>
      if negb (eligible queue p) then least_pick queue key (S i) best ps
      else
        let '(h, k) := match best with None => (i, key p) | Some b => b end in
        least_pick queue key (S i) (Some (if key p <? k then (i, key p) else (h, k))) ps
  end.

Definition prioritySched (ps : list proc) : option nat := least_pick PRIORITY priority 0 None ps.
Definition SJFSched (ps : list proc) : option nat := least_pick SJF burst_time 0 None ps.

(** The choice made by [scheduler]. *)
Definition sched_choice (ticks : Z) (ps : list proc) : option (option nat) :=
  match lotterySched ticks ps with
  | None => None
  | Some (Some i) => Some (Some i)
  | Some None =>
      match SJFSched ps with
      | Some i => Some (Some i)
      | None => Some (prioritySched ps)
      end
  end.

(** ** Searching and updating the table *)

(** [f] applied to the first process with the given pid. *)
Fixpoint update_pid (f : proc -> proc) (pid0 : Z) (ps : list proc) : list proc :=
  match ps with
  | [] => []
  | p :: ps => if pid0 =? pid p then f p :: ps else p :: update_pid f pid0 ps
  end.

Definition find_and_set_priority (x pid0 : Z) : list proc -> list proc :=
  update_pid (set_priority x) pid0.
Definition find_and_set_lottery_ticket (x pid0 : Z) : list proc -> list proc :=
  update_pid (set_lottery_ticket x) pid0.
Definition find_and_set_sched_queue (x pid0 : Z) : list proc -> list proc :=
  update_pid (set_schedQueue x) pid0.
Definition find_and_set_burst_time (x pid0 : Z) : list proc -> list proc :=
  update_pid (set_burst_time x) pid0.

Definition wakeup1_one (ch : Z) (p : proc) : proc :=
  if bool_decide (state p = SLEEPING) && (chan p =? ch) then set_state RUNNABLE p else p.

Definition wakeup1 (ch : Z) (ps : list proc) : list proc := wakeup1_one ch <$> ps.

Definition kill_one (p : proc) : proc :=
  let p := set_killed 1 p in
  if bool_decide (state p = SLEEPING) then set_state RUNNABLE p else p.

(** The loop of [kill]: the new table and the value returned. *)
Definition kill_loop (pid0 : Z) (ps : list proc) : list proc * Z :=
  (update_pid kill_one pid0 ps, if existsb (fun p => pid p =? pid0) ps then 0 else -1).

(** ** Text for the process listings *)

Definition print_state (n : Z) : string :=
  if n =? 0 then "UNUSED" else if n =? 1 then "EMBRYO" else if n =? 2 then "SLEEPING"
  else if n =? 3 then "RUNNABLE" else if n =? 4 then "RUNNING" else if n =? 5 then "ZOMBIE"
  else EmptyString.

Definition find_queue_name (queue : Z) : string :=
  if queue =? 1 then "PRIORITY" else if queue =? 2 then "SJF"
  else if queue =? 3 then "LOTTERY" else EmptyString.

Definition int_size (i : Z) : Z :=
  if 1000000000 <=? i then 10 else if 100000000 <=? i then 9 else if 10000000 <=? i then 8
  else if 1000000 <=? i then 7 else if 100000 <=? i then 6 else if 10000 <=? i then 5
  else if 1000 <=? i then 4 else if 100 <=? i then 3 else if 10 <=? i then 2 else 1.
