(* ===== verification/Sched.v ===== *)
(** * Sched: what the schedulers choose

    The lottery gives each process as many winning numbers as it has tickets,
    and the first of its queue one more; the two other schedulers choose the least key; the combined rule
    runs a process of the three queues whenever one is runnable. *)
From stdpp Require Import base gmap list numbers strings.
From Stdlib Require Import ZArith Lia ZifyBool.
From S2P Require Import Prelude Machine Ptable.

(** ** The lottery *)

Definition tickets (p : proc) : Z := if eligible LOTTERY p then lottery_ticket p else 0.

Fixpoint total (ps : list proc) : Z :=
  match ps with [] => 0 | p :: ps => tickets p + total ps end.

(** Tickets are not negative and their sum fits an [int]. *)
Definition tickets_ok (ps : list proc) : Prop :=
  Forall (fun p => 0 <= tickets p) ps /\ 1 + total ps < 2147483648.

Lemma total_nonneg (ps : list proc) : Forall (fun p => 0 <= tickets p) ps -> 0 <= total ps.
Proof. induction 1; cbn; lia. Qed.

Lemma sum_lotteries_total (ps : list proc) (acc : Z) :
  Forall (fun p => 0 <= tickets p) ps -> 0 <= acc -> acc + total ps < 2147483648 ->
  sum_lotteries acc ps = acc + total ps.
Proof.
  intros H. revert acc. induction H as [|p ps Hp Hps IH]; intros acc Ha Hs; cbn in *; [lia|].
  pose proof (total_nonneg ps Hps). unfold tickets in *. destruct (eligible LOTTERY p).
  - rewrite i32_id by lia. rewrite IH; lia.
  - rewrite IH; lia.
Qed.

(** The process that holds number [r], the head of the list being slot [i]. *)
Fixpoint winner (i : nat) (r : Z) (ps : list proc) : option nat :=
  match ps with
  | [] => None
  | p :: ps =>
      if eligible LOTTERY p then
        if r <=? lottery_ticket p then Some i else winner (S i) (r - lottery_ticket p) ps
      else winner (S i) r ps
  end.

Lemma lottery_pick_done (ps : list proc) (i : nat) (r : Z) (h : option nat) :
  lottery_pick i r 2 h ps = h.
Proof.
  revert i r. induction ps as [|p ps IH]; intros i r; cbn; [done|].
  destruct (eligible LOTTERY p); cbn; [|apply IH]. rewrite andb_false_r. apply IH.
Qed.

Lemma lottery_pick_winner (ps : list proc) (i : nat) (r sel : Z) (h : option nat) :
  Forall (fun p => 0 <= tickets p) ps -> total ps < 2147483648 -> 0 <= r < 2147483648 ->
  sel = 0 \/ sel = 1 -> is_Some (winner i r ps) -> lottery_pick i r sel h ps = winner i r ps.
Proof.
  intros H. revert i r sel h. induction H as [|p ps Hp Hps IH]; intros i r sel h Ht Hr Hsel Hw; cbn in *.
  { by destruct Hw. }
  pose proof (total_nonneg ps Hps) as H0. unfold tickets in *.
  destruct (eligible LOTTERY p); cbn; [|apply IH; try done; lia].
  rewrite i32_id by lia. destruct (Z.leb_spec r (lottery_ticket p)).
  - rewrite (proj2 (Z.leb_le (r - lottery_ticket p) 0)) by lia.
    destruct Hsel as [-> | ->]; cbn; apply lottery_pick_done.
  - rewrite (proj2 (Z.leb_gt (r - lottery_ticket p) 0)) by lia.
    destruct Hsel as [-> | ->]; cbn; apply IH; auto; lia.
Qed.

Lemma winner_exists (ps : list proc) (i : nat) (r : Z) :
  Forall (fun p => 0 <= tickets p) ps -> 0 <= r <= total ps ->
  existsb (eligible LOTTERY) ps = true -> is_Some (winner i r ps).
Proof.
  intros H. revert i r. induction H as [|p ps Hp Hps IH]; intros i r Hr He; cbn in *; [done|].
  unfold tickets in Hr, Hp. destruct (eligible LOTTERY p) eqn:Ep; cbn in *.
  - destruct (Z.leb_spec r (lottery_ticket p)); [eauto|].
    apply IH; [lia|]. apply existsb_exists. clear IH.
    destruct (existsb (eligible LOTTERY) ps) eqn:E; [by apply existsb_exists in E|].
    exfalso. assert (total ps = 0); [|lia]. clear -E. induction ps as [|q ps IH]; cbn in *; [done|].
    apply orb_false_elim in E as [E1 E2]. unfold tickets. rewrite E1, IH by done. done.
  - apply IH; [lia|done].
Qed.

Lemma winner_ge (ps : list proc) (i k : nat) (r : Z) : winner i r ps = Some k -> (i <= k)%nat.
Proof.
  revert i r. induction ps as [|q ps IH]; intros i r; cbn; [done|].
  repeat case_match; [intros [= <-]; lia|..]; intros E%IH; lia.
Qed.

Lemma winner_eligible (ps : list proc) (i j : nat) (r : Z) :
  winner i r ps = Some j ->
  exists k p, j = (i + k)%nat /\ ps !! k = Some p /\ eligible LOTTERY p = true.
Proof.
  revert i r. induction ps as [|p ps IH]; intros i r; cbn; [done|].
  destruct (eligible LOTTERY p) eqn:E; [destruct (r <=? lottery_ticket p)|].
  - intros [= <-]. exists 0%nat, p. split_and!; [lia|done|done].
  - intros (k & q & -> & Hk & Hq)%IH. exists (S k), q. split_and!; [lia|done|done].
  - intros (k & q & -> & Hk & Hq)%IH. exists (S k), q. split_and!; [lia|done|done].
Qed.

(** Tickets held by the slots before [j]. *)
Definition before (j : nat) (ps : list proc) : Z := total (take j ps).

(** The numbers of slot [j] are the [lottery_ticket] values after those of
    the earlier slots. *)
Lemma winner_interval (ps : list proc) (i j : nat) (r : Z) (p : proc) :
  Forall (fun p => 0 <= tickets p) ps -> 1 <= r -> ps !! j = Some p ->
  winner i r ps = Some (i + j)%nat <->
  eligible LOTTERY p = true /\ before j ps < r <= before j ps + lottery_ticket p.
Proof.
  intros H. revert i j r. induction H as [|q ps Hq Hps IH]; intros i j r Hr Hj; [done|].
  unfold before in *. destruct j as [|j]; cbn in *.
  - simplify_eq. rewrite Nat.add_0_r.
    assert (Hne : forall r', winner (S i) r' ps <> Some i).
    { intros r' E. apply winner_ge in E. lia. }
    destruct (eligible LOTTERY p); [|split; [by intros ?%Hne|by intros [? _]]].
    destruct (Z.leb_spec r (lottery_ticket p)).
    + split; [intros _; split; [done|lia]|done].
    + split; [by intros ?%Hne|lia].
  - replace (i + S j)%nat with (S i + j)%nat by lia. unfold tickets in *.
    assert (0 <= total (take j ps)) by (by apply total_nonneg, Forall_take).
    destruct (eligible LOTTERY q).
    + destruct (Z.leb_spec r (lottery_ticket q)).
      * split; [intros [=]; lia|lia].
      * rewrite IH by (done || lia). lia.
    + rewrite IH by (done || lia). lia.
Qed.

Lemma filter_ext_in {X} (P Q : X -> Prop) `{!forall x, Decision (P x)} `{!forall x, Decision (Q x)}
    (l : list X) :
  (forall x, x ∈ l -> P x <-> Q x) -> filter P l = filter Q l.
Proof.
  induction l as [|x l IH]; intros Hl; [done|]. rewrite !filter_cons.
  rewrite (decide_ext (P x) (Q x)) by (apply Hl; left).
  rewrite IH by (intros y Hy; apply Hl; by right). done.
Qed.

Lemma count_interval (a b n : Z) :
  0 <= a <= b -> b <= n ->
  length (filter (fun r => a < r <= b) (seqZ 1 n)) = Z.to_nat (b - a).
Proof.
  intros Hab Hbn. replace n with (a + ((b - a) + (n - b))) by lia.
  rewrite (seqZ_app 1 a), (seqZ_app (1 + a) (b - a)), !filter_app, !length_app by lia.
  assert (E : forall m k, (forall r, m <= r < m + k -> ~ (a < r <= b)) ->
            length (filter (fun r => a < r <= b) (seqZ m k)) = 0%nat).
  { intros m k H. rewrite (filter_ext_in _ (fun _ => False)).
    - induction (seqZ m k); done.
    - intros r Hr. apply elem_of_seqZ in Hr. split; [by apply H|done]. }
  rewrite (E 1 a), (E (1 + a + (b - a)) (n - b)) by (intros; lia). rewrite (filter_ext_in _ (fun _ => True)).
  - replace (filter _ (seqZ (1 + a) (b - a))) with (seqZ (1 + a) (b - a)).
    + rewrite length_seqZ. lia.
    + induction (seqZ (1 + a) (b - a)) as [|x l IH]; [done|]. rewrite filter_cons, decide_True by done.
      by rewrite <- IH.
  - intros r Hr. apply elem_of_seqZ in Hr. split; [done|lia].
Qed.

Lemma before_bound (ps : list proc) (j : nat) (p : proc) :
  Forall (fun p => 0 <= tickets p) ps -> ps !! j = Some p ->
  0 <= before j ps /\ before j ps + tickets p <= total ps.
Proof.
  intros H Hj. unfold before.
  assert (E : forall l1 l2, total (l1 ++ l2) = total l1 + total l2).
  { intros l1 l2. induction l1; cbn; lia. }
  split; [by apply total_nonneg, Forall_take|].
  rewrite <- (take_drop_middle ps j p Hj) at 2. rewrite E. cbn.
  assert (0 <= total (drop (S j) ps)) by (by apply total_nonneg, Forall_drop). lia.
Qed.

(** The number drawn at a given time. *)
Definition draw (ticks n : Z) : Z :=
  u32 (12345678 + u32 (u32 (u32 (ticks * ticks) * ticks) * ticks)) mod n.

Lemma draw_bound (ticks : Z) (ps : list proc) :
  Forall (fun p => 0 <= tickets p) ps -> 0 <= draw ticks (1 + total ps) <= total ps.
Proof.
  intros Hf. pose proof (total_nonneg ps Hf). unfold draw.
  pose proof (Z.mod_pos_bound
    (u32 (12345678 + u32 (u32 (u32 (ticks * ticks) * ticks) * ticks))) (1 + total ps)). lia.
Qed.

(** The process the second loop of [lotterySched] ends with when the number
    drawn is [r]. *)
Definition drawn (r : Z) (ps : list proc) : option nat := lottery_pick 0 r 0 None ps.

Lemma lotterySched_drawn (ticks : Z) (ps : list proc) :
  tickets_ok ps -> lotterySched ticks ps = Some (drawn (draw ticks (1 + total ps)) ps).
Proof.
  intros [Hf Hs]. pose proof (total_nonneg ps Hf). pose proof (draw_bound ticks ps Hf).
  unfold lotterySched, generate_random. rewrite sum_lotteries_total by (done || lia).
  rewrite (u32_id (1 + total ps)) by lia. rewrite (proj2 (Z.eqb_neq _ _)) by lia.
  fold (draw ticks (1 + total ps)). by rewrite i32_id by lia.
Qed.

Lemma drawn_winner (ps : list proc) (r : Z) :
  tickets_ok ps -> existsb (eligible LOTTERY) ps = true -> 0 <= r <= total ps ->
  drawn r ps = winner 0 r ps /\ is_Some (winner 0 r ps).
Proof.
  intros [Hf Hs] He Hr. assert (Hx : is_Some (winner 0 r ps)) by (by apply winner_exists).
  split; [|done]. apply lottery_pick_winner; auto; lia.
Qed.

(** Number 0 belongs to the first eligible process. *)
Lemma winner_zero (ps : list proc) (i j : nat) (p : proc) :
  Forall (fun p => 0 <= tickets p) ps -> ps !! j = Some p -> eligible LOTTERY p = true ->
  winner i 0 ps = Some (i + j)%nat <-> existsb (eligible LOTTERY) (take j ps) = false.
Proof.
  intros H. revert i j. induction H as [|q ps Hq Hps IH]; intros i j Hj He; [done|].
  destruct j as [|j]; cbn in *; simplify_eq.
  - unfold tickets in Hq. rewrite He in Hq |- *.
    rewrite (proj2 (Z.leb_le _ _)) by lia. by rewrite Nat.add_0_r.
  - unfold tickets in Hq. destruct (eligible LOTTERY q); cbn.
    + rewrite (proj2 (Z.leb_le _ _)) by lia. split; [intros [=]; lia|done].
    + replace (i + S j)%nat with (S i + j)%nat by lia. by apply IH.
Qed.

(** The numbers 1 .. total: as many as tickets. *)
Lemma winner_count (ps : list proc) (j : nat) (p : proc) :
  Forall (fun p => 0 <= tickets p) ps -> ps !! j = Some p -> eligible LOTTERY p = true ->
  length (filter (fun r => winner 0 r ps = Some j) (seqZ 1 (total ps))) = Z.to_nat (lottery_ticket p).
Proof.
  intros Hf Hj He. destruct (before_bound ps j p Hf Hj) as [B0 B1]. unfold tickets in B1. rewrite He in B1.
  assert (Ht : 0 <= lottery_ticket p).
  { pose proof (proj1 (Forall_lookup _ _) Hf j p Hj) as Ht. cbn in Ht. unfold tickets in Ht. by rewrite He in Ht. }
  rewrite (filter_ext_in _ (fun r => before j ps < r <= before j ps + lottery_ticket p)).
  - rewrite count_interval by lia. f_equal. lia.
  - intros r Hr. apply elem_of_seqZ in Hr.
    rewrite (winner_interval ps 0 j r p Hf ltac:(lia) Hj). naive_solver.
Qed.

(** C13. What the lottery gives each process.  When the tickets of the runnable
    processes of the queue are not negative and one more than their sum fits
    an [int], the number drawn is one of 0 .. total, the process returned is
    the one the second loop ends with for that number, and of these total + 1
    numbers exactly as many end with a process as it has tickets, and one
    more, number 0, for the first process of the queue in the table: that one
    is favoured by one number. *)
Theorem lottery_fair (ps : list proc) (j : nat) (p : proc) :
  tickets_ok ps -> ps !! j = Some p -> eligible LOTTERY p = true ->
  (forall ticks, 0 <= draw ticks (1 + total ps) <= total ps /\
     lotterySched ticks ps = Some (drawn (draw ticks (1 + total ps)) ps)) /\
  (forall r, 0 <= r <= total ps -> exists k q,
     drawn r ps = Some k /\ ps !! k = Some q /\ eligible LOTTERY q = true) /\
  length (filter (fun r => drawn r ps = Some j) (seqZ 0 (1 + total ps))) =
  (Z.to_nat (lottery_ticket p) + if existsb (eligible LOTTERY) (take j ps) then 0 else 1)%nat.
Proof.
  intros Hok Hj He. pose proof Hok as [Hf Hs]. pose proof (total_nonneg ps Hf) as H0.
  assert (Hex : existsb (eligible LOTTERY) ps = true).
  { apply existsb_exists. exists p. split; [|done].
    apply list_elem_of_In. by eapply list_elem_of_lookup_2. }
  split_and!.
  - intros ticks. split; [by apply draw_bound|by apply lotterySched_drawn].
  - intros r Hr. destruct (drawn_winner ps r Hok Hex Hr) as [-> [k Hk]].
    destruct (winner_eligible ps 0 k r Hk) as (k' & q & -> & Hq & Hel). eauto.
  - rewrite (filter_ext_in _ (fun r => winner 0 r ps = Some j)).
    2:{ intros r Hr. apply elem_of_seqZ in Hr. by rewrite (proj1 (drawn_winner ps r Hok Hex ltac:(lia))). }
    rewrite (seqZ_app 0 1), filter_app, length_app, Z.add_0_l by lia.
    rewrite (winner_count ps j p) by done. rewrite Nat.add_comm. f_equal.
    change (seqZ 0 1) with [0]. rewrite filter_cons.
    pose proof (winner_zero ps 0 j p Hf Hj He) as Hz. cbn [Nat.add] in Hz.
    destruct (existsb (eligible LOTTERY) (take j ps)).
    + by rewrite decide_False by (rewrite Hz; done).
    + by rewrite decide_True by (by rewrite Hz).
Qed.

(** ** Least key *)

(** [j] is the first slot of the queue with the least key. *)
Definition is_least (queue : Z) (key : proc -> Z) (ps : list proc) (j : nat) : Prop :=
  exists p, ps !! j = Some p /\ eligible queue p = true /\
    forall k q, ps !! k = Some q -> eligible queue q = true ->
      key p <= key q /\ ((k < j)%nat -> key p < key q).

Definition none_eligible (queue : Z) (ps : list proc) : Prop :=
  forall k q, ps !! k = Some q -> eligible queue q = false.

Definition best_ok (queue : Z) (key : proc -> Z) (ps : list proc) (best : option (nat * Z)) : Prop :=
  match best with
  | None => none_eligible queue ps
  | Some (h, k) => is_least queue key ps h /\ exists p, ps !! h = Some p /\ key p = k
  end.

Lemma lookup_snoc_inv {X} (l : list X) (x y : X) (k : nat) :
  (l ++ [x]) !! k = Some y -> l !! k = Some y \/ (k = length l /\ y = x).
Proof.
  intros H. apply lookup_app_Some in H as [H|[Hl H]]; [by left|right].
  apply list_lookup_singleton_Some in H as [? ->]. split; [lia|done].
Qed.

(** One more process looked at. *)
Lemma best_ok_skip (queue : Z) (key : proc -> Z) (pre : list proc) (p : proc) (best : option (nat * Z)) :
  best_ok queue key pre best -> eligible queue p = false -> best_ok queue key (pre ++ [p]) best.
Proof.
  intros H Hp. destruct best as [[h k]|]; cbn in *.
  - destruct H as [(p0 & E0 & El & HL) (p1 & E1 & Ek)]. split.
    + exists p0. split_and!; [by apply lookup_app_l_Some|done|].
      intros i q Hq Hel. apply lookup_snoc_inv in Hq as [Hq|[_ ->]]; [by apply HL|congruence].
    + exists p1. split; [by apply lookup_app_l_Some|done].
  - intros i q Hq. apply lookup_snoc_inv in Hq as [Hq|[_ ->]]; [by eapply H|done].
Qed.

Lemma best_ok_new (queue : Z) (key : proc -> Z) (pre : list proc) (p : proc) (best : option (nat * Z)) :
  best_ok queue key pre best -> eligible queue p = true ->
  best_ok queue key (pre ++ [p])
    (Some (let '(h, k) := match best with None => (length pre, key p) | Some b => b end in
           if key p <? k then (length pre, key p) else (h, k))).
Proof.
  intros H Hp. assert (Hn : (pre ++ [p]) !! length pre = Some p) by (by apply list_lookup_middle).
  destruct best as [[h k]|]; cbn in H.
  - destruct H as [(p0 & E0 & El & HL) (p1 & E1 & <-)]. rewrite E0 in E1. injection E1 as <-.
    destruct (Z.ltb_spec (key p) (key p0)); cbn.
    + split; [|eauto]. exists p. split_and!; [done|done|].
      intros i q Hq Hel. apply lookup_snoc_inv in Hq as [Hq|[-> ->]]; [|lia].
      pose proof (HL i q Hq Hel) as [? ?]. lia.
    + split; [|exists p0; split; [by apply lookup_app_l_Some|done]].
      exists p0. split_and!; [by apply lookup_app_l_Some|done|].
      intros i q Hq Hel. apply lookup_snoc_inv in Hq as [Hq|[-> ->]]; [by apply HL|].
      split; [lia|]. apply lookup_lt_Some in E0. lia.
  - rewrite Z.ltb_irrefl. cbn. split; [|eauto]. exists p. split_and!; [done|done|].
    intros i q Hq Hel. apply lookup_snoc_inv in Hq as [Hq|[-> ->]]; [|lia].
    apply H in Hq. congruence.
Qed.

Lemma least_pick_spec (queue : Z) (key : proc -> Z) (ps pre : list proc) (best : option (nat * Z)) :
  best_ok queue key pre best ->
  match least_pick queue key (length pre) best ps with
  | Some j => is_least queue key (pre ++ ps) j
  | None => none_eligible queue (pre ++ ps)
  end.
Proof.
  revert pre best. induction ps as [|p ps IH]; intros pre best H; cbn [least_pick].
  - rewrite app_nil_r. destruct best as [[h k]|]; cbn in *; [apply H|done].
  - replace (S (length pre)) with (length (pre ++ [p])) by (rewrite length_app; cbn; lia).
    replace (pre ++ p :: ps) with ((pre ++ [p]) ++ ps) by (by rewrite <- app_assoc).
    destruct (eligible queue p) eqn:E; cbn [negb].
    + pose proof (best_ok_new queue key pre p best H E) as Hb.
      destruct (match best with None => (length pre, key p) | Some b => b end) as [h k].
      by apply IH.
    + by apply IH, best_ok_skip.
Qed.

(** [prioritySched] and [SJFSched] choose the first runnable process of
    their queue with the least priority value, respectively burst time, and
    none exactly when their queue has no runnable process. *)
Theorem least_sched_correct (ps : list proc) :
  match prioritySched ps with
  | Some j => is_least PRIORITY priority ps j
  | None => none_eligible PRIORITY ps
  end /\
  match SJFSched ps with
  | Some j => is_least SJF burst_time ps j
  | None => none_eligible SJF ps
  end.
Proof. split; apply (least_pick_spec _ _ ps [] None); by intros k q H. Qed.

(** ** The combined rule *)

Lemma lottery_none (ps : list proc) (i : nat) (r : Z) (h : option nat) :
  none_eligible LOTTERY ps -> lottery_pick i r 0 h ps = None.
Proof.
  revert i. induction ps as [|p ps IH]; intros i H; cbn; [done|].
  rewrite (H 0%nat p eq_refl). cbn. apply IH. intros k q Hq. by apply (H (S k) q).
Qed.

Definition runnable_in_queue (ps : list proc) : Prop :=
  exists j p, ps !! j = Some p /\ state p = RUNNABLE /\
    (schedQueue p = PRIORITY \/ schedQueue p = SJF \/ schedQueue p = LOTTERY).

Lemma eligible_iff (queue : Z) (p : proc) :
  eligible queue p = true <-> state p = RUNNABLE /\ schedQueue p = queue.
Proof.
  unfold eligible. rewrite andb_true_iff, bool_decide_eq_true, Z.eqb_eq. done.
Qed.

Lemma none_eligible_dec (queue : Z) (ps : list proc) :
  none_eligible queue ps \/ exists j p, ps !! j = Some p /\ eligible queue p = true.
Proof.
  induction ps as [|p ps [IH|(j & q & Hj & Hq)]].
  - left. by intros k q.
  - destruct (eligible queue p) eqn:E; [right; by exists 0%nat, p|left].
    intros [|k] q Hq; cbn in Hq; [by simplify_eq|by eapply IH].
  - right. by exists (S j), q.
Qed.

Lemma empty_total (ps : list proc) : none_eligible LOTTERY ps -> sum_lotteries 1 ps = 1.
Proof.
  induction ps as [|p ps IH]; intros H; cbn; [done|]. rewrite (H 0%nat p eq_refl).
  apply IH. intros k q Hq. by apply (H (S k) q).
Qed.

Lemma lottery_empty (ticks : Z) (ps : list proc) :
  none_eligible LOTTERY ps -> lotterySched ticks ps = Some None.
Proof.
  intros H. unfold lotterySched, generate_random. rewrite empty_total by done.
  change (u32 1 =? 0) with false. cbv iota. by rewrite lottery_none.
Qed.

(** The slot [j] is runnable in the given queue. *)
Definition chosen_from (queue : Z) (ps : list proc) (j : nat) : Prop :=
  exists p, ps !! j = Some p /\ state p = RUNNABLE /\ schedQueue p = queue.

Lemma lottery_nonempty (ticks : Z) (ps : list proc) (j : nat) (p : proc) :
  tickets_ok ps -> ps !! j = Some p -> eligible LOTTERY p = true ->
  exists k, lotterySched ticks ps = Some (Some k) /\ chosen_from LOTTERY ps k.
Proof.
  intros Hok Hj He. pose proof Hok as [Hf Hs].
  destruct (drawn_winner ps (draw ticks (1 + total ps)) Hok) as [E [k Hk]].
  { apply existsb_exists. exists p. split; [|done].
    apply list_elem_of_In. by eapply list_elem_of_lookup_2. }
  { by apply draw_bound. }
  exists k. rewrite lotterySched_drawn, E, Hk by done. split; [done|].
  apply winner_eligible in Hk as (i & q & -> & Hi & Hq). exists q. by apply eligible_iff in Hq.
Qed.

(** C14. The scheduler makes progress: when no runnable process of the lottery
    queue has negative tickets and one more than their sum fits an [int], it
    chooses a runnable process whenever one of the three queues has one,
    taking the lottery queue first, then shortest job first, then priority.
    Without either condition the draw can divide by zero. *)
Theorem scheduler_progress (ticks : Z) (ps : list proc) :
  tickets_ok ps ->
  exists c, sched_choice ticks ps = Some c /\
    match c with
    | Some j => chosen_from LOTTERY ps j \/
                (chosen_from SJF ps j /\ none_eligible LOTTERY ps) \/
                (chosen_from PRIORITY ps j /\ none_eligible LOTTERY ps /\ none_eligible SJF ps)
    | None => ~ runnable_in_queue ps
    end.
Proof.
  intros Hok. unfold sched_choice.
  destruct (none_eligible_dec LOTTERY ps) as [HL|(j & p & Hj & He)]; cycle 1.
  { destruct (lottery_nonempty ticks ps j p Hok Hj He) as (k & -> & Hk). exists (Some k). auto. }
  rewrite lottery_empty by done.
  pose proof (least_pick_spec SJF burst_time ps [] None ltac:(by intros k q H)) as HS.
  pose proof (least_pick_spec PRIORITY priority ps [] None ltac:(by intros k q H)) as HP.
  cbn [app length] in HS, HP. fold (SJFSched ps) in HS. fold (prioritySched ps) in HP.
  destruct (SJFSched ps) as [j|].
  { exists (Some j). split; [done|]. right; left. split; [|done].
    destruct HS as (p & Hj & Hp & _). exists p. by apply eligible_iff in Hp. }
  exists (prioritySched ps). split; [done|]. destruct (prioritySched ps) as [j|].
  - right; right. split; [|done]. destruct HP as (p & Hj & Hp & _). exists p. by apply eligible_iff in Hp.
  - intros (j & p & Hj & Hs & [Hq|[Hq|Hq]]).
    + pose proof (HP j p Hj). assert (eligible PRIORITY p = true) by (by apply eligible_iff). congruence.
    + pose proof (HS j p Hj). assert (eligible SJF p = true) by (by apply eligible_iff). congruence.
    + pose proof (HL j p Hj). assert (eligible LOTTERY p = true) by (by apply eligible_iff). congruence.
Qed.

Lemma sum_lotteries_skip (ps qs : list proc) (acc : Z) :
  none_eligible LOTTERY ps -> sum_lotteries acc (ps ++ qs) = sum_lotteries acc qs.
Proof.
  revert acc. induction ps as [|p ps IH]; intros acc H; cbn; [done|].
  rewrite (H 0%nat p eq_refl). apply IH. intros k q Hq. by apply (H (S k) q).
Qed.

Lemma update_pid_at (f : proc -> proc) (x : Z) (pre post : list proc) (p : proc) :
  (forall q, q ∈ pre -> pid q <> x) -> pid p = x ->
  update_pid f x (pre ++ p :: post) = pre ++ f p :: post.
Proof.
  intros Hpre Hp. induction pre as [|q pre IH]; cbn.
  - by rewrite (proj2 (Z.eqb_eq x (pid p))).
  - rewrite (proj2 (Z.eqb_neq x (pid q))) by (intros E; apply (Hpre q); [left|done]).
    f_equal. apply IH. intros q' Hq'. apply Hpre. by right.
Qed.

(** A user program can crash the kernel through the lottery: when one
    process is alone in the lottery queue, setting its tickets to -1 makes
    the scheduler divide by zero. *)
Theorem lottery_divide_fault (ticks : Z) (pre post : list proc) (p : proc) :
  none_eligible LOTTERY pre -> none_eligible LOTTERY post ->
  state p = RUNNABLE -> schedQueue p = LOTTERY -> (forall q, q ∈ pre -> pid q <> pid p) ->
  sched_choice ticks (find_and_set_lottery_ticket (-1) (pid p) (pre ++ p :: post)) = None.
Proof.
  intros Hpre Hpost Hs Hq Hpid. unfold find_and_set_lottery_ticket. rewrite update_pid_at by done.
  unfold sched_choice, lotterySched. rewrite sum_lotteries_skip by done. cbn.
  assert (E : eligible LOTTERY (set_lottery_ticket (-1) p) = true) by (by apply eligible_iff).
  rewrite E. change (i32 (1 + -1)) with 0.
  rewrite <- (app_nil_r post), sum_lotteries_skip by done. done.
Qed.

(** The queue numbers users are shown are not those the scheduler uses:
    the name "LOTTERY" belongs to number 3, from which no process is ever
    chosen, while the lottery's own number is called "SJF". *)
Theorem queue_names_shifted (ticks : Z) (ps : list proc) (j : nat) :
  find_queue_name LOTTERY = "SJF" /\ find_queue_name SJF = "PRIORITY" /\
  find_queue_name 3 = "LOTTERY" /\
  (tickets_ok ps -> sched_choice ticks ps = Some (Some j) ->
   forall p, ps !! j = Some p -> schedQueue p <> 3).
Proof.
  split_and!; [done..|]. intros Hok Hc p Hj E.
  assert (H : forall q, chosen_from q ps j -> schedQueue p = q).
  { intros q (p' & Hj' & _ & Hq). congruence. }
  destruct (none_eligible_dec LOTTERY ps) as [HL|(i & q & Hi & He)]; unfold sched_choice in Hc.
  - rewrite lottery_empty in Hc by done.
    pose proof (least_pick_spec SJF burst_time ps [] None ltac:(by intros k q H0)) as HS.
    pose proof (least_pick_spec PRIORITY priority ps [] None ltac:(by intros k q H0)) as HP.
    cbn [app length] in HS, HP. fold (SJFSched ps) in HS. fold (prioritySched ps) in HP.
    destruct (SJFSched ps) as [j'|]; simplify_eq.
    + destruct HS as (p' & Hj' & Hp & _). apply eligible_iff in Hp as [_ Hq]. simplify_eq. by rewrite E in Hq.
    + rewrite Hc in HP. destruct HP as (p' & Hj' & Hp & _).
      apply eligible_iff in Hp as [_ Hq]. simplify_eq. by rewrite E in Hq.
  - destruct (lottery_nonempty ticks ps i q Hok Hi He) as (k & Hk & Hk'). rewrite Hk in Hc.
    simplify_eq. apply H in Hk'. by rewrite E in Hk'.
Qed.

(** Neither can tickets that are all positive be left out of account: when the
    sum wraps to 0 the scheduler divides by zero too. *)
Theorem lottery_wrap_fault (ticks a b c : Z) (p q r : proc) :
  eligible LOTTERY p = true -> eligible LOTTERY q = true -> eligible LOTTERY r = true ->
  lottery_ticket p = a -> lottery_ticket q = b -> lottery_ticket r = c ->
  0 < a <= 2147483647 -> 0 < b <= 2147483647 -> 0 < c <= 2147483647 ->
  1 + a + b + c = 4294967296 -> sched_choice ticks [p; q; r] = None.
Proof.
  intros Ep Eq Er <- <- <- Ha Hb Hc Hs. unfold sched_choice, lotterySched. cbn [sum_lotteries].
  rewrite Ep, Eq, Er.
  assert (E : i32 (i32 (i32 (1 + lottery_ticket p) + lottery_ticket q) + lottery_ticket r) = 0).
  { unfold i32, u32. zlia. }
  by rewrite E.
Qed.

(** ** Concrete tables *)

Definition lottery_proc (x n : Z) : proc :=
  set_pid x (set_lottery_ticket n (set_schedQueue LOTTERY (set_state RUNNABLE proc_zero))).

Definition two_procs : list proc := [lottery_proc 1 50; lottery_proc 2 30].

Lemma two_procs_ok : tickets_ok two_procs.
Proof. split; [repeat constructor; discriminate|reflexivity]. Qed.

(** Of the 81 numbers 51 are those of the first process, 30 of the second. *)
Lemma lottery_fair_witness :
  tickets_ok two_procs /\
  length (filter (fun r => drawn r two_procs = Some 0%nat) (seqZ 0 81)) = 51%nat /\
  length (filter (fun r => drawn r two_procs = Some 1%nat) (seqZ 0 81)) = 30%nat.
Proof.
  split_and!; [exact two_procs_ok|..].
  - apply (lottery_fair two_procs 0 (lottery_proc 1 50) two_procs_ok); reflexivity.
  - apply (lottery_fair two_procs 1 (lottery_proc 2 30) two_procs_ok); reflexivity.
Defined.

Lemma scheduler_progress_witness :
  exists c, sched_choice 7 two_procs = Some c /\ c <> None.
Proof.
  destruct (scheduler_progress 7 two_procs two_procs_ok) as (c & E & H).
  exists c. split; [exact E|]. intros ->. apply H.
  exists 0%nat, (lottery_proc 1 50). repeat split; right; right; reflexivity.
Defined.

Lemma lottery_divide_fault_witness :
  sched_choice 7 (find_and_set_lottery_ticket (-1) 1 [lottery_proc 1 50; proc_zero]) = None.
Proof.
  apply (lottery_divide_fault 7 [] [proc_zero] (lottery_proc 1 50)); [| |reflexivity|reflexivity|].
  - intros k q H. discriminate H.
  - intros [|k] q H; [injection H as <-; reflexivity|discriminate H].
  - intros q H. inversion H.
Defined.

Lemma queue_names_shifted_witness :
  sched_choice 7 two_procs = Some (Some 0%nat) /\ schedQueue (lottery_proc 1 50) <> 3.
Proof.
  split; [vm_compute; reflexivity|].
  destruct (queue_names_shifted 7 two_procs 0) as (_ & _ & _ & H).
  apply (H two_procs_ok); [vm_compute; reflexivity|reflexivity].
Defined.
