(* ===== verification/Proc.v ===== *)
(** * Proc: processes ([proc.c])

    The life of a process over the memory subsystem and the process table:
    [allocproc], [userinit], [growproc], [fork], [exit], [wait], [sleep],
    [wakeup], [kill], [yield] and one round of [scheduler].  A routine that
    gives up the CPU ends where it enters [sched]; the part after that is a
    definition of its own. *)
From stdpp Require Import base gmap list numbers strings.
From Stdlib Require Import ZArith Lia ZifyBool.
From S2P Require Import Prelude Machine Cstring Kalloc Vm Ptable.

(** What [proc.c] uses of the file system: open files and inodes are
    addresses. *)
Class FileOps (F : Type) := {
  filedup : Z -> M F Z;
  fileclose : Z -> M F unit;
  idup : Z -> M F Z;
  iput : Z -> M F unit;
  begin_op : M F unit;
  end_op : M F unit;
  namei : string -> M F Z;
}.

(** ** State: the globals of [proc.c], the memory subsystem, the files, and
    the process running on this CPU *)
Record kst {F : Type} := mkk {
  vm : vmst;
  procs : list proc;
  plock : bool;
  nextpid : Z;
  createdProcess : Z;
  process_number : Z;
  initproc : Z;
  ticks : Z;
  tickslock : bool;
  cur : nat;
  files : F;
}.
Arguments kst : clear implicits.
Arguments mkk {F}.

Definition set_vm {F} (x : vmst) (r : kst F) : kst F :=
  mkk x (procs r) (plock r) (nextpid r) (createdProcess r) (process_number r) (initproc r)
    (ticks r) (tickslock r) (cur r) (files r).
Definition set_procs {F} (x : list proc) (r : kst F) : kst F :=
  mkk (vm r) x (plock r) (nextpid r) (createdProcess r) (process_number r) (initproc r)
    (ticks r) (tickslock r) (cur r) (files r).
Definition set_plock {F} (x : bool) (r : kst F) : kst F :=
  mkk (vm r) (procs r) x (nextpid r) (createdProcess r) (process_number r) (initproc r)
    (ticks r) (tickslock r) (cur r) (files r).
Definition set_nextpid {F} (x : Z) (r : kst F) : kst F :=
  mkk (vm r) (procs r) (plock r) x (createdProcess r) (process_number r) (initproc r) (ticks r)
    (tickslock r) (cur r) (files r).
Definition set_createdProcess {F} (x : Z) (r : kst F) : kst F :=
  mkk (vm r) (procs r) (plock r) (nextpid r) x (process_number r) (initproc r) (ticks r)
    (tickslock r) (cur r) (files r).
Definition set_process_number {F} (x : Z) (r : kst F) : kst F :=
  mkk (vm r) (procs r) (plock r) (nextpid r) (createdProcess r) x (initproc r) (ticks r)
    (tickslock r) (cur r) (files r).
Definition set_initproc {F} (x : Z) (r : kst F) : kst F :=
  mkk (vm r) (procs r) (plock r) (nextpid r) (createdProcess r) (process_number r) x (ticks r)
    (tickslock r) (cur r) (files r).
Definition set_ticks {F} (x : Z) (r : kst F) : kst F :=
  mkk (vm r) (procs r) (plock r) (nextpid r) (createdProcess r) (process_number r) (initproc r)
    x (tickslock r) (cur r) (files r).
Definition set_tickslock {F} (x : bool) (r : kst F) : kst F :=
  mkk (vm r) (procs r) (plock r) (nextpid r) (createdProcess r) (process_number r) (initproc r)
    (ticks r) x (cur r) (files r).
Definition set_cur {F} (x : nat) (r : kst F) : kst F :=
  mkk (vm r) (procs r) (plock r) (nextpid r) (createdProcess r) (process_number r) (initproc r)
    (ticks r) (tickslock r) x (files r).
Definition set_files {F} (x : F) (r : kst F) : kst F :=
  mkk (vm r) (procs r) (plock r) (nextpid r) (createdProcess r) (process_number r) (initproc r)
    (ticks r) (tickslock r) (cur r) x.

Section Proc.
Context `{KI : KernelImage} `{PT : ProcTable} {F : Type} `{FO : FileOps F}.

Definition onvm {A} (c : MV A) : M (kst F) A := zoom vm set_vm c.
Definition onfiles {A} (c : M F A) : M (kst F) A := zoom files set_files c.

Definition acquire_ptable : M (kst F) unit := fun k =>
  if plock k then Panic "acquire" else Ok tt (set_plock true k).
Definition release_ptable : M (kst F) unit := fun k =>
  if plock k then Ok tt (set_plock false k) else Panic "release".

(** Slot [i] of the table. *)
Definition getp (i : nat) : M (kst F) proc := fun k =>
  match procs k !! i with Some p => Ok p k | None => Fault "ptable" end.
Definition setp (i : nat) (f : proc -> proc) : M (kst F) unit :=
  modify (fun k => set_procs (alter f i (procs k)) k).

Definition myproc : M (kst F) nat := gets cur.

(** ** Creation *)

Fixpoint find_unused (i : nat) (ps : list proc) : option nat :=
  match ps with
  | [] => None
  | p :: ps => if bool_decide (state p = UNUSED) then Some i else find_unused (S i) ps
  end.

(** The trap frame and the context, which the code places on the new kernel
    stack, are fields of the process; the frame is not initialised here. *)
Definition allocproc : M (kst F) (option nat) :=
  acquire_ptable ;;;
  let! ps := gets procs in
  match find_unused 0 ps with
  | None => release_ptable ;;; ret None
  | Some i =>
      let! pid0 := gets nextpid in
      setp i (fun p => set_pid pid0 (set_state EMBRYO p)) ;;;
      modify (set_nextpid (i32 (pid0 + 1))) ;;;
      release_ptable ;;;
      let! ks := onvm kalloc in
      setp i (set_kstack ks) ;;;
      if ks =? 0 then setp i (set_state UNUSED) ;;; ret None
      else
        setp i (set_context (mkcontext 0 0 0 0 forkret)) ;;;
        let! t := gets ticks in
        let! cp := gets createdProcess in
        setp i (set_creation_time (i32 (t + cp))) ;;;
        modify (set_createdProcess (i32 (cp + 1))) ;;;
        let! n := gets process_number in
        setp i (set_process_count n) ;;;
        modify (set_process_number (i32 (n + 1))) ;;;
        setp i (fun p => set_schedQueue LOTTERY (set_burst_time 0 (set_lottery_ticket 50 p))) ;;;
        ret (Some i)
  end.

(** [(SEG_UCODE << 3) | DPL_USER], [(SEG_UDATA << 3) | DPL_USER], [FL_IF] *)
Definition user_cs : Z := 27.
Definition user_ds : Z := 35.
Definition FL_IF : Z := 512.

Definition user_tf : trapframe :=
  mktf 0 0 0 0 0 0 0 0 0 0 user_ds user_ds 0 0 0 user_cs FL_IF PGSIZE user_ds.

(** [safestrcpy(dst, s, 16)] *)
Definition name16 (s : string) : string := String.substring 0 15 s.

(** [initcode] is the image of initcode.S and [size] its length.  The result
    of [allocproc] is not examined. *)
Definition userinit (initcode : Z -> Z) (size : Z) : M (kst F) unit :=
  let! r := allocproc in
  match r with
  | None => fault "userinit: null process"
  | Some i =>
      modify (set_initproc (proc_ptr i)) ;;;
      let! pg := onvm setupkvm in
      setp i (set_pgdir pg) ;;;
      if pg =? 0 then panic "userinit: out of memory?"
      else
        onvm (inituvm pg initcode size) ;;;
        setp i (fun p => set_name (name16 "initcode") (set_tf user_tf (set_sz PGSIZE p))) ;;;
        let! root := onfiles (namei "/") in
        setp i (set_cwd root) ;;;
        acquire_ptable ;;;
        setp i (set_state RUNNABLE) ;;;
        release_ptable
  end.

(** ** Memory of the current process *)

Definition switchuvm_proc (i : nat) : M (kst F) unit :=
  let! p := getp i in
  onvm (switchuvm false (kstack p) (pgdir p)).

Definition growproc (n : Z) : M (kst F) Z :=
  let! c := myproc in
  let! p := getp c in
  let finish (size : Z) : M (kst F) Z :=
    setp c (set_sz size) ;;; switchuvm_proc c ;;; ret 0 in
  if 0 <? n then
    let! size := onvm (allocuvm (pgdir p) (sz p) (u32 (sz p + n))) in
    if size =? 0 then ret (-1) else finish size
  else if n <? 0 then
    let! size := onvm (deallocuvm (pgdir p) (sz p) (u32 (sz p + n))) in
    if size =? 0 then ret (-1) else finish size
  else finish (sz p).

(** ** [fork] *)

(** [if(curproc->ofile[i]) np->ofile[i] = filedup(curproc->ofile[i])]: entries
    of [np] for closed descriptors keep their value. *)
Fixpoint dup_files (fs old : list Z) : M (kst F) (list Z) :=
  match fs, old with
  | f :: fs, o :: old =>
      let! g := (if f =? 0 then ret o else onfiles (filedup f)) in
      let! rest := dup_files fs old in
      ret (g :: rest)
  | _, _ => ret []
  end.

Definition fork : M (kst F) Z :=
  let! c := myproc in
  let! r := allocproc in
  match r with
  | None => ret (-1)
  | Some i =>
      let! p := getp c in
      let! pg := onvm (copyuvm (pgdir p) (sz p)) in
      setp i (set_pgdir pg) ;;;
      if pg =? 0 then
        let! np := getp i in
        onvm (kfree (kstack np)) ;;;
        setp i (fun q => set_state UNUSED (set_kstack 0 q)) ;;;
        ret (-1)
      else
        setp i (fun q => set_tf (set_eax 0 (tf p)) (set_parent (proc_ptr c) (set_sz (sz p) q))) ;;;
        let! np := getp i in
        let! fs := dup_files (ofile p) (ofile np) in
        setp i (set_ofile fs) ;;;
        let! d := onfiles (idup (cwd p)) in
        setp i (fun q => set_name (name16 (name p)) (set_cwd d q)) ;;;
        let! np := getp i in
        acquire_ptable ;;;
        setp i (fun q => set_state RUNNABLE (set_priority 1000 q)) ;;;
        release_ptable ;;;
        ret (pid np)
  end.

(** ** [exit] *)

Fixpoint close_files (c fd : nat) (n : nat) : M (kst F) unit :=
  match n with
  | O => ret tt
  | S n =>
      let! p := getp c in
      let f := default 0 (ofile p !! fd) in
      (if negb (f =? 0) then
         onfiles (fileclose f) ;;;
         setp c (fun q => set_ofile (<[fd := 0]> (ofile q)) q)
       else ret tt) ;;;
      close_files c (S fd) n
  end.

(** Children of [me] pass to [init], which is woken when one of them is
    already a zombie. *)
Fixpoint reparent (me init : Z) (i n : nat) (ps : list proc) : list proc :=
  match n with
  | O => ps
  | S n =>
      match ps !! i with
      | Some p =>
          if parent p =? me then
            let ps := alter (set_parent init) i ps in
            let ps := if bool_decide (state p = ZOMBIE) then wakeup1 init ps else ps in
            reparent me init (S i) n ps
          else reparent me init (S i) n ps
      | None => ps
      end
  end.

(** Up to the call of [sched], from which it does not return; [ptable.lock]
    stays held for the scheduler to release. *)
Definition exit : M (kst F) unit :=
  let! c := myproc in
  let! ini := gets initproc in
  if proc_ptr c =? ini then panic "init exiting"
  else
    close_files c 0 (Z.to_nat NOFILE) ;;;
    onfiles begin_op ;;;
    let! p := getp c in
    onfiles (iput (cwd p)) ;;;
    onfiles end_op ;;;
    setp c (set_cwd 0) ;;;
    acquire_ptable ;;;
    let! p := getp c in
    modify (fun k => set_procs (wakeup1 (parent p) (procs k)) k) ;;;
    modify (fun k => set_procs (reparent (proc_ptr c) ini 0 (length (procs k)) (procs k)) k) ;;;
    setp c (set_state ZOMBIE).

(** ** [wait] *)

(** The scan for a zombie child of [me]: its slot, and whether there are
    children at all. *)
Fixpoint scan_children (me : Z) (i : nat) (havekids : bool) (ps : list proc) : option nat * bool :=
  match ps with
  | [] => (None, havekids)
  | p :: ps =>
      if negb (parent p =? me) then scan_children me (S i) havekids ps
      else if bool_decide (state p = ZOMBIE) then (Some i, true)
      else scan_children me (S i) true ps
  end.

(** [sleep(chan, &ptable.lock)] up to [sched]. *)
Definition sleep_ptable (ch : Z) : M (kst F) unit :=
  let! c := myproc in
  setp c (fun p => set_state SLEEPING (set_chan ch p)).

(** One pass of the loop of [wait], with [ptable.lock] held: [Some] is the
    value returned, [None] means the process went to sleep. *)
Definition wait_pass : M (kst F) (option Z) :=
  let! c := myproc in
  let! ps := gets procs in
  match scan_children (proc_ptr c) 0 false ps with
  | (Some i, _) =>
      let! p := getp i in
      onvm (kfree (kstack p)) ;;;
      setp i (set_kstack 0) ;;;
      onvm (freevm (pgdir p)) ;;;
      setp i (fun q => set_state UNUSED (set_killed 0 (set_name EmptyString (set_parent 0 (set_pid 0 q))))) ;;;
      release_ptable ;;;
      ret (Some (pid p))
  | (None, havekids) =>
      let! p := getp c in
      if negb havekids || negb (killed p =? 0) then release_ptable ;;; ret (Some (-1))
      else sleep_ptable (proc_ptr c) ;;; ret None
  end.

(** [wait] from its start; [wait_resume] continues it when the process runs
    again after the sleep. *)
Definition wait : M (kst F) (option Z) := acquire_ptable ;;; wait_pass.

Definition wait_resume : M (kst F) (option Z) :=
  let! c := myproc in
  setp c (set_chan 0) ;;;
  wait_pass.

(** ** Sleeping and waking *)

(** [sleep(chan, lk)] for another lock [lk], up to [sched], given the release
    of [lk]; and its tail after the process is scheduled again. *)
Definition sleep (ch : Z) (release_lk : M (kst F) unit) : M (kst F) unit :=
  acquire_ptable ;;;
  release_lk ;;;
  sleep_ptable ch.

Definition sleep_resume (acquire_lk : M (kst F) unit) : M (kst F) unit :=
  let! c := myproc in
  setp c (set_chan 0) ;;;
  release_ptable ;;;
  acquire_lk.

Definition wakeup (ch : Z) : M (kst F) unit :=
  acquire_ptable ;;;
  modify (fun k => set_procs (wakeup1 ch (procs k)) k) ;;;
  release_ptable.

Definition kill (pid0 : Z) : M (kst F) Z :=
  acquire_ptable ;;;
  let! ps := gets procs in
  modify (set_procs (fst (kill_loop pid0 ps))) ;;;
  release_ptable ;;;
  ret (snd (kill_loop pid0 ps)).

(** [yield] up to [sched]; the process releases the lock when it runs again. *)
Definition yield : M (kst F) unit :=
  acquire_ptable ;;;
  let! c := myproc in
  setp c (set_state RUNNABLE).

(** ** [scheduler] *)

(** One round of the loop, from [acquire] to the switch to the process: the
    slot that now runs.  The divide error of the lottery is a fault. *)
Definition scheduler_round : M (kst F) (option nat) :=
  acquire_ptable ;;;
  let! t := gets ticks in
  let! ps := gets procs in
  match sched_choice t ps with
  | None => fault "divide error"
  | Some None => release_ptable ;;; ret None
  | Some (Some i) =>
      modify (set_cur i) ;;;
      switchuvm_proc i ;;;
      setp i (set_state RUNNING) ;;;
      ret (Some i)
  end.

(** The rest of the round, when the process has switched back. *)
Definition scheduler_back : M (kst F) unit :=
  onvm switchkvm ;;;
  release_ptable.
End Proc.
