(* ===== verification/Pages.v ===== *)
(** * Pages: the memory subsystem as its clients see it

    The operations of [kalloc.c] and [vm.c] on a state that satisfies the
    invariant, with what the process code needs to know of the result: which
    pages are whose, and how far each address space extends.  Then all of them
    together: in every state that sequences of these operations lead to, the
    reference counts are those of the page tables in memory. *)
From stdpp Require Import base gmap list numbers strings.
From Stdlib Require Import ZArith Lia ZifyBool.
From S2P Require Import Prelude Machine Cstring Kalloc Vm Frames Tables Cow Dealloc Kvm Fork Fault Sample Spaces Alloc.

Section Pages.
Context `{KI : KernelImage} `{KIO : !KernelImageOk}.

(** The address space [d] has exactly the pages below [size]. *)
Record sized (A : avm) (d size : Z) : Prop := mksized {
  sd_size : 0 <= size <= KERNBASE;
  sd_in : forall v, 0 <= v < (size + 4095) / 4096 -> is_Some (maps A !! (d, v));
  sd_out : forall v, (size + 4095) / 4096 <= v < UVPN -> maps A !! (d, v) = None;
}.

(** Nothing that the process code relies on changed: pages in use keep their
    roles and address spaces their extent. *)
Record keeps (A A' : avm) : Prop := mkkeeps {
  kp_own : forall x r, own A !! x = Some r -> r = ODir \/ r = OKern -> own A' !! x = Some r;
  kp_sized : forall d size, own A !! d = Some ODir -> sized A d size -> sized A' d size;
}.

Lemma keeps_refl (A : avm) : keeps A A.
Proof. by split. Qed.

Lemma keeps_trans (A1 A2 A3 : avm) : keeps A1 A2 -> keeps A2 A3 -> keeps A1 A3.
Proof.
  intros [O1 S1] [O2 S2]. split; [eauto|]. intros d size Hd Hs. apply S2; [|by apply S1].
  apply O1; auto.
Qed.

Lemma sized_same (A A' : avm) (d size : Z) :
  sized A d size ->
  (forall v, 0 <= v < UVPN -> is_Some (maps A' !! (d, v)) <-> is_Some (maps A !! (d, v))) ->
  sized A' d size.
Proof.
  intros [S1 S2 S3] H. split; [done|..].
  - intros v Hv. apply H; [zlia|]. by apply S2.
  - intros v Hv. destruct (maps A' !! (d, v)) eqn:E; [|done].
    assert (is_Some (maps A !! (d, v))) as [e He] by (apply H; [zlia|eauto]).
    rewrite S3 in He by done. done.
Qed.

(** ** One page for the kernel *)

Lemma vminv_phys (s s' : vmst) (A : avm) :
  vminv s A -> rep s' A -> phys_only s s' -> vminv s' A.
Proof.
  intros [R L C] R' P. split; [done|by rewrite (phys_only_lock _ _ P)|by rewrite (phys_only_rc _ _ P)].
Qed.

Lemma kalloc_client (s : vmst) (A : avm) :
  vminv s A ->
  wp kalloc (fun r s' => exists A', vminv s' A' /\ vm_only s s' /\ keeps A A' /\ mem s' = mem s /\
    dirs A' = dirs A /\
    ((r = 0 /\ A' = A /\ free A = []) \/
     exists f, r = P2V f /\ own A !! f = Some OFree /\ own A' !! f = Some OKern /\
       forall x, x <> f -> own A' !! x = own A !! x)) s.
Proof.
  intros V. pose proof (vi_rep _ _ V) as R. pose proof (rep_kalloc s A R) as HA.
  destruct (free A) as [|f l] eqn:Hfl; destruct HA as (s1 & EA & R1 & P1 & M1);
    (eapply wp_from_Ok; [exact EA|]).
  - exists A. split_and!; eauto using vminv_phys, phys_vm_only, keeps_refl.
  - assert (Hf : own A !! f = Some OFree).
    { apply (tb_free_own _ _ _ (rp_tbl _ _ R)). rewrite Hfl. left. }
    assert (HO : forall x, x <> f -> own (take_free f l A) !! x = own A !! x).
    { intros x Hx. cbn. by rewrite lookup_insert_ne. }
    exists (take_free f l A). split_and!; [|by apply phys_vm_only| |done| |].
    + split; [done|rewrite (phys_only_lock _ _ P1); apply V|].
      rewrite (phys_only_rc _ _ P1). eapply cow_same; [apply V| |done].
      intros g. destruct (decide (g = f)) as [->|Hne]; [|by rewrite HO].
      cbn. by rewrite lookup_insert_eq, Hf.
    + split; [|by intros d size _ [? ? ?]; split]. intros x r Hx Hr. rewrite HO; [done|].
      intros ->. rewrite Hf in Hx. by destruct Hr; simplify_eq.
    + apply set_eq. intros x. rewrite !elem_of_dirs. destruct (decide (x = f)) as [->|Hne]; [|by rewrite HO].
      cbn. by rewrite lookup_insert_eq, Hf.
    + right. exists f. split_and!; [done|done|apply lookup_insert_eq|done].
Qed.

(** A write outside the user pages is not visible in any address space. *)
Lemma outside_views (s s' : vmst) (A A' : avm) (f : Z) :
  vminv s A -> vminv s' A' -> maps A' = maps A ->
  (forall x, own A !! x = Some ODir -> own A' !! x = Some ODir) ->
  own A !! f = Some OKern -> same_outside f (mem s) (mem s') -> same_views A s s'.
Proof.
  intros V V' EM HD Hf HM q va Hq Hva.
  rewrite (user_load_spec s' A'), (user_load_spec s A), EM by (apply V || apply V' || auto || zlia).
  destruct (maps A !! (q, vpn va)) as [e|] eqn:He; [|done]. case_match; [|done]. f_equal. apply HM.
  destruct (user_page s A q _ e V He ltac:(unfold vpn; zlia)) as [Ho Hpg].
  pose proof (tb_pages _ _ _ (rp_tbl _ _ (vi_rep _ _ V)) _ _ Hf) as Hfp.
  apply (pages_disjoint (PTE_ADDR e) f); [apply Hpg|apply Hfp|congruence|unfold PGSIZE; zlia].
Qed.

Lemma kfree_client (s : vmst) (A : avm) (f : Z) :
  vminv s A -> own A !! f = Some OKern ->
  wp (kfree (P2V f)) (fun _ s' => exists A', vminv s' A' /\ vm_only s s' /\ dirs A' = dirs A /\
    own A' !! f = Some OFree /\ maps A' = maps A /\
    (forall x, x <> f -> own A' !! x = own A !! x) /\ same_views A s s') s.
Proof.
  intros V Hf. destruct (rep_kfree s A f (vi_rep _ _ V) Hf) as (s' & E & R' & P & M).
  assert (HO : forall x, x <> f -> own (give_free f A) !! x = own A !! x).
  { intros x Hx. cbn. by rewrite lookup_insert_ne. }
  assert (V' : vminv s' (give_free f A)).
  { split; [done|rewrite (phys_only_lock _ _ P); apply V|].
    rewrite (phys_only_rc _ _ P). apply cow_give; [apply V|done]. }
  eapply wp_from_Ok; [exact E|]. exists (give_free f A). split_and!; [done|by apply phys_vm_only| | |done|done|].
  - apply set_eq. intros x. rewrite !elem_of_dirs. destruct (decide (x = f)) as [->|Hne]; [|by rewrite HO].
    cbn. by rewrite lookup_insert_eq, Hf.
  - cbn. apply lookup_insert_eq.
  - eapply (outside_views s s' A _ f); eauto. intros x Hx. rewrite HO; [done|congruence].
Qed.

(** ** Whole address spaces *)

Lemma sized_forkable (A : avm) (d n : Z) :
  own A !! d = Some ODir -> sized A d n -> (size (dirs A) <= 126)%nat -> forkable d n A.
Proof. intros Hd [S1 S2 _] H. by split. Qed.

Lemma forked_dirs (p d n : Z) (A A' : avm) : forked p d n A A' -> dirs A' = {[ d ]} ∪ dirs A.
Proof.
  intros [FF FD FO _]. apply set_eq. intros x. rewrite elem_of_union, elem_of_singleton, !elem_of_dirs.
  destruct (decide (x = d)) as [->|Hx]; [naive_solver|].
  destruct (FO x Hx) as [->|(E & i & E')]; [naive_solver|]. rewrite E, E'. naive_solver.
Qed.

Lemma forked_sized (p d n : Z) (A A' : avm) (q m : Z) :
  forked p d n A A' -> own A !! p = Some ODir -> own A !! q = Some ODir -> q <> d ->
  sized A q m -> sized A' q m.
Proof.
  intros [FF FD FO FM] Hp Hq Hqd S. eapply sized_same; [done|]. intros v Hv. rewrite FM.
  case_decide as Hc.
  - destruct Hc as [[-> | ->] _]; [|done]. by rewrite fmap_is_Some.
  - by rewrite decide_False.
Qed.

Lemma copyuvm_client (s : vmst) (A : avm) (p n : Z) :
  vminv s A -> own A !! p = Some ODir -> sized A p n -> (size (dirs A) <= 126)%nat ->
  wp (copyuvm (P2V p) n) (fun r s' => exists A', vminv s' A' /\ vm_frame s s' /\ keeps A A' /\
    ((r = 0 /\ own A' = own A /\ same_views A s s') \/
     exists d, r = P2V d /\ own A !! d = Some OFree /\ own A' !! d = Some ODir /\ sized A' d n /\
       dirs A' = {[ d ]} ∪ dirs A /\
       forall q va, q = d \/ own A !! q = Some ODir -> 0 <= va < KERNBASE ->
         user_load (mem s') q va = spec_fork p d ((n + 4095) / 4096) (user_load (mem s)) q va)) s.
Proof.
  intros V Hp Hs Hds. pose proof (sized_forkable A p n Hp Hs Hds) as Fo.
  eapply wp_mono; [by apply share_uvm_spec|]. pose proof (sd_size _ _ _ Hs) as Hn.
  intros r s' (A' & V' & Fr & D & [(d & -> & Hdp & Fk)|(-> & EO & ET & k & Hk & HP)]); exists A'.
  - assert (HF : own A !! d = Some OFree) by apply Fk. split_and!; [done|done| |].
    + split.
      * intros x r Hx Hr. destruct (fk_own _ _ _ _ _ Fk x) as [->|[E _]]; [|done|].
        -- intros ->. rewrite HF in Hx. by destruct Hr; simplify_eq.
        -- rewrite E in Hx. by destruct Hr; simplify_eq.
      * intros q m Hq. eapply forked_sized; eauto. congruence.
    + right. exists d. split_and!; [done|apply Fk|apply Fk| |by eapply forked_dirs|].
      * destruct Hs as [S1 S2 S3]. split; [done|..].
        -- intros v Hv. rewrite (fk_maps _ _ _ _ _ Fk), decide_True by (split; [by right|lia]).
           rewrite fmap_is_Some. by apply S2.
        -- intros v Hv. rewrite (fk_maps _ _ _ _ _ Fk), decide_False by lia.
           rewrite decide_True by done. apply kent_user. lia.
      * intros q va Hq Hva. eapply forked_views; eauto. zlia.
  - split_and!; [done|done| |].
    + split; [intros x r Hx _; by rewrite EO|]. intros q m Hq S. eapply sized_same; [done|].
      intros v Hv. rewrite HP. case_decide; [|done]. by rewrite fmap_is_Some.
    + left. split_and!; [done|done|]. by eapply protected_views.
Qed.

Lemma freevm_client (s : vmst) (A : avm) (p : Z) :
  vminv s A -> own A !! p = Some ODir ->
  wp (freevm (P2V p)) (fun _ s' => exists A', vminv s' A' /\ vm_only s s' /\
    own A' !! p = Some OFree /\ dirs A' = dirs A ∖ {[ p ]} /\
    (forall x r, own A !! x = Some r -> r = ODir \/ r = OKern -> x <> p -> own A' !! x = Some r) /\
    (forall d n, own A !! d = Some ODir -> d <> p -> sized A d n -> sized A' d n) /\
    (forall x, own A !! x = Some OFree -> own A' !! x = Some OFree) /\
    (forall q va, own A !! q = Some ODir -> q <> p -> 0 <= va < KERNBASE ->
       user_load (mem s') q va = user_load (mem s) q va)) s.
Proof.
  intros V Hp. eapply wp_mono; [by apply freevm_spec|].
  intros _ s' (A' & V' & P & D & RL). pose proof RL as [RD RT RO RTs RM].
  assert (HO : forall x r, own A !! x = Some r -> r = ODir \/ r = OKern -> x <> p -> own A' !! x = Some r).
  { intros x r Hx Hr Hne. destruct (RO x Hne) as [->|[E _]]; [|done|].
    - intros i E. rewrite E in Hx. by destruct Hr; simplify_eq.
    - rewrite E in Hx. by destruct Hr; simplify_eq. }
  exists A'. split_and!; try done.
  - apply set_eq. intros x. rewrite elem_of_difference, elem_of_singleton, !elem_of_dirs. split.
    + intros E. assert (Hne : x <> p) by congruence. split; [|done].
      assert (Ht : forall i, own A !! x <> Some (OTab p i)).
      { intros i Ex. by rewrite (RT x i Ex) in E. }
      destruct (RO x Hne Ht) as [<-|[_ E']]; [done|congruence].
    + intros [E Hne]. by apply HO; [|left|].
  - intros d n Hd Hne S. eapply sized_same; [done|]. intros v Hv. by rewrite RM, decide_False.
  - intros x Hx. destruct (RO x) as [->|[E _]]; congruence.
  - intros q va Hq Hne Hva. assert (Hq' : own A' !! q = Some ODir) by (apply HO; auto).
    destruct (maps A !! (q, vpn va)) as [e|] eqn:E.
    + eapply (load_protected s s' A A' q q va e); eauto. left. by rewrite RM, decide_False.
    + rewrite (load_unmapped s A), (load_unmapped s' A'); try done. by rewrite RM, decide_False.
Qed.

(** A change of one address space. *)
Record resized (p : Z) (A A' : avm) : Prop := mkresized {
  rz_own : forall x r, own A !! x = Some r -> r = ODir \/ r = OKern -> own A' !! x = Some r;
  rz_other : forall d n, d <> p -> sized A d n -> sized A' d n;
  rz_dirs : dirs A' = dirs A;
}.

Lemma added_resized (p v0 v1 : Z) (A A' : avm) (s : vmst) :
  added p v0 v1 A A' s -> resized p A A'.
Proof.
  intros Ad. pose proof Ad as [AM AN AO _ _]. split.
  - intros x r Hx Hr. eapply added_dir; [done|done|]. by destruct Hr; subst.
  - intros d n Hd S. eapply sized_same; [done|]. intros v Hv. by rewrite AM by auto.
  - apply set_eq. intros x. rewrite !elem_of_dirs.
    destruct (AO x) as [->|(E & [E'|[i E']])]; [done|..]; rewrite E, E'; done.
Qed.

Lemma undone_resized (p : Z) (A A' : avm) : undone p A A' -> resized p A A'.
Proof.
  intros [UM UO]. split.
  - intros x r Hx Hr. destruct (UO x) as [->|[E _]]; [done|]. rewrite E in Hx. by destruct Hr; simplify_eq.
  - intros d n Hd S. eapply sized_same; [done|]. intros v Hv. by rewrite UM.
  - apply set_eq. intros x. rewrite !elem_of_dirs.
    destruct (UO x) as [->|(E & i & E')]; [done|]. rewrite E, E'. done.
Qed.

Lemma shrink_resized (p v0 v1 : Z) (A A' : avm) : shrink p v0 v1 A A' -> resized p A A'.
Proof.
  intros [SO ST SM]. split.
  - intros x r Hx Hr. destruct (SO x) as [->|[E _]]; [done|]. rewrite E in Hx. by destruct Hr; simplify_eq.
  - intros d n Hd S. eapply sized_same; [done|]. intros v Hv.
    by destruct (SM d v) as [->|(? & _)].
  - apply set_eq. intros x. rewrite !elem_of_dirs.
    destruct (SO x) as [->|[E E']]; [done|]. rewrite E, E'. done.
Qed.

Lemma allocuvm_client (s : vmst) (A : avm) (p old new : Z) :
  vminv s A -> own A !! p = Some ODir -> sized A p old -> old <= new < KERNBASE ->
  can_map p ((old + 4095) / 4096) ((new + 4095) / 4096) A ->
  wp (allocuvm (P2V p) old new) (fun r s' => exists A', vminv s' A' /\ vm_only s s' /\
    resized p A A' /\ ((r = new /\ sized A' p new) \/ (r = 0 /\ sized A' p old))) s.
Proof.
  intros V Hp [S1 S2 S3] Hn Hcan. eapply wp_mono.
  { apply (allocuvm_spec s A p old new); try done; [lia|lia|]. intros v Hv. apply S3. zlia. }
  intros r s' (A' & V' & P & D & [(-> & Ad & _)|(-> & U & _)]); exists A'; split_and!; try done.
  - by eapply added_resized.
  - left. split; [done|]. split; [lia|..].
    + intros v Hv. destruct (decide (v < (old + 4095) / 4096)) as [Hlt|Hge].
      * rewrite (ad_maps _ _ _ _ _ _ Ad) by lia. apply S2. lia.
      * destruct (ad_new _ _ _ _ _ _ Ad v ltac:(lia)) as (f & -> & _). eauto.
    + intros v Hv. rewrite (ad_maps _ _ _ _ _ _ Ad) by lia. apply S3. zlia.
  - by apply undone_resized.
  - right. split; [done|]. eapply (sized_same A); [by split|]. intros v Hv. by rewrite (un_maps _ _ _ U).
Qed.

Lemma deallocuvm_client (s : vmst) (A : avm) (p old new : Z) :
  vminv s A -> own A !! p = Some ODir -> sized A p old -> 0 <= new < old ->
  wp (deallocuvm (P2V p) old new) (fun r s' => exists A', vminv s' A' /\ vm_only s s' /\
    resized p A A' /\ r = new /\ sized A' p new) s.
Proof.
  intros V Hp [S1 S2 S3] Hn. eapply wp_mono.
  { apply (deallocuvm_spec s A p old new); try done; [lia|].
    destruct (decide ((new + 4095) / 4096 < (old + 4095) / 4096)) as [Hlt|Hge].
    - right; left. destruct (S2 ((new + 4095) / 4096)) as [e He]; [zlia|].
      destruct (entry_facts s A p _ e (vi_rep _ _ V) He) as (_ & _ & _ & t & Ht). eauto.
    - right; right. intros v Hv. lia. }
  intros r s' (A' & -> & V' & P & D & S & HN). exists A'. split_and!; try done.
  - by eapply shrink_resized.
  - split; [lia|..].
    + intros v Hv. destruct (sh_maps _ _ _ _ _ S p v) as [->|(_ & ? & _)]; [|lia]. apply S2. zlia.
    + intros v Hv. destruct (decide (v < (old + 4095) / 4096)) as [Hlt|Hge]; [apply HN; lia|].
      destruct (sh_maps _ _ _ _ _ S p v) as [->|(_ & ? & _)]; [|lia]. apply S3. lia.
Qed.

Lemma size_list_le (l : list Z) : (size (list_to_set l : gset Z) <= length l)%nat.
Proof.
  induction l as [|x l IH]; cbn; [by rewrite size_empty|]. rewrite size_union_alt, size_singleton.
  assert (size ((list_to_set l : gset Z) ∖ {[x]}) <= size (list_to_set l : gset Z))%nat
    by (apply subseteq_size; set_solver). lia.
Qed.

(** A list of the directories bounds their number. *)
Lemma dirs_bound (A : avm) (l : list Z) :
  (forall d, own A !! d = Some ODir -> d ∈ l) -> (size (dirs A) <= length l)%nat.
Proof.
  intros H. etransitivity; [|apply size_list_le].
  apply subseteq_size. intros x Hx. apply elem_of_list_to_set, H. by apply elem_of_dirs.
Qed.

(** ** A new address space and page faults *)

Lemma setupkvm_client (s : vmst) (A : avm) :
  vminv s A ->
  wp setupkvm (fun r s' => exists A', vminv s' A' /\ vm_only s s' /\ keeps A A' /\
    ((r = 0 /\ dirs A' = dirs A) \/
     exists d, r = P2V d /\ own A !! d = Some OFree /\ own A' !! d = Some ODir /\ sized A' d 0 /\
       dirs A' = {[ d ]} ∪ dirs A)) s.
Proof.
  intros V. eapply wp_mono; [by apply setupkvm_spec|].
  intros r s' (A' & V' & P & D & [(f & -> & [N1 N2 N3 N4 N5])|(-> & EO & ET & EM)]); exists A'; split_and!; try done.
  - split.
    + intros x r Hx Hr. destruct (decide (x = f)) as [->|Hne]; [rewrite N1 in Hx; by destruct Hr; simplify_eq|].
      destruct (N3 x Hne) as [->|[E _]]; [done|]. rewrite E in Hx. by destruct Hr; simplify_eq.
    + intros d n Hd S. assert (d <> f) by congruence. eapply sized_same; [done|]. intros v Hv.
      by rewrite N5, decide_False.
  - right. exists f. split_and!; [done|done|done|..].
    + split; [zlia|intros v Hv; zlia|]. intros v Hv. rewrite N5, decide_True by done. apply kent_user. lia.
    + apply set_eq. intros x. rewrite elem_of_union, elem_of_singleton, !elem_of_dirs.
      destruct (decide (x = f)) as [->|Hx]; [naive_solver|].
      destruct (N3 x Hx) as [->|(E & i & E')]; [naive_solver|]. rewrite E, E'. naive_solver.
  - split; [intros x r Hx _; by rewrite EO|]. intros d n Hd S. eapply sized_same; [done|]. intros v Hv. by rewrite EM.
  - left. split; [done|]. unfold dirs. by rewrite EO.
Qed.

Lemma resolved_keeps s s' A A' d v e :
  maps A !! (d, v) = Some e -> resolved d v e s s' A A' -> keeps A A' /\ dirs A' = dirs A.
Proof.
  intros He [(e' & HM & _) _ HO _ HD]. split; [split|].
  - intros x r Hx [->| ->]; by apply HO.
  - intros q n Hq HS. eapply sized_same; [done|]. intros w Hw. rewrite HM. destruct (decide ((d, v) = (q, w))) as [[= -> ->]|Hne].
    + rewrite lookup_insert_eq, He. split; eauto.
    + by rewrite lookup_insert_ne.
  - apply set_eq. intros x. rewrite !elem_of_dirs. split; [apply HD|]. intros Hx. by apply HO.
Qed.

(** The fault of an access that the hardware refused. *)
Lemma pagefault_client (s : vmst) (A : avm) (d va : Z) (wr : bool) :
  vminv s A -> own A !! d = Some ODir -> 0 <= va < 4294967296 -> mmu (mem s) d va wr = None ->
  wp (pagefault va (P2V d)) (fun killed s' => exists A', vminv s' A' /\ keeps A A' /\ dirs A' = dirs A /\ same_views A s s' /\
    (killed = false -> user_store (mem s') d va 0 <> None)) s.
Proof.
  intros V Hd Hva HM. rewrite (mmu_spec s A) in HM by (done || apply V).
  destruct (pagefault_other_spec s A d va V Hd Hva) as [HO _].
  assert (HSame : refused A d va -> wp (pagefault va (P2V d)) (fun killed s' => exists A', vminv s' A' /\ keeps A A' /\ dirs A' = dirs A /\
    same_views A s s' /\ (killed = false -> user_store (mem s') d va 0 <> None)) s).
  { intros HR. unfold wp. rewrite (HO HR). exists A. by split_and!; [|apply keeps_refl|..]. }
  destruct (Z.le_gt_cases KERNBASE va) as [Hk|Hk]; [apply HSame; by left|].
  destruct (maps A !! (d, vpn va)) as [e|] eqn:He; [|apply HSame; right; by rewrite He].
  destruct (Z.testbit e 2) eqn:E2; [|apply HSame; right; by rewrite He].
  assert (E1 : Z.testbit e 1 = false).
  { destruct (entry_facts s A d _ e (vi_rep _ _ V) He) as (_ & _ & Hpr & _). unfold present in Hpr.
    unfold mmu_allows in HM. rewrite Hpr, E2 in HM. destruct (Z.testbit e 1), wr; done. }
  eapply wp_mono; [apply (pagefault_spec s A d va e); done || lia|].
  intros b s' (A' & V' & H). destruct b.
  - destruct H as (-> & _ & EM). exists A. split_and!; [done|apply keeps_refl|done| |done]. intros q x _ _. by rewrite EM.
  - destruct (resolved_keeps _ _ _ _ _ _ _ He H) as [K ED]. exists A'. split_and!; [done|done|done| |].
    + eapply resolved_views; eauto. unfold vpn. zlia.
    + intros _. destruct H as [(e' & HM' & Ha & _) _ HO' _ _]. unfold user_store.
      rewrite (mmu_spec s' A'), HM', lookup_insert_eq, Ha by (done || apply V' || by apply HO'). done.
Qed.

Lemma user_write_client (s : vmst) (A : avm) (d va b : Z) :
  vminv s A -> own A !! d = Some ODir -> 0 <= va < KERNBASE ->
  wp (user_write d va b) (fun killed s' => exists A', vminv s' A' /\ keeps A A' /\ dirs A' = dirs A) s.
Proof.
  intros V Hd Hva. unfold user_write. apply wp_bind. unfold user_try at 1.
  destruct (user_store (mem s) d va b) as [m'|] eqn:ES; (eapply wp_from_Ok; [rewrite ES; reflexivity|]).
  { destruct (user_store_spec s A d va b m') as [V' _]; try done. apply wp_ret. exists A. by split_and!; [|apply keeps_refl|]. }
  assert (HM : mmu (mem s) d va true = None) by (unfold user_store in ES; by destruct (mmu (mem s) d va true)).
  apply wp_bind. eapply wp_mono; [apply (pagefault_client s A d va true V Hd); [zlia|done]|].
  intros killed s1 (A1 & V1 & K1 & D1 & _ & HS). destruct killed; [apply wp_ret; eauto|].
  specialize (HS eq_refl). assert (exists m', user_store (mem s1) d va b = Some m') as [m' ES1].
  { unfold user_store in *. destruct (mmu (mem s1) d va true); [cbn; eauto|done]. }
  apply wp_bind. eapply wp_from_Ok; [unfold user_try; rewrite ES1; reflexivity|]. apply wp_ret.
  destruct (user_store_spec s1 A1 d va b m') as [V' _]; try done; [by eapply kp_own; eauto|]. exists A1. by split_and!.
Qed.
End Pages.

(** ** Reference counts in memory

    The operations that the kernel makes on memory, one at a time, with what
    the caller has to remember: the directories it has been given, each with
    the size of its address space, and the pages it has got from [kalloc]. *)

Record vsys := mkvsys {
  v_vm : vmst;
  v_dirs : gmap Z Z;
  v_pages : gset Z;
}.
Definition set_v_vm (x : vmst) (S : vsys) : vsys := mkvsys x (v_dirs S) (v_pages S).
Definition set_v_dirs (x : gmap Z Z) (S : vsys) : vsys := mkvsys (v_vm S) x (v_pages S).
Definition set_v_pages (x : gset Z) (S : vsys) : vsys := mkvsys (v_vm S) (v_dirs S) x.
Definition on_pages {A} (c : MV A) : M vsys A := zoom v_vm set_v_vm c.

Inductive vop :=
| VKalloc
| VKfree (f : Z)
| VSetup
| VGrow (d n : Z)
| VShrink (d n : Z)
| VCopy (d : Z)
| VFree (d : Z)
| VWrite (d va b : Z).

Section Counts.
Context `{KI : KernelImage} `{KIO : !KernelImageOk}.

(** The size the caller knows of. *)
Definition size_of (d : Z) (S : vsys) : Z := default 0 (v_dirs S !! d).

Definition vdo (o : vop) : M vsys unit :=
  match o with
  | VKalloc =>
      let! r := on_pages kalloc in
      when (negb (r =? 0)) (modify (fun S => set_v_pages ({[ V2P r ]} ∪ v_pages S) S))
  | VKfree f =>
      on_pages (kfree (P2V f)) ;;;
      modify (fun S => set_v_pages (v_pages S ∖ {[ f ]}) S)
  | VSetup =>
      let! r := on_pages setupkvm in
      when (negb (r =? 0)) (modify (fun S => set_v_dirs (<[V2P r := 0]> (v_dirs S)) S))
  | VGrow d n =>
      let! old := gets (size_of d) in
      let! r := on_pages (allocuvm (P2V d) old n) in
      when (negb (r =? 0)) (modify (fun S => set_v_dirs (<[d := n]> (v_dirs S)) S))
  | VShrink d n =>
      let! old := gets (size_of d) in
      on_pages (deallocuvm (P2V d) old n) ;;;
      modify (fun S => set_v_dirs (<[d := n]> (v_dirs S)) S)
  | VCopy d =>
      let! n := gets (size_of d) in
      let! r := on_pages (copyuvm (P2V d) n) in
      when (negb (r =? 0)) (modify (fun S => set_v_dirs (<[V2P r := n]> (v_dirs S)) S))
  | VFree d =>
      on_pages (freevm (P2V d)) ;;;
      modify (fun S => set_v_dirs (delete d (v_dirs S)) S)
  | VWrite d va b => on_pages (user_write d va b) ;;; ret tt
  end.

(** Callers free what they hold, grow with two free pages for each new page,
    shrink to a smaller size, and copy while there are at most 126 address
    spaces. *)
Definition allowed (o : vop) (S : vsys) : Prop :=
  match o with
  | VKalloc | VSetup => True
  | VKfree f => f ∈ v_pages S
  | VGrow d n => exists old fl, v_dirs S !! d = Some old /\ 0 < n /\ old <= n < KERNBASE /\
      freelist_rep (mem (v_vm S)) (freelist (v_vm S)) fl /\
      (2 * Z.to_nat ((n + 4095) / 4096 - (old + 4095) / 4096) <= length fl)%nat
  | VShrink d n => exists old, v_dirs S !! d = Some old /\ 0 <= n < old
  | VCopy d => is_Some (v_dirs S !! d) /\ (size (v_dirs S) <= 126)%nat
  | VFree d => is_Some (v_dirs S !! d)
  | VWrite d va b => is_Some (v_dirs S !! d) /\ 0 <= va < KERNBASE
  end.

(** At the start: the counts are 0, the free list is empty, and every page
    after the kernel is with the kernel, for [freerange] to free. *)
#[export] Instance page_ok_dec (f : Z) : Decision (page_ok f).
Proof. unfold page_ok. apply _. Defined.
Definition all_pages : gset Z := list_to_set (filter page_ok ((fun i => 4096 * i) <$> seqZ 0 57344)).
Lemma all_pages_ok (x : Z) : x ∈ all_pages -> page_ok x.
Proof. unfold all_pages. intros Hx. apply elem_of_list_to_set, list_elem_of_filter in Hx. apply Hx. Qed.
#[local] Opaque all_pages.
Definition at_start (S : vsys) : Prop :=
  mem_wf (mem (v_vm S)) /\ kmem_lock (v_vm S) = false /\ vm_lock (v_vm S) = false /\
  freelist (v_vm S) = 0 /\ (forall j, pg_refcount (v_vm S) j = 0) /\
  v_dirs S = ∅ /\ v_pages S = all_pages.

Inductive vruns (S0 : vsys) : vsys -> Prop :=
| vr_start : at_start S0 -> vruns S0 S0
| vr_step o S S' : vruns S0 S -> allowed o S -> vdo o S = Ok tt S' -> vruns S0 S'.

(** *** The invariant *)

Record vsys_inv (S : vsys) (A : avm) : Prop := mkvsysinv {
  vs_vm : vminv (v_vm S) A;
  vs_dirs : dom (v_dirs S) = dirs A;
  vs_sized : forall d n, v_dirs S !! d = Some n -> sized A d n;
  vs_pages : forall x, x ∈ v_pages S -> own A !! x = Some OKern;
}.

Lemma vs_dir S A d n : vsys_inv S A -> v_dirs S !! d = Some n -> own A !! d = Some ODir.
Proof. intros [_ H _ _] Hd. apply elem_of_dirs. rewrite <- H. apply elem_of_dom. eauto. Qed.

Lemma start_inv S : at_start S -> exists A, vsys_inv S A.
Proof.
  intros (HW & HK & HL & HF & HR & HD & HP).
  set (A := mkavm [] (gset_to_gmap OKern all_pages) ∅ ∅). exists A.
  assert (HO : forall x r, own A !! x = Some r -> r = OKern /\ page_ok x).
  { intros x r Hx. change (gset_to_gmap OKern all_pages !! x = Some r) in Hx. apply lookup_gset_to_gmap_Some in Hx as [Hx <-].
    split; [done|by apply all_pages_ok]. }
  assert (ER : forall f, refs (maps A) f = 0%nat) by (intros f; apply refs_zero; by intros).
  split.
  - split; [split; [done|]|done|].
    + split; cbn [free tab maps A]; try done.
      * intros f r Hf. by apply (HO f r).
      * apply NoDup_nil_2.
      * intros f. split; [by intros ?%elem_of_nil|]. by intros [? _]%HO.
      * intros p i t. split; [done|]. by intros [? _]%HO.
      * intros p i Hp. by apply HO in Hp as [? _].
    + split.
      * intros f. rewrite ER. split; [by intros [? _]%HO|lia].
      * intros f _. by rewrite ER, HR.
      * intros f. rewrite ER. lia.
      * intros p v e He. done.
      * intros p v v' e e' He. done.
  - rewrite HD, dom_empty_L. symmetry. apply set_eq. intros x. rewrite elem_of_dirs. split; [by intros [? _]%HO|by intros ?%elem_of_empty].
  - intros d n. by rewrite HD.
  - intros x Hx. rewrite HP in Hx. change (gset_to_gmap OKern all_pages !! x = Some OKern).
    by apply lookup_gset_to_gmap_Some.
Qed.

Lemma freelist_rep_inj (m : memory) (l1 : list Z) : forall l2 h,
  freelist_rep m h l1 -> freelist_rep m h l2 -> l1 = l2.
Proof.
  induction l1 as [|f l1 IH]; intros [|g l2] h; cbn [freelist_rep].
  - done.
  - intros -> (E & Hg & _). by destruct (P2V_page_nonzero g Hg).
  - intros (E & Hf & _) ->. by destruct (P2V_page_nonzero f Hf).
  - intros (-> & Hf & H1) (E & Hg & H2). assert (f = g) as <- by (rewrite !P2V_page in E by done; lia).
    f_equal. by eapply IH.
Qed.

(** The invariant with [S'] a state whose remembered parts are still right. *)
Lemma keeps_inv S S' A A' :
  vsys_inv S A -> vminv (v_vm S') A' -> keeps A A' -> dirs A' = dirs A ->
  v_dirs S' = v_dirs S -> v_pages S' = v_pages S -> vsys_inv S' A'.
Proof.
  intros I V K D E1 E2. split; [done|by rewrite E1, D; apply I| |].
  - intros d n. rewrite E1. intros Hd. apply (kp_sized _ _ K); [by eapply vs_dir|by apply I].
  - intros x. rewrite E2. intros Hx. apply (kp_own _ _ K); [by apply I|by right].
Qed.

Lemma new_dir_inv S s' A A' d n :
  vsys_inv S A -> vminv s' A' -> keeps A A' -> own A !! d = Some OFree ->
  sized A' d n -> dirs A' = {[ d ]} ∪ dirs A ->
  vsys_inv (set_v_dirs (<[d := n]> (v_dirs S)) (set_v_vm s' S)) A'.
Proof.
  intros I V K HF HS D. split; cbn; [done|by rewrite dom_insert_L, D, (vs_dirs _ _ I)| |].
  - intros d' n' Hd. apply lookup_insert_Some in Hd as [[<- <-]|[Hne Hd]]; [done|].
    apply (kp_sized _ _ K); [by eapply vs_dir|by apply I].
  - intros x Hx. apply (kp_own _ _ K); [by apply I|by right].
Qed.

Lemma resized_inv S s' A A' d n :
  vsys_inv S A -> vminv s' A' -> resized d A A' -> is_Some (v_dirs S !! d) -> sized A' d n ->
  vsys_inv (set_v_dirs (<[d := n]> (v_dirs S)) (set_v_vm s' S)) A'.
Proof.
  intros I V [RO RT RD] [m Hm] HS. split; cbn; [done| | |].
  - rewrite dom_insert_L, RD, <- (vs_dirs _ _ I). assert (d ∈ dom (v_dirs S)) by (apply elem_of_dom; eauto). set_solver.
  - intros d' n' Hd. apply lookup_insert_Some in Hd as [[<- <-]|[Hne Hd]]; [done|]. apply RT; [done|by apply I].
  - intros x Hx. apply RO; [by apply I|by right].
Qed.

Lemma V2P_dir s A d r : vminv s A -> own A !! d = Some r -> V2P (P2V d) = d /\ (P2V d =? 0) = false.
Proof.
  intros V Hd. pose proof (tb_pages _ _ _ (rp_tbl _ _ (vi_rep _ _ V)) _ _ Hd) as Hp.
  split; [by apply V2P_P2V_page|]. by apply Z.eqb_neq, P2V_page_nonzero.
Qed.

Lemma grow_inv S A d n :
  vsys_inv S A -> allowed (VGrow d n) S -> wp (vdo (VGrow d n)) (fun _ S' => exists A', vsys_inv S' A') S.
Proof.
  intros I (old & fl & Hd & H0 & Hn & HF & HL). pose proof (vs_vm _ _ I) as V. cbn [vdo].
  assert (EF : fl = free A) by (eapply freelist_rep_inj; [exact HF|apply (rp_tbl _ _ (vi_rep _ _ V))]). subst fl.
  wp_step. apply wp_gets. unfold size_of. rewrite Hd. cbn [default]. wp_step. apply wp_zoom.
  eapply wp_mono; [apply (allocuvm_client _ A d old n V); [by eapply vs_dir|by apply I|done|by right]|].
  intros r s' (A' & V' & _ & R & [(-> & HS)|(-> & HS)]).
  - rewrite (proj2 (Z.eqb_neq n 0)) by lia. cbn [negb when]. apply wp_modify. exists A'. by apply (resized_inv S s' A); eauto.
  - cbn [Z.eqb negb when]. apply wp_ret. exists A'. pose proof (resized_inv S s' A A' d old I V' R ltac:(eauto) HS) as I'.
    by rewrite insert_id in I'.
Qed.

Lemma copy_inv S A d :
  vsys_inv S A -> allowed (VCopy d) S -> wp (vdo (VCopy d)) (fun _ S' => exists A', vsys_inv S' A') S.
Proof.
  intros I ([n Hd] & HS). pose proof (vs_vm _ _ I) as V. cbn [vdo].
  wp_step. apply wp_gets. unfold size_of. rewrite Hd. cbn [default]. wp_step. apply wp_zoom.
  eapply wp_mono; [apply (copyuvm_client _ A d n V); [by eapply vs_dir|by apply I|]|].
  { rewrite <- (vs_dirs _ _ I), size_dom. done. }
  intros r s' (A' & V' & _ & K & [(-> & EO & _)|(c & -> & HF & HC & HZ & HD & _)]).
  - cbn [Z.eqb negb when]. apply wp_ret. exists A'. apply (keeps_inv S _ A); try done. unfold dirs. by rewrite EO.
  - destruct (V2P_dir s' A' c ODir V' HC) as [-> ->]. cbn [negb when]. apply wp_modify. exists A'. by apply (new_dir_inv S s' A).
Qed.

Lemma setup_inv S A :
  vsys_inv S A -> wp (vdo VSetup) (fun _ S' => exists A', vsys_inv S' A') S.
Proof.
  intros I. cbn [vdo]. wp_step. apply wp_zoom. eapply wp_mono; [apply (setupkvm_client _ A), I|].
  intros r s' (A' & V' & _ & K & [(-> & HD)|(c & -> & HF & HC & HZ & HD)]).
  - cbn [Z.eqb negb when]. apply wp_ret. exists A'. by apply (keeps_inv S _ A).
  - destruct (V2P_dir s' A' c ODir V' HC) as [-> ->]. cbn [negb when]. apply wp_modify. exists A'. by apply (new_dir_inv S s' A).
Qed.

Lemma kalloc_inv S A :
  vsys_inv S A -> wp (vdo VKalloc) (fun _ S' => exists A', vsys_inv S' A') S.
Proof.
  intros I. cbn [vdo]. wp_step. apply wp_zoom. eapply wp_mono; [apply (kalloc_client _ A), I|].
  intros r s' (A' & V' & _ & K & _ & HD & [(-> & -> & _)|(f & -> & HF & HO & _)]).
  - cbn [Z.eqb negb when]. apply wp_ret. exists A. by apply (keeps_inv S _ A).
  - destruct (V2P_dir s' A' f OKern V' HO) as [-> ->]. cbn [negb when]. apply wp_modify. exists A'.
    destruct (keeps_inv S (set_v_vm s' S) A A' I V' K HD eq_refl eq_refl) as [I1 I2 I3 I4]. split; cbn; try done.
    intros x [->%elem_of_singleton|Hx]%elem_of_union; [done|by apply I4].
Qed.

Lemma kfree_inv S A f :
  vsys_inv S A -> f ∈ v_pages S -> wp (vdo (VKfree f)) (fun _ S' => exists A', vsys_inv S' A') S.
Proof.
  intros I Hf. cbn [vdo]. wp_step. apply wp_zoom. pose proof (vs_pages _ _ I f Hf) as HO.
  eapply wp_mono; [apply (kfree_client _ A f); [apply I|done]|].
  intros [] s' (A' & V' & _ & HD & HF & EM & Hx & _). apply wp_modify. exists A'. split; cbn; [done|by rewrite HD; apply I| |].
  - intros d n Hd. eapply sized_same; [by apply I|]. intros v Hv. by rewrite EM.
  - intros x [H1 H2%not_elem_of_singleton]%elem_of_difference. rewrite Hx by done. by apply I.
Qed.

Lemma free_inv S A d :
  vsys_inv S A -> is_Some (v_dirs S !! d) -> wp (vdo (VFree d)) (fun _ S' => exists A', vsys_inv S' A') S.
Proof.
  intros I [n Hd]. cbn [vdo]. wp_step. apply wp_zoom. eapply wp_mono; [apply (freevm_client _ A d); [apply I|by eapply vs_dir]|].
  intros [] s' (A' & V' & _ & HF & HD & HO & HS & _). apply wp_modify. exists A'. split; cbn; [done| | |].
  - by rewrite dom_delete_L, HD, (vs_dirs _ _ I).
  - intros d' n' [Hne Hd']%lookup_delete_Some. apply HS; [by eapply vs_dir|done|by apply I].
  - intros x Hx. apply HO; [by apply I|by right|]. intros ->. pose proof (vs_pages _ _ I d Hx). pose proof (vs_dir _ _ _ _ I Hd). congruence.
Qed.

Lemma vdo_inv o S A :
  vsys_inv S A -> allowed o S -> wp (vdo o) (fun _ S' => exists A', vsys_inv S' A') S.
Proof.
  intros I H. destruct o as [|f| |d n|d n|d|d|d va b].
  - by eapply kalloc_inv.
  - by eapply kfree_inv.
  - by eapply setup_inv.
  - by eapply grow_inv.
  - destruct H as (old & Hd & Hn). cbn [vdo]. wp_step. apply wp_gets. unfold size_of. rewrite Hd. cbn [default]. wp_step. apply wp_zoom.
    eapply wp_mono; [apply (deallocuvm_client _ A d old n); [apply I|by eapply vs_dir|by apply I|done]|].
    intros r s' (A' & V' & _ & R & _ & HS). apply wp_modify. exists A'. by apply (resized_inv S s' A); eauto.
  - by eapply copy_inv.
  - by eapply free_inv.
  - destruct H as ([n Hd] & Hva). cbn [vdo]. wp_step. apply wp_zoom.
    eapply wp_mono; [apply (user_write_client _ A d va b); [apply I|by eapply vs_dir|done]|].
    intros r s' (A' & V' & K & HD). apply wp_ret. exists A'. by apply (keeps_inv S _ A).
Qed.

Lemma vruns_inv S0 S : vruns S0 S -> exists A, vsys_inv S A.
Proof.
  induction 1 as [HS|o S S' _ [A I] HA HE]; [by apply start_inv|].
  destruct (wp_Ok _ _ _ (vdo_inv o S A I HA)) as ([] & S1 & E & A' & I'). rewrite HE in E. injection E as <-. eauto.
Qed.

(** *** The page tables in memory *)

(** The entry for page [v] of the directory [d], 0 without a page table. *)
Definition pte_at (m : memory) (d v : Z) : Z :=
  let pde := load32 m (d + 4 * (v / 1024)) in
  if present pde then load32 m (PTE_ADDR pde + 4 * (v mod 1024)) else 0.

(** It maps the page [f]. *)
Definition pte_refers (m : memory) (f : Z) (dv : Z * Z) : Prop :=
  present (pte_at m dv.1 dv.2) = true /\ PTE_ADDR (pte_at m dv.1 dv.2) = f.
#[export] Instance pte_refers_dec m f dv : Decision (pte_refers m f dv).
Proof. unfold pte_refers. apply _. Defined.

(** The number of user entries of the directories [ds] that map [f]. *)
Definition user_entries (ds : list Z) : list (Z * Z) := d ← ds; v ← seqZ 0 UVPN; [(d, v)].
Definition mem_refs (m : memory) (ds : list Z) (f : Z) : nat := length (filter (pte_refers m f) (user_entries ds)).

Lemma pte_at_spec s A d v :
  vminv s A -> own A !! d = Some ODir -> 0 <= v < UVPN ->
  match maps A !! (d, v) with Some e => pte_at (mem s) d v = e /\ present e = true | None => present (pte_at (mem s) d v) = false end.
Proof.
  intros V Hd Hv. pose proof (rp_tbl _ _ (vi_rep _ _ V)) as T. unfold pte_at.
  pose proof (tb_pde _ _ _ T d (v / 1024) Hd ltac:(zlia)) as HP.
  destruct (tab A !! (d, v / 1024)) as [t|] eqn:Ht; cbn in HP.
  - pose proof (tab_page _ _ _ _ _ _ T Ht) as Htp. destruct (pde_decode t Htp) as [Hpr HA].
    rewrite present_land, negb_involutive in Hpr. rewrite HP, Hpr, HA.
    pose proof (tb_pte _ _ _ T d (v / 1024) t (v mod 1024) Ht ltac:(zlia)) as HE.
    replace (1024 * (v / 1024) + v mod 1024) with v in HE by zlia. destruct (maps A !! (d, v)) as [e|] eqn:He; cbn in HE; [|done].
    split; [done|]. by destruct (entry_facts s A d v e (vi_rep _ _ V) He) as (_ & _ & ? & _).
  - assert (HN : present (load32 (mem s) (d + 4 * (v / 1024))) = false) by exact HP. rewrite HN.
    destruct (maps A !! (d, v)) as [e|] eqn:He; [|done].
    destruct (entry_facts s A d v e (vi_rep _ _ V) He) as (_ & _ & _ & t & Ht'). congruence.
Qed.

Lemma elem_user_entries ds d v : (d, v) ∈ user_entries ds <-> d ∈ ds /\ 0 <= v < UVPN.
Proof.
  unfold user_entries. rewrite list_elem_of_bind. split.
  - intros (d' & (v' & E & Hv)%list_elem_of_bind & Hd). apply list_elem_of_singleton in E as [= -> ->].
    apply elem_of_seqZ in Hv. split; [done|lia].
  - intros [Hd Hv]. exists d. split; [|done]. apply list_elem_of_bind. exists v. split; [by left|]. apply elem_of_seqZ. lia.
Qed.

Lemma NoDup_pairs (d : Z) (l : list Z) : NoDup l -> NoDup (v ← l; [(d, v)]).
Proof.
  induction 1 as [|v l Hv HN IH]; cbn; [constructor|]. apply NoDup_cons. split; [|done].
  intros (v' & E & Hv')%list_elem_of_bind. by apply list_elem_of_singleton in E as [= <-].
Qed.

Lemma NoDup_user_entries ds : NoDup ds -> NoDup (user_entries ds).
Proof.
  induction 1 as [|d ds Hd HN IH]; [constructor|]. unfold user_entries. cbn [mbind list_bind]. apply NoDup_app. split_and!.
  - apply NoDup_pairs, NoDup_seqZ.
  - intros [d' v] (v' & E & _)%list_elem_of_bind Hin. apply list_elem_of_singleton in E as [= -> ->].
    by apply (elem_user_entries ds) in Hin as [? _].
  - exact IH.
Qed.

(** The count of the invariant is the count in memory. *)
Lemma refs_mem_refs s A f (ds : gset Z) :
  vminv s A -> dirs A = ds -> refs (maps A) f = mem_refs (mem s) (elements ds) f.
Proof.
  intros V HD. unfold refs, mem_refs. rewrite <- length_map_to_list, <- (length_fmap fst).
  apply Permutation_length, NoDup_Permutation.
  - apply NoDup_fst_map_to_list.
  - apply NoDup_filter, NoDup_user_entries, NoDup_elements.
  - intros [d v]. rewrite list_elem_of_filter, elem_user_entries, elem_of_elements, <- HD, elem_of_dirs. unfold pte_refers. cbn [fst snd]. split.
    + intros ([[d' v'] e] & E & Hin)%list_elem_of_fmap. cbn in E. injection E as -> ->.
      apply elem_of_map_to_list, map_lookup_filter_Some in Hin as [He [Hv HA]]. cbn in Hv, HA.
      destruct (entry_facts s A d' v' e (vi_rep _ _ V) He) as (Hv' & _ & Hpr & t & Ht).
      apply (tb_tab_dir _ _ _ (rp_tbl _ _ (vi_rep _ _ V))) in Ht as [Hd _].
      pose proof (pte_at_spec s A d' v' V Hd ltac:(lia)) as HE. rewrite He in HE. destruct HE as [-> _]. split_and!; done || lia.
    + intros ((Hpr & HA) & Hd & Hv). pose proof (pte_at_spec s A d v V Hd Hv) as HE.
      destruct (maps A !! (d, v)) as [e|] eqn:He; [|congruence]. destruct HE as [E _]. rewrite E in HA.
      apply list_elem_of_fmap. exists ((d, v), e). split; [done|]. apply elem_of_map_to_list, map_lookup_filter_Some.
      split; [done|]. split; [cbn; lia|done].
Qed.

Lemma vkfree_pages f S S' : vdo (VKfree f) S = Ok tt S' -> v_pages S' = v_pages S ∖ {[ f ]}.
Proof. cbn [vdo]. unfold bind, on_pages, zoom. destruct (kfree (P2V f) (v_vm S)); [|done..]. by intros [= <-]. Qed.

(** C5. Reference counts are exact and the operations on memory safe.  From the
    start of the kernel, when nothing is mapped and no page free, let the
    allocator and the address spaces be used one operation at a time: pages
    freed, [freerange] first, and allocated, address spaces made, grown (two
    free pages for each new one being there), shrunk, copied by [fork] (with at
    most 126 of them), freed, and written to by user programs with the page
    faults this causes, in any order.  In every state reached the [char]
    [pg_refcount] of every page is the number of user entries, in the page
    tables in memory, that map it, and at most 127, and every such operation
    returns. *)
Theorem refcount_exact (S0 S : vsys) :
  vruns S0 S ->
  (forall f, page_ok f ->
     pg_refcount (v_vm S) (f / 4096) = Z.of_nat (mem_refs (mem (v_vm S)) (elements (dom (v_dirs S))) f) /\
     0 <= pg_refcount (v_vm S) (f / 4096) <= 127) /\
  (forall o, allowed o S -> exists S', vdo o S = Ok tt S').
Proof.
  intros HR. destruct (vruns_inv S0 S HR) as [A I]. pose proof (vs_vm _ _ I) as V. split.
  - intros f Hf. rewrite <- (refs_mem_refs _ A f) by (done || by rewrite (vs_dirs _ _ I)).
    pose proof (cw_refs _ _ (vi_cow _ _ V) f Hf) as E. pose proof (cw_bound _ _ (vi_cow _ _ V) f). lia.
  - intros o Ho. destruct (wp_Ok _ _ _ (vdo_inv o S A I Ho)) as ([] & S' & E & _). eauto.
Qed.
End Counts.

(** The kernel of [Sample] just loaded: two pages are freed, and then an address
    space is asked for. *)
Module CountSample.
Definition start : vsys :=
  mkvsys (mkvm (fun _ => 0) 0 false 0 0 false (fun _ => 0) 0 0 (mktss 0 0 0 0)) ∅ all_pages.

Lemma start_ok : at_start start.
Proof. by split_and!. Qed.

Lemma page_in (f : Z) : page_ok f -> f ∈ all_pages.
Proof.
  intros Hf. apply elem_of_list_to_set, list_elem_of_filter. split; [done|]. apply list_elem_of_fmap.
  pose proof (page_ok_bounds f Hf) as [H1 H2]. destruct Hf as [Ha _]. exists (f / 4096). split; [zlia|]. apply elem_of_seqZ. zlia.
Qed.

Lemma refcount_exact_witness :
  exists S1 S2 S3, vdo (VKfree 0x200000) start = Ok tt S1 /\ vdo (VKfree 0x201000) S1 = Ok tt S2 /\ vdo VSetup S2 = Ok tt S3 /\
    pg_refcount (v_vm S3) (0x200000 / 4096) = Z.of_nat (mem_refs (mem (v_vm S3)) (elements (dom (v_dirs S3))) 0x200000).
Proof.
  assert (P1 : page_ok 0x200000) by (unfold page_ok; vm_compute; split_and!; congruence).
  assert (P2 : page_ok 0x201000) by (unfold page_ok; vm_compute; split_and!; congruence).
  assert (R0 : vruns start start) by (apply vr_start, start_ok).
  destruct (proj2 (refcount_exact start start R0) (VKfree 0x200000)) as [S1 E1]; [by apply page_in|].
  assert (R1 : vruns start S1) by (eapply vr_step; [exact R0| |exact E1]; by apply page_in).
  assert (A2 : allowed (VKfree 0x201000) S1).
  { cbn [allowed]. rewrite (vkfree_pages _ _ _ E1). apply elem_of_difference. split; [by apply page_in|]. by rewrite elem_of_singleton. }
  destruct (proj2 (refcount_exact start S1 R1) _ A2) as [S2 E2].
  assert (R2 : vruns start S2) by (by eapply vr_step).
  destruct (proj2 (refcount_exact start S2 R2) VSetup I) as [S3 E3].
  exists S1, S2, S3. split_and!; [done|done|done|].
  apply (refcount_exact start S3); [|done]. exact (vr_step start VSetup S2 S3 R2 I E3).
Defined.
End CountSample.
