(* ===== verification/ProcInv.v ===== *)
(** * ProcInv: the process table and the memory it owns

    The invariant that ties the table to the memory subsystem - every process
    has its own kernel stack and its own page directory, which covers exactly
    its memory - and how updates of the table preserve it. *)
From stdpp Require Import base gmap list numbers strings.
From Stdlib Require Import ZArith Lia ZifyBool.
From S2P Require Import Prelude Machine Cstring Kalloc Vm Frames Tables Cow Fork Ptable Proc Pages.

(** Processes that have an address space. *)
Definition has_vm (p : proc) : Prop := state p <> UNUSED /\ state p <> EMBRYO.

#[export] Instance has_vm_dec (p : proc) : Decision (has_vm p).
Proof. unfold has_vm. apply _. Defined.

Section ProcInv.
Context `{KI : KernelImage} `{KIO : !KernelImageOk} {F : Type}.
Implicit Types (k : kst F) (A : avm).

Record slot_ok (next kpg : Z) (A : avm) (p : proc) : Prop := mkslot {
  so_kstack : state p <> UNUSED -> exists f, kstack p = P2V f /\ own A !! f = Some OKern;
  so_pid : state p <> UNUSED -> 0 < pid p < next;
  so_dir : has_vm p -> exists d, pgdir p = P2V d /\ own A !! d = Some ODir /\
             sized A d (sz p) /\ pgdir p <> kpg;
  so_nofile : length (ofile p) = 16%nat;
  so_closed : state p = ZOMBIE \/ ~ has_vm p -> ofile p = replicate 16 0;
  so_orphan : ~ has_vm p -> parent p = 0;
}.

(** Two processes share nothing. *)
Definition apart (p q : proc) : Prop :=
  (state p <> UNUSED -> state q <> UNUSED -> kstack p <> kstack q /\ pid p <> pid q) /\
  (has_vm p -> has_vm q -> pgdir p <> pgdir q).

(** The kernel's own page directory exists. *)
Definition kpg_ok (s : vmst) (A : avm) : Prop :=
  exists x, kpgdir s = P2V x /\ own A !! x = Some ODir.

Record pinv (k : kst F) (A : avm) : Prop := mkpinv {
  pi_vm : vminv (vm k) A;
  pi_kpg : kpg_ok (vm k) A;
  pi_len : length (procs k) = 64%nat;
  pi_next : 0 < nextpid k;
  pi_slot : forall i p, procs k !! i = Some p -> slot_ok (nextpid k) (kpgdir (vm k)) A p;
  pi_apart : forall i j p q, procs k !! i = Some p -> procs k !! j = Some q -> i <> j -> apart p q;
  pi_dirs : forall d, own A !! d = Some ODir -> P2V d = kpgdir (vm k) \/
              exists i p, procs k !! i = Some p /\ has_vm p /\ pgdir p = P2V d;
}.

Lemma apart_sym (p q : proc) : apart p q -> apart q p.
Proof. intros [H1 H2]. split; intros Hq Hp; [destruct (H1 Hp Hq) as [? ?]|specialize (H2 Hp Hq)]; auto. Qed.

Lemma kpg_dirs (s s' : vmst) (A A' : avm) :
  kpg_ok s A -> kpgdir s' = kpgdir s -> dirs A ⊆ dirs A' -> kpg_ok s' A'.
Proof.
  intros (x & E & Hx) Ek HD. exists x. split; [congruence|]. apply elem_of_dirs, HD. by apply elem_of_dirs.
Qed.

Lemma slot_keeps (next next' kpg : Z) (A A' : avm) (p : proc) :
  slot_ok next kpg A p -> keeps A A' -> next <= next' -> slot_ok next' kpg A' p.
Proof.
  intros [S1 S2 S3 S4 S5 S6] [KO KS] Hn. split; [..|done|done|done].
  - intros Hp. destruct (S1 Hp) as (f & E & Hf). exists f. auto.
  - intros Hp. pose proof (S2 Hp). lia.
  - intros Hp. destruct (S3 Hp) as (d & E & Hd & Hs & Hk). exists d. split_and!; auto.
Qed.

(** Replacing one slot. *)
Lemma pinv_slot (k k' : kst F) (A A' : avm) (i : nat) (p' : proc) :
  pinv k A -> vminv (vm k') A' -> kpg_ok (vm k') A' -> 0 < nextpid k' ->
  (i < 64)%nat -> procs k' = <[i := p']> (procs k) ->
  slot_ok (nextpid k') (kpgdir (vm k')) A' p' ->
  (forall j q, j <> i -> procs k !! j = Some q ->
     slot_ok (nextpid k') (kpgdir (vm k')) A' q /\ apart p' q) ->
  (forall d, own A' !! d = Some ODir -> P2V d = kpgdir (vm k') \/ (has_vm p' /\ pgdir p' = P2V d) \/
     exists j q, j <> i /\ procs k !! j = Some q /\ has_vm q /\ pgdir q = P2V d) ->
  pinv k' A'.
Proof.
  intros PI V' HK Hn Hi HP Hs Ho Hd. pose proof (pi_len _ _ PI) as HL.
  assert (Hlk : forall j q, procs k' !! j = Some q ->
            (j = i /\ q = p') \/ (j <> i /\ procs k !! j = Some q)).
  { intros j q. rewrite HP. destruct (decide (i = j)) as [<-|Hne].
    - rewrite list_lookup_insert_eq by lia. intros [= <-]. by left.
    - rewrite list_lookup_insert_ne by done. right. split; [congruence|done]. }
  split; [done|done|by rewrite HP, length_insert|done|..].
  - intros j q Hq. apply Hlk in Hq as [[_ ->]|[Hj Hq]]; [done|]. by apply (Ho j q).
  - intros j j' q q' Hq Hq' Hne.
    apply Hlk in Hq as [[-> ->]|[Hj Hq]], Hq' as [[-> ->]|[Hj' Hq']]; [done|..].
    + by apply (Ho j' q').
    + apply apart_sym. by apply (Ho j q).
    + by apply (pi_apart _ _ PI j j').
  - intros d Ed. destruct (Hd d Ed) as [E|[[Hv E]|(j & q & Hj & Hq & Hv & E)]]; [by left|..]; right.
    + exists i, p'. split; [|done]. rewrite HP. by apply list_lookup_insert_eq; lia.
    + exists j, q. split; [|done]. rewrite HP. by rewrite list_lookup_insert_ne.
Qed.

(** The usual case: memory kept, no new directory. *)
Lemma pinv_slot_keeps (k k' : kst F) (A A' : avm) (i : nat) (p p' : proc) :
  pinv k A -> vminv (vm k') A' -> kpgdir (vm k') = kpgdir (vm k) ->
  nextpid k <= nextpid k' -> keeps A A' -> dirs A' = dirs A ->
  procs k !! i = Some p -> procs k' = <[i := p']> (procs k) ->
  slot_ok (nextpid k') (kpgdir (vm k)) A' p' ->
  (forall j q, j <> i -> procs k !! j = Some q -> apart p' q) ->
  (has_vm p -> has_vm p' /\ pgdir p' = pgdir p) ->
  pinv k' A'.
Proof.
  intros PI V' Ek Hn K HD Hp HP Hs Ha Hv. pose proof (pi_next _ _ PI).
  pose proof (lookup_lt_Some _ _ _ Hp) as Hi. rewrite (pi_len _ _ PI) in Hi.
  eapply (pinv_slot k k' A A' i p'); eauto; [|lia|by rewrite Ek|..].
  - eapply kpg_dirs; [apply PI|done|by rewrite HD].
  - intros j q Hj Hq. rewrite Ek. split; [|eauto]. eapply slot_keeps; eauto. by eapply pi_slot.
  - intros d Hd. rewrite Ek. apply elem_of_dirs in Hd. rewrite HD in Hd. apply elem_of_dirs in Hd.
    destruct (pi_dirs _ _ PI d Hd) as [E|(j & q & Hq & Hvq & E)]; [by left|right].
    destruct (decide (j = i)) as [->|Hne]; [left|right; eauto 10].
    rewrite Hp in Hq. injection Hq as <-. destruct (Hv Hvq) as [? ->]. done.
Qed.

(** Changes that do not touch what a process owns. *)
Definition same_res (p q : proc) : Prop :=
  kstack q = kstack p /\ pid q = pid p /\ pgdir q = pgdir p /\ sz q = sz p /\
  (state q <> UNUSED <-> state p <> UNUSED) /\ (has_vm q <-> has_vm p) /\
  ofile q = ofile p /\ (state q = ZOMBIE -> state p = ZOMBIE) /\ (~ has_vm p -> parent q = parent p).

Lemma slot_same_res (next kpg : Z) (A : avm) (p q : proc) :
  slot_ok next kpg A p -> same_res p q -> slot_ok next kpg A q.
Proof.
  intros [S1 S2 S3 S4 S5 S6] (E1 & E2 & E3 & E4 & HU & HV & E5 & HZ & E6).
  split; rewrite ?E1, ?E2, ?E3, ?E4, ?E5; [intros Hq..|done|intros Hq|intros Hq].
  - by apply S1, HU.
  - by apply S2, HU.
  - by apply S3, HV.
  - apply S5. destruct Hq as [Hq|Hq]; [left; auto|right; by rewrite <- HV].
  - rewrite HV in Hq. rewrite E6; auto.
Qed.

Lemma apart_same_res (p q p' q' : proc) :
  apart p q -> same_res p p' -> same_res q q' -> apart p' q'.
Proof.
  intros [H1 H2] (E1 & E2 & E3 & _ & HU & HV & _) (F1 & F2 & F3 & _ & GU & GV & _).
  split; rewrite ?E1, ?E2, ?E3, ?F1, ?F2, ?F3; intros Hp Hq.
  - apply H1; [by apply HU|by apply GU].
  - apply H2; [by apply HV|by apply GV].
Qed.

Lemma pinv_same_res (k k' : kst F) (A : avm) :
  pinv k A -> vm k' = vm k -> nextpid k' = nextpid k ->
  Forall2 same_res (procs k) (procs k') -> pinv k' A.
Proof.
  intros PI Ev En HF. pose proof PI as [V KP L N S Ap D].
  assert (Hlk : forall i q, procs k' !! i = Some q -> exists p, procs k !! i = Some p /\ same_res p q).
  { intros i q Hq. by apply (Forall2_lookup_r _ _ _ _ _ HF) in Hq. }
  split; rewrite ?Ev, ?En; try done.
  - by rewrite <- (Forall2_length _ _ _ HF).
  - intros i q Hq. destruct (Hlk i q Hq) as (p & Hp & HR). eapply slot_same_res; eauto.
  - intros i j p q Hp Hq Hne. destruct (Hlk i p Hp) as (p0 & Hp0 & HRp), (Hlk j q Hq) as (q0 & Hq0 & HRq).
    by apply (apart_same_res p0 q0); [apply (Ap i j)|..].
  - intros d Hd. destruct (D d Hd) as [E|(i & p & Hp & Hv & E)]; [by left|right].
    destruct (Forall2_lookup_l _ _ _ _ _ HF Hp) as (q & Hq & (_ & _ & E3 & _ & _ & HV & _)).
    exists i, q. split_and!; [done|by apply HV|congruence].
Qed.

Lemma same_res_refl (p : proc) : same_res p p.
Proof. done. Qed.

Lemma same_res_trans (p q r : proc) : same_res p q -> same_res q r -> same_res p r.
Proof.
  intros (E1 & E2 & E3 & E4 & HU & HV & E5 & HZ & E6) (F1 & F2 & F3 & F4 & GU & GV & F5 & GZ & F6).
  split_and!; [congruence..|by rewrite GU|by rewrite GV|congruence|auto|].
  intros Hp. rewrite F6, E6; [done|done|by rewrite HV].
Qed.

Lemma Forall2_same_res_refl (ps : list proc) : Forall2 same_res ps ps.
Proof. induction ps; constructor; auto using same_res_refl. Qed.

Lemma Forall2_same_res_alter (f : proc -> proc) (i : nat) (p : proc) (ps : list proc) :
  ps !! i = Some p -> same_res p (f p) -> Forall2 same_res ps (alter f i ps).
Proof.
  revert i. induction ps as [|x ps IH]; intros [|i] Hp HR; try done; cbn in *; constructor.
  - by injection Hp as ->.
  - apply Forall2_same_res_refl.
  - apply same_res_refl.
  - by apply IH.
Qed.

(** There are at most 65 page directories. *)
Lemma pinv_dirs (k : kst F) (A : avm) : pinv k A -> (size (dirs A) <= 65)%nat.
Proof.
  intros PI. etransitivity; [apply (dirs_bound A (V2P (kpgdir (vm k)) :: ((fun p => V2P (pgdir p)) <$> procs k)))|].
  - intros d Hd. pose proof (V2P_P2V_page d (tb_pages _ _ _ (rp_tbl _ _ (vi_rep _ _ (pi_vm _ _ PI))) d _ Hd)) as Hr.
    destruct (pi_dirs _ _ PI d Hd) as [E|(i & p & Hp & _ & E)]; apply elem_of_cons.
    + left. by rewrite <- E.
    + right. apply list_elem_of_fmap. exists p. split; [|by eapply list_elem_of_lookup_2].
      by rewrite E.
  - cbn. rewrite length_fmap, (pi_len _ _ PI). done.
Qed.
End ProcInv.
