(* ===== verification/ProcOps.v ===== *)
(** * ProcOps: creating, growing and reaping processes

    What [allocproc], [fork], [exit], [wait], [growproc], [wakeup] and [kill]
    do to the process table and to memory. *)
From stdpp Require Import base gmap list numbers strings.
From Stdlib Require Import ZArith Lia ZifyBool.
From S2P Require Import Prelude Machine Cstring Kalloc Vm Frames Tables Cow Fork Fault Spaces Ptable Proc Pages ProcInv.

(** ** What the process code relies on of the file system

    The references that processes hold to open files and to inodes, and the
    number of file-system calls in progress. *)
Definition add1 (f : Z) (g : Z -> nat) (x : Z) : nat := if x =? f then S (g x) else g x.
Definition sub1 (f : Z) (g : Z -> nat) (x : Z) : nat := if x =? f then pred (g x) else g x.

Class FileRefs (F : Type) := {
  frefs : F -> Z -> nat;
  irefs : F -> Z -> nat;
  fsops : F -> nat;
}.

Definition refs_are `{FileRefs F} (s : F) (fr ir : Z -> nat) (n : nat) : Prop :=
  (forall x, frefs s x = fr x) /\ (forall x, irefs s x = ir x) /\ fsops s = n.

Class FileLaws (F : Type) `{FileOps F} `{FileRefs F} : Prop := {
  filedup_law : forall s f, (0 < frefs s f)%nat ->
    wp (filedup f) (fun r s' => r = f /\ refs_are s' (add1 f (frefs s)) (irefs s) (fsops s)) s;
  idup_law : forall s i, (0 < irefs s i)%nat ->
    wp (idup i) (fun r s' => r = i /\ refs_are s' (frefs s) (add1 i (irefs s)) (fsops s)) s;
  fileclose_law : forall s f, (0 < frefs s f)%nat -> fsops s = 0%nat ->
    wp (fileclose f) (fun _ s' => refs_are s' (sub1 f (frefs s)) (irefs s) 0) s;
  begin_op_law : forall s, fsops s = 0%nat ->
    wp begin_op (fun _ s' => refs_are s' (frefs s) (irefs s) 1) s;
  iput_law : forall s i, (0 < irefs s i)%nat -> fsops s = 1%nat ->
    wp (iput i) (fun _ s' => refs_are s' (frefs s) (sub1 i (irefs s)) 1) s;
  end_op_law : forall s, fsops s = 1%nat ->
    wp end_op (fun _ s' => refs_are s' (frefs s) (irefs s) 0) s;
}.

(** How often [f] occurs in a descriptor table. *)
Fixpoint occurs (f : Z) (l : list Z) : nat :=
  match l with [] => 0 | x :: l => (if x =? f then 1 else 0) + occurs f l end.

Section ProcOps.
Context `{KI : KernelImage} `{KIO : !KernelImageOk} `{PT : ProcTable} {F : Type} `{FO : FileOps F}.
Implicit Types (k : kst F) (A : avm).

Lemma find_unused_spec (ps : list proc) (n : nat) :
  match find_unused n ps with
  | Some i => exists p, (n <= i)%nat /\ ps !! (i - n)%nat = Some p /\ state p = UNUSED
  | None => forall i p, ps !! i = Some p -> state p <> UNUSED
  end.
Proof.
  revert n. induction ps as [|p ps IH]; intros n; cbn; [done|].
  case_bool_decide as Hs.
  - exists p. rewrite Nat.sub_diag. auto.
  - specialize (IH (S n)). destruct (find_unused (S n) ps) as [i|].
    + destruct IH as (q & Hle & Hq & Hst). exists q. split_and!; [lia| |done].
      by replace (i - n)%nat with (S (i - S n)) by lia.
    + intros [|i] q; cbn; [by intros [= <-]|apply IH].
Qed.

(** The slot after [allocproc], with the kernel stack [ks]. *)
Definition embryo (k : kst F) (ks : Z) (p : proc) : proc :=
  set_schedQueue LOTTERY (set_burst_time 0 (set_lottery_ticket 50
    (set_process_count (process_number k) (set_creation_time (i32 (ticks k + createdProcess k))
      (set_context (mkcontext 0 0 0 0 forkret)
        (set_kstack ks (set_pid (nextpid k) (set_state EMBRYO p)))))))).

(** No process and no memory changed. *)
Record quiet (A A' : avm) (k k' : kst F) : Prop := mkquiet {
  qt_used : forall j q, procs k !! j = Some q -> state q <> UNUSED -> procs k' !! j = Some q;
  qt_free : forall j q, procs k !! j = Some q -> state q = UNUSED ->
              exists q', procs k' !! j = Some q' /\ state q' = UNUSED /\ ofile q' = ofile q /\ cwd q' = cwd q;
  qt_cpu : cur k' = cur k /\ initproc k' = initproc k /\ plock k' = plock k /\ files k' = files k;
  qt_own : forall x, own A' !! x = own A !! x;
  qt_views : same_views A (vm k) (vm k');
}.

Lemma wp_setp (i : nat) (f : proc -> proc) (k : kst F) (p : proc) Q :
  procs k !! i = Some p -> Q tt (set_procs (<[i := f p]> (procs k)) k) -> wp (setp i f) Q k.
Proof. intros Hp HQ. unfold setp. apply wp_modify. by rewrite (alter_item _ _ p). Qed.

Lemma wp_getp (i : nat) (k : kst F) (p : proc) Q :
  procs k !! i = Some p -> Q p k -> wp (getp i) Q k.
Proof. intros Hp HQ. eapply wp_from_Ok; [|exact HQ]. unfold getp. by rewrite Hp. Qed.

Lemma wp_acquire (k : kst F) Q :
  plock k = false -> Q tt (set_plock true k) -> wp acquire_ptable Q k.
Proof. intros Hp HQ. eapply wp_from_Ok; [|exact HQ]. unfold acquire_ptable. by rewrite Hp. Qed.

Lemma wp_release (k : kst F) Q :
  plock k = true -> Q tt (set_plock false k) -> wp release_ptable Q k.
Proof. intros Hp HQ. eapply wp_from_Ok; [|exact HQ]. unfold release_ptable. by rewrite Hp. Qed.
End ProcOps.

(** Steps on the table: a lookup in an updated table is the updated slot. *)
Ltac pstep :=
  cbn beta; match goal with
  | |- wp (bind _ _) _ _ => apply wp_bind
  | |- wp (ret _) _ _ => apply wp_ret
  | |- wp (gets _) _ _ => apply wp_gets
  | |- wp (modify _) _ _ => apply wp_modify
  | |- wp acquire_ptable _ _ => apply wp_acquire; [done|]
  | |- wp release_ptable _ _ => apply wp_release; [done|]
  | |- wp (setp _ _) _ _ => eapply wp_setp; [cbn [procs]; first [apply list_lookup_insert_eq; lia|eassumption]|]
  | |- wp (getp _) _ _ => eapply wp_getp; [cbn [procs]; first [apply list_lookup_insert_eq; lia|eassumption]|]
  end; cbn [set_vm set_procs set_plock set_nextpid set_createdProcess set_process_number set_initproc
    set_ticks set_cur set_files vm procs plock nextpid createdProcess process_number initproc ticks cur files];
  rewrite ?list_insert_insert_eq, ?length_insert.

(** Projections of updated records. *)
Ltac pcbn := cbn -[wp bind ret gets modify setp getp acquire_ptable release_ptable onvm onfiles zoom
  kalloc kfree freevm copyuvm dup_files Z.add Z.div Z.mul i32 u32 KERNBASE].

Section Create.
Context `{KI : KernelImage} `{KIO : !KernelImageOk} `{PT : ProcTable} {F : Type} `{FO : FileOps F}.
Implicit Types (k : kst F) (A : avm).

Lemma free_slot (k : kst F) (A : avm) (i : nat) (p : proc) :
  pinv k A -> procs k !! i = Some p -> ~ has_vm p ->
  length (ofile p) = 16%nat /\ ofile p = replicate 16 0 /\ parent p = 0.
Proof. intros PI Hp Hv. destruct (pi_slot _ _ PI i p Hp) as [_ _ _ S4 S5 S6]. auto. Qed.

Lemma not_has_vm (p : proc) : state p = UNUSED \/ state p = EMBRYO -> ~ has_vm p.
Proof. intros [E|E] [H1 H2]; congruence. Qed.

(** An unused slot that stays unused. *)
Lemma pinv_unused (k k' : kst F) (A A' : avm) (i : nat) (p p' : proc) :
  procs k' = <[i := p']> (procs k) ->
  pinv k A -> procs k !! i = Some p -> ~ has_vm p -> state p' = UNUSED ->
  ofile p' = ofile p -> parent p' = parent p ->
  vminv (vm k') A' -> kpgdir (vm k') = kpgdir (vm k) -> nextpid k <= nextpid k' ->
  (forall j q, j <> i -> procs k !! j = Some q -> slot_ok (nextpid k') (kpgdir (vm k)) A' q) ->
  dirs A' = dirs A -> pinv k' A'.
Proof.
  intros HP PI Hp Hv Hs EF EP V' Ek Hn Ho HD. pose proof (pi_next _ _ PI) as HN.
  pose proof (lookup_lt_Some _ _ _ Hp) as Hi. rewrite (pi_len _ _ PI) in Hi.
  destruct (free_slot k A i p PI Hp Hv) as (F1 & F2 & F3).
  eapply (pinv_slot k k' A A' i p'); eauto; [|lia|..].
  - eapply kpg_dirs; [apply PI|done|by rewrite HD].
  - split; try congruence; intros []; congruence.
  - intros j q Hj Hq. rewrite Ek. split; [by eapply Ho|].
    split; intros Hu; [congruence|by destruct Hu].
  - intros d Hd. rewrite Ek. apply elem_of_dirs in Hd. rewrite HD in Hd. apply elem_of_dirs in Hd.
    destruct (pi_dirs _ _ PI d Hd) as [E|(j & q & Hq & Hvq & E)]; [by left|right; right].
    exists j, q. split; [|done]. intros ->. rewrite Hp in Hq. by injection Hq as <-.
Qed.

(** The state after a successful [allocproc]. *)
Definition born (k : kst F) (s' : vmst) (ks : Z) (i : nat) (p : proc) : kst F :=
  mkk s' (<[i := embryo k ks p]> (procs k)) (plock k) (nextpid k + 1) (i32 (createdProcess k + 1))
    (i32 (process_number k + 1)) (initproc k) (ticks k) (tickslock k) (cur k) (files k).

Lemma pinv_born (k : kst F) (A A' : avm) (s' : vmst) (f : Z) (i : nat) (p : proc) :
  pinv k A -> procs k !! i = Some p -> state p = UNUSED -> vminv s' A' -> vm_only (vm k) s' ->
  keeps A A' -> dirs A' = dirs A -> own A !! f = Some OFree -> own A' !! f = Some OKern ->
  pinv (born k s' (P2V f) i p) A'.
Proof.
  intros PI Hp Hs V' P K HD Hf Hf'. pose proof (pi_next _ _ PI) as HN.
  assert (Hv : ~ has_vm p) by (apply not_has_vm; auto).
  destruct (free_slot k A i p PI Hp Hv) as (F1 & F2 & F3).
  assert (Ek : kpgdir s' = kpgdir (vm k)) by apply vm_frame_kpgdir, vm_only_frame, P.
  eapply (pinv_slot_keeps k _ A A' i p); eauto; cbn; [lia|..].
  - split; cbn; try done.
    + intros _. eauto.
    + intros _. lia.
    + intros [_ Hx]. done.
  - intros j q Hj Hq. split; [|by intros [_ Hx]]. intros _ Hu. cbn.
    destruct (pi_slot _ _ PI j q Hq) as [S1 S2 _ _ _ _]. pose proof (S2 Hu).
    destruct (S1 Hu) as (g & Eg & Hg). split; [|lia]. rewrite Eg. intros EQ.
    pose proof (tb_pages _ _ _ (rp_tbl _ _ (vi_rep _ _ (pi_vm _ _ PI)))) as TP.
    apply (f_equal V2P) in EQ. rewrite !V2P_P2V_page in EQ by eauto. congruence.
  - done.
Qed.

Lemma P2V_nonzero (s : vmst) (A : avm) (f : Z) (r : owner) :
  vminv s A -> own A !! f = Some r -> (P2V f =? 0) = false.
Proof.
  intros V Hf. pose proof (page_ok_bounds _ (tb_pages _ _ _ (rp_tbl _ _ (vi_rep _ _ V)) _ _ Hf)).
  unfold P2V, KERNBASE. zlia.
Qed.

Lemma allocproc_spec (k : kst F) (A : avm) :
  pinv k A -> plock k = false -> nextpid k < 2147483647 ->
  wp allocproc (fun r k' => exists A', pinv k' A' /\ keeps A A' /\
    match r with
    | None => quiet A A' k k' /\ ((forall i p, procs k !! i = Some p -> state p <> UNUSED) \/ free A = [])
    | Some i => find_unused 0 (procs k) = Some i /\ exists p f s', procs k !! i = Some p /\ state p = UNUSED /\
        own A !! f = Some OFree /\ own A' !! f = Some OKern /\
        (forall x, x <> f -> own A' !! x = own A !! x) /\ dirs A' = dirs A /\
        vm_only (vm k) s' /\ mem s' = mem (vm k) /\ k' = born k s' (P2V f) i p
    end) k.
Proof.
  intros PI HL Hnp. pose proof (pi_next _ _ PI) as HN. pose proof (find_unused_spec (procs k) 0) as HF.
  assert (En : i32 (nextpid k + 1) = nextpid k + 1) by zlia.
  unfold allocproc. repeat pstep. destruct (find_unused 0 (procs k)) as [i|] eqn:E; rewrite ?E; cycle 1.
  { repeat pstep. exists A. split_and!; [|by apply keeps_refl| |by left].
    - destruct k; cbn in *. subst. exact PI.
    - split; try done; cbn; eauto. }
  destruct HF as (p & _ & Hp & Hs). rewrite Nat.sub_0_r in Hp.
  pose proof (lookup_lt_Some _ _ _ Hp) as Hi.
  repeat pstep. unfold onvm. apply wp_zoom. cbn [vm].
  eapply wp_mono; [apply (kalloc_client (vm k) A), PI|].
  intros r s' (A' & V' & P & K & EM & HD & [(-> & -> & HF)|(f & -> & Hf & Hf' & HO)]); cbn beta.
  - repeat pstep. cbn [Z.eqb]. repeat pstep. exists A. split_and!; [|by apply keeps_refl| |by right].
    + eapply (pinv_unused k _ A A i p); [reflexivity|eauto..]; cbn; [by apply not_has_vm; auto|..].
      * apply vm_frame_kpgdir, vm_only_frame, P.
      * lia.
      * intros j q _ Hq. eapply slot_keeps; [by eapply (pi_slot _ _ PI)|done|lia].
    + split; cbn; try done.
      * intros j q Hq Hu. rewrite list_lookup_insert_ne; [done|]. intros ->. congruence.
      * intros j q Hq Hu. destruct (decide (i = j)) as [->|Hne].
        -- rewrite list_lookup_insert_eq by lia. eexists. split; [done|]. cbn. split_and!; congruence.
        -- rewrite list_lookup_insert_ne by done. eauto.
      * intros q va _ _. cbn. by rewrite EM.
  - rewrite (P2V_nonzero s' A' f _ V' Hf'). repeat pstep. exists A'.
    match goal with |- pinv ?x _ /\ _ => replace x with (born k s' (P2V f) i p) end.
    { split_and!; [by eapply (pinv_born k A)|done|done|]. exists p, f, s'. by split_and!. }
    unfold born, embryo. by rewrite HL, En.
Qed.
End Create.

Section Fork.
Context `{KI : KernelImage} `{KIO : !KernelImageOk} `{PT : ProcTable} {F : Type}
  `{FO : FileOps F} `{FR : !FileRefs F} `{FL : !FileLaws F}.
Implicit Types (k : kst F) (A : avm).

(** The references a process holds. *)
Definition holds (s : F) (p : proc) : Prop :=
  (forall f, f ∈ ofile p -> f <> 0 -> (0 < frefs s f)%nat) /\ (0 < irefs s (cwd p))%nat.

(** The references after duplicating a descriptor table. *)
Definition dupped (fs : list Z) (s s' : F) : Prop :=
  (forall f, f <> 0 -> frefs s' f = (frefs s f + occurs f fs)%nat) /\
  (forall i, irefs s' i = irefs s i) /\ fsops s' = fsops s.

Lemma dup_files_spec (fs : list Z) (n : nat) (k : kst F) Q :
  length fs = n -> (forall f, f ∈ fs -> f <> 0 -> (0 < frefs (files k) f)%nat) ->
  (forall s', dupped fs (files k) s' -> Q fs (set_files s' k)) ->
  wp (dup_files fs (replicate n 0)) Q k.
Proof.
  revert n k Q. induction fs as [|f fs IH]; intros n k Q Hn Ho HQ; subst n; cbn.
  - apply wp_ret. unshelve epose proof (HQ (files k) _) as HQ'; [|by destruct k].
    split; [|done]. intros f _. cbn. lia.
  - apply wp_bind. destruct (Z.eqb_spec f 0) as [->|Hf].
    + apply wp_ret, wp_bind, IH; [done|intros; apply Ho; [by right|done]|].
      intros s' (H1 & H2). apply wp_ret, HQ. split; [|done]. intros g Hg. rewrite H1 by done. cbn [occurs].
      destruct (Z.eqb_spec 0 g); [lia|done].
    + unfold onfiles. apply wp_zoom. eapply wp_mono; [apply filedup_law, Ho; [left|done]|].
      intros ? s1 (-> & H1 & H2 & H3). unfold add1 in H1. apply wp_bind, IH; [done|cbn; intros g Hg Hg0|].
      { rewrite H1. pose proof (Ho g ltac:(by right) Hg0). case_match; lia. }
      cbn. intros s' (G1 & G2 & G3). apply wp_ret. destruct k. apply HQ. cbn in *.
      split_and!; [|intros; congruence|congruence]. intros g Hg. rewrite G1, H1 by done. cbn [occurs].
      rewrite (Z.eqb_sym f g). case_match; lia.
Qed.

(** The child of [p], in the embryo [e], with the directory [pg]. *)
Definition child_of (k : kst F) (p : proc) (pg : Z) (e : proc) : proc :=
  set_state RUNNABLE (set_priority 1000 (set_name (name16 (name p)) (set_cwd (cwd p) (set_ofile (ofile p)
    (set_tf (set_eax 0 (tf p)) (set_parent (proc_ptr (cur k)) (set_sz (sz p) (set_pgdir pg e)))))))).

(** What a failed [fork] puts back. *)
Lemma pinv_unborn (k k' : kst F) (A A2 A3 : avm) (i : nat) (e e' : proc) (f : Z) :
  procs k' = <[i := e']> (procs k) -> pinv k A -> procs k !! i = Some e -> state e = EMBRYO ->
  kstack e = P2V f -> state e' = UNUSED -> ofile e' = ofile e -> parent e' = parent e ->
  keeps A A2 -> dirs A2 = dirs A -> own A !! f = Some OKern ->
  vminv (vm k') A3 -> kpgdir (vm k') = kpgdir (vm k) -> nextpid k' = nextpid k -> maps A3 = maps A2 ->
  dirs A3 = dirs A2 -> (forall x, x <> f -> own A3 !! x = own A2 !! x) -> pinv k' A3.
Proof.
  intros HP PI He Hs Hks Hs' EF EP K HD2 Hf V3 Ek En HM HD HO.
  eapply (pinv_unused k k' A A3 i e e'); eauto; [by apply not_has_vm; auto|lia| |congruence].
  intros j q Hj Hq. pose proof (pi_slot _ _ PI j q Hq) as Sq.
  destruct (slot_keeps _ (nextpid k') _ A A2 q Sq K ltac:(lia)) as [S1 S2 S3 S4 S5 S6].
  split; [..|done|done|done].
  - intros Hu. destruct (S1 Hu) as (g & Eg & Hg). exists g. split; [done|]. rewrite HO; [done|].
    intros ->. destruct (pi_apart _ _ PI i j e q He Hq ltac:(done)) as [Ha _].
    destruct Ha as [Ha _]; congruence.
  - done.
  - intros Hv. destruct (S3 Hv) as (d & Ed & Hd & [Z1 Z2 Z3] & Hk). exists d.
    split_and!; [done| |by split; rewrite ?HM|done]. apply elem_of_dirs. rewrite HD. by apply elem_of_dirs.
Qed.

(** What a successful one adds. *)
Lemma pinv_child (k k' : kst F) (A A' : avm) (i : nat) (e e' : proc) (d : Z) :
  procs k' = <[i := e']> (procs k) -> pinv k A -> procs k !! i = Some e -> state e = EMBRYO ->
  has_vm e' -> state e' <> ZOMBIE -> kstack e' = kstack e -> pid e' = pid e -> pgdir e' = P2V d ->
  length (ofile e') = 16%nat -> keeps A A' -> vminv (vm k') A' -> kpgdir (vm k') = kpgdir (vm k) ->
  nextpid k' = nextpid k -> own A !! d = Some OFree -> own A' !! d = Some ODir -> sized A' d (sz e') ->
  dirs A' = {[ d ]} ∪ dirs A -> pinv k' A'.
Proof.
  intros HP PI He Hs Hv' HZ' EK Epid EG HL K V' Ek En Hd Hd' Hsz HD. destruct (pi_kpg _ _ PI) as (x & Ex & Hx).
  pose proof (tb_pages _ _ _ (rp_tbl _ _ (vi_rep _ _ (pi_vm _ _ PI)))) as TP.
  assert (Hne : forall y, own A !! y = Some ODir -> P2V d <> P2V y).
  { intros y Hy E. apply (f_equal V2P) in E. rewrite !V2P_P2V_page in E by eauto. congruence. }
  pose proof (lookup_lt_Some _ _ _ He) as Hi. rewrite (pi_len _ _ PI) in Hi. pose proof (pi_next _ _ PI).
  assert (Se : slot_ok (nextpid k) (kpgdir (vm k)) A' e).
  { eapply slot_keeps; [by eapply (pi_slot _ _ PI)|done|lia]. }
  eapply (pinv_slot k k' A A' i e'); eauto; [|lia|..].
  - eapply kpg_dirs; [apply PI|done|set_solver].
  - destruct Se as [S1 S2 _ _ _ _]. rewrite En, Ek.
    split; rewrite ?EK, ?Epid; [intros _; apply S1; congruence|intros _; apply S2; congruence|..|done| |done].
    + intros _. exists d. split_and!; try done. rewrite EG, Ex. by apply Hne.
    + intros [?|?]; done.
  - intros j q Hj Hq. pose proof (pi_slot _ _ PI j q Hq) as Sq. split.
    { rewrite Ek. eapply slot_keeps; [done|done|lia]. }
    destruct (pi_apart _ _ PI i j e q He Hq ltac:(done)) as [Ha _]. split.
    + intros _ Hu. rewrite EK, Epid. apply Ha; congruence.
    + intros _ Hu. rewrite EG. destruct (so_dir _ _ _ _ Sq Hu) as (y & -> & Hy & _). by apply Hne.
  - intros y Hy. apply elem_of_dirs in Hy. rewrite HD in Hy. apply elem_of_union in Hy.
    rewrite elem_of_singleton, elem_of_dirs in Hy. rewrite Ek. destruct Hy as [->|Hy]; [by right; left|].
    destruct (pi_dirs _ _ PI y Hy) as [E|(j & q & Hq & Hvq & E)]; [by left|right; right].
    exists j, q. split; [|done]. intros ->. rewrite He in Hq. injection Hq as <-. destruct Hvq. congruence.
Qed.

(** The failing tail of [fork]: from the embryo's state [k1], the page
    directory could not be made and the kernel stack is freed. *)
Lemma fork_undo (k : kst F) (A A1 A2 : avm) (s1 s2 : vmst) (f : Z) (i : nat) (q : proc) :
  pinv k A -> plock k = false -> procs k !! i = Some q -> state q = UNUSED ->
  own A !! f = Some OFree -> own A1 !! f = Some OKern ->
  (forall x, x <> f -> own A1 !! x = own A !! x) -> dirs A1 = dirs A ->
  mem s1 = mem (vm k) -> let k1 := born k s1 (P2V f) i q in pinv k1 A1 ->
  vminv s2 A2 -> vm_frame s1 s2 -> keeps A1 A2 -> own A2 = own A1 -> same_views A1 s1 s2 ->
  wp (let! np := getp i in
      onvm (kfree (kstack np)) ;;;
      setp i (fun q => set_state UNUSED (set_kstack 0 q)) ;;;
      ret (-1))
    (fun r k' => exists A', pinv k' A' /\ r = -1 /\ quiet A A' k k')
    (set_procs (<[i := set_pgdir 0 (embryo k (P2V f) q)]> (procs k1)) (set_vm s2 k1)).
Proof.
  intros PI HL Hq Hs Hf Hf1 HO1 HD1 EM k1 PI1 V2 Fr K EO HV.
  pose proof (lookup_lt_Some _ _ _ Hq) as Hi.
  assert (HD2 : dirs A2 = dirs A1) by (apply set_eq; intros x; by rewrite !elem_of_dirs, EO).
  subst k1. unfold born. repeat pstep. unfold onvm. apply wp_zoom. pcbn.
  eapply wp_mono; [apply (kfree_client s2 A2 f V2); congruence|].
  intros _ s3 (A3 & V3 & P3 & HD3 & Hf3 & EM3 & HO3 & HV3). repeat pstep. exists A3.
  destruct (vm_frame_kpgdir _ _ Fr) as [Ek _].
  destruct (vm_frame_kpgdir _ _ (vm_only_frame _ _ P3)) as [Ek3 _].
  split_and!; [|done|].
  - eapply (pinv_unborn (born k s1 (P2V f) i q) _ A1 A2 A3 i (embryo k (P2V f) q)
              (set_state UNUSED (set_kstack 0 (set_pgdir 0 (embryo k (P2V f) q)))) f).
    1: by cbn; rewrite list_insert_insert_eq.
    1: exact PI1.
    1: by apply list_lookup_insert_eq.
    all: cbn; first [assumption|reflexivity|congruence].
  - split; cbn; try done.
    + intros j p Hp Hu. rewrite list_lookup_insert_ne; [done|]. intros ->. congruence.
    + intros j p Hp Hu. destruct (decide (i = j)) as [->|Hne].
      * rewrite list_lookup_insert_eq by lia. eexists. split; [done|]. cbn. split_and!; congruence.
      * rewrite list_lookup_insert_ne by done. eauto.
    + intros x. destruct (decide (x = f)) as [->|Hne]; [congruence|]. by rewrite HO3, EO, HO1.
    + intros p va Hp Hva. cbn. assert (Hp1 : own A1 !! p = Some ODir).
      { apply elem_of_dirs. rewrite HD1. by apply elem_of_dirs. }
      rewrite HV3, HV, EM by (rewrite ?EO; done). done.
Qed.

(** The state after a successful [fork]. *)
Definition forked_state (k : kst F) (s' : vmst) (ks pg : Z) (i : nat) (q p : proc) (fs : F) : kst F :=
  mkk s' (<[i := child_of k p pg (embryo k ks q)]> (procs k)) (plock k) (nextpid k + 1)
    (i32 (createdProcess k + 1)) (i32 (process_number k + 1)) (initproc k) (ticks k) (tickslock k) (cur k) fs.

Lemma pinv_forked_state (k : kst F) (A A1 A2 : avm) (s1 s2 : vmst) (f d : Z) (i : nat) (q p : proc) (fs : F) :
  pinv (born k s1 (P2V f) i q) A1 -> pinv k A -> procs k !! i = Some q -> procs k !! cur k = Some p ->
  keeps A1 A2 -> vminv s2 A2 -> vm_frame s1 s2 -> own A1 !! d = Some OFree -> own A2 !! d = Some ODir ->
  sized A2 d (sz p) -> dirs A2 = {[ d ]} ∪ dirs A1 ->
  pinv (forked_state k s2 (P2V f) (P2V d) i q p fs) A2.
Proof.
  intros PI1 PI Hq Hp K V2 Fr Hd Hd2 Hsd HD. destruct (vm_frame_kpgdir _ _ Fr) as [Ek _].
  pose proof (lookup_lt_Some _ _ _ Hq) as Hi.
  eapply (pinv_child (born k s1 (P2V f) i q) _ A1 A2 i (embryo k (P2V f) q)
            (child_of k p (P2V d) (embryo k (P2V f) q)) d).
  1: by cbn; rewrite list_insert_insert_eq.
  1: exact PI1.
  1: by apply list_lookup_insert_eq.
  all: cbn; first [assumption|reflexivity|congruence|idtac].
  - by split.
  - apply (so_nofile _ _ _ _ (pi_slot _ _ PI _ p Hp)).
Qed.

(** The references after a [fork] of [p]. *)
Definition shared_files (p : proc) (s s' : F) : Prop :=
  (forall f, f <> 0 -> frefs s' f = (frefs s f + occurs f (ofile p))%nat) /\
  (forall i, irefs s' i = add1 (cwd p) (irefs s) i) /\ fsops s' = fsops s.

Definition forks (k k' : kst F) (A : avm) (p : proc) (pd : Z) : Prop :=
  exists i q f d s' fs, procs k !! i = Some q /\ state q = UNUSED /\ i <> cur k /\
    k' = forked_state k s' (P2V f) (P2V d) i q p fs /\ shared_files p (files k) fs /\
    own A !! f = Some OFree /\ own A !! d = Some OFree /\ f <> d /\
    forall x va, x = d \/ own A !! x = Some ODir -> 0 <= va < KERNBASE ->
      user_load (mem s') x va =
        spec_fork pd d ((sz p + 4095) / 4096) (user_load (mem (vm k))) x va.

Lemma fork_spec (k : kst F) (A : avm) (p : proc) (pd : Z) :
  pinv k A -> plock k = false -> nextpid k < 2147483647 ->
  procs k !! cur k = Some p -> state p = RUNNING -> pgdir p = P2V pd -> own A !! pd = Some ODir ->
  holds (files k) p ->
  wp fork (fun r k' => exists A', pinv k' A' /\
    ((r = -1 /\ quiet A A' k k') \/ (r = nextpid k /\ forks k k' A p pd))) k.
Proof.
  intros PI HL Hnp Hp Hs Epd Hpd [HoF HoC]. unfold fork, myproc. repeat pstep.
  eapply wp_mono; [by apply (allocproc_spec k A)|].
  intros [i|] k1 (A1 & PI1 & K1 & HC); cycle 1.
  { apply wp_ret. exists A1. split; [done|]. left. by destruct HC. }
  destruct HC as (_ & q & f & s1 & Hq & Hqs & Hf & Hf1 & HO1 & HD1 & P1 & EM1 & ->).
  assert (Hic : i <> cur k) by (intros ->; congruence).
  pose proof (lookup_lt_Some _ _ _ Hq) as Hi.
  assert (Hp1 : procs (born k s1 (P2V f) i q) !! cur k = Some p).
  { cbn. by rewrite list_lookup_insert_ne. }
  assert (Hv : has_vm p) by (split; congruence).
  destruct (so_dir _ _ _ _ (pi_slot _ _ PI1 _ p Hp1) Hv) as (pd' & Epd' & Hpd1 & Hsz & _).
  assert (pd' = pd) as ->.
  { pose proof (tb_pages _ _ _ (rp_tbl _ _ (vi_rep _ _ (pi_vm _ _ PI1)))) as TP.
    pose proof (tb_pages _ _ _ (rp_tbl _ _ (vi_rep _ _ (pi_vm _ _ PI)))) as TP0.
    rewrite <- (V2P_P2V_page pd'), <- (V2P_P2V_page pd) by eauto. congruence. }
  apply wp_bind. eapply wp_getp; [exact Hp1|]. apply wp_bind. unfold onvm at 1. apply wp_zoom. cbn [vm born].
  rewrite Epd. eapply wp_mono.
  { apply (copyuvm_client s1 A1 pd (sz p)); [apply PI1|done|done|]. pose proof (pinv_dirs _ _ PI1). lia. }
  intros pg s2 (A2 & V2 & Fr & K2 & [(-> & EO & HV)|(d & -> & Hd & Hd2 & Hsd & HD2 & HV)]).
  - apply wp_bind. eapply wp_setp; [apply list_lookup_insert_eq; cbn; lia|]. cbn [Z.eqb].
    eapply wp_mono; [by eapply (fork_undo k A A1 A2 s1 s2 f i q)|].
    intros r k' (A' & PI' & -> & HQ). exists A'. auto.
  - rewrite (P2V_nonzero s2 A2 d _ V2 Hd2). unfold born.
    destruct (free_slot _ _ i q PI Hq (not_has_vm q ltac:(auto))) as (_ & EF & _).
    repeat pstep. unfold embryo; pcbn. rewrite EF. apply dup_files_spec.
    + apply (so_nofile _ _ _ _ (pi_slot _ _ PI _ p Hp)).
    + done.
    + intros fs Hfs. repeat pstep. unfold onfiles. apply wp_zoom. pcbn.
      eapply wp_mono; [apply idup_law; rewrite (proj1 (proj2 Hfs)); exact HoC|].
      intros ? fs' (-> & I1 & I2 & I3). repeat pstep.
      exists A2. assert (Hfd : d <> f) by congruence.
      match goal with |- pinv ?x _ /\ _ => replace x with (forked_state k s2 (P2V f) (P2V d) i q p fs') end;
        [|by unfold forked_state, child_of, embryo; rewrite HL].
      split; [by eapply pinv_forked_state|]. right. split; [done|].
      exists i, q, f, d, s2, fs'. split_and!; try done.
      * destruct Hfs as (J1 & J2 & J3). split_and!; [intros; rewrite I1; by apply J1| |by rewrite I3].
        intros x. rewrite I2. unfold add1. by rewrite J2.
      * by rewrite <- HO1.
      * intros x va Hx Hva. rewrite HV, EM1; [done| |done]. destruct Hx as [->|Hx]; [by left|right].
        apply elem_of_dirs. rewrite HD1. by apply elem_of_dirs.
Qed.
End Fork.
