(* ===== verification/ProcLife.v ===== *)
(** * ProcLife: exit, wait, and the references that processes hold

    The invariant that the reference counts of open files and of inodes are
    the numbers of references in the process table, and the specifications of
    the operations that end processes, change their size or their state. *)
From stdpp Require Import base gmap list numbers strings.
From Stdlib Require Import ZArith Lia ZifyBool.
From S2P Require Import Prelude Machine Cstring Kalloc Vm Frames Tables Cow Fork Fault Spaces Alloc Ptable Proc Pages ProcInv ProcOps.

(** ** Counting references *)

Lemma occurs_app (f : Z) (l1 l2 : list Z) : occurs f (l1 ++ l2) = (occurs f l1 + occurs f l2)%nat.
Proof. induction l1 as [|x l1 IH]; cbn; [done|]. rewrite IH. lia. Qed.

Lemma occurs_zero (f : Z) (n : nat) : f <> 0 -> occurs f (replicate n 0) = 0%nat.
Proof. intros Hf. induction n; cbn [replicate occurs]; [done|]. destruct (Z.eqb_spec 0 f); [lia|done]. Qed.

Lemma occurs_pos (f : Z) (l : list Z) : f ∈ l -> (0 < occurs f l)%nat.
Proof.
  induction l as [|x l IH]; intros Hf; [by apply not_elem_of_nil in Hf|]. cbn [occurs].
  apply elem_of_cons in Hf as [->|Hf]; [rewrite Z.eqb_refl; lia|]. specialize (IH Hf). lia.
Qed.

(** The references [g p] of all processes. *)
Definition tally (g : proc -> list Z) (f : Z) (ps : list proc) : nat := occurs f (concat (g <$> ps)).

Lemma tally_insert (g : proc -> list Z) (f : Z) (ps : list proc) (i : nat) (p p' : proc) :
  ps !! i = Some p ->
  (tally g f (<[i := p']> ps) + occurs f (g p) = tally g f ps + occurs f (g p'))%nat.
Proof.
  unfold tally. revert i. induction ps as [|q ps IH]; intros [|i] Hp; try done; cbn in Hp.
  - injection Hp as ->. cbn. rewrite !occurs_app. lia.
  - specialize (IH i Hp). change (<[S i := p']> (q :: ps)) with (q :: <[i := p']> ps).
    rewrite !fmap_cons, !concat_cons, !occurs_app. lia.
Qed.

Lemma tally_ge (g : proc -> list Z) (f : Z) (ps : list proc) (i : nat) (p : proc) :
  ps !! i = Some p -> (occurs f (g p) <= tally g f ps)%nat.
Proof.
  unfold tally. revert i. induction ps as [|q ps IH]; intros [|i] Hp; try done; cbn in *;
    rewrite !occurs_app.
  - injection Hp as ->. lia.
  - specialize (IH i Hp). lia.
Qed.

Lemma tally_same (g : proc -> list Z) (f : Z) (ps ps' : list proc) :
  length ps' = length ps ->
  (forall i p p', ps !! i = Some p -> ps' !! i = Some p' -> g p' = g p) -> tally g f ps' = tally g f ps.
Proof.
  unfold tally. revert ps'. induction ps as [|p ps IH]; intros [|p' ps'] HL H; try done; cbn.
  rewrite !occurs_app, (H 0%nat p p') by done. f_equal. apply IH; [by injection HL|].
  intros i q q' Hq Hq'. by apply (H (S i)).
Qed.

Definition cwds (p : proc) : list Z := [cwd p].

Section Life.
Context `{KI : KernelImage} `{KIO : !KernelImageOk} `{PT : ProcTable} {F : Type}
  `{FO : FileOps F} `{FR : !FileRefs F} `{FL : !FileLaws F}.
Implicit Types (k : kst F) (A : avm).

(** Reference counts are exact, and no file-system call is in progress. *)
Record finv (k : kst F) : Prop := mkfinv {
  fi_files : forall f, f <> 0 -> frefs (files k) f = tally ofile f (procs k);
  fi_cwds : forall i, i <> 0 -> irefs (files k) i = tally cwds i (procs k);
  fi_live : forall i p, procs k !! i = Some p -> has_vm p -> state p <> ZOMBIE -> cwd p <> 0;
  fi_dead : forall i p, procs k !! i = Some p -> ~ has_vm p \/ state p = ZOMBIE -> cwd p = 0;
  fi_idle : fsops (files k) = 0%nat;
}.

Lemma finv_holds (k : kst F) (i : nat) (p : proc) :
  finv k -> procs k !! i = Some p -> has_vm p -> state p <> ZOMBIE -> holds (files k) p.
Proof.
  intros [F1 F2 F3 _ _] Hp Hv Hz. split.
  - intros f Hf H0. rewrite F1 by done. pose proof (tally_ge ofile f _ _ _ Hp).
    pose proof (occurs_pos f _ Hf). lia.
  - rewrite F2 by eauto. pose proof (tally_ge cwds (cwd p) _ _ _ Hp) as H.
    cbn in H. rewrite Z.eqb_refl in H. lia.
Qed.

(** A change of the table in which no reference moves. *)
Lemma finv_same (k k' : kst F) :
  finv k -> files k' = files k -> length (procs k') = length (procs k) ->
  (forall i p p', procs k !! i = Some p -> procs k' !! i = Some p' ->
     ofile p' = ofile p /\ cwd p' = cwd p /\ (has_vm p' <-> has_vm p) /\
     (state p = ZOMBIE <-> state p' = ZOMBIE)) -> finv k'.
Proof.
  intros [F1 F2 F3 F4 F5] Ef HL H.
  assert (HR : forall i p', procs k' !! i = Some p' -> exists p, procs k !! i = Some p).
  { intros i p' Hp'. apply lookup_lt_is_Some. rewrite <- HL. by eapply lookup_lt_Some. }
  split; rewrite ?Ef.
  - intros f Hf. rewrite F1 by done. symmetry. apply tally_same; [done|]. intros i p p' Hp Hp'. by eapply H.
  - intros f Hf. rewrite F2 by done. symmetry. apply tally_same; [done|]. intros i p p' Hp Hp'.
    unfold cwds. f_equal. by eapply H.
  - intros i p' Hp' Hv Hz. destruct (HR i p' Hp') as (p & Hp). destruct (H i p p' Hp Hp') as (_ & -> & HV & HZ).
    apply (F3 i); [done|by apply HV|by rewrite HZ].
  - intros i p' Hp' Hv. destruct (HR i p' Hp') as (p & Hp). destruct (H i p p' Hp Hp') as (_ & -> & HV & HZ).
    apply (F4 i); [done|]. by rewrite <- HV, HZ.
  - done.
Qed.

Lemma finv_quiet (k k' : kst F) (A A' : avm) :
  finv k -> quiet A A' k k' -> length (procs k') = length (procs k) -> finv k'.
Proof.
  intros FI [Q1 Q2 (_ & _ & _ & Q3) _ _] HL. eapply finv_same; eauto. intros i p p' Hp Hp'.
  destruct (decide (state p = UNUSED)) as [E|E].
  - destruct (Q2 i p Hp E) as (q & Hq & Eq & EF & EC). rewrite Hq in Hp'. injection Hp' as <-.
    split_and!; [done|done|unfold has_vm; naive_solver|]. rewrite E, Eq. done.
  - rewrite (Q1 i p Hp E) in Hp'. by injection Hp' as <-.
Qed.

(** Changing the slot [i]. *)
Lemma finv_slot (k k' : kst F) (i : nat) (p p' : proc) :
  finv k -> procs k !! i = Some p -> procs k' = <[i := p']> (procs k) ->
  (forall f, f <> 0 -> (frefs (files k') f + occurs f (ofile p) = frefs (files k) f + occurs f (ofile p'))%nat) ->
  (forall x, x <> 0 -> (irefs (files k') x + occurs x (cwds p) = irefs (files k) x + occurs x (cwds p'))%nat) ->
  fsops (files k') = 0%nat -> (has_vm p' -> state p' <> ZOMBIE -> cwd p' <> 0) ->
  (~ has_vm p' \/ state p' = ZOMBIE -> cwd p' = 0) -> finv k'.
Proof.
  intros [F1 F2 F3 F4 F5] Hp HP H1 H2 H3 H4 H5.
  assert (Hlk : forall j q, procs k' !! j = Some q -> q = p' \/ procs k !! j = Some q).
  { intros j q. rewrite HP. intros Hq. apply list_lookup_insert_Some in Hq. naive_solver. }
  split; [..|done].
  - intros f Hf. pose proof (tally_insert ofile f _ i p p' Hp). specialize (H1 f Hf). specialize (F1 f Hf).
    rewrite HP. lia.
  - intros f Hf. pose proof (tally_insert cwds f _ i p p' Hp). specialize (H2 f Hf). specialize (F2 f Hf).
    rewrite HP. lia.
  - intros j q Hq. apply Hlk in Hq as [->|Hq]; eauto.
  - intros j q Hq. apply Hlk in Hq as [->|Hq]; eauto.
Qed.

Lemma finv_forks (k k' : kst F) (A : avm) (p : proc) (pd : Z) :
  pinv k A -> finv k -> procs k !! cur k = Some p -> has_vm p -> state p <> ZOMBIE ->
  forks k k' A p pd -> finv k'.
Proof.
  intros PI FI Hp Hv Hz (i & q & f & d & s' & fs & Hq & Hs & Hi & -> & (S1 & S2 & S3) & _).
  assert (Hqv : ~ has_vm q) by (apply not_has_vm; auto).
  destruct (free_slot k A i q PI Hq Hqv) as (_ & EF & _).
  eapply (finv_slot k _ i q); eauto; cbn -[Z.eqb].
  - intros x Hx. rewrite S1, EF, occurs_zero by done. lia.
  - intros x Hx. rewrite S2, (fi_dead _ FI i q Hq (or_introl Hqv)). unfold add1. rewrite (Z.eqb_sym x).
    destruct (Z.eqb_spec 0 x); [lia|]. case_match; lia.
  - rewrite S3. apply FI.
  - intros _ _. by eapply (fi_live _ FI).
  - by intros [[]|].
Qed.

Definition sysinv (k : kst F) (A : avm) : Prop := pinv k A /\ finv k.

(** A process with an address space keeps what it owns. *)
Lemma pinv_own (k k' : kst F) (A : avm) (i : nat) (p p' : proc) :
  pinv k A -> procs k !! i = Some p -> procs k' = <[i := p']> (procs k) ->
  vm k' = vm k -> nextpid k' = nextpid k -> has_vm p -> has_vm p' ->
  kstack p' = kstack p -> pid p' = pid p -> pgdir p' = pgdir p -> sz p' = sz p ->
  length (ofile p') = 16%nat -> (state p' = ZOMBIE -> ofile p' = replicate 16 0) -> pinv k' A.
Proof.
  intros PI Hp HP Ev En Hv Hv' E1 E2 E3 E4 HL HZ.
  destruct (pi_slot _ _ PI i p Hp) as [S1 S2 S3 _ _ _].
  eapply (pinv_slot_keeps k k' A A i p p'); eauto using keeps_refl.
  - rewrite Ev. apply PI.
  - congruence.
  - lia.
  - rewrite En. split; rewrite ?E1, ?E2, ?E3, ?E4; [intros _; apply S1, Hv|intros _; apply S2, Hv|auto|done|..].
    + intros [?|[]]; auto.
    + by intros [].
  - intros j q Hj Hq. destruct (pi_apart _ _ PI i j p q Hp Hq ltac:(done)) as [Ha Hb].
    split; rewrite ?E1, ?E2, ?E3; intros _ Hu; [apply Ha; [apply Hv|done]|by apply Hb].
Qed.

(** Changes of state among sleeping, runnable and running, and of the fields
    that own nothing. *)
Definition calm (p q : proc) : Prop :=
  same_res p q /\ cwd q = cwd p /\ (state p = ZOMBIE -> state q = ZOMBIE).

Lemma calm_refl (p : proc) : calm p p.
Proof. by split_and!. Qed.
Lemma calm_trans (p q r : proc) : calm p q -> calm q r -> calm p r.
Proof. intros (R1 & C1 & Z1) (R2 & C2 & Z2). split_and!; [by eapply same_res_trans|congruence|auto]. Qed.

Lemma sys_calm (k k' : kst F) (A : avm) :
  sysinv k A -> vm k' = vm k -> nextpid k' = nextpid k -> files k' = files k ->
  Forall2 calm (procs k) (procs k') -> sysinv k' A.
Proof.
  intros [PI FI] Ev En Ef HF. split.
  - eapply pinv_same_res; eauto. eapply Forall2_impl; [done|]. intros p q H. apply H.
  - eapply finv_same; eauto; [by symmetry; eapply Forall2_length|]. intros i p p' Hp Hp'.
    destruct (Forall2_lookup_lr _ _ _ _ _ _ HF Hp Hp') as ((_ & _ & _ & _ & _ & HV & EF & HZ' & _) & EC & HZ).
    by split_and!.
Qed.

Lemma Forall2_calm_refl (ps : list proc) : Forall2 calm ps ps.
Proof. induction ps; constructor; auto using calm_refl. Qed.

Lemma calm_wakeup1_one (ch : Z) (p : proc) : calm p (wakeup1_one ch p).
Proof.
  unfold wakeup1_one. case_bool_decide as E; [|apply calm_refl]. cbn. case_match; [|apply calm_refl].
  unfold calm, same_res, has_vm. cbn. rewrite E. by split_and!.
Qed.

Lemma calm_wakeup1 (ch : Z) (ps : list proc) : Forall2 calm ps (wakeup1 ch ps).
Proof. unfold wakeup1. induction ps; cbn; constructor; auto using calm_wakeup1_one. Qed.

Lemma calm_kill_one (p : proc) : calm p (kill_one p).
Proof.
  unfold kill_one. case_bool_decide as E; cbn in E;
    unfold calm, same_res, has_vm; cbn; rewrite ?E; by split_and!.
Qed.

Lemma calm_update_pid (f : proc -> proc) (n : Z) (ps : list proc) :
  (forall p, calm p (f p)) -> Forall2 calm ps (update_pid f n ps).
Proof.
  intros Hf. induction ps as [|p ps IH]; cbn; [done|].
  case_match; constructor; auto using calm_refl, Forall2_calm_refl.
Qed.

Lemma calm_alter (f : proc -> proc) (i : nat) (p : proc) (ps : list proc) :
  ps !! i = Some p -> calm p (f p) -> Forall2 calm ps (alter f i ps).
Proof.
  revert i. induction ps as [|x ps IH]; intros [|i] Hp HR; try done; cbn in *; constructor.
  - by injection Hp as ->.
  - apply Forall2_calm_refl.
  - apply calm_refl.
  - by apply IH.
Qed.

(** [wakeup] and [kill] keep the invariants. *)
Lemma wakeup_spec (k : kst F) (A : avm) (ch : Z) :
  sysinv k A -> plock k = false ->
  wp (wakeup ch) (fun _ k' => sysinv k' A /\ k' = set_procs (wakeup1 ch (procs k)) k) k.
Proof.
  intros SI HL. unfold wakeup. repeat pstep. split.
  - eapply sys_calm; eauto. apply calm_wakeup1.
  - unfold set_procs. by rewrite HL.
Qed.

Lemma kill_spec (k : kst F) (A : avm) (n : Z) :
  sysinv k A -> plock k = false ->
  wp (kill n) (fun r k' => sysinv k' A /\ k' = set_procs (fst (kill_loop n (procs k))) k /\
    r = snd (kill_loop n (procs k))) k.
Proof.
  intros SI HL. unfold kill. repeat pstep. split_and!; [|by unfold set_procs; rewrite HL|done].
  eapply sys_calm; eauto. cbn. apply calm_update_pid, calm_kill_one.
Qed.
End Life.
