(* ===== verification/ProcExit.v ===== *)
(** * ProcExit: [exit], [wait] and [growproc] *)
From stdpp Require Import base gmap list numbers strings.
From Stdlib Require Import ZArith Lia ZifyBool.
From S2P Require Import Prelude Machine Cstring Kalloc Vm Frames Tables Cow Fork Fault Alloc Spaces Ptable Proc Pages ProcInv ProcOps ProcLife.

Section Reparent.
(** What reparenting does to the slot [j], when it starts at slot [i]. *)
Definition adopted (me init : Z) (i j : nat) (p q : proc) : Prop :=
  calm p q /\ (state p = RUNNABLE -> state q = RUNNABLE) /\
  parent q = if (i <=? j)%nat && (parent p =? me) then init else parent p.

Definition adopts (me init : Z) (i : nat) (ps ps' : list proc) : Prop :=
  length ps' = length ps /\
  forall j p, ps !! j = Some p -> exists q, ps' !! j = Some q /\ adopted me init i j p q.

Lemma wakeup1_one_facts (ch : Z) (p : proc) :
  calm p (wakeup1_one ch p) /\ (state p = RUNNABLE -> state (wakeup1_one ch p) = RUNNABLE) /\
  parent (wakeup1_one ch p) = parent p.
Proof.
  split_and!; [apply calm_wakeup1_one| |]; unfold wakeup1_one; case_match; auto.
Qed.

(** One child passed on. *)
Definition passed (init : Z) (i : nat) (ps ps' : list proc) : Prop :=
  length ps' = length ps /\
  forall j q, ps !! j = Some q -> exists q', ps' !! j = Some q' /\ calm q q' /\
    (state q = RUNNABLE -> state q' = RUNNABLE) /\ parent q' = if (j =? i)%nat then init else parent q.

Lemma pass_child (init : Z) (i : nat) (ps : list proc) (p : proc) :
  ps !! i = Some p -> has_vm p -> passed init i ps (alter (set_parent init) i ps).
Proof.
  intros Hp Hv. split; [by rewrite length_alter|]. intros j q Hq. destruct (decide (j = i)) as [->|Hji].
  - rewrite Hp in Hq. injection Hq as <-. rewrite list_lookup_alter_eq, Hp. eexists. split; [done|].
    rewrite Nat.eqb_refl. by split_and!.
  - rewrite list_lookup_alter_ne by done. exists q. split; [done|].
    replace (j =? i)%nat with false by lia. split_and!; [apply calm_refl|done|done].
Qed.

Lemma pass_wakeup (init ch : Z) (i : nat) (ps ps' : list proc) :
  passed init i ps ps' -> passed init i ps (wakeup1 ch ps').
Proof.
  intros [HL H]. split; [unfold wakeup1; by rewrite length_fmap|]. intros j q Hq.
  destruct (H j q Hq) as (q1 & Hq1 & C1 & R1 & P1). unfold wakeup1. rewrite list_lookup_fmap, Hq1. cbn.
  eexists. split; [done|]. destruct (wakeup1_one_facts ch q1) as (C2 & R2 & P2).
  split_and!; [by eapply calm_trans|auto|congruence].
Qed.

Lemma passed_back (init : Z) (i : nat) (ps ps' : list proc) (j : nat) (q' : proc) :
  passed init i ps ps' -> ps' !! j = Some q' -> exists q, ps !! j = Some q /\ (has_vm q' <-> has_vm q) /\
    parent q' = if (j =? i)%nat then init else parent q.
Proof.
  intros [HL H] Hq'. destruct (lookup_lt_is_Some_2 ps j) as [q Hq].
  { rewrite <- HL. by eapply lookup_lt_Some. }
  destruct (H j q Hq) as (q2 & Hq2 & ((_ & _ & _ & _ & _ & HV & _) & _) & _ & P2).
  rewrite Hq' in Hq2. injection Hq2 as <-. eauto.
Qed.

Lemma passed_adopts (me init : Z) (i : nat) (p : proc) (ps ps' ps'' : list proc) :
  init <> me -> ps !! i = Some p -> parent p = me -> passed init i ps ps' -> adopts me init (S i) ps' ps'' ->
  adopts me init i ps ps''.
Proof.
  intros Hne Hp Epm [HL2 H2] [HL3 H3]. split; [congruence|]. intros j q Hq.
  destruct (H2 j q Hq) as (q2 & Hq2 & C2 & R2 & P2). destruct (H3 j q2 Hq2) as (q3 & Hq3 & C3 & R3 & P3).
  exists q3. split; [done|]. split_and!; [by eapply calm_trans|auto|]. rewrite P3, P2.
  destruct (decide (j = i)) as [->|Hji].
  - rewrite Hp in Hq. injection Hq as <-. rewrite Nat.eqb_refl, Nat.leb_refl.
    replace (S i <=? i)%nat with false by lia. by rewrite Epm, Z.eqb_refl.
  - replace (j =? i)%nat with false by lia. by replace (S i <=? j)%nat with (i <=? j)%nat by lia.
Qed.

Lemma reparent_spec (me init : Z) (n i : nat) (ps : list proc) :
  (i + n = length ps)%nat -> init <> me ->
  (forall j p, ps !! j = Some p -> ~ has_vm p -> parent p <> me) ->
  adopts me init i ps (reparent me init i n ps).
Proof.
  revert i ps. induction n as [|n IH]; intros i ps Hn Hne Hps; cbn [reparent].
  { split; [done|]. intros j p Hp. exists p. split; [done|]. split_and!; [apply calm_refl|done|].
    pose proof (lookup_lt_Some _ _ _ Hp). by replace (i <=? j)%nat with false by lia. }
  destruct (lookup_lt_is_Some_2 ps i ltac:(lia)) as [p Hp]. rewrite Hp.
  destruct (Z.eqb_spec (parent p) me) as [Epm|Epm].
  - assert (Hv : has_vm p) by (destruct (decide (has_vm p)) as [?|Hnv]; [done|by destruct (Hps i p Hp Hnv)]).
    pose proof (pass_child init i ps p Hp Hv) as H1.
    match goal with |- adopts _ _ _ _ (reparent _ _ _ _ ?l) => assert (H2 : passed init i ps l) end.
    { case_bool_decide; [by apply pass_wakeup|done]. }
    eapply passed_adopts; eauto. apply IH; [destruct H2; lia|done|].
    intros j q2 Hq2 Hnv. destruct (passed_back _ _ _ _ _ _ H2 Hq2) as (q & Hq & HV & ->).
    destruct (j =? i)%nat; [done|]. apply (Hps j); [done|by rewrite <- HV].
  - destruct (IH (S i) ps) as [HL3 H3]; [lia|done|done|]. split; [done|]. intros j q Hq.
    destruct (H3 j q Hq) as (q3 & Hq3 & C3 & R3 & P3). exists q3. split_and!; [done|]. split_and!; [done|done|].
    rewrite P3. destruct (decide (j = i)) as [->|Hji].
    + rewrite Hp in Hq. injection Hq as <-. replace (parent p =? me) with false by lia. by rewrite !andb_false_r.
    + by replace (S i <=? j)%nat with (i <=? j)%nat by lia.
Qed.
End Reparent.

Section Exit.
Context `{KI : KernelImage} `{KIO : !KernelImageOk} `{PT : ProcTable} `{PTO : !ProcTableOk} {F : Type}
  `{FO : FileOps F} `{FR : !FileRefs F} `{FL : !FileLaws F}.
Implicit Types (k : kst F) (A : avm).

(** The state with the slot [c] and the files replaced. *)
Definition with_slot (k : kst F) (c : nat) (p : proc) (s : F) : kst F :=
  set_files s (set_procs (<[c := p]> (procs k)) k).

Lemma occurs_insert_zero (l : list Z) (fd : nat) (f x : Z) :
  l !! fd = Some f -> x <> 0 ->
  (occurs x (<[fd := 0%Z]> l) + (if (f =? x)%Z then 1 else 0) = occurs x l)%nat.
Proof.
  revert fd. induction l as [|y l IH]; intros [|fd] Hl Hx; try done; cbn in Hl.
  - injection Hl as ->. change (<[0%nat := 0]> (f :: l)) with (0 :: l). cbn [occurs].
    destruct (Z.eqb_spec 0 x); [lia|]. lia.
  - change (<[S fd := 0]> (y :: l)) with (y :: <[fd := 0]> l). cbn [occurs]. specialize (IH fd Hl Hx). lia.
Qed.

Lemma close_files_spec (n fd c : nat) (k : kst F) (p : proc) :
  (fd + n = 16)%nat -> finv k -> procs k !! c = Some p -> has_vm p -> state p <> ZOMBIE ->
  length (ofile p) = 16%nat -> (forall j, (j < fd)%nat -> ofile p !! j = Some 0) ->
  wp (close_files c fd n) (fun _ k' => finv k' /\
    exists s, k' = with_slot k c (set_ofile (replicate 16 0) p) s) k.
Proof.
  revert fd k p. induction n as [|n IH]; intros fd k p Hn FI Hp Hv Hz HL Hj; cbn [close_files].
  { apply wp_ret. split; [done|]. exists (files k). unfold with_slot.
    replace (set_ofile (replicate 16 0) p) with p; [rewrite list_insert_id by done; by destruct k|].
    replace (replicate 16 0) with (ofile p); [by destruct p|].
    apply list_eq_same_length with 16%nat; [by rewrite length_replicate|done|].
    intros i x y Hi Hx Hy. rewrite Hj in Hx by lia. apply lookup_replicate in Hy. naive_solver. }
  pose proof (lookup_lt_Some _ _ _ Hp) as Hc. repeat pstep.
  destruct (lookup_lt_is_Some_2 (ofile p) fd ltac:(lia)) as [f Hf]. rewrite Hf. cbn [default id].
  destruct (Z.eqb_spec f 0) as [->|Hf0]; cbn [negb].
  - apply wp_ret. apply IH; try done; [lia|]. intros j Hjl. destruct (decide (j = fd)) as [->|]; [done|].
    apply Hj. lia.
  - apply wp_bind. unfold onfiles. apply wp_zoom. destruct (finv_holds k c p FI Hp Hv Hz) as [HoF _].
    eapply wp_mono; [apply fileclose_law; [apply HoF; [by eapply list_elem_of_lookup_2|done]|apply FI]|].
    intros _ s1 (R1 & R2 & R3). repeat pstep.
    eapply wp_mono; [apply (IH (S fd) _ (set_ofile (<[fd := 0]> (ofile p)) p))|]; try done; [lia|..].
    + eapply (finv_slot k _ c p (set_ofile (<[fd := 0]> (ofile p)) p)); eauto; cbn -[Z.eqb].
      * intros x Hx. pose proof (occurs_insert_zero _ _ _ x Hf Hx). rewrite R1. unfold sub1.
        pose proof (HoF f ltac:(by eapply list_elem_of_lookup_2) Hf0).
        rewrite (Z.eqb_sym x f). destruct (Z.eqb_spec f x) as [->|]; lia.
      * intros _ _. by eapply (fi_live _ FI).
      * by intros [[]|].
    + cbn. by apply list_lookup_insert_eq.
    + cbn. by rewrite length_insert.
    + intros j Hjl. cbn. destruct (decide (j = fd)) as [->|]; [apply list_lookup_insert_eq; lia|].
      rewrite list_lookup_insert_ne by done. apply Hj. lia.
    + intros _ k' (FI' & s & ->). split; [done|]. exists s. unfold with_slot. cbn.
      by rewrite list_insert_insert_eq.
Qed.

Lemma proc_ptr_nonzero (i : nat) : proc_ptr i <> 0.
Proof. unfold proc_ptr, PROCSIZE. destruct PTO as [H]. lia. Qed.

Lemma proc_ptr_inj (i j : nat) : proc_ptr i = proc_ptr j -> i = j.
Proof. unfold proc_ptr, PROCSIZE. lia. Qed.

(** What [exit] leaves: the process is a zombie without references, its
    children are [init]'s, its parent and, if need be, [init] are awake, and
    the lock is held for the scheduler. *)
Record exited (k k' : kst F) (p : proc) : Prop := mkexited {
  ex_vm : vm k' = vm k;
  ex_lock : plock k' = true;
  ex_cpu : cur k' = cur k /\ initproc k' = initproc k /\ nextpid k' = nextpid k;
  ex_self : exists z, procs k' !! cur k = Some z /\ state z = ZOMBIE /\ pid z = pid p /\
              ofile z = replicate 16 0 /\ cwd z = 0 /\ pgdir z = pgdir p /\ kstack z = kstack p /\
              parent z = if parent p =? proc_ptr (cur k) then initproc k else parent p;
  ex_others : forall j q, j <> cur k -> procs k !! j = Some q -> exists q', procs k' !! j = Some q' /\
                calm q q' /\ parent q' = (if parent q =? proc_ptr (cur k) then initproc k else parent q) /\
                (state q = SLEEPING -> chan q = parent p -> state q' = RUNNABLE);
}.

(** The wake-up of the parent followed by the adoption of the children. *)
Lemma exit_table (me init ch : Z) (ps : list proc) :
  init <> me -> (forall j p, ps !! j = Some p -> ~ has_vm p -> parent p <> me) ->
  let ps' := reparent me init 0 (length (wakeup1 ch ps)) (wakeup1 ch ps) in
  length ps' = length ps /\
  forall j q, ps !! j = Some q -> exists q', ps' !! j = Some q' /\ calm q q' /\
    parent q' = (if parent q =? me then init else parent q) /\
    (state q = SLEEPING -> chan q = ch -> state q' = RUNNABLE).
Proof.
  intros Hne Hps ps'. assert (HW : forall j q, ps !! j = Some q -> wakeup1 ch ps !! j = Some (wakeup1_one ch q)).
  { intros j q Hq. unfold wakeup1. by rewrite list_lookup_fmap, Hq. }
  assert (HL : length (wakeup1 ch ps) = length ps) by (unfold wakeup1; by rewrite length_fmap).
  destruct (reparent_spec me init (length (wakeup1 ch ps)) 0 (wakeup1 ch ps)) as [HL' H']; [done|done|..].
  { intros j w Hw. unfold wakeup1 in Hw. apply list_lookup_fmap_Some in Hw as (q & -> & Hq).
    destruct (wakeup1_one_facts ch q) as (((_ & _ & _ & _ & _ & HV & _) & _) & _ & ->).
    rewrite HV. by apply (Hps j). }
  split; [by rewrite <- HL|]. intros j q Hq. destruct (H' j _ (HW j q Hq)) as (q' & Hq' & C & R & P).
  destruct (wakeup1_one_facts ch q) as (C1 & _ & P1). exists q'.
  split_and!; [done|by eapply calm_trans|by rewrite P, P1|].
  intros Hs Hch. apply R. unfold wakeup1_one. by rewrite Hs, Hch, Z.eqb_refl.
Qed.

Lemma calm_zombie (p q : proc) : calm p q -> calm (set_state ZOMBIE p) (set_state ZOMBIE q).
Proof.
  intros ((E1 & E2 & E3 & E4 & _ & _ & E7 & _ & E9) & E10 & _).
  unfold calm, same_res, has_vm. cbn. split_and!; try done. intros []. by split.
Qed.

(** The slot of the process after its references are gone. *)
Definition closed (p : proc) : proc := set_cwd 0 (set_ofile (replicate 16 0) p).

Lemma sys_closed (k : kst F) (A : avm) (p : proc) (s1 s4 : F) :
  sysinv k A -> procs k !! cur k = Some p -> has_vm p -> state p <> ZOMBIE ->
  finv (with_slot k (cur k) (set_ofile (replicate 16 0) p) s1) ->
  refs_are s4 (frefs s1) (sub1 (cwd p) (irefs s1)) 0 ->
  sysinv (with_slot k (cur k) (set_state ZOMBIE (closed p)) s4) A.
Proof.
  intros [PI FI] Hp Hv Hz FI1 (R1 & R2 & R3). pose proof (lookup_lt_Some _ _ _ Hp) as Hc. split.
  - by eapply (pinv_own k _ A (cur k) p).
  - assert (Hp1 : procs (with_slot k (cur k) (set_ofile (replicate 16 0) p) s1) !! cur k =
                    Some (set_ofile (replicate 16 0) p)) by (by apply list_lookup_insert_eq).
    pose proof (finv_holds _ _ _ FI1 Hp1 Hv Hz) as [_ HC].
    eapply (finv_slot _ _ (cur k) _ (set_state ZOMBIE (closed p)) FI1 Hp1); try done; cbn -[Z.eqb replicate].
    + by rewrite list_insert_insert_eq.
    + intros f Hf. by rewrite R1.
    + intros x Hx. rewrite R2. unfold sub1. cbn in HC. rewrite (Z.eqb_sym x).
      destruct (Z.eqb_spec 0 x); [lia|]. destruct (Z.eqb_spec (cwd p) x) as [<-|]; lia.
Qed.

Lemma exit_final (k : kst F) (A : avm) (p z : proc) (s4 : F) (ps' : list proc) :
  let c := cur k in let me := proc_ptr c in
  procs k !! c = Some p -> state p = RUNNING ->
  sysinv (with_slot k c (set_state ZOMBIE (closed p)) s4) A ->
  length ps' = length (<[c := closed p]> (procs k)) ->
  (forall j q, <[c := closed p]> (procs k) !! j = Some q -> exists q', ps' !! j = Some q' /\ calm q q' /\
     parent q' = (if parent q =? me then initproc k else parent q) /\
     (state q = SLEEPING -> chan q = parent p -> state q' = RUNNABLE)) ->
  ps' !! c = Some z ->
  let k' := mkk (vm k) (<[c := set_state ZOMBIE z]> ps') true (nextpid k) (createdProcess k)
              (process_number k) (initproc k) (ticks k) (tickslock k) c s4 in
  sysinv k' A /\ exited k k' p.
Proof.
  intros c me Hp Hs SI HL HT Hz k'. rewrite length_insert in HL.
  pose proof (lookup_lt_Some _ _ _ Hp) as Hc.
  destruct (HT c (closed p)) as (z' & Hz' & Cz & Pz & _); [by apply list_lookup_insert_eq|].
  rewrite Hz in Hz'. injection Hz' as <-. split.
  - eapply sys_calm; [exact SI|done|done|done|]. apply Forall2_same_length_lookup_2; cbn.
    + by rewrite !length_insert.
    + intros j x y Hx Hy. destruct (decide (j = c)) as [->|Hj].
      * rewrite list_lookup_insert_eq in Hx, Hy by (rewrite ?HL; done). injection Hx as <-. injection Hy as <-.
        by apply calm_zombie.
      * rewrite list_lookup_insert_ne in Hx, Hy by done.
        destruct (HT j x) as (q' & Hq' & C & _); [by rewrite list_lookup_insert_ne|]. congruence.
  - destruct Cz as ((E1 & E2 & E3 & _ & _ & _ & E7 & _) & E8 & _). split; cbn; try done.
    + eexists. split; [apply list_lookup_insert_eq; lia|]. cbn. by split_and!.
    + intros j q Hj Hq. rewrite list_lookup_insert_ne by done. apply (HT j q). by rewrite list_lookup_insert_ne.
Qed.

Lemma exit_spec (k : kst F) (A : avm) (p : proc) :
  sysinv k A -> plock k = false -> procs k !! cur k = Some p -> state p = RUNNING ->
  initproc k <> proc_ptr (cur k) ->
  wp exit (fun _ k' => sysinv k' A /\ exited k k' p) k.
Proof.
  intros SI HL Hp Hs Hi. pose proof SI as [PI FI]. pose proof (lookup_lt_Some _ _ _ Hp) as Hc.
  assert (Hv : has_vm p) by (split; congruence). assert (Hz : state p <> ZOMBIE) by congruence.
  unfold exit, myproc. repeat pstep. destruct (Z.eqb_spec (proc_ptr (cur k)) (initproc k)) as [|_]; [congruence|].
  pstep. eapply wp_mono; [apply (close_files_spec 16 0 (cur k) k p); try done|].
  { apply (pi_slot _ _ PI _ _ Hp). }
  { lia. }
  intros _ k1 (FI1 & s1 & ->). pose proof (fi_idle _ FI1) as HI1. cbn in HI1.
  assert (HC : (0 < irefs s1 (cwd p))%nat).
  { apply (finv_holds _ (cur k) (set_ofile (replicate 16 0) p) FI1); [by apply list_lookup_insert_eq|done|done]. }
  unfold with_slot, onfiles. pstep. apply wp_zoom. cbn [files set_files].
  eapply wp_mono; [by apply begin_op_law|]. intros _ s2 (B1 & B2 & B3). repeat pstep. apply wp_zoom. pcbn.
  eapply wp_mono; [apply iput_law; [by rewrite B2|done]|]. intros _ s3 (I1 & I2 & I3). repeat pstep.
  apply wp_zoom. pcbn. eapply wp_mono; [by apply end_op_law|]. intros _ s4 (E1 & E2 & E3). repeat pstep.
  destruct (exit_table (proc_ptr (cur k)) (initproc k) (parent p) (<[cur k := closed p]> (procs k))) as [HLT HT];
    [done|..].
  { intros j q Hq Hnv. apply list_lookup_insert_Some in Hq as [(<- & <- & _)|(_ & Hq)]; [by destruct Hnv|].
    destruct (free_slot k A j q PI Hq Hnv) as (_ & _ & ->). apply not_eq_sym, proc_ptr_nonzero. }
  destruct (HT (cur k) (closed p)) as (z & Hzl & _); [by apply list_lookup_insert_eq|].
  eapply wp_setp; [exact Hzl|]. eapply (exit_final k A p z s4); eauto.
  eapply sys_closed; eauto. split_and!; [|intros x|done].
  - intros x. by rewrite E1, I1, B1.
  - rewrite E2, I2. unfold sub1. by rewrite B2.
Qed.
End Exit.


(** * Reaping children with [wait], and [growproc] *)

Lemma scan_children_spec (me : Z) (ps : list proc) (n : nat) (kids : bool) :
  match scan_children me n kids ps with
  | (Some i, _) => exists p, (n <= i)%nat /\ ps !! (i - n)%nat = Some p /\ parent p = me /\ state p = ZOMBIE
  | (None, b) => (forall i p, ps !! i = Some p -> parent p = me -> state p <> ZOMBIE) /\
                 b = kids || existsb (fun p => parent p =? me) ps
  end.
Proof.
  revert n kids. induction ps as [|p ps IH]; intros n kids; cbn [scan_children existsb].
  { split; [done|]. by rewrite orb_false_r. }
  destruct (Z.eqb_spec (parent p) me) as [E|E]; cbn [negb orb].
  - case_bool_decide as Hz.
    { exists p. rewrite Nat.sub_diag. auto. }
    specialize (IH (S n) true). destruct (scan_children me (S n) true ps) as [[i|] b].
    + destruct IH as (q & Hle & Hq & H). exists q. split_and!; [lia| |apply H|apply H].
      by replace (i - n)%nat with (S (i - S n)) by lia.
    + destruct IH as [H ->]. split; [|by rewrite orb_true_r]. intros [|i] q Hq; [by injection Hq as <-|eauto].
  - specialize (IH (S n) kids). destruct (scan_children me (S n) kids ps) as [[i|] b].
    + destruct IH as (q & Hle & Hq & H). exists q. split_and!; [lia| |apply H|apply H].
      by replace (i - n)%nat with (S (i - S n)) by lia.
    + destruct IH as [H ->]. split; [|done]. intros [|i] q Hq; [by injection Hq as <-|eauto].
Qed.

Section Wait.
Context `{KI : KernelImage} `{KIO : !KernelImageOk} `{PT : ProcTable} `{PTO : !ProcTableOk} {F : Type}
  `{FO : FileOps F} `{FR : !FileRefs F} `{FL : !FileLaws F}.
Implicit Types (k : kst F) (A : avm).

(** The slot after its process is reaped. *)
Definition reaped (q : proc) : proc :=
  set_state UNUSED (set_killed 0 (set_name EmptyString (set_parent 0 (set_pid 0 (set_kstack 0 q))))).

(** The memory of the reaped process: its kernel stack [f] and its directory
    [d] are free, and no other process notices. *)
Record reaps (A A' : avm) (s s' : vmst) (f d : Z) : Prop := mkreaps {
  rp_stack : own A !! f = Some OKern /\ own A' !! f = Some OFree;
  rp_dir : own A !! d = Some ODir /\ own A' !! d = Some OFree;
  rp_views : forall x va, own A !! x = Some ODir -> x <> d -> 0 <= va < KERNBASE ->
               user_load (mem s') x va = user_load (mem s) x va;
}.

Lemma pinv_reap (k k' : kst F) (A A1 A2 : avm) (i : nat) (q : proc) (f d : Z) :
  pinv k A -> procs k !! i = Some q -> state q = ZOMBIE -> kstack q = P2V f -> pgdir q = P2V d ->
  procs k' = <[i := reaped q]> (procs k) -> vminv (vm k') A2 -> kpgdir (vm k') = kpgdir (vm k) ->
  nextpid k' = nextpid k -> own A !! f = Some OKern -> own A !! d = Some ODir ->
  maps A1 = maps A -> dirs A1 = dirs A -> (forall x, x <> f -> own A1 !! x = own A !! x) ->
  dirs A2 = dirs A1 ∖ {[ d ]} ->
  (forall x r, own A1 !! x = Some r -> r = ODir \/ r = OKern -> x <> d -> own A2 !! x = Some r) ->
  (forall y n, own A1 !! y = Some ODir -> y <> d -> sized A1 y n -> sized A2 y n) -> pinv k' A2.
Proof.
  intros PI Hq Hz Eks Epg HP V2 Ek En Hf Hd EM HD1 HO1 HD2 HO2 HS2.
  pose proof (lookup_lt_Some _ _ _ Hq) as Hi. rewrite (pi_len _ _ PI) in Hi. pose proof (pi_next _ _ PI) as HN.
  assert (Hv : has_vm q) by (split; congruence). pose proof (pi_slot _ _ PI i q Hq) as Sq.
  assert (Hdir : forall y, own A !! y = Some ODir -> y <> d -> own A2 !! y = Some ODir).
  { intros y Hy Hne. apply HO2; auto. rewrite HO1; [done|]. congruence. }
  eapply (pinv_slot k k' A A2 i (reaped q)); eauto; [|lia|..].
  - destruct (pi_kpg _ _ PI) as (x & Ex & Hx). exists x. split; [congruence|]. apply Hdir; [done|].
    intros ->. destruct (so_dir _ _ _ _ Sq Hv) as (? & _ & _ & _ & Hne). congruence.
  - split; cbn; try done; try (by intros []). + apply Sq. + intros _. apply Sq. by left.
  - intros j q' Hj Hq'. destruct (pi_apart _ _ PI i j q q' Hq Hq' ltac:(done)) as [Ha Hb].
    split; [|split; cbn; [done|by intros []]]. rewrite En, Ek.
    destruct (pi_slot _ _ PI j q' Hq') as [S1 S2 S3 S4 S5 S6]. split; [|done| |done|done|done].
    + intros Hu. destruct (S1 Hu) as (g & Eg & Hg). exists g. split; [done|]. apply HO2; auto; [|congruence].
      rewrite HO1; [done|]. intros ->. destruct Ha as [Ha _]; congruence.
    + intros Hv'. destruct (S3 Hv') as (y & Ey & Hy & [Z1 Z2 Z3] & Hk). exists y.
      assert (Hyd : y <> d) by (intros ->; specialize (Hb Hv Hv'); congruence).
      split_and!; auto. apply HS2; [rewrite HO1; congruence|done|]. by split; rewrite ?EM.
  - intros y Hy. apply elem_of_dirs in Hy. rewrite HD2, HD1 in Hy.
    apply elem_of_difference in Hy as [Hy Hyd]. rewrite elem_of_singleton in Hyd. apply elem_of_dirs in Hy.
    rewrite Ek. destruct (pi_dirs _ _ PI y Hy) as [E|(j & q' & Hq' & Hvq & E)]; [by left|right; right].
    exists j, q'. split; [|done]. intros ->. rewrite Hq in Hq'. injection Hq' as <-. apply Hyd.
    pose proof (tb_pages _ _ _ (rp_tbl _ _ (vi_rep _ _ (pi_vm _ _ PI)))) as TP.
    rewrite <- (V2P_P2V_page y), <- (V2P_P2V_page d) by eauto. congruence.
Qed.

(** What one pass of [wait] does. *)
Inductive waited (k k' : kst F) (A A' : avm) (p : proc) : option Z -> Prop :=
  | waited_reap i q f d s' :
      procs k !! i = Some q -> parent q = proc_ptr (cur k) -> state q = ZOMBIE ->
      kstack q = P2V f -> pgdir q = P2V d ->
      k' = set_plock false (set_procs (<[i := reaped q]> (procs k)) (set_vm s' k)) ->
      reaps A A' (vm k) s' f d -> waited k k' A A' p (Some (pid q))
  | waited_none :
      (forall i q, procs k !! i = Some q -> parent q <> proc_ptr (cur k)) \/ killed p <> 0 ->
      k' = set_plock false k -> A' = A -> waited k k' A A' p (Some (-1))
  | waited_sleep :
      (exists i q, procs k !! i = Some q /\ parent q = proc_ptr (cur k)) -> killed p = 0 ->
      (forall i q, procs k !! i = Some q -> parent q = proc_ptr (cur k) -> state q <> ZOMBIE) ->
      k' = set_procs (<[cur k := set_state SLEEPING (set_chan (proc_ptr (cur k)) p)]> (procs k)) k ->
      A' = A -> waited k k' A A' p None.

Lemma reap_spec (k : kst F) (A : avm) (i : nat) (q : proc) :
  sysinv k A -> plock k = true -> procs k !! i = Some q -> state q = ZOMBIE ->
  wp (onvm (kfree (kstack q)) ;;;
      setp i (set_kstack 0) ;;;
      onvm (freevm (pgdir q)) ;;;
      setp i (fun q => set_state UNUSED (set_killed 0 (set_name EmptyString (set_parent 0 (set_pid 0 q))))) ;;;
      release_ptable ;;; ret (Some (pid q)))
    (fun r k' => exists A' f d s', sysinv k' A' /\ r = Some (pid q) /\ kstack q = P2V f /\ pgdir q = P2V d /\
       k' = set_plock false (set_procs (<[i := reaped q]> (procs k)) (set_vm s' k)) /\
       reaps A A' (vm k) s' f d) k.
Proof.
  intros [PI FI] HL Hq Hz. pose proof (lookup_lt_Some _ _ _ Hq) as Hi.
  assert (Hv : has_vm q) by (split; congruence). pose proof (pi_slot _ _ PI i q Hq) as Sq.
  destruct (so_kstack _ _ _ _ Sq ltac:(congruence)) as (f & Ef & Hf).
  destruct (so_dir _ _ _ _ Sq Hv) as (d & Ed & Hd & _). rewrite Ef, Ed.
  pstep. unfold onvm at 1. apply wp_zoom. eapply wp_mono; [apply kfree_client; [apply PI|done]|].
  intros _ s1 (A1 & V1 & P1 & HD1 & Hf1 & EM1 & HO1 & HV1). repeat pstep.
  unfold onvm. apply wp_zoom. pcbn. assert (Hd1 : own A1 !! d = Some ODir) by (rewrite HO1; congruence).
  eapply wp_mono; [by apply freevm_client|].
  intros _ s2 (A2 & V2 & P2 & Hd2 & HD2 & HO2 & HS2 & HF2 & HV2). repeat pstep.
  assert (Ek : kpgdir s2 = kpgdir (vm k)).
  { by rewrite (proj1 (vm_frame_kpgdir _ _ (vm_only_frame _ _ P2))),
      (proj1 (vm_frame_kpgdir _ _ (vm_only_frame _ _ P1))). }
  exists A2, f, d, s2. split_and!; try done; [split|].
  - by eapply (pinv_reap k _ A A1 A2 i q f d).
  - eapply (finv_slot k _ i q (reaped q)); eauto; cbn -[Z.eqb].
    + apply FI.
    + by intros [].
    + intros _. apply (fi_dead _ FI i q Hq). by right.
  - split; [auto..|].
    + intros x va Hx Hne Hva. rewrite HV2, HV1; try done. rewrite HO1; congruence.
Qed.

Lemma wait_pass_spec (k : kst F) (A : avm) (p : proc) :
  sysinv k A -> plock k = true -> procs k !! cur k = Some p -> state p = RUNNING ->
  wp wait_pass (fun r k' => exists A', sysinv k' A' /\ waited k k' A A' p r) k.
Proof.
  intros SI HL Hp Hs. pose proof (lookup_lt_Some _ _ _ Hp) as Hc. unfold wait_pass, myproc. repeat pstep.
  pose proof (scan_children_spec (proc_ptr (cur k)) (procs k) 0 false) as HSC.
  destruct (scan_children (proc_ptr (cur k)) 0 false (procs k)) as [[i|] b].
  - destruct HSC as (q & _ & Hq & Hpar & Hz). rewrite Nat.sub_0_r in Hq. pstep.
    eapply wp_getp; [exact Hq|]. eapply wp_mono; [by apply (reap_spec k A i q)|].
    intros r k' (A' & f & d & s' & SI' & -> & Ef & Ed & -> & HR). exists A'. split; [done|].
    by eapply waited_reap.
  - destruct HSC as [Hnz ->]. cbn [orb]. pstep. eapply wp_getp; [exact Hp|].
    destruct (existsb (fun q => parent q =? proc_ptr (cur k)) (procs k)) eqn:EX; cbn [negb orb].
    + apply existsb_exists in EX as (q & Hq & Eq). apply list_elem_of_In, list_elem_of_lookup in Hq as [i Hq].
      destruct (Z.eqb_spec (killed p) 0) as [Ek|Ek]; cbn [negb].
      * unfold sleep_ptable, myproc. repeat pstep. exists A.
        split; [|apply waited_sleep; try done; exists i, q; split; [done|lia]].
        eapply sys_calm; [exact SI|done|done|done|]. cbn.
        rewrite <- (alter_item (fun p => set_state SLEEPING (set_chan (proc_ptr (cur k)) p)) _ p) by done.
        eapply calm_alter; [done|]. unfold calm, same_res, has_vm. cbn. by rewrite Hs.
      * repeat pstep. exists A. split; [|apply waited_none; auto].
        eapply sys_calm; [exact SI|done|done|done|apply Forall2_calm_refl].
    + repeat pstep. exists A. split; [eapply sys_calm; [exact SI|done|done|done|apply Forall2_calm_refl]|].
      apply waited_none; [|done|done]. left. intros i q Hq E.
      apply not_true_iff_false in EX. apply EX, existsb_exists. exists q.
      split; [by eapply list_elem_of_In, list_elem_of_lookup_2|lia].
Qed.
End Wait.


(** * The size of a process ([growproc]) and switching to one
    ([scheduler]) *)

Section Grow.
Context `{KI : KernelImage} `{KIO : !KernelImageOk} `{PT : ProcTable} {F : Type}
  `{FO : FileOps F} `{FR : !FileRefs F} `{FL : !FileLaws F}.
Implicit Types (k : kst F) (A : avm).

Lemma vminv_tss (t : taskstate) (s : vmst) (A : avm) : vminv s A -> vminv (set_tss t s) A.
Proof. intros [[Hk T] L C]. by split. Qed.

(** [switchuvm] touches the task state and the page-table base only. *)
Lemma switchuvm_spec (s : vmst) (A : avm) (ks pg : Z) :
  vminv s A -> (ks =? 0) = false -> (pg =? 0) = false ->
  wp (switchuvm false ks pg) (fun _ s' => vminv s' A /\ cr3 s' = V2P pg /\ kpgdir s' = kpgdir s /\
    mem s' = mem s) s.
Proof.
  intros V E1 E2. unfold switchuvm. rewrite E1, E2. wp_steps. unfold lcr3. wp_steps.
  split_and!; [by apply vminv_cr3, vminv_tss|done|done|done].
Qed.

(** A process whose address space has a new size. *)
Lemma pinv_resize (k k' : kst F) (A A' : avm) (c : nat) (p p' : proc) (d : Z) :
  pinv k A -> procs k !! c = Some p -> has_vm p -> has_vm p' -> procs k' = <[c := p']> (procs k) ->
  vminv (vm k') A' -> kpgdir (vm k') = kpgdir (vm k) -> nextpid k' = nextpid k ->
  kstack p' = kstack p -> pid p' = pid p -> pgdir p' = pgdir p -> ofile p' = ofile p ->
  state p' = state p -> pgdir p = P2V d -> own A !! d = Some ODir ->
  resized d A A' -> sized A' d (sz p') -> pinv k' A'.
Proof.
  intros PI Hp Hv Hv' HP V' Ek En E1 E2 E3 E4 E5 Ed Hd [RO RS RD] Hsz.
  pose proof (lookup_lt_Some _ _ _ Hp) as Hi. rewrite (pi_len _ _ PI) in Hi. pose proof (pi_next _ _ PI) as HN.
  destruct (pi_slot _ _ PI c p Hp) as [S1 S2 S3 S4 S5 S6].
  eapply (pinv_slot k k' A A' c p'); eauto; [|lia|..].
  - eapply kpg_dirs; [apply PI|done|by rewrite RD].
  - rewrite En, Ek. split; rewrite ?E1, ?E2, ?E3, ?E4, ?E5; [..|done| |].
    + intros _. destruct (S1 (proj1 Hv)) as (f & Ef & Hf). exists f. auto.
    + intros _. apply S2, Hv.
    + intros _. destruct (S3 Hv) as (? & _ & _ & _ & Hk). exists d. split_and!; auto.
    + intros [?|[]]; auto.
    + by intros [].
  - intros j q Hj Hq. destruct (pi_apart _ _ PI c j p q Hp Hq ltac:(done)) as [Ha Hb].
    destruct (pi_slot _ _ PI j q Hq) as [T1 T2 T3 T4 T5 T6]. rewrite En, Ek. split; [split; [|done| |done|done|done]|].
    + intros Hu. destruct (T1 Hu) as (f & Ef & Hf). exists f. auto.
    + intros Hu. destruct (T3 Hu) as (y & Ey & Hy & Hsy & Hk). exists y. split_and!; auto.
      apply RS; [|done]. intros ->. specialize (Hb Hv Hu). congruence.
    + split; rewrite ?E1, ?E2, ?E3; intros _ Hu; [apply Ha; [apply Hv|done]|by apply Hb].
  - intros y Hy. rewrite Ek. apply elem_of_dirs in Hy. rewrite RD in Hy. apply elem_of_dirs in Hy.
    destruct (pi_dirs _ _ PI y Hy) as [E|(j & q & Hq & Hvq & E)]; [by left|right].
    destruct (decide (j = c)) as [->|Hne]; [left|right; eauto 10].
    rewrite Hp in Hq. injection Hq as <-. split; congruence.
Qed.

(** Nothing but memory and the size of the current process changed. *)
Definition resizes (k k' : kst F) (p : proc) (new : Z) : Prop :=
  procs k' = <[cur k := set_sz new p]> (procs k) /\ cur k' = cur k /\ plock k' = plock k /\
  files k' = files k /\ initproc k' = initproc k.

Lemma finv_resizes (k k' : kst F) (p : proc) (new : Z) :
  finv k -> procs k !! cur k = Some p -> resizes k k' p new -> finv k'.
Proof.
  intros FI Hp (HP & _ & _ & Ef & _). eapply (finv_same k k' FI); [done|by rewrite HP, length_insert|].
  intros i q q' Hq Hq'. rewrite HP in Hq'.
  apply list_lookup_insert_Some in Hq' as [(<- & <- & _)|(Hi & Hq')]; [|naive_solver].
  rewrite Hp in Hq. by injection Hq as <-.
Qed.

Lemma resizes_refl (k : kst F) (s : vmst) (p : proc) :
  procs k !! cur k = Some p -> resizes k (set_vm s k) p (sz p).
Proof.
  intros Hp. split_and!; try done. cbn. replace (set_sz (sz p) p) with p by (by destruct p).
  by rewrite list_insert_id.
Qed.

(** The common end of [growproc], with the memory already changed. *)
Lemma grow_finish (k : kst F) (A A1 : avm) (s1 : vmst) (p : proc) (d new : Z) :
  sysinv k A -> procs k !! cur k = Some p -> has_vm p -> pgdir p = P2V d -> own A !! d = Some ODir ->
  vminv s1 A1 -> kpgdir s1 = kpgdir (vm k) -> resized d A A1 -> sized A1 d new ->
  wp (setp (cur k) (set_sz new) ;;; switchuvm_proc (cur k) ;;; ret 0)
    (fun r k' => sysinv k' A1 /\ r = 0 /\ resizes k k' p new /\ cr3 (vm k') = V2P (pgdir p)) (set_vm s1 k).
Proof.
  intros [PI FI] Hp Hv Ed Hd V1 Ek RZ Hsz. pose proof (lookup_lt_Some _ _ _ Hp) as Hc.
  destruct (so_kstack _ _ _ _ (pi_slot _ _ PI _ _ Hp) (proj1 Hv)) as (f & Ef & Hf).
  unfold switchuvm_proc. repeat pstep. unfold onvm. apply wp_zoom. pcbn. rewrite Ed, Ef.
  pose proof (P2V_nonzero _ _ _ _ (pi_vm _ _ PI) Hf) as Nf. pose proof (P2V_nonzero _ _ _ _ (pi_vm _ _ PI) Hd) as Nd.
  eapply wp_mono; [by apply (switchuvm_spec s1 A1)|].
  intros _ s2 (V2 & Hcr & Ek2 & _). repeat pstep.
  assert (HR : resizes k (set_vm s2 (set_procs (<[cur k := set_sz new p]> (procs k)) (set_vm s1 k))) p new) by done.
  split_and!; try done. split; [|by eapply finv_resizes].
  eapply (pinv_resize k _ A A1 (cur k) p (set_sz new p) d); try done. cbn. congruence.
Qed.

(** The size [growproc n] gives, when memory suffices; [None] means refused. *)
Definition grown (size n : Z) : option Z :=
  if 0 <? n then if KERNBASE <=? size + n then None else Some (size + n)
  else if size + n <? 0 then Some size else Some (size + n).

(** What [growproc n] does for the process [p] with the directory [d]. *)
Definition grow_post (k : kst F) (p : proc) (d n r : Z) (k' : kst F) : Prop :=
  exists A', sysinv k' A' /\
    ((r = 0 /\ exists new, grown (sz p) n = Some new /\ resizes k k' p new /\ sized A' d new) \/
     (r = -1 /\ (0 < n \/ sz p = 0) /\ resizes k k' p (sz p))).

Section Cases.
Context (k : kst F) (A : avm) (p : proc) (d n : Z).
Hypothesis SI : sysinv k A.
Hypothesis Hp : procs k !! cur k = Some p.
Hypothesis Hv : has_vm p.
Hypothesis Ed : pgdir p = P2V d.
Hypothesis Hd : own A !! d = Some ODir.
Hypothesis Hsz : sized A d (sz p).
Hypothesis Hn : -2147483648 <= n < 2147483648.

Lemma grow_ok (A1 : avm) (s1 : vmst) (new : Z) :
  vminv s1 A1 -> kpgdir s1 = kpgdir (vm k) -> resized d A A1 -> sized A1 d new -> grown (sz p) n = Some new ->
  wp (setp (cur k) (set_sz new) ;;; switchuvm_proc (cur k) ;;; ret 0) (grow_post k p d n) (set_vm s1 k).
Proof.
  intros V1 Ek RZ Hs1 Hg. eapply wp_mono; [by eapply (grow_finish k A A1 s1 p d new)|].
  intros r k' (SI' & -> & HR & _). exists A1. split; [done|]. left. eauto.
Qed.

Lemma grow_refused (A1 : avm) (s1 : vmst) :
  vminv s1 A1 -> kpgdir s1 = kpgdir (vm k) -> resized d A A1 -> sized A1 d (sz p) -> 0 < n \/ sz p = 0 ->
  grow_post k p d n (-1) (set_vm s1 k).
Proof.
  intros V1 Ek RZ Hs1 Hc. assert (HR : resizes k (set_vm s1 k) p (sz p)) by (by apply resizes_refl).
  destruct SI as [PI FI]. exists A1. split; [|right; auto]. split; [|by eapply finv_resizes].
  eapply (pinv_resize k _ A A1 (cur k) p (set_sz (sz p) p) d); try done. apply HR.
Qed.

Lemma resized_refl : resized d A A.
Proof. by split. Qed.

Lemma grow_up :
  0 < n -> (sz p + n < KERNBASE -> can_map d ((sz p + 4095) / 4096) ((sz p + n + 4095) / 4096) A) ->
  wp (let! size := onvm (allocuvm (pgdir p) (sz p) (u32 (sz p + n))) in
      if size =? 0 then ret (-1)
      else setp (cur k) (set_sz size) ;;; switchuvm_proc (cur k) ;;; ret 0) (grow_post k p d n) k.
Proof.
  intros Hpos Hcan. pose proof (sd_size _ _ _ Hsz) as Hb. pose proof (pi_vm _ _ (proj1 SI)) as V.
  replace (u32 (sz p + n)) with (sz p + n) by (unfold KERNBASE in Hb; zlia).
  rewrite Ed. pstep. unfold onvm. apply wp_zoom. destruct (Z.leb_spec KERNBASE (sz p + n)) as [Hbig|Hfit].
  - unfold allocuvm. rewrite (proj2 (Z.leb_le _ _)) by done. apply wp_ret. cbn [Z.eqb]. apply wp_ret.
    apply (grow_refused A); auto using resized_refl.
  - eapply wp_mono; [apply (allocuvm_client (vm k) A d (sz p) (sz p + n)); auto; lia|].
    intros r s1 (A1 & V1 & P1 & RZ & HC). pose proof (proj1 (vm_frame_kpgdir _ _ (vm_only_frame _ _ P1))) as Ek.
    destruct HC as [[-> Hs1]|[-> Hs1]].
    + replace (sz p + n =? 0) with false by lia. apply (grow_ok A1); try done. unfold grown.
      destruct (Z.ltb_spec 0 n); [|lia]. by destruct (Z.leb_spec KERNBASE (sz p + n)); [lia|].
    + cbn [Z.eqb]. apply wp_ret. apply (grow_refused A1); auto.
Qed.

Lemma grow_down :
  n < 0 -> sz p + n <> 0 ->
  wp (let! size := onvm (deallocuvm (pgdir p) (sz p) (u32 (sz p + n))) in
      if size =? 0 then ret (-1)
      else setp (cur k) (set_sz size) ;;; switchuvm_proc (cur k) ;;; ret 0) (grow_post k p d n) k.
Proof.
  intros Hneg Hnz. pose proof (sd_size _ _ _ Hsz) as Hb. unfold KERNBASE in Hb.
  pose proof (pi_vm _ _ (proj1 SI)) as V.
  assert (Eg : grown (sz p) n = Some (if sz p + n <? 0 then sz p else sz p + n)).
  { unfold grown. destruct (Z.ltb_spec 0 n); [lia|]. by destruct (sz p + n <? 0). }
  rewrite Ed. pstep. unfold onvm. apply wp_zoom. destruct (Z.ltb_spec (sz p + n) 0) as [Hlow|Hok].
  - replace (u32 (sz p + n)) with (sz p + n + 4294967296) by zlia. unfold deallocuvm.
    rewrite (proj2 (Z.leb_le _ _)) by lia. apply wp_ret. destruct (Z.eqb_spec (sz p) 0) as [E0|E0].
    + apply wp_ret, (grow_refused A); auto using resized_refl.
    + apply (grow_ok A); auto using resized_refl.
  - replace (u32 (sz p + n)) with (sz p + n) by zlia.
    eapply wp_mono; [apply (deallocuvm_client (vm k) A d (sz p) (sz p + n)); auto; lia|].
    intros r s1 (A1 & V1 & P1 & RZ & -> & Hs1). replace (sz p + n =? 0) with false by lia.
    apply (grow_ok A1); auto. by apply vm_frame_kpgdir, vm_only_frame.
Qed.
End Cases.

Lemma growproc_spec (k : kst F) (A : avm) (p : proc) (d n : Z) :
  sysinv k A -> procs k !! cur k = Some p -> has_vm p -> pgdir p = P2V d -> own A !! d = Some ODir ->
  sized A d (sz p) -> -2147483648 <= n < 2147483648 -> (n < 0 -> sz p + n <> 0) ->
  (0 < n -> sz p + n < KERNBASE -> can_map d ((sz p + 4095) / 4096) ((sz p + n + 4095) / 4096) A) ->
  wp (growproc n) (grow_post k p d n) k.
Proof.
  intros SI Hp Hv Ed Hd Hsz Hn Hnz Hcan. unfold growproc, myproc. repeat pstep.
  destruct (Z.ltb_spec 0 n) as [Hpos|Hnpos]; [eapply grow_up; eauto|].
  destruct (Z.ltb_spec n 0) as [Hneg|Hz]; [eapply grow_down; eauto|].
  assert (n = 0) as -> by lia. pose proof (grow_ok k A p d 0 SI Hp Hv Ed Hd A (vm k) (sz p)) as H.
  destruct k. apply H; auto using resized_refl; [apply SI|]. unfold grown. cbn [Z.ltb Z.compare].
  rewrite Z.add_0_r. pose proof (sd_size _ _ _ Hsz). by destruct (Z.ltb_spec (sz p) 0); [lia|].
Qed.

(** Shrinking to nothing: the memory goes, the recorded size stays. *)
Lemma growproc_zero (k : kst F) (A : avm) (p : proc) (d n : Z) :
  sysinv k A -> procs k !! cur k = Some p -> has_vm p -> pgdir p = P2V d -> own A !! d = Some ODir ->
  sized A d (sz p) -> -2147483648 <= n < 0 -> sz p + n = 0 ->
  wp (growproc n) (fun r k' => r = -1 /\ exists A' s', vminv s' A' /\ k' = set_vm s' k /\ sized A' d 0 /\
    own A' !! d = Some ODir) k.
Proof.
  intros [PI FI] Hp Hv Ed Hd Hsz Hn Hz. unfold growproc, myproc. repeat pstep.
  destruct (Z.ltb_spec 0 n); [lia|]. destruct (Z.ltb_spec n 0); [|lia].
  rewrite Hz, Ed. change (u32 0) with 0. pstep. unfold onvm. apply wp_zoom.
  eapply wp_mono; [apply (deallocuvm_client (vm k) A d (sz p) 0); auto; [apply PI|lia]|].
  intros r s1 (A1 & V1 & P1 & RZ & -> & Hs1). cbn [Z.eqb]. apply wp_ret. split; [done|]. exists A1, s1.
  split_and!; [done|done|done|]. apply (rz_own _ _ _ RZ); auto.
Qed.
End Grow.
