(* ===== verification/ProcSys.v ===== *)
(** * ProcSys: the process system as a whole

    The operations of the running process and the scheduler's rounds as steps
    of one machine, and the invariant that every reachable state satisfies. *)
From stdpp Require Import base gmap list numbers strings.
From Stdlib Require Import ZArith Lia ZifyBool.
From S2P Require Import Prelude Machine Cstring Kalloc Vm Frames Tables Cow Fork Fault Sample Alloc Spaces Ptable Sched Proc Pages ProcInv ProcOps ProcLife ProcExit.

(** ** The scheduler's choice is runnable *)

Lemma lottery_pick_eligible (ps pre : list proc) (r sel : Z) (h : option nat) (j : nat) :
  (forall x, h = Some x -> exists p, pre !! x = Some p /\ eligible LOTTERY p = true) ->
  lottery_pick (length pre) r sel h ps = Some j ->
  exists p, (pre ++ ps) !! j = Some p /\ eligible LOTTERY p = true.
Proof.
  revert pre r sel h. induction ps as [|p ps IH]; intros pre r sel h Hh; cbn.
  - case_match; [|done]. intros ->. rewrite app_nil_r. auto.
  - assert (Hm : forall x, h = Some x -> exists q, (pre ++ [p]) !! x = Some q /\ eligible LOTTERY q = true).
    { intros x Hx. destruct (Hh x Hx) as (q & Hq & He). exists q. split; [by apply lookup_app_l_Some|done]. }
    replace (pre ++ p :: ps) with ((pre ++ [p]) ++ ps) by (by rewrite <- app_assoc).
    replace (S (length pre)) with (length (pre ++ [p])) by (rewrite length_app; cbn; lia).
    destruct (eligible LOTTERY p) eqn:Ep; cbn [negb]; [|by apply IH].
    assert (Hn : forall x, Some (length pre) = Some x -> exists q, (pre ++ [p]) !! x = Some q /\ eligible LOTTERY q = true).
    { intros x [= <-]. exists p. by rewrite list_lookup_middle. }
    destruct (sel =? 0); destruct (_ && _); intros HJ; (eapply (IH (pre ++ [p])); [|exact HJ]); assumption.
Qed.

Lemma sched_choice_runnable (t : Z) (ps : list proc) (i : nat) :
  sched_choice t ps = Some (Some i) -> exists p, ps !! i = Some p /\ state p = RUNNABLE.
Proof.
  assert (HE : forall q p, eligible q p = true -> state p = RUNNABLE).
  { unfold eligible. intros q p [H _]%andb_prop. by apply bool_decide_eq_true in H. }
  assert (HL : forall q key j, least_pick q key 0 None ps = Some j -> exists p, ps !! j = Some p /\ state p = RUNNABLE).
  { intros q key j Hj. pose proof (least_pick_spec q key ps [] None) as H. cbn [length app] in H. rewrite Hj in H.
    destruct H as (p & Hp & He & _); [intros k q' Hk; by rewrite lookup_nil in Hk|]. eauto. }
  unfold sched_choice, lotterySched. destruct (generate_random t (sum_lotteries 1 ps)) as [r|]; [|done].
  destruct (lottery_pick 0 r 0 None ps) as [j|] eqn:E.
  - intros [= <-]. destruct (lottery_pick_eligible ps [] r 0 None j) as (p & Hp & He); [done|done|]. eauto.
  - destruct (SJFSched ps) as [j|] eqn:E'.
    + intros [= <-]. by eapply HL.
    + intros [= H]. by eapply HL.
Qed.

Section Sys.
Context `{KI : KernelImage} `{KIO : !KernelImageOk} `{PT : ProcTable} `{PTO : !ProcTableOk} {F : Type}
  `{FO : FileOps F} `{FR : !FileRefs F} `{FL : !FileLaws F}.
Implicit Types (k : kst F) (A : avm).

(** What the CPU is doing: running a process, leaving one ([ptable.lock]
    held), entering one (held as well), or looking for one in vain. *)
Inductive phase := Run | Leave | Enter | Idle.

Definition running (k : kst F) : Prop := exists p, procs k !! cur k = Some p /\ state p = RUNNING.

(** [growproc] as the machine takes it: the new size is not 0 and memory for
    the pages is not exhausted half-way. *)
Definition can_grow (k : kst F) (n : Z) : Prop :=
  -2147483648 <= n < 2147483648 /\
  forall A p d, sysinv k A -> procs k !! cur k = Some p -> pgdir p = P2V d -> (n < 0 -> sz p + n <> 0) /\
    (0 < n -> sz p + n < KERNBASE -> can_map d ((sz p + 4095) / 4096) ((sz p + n + 4095) / 4096) A).

Inductive kstep : kst F * phase -> kst F * phase -> Prop :=
  | st_fork k r k' : nextpid k < 2147483647 -> fork k = Ok r k' -> kstep (k, Run) (k', Run)
  | st_exit k k' : exit k = Ok tt k' -> kstep (k, Run) (k', Leave)
  | st_wait k r k' : wait k = Ok (Some r) k' -> kstep (k, Run) (k', Run)
  | st_wait_sleep k k' : wait k = Ok None k' -> kstep (k, Run) (k', Leave)
  | st_yield k k' : yield k = Ok tt k' -> kstep (k, Run) (k', Leave)
  | st_sleep k ch k' : sleep ch (ret tt) k = Ok tt k' -> kstep (k, Run) (k', Leave)
  | st_wakeup k ch k' : wakeup ch k = Ok tt k' -> kstep (k, Run) (k', Run)
  | st_kill k n r k' : kill n k = Ok r k' -> kstep (k, Run) (k', Run)
  | st_grow k n r k' : can_grow k n -> growproc n k = Ok r k' -> kstep (k, Run) (k', Run)
  | st_tick k ph : kstep (k, ph) (set_ticks (u32 (ticks k + 1)) k, ph)
  | st_back k k' : scheduler_back k = Ok tt k' -> kstep (k, Leave) (k', Idle)
  | st_choose k i k' : scheduler_round k = Ok (Some i) k' -> kstep (k, Idle) (k', Enter)
  | st_nobody k k' : scheduler_round k = Ok None k' -> kstep (k, Idle) (k', Idle)
  | st_enter k k' : release_ptable k = Ok tt k' -> kstep (k, Enter) (k', Run)
  | st_awake k k' : sleep_resume (ret tt) k = Ok tt k' -> kstep (k, Enter) (k', Run)
  | st_rewait k r k' : wait_resume k = Ok (Some r) k' -> kstep (k, Enter) (k', Run)
  | st_rewait_sleep k k' : wait_resume k = Ok None k' -> kstep (k, Enter) (k', Leave).

Definition cinv (c : kst F * phase) : Prop :=
  (exists A, sysinv (fst c) A) /\
  match snd c with
  | Run => plock (fst c) = false /\ running (fst c)
  | Leave => plock (fst c) = true
  | Enter => plock (fst c) = true /\ running (fst c)
  | Idle => plock (fst c) = false
  end.

Lemma wp_run {S B} (c : M S B) (Q : B -> S -> Prop) (s s' : S) (b : B) : wp c Q s -> c s = Ok b s' -> Q b s'.
Proof. unfold wp. intros H E. by rewrite E in H. Qed.

(** A slot that changes calmly. *)
Lemma sys_setp (k : kst F) (A : avm) (i : nat) (p : proc) (f : proc -> proc) :
  sysinv k A -> procs k !! i = Some p -> calm p (f p) -> sysinv (set_procs (<[i := f p]> (procs k)) k) A.
Proof.
  intros SI Hp HC. eapply sys_calm; [exact SI|done|done|done|]. cbn.
  rewrite <- (alter_item f _ p _ Hp). by eapply calm_alter.
Qed.

Lemma sys_plock (k : kst F) (A : avm) (b : bool) : sysinv k A -> sysinv (set_plock b k) A.
Proof. intros SI. eapply sys_calm; [exact SI|done|done|done|apply Forall2_calm_refl]. Qed.

Lemma sys_vm (k : kst F) (A : avm) (s : vmst) :
  sysinv k A -> vminv s A -> kpgdir s = kpgdir (vm k) -> sysinv (set_vm s k) A.
Proof.
  intros [[V KP L N S Ap D] FI] V' Ek. split.
  - split; cbn; rewrite ?Ek; try done. destruct KP as (x & Ex & Hx). exists x. split; [congruence|done].
  - by destruct FI.
Qed.

(** The running process has a directory. *)
Lemma running_dir (k : kst F) (A : avm) (p : proc) :
  sysinv k A -> procs k !! cur k = Some p -> state p = RUNNING ->
  has_vm p /\ exists d, pgdir p = P2V d /\ own A !! d = Some ODir /\ sized A d (sz p).
Proof.
  intros [PI _] Hp Hs. assert (Hv : has_vm p) by (split; congruence). split; [done|].
  destruct (so_dir _ _ _ _ (pi_slot _ _ PI _ _ Hp) Hv) as (d & Ed & Hd & Hsz & _). eauto.
Qed.

Lemma fork_cinv (k k' : kst F) (r : Z) :
  nextpid k < 2147483647 -> cinv (k, Run) -> fork k = Ok r k' -> cinv (k', Run).
Proof.
  intros Hn ((A & SI) & HL & p & Hp & Hs) E. cbn in *. pose proof SI as [PI FI].
  destruct (running_dir k A p SI Hp Hs) as (Hv & d & Ed & Hd & _).
  pose proof (finv_holds k _ p FI Hp Hv ltac:(congruence)) as HH.
  destruct (wp_run _ _ _ _ _ (fork_spec k A p d PI HL Hn Hp Hs Ed Hd HH) E) as (A' & PI' & [(_ & Q)|(_ & FK)]).
  - pose proof Q as [Q1 _ (Q2 & _ & Q3 & _) _ _]. split; cbn.
    + exists A'. split; [done|]. eapply finv_quiet; eauto. rewrite (pi_len _ _ PI), (pi_len _ _ PI'). done.
    + split; [congruence|]. exists p. rewrite Q2. split; [apply Q1; [done|congruence]|done].
  - split; cbn; [exists A'; split; [done|]; apply (finv_forks k k' A p d); auto; rewrite Hs; discriminate|].
    destruct FK as (i & q & f & d' & s' & fs & Hq & _ & Hi & -> & _). split; [done|]. exists p.
    cbn. by rewrite list_lookup_insert_ne.
Qed.

Lemma exit_cinv (k k' : kst F) : cinv (k, Run) -> exit k = Ok tt k' -> cinv (k', Leave).
Proof.
  intros ((A & SI) & HL & p & Hp & Hs) E. cbn in *.
  assert (Hi : initproc k <> proc_ptr (cur k)).
  { intros Hi. unfold exit, myproc, gets, bind in E. by rewrite Hi, Z.eqb_refl in E. }
  destruct (wp_run _ _ _ _ _ (exit_spec k A p SI HL Hp Hs Hi) E) as [SI' HX]. split; [eauto|]. apply HX.
Qed.

Lemma waited_cinv (k k' : kst F) (A A' : avm) (p : proc) (r : option Z) :
  sysinv k' A' -> plock k = true -> procs k !! cur k = Some p -> state p = RUNNING -> waited k k' A A' p r ->
  cinv (k', match r with Some _ => Run | None => Leave end).
Proof.
  intros SI' HL Hp Hs HW. split; [eauto|]. destruct HW as [i q f d s' Hq _ Hz _ _ -> _|_ -> _|_ _ _ -> _]; cbn.
  - split; [done|]. exists p. cbn. rewrite list_lookup_insert_ne; [done|]. intros ->. congruence.
  - split; [done|]. by exists p.
  - done.
Qed.

Lemma wait_cinv (k k' : kst F) (r : option Z) :
  cinv (k, Run) -> wait k = Ok r k' -> cinv (k', match r with Some _ => Run | None => Leave end).
Proof.
  intros ((A & SI) & HL & p & Hp & Hs) E. cbn in *. unfold wait, acquire_ptable, bind in E. rewrite HL in E.
  pose proof (wait_pass_spec (set_plock true k) A p (sys_plock _ _ _ SI) eq_refl Hp Hs) as HW.
  destruct (wp_run _ _ _ _ _ HW E) as (A' & SI' & W). by eapply (waited_cinv (set_plock true k)).
Qed.

Lemma calm_chan (p : proc) : calm p (set_chan 0 p).
Proof. by split_and!. Qed.

Lemma wait_resume_cinv (k k' : kst F) (r : option Z) :
  cinv (k, Enter) -> wait_resume k = Ok r k' -> cinv (k', match r with Some _ => Run | None => Leave end).
Proof.
  intros ((A & SI) & HL & p & Hp & Hs) E. cbn in *. pose proof (lookup_lt_Some _ _ _ Hp) as Hc.
  change (wait_resume k) with (wait_pass (set_procs (alter (set_chan 0) (cur k) (procs k)) k)) in E.
  rewrite (alter_item _ _ p _ Hp) in E.
  pose proof (sys_setp k A (cur k) p (set_chan 0) SI Hp (calm_chan p)) as SI1.
  assert (Hp1 : <[cur k := set_chan 0 p]> (procs k) !! cur k = Some (set_chan 0 p)) by (by apply list_lookup_insert_eq).
  pose proof (wait_pass_spec (set_procs (<[cur k := set_chan 0 p]> (procs k)) k) A _ SI1 HL Hp1 Hs) as HW.
  destruct (wp_run _ _ _ _ _ HW E) as (A' & SI' & W).
  by eapply (waited_cinv (set_procs (<[cur k := set_chan 0 p]> (procs k)) k)).
Qed.

(** Leaving the CPU with another state. *)
Lemma leave_cinv (k : kst F) (A : avm) (p : proc) (f : proc -> proc) :
  sysinv k A -> procs k !! cur k = Some p -> calm p (f p) ->
  cinv (set_procs (alter f (cur k) (procs k)) (set_plock true k), Leave).
Proof.
  intros SI Hp HC. split; [|done]. exists A. cbn. rewrite (alter_item f _ p _ Hp).
  apply (sys_setp (set_plock true k) A (cur k) p f); [by apply sys_plock|done|done].
Qed.

Lemma yield_cinv (k k' : kst F) : cinv (k, Run) -> yield k = Ok tt k' -> cinv (k', Leave).
Proof.
  intros ((A & SI) & HL & p & Hp & Hs) E. cbn in *. unfold yield, acquire_ptable, bind in E. rewrite HL in E.
  injection E as <-. eapply (leave_cinv k A p); [done|done|].
  unfold calm, same_res, has_vm. cbn. by rewrite Hs.
Qed.

Lemma sleep_cinv (k k' : kst F) (ch : Z) : cinv (k, Run) -> sleep ch (ret tt) k = Ok tt k' -> cinv (k', Leave).
Proof.
  intros ((A & SI) & HL & p & Hp & Hs) E. cbn in *. unfold sleep, acquire_ptable, bind in E. rewrite HL in E.
  injection E as <-. eapply (leave_cinv k A p (fun q => set_state SLEEPING (set_chan ch q))); [done|done|].
  unfold calm, same_res, has_vm. cbn. by rewrite Hs.
Qed.

Lemma grow_cinv (k k' : kst F) (n r : Z) :
  can_grow k n -> cinv (k, Run) -> growproc n k = Ok r k' -> cinv (k', Run).
Proof.
  intros [Hn HC] ((A & SI) & HL & p & Hp & Hs) E. cbn in *.
  destruct (running_dir k A p SI Hp Hs) as (Hv & d & Ed & Hd & Hsz). destruct (HC A p d SI Hp Ed) as [H1 H2].
  pose proof (lookup_lt_Some _ _ _ Hp) as Hc.
  destruct (wp_run _ _ _ _ _ (growproc_spec k A p d n SI Hp Hv Ed Hd Hsz Hn H1 H2) E) as (A' & SI' & HR).
  assert (exists new, resizes k k' p new) as (new & HP & Hcur & Hlk & _).
  { destruct HR as [(_ & new & _ & HR & _)|(_ & _ & HR)]; eauto. }
  split; [eauto|]. cbn. split; [congruence|]. exists (set_sz new p).
  rewrite HP, Hcur. split; [by apply list_lookup_insert_eq|done].
Qed.

(** A calm change of the table that leaves running processes running. *)
Lemma run_cinv (k k' : kst F) (A : avm) :
  sysinv k' A -> plock k' = false -> cur k' = cur k -> running k ->
  (forall p, procs k !! cur k = Some p -> state p = RUNNING ->
     exists p', procs k' !! cur k = Some p' /\ state p' = RUNNING) -> cinv (k', Run).
Proof.
  intros SI HL Hc (p & Hp & Hs) H. split; [eauto|]. split; [done|]. unfold running. cbn. rewrite Hc. eauto.
Qed.

Lemma wakeup_cinv (k k' : kst F) (ch : Z) : cinv (k, Run) -> wakeup ch k = Ok tt k' -> cinv (k', Run).
Proof.
  intros ((A & SI) & HL & HR) E. destruct (wp_run _ _ _ _ _ (wakeup_spec k A ch SI HL) E) as [SI' ->].
  eapply (run_cinv k _ A); eauto. intros p Hp Hs. cbn. unfold wakeup1. rewrite list_lookup_fmap, Hp. cbn.
  eexists. split; [done|]. unfold wakeup1_one. by rewrite Hs.
Qed.

Lemma update_pid_running (f : proc -> proc) (n : Z) (ps : list proc) (i : nat) (p : proc) :
  (forall q, state q = RUNNING -> state (f q) = RUNNING) -> ps !! i = Some p -> state p = RUNNING ->
  exists p', update_pid f n ps !! i = Some p' /\ state p' = RUNNING.
Proof.
  intros Hf. revert i. induction ps as [|q ps IH]; intros [|i] Hp Hs; try done; cbn in *.
  - injection Hp as ->. case_match; cbn; eauto.
  - case_match; cbn; eauto.
Qed.

Lemma kill_cinv (k k' : kst F) (n r : Z) : cinv (k, Run) -> kill n k = Ok r k' -> cinv (k', Run).
Proof.
  intros ((A & SI) & HL & HR) E. destruct (wp_run _ _ _ _ _ (kill_spec k A n SI HL) E) as (SI' & -> & _).
  eapply (run_cinv k _ A); eauto. intros p Hp Hs. cbn. apply update_pid_running with p; [|done|done].
  intros q Hq. unfold kill_one. cbn. by rewrite Hq.
Qed.

Lemma tick_cinv (k : kst F) (t : Z) (ph : phase) : cinv (k, ph) -> cinv (set_ticks t k, ph).
Proof.
  intros [(A & SI) H]. split; [|done]. exists A.
  eapply sys_calm; [exact SI|done|done|done|apply Forall2_calm_refl].
Qed.

Lemma back_cinv (k k' : kst F) : cinv (k, Leave) -> scheduler_back k = Ok tt k' -> cinv (k', Idle).
Proof.
  intros [(A & SI) HL] E. cbn in *. unfold scheduler_back, release_ptable, onvm, zoom, bind in E. cbn in E.
  rewrite HL in E. injection E as <-. split; [|done]. exists A. apply sys_plock, sys_vm; [done| |done].
  apply vminv_cr3, SI.
Qed.

Lemma round_cinv (k k' : kst F) (r : option nat) :
  cinv (k, Idle) -> scheduler_round k = Ok r k' -> cinv (k', match r with Some _ => Enter | None => Idle end).
Proof.
  intros [(A & SI) HL] E. cbn in *. unfold scheduler_round, bind, gets in E. unfold acquire_ptable in E.
  rewrite HL in E. cbn in E. destruct (sched_choice (ticks k) (procs k)) as [[i|]|] eqn:EC; [| |done]; cycle 1.
  { injection E as <- <-. split; [|done]. exists A. by apply sys_plock, sys_plock. }
  destruct (sched_choice_runnable _ _ _ EC) as (p & Hp & Hs). pose proof (lookup_lt_Some _ _ _ Hp) as Hi.
  pose proof SI as [PI _]. assert (Hv : has_vm p) by (split; congruence).
  destruct (so_kstack _ _ _ _ (pi_slot _ _ PI _ _ Hp) (proj1 Hv)) as (f & Ef & Hf).
  destruct (so_dir _ _ _ _ (pi_slot _ _ PI _ _ Hp) Hv) as (d & Ed & Hd & _).
  assert (HW : wp (switchuvm_proc i ;;; setp i (set_state RUNNING) ;;; ret (Some i))
            (fun r k2 => r = Some i /\ cinv (k2, Enter)) (set_cur i (set_plock true k))).
  { unfold switchuvm_proc. repeat pstep. unfold onvm. apply wp_zoom. rewrite Ef, Ed.
    eapply wp_mono; [apply (switchuvm_spec (vm k) A); [apply SI|..]; (eapply P2V_nonzero; [apply SI|eassumption])|].
    intros _ s1 (V1 & _ & Ek & _). repeat pstep. split; [done|]. split; cbn.
    - exists A. apply (sys_setp (set_vm s1 (set_cur i (set_plock true k))) A i p (set_state RUNNING)); [|done|].
      + apply sys_vm; [|done|done]. eapply sys_calm; [exact SI|done|done|done|apply Forall2_calm_refl].
      + unfold calm, same_res, has_vm. cbn. by rewrite Hs.
    - split; [done|]. eexists. cbn. split; [by apply list_lookup_insert_eq|done]. }
  destruct (wp_run _ _ _ _ _ HW E) as [-> H]. done.
Qed.

Lemma enter_cinv (k k' : kst F) : cinv (k, Enter) -> release_ptable k = Ok tt k' -> cinv (k', Run).
Proof.
  intros ((A & SI) & HL & HR) E. cbn in *. unfold release_ptable in E. rewrite HL in E. injection E as <-.
  split; [exists A; by apply sys_plock|]. done.
Qed.

Lemma awake_cinv (k k' : kst F) : cinv (k, Enter) -> sleep_resume (ret tt) k = Ok tt k' -> cinv (k', Run).
Proof.
  intros ((A & SI) & HL & p & Hp & Hs) E. cbn in *. pose proof (lookup_lt_Some _ _ _ Hp) as Hc.
  unfold sleep_resume, release_ptable, bind in E. cbn in E. rewrite HL in E. injection E as <-.
  split; [|split; [done|]].
  - exists A. apply sys_plock. rewrite (alter_item _ _ p _ Hp). apply sys_setp; [done|done|apply calm_chan].
  - exists (set_chan 0 p). cbn. by rewrite list_lookup_alter_eq, Hp.
Qed.

Lemma kstep_cinv (c c' : kst F * phase) : kstep c c' -> cinv c -> cinv c'.
Proof.
  intros H HC. destruct H.
  - by eapply fork_cinv.
  - by eapply exit_cinv.
  - by apply (wait_cinv k k' (Some r)).
  - by apply (wait_cinv k k' None).
  - by eapply yield_cinv.
  - by eapply sleep_cinv.
  - by eapply wakeup_cinv.
  - by eapply kill_cinv.
  - by eapply grow_cinv.
  - by apply tick_cinv.
  - by eapply back_cinv.
  - by apply (round_cinv k k' (Some i)).
  - by apply (round_cinv k k' None).
  - by eapply enter_cinv.
  - by eapply awake_cinv.
  - by apply (wait_resume_cinv k k' (Some r)).
  - by apply (wait_resume_cinv k k' None).
Qed.

Lemma reachable_cinv (c c' : kst F * phase) : rtc kstep c c' -> cinv c -> cinv c'.
Proof. induction 1; auto. intros. apply IHrtc. by eapply kstep_cinv. Qed.
End Sys.


(** * A process table over the sample memory

    [init] in slot 0, a child of it in slot 1, the pid of an unsuccessful [fork]
    left in slot 2, and a file system that only
    counts references. *)

#[export] Instance sample_table : ProcTable := {| ptable_proc := 0x80112d54; forkret := 0x80103a90 |}.
#[export] Instance sample_table_ok : ProcTableOk.
Proof. by split; vm_compute. Qed.

Record counts := mkcounts { c_files : Z -> nat; c_inodes : Z -> nat; c_ops : nat }.

#[export] Instance count_ops : FileOps counts := {|
  filedup f := modify (fun s => mkcounts (add1 f (c_files s)) (c_inodes s) (c_ops s)) ;;; ret f;
  fileclose f := modify (fun s => mkcounts (sub1 f (c_files s)) (c_inodes s) (c_ops s));
  idup i := modify (fun s => mkcounts (c_files s) (add1 i (c_inodes s)) (c_ops s)) ;;; ret i;
  iput i := modify (fun s => mkcounts (c_files s) (sub1 i (c_inodes s)) (c_ops s));
  begin_op := modify (fun s => mkcounts (c_files s) (c_inodes s) (S (c_ops s)));
  end_op := modify (fun s => mkcounts (c_files s) (c_inodes s) (pred (c_ops s)));
  namei _ := modify (fun s => mkcounts (c_files s) (add1 1 (c_inodes s)) (c_ops s)) ;;; ret 1;
|}.

#[export] Instance count_refs : FileRefs counts := {| frefs := c_files; irefs := c_inodes; fsops := c_ops |}.

#[export] Instance count_laws : FileLaws counts.
Proof.
  split; cbn [frefs irefs fsops count_refs]; intros; unfold wp, refs_are; cbn; split_and!; auto; lia.
Qed.

Module ProcSample.
Definition dfds : list Z := 100 :: replicate 15 0.

Definition init_proc (st : procstate) : proc :=
  mkproc 4096 (P2V Sample.parent) (P2V Sample.stack1) st 1 0 tf_zero context_zero (proc_ptr 0) 0
    dfds 200 "init" 50 LOTTERY 1000 0 0 0.

(** The child, alive or not. *)
Definition child_proc (st : procstate) : proc :=
  let z := bool_decide (st = ZOMBIE) in
  mkproc 4096 (P2V Sample.child) (P2V Sample.stack2) st 2 (proc_ptr 0) tf_zero context_zero 0 0
    (if z then replicate 16 0 else dfds) (if z then 0 else 200) "sh" 50 LOTTERY 1000 0 0 1.

Definition table (s0 s1 : procstate) : list proc :=
  init_proc s0 :: child_proc s1 :: set_pid 3 proc_zero :: replicate 61 proc_zero.

Definition sys (s0 s1 : procstate) (c : nat) : kst counts :=
  mkk Sample.state (table s0 s1) false 4 2 2 (proc_ptr 0) 10 false c
    (mkcounts (fun f => tally ofile f (table s0 s1)) (fun i => tally cwds i (table s0 s1)) 0).

Lemma table_lookup (s0 s1 : procstate) (i : nat) (p : proc) :
  table s0 s1 !! i = Some p ->
  (i = 0%nat /\ p = init_proc s0) \/ (i = 1%nat /\ p = child_proc s1) \/ ((2 <= i)%nat /\ exists n, p = set_pid n proc_zero).
Proof.
  unfold table. destruct i as [|[|[|i]]]; [intros [= <-]; auto|intros [= <-]; auto|intros [= <-]; eauto 10|].
  intros H. change (replicate 61 proc_zero !! i = Some p) in H. apply lookup_replicate in H as [-> _].
  right; right. split; [lia|]. by exists 0.
Qed.

Lemma sized_one (d : Z) : d = Sample.parent \/ d = Sample.child -> sized Sample.abs d 4096.
Proof.
  intros Hd. split; [unfold KERNBASE; lia|..].
  - intros v Hv. assert (v = 0) as -> by (revert Hv; zlia). exists Sample.pte. by destruct Hd as [-> | ->].
  - intros v Hv. destruct (maps Sample.abs !! (d, v)) as [e|] eqn:E; [|done].
    apply Sample.abs_maps in E as (-> & _). zlia.
Qed.

Lemma sample_sys (s0 s1 : procstate) (c : nat) :
  (s0 = RUNNING \/ s0 = SLEEPING) -> (s1 = RUNNING \/ s1 = ZOMBIE) -> sysinv (sys s0 s1 c) Sample.abs.
Proof.
  intros H0 H1. assert (V0 : has_vm (init_proc s0)) by (destruct H0 as [-> | ->]; by split).
  assert (V1 : has_vm (child_proc s1)) by (destruct H1 as [-> | ->]; by split).
  assert (VZ : forall n, ~ has_vm (set_pid n proc_zero)) by (by intros n []). split.
  - split; cbn [vm procs nextpid sys].
    + exact Sample.inv.
    + by exists Sample.kdir.
    + done.
    + lia.
    + intros i p Hp. apply table_lookup in Hp as [[_ ->]|[[_ ->]|(_ & n & ->)]].
      * split; [by exists Sample.stack1|cbn; lia| |done|by destruct H0 as [-> | ->]; intros [|[]]|done].
        exists Sample.parent. split_and!; try done. apply sized_one. auto.
      * split; [by exists Sample.stack2|cbn; lia| |by destruct H1 as [-> | ->]|by destruct H1 as [-> | ->]; intros [|[]]|done].
        exists Sample.child. split_and!; try done. apply sized_one. auto.
      * split; try done. intros Hv. by destruct (VZ n).
    + intros i j p q Hp Hq Hne. apply table_lookup in Hp as [[-> ->]|[[-> ->]|(_ & n & ->)]];
        apply table_lookup in Hq as [[-> ->]|[[-> ->]|(_ & m & ->)]]; try done; split; try done; intros;
        first [by split|by destruct (VZ n)|by destruct (VZ m)].
    + intros d Hd. cbn [own Sample.abs relabel Sample.A3 set_entry Sample.A2 link_tab Sample.A1 make_dir Sample.A0] in Hd.
      Sample.lookups Hd; try done; first [by left|right; by exists 1%nat, (child_proc s1)|right; by exists 0%nat, (init_proc s0)].
  - split; cbn [files procs sys]; try done.
    + intros i p Hp Hv Hz. apply table_lookup in Hp as [[_ ->]|[[_ ->]|(_ & n & ->)]]; [done| |by destruct (VZ n)].
      by destruct H1 as [-> | ->].
    + intros i p Hp Hv. apply table_lookup in Hp as [[_ ->]|[[_ ->]|(_ & n & ->)]]; [| |done].
      * by destruct H0 as [-> | ->]; destruct Hv as [[]|].
      * by destruct H1 as [-> | ->]; destruct Hv as [[]|].
Qed.
End ProcSample.
