(* ===== verification/ProcThms.v ===== *)
(** * ProcThms: what processes may rely on

    The correctness of [fork], [exit], [wait] and [growproc], the invariant of
    the whole system, and two defects. *)
From stdpp Require Import base gmap list numbers strings.
From Stdlib Require Import ZArith Lia ZifyBool.
From S2P Require Import Prelude Machine Cstring Kalloc Vm Frames Tables Cow Fork Fault Sample Spaces Alloc Ptable Sched Proc Pages ProcInv ProcOps ProcLife ProcExit ProcSys.

Section Thms.
Context `{KI : KernelImage} `{KIO : !KernelImageOk} `{PT : ProcTable} `{PTO : !ProcTableOk} {F : Type}
  `{FO : FileOps F} `{FR : !FileRefs F} `{FL : !FileLaws F}.

(** A process in the kernel, not holding [ptable.lock]. *)
Definition in_kernel (k : kst F) (A : avm) (p : proc) : Prop :=
  sysinv k A /\ plock k = false /\ procs k !! cur k = Some p /\ state p = RUNNING.

Definition fork_outcome (k : kst F) (A : avm) (p : proc) (r : Z) (k' : kst F) : Prop :=
  exists A' pd, sysinv k' A' /\ pgdir p = P2V pd /\
    ((r = -1 /\ quiet A A' k k') \/ (r = nextpid k /\ forks k k' A p pd)).

(** C9. [fork] either makes, in an unused slot, a runnable child with a fresh
    pid, a fresh kernel stack, the parent's registers (with [eax] 0),
    descriptors and directory, and a private copy of the parent's memory as
    both see it, or returns -1 and leaves every process, every page and every
    byte of user memory as they were; and the system invariant holds again. *)
Theorem fork_correct (k : kst F) (A : avm) (p : proc) :
  in_kernel k A p -> nextpid k < 2147483647 -> wp fork (fork_outcome k A p) k.
Proof.
  intros (SI & HL & Hp & Hs) Hn. destruct (running_dir k A p SI Hp Hs) as (Hv & d & Ed & Hd & _).
  pose proof SI as [PI FI]. pose proof (finv_holds k _ p FI Hp Hv ltac:(congruence)) as HH.
  eapply wp_mono; [by apply (fork_spec k A p d)|]. intros r k' (A' & PI' & H). exists A', d.
  split_and!; [split; [done|]|done|done]. destruct H as [(_ & Q)|(_ & FK)].
  - eapply finv_quiet; eauto. by rewrite (pi_len _ _ PI), (pi_len _ _ PI').
  - apply (finv_forks k k' A p d); auto. congruence.
Qed.


(** [wait] reaps a zombie child if there is one (its kernel stack, its page
    directory and its slot are free again, no other process's memory changes,
    its pid is returned), returns -1 if there are no children or the process
    was killed, and otherwise goes to sleep on its own address. *)
Theorem wait_correct (k : kst F) (A : avm) (p : proc) :
  in_kernel k A p ->
  wp wait (fun r k' => exists A', sysinv k' A' /\ waited (set_plock true k) k' A A' p r) k.
Proof.
  intros (SI & HL & Hp & Hs). unfold wait. apply wp_bind, wp_acquire; [done|].
  apply wait_pass_spec; [by apply sys_plock|done|done|done].
Qed.

(** [growproc n] gives the process the size asked for and an address space
    of exactly that many pages (a negative size is ignored), or returns -1 and
    leaves the size as it was; other processes keep theirs. *)
Theorem growproc_correct (k : kst F) (A : avm) (p : proc) (d n : Z) :
  in_kernel k A p -> pgdir p = P2V d -> own A !! d = Some ODir -> sized A d (sz p) ->
  -2147483648 <= n < 2147483648 -> (n < 0 -> sz p + n <> 0) ->
  (0 < n -> sz p + n < KERNBASE -> can_map d ((sz p + 4095) / 4096) ((sz p + n + 4095) / 4096) A) ->
  wp (growproc n) (grow_post k p d n) k.
Proof.
  intros (SI & HL & Hp & Hs) Ed Hd Hsz Hn H1 H2. apply (growproc_spec k A p d n); auto. split; congruence.
Qed.

(** The recorded size is positive and nothing is mapped. *)
Definition hollow (k : kst F) (d : Z) : Prop :=
  exists p, procs k !! cur k = Some p /\ pgdir p = P2V d /\ 0 < sz p /\
    forall va, 0 <= va < KERNBASE -> user_load (mem (vm k)) d va = None.

(** Shrinking to size 0 goes wrong: [growproc] takes the 0 that
    [deallocuvm] returns for a failure, so it returns -1 and keeps the recorded
    size although every page is gone. *)
Theorem growproc_hollow (k : kst F) (A : avm) (p : proc) (d n : Z) :
  in_kernel k A p -> pgdir p = P2V d -> own A !! d = Some ODir -> sized A d (sz p) ->
  -2147483648 <= n < 0 -> sz p + n = 0 ->
  wp (growproc n) (fun r k' => r = -1 /\ hollow k' d) k.
Proof.
  intros (SI & HL & Hp & Hs) Ed Hd Hsz Hn Hz. eapply wp_mono.
  { apply (growproc_zero k A p d n); auto. split; congruence. }
  intros r k' (-> & A' & s' & V' & -> & Hs' & Hd'). split; [done|]. exists p. split_and!; [done|done|lia|].
  intros va Hva. apply (load_unmapped s' A'); try done. apply Hs'. unfold vpn. unfold KERNBASE in Hva. unfold UVPN. zlia.
Qed.

(** The first unused slot, with the pid [n] of a process that never was. *)
Definition stale (k : kst F) (i : nat) (n : Z) : Prop :=
  exists q, procs k !! i = Some q /\ state q = UNUSED /\ pid q = n /\
    forall j p, (j < i)%nat -> procs k !! j = Some p -> state p <> UNUSED /\ pid p <> n.

Lemma find_unused_first (ps : list proc) (i n : nat) (q : proc) :
  ps !! i = Some q -> state q = UNUSED -> (forall j p, (j < i)%nat -> ps !! j = Some p -> state p <> UNUSED) ->
  find_unused n ps = Some (n + i)%nat.
Proof.
  revert i n. induction ps as [|p ps IH]; intros [|i] n Hq Hs Hj; try done; cbn in *.
  - injection Hq as ->. rewrite bool_decide_true by done. by rewrite Nat.add_0_r.
  - rewrite bool_decide_false by (apply (Hj 0%nat p); [lia|done]). rewrite (IH i (S n)); [f_equal; lia|done|done|].
    intros j p' Hj' Hp'. by apply (Hj (S j) p'); [lia|].
Qed.

Lemma update_pid_first (f : proc -> proc) (n : Z) (ps : list proc) (i : nat) (q : proc) :
  ps !! i = Some q -> pid q = n -> (forall j p, (j < i)%nat -> ps !! j = Some p -> pid p <> n) ->
  update_pid f n ps = <[i := f q]> ps.
Proof.
  revert i. induction ps as [|p ps IH]; intros [|i] Hq Hn Hj; try done; cbn in *.
  - injection Hq as ->. by rewrite Hn, Z.eqb_refl.
  - destruct (Z.eqb_spec n (pid p)) as [E|E]; [by destruct (Hj 0%nat p); [lia| |]|].
    change (<[S i := f q]> (p :: ps)) with (p :: <[i := f q]> ps). f_equal. apply IH; [done|done|].
    intros j p' Hj' Hp'. by apply (Hj (S j) p'); [lia|].
Qed.

(** [kill] does not look at the state of the slot: killing the pid of an
    unused slot (0, or the pid that an unsuccessful [fork] left there) reports
    success, and the next process created there is killed before it runs. *)
Theorem killed_before_birth (k : kst F) (A : avm) (p : proc) (i : nat) (n : Z) :
  in_kernel k A p -> nextpid k < 2147483647 -> stale k i n -> free A <> [] ->
  wp (let! r := kill n in let! c := allocproc in ret (r, c))
    (fun rc k' => rc = (0, Some i) /\
       exists q, procs k' !! i = Some q /\ killed q = 1 /\ pid q = nextpid k) k.
Proof.
  intros (SI & HL & Hp & Hs) Hn (q & Hq & Hu & Epid & Hj) HF. apply wp_bind.
  eapply wp_mono; [by apply (kill_spec k A n)|]. intros r k1 (SI1 & -> & ->). apply wp_bind.
  pose proof (lookup_lt_Some _ _ _ Hq) as Hi.
  assert (HK : update_pid kill_one n (procs k) = <[i := kill_one q]> (procs k)).
  { apply update_pid_first; [done|done|]. intros j p' Hj' Hp'. by apply (Hj j p'). }
  assert (HKu : state (kill_one q) = UNUSED) by (unfold kill_one; cbn; by rewrite Hu).
  assert (HKl : <[i := kill_one q]> (procs k) !! i = Some (kill_one q)) by (by apply list_lookup_insert_eq).
  eapply wp_mono; [apply (allocproc_spec _ A); [apply SI1|done|done]|].
  assert (HFU : find_unused 0 (<[i := kill_one q]> (procs k)) = Some i).
  { apply (find_unused_first _ i 0 (kill_one q)); [done|done|]. intros j p' Hj' Hp'.
    rewrite list_lookup_insert_ne in Hp' by lia. by apply (Hj j p'). }
  intros [c|] k2 (A' & _ & _ & HC); cbn [procs set_procs kill_loop fst] in HC; rewrite HK in HC.
  - destruct HC as (EF & q' & f & s' & Hq' & _ & _ & _ & _ & _ & _ & _ & ->). rewrite HFU in EF. injection EF as <-.
    rewrite HKl in Hq'. injection Hq' as <-. apply wp_ret. split.
    + cbn. replace (existsb _ _) with true; [done|]. symmetry. apply existsb_exists. exists q.
      split; [by eapply list_elem_of_In, list_elem_of_lookup_2|]. by rewrite Epid, Z.eqb_refl.
    + cbn. rewrite list_insert_insert_eq, list_lookup_insert_eq by lia. eexists. split; [done|]. cbn. split; [|done].
      unfold kill_one. by case_bool_decide.
  - destruct HC as [_ [H|H]]; [|done]. by destruct (H i (kill_one q) HKl).
Qed.

(** What holds in every state the system reaches. *)
Definition isolated (k : kst F) : Prop :=
  (forall i j p q, procs k !! i = Some p -> procs k !! j = Some q -> i <> j -> apart p q) /\
  (forall f, f <> 0 -> frefs (files k) f = tally ofile f (procs k)) /\
  (forall i, i <> 0 -> irefs (files k) i = tally cwds i (procs k)) /\
  exists A, vminv (vm k) A /\ forall d, own A !! d = Some ODir -> P2V d = kpgdir (vm k) \/
    exists i p, procs k !! i = Some p /\ has_vm p /\ pgdir p = P2V d.

End Thms.

(** ** At the sample system *)

Lemma sample_in_kernel :
  in_kernel (ProcSample.sys RUNNING ZOMBIE 0) Sample.abs (ProcSample.init_proc RUNNING).
Proof. split; [apply ProcSample.sample_sys; auto|done]. Qed.

Lemma sample_child_in_kernel :
  in_kernel (ProcSample.sys SLEEPING RUNNING 1) Sample.abs (ProcSample.child_proc RUNNING).
Proof. split; [apply ProcSample.sample_sys; auto|done]. Qed.

Lemma fork_correct_witness :
  wp fork (fork_outcome (ProcSample.sys RUNNING ZOMBIE 0) Sample.abs (ProcSample.init_proc RUNNING))
    (ProcSample.sys RUNNING ZOMBIE 0).
Proof.
  apply (fork_correct (ProcSample.sys RUNNING ZOMBIE 0) Sample.abs (ProcSample.init_proc RUNNING) sample_in_kernel).
  reflexivity.
Defined.


Lemma wait_correct_witness :
  let k := ProcSample.sys RUNNING ZOMBIE 0 in
  wp wait (fun r k' => exists A', sysinv k' A' /\
    waited (set_plock true k) k' Sample.abs A' (ProcSample.init_proc RUNNING) r) k.
Proof.
  apply (wait_correct (ProcSample.sys RUNNING ZOMBIE 0) Sample.abs (ProcSample.init_proc RUNNING) sample_in_kernel).
Defined.

Lemma growproc_correct_witness :
  let k := ProcSample.sys RUNNING ZOMBIE 0 in
  wp (growproc 4096) (grow_post k (ProcSample.init_proc RUNNING) Sample.parent 4096) k.
Proof.
  apply (growproc_correct (ProcSample.sys RUNNING ZOMBIE 0) Sample.abs (ProcSample.init_proc RUNNING)
           Sample.parent 4096 sample_in_kernel);
    [reflexivity|reflexivity|apply ProcSample.sized_one; auto|lia|intros H; lia|].
  intros _ _. apply sample_can_map.
Defined.

Lemma growproc_hollow_witness :
  let k := ProcSample.sys RUNNING ZOMBIE 0 in
  wp (growproc (-4096)) (fun r k' => r = -1 /\ hollow k' Sample.parent) k.
Proof.
  apply (growproc_hollow (ProcSample.sys RUNNING ZOMBIE 0) Sample.abs (ProcSample.init_proc RUNNING)
           Sample.parent (-4096) sample_in_kernel);
    [reflexivity|reflexivity|apply ProcSample.sized_one; auto|lia|reflexivity].
Defined.

Lemma sample_stale : stale (ProcSample.sys RUNNING ZOMBIE 0) 2 3.
Proof.
  eexists. split; [reflexivity|]. split_and!; [done|done|]. intros j p Hj Hp.
  apply ProcSample.table_lookup in Hp as [[_ ->]|[[_ ->]|[H _]]]; [done|done|lia].
Qed.

Lemma killed_before_birth_witness :
  let k := ProcSample.sys RUNNING ZOMBIE 0 in
  wp (let! r := kill 3 in let! c := allocproc in ret (r, c))
    (fun rc k' => rc = (0, Some 2%nat) /\
       exists q, procs k' !! 2%nat = Some q /\ killed q = 1 /\ pid q = nextpid k) k.
Proof.
  apply (killed_before_birth (ProcSample.sys RUNNING ZOMBIE 0) Sample.abs (ProcSample.init_proc RUNNING) 2 3
           sample_in_kernel); [reflexivity|apply sample_stale|discriminate].
Defined.

