(* ===== verification/Exec.v ===== *)
(** * Exec: replacing the program of a process ([exec.c], [elf.h])

    [exec] over the memory subsystem, the process table and the files. *)
From stdpp Require Import base gmap list numbers strings.
From Stdlib Require Import ZArith Lia ZifyBool.
From S2P Require Import Prelude Machine Cstring Kalloc Vm Ptable Proc.

(** ** Executable files *)

Definition ELF_MAGIC : Z := 0x464C457F.
Definition ELF_PROG_LOAD : Z := 1.

(** The fields of [struct elfhdr] and [struct proghdr] that [exec] uses, and
    the sizes of the structures. *)
Record elfhdr := mkelf { e_magic : Z; e_entry : Z; e_phoff : Z; e_phnum : Z }.
Record proghdr := mkph { ph_type : Z; ph_off : Z; ph_vaddr : Z; ph_filesz : Z; ph_memsz : Z }.
Definition ELFSIZE : Z := 52.
Definition PHSIZE : Z := 32.

Definition load16 (m : memory) (a : Z) : Z := m a + 256 * m (a + 1).
Definition dec_elf (m : memory) : elfhdr := mkelf (load32 m 0) (load32 m 24) (load32 m 28) (load16 m 44).
Definition dec_ph (m : memory) : proghdr :=
  mkph (load32 m 0) (load32 m 4) (load32 m 8) (load32 m 16) (load32 m 20).

(** What [exec] uses of the file system besides [FileOps].  [readi] is what the
    routine of that name returns in a state, the count and the bytes: it
    changes no more than the buffer cache. *)
Class ExecFiles (F : Type) := {
  ilock : Z -> M F unit;
  iunlockput : Z -> M F unit;
  readi : F -> Z -> Z -> Z -> Z * (Z -> Z);
}.

(** The bytes of a string with its NUL, and of an array of words. *)
Definition str_bytes (a : list Z) (i : Z) : Z := nth (Z.to_nat i) a 0.
Definition word_bytes (ws : list Z) (i : Z) : Z := nth (Z.to_nat (i / 4)) ws 0 / 256 ^ (i mod 4) mod 256.

(** The loop that finds the name after the last slash. *)
Fixpoint last_name (last s : string) : string :=
  match s with
  | EmptyString => last
  | String c s' => last_name (if Ascii.eqb c (Ascii.ascii_of_nat 47) then s' else last) s'
  end.

Section Exec.
Context `{KI : KernelImage} `{PT : ProcTable} {F : Type} `{FO : FileOps F} `{EF : ExecFiles F}.

(** One segment: [None] is [goto bad], otherwise the new size. *)
Definition load_segment (pgdir ip sz : Z) (ph : proghdr) : M (kst F) (option Z) :=
  if ph_memsz ph <? ph_filesz ph then ret None
  else if u32 (ph_vaddr ph + ph_memsz ph) <? ph_vaddr ph then ret None
  else
    let! sz := onvm (allocuvm pgdir sz (u32 (ph_vaddr ph + ph_memsz ph))) in
    if sz =? 0 then ret None
    else if negb (ph_vaddr ph mod PGSIZE =? 0) then ret None
    else
      let! fs := gets files in
      let! r := onvm (loaduvm (readi fs ip) pgdir (ph_vaddr ph) (ph_off ph) (ph_filesz ph)) in
      if r <? 0 then ret None else ret (Some sz).

(** The loop over the program headers, [n] of them from [off]. *)
Fixpoint load_segments (n : nat) (pgdir ip off sz : Z) : M (kst F) (option Z) :=
  match n with
  | O => ret (Some sz)
  | S n =>
      let! fs := gets files in
      let '(r, b) := readi fs ip off PHSIZE in
      if negb (r =? PHSIZE) then ret None
      else
        let ph := dec_ph b in
        if negb (ph_type ph =? ELF_PROG_LOAD) then load_segments n pgdir ip (u32 (off + PHSIZE)) sz
        else
          let! r := load_segment pgdir ip sz ph in
          match r with
          | None => ret None
          | Some sz => load_segments n pgdir ip (u32 (off + PHSIZE)) sz
          end
  end.

(** The loop over the arguments, [argc] of which are done: the stack pointer
    and the addresses of the strings. *)
Fixpoint push_args (pgdir argc sp : Z) (argv : list (list Z)) : MV (option (Z * list Z)) :=
  match argv with
  | [] => ret (Some (sp, []))
  | a :: argv =>
      if MAXARG <=? argc then ret None
      else
        let len := Z.of_nat (length a) in
        let sp := Z.land (u32 (sp - (len + 1))) (u32 (Z.lnot 3)) in
        let! r := copyout pgdir sp (str_bytes a) (len + 1) in
        if r <? 0 then ret None
        else
          let! q := push_args pgdir (argc + 1) sp argv in
          match q with
          | None => ret None
          | Some (sp', addrs) => ret (Some (sp', sp :: addrs))
          end
  end.

(** The whole of the user stack: strings, then [ustack]. *)
Definition push_stack (pgdir sp : Z) (argv : list (list Z)) : MV (option Z) :=
  let! q := push_args pgdir 0 sp argv in
  match q with
  | None => ret None
  | Some (sp, addrs) =>
      let argc := Z.of_nat (length addrs) in
      let ustack := [0xffffffff; argc; u32 (sp - (argc + 1) * 4)] ++ addrs ++ [0] in
      let sp := u32 (sp - (3 + argc + 1) * 4) in
      let! r := copyout pgdir sp (word_bytes ustack) ((3 + argc + 1) * 4) in
      if r <? 0 then ret None else ret (Some sp)
  end.

(** The code at [bad]; [ip] is 0 once the file has been released. *)
Definition exec_bad (pgdir ip : Z) : M (kst F) Z :=
  when (negb (pgdir =? 0)) (onvm (freevm pgdir)) ;;;
  when (negb (ip =? 0)) (onfiles (iunlockput ip) ;;; onfiles end_op) ;;;
  ret (-1).

(** The end of a successful call: name, registers, and the old image freed. *)
Definition exec_finish (path : string) (c : nat) (pgdir sp entry sz : Z) : M (kst F) Z :=
  setp c (set_name (name16 (last_name path path))) ;;;
  let! p := getp c in
  setp c (fun p => set_tf (set_esp sp (set_eip entry (tf p))) (set_sz sz (set_pgdir pgdir p))) ;;;
  switchuvm_proc c ;;;
  onvm (freevm (Ptable.pgdir p)) ;;;
  ret 0.

(** From where the file has been released to the end. *)
Definition exec_commit (path : string) (argv : list (list Z)) (elf : elfhdr) (pgdir sz : Z) : M (kst F) Z :=
  let! c := myproc in
  let sz := PGROUNDUP sz in
  let! sz := onvm (allocuvm pgdir sz (u32 (sz + 2 * PGSIZE))) in
  if sz =? 0 then exec_bad pgdir 0
  else
    onvm (clearpteu pgdir (u32 (sz - 2 * PGSIZE))) ;;;
    let! q := onvm (push_stack pgdir sz argv) in
    match q with
    | None => exec_bad pgdir 0
    | Some sp =>
        exec_finish path c pgdir sp (e_entry elf) sz
    end.

(** The file checked and loaded, from where it is locked. *)
Definition exec_load (path : string) (argv : list (list Z)) (ip : Z) : M (kst F) Z :=
  let! fs := gets files in
  let '(r, b) := readi fs ip 0 ELFSIZE in
  if negb (r =? ELFSIZE) then exec_bad 0 ip
  else
    let elf := dec_elf b in
    if negb (e_magic elf =? ELF_MAGIC) then exec_bad 0 ip
    else
      let! pgdir := onvm setupkvm in
      if pgdir =? 0 then exec_bad 0 ip
      else
        let! r := load_segments (Z.to_nat (e_phnum elf)) pgdir ip (e_phoff elf) 0 in
        match r with
        | None => exec_bad pgdir ip
        | Some sz =>
            onfiles (iunlockput ip) ;;;
            onfiles end_op ;;;
            exec_commit path argv elf pgdir sz
        end.

Definition exec (path : string) (argv : list (list Z)) : M (kst F) Z :=
  let! c := myproc in
  onfiles begin_op ;;;
  let! p := getp c in
  modify (fun k => set_procs (find_and_set_sched_queue LOTTERY (pid p) (procs k)) k) ;;;
  modify (fun k => set_procs (find_and_set_lottery_ticket 500 (pid p) (procs k)) k) ;;;
  modify (fun k => set_procs (find_and_set_burst_time 0 (pid p) (procs k)) k) ;;;
  let! ip := onfiles (namei path) in
  if ip =? 0 then onfiles end_op ;;; ret (-1)
  else
    onfiles (ilock ip) ;;;
    exec_load path argv ip.
End Exec.
