(* ===== verification/ExecVm.v ===== *)
(** * ExecVm: building a program image in a new address space

    What [allocuvm], [loaduvm], [clearpteu] and [copyout] do to the memory that
    user programs see, and how many free pages they need. *)
From stdpp Require Import base gmap list numbers strings.
From Stdlib Require Import ZArith Lia ZifyBool.
From S2P Require Import Prelude Machine Cstring Kalloc Vm Frames Tables Cow Dealloc Kvm Fork Fault Alloc Spaces Ptable Proc Pages Exec.

Section ExecVm.
Context `{KI : KernelImage} `{KIO : !KernelImageOk}.

(** The pages [v0 <= v < v1] of [p] can be written by its user. *)
Definition writable (A : avm) (p v0 v1 : Z) : Prop :=
  forall v, v0 <= v < v1 -> exists e, maps A !! (p, v) = Some e /\ mmu_allows e true = true.

(** [n] bytes from [src] put at [va] of the address space [p]. *)
Definition spec_writes (p va : Z) (src : Z -> Z) (n : Z) (V : Z -> Z -> option Z) (q x : Z) : option Z :=
  if decide (q = p /\ va <= x < va + n) then Some (u8 (src (x - va))) else V q x.

(** The memory of all address spaces changed as [f] says. *)
Definition views (A : avm) (s s' : vmst) (f : (Z -> Z -> option Z) -> Z -> Z -> option Z) : Prop :=
  forall q x, own A !! q = Some ODir -> 0 <= x < KERNBASE ->
    user_load (mem s') q x = f (user_load (mem s)) q x.

Lemma store_writable (s : vmst) (A : avm) (p va e b : Z) :
  vminv s A -> own A !! p = Some ODir -> 0 <= va < KERNBASE -> maps A !! (p, vpn va) = Some e -> mmu_allows e true = true ->
  user_store (mem s) p va b = Some (store8 (mem s) (PTE_ADDR e + va mod 4096) b).
Proof.
  intros V Hp Hva He Hal. unfold user_store. by rewrite (mmu_spec s A), He, Hal by (apply V || done || zlia).
Qed.

Lemma write_bytes_views (A : avm) (p e : Z) (n : nat) : forall (s : vmst) (va : Z) (src : Z -> Z),
  vminv s A -> own A !! p = Some ODir -> 0 <= va -> va + Z.of_nat n <= KERNBASE -> va mod 4096 + Z.of_nat n <= 4096 ->
  maps A !! (p, vpn va) = Some e -> mmu_allows e true = true ->
  vminv (set_mem (write_bytes (mem s) (PTE_ADDR e + va mod 4096) src n) s) A /\
  views A s (set_mem (write_bytes (mem s) (PTE_ADDR e + va mod 4096) src n) s) (spec_writes p va src (Z.of_nat n)).
Proof.
  induction n as [|n IH]; intros s va src V Hp Hva Hn Hin He Hal.
  { cbn [write_bytes]. split; [by destruct s|]. intros q x _ _. unfold spec_writes. rewrite decide_False by lia. by destruct s. }
  pose proof (store_writable s A p va e (src 0) V Hp ltac:(lia) He Hal) as ES.
  destruct (user_store_spec s A p va (src 0) _ V Hp ltac:(lia) ES) as [V1 H1].
  destruct n as [|n].
  { cbn [write_bytes]. split; [done|]. intros q x Hq Hx. rewrite H1 by done. unfold spec_writes.
    destruct (decide (q = p /\ x = va)) as [[-> ->]|Hd].
    - rewrite decide_True by lia. by replace (va - va) with 0 by lia.
    - rewrite decide_False; [done|]. intros [-> ?]. destruct Hd. lia. }
  destruct (IH (set_mem (store8 (mem s) (PTE_ADDR e + va mod 4096) (src 0)) s) (va + 1) (Cstring.next src)) as [V2 H2]; try done; try lia.
  { zlia. }
  { rewrite <- He. f_equal. f_equal. unfold vpn. zlia. }
  replace (PTE_ADDR e + (va + 1) mod 4096) with (PTE_ADDR e + va mod 4096 + 1) in * by zlia.
  cbn [mem set_mem] in *. split; [by destruct s|]. intros q x Hq Hx.
  specialize (H2 q x Hq Hx). cbn [mem set_mem] in H2. etransitivity; [exact H2|]. unfold spec_writes. rewrite H1 by done.
  destruct (decide (q = p /\ va + 1 <= x < va + 1 + Z.of_nat (S n))) as [[-> Hr]|Hr].
  - rewrite decide_True by lia. unfold Cstring.next. do 2 f_equal. f_equal. lia.
  - destruct (decide (q = p /\ x = va)) as [[-> ->]|Hd].
    + rewrite decide_True by lia. by replace (va - va) with 0 by lia.
    + rewrite decide_False; [done|]. intros [-> ?]. destruct (decide (x = va)); [by destruct Hd|]. destruct Hr. lia.
Qed.

(** ** Page-table entries *)

Lemma walk_entry (s : vmst) (A : avm) (p va e : Z) :
  rep s A -> own A !! p = Some ODir -> 0 <= va < 4294967296 -> maps A !! (p, vpn va) = Some e ->
  exists t, tab A !! (p, PDX va) = Some t /\ page_ok t /\ walkpgdir (P2V p) va false s = Ok (pte_ptr t va) s /\
    pte_ptr t va <> 0 /\ kload (pte_ptr t va) s = Ok e s.
Proof.
  intros R Hp Hva He. destruct (entry_facts s A p _ e R He) as (_ & _ & _ & t & Ht).
  destruct (vpn_split va Hva) as (_ & E & _). rewrite E in Ht.
  pose proof (tab_page _ _ _ _ _ _ (rp_tbl _ _ R) Ht) as Htp. exists t. destruct (pte_ptr_facts t va Htp) as (_ & _ & _ & Hnz).
  split_and!; [done|done|by eapply walk_found|done|]. rewrite kload_pte by done.
  pose proof (entry_rep s A p va t R Hva Ht) as Hs. rewrite He in Hs. by rewrite Hs.
Qed.

(** One page of a copy into user memory. *)
Lemma kwrite_views (s : vmst) (A : avm) (p va e n : Z) (src : Z -> Z) :
  vminv s A -> own A !! p = Some ODir -> 0 <= va -> 0 <= n -> va + n <= KERNBASE -> va mod 4096 + n <= 4096 -> va < KERNBASE ->
  maps A !! (p, vpn va) = Some e -> mmu_allows e true = true ->
  wp (kwrite (P2V (PTE_ADDR e) + va mod 4096) src n) (fun _ s' => (exists m, s' = set_mem m s) /\ vminv s' A /\
    views A s s' (spec_writes p va src n)) s.
Proof.
  intros V Hp Hva Hn Hk Hin Hva' He Hal. destruct (user_page s A p _ e V He ltac:(unfold vpn; zlia)) as [_ Hpg].
  unfold wp, kwrite. rewrite kvalid_page by (done || zlia).
  assert (V2P (P2V (PTE_ADDR e) + va mod 4096) = PTE_ADDR e + va mod 4096) as ->.
  { rewrite P2V_page by done. pose proof (page_ok_bounds _ Hpg). zlia. }
  destruct (write_bytes_views A p e (Z.to_nat n) s va src V Hp Hva) as [V' H']; try done; try lia.
  rewrite Z2Nat.id in H' by lia. split_and!; [eauto|done|done].
Qed.

Lemma spec_writes_app (p va : Z) (f : Z -> Z) (i n : Z) (V : Z -> Z -> option Z) (q x : Z) :
  0 <= i -> 0 <= n -> spec_writes p (va + i) (fun y => f (i + y)) n (spec_writes p va f i V) q x = spec_writes p va f (i + n) V q x.
Proof.
  intros Hi Hn. unfold spec_writes. repeat case_decide; try done; try lia; try (exfalso; lia).
  do 3 f_equal. lia.
Qed.

Lemma spec_writes_ext (p va : Z) (f g : Z -> Z) (n : Z) (V : Z -> Z -> option Z) (q x : Z) :
  (forall y, 0 <= y < n -> f y = g y) -> spec_writes p va f n V q x = spec_writes p va g n V q x.
Proof. intros H. unfold spec_writes. case_decide as Hd; [|done]. do 2 f_equal. apply H. lia. Qed.

(** Everything but the address space [p]. *)
Definition others (A : avm) (p : Z) (s s' : vmst) : Prop :=
  forall q x, own A !! q = Some ODir -> q <> p -> 0 <= x < KERNBASE -> user_load (mem s') q x = user_load (mem s) q x.

Lemma views_others (A : avm) (p va n : Z) (src : Z -> Z) (s s' : vmst) :
  views A s s' (spec_writes p va src n) -> others A p s s'.
Proof. intros H q x Hq Hne Hx. rewrite H by done. unfold spec_writes. by rewrite decide_False by naive_solver. Qed.

(** ** [loaduvm] *)

(** The pages that [loaduvm] reads: how many bytes each, whether all of them
    are there, and the bytes. *)
Definition page_len (sz i : Z) : Z := Z.min (sz - i) PGSIZE.
Definition reads_full (rd : Z -> Z -> Z * (Z -> Z)) (off sz : Z) : Prop :=
  forall j, 0 <= j -> PGSIZE * j < sz -> (rd (u32 (off + PGSIZE * j)) (page_len sz (PGSIZE * j))).1 = page_len sz (PGSIZE * j).
Definition seg_byte (rd : Z -> Z -> Z * (Z -> Z)) (off sz x : Z) : Z :=
  let i := PGSIZE * (x / PGSIZE) in (rd (u32 (off + i)) (page_len sz i)).2 (x mod PGSIZE).

Lemma load_page (s : vmst) (A : avm) (rd : Z -> Z -> Z * (Z -> Z)) (p addr off sz j : Z) :
  vminv s A -> own A !! p = Some ODir -> addr mod 4096 = 0 -> 0 <= addr -> addr + sz <= KERNBASE ->
  0 <= j -> 4096 * j < sz -> writable A p (addr / 4096) ((addr + sz + 4095) / 4096) ->
  let n := page_len sz (4096 * j) in let r := rd (u32 (off + 4096 * j)) n in
  wp (loaduvm_body rd (P2V p) addr off sz (4096 * j)) (fun res s' => (exists m, s' = set_mem m s) /\ vminv s' A /\ others A p s s' /\
    (r.1 = n /\ res = inl (4096 * (j + 1)) /\ views A s s' (spec_writes p (addr + 4096 * j) r.2 n) \/
     r.1 <> n /\ res = inr (-1))) s.
Proof.
  intros V Hp Ha Ha0 Hk Hj Hjs HW n r. unfold loaduvm_body. change KERNBASE with 2147483648 in *.
  replace (4096 * j <? sz) with true by lia. cbn [negb]. rewrite (u32_id (addr + 4096 * j)) by lia.
  destruct (HW (addr / 4096 + j)) as (e & He & Hal); [zlia|].
  replace (addr / 4096 + j) with (vpn (addr + 4096 * j)) in He by (unfold vpn; zlia).
  destruct (walk_entry s A p (addr + 4096 * j) e (vi_rep _ _ V) Hp ltac:(lia) He) as (t & Ht & Htp & EW & Hnz & EL).
  wp_step. eapply wp_from_Ok; [exact EW|]. rewrite (proj2 (Z.eqb_neq _ _) Hnz). wp_step. eapply wp_from_Ok; [exact EL|].
  rewrite (u32_id (sz - 4096 * j)) by lia.
  replace (if sz - 4096 * j <? PGSIZE then sz - 4096 * j else PGSIZE) with n by (subst n; unfold page_len; destruct (Z.ltb_spec (sz - 4096 * j) PGSIZE); lia).
  fold r. destruct r as [c b] eqn:Er. assert (0 < n <= 4096) as Hn by (subst n; unfold page_len, PGSIZE; lia).
  assert (Hend : addr + 4096 * j + n <= 2147483648) by (subst n; unfold page_len; lia).
  wp_step. replace (P2V (PTE_ADDR e)) with (P2V (PTE_ADDR e) + (addr + 4096 * j) mod 4096) by zlia.
  eapply wp_mono; [apply (kwrite_views s A p (addr + 4096 * j) e (Z.min (Z.max 0 c) n) b); try done; try (change KERNBASE with 2147483648); try lia; zlia|].
  intros _ s' (HM & V' & HV). pose proof (views_others _ _ _ _ _ _ _ HV) as HO. cbn [fst snd].
  destruct (Z.eqb_spec c n) as [->|Hc]; cbn [negb]; apply wp_ret; split_and!; try done.
  - left. split_and!; [done|f_equal; rewrite u32_id; unfold PGSIZE; lia|]. by replace (Z.min (Z.max 0 n) n) with n in HV by lia.
  - by right.
Qed.

Lemma loaduvm_spec (s : vmst) (A : avm) (rd : Z -> Z -> Z * (Z -> Z)) (p addr off sz : Z) :
  vminv s A -> own A !! p = Some ODir -> addr mod 4096 = 0 -> 0 <= addr -> 0 <= sz -> addr + sz <= KERNBASE ->
  writable A p (addr / 4096) ((addr + sz + 4095) / 4096) ->
  wp (loaduvm rd (P2V p) addr off sz) (fun r s' => (exists m, s' = set_mem m s) /\ vminv s' A /\ others A p s s' /\
    (r = 0 /\ reads_full rd off sz /\ views A s s' (spec_writes p addr (seg_byte rd off sz) sz) \/ r = -1 /\ ~ reads_full rd off sz)) s.
Proof.
  intros V Hp Ha Ha0 Hs Hk HW. unfold loaduvm. unfold PGSIZE at 1. rewrite Ha. cbn [Z.eqb negb].
  eapply (wp_loop (fun i s' => exists j, i = 4096 * j /\ 0 <= j /\ 4096 * (j - 1) < Z.max sz 1 /\ (exists m, s' = set_mem m s) /\ vminv s' A /\ others A p s s' /\
      (forall j', 0 <= j' < j -> (rd (u32 (off + PGSIZE * j')) (page_len sz (PGSIZE * j'))).1 = page_len sz (PGSIZE * j')) /\
      views A s s' (spec_writes p addr (seg_byte rd off sz) (Z.min (4096 * j) sz))) (fun i => Z.to_nat (sz / 4096 + 1 - i / 4096))).
  - intros i s1 (j & -> & Hj & Hjs & [m1 ->] & V1 & O1 & F1 & W1). destruct (Z.lt_ge_cases (4096 * j) sz) as [Hlt|Hge].
    + eapply wp_mono; [by apply (load_page _ A rd p addr off sz j)|]. intros r s2 ([m2 ->] & V2 & O2 & [(Hr & -> & W2)|[Hr ->]]).
      * split; [|zlia]. exists (j + 1). split_and!; [done|lia|lia|eauto|done| | |].
        -- intros q x Hq Hne Hx. rewrite O2, O1 by done. done.
        -- intros j' Hj'. destruct (decide (j' = j)) as [->|]; [done|]. apply F1. lia.
        -- intros q x Hq Hx. rewrite W2 by done. rewrite Z.min_l in W1 by lia.
           replace (Z.min (4096 * (j + 1)) sz) with (4096 * j + page_len sz (4096 * j)) by (unfold page_len, PGSIZE; lia).
           rewrite <- spec_writes_app by (unfold page_len, PGSIZE; lia). unfold spec_writes at 1 2.
           case_decide as Hd; [|by apply W1]. do 2 f_equal. unfold seg_byte. destruct Hd as [_ Hd]. unfold page_len, PGSIZE in *.
           replace ((4096 * j + (x - (addr + 4096 * j))) / 4096) with j by zlia.
           replace ((4096 * j + (x - (addr + 4096 * j))) mod 4096) with (x - (addr + 4096 * j)) by zlia. done.
      * split_and!; [eauto|done| |right; split; [done|]].
        -- intros q x Hq Hne Hx. rewrite O2, O1 by done. done.
        -- intros HF. apply Hr. by apply HF.
    + unfold loaduvm_body. replace (4096 * j <? sz) with false by lia. apply wp_ret. split_and!; [eauto|done|done|]. left.
      split_and!; [done| |by rewrite Z.min_r in W1 by lia]. intros j' H1 H2. apply F1. unfold PGSIZE in *. lia.
  - exists 0. split_and!; [lia|lia|lia|by exists (mem s); destruct s|done|done|lia|].
    intros q x _ _. unfold spec_writes. rewrite decide_False by lia. done.
  - unfold PGSIZE. zlia.
Qed.
End ExecVm.


(** * The guard page, the stack, and the memory an image needs

    [clearpteu] and [copyout] on the two pages of the stack, and [setupkvm] and
    [allocuvm] when enough pages are free. *)

Section ExecSpace.
Context `{KI : KernelImage} `{KIO : !KernelImageOk}.

(** ** [clearpteu] *)

(** The entry of page [v] of [p] lost its user bit, nothing else changed. *)
Record guarded (p v : Z) (s s' : vmst) (A A' : avm) : Prop := mkguarded {
  gd_only : vm_only s s';
  gd_own : own A' = own A;
  gd_free : free A' = free A;
  gd_maps : forall q w, (q, w) <> (p, v) -> maps A' !! (q, w) = maps A !! (q, w);
  gd_entry : exists e, maps A' !! (p, v) = Some e /\ Z.testbit e 2 = false;
  gd_views : forall q x, own A !! q = Some ODir -> 0 <= x < KERNBASE ->
    user_load (mem s') q x = if decide (q = p /\ vpn x = v) then None else user_load (mem s) q x;
}.

Lemma clearpteu_spec (s : vmst) (A : avm) (p va e : Z) :
  vminv s A -> own A !! p = Some ODir -> 0 <= va < KERNBASE -> maps A !! (p, vpn va) = Some e ->
  wp (clearpteu (P2V p) va) (fun _ s' => exists A', vminv s' A' /\ guarded p (vpn va) s s' A A') s.
Proof.
  intros V Hp Hva He. pose proof (vi_rep _ _ V) as R.
  destruct (walk_entry s A p va e R Hp ltac:(zlia) He) as (t & Ht & Htp & EW & Hnz & EL).
  destruct (entry_facts s A p _ e R He) as (_ & Her & Hpr & _).
  unfold clearpteu. wp_step. eapply wp_from_Ok; [exact EW|]. rewrite (proj2 (Z.eqb_neq _ _) Hnz).
  wp_step. eapply wp_from_Ok; [exact EL|]. eapply wp_from_Ok; [by apply kstore_pte|].
  set (e' := clear_bit e 2). set (s' := set_mem _ s).
  assert (Her' : 0 <= e' < 4294967296) by (apply clear_bit_range; lia).
  assert (Hpr' : present e' = true). { unfold present, e'. rewrite testbit_clear_bit by lia. unfold present in Hpr. by rewrite Hpr. }
  assert (HA' : PTE_ADDR e' = PTE_ADDR e) by (apply clear_bit_PTE_ADDR; lia).
  assert (HU' : Z.testbit e' 2 = false) by (unfold e'; rewrite testbit_clear_bit by lia; by rewrite andb_false_r).
  assert (EM : maps (set_entry (p, vpn va) e' A) = <[(p, vpn va) := e']> (maps A)) by (unfold set_entry, put_entry; cbn [maps]; by rewrite Hpr').
  assert (R' : rep s' (set_entry (p, vpn va) e' A)) by (apply rep_set_entry; (done || zlia)).
  assert (Hvu : vpn va < UVPN) by (unfold vpn; zlia).
  exists (set_entry (p, vpn va) e' A). split.
  - split; [done|apply V|]. eapply cow_flags; [apply V|done|done|done|done|].
    unfold e'. rewrite testbit_clear_bit by lia. intros [Hw _]%andb_prop. by apply (cw_shared _ _ (vi_cow _ _ V) p (vpn va) e).
  - split; [by destruct s|done|done| | |].
    + intros q w Hne. rewrite EM. by rewrite lookup_insert_ne.
    + exists e'. rewrite EM. by rewrite lookup_insert_eq.
    + intros q x Hq Hx. rewrite (user_load_spec s' _ q x R') by (done || zlia). rewrite EM.
      case_decide as Hd.
      * destruct Hd as [-> <-]. rewrite lookup_insert_eq. unfold mmu_allows. by rewrite HU', andb_false_r.
      * rewrite lookup_insert_ne by (intros [= E1 E2]; apply Hd; by split). rewrite (user_load_spec s A q x R) by (done || zlia).
        destruct (maps A !! (q, vpn x)) as [e1|] eqn:E1; [|done]. case_match; [|done]. f_equal.
        destruct (user_page s A q _ e1 V E1 ltac:(unfold vpn; zlia)) as [Ho _].
        apply (set_entry_data s A p va t e' R Ht (PTE_ADDR e1) OUser); [done|by right|unfold PGSIZE; zlia].
Qed.

(** ** [copyout] into one page *)

Lemma copyout_page (s : vmst) (A : avm) (p va len e : Z) (src : Z -> Z) :
  vminv s A -> own A !! p = Some ODir -> 0 <= va -> 0 < len -> va + len <= KERNBASE -> va mod 4096 + len <= 4096 ->
  maps A !! (p, vpn va) = Some e -> mmu_allows e true = true ->
  wp (copyout (P2V p) va src len) (fun r s' => r = 0 /\ (exists m, s' = set_mem m s) /\ vminv s' A /\
    views A s s' (spec_writes p va src len)) s.
Proof.
  intros V Hp Hva Hl Hk Hin He Hal. pose proof (vi_rep _ _ V) as R. change KERNBASE with 2147483648 in *.
  destruct (user_page s A p _ e V He ltac:(unfold vpn; zlia)) as [_ Hpg].
  assert (Hbits : Z.testbit e 0 = true /\ Z.testbit e 2 = true).
  { unfold mmu_allows in Hal. by apply andb_prop in Hal as [[-> ->]%andb_prop _]. }
  assert (EV : PGROUNDDOWN va = va - va mod 4096) by (apply PGROUNDDOWN_eq; lia).
  assert (He' : maps A !! (p, vpn (PGROUNDDOWN va)) = Some e) by (rewrite <- He; f_equal; f_equal; unfold vpn; zlia).
  destruct (walk_entry s A p (PGROUNDDOWN va) e R Hp ltac:(zlia) He') as (t & Ht & Htp & EW & Hnz & EL).
  unfold copyout. cbn [loop]. wp_step. unfold copyout_body at 1. replace (len <=? 0) with false by lia.
  wp_step. unfold uva2ka. wp_step. eapply wp_from_Ok; [exact EW|]. wp_step. eapply wp_from_Ok; [exact EL|].
  rewrite land_PTE_P, land_PTE_U. destruct Hbits as [-> ->]. cbn [negb]. apply wp_ret.
  rewrite (proj2 (Z.eqb_neq _ _) (P2V_page_nonzero _ Hpg)). rewrite EV.
  replace (va - (va - va mod 4096)) with (va mod 4096) by lia. rewrite (u32_id (PGSIZE - va mod 4096)) by (unfold PGSIZE; zlia).
  replace (if len <? PGSIZE - va mod 4096 then len else PGSIZE - va mod 4096) with len by (unfold PGSIZE; destruct (Z.ltb_spec len (4096 - va mod 4096)); lia).
  rewrite (u32_id (P2V (PTE_ADDR e) + va mod 4096)) by (rewrite P2V_page by done; pose proof (page_ok_bounds _ Hpg); zlia).
  wp_step. eapply wp_mono; [apply (kwrite_views s A p va e len src); try done; change KERNBASE with 2147483648; lia|].
  intros _ s' (HM & V' & HV). wp_step. replace (u32 (len - len)) with 0 by (rewrite Z.sub_diag; done).
  destruct (Z.to_nat (len / PGSIZE + 2)) as [|fuel] eqn:EF; [unfold PGSIZE in EF; zlia|]. cbn [loop]. wp_step. unfold copyout_body. cbn [Z.leb Z.compare].
  apply wp_ret, wp_ret. by split_and!.
Qed.

(** A page without the user bit stops it. *)
Lemma copyout_guard (s : vmst) (A : avm) (p va len e : Z) (src : Z -> Z) :
  vminv s A -> own A !! p = Some ODir -> 0 <= va < KERNBASE -> 0 < len ->
  maps A !! (p, vpn va) = Some e -> Z.testbit e 2 = false ->
  copyout (P2V p) va src len s = Ok (-1) s.
Proof.
  intros V Hp Hva Hl He HU. pose proof (vi_rep _ _ V) as R. change KERNBASE with 2147483648 in *.
  assert (EV : PGROUNDDOWN va = va - va mod 4096) by (apply PGROUNDDOWN_eq; lia).
  assert (He' : maps A !! (p, vpn (PGROUNDDOWN va)) = Some e) by (rewrite <- He; f_equal; f_equal; unfold vpn; zlia).
  destruct (walk_entry s A p (PGROUNDDOWN va) e R Hp ltac:(zlia) He') as (t & Ht & Htp & EW & Hnz & EL).
  unfold copyout. cbn [loop]. unfold bind at 1, copyout_body at 1. replace (len <=? 0) with false by lia.
  unfold uva2ka. unfold bind at 1 2 3. rewrite EW, EL. rewrite land_PTE_P, land_PTE_U, HU. cbn [negb].
  by destruct (negb (Z.testbit e 0)).
Qed.

(** ** Free pages *)

Lemma wp_and {S B} (c : M S B) (Q1 Q2 : B -> S -> Prop) (s : S) :
  wp c Q1 s -> wp c Q2 s -> wp c (fun b s' => Q1 b s' /\ Q2 b s') s.
Proof. unfold wp. by destruct (c s). Qed.

(** The page tables of one directory are at most 1024. *)
Lemma tables_room (s s' : vmst) (A A' : avm) (f : Z) :
  rep s A -> rep s' A' ->
  (forall x, own A !! x = Some OFree -> own A' !! x = Some OFree \/ x = f \/ exists i, own A' !! x = Some (OTab f i)) ->
  (length (free A) <= length (free A') + 1025)%nat.
Proof.
  intros [_ T] [_ T'] H.
  assert (exists ts : list Z, length ts = 1024%nat /\ forall i t, tab A' !! (f, i) = Some t -> t ∈ ts) as (ts & Hts & HT).
  { exists ((fun i => default 0 (tab A' !! (f, Z.of_nat i))) <$> seq 0 1024). split; [by rewrite length_fmap, length_seq|].
    intros i t Ht. destruct (tb_tab_dir _ _ _ T' _ _ _ Ht) as [_ Hr]. apply list_elem_of_fmap. exists (Z.to_nat i).
    rewrite Z2Nat.id by lia. split; [by rewrite Ht|]. apply elem_of_seq. lia. }
  assert (HS : free A ⊆+ free A' ++ f :: ts).
  { apply NoDup_submseteq; [apply T|]. intros x Hx. apply (tb_free_own _ _ _ T) in Hx. apply elem_of_app.
    destruct (H x Hx) as [Hf|[->|[i Hi]]]; [left; by apply (tb_free_own _ _ _ T')|right; left|right; right].
    apply (tb_tab_own _ _ _ T') in Hi. by eapply HT. }
  apply submseteq_length in HS. rewrite length_app in HS. cbn [length] in HS. lia.
Qed.

Lemma setupkvm_loop_room (p : Z) (ks : list kmap_entry) (s : vmst) (A : avm) :
  vminv s A -> own A !! p = Some ODir -> Forall kmap_wf ks -> kmap_disjoint ks ->
  (forall v, is_Some (kent ks v) -> maps A !! (p, v) = None) ->
  wp (setupkvm_loop (P2V p) ks) (fun r _ => r = 0 -> exists A1 s1, rep s1 A1 /\ grow p A A1 /\ free A1 = []) s.
Proof.
  intros V Hp Hwf. revert s A V Hp. induction Hwf as [|k ks Hk Hks IH]; intros s A V Hp Hd Hfr.
  { apply wp_ret. intros E. by destruct (P2V_page_nonzero p (tb_pages _ _ _ (rp_tbl _ _ (vi_rep _ _ V)) _ _ Hp)). }
  destruct Hd as [Hd1 Hd2]. cbn [setupkvm_loop]. apply wp_bind.
  destruct Hk as [[Kv1 Kv2] [Ks1 Ks2] Kve [Kp1 Kp2] Kpe Kpm]. rewrite Ks1.
  eapply wp_mono; [apply (mappages_spec s A); try done; [apply V|zlia|]|].
  { intros i Hi. apply Hfr. cbn [kent]. rewrite decide_True by lia. eauto. }
  intros r s1 (A1 & n & R1 & P1 & D1 & G1 & M1 & _ & Hr).
  assert (Hp1 : own A1 !! p = Some ODir) by (by eapply grow_keep).
  assert (Hn : 0 <= n <= knum k) by (destruct Hr as [[_ ->]|(_ & ? & _)]; lia).
  assert (HUV : UVPN <= vpn (virt k)) by (clear -Kv2; unfold vpn; zlia).
  assert (V1 : vminv s1 A1).
  { split; [done|rewrite (phys_only_lock _ _ P1); apply V|].
    rewrite (phys_only_rc _ _ P1). eapply cow_grow; [apply V|done|].
    intros q v Hv. rewrite M1, decide_False by lia. done. }
  destruct Hr as [[-> ->]|(-> & Hn' & Hfl & _)].
  - change (0 <? 0) with false. eapply wp_mono.
    { apply (IH s1 A1); try done. intros v Hv. rewrite M1.
      destruct (decide (p = p /\ vpn (virt k) <= v < vpn (virt k) + knum k)) as [[_ Hin]|Hout].
      - rewrite Hd1 in Hv by done. by destruct Hv.
      - apply Hfr. cbn. case_decide; eauto. }
    intros r s' HR E. destruct (HR E) as (A2 & s2 & R2 & G2 & F2). exists A2, s2. split_and!; [done|by eapply grow_trans|done].
  - change (-1 <? 0) with true. apply wp_bind. eapply wp_mono; [by apply freevm_spec|].
    intros _ s2 _. apply wp_ret. intros _. by exists A1, s1.
Qed.

Lemma setupkvm_room (s : vmst) (A : avm) :
  vminv s A -> wp setupkvm (fun r _ => r = 0 -> (length (free A) <= 1025)%nat) s.
Proof.
  intros V. pose proof (vi_rep _ _ V) as R. pose proof (rp_tbl _ _ R) as T.
  pose proof (rep_kalloc s A R) as HA. unfold setupkvm. apply wp_bind.
  destruct (free A) as [|f l] eqn:Hfl; destruct HA as (s1 & EA & R1 & P1 & M1); (eapply wp_from_Ok; [exact EA|]).
  { rewrite Z.eqb_refl. apply wp_ret. cbn. lia. }
  assert (Hf : own A !! f = Some OFree). { apply (tb_free_own _ _ _ T). rewrite Hfl. left. }
  pose proof (tb_pages _ _ _ T _ _ Hf) as Hfp.
  rewrite (proj2 (Z.eqb_neq _ _) (P2V_page_nonzero f Hfp)).
  apply wp_bind. eapply wp_from_Ok; [by apply kmemset_page|].
  change (DEVSPACE <? P2V PHYSTOP) with false. cbv iota.
  pose proof (vminv_make_dir s s1 A f l V Hf R1 P1) as V2. destruct kmap_ok as [Kw Kd].
  eapply wp_mono; [apply (setupkvm_loop_room f kmap _ _ V2); try done|].
  { apply lookup_insert_eq. }
  { intros v _. cbn. by apply (free_no_maps _ _ _ _ _ _ T Hf). }
  intros r s3 HR E. destruct (HR E) as (A1 & s4 & R4 & [GO GT GS] & F4). rewrite <- Hfl.
  replace 1025%nat with (length (free A1) + 1025)%nat by (by rewrite F4). apply (tables_room s s4 A A1 f); try done.
  intros x Hx. destruct (decide (x = f)) as [->|Hne]; [by right; left|]. specialize (GO x). cbn in GO. rewrite !lookup_insert_ne in GO by done.
  destruct GO as [->|[_ GO]]; [by left|by right; right].
Qed.

Lemma setup_views (s s' : vmst) (A A' : avm) (f : Z) :
  vminv s A -> vminv s' A' -> newdir f A A' -> data_same A' s s' -> same_views A s s'.
Proof.
  intros V V' [N1 N2 N3 N4 N5] D q x Hq Hx. assert (q <> f) as Hne by congruence.
  assert (Hq' : own A' !! q = Some ODir). { destruct (N3 q Hne) as [->|[E _]]; [done|congruence]. }
  rewrite (user_load_spec s' A'), (user_load_spec s A) by (apply V || apply V' || done || zlia). rewrite N5, decide_False by done.
  destruct (maps A !! (q, vpn x)) as [e|] eqn:E; [|done]. case_match; [|done]. f_equal.
  destruct (user_page s A q _ e V E ltac:(unfold vpn; zlia)) as [Ho _].
  apply (D (PTE_ADDR e) OUser); [|by right|unfold PGSIZE; zlia]. destruct (N3 (PTE_ADDR e)) as [->|[E' _]]; congruence.
Qed.

(** [setupkvm] when at least 1026 pages are free. *)
Lemma setupkvm_ample (s : vmst) (A : avm) :
  vminv s A -> (1025 < length (free A))%nat ->
  wp setupkvm (fun r s' => exists A' f, r = P2V f /\ vminv s' A' /\ vm_only s s' /\ newdir f A A' /\ same_views A s s' /\
    (length (free A) <= length (free A') + 1025)%nat) s.
Proof.
  intros V Hf. eapply wp_mono; [apply wp_and; [by apply setupkvm_spec|by apply setupkvm_room]|].
  intros r s' [(A' & V' & P & D & [(f & -> & N)|(-> & _)]) HR]; [|specialize (HR eq_refl); lia].
  exists A', f. split_and!; [done|done|done|done|by eapply setup_views|].
  apply (tables_room s s' A A' f); [apply V|apply V'|]. intros x Hx. destruct (decide (x = f)) as [->|Hne]; [by right; left|].
  destruct (nd_own _ _ _ N x Hne) as [->|[_ E]]; [by left|by right; right].
Qed.
End ExecSpace.


(** * Loading a program

    The program image as a function of the file, and the proof that the loop of
    [exec] builds it in a new address space. *)

(** Pages of a memory of [n] bytes. *)
Definition pages (n : Z) : Z := (n + 4095) / 4096.

(** An image: its size and its bytes, which are 0 outside the segments. *)
Definition image : Type := Z * (Z -> Z).

Section Spec.
Context (rd : Z -> Z -> Z * (Z -> Z)).

Definition reads_fullb (off sz : Z) : bool :=
  forallb (fun j => (rd (u32 (off + PGSIZE * j)) (page_len sz (PGSIZE * j))).1 =? page_len sz (PGSIZE * j)) (seqZ 0 (pages sz)).

Lemma reads_fullb_spec (off sz : Z) : reads_fullb off sz = true <-> reads_full rd off sz.
Proof using.
  unfold reads_fullb, reads_full. rewrite forallb_forall. split.
  - intros H j Hj Hs. apply Z.eqb_eq, (H j). apply list_elem_of_In, elem_of_seqZ. unfold pages, PGSIZE in *. zlia.
  - intros H j Hj. apply list_elem_of_In, elem_of_seqZ in Hj. apply Z.eqb_eq, H; unfold pages, PGSIZE in *; zlia.
Qed.

(** One segment added to an image, [None] if the file is not acceptable. *)
Definition add_segment (ph : proghdr) (im : image) : option image :=
  let new := ph_vaddr ph + ph_memsz ph in
  if ph_memsz ph <? ph_filesz ph then None
  else if 4294967296 <=? new then None
  else if KERNBASE <=? new then None
  else if Z.max im.1 new =? 0 then None
  else if negb (ph_vaddr ph mod PGSIZE =? 0) then None
  else if reads_fullb (ph_off ph) (ph_filesz ph) then
    Some (Z.max im.1 new, fun x =>
      if (ph_vaddr ph <=? x) && (x <? ph_vaddr ph + ph_filesz ph)
      then u8 (seg_byte rd (ph_off ph) (ph_filesz ph) (x - ph_vaddr ph)) else im.2 x)
  else None.

(** The image of a file with [n] program headers at [off]. *)
Fixpoint add_segments (n : nat) (off : Z) (im : image) : option image :=
  match n with
  | O => Some im
  | S n =>
      let '(r, b) := rd off PHSIZE in
      if negb (r =? PHSIZE) then None
      else if negb (ph_type (dec_ph b) =? ELF_PROG_LOAD) then add_segments n (u32 (off + PHSIZE)) im
      else im ← add_segment (dec_ph b) im; add_segments n (u32 (off + PHSIZE)) im
  end.

(** No segment below the kernel ends above [lim]. *)
Fixpoint fits (n : nat) (off lim : Z) : Prop :=
  match n with
  | O => True
  | S n =>
      let ph := dec_ph (rd off PHSIZE).2 in
      (ph_vaddr ph + ph_memsz ph < KERNBASE -> ph_vaddr ph + ph_memsz ph <= lim) /\ fits n (u32 (off + PHSIZE)) lim
  end.
End Spec.

Section Image.
Context `{KI : KernelImage} `{KIO : !KernelImageOk}.

(** The address space [p] holds an image of [sz] bytes and nothing else. *)
Record space (A : avm) (s : vmst) (p sz : Z) (img : Z -> Z) : Prop := mkspace {
  sp_dir : own A !! p = Some ODir;
  sp_sized : sized A p sz;
  sp_writable : writable A p 0 (pages sz);
  sp_bytes : forall x, 0 <= x < 4096 * pages sz -> user_load (mem s) p x = Some (img x);
  sp_zero : forall x, 4096 * pages sz <= x -> img x = 0;
}.

Definition room (A : avm) (n : Z) : Prop := n <= Z.of_nat (length (free A)).

(** What changes while a new address space is filled. *)
Record filling (p : Z) (s s' : vmst) (A A' : avm) : Prop := mkfilling {
  fl_only : vm_only s s';
  fl_resized : resized p A A';
  fl_others : others A p s s';
}.

Lemma filling_refl p s A : filling p s s A A.
Proof. split; [apply vm_only_refl|by split|done]. Qed.

Lemma filling_trans p s1 s2 s3 A1 A2 A3 :
  filling p s1 s2 A1 A2 -> filling p s2 s3 A2 A3 -> filling p s1 s3 A1 A3.
Proof.
  intros [O1 [R1 R2 R3] V1] [O2 [T1 T2 T3] V2]. split; [by eapply vm_only_trans| |].
  - split; [eauto|eauto|congruence].
  - intros q x Hq Hne Hx. rewrite V2, V1 by (done || auto). done.
Qed.

Lemma filling_mem p s A m : others A p s (set_mem m s) -> filling p s (set_mem m s) A A.
Proof. intros H. split; [by destruct s|by split|done]. Qed.

Lemma alloc_views (s s' : vmst) (A A' : avm) (p v0 v1 : Z) :
  vminv s A -> vminv s' A' -> own A !! p = Some ODir -> 0 <= v0 -> added p v0 v1 A A' s' -> data_same A s s' ->
  forall q x, own A !! q = Some ODir -> 0 <= x < KERNBASE ->
    user_load (mem s') q x = if decide (q = p /\ v0 <= vpn x < v1) then Some 0 else user_load (mem s) q x.
Proof.
  intros V V' Hp Hv0 Ad D q x Hq Hx. assert (Hq' : own A' !! q = Some ODir) by (by eapply added_dir).
  rewrite (user_load_spec s' A'), (user_load_spec s A) by (apply V || apply V' || done || zlia).
  case_decide as Hd.
  - destruct Hd as [-> Hv]. destruct (ad_new _ _ _ _ _ _ Ad (vpn x) Hv) as (f & -> & Hf & Hf' & Hz).
    destruct (private_pte_facts f) as (_ & _ & _ & HA & Hal); [by apply (tb_pages _ _ _ (rp_tbl _ _ (vi_rep _ _ V')) _ _ Hf')|].
    unfold mmu_allows in *. apply andb_prop in Hal as [-> _]. cbn. f_equal. rewrite HA. apply Hz. zlia.
  - rewrite (ad_maps _ _ _ _ _ _ Ad) by (destruct (decide (q = p)); [right|left]; naive_solver lia).
    destruct (maps A !! (q, vpn x)) as [e|] eqn:E; [|done]. case_match; [|done]. f_equal.
    destruct (user_page s A q _ e V E ltac:(unfold vpn; zlia)) as [Ho _].
    apply (D (PTE_ADDR e) OUser); [done|by right|unfold PGSIZE; zlia].
Qed.

Lemma grow_space (s : vmst) (A : avm) (p old new : Z) (img : Z -> Z) :
  vminv s A -> space A s p old img -> 0 <= old <= new -> new < KERNBASE -> room A (2 * (pages new - pages old)) ->
  wp (allocuvm (P2V p) old new) (fun r s' => r = new /\ exists A', vminv s' A' /\ filling p s s' A A' /\
    space A' s' p new img /\ Z.of_nat (length (free A)) <= Z.of_nat (length (free A')) + 2 * (pages new - pages old)) s.
Proof.
  intros V [S1 S2 S3 S4 S5] Ho Hn HR. pose proof S2 as [Z1 Z2 Z3]. unfold room, pages in *.
  assert ((old + 4095) / 4096 <= (new + 4095) / 4096) as Hle by zlia.
  eapply wp_mono; [apply (allocuvm_spec s A p old new V S1); try done; [|right; lia]|].
  { intros v Hv. apply Z3. zlia. }
  intros r s' (A' & V' & P & D & [(-> & Ad & K)|(-> & U & K)]); [|lia]. split; [done|]. exists A'.
  pose proof (alloc_views s s' A A' p ((old + 4095) / 4096) ((new + 4095) / 4096) V V' S1 ltac:(zlia) Ad D) as HV.
  split_and!; [done| | |apply takes_length in K; lia].
  - split; [done|by eapply added_resized|]. intros q x Hq Hne Hx. rewrite HV by done. by rewrite decide_False by naive_solver.
  - assert (S1' : own A' !! p = Some ODir) by (by eapply added_dir). split; [done| | | |].
    + split; [lia|..].
      * intros v Hv. destruct (decide (v < (old + 4095) / 4096)); [rewrite (ad_maps _ _ _ _ _ _ Ad) by lia; apply Z2; lia|].
        destruct (ad_new _ _ _ _ _ _ Ad v ltac:(lia)) as (f & -> & _). eauto.
      * intros v Hv. rewrite (ad_maps _ _ _ _ _ _ Ad) by lia. apply Z3. zlia.
    + intros v Hv. destruct (decide (v < (old + 4095) / 4096)).
      * rewrite (ad_maps _ _ _ _ _ _ Ad) by lia. apply S3. unfold pages. lia.
      * unfold pages in Hv. destruct (ad_new _ _ _ _ _ _ Ad v ltac:(lia)) as (f & -> & _ & Hf & _). eexists. split; [done|].
        apply private_pte_facts. by apply (tb_pages _ _ _ (rp_tbl _ _ (vi_rep _ _ V')) _ _ Hf).
    + intros x Hx. unfold pages in *. rewrite HV by (done || zlia). case_decide as Hd.
      * f_equal. symmetry. apply S5. unfold vpn in Hd. zlia.
      * apply S4. unfold vpn in Hd. destruct (decide ((old + 4095) / 4096 <= x / 4096)); [|zlia]. destruct Hd. split; [done|zlia].
    + intros x Hx. apply S5. unfold pages in *. zlia.
Qed.

Lemma load_space (s : vmst) (A : avm) (rd : Z -> Z -> Z * (Z -> Z)) (p sz vaddr off n : Z) (img : Z -> Z) :
  vminv s A -> space A s p sz img -> vaddr mod 4096 = 0 -> 0 <= vaddr -> 0 <= n -> vaddr + n <= sz -> sz < KERNBASE ->
  wp (loaduvm rd (P2V p) vaddr off n) (fun r s' => vminv s' A /\ filling p s s' A A /\
    (if reads_fullb rd off n then
       r = 0 /\ space A s' p sz (fun x => if (vaddr <=? x) && (x <? vaddr + n) then u8 (seg_byte rd off n (x - vaddr)) else img x)
     else r = -1)) s.
Proof.
  intros V [S1 S2 S3 S4 S5] Ha Ha0 Hn Hs Hk. unfold pages in *. eapply wp_mono.
  { apply (loaduvm_spec s A rd p vaddr off n); try done; [lia|]. intros v Hv. apply S3. zlia. }
  intros r s' ([m ->] & V' & HO & HR). split_and!; [done|by apply filling_mem|]. pose proof (reads_fullb_spec rd off n) as HB.
  destruct HR as [(-> & HF & HV)|[-> HF]].
  - rewrite (proj2 HB HF). split; [done|]. split; try done.
    + intros x Hx. rewrite HV by (done || (unfold pages in Hx; zlia)). unfold spec_writes. case_decide as Hd.
      * by replace ((vaddr <=? x) && (x <? vaddr + n)) with true by lia.
      * replace ((vaddr <=? x) && (x <? vaddr + n)) with false by (destruct (Z.leb_spec vaddr x), (Z.ltb_spec x (vaddr + n)); try done; by destruct Hd). by apply S4.
    + intros x Hx. unfold pages in Hx. replace ((vaddr <=? x) && (x <? vaddr + n)) with false by zlia. by apply S5.
  - destruct (reads_fullb rd off n) eqn:E; [|done]. by destruct HF; apply HB.
Qed.
End Image.
