(* ===== verification/ExecLoad.v ===== *)
(** * ExecLoad: the loop over the program headers, and the user stack

    [load_segments] builds the image of the file, and [push_stack] lays out the
    arguments in the stack page. *)
From stdpp Require Import base gmap list numbers strings.
From Stdlib Require Import ZArith Lia ZifyBool.
From S2P Require Import Prelude Machine Cstring Kalloc Vm Frames Tables Cow Dealloc Kvm Fork Fault Alloc Spaces Ptable Proc Pages Exec ExecVm.

Section Load.
Context `{KI : KernelImage} `{KIO : !KernelImageOk} `{PT : ProcTable} {F : Type} `{FO : FileOps F} `{EF : ExecFiles F}.
Implicit Types (k : kst F) (A : avm).

Lemma wp_onvm {B} (c : MV B) (Q : B -> kst F -> Prop) k :
  wp c (fun b s => Q b (set_vm s k)) (vm k) -> wp (onvm c) Q k.
Proof. apply wp_zoom. Qed.

Definition ph_ok (ph : proghdr) : Prop :=
  0 <= ph_vaddr ph < 4294967296 /\ 0 <= ph_memsz ph < 4294967296 /\ 0 <= ph_filesz ph < 4294967296.

(** What loading leaves in state [k]: the image [o], or a failure with the new
    address space still to be freed. *)
Definition loaded (p lim c : Z) (A : avm) k (o : option image) (r : option Z) (k' : kst F) : Prop :=
  exists s' A', k' = set_vm s' k /\ vminv s' A' /\ filling p (vm k) s' A A' /\
    match o with
    | Some im => r = Some im.1 /\ space A' s' p im.1 im.2 /\ 0 <= im.1 <= lim /\ room A' (2 * (pages lim - pages im.1) + c)
    | None => r = None /\ own A' !! p = Some ODir
    end.

Lemma failed p lim c k s' A A' (o : option image) :
  o = None -> vminv s' A' -> filling p (vm k) s' A A' -> own A' !! p = Some ODir -> loaded p lim c A k o None (set_vm s' k).
Proof. intros -> V HF Hp. by exists s', A'. Qed.

(** The size after [allocuvm], which does not shrink. *)
Lemma alloc_segment (s : vmst) (A : avm) (p sz new lim c : Z) (img : Z -> Z) :
  vminv s A -> space A s p sz img -> 0 <= sz <= lim -> lim < KERNBASE -> 0 <= new <= lim -> 0 <= c -> room A (2 * (pages lim - pages sz) + c) ->
  wp (allocuvm (P2V p) sz new) (fun r s' => r = Z.max sz new /\ exists A', vminv s' A' /\ filling p s s' A A' /\
    space A' s' p (Z.max sz new) img /\ room A' (2 * (pages lim - pages (Z.max sz new)) + c)) s.
Proof.
  intros V SP Hs Hl Hn Hc HR. destruct (decide (new < sz)) as [Hlt|Hge].
  - unfold allocuvm. replace (KERNBASE <=? new) with false by lia. replace (new <? sz) with true by lia. apply wp_ret.
    rewrite Z.max_l by lia. split; [done|]. exists A. split_and!; [done|apply filling_refl|done|done].
  - rewrite Z.max_r by lia. eapply wp_mono.
    { apply (grow_space s A p sz new img V SP); [lia|lia|]. unfold room, pages in *. zlia. }
    intros r s' (-> & A' & V' & HF & SP' & HL). split; [done|]. exists A'. split_and!; try done. unfold room in *. lia.
Qed.

Lemma load_segment_spec k (A : avm) (p ip sz lim c : Z) (img : Z -> Z) (ph : proghdr) :
  vminv (vm k) A -> space A (vm k) p sz img -> ph_ok ph -> 0 <= sz <= lim -> lim < KERNBASE ->
  (ph_vaddr ph + ph_memsz ph < KERNBASE -> ph_vaddr ph + ph_memsz ph <= lim) -> 0 <= c -> room A (2 * (pages lim - pages sz) + c) ->
  wp (load_segment (P2V p) ip sz ph) (loaded p lim c A k (add_segment (readi (files k) ip) ph (sz, img))) k.
Proof.
  intros V SP (P1 & P2 & P3) Hs Hl Hfit Hc HR. set (new := ph_vaddr ph + ph_memsz ph) in *.
  assert (HF0 : loaded p lim c A k None None k).
  { replace k with (set_vm (vm k) k) at 2 by (by destruct k). eapply failed; [done|exact V|apply filling_refl|apply SP]. }
  unfold load_segment, add_segment. cbn [fst snd]. fold new. destruct (ph_memsz ph <? ph_filesz ph) eqn:E1; [by apply wp_ret|].
  destruct (Z.leb_spec 4294967296 new) as [E2|E2].
  { replace (u32 new <? ph_vaddr ph) with true by (symmetry; apply Z.ltb_lt; subst new; zlia). by apply wp_ret. }
  rewrite (u32_id new) by lia. replace (new <? ph_vaddr ph) with false by lia. wp_step. apply wp_onvm.
  destruct (Z.leb_spec KERNBASE new) as [E3|E3].
  { unfold allocuvm. replace (KERNBASE <=? new) with true by lia. apply wp_ret, wp_ret. by destruct k. }
  eapply wp_mono; [apply (alloc_segment (vm k) A p sz new lim c img); try done; lia|].
  intros r s1 (-> & A1 & V1 & F1 & SP1 & R1). destruct (Z.max sz new =? 0) eqn:E4.
  { apply wp_ret. eapply failed; [done|exact V1|done|apply SP1]. }
  destruct (negb (ph_vaddr ph mod PGSIZE =? 0)) eqn:E5.
  { apply wp_ret. eapply failed; [done|exact V1|done|apply SP1]. }
  apply negb_false_iff, Z.eqb_eq in E5. apply Z.ltb_ge in E1.
  wp_step. apply wp_gets. cbn [files set_vm]. wp_step. apply wp_onvm. cbn [vm set_vm].
  eapply wp_mono; [apply (load_space s1 A1 (readi (files k) ip) p (Z.max sz new) (ph_vaddr ph) (ph_off ph) (ph_filesz ph) img); try done; lia|].
  intros r s2 (V2 & F2 & HL). pose proof (filling_trans _ _ _ _ _ _ _ F1 F2) as F12.
  destruct (reads_fullb _ _ _).
  - destruct HL as [-> SP2]. apply wp_ret. exists s2, A1. cbn [fst snd]. split_and!; try done; lia.
  - subst r. apply wp_ret. change (set_vm s2 (set_vm s1 k)) with (set_vm s2 k). eapply failed; [done|exact V2|done|apply SP1].
Qed.

(** The bytes that [readi] delivers are bytes. *)
Definition bytes_ok (rd : Z -> Z -> Z * (Z -> Z)) : Prop := forall off n x, 0 <= (rd off n).2 x < 256.

Lemma dec_ph_ok (m : memory) : mem_wf m -> ph_ok (dec_ph m).
Proof. intros H. unfold ph_ok, dec_ph. cbn. split_and!; apply load32_range; done. Qed.

Lemma load_segments_spec (n : nat) (p ip lim c : Z) : forall k (A : avm) (off sz : Z) (img : Z -> Z),
  vminv (vm k) A -> space A (vm k) p sz img -> bytes_ok (readi (files k) ip) -> fits (readi (files k) ip) n off lim ->
  0 <= sz <= lim -> lim < KERNBASE -> 0 <= c -> room A (2 * (pages lim - pages sz) + c) ->
  wp (load_segments n (P2V p) ip off sz) (loaded p lim c A k (add_segments (readi (files k) ip) n off (sz, img))) k.
Proof.
  induction n as [|n IH]; intros k A off sz img V SP HB HF Hs Hl Hc HR; cbn [load_segments add_segments].
  { apply wp_ret. exists (vm k), A. split; [by destruct k|]. split; [done|]. split; [apply filling_refl|]. cbn. split_and!; try done; lia. }
  assert (HF0 : loaded p lim c A k None None k).
  { replace k with (set_vm (vm k) k) at 2 by (by destruct k). eapply failed; [done|exact V|apply filling_refl|apply SP]. }
  wp_step. apply wp_gets. pose proof (HB off PHSIZE) as Hb. cbn [fits] in HF. destruct HF as [HF1 HF2].
  destruct (readi (files k) ip off PHSIZE) as [r b]. cbn [snd] in *.
  destruct (negb (r =? PHSIZE)); [by apply wp_ret|]. destruct (negb (ph_type (dec_ph b) =? ELF_PROG_LOAD)); [by apply IH|].
  wp_step. eapply wp_mono; [apply (load_segment_spec k A p ip sz lim c img (dec_ph b)); try done; by apply dec_ph_ok|].
  intros r1 k1 (s1 & A1 & -> & V1 & F1 & H1).
  destruct (add_segment (readi (files k) ip) (dec_ph b) (sz, img)) as [[sz1 img1]|]; cbn [mbind option_bind].
  - destruct H1 as (-> & SP1 & Hs1 & R1). cbn [fst snd] in *. eapply wp_mono; [by apply (IH (set_vm s1 k) A1)|].
    intros r2 k2 (s2 & A2 & -> & V2 & F2 & H2). cbn [files set_vm vm] in *. exists s2, A2.
    split_and!; [done|done|by eapply filling_trans|done].
  - destruct H1 as [-> Hp1]. apply wp_ret. exists s1, A1. by split_and!.
Qed.
End Load.


(** * The arguments on the user stack

    [push_stack] puts the argument strings and the array that points at them
    into the stack page, or fails when they do not fit. *)

(** A string with its NUL, and an array of words, at an address of a memory. *)
Definition holds_str (V : Z -> option Z) (a : Z) (l : list Z) : Prop :=
  forall i, 0 <= i <= Z.of_nat (length l) -> V (a + i) = Some (nth (Z.to_nat i) l 0).
Definition holds_words (V : Z -> option Z) (a : Z) (ws : list Z) : Prop :=
  forall i w b, ws !! i = Some w -> 0 <= b < 4 -> V (a + 4 * Z.of_nat i + b) = Some (w / 256 ^ b mod 256).

Definition str_ok (a : list Z) : Prop := (length a < 4096)%nat /\ Forall (fun c => 0 <= c < 256) a.

(** Where the strings go below [sp], in the page that ends at [top]. *)
Definition str_ptr (sp : Z) (a : list Z) : Z := (sp - (Z.of_nat (length a) + 1)) / 4 * 4.
Fixpoint place_args (top argc sp : Z) (argv : list (list Z)) : option (Z * list Z) :=
  match argv with
  | [] => Some (sp, [])
  | a :: argv =>
      if (MAXARG <=? argc) || (str_ptr sp a <? top - 4096) then None
      else r ← place_args top (argc + 1) (str_ptr sp a) argv; Some (r.1, str_ptr sp a :: r.2)
  end.
Definition place_stack (top : Z) (argv : list (list Z)) : option Z :=
  r ← place_args top 0 top argv;
  let sp := r.1 - 4 * (4 + Z.of_nat (length r.2)) in
  if sp <? top - 4096 then None else Some sp.

(** What [main] finds on its stack, below [top]: a return address, [argc] and
    [argv], and above them the strings. *)
Definition args_at (V : Z -> option Z) (sp top : Z) (argv : list (list Z)) : Prop :=
  exists addrs, Forall2 (fun a l => sp <= a /\ a + Z.of_nat (length l) < top /\ holds_str V a l) addrs argv /\
    sp + 4 * (4 + Z.of_nat (length argv)) <= top /\
    holds_words V sp ([0xffffffff; Z.of_nat (length argv); sp + 12] ++ addrs ++ [0]).

Lemma args_at_same (V V' : Z -> option Z) (sp top : Z) (argv : list (list Z)) :
  (forall x, sp <= x < top -> V' x = V x) -> args_at V sp top argv -> args_at V' sp top argv.
Proof.
  intros HV (addrs & HA & HT & HW). pose proof (Forall2_length _ _ _ HA) as HL. exists addrs. split_and!; [|done|].
  - eapply Forall2_impl; [exact HA|]. intros a l (H1 & H2 & H3). split_and!; try done. intros i Hi. rewrite HV by lia. by apply H3.
  - intros i w b Hw Hb. pose proof (lookup_lt_Some _ _ _ Hw) as Hi. rewrite !length_app in Hi. cbn in Hi. rewrite HV by lia. by apply HW.
Qed.

Lemma land_3 (x : Z) : 0 <= x < 4294967296 -> Z.land x (u32 (Z.lnot 3)) = x / 4 * 4.
Proof.
  intros Hx. change (u32 (Z.lnot 3)) with (Z.shiftl (Z.ones 30) 2).
  change 4 with (2 ^ 2) at 1 2. rewrite <- Z.shiftr_div_pow2, <- Z.shiftl_mul_pow2 by lia.
  apply Z.bits_inj'. intros n Hn. rewrite Z.land_spec, !Z.shiftl_spec by lia.
  destruct (Z.lt_ge_cases n 2); [by rewrite !(Z.testbit_neg_r _ (n - 2)), andb_false_r by lia|].
  rewrite Z.shiftr_spec by lia. replace (n - 2 + 2) with n by lia. destruct (Z.lt_ge_cases n 32).
  - by rewrite Z.ones_spec_low, andb_true_r by lia.
  - by rewrite Z.ones_spec_high, andb_false_r, testbit_u32_high by lia.
Qed.

Lemma nth_u8 (a : list Z) (i : Z) : str_ok a -> u8 (str_bytes a i) = nth (Z.to_nat i) a 0.
Proof.
  intros [_ H]. unfold str_bytes. apply Z.mod_small. destruct (Nat.lt_ge_cases (Z.to_nat i) (length a)).
  - apply (proj1 (List.Forall_forall _ _) H). by apply nth_In.
  - rewrite nth_overflow by lia. lia.
Qed.

Lemma place_below top argv : forall argc sp r, place_args top argc sp argv = Some r -> top - 4096 <= sp -> top - 4096 <= r.1 <= sp /\ length r.2 = length argv /\ (argv = [] \/ argc + Z.of_nat (length argv) <= 32).
Proof.
  induction argv as [|a argv IH]; intros argc sp r E H; cbn in E.
  { injection E as <-. cbn. split_and!; [lia..|done|by left]. }
  destruct ((MAXARG <=? argc) || (str_ptr sp a <? top - 4096)) eqn:EC; [done|]. apply orb_false_iff in EC as [E1 E2].
  destruct (place_args top (argc + 1) (str_ptr sp a) argv) as [r'|] eqn:ER; [|done]. injection E as <-.
  destruct (IH _ _ _ ER) as (I1 & I2 & I3); [lia|]. assert (str_ptr sp a <= sp) by (unfold str_ptr; zlia). unfold MAXARG in E1. cbn.
  split_and!; [lia..|by f_equal|right]. destruct I3 as [->|]; cbn; lia.
Qed.

Lemma place_addrs top argv : forall argc sp r, place_args top argc sp argv = Some r ->
  r.1 <= sp /\ Forall2 (fun a l => r.1 <= a /\ a + Z.of_nat (length l) < sp) r.2 argv.
Proof.
  induction argv as [|a argv IH]; intros argc sp r E; cbn in E.
  { injection E as <-. split; [cbn; lia|constructor]. }
  destruct ((MAXARG <=? argc) || (str_ptr sp a <? top - 4096)); [done|].
  destruct (place_args top (argc + 1) (str_ptr sp a) argv) as [r'|] eqn:ER; [|done]. injection E as <-. cbn.
  destruct (IH _ _ _ ER) as [I1 I2]. assert (str_ptr sp a + Z.of_nat (length a) < sp) as Hp by (unfold str_ptr; zlia).
  split; [lia|]. constructor; [lia|]. eapply Forall2_impl; [exact I2|]. cbn. intros x l. lia.
Qed.

Section Stack.
Context `{KI : KernelImage} `{KIO : !KernelImageOk}.
Context (A : avm) (p : Z).

(** Only the bytes [lo <= x < hi] of [p] changed. *)
Definition pushed (lo hi : Z) (s s' : vmst) : Prop :=
  (exists m, s' = set_mem m s) /\ vminv s' A /\ others A p s s' /\
  forall x, 0 <= x < KERNBASE -> ~ (lo <= x < hi) -> user_load (mem s') p x = user_load (mem s) p x.

Lemma pushed_trans lo mid hi s1 s2 s3 : lo <= mid <= hi -> pushed mid hi s1 s2 -> pushed lo mid s2 s3 -> pushed lo hi s1 s3.
Proof using.
  intros Hm ([m1 ->] & V1 & O1 & P1) ([m2 ->] & V2 & O2 & P2). split_and!; [by exists m2|done| |].
  - intros q x Hq Hne Hx. rewrite O2, O1 by done. done.
  - intros x Hx Hn. rewrite P2, P1 by lia. done.
Qed.

Context (top eg es : Z)
  (Hp : own A !! p = Some ODir) (Ht : 8192 <= top < KERNBASE) (Ha : top mod 4096 = 0)
  (Hg : maps A !! (p, vpn (top - 8192)) = Some eg) (HgU : Z.testbit eg 2 = false)
  (Hs : maps A !! (p, vpn (top - 4096)) = Some es) (HsW : mmu_allows es true = true).

(** A copy that starts in the page of the stack stays in it, one that starts in
    the guard page fails. *)
Lemma copy_stack s va len src : vminv s A -> top - 8192 <= va -> 0 < len -> va + len <= top ->
  wp (copyout (P2V p) va src len) (fun r s' =>
    if va <? top - 4096 then r = -1 /\ s' = s
    else r = 0 /\ pushed va (va + len) s s' /\ forall i, 0 <= i < len -> user_load (mem s') p (va + i) = Some (u8 (src i))) s.
Proof using Hp Ht Ha Hg HgU Hs HsW KIO.
  intros V Hva Hl He. change KERNBASE with 2147483648 in *. destruct (Z.ltb_spec va (top - 4096)) as [Hlt|Hge].
  - eapply wp_from_Ok; [|done]. apply (copyout_guard s A p va len eg); try done; [change KERNBASE with 2147483648; lia|].
    rewrite <- Hg. f_equal. f_equal. unfold vpn. zlia.
  - assert (Hes : maps A !! (p, vpn va) = Some es) by (rewrite <- Hs; f_equal; f_equal; unfold vpn; zlia).
    eapply wp_mono; [apply (copyout_page s A p va len es src); try done; [lia|change KERNBASE with 2147483648; lia|zlia]|].
    intros r s' (-> & HM & V' & HV). split; [done|]. split.
    + split_and!; [done|done|by eapply views_others|]. intros x Hx Hn. rewrite HV by done. unfold spec_writes. by rewrite decide_False by naive_solver.
    + intros i Hi. rewrite HV by (done || (change KERNBASE with 2147483648; lia)). unfold spec_writes. rewrite decide_True by lia. do 3 f_equal. lia.
Qed.

Lemma push_args_spec argv : forall s argc sp, vminv s A -> Forall str_ok argv -> top - 4096 <= sp <= top ->
  wp (push_args (P2V p) argc sp argv) (fun r s' => r = place_args top argc sp argv /\
    match r with
    | None => (exists m, s' = set_mem m s) /\ vminv s' A /\ others A p s s'
    | Some (sp', addrs) => pushed sp' sp s s' /\ Forall2 (holds_str (user_load (mem s') p)) addrs argv
    end) s.
Proof using Hp Ht Ha Hg HgU Hs HsW KIO.
  induction argv as [|a argv IH]; intros s argc sp V HA Hsp; cbn [push_args place_args].
  { apply wp_ret. split; [done|]. split; [|constructor]. split_and!; [by exists (mem s); destruct s|done|done|done]. }
  apply Forall_cons_1 in HA as [HA1 HA2]. change KERNBASE with 2147483648 in *.
  assert (Hlen : 0 <= Z.of_nat (length a) < 4096) by (destruct HA1; lia).
  assert (Hnone : (exists m, s = set_mem m s) /\ vminv s A /\ others A p s s) by (split_and!; [by exists (mem s); destruct s|done|done]).
  destruct (MAXARG <=? argc); cbn [orb]; [apply wp_ret; done|].
  rewrite (u32_id (sp - _)), land_3 by lia. fold (str_ptr sp a).
  assert (Hptr : top - 8192 <= str_ptr sp a /\ str_ptr sp a + (Z.of_nat (length a) + 1) <= sp) by (unfold str_ptr; zlia).
  wp_step. eapply wp_mono; [apply (copy_stack s (str_ptr sp a) (Z.of_nat (length a) + 1) (str_bytes a) V); lia|].
  intros r s1 H1. destruct (Z.ltb_spec (str_ptr sp a) (top - 4096)) as [Hlt|Hge].
  { destruct H1 as [-> ->]. cbn [Z.ltb Z.compare]. apply wp_ret. done. }
  destruct H1 as (-> & HP1 & HB1). cbn [Z.ltb Z.compare]. pose proof HP1 as ([m1 ->] & V1 & O1 & _).
  wp_step. eapply wp_mono; [apply (IH (set_mem m1 s) (argc + 1) (str_ptr sp a) V1 HA2); lia|].
  intros q s2 [-> H2]. destruct (place_args top (argc + 1) (str_ptr sp a) argv) as [[sp2 addrs]|] eqn:EP; cbn.
  - destruct H2 as [HP2 HF2]. apply wp_ret. split; [done|]. destruct (place_below _ _ _ _ _ EP Hge) as [Hb _]. cbn in Hb.
    assert (HP1' : pushed (str_ptr sp a) sp s (set_mem m1 s)).
    { destruct HP1 as (Q1 & Q2 & Q3 & Q4). split_and!; try done. intros x Hx Hn. apply Q4; [done|lia]. }
    split; [apply (pushed_trans sp2 (str_ptr sp a) sp s (set_mem m1 s)); [lia|done|done]|]. constructor; [|done]. intros i Hi. destruct HP2 as (_ & _ & _ & HN).
    rewrite HN by (change KERNBASE with 2147483648; lia). rewrite HB1 by lia. by rewrite nth_u8.
  - destruct H2 as ([m2 ->] & V2 & O2). apply wp_ret. split; [done|]. split_and!; [by exists m2|done|].
    intros q x Hq Hne Hx. rewrite O2, O1 by done. done.
Qed.

Lemma push_stack_spec argv s : vminv s A -> Forall str_ok argv ->
  wp (push_stack (P2V p) top argv) (fun r s' => r = place_stack top argv /\
    match r with
    | None => (exists m, s' = set_mem m s) /\ vminv s' A /\ others A p s s'
    | Some sp => top - 4096 <= sp <= top /\ pushed sp top s s' /\ args_at (user_load (mem s') p) sp top argv
    end) s.
Proof using Hp Ht Ha Hg HgU Hs HsW KIO.
  intros V HA. unfold push_stack, place_stack. wp_step. eapply wp_mono; [apply (push_args_spec argv s 0 top V HA); lia|].
  intros r s1 [-> H1]. destruct (place_args top 0 top argv) as [[sp addrs]|] eqn:EP; cbn [mbind option_bind fst snd]; [|by apply wp_ret].
  destruct (place_below _ _ _ _ _ EP ltac:(lia)) as (Hb & Hlen & Hmax). cbn [fst snd] in *. destruct H1 as [HP1 HF1].
  pose proof HP1 as ([m1 ->] & V1 & O1 & _). change KERNBASE with 2147483648 in *.
  assert (Hn : 0 <= Z.of_nat (length addrs) <= 32) by (rewrite Hlen; destruct Hmax as [->|]; cbn; lia).
  set (n := Z.of_nat (length addrs)) in *. set (ws := [_; _; _] ++ addrs ++ [0]).
  rewrite (u32_id (sp - (3 + n + 1) * 4)) by lia. replace (sp - (3 + n + 1) * 4) with (sp - 4 * (4 + n)) by lia.
  wp_step. eapply wp_mono; [apply (copy_stack (set_mem m1 s) (sp - 4 * (4 + n)) ((3 + n + 1) * 4) (word_bytes ws) V1); lia|].
  intros r s2 H2. destruct (Z.ltb_spec (sp - 4 * (4 + n)) (top - 4096)) as [Hlt|Hge].
  { destruct H2 as [-> ->]. cbn [Z.ltb Z.compare]. apply wp_ret. split; [done|]. split_and!; [by exists m1|done|done]. }
  destruct H2 as (-> & HP2 & HB2). cbn [Z.ltb Z.compare]. apply wp_ret. split; [done|].
  replace (sp - 4 * (4 + n) + (3 + n + 1) * 4) with sp in HP2 by lia. split_and!; [lia|lia|apply (pushed_trans (sp - 4 * (4 + n)) sp top s (set_mem m1 s)); [lia|done|done]|].
  exists addrs. split_and!; [|rewrite <- Hlen; subst n; lia|].
  - destruct HP2 as (_ & _ & _ & HN). destruct (place_addrs _ _ _ _ _ EP) as [_ HAd]. cbn [fst snd] in HAd.
    assert (HN' : forall x, 0 <= x < KERNBASE -> sp <= x -> user_load (mem s2) p x = user_load (mem (set_mem m1 s)) p x) by (intros x Hx1 Hx2; apply HN; lia).
    assert (Hn0 : sp - 4 * (4 + n) <= sp) by lia. remember (sp - 4 * (4 + n)) as sp0 eqn:E0.
    clear - HF1 HN' HAd Hb Ht Hn0. revert HAd. induction HF1 as [|a l addrs argv Hl _ IH]; intros HAd; [constructor|].
    apply Forall2_cons_1 in HAd as [Hd HAd]. constructor; [|by apply IH]. split_and!; [lia|lia|]. intros i Hi. rewrite HN' by (change KERNBASE with 2147483648; lia). by apply Hl.
  - intros i w b Hw Hb4. pose proof (lookup_lt_Some _ _ _ Hw) as Hi. rewrite length_app, length_app in Hi. cbn [length] in Hi.
    rewrite <- Z.add_assoc, HB2 by (subst n; lia). unfold word_bytes.
    replace ((4 * Z.of_nat i + b) / 4) with (Z.of_nat i) by zlia. replace ((4 * Z.of_nat i + b) mod 4) with b by zlia.
    rewrite Nat2Z.id. assert (nth i ws 0 = w) as ->.
    { apply nth_lookup_Some. rewrite <- Hw. subst ws. rewrite (u32_id (sp - (n + 1) * 4)) by lia.
      replace (sp - (n + 1) * 4) with (sp - 4 * (4 + n) + 12) by lia. subst n. by rewrite Hlen. }
    f_equal. unfold u8. by rewrite Z.mod_mod by lia.
Qed.
End Stack.


(** * A new address space beside the others

    While [exec] fills its new address space, every other one keeps its extent
    and its contents, and freeing the new one gives back everything. *)

Section ExecMem.
Context `{KI : KernelImage} `{KIO : !KernelImageOk}.

Lemma vm_only_kpg s s' : vm_only s s' -> kpgdir s' = kpgdir s.
Proof. intros H. by apply vm_frame_kpgdir, vm_only_frame. Qed.

(** [A'], [s'] have the new directory [d] beside what [A], [s] have. *)
Record beside (d : Z) (s s' : vmst) (A A' : avm) : Prop := mkbeside {
  bs_free : own A !! d = Some OFree;
  bs_dir : own A' !! d = Some ODir;
  bs_inv : vminv s' A';
  bs_kpg : kpgdir s' = kpgdir s;
  bs_own : forall x r, own A !! x = Some r -> r = ODir \/ r = OKern -> own A' !! x = Some r;
  bs_sized : forall q n, own A !! q = Some ODir -> sized A q n -> sized A' q n;
  bs_dirs : dirs A' = {[ d ]} ∪ dirs A;
  bs_views : same_views A s s';
}.

Lemma beside_new s s' A A' d :
  vminv s A -> vminv s' A' -> vm_only s s' -> newdir d A A' -> same_views A s s' -> beside d s s' A A'.
Proof.
  intros V V' P N HV. pose proof N as [N1 N2 N3 N4 N5]. split; try done.
  - by apply vm_only_kpg.
  - intros x r Hx Hr. destruct (decide (x = d)) as [->|Hne]; [rewrite N1 in Hx; by destruct Hr; simplify_eq|].
    destruct (N3 x Hne) as [->|[E _]]; [done|]. rewrite E in Hx. by destruct Hr; simplify_eq.
  - intros q n Hq S. eapply sized_same; [done|]. intros v Hv. rewrite N5. by rewrite decide_False by congruence.
  - apply set_eq. intros x. rewrite elem_of_union, elem_of_singleton, !elem_of_dirs.
    destruct (decide (x = d)) as [->|Hx]; [naive_solver|]. destruct (N3 x Hx) as [->|(E & i & E')]; [naive_solver|]. rewrite E, E'. naive_solver.
Qed.

Lemma beside_filling d s s1 s2 A A1 A2 :
  beside d s s1 A A1 -> vminv s2 A2 -> filling d s1 s2 A1 A2 -> beside d s s2 A A2.
Proof.
  intros [B1 B2 B3 B4 B5 B6 B7 B8] V2 [O [R1 R2 R3] HO]. split; try done.
  - apply R1; auto.
  - rewrite (vm_only_kpg _ _ O). done.
  - eauto.
  - intros q n Hq S. apply R2; [congruence|by apply B6].
  - by rewrite R3.
  - intros q x Hq Hx. rewrite HO; [by apply B8|by apply B5; auto|congruence|done].
Qed.

Lemma beside_guarded d v s s1 s2 A A1 A2 :
  beside d s s1 A A1 -> vminv s2 A2 -> guarded d v s1 s2 A1 A2 -> beside d s s2 A A2.
Proof.
  intros [B1 B2 B3 B4 B5 B6 B7 B8] V2 [G1 G2 G3 G4 G5 G6]. split; rewrite ?G2; try done.
  - rewrite (vm_only_kpg _ _ G1). done.
  - intros q n Hq S. eapply sized_same; [by apply B6|]. intros w Hw. rewrite G4; [done|]. intros [= -> _]. congruence.
  - rewrite <- B7. apply set_eq. intros x. by rewrite !elem_of_dirs, G2.
  - intros q x Hq Hx. rewrite G6 by (done || by apply B5; auto). rewrite decide_False; [by apply B8|]. intros [-> _]. congruence.
Qed.

(** The task state and the page-table register do not matter. *)
Lemma beside_mem d s s1 s2 A A1 :
  beside d s s1 A A1 -> vminv s2 A1 -> mem s2 = mem s1 -> kpgdir s2 = kpgdir s1 -> beside d s s2 A A1.
Proof.
  intros [B1 B2 B3 B4 B5 B6 B7 B8] V EM EK. split; try done; [congruence|]. intros q x Hq Hx. rewrite EM. by apply B8.
Qed.

(** The new directory freed again. *)
Lemma beside_undo d s s1 A A1 :
  beside d s s1 A A1 ->
  wp (freevm (P2V d)) (fun _ s' => exists A', vminv s' A' /\ kpgdir s' = kpgdir s /\ keeps A A' /\ dirs A' = dirs A /\ same_views A s s') s1.
Proof.
  intros [B1 B2 B3 B4 B5 B6 B7 B8]. eapply wp_mono; [by apply (freevm_client s1 A1 d)|].
  intros _ s' (A' & V' & P & F1 & F2 & F3 & F4 & _ & F5). exists A'.
  assert (Hne : forall x r, own A !! x = Some r -> r = ODir \/ r = OKern -> x <> d) by (intros x r Hx Hr ->; rewrite B1 in Hx; destruct Hr; simplify_eq).
  split_and!; [done|by rewrite (vm_only_kpg _ _ P)| | |].
  - split.
    + intros x r Hx Hr. apply F3; eauto.
    + intros q n Hq S. apply F4; eauto.
  - rewrite F2, B7. apply set_eq. intros x. rewrite elem_of_difference, elem_of_union, elem_of_singleton, elem_of_dirs.
    split; [naive_solver|]. intros Hx. split; [by right|]. by apply (Hne x ODir); auto.
  - intros q x Hq Hx. rewrite F5; [by apply B8|by apply B5; auto|by apply (Hne q ODir); auto|done].
Qed.

(** The old directory [o] freed instead. *)
Lemma beside_commit d o s s1 A A1 :
  beside d s s1 A A1 -> own A !! o = Some ODir ->
  wp (freevm (P2V o)) (fun _ s' => exists A', vminv s' A' /\ kpgdir s' = kpgdir s /\ cr3 s' = cr3 s1 /\ own A' !! o = Some OFree /\ own A' !! d = Some ODir /\
    dirs A' = {[ d ]} ∪ dirs A ∖ {[ o ]} /\
    (forall x r, own A !! x = Some r -> r = ODir \/ r = OKern -> x <> o -> own A' !! x = Some r) /\
    (forall q n, own A !! q = Some ODir -> q <> o -> sized A q n -> sized A' q n) /\ (forall n, sized A1 d n -> sized A' d n) /\
    (forall q x, own A !! q = Some ODir -> q <> o -> 0 <= x < KERNBASE -> user_load (mem s') q x = user_load (mem s) q x) /\
    (forall x, 0 <= x < KERNBASE -> user_load (mem s') d x = user_load (mem s1) d x)) s1.
Proof.
  intros [B1 B2 B3 B4 B5 B6 B7 B8] Ho. assert (Hdo : d <> o) by congruence. assert (Ho1 : own A1 !! o = Some ODir) by (apply B5; auto).
  eapply wp_mono; [by apply (freevm_client s1 A1 o)|].
  intros _ s' (A' & V' & P & F1 & F2 & F3 & F4 & _ & F5). exists A'. split_and!; try done.
  - by rewrite (vm_only_kpg _ _ P).
  - rewrite (P : phys_only _ _). by destruct s1.
  - apply F3; auto.
  - rewrite F2, B7. apply set_eq. intros x. rewrite elem_of_union, !elem_of_difference, elem_of_union, !elem_of_singleton. naive_solver.
  - intros x r Hx Hr Hne. apply F3; auto.
  - intros q n Hq Hne S. apply F4; auto.
  - intros n S. apply F4; auto.
  - intros q x Hq Hne Hx. rewrite F5; auto.
  - intros x Hx. apply F5; auto.
Qed.

Lemma newdir_space s A A' d : newdir d A A' -> space A' s d 0 (fun _ => 0).
Proof.
  intros [N1 N2 N3 N4 N5]. destruct kmap_ok as [Kw _]. split; [done| |intros v Hv; unfold pages in Hv; zlia|intros x Hx; unfold pages in Hx; zlia|done].
  split; [zlia|intros v Hv; zlia|]. intros v Hv. rewrite N5, decide_True by done. destruct (kent kmap v) eqn:E; [|done].
  pose proof (kent_range kmap v _ Kw E). lia.
Qed.

(** An image takes whole pages. *)
Lemma space_round A s p sz img : 0 <= sz < KERNBASE -> space A s p sz img -> space A s p (4096 * pages sz) img.
Proof.
  intros Hs [S1 [Z1 Z2 Z3] S3 S4 S5]. assert (E : pages (4096 * pages sz) = pages sz) by (unfold pages; zlia).
  split; rewrite ?E; try done. unfold pages in *. split; [zlia|rewrite E; done|rewrite E; done].
Qed.
End ExecMem.
