(* ===== verification/ExecProc.v ===== *)
(** * ExecProc: [exec] and the process table

    What [exec] relies on of the file system, what its outcomes are, and that
    both of them keep the invariant of the system. *)
From stdpp Require Import base gmap list numbers strings.
From Stdlib Require Import ZArith Lia ZifyBool.
From S2P Require Import Prelude Machine Cstring Kalloc Vm Frames Tables Cow Dealloc Kvm Fork Fault Spaces Alloc Ptable Proc Pages ProcInv ProcOps ProcLife ProcExit Exec ExecVm ExecLoad.

(** [file_at s path] is the file that [path] names in state [s]: what [readi]
    gives for it.  References are counted as in [FileLaws]. *)
Class ExecLaws (F : Type) `{FileOps F} `{FileRefs F} `{ExecFiles F} := {
  file_at : F -> string -> option (Z -> Z -> Z * (Z -> Z));
  begin_op_files : forall s, fsops s = 0%nat -> wp begin_op (fun _ s' => forall path, file_at s' path = file_at s path) s;
  namei_law : forall s path, fsops s = 1%nat ->
    wp (namei path) (fun r s' =>
      match file_at s path with
      | None => r = 0 /\ refs_are s' (frefs s) (irefs s) 1
      | Some rd => r <> 0 /\ refs_are s' (frefs s) (add1 r (irefs s)) 1 /\ readi s' r = rd
      end) s;
  ilock_law : forall s i, (0 < irefs s i)%nat ->
    wp (ilock i) (fun _ s' => refs_are s' (frefs s) (irefs s) (fsops s) /\ readi s' i = readi s i) s;
  iunlockput_law : forall s i, (0 < irefs s i)%nat -> fsops s = 1%nat ->
    wp (iunlockput i) (fun _ s' => refs_are s' (frefs s) (sub1 i (irefs s)) 1) s;
  readi_bytes : forall s i, bytes_ok (readi s i);
}.

(** ** The program that a file stands for *)

Record program := mkprogram { pr_entry : Z; pr_image : image; pr_sp : Z }.
Definition pr_top (im : image) : Z := 4096 * pages im.1 + 8192.

(** The program of an image with its arguments. *)
Definition with_args (elf : elfhdr) (im : image) (argv : list (list Z)) : option program :=
  if KERNBASE <=? pr_top im then None else sp ← place_stack (pr_top im) argv; Some (mkprogram (e_entry elf) im sp).

(** [None] when [exec] must fail: no executable, no space for its stack below
    the kernel, or arguments that do not fit into a page. *)
Definition program_of (rd : Z -> Z -> Z * (Z -> Z)) (argv : list (list Z)) : option program :=
  let '(r, b) := rd 0 ELFSIZE in
  if negb (r =? ELFSIZE) then None
  else if negb (e_magic (dec_elf b) =? ELF_MAGIC) then None
  else
    im ← add_segments rd (Z.to_nat (e_phnum (dec_elf b))) (e_phoff (dec_elf b)) (0, fun _ => 0);
    with_args (dec_elf b) im argv.

(** No segment of the file that is below the kernel ends above [lim]. *)
Definition file_fits (rd : Z -> Z -> Z * (Z -> Z)) (lim : Z) : Prop :=
  let elf := dec_elf (rd 0 ELFSIZE).2 in fits rd (Z.to_nat (e_phnum elf)) (e_phoff elf) lim.

(** The scheduling parameters that [exec] sets before it looks for the file. *)
Definition retune (n : Z) (ps : list proc) : list proc :=
  find_and_set_burst_time 0 n (find_and_set_lottery_ticket 500 n (find_and_set_sched_queue LOTTERY n ps)).

(** The process with its new program. *)
Definition renewed (path : string) (d : Z) (pr : program) (p : proc) : proc :=
  set_tf (set_esp (pr_sp pr) (set_eip (pr_entry pr) (tf p)))
    (set_sz (pr_top (pr_image pr)) (set_pgdir (P2V d) (set_name (name16 (last_name path path)) p))).

Lemma Forall2_calm_trans ps1 ps2 ps3 : Forall2 calm ps1 ps2 -> Forall2 calm ps2 ps3 -> Forall2 calm ps1 ps3.
Proof.
  intros H1 H2. apply Forall2_same_length_lookup_2; [by rewrite (Forall2_length _ _ _ H1), (Forall2_length _ _ _ H2)|].
  intros i p r Hp Hr. destruct (Forall2_lookup_l _ _ _ _ _ H1 Hp) as (q & Hq & C1). destruct (Forall2_lookup_l _ _ _ _ _ H2 Hq) as (r' & Hr' & C2).
  simplify_eq. by eapply calm_trans.
Qed.

Lemma retune_calm n ps : Forall2 calm ps (retune n ps).
Proof.
  unfold retune, find_and_set_burst_time, find_and_set_lottery_ticket, find_and_set_sched_queue.
  eapply Forall2_calm_trans; [eapply Forall2_calm_trans|]; apply calm_update_pid; intros p; by destruct p.
Qed.

Section ExecProc.
Context `{KI : KernelImage} `{KIO : !KernelImageOk} `{PT : ProcTable} {F : Type}
  `{FO : FileOps F} `{FR : !FileRefs F} `{EF : ExecFiles F}.
Implicit Types (k : kst F) (A : avm).

(** The state after [exec]: memory, table and files. *)
Definition after (s : vmst) (ps : list proc) (f : F) (k : kst F) : kst F := set_files f (set_vm s (set_procs ps k)).

(** What the reference counts see of a process. *)
Definition holds_same (p q : proc) : Prop :=
  ofile q = ofile p /\ cwd q = cwd p /\ (has_vm q <-> has_vm p) /\ (state p = ZOMBIE <-> state q = ZOMBIE).

Lemma calm_holds p q : calm p q -> holds_same p q.
Proof using. intros ((_ & _ & _ & _ & _ & HV & EO & HZ' & _) & EC & HZ). by split_and!. Qed.

(** A table in which no reference moved, over files with the same counts. *)
Lemma finv_again k k' :
  finv k -> refs_are (files k') (frefs (files k)) (irefs (files k)) 0 -> length (procs k') = length (procs k) ->
  (forall i p p', procs k !! i = Some p -> procs k' !! i = Some p' -> holds_same p p') -> finv k'.
Proof using.
  intros FI (R1 & R2 & R3) HL HF. assert (FI1 : finv (set_files (files k) k')) by (by apply (finv_same k)).
  destruct FI1 as [F1 F2 F3 F4 F5]. split; [| |done|done|done].
  - intros f Hf. rewrite R1. by apply F1.
  - intros f Hf. rewrite R2. by apply F2.
Qed.

Lemma pinv_files f k A : pinv k A -> pinv (set_files f k) A.
Proof using. intros PI. apply (pinv_same_res k _ A PI); [done|done|apply Forall2_same_res_refl]. Qed.

Lemma pinv_retune k A ps : pinv k A -> Forall2 calm (procs k) ps -> pinv (set_procs ps k) A.
Proof using. intros PI HF. apply (pinv_same_res k _ A PI); [done|done|]. eapply Forall2_impl; [exact HF|]. intros p q H. apply H. Qed.

(** ** Failure *)

Definition exec_failed k A (p : proc) (k' : kst F) : Prop :=
  exists A' s' f', k' = after s' (retune (pid p) (procs k)) f' k /\ sysinv k' A' /\ same_views A (vm k) s'.

Lemma failed_ok k A p A' s' f' :
  sysinv k A -> procs k !! cur k = Some p -> vminv s' A' -> kpgdir s' = kpgdir (vm k) -> keeps A A' -> dirs A' = dirs A ->
  same_views A (vm k) s' -> refs_are f' (frefs (files k)) (irefs (files k)) 0 ->
  exec_failed k A p (after s' (retune (pid p) (procs k)) f' k).
Proof using KIO.
  intros [PI FI] Hp V' EK HKp HD HV HR. exists A', s', f'. split_and!; [done|split|done].
  - apply pinv_files. change (set_vm s' (set_procs ?ps k)) with (set_procs ps (set_vm s' k)). apply pinv_retune; [|apply retune_calm].
    apply (pinv_slot_keeps k (set_vm s' k) A A' (cur k) p p); try done; cbn; [by rewrite list_insert_id| |].
    + eapply slot_keeps; [by apply (pi_slot _ _ PI (cur k))|done|lia].
    + intros j q Hj Hq. by apply (pi_apart _ _ PI (cur k) j).
  - apply (finv_again k); [done|done|symmetry; eapply Forall2_length, retune_calm|]. intros i q q' Hq Hq'. apply calm_holds.
    exact (Forall2_lookup_lr _ _ _ _ _ _ (retune_calm _ _) Hq Hq').
Qed.

(** ** Success *)

Definition exec_done k A (p : proc) (path : string) (argv : list (list Z)) (pr : program) (k' : kst F) : Prop :=
  exists A' s' f' d o p1, let top := pr_top (pr_image pr) in
    k' = after s' (<[cur k := renewed path d pr p1]> (retune (pid p) (procs k))) f' k /\ sysinv k' A' /\
    retune (pid p) (procs k) !! cur k = Some p1 /\ pgdir p = P2V o /\ own A !! d = Some OFree /\ own A' !! o = Some OFree /\ cr3 s' = d /\
    (forall x, 0 <= x < top - 8192 -> user_load (mem s') d x = Some ((pr_image pr).2 x)) /\
    (forall x, top - 8192 <= x < top - 4096 -> user_load (mem s') d x = None) /\
    args_at (user_load (mem s') d) (pr_sp pr) top argv /\
    (forall q x, own A !! q = Some ODir -> q <> o -> 0 <= x < KERNBASE -> user_load (mem s') q x = user_load (mem (vm k)) q x).

Lemma owned_inj s A x y r r' : vminv s A -> own A !! x = Some r -> own A !! y = Some r' -> P2V x = P2V y -> x = y.
Proof using KIO.
  intros V Hx Hy E. pose proof (tb_pages _ _ _ (rp_tbl _ _ (vi_rep _ _ V))) as HP.
  rewrite <- (V2P_P2V_page x), <- (V2P_P2V_page y) by eauto. by rewrite E.
Qed.

(** The new address space in place of the old one. *)
Record replaced (d o top : Z) (s s' : vmst) (A A' : avm) : Prop := mkreplaced {
  rl_free : own A !! d = Some OFree;
  rl_inv : vminv s' A';
  rl_kpg : kpgdir s' = kpgdir s;
  rl_dir : own A' !! d = Some ODir;
  rl_dirs : dirs A' = {[ d ]} ∪ dirs A ∖ {[ o ]};
  rl_own : forall x r, own A !! x = Some r -> r = ODir \/ r = OKern -> x <> o -> own A' !! x = Some r;
  rl_sized : forall q n, own A !! q = Some ODir -> q <> o -> sized A q n -> sized A' q n;
  rl_top : sized A' d top;
}.

Lemma replaced_slot next kpg d o top s s' A A' q :
  replaced d o top s s' A A' -> own A !! o = Some ODir -> slot_ok next kpg A q -> (has_vm q -> pgdir q <> P2V o) -> slot_ok next kpg A' q.
Proof using.
  intros [R1 R2 R3 R4 R5 R6 R7 R8] Ho [S1 S2 S3 S4 S5 S6] Hn. split; [|done| |done|done|done].
  - intros Hq. destruct (S1 Hq) as (f & E & Hf). exists f. split; [done|]. apply R6; auto. congruence.
  - intros Hq. destruct (S3 Hq) as (x & E & Hx & Hs & Hk). exists x. assert (x <> o) by (intros ->; by apply (Hn Hq)). split_and!; auto.
Qed.

Lemma renewed_slot next kpg path pr d o s s' A A' p x :
  vminv s A -> replaced d o (pr_top (pr_image pr)) s s' A A' -> own A !! o = Some ODir -> slot_ok next kpg A p -> kpg = P2V x -> own A !! x = Some ODir ->
  slot_ok next kpg A' (renewed path d pr p).
Proof using KIO.
  intros V [R1 R2 R3 R4 R5 R6 R7 R8] Ho [S1 S2 S3 S4 S5 S6] -> Hx. split; cbn; [|done| |done|done|done].
  - intros Hq. destruct (S1 Hq) as (f & E & Hf). exists f. split; [done|]. apply R6; auto. congruence.
  - intros _. exists d. split_and!; try done. intros E%(owned_inj s A d x _ _ V R1 Hx). congruence.
Qed.

Lemma pinv_replaced k A s' A' path pr d o p :
  pinv k A -> procs k !! cur k = Some p -> has_vm p -> pgdir p = P2V o -> own A !! o = Some ODir ->
  replaced d o (pr_top (pr_image pr)) (vm k) s' A A' ->
  pinv (set_vm s' (set_procs (<[cur k := renewed path d pr p]> (procs k)) k)) A'.
Proof using KIO.
  intros PI Hp Hv Eo Ho RL. pose proof RL as [R1 R2 R3 R4 R5 R6 R7 R8].
  destruct (pi_kpg _ _ PI) as (x & Ex & Hx). pose proof (pi_slot _ _ PI _ _ Hp) as SP.
  assert (Hxo : x <> o). { intros ->. destruct (so_dir _ _ _ _ SP Hv) as (? & _ & _ & _ & Hk). congruence. }
  pose proof (lookup_lt_Some _ _ _ Hp) as Hi. rewrite (pi_len _ _ PI) in Hi.
  assert (HA : forall j q, j <> cur k -> procs k !! j = Some q -> apart p q) by (intros j q Hj Hq; by apply (pi_apart _ _ PI (cur k) j)).
  eapply (pinv_slot k _ A A' (cur k) (renewed path d pr p)); cbn [vm set_vm nextpid procs set_procs]; rewrite ?R3; try done; [|apply PI|..].
  - exists x. rewrite R3. split; [done|]. apply R6; auto.
  - eapply renewed_slot; [apply PI|done..].
  - intros j q Hj Hq. pose proof (pi_slot _ _ PI _ _ Hq) as Sq. destruct (HA j q Hj Hq) as [HA1 HA2]. split.
    + eapply replaced_slot; eauto. intros Hvq E. by apply (HA2 Hv Hvq); rewrite Eo, E.
    + split; [exact HA1|]. intros _ Hvq. destruct (so_dir _ _ _ _ Sq Hvq) as (y & E & Hy & _). cbn. rewrite E.
      intros E'%(owned_inj (vm k) A d y _ _ (pi_vm _ _ PI) R1 Hy). congruence.
  - intros y Hy. apply elem_of_dirs in Hy. rewrite R5, elem_of_union, elem_of_difference, !elem_of_singleton, elem_of_dirs in Hy.
    destruct Hy as [->|[Hy Hne]]; [by right; left; split|]. destruct (pi_dirs _ _ PI y Hy) as [E|(i & q & Hq & Hvq & E)]; [by left|].
    right; right. exists i, q. split_and!; try done. intros ->. assert (q = p) as -> by congruence.
    apply Hne, (owned_inj (vm k) A y o _ _ (pi_vm _ _ PI) Hy Ho). congruence.
Qed.

Lemma done_ok k A p p1 path pr d o s' A' f' :
  sysinv k A -> procs k !! cur k = Some p -> has_vm p -> pgdir p = P2V o -> own A !! o = Some ODir ->
  retune (pid p) (procs k) !! cur k = Some p1 -> replaced d o (pr_top (pr_image pr)) (vm k) s' A A' ->
  refs_are f' (frefs (files k)) (irefs (files k)) 0 ->
  sysinv (after s' (<[cur k := renewed path d pr p1]> (retune (pid p) (procs k))) f' k) A'.
Proof using KIO.
  intros [PI FI] Hp Hv Eo Ho Hp1 RL HR. pose proof (retune_calm (pid p) (procs k)) as HC.
  pose proof (Forall2_lookup_lr _ _ _ _ _ _ HC Hp Hp1) as C1. pose proof (calm_holds _ _ C1) as H1. split.
  - apply pinv_files. pose proof (pinv_retune k A _ PI HC) as PI1.
    apply (pinv_replaced (set_procs (retune (pid p) (procs k)) k) A s' A' path pr d o p1 PI1); try done.
    + by apply H1.
    + rewrite <- Eo. apply C1.
  - apply (finv_again k); [done|done|cbn; rewrite length_insert; symmetry; by eapply Forall2_length|]. cbn. intros i q q' Hq Hq'.
    apply list_lookup_insert_Some in Hq' as [(<- & <- & _)|[_ Hq']]; [|apply calm_holds; exact (Forall2_lookup_lr _ _ _ _ _ _ HC Hq Hq')].
    assert (q = p) as -> by congruence. exact H1.
Qed.
End ExecProc.
