(* ===== verification/ExecThms.v ===== *)
(** * ExecThms: [exec] replaces the program or changes nothing *)
From stdpp Require Import base gmap list numbers strings.
From Stdlib Require Import ZArith Lia ZifyBool.
From S2P Require Import Prelude Machine Cstring Kalloc Vm Frames Tables Cow Dealloc Kvm Fork Fault Spaces Alloc Ptable Proc Pages ProcInv ProcOps ProcLife ProcExit ProcSys ProcThms Exec ExecVm ExecLoad ExecProc.

Section ExecThms.
Context `{KI : KernelImage} `{KIO : !KernelImageOk} `{PT : ProcTable} {F : Type}
  `{FO : FileOps F} `{FR : !FileRefs F} `{FL : !FileLaws F} `{EF : ExecFiles F} `{EL : !ExecLaws F}.
Implicit Types (k : kst F) (A : avm).

Lemma wp_onfiles {B} (c : M F B) (Q : B -> kst F -> Prop) k :
  wp c (fun b f => Q b (set_files f k)) (files k) -> wp (onfiles c) Q k.
Proof using. apply wp_zoom. Qed.

(** ** What is held while [exec] runs *)

(** The files: the file [ip] is held inside a transaction, or nothing is. *)
Definition holding k (ip : Z) (f : F) : Prop :=
  if ip =? 0 then refs_are f (frefs (files k)) (irefs (files k)) 0
  else refs_are f (frefs (files k)) (add1 ip (irefs (files k))) 1.

(** The memory: there is a new directory [pg], or nothing has changed. *)
Definition building k A (pg : Z) (s : vmst) : Prop :=
  if pg =? 0 then exists A', vminv s A' /\ kpgdir s = kpgdir (vm k) /\ keeps A A' /\ dirs A' = dirs A /\ same_views A (vm k) s
  else exists d A', pg = P2V d /\ beside d (vm k) s A A'.

Lemma building_new k A d s A' : beside d (vm k) s A A' -> building k A (P2V d) s.
Proof using KIO.
  intros B. unfold building. rewrite (proj2 (Z.eqb_neq _ _)); [by exists d, A'|].
  apply P2V_page_nonzero. eapply (tb_pages _ _ _ (rp_tbl _ _ (vi_rep _ _ (bs_inv _ _ _ _ _ B)))), B.
Qed.

Lemma building_nothing k A : vminv (vm k) A -> building k A 0 (vm k).
Proof using. intros V. exists A. by split_and!. Qed.

(** Giving up the file. *)
Lemma release_spec k ip (f : F) :
  ip <> 0 -> holding k ip f -> wp (iunlockput ip) (fun _ f1 => wp end_op (fun _ f2 => holding k 0 f2) f1) f.
Proof using EL FL.
  intros Hip HR. unfold holding in HR. rewrite (proj2 (Z.eqb_neq _ _) Hip) in HR. destruct HR as (R1 & R2 & R3).
  eapply wp_mono; [apply iunlockput_law; [|done]|].
  { rewrite R2. unfold add1. rewrite Z.eqb_refl. lia. }
  intros _ f1 (S1 & S2 & S3). eapply wp_mono; [by apply end_op_law|]. intros [] f2 (T1 & T2 & T3). split_and!; [intros x..|done].
  - by rewrite T1, S1, R1.
  - rewrite T2, S2. unfold sub1. rewrite R2. unfold add1. by destruct (x =? ip).
Qed.

Lemma exec_bad_spec k A p pg ip s f :
  sysinv k A -> procs k !! cur k = Some p -> building k A pg s -> holding k ip f ->
  wp (exec_bad pg ip) (fun r k' => r = -1 /\ exec_failed k A p k') (after s (retune (pid p) (procs k)) f k).
Proof using EL FL KIO.
  intros SI Hp HB HH. unfold exec_bad. wp_step.
  assert (HW : forall s1, building k A 0 s1 -> wp (when (negb (ip =? 0)) (onfiles (iunlockput ip) ;;; onfiles end_op) ;;; ret (-1))
    (fun r k' => r = -1 /\ exec_failed k A p k') (after s1 (retune (pid p) (procs k)) f k)).
  { intros s1 (A1 & V1 & K1 & K2 & K3 & K4). wp_step. destruct (Z.eqb_spec ip 0) as [->|Hip]; cbn [negb when].
    - apply wp_ret, wp_ret. split; [done|]. by apply (failed_ok k A p A1).
    - wp_step. apply wp_onfiles. eapply wp_mono; [by apply (release_spec k)|]. intros [] f1 H1. apply wp_onfiles.
      eapply wp_mono; [exact H1|]. intros [] f2 H2. apply wp_ret. split; [done|]. by apply (failed_ok k A p A1). }
  unfold building in HB. destruct (pg =? 0); cbn [negb when]; [by apply wp_ret, HW|].
  destruct HB as (d & A1 & -> & B). apply wp_onvm. eapply wp_mono; [by apply (beside_undo d (vm k) s A A1)|].
  intros [] s2 H2. by apply HW.
Qed.

(** ** The stack *)

(** The new address space with a guard page below the page of the stack. *)
Record framed (d top : Z) (img : Z -> Z) (s : vmst) (A : avm) : Prop := mkframed {
  fr_sized : sized A d top;
  fr_image : forall x, 0 <= x < top - 8192 -> user_load (mem s) d x = Some (img x);
  fr_guard : forall x, top - 8192 <= x < top - 4096 -> user_load (mem s) d x = None;
}.

(** The entries of the last two pages. *)
Definition stack_pages (A : avm) (d top : Z) : Prop := exists eg es,
  maps A !! (d, vpn (top - 8192)) = Some eg /\ Z.testbit eg 2 = false /\
  maps A !! (d, vpn (top - 4096)) = Some es /\ mmu_allows es true = true.

Lemma alloc_stack s0 A0 s A d sz img :
  beside d s0 s A0 A -> space A s d sz img -> 0 <= sz -> pr_top (sz, img) < KERNBASE -> room A 4 ->
  wp (allocuvm (P2V d) (PGROUNDUP sz) (u32 (PGROUNDUP sz + 2 * PGSIZE))) (fun r s' => r = pr_top (sz, img) /\
    exists A', beside d s0 s' A0 A' /\ space A' s' d (pr_top (sz, img)) img) s.
Proof using KIO.
  intros B SP Hs Ht HR. pose proof (bs_inv _ _ _ _ _ B) as V. unfold pr_top in *. cbn [fst] in *. change KERNBASE with 2147483648 in *.
  assert (Hsz : 0 <= sz < 2147483648 - 8192) by (unfold pages in Ht; zlia).
  assert (ER : PGROUNDUP sz = 4096 * pages sz) by (rewrite PGROUNDUP_eq by lia; unfold pages; zlia).
  assert (Hpg : 0 <= pages sz) by (unfold pages; zlia). rewrite ER. rewrite u32_id by (unfold PGSIZE; lia). unfold PGSIZE. change (2 * 4096) with 8192.
  assert (EP : pages (4096 * pages sz + 8192) - pages (4096 * pages sz) = 2) by (unfold pages; zlia).
  eapply wp_mono; [apply (grow_space s A d (4096 * pages sz) (4096 * pages sz + 8192) img V); [|unfold pages; zlia|done|by rewrite EP]|].
  { apply space_round; [|done]. change KERNBASE with 2147483648. lia. }
  intros r s' (-> & A' & V' & HF & SP' & _). split; [done|]. exists A'. split; [by eapply beside_filling|done].
Qed.

Lemma guard_stack s0 A0 s A d top img :
  beside d s0 s A0 A -> space A s d top img -> 8192 <= top < KERNBASE -> top mod 4096 = 0 ->
  wp (clearpteu (P2V d) (u32 (top - 2 * PGSIZE))) (fun _ s' => exists A', beside d s0 s' A0 A' /\ framed d top img s' A' /\ stack_pages A' d top) s.
Proof using KIO.
  intros B [S1 S2 S3 S4 S5] Ht Ha. pose proof (bs_inv _ _ _ _ _ B) as V. change KERNBASE with 2147483648 in *. unfold PGSIZE. rewrite u32_id by lia.
  change (2 * 4096) with 8192. assert (ET : 4096 * pages top = top) by (unfold pages; zlia).
  destruct (S3 (vpn (top - 8192)) ltac:(unfold vpn; zlia)) as (e & He & _). destruct (S3 (vpn (top - 4096)) ltac:(unfold vpn; zlia)) as (es & Hes & Hal).
  eapply wp_mono; [apply (clearpteu_spec s A d (top - 8192) e V S1); [change KERNBASE with 2147483648; lia|done]|].
  intros _ s' (A' & V' & G). pose proof G as [G1 G2 G3 G4 (eg & Heg & HU) G6]. exists A'. split; [by eapply beside_guarded|]. split; [split|].
  - destruct S2 as [Z1 Z2 Z3]. assert (HN : forall w, w <> vpn (top - 8192) -> maps A' !! (d, w) = maps A !! (d, w)) by (intros w Hw; apply G4; congruence).
    split; [done|..]; intros w Hw; (destruct (decide (w = vpn (top - 8192))) as [->|Hne]; [|rewrite HN by done; auto]); [by exists eg|].
    unfold vpn in Hw. zlia.
  - intros x Hx. rewrite G6, decide_False by (done || (change KERNBASE with 2147483648; lia) || (intros [_ E]; unfold vpn in E; zlia)). apply S4. lia.
  - intros x Hx. rewrite G6, decide_True; [done| |done|change KERNBASE with 2147483648; lia]. split; [done|]. unfold vpn. zlia.
  - exists eg, es. split_and!; try done. rewrite G4; [done|]. intros [= E]. unfold vpn in E. zlia.
Qed.

Lemma push_framed s0 A0 s A d top img argv :
  beside d s0 s A0 A -> framed d top img s A -> stack_pages A d top -> 8192 <= top < KERNBASE -> top mod 4096 = 0 -> Forall str_ok argv ->
  wp (push_stack (P2V d) top argv) (fun r s' => r = place_stack top argv /\ beside d s0 s' A0 A /\
    forall sp, r = Some sp -> framed d top img s' A /\ (top - 4096 <= sp /\ args_at (user_load (mem s') d) sp top argv)) s.
Proof using KIO.
  intros B FRM (eg & es & Hg & HU & Hs & Hal) Ht Ha HA. pose proof (bs_inv _ _ _ _ _ B) as V.
  assert (HB : forall s', (exists m, s' = set_mem m s) -> vminv s' A -> others A d s s' -> beside d s0 s' A0 A).
  { intros s' [m ->] V' HO. eapply beside_filling; [done|done|]. by apply filling_mem. }
  eapply wp_mono; [apply (push_stack_spec A d top eg es (bs_dir _ _ _ _ _ B) Ht Ha Hg HU Hs Hal argv s V HA)|].
  intros r s' [-> H]. split; [done|]. destruct (place_stack top argv) as [sp|].
  - destruct H as (Hsp & (HM & V' & HO & HP) & HAt). split; [by apply HB|]. intros ? [= <-]. split; [|split; [lia|done]].
    destruct FRM as [F1 F2 F3]. change KERNBASE with 2147483648 in *. split; [done|..]; intros x Hx; rewrite HP by (change KERNBASE with 2147483648; lia); auto.
  - destruct H as (HM & V' & HO). split; [by apply HB|done].
Qed.

(** ** The whole of it *)

Definition exec_outcome k A p path argv (o : option program) (r : Z) (k' : kst F) : Prop :=
  match o with
  | None => r = -1 /\ exec_failed k A p k'
  | Some pr => r = 0 /\ exec_done k A p path argv pr k'
  end.

Lemma finish_spec k A p path argv pr d s A1 f :
  sysinv k A -> procs k !! cur k = Some p -> state p = RUNNING -> holding k 0 f -> beside d (vm k) s A A1 ->
  framed d (pr_top (pr_image pr)) (pr_image pr).2 s A1 ->
  0 <= pr_sp pr -> 8192 <= pr_top (pr_image pr) < KERNBASE -> args_at (user_load (mem s) d) (pr_sp pr) (pr_top (pr_image pr)) argv ->
  wp (exec_finish path (cur k) (P2V d) (pr_sp pr) (pr_entry pr) (pr_top (pr_image pr)))
    (fun r k' => r = 0 /\ exec_done k A p path argv pr k') (after s (retune (pid p) (procs k)) f k).
Proof using KIO.
  intros SI Hp Hs HH B [F1 F2 F3] Hsp Htop HA. pose proof SI as [PI _]. destruct (running_dir k A p SI Hp Hs) as (Hv & o & Eo & Ho & _).
  set (R := retune (pid p) (procs k)) in *. pose proof (retune_calm (pid p) (procs k)) as HC. fold R in HC.
  destruct (Forall2_lookup_l _ _ _ _ _ HC Hp) as (p1 & Hp1 & C1). pose proof (lookup_lt_Some _ _ _ Hp1) as Hi.
  assert (Ep : pgdir p1 = P2V o) by (rewrite <- Eo; apply C1).
  destruct (so_kstack _ _ _ _ (pi_slot _ _ PI _ _ Hp) (proj1 Hv)) as (g & Eg & Hg). assert (Eg1 : kstack p1 = P2V g) by (rewrite <- Eg; apply C1).
  unfold exec_finish, switchuvm_proc. pstep. eapply wp_setp; [exact Hp1|].
  pstep. eapply wp_getp; [by apply list_lookup_insert_eq|]. pstep. eapply wp_setp; [by apply list_lookup_insert_eq|].
  pstep. pstep. eapply wp_getp; [by apply list_lookup_insert_eq|]. apply wp_onvm. pcbn. rewrite Eg1.
  eapply wp_mono.
  { apply (switchuvm_spec s A1); [apply B|eapply P2V_nonzero; [apply PI|done]|eapply P2V_nonzero; [apply B|apply B]]. }
  intros _ s1 (V1 & Hcr & Ek & EM). pstep. apply wp_onvm. pcbn. rewrite Ep.
  pose proof (beside_mem _ _ _ s1 _ _ B V1 EM Ek) as B1. eapply wp_mono; [by apply (beside_commit d o (vm k) s1 A A1)|].
  intros _ s2 (A2 & V2 & K2 & C2 & Ho2 & Hd2 & D2 & O2 & Z2 & Zd2 & VO & VD). apply wp_ret. split; [done|].
  exists A2, s2, f, d, o, p1. split; [done|]. split; [|split_and!; try done].
  - apply (done_ok k A p p1 path pr d o s2 A2 f); try done. split; try done; [apply B|by apply Zd2].
  - apply B.
  - rewrite C2, Hcr. apply V2P_P2V_page. eapply (tb_pages _ _ _ (rp_tbl _ _ (vi_rep _ _ V1))), B.
  - intros x Hx. rewrite VD, EM by lia. by apply F2.
  - intros x Hx. rewrite VD, EM by lia. by apply F3.
  - eapply args_at_same; [|exact HA]. intros x Hx. by rewrite VD, EM by lia.
Qed.

Lemma exec_commit_spec k A p path argv elf d s A1 f (im : image) :
  sysinv k A -> procs k !! cur k = Some p -> state p = RUNNING -> holding k 0 f -> beside d (vm k) s A A1 ->
  space A1 s d im.1 im.2 -> 0 <= im.1 < KERNBASE -> room A1 4 -> Forall str_ok argv ->
  wp (exec_commit path argv elf (P2V d) im.1) (exec_outcome k A p path argv (with_args elf im argv)) (after s (retune (pid p) (procs k)) f k).
Proof using EL FL KIO.
  intros SI Hp Hs HH B SP Hsz HR HA. destruct im as [sz img]. cbn [fst snd] in *. unfold exec_commit, myproc. pstep. pstep.
  change KERNBASE with 2147483648 in Hsz. assert (Hpg : 0 <= pages sz <= 524288) by (unfold pages; zlia).
  assert (Htop : 8192 <= pr_top (sz, img) /\ pr_top (sz, img) mod 4096 = 0) by (unfold pr_top; cbn [fst]; zlia). destruct Htop as [Ht1 Ht2].
  unfold with_args. pstep. apply wp_onvm. cbn [vm after set_files set_vm]. destruct (Z.leb_spec KERNBASE (pr_top (sz, img))) as [Hbig|Hlt].
  { unfold allocuvm. rewrite PGROUNDUP_eq by lia. rewrite u32_id by (unfold PGSIZE; zlia).
    replace (KERNBASE <=? _) with true by (symmetry; apply Z.leb_le; unfold pr_top, pages, PGSIZE in *; cbn [fst] in *; change KERNBASE with 2147483648 in *; zlia).
    apply wp_ret. cbn [Z.eqb]. by apply (exec_bad_spec k A p _ 0 s f SI Hp (building_new k A d s A1 B)). }
  eapply wp_mono; [apply (alloc_stack (vm k) A s A1 d sz img); [done|done|lia|done|done]|]. intros r s1 (-> & A2 & B2 & SP2).
  set (top := pr_top (sz, img)) in *. replace (top =? 0) with false by lia. pstep. apply wp_onvm.
  eapply wp_mono; [apply (guard_stack (vm k) A s1 A2 d top img); [done|done|lia|done]|]. intros _ s2 (A3 & B3 & FR3 & SPg).
  pstep. apply wp_onvm. eapply wp_mono; [apply (push_framed (vm k) A s2 A3 d top img argv); try done; lia|].
  intros q s3 (-> & B4 & HP). destruct (place_stack top argv) as [sp|]; cbn [mbind option_bind].
  - destruct (HP sp eq_refl) as (FR4 & Hsp & HAt). apply (finish_spec k A p path argv (mkprogram (e_entry elf) (sz, img) sp) d s3 A3 f); try done. cbn [pr_sp]. lia.
  - by apply (exec_bad_spec k A p _ 0 s3 f SI Hp (building_new k A d s3 A3 B4)).
Qed.

Lemma load_spec k A p path argv ip f lim :
  sysinv k A -> procs k !! cur k = Some p -> state p = RUNNING -> ip <> 0 -> holding k ip f -> Forall str_ok argv ->
  0 <= lim < KERNBASE -> file_fits (readi f ip) lim -> 1029 + 2 * pages lim < Z.of_nat (length (free A)) ->
  wp (exec_load path argv ip) (exec_outcome k A p path argv (program_of (readi f ip) argv)) (after (vm k) (retune (pid p) (procs k)) f k).
Proof using EL FL KIO.
  intros SI Hp Hs Hip HH HA Hlim HFit HR. pose proof SI as [PI _]. pose proof (pi_vm _ _ PI) as V. unfold exec_load, program_of, file_fits in *.
  pose proof (exec_bad_spec k A p 0 ip (vm k) f SI Hp (building_nothing k A V) HH) as HB0. pose proof (readi_bytes f ip) as HBy.
  pstep. pstep. cbn [files after set_files]. destruct (readi f ip 0 ELFSIZE) as [r b] eqn:ER. cbn [snd] in HFit.
  destruct (negb (r =? ELFSIZE)); [exact HB0|]. destruct (negb (e_magic (dec_elf b) =? ELF_MAGIC)); [exact HB0|].
  assert (Hpg : 0 <= pages lim) by (unfold pages; zlia). pstep. apply wp_onvm. cbn [vm after set_files set_vm].
  eapply wp_mono; [apply (setupkvm_ample (vm k) A V); lia|]. intros _ s1 (A1 & d & -> & V1 & P1 & N1 & W1 & L1).
  pose proof (beside_new _ _ _ _ d V V1 P1 N1 W1) as B1.
  rewrite (proj2 (Z.eqb_neq _ _) (P2V_page_nonzero d (tb_pages _ _ _ (rp_tbl _ _ (vi_rep _ _ V1)) _ _ (bs_dir _ _ _ _ _ B1)))).
  pstep. eapply wp_mono.
  { apply (load_segments_spec (Z.to_nat (e_phnum (dec_elf b))) d ip lim 4 (after s1 (retune (pid p) (procs k)) f k) A1 (e_phoff (dec_elf b)) 0 (fun _ => 0));
      try done; [by eapply newdir_space|lia|lia|]. unfold room. change (pages 0) with 0. lia. }
  cbn [files after set_files vm set_vm]. intros r2 k2 (s2 & A2 & -> & V2 & F2 & H2). pose proof (beside_filling _ _ _ _ _ _ _ B1 V2 F2) as B2.
  destruct (add_segments _ _ _ _) as [im|]; cbn [mbind option_bind].
  - destruct H2 as (-> & SP2 & Hs2 & R2). pstep. apply wp_onfiles. eapply wp_mono; [by apply (release_spec k)|]. intros [] f1 H1.
    pstep. apply wp_onfiles. eapply wp_mono; [exact H1|]. intros [] f2 H3.
    apply (exec_commit_spec k A p path argv (dec_elf b) d s2 A2 f2 im); try done; [lia|].
    unfold room, pages in *. zlia.
  - destruct H2 as [-> Hd2]. by apply (exec_bad_spec k A p _ ip s2 f SI Hp (building_new k A d s2 A2 B2)).
Qed.

End ExecThms.
