(* ===== verification/ExecSample.v ===== *)
(** * ExecSample: a machine with enough memory, and a small executable *)
From stdpp Require Import base gmap list numbers strings.
From Stdlib Require Import ZArith Lia ZifyBool.
From S2P Require Import Prelude Machine Cstring Kalloc Vm Frames Tables Cow Fork Fault Sample Spaces Ptable Proc Pages ProcInv ProcOps ProcLife ProcSys ProcThms Exec ExecVm ExecLoad ExecProc ExecThms.

(** ** More free pages *)

(** A page that nothing knows about becomes a page of the kernel. *)
Definition adopt (f : Z) (A : avm) : avm := mkavm (free A) (<[f := OKern]> (own A)) (tab A) (maps A).

Lemma vminv_adopt s A f : vminv s A -> own A !! f = None -> page_ok f -> vminv s (adopt f A).
Proof.
  intros [[Hk T] L C] Hf Hp.
  assert (HO : forall g r, r <> OKern -> own (adopt f A) !! g = Some r <-> own A !! g = Some r).
  { intros g r Hr. cbn. destruct (decide (f = g)) as [->|Hne]; [rewrite lookup_insert_eq, Hf; naive_solver|by rewrite lookup_insert_ne]. }
  split; [split; [done|]|done|].
  - destruct T as [T1 T2 T3 T4 T5 T6 T7 T8 T9 T10]. split; try done.
    + intros g r Hg. destruct (decide (f = g)) as [->|Hne]; [done|]. cbn in Hg. rewrite lookup_insert_ne in Hg by done. eauto.
    + intros g. rewrite HO by done. apply T5.
    + intros p i t. rewrite HO by done. apply T6.
    + intros p i t Ht. rewrite HO by done. by apply (T7 p i t).
    + intros p i Hg. rewrite HO in Hg by done. by apply T8.
  - eapply cow_same; [exact C| |done]. intros g. by rewrite HO.
Qed.

(** The sample state with [n] more free pages. *)
Record larger (n : nat) (s : vmst) (A : avm) : Prop := mklarger {
  lg_inv : vminv s A;
  lg_kpg : kpgdir s = kpgdir Sample.state;
  lg_maps : maps A = maps Sample.abs;
  lg_free : length (free A) = (2 + n)%nat;
  lg_own : forall x r, own Sample.abs !! x = Some r -> own A !! x = Some r;
  lg_new : forall x r, own A !! x = Some r -> own Sample.abs !! x = Some r \/ r = OFree;
  lg_rest : forall x, 0x200000 + 4096 * Z.of_nat n <= x -> own A !! x = None;
}.

Lemma larger_step n s A : larger n s A -> (n < 2000)%nat -> exists s' A', larger (S n) s' A'.
Proof.
  intros [V K MP HF HO HN HR] Hn. set (f := 0x200000 + 4096 * Z.of_nat n). assert (Hf : own A !! f = None) by (apply HR; lia).
  assert (Hp : page_ok f) by (unfold page_ok; cbn; unfold PGSIZE, PHYSTOP, KERNBASE; subst f; split_and!; zlia).
  destruct (vminv_adopt s A f V Hf Hp) as [R L C]. destruct (rep_kfree s _ f R (lookup_insert_eq _ _ _)) as (s' & _ & R' & P' & _).
  exists s', (give_free f (adopt f A)). rewrite P' in *. split; cbn; try done.
  - split; [done|done|]. eapply cow_same; [exact C| |done]. intros g. cbn. destruct (decide (f = g)) as [->|Hne]; [by rewrite !lookup_insert_eq|].
    by rewrite !(lookup_insert_ne _ f g).
  - by rewrite HF.
  - intros x r Hx. rewrite !lookup_insert_ne; [auto|..]; intros <-; rewrite (HO _ _ Hx) in Hf; done.
  - intros x r. destruct (decide (f = x)) as [->|Hne]; [rewrite lookup_insert_eq; intros [= <-]; by right|]. rewrite !lookup_insert_ne by done. apply HN.
  - intros x Hx. rewrite !lookup_insert_ne by (subst f; lia). apply HR. lia.
Qed.

Lemma sample_larger n : (n <= 2000)%nat -> exists s A, larger n s A.
Proof.
  induction n as [|n IH]; intros Hn.
  - exists Sample.state, Sample.abs. split; try done; [apply Sample.inv|by left|].
    intros x Hx. destruct (own Sample.abs !! x) as [r|] eqn:E; [|done]. exfalso.
    cbn [own Sample.abs relabel Sample.A3 set_entry Sample.A2 link_tab Sample.A1 make_dir Sample.A0] in E. Sample.lookups E; vm_compute in Hx; by destruct Hx.
  - destruct IH as (s & A & H); [lia|]. eapply larger_step; [exact H|lia].
Qed.

(** ** A small executable: one segment of four bytes in a page of sixteen *)
Definition word (x : Z) : list Z := [x mod 256; x / 256 mod 256; x / 65536 mod 256; x / 16777216 mod 256].
Definition hello : list Z :=
  word ELF_MAGIC ++ replicate 20 0 ++ word 0 ++ word 52 ++ replicate 12 0 ++ [1; 0] ++ replicate 6 0 ++
  concat (word <$> [1; 84; 0; 0; 4; 16; 5; 4096]) ++ [0x31; 0xc0; 0xeb; 0xfe].

(** [readi] of a file. *)
Definition read_list (l : list Z) (off n : Z) : Z * (Z -> Z) :=
  (if (off <? 0) || (Z.of_nat (length l) <? off) then -1 else Z.min n (Z.of_nat (length l) - off), fun x => nth (Z.to_nat (off + x)) l 0).

#[export] Instance count_exec : ExecFiles counts := {|
  ilock _ := ret tt;
  iunlockput i := modify (fun s => mkcounts (c_files s) (sub1 i (c_inodes s)) (c_ops s));
  readi _ _ := read_list hello;
|}.

#[export] Instance count_exec_laws : ExecLaws counts.
Proof.
  refine {| file_at _ _ := Some (read_list hello) |}.
  - done.
  - intros s path Hs. unfold wp, refs_are. cbn. by split_and!.
  - intros s i Hi. unfold wp, refs_are. cbn. by split_and!.
  - intros s i Hi Hs. unfold wp, refs_are. cbn. by split_and!.
  - intros s i off n x. cbn [readi count_exec read_list snd].
    assert (H : Forall (fun b => 0 <= b < 256) hello) by (unfold hello; vm_compute; repeat constructor; intros [=]).
    destruct (Nat.lt_ge_cases (Z.to_nat (off + x)) (length hello)); [|rewrite nth_overflow by lia; lia].
    apply (proj1 (List.Forall_forall _ _) H). by apply nth_In.
Defined.

(** [init] running with 1200 more free pages. *)
Lemma sample_ample : exists k A, in_kernel k A (ProcSample.init_proc RUNNING) /\ 1034 < Z.of_nat (length (free A)).
Proof.
  destruct (sample_larger 1200) as (s & A & [V K MP HF HO HN HR]); [lia|].
  set (k := ProcSample.sys RUNNING ZOMBIE 0). destruct sample_in_kernel as ([PI FI] & HL & Hp & Hs). fold k in PI, FI, HL, Hp.
  assert (KP : keeps Sample.abs A). { split; [auto|]. intros d n Hd S. eapply sized_same; [exact S|]. intros v _. by rewrite MP. }
  exists (set_vm s k), A. split; [|rewrite HF; lia]. split; [split|done]; [|by destruct FI].
  apply (pinv_slot_keeps k (set_vm s k) Sample.abs A 0 (ProcSample.init_proc RUNNING) (ProcSample.init_proc RUNNING)); try done; cbn [vm set_vm].
  - apply set_eq. intros x. rewrite !elem_of_dirs. split; [|auto]. intros Hx. by destruct (HN _ _ Hx).
  - eapply slot_keeps; [by apply (pi_slot _ _ PI 0%nat)|done|apply Z.le_refl].
  - intros j q Hj Hq. by apply (pi_apart _ _ PI 0%nat j).
Qed.

