(* ===== verification/Trap.v ===== *)
(** * Trap: entering the kernel ([trap.c], [syscall.c], [sysproc.c])

    What happens when a process traps: the dispatch of system calls, the calls
    on processes, page faults, clock ticks and device interrupts.  A handler
    that gives up the CPU ends where it enters [sched]; what it does when the
    process runs again is a definition of its own. *)
From stdpp Require Import base gmap list numbers strings.
From Stdlib Require Import ZArith Lia ZifyBool.
From S2P Require Import Prelude Machine Cstring Kalloc Vm Ptable Proc.

(** ** Trap numbers and system calls *)

Definition T_PGFLT : Z := 14.
Definition T_IRQ0 : Z := 32.
Definition T_SYSCALL : Z := 64.
Definition IRQ_TIMER : Z := 0.
Definition IRQ_KBD : Z := 1.
Definition IRQ_COM1 : Z := 4.
Definition IRQ_IDE : Z := 14.
Definition IRQ_SPURIOUS : Z := 31.
Definition DPL_USER : Z := 3.

Inductive sysno :=
  | SYS_fork | SYS_exit | SYS_wait | SYS_pipe | SYS_read | SYS_kill | SYS_exec | SYS_fstat | SYS_chdir | SYS_dup
  | SYS_getpid | SYS_sbrk | SYS_sleep | SYS_uptime | SYS_open | SYS_write | SYS_mknod | SYS_unlink | SYS_link
  | SYS_mkdir | SYS_close | SYS_incNum | SYS_getprocs | SYS_set_burst_time | SYS_set_priority
  | SYS_set_lottery_ticket | SYS_set_sched_queue | SYS_show_processes_scheduling | SYS_getNumFreePages.

Definition syscall_list : list sysno :=
  [SYS_fork; SYS_exit; SYS_wait; SYS_pipe; SYS_read; SYS_kill; SYS_exec; SYS_fstat; SYS_chdir; SYS_dup;
   SYS_getpid; SYS_sbrk; SYS_sleep; SYS_uptime; SYS_open; SYS_write; SYS_mknod; SYS_unlink; SYS_link;
   SYS_mkdir; SYS_close; SYS_incNum; SYS_getprocs; SYS_set_burst_time; SYS_set_priority;
   SYS_set_lottery_ticket; SYS_set_sched_queue; SYS_show_processes_scheduling; SYS_getNumFreePages].

(** The call with the number [num], from 1 on. *)
Definition sys_of (num : Z) : option sysno :=
  if (0 <? num) && (num <? 30) then syscall_list !! Z.to_nat (num - 1) else None.

(** How a handler ends: with a value for the process, in [sched] of [exit], or
    in [sched] of a sleep. *)
Inductive outcome := Back (r : Z) | Gone | Asleep.

(** How a trap ends: back in user mode, or in [sched] of [exit], of a sleep or
    of [yield]. *)
Inductive ending := ToUser | Dead | Waiting | Yielded.

(** The system calls on files, and the handlers of the devices. *)
Class FileCalls (F : Type) := {
  file_call : sysno -> M (kst F) outcome;
  ideintr : M (kst F) unit;
  kbdintr : M (kst F) unit;
  uartintr : M (kst F) unit;
}.

(** What an uninitialised variable and the register of a result that is not set
    hold. *)
Record junk := mkjunk { jk_a : Z; jk_b : Z; jk_result : Z }.

(** Addresses and the number of this CPU. *)
Class CpuInfo := { ticks_addr : Z; cpu_id : Z }.

(** A load by the kernel through the page table at [dir]: both entries must be
    present. *)
Definition kern_load (m : memory) (dir va : Z) : option Z :=
  let pde := load32 m (dir + 4 * PDX va) in
  if Z.testbit pde 0 then
    let pte := load32 m (PTE_ADDR pde + 4 * PTX va) in
    if Z.testbit pte 0 then Some (m (PTE_ADDR pte + va mod PGSIZE)) else None
  else None.

Section Trap.
Context `{KI : KernelImage} `{PT : ProcTable} `{CI : CpuInfo} {F : Type} `{FO : FileOps F} `{FC : FileCalls F}.

Notation MP := (M (kst F)).

Definition acquire_ticks : MP unit := fun k =>
  if tickslock k then Panic "acquire" else Ok tt (set_tickslock true k).
Definition release_ticks : MP unit := fun k =>
  if tickslock k then Ok tt (set_tickslock false k) else Panic "release".

(** The running process. *)
Definition curproc : MP proc := let! c := myproc in getp c.

(** ** Arguments *)

(** A byte of the process, read by the kernel. *)
Definition ubyte (va : Z) : MP Z := fun k =>
  match procs k !! cur k with
  | Some p => match kern_load (mem (vm k)) (V2P (pgdir p)) va with Some b => Ok b k | None => Fault "page fault" end
  | None => Fault "ptable"
  end.

Definition uword (va : Z) : MP Z :=
  let! b0 := ubyte va in
  let! b1 := ubyte (va + 1) in
  let! b2 := ubyte (va + 2) in
  let! b3 := ubyte (va + 3) in
  ret (b0 + 256 * (b1 + 256 * (b2 + 256 * b3))).

Definition ufetchint (addr : Z) : MP (option Z) :=
  let! p := curproc in
  if (sz p <=? addr) || (sz p <? u32 (addr + 4)) then ret None
  else let! w := uword addr in ret (Some (i32 w)).

Definition uargint (n : Z) : MP (option Z) :=
  let! p := curproc in
  ufetchint (u32 (esp (tf p) + 4 + 4 * n)).

(** ** The calls on processes *)

Definition sys_fork : MP outcome := let! r := fork in ret (Back r).
Definition sys_exit : MP outcome := exit ;;; ret Gone.
Definition sys_wait : MP outcome :=
  let! r := wait in ret (match r with Some n => Back n | None => Asleep end).

Definition sys_kill : MP outcome :=
  let! a := uargint 0 in
  match a with
  | None => ret (Back (-1))
  | Some pid => let! r := kill pid in ret (Back r)
  end.

Definition sys_getpid : MP outcome := let! p := curproc in ret (Back (pid p)).

Definition sys_sbrk : MP outcome :=
  let! a := uargint 0 in
  match a with
  | None => ret (Back (-1))
  | Some n =>
      let! p := curproc in
      let addr := i32 (sz p) in
      let! r := growproc n in
      if r <? 0 then ret (Back (-1)) else ret (Back addr)
  end.

(** One turn of the loop of [sys_sleep], with [tickslock] held; [n] is compared
    as an unsigned number. *)
Definition sleep_turn (n ticks0 : Z) : MP outcome :=
  let! t := gets ticks in
  if u32 (t - ticks0) <? u32 n then
    let! p := curproc in
    if negb (killed p =? 0) then release_ticks ;;; ret (Back (-1))
    else sleep ticks_addr release_ticks ;;; ret Asleep
  else release_ticks ;;; ret (Back 0).

Definition sys_sleep : MP outcome :=
  let! a := uargint 0 in
  match a with
  | None => ret (Back (-1))
  | Some n =>
      acquire_ticks ;;;
      let! ticks0 := gets ticks in
      sleep_turn n ticks0
  end.

Definition sys_sleep_resume (n ticks0 : Z) : MP outcome :=
  sleep_resume acquire_ticks ;;;
  sleep_turn n ticks0.

Definition sys_uptime : MP outcome :=
  acquire_ticks ;;;
  let! xticks := gets ticks in
  release_ticks ;;;
  ret (Back (i32 xticks)).

Definition sys_incNum (num : Z) : MP outcome := ret (Back 22).
Definition sys_getprocs : MP outcome := ret (Back 23).

(** The two arguments of the calls that set a parameter of a process, which
    are not checked. *)
Definition arg2 (j : junk) : MP (Z * Z) :=
  let! a := uargint 0 in
  let! b := uargint 1 in
  ret (default (jk_a j) a, default (jk_b j) b).

Definition sys_set_burst_time (j : junk) : MP outcome :=
  let! a := arg2 j in
  modify (fun k => set_procs (find_and_set_burst_time a.1 a.2 (procs k)) k) ;;; ret (Back (jk_result j)).
Definition sys_set_priority (j : junk) : MP outcome :=
  let! a := arg2 j in
  modify (fun k => set_procs (find_and_set_priority a.1 a.2 (procs k)) k) ;;; ret (Back (jk_result j)).
Definition sys_set_lottery_ticket (j : junk) : MP outcome :=
  let! a := arg2 j in
  modify (fun k => set_procs (find_and_set_lottery_ticket a.1 a.2 (procs k)) k) ;;; ret (Back (jk_result j)).
Definition sys_set_sched_queue (j : junk) : MP outcome :=
  let! a := arg2 j in
  modify (fun k => set_procs (find_and_set_sched_queue a.1 a.2 (procs k)) k) ;;; ret (Back (jk_result j)).

Definition sys_show_processes_scheduling (j : junk) : MP outcome := ret (Back (jk_result j)).
Definition sys_getNumFreePages : MP outcome := let! n := onvm getNumFreePages in ret (Back n).

(** ** Dispatch *)

Definition call (j : junk) (n : sysno) : MP outcome :=
  match n with
  | SYS_fork => sys_fork
  | SYS_exit => sys_exit
  | SYS_wait => sys_wait
  | SYS_kill => sys_kill
  | SYS_getpid => sys_getpid
  | SYS_sbrk => sys_sbrk
  | SYS_sleep => sys_sleep
  | SYS_uptime => sys_uptime
  | SYS_incNum => let! a := uargint 0 in sys_incNum (default 0 a)
  | SYS_getprocs => sys_getprocs
  | SYS_set_burst_time => sys_set_burst_time j
  | SYS_set_priority => sys_set_priority j
  | SYS_set_lottery_ticket => sys_set_lottery_ticket j
  | SYS_set_sched_queue => sys_set_sched_queue j
  | SYS_show_processes_scheduling => sys_show_processes_scheduling j
  | SYS_getNumFreePages => sys_getNumFreePages
  | SYS_pipe | SYS_read | SYS_exec | SYS_fstat | SYS_chdir | SYS_dup | SYS_open | SYS_write | SYS_mknod
  | SYS_unlink | SYS_link | SYS_mkdir | SYS_close => file_call n
  end.

(** [curproc->tf->eax = r] *)
Definition set_result (r : Z) : MP unit :=
  let! c := myproc in
  setp c (fun p => set_tf (set_eax (u32 r) (tf p)) p).

(** The value reaches the process; a call that gives up the CPU has not
    returned yet. *)
Definition finish_call (o : outcome) : MP outcome :=
  match o with
  | Back r => set_result r ;;; ret o
  | _ => ret o
  end.

Definition syscall (j : junk) : MP outcome :=
  let! p := curproc in
  match sys_of (i32 (eax (tf p))) with
  | Some n => let! o := call j n in finish_call o
  | None => finish_call (Back (-1))
  end.

(** ** [trap] *)

(** [if(myproc()->killed) exit();] at the end of a system call. *)
Definition call_ends (o : outcome) : MP ending :=
  match o with
  | Back _ =>
      let! p := curproc in
      if negb (killed p =? 0) then exit ;;; ret Dead else ret ToUser
  | Gone => ret Dead
  | Asleep => ret Waiting
  end.

Definition kill_me : MP unit := let! c := myproc in setp c (set_killed 1).

(** The clock, counted by the first CPU. *)
Definition tick : MP unit :=
  when (cpu_id =? 0)
    (acquire_ticks ;;;
     modify (fun k => set_ticks (u32 (ticks k + 1)) k) ;;;
     wakeup ticks_addr ;;;
     release_ticks).

(** The [switch] on the trap number; [cr2] is the address of a page fault. *)
Definition handle (frame : trapframe) (cr2 : Z) : MP unit :=
  let no := trapno frame in
  if no =? T_PGFLT then
    let! p := curproc in
    let! k := onvm (pagefault cr2 (pgdir p)) in
    if k : bool then kill_me else ret tt
  else if no =? T_IRQ0 + IRQ_TIMER then tick
  else if no =? T_IRQ0 + IRQ_IDE then ideintr
  else if no =? T_IRQ0 + IRQ_IDE + 1 then ret tt
  else if no =? T_IRQ0 + IRQ_KBD then kbdintr
  else if no =? T_IRQ0 + IRQ_COM1 then uartintr
  else if (no =? T_IRQ0 + 7) || (no =? T_IRQ0 + IRQ_SPURIOUS) then ret tt
  else if Z.land (cs frame) 3 =? 0 then panic "trap"
  else kill_me.

(** [myproc()->killed && (tf->cs&3) == DPL_USER] *)
Definition doomed (frame : trapframe) : MP bool :=
  let! p := curproc in
  ret (negb (killed p =? 0) && (Z.land (cs frame) 3 =? DPL_USER)).

Definition trap (j : junk) (frame : trapframe) (cr2 : Z) : MP ending :=
  if trapno frame =? T_SYSCALL then
    let! c := myproc in
    let! p := getp c in
    if negb (killed p =? 0) then exit ;;; ret Dead
    else
      setp c (set_tf frame) ;;;
      let! o := syscall j in
      call_ends o
  else
    handle frame cr2 ;;;
    let! d := doomed frame in
    if d : bool then exit ;;; ret Dead
    else
      let! p := curproc in
      if bool_decide (state p = RUNNING) && (trapno frame =? T_IRQ0 + IRQ_TIMER) then yield ;;; ret Yielded
      else
        let! d := doomed frame in
        if d : bool then exit ;;; ret Dead else ret ToUser.

(** The rest of [trap] when the process runs again: after [yield], and after
    the sleep in a system call. *)
Definition trap_resume (frame : trapframe) : MP ending :=
  release_ptable ;;;
  let! d := doomed frame in
  if d : bool then exit ;;; ret Dead else ret ToUser.

Definition wait_returns : MP ending :=
  let! r := wait_resume in
  let! o := finish_call (match r with Some n => Back n | None => Asleep end) in
  call_ends o.

Definition sleep_returns (n ticks0 : Z) : MP ending :=
  let! o := sys_sleep_resume n ticks0 in
  let! o := finish_call o in
  call_ends o.
End Trap.
