(* ===== verification/TrapSafe.v ===== *)
(** * TrapSafe: no trap of a process breaks the kernel

    Each handler of [Trap] keeps the invariant of the process system, and
    leaves the running process running, or gives up the CPU in [sched]. *)
From stdpp Require Import base gmap list numbers strings.
From Stdlib Require Import ZArith Lia ZifyBool.
From S2P Require Import Prelude Machine Cstring Kalloc Vm Frames Tables Cow Dealloc Fork Fault Sample Spaces Alloc Ptable Sched Proc Pages ProcInv ProcOps ProcLife ProcExit ProcSys ProcThms Trap.

(** ** Reading the memory of the process *)

Section Load.
Context `{KI : KernelImage} `{KIO : !KernelImageOk}.

Lemma kern_load_spec (s : vmst) (A : avm) (p va e : Z) :
  rep s A -> own A !! p = Some ODir -> 0 <= va < 4294967296 -> maps A !! (p, vpn va) = Some e ->
  kern_load (mem s) p va = Some (mem s (PTE_ADDR e + va mod 4096)).
Proof.
  intros R Hp Hva He. pose proof (rp_tbl _ _ R) as T. pose proof (PDX_vpn va Hva) as [_ Hpx].
  destruct (entry_facts s A p _ e R He) as (_ & _ & Hpr & t & Ht). destruct (vpn_split va Hva) as (_ & Hx & _). rewrite Hx in Ht.
  pose proof (tb_pde _ _ _ T p (PDX va) Hp Hpx) as Hpde. rewrite Ht in Hpde. cbn in Hpde.
  pose proof (tab_page _ _ _ _ _ _ T Ht) as Htp. destruct (pde_decode t Htp) as [_ HA].
  pose proof (entry_rep s A p va t R Hva Ht) as Hs. rewrite He in Hs. cbn in Hs.
  unfold kern_load. rewrite Hpde. assert (Z.testbit (t + 7) 0 = true) as ->.
  { destruct Htp as (Ha & _). by rewrite testbit_aligned by zlia. }
  rewrite HA, Hs. unfold present in Hpr. by rewrite Hpr.
Qed.

(** Below its size every byte of a process can be read. *)
Lemma sized_load (s : vmst) (A : avm) (p n va : Z) :
  rep s A -> own A !! p = Some ODir -> sized A p n -> 0 <= va < n -> is_Some (kern_load (mem s) p va).
Proof.
  intros R Hp [S1 S2 _] Hva. unfold KERNBASE in S1. destruct (S2 (vpn va)) as [e He]; [unfold vpn; zlia|].
  rewrite (kern_load_spec s A p va e R Hp ltac:(lia) He). eauto.
Qed.
End Load.

Section Safe.
Context `{KI : KernelImage} `{KIO : !KernelImageOk} `{PT : ProcTable} `{PTO : !ProcTableOk} `{CI : CpuInfo} {F : Type}
  `{FO : FileOps F} `{FR : !FileRefs F} `{FL : !FileLaws F} `{FC : FileCalls F}.
Implicit Types (k : kst F) (A : avm) (p : proc).

(** ** What the routines of [proc.c] do not touch *)

Definition cpu (k : kst F) : bool * Z * nat := (tickslock k, initproc k, cur k).

Lemma cpu_acquire : leaves cpu acquire_ptable.
Proof. intros k a k'. unfold acquire_ptable. case_match; [done|]. by intros [= <- <-]. Qed.
Lemma cpu_release : leaves cpu release_ptable.
Proof. intros k a k'. unfold release_ptable. case_match; [|done]. by intros [= <- <-]. Qed.
Lemma cpu_getp (i : nat) : leaves cpu (getp i).
Proof. intros k a k'. unfold getp. case_match; [|done]. by intros [= <- <-]. Qed.
Lemma cpu_setp (i : nat) (f : proc -> proc) : leaves cpu (setp i f).
Proof. by apply leaves_modify. Qed.
Lemma cpu_onvm {B} (c : MV B) : leaves cpu (onvm c).
Proof. by apply leaves_zoom. Qed.
Lemma cpu_onfiles {B} (c : M F B) : leaves cpu (onfiles c).
Proof. by apply leaves_zoom. Qed.

Ltac cpu := repeat first
  [ apply cpu_acquire | apply cpu_release | apply cpu_getp | apply cpu_setp | apply cpu_onvm | apply cpu_onfiles | leaves_step ].

Lemma cpu_dup_files (fs : list Z) : forall old, leaves cpu (dup_files fs old).
Proof. induction fs as [|f fs IH]; intros [|o old]; cbn [dup_files]; cpu. apply IH. Qed.
Lemma cpu_close_files (n : nat) : forall c fd, leaves cpu (close_files c fd n).
Proof. induction n as [|n IH]; intros c fd; cbn [close_files]; cpu. apply IH. Qed.
Lemma cpu_fork : leaves cpu fork.
Proof. unfold fork, allocproc, myproc. cpu. apply cpu_dup_files. Qed.
Lemma cpu_exit : leaves cpu exit.
Proof. unfold exit, myproc. cpu; apply cpu_close_files. Qed.
Lemma cpu_wait_pass : leaves cpu wait_pass.
Proof. unfold wait_pass, sleep_ptable, myproc. cpu. Qed.
Lemma cpu_growproc (n : Z) : leaves cpu (growproc n).
Proof. unfold growproc, switchuvm_proc, myproc. cpu. Qed.

(** ** A running process, and a CPU that has left its process *)

Record lives k (c : nat) (p : proc) : Prop := mklives {
  lv_kernel : exists A, in_kernel k A p;
  lv_ticks : tickslock k = false;
  lv_init : initproc k <> proc_ptr (cur k);
  lv_cur : cur k = c;
}.

(** The process [c] has given up the CPU in the state [st]. *)
Definition left_cpu k (c : nat) (st : procstate) : Prop :=
  cinv (k, Leave) /\ tickslock k = false /\ exists p, procs k !! c = Some p /\ state p = st.

(** The end of a handler that started with the frame [fr] of the process [c]. *)
Definition ends_well (c : nat) (fr : trapframe) (o : outcome) k : Prop :=
  match o with
  | Back _ => exists p, lives k c p /\ tf p = fr
  | Gone => left_cpu k c ZOMBIE
  | Asleep => left_cpu k c SLEEPING
  end.

(** The same, for a call that may change the frame. *)
Definition call_ends_well (n : sysno) (c : nat) (fr : trapframe) (o : outcome) k : Prop :=
  match o with
  | Back _ => exists p, lives k c p /\ (n <> SYS_exec -> tf p = fr)
  | _ => ends_well c fr o k
  end.

(** What the calls on files and the device handlers promise: a call returns to
    its process or leaves the CPU, and only [exec] changes the frame; a device
    handler leaves the process as it is. *)
Class CallLaws : Prop := {
  file_call_law : forall n k c p, lives k c p -> wp (file_call n) (call_ends_well n c (tf p)) k;
  ideintr_law : forall k c p, lives k c p -> wp ideintr (fun _ k' => exists p', lives k' c p' /\ tf p' = tf p /\ killed p' = killed p) k;
  kbdintr_law : forall k c p, lives k c p -> wp kbdintr (fun _ k' => exists p', lives k' c p' /\ tf p' = tf p /\ killed p' = killed p) k;
  uartintr_law : forall k c p, lives k c p -> wp uartintr (fun _ k' => exists p', lives k' c p' /\ tf p' = tf p /\ killed p' = killed p) k;
}.

Lemma lives_again k k' c p p' A :
  lives k c p -> sysinv k' A -> plock k' = false -> cpu k' = cpu k -> procs k' !! c = Some p' -> state p' = RUNNING -> lives k' c p'.
Proof. intros [L1 L2 L3 L4] SI HL E Hp Hs. injection E as E1 E2 E3. split; [exists A; split_and!; congruence|congruence|congruence|congruence]. Qed.

Lemma wp_curproc k c p {B} (f : proc -> M (kst F) B) Q : lives k c p -> wp (f p) Q k -> wp (bind curproc f) Q k.
Proof. intros [(A & _ & _ & Hp & _) _ _ _] H. unfold curproc, myproc, wp, bind, gets, getp. by rewrite Hp. Qed.

(** The result of a search of the table by pid. *)
Lemma update_pid_or (f : proc -> proc) (n : Z) (ps : list proc) : forall i p,
  ps !! i = Some p -> exists p', update_pid f n ps !! i = Some p' /\ (p' = p \/ p' = f p).
Proof.
  induction ps as [|q ps IH]; intros [|i] p Hp; try done; cbn in *.
  - injection Hp as ->. case_match; eauto.
  - case_match; [eauto|]. by apply IH.
Qed.

(** A change of the table that keeps what processes own, and the process
    itself running with its frame. *)
Lemma lives_table k c p ps :
  lives k c p -> Forall2 calm (procs k) ps -> (exists p', ps !! c = Some p' /\ state p' = RUNNING /\ tf p' = tf p) ->
  exists p', lives (set_procs ps k) c p' /\ tf p' = tf p.
Proof.
  intros L HC (p' & Hp' & Hs & Ht). destruct (lv_kernel _ _ _ L) as (A & SI & HL & _). exists p'. split; [|done].
  eapply (lives_again k); [done|eapply sys_calm; [exact SI|done|done|done|exact HC]|done|done|done|done].
Qed.

Lemma lives_update k c p f n :
  lives k c p -> (forall q, calm q (f q)) -> (forall q, state q = RUNNING -> state (f q) = RUNNING) -> (forall q, tf (f q) = tf q) ->
  exists p', lives (set_procs (update_pid f n (procs k)) k) c p' /\ tf p' = tf p.
Proof.
  intros L HC HS HT. destruct (lv_kernel _ _ _ L) as (A & SI & HL & Hp & Hr). rewrite (lv_cur _ _ _ L) in Hp. apply (lives_table k c p); [done|by apply calm_update_pid|].
  destruct (update_pid_or f n _ _ _ Hp) as (p' & Hp' & [->| ->]); eauto.
Qed.

(** ** Arguments *)

Lemma ubyte_spec k c p va Q : lives k c p -> 0 <= va < sz p -> (forall b, Q b k) -> wp (ubyte va) Q k.
Proof.
  intros [(A & SI & HL & Hp & Hs) _ _ _] Hva HQ. destruct (running_dir k A p SI Hp Hs) as (_ & d & Ed & Hd & Hsz).
  pose proof SI as [PI _]. pose proof (pi_vm _ _ PI) as V. pose proof (tb_pages _ _ _ (rp_tbl _ _ (vi_rep _ _ V)) _ _ Hd) as Hdp.
  unfold ubyte, wp. rewrite Hp, Ed, V2P_P2V_page by done. destruct (sized_load (vm k) A d (sz p) va) as [b ->]; [apply V|done|done|done|]. apply HQ.
Qed.

Lemma uargint_spec k c p n : lives k c p -> wp (uargint n) (fun _ k' => k' = k) k.
Proof.
  intros L. unfold uargint, ufetchint. eapply wp_curproc; [done|]. eapply wp_curproc; [done|].
  destruct (lv_kernel _ _ _ L) as (A & SI & HL & Hp & Hs). destruct (running_dir k A p SI Hp Hs) as (_ & d & _ & _ & [Hz _ _]). unfold KERNBASE in Hz.
  set (a := u32 _). pose proof (u32_range (esp (tf p) + 4 + 4 * n) : 0 <= a < _) as Ha. destruct (_ || _) eqn:E; [by apply wp_ret|]. zbool.
  rewrite u32_id in * by lia. unfold uword. wp_step. wp_step.
  do 3 (eapply (ubyte_spec k c p); [done|lia|]; intros ?; wp_step). eapply (ubyte_spec k c p); [done|lia|]. intros ?. apply wp_ret. by apply wp_ret.
Qed.

(** ** The calls *)

Lemma back_same k c p (r : Z) : lives k c p -> ends_well c (tf p) (Back r) k.
Proof. intros L. by exists p. Qed.

Lemma sys_fork_spec k c p : lives k c p -> nextpid k < 2147483647 -> wp sys_fork (ends_well c (tf p)) k.
Proof.
  intros L Hn. destruct (lv_kernel _ _ _ L) as (A & SI & HL & Hp & Hs). pose proof SI as [PI FI].
  destruct (running_dir k A p SI Hp Hs) as (Hv & d & Ed & Hd & _). pose proof (finv_holds k _ p FI Hp Hv ltac:(congruence)) as HH.
  unfold sys_fork. wp_step. eapply wp_mono; [apply (leaves_wp cpu), (fork_spec k A p d); [apply cpu_fork|done..]|].
  intros r k' [(A' & PI' & H) EC]. apply wp_ret. exists p. split; [|done]. rewrite (lv_cur _ _ _ L) in *. destruct H as [(_ & Q)|(_ & FK)].
  - pose proof Q as [Q1 _ (Q2 & _ & Q3 & _) _ _]. eapply (lives_again k k' c p p A'); [done| |congruence|done|apply Q1; [done|congruence]|done].
    split; [done|]. eapply finv_quiet; eauto. by rewrite (pi_len _ _ PI), (pi_len _ _ PI').
  - assert (FI' : finv k') by (apply (finv_forks k k' A p d); auto; rewrite ?(lv_cur _ _ _ L); auto; congruence).
    eapply (lives_again k k' c p p A'); [done|by split|..]; destruct FK as (i & q & f & d' & s' & fs & Hq & _ & Hi & -> & _); [done|done| |done].
    cbn. rewrite (lv_cur _ _ _ L) in Hi. by rewrite list_lookup_insert_ne.
Qed.

Lemma exit_leaves k c p {B} (b : B) (Q : B -> kst F -> Prop) : lives k c p -> (forall k', left_cpu k' c ZOMBIE -> Q b k') -> wp (exit ;;; ret b) Q k.
Proof.
  intros L HQ. destruct (lv_kernel _ _ _ L) as (A & SI & HL & Hp & Hs). wp_step.
  eapply wp_mono; [apply (leaves_wp cpu), (exit_spec k A p); [apply cpu_exit|done..|apply L]|].
  intros [] k' [[SI' HX] EC]. apply wp_ret, HQ. injection EC as E1 E2 E3. destruct HX as [X1 X2 X3 (z & Z1 & Z2 & _) X5]. rewrite (lv_cur _ _ _ L) in Z1.
  split; [|split; [by rewrite E1; apply L|by exists z]]. split; [by exists A|done].
Qed.

Lemma sys_exit_spec k c p : lives k c p -> wp sys_exit (ends_well c (tf p)) k.
Proof. intros L. by apply (exit_leaves k c p). Qed.

(** The end of a pass of [wait]. *)
Lemma wait_pass_ends k c p A :
  sysinv k A -> plock k = true -> cur k = c -> procs k !! c = Some p -> state p = RUNNING -> tickslock k = false -> initproc k <> proc_ptr c ->
  wp wait_pass (fun r k' => match r with Some n => exists p', lives k' c p' /\ tf p' = tf p | None => left_cpu k' c SLEEPING end) k.
Proof.
  intros SI HL Hc Hp Hs Ht Hi. eapply wp_mono; [apply (leaves_wp cpu), (wait_pass_spec k A p); [apply cpu_wait_pass|done|done|by rewrite Hc|done]|].
  intros r k' [(A' & SI' & W) EC]. injection EC as E1 E2 E3. destruct W as [i q f d s' Hq _ Hz _ _ Ek _|_ Ek _|_ _ _ Ek _].
  - exists p. split; [|done]. split; [exists A'; split_and!; try done|congruence|congruence|congruence]; subst k'; [done|].
    cbn. rewrite list_lookup_insert_ne; [congruence|]. intros ->. congruence.
  - exists p. split; [|done]. split; [exists A'; split_and!; try done|congruence|congruence|congruence]; subst k'; [done|]. cbn. congruence.
  - split; [|split; [congruence|]]; [split; [by exists A'|by subst k']|]. eexists. subst k'. cbn. rewrite Hc. split; [apply list_lookup_insert_eq; by eapply lookup_lt_Some|done].
Qed.

Lemma sys_wait_spec k c p : lives k c p -> wp sys_wait (ends_well c (tf p)) k.
Proof.
  intros L. destruct (lv_kernel _ _ _ L) as (A & SI & HL & Hp & Hs). unfold sys_wait, wait. wp_step. wp_step. apply wp_acquire; [done|].
  rewrite (lv_cur _ _ _ L) in *. eapply wp_mono; [apply (wait_pass_ends (set_plock true k) c p A); try done; [by apply sys_plock|by apply L|apply L|rewrite <- (lv_cur _ _ _ L); apply L]|].
  intros [n|] k' H; apply wp_ret; exact H.
Qed.

Lemma sys_kill_spec k c p : lives k c p -> wp sys_kill (ends_well c (tf p)) k.
Proof.
  intros L. destruct (lv_kernel _ _ _ L) as (A & SI & HL & Hp & Hs). unfold sys_kill. wp_step. eapply wp_mono; [by apply (uargint_spec k c p)|].
  intros [n|] k1 ->; [|apply wp_ret; by apply back_same]. wp_step. eapply wp_mono; [by apply (kill_spec k A)|]. intros r k' (_ & -> & _). apply wp_ret.
  apply (lives_update k c p kill_one); [done|apply calm_kill_one| |]; intros q; unfold kill_one; cbn.
  - intros Hq. by rewrite Hq.
  - by case_match.
Qed.

Lemma sys_sbrk_spec k c p :
  lives k c p -> (forall n, uargint 0 k = Ok (Some n) k -> can_grow k n) -> wp sys_sbrk (ends_well c (tf p)) k.
Proof.
  intros L HG. destruct (lv_kernel _ _ _ L) as (A & SI & HL & Hp & Hs). unfold sys_sbrk. wp_step.
  pose proof (uargint_spec k c p 0 L) as HA. unfold wp in HA |- *. destruct (uargint 0 k) as [[n|] k1| | | |]; try done; subst k1; [|by apply back_same].
  destruct (HG n eq_refl) as [Hn HC]. apply (wp_curproc k c p); [done|]. destruct (running_dir k A p SI Hp Hs) as (Hv & d & Ed & Hd & Hsz).
  destruct (HC A p d SI Hp Ed) as [H1 H2]. wp_step.
  eapply wp_mono; [apply (leaves_wp cpu), (growproc_spec k A p d n); [apply cpu_growproc|done..]|]. intros r k' [(A' & SI' & HR) EC].
  assert (exists new, resizes k k' p new) as (new & HP & Hcur & Hlk & _) by (destruct HR as [(_ & new & _ & HR & _)|(_ & _ & HR)]; eauto).
  assert (L' : lives k' c (set_sz new p)).
  { rewrite (lv_cur _ _ _ L) in *. eapply (lives_again k); [done|done|congruence|done| |done]. rewrite HP. apply list_lookup_insert_eq. by eapply lookup_lt_Some. }
  destruct (r <? 0); apply wp_ret; by exists (set_sz new p).
Qed.

Lemma sleep_turn_spec k c p A n t0 :
  in_kernel k A p -> tickslock k = true -> initproc k <> proc_ptr (cur k) -> cur k = c -> wp (sleep_turn n t0) (ends_well c (tf p)) k.
Proof.
  intros (SI & HL & Hp & Hs) HT Hi Hc. assert (L : lives (set_tickslock false k) c p).
  { split; [exists A; split_and!; try done|done|done|done]. eapply sys_calm; [exact SI|done|done|done|apply Forall2_calm_refl]. }
  assert (HR : forall r, wp (release_ticks ;;; ret (Back r)) (ends_well c (tf p)) k).
  { intros r. wp_step. unfold wp, release_ticks. rewrite HT. apply wp_ret. by exists p. }
  unfold sleep_turn. wp_step. apply wp_gets. destruct (_ <? _); [|apply HR]. wp_step. unfold curproc, myproc. wp_step. wp_step. eapply wp_getp; [done|].
  destruct (negb _); [apply HR|]. wp_step. unfold sleep, sleep_ptable, myproc. wp_step. apply wp_acquire; [done|]. wp_step.
  unfold wp at 1, release_ticks. cbn [tickslock set_plock]. rewrite HT. wp_step. apply wp_gets. cbn [cur set_plock set_tickslock]. eapply wp_setp; [exact Hp|]. apply wp_ret.
  pose proof (lookup_lt_Some _ _ _ Hp) as Hlt. split; [|split; [done|eexists; cbn; rewrite Hc in *; by rewrite list_lookup_insert_eq]].
  split; [|done]. exists A. apply (sys_setp (set_tickslock false (set_plock true k)) A (cur k) p (fun q => set_state SLEEPING (set_chan ticks_addr q))); [|done|].
  - eapply sys_calm; [exact SI|done|done|done|apply Forall2_calm_refl].
  - unfold calm, same_res, has_vm. cbn. by rewrite Hs.
Qed.

Lemma sys_sleep_spec k c p : lives k c p -> wp sys_sleep (ends_well c (tf p)) k.
Proof.
  intros L. destruct (lv_kernel _ _ _ L) as (A & SI & HL & Hp & Hs). unfold sys_sleep. wp_step. eapply wp_mono; [by apply (uargint_spec k c p)|].
  intros [n|] k1 ->; [|apply wp_ret; by apply back_same]. wp_step. unfold wp at 1, acquire_ticks. rewrite (lv_ticks _ _ _ L). wp_step. apply wp_gets.
  apply (sleep_turn_spec (set_tickslock true k) c p A); [split_and!; try done|done|apply L|apply L].
  eapply sys_calm; [exact SI|done|done|done|apply Forall2_calm_refl].
Qed.

Lemma sys_uptime_spec k c p : lives k c p -> wp sys_uptime (ends_well c (tf p)) k.
Proof.
  intros L. unfold sys_uptime. wp_step. unfold wp at 1, acquire_ticks. rewrite (lv_ticks _ _ _ L). wp_step. apply wp_gets. wp_step. unfold wp at 1, release_ticks.
  cbn [tickslock set_tickslock]. apply wp_ret. exists p. split; [|done]. pose proof (lv_ticks _ _ _ L) as HT. destruct k. cbn in *. by subst.
Qed.

Lemma getNumFreePages_spec (s : vmst) A : vminv s A -> wp getNumFreePages (fun _ s' => s' = s) s.
Proof.
  intros V. pose proof (rp_kl _ _ (vi_rep _ _ V)) as HK. unfold getNumFreePages, wp, bind, gets, when, acquire_kmem, release_kmem, ret.
  destruct (negb (use_lock s =? 0)) eqn:E; [|by rewrite E]. rewrite HK. cbn. rewrite E. destruct s. cbn in *. by subst.
Qed.

(** The calls that set a scheduling parameter. *)
Lemma set_param_spec k c p (f : Z -> proc -> proc) (j : junk) :
  lives k c p -> (forall x q, calm q (f x q)) -> (forall x q, state (f x q) = state q /\ tf (f x q) = tf q) ->
  wp (let! a := arg2 j in modify (fun k => set_procs (update_pid (f a.1) a.2 (procs k)) k) ;;; ret (Back (jk_result j))) (ends_well c (tf p)) k.
Proof.
  intros L HC HF. wp_step. unfold arg2. wp_step. eapply wp_mono; [by apply (uargint_spec k c p)|]. intros a k1 ->. wp_step.
  eapply wp_mono; [by apply (uargint_spec k c p)|]. intros b k1 ->. wp_step. wp_step. apply wp_modify. apply wp_ret.
  apply lives_update; [done|apply HC| |]; intros q; [by rewrite (proj1 (HF _ q))|apply HF].
Qed.

Lemma call_spec `{CL : !CallLaws} (j : junk) (n : sysno) k c p :
  lives k c p -> nextpid k < 2147483647 -> (n = SYS_sbrk -> forall m, uargint 0 k = Ok (Some m) k -> can_grow k m) ->
  wp (call j n) (call_ends_well n c (tf p)) k.
Proof.
  intros L Hn HG. assert (HB : forall r, ends_well c (tf p) (Back r) k) by (intros r; by apply back_same).
  assert (HE : forall d, wp d (ends_well c (tf p)) k -> wp d (call_ends_well n c (tf p)) k).
  { intros d H. eapply wp_mono; [exact H|]. intros [r| |] k'; [|done|done]. intros (p' & H1 & H2). by exists p'. }
  destruct n; cbn [call]; try (by apply file_call_law); apply HE.
  - by apply sys_fork_spec.
  - by apply sys_exit_spec.
  - by apply sys_wait_spec.
  - by apply sys_kill_spec.
  - eapply wp_curproc; [done|]. by apply wp_ret.
  - apply sys_sbrk_spec; auto.
  - by apply sys_sleep_spec.
  - by apply sys_uptime_spec.
  - wp_step. eapply wp_mono; [by apply (uargint_spec k c p)|]. intros a k1 ->. by apply wp_ret.
  - by apply wp_ret.
  - by apply (set_param_spec k c p set_burst_time).
  - by apply (set_param_spec k c p set_priority).
  - by apply (set_param_spec k c p set_lottery_ticket).
  - by apply (set_param_spec k c p set_schedQueue).
  - by apply wp_ret.
  - destruct (lv_kernel _ _ _ L) as (A & [PI _] & _). unfold sys_getNumFreePages. wp_step. apply wp_zoom. eapply wp_mono; [apply (getNumFreePages_spec _ A), PI|].
    intros r s' ->. apply wp_ret. replace (set_vm (vm k) k) with k by (by destruct k). apply HB.
Qed.

(** ** Page faults *)

Lemma kpg_pagefault (va pg : Z) : leaves kpgdir (pagefault va pg).
Proof.
  assert (H1 : forall v, leaves kpgdir (kload v)) by (intros v s a s'; unfold kload; case_match; [by intros [= <- <-]|done]).
  assert (H2 : forall v x, leaves kpgdir (kstore v x)) by (intros v x s a s'; unfold kstore; case_match; [by intros [= <- <-]|done]).
  assert (H3 : forall d c n, leaves kpgdir (kmemset d c n)) by (intros d c n s a s'; unfold kmemset; case_match; [by intros [= <- <-]|done]).
  assert (H4 : forall d c n, leaves kpgdir (kmemmove d c n)) by (intros d c n s a s'; unfold kmemmove; case_match; [by intros [= <- <-]|done]).
  assert (H5 : leaves kpgdir acquire_vm) by (intros s a s'; unfold acquire_vm; case_match; [done|by intros [= <- <-]]).
  assert (H6 : leaves kpgdir release_vm) by (intros s a s'; unfold release_vm; case_match; [by intros [= <- <-]|done]).
  assert (H7 : leaves kpgdir acquire_kmem) by (intros s a s'; unfold acquire_kmem; case_match; [done|by intros [= <- <-]]).
  assert (H8 : leaves kpgdir release_kmem) by (intros s a s'; unfold release_kmem; case_match; [by intros [= <- <-]|done]).
  assert (H9 : forall i, leaves kpgdir (rc_get i)) by (intros i s a s'; unfold rc_get; case_match; [by intros [= <- <-]|done]).
  assert (H10 : forall i x, leaves kpgdir (rc_set i x)) by (intros i x s a s'; unfold rc_set; case_match; [by intros [= <- <-]|done]).
  unfold pagefault, pagefault_copy, walkpgdir, kalloc, lcr3. repeat first [apply H1|apply H2|apply H3|apply H4|apply H5|apply H6|apply H7|apply H8|apply H9|apply H10|leaves_step].
Qed.

(** The hardware refused the access. *)
Definition genuine k p (va : Z) : Prop := 0 <= va < 4294967296 /\ exists wr, mmu (mem (vm k)) (V2P (pgdir p)) va wr = None.

(** Changing the memory subsystem under the processes. *)
Lemma sys_pages k A A' (s' : vmst) (c : nat) p :
  sysinv k A -> procs k !! c = Some p -> vminv s' A' -> kpgdir s' = kpgdir (vm k) -> keeps A A' -> dirs A' = dirs A -> sysinv (set_vm s' k) A'.
Proof.
  intros [PI FI] Hp V' Ek KP ED. split; [|by destruct FI].
  apply (pinv_slot_keeps k (set_vm s' k) A A' c p p PI); try done.
  - by cbn; rewrite list_insert_id.
  - eapply slot_keeps; [apply (pi_slot _ _ PI _ _ Hp)|..]; done.
  - intros j q Hj Hq. by eapply (pi_apart _ _ PI).
Qed.

Lemma fault_spec k c p va :
  lives k c p -> genuine k p va -> wp (onvm (pagefault va (pgdir p))) (fun _ k' => lives k' c p) k.
Proof.
  intros L [Hva (wr & HM)]. destruct (lv_kernel _ _ _ L) as (A & SI & HL & Hp & Hs). destruct (running_dir k A p SI Hp Hs) as (_ & d & Ed & Hd & _).
  pose proof SI as [PI _]. pose proof (pi_vm _ _ PI) as V. pose proof (tb_pages _ _ _ (rp_tbl _ _ (vi_rep _ _ V)) _ _ Hd) as Hdp.
  rewrite Ed in *. rewrite V2P_P2V_page in HM by done. rewrite (mmu_spec _ A) in HM by (done || apply V).
  destruct (pagefault_other_spec (vm k) A d va V Hd Hva) as [HO _]. rewrite (lv_cur _ _ _ L) in *.
  assert (HSame : refused A d va -> wp (onvm (pagefault va (P2V d))) (fun _ k' => lives k' c p) k).
  { intros HR. unfold onvm. apply wp_zoom. unfold wp. rewrite (HO HR). replace (set_vm (vm k) k) with k by (by destruct k). done. }
  destruct (Z.le_gt_cases KERNBASE va) as [Hk|Hk]; [apply HSame; by left|].
  destruct (maps A !! (d, vpn va)) as [e|] eqn:He; [|apply HSame; right; by rewrite He].
  destruct (Z.testbit e 2) eqn:E2; [|apply HSame; right; by rewrite He].
  assert (E1 : Z.testbit e 1 = false).
  { destruct (entry_facts _ A d _ e (vi_rep _ _ V) He) as (_ & _ & Hpr & _). unfold present in Hpr. unfold mmu_allows in HM. rewrite Hpr, E2 in HM. destruct (Z.testbit e 1), wr; done. }
  apply wp_zoom. eapply wp_mono; [apply (leaves_wp kpgdir), (pagefault_spec (vm k) A d va e); [apply kpg_pagefault|done..|lia|done|done|done]|].
  intros b s' [(A' & V' & H) Ek]. assert (KP : keeps A A' /\ dirs A' = dirs A).
  { destruct b; [destruct H as [-> _]; split; [apply keeps_refl|done]|by eapply resolved_keeps]. }
  eapply (lives_again k); [done|eapply sys_pages; [exact SI|exact Hp|exact V'|done|apply KP|apply KP]|done|done|done|done].
Qed.

(** ** [trap] *)

Lemma lives_setp k c p f : lives k c p -> calm p (f p) -> state (f p) = state p -> lives (set_procs (<[c := f p]> (procs k)) k) c (f p).
Proof.
  intros L HC Hst. destruct (lv_kernel _ _ _ L) as (A & SI & HL & Hp & Hs). rewrite (lv_cur _ _ _ L) in Hp.
  eapply (lives_again k); [done|by apply (sys_setp k A c p f)|done|done| |congruence]. apply list_lookup_insert_eq. by eapply lookup_lt_Some.
Qed.

(** [setp] on the running process. *)
Lemma wp_setme k c p f (Q : unit -> kst F -> Prop) :
  lives k c p -> Q tt (set_procs (<[c := f p]> (procs k)) k) -> wp (let! i := myproc in setp i f) Q k.
Proof.
  intros L HQ. destruct (lv_kernel _ _ _ L) as (A & SI & HL & Hp & Hs). unfold myproc. wp_step. apply wp_gets. rewrite (lv_cur _ _ _ L) in *. by eapply wp_setp.
Qed.

Lemma calm_killed p : calm p (set_killed 1 p).
Proof. by split_and!. Qed.
Lemma calm_frame p t : calm p (set_tf t p).
Proof. by split_and!. Qed.

Definition same_frame (c : nat) (fr : trapframe) k : Prop := exists p, lives k c p /\ tf p = fr.

Lemma kill_me_spec k c p : lives k c p -> wp kill_me (fun _ => same_frame c (tf p)) k.
Proof.
  intros L. apply (wp_setme k c p); [done|]. exists (set_killed 1 p). split; [|done]. apply lives_setp; [done|apply calm_killed|done].
Qed.

Lemma tick_spec k c p : lives k c p -> wp tick (fun _ => same_frame c (tf p)) k.
Proof.
  intros L. destruct (lv_kernel _ _ _ L) as (A & SI & HL & Hp & Hs). unfold tick. apply wp_when; [intros _|intros _; by exists p].
  wp_step. unfold wp at 1, acquire_ticks. rewrite (lv_ticks _ _ _ L). wp_step. apply wp_modify. wp_step. set (k1 := set_ticks _ _).
  assert (SI1 : sysinv k1 A) by (eapply sys_calm; [exact SI|done|done|done|apply Forall2_calm_refl]).
  eapply wp_mono; [by apply (wakeup_spec k1 A)|]. intros [] k2 [SI2 ->]. unfold wp, release_ticks. cbn [tickslock set_procs k1 set_ticks set_tickslock].
  exists p. split; [|done]. rewrite (lv_cur _ _ _ L) in *. eapply (lives_again k); [done| |done| | |done].
  - eapply sys_calm; [exact SI2|done|done|done|apply Forall2_calm_refl].
  - unfold cpu. cbn. by rewrite (lv_ticks _ _ _ L).
  - cbn. unfold wakeup1. rewrite list_lookup_fmap, Hp. cbn. unfold wakeup1_one. by rewrite Hs.
Qed.

Lemma handle_spec `{CL : !CallLaws} k c p frame cr2 :
  lives k c p -> Z.land (cs frame) 3 = DPL_USER -> (trapno frame = T_PGFLT -> genuine k p cr2) ->
  wp (handle frame cr2) (fun _ => same_frame c (tf p)) k.
Proof.
  intros L HU HG. assert (H0 : same_frame c (tf p) k) by (by exists p).
  assert (HD : forall d, wp d (fun _ k' => exists p', lives k' c p' /\ tf p' = tf p /\ killed p' = killed p) k -> wp d (fun _ : unit => same_frame c (tf p)) k).
  { intros d H. eapply wp_mono; [exact H|]. intros _ k' (p' & H1 & H2 & _). by exists p'. }
  unfold handle. destruct (Z.eqb_spec (trapno frame) T_PGFLT) as [E|_].
  { eapply wp_curproc; [done|]. wp_step. eapply wp_mono; [apply (fault_spec k c p cr2 L), HG, E|]. intros [] k1 L1; [by apply kill_me_spec|apply wp_ret; by exists p]. }
  do 3 (case_match; [first [by apply tick_spec|apply HD; by apply ideintr_law|by apply wp_ret]|]).
  do 3 (case_match; [first [apply HD; by apply kbdintr_law|apply HD; by apply uartintr_law|by apply wp_ret]|]).
  rewrite HU. by apply kill_me_spec.
Qed.

Lemma call_ends_spec n k c p o fr :
  call_ends_well n c fr o k -> (forall r, o = Back r -> procs k !! c = Some p) ->
  wp (call_ends o) (fun e k' => match e with
    | ToUser => exists r, o = Back r /\ lives k' c p /\ killed p = 0
    | Dead => left_cpu k' c ZOMBIE
    | Waiting => left_cpu k' c SLEEPING
    | Yielded => False end) k.
Proof.
  intros H HP. destruct o as [r| |]; [|by apply wp_ret..]. destruct H as (p0 & L & _). assert (p0 = p) as ->.
  { destruct (lv_kernel _ _ _ L) as (A & _ & _ & Hp & _). rewrite (lv_cur _ _ _ L), (HP r) in Hp by done. by injection Hp. }
  cbn [call_ends]. eapply wp_curproc; [done|]. destruct (negb _) eqn:E.
  - by eapply exit_leaves.
  - apply wp_ret. exists r. split_and!; [done|done|lia].
Qed.

Lemma finish_call_spec n k c o fr :
  call_ends_well n c fr o k -> wp (finish_call o) (fun o' k' => o' = o /\ match o with
    | Back r => exists p', lives k' c p' /\ (n <> SYS_exec -> tf p' = set_eax (u32 r) fr)
    | _ => call_ends_well n c fr o k' end) k.
Proof.
  intros H. destruct o as [r| |]; [|by apply wp_ret..]. destruct H as (p & L & HT). cbn [finish_call]. wp_step. unfold set_result.
  eapply wp_setme; [done|]. apply wp_ret. split; [done|]. eexists. split; [apply (lives_setp k c p (fun q => set_tf (set_eax (u32 r) (tf q)) q)); [done|apply calm_frame|done]|].
  intros Hn. cbn. by rewrite HT.
Qed.

(** How a trap ends, with the frame satisfying [P] if it ends in user mode. *)
Definition trap_ends (c : nat) (P : trapframe -> Prop) (e : ending) k : Prop :=
  match e with
  | ToUser => exists p, lives k c p /\ killed p = 0 /\ P (tf p)
  | Dead => left_cpu k c ZOMBIE
  | Waiting => left_cpu k c SLEEPING
  | Yielded => left_cpu k c RUNNABLE
  end.

(** What a system call may do to the frame [fr]: set the result. *)
Definition result_in (n : option sysno) (fr t : trapframe) : Prop := n <> Some SYS_exec -> exists r, t = set_eax r fr.

(** A call ends, and the trap with it. *)
Lemma finish_trap n k c o fr :
  call_ends_well n c fr o k -> wp (let! o := finish_call o in call_ends o) (trap_ends c (result_in (Some n) fr)) k.
Proof.
  intros H. wp_step. eapply wp_mono; [by apply finish_call_spec|]. intros o' k' [-> H']. destruct o as [r| |]; [|by apply wp_ret..].
  destruct H' as (p' & L & HT). eapply wp_mono; [apply (call_ends_spec n k' c p' (Back r) (tf p')); [by exists p'|intros _ _; destruct (lv_kernel _ _ _ L) as (A & _ & _ & Hp & _); by rewrite <- (lv_cur _ _ _ L)]|].
  intros [] k2; [|done..]. intros (r' & _ & L2 & HK). exists p'. split_and!; [done|done|]. intros Hn. exists (u32 r). apply HT. congruence.
Qed.

Lemma same_result n k c o fr : call_ends_well SYS_fork c fr o k ->
  wp (let! o := finish_call o in call_ends o) (trap_ends c (result_in n fr)) k.
Proof.
  intros H. eapply wp_mono; [apply (finish_trap SYS_fork); exact H|]. intros [] k'; [|done..]. intros (p & L & HK & HT). exists p. split_and!; [done|done|].
  intros _. by apply HT.
Qed.

(** ** The theorems *)

(** A trap from user mode: [cr2] is the address of a page fault, which the
    hardware has raised; a call of [sbrk] asks for what [growproc] can do. *)
Record user_trap k p (frame : trapframe) (cr2 : Z) : Prop := mkuser_trap {
  ut_user : Z.land (cs frame) 3 = DPL_USER;
  ut_pids : nextpid k < 2147483647;
  ut_fault : trapno frame = T_PGFLT -> genuine k p cr2;
  ut_sbrk : sys_of (i32 (eax frame)) = Some SYS_sbrk ->
    let k1 := set_procs (<[cur k := set_tf frame p]> (procs k)) k in forall n, uargint 0 k1 = Ok (Some n) k1 -> can_grow k1 n;
}.

Lemma doomed_spec k c p frame Q :
  lives k c p -> Z.land (cs frame) 3 = DPL_USER ->
  (forall k', left_cpu k' c ZOMBIE -> Q Dead k') -> forall rest, (killed p = 0 -> wp rest Q k) ->
  wp (let! d := doomed frame in if d : bool then exit ;;; ret Dead else rest) Q k.
Proof.
  intros L HU HQ rest HR. wp_step. unfold doomed. eapply wp_curproc; [done|]. apply wp_ret. rewrite HU, andb_true_r.
  destruct (negb _) eqn:E; [by eapply exit_leaves|]. apply HR. lia.
Qed.

(** The call in a trap with [T_SYSCALL]. *)
Lemma trap_syscall_spec `{CL : !CallLaws} (j : junk) k c p frame cr2 :
  lives k c p -> user_trap k p frame cr2 -> trapno frame = T_SYSCALL ->
  wp (trap j frame cr2) (trap_ends c (result_in (sys_of (i32 (eax frame))) frame)) k.
Proof.
  intros L [U1 U2 U3 U4] E. destruct (lv_kernel _ _ _ L) as (A & SI & HL & Hp & Hs). unfold trap. rewrite E. cbn [Z.eqb Pos.eqb T_SYSCALL].
  unfold myproc. wp_step. apply wp_gets. wp_step. eapply wp_getp; [done|]. destruct (negb _) eqn:EK; [by eapply exit_leaves|].
  wp_step. eapply wp_setp; [done|]. pose proof (lives_setp k c p (set_tf frame) L (calm_frame p frame) eq_refl) as L1. rewrite (lv_cur _ _ _ L) in *.
  set (k1 := set_procs _ k) in *. unfold syscall. wp_step. eapply wp_curproc; [done|]. cbn [tf set_tf].
  destruct (sys_of (i32 (eax frame))) as [n|] eqn:EN.
  - wp_step. eapply wp_mono; [apply (call_spec j n k1 c (set_tf frame p) L1 U2)|].
    { intros ->. by apply U4. }
    intros o k2 H2. pose proof (finish_trap n k2 c o frame H2) as H3. unfold wp, bind in H3 |- *. by destruct (finish_call o k2).
  - pose proof (same_result None k1 c (Back (-1)) frame) as H3. unfold wp, bind in H3 |- *. destruct (finish_call _ k1); apply H3; by exists (set_tf frame p).
Qed.

(** The other traps. *)
Lemma trap_handle_spec `{CL : !CallLaws} (j : junk) k c p frame cr2 :
  lives k c p -> user_trap k p frame cr2 -> trapno frame <> T_SYSCALL -> wp (trap j frame cr2) (trap_ends c (fun t => t = tf p)) k.
Proof.
  intros L [U1 U2 U3 U4] E. unfold trap. rewrite (proj2 (Z.eqb_neq _ _) E). wp_step. eapply wp_mono; [by apply (handle_spec k c p)|].
  intros [] k1 (p1 & L1 & T1). apply (doomed_spec k1 c p1); [done|done|done|]. intros _. eapply wp_curproc; [done|].
  destruct (lv_kernel _ _ _ L1) as (A & SI & HL & Hp & Hs). destruct (_ && _).
  - wp_step. unfold yield, myproc. wp_step. apply wp_acquire; [done|]. wp_step. apply wp_gets. cbn [cur set_plock]. eapply wp_setp; [done|]. apply wp_ret.
    pose proof (lookup_lt_Some _ _ _ Hp) as Hlt. split; [|split; [apply L1|eexists; cbn; rewrite (lv_cur _ _ _ L1) in *; by rewrite list_lookup_insert_eq]].
    split; [|done]. exists A. apply (sys_setp (set_plock true k1) A (cur k1) p1 (set_state RUNNABLE)); [by apply sys_plock|done|].
    unfold calm, same_res, has_vm. cbn. by rewrite Hs.
  - apply (doomed_spec k1 c p1); [done|done|done|]. intros HK. apply wp_ret. by exists p1.
Qed.


(** A process that the scheduler has just switched to, inside [sched]. *)
Record enters k (c : nat) p : Prop := mkenters {
  en_sys : exists A, sysinv k A;
  en_lock : plock k = true;
  en_proc : procs k !! c = Some p /\ state p = RUNNING;
  en_ticks : tickslock k = false;
  en_init : initproc k <> proc_ptr c;
  en_cur : cur k = c;
}.

Lemma enters_lives k c p : enters k c p -> lives (set_plock false k) c p.
Proof.
  intros [(A & SI) HL [Hp Hs] HT Hi Hc]. split; [exists A; split_and!; [by apply sys_plock|done|by cbn; rewrite Hc|done]|done|by cbn; rewrite Hc|done].
Qed.

Lemma enters_chan k c p : enters k c p -> enters (set_procs (<[c := set_chan 0 p]> (procs k)) k) c (set_chan 0 p).
Proof.
  intros [(A & SI) HL [Hp Hs] HT Hi Hc]. split; try done; [exists A; apply sys_setp; [done|done|apply calm_chan]|].
  split; [apply list_lookup_insert_eq; by eapply lookup_lt_Some|done].
Qed.

(** What was interrupted by a switch to another process goes on: after a
    [yield], after the sleep in [wait], and after the sleep in [sleep], the
    trap ends as in [trap_safe]. *)
Theorem resume_safe k c p frame (n t0 : Z) :
  enters k c p -> Z.land (cs frame) 3 = DPL_USER ->
  wp (trap_resume frame) (trap_ends c (fun t => t = tf p)) k /\
  wp wait_returns (trap_ends c (result_in (Some SYS_wait) (tf p))) k /\
  wp (sleep_returns n t0) (trap_ends c (result_in (Some SYS_sleep) (tf p))) k.
Proof.
  intros E HU. pose proof (enters_lives k c p E) as L. pose proof E as [(A & SI) HL [Hp Hs] HT Hi Hc]. split_and!.
  - unfold trap_resume. wp_step. apply wp_release; [done|]. apply (doomed_spec (set_plock false k) c p); [done|done|done|]. intros HK. apply wp_ret. by exists p.
  - unfold wait_returns, wait_resume, myproc. wp_step. wp_step. apply wp_gets. wp_step. rewrite Hc. eapply wp_setp; [done|].
    destruct (enters_chan k c p E) as [(A1 & SI1) HL1 [Hp1 Hs1] HT1 Hi1 Hc1].
    eapply wp_mono; [by apply (wait_pass_ends _ c (set_chan 0 p) A1)|]. intros [m|] k' H; apply (same_result (Some SYS_wait)); [destruct H as (p' & L' & HT'); by exists p'|done].
  - unfold sleep_returns, sys_sleep_resume, sleep_resume, myproc. wp_step. wp_step. wp_step. apply wp_gets. wp_step. rewrite Hc. eapply wp_setp; [done|].
    destruct (enters_lives _ _ _ (enters_chan k c p E)) as [(A1 & K1) T1 I1 C1]. wp_step. apply wp_release; [done|]. unfold wp at 1, acquire_ticks. cbn [tickslock set_plock set_procs]. rewrite HT.
    eapply wp_mono; [eapply (sleep_turn_spec _ c (set_chan 0 p) A1); [|done|exact I1|exact C1]|].
    + destruct K1 as (SI1 & ? & ? & ?). split_and!; try done. eapply sys_calm; [exact SI1|done|done|done|apply Forall2_calm_refl].
    + intros o k' H. apply (same_result (Some SYS_sleep)). destruct o as [r| |]; [destruct H as (p' & L' & HT'); by exists p'|done..].
Qed.
End Safe.

(** ** At the sample system *)

Module TrapSample.
Import ProcSample.

#[export] Instance cpu0 : CpuInfo := { ticks_addr := 2148532224; cpu_id := 0 }.
#[export] Instance no_calls : FileCalls counts :=
  { file_call := fun _ => ret (Back (-1)); ideintr := ret tt; kbdintr := ret tt; uartintr := ret tt }.
#[export] Instance no_calls_laws : CallLaws.
Proof.
  split; intros; [apply wp_ret; by eexists|..]; apply wp_ret; by eexists.
Qed.

(** The child calls [fork]. *)
Definition fork_frame : trapframe := mktf 0 0 0 0 0 0 0 1 0 0 35 35 64 0 100 27 512 4000 35.
Definition child_sys : kst counts := sys SLEEPING RUNNING 1.

Lemma child_lives : lives child_sys 1 (child_proc RUNNING).
Proof. split; [exists Sample.abs; apply sample_child_in_kernel|done|discriminate|done]. Qed.

Lemma fork_trap : user_trap child_sys (child_proc RUNNING) fork_frame 0.
Proof. split; [done|done|done|]. intros H. vm_compute in H. discriminate H. Qed.

End TrapSample.
