(* ===== verification/Entry.v ===== *)
(** * Entry: entering and leaving the kernel ([vectors.pl], [trapasm.S], [swtch.S], [usys.S], [tvinit])

    The assembly routines as programs of a small x86: the entry points
    generated by [vectors.pl], [alltraps], [trapret], [swtch] and the stubs of
    the system calls, with the interrupt table that [tvinit] builds and what
    the processor does on an interrupt and on [iret].  The theorems are that
    [trap] receives the frame its type describes and that leaving the kernel
    puts the registers back. *)
From stdpp Require Import base list numbers strings.
From Stdlib Require Import ZArith Lia ZifyBool.
From S2P Require Import Prelude Machine Ptable Proc Trap.

(** ** The processor *)

Inductive reg := EAX | ECX | EDX | EBX | ESP | EBP | ESI | EDI.
Inductive seg := CS | DS | ES | FS | GS | SS.

Record gregs := mkg { g_eax : Z; g_ecx : Z; g_edx : Z; g_ebx : Z; g_esp : Z; g_ebp : Z; g_esi : Z; g_edi : Z }.
Record sregs := mks { s_cs : Z; s_ds : Z; s_es : Z; s_fs : Z; s_gs : Z; s_ss : Z }.
Record cpu := mkcpu { gr : gregs; sr : sregs; pc : Z; flags : Z; mem : memory }.

Definition getr (c : cpu) (r : reg) : Z :=
  match r with
  | EAX => g_eax (gr c) | ECX => g_ecx (gr c) | EDX => g_edx (gr c) | EBX => g_ebx (gr c)
  | ESP => g_esp (gr c) | EBP => g_ebp (gr c) | ESI => g_esi (gr c) | EDI => g_edi (gr c)
  end.
Definition setg (g : gregs) (r : reg) (v : Z) : gregs :=
  match r with
  | EAX => mkg v (g_ecx g) (g_edx g) (g_ebx g) (g_esp g) (g_ebp g) (g_esi g) (g_edi g)
  | ECX => mkg (g_eax g) v (g_edx g) (g_ebx g) (g_esp g) (g_ebp g) (g_esi g) (g_edi g)
  | EDX => mkg (g_eax g) (g_ecx g) v (g_ebx g) (g_esp g) (g_ebp g) (g_esi g) (g_edi g)
  | EBX => mkg (g_eax g) (g_ecx g) (g_edx g) v (g_esp g) (g_ebp g) (g_esi g) (g_edi g)
  | ESP => mkg (g_eax g) (g_ecx g) (g_edx g) (g_ebx g) v (g_ebp g) (g_esi g) (g_edi g)
  | EBP => mkg (g_eax g) (g_ecx g) (g_edx g) (g_ebx g) (g_esp g) v (g_esi g) (g_edi g)
  | ESI => mkg (g_eax g) (g_ecx g) (g_edx g) (g_ebx g) (g_esp g) (g_ebp g) v (g_edi g)
  | EDI => mkg (g_eax g) (g_ecx g) (g_edx g) (g_ebx g) (g_esp g) (g_ebp g) (g_esi g) v
  end.
Definition gets_ (c : cpu) (s : seg) : Z :=
  match s with CS => s_cs (sr c) | DS => s_ds (sr c) | ES => s_es (sr c) | FS => s_fs (sr c) | GS => s_gs (sr c) | SS => s_ss (sr c) end.
Definition setsg (g : sregs) (s : seg) (v : Z) : sregs :=
  match s with
  | CS => mks v (s_ds g) (s_es g) (s_fs g) (s_gs g) (s_ss g)
  | DS => mks (s_cs g) v (s_es g) (s_fs g) (s_gs g) (s_ss g)
  | ES => mks (s_cs g) (s_ds g) v (s_fs g) (s_gs g) (s_ss g)
  | FS => mks (s_cs g) (s_ds g) (s_es g) v (s_gs g) (s_ss g)
  | GS => mks (s_cs g) (s_ds g) (s_es g) (s_fs g) v (s_ss g)
  | SS => mks (s_cs g) (s_ds g) (s_es g) (s_fs g) (s_gs g) v
  end.
Definition setr (r : reg) (v : Z) (c : cpu) : cpu := mkcpu (setg (gr c) r v) (sr c) (pc c) (flags c) (mem c).
Definition sets (s : seg) (v : Z) (c : cpu) : cpu := mkcpu (gr c) (setsg (sr c) s v) (pc c) (flags c) (mem c).
Definition set_pc (x : Z) (c : cpu) : cpu := mkcpu (gr c) (sr c) x (flags c) (mem c).
Definition set_flags (x : Z) (c : cpu) : cpu := mkcpu (gr c) (sr c) (pc c) x (mem c).
Definition set_mem (x : memory) (c : cpu) : cpu := mkcpu (gr c) (sr c) (pc c) (flags c) x.

Definition load16 (m : memory) (a : Z) : Z := m a + 256 * m (a + 1).
Definition store16 (m : memory) (a v : Z) : memory :=
  fun x => if x =? a then v mod 256 else if x =? a + 1 then v / 256 mod 256 else m x.

(** A push moves the stack by a word; of a segment register it is only sure
    that the lower half is written. *)
Inductive item := W (v : Z) | H (v : Z).
Definition put (m : memory) (a : Z) (it : item) : memory := match it with W v => store32 m a v | H v => store16 m a v end.
Definition push (it : item) (c : cpu) : cpu :=
  let a := u32 (getr c ESP - 4) in set_mem (put (mem c) a it) (setr ESP a c).
Definition pushl (its : list item) (c : cpu) : cpu := fold_left (fun c it => push it c) its c.

Definition top32 (c : cpu) : Z := load32 (mem c) (getr c ESP).
Definition top16 (c : cpu) : Z := load16 (mem c) (getr c ESP).
Definition addesp (n : Z) (c : cpu) : cpu := setr ESP (u32 (getr c ESP + n)) c.

(** The instructions that the routines use. *)
Inductive instr :=
  | Ipush_r (r : reg)
  | Ipush_i (n : Z)
  | Ipush_s (s : seg)
  | Ipushal
  | Ipop_r (r : reg)
  | Ipop_s (s : seg)
  | Ipopal
  | Iaddl_esp (n : Z)
  | Imovw_ax (n : Z)
  | Imovw_s (s : seg)
  | Imovl_i (n : Z) (dst : reg)
  | Imovl_rr (src dst : reg)
  | Imovl_load (off : Z) (base dst : reg)
  | Imovl_store (src base : reg).

Definition pop_r (r : reg) (c : cpu) : cpu := setr r (top32 c) (addesp 4 c).
Definition pop_s (s : seg) (c : cpu) : cpu := sets s (top16 c) (addesp 4 c).

Definition step (c : cpu) (i : instr) : cpu :=
  match i with
  | Ipush_r r => push (W (getr c r)) c
  | Ipush_i n => push (W n) c
  | Ipush_s s => push (H (gets_ c s)) c
  | Ipushal => pushl (W <$> (getr c <$> [EAX; ECX; EDX; EBX; ESP; EBP; ESI; EDI])) c
  | Ipop_r r => pop_r r c
  | Ipop_s s => pop_s s c
  | Ipopal => pop_r EAX (pop_r ECX (pop_r EDX (pop_r EBX (addesp 4 (pop_r EBP (pop_r ESI (pop_r EDI c)))))))
  | Iaddl_esp n => addesp n c
  | Imovw_ax n => setr EAX (Z.land (getr c EAX) 0xFFFF0000 + n) c
  | Imovw_s s => sets s (getr c EAX mod 65536) c
  | Imovl_i n dst => setr dst n c
  | Imovl_rr src dst => setr dst (getr c src) c
  | Imovl_load off base dst => setr dst (load32 (mem c) (getr c base + off)) c
  | Imovl_store src base => set_mem (store32 (mem c) (getr c base) (getr c src)) c
  end.
Definition exec_code (code : list instr) (c : cpu) : cpu := fold_left step code c.

Definition do_ret (c : cpu) : cpu := set_pc (top32 c) (addesp 4 c).

(** ** The interrupt table *)

Definition SEG_KCODE : Z := 1.
Definition SEG_KDATA : Z := 2.
Definition STS_IG32 : Z := 14.
Definition STS_TG32 : Z := 15.

(** [struct gatedesc]: the bit fields. *)
Record gatedesc := mkgate {
  off_15_0 : Z;
  gd_cs : Z;
  gd_args : Z;
  gd_rsv1 : Z;
  gd_type : Z;
  gd_s : Z;
  gd_dpl : Z;
  gd_p : Z;
  off_31_16 : Z;
}.

Definition SETGATE (istrap : bool) (sel off d : Z) : gatedesc :=
  mkgate (Z.land (u32 off) 65535) sel 0 0 (if istrap then STS_TG32 else STS_IG32) 0 d 1 (Z.shiftr (u32 off) 16).

(** The loop of [tvinit] over the table [idt], and [tvinit]; [vectors] is the
    table of addresses of the entry points. *)
Fixpoint set_gates (vectors : Z -> Z) (i n : nat) (idt : list gatedesc) : list gatedesc :=
  match n with
  | O => idt
  | S n => set_gates vectors (S i) n (<[i := SETGATE false (Z.shiftl SEG_KCODE 3) (vectors (Z.of_nat i)) 0]> idt)
  end.
Definition tvinit (vectors : Z -> Z) (idt : list gatedesc) : list gatedesc :=
  <[Z.to_nat T_SYSCALL := SETGATE true (Z.shiftl SEG_KCODE 3) (vectors T_SYSCALL) DPL_USER]> (set_gates vectors 0 256 idt).

Definition gate_off (g : gatedesc) : Z := off_15_0 g + 65536 * off_31_16 g.

(** [int n] with the privilege level [cpl]: a gate that asks for more
    privilege raises the general protection fault instead. *)
Definition int_vector (idt : list gatedesc) (cpl : Z) (n : nat) : option nat :=
  match idt !! n with
  | None => None
  | Some g => if gd_dpl g <? cpl then Some 13%nat else Some n
  end.

(** ** Interrupts, as the processor takes them *)

(** The stack that the task state segment names for ring 0. *)
Record ring0 := mkring0 { esp0 : Z; ss0 : Z }.

Definition in_user (c : cpu) : bool := Z.land (gets_ c CS) 3 =? 3.

Definition switch_stack (k : ring0) (c : cpu) : cpu :=
  if in_user c then pushl [H (gets_ c SS); W (getr c ESP)] (setr ESP (esp0 k) (sets SS (ss0 k) c)) else c.

Definition enter (g : gatedesc) (k : ring0) (code : option Z) (c : cpu) : cpu :=
  let c1 := pushl ([W (flags c); H (gets_ c CS); W (pc c)] ++ match code with Some e => [W e] | None => [] end) (switch_stack k c) in
  set_flags (if gd_type g =? STS_IG32 then Z.land (flags c) (Z.lnot FL_IF) else flags c) (sets CS (gd_cs g) (set_pc (gate_off g) c1)).

(** [iret] *)
Definition iret (c : cpu) : cpu :=
  let c1 := set_pc (top32 c) (addesp 4 c) in
  let c2 := sets CS (top16 c1) (addesp 4 c1) in
  let c3 := set_flags (top32 c2) (addesp 4 c2) in
  if in_user c3 then
    let sp := top32 c3 in
    let c4 := addesp 4 c3 in
    setr ESP sp (sets SS (top16 c4) c4)
  else c3.

(** The exceptions for which the processor pushes an error code. *)
Definition pushes_code (i : Z) : bool := (i =? 8) || ((10 <=? i) && (i <=? 14)) || (i =? 17).

(** ** The routines *)

(** The entry point of vector [i], up to its jump to [alltraps]. *)
Definition vector (i : Z) : list instr :=
  (if negb ((i =? 8) || ((10 <=? i) && (i <=? 14)) || (i =? 17)) then [Ipush_i 0] else []) ++ [Ipush_i i].

(** [alltraps] up to the call of [trap], what follows the call, and [trapret]
    up to its [iret]. *)
Definition alltraps : list instr :=
  [Ipush_s DS; Ipush_s ES; Ipush_s FS; Ipush_s GS; Ipushal;
   Imovw_ax (Z.shiftl SEG_KDATA 3); Imovw_s DS; Imovw_s ES; Ipush_r ESP].
Definition alltraps_back : list instr := [Iaddl_esp 4].
Definition trapret : list instr := [Ipopal; Ipop_s GS; Ipop_s FS; Ipop_s ES; Ipop_s DS; Iaddl_esp 8].

(** An interrupt up to the call of [trap], and from its return on. *)
Definition to_trap (g : gatedesc) (k : ring0) (i : Z) (code : option Z) (c : cpu) : cpu :=
  exec_code alltraps (exec_code (vector i) (enter g k code c)).
Definition from_trap (c : cpu) : cpu := iret (exec_code trapret (exec_code alltraps_back c)).

(** [swtch] up to its [ret]. *)
Definition swtch_code : list instr :=
  [Imovl_load 4 ESP EAX; Imovl_load 8 ESP EDX;
   Ipush_r EBP; Ipush_r EBX; Ipush_r ESI; Ipush_r EDI;
   Imovl_store ESP EAX; Imovl_rr EDX ESP;
   Ipop_r EDI; Ipop_r ESI; Ipop_r EBX; Ipop_r EBP].
Definition swtch (c : cpu) : cpu := do_ret (exec_code swtch_code c).

(** The stub of a system call up to its [int]. *)
Definition stub (num : Z) : list instr := [Imovl_i num EAX].

(** [initcode] up to its first [int]: the arguments are the addresses of the
    array and of the string. *)
Definition initcode_start (argv init SYS_exec : Z) : list instr := [Ipush_i argv; Ipush_i init; Ipush_i 0; Imovl_i SYS_exec EAX].

(** [struct trapframe] and [struct context] in memory. *)
Definition read_frame (m : memory) (a : Z) : trapframe :=
  mktf (load32 m a) (load32 m (a + 4)) (load32 m (a + 8)) (load32 m (a + 12)) (load32 m (a + 16)) (load32 m (a + 20)) (load32 m (a + 24)) (load32 m (a + 28))
    (load16 m (a + 32)) (load16 m (a + 36)) (load16 m (a + 40)) (load16 m (a + 44)) (load32 m (a + 48)) (load32 m (a + 52)) (load32 m (a + 56))
    (load16 m (a + 60)) (load32 m (a + 64)) (load32 m (a + 68)) (load16 m (a + 72)).
Definition sizeof_trapframe : Z := 76.

Record context := mkcx { x_edi : Z; x_esi : Z; x_ebx : Z; x_ebp : Z; x_eip : Z }.
Definition read_context (m : memory) (a : Z) : context :=
  mkcx (load32 m a) (load32 m (a + 4)) (load32 m (a + 8)) (load32 m (a + 12)) (load32 m (a + 16)).
Definition sizeof_context : Z := 20.

(** What [allocproc] puts on a new kernel stack: the addresses of the frame
    and of the context, and the memory; [trapret] and [forkret] are the
    addresses of the routines. *)
Definition memset_words (m : memory) (a : Z) (n : nat) : memory := fold_left (fun m i => store32 m (a + 4 * Z.of_nat i) 0) (seq 0 n) m.
Definition new_stack (trapret_ forkret_ kstack : Z) (m : memory) : Z * Z * memory :=
  let sp := kstack + KSTACKSIZE in
  let tf := sp - sizeof_trapframe in
  let sp := tf - 4 in
  let m := store32 m sp trapret_ in
  let cx := sp - sizeof_context in
  let m := memset_words m cx 5 in
  (tf, cx, store32 m (cx + 16) forkret_).

(** ** The stack as a list *)

Fixpoint stack_put (m : memory) (top : Z) (its : list item) : memory :=
  match its with [] => m | it :: its => stack_put (put m (top - 4) it) (top - 4) its end.

Definition item_ok (it : item) : Prop := match it with W v => 0 <= v < 4294967296 | H v => 0 <= v < 65536 end.
Definition holds (m : memory) (a : Z) (it : item) : Prop := match it with W v => load32 m a = v | H v => load16 m a = v end.

Lemma put_other m a it x : x < a \/ a + 4 <= x -> put m a it x = m x.
Proof. intros Hx. destruct it; cbn; [by apply store32_other|]. unfold store16. repeat case_match; zbool; lia. Qed.

Lemma put_holds m a it : item_ok it -> holds (put m a it) a it.
Proof.
  destruct it as [v|v]; cbn; intros Hv; [by apply load32_store32_eq|]. unfold load16, store16.
  replace (a =? a) with true by lia. replace (a + 1 =? a) with false by lia. replace (a + 1 =? a + 1) with true by lia. zlia.
Qed.

Lemma stack_put_other its : forall m top x, x < top - 4 * Z.of_nat (length its) \/ top <= x -> stack_put m top its x = m x.
Proof.
  induction its as [|it its IH]; intros m top x Hx; [done|]. cbn [stack_put length] in *. rewrite IH by lia. apply put_other. lia.
Qed.

Lemma load32_ext m m' a : (forall x, a <= x < a + 4 -> m' x = m x) -> load32 m' a = load32 m a.
Proof. intros Hx. unfold load32. rewrite !Hx by lia. done. Qed.
Lemma load16_ext m m' a : (forall x, a <= x < a + 4 -> m' x = m x) -> load16 m' a = load16 m a.
Proof. intros Hx. unfold load16. rewrite !Hx by lia. done. Qed.

Lemma holds_ext m m' a it : (forall x, a <= x < a + 4 -> m' x = m x) -> holds m a it -> holds m' a it.
Proof. intros Hx. destruct it; cbn; intros <-; [by apply load32_ext|by apply load16_ext]. Qed.

Lemma stack_put_holds its : forall m top (k : nat) it a,
  its !! k = Some it -> item_ok it -> a = top - 4 * (Z.of_nat k + 1) -> holds (stack_put m top its) a it.
Proof.
  induction its as [|it' its IH]; intros m top [|k] it a Hk Hit ->; try done; cbn [stack_put].
  - injection Hk as ->. eapply holds_ext; [|apply put_holds; exact Hit]. intros x Hx. rewrite stack_put_other by lia. by f_equal.
  - apply (IH _ _ k); [done|done|lia].
Qed.

Lemma read_frame_ext m m' a : (forall x, a <= x < a + sizeof_trapframe -> m' x = m x) -> read_frame m' a = read_frame m a.
Proof. intros Hx. unfold sizeof_trapframe in Hx. unfold read_frame. f_equal; (apply load32_ext || apply load16_ext); intros x Hx'; apply Hx; lia. Qed.

(** The instructions on a state written out. *)
Lemma push_at a c d b sp bp si di s p f m it : 4 <= sp < 4294967296 ->
  push it (mkcpu (mkg a c d b sp bp si di) s p f m) = mkcpu (mkg a c d b (sp - 4) bp si di) s p f (put m (sp - 4) it).
Proof. intros Hs. unfold push. cbn [getr gr g_esp]. by rewrite u32_id by lia. Qed.

Lemma addesp_at n a c d b sp bp si di s p f m : 0 <= sp + n < 4294967296 ->
  addesp n (mkcpu (mkg a c d b sp bp si di) s p f m) = mkcpu (mkg a c d b (sp + n) bp si di) s p f m.
Proof. intros Hs. unfold addesp. cbn [getr gr g_esp]. by rewrite u32_id by lia. Qed.

Lemma pushl_at its : forall a c d b sp bp si di s p f m, 4 * Z.of_nat (length its) <= sp < 4294967296 ->
  pushl its (mkcpu (mkg a c d b sp bp si di) s p f m) = mkcpu (mkg a c d b (sp - 4 * Z.of_nat (length its)) bp si di) s p f (stack_put m sp its).
Proof.
  induction its as [|it its IH]; intros a c d b sp bp si di s p f m Hs; cbn [length] in *; [cbn; do 2 f_equal; lia|].
  change (pushl (it :: its) ?x) with (pushl its (push it x)). rewrite push_at by lia. rewrite IH by lia. cbn [stack_put]. do 2 f_equal. lia.
Qed.

Lemma stack_put_app its1 : forall m top its2, stack_put m top (its1 ++ its2) = stack_put (stack_put m top its1) (top - 4 * Z.of_nat (length its1)) its2.
Proof.
  induction its1 as [|it its IH]; intros m top its2; cbn [app stack_put length]; [f_equal; lia|]. rewrite IH. f_equal. lia.
Qed.

Lemma pop_r_at r a c d b sp bp si di s p f m : 0 <= sp + 4 < 4294967296 ->
  pop_r r (mkcpu (mkg a c d b sp bp si di) s p f m) = mkcpu (setg (mkg a c d b (sp + 4) bp si di) r (load32 m sp)) s p f m.
Proof. intros Hs. unfold pop_r. by rewrite addesp_at by lia. Qed.

Lemma pop_s_at sg a c d b sp bp si di s p f m : 0 <= sp + 4 < 4294967296 ->
  pop_s sg (mkcpu (mkg a c d b sp bp si di) s p f m) = mkcpu (mkg a c d b (sp + 4) bp si di) (setsg s sg (load16 m sp)) p f m.
Proof. intros Hs. unfold pop_s. by rewrite addesp_at by lia. Qed.

Lemma exec_cons i l c : exec_code (i :: l) c = exec_code l (step c i).
Proof. done. Qed.

Ltac at_cbn := lazy beta iota zeta delta [step setr sets set_pc set_flags set_mem setg setsg getr gets_ gr sr pc flags mem g_eax g_ecx g_edx g_ebx g_esp g_ebp g_esi g_edi s_cs s_ds s_es s_fs s_gs s_ss].
Ltac at_step := rewrite exec_cons; at_cbn; try rewrite push_at by lia; try rewrite addesp_at by lia; try rewrite pop_r_at by lia; try rewrite pop_s_at by lia; at_cbn.

(** ** Entering *)

(** What an interrupt leaves on the kernel stack. *)
Definition frame_items (c : cpu) (oesp i e : Z) : list item :=
  [W (flags c); H (gets_ c CS); W (pc c); W e; W i; H (gets_ c DS); H (gets_ c ES); H (gets_ c FS); H (gets_ c GS);
   W (getr c EAX); W (getr c ECX); W (getr c EDX); W (getr c EBX); W oesp; W (getr c EBP); W (getr c ESI); W (getr c EDI)].

Lemma alltraps_at a c d b sp bp si di cs ds es fs gs ss p f m : 52 <= sp < 4294967296 ->
  exec_code alltraps (mkcpu (mkg a c d b sp bp si di) (mks cs ds es fs gs ss) p f m) =
  let ax := Z.land a 0xFFFF0000 + 16 in
  mkcpu (mkg ax c d b (sp - 52) bp si di) (mks cs (ax mod 65536) (ax mod 65536) fs gs ss) p f
    (stack_put m sp [H ds; H es; H fs; H gs; W a; W c; W d; W b; W (sp - 16); W bp; W si; W di; W (sp - 48)]).
Proof.
  intros Hs. unfold alltraps. do 4 at_step. rewrite exec_cons. at_cbn. cbn [fmap list_fmap]. rewrite pushl_at by (cbn [length]; lia). cbn [length].
  do 4 at_step. change (Z.shiftl SEG_KDATA 3) with 16. cbv zeta. change (exec_code [] ?x) with x.
  change [H ds; H es; H fs; H gs; W a; W c; W d; W b; W (sp - 16); W bp; W si; W di; W (sp - 48)]
    with ([H ds; H es; H fs; H gs] ++ [W a; W c; W d; W b; W (sp - 16); W bp; W si; W di] ++ [W (sp - 48)]).
  rewrite !stack_put_app. cbn [length]. change (Z.of_nat 4) with 4. change (Z.of_nat 8) with 8. cbn [stack_put].
  replace (sp - 4 - 4 - 4 - 4) with (sp - 16) by lia. replace (sp - 4 * 4) with (sp - 16) by lia. replace (sp - 16 - 4 * 8) with (sp - 48) by lia. replace (sp - 48 - 4) with (sp - 52) by lia.
  reflexivity.
Qed.

(** The processor state inside [alltraps] when it calls [trap]. *)
Definition in_kernel (g : gatedesc) (c c1 : cpu) (top i e : Z) : cpu :=
  let ax := Z.land (getr c EAX) 0xFFFF0000 + 16 in
  mkcpu (setg (setg (gr c) EAX ax) ESP (top - 72)) (setsg (setsg (setsg (sr c1) CS (gd_cs g)) DS (ax mod 65536)) ES (ax mod 65536)) (gate_off g)
    (if gd_type g =? STS_IG32 then Z.land (flags c) (Z.lnot FL_IF) else flags c)
    (stack_put (mem c1) top (frame_items c (top - 36) i e ++ [W (top - 68)])).

Lemma to_trap_at g k i e c : 
  let c1 := switch_stack k c in let top := getr c1 ESP in
  72 <= top < 4294967296 -> (pushes_code i = false -> e = 0) ->
  to_trap g k i (if pushes_code i then Some e else None) c = in_kernel g c c1 top i e.
Proof.
  intros c1 top Ht He. unfold to_trap, enter. fold c1. assert (EG : setg (gr c1) ESP top = setg (gr c) ESP top /\ setsg (sr c1) SS 0 = setsg (sr c) SS 0).
  { subst c1. unfold switch_stack. by destruct (in_user c). }
  clearbody c1. subst top. destruct c1 as [[a c' d b sp bp si di] s p f m]. cbn [getr gr g_esp] in *.
  destruct c as [[a0 c0 d0 b0 sp0 bp0 si0 di0] [s1 s2 s3 s4 s5 s6] p0 f0 m0], s as [t1 t2 t3 t4 t5 t6]. cbn in EG. destruct EG as [[= -> -> -> -> -> -> ->] [= -> -> -> -> ->]].
  unfold in_kernel, frame_items, vector. fold (pushes_code i). at_cbn.
  assert (EM : forall L, stack_put (put (stack_put m sp [W f0; H s1; W p0; W e]) (sp - 20) (W i)) (sp - 20) L = stack_put m sp ([W f0; H s1; W p0; W e; W i] ++ L)).
  { intros L. rewrite stack_put_app. change [W f0; H s1; W p0; W e; W i] with ([W f0; H s1; W p0; W e] ++ [W i]). rewrite stack_put_app. cbn [length app]. change (Z.of_nat 4) with 4. change (Z.of_nat 5) with 5.
    replace (sp - 4 * 5) with (sp - 20) by lia. cbn [stack_put]. by replace (sp - 4 * 4 - 4) with (sp - 20) by lia. }
  destruct (pushes_code i) eqn:EP; [|rewrite (He eq_refl) in *]; cbn [negb app]; rewrite pushl_at by (cbn [length]; lia); at_cbn; cbn [length].
  - change (Z.of_nat 4) with 4. at_step. replace (sp - 4 * 4 - 4) with (sp - 20) by lia. change (exec_code [] ?x) with x. rewrite alltraps_at by lia. cbv zeta. rewrite EM.
    replace (sp - 20 - 52) with (sp - 72) by lia. replace (sp - 20 - 48) with (sp - 68) by lia. by replace (sp - 20 - 16) with (sp - 36) by lia.
  - change (Z.of_nat 3) with 3. do 2 at_step. replace (sp - 4 * 3 - 4) with (sp - 16) by lia. replace (sp - 16 - 4) with (sp - 20) by lia. change (exec_code [] ?x) with x. rewrite alltraps_at by lia. cbv zeta.
    replace (put (stack_put m sp [W f0; H s1; W p0]) (sp - 16) (W 0)) with (stack_put m sp [W f0; H s1; W p0; W 0]) by (cbn [stack_put]; by replace (sp - 4 - 4 - 4 - 4) with (sp - 16) by lia).
    rewrite EM. replace (sp - 20 - 52) with (sp - 72) by lia. replace (sp - 20 - 48) with (sp - 68) by lia. by replace (sp - 20 - 16) with (sp - 36) by lia.
Qed.

Definition cpu_ok (c : cpu) : Prop :=
  (forall r, 0 <= getr c r < 4294967296) /\ (forall s, 0 <= gets_ c s < 65536) /\ 0 <= pc c < 4294967296 /\ 0 <= flags c < 4294967296.

(** The frame of an interrupt: the registers of the interrupted code. *)
Definition frame_of (c : cpu) (oesp_ i e esp_ ss_ : Z) : trapframe :=
  mktf (getr c EDI) (getr c ESI) (getr c EBP) oesp_ (getr c EBX) (getr c EDX) (getr c ECX) (getr c EAX)
    (gets_ c GS) (gets_ c FS) (gets_ c ES) (gets_ c DS) i e (pc c) (gets_ c CS) (flags c) esp_ ss_.

Ltac frame_word k :=
  match goal with
  | |- load32 (stack_put ?m ?t ?L) ?a = ?v => apply (stack_put_holds L m t k (W v) a); [reflexivity|cbn; auto; lia|lia]
  | |- load16 (stack_put ?m ?t ?L) ?a = ?v => apply (stack_put_holds L m t k (H v) a); [reflexivity|cbn; auto; lia|lia]
  end.

Lemma frame_read m top c i e x : cpu_ok c -> 0 <= i < 256 -> 0 <= e < 4294967296 -> 72 <= top < 4294967296 ->
  read_frame (stack_put m top (frame_items c (top - 36) i e ++ [W x])) (top - 68) = frame_of c (top - 36) i e (load32 m top) (load16 m (top + 4)).
Proof.
  intros (Hr & Hs & Hp & Hf) Hi He Ht. pose proof (Hr EAX). pose proof (Hr ECX). pose proof (Hr EDX). pose proof (Hr EBX). pose proof (Hr EBP). pose proof (Hr ESI). pose proof (Hr EDI).
  pose proof (Hs CS). pose proof (Hs DS). pose proof (Hs ES). pose proof (Hs FS). pose proof (Hs GS).
  unfold read_frame, frame_of, frame_items. cbn [app]. f_equal.
  - frame_word 16%nat.
  - frame_word 15%nat.
  - frame_word 14%nat.
  - frame_word 13%nat.
  - frame_word 12%nat.
  - frame_word 11%nat.
  - frame_word 10%nat.
  - frame_word 9%nat.
  - frame_word 8%nat.
  - frame_word 7%nat.
  - frame_word 6%nat.
  - frame_word 5%nat.
  - frame_word 4%nat.
  - frame_word 3%nat.
  - frame_word 2%nat.
  - frame_word 1%nat.
  - frame_word 0%nat.
  - replace (top - 68 + 68) with top by lia. apply load32_ext. intros y Hy. apply stack_put_other. cbn [length]. lia.
  - replace (top - 68 + 72) with (top + 4) by lia. apply load16_ext. intros y Hy. apply stack_put_other. cbn [length]. lia.
Qed.

(** ** Leaving *)

(** Offsets as single numbers. *)
Ltac at_plus :=
  rewrite <- ?Z.add_assoc;
  repeat match goal with |- context [Zpos ?p + Zpos ?q] => let v := eval vm_compute in (Zpos p + Zpos q) in change (Zpos p + Zpos q) with v end.

Lemma iret_at a c d b sp bp si di cs0 ds0 es0 fs0 gs0 ss0 p f m : 0 <= sp -> sp + 16 < 4294967296 ->
  iret (mkcpu (mkg a c d b sp bp si di) (mks cs0 ds0 es0 fs0 gs0 ss0) p f m) =
  let cs1 := load16 m (sp + 4) in
  let user := Z.land cs1 3 =? 3 in
  mkcpu (mkg a c d b (if user then load32 m (sp + 12) else sp + 12) bp si di)
    (mks cs1 ds0 es0 fs0 gs0 (if user then load16 m (sp + 16) else ss0)) (load32 m sp) (load32 m (sp + 8)) m.
Proof.
  intros Hs1 Hs2. unfold iret, top32, top16, in_user. repeat (at_cbn; rewrite addesp_at by lia). at_cbn. at_plus. by destruct (Z.land (load16 m (sp + 4)) 3 =? 3).
Qed.

Lemma trapret_at a c d b sp bp si di cs0 ds0 es0 fs0 gs0 ss0 p f m : 0 <= sp -> sp + 76 < 4294967296 ->
  let t := read_frame m sp in
  iret (exec_code trapret (mkcpu (mkg a c d b sp bp si di) (mks cs0 ds0 es0 fs0 gs0 ss0) p f m)) =
  let user := Z.land (cs t) 3 =? 3 in
  mkcpu (mkg (eax t) (ecx t) (edx t) (ebx t) (if user then esp t else sp + 68) (ebp t) (esi t) (edi t))
    (mks (cs t) (ds t) (es t) (fs t) (gs t) (if user then ss t else ss0)) (eip t) (eflags t) m.
Proof.
  intros Hs1 Hs2 t. subst t. unfold trapret. rewrite exec_cons. at_cbn.
  do 3 (rewrite pop_r_at by lia; at_cbn). rewrite addesp_at by lia. do 4 (rewrite pop_r_at by lia; at_cbn). do 5 at_step. at_plus. change (exec_code [] ?x) with x.
  rewrite iret_at by lia. at_plus. reflexivity.
Qed.

(** ** Traps *)

(** The part of the kernel stack above the frame proper. *)
Definition frame_top (k : ring0) (c : cpu) : Z := if in_user c then esp0 k - 8 else getr c ESP.

Definition cpu_of (t : trapframe) (m : memory) : cpu :=
  mkcpu (mkg (eax t) (ecx t) (edx t) (ebx t) (esp t) (ebp t) (esi t) (edi t)) (mks (cs t) (ds t) (es t) (fs t) (gs t) (ss t)) (eip t) (eflags t) m.

Lemma switch_stack_top k c : cpu_ok c -> 8 <= esp0 k < 4294967296 -> 
  getr (switch_stack k c) ESP = frame_top k c /\
  (in_user c = true -> load32 (mem (switch_stack k c)) (frame_top k c) = getr c ESP /\ load16 (mem (switch_stack k c)) (frame_top k c + 4) = gets_ c SS) /\
  (forall x, x < frame_top k c \/ frame_top k c + 8 <= x -> mem (switch_stack k c) x = mem c x) /\
  (in_user c = false -> switch_stack k c = c).
Proof.
  intros (Hr & Hs & _) He. unfold switch_stack, frame_top. destruct (in_user c); [|by split_and!]. specialize (Hr ESP). specialize (Hs SS). destruct c as [[a c d b sp bp si di] s p f m]. at_cbn. rewrite pushl_at by (cbn; lia).
  cbn [length]. change (Z.of_nat 2) with 2. at_cbn. cbn [getr gr g_esp gets_ sr] in *. split_and!; [lia| |intros x Hx; apply stack_put_other; cbn [length]; lia|done]. intros _. split.
  - match goal with |- load32 (stack_put ?m ?t ?L) ?a = ?v => apply (stack_put_holds L m t 1 (W v) a); [reflexivity|done|lia] end.
  - match goal with |- load16 (stack_put ?m ?t ?L) ?a = ?v => apply (stack_put_holds L m t 0 (H v) a); [reflexivity|done|lia] end.
Qed.

Lemma ax_mod a : (Z.land a 0xFFFF0000 + 16) mod 65536 = 16.
Proof.
  rewrite Z.add_mod by lia. assert (Z.land a 0xFFFF0000 mod 65536 = 0) as ->; [|done]. change 65536 with (2 ^ 16). rewrite <- Z.land_ones by lia. rewrite <- Z.land_assoc. apply Z.land_0_r.
Qed.

Section Trap.
Context (g : gatedesc) (k : ring0) (i e : Z) (c : cpu).
Hypothesis OK : cpu_ok c.
Hypothesis Hi : 0 <= i < 256.
Hypothesis He : 0 <= e < 4294967296.
Hypothesis He0 : pushes_code i = false -> e = 0.
Hypothesis Hk : 8 <= esp0 k < 4294967296.
Hypothesis Ht : 72 <= frame_top k c < 4294967288.

Definition called : cpu := to_trap g k i (if pushes_code i then Some e else None) c.

Lemma called_eq : called = in_kernel g c (switch_stack k c) (frame_top k c) i e.
Proof using OK He0 Hk Ht. destruct (switch_stack_top k c OK Hk) as (E & _). unfold called. rewrite to_trap_at; rewrite ?E; done || lia. Qed.

Lemma called_frame :
  top32 called = frame_top k c - 68 /\ getr called ESP = frame_top k c - 72 /\ gets_ called DS = 16 /\ gets_ called ES = 16 /\
  read_frame (mem called) (frame_top k c - 68) = frame_of c (frame_top k c - 36) i e (load32 (mem (switch_stack k c)) (frame_top k c)) (load16 (mem (switch_stack k c)) (frame_top k c + 4)) /\
  (forall x, x < frame_top k c - 72 \/ frame_top k c + (if in_user c then 8 else 0) <= x -> mem called x = mem c x).
Proof using OK Hi He He0 Hk Ht.
  destruct (switch_stack_top k c OK Hk) as (_ & _ & E1 & E2). rewrite called_eq. unfold in_kernel. split_and!.
  - unfold top32. cbn [mem getr gr setg g_esp]. apply (stack_put_holds _ _ _ 17 (W (frame_top k c - 68))); [done|cbn; lia|lia].
  - done.
  - cbn. apply ax_mod.
  - cbn. apply ax_mod.
  - cbn [mem]. apply frame_read; done || lia.
  - intros x Hx. cbn [mem]. rewrite stack_put_other by (cbn [length app frame_items]; destruct (in_user c); lia). destruct (in_user c) eqn:EU; [apply E1; lia|by rewrite E2].
Qed.

(** What [trap] leaves in the frame is what the processor gets. *)
Lemma from_trap_at c2 : getr c2 ESP = getr called ESP ->
  let t := read_frame (mem c2) (frame_top k c - 68) in
  from_trap c2 = let user := Z.land (cs t) 3 =? 3 in
    mkcpu (mkg (eax t) (ecx t) (edx t) (ebx t) (if user then esp t else frame_top k c) (ebp t) (esi t) (edi t))
      (mks (cs t) (ds t) (es t) (fs t) (gs t) (if user then ss t else gets_ c2 SS)) (eip t) (eflags t) (mem c2).
Proof using OK Hi He He0 Hk Ht.
  destruct called_frame as (_ & EE & _). rewrite EE. intros Esp. cbv zeta. unfold from_trap, alltraps_back.
  destruct c2 as [[xa xc xd xb sp bp si di] [x1 x2 x3 x4 x5 x6] xp xf xm]. cbn [getr gr g_esp gets_ sr s_ss mem] in *. rewrite Esp. at_step. replace (frame_top k c - 72 + 4) with (frame_top k c - 68) by lia.
  change (exec_code [] ?x) with x. rewrite trapret_at by lia. cbv zeta. by replace (frame_top k c - 68 + 68) with (frame_top k c) by lia.
Qed.
End Trap.

Lemma trap_saves g k i e c :
  cpu_ok c -> 0 <= i < 256 -> 0 <= e < 4294967296 -> (pushes_code i = false -> e = 0) -> 8 <= esp0 k < 4294967296 -> 72 <= frame_top k c < 4294967288 ->
  let c1 := to_trap g k i (if pushes_code i then Some e else None) c in
  let tf := frame_top k c - 68 in
  let t := read_frame (mem c1) tf in
  top32 c1 = tf /\ gets_ c1 DS = 16 /\ gets_ c1 ES = 16 /\
  t = frame_of c (tf + 32) i e (esp t) (ss t) /\
  (in_user c = true -> esp t = getr c ESP /\ ss t = gets_ c SS) /\
  (forall x, x < tf - 4 \/ frame_top k c + (if in_user c then 8 else 0) <= x -> mem c1 x = mem c x) /\
  (forall c2, getr c2 ESP = getr c1 ESP -> gets_ c2 SS = gets_ c1 SS ->
    let t2 := read_frame (mem c2) tf in
    (Z.land (cs t2) 3 = 3 -> from_trap c2 = cpu_of t2 (mem c2)) /\
    (forall r, t2 = set_eax r t -> from_trap c2 = set_mem (mem c2) (setr EAX r c))).
Proof.
  intros OK Hi He He0 Hk Ht c1 tf. destruct (called_frame g k i e c OK Hi He He0 Hk Ht) as (F1 & F2 & F3 & F4 & F5 & F6).
  destruct (switch_stack_top k c OK Hk) as (_ & S2 & _ & S4). change (called g k i e c) with c1 in F1, F2, F3, F4, F5, F6. fold tf in F1, F5. cbv zeta. rewrite F5. cbn [esp ss frame_of].
  split_and!; [done|done|done|by replace (tf + 32) with (frame_top k c - 36) by (subst tf; lia)|by intros EU; apply S2|intros x Hx; apply F6; subst tf; lia|].
  intros c2 E1 E2. pose proof (from_trap_at g k i e c OK Hi He He0 Hk Ht c2 E1) as FT. fold tf in FT. cbv zeta in FT. rewrite FT. split.
  - intros Hu. rewrite Hu. done.
  - intros r ->. cbn [set_eax frame_of cs esp ss eax ecx edx ebx ebp esi edi ds es fs gs eip eflags]. change (Z.land (gets_ c CS) 3 =? 3) with (in_user c).
    assert (ESS : in_user c = false -> gets_ c1 SS = gets_ c SS).
    { intros EU. change c1 with (called g k i e c). rewrite (called_eq g k i e c OK He0 Hk Ht). rewrite (S4 EU). unfold in_kernel. cbn [gets_ sr setsg s_ss]. reflexivity. }
    rewrite E2. unfold frame_top in *. destruct (in_user c) eqn:EU.
    + destruct (S2 eq_refl) as [-> ->]. by destruct c as [[] [] ? ? ?].
    + rewrite ESS by done. by destruct c as [[] [] ? ? ?].
Qed.

(** C31. Traps.  On any interrupt, from user mode or from the kernel, [trap] is
    called with the address of a [struct trapframe] on the kernel stack that
    holds the registers of the interrupted code, the number of the interrupt
    and its error code; nothing outside that part of the stack is written, and
    the segments are those of the kernel.  When [trap] returns, the processor
    gets the registers in the frame; if [trap] changed at most [eax] there,
    the interrupted code goes on as if nothing had happened, but for [eax]. *)
Theorem trap_saves_registers g k i e c :
  cpu_ok c -> 0 <= i < 256 -> 0 <= e < 4294967296 -> (pushes_code i = false -> e = 0) -> 8 <= esp0 k < 4294967296 -> 72 <= frame_top k c < 4294967288 ->
  let c1 := to_trap g k i (if pushes_code i then Some e else None) c in
  let tf := frame_top k c - 68 in
  let t := read_frame (mem c1) tf in
  top32 c1 = tf /\ gets_ c1 DS = 16 /\ gets_ c1 ES = 16 /\
  t = frame_of c (tf + 32) i e (esp t) (ss t) /\
  (in_user c = true -> esp t = getr c ESP /\ ss t = gets_ c SS) /\
  (forall x, x < tf - 4 \/ frame_top k c + (if in_user c then 8 else 0) <= x -> mem c1 x = mem c x) /\
  (forall c2, getr c2 ESP = getr c1 ESP -> gets_ c2 SS = gets_ c1 SS ->
    let t2 := read_frame (mem c2) tf in
    (Z.land (cs t2) 3 = 3 -> from_trap c2 = cpu_of t2 (mem c2)) /\
    (forall r, t2 = set_eax r t -> from_trap c2 = set_mem (mem c2) (setr EAX r c))).
Proof. apply trap_saves. Qed.

(** ** Context switches *)

Definition context_of (c : cpu) : context := mkcx (getr c EDI) (getr c ESI) (getr c EBX) (getr c EBP) (pc c).

Lemma do_ret_at a c d b sp bp si di s p f m : 0 <= sp + 4 < 4294967296 ->
  do_ret (mkcpu (mkg a c d b sp bp si di) s p f m) = mkcpu (mkg a c d b (sp + 4) bp si di) s (load32 m sp) f m.
Proof. intros Hs. unfold do_ret, top32. by rewrite addesp_at by lia. Qed.

Lemma swtch_at a c d b sp bp si di s p f m :
  let old := load32 m (sp + 4) in let new := load32 m (sp + 8) in
  16 <= sp < 4294967296 -> 0 <= new < 4294967276 ->
  let m1 := store32 (stack_put m sp [W bp; W b; W si; W di]) old (sp - 16) in
  swtch (mkcpu (mkg a c d b sp bp si di) s p f m) =
  mkcpu (mkg old c new (load32 m1 (new + 8)) (new + 20) (load32 m1 (new + 12)) (load32 m1 (new + 4)) (load32 m1 new)) s (load32 m1 (new + 16)) f m1.
Proof.
  intros old new Hs Hn m1. unfold swtch, swtch_code. do 2 at_step. fold old new. clearbody old new. do 10 at_step. change (exec_code [] ?x) with x. rewrite do_ret_at by lia. at_plus.
  subst m1. cbn [stack_put]. by replace (sp - 4 - 4 - 4 - 4) with (sp - 16) by lia.
Qed.

(** A call of [swtch] whose two contexts do not overlap. *)
Record can_switch (c : cpu) (old new : Z) : Prop := mkcan {
  cs_sp : 16 <= getr c ESP < 4294967284;
  cs_old : load32 (mem c) (getr c ESP + 4) = old;
  cs_new : load32 (mem c) (getr c ESP + 8) = new;
  cs_old_free : old + 4 <= getr c ESP - 16 \/ getr c ESP + 4 <= old;
  cs_new_range : 0 <= new < 4294967276;
  cs_new_free : (new + 20 <= getr c ESP - 16 \/ getr c ESP <= new) /\ (new + 20 <= old \/ old + 4 <= new);
}.

Lemma read_context_ext m m' a : (forall x, a <= x < a + 20 -> m' x = m x) -> read_context m' a = read_context m a.
Proof. intros Hx. unfold read_context. f_equal; apply load32_ext; intros x Hx'; apply Hx; lia. Qed.

Lemma swtch_spec c old new : cpu_ok c -> can_switch c old new ->
  context_of (swtch c) = read_context (mem c) new /\ getr (swtch c) ESP = new + 20 /\ sr (swtch c) = sr c /\ flags (swtch c) = flags c /\
  load32 (mem (swtch c)) old = getr c ESP - 16 /\
  read_context (mem (swtch c)) (getr c ESP - 16) = mkcx (getr c EDI) (getr c ESI) (getr c EBX) (getr c EBP) (load32 (mem c) (getr c ESP)) /\
  (forall x, (x < getr c ESP - 16 \/ getr c ESP <= x) -> (x < old \/ old + 4 <= x) -> mem (swtch c) x = mem c x).
Proof.
  intros (Hr & _) [C1 C2 C3 C4 C5 [C6 C7]]. pose proof (Hr EDI). pose proof (Hr ESI). pose proof (Hr EBX). pose proof (Hr EBP). clear Hr.
  destruct c as [[a c d b sp bp si di] s p f m]. cbn [getr gr g_esp g_edi g_esi g_ebx g_ebp mem] in *. rewrite swtch_at by lia. cbv zeta. rewrite C2, C3.
  set (m1 := store32 _ _ _). assert (HM : forall x, x < sp - 16 \/ sp <= x -> x < old \/ old + 4 <= x -> m1 x = m x).
  { intros x Hx1 Hx2. subst m1. rewrite store32_other by lia. apply stack_put_other. cbn [length]. lia. }
  assert (HS : forall (j : nat) v, [W bp; W b; W si; W di] !! j = Some (W v) -> 0 <= v < 4294967296 -> load32 m1 (sp - 4 * (Z.of_nat j + 1)) = v).
  { intros j v Hj Hv. assert (j < 4)%nat by (by apply lookup_lt_Some in Hj). subst m1. rewrite load32_store32_ne by lia. apply (stack_put_holds _ m sp j (W v) _ Hj Hv eq_refl). }
  split_and!; try done.
  - unfold context_of. cbn. apply (read_context_ext m m1 new). intros x Hx. apply HM; lia.
  - apply load32_store32_eq. lia.
  - unfold read_context. cbn [mem]. f_equal.
    + by apply (HS 3%nat).
    + replace (sp - 16 + 4) with (sp - 4 * (Z.of_nat 2 + 1)) by lia. by apply (HS 2%nat).
    + replace (sp - 16 + 8) with (sp - 4 * (Z.of_nat 1 + 1)) by lia. by apply (HS 1%nat).
    + replace (sp - 16 + 12) with (sp - 4 * (Z.of_nat 0 + 1)) by lia. by apply (HS 0%nat).
    + replace (sp - 16 + 16) with sp by lia. apply load32_ext. intros x Hx. apply HM; lia.
Qed.

(** C32. Context switches.  [swtch] stores at [*old] the address of a context on
    the old stack and continues with the registers of the context [new]; when,
    after any other code has run, [swtch] is called with that address as
    [new], the first call returns to its caller with the stack pointer and the
    registers that a caller relies on as they were. *)
Theorem swtch_returns c old new c2 old2 :
  cpu_ok c -> can_switch c old new -> cpu_ok c2 -> can_switch c2 old2 (load32 (mem (swtch c)) old) ->
  same_range (mem (swtch c)) (mem c2) (getr c ESP - 16) 20 ->
  context_of (swtch c) = read_context (mem c) new /\ getr (swtch c) ESP = new + 20 /\
  getr (swtch c2) ESP = getr c ESP + 4 /\ pc (swtch c2) = load32 (mem c) (getr c ESP) /\
  getr (swtch c2) EDI = getr c EDI /\ getr (swtch c2) ESI = getr c ESI /\ getr (swtch c2) EBX = getr c EBX /\ getr (swtch c2) EBP = getr c EBP.
Proof.
  intros OK CS OK2 CS2 HR. destruct (swtch_spec c old new OK CS) as (S1 & S2 & _ & _ & S3 & S4 & _). rewrite S3 in CS2.
  destruct (swtch_spec c2 old2 _ OK2 CS2) as (T1 & T2 & _). rewrite (read_context_ext (mem (swtch c))) in T1 by (intros x Hx; by apply HR). rewrite S4 in T1. revert T1 T2. generalize (swtch c2). intros c3 T1 T2. injection T1 as T3 T4 T5 T6 T7.
  split_and!; try done. rewrite T2. lia.
Qed.

(** ** A new process *)

Lemma new_stack_spec tr fr kstack m : 0 <= tr < 4294967296 -> 0 <= fr < 4294967296 ->
  let '(tf, cx, m') := new_stack tr fr kstack m in
  tf = kstack + 4020 /\ cx = kstack + 3996 /\ read_context m' cx = mkcx 0 0 0 0 fr /\ load32 m' (cx + 20) = tr.
Proof.
  intros Ht Hf. unfold new_stack, memset_words, KSTACKSIZE, sizeof_trapframe, sizeof_context. set (cx := kstack + 4096 - 76 - 4 - 20). cbn [fold_left seq]. split_and!; try (subst cx; lia).
  - unfold read_context. change (Z.of_nat 0) with 0. change (Z.of_nat 1) with 1. change (Z.of_nat 2) with 2. change (Z.of_nat 3) with 3. change (Z.of_nat 4) with 4. rewrite Z.add_0_r.
    f_equal; rewrite ?load32_store32_ne by lia; try (apply load32_store32_eq; lia); rewrite load32_store32_eq; lia.
  - rewrite !load32_store32_ne by (subst cx; lia). replace (cx + 20) with (kstack + 4096 - 76 - 4) by (subst cx; lia). by apply load32_store32_eq.
Qed.

(** C33. The first run of a process.  When the scheduler switches to a process
    that [allocproc] made, with the stack as it was laid out and a frame
    filled in, [forkret] is entered, its return leads to [trapret], and the
    process starts in user mode with exactly the registers of its frame. *)
Theorem new_process_starts tr fr kstack m c old c2 :
  let '(tf, cx, m') := new_stack tr fr kstack m in
  0 <= tr < 4294967296 -> 0 <= fr < 4294967296 -> 0 <= kstack < 4294963200 ->
  cpu_ok c -> can_switch c old cx -> same_range m' (mem c) cx 24 ->
  (old + 4 <= cx \/ tf + 76 <= old) -> (getr c ESP <= cx \/ tf + 76 <= getr c ESP - 16) ->
  getr c2 ESP = getr (swtch c) ESP -> same_range (mem (swtch c)) (mem c2) (tf - 4) 80 ->
  let t := read_frame (mem c) tf in
  pc (swtch c) = fr /\ pc (do_ret c2) = tr /\
  (Z.land (cs t) 3 = 3 -> iret (exec_code trapret (do_ret c2)) = cpu_of t (mem c2)).
Proof.
  pose proof (new_stack_spec tr fr kstack m) as HN. destruct (new_stack tr fr kstack m) as [[tf cx] m']. intros Htr Hfr Hk OK CS HR Ho Hs E2 HR2. cbv zeta.
  destruct (HN Htr Hfr) as (-> & -> & N1 & N2). destruct (swtch_spec c old _ OK CS) as (S1 & S2 & _ & _ & _ & _ & S6).
  assert (EF : forall x, kstack + 4016 <= x < kstack + 4096 -> mem c2 x = mem c x) by (intros x Hx; rewrite HR2 by lia; apply S6; lia).
  rewrite (read_context_ext m') in S1 by (intros x Hx; apply HR; lia). rewrite N1 in S1. rewrite S2 in E2. clear S6 HR2 S2. revert S1. generalize (swtch c). intros c' S1. injection S1 as _ _ _ _ ->.
  destruct c2 as [[xa xc xd xb sp bp si di] [x1 x2 x3 x4 x5 x6] xp xf xm]. cbn [getr gr g_esp mem] in *. subst sp. rewrite do_ret_at by lia. replace (kstack + 3996 + 20 + 4) with (kstack + 4020) by lia. split_and!.
  - done.
  - cbn [pc]. rewrite <- N2. replace (kstack + 3996 + 20) with (kstack + 4016) by lia. apply load32_ext. intros x Hx. rewrite EF by lia. apply HR. lia.
  - intros Hu. rewrite trapret_at by lia. cbv zeta. rewrite (read_frame_ext (mem c)) by (unfold sizeof_trapframe; intros x Hx; apply EF; lia). by rewrite Hu.
Qed.

(** ** The interrupt table *)

Lemma gate_off_SETGATE tr sel off d : 0 <= off < 4294967296 -> gate_off (SETGATE tr sel off d) = off.
Proof.
  intros Ho. unfold gate_off, SETGATE. cbn [off_15_0 off_31_16]. rewrite u32_id by done. change 65535 with (Z.ones 16). rewrite Z.land_ones, Z.shiftr_div_pow2 by lia. change (2 ^ 16) with 65536. zlia.
Qed.

Lemma set_gates_length v n : forall i idt, length (set_gates v i n idt) = length idt.
Proof. induction n as [|n IH]; intros i idt; cbn; [done|]. by rewrite IH, length_insert. Qed.

Lemma set_gates_lookup v n : forall i idt (j : nat), (i + n <= length idt)%nat ->
  set_gates v i n idt !! j = if decide (i <= j < i + n)%nat then Some (SETGATE false (Z.shiftl SEG_KCODE 3) (v (Z.of_nat j)) 0) else idt !! j.
Proof.
  induction n as [|n IH]; intros i idt j Hl; cbn [set_gates]; [rewrite decide_False by lia; done|]. rewrite IH by (rewrite length_insert; lia).
  destruct (decide (S i <= j < S i + n)%nat), (decide (i <= j < i + S n)%nat); try lia; try done.
  - assert (j = i) as -> by lia. rewrite list_lookup_insert_eq by lia. done.
  - rewrite list_lookup_insert_ne by lia. done.
Qed.

Lemma tvinit_lookup v idt (j : nat) : length idt = 256%nat -> (j < 256)%nat ->
  tvinit v idt !! j = Some (if decide (j = 64%nat) then SETGATE true (Z.shiftl SEG_KCODE 3) (v T_SYSCALL) DPL_USER else SETGATE false (Z.shiftl SEG_KCODE 3) (v (Z.of_nat j)) 0).
Proof.
  intros Hl Hj. unfold tvinit. change (Z.to_nat T_SYSCALL) with 64%nat. case_decide as E.
  - subst j. rewrite list_lookup_insert_eq; [done|]. rewrite set_gates_length. lia.
  - rewrite list_lookup_insert_ne by lia. rewrite set_gates_lookup by lia. by rewrite decide_True by lia.
Qed.

(** After [tvinit] the gate of every vector leads to
    its entry point in the code segment of the kernel with interrupts off,
    except that the gate of system calls leaves interrupts on; a program can
    reach no gate but that one with [int]: any other [int] is a general
    protection fault. *)
Theorem idt_guards vectors idt :
  length idt = 256%nat -> (forall i, 0 <= i < 256 -> 0 <= vectors i < 4294967296) ->
  (forall j : nat, (j < 256)%nat -> exists g, tvinit vectors idt !! j = Some g /\
     gate_off g = vectors (Z.of_nat j) /\ gd_cs g = 8 /\ gd_p g = 1 /\ (gd_type g = STS_IG32 <-> j <> 64%nat)) /\
  (forall j : nat, (j < 256)%nat -> int_vector (tvinit vectors idt) 3 j = if decide (j = 64%nat) then Some 64%nat else Some 13%nat).
Proof.
  intros Hl Hv. split; intros j Hj.
  - eexists. split; [by apply tvinit_lookup|]. case_decide as E; [subst j|]; (split_and!; [apply gate_off_SETGATE; apply Hv; unfold T_SYSCALL; lia|done|done|cbn; unfold STS_TG32, STS_IG32; split; intros; congruence || done]).
  - unfold int_vector. rewrite tvinit_lookup by done. case_decide as E; [by subst|done].
Qed.

(** ** System calls *)

(** The stub of a system call enters the kernel with its number in the
    frame's [eax] and the frame's [esp] at the caller's return address, so
    that the arguments are found above it, with interrupts as they were; when
    the kernel has put a result in the frame, the stub returns it to its
    caller with every other register as it was. *)
Theorem stub_calls vectors idt k num c :
  let sp := getr c ESP in
  length idt = 256%nat -> cpu_ok c -> in_user c = true -> 0 <= num < 4294967296 -> 80 <= esp0 k < 4294967296 -> sp + 4 <= esp0 k - 80 ->
  exists g, tvinit vectors idt !! 64%nat = Some g /\ int_vector (tvinit vectors idt) 3 64 = Some 64%nat /\
  let c1 := to_trap g k T_SYSCALL None (exec_code (stub num) c) in
  let t := read_frame (mem c1) (esp0 k - 76) in
  top32 c1 = esp0 k - 76 /\ trapno t = T_SYSCALL /\ eax t = num /\ esp t = sp /\ flags c1 = flags c /\
  (forall a, a + 4 <= esp0 k - 80 -> load32 (mem c1) a = load32 (mem c) a) /\
  (forall c2 r, getr c2 ESP = getr c1 ESP -> gets_ c2 SS = gets_ c1 SS -> read_frame (mem c2) (esp0 k - 76) = set_eax r t ->
    do_ret (from_trap c2) = set_mem (mem c2) (set_pc (load32 (mem c2) sp) (setr ESP (sp + 4) (setr EAX r c)))).
Proof.
  intros sp Hl OK HU Hn Hk Hs. set (g := SETGATE true (Z.shiftl SEG_KCODE 3) (vectors T_SYSCALL) DPL_USER). assert (EL : tvinit vectors idt !! 64%nat = Some g) by (rewrite tvinit_lookup; [done|done|lia]).
  exists g. split; [done|]. split; [unfold int_vector; by rewrite EL|]. set (c' := exec_code (stub num) c).
  assert (OK' : cpu_ok c') by (destruct OK as (O1 & O2 & O3); split; [intros r; pose proof (O1 r); destruct r; [exact Hn|done..]|split; [exact O2|exact O3]]).
  assert (FT : frame_top k c' = esp0 k - 8) by (unfold frame_top; change (in_user c') with (in_user c); by rewrite HU).
  assert (EF : flags (to_trap g k T_SYSCALL None c') = flags c).
  { change (to_trap g k T_SYSCALL None c') with (called g k T_SYSCALL 0 c'). rewrite called_eq; [done|done|done|lia|lia]. }
  pose proof (trap_saves g k T_SYSCALL 0 c' OK' ltac:(done) ltac:(done) ltac:(done) ltac:(lia) ltac:(lia)) as HT. cbv zeta in HT. rewrite FT in HT.
  change (pushes_code T_SYSCALL) with false in HT. change (in_user c') with (in_user c) in HT. rewrite HU in HT. replace (esp0 k - 8 - 68) with (esp0 k - 76) in HT by lia.
  destruct HT as (T1 & _ & _ & T4 & T5 & T6 & T7). specialize (T5 eq_refl) as [T5 _]. cbv zeta. set (t := read_frame (mem (to_trap g k T_SYSCALL None c')) (esp0 k - 76)) in *.
  split_and!; [done|by rewrite T4|by rewrite T4|done|done|intros a Ha; apply load32_ext; intros x Hx; rewrite T6 by lia; done|].
  intros c2 r E1 E2 Et. destruct (T7 c2 E1 E2) as [_ T8]. rewrite (T8 r Et). subst c'. destruct OK as (O1 & _). specialize (O1 ESP). subst sp. destruct c as [[xa xc xd xb sp bp si di] s p f m]. cbn [getr gr g_esp] in *.
  unfold stub. at_step. change (exec_code [] ?x) with x. at_cbn. by rewrite do_ret_at by lia.
Qed.

(** The first program: its call of [exec] finds the addresses of the string and
    of the array as its two arguments. *)
Lemma initcode_args argv init num c : cpu_ok c -> 12 <= getr c ESP -> 0 <= argv < 4294967296 -> 0 <= init < 4294967296 ->
  let c1 := exec_code (initcode_start argv init num) c in
  getr c1 EAX = num /\ load32 (mem c1) (getr c1 ESP + 4) = init /\ load32 (mem c1) (getr c1 ESP + 8) = argv.
Proof.
  intros (O1 & _) Hs Ha Hi. specialize (O1 ESP). destruct c as [[xa xc xd xb sp bp si di] s p f m]. cbn [getr gr g_esp] in *. unfold initcode_start. do 4 at_step. cbv zeta. change (exec_code [] ?x) with x.
  cbn [getr gr g_eax g_esp mem put]. split_and!; [done| |]; rewrite !load32_store32_ne by lia.
  - replace (sp - 4 - 4 - 4 + 4) with (sp - 4 - 4) by lia. by apply load32_store32_eq.
  - replace (sp - 4 - 4 - 4 + 8) with (sp - 4) by lia. by apply load32_store32_eq.
Qed.

(** ** Samples *)

Module EntrySample.
Definition user (m : memory) : cpu := mkcpu (mkg 11 12 13 14 8000 15 16 17) (mks 27 35 35 0 0 35) 100 512 m.
Definition kern (sp : Z) (m : memory) : cpu := mkcpu (mkg 1 2 3 4 sp 5 6 7) (mks 8 16 16 0 0 16) 200 0 m.
Definition ring : ring0 := mkring0 2148536320 16.
Definition gate : gatedesc := SETGATE false 8 2148532224 0.

Lemma user_ok m : cpu_ok (user m).
Proof. split_and!; try done; intros []; done. Qed.
Lemma kern_ok sp m : 0 <= sp < 4294967296 -> cpu_ok (kern sp m).
Proof. intros Hs. split_and!; try done; intros []; done. Qed.

(** A page fault. *)
Lemma trap_saves_registers_witness :
  let t := read_frame (mem (to_trap gate ring 14 (Some 7) (user (fun _ => 0)))) (esp0 ring - 76) in trapno t = 14 /\ err t = 7 /\ eax t = 11 /\ esp t = 8000.
Proof.
  destruct (trap_saves_registers gate ring 14 7 (user (fun _ => 0)) (user_ok _) ltac:(done) ltac:(done) ltac:(done) ltac:(done) ltac:(done)) as (_ & _ & _ & T4 & T5 & _).
  destruct (T5 eq_refl) as [T6 _]. cbv zeta. split_and!; [exact (f_equal trapno T4)|exact (f_equal err T4)|exact (f_equal eax T4)|exact T6].
Defined.

Definition args (sp old new : Z) (m : memory) : memory := store32 (store32 m (sp + 4) old) (sp + 8) new.

Lemma args_switch sp old new m :
  16 <= sp < 4294967284 -> 0 <= old < 4294967296 -> old + 4 <= sp - 16 \/ sp + 4 <= old -> 0 <= new < 4294967276 ->
  new + 20 <= sp - 16 \/ sp <= new -> new + 20 <= old \/ old + 4 <= new -> can_switch (kern sp (args sp old new m)) old new.
Proof.
  intros. split; cbn [getr gr g_esp kern mem]; try done; unfold args; [|by apply load32_store32_eq; lia]. rewrite load32_store32_ne by lia. by apply load32_store32_eq.
Qed.

(** Away from a stack and back. *)
Definition away : cpu := kern 1000 (args 1000 2000 3000 (fun _ => 0)).
Definition back : cpu := kern 5000 (args 5000 6000 984 (mem (swtch away))).

Lemma swtch_returns_witness : getr (swtch back) ESP = 1004 /\ getr (swtch back) EDI = 7.
Proof.
  destruct (swtch_returns away 2000 3000 back 6000) as (_ & _ & T1 & _ & T2 & _);
    [by apply kern_ok|apply args_switch; lia|by apply kern_ok|rewrite (eq_refl : load32 (mem (swtch away)) 2000 = 984); apply args_switch; lia| |split; [exact T1|exact T2]].
  intros x Hx. cbn [getr gr g_esp away kern] in Hx. cbn [mem back kern]. unfold args. by rewrite !store32_other by lia.
Defined.

(** The first run of a process whose stack is at 4096. *)
Definition laid : memory := store32 (new_stack 21 22 4096 (fun _ => 0)).2 8176 27.
Definition sched : cpu := kern 1000 (args 1000 2000 8092 laid).

Lemma new_process_starts_witness : pc (swtch sched) = 22 /\ gets_ (iret (exec_code trapret (do_ret (swtch sched)))) CS = 27.
Proof.
  destruct (new_process_starts 21 22 4096 (fun _ => 0) sched 2000 (swtch sched)) as (T1 & _ & T3);
    [done|done|done|by apply kern_ok|apply (args_switch 1000 2000 8092); lia| |by left|by left|done|by intros x _|].
  - intros x Hx. change (8092 <= x < 8092 + 24) in Hx. cbn [mem sched kern]. unfold args, laid. by rewrite !store32_other by lia.
  - split; [exact T1|]. rewrite T3; [|by vm_compute]. by vm_compute.
Defined.
End EntrySample.
