(* ===== verification/LockThms.v ===== *)
(** * LockThms: spin locks and sleep locks ([spinlock.c], [sleeplock.c])

    Spin locks are modelled on a machine with several CPUs, where [acquire]
    and [release] are sequences of atomic actions that interleave; interrupt
    nesting is per CPU. *)
From stdpp Require Import base gmap list numbers strings.
From Stdlib Require Import ZArith Lia ZifyBool.
From S2P Require Import Prelude Machine Ptable.

(** ** State *)

(** The fields of [struct cpu] used here, and the interrupt flag of its
    [eflags] register. *)
Record cpu := mkcpu { eflags_IF : bool; ncli : Z; intena : bool }.

(** [struct spinlock]; [lcpu] is the index of the CPU, [None] for a null
    pointer. *)
Record spinlock := mkspinlock { locked : Z; lname : string; lcpu : option nat; pcs : list Z }.

Definition initlock (name : string) (l : spinlock) : spinlock := mkspinlock 0 name None (pcs l).

(** ** Interrupts: a CPU at a time *)

Definition pushcli (c : cpu) : cpu :=
  mkcpu false (i32 (ncli c + 1)) (if ncli c =? 0 then eflags_IF c else intena c).

Definition popcli : M cpu unit := fun c =>
  if eflags_IF c then Panic "popcli - interruptible"
  else
    let n := i32 (ncli c - 1) in
    if n <? 0 then Panic "popcli"
    else Ok tt (mkcpu ((n =? 0) && intena c) n (intena c)).

(** ** Spin locks: the CPU [me] of a machine *)

Record smp := mksmp { cpus : list cpu; lk : spinlock }.

Definition set_cpu (me : nat) (c : cpu) (s : smp) : smp := mksmp (<[me := c]> (cpus s)) (lk s).
Definition set_lk (l : spinlock) (s : smp) : smp := mksmp (cpus s) l.

Definition on_cpu {A} (me : nat) (f : M cpu A) : M smp A := fun s =>
  match cpus s !! me with
  | None => Fault "no such cpu"
  | Some c =>
      match f c with
      | Ok a c' => Ok a (set_cpu me c' s)
      | Panic w => Panic w
      | Fault w => Fault w
      | Block ch => Block ch
      | NoFuel => NoFuel
      end
  end.

Definition pushcli_on (me : nat) : M smp unit := on_cpu me (modify pushcli).
Definition popcli_on (me : nat) : M smp unit := on_cpu me popcli.

Definition holding (me : nat) : M smp bool :=
  pushcli_on me ;;;
  let! l := gets lk in
  let r := negb (locked l =? 0) && bool_decide (lcpu l = Some me) in
  popcli_on me ;;;
  ret r.

(** The saved [%eip]s found from [v] by following the saved [%ebp]s: [load]
    reads a word of the stack. *)
Fixpoint walk_frames (load : Z -> Z) (ebp : Z) (n : nat) : list Z :=
  match n with
  | O => []
  | S n =>
      if (ebp =? 0) || (ebp <? KERNBASE) || (ebp =? 0xffffffff) then replicate (S n) 0
      else load (u32 (ebp + 4)) :: walk_frames load (load ebp) n
  end.
Definition getcallerpcs (load : Z -> Z) (v : Z) : list Z := walk_frames load (u32 (v - 8)) 10.

(** [acquire] up to the loop, one turn of the loop ([xchg]), and the rest. *)
Definition acquire_enter (me : nat) : M smp unit :=
  pushcli_on me ;;;
  let! h := holding me in
  if h then panic "acquire" else ret tt.

Definition acquire_xchg : M smp bool := fun s =>
  Ok (locked (lk s) =? 0) (set_lk (mkspinlock 1 (lname (lk s)) (lcpu (lk s)) (pcs (lk s))) s).

Definition acquire_record (me : nat) (stack : list Z) : M smp unit :=
  modify (fun s => set_lk (mkspinlock (locked (lk s)) (lname (lk s)) (Some me) stack) s).

Definition acquire (fuel me : nat) (stack : list Z) : M smp unit :=
  acquire_enter me ;;;
  loop fuel (fun _ : unit => let! got := acquire_xchg in ret (if got then inr tt else inl tt)) tt ;;;
  acquire_record me stack.

(** [release] up to the store that frees the lock, and the rest. *)
Definition release_clear (me : nat) : M smp unit :=
  let! h := holding me in
  if negb h then panic "release"
  else modify (fun s => set_lk (mkspinlock (locked (lk s)) (lname (lk s)) None
                                 (<[0%nat := 0]> (pcs (lk s)))) s).

Definition release_store (me : nat) : M smp unit :=
  modify (fun s => set_lk (mkspinlock 0 (lname (lk s)) (lcpu (lk s)) (pcs (lk s))) s) ;;;
  popcli_on me.

Definition release (me : nat) : M smp unit := release_clear me ;;; release_store me.

(** ** Sleep locks

    [lk->lk] is held through each routine, so each is one atomic action; the
    routine that finds the lock taken sleeps on its address. *)
Record sleeplock := mksleeplock { sl_locked : Z; sl_name : string; sl_pid : Z }.

Definition initsleeplock (name : string) : sleeplock := mksleeplock 0 name 0.

(** [None]: the process must sleep. *)
Definition acquiresleep (me : Z) (l : sleeplock) : option sleeplock :=
  if negb (sl_locked l =? 0) then None else Some (mksleeplock 1 (sl_name l) me).

(** Followed by a wake-up of the processes sleeping on the lock. *)
Definition releasesleep (l : sleeplock) : sleeplock := mksleeplock 0 (sl_name l) 0.

Definition holdingsleep (me : Z) (l : sleeplock) : bool :=
  negb (sl_locked l =? 0) && (sl_pid l =? me).

(** ** Interrupt nesting *)

(** A run of pushes ([true]) and pops ([false]). *)
Fixpoint run_cli (l : list bool) : M cpu unit :=
  match l with
  | [] => ret tt
  | true :: l => modify pushcli ;;; run_cli l
  | false :: l => popcli ;;; run_cli l
  end.

(** The depth never goes below 0 and ends at [e]. *)
Fixpoint nested (d e : Z) (l : list bool) : Prop :=
  match l with
  | [] => d = e
  | true :: l => nested (d + 1) e l
  | false :: l => 0 < d /\ nested (d - 1) e l
  end.

(** Depth [d] below code that found the flag [f]. *)
Definition at_depth (f : bool) (d : Z) (c : cpu) : Prop :=
  ncli c = d /\ 0 <= d /\ (d = 0 -> eflags_IF c = f) /\ (0 < d -> eflags_IF c = false /\ intena c = f).

Lemma run_cli_spec (l : list bool) (f : bool) (d e : Z) (c : cpu) :
  at_depth f d c -> nested d e l -> d + Z.of_nat (length l) < 2147483648 ->
  wp (run_cli l) (fun _ c' => at_depth f e c') c.
Proof.
  revert d c. induction l as [|b l IH]; intros d c HD HN HB; cbn in *; [by subst|].
  destruct HD as (Hn & Hd & H0 & H1). destruct b; apply wp_bind.
  - apply wp_modify, (IH (d + 1)); [|done|lia]. unfold at_depth, pushcli. cbn. rewrite Hn. split_and!; [zlia|lia|lia|].
    intros _. destruct (Z.eqb_spec d 0); [auto|]. split; [done|apply H1; lia].
  - destruct HN as [Hp HN]. destruct (H1 Hp) as [HI HE]. unfold popcli at 1, wp. rewrite HI, Hn.
    replace (i32 (d - 1)) with (d - 1) by zlia. destruct (Z.ltb_spec (d - 1) 0); [lia|].
    apply (IH (d - 1)); [|done|lia]. unfold at_depth. cbn. rewrite HE. split_and!; [done|lia|..].
    + intros ->. done.
    + intros Hq. destruct (Z.eqb_spec (d - 1) 0); [lia|done].
Qed.

(** [pushcli] and [popcli] nest: after any run of them in which every pop
    has its push, interrupts are enabled exactly if they were before, the
    count is back to 0 and nothing panicked; and whenever the depth is above 0
    interrupts are off. *)
Theorem cli_nests (l : list bool) (c : cpu) (d : Z) :
  ncli c = 0 -> nested 0 d l -> Z.of_nat (length l) < 2147483648 ->
  wp (run_cli l) (fun _ c' => ncli c' = d /\ (d = 0 -> eflags_IF c' = eflags_IF c) /\
    (0 < d -> eflags_IF c' = false)) c.
Proof.
  intros Hn HN HB. eapply wp_mono; [apply (run_cli_spec l (eflags_IF c) 0 d); [|done|lia]|].
  - by split_and!.
  - intros _ c' (H1 & _ & H2 & H3). split_and!; [done|done|]. intros H. by apply H3.
Qed.

Lemma cli_nests_witness :
  nested 0 0 [true; true; false; true; false; false] /\
  wp (run_cli [true; true; false; true; false; false])
    (fun _ c' => ncli c' = 0 /\ (0 = 0 -> eflags_IF c' = true) /\ (0 < 0 -> eflags_IF c' = false))
    (mkcpu true 0 false).
Proof.
  assert (H : nested 0 0 [true; true; false; true; false; false]) by (cbn; lia).
  split; [exact H|]. apply (cli_nests _ (mkcpu true 0 false) 0 eq_refl H). cbn. lia.
Defined.


(** * Mutual exclusion

    CPUs that acquire and release a spin lock with their actions interleaved in
    any order, and processes that do so with a sleep lock. *)

(** Where a CPU is in [acquire] and [release]. *)
Inductive place := Out | Entered | Got | Inside | Leaving.

#[export] Instance place_eq_dec : EqDecision place.
Proof. solve_decision. Defined.

Definition critical (p : place) : bool :=
  match p with Got | Inside | Leaving => true | _ => false end.

(** One atomic action of the CPU [i]. *)
Inductive cstep : smp * list place -> smp * list place -> Prop :=
  | cs_enter i s s' ps : ps !! i = Some Out -> acquire_enter i s = Ok tt s' -> cstep (s, ps) (s', <[i := Entered]> ps)
  | cs_spin i s s' ps : ps !! i = Some Entered -> acquire_xchg s = Ok false s' -> cstep (s, ps) (s', ps)
  | cs_got i s s' ps : ps !! i = Some Entered -> acquire_xchg s = Ok true s' -> cstep (s, ps) (s', <[i := Got]> ps)
  | cs_record i st s s' ps :
      ps !! i = Some Got -> acquire_record i st s = Ok tt s' -> cstep (s, ps) (s', <[i := Inside]> ps)
  | cs_clear i s s' ps : ps !! i = Some Inside -> release_clear i s = Ok tt s' -> cstep (s, ps) (s', <[i := Leaving]> ps)
  | cs_store i s s' ps : ps !! i = Some Leaving -> release_store i s = Ok tt s' -> cstep (s, ps) (s', <[i := Out]> ps).

(** A CPU outside may hold other locks, up to a thousand. *)
Definition cpu_ok (p : place) (c : cpu) : Prop :=
  match p with
  | Out => 0 <= ncli c <= 1000 /\ (0 < ncli c -> eflags_IF c = false)
  | _ => 1 <= ncli c <= 1001 /\ eflags_IF c = false
  end.

(** The lock belongs to at most one CPU. *)
Definition owner_ok (l : spinlock) (ps : list place) (o : option nat) : Prop :=
  (forall i p, ps !! i = Some p -> critical p = bool_decide (o = Some i)) /\
  match o with
  | None => locked l = 0 /\ lcpu l = None
  | Some i => locked l = 1 /\ exists p, ps !! i = Some p /\ lcpu l = if decide (p = Inside) then Some i else None
  end.

Record linv (c : smp * list place) : Prop := mklinv {
  li_cpus : Forall2 cpu_ok (snd c) (cpus (fst c));
  li_owner : exists o, owner_ok (lk (fst c)) (snd c) o;
}.

(** Entering and leaving the inner push and pop of [holding]. *)
Lemma holding_ok (i : nat) (s : smp) (c : cpu) :
  cpus s !! i = Some c -> 1 <= ncli c <= 1001 -> eflags_IF c = false ->
  holding i s = Ok (negb (locked (lk s) =? 0) && bool_decide (lcpu (lk s) = Some i)) s.
Proof.
  intros Hc Hn HI. pose proof (lookup_lt_Some _ _ _ Hc) as Hi.
  unfold holding, pushcli_on, popcli_on, on_cpu, bind, gets, ret, modify. rewrite Hc. cbn [lk set_cpu cpus].
  rewrite list_lookup_insert_eq by done. unfold popcli, pushcli. cbn [eflags_IF ncli intena].
  replace (i32 (i32 (ncli c + 1) - 1)) with (ncli c) by zlia.
  destruct (Z.ltb_spec (ncli c) 0); [lia|]. destruct (Z.eqb_spec (ncli c) 0); [lia|].
  cbn. f_equal. destruct s as [cs l]. unfold set_cpu. cbn. f_equal.
  rewrite list_insert_insert_eq. apply list_insert_id. cbn in Hc. rewrite Hc. f_equal. destruct c; cbn in *. by subst.
Qed.

Lemma acquire_enter_ok (i : nat) (s : smp) (c : cpu) :
  cpus s !! i = Some c -> 0 <= ncli c <= 1000 -> lcpu (lk s) <> Some i ->
  acquire_enter i s = Ok tt (set_cpu i (pushcli c) s).
Proof.
  intros Hc Hn Ho. pose proof (lookup_lt_Some _ _ _ Hc) as Hi.
  unfold acquire_enter, pushcli_on, on_cpu, bind at 1, modify. rewrite Hc.
  unfold bind. rewrite (holding_ok i _ (pushcli c)); cbn [set_cpu cpus lk].
  - rewrite bool_decide_false by done. by rewrite andb_false_r.
  - by apply list_lookup_insert_eq.
  - cbn. zlia.
  - done.
Qed.

Lemma release_clear_ok (i : nat) (s : smp) (c : cpu) :
  cpus s !! i = Some c -> 1 <= ncli c <= 1001 -> eflags_IF c = false -> locked (lk s) = 1 -> lcpu (lk s) = Some i ->
  release_clear i s = Ok tt (set_lk (mkspinlock 1 (lname (lk s)) None (<[0%nat := 0]> (pcs (lk s)))) s).
Proof.
  intros Hc Hn HI HL Ho. unfold release_clear, bind. rewrite (holding_ok i s c) by done.
  rewrite HL, Ho, bool_decide_true by done. cbn. unfold modify. by rewrite HL.
Qed.

Lemma release_store_ok (i : nat) (s : smp) (c : cpu) :
  cpus s !! i = Some c -> 1 <= ncli c <= 1001 -> eflags_IF c = false ->
  release_store i s = Ok tt (set_cpu i (mkcpu ((ncli c - 1 =? 0) && intena c) (ncli c - 1) (intena c))
    (set_lk (mkspinlock 0 (lname (lk s)) (lcpu (lk s)) (pcs (lk s))) s)).
Proof.
  intros Hc Hn HI. unfold release_store, bind, modify, popcli_on, on_cpu. cbn [cpus set_lk]. rewrite Hc.
  unfold popcli. rewrite HI. replace (i32 (ncli c - 1)) with (ncli c - 1) by zlia.
  by destruct (Z.ltb_spec (ncli c - 1) 0); [lia|].
Qed.

(** How ownership moves when [i] goes from [p] to [p']. *)
Lemma owner_move (l l' : spinlock) (ps : list place) (o o' : option nat) (i : nat) (p p' : place) :
  owner_ok l ps o -> ps !! i = Some p -> (critical p' = bool_decide (o' = Some i)) ->
  (forall j, j <> i -> o = Some j <-> o' = Some j) ->
  match o' with
  | None => locked l' = 0 /\ lcpu l' = None
  | Some j => locked l' = 1 /\
      (j = i -> lcpu l' = if decide (p' = Inside) then Some i else None) /\
      (j <> i -> lcpu l' = lcpu l)
  end -> owner_ok l' (<[i := p']> ps) o'.
Proof.
  intros [HC HO] Hp Hcr Hj Ho'. pose proof (lookup_lt_Some _ _ _ Hp) as Hi. split.
  - intros j q Hq. apply list_lookup_insert_Some in Hq as [(<- & <- & _)|(Hne & Hq)]; [done|].
    rewrite (HC j q Hq). apply bool_decide_ext. apply Hj. congruence.
  - destruct o' as [j|]; [|done]. destruct Ho' as (HL & H1 & H2). split; [done|].
    destruct (decide (j = i)) as [->|Hne].
    + exists p'. split; [by apply list_lookup_insert_eq|auto].
    + assert (o = Some j) as -> by (by apply Hj). destruct HO as (_ & q & Hq & Hl). exists q.
      rewrite list_lookup_insert_ne by done. split; [done|]. rewrite (H2 Hne). done.
Qed.

Lemma insert_cpus (ps : list place) (cs : list cpu) (i : nat) (p : place) (c : cpu) :
  Forall2 cpu_ok ps cs -> cpu_ok p c -> Forall2 cpu_ok (<[i := p]> ps) (<[i := c]> cs).
Proof. intros. by apply Forall2_insert. Qed.

(** A CPU in the critical part is the owner. *)
Lemma owner_is (l : spinlock) (ps : list place) (o : option nat) (i : nat) (p : place) :
  owner_ok l ps o -> ps !! i = Some p -> critical p = true -> o = Some i /\ locked l = 1 /\
    lcpu l = if decide (p = Inside) then Some i else None.
Proof.
  intros [HC HO] Hp Hcr. rewrite (HC i p Hp) in Hcr. apply bool_decide_eq_true in Hcr. subst o.
  destruct HO as (HL & q & Hq & Hl). rewrite Hp in Hq. by injection Hq as <-.
Qed.

Lemma owner_not (l : spinlock) (ps : list place) (o : option nat) (i : nat) (p : place) :
  owner_ok l ps o -> ps !! i = Some p -> critical p = false -> o <> Some i /\ lcpu l <> Some i.
Proof.
  intros [HC HO] Hp Hcr. rewrite (HC i p Hp) in Hcr. apply bool_decide_eq_false in Hcr. split; [done|].
  destruct o as [j|]; [|by destruct HO as [_ ->]]. destruct HO as (_ & q & _ & ->). case_decide; congruence.
Qed.

Lemma cstep_linv (c c' : smp * list place) : cstep c c' -> linv c -> linv c'.
Proof.
  intros H [HF (o & HO)]. cbn in *.
  destruct H as [i s s' ps Hp E|i s s' ps Hp E|i s s' ps Hp E|i st s s' ps Hp E|i s s' ps Hp E|i s s' ps Hp E]; cbn [fst snd] in *;
    destruct (Forall2_lookup_l _ _ _ _ _ HF Hp) as (c & Hc & Hok); cbn in Hok.
  - destruct (owner_not _ _ _ _ _ HO Hp eq_refl) as [Ho Hl]. destruct Hok as [Hn HI].
    rewrite (acquire_enter_ok i s c) in E by done. injection E as <-. split; cbn.
    + apply insert_cpus; [done|]. cbn. split; [zlia|done].
    + exists o. eapply (owner_move _ _ _ o o i); eauto; [by rewrite bool_decide_false|].
      destruct o as [j|]; [|apply HO]. destruct HO as (_ & HL & _). split_and!; [done|congruence|done].
  - injection E as E <-. split; [done|]. exists o. cbn. destruct HO as [HC HO]. split; [done|].
    destruct o as [j|]; [by destruct HO as [_ HO]; split|]. destruct HO as [HL _]. by rewrite HL in E.
  - injection E as E <-. split; cbn.
    + assert (cs := list_insert_id (cpus s) i c Hc). rewrite <- cs. apply insert_cpus; [done|]. done.
    + exists (Some i). apply Z.eqb_eq in E. destruct o as [j|]; [destruct HO as (_ & HL & _); lia|].
      eapply (owner_move _ _ _ None (Some i) i); eauto; [by rewrite bool_decide_true|intros j Hj; split; congruence|].
      cbn. destruct HO as (_ & _ & ->). split_and!; [done|by intros _; rewrite decide_False|done].
  - injection E as <-. destruct (owner_is _ _ _ _ _ HO Hp eq_refl) as (-> & HL & _). split; cbn.
    + rewrite <- (list_insert_id (cpus s) i c Hc). by apply insert_cpus.
    + exists (Some i). eapply (owner_move _ _ _ (Some i) (Some i) i); eauto; [by rewrite bool_decide_true|].
      cbn. split_and!; [done|by rewrite decide_True|done].
  - destruct (owner_is _ _ _ _ _ HO Hp eq_refl) as (-> & HL & Hl). rewrite decide_True in Hl by done.
    destruct Hok as [Hn HI]. rewrite (release_clear_ok i s c) in E by done. injection E as <-. split; cbn.
    + rewrite <- (list_insert_id (cpus s) i c Hc). by apply insert_cpus.
    + exists (Some i). eapply (owner_move _ _ _ (Some i) (Some i) i); eauto; [by rewrite bool_decide_true|].
      cbn. split_and!; [done|by rewrite decide_False|done].
  - destruct (owner_is _ _ _ _ _ HO Hp eq_refl) as (-> & HL & Hl). rewrite decide_False in Hl by done.
    destruct Hok as [Hn HI]. rewrite (release_store_ok i s c) in E by done. injection E as <-. split; cbn.
    + apply insert_cpus; [done|]. cbn. split; [lia|]. intros H. by destruct (Z.eqb_spec (ncli c - 1) 0); [lia|].
    + exists None. eapply (owner_move _ _ _ (Some i) None i); eauto. intros j Hj. split; congruence.
Qed.

(** No CPU is near the lock. *)
Definition quiescent (c : smp * list place) : Prop :=
  locked (lk (fst c)) = 0 /\ lcpu (lk (fst c)) = None /\ Forall (eq Out) (snd c) /\
  Forall2 cpu_ok (snd c) (cpus (fst c)).

(** C16. Spin locks exclude: however the atomic actions of any number of CPUs
    interleave, at most one CPU is between the successful [xchg] and the
    store that releases the lock; a CPU about to acquire or inside never panics
    in [acquire] or [release]; and when the lock is free the next [xchg] gets it. *)
Theorem spinlock_excludes (c : smp * list place) (s : smp) (ps : list place) :
  quiescent c -> rtc cstep c (s, ps) ->
  (forall i j p q, ps !! i = Some p -> ps !! j = Some q -> critical p = true -> critical q = true -> i = j) /\
  (forall i, ps !! i = Some Out -> exists s', acquire_enter i s = Ok tt s') /\
  (forall i, ps !! i = Some Inside -> exists s', release i s = Ok tt s') /\
  ((forall i p, ps !! i = Some p -> critical p = false) -> exists s', acquire_xchg s = Ok true s').
Proof.
  intros (HL & HN & HA & HF) HR. assert (HI : linv c).
  { split; [done|]. exists None. split; [|done]. intros i p Hp. rewrite Forall_lookup in HA. by rewrite <- (HA i p Hp). }
  assert (HI' : linv (s, ps)).
  { clear -HR HI. induction HR; [done|]. apply IHHR. by eapply cstep_linv. }
  destruct HI' as [HF' (o & HO)]. cbn in *. split_and!.
  - intros i j p q Hp Hq Cp Cq. destruct (owner_is _ _ _ _ _ HO Hp Cp) as [-> _].
    by destruct (owner_is _ _ _ _ _ HO Hq Cq) as [[= ->] _].
  - intros i Hp. destruct (Forall2_lookup_l _ _ _ _ _ HF' Hp) as (c0 & Hc & Hn & _).
    destruct (owner_not _ _ _ _ _ HO Hp eq_refl). rewrite (acquire_enter_ok i s c0) by done. eauto.
  - intros i Hp. destruct (Forall2_lookup_l _ _ _ _ _ HF' Hp) as (c0 & Hc & Hn & Hf).
    destruct (owner_is _ _ _ _ _ HO Hp eq_refl) as (_ & HL1 & Hl). rewrite decide_True in Hl by done.
    unfold release, bind. rewrite (release_clear_ok i s c0) by done. rewrite (release_store_ok i _ c0) by done. eauto.
  - intros Hn. destruct o as [j|].
    + destruct HO as [HC (_ & q & Hq & _)]. specialize (HC j q Hq). rewrite (Hn j q Hq) in HC. by rewrite bool_decide_true in HC.
    + destruct HO as (_ & HL0 & _). unfold acquire_xchg. rewrite HL0. eauto.
Qed.

Lemma spinlock_excludes_witness :
  let l := mkspinlock 0 "lock" None (replicate 10 0) in
  let s := mksmp [mkcpu true 0 false; mkcpu false 2 true] l in
  let s' := mksmp [mkcpu false 1 true; mkcpu false 3 true] (mkspinlock 1 "lock" None (replicate 10 0)) in
  rtc cstep (s, [Out; Out]) (s', [Got; Entered]) /\
  forall i p, [Got; Entered] !! i = Some p -> critical p = true -> i = 0%nat.
Proof.
  intros l s s'. assert (HR : rtc cstep (s, [Out; Out]) (s', [Got; Entered])).
  { eapply rtc_l; [apply (cs_enter 0); reflexivity|]. eapply rtc_l; [apply (cs_enter 1); reflexivity|].
    eapply rtc_l; [apply (cs_got 0); reflexivity|]. eapply rtc_l; [apply (cs_spin 1); reflexivity|]. apply rtc_refl. }
  split; [exact HR|]. intros i p Hp Hc.
  destruct (spinlock_excludes (s, [Out; Out]) s' [Got; Entered]) as [H _]; [|exact HR|].
  - split_and!; [reflexivity|reflexivity|repeat constructor|repeat constructor; cbn; lia].
  - apply (H i 0%nat p Got Hp); [reflexivity|exact Hc|reflexivity].
Defined.
