(* ===== verification/Bio.v ===== *)
(** * Bio: the buffer cache and the disk ([bio.c], [memide.c])

    The cache is an array of buffers and the list that orders them by use; the
    disk is an array of blocks in memory, as in the driver [memide.c]. *)
From stdpp Require Import base gmap list numbers strings.
From Stdlib Require Import ZArith Lia ZifyBool.
From S2P Require Import Prelude Machine LockThms.

Definition BSIZE : Z := 512.
Definition B_VALID : Z := 2.
Definition B_DIRTY : Z := 4.

(** [struct buf], without the links of the two lists. *)
Record buf := mkbuf {
  b_flags : Z;
  b_dev : Z;
  b_blockno : Z;
  b_lock : sleeplock;
  b_refcnt : Z;
  b_data : memory;
}.

Definition set_flags (x : Z) (b : buf) : buf :=
  mkbuf x (b_dev b) (b_blockno b) (b_lock b) (b_refcnt b) (b_data b).
Definition set_block (d n : Z) (b : buf) : buf :=
  mkbuf (b_flags b) d n (b_lock b) (b_refcnt b) (b_data b).
Definition set_block_lock (x : sleeplock) (b : buf) : buf :=
  mkbuf (b_flags b) (b_dev b) (b_blockno b) x (b_refcnt b) (b_data b).
Definition set_refcnt (x : Z) (b : buf) : buf :=
  mkbuf (b_flags b) (b_dev b) (b_blockno b) (b_lock b) x (b_data b).
Definition set_data (x : memory) (b : buf) : buf :=
  mkbuf (b_flags b) (b_dev b) (b_blockno b) (b_lock b) (b_refcnt b) x.

(** The number of blocks of the disk image. *)
Class Disk := { disksize : Z }.

(** [bcache] and the disk: [lru] lists the indices of the buffers from
    [head.next] to [head.prev]; [me] is the pid of the running process; [writes]
    is the history of the disk, the last write first. *)
Record bcst := mkbc {
  disk : Z -> memory;
  writes : list (Z * memory);
  bufs : list buf;
  lru : list nat;
  bc_lock : bool;
  me : Z;
}.

Definition set_disk (x : Z -> memory) (h : list (Z * memory)) (s : bcst) : bcst :=
  mkbc x h (bufs s) (lru s) (bc_lock s) (me s).
Definition set_bufs (x : list buf) (s : bcst) : bcst :=
  mkbc (disk s) (writes s) x (lru s) (bc_lock s) (me s).
Definition set_lru (x : list nat) (s : bcst) : bcst :=
  mkbc (disk s) (writes s) (bufs s) x (bc_lock s) (me s).
Definition set_bc_lock (x : bool) (s : bcst) : bcst :=
  mkbc (disk s) (writes s) (bufs s) (lru s) x (me s).

Notation MB := (M bcst).

Definition acquire_bcache : MB unit := fun s =>
  if bc_lock s then Panic "acquire" else Ok tt (set_bc_lock true s).
Definition release_bcache : MB unit := fun s =>
  if bc_lock s then Ok tt (set_bc_lock false s) else Panic "release".

(** The buffer at index [i], and an update of it. *)
Definition getb (i : nat) : MB buf := fun s =>
  match bufs s !! i with Some b => Ok b s | None => Fault "bcache" end.
Definition setb (i : nat) (f : buf -> buf) : MB unit :=
  modify (fun s => set_bufs (alter f i (bufs s)) s).

(** [memmove(dst, src, n)] between two arrays. *)
Definition bcopy (dst src : memory) (n : Z) : memory :=
  fun o => if (0 <=? o) && (o <? n) then src o else dst o.

(** ** [binit] *)

Definition buf0 : buf := mkbuf 0 0 0 (initsleeplock "buffer") 0 (fun _ => 0).

(** Each buffer is put in front of the others. *)
Definition binit : MB unit :=
  modify (fun s => set_lru (foldl (fun l i => i :: l) [] (seq 0 (length (bufs s))))
                     (set_bufs (set_block_lock (initsleeplock "buffer") <$> bufs s) (set_bc_lock false s))).

(** ** The disk *)

Section Disk.
Context `{D : Disk}.

Definition write_block (n : Z) (m : memory) : MB unit :=
  modify (fun s => set_disk (fun b => if b =? n then bcopy (disk s b) m BSIZE else disk s b)
                     ((n, m) :: writes s) s).

Definition iderw (i : nat) : MB unit :=
  let! b := getb i in
  let! p := gets me in
  if negb (holdingsleep p (b_lock b)) then panic "iderw: buf not locked"
  else if Z.land (b_flags b) (Z.lor B_VALID B_DIRTY) =? B_VALID then panic "iderw: nothing to do"
  else if negb (b_dev b =? 1) then panic "iderw: request not for disk 1"
  else if disksize <=? b_blockno b then panic "iderw: block out of range"
  else
    (if negb (Z.land (b_flags b) B_DIRTY =? 0) then
       setb i (fun b => set_flags (Z.land (b_flags b) (Z.lnot B_DIRTY)) b) ;;;
       write_block (b_blockno b) (b_data b)
     else
       let! d := gets disk in
       setb i (fun b => set_data (bcopy (b_data b) (d (b_blockno b)) BSIZE) b)) ;;;
    setb i (fun b => set_flags (Z.lor (b_flags b) B_VALID) b).

(** ** The cache *)

(** The first buffer of the list [l] that satisfies [f]. *)
Fixpoint find_buf (f : buf -> bool) (bs : list buf) (l : list nat) : option nat :=
  match l with
  | [] => None
  | i :: l =>
      match bs !! i with
      | Some b => if f b then Some i else find_buf f bs l
      | None => find_buf f bs l
      end
  end.

Definition is_block (dev blockno : Z) (b : buf) : bool := (b_dev b =? dev) && (b_blockno b =? blockno).
Definition is_unused (b : buf) : bool := (b_refcnt b =? 0) && (Z.land (b_flags b) B_DIRTY =? 0).

(** [acquiresleep(&b->lock)] *)
Definition lock_buf (i : nat) : MB unit :=
  let! b := getb i in
  let! p := gets me in
  match acquiresleep p (b_lock b) with
  | None => sleep_on (Z.of_nat i)
  | Some l => setb i (set_block_lock l)
  end.

Definition bget (dev blockno : Z) : MB nat :=
  acquire_bcache ;;;
  let! bs := gets bufs in
  let! l := gets lru in
  match find_buf (is_block dev blockno) bs l with
  | Some i =>
      setb i (fun b => set_refcnt (u32 (b_refcnt b + 1)) b) ;;;
      release_bcache ;;;
      lock_buf i ;;;
      ret i
  | None =>
      match find_buf is_unused bs (rev l) with
      | Some i =>
          setb i (fun b => set_refcnt 1 (set_flags 0 (set_block dev blockno b))) ;;;
          release_bcache ;;;
          lock_buf i ;;;
          ret i
      | None => panic "bget: no buffers"
      end
  end.

Definition bread (dev blockno : Z) : MB nat :=
  let! i := bget dev blockno in
  let! b := getb i in
  when (Z.land (b_flags b) B_VALID =? 0) (iderw i) ;;;
  ret i.

Definition bwrite (i : nat) : MB unit :=
  let! b := getb i in
  let! p := gets me in
  if negb (holdingsleep p (b_lock b)) then panic "bwrite"
  else
    setb i (fun b => set_flags (Z.lor (b_flags b) B_DIRTY) b) ;;;
    iderw i.

(** Move [i] to the front of the list. *)
Definition to_front (i : nat) (l : list nat) : list nat := i :: filter (fun j => j <> i) l.

Definition brelse (i : nat) : MB unit :=
  let! b := getb i in
  let! p := gets me in
  if negb (holdingsleep p (b_lock b)) then panic "brelse"
  else
    setb i (fun b => set_block_lock (releasesleep (b_lock b)) b) ;;;
    acquire_bcache ;;;
    setb i (fun b => set_refcnt (u32 (b_refcnt b - 1)) b) ;;;
    let! b := getb i in
    when (b_refcnt b =? 0) (modify (fun s => set_lru (to_front i (lru s)) s)) ;;;
    release_bcache.
End Disk.
