(* ===== verification/BioSpec.v ===== *)
(** * BioSpec: what the buffer cache promises

    The logical contents of a block ([view]), the invariant of the cache, and
    the specifications of [bread], [bwrite] and [brelse]: reading through the
    cache is reading the block. *)
From stdpp Require Import base gmap list numbers strings.
From Stdlib Require Import ZArith Lia ZifyBool.
From S2P Require Import Prelude Machine LockThms Bio.

Definition valid (b : buf) : bool := Z.testbit (b_flags b) 1.
Definition dirty (b : buf) : bool := Z.testbit (b_flags b) 2.
Definition is_locked (b : buf) : bool := negb (sl_locked (b_lock b) =? 0).

(** Equality of the bytes of two blocks. *)
Definition same_block (m m' : memory) : Prop := forall o, 0 <= o < BSIZE -> m o = m' o.

#[export] Instance same_block_equiv : Equivalence same_block.
Proof. split; [by intros m o|by intros m m' H o Ho; rewrite H|by intros a b c H H' o Ho; rewrite H, H']. Qed.

Lemma same_bcopy (m m' : memory) : same_block (bcopy m m' BSIZE) m'.
Proof. intros o Ho. unfold bcopy. destruct (Z.leb_spec 0 o), (Z.ltb_spec o BSIZE); cbn; lia || done. Qed.

(** ** The flag word *)

Definition flags_ok (f : Z) : Prop := f = 0 \/ f = 2 \/ f = 4 \/ f = 6.

Lemma flags_cases (f : Z) : flags_ok f ->
  (Z.land f B_VALID =? 0) = negb (Z.testbit f 1) /\ (Z.land f B_DIRTY =? 0) = negb (Z.testbit f 2) /\
  (Z.land f (Z.lor B_VALID B_DIRTY) =? B_VALID) = (Z.testbit f 1 && negb (Z.testbit f 2)) /\
  flags_ok (Z.lor f B_VALID) /\ Z.testbit (Z.lor f B_VALID) 1 = true /\
  Z.testbit (Z.lor f B_VALID) 2 = Z.testbit f 2 /\
  flags_ok (Z.lor f B_DIRTY) /\ Z.testbit (Z.lor f B_DIRTY) 2 = true /\
  Z.testbit (Z.lor f B_DIRTY) 1 = Z.testbit f 1 /\
  flags_ok (Z.land f (Z.lnot B_DIRTY)) /\ Z.testbit (Z.land f (Z.lnot B_DIRTY)) 2 = false /\
  Z.testbit (Z.land f (Z.lnot B_DIRTY)) 1 = Z.testbit f 1.
Proof. unfold flags_ok. intros [->|[->|[->| ->]]]; vm_compute; intuition congruence. Qed.

(** ** Contents *)

(** The buffer that caches the block [n] of disk 1. *)
Definition caches (s : bcst) (n : Z) (i : nat) (b : buf) : Prop :=
  bufs s !! i = Some b /\ b_dev b = 1 /\ b_blockno b = n /\ valid b = true.

Definition view_buf (n : Z) (b : buf) : bool := is_block 1 n b && valid b.

Definition view (s : bcst) (n : Z) : memory :=
  match find_buf (view_buf n) (bufs s) (lru s) with
  | Some i => match bufs s !! i with Some b => b_data b | None => disk s n end
  | None => disk s n
  end.

(** ** Invariant *)

Record buf_ok (s : bcst) (b : buf) : Prop := mkbuf_ok {
  bo_flags : flags_ok (b_flags b);
  bo_held : is_locked b = true -> b_refcnt b = 1 /\ sl_pid (b_lock b) = me s /\ sl_locked (b_lock b) = 1;
  bo_idle : is_locked b = false -> b_refcnt b = 0;
  bo_sync : is_locked b = false -> b_dev b = 1 -> valid b = true -> dirty b = false ->
              same_block (b_data b) (disk s (b_blockno b));
  bo_dirty : is_locked b = false -> dirty b = true -> valid b = true /\ b_dev b = 1;
}.

Record binv (s : bcst) : Prop := mkbinv {
  bi_free : bc_lock s = false;
  bi_nodup : NoDup (lru s);
  bi_lru : forall i, i ∈ lru s <-> (i < length (bufs s))%nat;
  bi_bufs : forall i b, bufs s !! i = Some b -> buf_ok s b;
  bi_uniq : forall i j b c, bufs s !! i = Some b -> bufs s !! j = Some c ->
              b_dev b = 1 -> b_dev c = 1 -> b_blockno b = b_blockno c -> i = j;
}.

Lemma find_buf_Some (f : buf -> bool) (bs : list buf) (l : list nat) (i : nat) :
  find_buf f bs l = Some i -> i ∈ l /\ exists b, bs !! i = Some b /\ f b = true.
Proof.
  induction l as [|j l IH]; cbn; [done|]. destruct (bs !! j) as [b|] eqn:E.
  - destruct (f b) eqn:Ef.
    + intros [= <-]. split; [left|eauto].
    + intros H. destruct (IH H) as [? ?]. split; [by right|done].
  - intros H. destruct (IH H) as [? ?]. split; [by right|done].
Qed.

Lemma find_buf_None (f : buf -> bool) (bs : list buf) (l : list nat) (i : nat) (b : buf) :
  find_buf f bs l = None -> i ∈ l -> bs !! i = Some b -> f b = false.
Proof.
  induction l as [|j l IH]; cbn; [by intros _ ?%not_elem_of_nil|].
  intros H Hi Hb. apply elem_of_cons in Hi as [<-|Hi].
  - rewrite Hb in H. by destruct (f b).
  - destruct (bs !! j) as [c|]; [destruct (f c); [done|]|]; auto.
Qed.

Section Specs.
Context `{D : Disk}.
Implicit Types (s : bcst).

Lemma elem_lru (s : bcst) (i : nat) (b : buf) : binv s -> bufs s !! i = Some b -> i ∈ lru s.
Proof. intros I Hb. apply (bi_lru _ I). by eapply lookup_lt_Some. Qed.

Lemma view_cached (s : bcst) (n : Z) (i : nat) (b : buf) : binv s -> caches s n i b -> view s n = b_data b.
Proof.
  intros I (Hb & Hd & Hn & Hv). unfold view.
  destruct (find_buf (view_buf n) (bufs s) (lru s)) as [j|] eqn:E.
  - apply find_buf_Some in E as (_ & c & Hc & Hf). rewrite Hc. unfold view_buf, is_block in Hf. zbool.
    assert (i = j) as -> by (apply (bi_uniq _ I i j b c); lia || done). congruence.
  - pose proof (find_buf_None _ _ _ _ _ E (elem_lru s i b I Hb) Hb) as Hf.
    unfold view_buf, is_block in Hf. rewrite Hd, Hn, Hv, !Z.eqb_refl in Hf. done.
Qed.

Lemma view_disk (s : bcst) (n : Z) : (forall i b, ~ caches s n i b) -> view s n = disk s n.
Proof.
  intros H. unfold view. destruct (find_buf (view_buf n) (bufs s) (lru s)) as [j|] eqn:E; [|done].
  apply find_buf_Some in E as (_ & c & Hc & Hf). unfold view_buf, is_block in Hf. zbool.
  by destruct (H j c).
Qed.

Lemma caches_dec (s : bcst) (n : Z) : (exists i b, caches s n i b) \/ (forall i b, ~ caches s n i b).
Proof.
  destruct (find_buf (view_buf n) (bufs s) (seq 0 (length (bufs s)))) as [j|] eqn:E.
  - left. apply find_buf_Some in E as (_ & c & Hc & Hf). unfold view_buf, is_block in Hf. zbool. by exists j, c.
  - right. intros i b (Hb & Hd & Hn & Hv). assert (Hi : i ∈ seq 0 (length (bufs s))).
    { apply elem_of_seq. pose proof (lookup_lt_Some _ _ _ Hb). lia. }
    pose proof (find_buf_None _ _ _ _ _ E Hi Hb) as Hf.
    unfold view_buf, is_block in Hf. by rewrite Hd, Hn, Hv, !Z.eqb_refl in Hf.
Qed.

(** A block that no locked buffer holds. *)
Definition unheld (s : bcst) (n : Z) : Prop :=
  forall i b, bufs s !! i = Some b -> b_dev b = 1 -> b_blockno b = n -> is_locked b = false.

(** The buffer [i] holds the block [n]. *)
Definition holds_block (s : bcst) (i : nat) (n : Z) (b : buf) : Prop :=
  caches s n i b /\ is_locked b = true.

(** Only the buffer [i] differs. *)
Definition only_buf (i : nat) (s s' : bcst) : Prop :=
  (forall j, j <> i -> bufs s' !! j = bufs s !! j) /\ length (bufs s') = length (bufs s) /\
  (forall j, j ∈ lru s' <-> j ∈ lru s) /\ me s' = me s.

(** Updating one buffer. *)
Lemma binv_buf (s s' : bcst) (i : nat) (b b' : buf) :
  binv s -> bufs s !! i = Some b -> bufs s' = <[i := b']> (bufs s) -> NoDup (lru s') ->
  (forall j, j ∈ lru s' <-> j ∈ lru s) -> bc_lock s' = false -> me s' = me s ->
  (forall n, n <> b_blockno b' \/ b_dev b' <> 1 -> disk s' n = disk s n) -> buf_ok s' b' ->
  (b_dev b' = 1 -> forall j c, j <> i -> bufs s !! j = Some c -> b_dev c = 1 -> b_blockno c <> b_blockno b') ->
  binv s'.
Proof.
  intros I Hb HB HN HL Hf Hm Hd Hok Hu. pose proof (lookup_lt_Some _ _ _ Hb) as Hi.
  assert (Hlk : forall j c, bufs s' !! j = Some c -> (j = i /\ c = b') \/ (j <> i /\ bufs s !! j = Some c)).
  { intros j c. rewrite HB. intros [(<- & <- & _)|(? & ?)]%list_lookup_insert_Some; auto. }
  split; [done|done|intros j; by rewrite HL, HB, length_insert; apply I|..].
  - intros j c Hc. apply Hlk in Hc as [[-> ->]|[Hj Hc]]; [done|].
    destruct (bi_bufs _ I j c Hc) as [O1 O2 O3 O4 O5]. split; rewrite ?Hm; auto.
    intros H1 H2 H3 H4. rewrite Hd; [auto|]. destruct (decide (b_dev b' = 1)); [left|by right]. by apply (Hu e j c).
  - intros j j' c c' Hc Hc' D1 D2 E. apply Hlk in Hc as [[-> ->]|[Hj Hc]], Hc' as [[-> ->]|[Hj' Hc']]; [done|..].
    + by destruct (Hu D1 j' c' Hj' Hc' D2).
    + by destruct (Hu D2 j c Hj Hc D1).
    + by apply (bi_uniq _ I j j' c c').
Qed.

Lemma view_change (s s' : bcst) (i : nat) (b b' : buf) :
  binv s -> binv s' -> bufs s !! i = Some b -> bufs s' = <[i := b']> (bufs s) ->
  (b_dev b' = 1 -> valid b' = true -> same_block (b_data b') (view s (b_blockno b'))) ->
  (b_dev b = 1 -> valid b = true -> b_dev b' <> 1 \/ valid b' = false \/ b_blockno b' <> b_blockno b ->
     same_block (disk s' (b_blockno b)) (b_data b)) ->
  (forall n, (forall j c, ~ caches s' n j c) -> (forall j c, ~ caches s n j c) -> same_block (disk s' n) (disk s n)) ->
  forall n, same_block (view s' n) (view s n).
Proof.
  intros I I' Hb HB H1 H2 H3 n. pose proof (lookup_lt_Some _ _ _ Hb) as Hi.
  destruct (caches_dec s' n) as [(j & c & HC)|HN].
  - rewrite (view_cached s' n j c I' HC). destruct HC as (Hc & Hd & Hn & Hv). rewrite HB in Hc.
    apply list_lookup_insert_Some in Hc as [(<- & <- & _)|(Hj & Hc)]; [subst n; auto|].
    by rewrite (view_cached s n j c I (conj Hc (conj Hd (conj Hn Hv)))).
  - rewrite (view_disk s' n HN). destruct (caches_dec s n) as [(j & c & HC)|HN'].
    + rewrite (view_cached s n j c I HC). destruct HC as (Hc & Hd & Hn & Hv).
      destruct (decide (j = i)) as [->|Hj].
      * rewrite Hb in Hc. injection Hc as <-. subst n. apply H2; auto.
        destruct (decide (b_dev b' = 1)); [|by left]. destruct (valid b') eqn:Ev; [|by right; left].
        right; right. intros E. destruct (HN i b'). split_and!; try done. rewrite HB. by apply list_lookup_insert_eq.
      * destruct (HN j c). split_and!; try done. rewrite HB. by rewrite list_lookup_insert_ne.
    + rewrite (view_disk s n HN'). by apply H3.
Qed.

(** ** Steps *)


Lemma wp_setb (i : nat) (f : buf -> buf) (s : bcst) (b : buf) Q :
  bufs s !! i = Some b -> Q tt (set_bufs (<[i := f b]> (bufs s)) s) -> wp (setb i f) Q s.
Proof. intros Hb HQ. unfold setb. apply wp_modify. by rewrite (alter_item _ _ b). Qed.

Lemma wp_getb (i : nat) (s : bcst) (b : buf) Q : bufs s !! i = Some b -> Q b s -> wp (getb i) Q s.
Proof. intros Hb HQ. eapply wp_from_Ok; [|exact HQ]. unfold getb. by rewrite Hb. Qed.

Lemma wp_acquire_bcache (s : bcst) Q :
  bc_lock s = false -> Q tt (set_bc_lock true s) -> wp acquire_bcache Q s.
Proof. intros Hl HQ. eapply wp_from_Ok; [|exact HQ]. unfold acquire_bcache. by rewrite Hl. Qed.

Lemma wp_release_bcache (s : bcst) Q :
  bc_lock s = true -> Q tt (set_bc_lock false s) -> wp release_bcache Q s.
Proof. intros Hl HQ. eapply wp_from_Ok; [|exact HQ]. unfold release_bcache. by rewrite Hl. Qed.
End Specs.

Ltac bstep :=
  cbn beta; match goal with
  | |- wp (bind _ _) _ _ => apply wp_bind
  | |- wp (ret _) _ _ => apply wp_ret
  | |- wp (gets _) _ _ => apply wp_gets
  | |- wp (modify _) _ _ => apply wp_modify
  | |- wp acquire_bcache _ _ => apply wp_acquire_bcache; [done|]
  | |- wp release_bcache _ _ => apply wp_release_bcache; [done|]
  | |- wp (setb _ _) _ _ => eapply wp_setb; [cbn [bufs]; first [apply list_lookup_insert_eq; lia|eassumption]|]
  | |- wp (getb _) _ _ => eapply wp_getb; [cbn [bufs]; first [apply list_lookup_insert_eq; lia|eassumption]|]
  end; cbn [set_disk set_bufs set_lru set_bc_lock disk writes bufs lru bc_lock me];
  rewrite ?list_insert_insert_eq, ?length_insert.

Section Ops.
Context `{D : Disk}.
Implicit Types (s : bcst).

Lemma idle_lock (s : bcst) (b : buf) : is_locked b = false -> acquiresleep (me s) (b_lock b) =
  Some (mksleeplock 1 (sl_name (b_lock b)) (me s)).
Proof. unfold is_locked, acquiresleep. by intros ->. Qed.

Lemma held_holding (s : bcst) (b : buf) : buf_ok s b -> is_locked b = true -> holdingsleep (me s) (b_lock b) = true.
Proof.
  intros O Hl. destruct (bo_held _ _ O Hl) as (_ & E & _). unfold holdingsleep.
  rewrite E, Z.eqb_refl, andb_true_r. exact Hl.
Qed.

(** A buffer locked and referenced. *)
Definition take_buf (s : bcst) (b : buf) : buf :=
  set_block_lock (mksleeplock 1 (sl_name (b_lock b)) (me s)) (set_refcnt 1 b).

(** There is a buffer for the block: it is cached already or one can be
    recycled. *)
Definition room (s : bcst) : Prop := exists i b, bufs s !! i = Some b /\ is_unused b = true.

Lemma bget_spec (s : bcst) (n : Z) :
  binv s -> unheld s n -> room s \/ (exists i b, bufs s !! i = Some b /\ b_dev b = 1 /\ b_blockno b = n) ->
  wp (bget 1 n) (fun i s' => exists b b0, bufs s !! i = Some b /\ is_locked b = false /\
    s' = set_bufs (<[i := take_buf s b0]> (bufs s)) s /\
    ((b_dev b = 1 /\ b_blockno b = n /\ b0 = b) \/
     (is_unused b = true /\ (forall j c, bufs s !! j = Some c -> b_dev c = 1 -> b_blockno c <> n) /\
      b0 = set_flags 0 (set_block 1 n b)))) s.
Proof.
  intros I HU HR. pose proof (bi_free _ I) as Hf. unfold bget. repeat bstep.
  destruct (find_buf (is_block 1 n) (bufs s) (lru s)) as [i|] eqn:E.
  - apply find_buf_Some in E as (_ & b & Hb & Hm). unfold is_block in Hm. zbool.
    pose proof (lookup_lt_Some _ _ _ Hb) as Hi. assert (Hl : is_locked b = false) by (by apply (HU i b)).
    pose proof (bo_idle _ _ (bi_bufs _ I i b Hb) Hl) as Hr.
    repeat bstep. unfold lock_buf. repeat bstep. cbn [b_lock set_refcnt]. rewrite (idle_lock s b Hl). repeat bstep.
    exists b, b. split_and!; auto. unfold take_buf. rewrite Hr. change (u32 (0 + 1)) with 1. destruct s; cbn in *. by subst.
  - destruct (find_buf is_unused (bufs s) (rev (lru s))) as [i|] eqn:E'.
    + apply find_buf_Some in E' as (_ & b & Hb & Hm). pose proof (lookup_lt_Some _ _ _ Hb) as Hi.
      assert (Hl : is_locked b = false).
      { destruct (is_locked b) eqn:El; [|done]. destruct (bo_held _ _ (bi_bufs _ I i b Hb) El) as [E1 _].
        unfold is_unused in Hm. zbool. lia. }
      repeat bstep. unfold lock_buf. repeat bstep. cbn [b_lock set_refcnt set_flags set_block].
      rewrite (idle_lock s b Hl). repeat bstep. exists b, (set_flags 0 (set_block 1 n b)).
      split_and!; [done|done|destruct s; cbn in *; by subst|]. right. split_and!; [done| |done].
      intros j c Hc D1 En. pose proof (find_buf_None _ _ _ _ _ E (elem_lru s j c I Hc) Hc) as Hx.
      unfold is_block in Hx. by rewrite D1, En, !Z.eqb_refl in Hx.
    + exfalso. destruct HR as [(i & b & Hb & Hu)|(i & b & Hb & D1 & En)].
      * assert (Hi : i ∈ rev (lru s)).
        { rewrite list_elem_of_In, <- in_rev, <- list_elem_of_In. by eapply elem_lru. }
        by rewrite (find_buf_None _ _ _ _ _ E' Hi Hb) in Hu.
      * pose proof (find_buf_None _ _ _ _ _ E (elem_lru s i b I Hb) Hb) as Hx.
        unfold is_block in Hx. by rewrite D1, En, !Z.eqb_refl in Hx.
Qed.

(** [bread]: a locked buffer with the contents of the block. *)
Record read_post (s s' : bcst) (n : Z) (i : nat) (b : buf) : Prop := mkread {
  rd_inv : binv s';
  rd_held : holds_block s' i n b;
  rd_was : exists b0, bufs s !! i = Some b0 /\ is_locked b0 = false /\
             (is_unused b0 = true \/ (b_dev b0 = 1 /\ b_blockno b0 = n /\ b_data b = b_data b0 /\ dirty b = dirty b0));
  rd_only : bufs s' = <[i := b]> (bufs s);
  rd_rest : disk s' = disk s /\ writes s' = writes s /\ lru s' = lru s /\ me s' = me s;
  rd_data : same_block (b_data b) (view s n);
  rd_view : forall m, same_block (view s' m) (view s m);
  rd_clean : dirty b = true -> exists b0, caches s n i b0 /\ dirty b0 = true;
}.

(** Reading the block into a buffer just taken for it. *)
Lemma iderw_read (s : bcst) (n : Z) (i : nat) (b : buf) Q :
  bufs s !! i = Some b -> holdingsleep (me s) (b_lock b) = true -> b_flags b = 0 -> b_dev b = 1 ->
  b_blockno b = n -> n < disksize ->
  Q tt (set_bufs (<[i := set_flags 2 (set_data (bcopy (b_data b) (disk s n) BSIZE) b)]> (bufs s)) s) ->
  wp (iderw i) Q s.
Proof.
  intros Hb Hh Hf Hd Hn Hlt HQ. pose proof (lookup_lt_Some _ _ _ Hb) as Hi. unfold iderw. repeat bstep.
  rewrite Hh, Hf, Hd, Hn, Z.eqb_refl. destruct (Z.leb_spec disksize n); [lia|].
  change (Z.land 0 (Z.lor B_VALID B_DIRTY) =? B_VALID) with false.
  change (Z.land 0 B_DIRTY =? 0) with true. cbn [negb]. repeat bstep. cbn [set_data b_blockno b_data b_flags]. rewrite ?Hf, ?Hn. exact HQ.
Qed.

Lemma flags_zero (f : Z) : flags_ok f -> Z.testbit f 1 = false -> Z.testbit f 2 = false -> f = 0.
Proof. unfold flags_ok. by intros [->|[->|[->| ->]]]. Qed.

(** The state when the buffer [b'] has been locked with the block [n] in it. *)
Lemma read_done (s : bcst) (n : Z) (i : nat) (b b' : buf) :
  binv s -> bufs s !! i = Some b -> is_locked b = false ->
  is_unused b = true \/ (b_dev b = 1 /\ b_blockno b = n) ->
  (forall j c, j <> i -> bufs s !! j = Some c -> b_dev c = 1 -> b_blockno c <> n) ->
  b_dev b' = 1 -> b_blockno b' = n -> flags_ok (b_flags b') -> valid b' = true -> is_locked b' = true ->
  b_refcnt b' = 1 -> b_lock b' = mksleeplock 1 (sl_name (b_lock b)) (me s) ->
  same_block (b_data b') (view s n) ->
  (b_dev b = 1 -> b_blockno b = n -> valid b = true -> b_data b' = b_data b /\ dirty b' = dirty b) ->
  ((b_dev b = 1 /\ b_blockno b = n /\ valid b = true) \/ dirty b' = false) ->
  read_post s (set_bufs (<[i := b']> (bufs s)) s) n i b'.
Proof.
  intros I Hb Hl Hw Hu D1 En Hfl Hv Hl' Hr Hlk HD HS HC. pose proof (lookup_lt_Some _ _ _ Hb) as Hi.
  assert (I' : binv (set_bufs (<[i := b']> (bufs s)) s)).
  { eapply (binv_buf s _ i b b'); eauto; try done; [apply I|apply I| |].
    - split; [done| |congruence..]. intros _. rewrite Hlk. done.
    - intros _ j c Hj Hc Dc. rewrite En. by apply (Hu j c). }
  assert (Hunused : is_unused b = true -> dirty b = false).
  { unfold is_unused. intros H. zbool. destruct (flags_cases _ (bo_flags _ _ (bi_bufs _ I i b Hb))) as (_ & E & _).
    rewrite H0 in E. unfold dirty. by destruct (Z.testbit (b_flags b) 2). }
  split; try done.
  - split; [|done]. split_and!; try done. by apply list_lookup_insert_eq.
  - exists b. split_and!; [done|done|]. destruct Hw as [Hw|[Hd Hn]]; [by left|].
    destruct (valid b) eqn:Ev; [right; destruct (HS Hd Hn eq_refl); auto|left].
    unfold is_unused. rewrite (bo_idle _ _ (bi_bufs _ I i b Hb) Hl).
    assert (dirty b = false) as Hdb.
    { destruct (dirty b) eqn:E; [|done]. destruct (bo_dirty _ _ (bi_bufs _ I i b Hb) Hl E). congruence. }
    rewrite (flags_zero (b_flags b)); [done|apply (bo_flags _ _ (bi_bufs _ I i b Hb))|done|done].
  - intros m. eapply (view_change s _ i b b'); eauto; cbn [disk set_bufs]; try done.
    + intros _ _. by rewrite En.
    + intros Hd Hvb Hne. symmetry. destruct Hw as [Hw|[_ Hn]]; [|destruct Hne as [|[|]]; congruence].
      apply (bo_sync _ _ (bi_bufs _ I i b Hb)); auto.
  - intros Hdb. destruct HC as [(Hd & Hn & Hvb)|]; [|congruence]. exists b. split; [done|].
    destruct (HS Hd Hn Hvb). congruence.
Qed.

Lemma bread_spec (s : bcst) (n : Z) :
  binv s -> unheld s n -> 0 <= n < disksize ->
  room s \/ (exists i b, bufs s !! i = Some b /\ b_dev b = 1 /\ b_blockno b = n) ->
  wp (bread 1 n) (fun i s' => exists b, read_post s s' n i b) s.
Proof.
  intros I HU Hn HR. unfold bread. bstep. eapply wp_mono; [by apply bget_spec|].
  intros i s1 (b & b0 & Hb & Hl & -> & HB). pose proof (lookup_lt_Some _ _ _ Hb) as Hi.
  pose proof (bi_bufs _ I i b Hb) as O. repeat bstep.
  assert (Hu : forall j c, j <> i -> bufs s !! j = Some c -> b_dev c = 1 -> b_blockno c <> n).
  { intros j c Hj Hc Dc E. destruct HB as [(D1 & En & _)|(_ & H & _)]; [|by apply (H j c)].
    apply Hj. apply (bi_uniq _ I j i c b); lia || done. }
  destruct (flags_cases _ (bo_flags _ _ O)) as (FV & FD & _).
  assert (Hfresh : valid b0 = false -> b_flags b0 = 0).
  { destruct HB as [(D1 & En & ->)|(_ & _ & ->)]; [|done]. intros Hv. apply flags_zero; [apply O|done|].
    destruct (Z.testbit (b_flags b) 2) eqn:E; [|done]. destruct (bo_dirty _ _ O Hl E). congruence. }
  assert (Hb0 : b_dev b0 = 1 /\ b_blockno b0 = n /\ flags_ok (b_flags b0) /\ b_lock b0 = b_lock b).
  { destruct HB as [(D1 & En & ->)|(_ & _ & ->)]; [split_and!; try done; apply O|split_and!; try done; by left]. }
  destruct Hb0 as (D0 & E0 & F0 & L0).
  assert (Hw : is_unused b = true \/ (b_dev b = 1 /\ b_blockno b = n)) by naive_solver.
  apply wp_when; cbn [b_flags take_buf set_block_lock set_refcnt]; intros HV;
    rewrite (proj1 (flags_cases _ F0)) in HV; fold (valid b0) in HV.
  - apply negb_true_iff in HV. specialize (Hfresh HV).
    assert (Hnc : forall j c, ~ caches s n j c).
    { intros j c (Hc & Dc & En & Ec). destruct (decide (j = i)) as [->|Hj]; [|by apply (Hu j c)].
      rewrite Hb in Hc. injection Hc as <-. destruct HB as [(_ & _ & ->)|(_ & H & _)]; [congruence|]. by apply (H i b). }
    eapply (iderw_read _ n i (take_buf s b0)); try done; [by apply list_lookup_insert_eq| |lia|].
    + unfold holdingsleep. cbn. by rewrite Z.eqb_refl.
    + repeat bstep. cbn [set_bufs bufs disk]. rewrite ?list_insert_insert_eq.
      eexists. eapply (read_done s n i b); eauto; cbn [b_dev b_blockno b_flags b_refcnt b_lock b_data set_flags set_data take_buf set_block_lock set_refcnt]; try done.
      * right; left. done.
      * by rewrite L0.
      * rewrite (view_disk s n Hnc). apply same_bcopy.
      * intros Db En Ev. by destruct (Hnc i b).
  - apply negb_false_iff in HV. destruct HB as [(D1 & En & ->)|(_ & _ & ->)]; [|done].
    apply wp_ret. exists (take_buf s b). eapply (read_done s n i b); eauto; try done.
    rewrite (view_cached s n i b I); done.
Qed.

(** ** Working on a held buffer *)

(** A held buffer replaced by [b'], which holds the same block. *)
Lemma binv_held (s s' : bcst) (i : nat) (n : Z) (b b' : buf) :
  binv s -> holds_block s i n b -> bufs s' = <[i := b']> (bufs s) -> lru s' = lru s -> bc_lock s' = false ->
  me s' = me s -> (forall m, m <> n -> disk s' m = disk s m) ->
  b_dev b' = 1 -> b_blockno b' = n -> flags_ok (b_flags b') -> b_lock b' = b_lock b -> b_refcnt b' = b_refcnt b ->
  binv s'.
Proof.
  intros I ((Hb & D1 & En & Hv) & Hl) HB HL Hf Hm Hd D1' En' Hfl Hlk Hr.
  pose proof (bi_bufs _ I i b Hb) as O. assert (Hl' : is_locked b' = true) by (unfold is_locked; by rewrite Hlk).
  eapply (binv_buf s s' i b b'); eauto; [rewrite HL; apply I|by rewrite HL| |split; [done| |congruence..]|].
  - intros m [Hmn|?]; [|done]. apply Hd. congruence.
  - intros _. rewrite Hr, Hlk, Hm. by apply (bo_held _ _ O).
  - intros _ j c Hj Hc Dc E. apply Hj. apply (bi_uniq _ I j i c b); lia || congruence.
Qed.

(** Storing into the data of a held buffer. *)
Lemma put_data (s : bcst) (i : nat) (n : Z) (b : buf) (m : memory) :
  binv s -> holds_block s i n b ->
  let s' := set_bufs (<[i := set_data m b]> (bufs s)) s in
  binv s' /\ holds_block s' i n (set_data m b) /\ view s' n = m /\
  (forall k, k <> n -> same_block (view s' k) (view s k)).
Proof.
  intros I HH s'. pose proof HH as ((Hb & D1 & En & Hv) & Hl). pose proof (lookup_lt_Some _ _ _ Hb) as Hi.
  assert (I' : binv s').
  { eapply (binv_held s s' i n b); eauto; cbn; try done; [apply I|apply (bi_bufs _ I i b Hb)]. }
  assert (HC : caches s' n i (set_data m b)) by (split_and!; try done; by apply list_lookup_insert_eq).
  split_and!; [done|by split|by rewrite (view_cached s' n i _ I' HC)|].
  intros k Hk. unfold same_block. destruct (caches_dec s' k) as [(j & c & HCk)|HN].
  - rewrite (view_cached s' k j c I' HCk). destruct HCk as (Hc & Dc & Ec & Vc).
    apply list_lookup_insert_Some in Hc as [(<- & <- & _)|(Hj & Hc)]; [cbn in Ec; lia|].
    by rewrite (view_cached s k j c I (conj Hc (conj Dc (conj Ec Vc)))).
  - rewrite (view_disk s' k HN), (view_disk s k); [done|]. intros j c (Hc & Dc & Ec & Vc).
    destruct (decide (j = i)) as [->|Hj]; [rewrite Hb in Hc; injection Hc as <-; lia|].
    destruct (HN j c). split_and!; try done. cbn. by rewrite list_lookup_insert_ne.
Qed.

(** Marking a held buffer dirty. *)
Lemma mark_dirty (s : bcst) (i : nat) (n : Z) (b : buf) :
  binv s -> holds_block s i n b ->
  let b' := set_flags (Z.lor (b_flags b) B_DIRTY) b in
  let s' := set_bufs (<[i := b']> (bufs s)) s in
  binv s' /\ holds_block s' i n b' /\ dirty b' = true /\ (forall k, same_block (view s' k) (view s k)).
Proof.
  intros I HH b' s'. pose proof HH as ((Hb & D1 & En & Hv) & Hl). pose proof (lookup_lt_Some _ _ _ Hb) as Hi.
  destruct (flags_cases _ (bo_flags _ _ (bi_bufs _ I i b Hb))) as (_ & _ & _ & _ & _ & _ & F1 & F2 & F3 & _).
  assert (I' : binv s') by (eapply (binv_held s s' i n b); eauto; done || apply I).
  assert (Hv' : valid b' = true) by (unfold valid, b'; cbn [b_flags set_flags]; by rewrite F3).
  split_and!; [done| |done|].
  - split; [|done]. split_and!; try done. by apply list_lookup_insert_eq.
  - eapply (view_change s s' i b b'); eauto; cbn [disk s' set_bufs b' b_dev b_blockno b_data set_flags]; try done.
    + intros _ _. rewrite En. by rewrite (view_cached s n i b I).
    + intros _ _ [|[|]]; congruence.
Qed.

Lemma bwrite_spec (s : bcst) (i : nat) (n : Z) (b : buf) :
  binv s -> holds_block s i n b -> n < disksize ->
  wp (bwrite i) (fun _ s' => binv s' /\ holds_block s' i n (set_flags 2 b) /\
    s' = set_disk (fun k => if k =? n then bcopy (disk s k) (b_data b) BSIZE else disk s k) ((n, b_data b) :: writes s)
           (set_bufs (<[i := set_flags 2 b]> (bufs s)) s) /\
    (forall k, same_block (view s' k) (view s k))) s.
Proof.
  intros I HH Hn. pose proof HH as ((Hb & D1 & En & Hv) & Hl). pose proof (lookup_lt_Some _ _ _ Hb) as Hi.
  pose proof (bi_bufs _ I i b Hb) as O. destruct (flags_cases _ (bo_flags _ _ O)) as (_ & _ & _ & _ & _ & _ & F1 & F2 & F3 & _).
  destruct (flags_cases _ F1) as (_ & G1 & G2 & _). rewrite F2 in G1, G2. rewrite andb_false_r in G2.
  unfold bwrite. repeat bstep. rewrite (held_holding s b O Hl). cbn [negb]. repeat bstep. unfold iderw.
  repeat bstep. cbn [b_lock b_flags b_dev b_blockno set_flags]. rewrite (held_holding s b O Hl), G2, D1, En. cbn [negb Z.eqb].
  destruct (Z.leb_spec disksize n); [lia|]. rewrite G1. cbn [negb Pos.eqb]. unfold write_block. repeat bstep.
  assert (EF : Z.lor (Z.land (Z.lor (b_flags b) B_DIRTY) (Z.lnot B_DIRTY)) B_VALID = 2).
  { destruct (bo_flags _ _ O) as [E|[E|[E|E]]]; unfold valid in Hv; rewrite E in Hv |- *; done. }
  cbn [b_flags set_flags b_dev b_blockno b_lock b_refcnt b_data]. rewrite EF.
  rewrite ?En.
  set (s' := set_disk (fun k => if k =? n then bcopy (disk s k) (b_data b) BSIZE else disk s k) ((n, b_data b) :: writes s)
               (set_bufs (<[i := set_flags 2 b]> (bufs s)) s)).
  match goal with |- binv ?x /\ _ => change x with s' end.
  assert (I' : binv s').
  { eapply (binv_held s s' i n b (set_flags 2 b)); eauto; cbn [s' bufs lru bc_lock me disk set_flags set_disk set_bufs]; try done.
    - apply I.
    - intros m Hm. by destruct (Z.eqb_spec m n).
    - by right; left. }
  split_and!; [done| |done|].
  - split; [|done]. split_and!; try done. by apply list_lookup_insert_eq.
  - eapply (view_change s s' i b (set_flags 2 b)); eauto; cbn [s' disk set_flags set_disk set_bufs b_dev b_blockno b_data]; try done.
    + intros _ _. rewrite En. by rewrite (view_cached s n i b I).
    + intros _ _ [?|[?|?]]; done.
    + intros m HN _. destruct (Z.eqb_spec m n) as [->|]; [|done]. destruct (HN i (set_flags 2 b)).
      split_and!; try done. by apply list_lookup_insert_eq.
Qed.

Lemma to_front_spec (i : nat) (l : list nat) :
  NoDup l -> i ∈ l -> NoDup (to_front i l) /\ forall j, j ∈ to_front i l <-> j ∈ l.
Proof.
  intros HN Hi. split.
  - apply NoDup_cons_2; [|by apply NoDup_filter]. rewrite list_elem_of_filter. by intros [[] _].
  - intros j. unfold to_front. rewrite elem_of_cons, list_elem_of_filter. destruct (decide (j = i)) as [->|]; naive_solver.
Qed.

(** The buffer [b] released. *)
Definition free_buf (b : buf) : buf := set_refcnt 0 (set_block_lock (releasesleep (b_lock b)) b).

Lemma brelse_spec (s : bcst) (i : nat) (n : Z) (b : buf) :
  binv s -> holds_block s i n b -> dirty b = true \/ same_block (b_data b) (disk s n) ->
  wp (brelse i) (fun _ s' => binv s' /\ bufs s' = <[i := free_buf b]> (bufs s) /\ disk s' = disk s /\
    writes s' = writes s /\ me s' = me s /\ (forall j, j ∈ lru s' <-> j ∈ lru s) /\
    (forall k, same_block (view s' k) (view s k))) s.
Proof.
  intros I HH HS. pose proof HH as ((Hb & D1 & En & Hv) & Hl). pose proof (lookup_lt_Some _ _ _ Hb) as Hi.
  pose proof (bi_bufs _ I i b Hb) as O. pose proof (bi_free _ I) as Hf. destruct (bo_held _ _ O Hl) as (Hr & _).
  unfold brelse. repeat bstep. rewrite (held_holding s b O Hl). cbn [negb]. repeat bstep.
  cbn [b_refcnt set_refcnt set_block_lock]. rewrite Hr. change (u32 (1 - 1)) with 0.
  apply wp_when; [intros _|done]. repeat bstep.
  set (s' := set_bc_lock false (set_lru (to_front i (lru s)) (set_bufs (<[i := free_buf b]> (bufs s)) s))).
  match goal with |- binv ?x /\ _ => change x with s' end.
  destruct (to_front_spec i (lru s) (bi_nodup _ I) (elem_lru s i b I Hb)) as [HN HL].
  assert (I' : binv s').
  { eapply (binv_buf s s' i b (free_buf b)); eauto; cbn [s' bufs lru bc_lock me disk set_bc_lock set_lru set_bufs]; try done.
    - split; cbn [b_flags b_lock b_refcnt b_dev b_blockno b_data free_buf set_refcnt set_block_lock releasesleep sl_locked]; try done; [apply O|..].
      + intros _ _ _ Hd. destruct HS as [HS|HS]; [|by rewrite En]. change (dirty b = false) in Hd. congruence.
    - intros _ j c Hj Hc Dc E. apply Hj. apply (bi_uniq _ I j i c b); try done. }
  split_and!; try done.
  eapply (view_change s s' i b (free_buf b)); eauto; cbn [s' disk free_buf b_dev b_blockno b_data set_refcnt set_block_lock set_bc_lock set_lru set_bufs]; try done.
  - intros _ _. rewrite En. by rewrite (view_cached s n i b I).
  - intros _ _ [?|[H|?]]; try done. change (valid b = false) in H. congruence.
Qed.
End Ops.
