(* ===== verification/Ide.v ===== *)
(** * Ide: the disk driver ([ide.c])

    The queue of requests, kept by [iderw] and [ideintr] as a list linked
    through the buffers, and the disk controller behind its I/O ports.  The
    processes that ask for blocks, the controller and the interrupt handler
    take turns; the theorem is that requests are served in the order in which
    they came and that each gets the contents the disk has then. *)
From stdpp Require Import base gmap list numbers strings.
From Stdlib Require Import ZArith Lia ZifyBool.
From S2P Require Import Prelude Machine LockThms Bio.

Definition SECTOR_SIZE : Z := 512.
Definition IDE_BSY : Z := 128.
Definition IDE_DRDY : Z := 64.
Definition IDE_DF : Z := 32.
Definition IDE_ERR : Z := 1.
Definition IDE_CMD_READ : Z := 32.
Definition IDE_CMD_WRITE : Z := 48.
Definition IDE_CMD_RDMUL : Z := 196.
Definition IDE_CMD_WRMUL : Z := 197.

(** ** The controller

    A command for one sector with its addresses in the registers 0x1f2 to
    0x1f6: the controller is idle, waits for the data of a write, is busy, or
    is done and has raised its interrupt.  [bad] tells whether the command
    failed. *)
Inductive job :=
  | Idle
  | WantData (drive sector : Z)
  | Busy (drive sector : Z) (out : option (list Z))
  | Done (bad : bool) (input : list Z).

Record ata := mkata { regs : Z -> Z; medium : Z -> Z -> list Z; todo : job }.

Definition set_regs (x : Z -> Z) (a : ata) : ata := mkata x (medium a) (todo a).
Definition set_medium (x : Z -> Z -> list Z) (a : ata) : ata := mkata (regs a) x (todo a).
Definition set_todo (x : job) (a : ata) : ata := mkata (regs a) (medium a) x.

Definition lba (r : Z -> Z) : Z := r 499 + 256 * r 500 + 65536 * r 501 + 16777216 * (Z.land (r 502) 15).
Definition drive (r : Z -> Z) : Z := Z.land (Z.shiftr (r 502) 4) 1.

(** [outb]: a register, or the command register 0x1f7. *)
Definition ata_outb (port v : Z) (a : ata) : ata :=
  if port =? 503 then
    if v =? IDE_CMD_WRITE then set_todo (WantData (drive (regs a)) (lba (regs a))) a
    else if v =? IDE_CMD_READ then set_todo (Busy (drive (regs a)) (lba (regs a)) None) a
    else a
  else set_regs (fun p => if p =? port then Z.land v 255 else regs a p) a.

(** [outsl] of a sector, and [insl] of one. *)
Definition ata_outsl (data : list Z) (a : ata) : ata :=
  match todo a with WantData d s => set_todo (Busy d s (Some data)) a | _ => a end.
Definition ata_insl (a : ata) : list Z := match todo a with Done _ d => d | _ => [] end.

(** [inb(0x1f7)] *)
Definition ata_status (a : ata) : Z :=
  match todo a with
  | Busy _ _ _ => IDE_BSY
  | Done true _ => Z.lor IDE_DRDY IDE_ERR
  | _ => IDE_DRDY
  end.

Definition put_sector (m : Z -> Z -> list Z) (d s : Z) (x : list Z) : Z -> Z -> list Z :=
  fun d' s' => if (d' =? d) && (s' =? s) then x else m d' s'.

(** The controller carries out its command; a read that fails leaves
    [input] as its result. *)
Inductive ata_step : ata -> ata -> Prop :=
  | ata_read a d s : todo a = Busy d s None -> ata_step a (set_todo (Done false (medium a d s)) a)
  | ata_write a d s x : todo a = Busy d s (Some x) -> ata_step a (set_todo (Done false []) (set_medium (put_sector (medium a) d s x) a))
  | ata_fail a d s x input : todo a = Busy d s x -> ata_step a (set_todo (Done true input) a).

(** ** The driver *)

(** What the driver uses of [struct buf]; [b_owner] is the pid that holds the
    sleep lock, 0 if none. *)
Record ibuf := mkibuf {
  ib_flags : Z;
  ib_dev : Z;
  ib_blockno : Z;
  ib_owner : Z;
  ib_qnext : option nat;
  ib_data : list Z;
}.
Definition set_ib_flags (x : Z) (b : ibuf) : ibuf := mkibuf x (ib_dev b) (ib_blockno b) (ib_owner b) (ib_qnext b) (ib_data b).
Definition set_qnext (x : option nat) (b : ibuf) : ibuf := mkibuf (ib_flags b) (ib_dev b) (ib_blockno b) (ib_owner b) x (ib_data b).
Definition set_ib_data (x : list Z) (b : ibuf) : ibuf := mkibuf (ib_flags b) (ib_dev b) (ib_blockno b) (ib_owner b) (ib_qnext b) x.

Record idest := mkide {
  ibufs : list ibuf;
  idequeue : option nat;
  idelock : bool;
  havedisk1 : bool;
  ctl : ata;
  woken : list nat;
}.
Definition set_ibufs (x : list ibuf) (s : idest) : idest := mkide x (idequeue s) (idelock s) (havedisk1 s) (ctl s) (woken s).
Definition set_idequeue (x : option nat) (s : idest) : idest := mkide (ibufs s) x (idelock s) (havedisk1 s) (ctl s) (woken s).
Definition set_idelock (x : bool) (s : idest) : idest := mkide (ibufs s) (idequeue s) x (havedisk1 s) (ctl s) (woken s).
Definition set_havedisk1 (x : bool) (s : idest) : idest := mkide (ibufs s) (idequeue s) (idelock s) x (ctl s) (woken s).
Definition set_ctl (x : ata) (s : idest) : idest := mkide (ibufs s) (idequeue s) (idelock s) (havedisk1 s) x (woken s).
Definition set_woken (x : list nat) (s : idest) : idest := mkide (ibufs s) (idequeue s) (idelock s) (havedisk1 s) (ctl s) x.

Notation MD := (M idest).

Definition acquire_ide : MD unit := fun s => if idelock s then Panic "acquire" else Ok tt (set_idelock true s).
Definition release_ide : MD unit := fun s => if idelock s then Ok tt (set_idelock false s) else Panic "release".
Definition getib (i : nat) : MD ibuf := fun s => match ibufs s !! i with Some b => Ok b s | None => Fault "buf" end.
Definition setib (i : nat) (f : ibuf -> ibuf) : MD unit := modify (fun s => set_ibufs (alter f i (ibufs s)) s).
Definition outb (port v : Z) : MD unit := modify (fun s => set_ctl (ata_outb port v (ctl s)) s).

(** Reading the status until the controller is ready; a busy controller makes
    the CPU wait for it. *)
Definition idewait (checkerr : bool) : MD Z :=
  let! r := gets (fun s => ata_status (ctl s)) in
  if negb (Z.land r (Z.lor IDE_BSY IDE_DRDY) =? IDE_DRDY) then fun _ => NoFuel
  else if checkerr && negb (Z.land r (Z.lor IDE_DF IDE_ERR) =? 0) then ret (-1) else ret 0.

(** The test for a second disk reads the status of disk 1 up to 1000 times:
    [present] tells whether it is ever non-zero. *)
Definition ideinit (present : bool) : MD unit :=
  modify (set_idelock false) ;;;
  idewait false ;;;
  outb 502 (Z.lor 224 16) ;;;
  when present (modify (set_havedisk1 true)) ;;;
  outb 502 (Z.lor 224 0).

Definition idestart (b : option nat) : MD unit :=
  match b with
  | None => panic "idestart"
  | Some i =>
      let! b := getib i in
      if FSSIZE <=? ib_blockno b then panic "incorrect blockno"
      else
        let sector_per_block := BSIZE / SECTOR_SIZE in
        let sector := ib_blockno b * sector_per_block in
        let read_cmd := if sector_per_block =? 1 then IDE_CMD_READ else IDE_CMD_RDMUL in
        let write_cmd := if sector_per_block =? 1 then IDE_CMD_WRITE else IDE_CMD_WRMUL in
        if 7 <? sector_per_block then panic "idestart"
        else
          idewait false ;;;
          outb 1014 0 ;;;
          outb 498 sector_per_block ;;;
          outb 499 (Z.land sector 255) ;;;
          outb 500 (Z.land (Z.shiftr sector 8) 255) ;;;
          outb 501 (Z.land (Z.shiftr sector 16) 255) ;;;
          outb 502 (Z.lor (Z.lor 224 (Z.shiftl (Z.land (ib_dev b) 1) 4)) (Z.land (Z.shiftr sector 24) 15)) ;;;
          if negb (Z.land (ib_flags b) B_DIRTY =? 0) then
            outb 503 write_cmd ;;;
            modify (fun s => set_ctl (ata_outsl (ib_data b) (ctl s)) s)
          else outb 503 read_cmd
  end.

Definition ideintr : MD unit :=
  acquire_ide ;;;
  let! q := gets idequeue in
  match q with
  | None => release_ide
  | Some i =>
      let! b := getib i in
      modify (set_idequeue (ib_qnext b)) ;;;
      (if Z.land (ib_flags b) B_DIRTY =? 0 then
         let! r := idewait true in
         if 0 <=? r then let! d := gets (fun s => ata_insl (ctl s)) in setib i (set_ib_data d) else ret tt
       else ret tt) ;;;
      setib i (fun b => set_ib_flags (Z.land (Z.lor (ib_flags b) B_VALID) (Z.lnot B_DIRTY)) b) ;;;
      modify (fun s => set_woken (i :: woken s) s) ;;;
      let! q := gets idequeue in
      match q with None => ret tt | Some _ => idestart q end ;;;
      release_ide
  end.

(** The end of the queue: the buffer whose [qnext] is null. *)
Fixpoint find_tail (fuel : nat) (i : nat) : MD nat :=
  match fuel with
  | O => fun _ => NoFuel
  | S fuel =>
      let! b := getib i in
      match ib_qnext b with None => ret i | Some n => find_tail fuel n end
  end.

(** [iderw] up to the loop in which the process waits. *)
Definition iderw_start (pid : Z) (i : nat) : MD unit :=
  let! b := getib i in
  if negb (ib_owner b =? pid) then panic "iderw: buf not locked"
  else if Z.land (ib_flags b) (Z.lor B_VALID B_DIRTY) =? B_VALID then panic "iderw: nothing to do"
  else
    let! hd1 := gets havedisk1 in
    if negb (ib_dev b =? 0) && negb hd1 then panic "iderw: ide disk 1 not present"
    else
      acquire_ide ;;;
      setib i (set_qnext None) ;;;
      let! q := gets idequeue in
      match q with
      | None => modify (set_idequeue (Some i))
      | Some h =>
          let! n := gets (fun s => length (ibufs s)) in
          let! t := find_tail (S n) h in
          setib t (set_qnext (Some i))
      end ;;;
      let! q := gets idequeue in
      when (bool_decide (q = Some i)) (idestart (Some i)).

(** One turn of the loop: [true] when the request is finished and the call
    returns, otherwise the process sleeps, giving up [idelock]. *)
Definition iderw_turn (i : nat) : MD bool :=
  let! b := getib i in
  release_ide ;;;
  ret (Z.land (ib_flags b) (Z.lor B_VALID B_DIRTY) =? B_VALID).

(** ** Requests in order *)

(** A request: the buffer, the disk and block, and the data to write. *)
Record req := mkreq { rq_buf : nat; rq_dev : Z; rq_block : Z; rq_out : option (list Z) }.

Definition req_of (i : nat) (b : ibuf) : req :=
  mkreq i (Z.land (ib_dev b) 1) (ib_blockno b) (if Z.land (ib_flags b) B_DIRTY =? 0 then None else Some (ib_data b)).

(** The contents of the disks after the requests that were served; a request
    that failed changes nothing. *)
Definition serve (m : Z -> Z -> list Z) (e : req * bool) : Z -> Z -> list Z :=
  match rq_out e.1, e.2 with Some x, false => put_sector m (rq_dev e.1) (rq_block e.1) x | _, _ => m end.
Definition replay (m : Z -> Z -> list Z) (l : list (req * bool)) : Z -> Z -> list Z := fold_left serve l m.

(** The driver, and the requests made and served so far. *)
Record run := mkrun { drv : idest; made : list req; served : list (req * bool) }.

Definition waiting (st : run) : list req := drop (length (served st)) (made st).
Definition queued (st : run) (i : nat) : Prop := i ∈ rq_buf <$> waiting st.

(** A buffer for which [iderw] has something to do. *)
Record wants (s : idest) (pid : Z) (b : ibuf) : Prop := mkwants {
  wn_owner : ib_owner b = pid;
  wn_flags : Z.land (ib_flags b) (Z.lor B_VALID B_DIRTY) <> B_VALID;
  wn_disk : ib_dev b = 0 \/ havedisk1 s = true;
  wn_block : 0 <= ib_blockno b < FSSIZE;
}.

(** The steps: a process asks for a block, the controller finishes a command,
    its interrupt is handled, a process that was woken looks at its buffer
    again, and the holder of a buffer that is not queued changes it. *)
Inductive istep : run -> run -> Prop :=
  | is_submit st pid i b r s' :
      ibufs (drv st) !! i = Some b -> wants (drv st) pid b -> ~ queued st i ->
      (iderw_start pid i ;;; iderw_turn i) (drv st) = Ok r s' ->
      istep st (mkrun s' (made st ++ [req_of i b]) (served st))
  | is_device st a : ata_step (ctl (drv st)) a -> istep st (mkrun (set_ctl a (drv st)) (made st) (served st))
  | is_intr st bad x s' :
      todo (ctl (drv st)) = Done bad x -> ideintr (drv st) = Ok tt s' ->
      istep st (mkrun s' (made st) (served st ++ match waiting st with [] => [] | r :: _ => [(r, bad)] end))
  | is_woken st i r s' : (acquire_ide ;;; iderw_turn i) (drv st) = Ok r s' -> istep st (mkrun s' (made st) (served st))
  | is_owner st i f :
      ~ queued st i -> (forall b, ib_qnext (f b) = ib_qnext b) ->
      istep st (mkrun (set_ibufs (alter f i (ibufs (drv st))) (drv st)) (made st) (served st)).

(** The queue as a list. *)
Inductive chain (bs : list ibuf) : option nat -> list nat -> Prop :=
  | chain_nil : chain bs None []
  | chain_cons i b l : bs !! i = Some b -> chain bs (ib_qnext b) l -> chain bs (Some i) (i :: l).

Lemma chain_ext bs bs' q l :
  chain bs q l -> (forall i b, i ∈ l -> bs !! i = Some b -> exists b', bs' !! i = Some b' /\ ib_qnext b' = ib_qnext b) -> chain bs' q l.
Proof.
  induction 1 as [|i b l Hb HC IH]; intros H; [constructor|]. destruct (H i b) as (b' & Hb' & E); [by left|done|]. econstructor; [exact Hb'|]. rewrite E.
  apply IH. intros j c Hj Hc. apply H; [by right|done].
Qed.

(** A buffer at the end of the queue. *)
Lemma chain_append bs bs' q l i t :
  chain bs q l -> last l = Some t -> (exists b, bs' !! t = Some b /\ ib_qnext b = Some i) -> (exists b, bs' !! i = Some b /\ ib_qnext b = None) ->
  NoDup l -> (forall j b, j ∈ l -> j <> t -> bs !! j = Some b -> exists b', bs' !! j = Some b' /\ ib_qnext b' = ib_qnext b) -> chain bs' q (l ++ [i]).
Proof.
  induction 1 as [|j b l Hb HC IH]; intros Hl Ht Hi ND H; [done|]. apply NoDup_cons in ND as [Hj ND]. destruct l as [|j' l].
  - injection Hl as ->. destruct Ht as (b' & Hb' & E). cbn. econstructor; [exact Hb'|]. rewrite E. destruct Hi as (bi & Hbi & Ei). econstructor; [exact Hbi|]. rewrite Ei. constructor.
  - rewrite last_cons_cons in Hl. assert (Hjt : j <> t) by (intros ->; apply Hj; by apply last_Some_elem_of).
    destruct (H j b) as (b' & Hb' & E); [by left|done|done|]. cbn [app]. econstructor; [exact Hb'|]. rewrite E. apply IH; try done.
    intros x c Hx Hxt Hc. apply H; [by right|done|done].
Qed.

Lemma find_tail_spec (l : list nat) : forall (fuel : nat) h s,
  chain (ibufs s) (Some h) (h :: l) -> (length l < fuel)%nat -> wp (find_tail fuel h) (fun t s' => s' = s /\ last (h :: l) = Some t) s.
Proof.
  induction l as [|j l IH]; intros [|fuel] h s HC Hf; cbn [length] in Hf; try lia; inversion HC as [|i b l' Hb HC']; subst; cbn [find_tail].
  - wp_step. unfold wp at 1, getib. rewrite Hb. inversion HC'. by apply wp_ret.
  - wp_step. unfold wp at 1, getib. rewrite Hb. inversion HC' as [|j' b' l'' Hb' HC'' E]; subst. apply IH; [by rewrite <- E in HC'|lia].
Qed.

(** ** Starting a request *)

Definition ready (a : ata) : Prop := match todo a with Busy _ _ _ => False | _ => True end.

Lemma idewait_ready s {A} (k : Z -> MD A) Q : ready (ctl s) -> wp (k 0) Q s -> wp (bind (idewait false) k) Q s.
Proof.
  intros H HK. wp_step. unfold idewait. wp_step. apply wp_gets. unfold ready in H. unfold ata_status. destruct (todo (ctl s)) as [| |?|[] ?]; try done; by apply wp_ret.
Qed.

(** The registers hold the number of the sector and of the disk. *)
Lemma lba_bytes x : 0 <= x < FSSIZE ->
  Z.land (Z.land x 255) 255 + 256 * Z.land (Z.land (Z.shiftr x 8) 255) 255 + 65536 * Z.land (Z.land (Z.shiftr x 16) 255) 255 = x /\ Z.shiftr x 24 = 0.
Proof.
  intros Hx. change FSSIZE with 1000 in Hx. change 255 with (Z.ones 8). rewrite !Z.land_ones, !Z.shiftr_div_pow2 by lia. change (2 ^ 8) with 256. change (2 ^ 16) with 65536. change (2 ^ 24) with 16777216. zlia.
Qed.

Lemma idestart_spec s i b :
  ibufs s !! i = Some b -> 0 <= ib_blockno b < FSSIZE -> ready (ctl s) ->
  wp (idestart (Some i)) (fun _ s' => exists rg, s' = set_ctl (mkata rg (medium (ctl s)) (Busy (Z.land (ib_dev b) 1) (ib_blockno b) (rq_out (req_of i b)))) s) s.
Proof.
  intros Hb Hn HR. unfold idestart. wp_step. unfold wp at 1, getib. rewrite Hb. replace (FSSIZE <=? ib_blockno b) with false by lia.
  change (BSIZE / SECTOR_SIZE) with 1. change (7 <? 1) with false. change (1 =? 1) with true. cbv iota. rewrite Z.mul_1_r. apply idewait_ready; [done|].
  destruct (lba_bytes _ Hn) as [EL E24]. rewrite E24. do 6 (wp_step; apply wp_modify). cbn [ctl set_ctl].
  set (a := ata_outb 502 _ _).
  assert (EA : lba (regs a) = ib_blockno b /\ drive (regs a) = Z.land (ib_dev b) 1 /\ medium a = medium (ctl s)).
  { subst a. unfold lba, drive. cbn [regs medium ata_outb set_regs Z.eqb Pos.eqb]. assert (HD : Z.land (ib_dev b) 1 = 0 \/ Z.land (ib_dev b) 1 = 1).
    { pose proof (Z.land_ones (ib_dev b) 1 ltac:(lia)) as EO. change (Z.ones 1) with 1 in EO. change (2 ^ 1) with 2 in EO. rewrite EO. zlia. }
    split_and!; [|destruct HD as [-> | ->]; done|done]. destruct HD as [-> | ->]; change (16777216 * Z.land _ 15) with 0; lia. }
  destruct EA as (E1 & E2 & E3). clearbody a. unfold req_of. cbn [rq_out]. destruct (Z.land (ib_flags b) B_DIRTY =? 0); cbn [negb].
  - unfold outb. apply wp_modify. exists (regs a). cbn [ctl set_ctl]. unfold ata_outb. cbn. rewrite E1, E2. destruct s; cbn in *. unfold set_todo. by rewrite E3.
  - wp_step. apply wp_modify. apply wp_modify. exists (regs a). cbn [ctl set_ctl]. unfold ata_outb. cbn. unfold ata_outsl. cbn. rewrite E1, E2. unfold set_todo. cbn. by rewrite E3.
Qed.

(** ** The invariant *)

Definition req_ok (bs : list ibuf) (r : req) : Prop :=
  exists b, bs !! rq_buf r = Some b /\ r = req_of (rq_buf r) b /\ 0 <= ib_blockno b < FSSIZE /\ Z.land (ib_flags b) (Z.lor B_VALID B_DIRTY) <> B_VALID.

(** The controller works on the first request, or is done with it. *)
Definition ctl_ok (m0 : Z -> Z -> list Z) (a : ata) (w : list req) (l : list (req * bool)) : Prop :=
  match w with
  | [] => ready a /\ medium a = replay m0 l
  | r :: _ =>
      (todo a = Busy (rq_dev r) (rq_block r) (rq_out r) /\ medium a = replay m0 l) \/
      exists bad x, todo a = Done bad x /\ medium a = replay m0 (l ++ [(r, bad)]) /\
        (bad = false -> rq_out r = None -> x = replay m0 l (rq_dev r) (rq_block r))
  end.

Record queue_ok (m0 : Z -> Z -> list Z) (s : idest) (w : list req) (l : list (req * bool)) : Prop := mkqueue_ok {
  qo_lock : idelock s = false;
  qo_chain : chain (ibufs s) (idequeue s) (rq_buf <$> w);
  qo_nodup : NoDup (rq_buf <$> w);
  qo_reqs : Forall (req_ok (ibufs s)) w;
  qo_ctl : ctl_ok m0 (ctl s) w l;
}.

Lemma replay_snoc m0 l e : replay m0 (l ++ [e]) = serve (replay m0 l) e.
Proof. unfold replay. by rewrite fold_left_app. Qed.

Lemma wp_getib s i b {A} (k : ibuf -> MD A) Q : ibufs s !! i = Some b -> wp (k b) Q s -> wp (bind (getib i) k) Q s.
Proof. intros H HK. unfold wp, bind, getib. by rewrite H. Qed.

Lemma lookup_alter_or {A} (f : A -> A) (l : list A) i j x : l !! j = Some x -> exists y, alter f i l !! j = Some y /\ (y = x /\ j <> i \/ y = f x /\ j = i).
Proof.
  intros H. destruct (decide (j = i)) as [->|Hne]; [exists (f x)|exists x]; (split; [|tauto]); [by rewrite list_lookup_alter_eq, H|by rewrite list_lookup_alter_ne].
Qed.

(** Changing a buffer that is not in the queue. *)
Lemma queue_alter m0 s w l i f : queue_ok m0 s w l -> i ∉ rq_buf <$> w -> queue_ok m0 (set_ibufs (alter f i (ibufs s)) s) w l.
Proof.
  intros [Q1 Q2 Q3 Q4 Q5] Hi. assert (HA : forall j, j ∈ rq_buf <$> w -> alter f i (ibufs s) !! j = ibufs s !! j).
  { intros j Hj. apply list_lookup_alter_ne. intros ->. done. }
  split; [done| |done| |done]; cbn [ibufs set_ibufs idequeue].
  - eapply chain_ext; [exact Q2|]. intros j b Hj Hb. exists b. by rewrite HA.
  - rewrite Forall_forall in Q4 |- *. intros r Hr. destruct (Q4 r Hr) as (b & Hb & H). exists b. rewrite HA; [done|]. apply list_elem_of_fmap. eauto.
Qed.

Lemma chain_length bs q l : chain bs q l -> NoDup l -> (length l <= length bs)%nat.
Proof.
  intros HC ND. assert (HL : Forall (fun i => (i < length bs)%nat) l) by (clear ND; induction HC; constructor; [by eapply lookup_lt_Some|done]).
  rewrite <- (length_seq (length bs) 0). apply submseteq_length, NoDup_submseteq; [done|]. intros i Hi. rewrite Forall_forall in HL. apply elem_of_seq. specialize (HL i Hi). lia.
Qed.

(** Links do not matter to a request. *)
Lemma req_ok_links (bs bs' : list ibuf) r : (forall j b, bs !! j = Some b -> exists q, bs' !! j = Some (set_qnext q b)) -> req_ok bs r -> req_ok bs' r.
Proof. intros H (b & Hb & Er & H1). destruct (H _ _ Hb) as [q Hq]. exists (set_qnext q b). split_and!; [done|exact Er|apply H1|apply H1|apply H1]. Qed.

Lemma set_links_or (bs : list ibuf) (i : nat) q (j : nat) b : bs !! j = Some b -> exists q', alter (set_qnext q) i bs !! j = Some (set_qnext q' b).
Proof. intros H. destruct (lookup_alter_or (set_qnext q) bs i j b H) as (y & Hy & [[-> _]|[-> _]]); [exists (ib_qnext b); rewrite Hy; by destruct b|by exists q]. Qed.

Lemma turn_waits s i b : ibufs s !! i = Some b -> Z.land (ib_flags b) (Z.lor B_VALID B_DIRTY) <> B_VALID -> idelock s = true ->
  wp (iderw_turn i) (fun r s' => r = false /\ s' = set_idelock false s) s.
Proof. intros Hb Hf Hl. unfold iderw_turn. eapply wp_getib; [done|]. wp_step. unfold wp at 1, release_ide. rewrite Hl. apply wp_ret. split; [lia|done]. Qed.

Section Submit.
Context (m0 : Z -> Z -> list Z) (s : idest) (w : list req) (l : list (req * bool)) (pid : Z) (i : nat) (b : ibuf).
Hypothesis Q : queue_ok m0 s w l.
Hypothesis Hb : ibufs s !! i = Some b.
Hypothesis W : wants s pid b.
Hypothesis Hi : i ∉ rq_buf <$> w.

Definition linked : idest := set_ibufs (alter (set_qnext None) i (ibufs s)) (set_idelock true s).

Lemma linked_at : ibufs linked !! i = Some (set_qnext None b).
Proof using Hb. cbn. by rewrite list_lookup_alter_eq, Hb. Qed.

(** Up to the insertion into the queue. *)
Lemma submit_start (k : MD unit) (P : unit -> idest -> Prop) : wp k P linked ->
  wp (let! b := getib i in
      if negb (ib_owner b =? pid) then panic "iderw: buf not locked"
      else if Z.land (ib_flags b) (Z.lor B_VALID B_DIRTY) =? B_VALID then panic "iderw: nothing to do"
      else
        let! hd1 := gets havedisk1 in
        if negb (ib_dev b =? 0) && negb hd1 then panic "iderw: ide disk 1 not present"
        else acquire_ide ;;; setib i (set_qnext None) ;;; k) P s.
Proof using Q Hb W.
  intros HK. destruct W as [W1 W2 W3 W4]. eapply wp_getib; [exact Hb|]. rewrite W1, Z.eqb_refl. cbn [negb]. rewrite (proj2 (Z.eqb_neq _ _) W2). wp_step. apply wp_gets.
  replace (negb (ib_dev b =? 0) && negb (havedisk1 s)) with false by (destruct W3 as [-> | ->]; [done|by rewrite andb_false_r]).
  wp_step. unfold wp at 1, acquire_ide. rewrite (qo_lock _ _ _ _ Q). wp_step. apply wp_modify. exact HK.
Qed.

Lemma submit_empty : w = [] ->
  wp (iderw_start pid i ;;; iderw_turn i) (fun r s' => r = false /\ queue_ok m0 s' [req_of i b] l) s.
Proof using Q Hb W.
  intros E. pose proof Q as QQ. rewrite E in QQ. destruct QQ as [Q1 Q2 Q3 Q4 [Q5 Q6]]. inversion Q2 as [E2|]. pose proof W as [W1 W2 W3 W4]. wp_step. apply submit_start. wp_step. apply wp_gets.
  change (idequeue linked) with (idequeue s). rewrite <- E2. wp_step. apply wp_modify. wp_step. apply wp_gets. cbn [idequeue set_idequeue]. rewrite bool_decide_true by done. cbn [when].
  eapply wp_mono; [apply (idestart_spec (set_idequeue (Some i) linked) i (set_qnext None b)); [apply linked_at|done|done]|]. intros [] s1 (rg & ->).
  eapply wp_mono; [apply (turn_waits _ i (set_qnext None b)); [apply linked_at|done|done]|]. intros r s' [-> ->]. split; [done|]. split; [done| | | |].
  - cbn -[alter]. econstructor; [apply linked_at|constructor].
  - cbn. apply NoDup_singleton.
  - apply Forall_cons. split; [|by apply Forall_nil]. exists (set_qnext None b). split_and!; [apply linked_at|done|apply W4|apply W4|done].
  - left. done.
Qed.

(** Behind the requests that wait. *)
Lemma linked_behind (t : nat) : t ∈ rq_buf <$> w -> last (rq_buf <$> w) = Some t ->
  queue_ok m0 (set_idelock false (set_ibufs (alter (set_qnext (Some i)) t (ibufs linked)) linked)) (w ++ [req_of i b]) l.
Proof using Q Hb W Hi.
  intros Ht Hl. pose proof Q as [Q1 Q2 Q3 Q4 Q5]. assert (Hti : t <> i) by congruence. pose proof linked_at as HL.
  assert (HK : forall j c, ibufs s !! j = Some c -> exists q, alter (set_qnext (Some i)) t (ibufs linked) !! j = Some (set_qnext q c)).
  { intros j c Hc. destruct (set_links_or (ibufs s) i None j c Hc) as [q1 H1]. exact (set_links_or (ibufs linked) t (Some i) j _ H1). }
  assert (HI : alter (set_qnext (Some i)) t (ibufs linked) !! i = Some (set_qnext None b)) by (rewrite list_lookup_alter_ne; done).
  split; [done| | | |]; rewrite ?fmap_app; cbn [ibufs set_ibufs set_idelock idequeue ctl linked fmap list_fmap].
  - eapply (chain_append (ibufs s)); [exact Q2|exact Hl| |by eauto|exact Q3|].
    + rewrite list_lookup_alter_eq. cbn [ibufs set_ibufs linked set_idelock]. rewrite list_lookup_alter_ne by done.
      apply list_elem_of_fmap in Ht as (r & -> & Hr). rewrite Forall_forall in Q4. destruct (Q4 r Hr) as (c & -> & _). cbn. eauto.
    + intros j c Hj Hjt Hc. exists c. rewrite list_lookup_alter_ne by done. cbn [ibufs set_ibufs linked set_idelock]. rewrite list_lookup_alter_ne; [done|]. intros ->. done.
  - apply NoDup_app. split_and!; [done| |apply NoDup_singleton]. intros j Hj Hj'. apply list_elem_of_singleton in Hj'. cbn in Hj'. congruence.
  - apply Forall_app. split; [eapply Forall_impl; [exact Q4|]; intros r; by apply req_ok_links|]. apply Forall_singleton. exists (set_qnext None b). destruct W as [W1 W2 W3 W4].
    split_and!; [exact HI|done|apply W4|apply W4|done].
  - destruct w as [|r w']; [by apply not_elem_of_nil in Ht|exact Q5].
Qed.

Lemma submit_behind : w <> [] ->
  wp (iderw_start pid i ;;; iderw_turn i) (fun r s' => r = false /\ queue_ok m0 s' (w ++ [req_of i b]) l) s.
Proof using Q Hb W Hi.
  intros E. pose proof Q as [Q1 Q2 Q3 Q4 Q5]. pose proof linked_behind as LB. assert (HC : chain (ibufs linked) (idequeue s) (rq_buf <$> w)).
  { eapply chain_ext; [exact Q2|]. intros j c Hj Hc. exists c. cbn. rewrite list_lookup_alter_ne; [done|]. intros ->. done. }
  destruct (rq_buf <$> w) as [|h hs] eqn:EW; [by destruct w|]. inversion HC as [|? c ? Hc HC' E1]; subst.
  wp_step. apply submit_start. wp_step. apply wp_gets. change (idequeue linked) with (idequeue s). rewrite <- E1. wp_step. wp_step. apply wp_gets. wp_step.
  eapply wp_mono; [apply (find_tail_spec hs); [by rewrite E1|]|].
  { pose proof (chain_length _ _ _ HC Q3) as HL. cbn [length] in HL. lia. }
  intros t s1 [-> Ht]. apply wp_modify. wp_step. apply wp_gets. cbn [idequeue set_ibufs]. change (idequeue linked) with (idequeue s). rewrite <- E1.
  rewrite bool_decide_false by (intros [= ->]; apply Hi; by left). apply wp_ret. pose proof W as [W1 W2 W3 W4].
  assert (Hti : t <> i) by (intros ->; apply Hi; by apply last_Some_elem_of).
  eapply wp_mono; [apply (turn_waits _ i (set_qnext None b)); [|done|done]|].
  { cbn [ibufs set_ibufs]. rewrite list_lookup_alter_ne by done. apply linked_at. }
  intros r s' [-> ->]. split; [done|]. apply LB; [by apply last_Some_elem_of|done].
Qed.

Lemma submit_spec : wp (iderw_start pid i ;;; iderw_turn i) (fun r s' => r = false /\ queue_ok m0 s' (w ++ [req_of i b]) l) s.
Proof using Q Hb W Hi.
  destruct (decide (w = [])) as [E|E]; [|by apply submit_behind]. eapply wp_mono; [by apply submit_empty|]. intros r s' [-> H]. split; [done|]. by rewrite E.
Qed.
End Submit.

(** ** Serving a request *)

(** The buffer of a request that was served. *)
Definition finished (bad : bool) (x : list Z) (b : ibuf) : ibuf :=
  set_ib_flags (Z.land (Z.lor (ib_flags b) B_VALID) (Z.lnot B_DIRTY))
    (if (Z.land (ib_flags b) B_DIRTY =? 0) && negb bad then set_ib_data x b else b).

Lemma queue_tail m0 s r w l i x : queue_ok m0 s (r :: w) l -> i = rq_buf r ->
  chain (alter x i (ibufs s)) (match ibufs s !! i with Some b => ib_qnext b | None => None end) (rq_buf <$> w) /\
  NoDup (rq_buf <$> w) /\ Forall (req_ok (alter x i (ibufs s))) w.
Proof.
  intros [Q1 Q2 Q3 Q4 Q5] ->. inversion Q2 as [|? b ? Hb HC]; subst. apply NoDup_cons in Q3 as [Hr ND]. apply Forall_cons in Q4 as [_ Q4]. rewrite Hb.
  assert (HA : forall j, j ∈ rq_buf <$> w -> alter x (rq_buf r) (ibufs s) !! j = ibufs s !! j) by (intros j Hj; apply list_lookup_alter_ne; intros <-; done).
  split_and!; [|done|].
  - eapply chain_ext; [exact HC|]. intros j c Hj Hc. exists c. by rewrite HA.
  - rewrite Forall_forall in Q4 |- *. intros r' Hr'. destruct (Q4 r' Hr') as (c & Hc & HO). exists c. rewrite HA; [done|]. apply list_elem_of_fmap. eauto.
Qed.

Lemma alter_at {A} (f : A -> A) (bs : list A) (i : nat) b : bs !! i = Some b -> alter f i bs = alter (fun _ => f b) i bs.
Proof.
  intros H. apply list_eq. intros j. destruct (decide (i = j)) as [->|Hne]; [by rewrite !list_lookup_alter_eq, H|by rewrite !list_lookup_alter_ne].
Qed.

Lemma idewait_check s bad x {A} (k : Z -> MD A) Q :
  todo (ctl s) = Done bad x -> wp (k (if bad then -1 else 0)) Q s -> wp (bind (idewait true) k) Q s.
Proof. intros Ht HK. wp_step. unfold idewait. wp_step. apply wp_gets. unfold ata_status. rewrite Ht. by destruct bad; apply wp_ret. Qed.

(** Up to the wakeup. *)
Lemma intr_finish s i b bad x (k : MD unit) P :
  ibufs s !! i = Some b -> idequeue s = Some i -> idelock s = false -> todo (ctl s) = Done bad x ->
  wp k P (set_woken (i :: woken s) (set_ibufs (alter (fun _ => finished bad x b) i (ibufs s)) (set_idequeue (ib_qnext b) (set_idelock true s)))) ->
  wp (acquire_ide ;;;
      let! q := gets idequeue in
      match q with
      | None => release_ide
      | Some i =>
          let! b := getib i in
          modify (set_idequeue (ib_qnext b)) ;;;
          (if Z.land (ib_flags b) B_DIRTY =? 0 then
             let! r := idewait true in
             if 0 <=? r then let! d := gets (fun s => ata_insl (ctl s)) in setib i (set_ib_data d) else ret tt
           else ret tt) ;;;
          setib i (fun b => set_ib_flags (Z.land (Z.lor (ib_flags b) B_VALID) (Z.lnot B_DIRTY)) b) ;;;
          modify (fun s => set_woken (i :: woken s) s) ;;; k
      end) P s.
Proof.
  intros Hb Hq Hl Ht HK. wp_step. unfold wp at 1, acquire_ide. rewrite Hl. wp_step. apply wp_gets. cbn [idequeue set_idelock]. rewrite Hq. eapply wp_getib; [exact Hb|].
  wp_step. apply wp_modify. wp_step. unfold finished in HK. destruct (Z.land (ib_flags b) B_DIRTY =? 0).
  - eapply idewait_check; [exact Ht|]. destruct bad; cbn [Z.leb Z.compare].
    + apply wp_ret. wp_step. apply wp_modify. wp_step. apply wp_modify. cbn -[alter B_VALID B_DIRTY] in HK |- *. by rewrite (alter_at _ _ _ _ Hb).
    + wp_step. apply wp_gets. cbn [ctl set_idequeue set_idelock]. unfold ata_insl. rewrite Ht. apply wp_modify. wp_step. apply wp_modify. wp_step. apply wp_modify.
      cbn -[alter B_VALID B_DIRTY] in HK |- *. rewrite list_alter_alter_eq. by rewrite (alter_at _ _ _ _ Hb).
  - apply wp_ret. wp_step. apply wp_modify. wp_step. apply wp_modify. cbn -[alter B_VALID B_DIRTY] in HK |- *. by rewrite (alter_at _ _ _ _ Hb).
Qed.

Lemma intr_spec m0 s r w l bad x : queue_ok m0 s (r :: w) l -> todo (ctl s) = Done bad x ->
  wp ideintr (fun _ s' => queue_ok m0 s' w (l ++ [(r, bad)]) /\
    exists b, ibufs s !! rq_buf r = Some b /\ r = req_of (rq_buf r) b /\ ibufs s' !! rq_buf r = Some (finished bad x b)) s.
Proof.
  intros Q Ht. pose proof Q as [Q1 Q2 Q3 Q4 Q5]. apply Forall_cons in Q4 as [(b & Hb & Er & _) _]. inversion Q2 as [|? b' ? Hb' _ Eq Ei]; subst.
  destruct (queue_tail m0 s r w l (rq_buf r) (fun _ => finished bad x b) Q eq_refl) as (T1 & T2 & T3). rewrite Hb in T1.
  destruct Q5 as [[Hbusy _]|(bad' & x' & Ed & Em & _)]; [congruence|]. rewrite Ed in Ht. injection Ht as -> ->.
  eapply intr_finish; [exact Hb|done|done|exact Ed|]. wp_step. apply wp_gets. cbn [idequeue set_woken set_ibufs set_idequeue]. set (bs := alter _ _ _) in *.
  assert (Hf : bs !! rq_buf r = Some (finished bad x b)) by (subst bs; by rewrite list_lookup_alter_eq, Hb). clearbody bs. wp_step. destruct w as [|r2 w].
  - inversion T1. apply wp_ret. unfold wp, release_ide. cbn [idelock set_woken set_ibufs set_idequeue set_idelock]. split; [|by eauto].
    split; try done; [by constructor|]. unfold ctl_ok, ready. cbn. by rewrite Ed.
  - inversion T1 as [|? b2 ? Hb2 HC2 E2]; subst. apply Forall_cons in T3 as H3. destruct H3 as [(c & Hc & Ec & Hn & _) _].
    eapply wp_mono; [apply (idestart_spec _ (rq_buf r2) c); [exact Hc|done|unfold ready; cbn; by rewrite Ed]|]. intros [] s1 (rg & ->).
    unfold wp, release_ide. cbn [idelock set_ctl set_woken set_ibufs set_idequeue set_idelock]. split; [|by eauto].
    split; [done|by cbn; rewrite E2|done|done|]. left. cbn [todo medium ctl set_idelock set_ctl set_woken set_ibufs set_idequeue]. by rewrite Ec.
Qed.

Lemma finished_valid bad x b : Z.land (ib_flags (finished bad x b)) (Z.lor B_VALID B_DIRTY) = B_VALID.
Proof.
  unfold finished. cbn [ib_flags set_ib_flags]. rewrite <- Z.land_assoc. change (Z.land (Z.lnot B_DIRTY) (Z.lor B_VALID B_DIRTY)) with B_VALID.
  apply Z.bits_inj'. intros n _. rewrite Z.land_spec, Z.lor_spec. by destruct (Z.testbit (ib_flags b) n), (Z.testbit B_VALID n).
Qed.

(** What the buffer of a request holds when it was served: what was written,
    what the disk had, or what it held before when the disk failed to read. *)
Definition outcome (m : Z -> Z -> list Z) (r : req) (bad : bool) (old : list Z) : list Z :=
  match rq_out r with Some x => x | None => if bad then old else m (rq_dev r) (rq_block r) end.

(** ** Every run *)

Record run_ok (m0 : Z -> Z -> list Z) (st : run) : Prop := mkrun_ok {
  ro_made : made st = (served st).*1 ++ waiting st;
  ro_queue : queue_ok m0 (drv st) (waiting st) (served st);
}.

Lemma waiting_split s l w : waiting (mkrun s (l.*1 ++ w) l) = w.
Proof. unfold waiting. cbn. rewrite <- (length_fmap fst). apply drop_app_length. Qed.

(** A run is known by the requests that wait. *)
Lemma run_ok_intro m0 s mk l w : mk = l.*1 ++ w -> queue_ok m0 s w l -> run_ok m0 (mkrun s mk l).
Proof. intros -> H. split; rewrite waiting_split; done. Qed.

Lemma device_ok m0 a a' w l : ata_step a a' -> ctl_ok m0 a w l -> ctl_ok m0 a' w l.
Proof.
  intros HS HO. destruct w as [|r w]; [unfold ctl_ok, ready in HO; destruct HO as [H1 H2]; destruct HS as [a d s Ha|a d s x Ha|a d s x inp Ha]; by rewrite Ha in H1|].
  destruct HO as [[HB HM]|(bad & x & HD & _)]; [|destruct HS as [a d s Ha|a d s y Ha|a d s y inp Ha]; congruence]. right.
  destruct HS as [a d s Ha|a d s y Ha|a d s y inp Ha]; rewrite HB in Ha; injection Ha as <- <- Ho; eexists _, _; (split; [reflexivity|]); rewrite replay_snoc, <- HM; unfold serve; cbn; rewrite ?Ho; split; try done.
  by destruct y.
Qed.

Lemma woken_same s i r s' : idelock s = false -> (acquire_ide ;;; iderw_turn i) s = Ok r s' -> s' = s.
Proof.
  intros Hl H. unfold bind, acquire_ide, iderw_turn, getib, release_ide, ret in H. rewrite Hl in H. cbn -[lookup] in H. unfold bind in H. cbn -[lookup] in H.
  destruct (ibufs s !! i); [|done]. injection H as _ <-. destruct s; cbn in *. by subst.
Qed.

Lemma istep_ok m0 st st' : run_ok m0 st -> istep st st' -> run_ok m0 st'.
Proof.
  intros [E Q] HS. destruct HS as [st pid i b r s' Hb HW Hq HR|st a HA|st bad x s' Ht HR|st i r s' HR|st i f Hi Hf].
  - pose proof (submit_spec _ _ _ _ _ _ _ Q Hb HW Hq) as H. unfold wp in H. rewrite HR in H. apply (run_ok_intro _ _ _ _ (waiting st ++ [req_of i b])); [by rewrite E at 1; rewrite app_assoc|apply H].
  - apply (run_ok_intro _ _ _ _ (waiting st)); [done|]. destruct Q as [Q1 Q2 Q3 Q4 Q5]. split; try done. by eapply device_ok.
  - destruct (waiting st) as [|r w] eqn:EW.
    + rewrite app_nil_r. apply (run_ok_intro _ _ _ _ []); [done|]. enough (s' = drv st) as -> by done. destruct Q as [Q1 Q2 Q3 Q4 Q5]. inversion Q2 as [Eq|].
      unfold ideintr, bind, acquire_ide, release_ide, gets in HR. rewrite Q1 in HR. cbn in HR. rewrite <- Eq in HR. injection HR as <-. destruct (drv st); cbn in *. by subst.
    + pose proof (intr_spec _ _ _ _ _ _ _ Q Ht) as H. unfold wp in H. rewrite HR in H. apply (run_ok_intro _ _ _ _ w); [|apply H].
      by rewrite E at 1; rewrite fmap_app, <- app_assoc.
  - rewrite (woken_same _ _ _ _ (qo_lock _ _ _ _ Q) HR). by apply (run_ok_intro _ _ _ _ (waiting st)).
  - apply (run_ok_intro _ _ _ _ (waiting st)); [done|]. by apply queue_alter.
Qed.

Lemma ideinit_spec present s : ready (ctl s) -> idequeue s = None ->
  wp (ideinit present) (fun _ s' => run_ok (medium (ctl s)) (mkrun s' [] [])) s.
Proof.
  intros HR Hq. unfold ideinit. wp_step. apply wp_modify. apply idewait_ready; [done|]. wp_step. apply wp_modify. wp_step.
  assert (HF : forall s', idelock s' = false -> idequeue s' = None -> ready (ctl s') -> medium (ctl s') = medium (ctl s) -> wp (outb 502 (Z.lor 224 0)) (fun _ s1 => run_ok (medium (ctl s)) (mkrun s1 [] [])) s').
  { intros s' H1 H2 H3 H4. apply wp_modify. apply (run_ok_intro _ _ _ _ []); [done|]. split; try done; [cbn; rewrite H2|]; constructor; done. }
  destruct present; cbn [when]; [apply wp_modify|apply wp_ret]; apply HF; done.
Qed.

(** What holds in every state of a run. *)
Record in_order (m0 : Z -> Z -> list Z) (st : run) : Prop := mkin_order {
  io_made : made st = (served st).*1 ++ waiting st;
  io_medium : waiting st = [] -> medium (ctl (drv st)) = replay m0 (served st);
  io_submit : forall pid i b, ibufs (drv st) !! i = Some b -> wants (drv st) pid b -> ~ queued st i ->
    exists s', (iderw_start pid i ;;; iderw_turn i) (drv st) = Ok false s';
  io_work : waiting st <> [] -> (exists d s x, todo (ctl (drv st)) = Busy d s x) \/ (exists bad x, todo (ctl (drv st)) = Done bad x);
  io_intr : forall r w bad x, waiting st = r :: w -> todo (ctl (drv st)) = Done bad x ->
    exists s' b b', ideintr (drv st) = Ok tt s' /\ ibufs (drv st) !! rq_buf r = Some b /\ ibufs s' !! rq_buf r = Some b' /\
      Z.land (ib_flags b') (Z.lor B_VALID B_DIRTY) = B_VALID /\ ib_data b' = outcome (replay m0 (served st)) r bad (ib_data b);
}.

Lemma finished_data m r bad x b : r = req_of (rq_buf r) b -> (bad = false -> rq_out r = None -> x = m (rq_dev r) (rq_block r)) ->
  ib_data (finished bad x b) = outcome m r bad (ib_data b).
Proof.
  intros -> H. unfold finished, outcome in *. cbn [rq_out req_of rq_dev rq_block] in *. destruct (Z.land (ib_flags b) B_DIRTY =? 0), bad; try done. cbn. by apply H.
Qed.

Lemma run_in_order m0 st : run_ok m0 st -> in_order m0 st.
Proof.
  intros [E Q]. split; [done| | | |].
  - intros EW. rewrite EW in Q. apply Q.
  - intros pid i b Hb HW Hi. pose proof (submit_spec _ _ _ _ _ _ _ Q Hb HW Hi) as (r & s' & HR & -> & _)%wp_Ok. eauto.
  - intros HW. destruct Q as [_ _ _ _ Q5]. destruct (waiting st) as [|r w]; [done|]. destruct Q5 as [[HB _]|(bad & x & HD & _)]; [left; eauto|eauto].
  - intros r w bad x EW Ht. rewrite EW in Q. pose proof (intr_spec _ _ _ _ _ _ _ Q Ht) as ([] & s' & HR & _ & b & Hb & Er & Hb')%wp_Ok. exists s', b, (finished bad x b).
    split_and!; [done..|apply finished_valid|]. apply finished_data; [done|]. destruct Q as [_ _ _ _ [[HB _]|(bad' & x' & HD & _ & HX)]]; [congruence|]. rewrite Ht in HD. by injection HD as -> ->.
Qed.

(** C30. The disk driver.  After [ideinit], whatever processes, controller and
    interrupts do: the requests are served in the order in which they were
    made, the disks then hold exactly what the served writes put there, a
    process with a buffer to transfer can always queue it without panic, a
    queue that is not empty has the controller at work or its interrupt
    pending, and the interrupt handler returns with the buffer of the first
    request valid, holding the contents the disk has after the requests before
    it; after a read that failed it holds what it held before. *)
Theorem requests_in_order present s0 :
  ready (ctl s0) -> idequeue s0 = None ->
  exists s, ideinit present s0 = Ok tt s /\ forall st, rtc istep (mkrun s [] []) st -> in_order (medium (ctl s0)) st.
Proof.
  intros HR Hq. pose proof (ideinit_spec present s0 HR Hq) as ([] & s & Hs & HO)%wp_Ok. exists s. split; [done|]. intros st Hst. apply run_in_order.
  revert HO. induction Hst as [|st1 st2 st3 HS _ IH]; intros HO; [done|]. apply IH. by eapply istep_ok.
Qed.

(** A write to block 3 and a read of it queued behind. *)
Module IdeSample.
Definition buf0 := mkibuf B_DIRTY 0 3 1 None [7].
Definition buf1 := mkibuf 0 0 3 2 None [0].
Definition start : idest := mkide [buf0; buf1] None false false (mkata (fun _ => 0) (fun _ _ => [5]) Idle) [].
Definition step_of (c : MD bool) (s : idest) : idest := match c s with Ok _ s' => s' | _ => s end.
Definition begun : idest := match ideinit false start with Ok _ s => s | _ => start end.
Definition first : idest := step_of (iderw_start 1 0 ;;; iderw_turn 0) begun.
Definition second : idest := step_of (iderw_start 2 1 ;;; iderw_turn 1) first.
Definition written : idest := set_ctl (set_todo (Done false []) (set_medium (put_sector (medium (ctl second)) 0 3 [7]) (ctl second))) second.
Definition next : idest := match ideintr written with Ok _ s => s | _ => written end.
Definition got : idest := set_ctl (set_todo (Done false [7]) (ctl next)) next.
Definition asked : list req := [req_of 0 buf0; req_of 1 buf1].

Lemma sample_run : rtc istep (mkrun begun [] []) (mkrun got asked [(req_of 0 buf0, false)]).
Proof.
  eapply rtc_l. { apply (is_submit _ 1 0 buf0 false first); [done|split; cbn; (lia || tauto || done)|cbv; intros H; inversion H|by vm_compute]. }
  eapply rtc_l. { apply (is_submit _ 2 1 buf1 false second); [done|split; cbn; (lia || tauto || done)|cbv; intros H; inversion H as [|? ? ? H']; inversion H'|by vm_compute]. }
  eapply rtc_l. { apply (is_device _ (ctl written)). by apply ata_write. }
  eapply rtc_l. { apply (is_intr _ false [] next); [reflexivity|vm_compute; reflexivity]. }
  eapply rtc_l. { apply (is_device _ (ctl got)). apply (ata_read (ctl next) 0 3). vm_compute. reflexivity. }
  apply rtc_refl.
Qed.

Lemma requests_in_order_witness : exists s' b, ideintr got = Ok tt s' /\ ibufs s' !! 1%nat = Some b /\ ib_data b = [7].
Proof.
  destruct (requests_in_order false start I eq_refl) as (s & Hs & H). assert (s = begun) as -> by (unfold begun; by rewrite Hs).
  destruct (io_intr _ _ (H _ sample_run) (req_of 1 buf1) [] false [7] eq_refl eq_refl) as (s' & b & b' & H1 & _ & H3 & _ & H5). exists s', b'. split_and!; [exact H1|exact H3|exact H5].
Defined.
End IdeSample.
