(* ===== verification/Boot.v ===== *)
(** * Boot: loading the kernel ([bootmain.c])

    The boot loader reads the kernel's ELF file from the disk, sector by
    sector through the controller of [Ide], and puts its segments in memory.
    The disk of this file reads without errors; the theorem is that each
    segment is in memory as the file says, although the loader reads whole
    sectors and so writes beyond both ends of a segment. *)
From stdpp Require Import base gmap list numbers strings.
From Stdlib Require Import ZArith Lia ZifyBool Sorted.
From S2P Require Import Prelude Machine Cstring Exec Bio Ide.

Definition SECTSIZE : Z := 512.

Record boot := mkboot { b_mem : memory; b_ctl : ata }.
Notation MB := (M boot).

(** The controller carries out its command while the processor waits. *)
Definition settle (a : ata) : ata :=
  match todo a with
  | Busy d s None => set_todo (Done false (medium a d s)) a
  | Busy d s (Some x) => set_todo (Done false []) (set_medium (put_sector (medium a) d s x) a)
  | _ => a
  end.
Definition waitdisk : MB unit := modify (fun b => mkboot (b_mem b) (settle (b_ctl b))).
Definition boot_outb (port v : Z) : MB unit := modify (fun b => mkboot (b_mem b) (ata_outb port v (b_ctl b))).

Definition put_list (m : memory) (a : Z) (l : list Z) : memory :=
  fun x => if (a <=? x) && (x <? a + Z.of_nat (length l)) then nth (Z.to_nat (x - a)) l 0 else m x.

Definition readsect (dst offset : Z) : MB unit :=
  waitdisk ;;;
  boot_outb 498 1 ;;;
  boot_outb 499 offset ;;;
  boot_outb 500 (Z.shiftr offset 8) ;;;
  boot_outb 501 (Z.shiftr offset 16) ;;;
  boot_outb 502 (Z.lor (Z.shiftr offset 24) 224) ;;;
  boot_outb 503 32 ;;;
  waitdisk ;;;
  modify (fun b => mkboot (put_list (b_mem b) dst (ata_insl (b_ctl b))) (b_ctl b)).

Fixpoint read_sectors (fuel : nat) (pa epa offset : Z) : MB unit :=
  match fuel with
  | O => fun _ => NoFuel
  | S fuel => if pa <? epa then readsect pa offset ;;; read_sectors fuel (u32 (pa + SECTSIZE)) epa (u32 (offset + 1)) else ret tt
  end.

Definition readseg (pa count offset : Z) : MB unit :=
  let epa := u32 (pa + count) in
  read_sectors (Z.to_nat (count / SECTSIZE + 3)) (u32 (pa - offset mod SECTSIZE)) epa (u32 (offset / SECTSIZE + 1)).

Definition ELF_AT : Z := 0x10000.

(** One program header, at [ph]. *)
Definition boot_segment (ph : Z) : MB unit :=
  let! m := gets b_mem in
  let pa := load32 m (ph + 12) in
  let filesz := load32 m (ph + 16) in
  let memsz := load32 m (ph + 20) in
  readseg pa filesz (load32 m (ph + 4)) ;;;
  when (filesz <? memsz) (modify (fun b => mkboot (stosb (b_mem b) (u32 (pa + filesz)) 0 (Z.to_nat (memsz - filesz))) (b_ctl b))).

Fixpoint boot_segments (n : nat) (ph : Z) : MB unit :=
  match n with O => ret tt | S n => boot_segment ph ;;; boot_segments n (ph + PHSIZE) end.

(** [bootmain]: the address it jumps to, or nothing when it returns. *)
Definition bootmain : MB (option Z) :=
  readseg ELF_AT 4096 0 ;;;
  let! m := gets b_mem in
  if negb (load32 m ELF_AT =? ELF_MAGIC) then ret None
  else
    boot_segments (Z.to_nat (m (ELF_AT + 44) + 256 * m (ELF_AT + 45))) (ELF_AT + load32 m (ELF_AT + 28)) ;;;
    let! m := gets b_mem in
    ret (Some (load32 m (ELF_AT + 24))).

(** ** Sectors *)

(** The byte of the disk at an offset. *)
Definition dbyte (md : Z -> Z -> list Z) (k : Z) : Z := nth (Z.to_nat (k mod 512)) (md 0 (k / 512)) 0.
Definition sectors_ok (md : Z -> Z -> list Z) : Prop := forall s, length (md 0 s) = 512%nat.

Lemma sector_regs x : 0 <= x < 268435456 ->
  Z.land x 255 + 256 * Z.land (Z.shiftr x 8) 255 + 65536 * Z.land (Z.shiftr x 16) 255 + 16777216 * Z.land (Z.land (Z.lor (Z.shiftr x 24) 224) 255) 15 = x /\
  Z.land (Z.shiftr (Z.land (Z.lor (Z.shiftr x 24) 224) 255) 4) 1 = 0.
Proof.
  intros Hx. assert (HT : 0 <= Z.shiftr x 24 < 16) by (rewrite Z.shiftr_div_pow2 by lia; change (2 ^ 24) with 16777216; zlia).
  assert (HE : Z.land (Z.lor (Z.shiftr x 24) 224) 255 = 224 + Z.shiftr x 24).
  { set (y := Z.shiftr x 24) in *. assert (y = 0 \/ y = 1 \/ y = 2 \/ y = 3 \/ y = 4 \/ y = 5 \/ y = 6 \/ y = 7 \/ y = 8 \/ y = 9 \/ y = 10 \/ y = 11 \/ y = 12 \/ y = 13 \/ y = 14 \/ y = 15) as HY by lia.
    clearbody y. repeat destruct HY as [->|HY]; try done. by subst. }
  rewrite HE. change 255 with (Z.ones 8). change 15 with (Z.ones 4). change 1 with (Z.ones 1) at 1. rewrite !Z.land_ones by lia. rewrite !Z.shiftr_div_pow2 in * by lia.
  change (2 ^ 8) with 256 in *. change (2 ^ 16) with 65536 in *. change (2 ^ 24) with 16777216 in *. change (2 ^ 4) with 16. change (2 ^ 1) with 2. split; zlia.
Qed.

Lemma readsect_spec b dst s : ready (b_ctl b) -> 0 <= s < 268435456 ->
  wp (readsect dst s) (fun _ b' => b_mem b' = put_list (b_mem b) dst (medium (b_ctl b) 0 s) /\ medium (b_ctl b') = medium (b_ctl b) /\ ready (b_ctl b')) b.
Proof.
  intros HR Hs. destruct (sector_regs s Hs) as [EL ED]. unfold readsect, waitdisk, boot_outb. do 8 (wp_step; apply wp_modify). apply wp_modify. cbn [b_mem b_ctl].
  assert (ES : settle (b_ctl b) = b_ctl b) by (unfold settle, ready in *; by destruct (todo (b_ctl b))). rewrite ES.
  set (a := ata_outb 502 _ _). assert (EA : lba (regs a) = s /\ drive (regs a) = 0 /\ medium a = medium (b_ctl b)).
  { subst a. unfold lba, drive. cbn [regs medium ata_outb set_regs Z.eqb Pos.eqb]. done. }
  destruct EA as (E1 & E2 & E3). clearbody a. unfold ata_outb. cbn [Z.eqb Pos.eqb]. change (32 =? IDE_CMD_WRITE) with false. change (32 =? IDE_CMD_READ) with true. cbn iota.
  unfold settle, set_todo, ata_insl, ready. cbn [todo medium]. rewrite E1, E2. cbn [todo medium]. by rewrite E3.
Qed.

Lemma put_list_in m a l x : a <= x < a + Z.of_nat (length l) -> put_list m a l x = nth (Z.to_nat (x - a)) l 0.
Proof. intros Hx. unfold put_list. by replace ((a <=? x) && (x <? a + Z.of_nat (length l))) with true by lia. Qed.
Lemma put_list_out m a l x : x < a \/ a + Z.of_nat (length l) <= x -> put_list m a l x = m x.
Proof. intros Hx. unfold put_list. by replace ((a <=? x) && (x <? a + Z.of_nat (length l))) with false by lia. Qed.

(** The disk stays as it is and the controller is ready. *)
Definition same_disk (b b' : boot) : Prop := medium (b_ctl b') = medium (b_ctl b) /\ ready (b_ctl b').

Lemma read_sectors_spec (fuel : nat) : forall pa epa s b,
  ready (b_ctl b) -> sectors_ok (medium (b_ctl b)) -> 0 <= pa -> pa <= epa + 512 -> 0 <= epa < 4294966000 -> 0 <= s -> 512 * s + (epa - pa) < 137438000000 -> epa - pa < 512 * (Z.of_nat fuel - 1) ->
  wp (read_sectors fuel pa epa s) (fun _ b' =>
    (forall x, pa <= x < epa -> b_mem b' x = dbyte (medium (b_ctl b)) (512 * s + (x - pa))) /\
    (forall x, x < pa \/ epa + 512 <= x -> b_mem b' x = b_mem b x) /\ same_disk b b') b.
Proof.
  induction fuel as [|fuel IH]; intros pa epa s b HR HS Hp1 Hp2 He Hs Hb Hf; [lia|]. cbn [read_sectors]. destruct (pa <? epa) eqn:E; [|apply wp_ret; split_and!; [intros x Hx; lia|done|by split]].
  wp_step. eapply wp_mono; [apply readsect_spec; [done|lia]|]. intros [] b1 (Em & Ed & HR1). unfold SECTSIZE. rewrite !u32_id by lia.
  eapply wp_mono; [apply IH; [done|by rewrite Ed|lia..]|]. intros [] b2 (I1 & I2 & I3 & I4). rewrite Ed in *. split_and!; [| |by split].
  - intros x Hx. destruct (decide (x < pa + 512)) as [Hlt|Hge].
    + rewrite I2 by lia. rewrite Em. rewrite put_list_in by (rewrite HS; lia). unfold dbyte. replace ((512 * s + (x - pa)) mod 512) with (x - pa) by zlia. by replace ((512 * s + (x - pa)) / 512) with s by zlia.
    + rewrite I1 by lia. f_equal. lia.
  - intros x Hx. rewrite I2 by lia. rewrite Em. apply put_list_out. rewrite HS. lia.
Qed.

(** [readseg] brings the bytes asked for, and writes less than a sector before
    and behind them. *)
Lemma readseg_spec pa count off b :
  ready (b_ctl b) -> sectors_ok (medium (b_ctl b)) -> 512 <= pa -> 0 <= count -> pa + count < 4294966000 -> 0 <= off < 4294967296 -> 
  wp (readseg pa count off) (fun _ b' =>
    (forall i, 0 <= i < count -> b_mem b' (pa + i) = dbyte (medium (b_ctl b)) (512 + off + i)) /\
    (forall x, x < pa - off mod 512 \/ pa + count + 512 <= x -> b_mem b' x = b_mem b x) /\ same_disk b b') b.
Proof.
  intros HR HS Hp Hc Hpc Ho. unfold readseg, SECTSIZE. pose proof (Z.mod_pos_bound off 512 ltac:(lia)). rewrite !u32_id by zlia.
  eapply wp_mono; [apply read_sectors_spec; [done|done|zlia..]|]. intros [] b1 (I1 & I2 & I3). split_and!; [|intros x Hx; apply I2; lia|done].
  intros i Hi. rewrite I1 by lia. f_equal. zlia.
Qed.

(** ** Segments *)

(** A program header, and the file that the boot sector is followed by. *)
Record bph := mkbph { bp_off : Z; bp_paddr : Z; bp_filesz : Z; bp_memsz : Z }.
Definition kfile (md : Z -> Z -> list Z) (k : Z) : Z := dbyte md (512 + k).

Definition read_bph (m : memory) (ph : Z) : bph := mkbph (load32 m (ph + 4)) (load32 m (ph + 12)) (load32 m (ph + 16)) (load32 m (ph + 20)).
Definition bp_end (p : bph) : Z := bp_paddr p + Z.max (bp_filesz p) (bp_memsz p).

(** A segment that the loader can place above its copy of the first page. *)
Record bph_ok (p : bph) : Prop := mkbphok {
  bo_off : 0 <= bp_off p < 4294967296;
  bo_low : 0x11000 <= bp_paddr p - bp_off p mod 512;
  bo_filesz : 0 <= bp_filesz p;
  bo_memsz : 0 <= bp_memsz p;
  bo_end : bp_end p < 4294966000;
}.

Definition loaded (md : Z -> Z -> list Z) (m : memory) (p : bph) : Prop :=
  (forall i, 0 <= i < bp_filesz p -> m (bp_paddr p + i) = kfile md (bp_off p + i)) /\
  (forall i, bp_filesz p <= i < bp_memsz p -> m (bp_paddr p + i) = 0).

Lemma boot_segment_spec ph b p :
  ready (b_ctl b) -> sectors_ok (medium (b_ctl b)) -> read_bph (b_mem b) ph = p -> bph_ok p ->
  wp (boot_segment ph) (fun _ b' => loaded (medium (b_ctl b)) (b_mem b') p /\ (forall x, x < bp_paddr p - bp_off p mod 512 -> b_mem b' x = b_mem b x) /\ same_disk b b') b.
Proof.
  destruct p as [off pa fsz msz]. intros HR HS EP [O1 O2 O3 O4 O5]. unfold read_bph in EP. injection EP as EP1 EP2 EP3 EP4. unfold boot_segment. wp_step. apply wp_gets. rewrite EP1, EP2, EP3, EP4. unfold bp_end in O5. cbn [bp_off bp_paddr bp_filesz bp_memsz] in *.
  pose proof (Z.mod_pos_bound off 512 ltac:(lia)). wp_step. eapply wp_mono; [apply readseg_spec; [done|done|lia..]|]. intros [] b1 (I1 & I2 & I3). wp_step.
  - apply wp_modify. cbn [b_mem b_ctl]. rewrite u32_id by lia. split_and!; [split| |done].
    + intros i Hi. cbn in Hi |- *. rewrite stosb_spec. replace (_ && _) with false by lia. rewrite I1 by lia. unfold kfile. f_equal. lia.
    + intros i Hi. cbn in Hi |- *. rewrite stosb_spec. by replace (_ && _) with true by lia.
    + intros x Hx. rewrite stosb_spec. replace (_ && _) with false by lia. apply I2. lia.
  - split_and!; [split| |done].
    + intros i Hi. cbn in Hi |- *. rewrite I1 by lia. unfold kfile. f_equal. lia.
    + intros i Hi. cbn in Hi. lia.
    + intros x Hx. apply I2. lia.
Qed.

Definition follows (p q : bph) : Prop := bp_end p <= bp_paddr q - bp_off q mod 512.

Lemma loaded_ext md m m' p : 0 <= bp_filesz p -> (forall x, x < bp_end p -> bp_paddr p <= x -> m' x = m x) -> loaded md m p -> loaded md m' p.
Proof. intros Hf HM [L1 L2]. unfold bp_end in HM. split; intros i Hi; rewrite HM by lia; [by apply L1|by apply L2]. Qed.

Lemma read_bph_ext m m' a a' : (forall i, 0 <= i < 32 -> m' (a' + i) = m (a + i)) -> read_bph m' a' = read_bph m a.
Proof. intros HM. unfold read_bph, load32. rewrite <- !Z.add_assoc. by rewrite !HM by lia. Qed.

Lemma boot_segments_spec ps : forall ph b,
  ready (b_ctl b) -> sectors_ok (medium (b_ctl b)) -> ph + 32 * Z.of_nat (length ps) <= 0x11000 ->
  (forall j p, ps !! j = Some p -> read_bph (b_mem b) (ph + 32 * Z.of_nat j) = p) -> Forall bph_ok ps -> StronglySorted follows ps ->
  wp (boot_segments (length ps) ph) (fun _ b' => Forall (loaded (medium (b_ctl b)) (b_mem b')) ps /\ (forall x, (forall p, p ∈ ps -> x < bp_paddr p - bp_off p mod 512) -> b_mem b' x = b_mem b x) /\ same_disk b b') b.
Proof.
  induction ps as [|p ps IH]; intros ph b HR HS Hph HP HO HF; cbn [boot_segments length]; [apply wp_ret; split_and!; [constructor|done|by split]|].
  apply Forall_cons in HO as [HO1 HO]. inversion HF as [|? ? HF2 HF1]; subst. pose proof (HP 0%nat p eq_refl) as HP0. rewrite Z.mul_0_r, Z.add_0_r in HP0. cbn [length] in Hph.
  wp_step. eapply wp_mono; [by apply boot_segment_spec|]. intros [] b1 (L1 & U1 & D1 & R1). change PHSIZE with 32. eapply wp_mono; [apply IH; [done|by rewrite D1|lia| |done|done]|].
  - intros j q Hj. rewrite <- (HP (S j) q Hj). replace (ph + 32 * Z.of_nat (S j)) with (ph + 32 + 32 * Z.of_nat j) by lia. apply lookup_lt_Some in Hj. apply read_bph_ext. intros i Hi. apply U1. destruct HO1. lia.
  - intros [] b2 (L2 & U2 & D2 & R2). rewrite D1 in *. split_and!; [| |by split; [rewrite D2|]].
    + apply Forall_cons. split; [|done]. eapply loaded_ext; [apply HO1| |exact L1]. intros x Hx _. apply U2. intros q Hq. rewrite Forall_forall in HF1. specialize (HF1 q Hq). unfold follows in HF1. lia.
    + intros x Hx. rewrite U2 by (intros q Hq; apply Hx; by right). apply U1. apply Hx. by left.
Qed.

(** ** The loader *)

(** The program headers of the file. *)
Definition headers (f : memory) : list bph :=
  (fun j => read_bph f (load32 f 28 + 32 * Z.of_nat j)) <$> seq 0 (Z.to_nat (f 44 + 256 * f 45)).

(** C36. The boot loader.  When the disk holds an ELF file behind the boot
    sector, with program headers in its first page and segments that follow
    each other above the loader's copy of that page, [bootmain] jumps to the
    entry point of the file, with every segment in memory: the bytes of the
    file, then zeros.  Without the magic number it returns. *)
Theorem bootmain_loads b :
  let md := medium (b_ctl b) in let f := kfile md in
  ready (b_ctl b) -> sectors_ok md -> 0 <= load32 f 28 -> load32 f 28 + 32 * Z.of_nat (length (headers f)) <= 4096 ->
  Forall bph_ok (headers f) -> StronglySorted follows (headers f) ->
  wp bootmain (fun r b' => if load32 f 0 =? ELF_MAGIC then r = Some (load32 f 24) /\ Forall (loaded md (b_mem b')) (headers f) else r = None) b.
Proof.
  intros md f HR HS H0 Hh HO HF. unfold bootmain. wp_step. eapply wp_mono; [apply readseg_spec; [done|done|done..]|]. intros [] b1 (I1 & _ & D1 & R1). fold md in I1, D1.
  assert (HB : forall i, 0 <= i < 4096 -> b_mem b1 (ELF_AT + i) = f i) by (intros i Hi; rewrite I1 by lia; unfold f, kfile; f_equal; lia).
  assert (HL : forall m, (forall i, 0 <= i < 4096 -> m (ELF_AT + i) = f i) -> forall i, 0 <= i < 4093 -> load32 m (ELF_AT + i) = load32 f i) by (intros m Hm i Hi; unfold load32; rewrite <- !Z.add_assoc; by rewrite !Hm by lia).
  wp_step. apply wp_gets. replace (load32 (b_mem b1) ELF_AT) with (load32 f 0) by (rewrite <- (HL _ HB 0) by lia; by rewrite Z.add_0_r). destruct (load32 f 0 =? ELF_MAGIC); cbn [negb]; [|by apply wp_ret].
  rewrite !HB by lia. rewrite (HL _ HB 28) by lia. wp_step. unfold headers in Hh. rewrite length_fmap, length_seq in Hh. set (n := Z.to_nat (f 44 + 256 * f 45)) in *.
  assert (EN : n = length (headers f)) by (unfold headers; by rewrite length_fmap, length_seq). rewrite EN.
  eapply wp_mono; [apply (boot_segments_spec (headers f)); [done|by rewrite D1|unfold ELF_AT; lia| |done|done]|].
  - intros j p Hj. apply list_lookup_fmap_Some in Hj as (x & -> & Hx). apply lookup_seq in Hx as [-> Hx]. apply read_bph_ext. intros i Hi.
    replace (ELF_AT + load32 f 28 + 32 * Z.of_nat j + i) with (ELF_AT + (load32 f 28 + 32 * Z.of_nat j + i)) by lia. apply HB. unfold n in *. lia.
  - intros [] b2 (L2 & U2 & D2 & R2). rewrite D1 in L2. wp_step. apply wp_gets. apply wp_ret. split; [|done]. f_equal. rewrite (HL (b_mem b2)); [done| |lia].
    intros i Hi. rewrite U2; [by apply HB|]. intros p Hp. rewrite Forall_forall in HO. destruct (HO p Hp). unfold ELF_AT. lia.
Qed.

Module BootSample.
(** A file with one segment: eight bytes at 4096, to be put at 1 MB. *)
Definition words : list (Z * Z) := [(0, ELF_MAGIC); (24, 0x100000); (28, 52); (44, 1); (56, 4096); (64, 0x100000); (68, 8); (72, 16); (4096, 0x04030201)].
Definition image : memory := fold_left (fun m p => store32 m p.1 p.2) words (fun _ => 0).
Definition disk : Z -> Z -> list Z := fun _ s => (fun i => image (512 * (s - 1) + Z.of_nat i)) <$> seq 0 512.
Definition start : boot := mkboot (fun _ => 7) (mkata (fun _ => 0) disk Idle).

Lemma sample_headers : headers (kfile disk) = [mkbph 4096 0x100000 8 16].
Proof. vm_compute. reflexivity. Qed.

Lemma bootmain_loads_witness : wp bootmain (fun r b' => r = Some 0x100000 /\ b_mem b' 0x100002 = 3 /\ b_mem b' 0x10000c = 0) start.
Proof.
  eapply wp_mono; [apply (bootmain_loads start)|].
  - done.
  - intros s. cbn [medium b_ctl start]. unfold disk. by rewrite length_fmap, length_seq.
  - vm_compute. congruence.
  - cbn [medium b_ctl start]. rewrite sample_headers. vm_compute. congruence.
  - cbn [medium b_ctl start]. rewrite sample_headers. apply Forall_singleton. split; vm_compute; try split; intros; congruence.
  - cbn [medium b_ctl start]. rewrite sample_headers. repeat constructor.
  - intros r b'. cbn [medium b_ctl start]. rewrite sample_headers. change (load32 (kfile disk) 0 =? ELF_MAGIC) with true. cbn iota. intros [-> HF]. apply Forall_singleton in HF as [L1 L2]. split; [by vm_compute|]. split.
    + etrans; [apply (L1 2); cbn; lia|by vm_compute].
    + apply (L2 12). cbn. lia.
Defined.
End BootSample.
