(* ===== verification/Mp.v ===== *)
(** * Mp: finding the processors ([mp.c], [mp.h])

    The search for the tables that describe the machine, in the memory at the
    addresses the specification names, and the loop of [mpinit] over the
    entries of the configuration table.  The theorems are that the first
    table with the right signature and checksum is found, that the processors
    and the I/O interrupt controller of the table are recorded, and that an
    entry of an unknown kind makes [mpinit] loop for ever. *)
From stdpp Require Import base gmap list numbers strings.
From Stdlib Require Import ZArith Lia ZifyBool.
From S2P Require Import Prelude Machine Cstring.

Definition NCPU : nat := 8.
Definition MPPROC : Z := 0.
Definition MPBUS : Z := 1.
Definition MPIOAPIC : Z := 2.
Definition MPIOINTR : Z := 3.
Definition MPLINTR : Z := 4.

(** Sizes of [struct mp], [struct mpconf], [struct mpproc] and
    [struct mpioapic]. *)
Definition MPSIZE : Z := 16.
Definition CONFSIZE : Z := 44.
Definition PROCSIZE : Z := 20.
Definition IOAPICSIZE : Z := 8.

Record mpst := mkmp { cpus : list Z; ioapicid : Z; lapic : Z; imcr : Z }.
Notation MM := (M mpst).

Section Mp.
(** Memory; the sources reach it through [P2V]. *)
Variable m : memory.

Definition load16 (a : Z) : Z := m a + 256 * m (a + 1).

Fixpoint sum_loop (n : nat) (a s : Z) : Z := match n with O => s | S n => sum_loop n (a + 1) (s + m a) end.
Definition sum (a len : Z) : Z := u8 (sum_loop (Z.to_nat len) a 0).

Definition sig_mp : Z -> Z := fun i => nth (Z.to_nat i) [95; 77; 80; 95] 0.
Definition sig_pcmp : Z -> Z := fun i => nth (Z.to_nat i) [80; 67; 77; 80] 0.

Fixpoint mpsearch_loop (fuel : nat) (p e : Z) : option Z :=
  match fuel with
  | O => None
  | S fuel =>
      if p <? e then
        if (memcmp (view m p) sig_mp 4 =? 0) && (sum p MPSIZE =? 0) then Some p else mpsearch_loop fuel (p + MPSIZE) e
      else None
  end.
Definition mpsearch1 (a len : Z) : option Z := mpsearch_loop (Z.to_nat (len / MPSIZE + 2)) a (a + len).

Definition mpsearch : option Z :=
  let bda := 0x400 in
  let p := Z.shiftl (Z.lor (Z.shiftl (m (bda + 15)) 8) (m (bda + 14))) 4 in
  let last := mpsearch1 0xF0000 0x10000 in
  if negb (p =? 0) then match mpsearch1 p 1024 with Some mp => Some mp | None => last end
  else
    let p := Z.lor (Z.shiftl (m (bda + 20)) 8) (m (bda + 19)) * 1024 in
    match mpsearch1 (u32 (p - 1024)) 1024 with Some mp => Some mp | None => last end.

(** The structure and the table. *)
Definition mpconfig : option (Z * Z) :=
  match mpsearch with
  | None => None
  | Some mp =>
      let conf := load32 m (mp + 4) in
      if conf =? 0 then None
      else if negb (memcmp (view m conf) sig_pcmp 4 =? 0) then None
      else if negb (m (conf + 6) =? 1) && negb (m (conf + 6) =? 4) then None
      else if negb (sum conf (load16 (conf + 4)) =? 0) then None
      else Some (mp, conf)
  end.

(** The loop over the entries: an entry of another kind leaves the [switch]
    but not the loop, and [p] where it was. *)
Fixpoint mp_entries (fuel : nat) (p e : Z) (ismp : bool) : MM bool :=
  match fuel with
  | O => fun _ => NoFuel
  | S fuel =>
      if p <? e then
        let t := m p in
        if t =? MPPROC then
          modify (fun s => if decide (length (cpus s) < NCPU)%nat then mkmp (cpus s ++ [m (p + 1)]) (ioapicid s) (lapic s) (imcr s) else s) ;;;
          mp_entries fuel (p + PROCSIZE) e ismp
        else if t =? MPIOAPIC then
          modify (fun s => mkmp (cpus s) (m (p + 1)) (lapic s) (imcr s)) ;;;
          mp_entries fuel (p + IOAPICSIZE) e ismp
        else if (t =? MPBUS) || (t =? MPIOINTR) || (t =? MPLINTR) then mp_entries fuel (p + 8) e ismp
        else mp_entries fuel p e false
      else ret ismp
  end.

Definition mpinit (fuel : nat) : MM unit :=
  match mpconfig with
  | None => panic "Expect to run on an SMP"
  | Some (mp, conf) =>
      modify (fun s => mkmp (cpus s) (ioapicid s) (load32 m (conf + 36)) (imcr s)) ;;;
      let! ismp := mp_entries fuel (conf + CONFSIZE) (conf + load16 (conf + 4)) true in
      if negb ismp then panic "Didn't find a suitable machine"
      else
        (* port 0x22 selects the interrupt mode register, whose bit 0 masks external interrupts *)
        when (negb (m (mp + 12) =? 0)) (modify (fun s => mkmp (cpus s) (ioapicid s) (lapic s) (Z.lor (imcr s) 1)))
  end.

(** ** The search *)

Definition valid_mp (p : Z) : bool := (memcmp (view m p) sig_mp 4 =? 0) && (sum p MPSIZE =? 0).

Lemma mpsearch_loop_spec (fuel : nat) : forall p e, (e - p) / 16 + 1 < Z.of_nat fuel ->
  match mpsearch_loop fuel p e with
  | Some q => p <= q < e /\ (q - p) mod 16 = 0 /\ valid_mp q = true /\ forall r, p <= r < q -> (r - p) mod 16 = 0 -> valid_mp r = false
  | None => forall r, p <= r < e -> (r - p) mod 16 = 0 -> valid_mp r = false
  end.
Proof.
  induction fuel as [|fuel IH]; intros p e Hf; cbn [mpsearch_loop].
  - intros r Hr. exfalso. zlia.
  - destruct (p <? e) eqn:E; [|intros r Hr; lia]. fold (valid_mp p). destruct (valid_mp p) eqn:EV; [split_and!; [lia|lia|by rewrite Z.sub_diag|done|intros r Hr; lia]|].
    unfold MPSIZE. specialize (IH (p + 16) e ltac:(zlia)). assert (HN : forall r, p <= r -> (r - p) mod 16 = 0 -> r < p + 16 -> valid_mp r = false) by (intros r H1 H2 H3; assert (r = p) as -> by zlia; done).
    destruct (mpsearch_loop fuel (p + 16) e) as [q|].
    + destruct IH as (I1 & I2 & I3 & I4). split_and!; [lia|lia|zlia|done|]. intros r Hr Hm. destruct (decide (r < p + 16)); [apply HN; [lia|done|lia]|]. apply I4; [lia|zlia].
    + intros r Hr Hm. destruct (decide (r < p + 16)); [apply HN; [lia|done|lia]|]. apply IH; [lia|zlia].
Qed.

(** [mpsearch1] finds the first structure on a 16-byte boundary with the
    signature and a checksum of zero, if there is one. *)
Theorem mpsearch1_first a len : 0 <= len ->
  match mpsearch1 a len with
  | Some q => a <= q < a + len /\ (q - a) mod 16 = 0 /\ valid_mp q = true /\ forall r, a <= r < q -> (r - a) mod 16 = 0 -> valid_mp r = false
  | None => forall r, a <= r < a + len -> (r - a) mod 16 = 0 -> valid_mp r = false
  end.
Proof. intros Hl. apply mpsearch_loop_spec. unfold MPSIZE. zlia. Qed.

(** ** The entries *)

Inductive entry := EProc (apicid : Z) (rest : list Z) | EIoapic (apicno : Z) (rest : list Z) | EOther (t : Z) (rest : list Z).
Definition enc_entry (x : entry) : list Z :=
  match x with EProc id rest => MPPROC :: id :: rest | EIoapic no rest => MPIOAPIC :: no :: rest | EOther t rest => t :: rest end.
Definition entry_ok (x : entry) : Prop :=
  match x with
  | EProc _ rest => length rest = 18%nat
  | EIoapic _ rest => length rest = 6%nat
  | EOther t rest => (t = MPBUS \/ t = MPIOINTR \/ t = MPLINTR) /\ length rest = 7%nat
  end.

(** The bytes [l] are in memory at [a]. *)
Definition at_mem (a : Z) (l : list Z) : Prop := forall (i : nat) b, l !! i = Some b -> m (a + Z.of_nat i) = b.

Definition record_entry (s : mpst) (x : entry) : mpst :=
  match x with
  | EProc id _ => if decide (length (cpus s) < NCPU)%nat then mkmp (cpus s ++ [id]) (ioapicid s) (lapic s) (imcr s) else s
  | EIoapic no _ => mkmp (cpus s) no (lapic s) (imcr s)
  | EOther _ _ => s
  end.

Lemma at_mem_app a l1 l2 : at_mem a (l1 ++ l2) -> at_mem a l1 /\ at_mem (a + Z.of_nat (length l1)) l2.
Proof.
  intros HA. split; intros i b Hi; [apply HA; by apply lookup_app_l_Some|]. rewrite <- Z.add_assoc, <- Nat2Z.inj_add. apply HA. rewrite lookup_app_r by lia. by replace (length l1 + i - length l1)%nat with i by lia.
Qed.

Lemma enc_length x : entry_ok x -> Z.of_nat (length (enc_entry x)) = match x with EProc _ _ => PROCSIZE | _ => 8 end.
Proof. unfold PROCSIZE. destruct x as [id rest|no rest|t rest]; cbn; [intros ->|intros ->|intros [_ ->]]; lia. Qed.

(** One turn of the loop. *)
Lemma mp_entry_step (fuel : nat) p e ismp s x : entry_ok x -> at_mem p (enc_entry x) -> p < e ->
  mp_entries (S fuel) p e ismp s = mp_entries fuel (p + Z.of_nat (length (enc_entry x))) e ismp (record_entry s x).
Proof.
  intros HO HA He. rewrite (enc_length x HO). cbn [mp_entries]. replace (p <? e) with true by lia. pose proof (HA 0%nat) as H0. rewrite Z.add_0_r in H0. destruct x as [id rest|no rest|t rest].
  - rewrite (H0 MPPROC eq_refl). cbn [Z.eqb MPPROC]. unfold bind, modify. by rewrite (HA 1%nat id eq_refl : m (p + 1) = id).
  - rewrite (H0 MPIOAPIC eq_refl). cbn. unfold bind, modify. by rewrite (HA 1%nat no eq_refl : m (p + 1) = no).
  - rewrite (H0 t eq_refl). destruct HO as [HT _]. by repeat destruct HT as [HT|HT]; subst t.
Qed.

Lemma mp_entries_reads es : forall (fuel : nat) p e s, Forall entry_ok es -> at_mem p (concat (enc_entry <$> es)) -> e = p + Z.of_nat (length (concat (enc_entry <$> es))) -> (length es < fuel)%nat ->
  mp_entries fuel p e true s = Ok true (fold_left record_entry es s).
Proof.
  induction es as [|x es IH]; intros [|fuel] p e s HO HA He Hf; cbn [length] in Hf; try lia.
  - cbn in He. cbn [mp_entries]. by replace (p <? e) with false by lia.
  - apply Forall_cons in HO as [HO1 HO]. cbn [fmap list_fmap concat] in HA, He. rewrite length_app in He. apply at_mem_app in HA as [HA1 HA2]. pose proof (enc_length x HO1) as HL. unfold PROCSIZE in HL.
    rewrite (mp_entry_step fuel p e true s x HO1 HA1) by (destruct x; lia). cbn [fold_left]. apply IH; [done|done|lia|lia].
Qed.

(** An entry of an unknown kind: the loop goes on for ever. *)
Lemma mp_entries_stuck (fuel : nat) : forall p e ismp s, p < e -> 4 < m p -> mp_entries fuel p e ismp s = NoFuel.
Proof.
  induction fuel as [|fuel IH]; intros p e ismp s He Ht; cbn [mp_entries]; [done|]. replace (p <? e) with true by lia. unfold MPPROC, MPIOAPIC, MPBUS, MPIOINTR, MPLINTR.
  replace (m p =? 0) with false by lia. replace (m p =? 2) with false by lia. replace ((m p =? 1) || (m p =? 3) || (m p =? 4)) with false by lia. by apply IH.
Qed.

(** C35. The processors.  For a configuration table that is a list of entries of
    the known kinds, [mpinit] records the processors in their order, up to
    [NCPU], the last I/O interrupt controller and the address of the local
    one; if after some entries one of an unknown kind follows, it neither
    returns nor panics, however long it runs. *)
Theorem mpinit_reads mp conf es s :
  mpconfig = Some (mp, conf) -> Forall entry_ok es -> at_mem (conf + CONFSIZE) (concat (enc_entry <$> es)) ->
  let e := conf + CONFSIZE + Z.of_nat (length (concat (enc_entry <$> es))) in
  let s0 := mkmp (cpus s) (ioapicid s) (load32 m (conf + 36)) (imcr s) in
  (conf + load16 (conf + 4) = e -> forall fuel, (length es < fuel)%nat ->
    exists s', mpinit fuel s = Ok tt s' /\ cpus s' = cpus (fold_left record_entry es s0) /\ ioapicid s' = ioapicid (fold_left record_entry es s0) /\ lapic s' = load32 m (conf + 36)) /\
  (e < conf + load16 (conf + 4) -> 4 < m e -> forall fuel, mpinit fuel s = NoFuel).
Proof.
  intros HC HO HA e s0. split.
  - intros He fuel Hf. unfold mpinit. rewrite HC. unfold bind, modify. rewrite He. cbv beta iota. fold s0. rewrite (mp_entries_reads es fuel _ e s0 HO HA eq_refl Hf). cbn [negb].
    assert (EL : lapic (fold_left record_entry es s0) = load32 m (conf + 36)).
    { assert (HL : forall l st, lapic (fold_left record_entry l st) = lapic st) by (induction l as [|x l IH]; intros st; [done|]; cbn; rewrite IH; destruct x; cbn; [by case_decide|done|done]). by rewrite HL. }
    destruct (negb (m (mp + 12) =? 0)); cbn [when]; eexists; (split; [reflexivity|]); done.
  - intros He Ht fuel. unfold mpinit. rewrite HC. unfold bind, modify.
    enough (HE : forall (l : list entry) (fuel : nat) p e' st, Forall entry_ok l -> at_mem p (concat (enc_entry <$> l)) -> p + Z.of_nat (length (concat (enc_entry <$> l))) = e -> e < e' -> mp_entries fuel p e' true st = NoFuel) by (by rewrite (HE es fuel _ _ _ HO HA eq_refl He)).
    clear HO HA. induction l as [|x l IH]; intros [|fuel'] p e' st HO HA Ee Hlt; try done.
    + cbn in Ee. rewrite Z.add_0_r in Ee. subst p. by apply mp_entries_stuck.
    + apply Forall_cons in HO as [HO1 HO]. cbn [fmap list_fmap concat] in HA, Ee. rewrite length_app in Ee. apply at_mem_app in HA as [HA1 HA2].
      rewrite (mp_entry_step fuel' p e' true st x HO1 HA1) by lia. apply IH; [done|done|lia|lia].
Qed.
End Mp.

Module MpSample.
Definition bytes_at (a : Z) (l : list Z) (m : memory) : memory := fun x => if (a <=? x) && (x <? a + Z.of_nat (length l)) then nth (Z.to_nat (x - a)) l 0 else m x.
Definition entries : list entry := [EProc 5 (replicate 18 0); EIoapic 1 (replicate 6 0)].
Definition table : list Z := [80; 67; 77; 80; 72; 0; 4; 158] ++ replicate 28 0 ++ [0; 0; 224; 254] ++ replicate 4 0 ++ concat (enc_entry <$> entries).
Definition memory : memory := bytes_at 0xF0000 [95; 77; 80; 95; 0; 16; 0; 0; 1; 4; 144; 0; 0; 0; 0; 0] (bytes_at 0x1000 table (fun _ => 0)).
Definition start : mpst := mkmp [] 0 0 0.

Lemma mpinit_reads_witness : exists s', mpinit memory 3 start = Ok tt s' /\ cpus s' = [5] /\ ioapicid s' = 1.
Proof.
  destruct (mpinit_reads memory 0xF0000 0x1000 entries start) as [H _].
  - vm_compute. reflexivity.
  - repeat constructor.
  - intros i b Hi. assert (Hl : (i < 28)%nat) by (by apply lookup_lt_Some in Hi). do 28 (destruct i as [|i]; [injection Hi as <-; vm_compute; reflexivity|]). lia.
  - destruct (H eq_refl 3%nat) as (s' & E & E1 & E2 & _); [cbn; lia|]. exists s'. split; [exact E|]. split; [exact E1|exact E2].
Defined.
End MpSample.
