(* ===== verification/Log.v ===== *)
(** * Log: the write-ahead log ([log.c])

    Group commit of file-system calls, and recovery.  The state is the block
    cache of [Bio] and the variable [log].  [wakeup(&log)] concerns processes
    that sleep in [begin_op], which is where [begin_op] blocks. *)
From stdpp Require Import base gmap list numbers strings.
From Stdlib Require Import ZArith Lia ZifyBool.
From S2P Require Import Prelude Machine LockThms Bio.

Definition log_chan : Z := 0.

(** [struct superblock] *)
Record superblock := mksb {
  sb_size : Z;
  sb_nblocks : Z;
  sb_ninodes : Z;
  sb_nlog : Z;
  sb_logstart : Z;
  sb_inodestart : Z;
  sb_bmapstart : Z;
}.

(** [struct log] with its header: [l_blocks] is [lh.block[0 .. lh.n - 1]]. *)
Record lgst := mklg {
  lbc : bcst;
  l_start : Z;
  l_size : Z;
  l_outstanding : Z;
  l_committing : Z;
  l_dev : Z;
  l_blocks : list Z;
  l_lock : bool;
}.

Definition set_lbc (x : bcst) (s : lgst) : lgst :=
  mklg x (l_start s) (l_size s) (l_outstanding s) (l_committing s) (l_dev s) (l_blocks s) (l_lock s).
Definition set_outstanding (x : Z) (s : lgst) : lgst :=
  mklg (lbc s) (l_start s) (l_size s) x (l_committing s) (l_dev s) (l_blocks s) (l_lock s).
Definition set_committing (x : Z) (s : lgst) : lgst :=
  mklg (lbc s) (l_start s) (l_size s) (l_outstanding s) x (l_dev s) (l_blocks s) (l_lock s).
Definition set_blocks (x : list Z) (s : lgst) : lgst :=
  mklg (lbc s) (l_start s) (l_size s) (l_outstanding s) (l_committing s) (l_dev s) x (l_lock s).
Definition set_l_lock (x : bool) (s : lgst) : lgst :=
  mklg (lbc s) (l_start s) (l_size s) (l_outstanding s) (l_committing s) (l_dev s) (l_blocks s) x.
Definition set_geometry (start size dev : Z) (s : lgst) : lgst :=
  mklg (lbc s) start size (l_outstanding s) (l_committing s) dev (l_blocks s) (l_lock s).

Notation ML := (M lgst).

Definition acquire_log : ML unit := fun s =>
  if l_lock s then Panic "acquire" else Ok tt (set_l_lock true s).
Definition release_log : ML unit := fun s =>
  if l_lock s then Ok tt (set_l_lock false s) else Panic "release".

(** Arrays of words in a block. *)
Fixpoint store_words (m : memory) (a : Z) (l : list Z) : memory :=
  match l with
  | [] => m
  | x :: l => store_words (store32 m a x) (a + 4) l
  end.
Fixpoint load_words (m : memory) (a : Z) (n : nat) : list Z :=
  match n with
  | O => []
  | S n => load32 m a :: load_words m (a + 4) n
  end.

(** [struct logheader] in a block. *)
Definition enc_head (m : memory) (l : list Z) : memory :=
  store_words (store32 m 0 (Z.of_nat (length l))) 4 l.
Definition dec_head (m : memory) : list Z :=
  load_words m 4 (Z.to_nat (i32 (load32 m 0))).

Section Log.
Context `{D : Disk}.

Definition onbc {A} (c : MB A) : ML A := zoom lbc set_lbc c.

(** [struct superblock] in a block. *)
Definition dec_sb (m : memory) : superblock :=
  mksb (load32 m 0) (load32 m 4) (load32 m 8) (load32 m 12) (load32 m 16) (load32 m 20) (load32 m 24).

Definition readsb (dev : Z) : MB superblock :=
  let! i := bread dev 1 in
  let! b := getb i in
  brelse i ;;;
  ret (dec_sb (b_data b)).

(** Copying the block of the buffer [from] into that of [to], to disk. *)
Definition copy_block (to from : nat) : MB unit :=
  let! b := getb from in
  setb to (fun c => set_data (bcopy (b_data c) (b_data b) BSIZE) c) ;;;
  bwrite to.

Fixpoint install_loop (dev start : Z) (tail : Z) (l : list Z) : MB unit :=
  match l with
  | [] => ret tt
  | n :: l =>
      let! lbuf := bread dev (start + tail + 1) in
      let! dbuf := bread dev n in
      copy_block dbuf lbuf ;;;
      brelse lbuf ;;;
      brelse dbuf ;;;
      install_loop dev start (tail + 1) l
  end.

Definition install_trans : ML unit := fun s =>
  onbc (install_loop (l_dev s) (l_start s) 0 (l_blocks s)) s.

Definition read_head : ML unit :=
  let! dev := gets l_dev in
  let! start := gets l_start in
  let! i := onbc (bread dev start) in
  let! b := onbc (getb i) in
  let l := dec_head (b_data b) in
  if LOGSIZE <? Z.of_nat (length l) then fault "lh.block"
  else
    modify (set_blocks l) ;;;
    onbc (brelse i).

Definition write_head : ML unit :=
  let! dev := gets l_dev in
  let! start := gets l_start in
  let! i := onbc (bread dev start) in
  let! l := gets l_blocks in
  onbc (setb i (fun b => set_data (enc_head (b_data b) l) b)) ;;;
  onbc (bwrite i) ;;;
  onbc (brelse i).

Definition recover_from_log : ML unit :=
  read_head ;;;
  install_trans ;;;
  modify (set_blocks []) ;;;
  write_head.

Definition initlog (dev : Z) : ML unit :=
  modify (set_l_lock false) ;;;
  let! sb := onbc (readsb dev) in
  modify (set_geometry (sb_logstart sb) (sb_nlog sb) dev) ;;;
  recover_from_log.

(** ** System calls *)

(** One turn of the loop of [begin_op]; it blocks where the process sleeps. *)
Definition begin_op : ML unit :=
  acquire_log ;;;
  let! c := gets l_committing in
  let! o := gets l_outstanding in
  let! l := gets l_blocks in
  if negb (c =? 0) then sleep_on log_chan
  else if LOGSIZE <? Z.of_nat (length l) + (o + 1) * MAXOPBLOCKS then sleep_on log_chan
  else modify (set_outstanding (i32 (o + 1))) ;;; release_log.

Fixpoint write_log_loop (dev start tail : Z) (l : list Z) : MB unit :=
  match l with
  | [] => ret tt
  | n :: l =>
      let! to := bread dev (start + tail + 1) in
      let! from := bread dev n in
      copy_block to from ;;;
      brelse from ;;;
      brelse to ;;;
      write_log_loop dev start (tail + 1) l
  end.

Definition write_log : ML unit := fun s =>
  onbc (write_log_loop (l_dev s) (l_start s) 0 (l_blocks s)) s.

Definition commit : ML unit :=
  let! l := gets l_blocks in
  if 0 <? Z.of_nat (length l) then
    write_log ;;;
    write_head ;;;
    install_trans ;;;
    modify (set_blocks []) ;;;
    write_head
  else ret tt.

Definition end_op : ML unit :=
  acquire_log ;;;
  let! o := gets l_outstanding in
  modify (set_outstanding (i32 (o - 1))) ;;;
  let! c := gets l_committing in
  if negb (c =? 0) then panic "log.committing"
  else
    let do_commit := i32 (o - 1) =? 0 in
    when do_commit (modify (set_committing 1)) ;;;
    release_log ;;;
    when do_commit
      (commit ;;;
       acquire_log ;;;
       modify (set_committing 0) ;;;
       release_log).

(** [log.lh.block[i] = b] at the first [i] with this block number, or at the end. *)
Fixpoint absorb (n : Z) (l : list Z) : list Z :=
  match l with
  | [] => [n]
  | x :: l => if x =? n then n :: l else x :: absorb n l
  end.

Definition log_write (i : nat) : ML unit :=
  let! l := gets l_blocks in
  let! size := gets l_size in
  let! o := gets l_outstanding in
  if (LOGSIZE <=? Z.of_nat (length l)) || (size - 1 <=? Z.of_nat (length l)) then panic "too big a transaction"
  else if o <? 1 then panic "log_write outside of trans"
  else
    acquire_log ;;;
    let! b := onbc (getb i) in
    modify (set_blocks (absorb (b_blockno b) l)) ;;;
    onbc (setb i (fun b => set_flags (Z.lor (b_flags b) B_DIRTY) b)) ;;;
    release_log.
End Log.
