(* ===== verification/LogSpec.v ===== *)
(** * LogSpec: moving blocks through the cache

    The step shared by [write_log] and [install_trans]: read two blocks, copy
    one to the other, write it to disk and release both. *)
From stdpp Require Import base gmap list numbers strings.
From Stdlib Require Import ZArith Lia ZifyBool.
From S2P Require Import Prelude Machine LockThms Bio BioSpec Log.

(** ** Counting buffers *)

Definition count (f : buf -> bool) (bs : list buf) : nat := length (filter (fun b => f b = true) bs).

Lemma count_insert (f : buf -> bool) (bs : list buf) (i : nat) (b b' : buf) :
  bs !! i = Some b -> (count f (<[i := b']> bs) + Nat.b2n (f b) = count f bs + Nat.b2n (f b'))%nat.
Proof.
  unfold count. revert i. induction bs as [|x bs IH]; intros [|i] Hb; try done; cbn in Hb.
  - injection Hb as ->. change (<[0%nat := b']> (b :: bs)) with (b' :: bs). rewrite !filter_cons.
    destruct (f b) eqn:E, (f b') eqn:E'; repeat case_decide; try congruence; cbn; lia.
  - change (<[S i := b']> (x :: bs)) with (x :: <[i := b']> bs). rewrite !filter_cons. specialize (IH i Hb).
    destruct (f x) eqn:E; repeat case_decide; try congruence; cbn; lia.
Qed.

Lemma count_pos (f : buf -> bool) (bs : list buf) :
  (0 < count f bs)%nat -> exists i b, bs !! i = Some b /\ f b = true.
Proof.
  unfold count. intros H. destruct (filter (fun b => f b = true) bs) as [|b l] eqn:E; [cbn in H; lia|].
  assert (Hb : b ∈ filter (fun b => f b = true) bs) by (rewrite E; left).
  apply list_elem_of_filter in Hb as [Hf Hb]. apply list_elem_of_lookup in Hb as [i Hi]. eauto.
Qed.

Notation spare s := (count is_unused (bufs s)).

Lemma spare_room (s : bcst) : (0 < spare s)%nat -> room s.
Proof. apply count_pos. Qed.

(** ** Dirty blocks *)

Definition isdirty (s : bcst) (n : Z) : Prop :=
  exists i b, bufs s !! i = Some b /\ b_dev b = 1 /\ b_blockno b = n /\ dirty b = true.

Definition all_idle (s : bcst) : Prop := forall i b, bufs s !! i = Some b -> is_locked b = false.

Lemma unused_clean (b : buf) : flags_ok (b_flags b) -> is_unused b = true -> dirty b = false /\ b_refcnt b = 0.
Proof.
  intros F H. unfold is_unused in H. zbool. destruct (flags_cases _ F) as (_ & E & _). rewrite H0 in E.
  unfold dirty. split; [by destruct (Z.testbit (b_flags b) 2)|done].
Qed.

Lemma clean_unused (b : buf) : flags_ok (b_flags b) -> b_refcnt b = 0 -> dirty b = false -> is_unused b = true.
Proof.
  intros F Hr Hd. unfold is_unused. destruct (flags_cases _ F) as (_ & E & _). unfold dirty in Hd. by rewrite Hr, E, Hd.
Qed.

Lemma wp_seq {S A B} (c : M S A) (k : A -> M S B) Q (s : S) :
  wp (bind c k) Q s -> wp c (fun a s' => wp (k a) Q s') s.
Proof. unfold wp, bind. by destruct (c s). Qed.

Section Steps.
Context `{D : Disk}.
Implicit Types (s : bcst).

(** What [bread] does to the counts. *)
Lemma read_counts (s s' : bcst) (n : Z) (i : nat) (b : buf) :
  binv s -> read_post s s' n i b ->
  (exists u, spare s = (spare s' + Nat.b2n u)%nat /\ (u = true -> dirty b = false)) /\
  (forall k, isdirty s' k <-> isdirty s k).
Proof.
  intros I [I' [(Hb & D1 & En & Hv) Hl] (b0 & Hb0 & Hl0 & HW) HB _ _ _ HC].
  pose proof (bi_bufs _ I i b0 Hb0) as O0. pose proof (bi_bufs _ I' i b Hb) as Ob.
  assert (Hnu : is_unused b = false).
  { unfold is_unused. destruct (bo_held _ _ Ob Hl) as [-> _]. done. }
  assert (Hdc : dirty b = true -> dirty b0 = true).
  { intros Hd. destruct (HC Hd) as (b1 & (Hb1 & _) & Hd1). rewrite Hb0 in Hb1. by injection Hb1 as <-. }
  split.
  - exists (is_unused b0). split.
    + pose proof (count_insert is_unused (bufs s) i b0 b Hb0) as HI. rewrite <- HB, Hnu in HI. cbn in HI. lia.
    + intros Hu. destruct (unused_clean b0 (bo_flags _ _ O0) Hu) as [Hc _].
      destruct (dirty b) eqn:E; [|done]. rewrite (Hdc eq_refl) in Hc. done.
  - intros k. split.
    + intros (j & c & Hc & Dc & Ec & Hdc'). rewrite HB in Hc.
      apply list_lookup_insert_Some in Hc as [(<- & <- & _)|(Hj & Hc)]; [|by exists j, c].
      destruct (HC Hdc') as (b1 & (Hb1 & D1' & E1 & _) & Hd1). exists i, b1. split_and!; try done. congruence.
    + intros (j & c & Hc & Dc & Ec & Hdc'). destruct (decide (j = i)) as [->|Hj].
      * rewrite Hb0 in Hc. injection Hc as <-. destruct HW as [Hu|(_ & E0 & _ & Ed)].
        -- by rewrite (proj1 (unused_clean b0 (bo_flags _ _ O0) Hu)) in Hdc'.
        -- exists i, b. split_and!; congruence.
      * exists j, c. rewrite HB. by rewrite list_lookup_insert_ne.
Qed.

(** What [brelse] does to them. *)
Lemma release_counts (s s' : bcst) (n : Z) (i : nat) (b : buf) :
  binv s -> holds_block s i n b -> bufs s' = <[i := free_buf b]> (bufs s) ->
  spare s' = (spare s + Nat.b2n (negb (dirty b)))%nat /\ (forall k, isdirty s' k <-> isdirty s k).
Proof.
  intros I ((Hb & D1 & En & Hv) & Hl) HB. pose proof (bi_bufs _ I i b Hb) as O.
  pose proof (lookup_lt_Some _ _ _ Hb) as Hi.
  assert (Hnu : is_unused b = false).
  { unfold is_unused. destruct (bo_held _ _ O Hl) as [-> _]. done. }
  assert (Hfu : is_unused (free_buf b) = negb (dirty b)).
  { unfold is_unused. cbn [b_refcnt b_flags free_buf set_refcnt set_block_lock].
    destruct (flags_cases _ (bo_flags _ _ O)) as (_ & -> & _). done. }
  split.
  - pose proof (count_insert is_unused (bufs s) i b (free_buf b) Hb) as HI. rewrite <- HB, Hnu, Hfu in HI. change (Nat.b2n false) with 0%nat in HI. lia.
  - intros k. split; intros (j & c & Hc & Dc & Ec & Hdc).
    + rewrite HB in Hc. apply list_lookup_insert_Some in Hc as [(<- & <- & _)|(Hj & Hc)]; [by exists i, b|by exists j, c].
    + destruct (decide (j = i)) as [->|Hj].
      * rewrite Hb in Hc. injection Hc as <-. exists i, (free_buf b). rewrite HB. split_and!; try done.
        by apply list_lookup_insert_eq.
      * exists j, c. rewrite HB. by rewrite list_lookup_insert_ne.
Qed.

Lemma idle_unheld (s : bcst) (n : Z) : all_idle s -> unheld s n.
Proof. intros H i b Hb _ _. by apply (H i b). Qed.
Lemma holds_other (s s' : bcst) (i j : nat) (n : Z) (b c : buf) :
  holds_block s i n b -> i <> j -> bufs s' = <[j := c]> (bufs s) -> holds_block s' i n b.
Proof.
  intros ((Hb & HR) & Hl) Hij HB. split; [split|]; [|done..]. by rewrite HB, list_lookup_insert_ne.
Qed.

(** Storing [m] in the held block [t] and writing it to disk. *)
Definition disk_put (t : Z) (m : memory) (d : Z -> memory) : Z -> memory :=
  fun k => if k =? t then bcopy (d k) m BSIZE else d k.

Lemma put_write (s : bcst) (p : nat) (t : Z) (b : buf) (f : memory -> memory) :
  binv s -> holds_block s p t b -> t < disksize ->
  wp (setb p (fun c => set_data (f (b_data c)) c) ;;; bwrite p) (fun _ s' =>
    let m := f (b_data b) in let c := set_flags 2 (set_data m b) in
    binv s' /\ holds_block s' p t c /\ bufs s' = <[p := c]> (bufs s) /\ disk s' = disk_put t m (disk s) /\
    writes s' = (t, m) :: writes s /\ me s' = me s /\
    spare s' = spare s /\ (forall k, isdirty s' k <-> isdirty s k /\ k <> t) /\
    same_block (view s' t) m /\ (forall k, k <> t -> same_block (view s' k) (view s k))) s.
Proof.
  intros I HH Ht. pose proof HH as ((Hb & D1 & En & Hv) & Hl). pose proof (lookup_lt_Some _ _ _ Hb) as Hi.
  pose proof (bi_bufs _ I p b Hb) as O. bstep. eapply wp_setb; [exact Hb|].
  destruct (put_data s p t b (f (b_data b)) I HH) as (I1 & H1 & V1 & V1').
  eapply wp_mono; [by apply (bwrite_spec _ p t)|]. intros _ s' (I' & H' & HS & V'). cbn zeta.
  assert (HB : bufs s' = <[p := set_flags 2 (set_data (f (b_data b)) b)]> (bufs s)).
  { rewrite HS. cbn. by rewrite list_insert_insert_eq. }
  assert (Hnu : forall c, b_refcnt c = b_refcnt b -> is_unused c = false).
  { intros c Hc. unfold is_unused. rewrite Hc. destruct (bo_held _ _ O Hl) as [-> _]. done. }
  split_and!; try done; try (by rewrite HS).
  - pose proof (count_insert is_unused (bufs s) p b (set_flags 2 (set_data (f (b_data b)) b)) Hb) as HI.
    rewrite <- HB, !Hnu in HI by done. change (Nat.b2n false) with 0%nat in HI. lia.
  - intros k. split.
    + intros (j & c & Hc & Dc & Ec & Hd). rewrite HB in Hc.
      apply list_lookup_insert_Some in Hc as [(<- & <- & _)|(Hj & Hc)]; [done|].
      split; [by exists j, c|]. intros ->. apply Hj. symmetry. apply (bi_uniq _ I j p c b); congruence.
    + intros [(j & c & Hc & Dc & Ec & Hd) Hk]. exists j, c. rewrite HB. destruct (decide (j = p)) as [->|Hj].
      * rewrite Hb in Hc. injection Hc as <-. congruence.
      * by rewrite list_lookup_insert_ne.
  - rewrite (V' t). by rewrite V1.
  - intros k Hk. rewrite (V' k). by apply V1'.
Qed.

(** What one such step leaves when the buffers are released. *)
Record moved (s s' : bcst) (t : Z) (m : memory) : Prop := mkmoved {
  mv_inv : binv s';
  mv_idle : all_idle s';
  mv_disk : disk s' = disk_put t m (disk s);
  mv_writes : writes s' = (t, m) :: writes s;
  mv_me : me s' = me s;
  mv_spare : (spare s <= spare s')%nat;
  mv_dirty : forall k, isdirty s' k <-> isdirty s k /\ k <> t;
  mv_view : same_block (view s' t) m;
  mv_views : forall k, k <> t -> same_block (view s' k) (view s k);
}.

(** A released buffer and the others. *)
Lemma idle_insert (s s' : bcst) (i : nat) (b : buf) (P : nat -> Prop) :
  (forall j c, bufs s !! j = Some c -> ~ P j -> is_locked c = false) ->
  bufs s' = <[i := free_buf b]> (bufs s) ->
  forall j c, bufs s' !! j = Some c -> ~ (P j /\ j <> i) -> is_locked c = false.
Proof.
  intros H HB j c Hc HP. rewrite HB in Hc. apply list_lookup_insert_Some in Hc as [(<- & <- & _)|(Hj & Hc)]; [done|].
  apply (H j c Hc). naive_solver.
Qed.
Lemma clean_synced (s : bcst) (n : Z) :
  binv s -> unheld s n -> ~ isdirty s n -> same_block (view s n) (disk s n).
Proof.
  intros I HU Hd. destruct (caches_dec s n) as [(i & b & HC)|HN]; [|by rewrite view_disk].
  rewrite (view_cached s n i b I HC). destruct HC as (Hb & D1 & En & Hv). rewrite <- En.
  apply (bo_sync _ _ (bi_bufs _ I i b Hb)); try done; [by apply (HU i b)|].
  destruct (dirty b) eqn:E; [|done]. destruct Hd. by exists i, b.
Qed.

(** Two states that differ in which buffers are taken. *)
Record alike (s s' : bcst) : Prop := mkalike {
  al_inv : binv s';
  al_disk : disk s' = disk s;
  al_writes : writes s' = writes s;
  al_me : me s' = me s;
  al_dirty : forall k, isdirty s' k <-> isdirty s k;
  al_views : forall k, same_block (view s' k) (view s k);
}.

Lemma alike_trans (s1 s2 s3 : bcst) : alike s1 s2 -> alike s2 s3 -> alike s1 s3.
Proof.
  intros [] []. split; try done; try congruence; [naive_solver|].
  intros k. by rewrite (al_views1 k).
Qed.

Lemma read_alike (s : bcst) (n : Z) :
  binv s -> unheld s n -> 0 <= n < disksize ->
  (0 < spare s)%nat \/ isdirty s n ->
  wp (bread 1 n) (fun i s' => exists b u, alike s s' /\ holds_block s' i n b /\ bufs s' = <[i := b]> (bufs s) /\
    spare s = (spare s' + Nat.b2n u)%nat /\ (u = true -> dirty b = false) /\
    same_block (b_data b) (view s n) /\ (dirty b = true \/ same_block (b_data b) (disk s n)) /\
    (exists b0, bufs s !! i = Some b0 /\ is_locked b0 = false)) s.
Proof.
  intros I HU Hn HR. eapply wp_mono.
  { apply bread_spec; [done..|]. destruct HR as [HR|(i & b & Hb & D1 & En & _)]; [by left; apply spare_room|].
    right. by exists i, b. }
  intros i s' (b & HP). destruct (read_counts s s' n i b I HP) as ((u & Hs & Hu) & Hd).
  destruct HP as [I' HH (b0 & Hb0 & Hl0 & _) HB (Ed & Ew & _ & Em) HD HV _].
  exists b, u. split_and!; try done; [|by exists b0].
  destruct (dirty b) eqn:E; [by left|right]. rewrite HD. apply clean_synced; try done.
  intros Hdn. apply Hd in Hdn as (j & c & Hc & Dc & Ec & Hdc). destruct HH as ((Hb & D1 & En & _) & _).
  assert (j = i) as -> by (apply (bi_uniq _ I' j i c b); congruence). congruence.
Qed.

Lemma release_alike (s : bcst) (i : nat) (n : Z) (b : buf) :
  binv s -> holds_block s i n b -> dirty b = true \/ same_block (b_data b) (disk s n) ->
  wp (brelse i) (fun _ s' => alike s s' /\ bufs s' = <[i := free_buf b]> (bufs s) /\
    spare s' = (spare s + Nat.b2n (negb (dirty b)))%nat) s.
Proof.
  intros I HH HS. eapply wp_mono; [by apply (brelse_spec s i n b)|].
  intros _ s' (I' & HB & Ed & Ew & Em & _ & HV). destruct (release_counts s s' n i b I HH HB). by split_and!.
Qed.

(** ** Copying a block *)

(** Both buffers are held by the process, and no other. *)
Record two_held (s s' : bcst) (x y : Z) (i j : nat) (bx by' : buf) : Prop := mktwo {
  th_alike : alike s s';
  th_x : holds_block s' i x bx;
  th_y : holds_block s' j y by';
  th_ne : i <> j;
  th_spare : (spare s <= spare s' + Nat.b2n (negb (dirty bx)) + Nat.b2n (negb (dirty by')))%nat;
  th_dx : same_block (b_data bx) (view s x);
  th_dy : same_block (b_data by') (view s y);
  th_sx : dirty bx = true \/ same_block (b_data bx) (disk s x);
  th_sy : dirty by' = true \/ same_block (b_data by') (disk s y);
  th_idle : forall k c, bufs s' !! k = Some c -> ~ (k = i \/ k = j) -> is_locked c = false;
}.

Lemma read_two (s : bcst) (x y : Z) {A} (k : nat -> nat -> MB A) Q :
  binv s -> all_idle s -> 0 <= x < disksize -> 0 <= y < disksize -> x <> y ->
  (0 < spare s)%nat -> (1 < spare s)%nat \/ isdirty s y ->
  (forall i j bx by' s', two_held s s' x y i j bx by' -> wp (k i j) Q s') ->
  wp (let! i := bread 1 x in let! j := bread 1 y in k i j) Q s.
Proof.
  intros I HI Hx Hy Hxy H1 H2 HK. bstep.
  eapply wp_mono; [apply read_alike; try done; [by apply idle_unheld|by left]|].
  intros i s1 (bx & u & A1 & H1x & B1 & S1 & U1 & D1 & Y1 & (b0 & Hb0 & _)). bstep.
  assert (HI1 : forall k c, bufs s1 !! k = Some c -> k <> i -> is_locked c = false).
  { intros m c Hc Hm. rewrite B1, list_lookup_insert_ne in Hc by done. by apply (HI m c). }
  eapply wp_mono.
  { apply (read_alike s1 y); [apply A1| |done|].
    - intros m c Hc Dc Ec. apply (HI1 m c Hc). intros ->. destruct H1x as ((Hb & _ & En & _) & _). congruence.
    - destruct H2 as [H2|H2]; [left; destruct u; cbn in S1; lia|right; by apply A1]. }
  intros j s2 (by' & v & A2 & H2y & B2 & S2 & U2 & D2 & Y2 & (c0 & Hc0 & Hl0)).
  assert (Hij : i <> j).
  { intros <-. destruct H1x as ((Hb & _) & Hl). congruence. }
  apply (HK i j bx by'). split; [by eapply alike_trans| |done|done| |done| |done| |].
  - by eapply holds_other.
  - destruct u, v; rewrite ?U1, ?U2 by done; cbn in *; lia.
  - rewrite D2. apply A1.
  - by rewrite <- (al_disk _ _ A1).
  - intros m c Hc Hm. rewrite B2, list_lookup_insert_ne in Hc by naive_solver. apply (HI1 m c Hc). naive_solver.
Qed.
Lemma two_sym (s s' : bcst) (x y : Z) (i j : nat) (bx by' : buf) :
  two_held s s' x y i j bx by' -> two_held s s' y x j i by' bx.
Proof. intros []. split; try done; [lia|]. intros k c Hc Hk. apply (th_idle0 k c Hc). tauto. Qed.

(** The source is released first, as both callers do. *)
Lemma copy_two (s s' : bcst) (t r : Z) (p q : nat) (bt br : buf) (k : MB unit) Q :
  two_held s s' t r p q bt br -> t < disksize -> t <> r ->
  (forall s'' m, moved s s'' t m -> same_block m (view s r) -> wp k Q s'') ->
  wp (copy_block p q ;;; brelse q ;;; brelse p ;;; k) Q s'.
Proof.
  intros [A Ht Hr Hne HS Dt Dr Yt Yr HI] Hd Htr HK. bstep. unfold copy_block. bstep.
  eapply wp_getb; [apply Hr|]. eapply wp_mono; [by apply (put_write s' p t bt (fun m => bcopy m (b_data br) BSIZE)); [apply A|..]|].
  cbn beta zeta. intros _ s1 (I1 & H1 & B1 & E1 & W1 & M1 & C1 & X1 & V1 & V1').
  set (m := bcopy (b_data bt) (b_data br) BSIZE) in *. pose proof (same_bcopy (b_data bt) (b_data br)) as Hm. fold m in Hm.
  assert (Hr1 : holds_block s1 q r br) by (by eapply holds_other).
  bstep. eapply wp_mono; [apply (release_alike s1 q r br); try done|].
  { destruct Yr as [|Yr]; [by left|right]. rewrite E1. unfold disk_put. destruct (Z.eqb_spec r t); [lia|].
    by rewrite (al_disk _ _ A). }
  intros _ s2 (A2 & B2 & C2). bstep.
  assert (H2 : holds_block s2 p t (set_flags 2 (set_data m bt))) by (by eapply holds_other).
  eapply wp_mono; [apply (release_alike s2 p t (set_flags 2 (set_data m bt))); [apply A2|done|]|].
  { right. rewrite (al_disk _ _ A2), E1. unfold disk_put. rewrite Z.eqb_refl. symmetry. apply same_bcopy. }
  intros _ s3 (A3 & B3 & C3). apply (HK s3 m); [|by rewrite Hm].
  pose proof (alike_trans _ _ _ A2 A3) as A13. split.
  - apply A3.
  - intros j c Hc. rewrite B3 in Hc. apply list_lookup_insert_Some in Hc as [(_ & <- & _)|(Hjp & Hc)]; [done|].
    rewrite B2 in Hc. apply list_lookup_insert_Some in Hc as [(_ & <- & _)|(Hjq & Hc)]; [done|].
    rewrite B1, list_lookup_insert_ne in Hc by done. apply (HI j c Hc). naive_solver.
  - by rewrite (al_disk _ _ A13), E1, (al_disk _ _ A).
  - by rewrite (al_writes _ _ A13), W1, (al_writes _ _ A).
  - by rewrite (al_me _ _ A13), M1, (al_me _ _ A).
  - change (dirty (set_flags 2 (set_data m bt))) with false in C3. cbn in C3. destruct (dirty bt), (dirty br); cbn in HS, C2; lia.
  - intros k'. rewrite (al_dirty _ _ A13), X1, (al_dirty _ _ A). done.
  - by rewrite (al_views _ _ A13).
  - intros k' Hk. rewrite (al_views _ _ A13), (V1' k' Hk). apply A.
Qed.

(** Reading one block, changing it and writing it to disk. *)
Lemma update_block (s : bcst) (t : Z) (f : memory -> memory) :
  binv s -> all_idle s -> 0 <= t < disksize -> (0 < spare s)%nat ->
  wp (let! i := bread 1 t in setb i (fun b => set_data (f (b_data b)) b) ;;; bwrite i ;;; brelse i)
    (fun _ s' => exists m0, moved s s' t (f m0) /\ same_block m0 (view s t)) s.
Proof.
  intros I HI Ht HS. bstep. eapply wp_mono; [apply read_alike; try done; [by apply idle_unheld|by left]|].
  intros i s1 (b & u & A & H1 & B1 & S1 & U1 & D1 & Y1 & _). bstep.
  eapply wp_mono; [exact (wp_seq _ _ _ _ (put_write s1 i t b f (al_inv _ _ A) H1 (proj2 Ht)))|].
  cbn beta zeta. intros _ s1' HW. bstep. eapply wp_mono; [exact HW|].
  cbn beta zeta. intros _ s2 (I2 & H2 & B2 & E2 & W2 & M2 & C2 & X2 & V2 & V2').
  eapply wp_mono; [apply (release_alike s2 i t _ I2 H2)|].
  { right. rewrite E2. unfold disk_put. rewrite Z.eqb_refl. symmetry. apply same_bcopy. }
  intros _ s3 (A3 & B3 & C3). exists (b_data b). split; [|done]. split.
  - apply A3.
  - intros j c Hc. rewrite B3 in Hc. apply list_lookup_insert_Some in Hc as [(_ & <- & _)|(Hjp & Hc)]; [done|].
    rewrite B2, B1, !list_lookup_insert_ne in Hc by done. by apply (HI j c).
  - by rewrite (al_disk _ _ A3), E2, (al_disk _ _ A).
  - by rewrite (al_writes _ _ A3), W2, (al_writes _ _ A).
  - by rewrite (al_me _ _ A3), M2, (al_me _ _ A).
  - cbn in C3. destruct u; cbn in S1; lia.
  - intros k'. rewrite (al_dirty _ _ A3), X2, (al_dirty _ _ A). done.
  - by rewrite (al_views _ _ A3).
  - intros k' Hk. rewrite (al_views _ _ A3), (V2' k' Hk). apply A.
Qed.
End Steps.
