(* ===== verification/LogLoops.v ===== *)
(** * LogLoops: the disk writes of the log

    The header block as an encoding of the list of block numbers, sequences of
    disk writes, and the specifications of the two loops of [log.c] and of the
    routines that read and write the header. *)
From stdpp Require Import base gmap list numbers strings.
From Stdlib Require Import ZArith Lia ZifyBool.
From S2P Require Import Prelude Machine LockThms Bio BioSpec Log LogSpec.

(** ** The header *)

Definition word (x : Z) : Prop := 0 <= x < 4294967296.

Lemma store_words_below (l : list Z) (m : memory) (a b : Z) :
  b + 4 <= a -> load32 (store_words m a l) b = load32 m b.
Proof.
  revert m a. induction l as [|x l IH]; intros m a Hb; cbn; [done|].
  rewrite IH by lia. apply load32_store32_ne. lia.
Qed.

Lemma load_store_words (l : list Z) (m : memory) (a : Z) :
  Forall word l -> load_words (store_words m a l) a (length l) = l.
Proof.
  revert m a. induction l as [|x l IH]; intros m a Hl; cbn; [done|]. apply Forall_cons in Hl as [Hx Hl].
  rewrite store_words_below by lia. rewrite load32_store32_eq by done. by rewrite IH.
Qed.

Lemma dec_enc_head (m : memory) (l : list Z) :
  Forall word l -> Z.of_nat (length l) < 2147483648 -> dec_head (enc_head m l) = l.
Proof.
  intros Hl Hn. unfold dec_head, enc_head. rewrite store_words_below by lia.
  rewrite load32_store32_eq by lia. rewrite i32_id by lia. rewrite Nat2Z.id. by apply load_store_words.
Qed.

Lemma load_words_same (n : nat) (m m' : memory) (a : Z) :
  same_block m m' -> 0 <= a -> a + 4 * Z.of_nat n <= BSIZE -> load_words m a n = load_words m' a n.
Proof.
  intros H. revert a. induction n as [|n IH]; intros a Ha Hn; cbn; [done|].
  rewrite IH by lia. f_equal. apply load32_same. intros o Ho. apply H. lia.
Qed.

Lemma dec_head_same (m m' : memory) :
  same_block m m' -> Z.of_nat (length (dec_head m)) <= 127 -> dec_head m' = dec_head m.
Proof.
  assert (HL : forall k a n, length (load_words k a n) = n).
  { intros k a n. revert a. induction n; intros; cbn; auto. }
  intros H Hn. unfold dec_head in *. rewrite HL in Hn.
  assert (load32 m' 0 = load32 m 0) as ->.
  { apply load32_same. intros o Ho. symmetry. apply H. unfold BSIZE. lia. }
  symmetry. apply load_words_same; [done|lia|unfold BSIZE; lia].
Qed.

(** ** Sequences of disk writes *)

(** The disk after the writes [ws], the first one first. *)
Definition replay (ws : list (Z * memory)) (d : Z -> memory) : Z -> memory :=
  foldl (fun d w => disk_put w.1 w.2 d) d ws.

Lemma replay_app (ws ws' : list (Z * memory)) (d : Z -> memory) : replay (ws ++ ws') d = replay ws' (replay ws d).
Proof. apply foldl_app. Qed.

Lemma replay_other (ws : list (Z * memory)) (d : Z -> memory) (k : Z) :
  k ∉ ws.*1 -> replay ws d k = d k.
Proof.
  revert d. induction ws as [|[t m] ws IH]; intros d Hk; cbn; [done|]. cbn in Hk. apply not_elem_of_cons in Hk as [Hk Hks].
  change (replay ws (disk_put t m d) k = d k). rewrite IH by done. unfold disk_put. by destruct (Z.eqb_spec k t).
Qed.

Lemma replay_in (ws : list (Z * memory)) (d : Z -> memory) (t : Z) (m : memory) :
  NoDup ws.*1 -> (t, m) ∈ ws -> same_block (replay ws d t) m.
Proof.
  revert d. induction ws as [|[t' m'] ws IH]; intros d HN Hw; [by apply not_elem_of_nil in Hw|].
  cbn in HN. apply NoDup_cons in HN as [HN HNs]. apply elem_of_cons in Hw as [[= -> ->]|Hw].
  - change (same_block (replay ws (disk_put t' m' d) t') m'). rewrite replay_other by done. unfold disk_put.
    rewrite Z.eqb_refl. apply same_bcopy.
  - by apply (IH (disk_put t' m' d)).
Qed.

Record moves (s s' : bcst) (ws : list (Z * memory)) : Prop := mkmoves {
  ms_inv : binv s';
  ms_idle : all_idle s';
  ms_disk : disk s' = replay ws (disk s);
  ms_writes : writes s' = rev ws ++ writes s;
  ms_me : me s' = me s;
  ms_spare : (spare s <= spare s')%nat;
  ms_dirty : forall k, isdirty s' k <-> isdirty s k /\ k ∉ ws.*1;
  ms_view : NoDup ws.*1 -> forall t m, (t, m) ∈ ws -> same_block (view s' t) m;
  ms_views : forall k, k ∉ ws.*1 -> same_block (view s' k) (view s k);
}.

Lemma moves_nil (s : bcst) : binv s -> all_idle s -> moves s s [].
Proof.
  intros I HI. split; try done.
  - intros k. cbn. pose proof (not_elem_of_nil k). tauto.
  - by intros _ t m ?%not_elem_of_nil.
Qed.

Lemma moves_one (s s' : bcst) (t : Z) (m : memory) : moved s s' t m -> moves s s' [(t, m)].
Proof.
  intros [I HI Ed Ew Em Es Ex Hv Hvs]. split; try done; cbn [fmap list_fmap fst].
  - intros k. rewrite Ex, list_elem_of_singleton. done.
  - intros _ t' m' H. apply list_elem_of_singleton in H as [= -> ->]. done.
  - intros k Hk. apply Hvs. by rewrite list_elem_of_singleton in Hk.
Qed.

Lemma moves_app (s s1 s2 : bcst) (w1 w2 : list (Z * memory)) :
  moves s s1 w1 -> moves s1 s2 w2 -> moves s s2 (w1 ++ w2).
Proof.
  intros [] []. split; try done; rewrite ?fmap_app.
  - by rewrite ms_disk1, ms_disk0, replay_app.
  - by rewrite ms_writes1, ms_writes0, rev_app_distr, app_assoc.
  - congruence.
  - lia.
  - intros k. rewrite ms_dirty1, ms_dirty0, not_elem_of_app. tauto.
  - intros HN t m Hw. apply NoDup_app in HN as (N1 & N2 & N3). apply elem_of_app in Hw as [Hw|Hw]; [|by apply ms_view1].
    rewrite ms_views1; [by apply ms_view0|]. apply N2. by apply (list_elem_of_fmap_2 fst _ (t, m)).
  - intros k Hk. apply not_elem_of_app in Hk as [H1 H2]. by rewrite ms_views1, ms_views0.
Qed.

(** The writes [ws] put the contents, in [s], of the blocks [srcs] on the blocks [tgts]. *)
Definition copies (s : bcst) (ws : list (Z * memory)) (tgts srcs : list Z) : Prop :=
  ws.*1 = tgts /\ Forall2 (fun w r => same_block w.2 (view s r)) ws srcs.

Lemma copies_cons (s s1 : bcst) (t r : Z) (m : memory) (ws : list (Z * memory)) (tgts srcs : list Z) :
  moved s s1 t m -> same_block m (view s r) -> t ∉ srcs ->
  copies s1 ws tgts srcs -> copies s ((t, m) :: ws) (t :: tgts) (r :: srcs).
Proof.
  intros HM Hm Ht [H1 H2]. split; [cbn; by rewrite H1|]. constructor; [done|].
  clear H1. induction H2 as [|w k ws srcs Hw _ IH]; constructor; apply not_elem_of_cons in Ht as [Ht Hts]; [|by apply IH].
  rewrite Hw. by apply (mv_views _ _ _ _ HM).
Qed.

Section Loops.
Context `{D : Disk} (start : Z).
Implicit Types (s : bcst) (l : list Z).

(** Block numbers of the log area. *)
Definition slots (tail : Z) (n : nat) : list Z := seqZ (start + tail + 1) (Z.of_nat n).

Lemma slots_cons (tail : Z) (n : nat) : slots tail (S n) = (start + tail + 1) :: slots (tail + 1) n.
Proof. unfold slots. rewrite seqZ_cons by lia. f_equal. f_equal; lia. Qed.

Lemma elem_slots (tail : Z) (n : nat) (k : Z) : k ∈ slots tail n <-> start + tail + 1 <= k < start + tail + 1 + Z.of_nat n.
Proof. unfold slots. rewrite elem_of_seqZ. lia. Qed.

(** The blocks of a transaction: distinct, on the disk, and away from the [n] slots. *)
Record batch (tail : Z) (l : list Z) : Prop := mkbatch {
  ba_nodup : NoDup l;
  ba_disk : forall n, n ∈ l -> 0 <= n < disksize;
  ba_home : forall n, n ∈ l -> n ∉ slots tail (length l);
  ba_tail : 0 <= start + tail + 1;
  ba_slots : start + tail + 1 + Z.of_nat (length l) <= disksize;
}.

Lemma batch_tail (tail n : Z) (l : list Z) : batch tail (n :: l) -> batch (tail + 1) l.
Proof.
  intros [HN HD HH HT HS]. apply NoDup_cons in HN as [_ HN]. cbn [length] in *. rewrite slots_cons in HH.
  split; [done|intros k Hk; apply HD; by right|intros k Hk|lia|lia].
  assert (Hk' : k ∉ (start + tail + 1) :: slots (tail + 1) (length l)) by (apply HH; by right).
  by apply not_elem_of_cons in Hk' as [_ ?].
Qed.

(** [write_log]'s loop writes the cached blocks to the slots. *)
Lemma write_log_loop_spec (l : list Z) (tail : Z) (s : bcst) :
  binv s -> all_idle s -> (0 < spare s)%nat -> batch tail l -> (forall n, n ∈ l -> isdirty s n) ->
  wp (write_log_loop 1 start tail l) (fun _ s' => exists ws, moves s s' ws /\ copies s ws (slots tail (length l)) l) s.
Proof.
  revert tail s. induction l as [|n l IH]; intros tail s I HI HS HB HD.
  - apply wp_ret. exists []. split; [by apply moves_nil|]. by split.
  - cbn [write_log_loop]. pose proof (ba_disk _ _ HB n ltac:(left)) as Hn.
    pose proof (ba_home _ _ HB n ltac:(left)) as Hh. pose proof (ba_tail _ _ HB) as Ht. pose proof (ba_slots _ _ HB) as Hsl.
    cbn [length] in *. rewrite elem_slots in Hh.
    apply (read_two s (start + tail + 1) n); try done; [lia|lia|right; apply HD; left|].
    intros i j bx by' s1 H2. eapply (copy_two s s1); [exact H2|lia|lia|]. intros s2 m HM Hm.
    assert (HL : start + tail + 1 ∉ l).
    { intros Hin. apply (ba_home _ _ HB (start + tail + 1)); [by right|]. cbn [length]. rewrite elem_slots. lia. }
    eapply wp_mono; [apply (IH (tail + 1) s2)|].
    + apply HM.
    + apply HM.
    + pose proof (mv_spare _ _ _ _ HM). lia.
    + by eapply batch_tail.
    + intros k Hk. apply (mv_dirty _ _ _ _ HM). split; [apply HD; by right|]. intros ->. done.
    + intros _ s' (ws & HMs & HC). exists ((start + tail + 1, m) :: ws). split.
      * apply (moves_app s s2 s' [_] ws); [by apply moves_one|done].
      * rewrite slots_cons. by eapply copies_cons.
Qed.

(** [install_trans]'s loop writes the slots to the blocks. *)
Lemma install_loop_spec (l : list Z) (tail : Z) (s : bcst) :
  binv s -> all_idle s -> (0 < spare s)%nat -> (1 < spare s)%nat \/ (forall n, n ∈ l -> isdirty s n) ->
  batch tail l ->
  wp (install_loop 1 start tail l) (fun _ s' => exists ws, moves s s' ws /\ copies s ws l (slots tail (length l))) s.
Proof.
  revert tail s. induction l as [|n l IH]; intros tail s I HI HS HD HB.
  - apply wp_ret. exists []. split; [by apply moves_nil|]. by split.
  - cbn [install_loop]. pose proof (ba_disk _ _ HB n ltac:(left)) as Hn.
    pose proof (ba_home _ _ HB n ltac:(left)) as Hh. pose proof (ba_tail _ _ HB) as Ht. pose proof (ba_slots _ _ HB) as Hsl.
    cbn [length] in *. rewrite elem_slots in Hh.
    apply (read_two s (start + tail + 1) n); try done; [lia|lia|destruct HD as [|HD]; [by left|right; apply HD; left]|].
    intros i j bx by' s1 H2. eapply (copy_two s s1); [apply two_sym, H2|lia|lia|]. intros s2 m HM Hm.
    pose proof (mv_spare _ _ _ _ HM) as Hsp. pose proof (ba_nodup _ _ HB) as HN. apply NoDup_cons in HN as [HN _].
    eapply wp_mono; [apply (IH (tail + 1) s2)|].
    + apply HM.
    + apply HM.
    + lia.
    + destruct HD as [|HD]; [left; lia|right]. intros k Hk. apply (mv_dirty _ _ _ _ HM).
      split; [apply HD; by right|]. by intros ->.
    + by eapply batch_tail.
    + intros _ s' (ws & HMs & HC). exists ((n, m) :: ws). split.
      * apply (moves_app s s2 s' [_] ws); [by apply moves_one|done].
      * rewrite slots_cons. eapply copies_cons; try done. rewrite elem_slots. lia.
Qed.
End Loops.
