(* ===== verification/LogThms.v ===== *)
(** * LogThms: atomic commits

    [commit] seen as a sequence of disk writes, and what [recover_from_log]
    makes of a disk on which only a prefix of them has been done. *)
From stdpp Require Import base gmap list numbers strings.
From Stdlib Require Import ZArith Lia ZifyBool.
From S2P Require Import Prelude Machine LockThms Bio BioSpec Log LogSpec LogLoops.

Section Thms.
Context `{D : Disk}.
Implicit Types (s : lgst).

(** ** The invariant of the log between system calls *)

(** A block outside the log area. *)
Definition home (s : lgst) (b : Z) : Prop := ~ (l_start s <= b < l_start s + l_size s).

(** The geometry of the log area. *)
Record placed (s : lgst) : Prop := mkplaced {
  pl_dev : l_dev s = 1;
  pl_start : 0 <= l_start s;
  pl_size : 0 < l_size s <= LOGSIZE;
  pl_end : l_start s + l_size s <= disksize;
  pl_disk : disksize <= 2147483648;
}.

(** Block numbers that a transaction may hold. *)
Record logged (s : lgst) (l : list Z) : Prop := mklogged {
  lo_nodup : NoDup l;
  lo_disk : forall n, n ∈ l -> 0 <= n < disksize;
  lo_home : forall n, n ∈ l -> home s n;
  lo_fits : Z.of_nat (length l) < l_size s;
}.

(** The dirty buffers are those of the transaction, and the header on disk is empty. *)
Record loginv (s : lgst) : Prop := mkloginv {
  lg_bc : binv (lbc s);
  lg_placed : placed s;
  lg_lock : l_lock s = false;
  lg_logged : logged s (l_blocks s);
  lg_dirty : forall n, isdirty (lbc s) n <-> n ∈ l_blocks s;
  lg_head : dec_head (disk (lbc s) (l_start s)) = [];
}.

Lemma placed_same (s s' : lgst) : l_dev s' = l_dev s -> l_start s' = l_start s -> l_size s' = l_size s -> placed s -> placed s'.
Proof. intros E1 E2 E3 []. split; congruence || lia. Qed.

Lemma logged_same (s s' : lgst) (l : list Z) : l_start s' = l_start s -> l_size s' = l_size s -> logged s l -> logged s' l.
Proof. intros E1 E2 [N DD HH F]. split; try done; [|lia]. intros n Hn. unfold home. rewrite E1, E2. by apply HH. Qed.

Lemma logged_batch (s : lgst) (l : list Z) : placed s -> logged s l -> batch (l_start s) 0 l.
Proof.
  intros [_ HS HZ HE _] [HN HD HH HF]. split; try done; try lia.
  intros n Hn. rewrite elem_slots. specialize (HH n Hn). unfold home in HH. lia.
Qed.

Lemma logged_words (s : lgst) (l : list Z) : placed s -> logged s l -> Forall word l.
Proof.
  intros [_ _ _ _ HM] [_ HD _ _]. apply Forall_forall. intros n Hn. specialize (HD n Hn). unfold word. lia.
Qed.

(** ** Header *)

Lemma write_head_eq (s : lgst) :
  write_head s = onbc (let! i := bread (l_dev s) (l_start s) in
                       setb i (fun b => set_data (enc_head (b_data b) (l_blocks s)) b) ;;; bwrite i ;;; brelse i) s.
Proof.
  unfold write_head, onbc, zoom, bind, gets. destruct (bread (l_dev s) (l_start s) (lbc s)) as [i s1| | | |]; try done.
  cbn [lbc set_lbc l_blocks setb modify]. by destruct (bwrite i _) as [[] s2| | | |].
Qed.

Lemma write_head_keeps (s : lgst) :
  binv (lbc s) -> all_idle (lbc s) -> (0 < spare (lbc s))%nat -> placed s ->
  wp write_head (fun _ s' => exists m0 c, s' = set_lbc c s /\
    moves (lbc s) c [(l_start s, enc_head m0 (l_blocks s))] /\ same_block m0 (view (lbc s) (l_start s))) s.
Proof.
  intros I HI HS [Hd H0 Hz He _]. unfold wp. rewrite write_head_eq, Hd.
  assert (Hr : 0 <= l_start s < disksize) by lia.
  pose proof (update_block (lbc s) (l_start s) (fun m => enc_head m (l_blocks s)) I HI Hr HS) as H.
  unfold wp in H. unfold onbc, zoom. destruct (bind _ _ (lbc s)) as [[] c| | | |]; try done.
  destruct H as (m0 & HM & HS0). exists m0, c. split; [done|]. split; [by apply moves_one|done].
Qed.

Lemma write_head_spec (s : lgst) :
  binv (lbc s) -> all_idle (lbc s) -> (0 < spare (lbc s))%nat -> placed s ->
  wp write_head (fun _ s' => exists m0 c, s' = set_lbc c s /\
    moves (lbc s) c [(l_start s, enc_head m0 (l_blocks s))]) s.
Proof. intros. eapply wp_mono; [by apply write_head_keeps|]. intros _ s' (m0 & c & E & HM & _). by exists m0, c. Qed.

Lemma read_head_spec (s : lgst) :
  binv (lbc s) -> all_idle (lbc s) -> (0 < spare (lbc s))%nat -> placed s ->
  Z.of_nat (length (dec_head (view (lbc s) (l_start s)))) <= LOGSIZE ->
  wp read_head (fun _ s' => exists c, s' = set_lbc c (set_blocks (dec_head (view (lbc s) (l_start s))) s) /\
    moves (lbc s) c []) s.
Proof.
  intros I HI HS [Hd H0 Hz He _] Hlen. unfold read_head. repeat (wp_step; cbn beta).
  apply wp_zoom. rewrite Hd. eapply wp_mono; [apply read_alike; try done; [by apply idle_unheld|lia|by left]|].
  intros i s1 (b & u & A1 & H1 & B1 & S1 & U1 & D1 & Y1 & _). wp_step. apply wp_zoom.
  assert (EL : dec_head (b_data b) = dec_head (view (lbc s) (l_start s))).
  { apply dec_head_same; [by symmetry|]. unfold LOGSIZE, MAXOPBLOCKS in Hlen. lia. }
  eapply wp_getb; [apply H1|]. cbn zeta. rewrite EL. wp_step; [zbool; lia|].
  repeat (wp_step; cbn beta). apply wp_zoom. cbn [lbc set_lbc set_blocks].
  eapply wp_mono; [apply (release_alike s1 i (l_start s) b); [apply A1|done|by rewrite (al_disk _ _ A1)]|].
  intros _ c (A2 & B2 & S2). exists c. pose proof (alike_trans _ _ _ A1 A2) as A.
  split; [done|]. split; try apply A.
  - intros j x Hx. rewrite B2 in Hx. apply list_lookup_insert_Some in Hx as [(_ & <- & _)|(Hj & Hx)]; [done|].
    rewrite B1, list_lookup_insert_ne in Hx by done. by apply (HI j x).
  - destruct u; rewrite ?U1 in S2 by done; cbn in S1, S2; lia.
  - intros k. rewrite (al_dirty _ _ A). pose proof (not_elem_of_nil k). cbn. tauto.
  - by intros _ t m ?%not_elem_of_nil.
  - intros k _. apply A.
Qed.
Lemma write_log_spec (s : lgst) :
  binv (lbc s) -> all_idle (lbc s) -> (0 < spare (lbc s))%nat -> placed s -> logged s (l_blocks s) ->
  (forall n, n ∈ l_blocks s -> isdirty (lbc s) n) ->
  wp write_log (fun _ s' => exists c ws, s' = set_lbc c s /\ moves (lbc s) c ws /\
    copies (lbc s) ws (slots (l_start s) 0 (length (l_blocks s))) (l_blocks s)) s.
Proof.
  intros I HI HS P L Hd. pose proof (logged_batch s _ P L) as HB.
  change (wp (onbc (write_log_loop (l_dev s) (l_start s) 0 (l_blocks s))) (fun _ s' => exists c ws, s' = set_lbc c s /\ moves (lbc s) c ws /\
    copies (lbc s) ws (slots (l_start s) 0 (length (l_blocks s))) (l_blocks s)) s).
  apply wp_zoom. rewrite (pl_dev _ P). eapply wp_mono; [by apply write_log_loop_spec|].
  intros _ c (ws & HM & HC). by exists c, ws.
Qed.

Lemma install_trans_spec (s : lgst) :
  binv (lbc s) -> all_idle (lbc s) -> (0 < spare (lbc s))%nat -> placed s -> logged s (l_blocks s) ->
  (1 < spare (lbc s))%nat \/ (forall n, n ∈ l_blocks s -> isdirty (lbc s) n) ->
  wp install_trans (fun _ s' => exists c ws, s' = set_lbc c s /\ moves (lbc s) c ws /\
    copies (lbc s) ws (l_blocks s) (slots (l_start s) 0 (length (l_blocks s)))) s.
Proof.
  intros I HI HS P L Hd. pose proof (logged_batch s _ P L) as HB.
  change (wp (onbc (install_loop (l_dev s) (l_start s) 0 (l_blocks s))) (fun _ s' => exists c ws, s' = set_lbc c s /\ moves (lbc s) c ws /\
    copies (lbc s) ws (l_blocks s) (slots (l_start s) 0 (length (l_blocks s)))) s).
  apply wp_zoom. rewrite (pl_dev _ P). eapply wp_mono; [by apply install_loop_spec|].
  intros _ c (ws & HM & HC). by exists c, ws.
Qed.

(** ** The writes of [commit] *)

(** Installing what was logged installs the contents the transaction gave the blocks. *)
Lemma copies_back (s s1 s2 : bcst) (w1 wh w3 : list (Z * memory)) (l ts : list Z) :
  copies s w1 ts l -> NoDup ts -> moves s s1 w1 -> moves s1 s2 wh -> (forall t, t ∈ ts -> t ∉ wh.*1) ->
  copies s2 w3 l ts -> copies s w3 l l.
Proof.
  intros [E1 F1] HN M1 M2 HH [E3 F3]. split; [done|].
  apply Forall2_same_length_lookup_2.
  { rewrite <- E3. by rewrite length_fmap. }
  intros j w n Hw Hn. destruct (Forall2_lookup_r _ _ _ _ _ F1 Hn) as ([t m] & Hw1 & Hm).
  assert (Ht : ts !! j = Some t) by (rewrite <- E1, list_lookup_fmap, Hw1; done).
  pose proof (Forall2_lookup_lr _ _ _ _ _ _ F3 Hw Ht) as Hv. cbn beta in Hv. cbn [snd] in Hm.
  rewrite Hv, (ms_views _ _ _ M2) by (apply HH; by eapply list_elem_of_lookup_2).
  rewrite (ms_view _ _ _ M1 ltac:(by rewrite E1) t m); [done|]. by eapply list_elem_of_lookup_2.
Qed.

(** The disk writes of a commit of [s]: the log, its header, the blocks, an empty header. *)
Record commits (s : lgst) (w1 : list (Z * memory)) (h : memory) (w3 : list (Z * memory)) (h0 : memory) : Prop := mkcommits {
  cm_log : copies (lbc s) w1 (slots (l_start s) 0 (length (l_blocks s))) (l_blocks s);
  cm_head : dec_head h = l_blocks s;
  cm_install : copies (lbc s) w3 (l_blocks s) (l_blocks s);
  cm_clear : dec_head h0 = [];
}.

Lemma commit_writes (s : lgst) :
  loginv s -> all_idle (lbc s) -> (0 < spare (lbc s))%nat -> l_blocks s <> [] ->
  wp commit (fun _ s' => exists w1 h w3 h0, commits s w1 h w3 h0 /\
    s' = set_lbc (lbc s') (set_blocks [] s) /\
    moves (lbc s) (lbc s') (w1 ++ [(l_start s, h)] ++ w3 ++ [(l_start s, h0)])) s.
Proof.
  intros [I P Hlk L Hd Hh] HI HS Hne. pose proof (logged_batch s _ P L) as HB. pose proof (logged_words s _ P L) as HW.
  assert (HF : Z.of_nat (length (l_blocks s)) < 30).
  { pose proof (lo_fits _ _ L). pose proof (pl_size _ P). unfold LOGSIZE, MAXOPBLOCKS in *. lia. }
  unfold commit. repeat (wp_step; cbn beta); [|destruct (l_blocks s); [done|cbn [length] in *; lia]].
  eapply wp_mono; [apply write_log_spec; try done; intros n Hn; by apply Hd|]. intros _ s1 (c1 & w1 & -> & M1 & C1).
  pose proof (ms_spare _ _ _ M1) as S1. wp_step.
  eapply wp_mono; [apply write_head_spec; [apply M1|apply M1|cbn; lia|by apply (placed_same s)]|].
  cbn [set_lbc lbc l_start l_blocks]. intros _ s2 (m2 & c2 & -> & M2). pose proof (ms_spare _ _ _ M2) as S2. wp_step.
  eapply wp_mono; [apply install_trans_spec; [apply M2|apply M2|cbn; lia|by apply (placed_same s)|by apply (logged_same s)|right]|].
  { cbn [set_lbc lbc l_blocks]. intros n Hn. apply (ms_dirty _ _ _ M2). split.
    - apply (ms_dirty _ _ _ M1). split; [by apply Hd|]. destruct C1 as [-> _]. by apply (ba_home _ _ _ HB).
    - cbn. rewrite list_elem_of_singleton. intros ->. apply (lo_home _ _ L _ Hn). destruct P. lia. }
  cbn [set_lbc lbc l_blocks l_start]. intros _ s3 (c3 & w3 & -> & M3 & C3). pose proof (ms_spare _ _ _ M3) as S3. repeat (wp_step; cbn beta).
  eapply wp_mono; [apply write_head_spec; [apply M3|apply M3|cbn; lia|by apply (placed_same s)]|].
  cbn [set_lbc set_blocks lbc l_start l_blocks]. intros _ s4 (m4 & c4 & -> & M4).
  exists w1, (enc_head m2 (l_blocks s)), w3, (enc_head m4 []). split_and!; [|done|].
  - split; [done|by apply dec_enc_head; [|lia]| |by apply dec_enc_head; [|cbn; lia]].
    eapply (copies_back _ c1 c2); try done.
    + unfold slots. apply NoDup_seqZ.
    + intros t Ht. cbn. rewrite list_elem_of_singleton. intros ->. rewrite elem_slots in Ht. lia.
  - eapply moves_app; [exact M1|]. eapply moves_app; [exact M2|]. by eapply moves_app.
Qed.
(** ** Recovery *)

(** A machine that has just started on the disk [d]: nothing is cached dirty. *)
Record booted (s : lgst) (d : Z -> memory) (r : lgst) : Prop := mkbooted {
  bt_bc : binv (lbc r);
  bt_idle : all_idle (lbc r);
  bt_spare : (1 < spare (lbc r))%nat;
  bt_clean : forall k, ~ isdirty (lbc r) k;
  bt_disk : disk (lbc r) = d;
  bt_dev : l_dev r = l_dev s;
  bt_start : l_start r = l_start s;
  bt_size : l_size r = l_size s;
}.

(** The disk after recovery: the blocks of the header have the contents of their slots. *)
Definition recovered (start : Z) (d d' : Z -> memory) : Prop :=
  (forall j n, dec_head (d start) !! j = Some n -> same_block (d' n) (d (start + 1 + Z.of_nat j))) /\
  (forall b, b <> start -> b ∉ dec_head (d start) -> same_block (d' b) (d b)) /\
  dec_head (d' start) = [].

Lemma copies_lookup (c : bcst) (ws : list (Z * memory)) (ts rs : list Z) (j : nat) (t r : Z) :
  copies c ws ts rs -> ts !! j = Some t -> rs !! j = Some r -> exists m, (t, m) ∈ ws /\ same_block m (view c r).
Proof.
  intros [E F] Ht Hr. destruct (Forall2_lookup_r _ _ _ _ _ F Hr) as ([t' m] & Hw & Hm).
  rewrite <- E, list_lookup_fmap, Hw in Ht. injection Ht as <-. exists m. split; [by eapply list_elem_of_lookup_2|done].
Qed.

Lemma slots_lookup (start : Z) (n j : nat) : (j < n)%nat -> slots start 0 n !! j = Some (start + 1 + Z.of_nat j).
Proof. intros H. unfold slots. apply lookup_seqZ. lia. Qed.

Lemma head_put (start : Z) (h : memory) (l : list Z) (d : Z -> memory) :
  dec_head h = l -> Z.of_nat (length l) <= 127 -> dec_head (disk_put start h d start) = l.
Proof.
  intros <- Hl. unfold disk_put. rewrite Z.eqb_refl. apply dec_head_same; [symmetry; apply same_bcopy|done].
Qed.

Lemma recover_spec (s r : lgst) (d : Z -> memory) :
  placed s -> booted s d r -> logged s (dec_head (d (l_start s))) ->
  wp recover_from_log (fun _ r' => recovered (l_start s) d (disk (lbc r')) /\ l_blocks r' = []) r.
Proof.
  intros P [I HI HS HC <- E1 E2 E3] L.
  assert (Pr : placed r) by (by apply (placed_same s)). rewrite <- E2 in *.
  assert (HV : forall k, same_block (view (lbc r) k) (disk (lbc r) k)).
  { intros k. apply clean_synced; [done|by apply idle_unheld|apply HC]. }
  assert (HF : Z.of_nat (length (dec_head (disk (lbc r) (l_start r)))) < 30).
  { pose proof (lo_fits _ _ L). pose proof (pl_size _ P). unfold LOGSIZE, MAXOPBLOCKS in *. lia. }
  assert (EH : dec_head (view (lbc r) (l_start r)) = dec_head (disk (lbc r) (l_start r))).
  { apply dec_head_same; [by symmetry|lia]. }
  set (l := dec_head (disk (lbc r) (l_start r))) in *.
  unfold recover_from_log. wp_step. eapply wp_mono; [apply read_head_spec; try done; [lia|rewrite EH; unfold LOGSIZE, MAXOPBLOCKS; lia]|].
  rewrite EH. intros _ r1 (c1 & -> & M1). pose proof (ms_spare _ _ _ M1) as S1. wp_step.
  assert (Lr : logged r l) by (by apply (logged_same s)).
  eapply wp_mono; [apply install_trans_spec; cbn; try apply M1; try lia; [by apply (placed_same s)|by apply (logged_same s)]|].
  cbn [lbc l_blocks l_start set_lbc set_blocks]. intros _ r2 (c2 & ws & -> & M2 & C2). pose proof (ms_spare _ _ _ M2) as S2.
  repeat (wp_step; cbn beta).
  eapply wp_mono; [apply write_head_spec; cbn; try apply M2; try lia; by apply (placed_same s)|].
  cbn [lbc l_blocks l_start set_lbc set_blocks]. intros _ r3 (m3 & c3 & -> & M3). cbn [lbc set_lbc set_blocks l_blocks].
  split; [|done].
  assert (Hst : l_start r ∉ l).
  { intros Hin. apply (lo_home _ _ Lr _ Hin). pose proof (pl_size _ Pr). lia. }
  assert (HD : forall b, b <> l_start r -> disk c3 b = replay ws (disk (lbc r)) b).
  { intros b Hb. rewrite (ms_disk _ _ _ M3), (ms_disk _ _ _ M2), (ms_disk _ _ _ M1). cbn. unfold disk_put.
    by destruct (Z.eqb_spec b (l_start r)). }
  split_and!.
  - fold l. intros j n Hj. pose proof (list_elem_of_lookup_2 _ _ _ Hj) as Hn. rewrite HD by (intros ->; done).
    pose proof (slots_lookup (l_start r) _ _ (lookup_lt_Some _ _ _ Hj)) as Hsl.
    destruct (copies_lookup _ _ _ _ _ _ _ C2 Hj Hsl) as (m & Hm & Em).
    rewrite (replay_in ws _ n m); [|destruct C2 as [-> _]; apply L|done].
    rewrite Em, (ms_views _ _ _ M1) by (cbn; apply not_elem_of_nil). apply HV.
  - fold l. intros b Hb Hbl. rewrite HD by done. rewrite replay_other; [done|]. by destruct C2 as [-> _].
  - rewrite (ms_disk _ _ _ M3). apply head_put; [by apply dec_enc_head; [|cbn; lia]|cbn; lia].
Qed.
(** ** A crash during [commit] *)

Lemma take_writes (w1 w3 : list (Z * memory)) (x y : Z * memory) (k : nat) :
  let ws := w1 ++ [x] ++ w3 ++ [y] in
  ((k <= length w1)%nat /\ take k ws = take k w1) \/
  ((length w1 < k)%nat /\ ((exists k', take k ws = w1 ++ [x] ++ take k' w3) \/ take k ws = ws)).
Proof.
  cbn. destruct (decide (k <= length w1)%nat) as [H|H]; [left|right].
  - split; [done|]. by rewrite take_app_le.
  - split; [lia|]. rewrite take_app_ge by lia. destruct (k - length w1)%nat as [|k'] eqn:E; [lia|]. cbn.
    destruct (decide (k' <= length w3)%nat) as [H'|H'].
    + left. exists k'. by rewrite take_app_le.
    + right. rewrite (take_ge (w3 ++ [y])); [done|]. rewrite length_app. cbn. lia.
Qed.

Lemma fst_take (k : nat) (ws : list (Z * memory)) (b : Z) : b ∈ (take k ws).*1 -> b ∈ ws.*1.
Proof. rewrite fmap_take. intros H. apply (elem_of_take (A:=Z)) in H as (j & Hj & _). by eapply list_elem_of_lookup_2. Qed.

Section Crash.
Context (s : lgst) (w1 w3 : list (Z * memory)) (h h0 : memory).
Hypothesis (I : loginv s) (C : commits s w1 h w3 h0).
Notation d0 := (disk (lbc s)).
Notation start := (l_start s).
Notation l := (l_blocks s).

Lemma few_blocks : Z.of_nat (length l) <= 127.
Proof. pose proof (lo_fits _ _ (lg_logged _ I)). pose proof (pl_size _ (lg_placed _ I)). unfold LOGSIZE, MAXOPBLOCKS in *. lia. Qed.

Lemma start_not_home : ~ home s start.
Proof. unfold home. pose proof (pl_size _ (lg_placed _ I)). lia. Qed.

Lemma home_not_slot (b : Z) : home s b -> b ∉ w1.*1 /\ b <> start.
Proof.
  intros Hb. split; [|intros ->; by apply start_not_home]. destruct (cm_log _ _ _ _ _ C) as [-> _].
  rewrite elem_slots. unfold home in Hb. pose proof (lo_fits _ _ (lg_logged _ I)). lia.
Qed.

Lemma slot_not_block (j : nat) : (j < length l)%nat -> start + 1 + Z.of_nat j ∉ l /\ start + 1 + Z.of_nat j <> start.
Proof.
  intros Hj. split; [|lia]. intros Hin. apply (lo_home _ _ (lg_logged _ I) _ Hin). pose proof (lo_fits _ _ (lg_logged _ I)). lia.
Qed.

(** Before the header is written. *)
Lemma crash_before (k : nat) :
  let d := replay (take k w1) d0 in dec_head (d start) = [] /\ (forall b, home s b -> same_block (d b) (d0 b)).
Proof.
  assert (HO : forall b, b ∉ w1.*1 -> replay (take k w1) d0 b = d0 b).
  { intros b Hb. apply replay_other. intros Hin. apply Hb. by eapply fst_take. }
  split.
  - rewrite HO; [apply I|]. destruct (cm_log _ _ _ _ _ C) as [-> _]. rewrite elem_slots. lia.
  - intros b Hb. rewrite HO; [done|by apply home_not_slot].
Qed.
(** A block that the transaction did not write. *)
Lemma not_logged (b : Z) : home s b -> all_idle (lbc s) -> b ∉ l -> same_block (view (lbc s) b) (d0 b).
Proof.
  intros Hb HI Hn. apply clean_synced; [apply I|by apply idle_unheld|]. intros Hd. by apply Hn, (lg_dirty _ I).
Qed.

(** Between the write of the header and the write of the empty header. *)
Lemma crash_during (k : nat) :
  let d := replay (w1 ++ [(start, h)] ++ take k w3) d0 in
  dec_head (d start) = l /\
  (forall j n, l !! j = Some n -> same_block (d (start + 1 + Z.of_nat j)) (view (lbc s) n)) /\
  (forall b, home s b -> b ∉ l -> d b = d0 b).
Proof.
  cbn zeta. rewrite !replay_app. cbn [replay foldl fst snd]. fold (replay w1 d0).
  assert (HO : forall d b, b ∉ l -> replay (take k w3) d b = d b).
  { intros d b Hb. apply replay_other. intros Hin. apply Hb. apply fst_take in Hin.
    by destruct (cm_install _ _ _ _ _ C) as [<- _]. }
  split_and!.
  - change (foldl _ d0 w1) with (replay w1 d0). rewrite HO.
    + apply head_put; [apply (cm_head _ _ _ _ _ C)|apply few_blocks].
    + intros Hin. by apply start_not_home, (lo_home _ _ (lg_logged _ I)).
  - intros j n Hj. pose proof (lookup_lt_Some _ _ _ Hj) as Hlt. destruct (slot_not_block j Hlt) as [Hs1 Hs2].
    rewrite HO by done. unfold disk_put at 1. destruct (Z.eqb_spec (start + 1 + Z.of_nat j) start); [done|].
    destruct (copies_lookup _ _ _ _ _ _ _ (cm_log _ _ _ _ _ C) (slots_lookup start _ _ Hlt) Hj) as (m & Hm & Em).
    rewrite <- Em. apply replay_in; [|done]. destruct (cm_log _ _ _ _ _ C) as [-> _]. unfold slots. apply NoDup_seqZ.
  - intros b Hb Hbl. rewrite HO by done. destruct (home_not_slot b Hb) as [H1 H2].
    unfold disk_put at 1. destruct (Z.eqb_spec b start); [done|]. by apply (replay_other w1).
Qed.

(** After it. *)
Lemma crash_after :
  let d := replay (w1 ++ [(start, h)] ++ w3 ++ [(start, h0)]) d0 in
  dec_head (d start) = [] /\ (forall n, n ∈ l -> same_block (d n) (view (lbc s) n)) /\
  (forall b, home s b -> b ∉ l -> d b = d0 b).
Proof.
  cbn zeta. rewrite !replay_app. set (d := replay w3 (replay [(start, h)] (replay w1 d0))).
  assert (HO : forall b, home s b -> replay [(start, h0)] d b = d b).
  { intros b Hb. apply replay_other. cbn. rewrite list_elem_of_singleton. intros ->. by apply start_not_home. }
  split_and!.
  - apply head_put; [apply (cm_clear _ _ _ _ _ C)|cbn; lia].
  - intros n Hn. rewrite HO by (by apply (lo_home _ _ (lg_logged _ I))). apply list_elem_of_lookup in Hn as [j Hj].
    destruct (copies_lookup _ _ _ _ _ _ _ (cm_install _ _ _ _ _ C) Hj Hj) as (m & Hm & Em). rewrite <- Em.
    apply replay_in; [|done]. destruct (cm_install _ _ _ _ _ C) as [-> _]. apply (lg_logged _ I).
  - intros b Hb Hbl. rewrite HO by done. unfold d. rewrite replay_other by (by destruct (cm_install _ _ _ _ _ C) as [-> _]).
    destruct (home_not_slot b Hb) as [H1 H2]. rewrite replay_other by (cbn; by rewrite list_elem_of_singleton).
    by apply replay_other.
Qed.

(** What recovery makes of each. *)
Lemma crash_recovers (k : nat) (d' : Z -> memory) :
  all_idle (lbc s) -> let d := replay (take k (w1 ++ [(start, h)] ++ w3 ++ [(start, h0)])) d0 in
  (logged s (dec_head (d start))) /\
  (recovered start d d' -> forall b, home s b ->
     same_block (d' b) (if decide (length l < k)%nat then view (lbc s) b else d0 b)).
Proof.
  intros HI. cbn zeta. assert (Hlen : length w1 = length l).
  { rewrite <- (length_fmap fst w1), (proj1 (cm_log _ _ _ _ _ C)). unfold slots. rewrite length_seqZ. lia. }
  assert (L0 : logged s []).
  { split; [constructor|by intros n ?%not_elem_of_nil..|apply (pl_size _ (lg_placed _ I))]. }
  destruct (take_writes w1 w3 (start, h) (start, h0) k) as [[Hk ->]|[Hk [[k' ->]| ->]]].
  - destruct (crash_before k) as [E HD]. rewrite E. split; [done|]. intros (_ & H2 & _) b Hb.
    rewrite decide_False by lia. rewrite E in H2. rewrite H2; [by apply HD|by apply home_not_slot|apply not_elem_of_nil].
  - destruct (crash_during k') as (E & HD & HO). rewrite E. split; [apply I|]. intros (H1 & H2 & _) b Hb.
    rewrite decide_True by lia. rewrite E in H1, H2. destruct (decide (b ∈ l)) as [Hin|Hin].
    + apply list_elem_of_lookup in Hin as [j Hj]. rewrite (H1 j b Hj). by apply HD.
    + rewrite (H2 b (proj2 (home_not_slot b Hb)) Hin), (HO b Hb Hin). symmetry. by apply not_logged.
  - destruct crash_after as (E & HD & HO). rewrite E. split; [done|]. intros (_ & H2 & _) b Hb.
    rewrite decide_True by lia. rewrite E in H2. rewrite H2; [|by apply home_not_slot|apply not_elem_of_nil].
    destruct (decide (b ∈ l)) as [Hin|Hin]; [by apply HD|]. rewrite (HO b Hb Hin). symmetry. by apply not_logged.
Qed.
End Crash.
Lemma loginv_cleared (s : lgst) (c : bcst) (ws : list (Z * memory)) :
  loginv s -> moves (lbc s) c ws -> (forall n, n ∈ l_blocks s -> n ∈ ws.*1) ->
  dec_head (disk c (l_start s)) = [] -> loginv (set_lbc c (set_blocks [] s)).
Proof.
  intros [I P Hlk L Hd Hh] HM Hin HE. split; cbn; try done.
  - apply HM.
  - by apply (placed_same s).
  - split; [constructor|by intros n ?%not_elem_of_nil..|apply P].
  - intros n. rewrite (ms_dirty _ _ _ HM), Hd. split; [|by intros ?%not_elem_of_nil]. intros [H1 H2]. by destruct (H2 (Hin n H1)).
Qed.

(** The disk after [k] of the writes [ws], and recovery on it. *)
Definition atomic (s : lgst) (ws : list (Z * memory)) : Prop :=
  forall k r, booted s (replay (take k ws) (disk (lbc s))) r ->
    wp recover_from_log (fun _ r' => l_blocks r' = [] /\ forall b, home s b ->
      same_block (disk (lbc r') b) (if decide (length (l_blocks s) < k)%nat then view (lbc s) b else disk (lbc s) b)) r.

Lemma commit_spec (s : lgst) :
  loginv s -> all_idle (lbc s) -> (0 < spare (lbc s))%nat ->
  wp commit (fun _ s' => loginv s' /\ s' = set_lbc (lbc s') (set_blocks [] s) /\ all_idle (lbc s') /\
    (forall b, home s b -> same_block (disk (lbc s') b) (view (lbc s) b)) /\
    exists ws, writes (lbc s') = rev ws ++ writes (lbc s) /\ atomic s ws) s.
Proof.
  intros I HI HS. destruct (decide (l_blocks s = [])) as [E|Hne].
  - unfold commit. wp_step. wp_step. rewrite E. cbn. apply wp_ret.
    assert (HV : forall b, same_block (view (lbc s) b) (disk (lbc s) b)).
    { intros b. apply clean_synced; [apply I|by apply idle_unheld|]. rewrite (lg_dirty _ I), E. apply not_elem_of_nil. }
    split_and!; [done|destruct s; cbn in E |- *; by subst|done|done|]. exists []. split; [done|]. intros k r HB.
    rewrite take_nil in HB. cbn in HB. eapply wp_mono; [apply (recover_spec s r _ (lg_placed _ I) HB)|].
    + rewrite (lg_head _ I). split; [constructor|by intros n ?%not_elem_of_nil..|apply (pl_size _ (lg_placed _ I))].
    + intros _ r' [(_ & H2 & _) Hb]. split; [done|]. intros b Hh. rewrite (lg_head _ I) in H2.
      assert (Hd : same_block (disk (lbc r') b) (disk (lbc s) b)).
      { apply H2; [|apply not_elem_of_nil]. intros ->. by apply (start_not_home s I). }
      case_decide; [|done]. by rewrite Hd.
  - eapply wp_mono; [by apply commit_writes|]. intros _ s' (w1 & h & w3 & h0 & C & E & HM).
    destruct (crash_after s w1 w3 h h0 I C) as (EH & HD & HO). rewrite <- (ms_disk _ _ _ HM) in EH, HD, HO.
    split_and!; [|done|apply HM| |].
    + rewrite E. eapply (loginv_cleared s (lbc s')); try done. intros n Hn. rewrite !fmap_app, !elem_of_app.
      right; right; left. by destruct (cm_install _ _ _ _ _ C) as [-> _].
    + intros b Hb. destruct (decide (b ∈ l_blocks s)); [by apply HD|]. rewrite (HO b Hb) by done.
      symmetry. by apply not_logged.
    + eexists. split; [apply HM|]. intros k r HB. destruct (crash_recovers s w1 w3 h h0 I C k (fun _ _ => 0) HI) as [L _].
      eapply wp_mono; [apply (recover_spec s r _ (lg_placed _ I) HB L)|]. intros _ r' [HR Hbl]. split; [done|].
      by apply (crash_recovers s w1 w3 h h0 I C k _ HI).
Qed.
End Thms.
