(* ===== verification/LogOps.v ===== *)
(** * LogOps: system calls and the log

    [log_write] keeps the invariant of the log, and the [end_op] of the last
    system call is atomic with respect to crashes. *)
From stdpp Require Import base gmap list numbers strings.
From Stdlib Require Import ZArith Lia ZifyBool.
From S2P Require Import Prelude Machine LockThms Bio BioSpec Log LogSpec LogLoops LogThms.

Lemma elem_absorb (n k : Z) (l : list Z) : k ∈ absorb n l <-> k = n \/ k ∈ l.
Proof.
  induction l as [|x l IH]; cbn; [by rewrite list_elem_of_singleton; pose proof (not_elem_of_nil k); tauto|].
  destruct (Z.eqb_spec x n) as [->|Hx]; rewrite !elem_of_cons; [|rewrite IH]; tauto.
Qed.

Lemma absorb_nodup (n : Z) (l : list Z) : NoDup l -> NoDup (absorb n l).
Proof.
  induction l as [|x l IH]; cbn; [intros _; apply NoDup_singleton|]. intros HN. apply NoDup_cons in HN as [H1 H2].
  destruct (Z.eqb_spec x n) as [->|Hx]; [by apply NoDup_cons|]. apply NoDup_cons. split; [|by apply IH].
  rewrite elem_absorb. tauto.
Qed.

Lemma absorb_length (n : Z) (l : list Z) : (length (absorb n l) <= S (length l))%nat.
Proof. induction l as [|x l IH]; cbn; [lia|]. destruct (x =? n); cbn; lia. Qed.

Section Ops.
Context `{D : Disk}.
Implicit Types (s : lgst).

Lemma wp_acquire_log (s : lgst) Q : l_lock s = false -> Q tt (set_l_lock true s) -> wp acquire_log Q s.
Proof. intros Hl HQ. eapply wp_from_Ok; [|exact HQ]. unfold acquire_log. by rewrite Hl. Qed.

Lemma wp_release_log (s : lgst) Q : l_lock s = true -> Q tt (set_l_lock false s) -> wp release_log Q s.
Proof. intros Hl HQ. eapply wp_from_Ok; [|exact HQ]. unfold release_log. by rewrite Hl. Qed.

(** The buffer [b] after [log_write]. *)
Definition pinned (b : buf) : buf := set_flags (Z.lor (b_flags b) B_DIRTY) b.

Lemma log_write_spec (s : lgst) (i : nat) (n : Z) (b : buf) :
  loginv s -> holds_block (lbc s) i n b -> home s n -> 0 <= n < disksize ->
  Z.of_nat (length (l_blocks s)) < l_size s - 1 -> 1 <= l_outstanding s ->
  wp (log_write i) (fun _ s' => loginv s' /\ holds_block (lbc s') i n (pinned b) /\ dirty (pinned b) = true /\
    s' = set_lbc (set_bufs (<[i := pinned b]> (bufs (lbc s))) (lbc s)) (set_blocks (absorb n (l_blocks s)) s) /\
    (forall k, same_block (view (lbc s') k) (view (lbc s) k))) s.
Proof.
  intros [I P Hlk L Hd Hh] HH Hn Hr HF Ho. pose proof HH as ((Hb & D1 & En & Hv) & Hl).
  pose proof (pl_size _ P) as Hz. destruct (mark_dirty (lbc s) i n b I HH) as (I' & H' & Hdy & HV). fold (pinned b) in *.
  unfold log_write. repeat (wp_step; cbn beta); try (exfalso; unfold LOGSIZE, MAXOPBLOCKS in *; lia).
  apply wp_acquire_log; [done|]. repeat (wp_step; cbn beta). apply wp_zoom. eapply wp_getb; [exact Hb|].
  repeat (wp_step; cbn beta). apply wp_zoom. eapply wp_setb; [exact Hb|]. apply wp_release_log; [done|].
  cbn [lbc set_lbc set_blocks set_l_lock]. rewrite En. fold (pinned b).
  set (s' := set_lbc (set_bufs (<[i := pinned b]> (bufs (lbc s))) (lbc s)) (set_blocks (absorb n (l_blocks s)) s)).
  match goal with |- loginv ?x /\ _ => replace x with s' by (unfold s'; destruct s; cbn in *; by subst) end.
  split_and!; try done. split; cbn; try done.
  - by apply (placed_same s).
  - destruct L as [LN LD LH LF]. split.
    + by apply absorb_nodup.
    + intros k Hk. apply elem_absorb in Hk as [->|Hk]; [done|by apply LD].
    + intros k Hk. apply elem_absorb in Hk as [->|Hk]; [done|by apply LH].
    + pose proof (absorb_length n (l_blocks s)). cbn. lia.
  - intros k. rewrite elem_absorb, <- Hd. split.
    + intros (j & c & Hc & Dc & Ec & Hdc). cbn in Hc.
      apply list_lookup_insert_Some in Hc as [(<- & <- & _)|(Hj & Hc)]; [left; cbn in Ec; congruence|].
      right. by exists j, c.
    + intros [->|(j & c & Hc & Dc & Ec & Hdc)].
      * exists i, (pinned b). destruct H' as ((H1 & H2 & H3 & _) & _). split_and!; done.
      * destruct (decide (j = i)) as [->|Hj].
        -- rewrite Hb in Hc. injection Hc as <-. exists i, (pinned b). destruct H' as ((H1 & H2 & H3 & _) & _).
           split_and!; try done; congruence.
        -- exists j, c. cbn. by rewrite list_lookup_insert_ne.
Qed.

Lemma loginv_same (s s' : lgst) :
  lbc s' = lbc s -> l_blocks s' = l_blocks s -> l_lock s' = l_lock s -> l_dev s' = l_dev s -> l_start s' = l_start s ->
  l_size s' = l_size s -> loginv s -> loginv s'.
Proof.
  intros E1 E2 E3 E4 E5 E6 [I P Hlk L Hd Hh]. split; rewrite ?E1, ?E2, ?E3, ?E5; try done;
    [by apply (placed_same s)|by apply (logged_same s)].
Qed.

Lemma atomic_same (s s' : lgst) (ws : list (Z * memory)) :
  lbc s' = lbc s -> l_blocks s' = l_blocks s -> l_dev s' = l_dev s -> l_start s' = l_start s -> l_size s' = l_size s ->
  atomic s' ws -> atomic s ws.
Proof.
  intros E1 E2 E3 E4 E5 H k r [B1 B2 B3 B4 B5 B6 B7 B8]. unfold atomic, home in H. rewrite E1, E2, E4, E5 in H.
  apply H. split; congruence || done.
Qed.

(** The contents of [s]'s cache are on the disk of [s']. *)
Definition installed (s s' : lgst) : Prop := forall b, home s b -> same_block (disk (lbc s') b) (view (lbc s) b).

(** C17. When the last system call in progress ends ([end_op] with one call
    outstanding), its transaction is committed atomically: [end_op] returns
    with the log empty again and with every block outside the log holding on disk
    what the cache had for it; and if the machine stops after any number [k] of
    the disk writes that [end_op] made, then [recover_from_log], on whatever is
    on the disk then, returns and leaves every block outside the log as it was
    before [end_op] if at most as many writes as the transaction has blocks were
    done, and with the transaction's contents otherwise. *)
Theorem end_op_atomic (s : lgst) :
  loginv s -> all_idle (lbc s) -> (0 < spare (lbc s))%nat -> l_outstanding s = 1 -> l_committing s = 0 ->
  wp end_op (fun _ s' => loginv s' /\ l_blocks s' = [] /\ l_outstanding s' = 0 /\ l_committing s' = 0 /\
    installed s s' /\
    exists ws, writes (lbc s') = rev ws ++ writes (lbc s) /\ atomic s ws) s.
Proof.
  intros I HI HS Ho Hc. unfold end_op. wp_step. apply wp_acquire_log; [apply I|]. wp_step. wp_step. wp_step. wp_step. wp_step. wp_step.
  cbn [l_committing l_outstanding set_l_lock set_outstanding]. rewrite Ho, Hc. change (i32 (1 - 1)) with 0. cbn [Z.eqb negb when].
  repeat (wp_step; cbn beta). apply wp_release_log; [done|]. repeat (wp_step; cbn beta).
  eapply wp_mono; [apply commit_spec|]; try done; [by apply (loginv_same s); try done; symmetry; apply I|].
  intros _ s' (I' & E & HI' & HV & ws & HW & HA). wp_step. apply wp_acquire_log; [apply I'|].
  repeat (wp_step; cbn beta). apply wp_release_log; [done|]. pose proof (lg_lock _ I') as Hl. rewrite E in I'.
  rewrite E. split_and!; try done.
  - eapply loginv_same; [..|exact I']; done.
  - exists ws. split; [done|]. by eapply (atomic_same s _ ws); [..|exact HA].
Qed.
End Ops.

(** ** A concrete log *)

Module LogSample.
#[export] Instance disk1000 : Disk := { disksize := 1000 }.

(** Block 100 has been changed to all sevens in the cache; one more buffer is free. *)
Definition b100 : buf := mkbuf 6 1 100 (mksleeplock 0 "buffer" 0) 0 (fun _ => 7).
Definition cache : bcst := mkbc (fun _ _ => 0) [] [b100; buf0] [0%nat; 1%nat] false 1.
Definition log1 : lgst := mklg cache 2 30 1 0 1 [100] false.

Lemma cache_inv : binv cache.
Proof.
  split; [done| | | |].
  - cbn. apply NoDup_cons. split; [|apply NoDup_singleton]. rewrite list_elem_of_singleton. lia.
  - intros i. cbn. rewrite elem_of_cons, list_elem_of_singleton. lia.
  - intros [|[|i]] b Hb; cbn in Hb; [injection Hb as <-..|done]; (split; [|done..]); cbv; tauto.
  - intros [|[|i]] [|[|j]] b c Hb Hc; cbn in Hb, Hc; try done; injection Hb as <-; injection Hc as <-; done.
Qed.

Lemma log1_inv : loginv log1.
Proof.
  split; [apply cache_inv|split; cbn; unfold LOGSIZE, MAXOPBLOCKS; lia|done| | |done].
  - split; cbn.
    + apply NoDup_singleton.
    + intros n Hn%list_elem_of_singleton. lia.
    + intros n Hn%list_elem_of_singleton. unfold home. cbn. lia.
    + lia.
  - intros n. cbn. rewrite list_elem_of_singleton. split.
    + intros ([|[|i]] & b & Hb & Dv & En & Hd); cbn in Hb; try done; injection Hb as <-; done.
    + intros ->. by exists 0%nat, b100.
Qed.

Lemma log1_idle : all_idle (lbc log1).
Proof. intros [|[|i]] b Hb; cbn in Hb; try done; by injection Hb as <-. Qed.

Lemma end_op_atomic_witness :
  wp end_op (fun _ s' => loginv s' /\ l_blocks s' = [] /\ l_outstanding s' = 0 /\ l_committing s' = 0 /\
    installed log1 s' /\
    exists ws, writes (lbc s') = rev ws ++ writes (lbc log1) /\ atomic log1 ws) log1.
Proof. apply (end_op_atomic log1); [apply log1_inv|apply log1_idle|vm_compute; lia|done|done]. Defined.
End LogSample.
