(* ===== verification/Fs.v ===== *)
(** * Fs: the file system ([fs.c])

    Block allocation, inodes and their cache, file contents, directories and
    paths, on top of the log.  A pointer to an inode is its index in [icache];
    a path is its list of bytes without the final NUL. *)
From stdpp Require Import base gmap list numbers strings.
From Stdlib Require Import ZArith Lia ZifyBool.
From S2P Require Import Prelude Machine Cstring LockThms Bio Log.

Definition ROOTINO : Z := 1.
Definition NDIRECT : Z := 12.
Definition NINDIRECT : Z := BSIZE / 4.
Definition MAXFILE : Z := NDIRECT + NINDIRECT.
Definition IPB : Z := BSIZE / 64.
Definition BPB : Z := BSIZE * 8.
Definition DIRSIZ : Z := 14.
Definition T_DIR : Z := 1.
Definition T_FILE : Z := 2.
Definition T_DEV : Z := 3.
#[export] Hint Unfold BSIZE NDIRECT NINDIRECT MAXFILE IPB BPB DIRSIZ : xv6.

(** ** Data *)

Record dinode := mkdinode {
  d_type : Z;
  d_major : Z;
  d_minor : Z;
  d_nlink : Z;
  d_size : Z;
  d_addrs : list Z;
}.

(** [struct inode]; the fields of [struct dinode] are kept together. *)
Record inode := mkinode {
  i_dev : Z;
  i_inum : Z;
  i_ref : Z;
  i_lock : sleeplock;
  i_valid : Z;
  i_d : dinode;
}.

Notation i_type ip := (d_type (i_d ip)).
Notation i_major ip := (d_major (i_d ip)).
Notation i_minor ip := (d_minor (i_d ip)).
Notation i_nlink ip := (d_nlink (i_d ip)).
Notation i_size ip := (d_size (i_d ip)).
Notation i_addrs ip := (d_addrs (i_d ip)).

Definition set_type (x : Z) (d : dinode) : dinode :=
  mkdinode x (d_major d) (d_minor d) (d_nlink d) (d_size d) (d_addrs d).
Definition set_dev_no (mj mn : Z) (d : dinode) : dinode :=
  mkdinode (d_type d) mj mn (d_nlink d) (d_size d) (d_addrs d).
Definition set_nlink (x : Z) (d : dinode) : dinode :=
  mkdinode (d_type d) (d_major d) (d_minor d) x (d_size d) (d_addrs d).
Definition set_size (x : Z) (d : dinode) : dinode :=
  mkdinode (d_type d) (d_major d) (d_minor d) (d_nlink d) x (d_addrs d).
Definition set_addrs (x : list Z) (d : dinode) : dinode :=
  mkdinode (d_type d) (d_major d) (d_minor d) (d_nlink d) (d_size d) x.

Definition set_ident (dev inum : Z) (ip : inode) : inode :=
  mkinode dev inum (i_ref ip) (i_lock ip) (i_valid ip) (i_d ip).
Definition set_ref (x : Z) (ip : inode) : inode :=
  mkinode (i_dev ip) (i_inum ip) x (i_lock ip) (i_valid ip) (i_d ip).
Definition set_ilock (x : sleeplock) (ip : inode) : inode :=
  mkinode (i_dev ip) (i_inum ip) (i_ref ip) x (i_valid ip) (i_d ip).
Definition set_valid (x : Z) (ip : inode) : inode :=
  mkinode (i_dev ip) (i_inum ip) (i_ref ip) (i_lock ip) x (i_d ip).
Definition set_d (x : dinode) (ip : inode) : inode :=
  mkinode (i_dev ip) (i_inum ip) (i_ref ip) (i_lock ip) (i_valid ip) x.

(** [struct stat] *)
Record stat := mkstat {
  st_type : Z;
  st_dev : Z;
  st_ino : Z;
  st_nlink : Z;
  st_size : Z;
}.

(** The log below, the superblock in memory, the inode cache, and the current
    directory of the running process. *)
Record fsst := mkfs {
  flog : lgst;
  fsb : superblock;
  icache : list inode;
  ic_lock : bool;
  cwd : nat;
}.

Definition set_flog (x : lgst) (s : fsst) : fsst := mkfs x (fsb s) (icache s) (ic_lock s) (cwd s).
Definition set_fsb (x : superblock) (s : fsst) : fsst := mkfs (flog s) x (icache s) (ic_lock s) (cwd s).
Definition set_icache (x : list inode) (s : fsst) : fsst := mkfs (flog s) (fsb s) x (ic_lock s) (cwd s).
Definition set_ic_lock (x : bool) (s : fsst) : fsst := mkfs (flog s) (fsb s) (icache s) x (cwd s).
Definition set_fcwd (x : nat) (s : fsst) : fsst := mkfs (flog s) (fsb s) (icache s) (ic_lock s) x.

Notation MF := (M fsst).

(** [devsw]: the routines of the devices.  A read gives its result and the
    bytes it stored; a write has the bytes it may take. *)
Class DevSw := {
  dev_read : Z -> option (nat -> Z -> MF (Z * list Z));
  dev_write : Z -> option (nat -> (Z -> Z) -> Z -> MF Z);
}.

(** Numbers of 16 bits in a block. *)
Definition load16 (m : memory) (a : Z) : Z := m a + 256 * m (a + 1).
Definition store16 (m : memory) (a v : Z) : memory := store8 (store8 m a v) (a + 1) (v / 256).

(** [struct dinode] at byte [o] of a block. *)
Definition dec_dinode (m : memory) (o : Z) : dinode :=
  mkdinode (i16 (load16 m o)) (i16 (load16 m (o + 2))) (i16 (load16 m (o + 4))) (i16 (load16 m (o + 6)))
           (load32 m (o + 8)) (load_words m (o + 12) (Z.to_nat (NDIRECT + 1))).
Definition enc_dinode (m : memory) (o : Z) (d : dinode) : memory :=
  store_words
    (store32 (store16 (store16 (store16 (store16 m o (d_type d)) (o + 2) (d_major d))
       (o + 4) (d_minor d)) (o + 6) (d_nlink d)) (o + 8) (d_size d))
    (o + 12) (d_addrs d).

Section Fs.
Context `{D : Disk} `{V : DevSw}.

Definition onlog {A} (c : ML A) : MF A := zoom flog set_flog c.
Definition onbuf {A} (c : MB A) : MF A := onlog (onbc c).

(** The data of the buffer [i], and an update of it. *)
Definition bdata (i : nat) : MF memory := let! b := onbuf (getb i) in ret (b_data b).
Definition bstore (i : nat) (f : memory -> memory) : MF unit :=
  onbuf (setb i (fun b => set_data (f (b_data b)) b)).

Definition geti (ip : nat) : MF inode := fun s =>
  match icache s !! ip with Some x => Ok x s | None => Fault "icache" end.
Definition seti (ip : nat) (f : inode -> inode) : MF unit :=
  modify (fun s => set_icache (alter f ip (icache s)) s).
Definition setd (ip : nat) (f : dinode -> dinode) : MF unit :=
  seti ip (fun x => set_d (f (i_d x)) x).

Definition acquire_icache : MF unit := fun s =>
  if ic_lock s then Panic "acquire" else Ok tt (set_ic_lock true s).
Definition release_icache : MF unit := fun s =>
  if ic_lock s then Ok tt (set_ic_lock false s) else Panic "release".

(** ** Blocks *)

Definition BBLOCK (b : Z) (sb : superblock) : Z := u32 (b / BPB + sb_bmapstart sb).
Definition IBLOCK (i : Z) (sb : superblock) : Z := u32 (i / IPB + sb_inodestart sb).

Definition bzero (dev bno : Z) : MF unit :=
  let! bp := onbuf (bread dev bno) in
  bstore bp (fun m => memset m 0 0 BSIZE) ;;;
  onlog (log_write bp) ;;;
  onbuf (brelse bp).

Definition bit (m : memory) (bi : Z) : bool := negb (Z.land (m (bi / 8)) (Z.shiftl 1 (bi mod 8)) =? 0).
Definition set_bit (m : memory) (bi : Z) : memory :=
  store8 m (bi / 8) (Z.lor (m (bi / 8)) (Z.shiftl 1 (bi mod 8))).
Definition clear_bmap_bit (m : memory) (bi : Z) : memory :=
  store8 m (bi / 8) (Z.land (m (bi / 8)) (Z.lnot (Z.shiftl 1 (bi mod 8)))).

(** The inner loop of [balloc]: the first clear bit from [bi], of [n] more. *)
Fixpoint scan_bits (m : memory) (b size bi : Z) (n : nat) : option Z :=
  match n with
  | O => None
  | S n =>
      if b + bi <? size then
        if bit m bi then scan_bits m b size (bi + 1) n else Some bi
      else None
  end.

Definition balloc_body (dev b : Z) : MF (Z + Z) :=
  let! sb := gets fsb in
  if b <? sb_size sb then
    let! bp := onbuf (bread dev (BBLOCK b sb)) in
    let! m := bdata bp in
    match scan_bits m b (sb_size sb) 0 (Z.to_nat BPB) with
    | Some bi =>
        bstore bp (fun m => set_bit m bi) ;;;
        onlog (log_write bp) ;;;
        onbuf (brelse bp) ;;;
        bzero dev (b + bi) ;;;
        ret (inr (b + bi))
    | None => onbuf (brelse bp) ;;; ret (inl (b + BPB))
    end
  else panic "balloc: out of blocks".

Definition balloc (dev : Z) : MF Z :=
  let! sb := gets fsb in
  loop (S (Z.to_nat (sb_size sb / BPB + 1))) (balloc_body dev) 0.

Definition bfree (dev b : Z) : MF unit :=
  let! sb := onbuf (readsb dev) in
  modify (set_fsb sb) ;;;
  let! bp := onbuf (bread dev (BBLOCK b sb)) in
  let! m := bdata bp in
  let bi := b mod BPB in
  if negb (bit m bi) then panic "freeing free block"
  else
    bstore bp (fun m => clear_bmap_bit m bi) ;;;
    onlog (log_write bp) ;;;
    onbuf (brelse bp).

(** ** The inode cache *)

Definition iinit (dev : Z) : MF unit :=
  modify (set_ic_lock false) ;;;
  modify (fun s => set_icache (set_ilock (initsleeplock "inode") <$> icache s) s) ;;;
  let! sb := onbuf (readsb dev) in
  modify (set_fsb sb).

(** The loop of [iget]: the entry in use for the inode, or the first free one. *)
Fixpoint find_inode (dev inum : Z) (i : nat) (empty : option nat) (l : list inode) : bool * option nat :=
  match l with
  | [] => (false, empty)
  | ip :: l =>
      if (0 <? i_ref ip) && (i_dev ip =? dev) && (i_inum ip =? inum) then (true, Some i)
      else find_inode dev inum (S i)
             (match empty with None => if i_ref ip =? 0 then Some i else None | Some _ => empty end) l
  end.

Definition iget (dev inum : Z) : MF nat :=
  acquire_icache ;;;
  let! l := gets icache in
  match find_inode dev inum 0 None l with
  | (true, Some ip) =>
      seti ip (fun x => set_ref (i32 (i_ref x + 1)) x) ;;;
      release_icache ;;;
      ret ip
  | (_, None) => panic "iget: no inodes"
  | (false, Some ip) =>
      seti ip (fun x => set_valid 0 (set_ref 1 (set_ident dev inum x))) ;;;
      release_icache ;;;
      ret ip
  end.
(** ** Inodes *)

Definition ialloc_body (dev type inum : Z) : MF (Z + nat) :=
  let! sb := gets fsb in
  if inum <? sb_ninodes sb then
    let! bp := onbuf (bread dev (IBLOCK inum sb)) in
    let! m := bdata bp in
    let o := inum mod IPB * 64 in
    if i16 (load16 m o) =? 0 then
      bstore bp (fun m => store16 (memset m o 0 64) o type) ;;;
      onlog (log_write bp) ;;;
      onbuf (brelse bp) ;;;
      let! ip := iget dev inum in
      ret (inr ip)
    else
      onbuf (brelse bp) ;;;
      ret (inl (inum + 1))
  else panic "ialloc: no inodes".

Definition ialloc (dev type : Z) : MF nat :=
  let! sb := gets fsb in
  loop (S (Z.to_nat (sb_ninodes sb))) (ialloc_body dev type) 1.

Definition iupdate (ip : nat) : MF unit :=
  let! x := geti ip in
  let! sb := gets fsb in
  let! bp := onbuf (bread (i_dev x) (IBLOCK (i_inum x) sb)) in
  bstore bp (fun m => enc_dinode m (i_inum x mod IPB * 64) (i_d x)) ;;;
  onlog (log_write bp) ;;;
  onbuf (brelse bp).

Definition idup (ip : nat) : MF nat :=
  acquire_icache ;;;
  seti ip (fun x => set_ref (i32 (i_ref x + 1)) x) ;;;
  release_icache ;;;
  ret ip.

(** [acquiresleep(&ip->lock)] and [releasesleep(&ip->lock)] *)
Definition lock_inode (ip : nat) : MF unit :=
  let! x := geti ip in
  let! p := onbuf (gets me) in
  match acquiresleep p (i_lock x) with
  | None => sleep_on (Z.of_nat ip)
  | Some l => seti ip (set_ilock l)
  end.
Definition unlock_inode (ip : nat) : MF unit := seti ip (fun x => set_ilock (releasesleep (i_lock x)) x).

Definition ilock (ip : nat) : MF unit :=
  let! x := geti ip in
  if i_ref x <? 1 then panic "ilock"
  else
    lock_inode ip ;;;
    let! x := geti ip in
    when (i_valid x =? 0)
      (let! sb := gets fsb in
       let! bp := onbuf (bread (i_dev x) (IBLOCK (i_inum x) sb)) in
       let! m := bdata bp in
       let d := dec_dinode m (i_inum x mod IPB * 64) in
       setd ip (fun _ => d) ;;;
       onbuf (brelse bp) ;;;
       seti ip (set_valid 1) ;;;
       if d_type d =? 0 then panic "ilock: no type" else ret tt).

Definition iunlock (ip : nat) : MF unit :=
  let! x := geti ip in
  let! p := onbuf (gets me) in
  if negb (holdingsleep p (i_lock x)) || (i_ref x <? 1) then panic "iunlock"
  else unlock_inode ip.

Definition free_addr (d : dinode) (i : nat) : dinode := set_addrs (<[i := 0]> (d_addrs d)) d.

(** The loop of [itrunc] over the direct blocks, from [i], [n] more. *)
Fixpoint trunc_direct (ip : nat) (i n : nat) : MF unit :=
  match n with
  | O => ret tt
  | S n =>
      let! x := geti ip in
      let a := nth i (i_addrs x) 0 in
      when (negb (a =? 0))
        (bfree (i_dev x) a ;;;
         setd ip (fun d => free_addr d i)) ;;;
      trunc_direct ip (S i) n
  end.

(** The loop over the words of the indirect block, held in the buffer [bp]. *)
Fixpoint trunc_indirect (dev : Z) (bp : nat) (j : Z) (n : nat) : MF unit :=
  match n with
  | O => ret tt
  | S n =>
      let! m := bdata bp in
      let a := load32 m (4 * j) in
      when (negb (a =? 0)) (bfree dev a) ;;;
      trunc_indirect dev bp (j + 1) n
  end.

Definition itrunc (ip : nat) : MF unit :=
  trunc_direct ip 0 (Z.to_nat NDIRECT) ;;;
  let! x := geti ip in
  let a := nth (Z.to_nat NDIRECT) (i_addrs x) 0 in
  when (negb (a =? 0))
    (let! bp := onbuf (bread (i_dev x) a) in
     trunc_indirect (i_dev x) bp 0 (Z.to_nat NINDIRECT) ;;;
     onbuf (brelse bp) ;;;
     bfree (i_dev x) a ;;;
     setd ip (fun d => free_addr d (Z.to_nat NDIRECT))) ;;;
  setd ip (set_size 0) ;;;
  iupdate ip.

Definition iput (ip : nat) : MF unit :=
  lock_inode ip ;;;
  let! x := geti ip in
  when (negb (i_valid x =? 0) && (i_nlink x =? 0))
    (acquire_icache ;;;
     let! x := geti ip in
     release_icache ;;;
     when (i_ref x =? 1)
       (itrunc ip ;;;
        setd ip (set_type 0) ;;;
        iupdate ip ;;;
        seti ip (set_valid 0))) ;;;
  unlock_inode ip ;;;
  acquire_icache ;;;
  seti ip (fun x => set_ref (i32 (i_ref x - 1)) x) ;;;
  release_icache.

Definition iunlockput (ip : nat) : MF unit := iunlock ip ;;; iput ip.

(** ** Contents *)

Definition bmap (ip : nat) (bn : Z) : MF Z :=
  let! x := geti ip in
  if bn <? NDIRECT then
    let addr := nth (Z.to_nat bn) (i_addrs x) 0 in
    if addr =? 0 then
      let! addr := balloc (i_dev x) in
      setd ip (fun d => set_addrs (<[Z.to_nat bn := addr]> (d_addrs d)) d) ;;;
      ret addr
    else ret addr
  else
    let bn := bn - NDIRECT in
    if bn <? NINDIRECT then
      let addr := nth (Z.to_nat NDIRECT) (i_addrs x) 0 in
      let! addr :=
        (if addr =? 0 then
           let! addr := balloc (i_dev x) in
           setd ip (fun d => set_addrs (<[Z.to_nat NDIRECT := addr]> (d_addrs d)) d) ;;;
           ret addr
         else ret addr) in
      let! bp := onbuf (bread (i_dev x) addr) in
      let! m := bdata bp in
      let addr := load32 m (4 * bn) in
      let! addr :=
        (if addr =? 0 then
           let! addr := balloc (i_dev x) in
           bstore bp (fun m => store32 m (4 * bn) addr) ;;;
           onlog (log_write bp) ;;;
           ret addr
         else ret addr) in
      onbuf (brelse bp) ;;;
      ret addr
    else panic "bmap: out of range".

Definition stati (ip : nat) : MF stat :=
  let! x := geti ip in
  ret (mkstat (i_type x) (i32 (i_dev x)) (i_inum x) (i_nlink x) (i_size x)).

(** [m] bytes from [o] of a block. *)
Definition bytes (m : memory) (o n : Z) : list Z := (fun i => m (o + i)) <$> seqZ 0 n.

(** The loop of [readi]: [tot] bytes done, the next one is at [off]. *)
Fixpoint read_loop (fuel : nat) (ip : nat) (off tot n : Z) : MF (list Z) :=
  match fuel with
  | O => fun _ => NoFuel
  | S fuel =>
      if tot <? n then
        let! x := geti ip in
        let! a := bmap ip (off / BSIZE) in
        let! bp := onbuf (bread (i_dev x) a) in
        let m := Z.min (n - tot) (BSIZE - off mod BSIZE) in
        let! d := bdata bp in
        onbuf (brelse bp) ;;;
        let! l := read_loop fuel ip (off + m) (tot + m) n in
        ret (bytes d (off mod BSIZE) m ++ l)
      else ret []
  end.

Definition readi (ip : nat) (off n : Z) : MF (Z * list Z) :=
  let! x := geti ip in
  if i_type x =? T_DEV then
    if (i_major x <? 0) || (NDEV <=? i_major x) then ret (-1, [])
    else
      match dev_read (i_major x) with
      | None => ret (-1, [])
      | Some f => f ip (i32 n)
      end
  else if (i_size x <? off) || (u32 (off + n) <? off) then ret (-1, [])
  else
    let n := if i_size x <? u32 (off + n) then i_size x - off else n in
    let! l := read_loop (S (Z.to_nat n)) ip off 0 n in
    ret (i32 n, l).

(** [m] bytes from [src] to the bytes of a block from [o]. *)
Definition put_bytes (d : memory) (o : Z) (src : Z -> Z) (m : Z) : memory :=
  fun x => if (o <=? x) && (x <? o + m) then src (x - o) else d x.

Fixpoint write_loop (fuel : nat) (ip : nat) (src : Z -> Z) (off tot n : Z) : MF Z :=
  match fuel with
  | O => fun _ => NoFuel
  | S fuel =>
      if tot <? n then
        let! x := geti ip in
        let! a := bmap ip (off / BSIZE) in
        let! bp := onbuf (bread (i_dev x) a) in
        let m := Z.min (n - tot) (BSIZE - off mod BSIZE) in
        bstore bp (fun d => put_bytes d (off mod BSIZE) src m) ;;;
        onlog (log_write bp) ;;;
        onbuf (brelse bp) ;;;
        write_loop fuel ip (fun i => src (i + m)) (off + m) (tot + m) n
      else ret off
  end.

Definition writei (ip : nat) (src : Z -> Z) (off n : Z) : MF Z :=
  let! x := geti ip in
  if i_type x =? T_DEV then
    if (i_major x <? 0) || (NDEV <=? i_major x) then ret (-1)
    else
      match dev_write (i_major x) with
      | None => ret (-1)
      | Some f => f ip src (i32 n)
      end
  else if (i_size x <? off) || (u32 (off + n) <? off) then ret (-1)
  else if MAXFILE * BSIZE <? u32 (off + n) then ret (-1)
  else
    let! off := write_loop (S (Z.to_nat n)) ip src off 0 n in
    let! x := geti ip in
    when ((0 <? n) && (i_size x <? off))
      (setd ip (set_size off) ;;;
       iupdate ip) ;;;
    ret (i32 n).

(** ** Directories *)

Definition namecmp (s t : Z -> Z) : Z := strncmp s t (Z.to_nat DIRSIZ).

(** [struct dirent] as the sixteen bytes of a directory. *)
Definition de_inum (de : list Z) : Z := nth 0 de 0 + 256 * nth 1 de 0.
Definition de_name (de : list Z) : Z -> Z := fun i => nth (Z.to_nat (2 + i)) de 0.
Definition enc_dirent (inum : Z) (name : Z -> Z) : Z -> Z :=
  store16 (strncpy (fun _ => 0) 2 name (Z.to_nat DIRSIZ)) 0 inum.

(** One turn of the loops over the entries: the entry at [off]. *)
Definition read_dirent (dp : nat) (off : Z) (msg : string) : MF (list Z) :=
  let! r := readi dp off 16 in
  if negb (r.1 =? 16) then panic msg else ret r.2.

Fixpoint dirlookup_loop (fuel : nat) (dp : nat) (name : Z -> Z) (off : Z) : MF (option (nat * Z)) :=
  match fuel with
  | O => fun _ => NoFuel
  | S fuel =>
      let! x := geti dp in
      if off <? i_size x then
        let! de := read_dirent dp off "dirlookup read" in
        if de_inum de =? 0 then dirlookup_loop fuel dp name (off + 16)
        else if namecmp name (de_name de) =? 0 then
          let! ip := iget (i_dev x) (de_inum de) in
          ret (Some (ip, off))
        else dirlookup_loop fuel dp name (off + 16)
      else ret None
  end.

(** The entry's inode and its offset ([*poff]). *)
Definition dirlookup (dp : nat) (name : Z -> Z) : MF (option (nat * Z)) :=
  let! x := geti dp in
  if negb (i_type x =? T_DIR) then panic "dirlookup not DIR"
  else dirlookup_loop (S (Z.to_nat (i_size x / 16 + 1))) dp name 0.

(** The search of [dirlink] for a free entry. *)
Fixpoint dirlink_loop (fuel : nat) (dp : nat) (off : Z) : MF Z :=
  match fuel with
  | O => fun _ => NoFuel
  | S fuel =>
      let! x := geti dp in
      if off <? i_size x then
        let! de := read_dirent dp off "dirlink read" in
        if de_inum de =? 0 then ret off else dirlink_loop fuel dp (off + 16)
      else ret off
  end.

Definition dirlink (dp : nat) (name : Z -> Z) (inum : Z) : MF Z :=
  let! r := dirlookup dp name in
  match r with
  | Some (ip, _) => iput ip ;;; ret (-1)
  | None =>
      let! x := geti dp in
      let! off := dirlink_loop (S (Z.to_nat (i_size x / 16 + 1))) dp 0 in
      let! r := writei dp (enc_dirent inum name) off 16 in
      if negb (r =? 16) then panic "dirlink" else ret 0
  end.

(** ** Paths *)

Fixpoint skip_slashes (p : list Z) : list Z :=
  match p with
  | [] => []
  | c :: q => if c =? 47 then skip_slashes q else p
  end.
Fixpoint take_elem (p : list Z) : list Z :=
  match p with
  | [] => []
  | c :: q => if c =? 47 then [] else c :: take_elem q
  end.
Fixpoint drop_elem (p : list Z) : list Z :=
  match p with
  | [] => []
  | c :: q => if c =? 47 then p else drop_elem q
  end.

(** The rest of the path, and the buffer [name]. *)
Definition skipelem (path : list Z) (name : memory) : option (list Z * memory) :=
  match skip_slashes path with
  | [] => None
  | s =>
      let len := Z.of_nat (length (take_elem s)) in
      let src := fun i => nth (Z.to_nat i) s 0 in
      let name :=
        if DIRSIZ <=? len then bcopy name src DIRSIZ
        else store8 (bcopy name src len) len 0 in
      Some (skip_slashes (drop_elem s), name)
  end.

Fixpoint namex_loop (fuel : nat) (ip : nat) (path : list Z) (parent : bool) (name : memory) : MF (option nat * memory) :=
  match fuel with
  | O => fun _ => NoFuel
  | S fuel =>
      match skipelem path name with
      | None =>
          if parent then iput ip ;;; ret (None, name)
          else ret (Some ip, name)
      | Some (path, name) =>
          ilock ip ;;;
          let! x := geti ip in
          if negb (i_type x =? T_DIR) then iunlockput ip ;;; ret (None, name)
          else if parent && (match path with [] => true | _ => false end) then
            iunlock ip ;;; ret (Some ip, name)
          else
            let! r := dirlookup ip name in
            match r with
            | None => iunlockput ip ;;; ret (None, name)
            | Some (next, _) => iunlockput ip ;;; namex_loop fuel next path parent name
            end
      end
  end.

Definition namex (path : list Z) (parent : bool) (name : memory) : MF (option nat * memory) :=
  let! ip := (match path with
              | 47 :: _ => iget ROOTDEV ROOTINO
              | _ => let! c := gets cwd in idup c
              end) in
  namex_loop (S (length path)) ip path parent name.

Definition namei (path : list Z) : MF (option nat) :=
  let! r := namex path false (fun _ => 0) in
  ret r.1.

Definition nameiparent (path : list Z) (name : memory) : MF (option nat * memory) :=
  namex path true name.
End Fs.
