(* ===== verification/FsBlk.v ===== *)
(** * FsBlk: blocks as the file system sees them

    Reading, changing and releasing a block inside a transaction, with other
    buffers held, and what each step costs in free buffers and log space; and
    that the space [begin_op] reserves is one block more than the log has. *)
From stdpp Require Import base gmap list numbers strings.
From Stdlib Require Import ZArith Lia ZifyBool.
From S2P Require Import Prelude Machine Cstring LockThms Bio BioSpec Log LogSpec LogLoops LogThms LogOps Fs.

(** The number of blocks in the transaction. *)
Notation logged_n c := (length (l_blocks c)).

(** The same buffers are held, with the same contents. *)
Definition same_held (c c' : bcst) : Prop :=
  forall j b, is_locked b = true -> (bufs c !! j = Some b <-> bufs c' !! j = Some b).

#[export] Instance same_held_equiv : Equivalence same_held.
Proof.
  split; [by intros c j b|by intros c c' H j b Hb; rewrite (H j b Hb)|].
  intros c1 c2 c3 H1 H2 j b Hb. by rewrite (H1 j b Hb), (H2 j b Hb).
Qed.

Lemma same_held_unheld (c c' : bcst) (n : Z) : same_held c c' -> unheld c n -> unheld c' n.
Proof.
  intros HS HU i b Hb D1 En. destruct (is_locked b) eqn:E; [|done]. apply (HS i b E) in Hb. by rewrite (HU i b Hb) in E.
Qed.

Lemma same_held_holds (c c' : bcst) (i : nat) (n : Z) (b : buf) : same_held c c' -> holds_block c i n b -> holds_block c' i n b.
Proof. intros HS ((Hb & HR) & Hl). split; [split|]; [by apply HS|done..]. Qed.

Section Blk.
Context `{D : Disk} `{V : DevSw}.

(** A step of a transaction: at most [a] free buffers are used up and at most
    [a] blocks are added. *)
Record lstep (c c' : lgst) (a : nat) : Prop := mklstep {
  ls_inv : loginv c';
  ls_geom : l_dev c' = l_dev c /\ l_start c' = l_start c /\ l_size c' = l_size c /\ l_outstanding c' = l_outstanding c /\
            l_committing c' = l_committing c;
  ls_disk : disk (lbc c') = disk (lbc c) /\ me (lbc c') = me (lbc c);
  ls_held : same_held (lbc c) (lbc c');
  ls_spare : (spare (lbc c) <= spare (lbc c') + a)%nat;
  ls_len : (logged_n c' <= logged_n c + a)%nat;
}.

Lemma lstep_refl (c : lgst) : loginv c -> lstep c c 0.
Proof. intros I. split; try done; lia. Qed.

Lemma lstep_trans (c1 c2 c3 : lgst) (a b : nat) : lstep c1 c2 a -> lstep c2 c3 b -> lstep c1 c3 (a + b).
Proof.
  intros [] []. split; try done; [intuition congruence|intuition congruence|by etrans|lia|lia].
Qed.

Lemma lstep_weaken (c1 c2 : lgst) (a b : nat) : lstep c1 c2 a -> (a <= b)%nat -> lstep c1 c2 b.
Proof. intros [] H. split; try done; lia. Qed.

Lemma lstep_home (c c' : lgst) (a : nat) (n : Z) : lstep c c' a -> home c n -> home c' n.
Proof. intros H. unfold home. destruct (ls_geom _ _ _ H) as (_ & -> & -> & _). done. Qed.

(** ** The three steps *)

(** Since [c0], the buffer [i] has been taken for the block [n], and [a]
    buffers and log blocks have been used. *)
Record since (c0 c : lgst) (a : nat) (i : nat) (n : Z) (b : buf) : Prop := mksince {
  si_inv : loginv c;
  si_geom : l_dev c = l_dev c0 /\ l_start c = l_start c0 /\ l_size c = l_size c0 /\ l_outstanding c = l_outstanding c0 /\
            l_committing c = l_committing c0;
  si_disk : disk (lbc c) = disk (lbc c0) /\ me (lbc c) = me (lbc c0);
  si_holds : holds_block (lbc c) i n b;
  si_others : forall j x, j <> i -> is_locked x = true -> (bufs (lbc c0) !! j = Some x <-> bufs (lbc c) !! j = Some x);
  si_idle : forall b0, bufs (lbc c0) !! i = Some b0 -> is_locked b0 = false;
  si_spare : (spare (lbc c0) <= spare (lbc c) + a + Nat.b2n (negb (dirty b)))%nat;
  si_len : (logged_n c <= logged_n c0 + a)%nat;
  si_sync : dirty b = true \/ same_block (b_data b) (disk (lbc c) n);
}.

Lemma loginv_alike (c : lgst) (c1 : bcst) : loginv c -> alike (lbc c) c1 -> loginv (set_lbc c1 c).
Proof.
  intros [I P Hlk L Hd Hh] A. split; cbn; try done; [apply A|by apply (placed_same c)|by apply (logged_same c)| |].
  - intros n. rewrite (al_dirty _ _ A). apply Hd.
  - by rewrite (al_disk _ _ A).
Qed.

Lemma take_block (c : lgst) (n : Z) :
  loginv c -> unheld (lbc c) n -> 0 <= n < disksize -> (0 < spare (lbc c))%nat ->
  wp (onbc (bread 1 n)) (fun i c' => exists b, since c c' 0 i n b /\ same_block (b_data b) (view (lbc c) n) /\
    (forall k, same_block (view (lbc c') k) (view (lbc c) k))) c.
Proof.
  intros I HU Hn HS. apply wp_zoom. eapply wp_mono; [apply read_alike; try done; [apply I|by left]|].
  intros i s' (b & u & A & HH & HB & Sp & Hu & HD & HY & (b0 & Hb0 & Hl0)). exists b. cbn [lbc set_lbc].
  split_and!; [|done|apply A]. split; cbn [lbc set_lbc l_blocks]; try done.
  - by apply loginv_alike.
  - by split; apply A.
  - intros j x Hj _. by rewrite HB, list_lookup_insert_ne.
  - intros b1 Hb1. congruence.
  - destruct u; cbn in Sp; [rewrite Hu by done; cbn; lia|lia].
  - lia.
  - by rewrite (al_disk _ _ A).
Qed.

(** Other steps while the buffer is held. *)
Lemma since_step (c0 c c' : lgst) (a a' : nat) (i : nat) (n : Z) (b : buf) :
  since c0 c a i n b -> lstep c c' a' -> since c0 c' (a + a') i n b.
Proof.
  intros [] []. split; try done; [intuition congruence|intuition congruence|by eapply same_held_holds| |lia|lia|].
  - intros j x Hj Hx. rewrite (si_others0 j x Hj Hx). by apply ls_held0.
  - by rewrite (proj1 ls_disk0).
Qed.

(** [bstore] keeps everything but the contents. *)
Lemma store_block (c : lgst) (i : nat) (n : Z) (b : buf) (f : memory -> memory) :
  loginv c -> holds_block (lbc c) i n b ->
  let b' := set_data (f (b_data b)) b in
  let c' := set_lbc (set_bufs (<[i := b']> (bufs (lbc c))) (lbc c)) c in
  loginv c' /\ holds_block (lbc c') i n b' /\ view (lbc c') n = f (b_data b) /\
  (forall k, k <> n -> same_block (view (lbc c') k) (view (lbc c) k)).
Proof.
  intros [I P Hlk L Hd Hh] HH b' c'. destruct (put_data (lbc c) i n b (f (b_data b)) I HH) as (I' & H' & V1 & V2).
  split_and!; try done. pose proof HH as ((Hb & D1 & En & Hv) & Hl).
  split; cbn; try done; [by apply (placed_same c)|by apply (logged_same c)|].
  intros k. rewrite <- Hd. split; intros (j & x & Hx & Dx & Ex & Hdx).
  - cbn in Hx. apply list_lookup_insert_Some in Hx as [(<- & <- & _)|(Hj & Hx)]; [by exists i, b|by exists j, x].
  - destruct (decide (j = i)) as [->|Hj].
    + rewrite Hb in Hx. injection Hx as <-. exists i, b'. split_and!; try done. cbn. apply list_lookup_insert_eq.
      by eapply lookup_lt_Some.
    + exists j, x. cbn. by rewrite list_lookup_insert_ne.
Qed.

(** [brelse] of a buffer that was not changed. *)
Lemma drop_block (c0 c : lgst) (a : nat) (i : nat) (n : Z) (b : buf) :
  since c0 c a i n b ->
  wp (onbc (brelse i)) (fun _ c' => lstep c0 c' a /\ (forall k, same_block (view (lbc c') k) (view (lbc c) k))) c.
Proof.
  intros [I HG HD HH HO Hi HS HL HY]. apply wp_zoom. eapply wp_mono; [apply (release_alike _ i n b); [apply I|done|done]|].
  intros _ c1 (A & HB & Sp). cbn [lbc set_lbc]. split; [|apply A]. split; cbn [lbc set_lbc l_blocks]; try done.
  - by apply loginv_alike.
  - by rewrite (al_disk _ _ A), (al_me _ _ A).
  - intros j x Hx. rewrite HB. destruct (decide (j = i)) as [->|Hj]; [|rewrite list_lookup_insert_ne by done; by apply HO].
    split; intros H; [by rewrite (Hi x H) in Hx|]. apply list_lookup_insert_Some in H as [(_ & <- & _)|(? & _)]; done.
  - lia.
Qed.

(** ** Changing a block *)

(** The contents of the block [n] are [m], of the others as before. *)
Definition changes (c c' : lgst) (n : Z) (m : memory) : Prop :=
  same_block (view (lbc c') n) m /\ (forall k, k <> n -> same_block (view (lbc c') k) (view (lbc c) k)).

Lemma spare_same (c : bcst) (i : nat) (b b' : buf) :
  binv c -> bufs c !! i = Some b -> is_locked b = true -> b_refcnt b' = b_refcnt b ->
  count is_unused (<[i := b']> (bufs c)) = spare c.
Proof.
  intros I Hb Hl Hr. pose proof (count_insert is_unused (bufs c) i b b' Hb) as HI.
  assert (Hu : forall x, b_refcnt x = b_refcnt b -> is_unused x = false).
  { intros x Hx. unfold is_unused. rewrite Hx. destruct (bo_held _ _ (bi_bufs _ I i b Hb) Hl) as [-> _]. done. }
  rewrite !Hu in HI by done. change (Nat.b2n false) with 0%nat in HI. lia.
Qed.

Lemma onbc_blocks {A} (m : MB A) (c : lgst) (Q : A -> lgst -> Prop) :
  wp (onbc m) Q c -> wp (onbc m) (fun a c' => Q a c' /\ l_blocks c' = l_blocks c) c.
Proof. unfold wp, onbc, zoom. by destruct (m (lbc c)). Qed.

(** Storing, logging and releasing a block that is held. *)
Lemma finish_change_blocks (c0 c : lgst) (a : nat) (i : nat) (n : Z) (b : buf) (f : memory -> memory) :
  since c0 c a i n b -> 0 <= n < disksize -> home c n -> Z.of_nat (logged_n c) < l_size c - 1 -> 1 <= l_outstanding c ->
  wp (onbc (setb i (fun b => set_data (f (b_data b)) b)) ;;; log_write i ;;; onbc (brelse i))
    (fun _ c' => lstep c0 c' (a + 1) /\ changes c c' n (f (b_data b)) /\ l_blocks c' = absorb n (l_blocks c)) c.
Proof.
  intros HSi Hn Hh HF Ho. pose proof HSi as [I HG HD HH HO Hi HS HL _]. pose proof HH as ((Hb & _) & Hlk).
  wp_step. apply wp_zoom. eapply wp_setb; [exact Hb|].
  destruct (store_block c i n b f I HH) as (I2 & H2 & W2 & V2). set (c2 := set_lbc _ c) in *. set (b2 := set_data _ b) in *.
  wp_step. eapply wp_mono; [by apply (log_write_spec c2 i n b2)|]. intros _ c3 (I3 & H3 & Dy3 & E3 & V3).
  assert (B3 : bufs (lbc c3) = <[i := pinned b2]> (bufs (lbc c))).
  { rewrite E3. unfold c2. cbn. by rewrite list_insert_insert_eq. }
  assert (S3 : since c0 c3 (a + 1) i n (pinned b2)).
  { split; try done.
    - rewrite E3. done.
    - rewrite E3. done.
    - intros j x Hj Hx. rewrite B3, list_lookup_insert_ne by done. by apply HO.
    - rewrite B3, (spare_same _ i b) by (done || apply I). rewrite Dy3. destruct (dirty b); cbn in HS |- *; lia.
    - rewrite E3. cbn. pose proof (absorb_length n (l_blocks c)). lia.
    - by left. }
  eapply wp_mono; [apply onbc_blocks; by apply (drop_block c0 c3 (a + 1) i n (pinned b2))|].
  intros _ c4 [[HL4 V4] B4]. split; [done|]. split; [|by rewrite B4, E3]. split.
  - rewrite (V4 n), (V3 n). by rewrite W2.
  - intros k Hk. by rewrite (V4 k), (V3 k), (V2 k Hk).
Qed.

Lemma finish_change (c0 c : lgst) (a : nat) (i : nat) (n : Z) (b : buf) (f : memory -> memory) :
  since c0 c a i n b -> 0 <= n < disksize -> home c n -> Z.of_nat (logged_n c) < l_size c - 1 -> 1 <= l_outstanding c ->
  wp (onbc (setb i (fun b => set_data (f (b_data b)) b)) ;;; log_write i ;;; onbc (brelse i))
    (fun _ c' => lstep c0 c' (a + 1) /\ changes c c' n (f (b_data b))) c.
Proof.
  intros. eapply wp_mono; [by apply (finish_change_blocks c0 c a i n b f)|]. tauto.
Qed.

Lemma change_block (c : lgst) (n : Z) (f : memory -> memory) :
  loginv c -> unheld (lbc c) n -> 0 <= n < disksize -> home c n -> (0 < spare (lbc c))%nat ->
  Z.of_nat (logged_n c) < l_size c - 1 -> 1 <= l_outstanding c ->
  wp (let! i := onbc (bread 1 n) in
      onbc (setb i (fun b => set_data (f (b_data b)) b)) ;;; log_write i ;;; onbc (brelse i))
    (fun _ c' => lstep c c' 1 /\ exists m0, same_block m0 (view (lbc c) n) /\ changes c c' n (f m0)) c.
Proof.
  intros I HU Hn Hh HS HF Ho. wp_step. eapply wp_mono; [by apply take_block|]. intros i c1 (b & HSi & HD & HV).
  destruct (si_geom _ _ _ _ _ _ HSi) as (_ & G2 & G3 & G4 & _). pose proof (si_len _ _ _ _ _ _ HSi) as HL.
  eapply wp_mono; [apply (finish_change c c1 0 i n b f HSi Hn); [unfold home; by rewrite G2, G3|lia|lia]|].
  intros _ c' [HLs [C1 C2]]. split; [done|]. exists (b_data b). split; [done|]. split; [done|].
  intros k Hk. by rewrite (C2 k Hk).
Qed.

(** ** The reservation of [begin_op] *)

(** What a system call does to a block. *)
Definition write_one (w : Z * (memory -> memory)) : ML unit :=
  let! i := onbc (bread 1 w.1) in
  onbc (setb i (fun b => set_data (w.2 (b_data b)) b)) ;;; log_write i ;;; onbc (brelse i).

(** The writes of the calls in progress, in the order they are made. *)
Fixpoint write_all (ws : list (Z * (memory -> memory))) : ML unit :=
  match ws with
  | [] => ret tt
  | w :: ws => write_one w ;;; write_all ws
  end.

Lemma absorb_new (n : Z) (l : list Z) : n ∉ l -> absorb n l = l ++ [n].
Proof.
  induction l as [|x l IH]; cbn; [done|]. intros [Hx Hl]%not_elem_of_cons.
  rewrite (proj2 (Z.eqb_neq x n)) by congruence. by rewrite IH.
Qed.

(** A log that may still take [ws]: nothing is held, and there are buffers. *)
Record takes_writes (c : lgst) (ws : list (Z * (memory -> memory))) : Prop := mktakes_writes {
  tw_inv : loginv c;
  tw_idle : all_idle (lbc c);
  tw_spare : (length ws <= spare (lbc c))%nat;
  tw_out : 1 <= l_outstanding c;
  tw_nodup : NoDup ws.*1;
  tw_new : forall n, n ∈ ws.*1 -> n ∉ l_blocks c /\ 0 <= n < disksize /\ home c n;
}.

Lemma same_held_idle (c c' : bcst) : same_held c c' -> all_idle c -> all_idle c'.
Proof.
  intros HS HI i b Hb. destruct (is_locked b) eqn:E; [|done]. apply (HS i b E) in Hb. by rewrite (HI i b Hb) in E.
Qed.

Lemma write_one_spec (c : lgst) (w : Z * (memory -> memory)) (ws : list (Z * (memory -> memory))) :
  takes_writes c (w :: ws) -> Z.of_nat (logged_n c) < l_size c - 1 ->
  wp (write_one w) (fun _ c' => takes_writes c' ws /\ l_size c' = l_size c /\ l_blocks c' = l_blocks c ++ [w.1]) c.
Proof.
  intros [I HI HS Ho HN HW] HF. apply NoDup_cons in HN as [Hw HN].
  destruct (HW w.1 ltac:(by left)) as (Hnw & Hd & Hh). cbn [length] in HS.
  unfold write_one. wp_step.
  eapply wp_mono; [apply onbc_blocks, take_block; [done|by apply idle_unheld|done|lia]|].
  intros i c1 [(b & HSi & _ & _) B1]. destruct (si_geom _ _ _ _ _ _ HSi) as (_ & G2 & G3 & G4 & _).
  eapply wp_mono; [apply (finish_change_blocks c c1 0 i w.1 b w.2 HSi Hd); [unfold home; by rewrite G2, G3|by rewrite B1, G3|lia]|].
  intros _ c' (HL & _ & B2). rewrite B1, absorb_new in B2 by done.
  pose proof HL as [I' (_ & E2 & E3 & E4 & _) _ Hheld Hsp _]. split_and!; [|done|done]. split; try done.
  - by eapply same_held_idle.
  - lia.
  - lia.
  - intros n Hn. destruct (HW n ltac:(by right)) as (H1 & H2 & H3). split_and!; [|lia|lia|by eapply lstep_home].
    rewrite B2, elem_of_app, list_elem_of_singleton. intros [?| ->]; done.
Qed.

Lemma write_all_spec (ws rest : list (Z * (memory -> memory))) (c : lgst) :
  takes_writes c (ws ++ rest) -> Z.of_nat (logged_n c + length ws) <= l_size c - 1 ->
  wp (write_all ws) (fun _ c' => takes_writes c' rest /\ l_size c' = l_size c /\ l_blocks c' = l_blocks c ++ ws.*1) c.
Proof.
  revert c. induction ws as [|w ws IH]; intros c HT HF; cbn [write_all app] in *.
  - apply wp_ret. by rewrite app_nil_r.
  - cbn [length] in HF. wp_step. eapply wp_mono; [apply (write_one_spec c w (ws ++ rest) HT); lia|].
    intros _ c1 (T1 & Z1 & B1). eapply wp_mono; [apply (IH c1 T1); rewrite B1, length_app, Z1; cbn [length]; lia|].
    intros _ c2 (T2 & Z2 & B2). split_and!; [done|congruence|]. by rewrite B2, B1, <- app_assoc.
Qed.

(** One block too many. *)
Lemma write_one_full (c : lgst) (w : Z * (memory -> memory)) (ws : list (Z * (memory -> memory))) :
  takes_writes c (w :: ws) -> Z.of_nat (logged_n c) = l_size c - 1 ->
  write_one w c = Panic "too big a transaction".
Proof.
  intros [I HI HS Ho HN HW] HF. destruct (HW w.1 ltac:(by left)) as (_ & Hd & Hh). cbn [length] in HS.
  assert (HT : wp (onbc (bread 1 w.1)) (fun i c' => (exists b, since c c' 0 i w.1 b /\ same_block (b_data b) (view (lbc c) w.1) /\
      (forall k, same_block (view (lbc c') k) (view (lbc c) k))) /\ l_blocks c' = l_blocks c) c).
  { apply onbc_blocks, take_block; [done|by apply idle_unheld|done|lia]. }
  unfold write_one, bind. unfold wp in HT. destruct (onbc (bread 1 w.1) c) as [i c1| | | |]; try done.
  destruct HT as [(b & HSi & _ & _) B1]. destruct (si_geom _ _ _ _ _ _ HSi) as (_ & G2 & G3 & G4 & _).
  unfold onbc at 1, zoom, setb, modify.
  unfold log_write, bind, gets. cbn [l_blocks l_size l_outstanding set_lbc]. rewrite B1, G3.
  rewrite (proj2 (Z.leb_le (l_size c - 1) _)) by lia. by rewrite orb_true_r.
Qed.

Lemma begin_op_enters (c : lgst) :
  l_lock c = false -> l_committing c = 0 -> l_blocks c = [] -> 0 <= l_outstanding c <= 2 ->
  begin_op c = Ok tt (set_outstanding (l_outstanding c + 1) c).
Proof.
  intros Hl Hc Hb Ho. unfold begin_op, acquire_log, bind. rewrite Hl. cbn -[i32]. rewrite Hc, Hb. cbn -[i32].
  rewrite (proj2 (Z.ltb_ge LOGSIZE _)) by (unfold LOGSIZE, MAXOPBLOCKS; lia).
  cbn -[i32]. rewrite i32_id by lia. destruct c; cbn in *. by subst.
Qed.

(** Three calls enter and then make the writes [ws] between them. *)
Definition three_calls (ws : list (Z * (memory -> memory))) : ML unit :=
  begin_op ;;; begin_op ;;; begin_op ;;; write_all ws.

Lemma three_calls_enter (c : lgst) (ws : list (Z * (memory -> memory))) :
  l_lock c = false -> l_committing c = 0 -> l_blocks c = [] -> l_outstanding c = 0 ->
  three_calls ws c = write_all ws (set_outstanding 3 c).
Proof.
  intros Hl Hc Hb Ho. unfold three_calls, bind. rewrite begin_op_enters by (done || lia).
  rewrite begin_op_enters by (done || (cbn; lia)). rewrite begin_op_enters by (done || (cbn; lia)).
  cbn. rewrite Ho. done.
Qed.

(** C18. The space that [begin_op] reserves is one block more than the log has.
    On any log area of [LOGSIZE] blocks, empty and with no call in progress,
    whose blocks no process holds and with a buffer for each block written,
    [begin_op] admits three system calls at once, each entitled to
    [MAXOPBLOCKS] blocks.  If they change [LOGSIZE] different blocks, ten each
    in whatever order, the last [log_write] panics; if they change one block
    fewer, all their blocks are logged. *)
Theorem log_reservation_short (c : lgst) (ws : list (Z * (memory -> memory))) :
  loginv c -> all_idle (lbc c) -> l_size c = LOGSIZE -> l_blocks c = [] ->
  l_outstanding c = 0 -> l_committing c = 0 ->
  Z.of_nat (length ws) = 3 * MAXOPBLOCKS -> (length ws <= spare (lbc c))%nat -> NoDup ws.*1 ->
  (forall n, n ∈ ws.*1 -> 0 <= n < disksize /\ home c n) ->
  three_calls ws c = Panic "too big a transaction" /\
  wp (three_calls (removelast ws)) (fun _ c' => loginv c' /\ l_blocks c' = (removelast ws).*1) c.
Proof.
  intros I HI HZ HB Ho Hc HL HS HN HW. pose proof (lg_lock _ I) as Hlk.
  destruct (exists_last (l := ws)) as (ws1 & w & ->); [by intros ->|].
  rewrite removelast_last. rewrite length_app in HL. cbn [length] in HL. unfold MAXOPBLOCKS in HL.
  assert (T : takes_writes (set_outstanding 3 c) (ws1 ++ [w])).
  { split; try done; [by eapply loginv_same; [..|exact I]|]. intros n Hn. cbn [l_blocks set_outstanding].
    rewrite HB. split_and!; [apply not_elem_of_nil|apply HW; done..]. }
  pose proof (write_all_spec ws1 [w] (set_outstanding 3 c) T) as HA.
  cbn [l_blocks l_size set_outstanding] in HA. rewrite HB, HZ in HA. unfold LOGSIZE, MAXOPBLOCKS in HA.
  specialize (HA ltac:(cbn [length]; lia)). split.
  - rewrite three_calls_enter by done.
    assert (E : forall l m, write_all (l ++ [w]) m = (write_all l ;;; write_one w ;;; ret tt) m).
    { induction l as [|x l IH]; intros m; [done|]. cbn [write_all app]. unfold bind in *.
      destruct (write_one x m); try done. }
    rewrite E. unfold bind. unfold wp in HA. destruct (write_all ws1 _) as [[] c1| | | |]; try done.
    destruct HA as (T1 & Z1 & B1). rewrite (write_one_full c1 w [] T1); [done|].
    rewrite B1, Z1. cbn [app]. rewrite length_fmap. lia.
  - unfold wp. rewrite three_calls_enter by done. eapply wp_mono; [exact HA|].
    intros _ c1 (T1 & _ & B1). split; [apply T1|done].
Qed.
End Blk.

(** A kernel just started, with the thirty buffers of the cache clean. *)
Module FreshLog.
#[export] Instance disk1000 : Disk := { disksize := 1000 }.
Definition bufs0 : list buf := replicate (Z.to_nat NBUF) buf0.
Definition cache0 : bcst := mkbc (fun _ _ => 0) [] bufs0 (seq 0 (length bufs0)) false 1.
Definition log0 : lgst := mklg cache0 2 LOGSIZE 0 0 1 [] false.
Definition ws0 : list (Z * (memory -> memory)) := (fun n => (n, fun _ _ => 7)) <$> seqZ 100 30.

Lemma bufs0_clean (i : nat) (b : buf) : bufs0 !! i = Some b -> b = buf0.
Proof. intros H. by apply lookup_replicate in H as [-> _]. Qed.

Lemma cache0_inv : binv cache0.
Proof.
  split; cbn [bc_lock lru bufs cache0]; [done|apply NoDup_ListNoDup, seq_NoDup| | |].
  - intros i. rewrite elem_of_seq. lia.
  - intros i b ->%bufs0_clean. split; cbn; try done. by left.
  - intros i j b c ->%bufs0_clean ->%bufs0_clean. done.
Qed.

Lemma log0_inv : loginv log0.
Proof.
  split; [apply cache0_inv|split; cbn; unfold LOGSIZE, MAXOPBLOCKS; lia|done| | |done].
  - split; cbn; [apply NoDup_nil_2|by intros n ?%elem_of_nil..|unfold LOGSIZE, MAXOPBLOCKS; lia].
  - intros n. split; [|by intros ?%elem_of_nil].
    intros (i & b & Hb & Dv & _). apply bufs0_clean in Hb as ->. done.
Qed.

Lemma log_reservation_short_witness :
  Z.of_nat (length ws0) = 3 * MAXOPBLOCKS /\ three_calls ws0 log0 = Panic "too big a transaction".
Proof.
  split; [reflexivity|].
  refine (proj1 (log_reservation_short log0 ws0 log0_inv _ eq_refl eq_refl eq_refl eq_refl eq_refl _ _ _)).
  - intros i b Hb. by apply bufs0_clean in Hb as ->.
  - vm_compute. lia.
  - unfold ws0. rewrite <- list_fmap_compose. cbn [fst]. change (compose _ _) with (fun n : Z => n).
    rewrite list_fmap_id. apply NoDup_seqZ.
  - intros n Hn. unfold ws0 in Hn. rewrite <- list_fmap_compose in Hn. apply list_elem_of_fmap in Hn as (k & -> & Hk).
    apply elem_of_seqZ in Hk. unfold home. cbn. unfold LOGSIZE, MAXOPBLOCKS. lia.
Defined.
End FreshLog.
