(* ===== verification/FsAlloc.v ===== *)
(** * FsAlloc: the free-block bitmap

    The invariant of the block layer of the file system inside a transaction,
    and the specifications of [bzero], [balloc] and [bfree]. *)
From stdpp Require Import base gmap list numbers strings.
From Stdlib Require Import ZArith Lia ZifyBool.
From S2P Require Import Prelude Machine Cstring LockThms Bio BioSpec Log LogSpec LogLoops LogThms LogOps Fs FsBlk.

(** ** Bits *)

Lemma land_pow2_test (x k : Z) : 0 <= k -> negb (Z.land x (Z.shiftl 1 k) =? 0) = Z.testbit x k.
Proof.
  intros Hk. rewrite Z.shiftl_1_l. destruct (Z.eqb_spec (Z.land x (2 ^ k)) 0) as [E|E]; cbn.
  - destruct (Z.testbit x k) eqn:Ex; [|done]. exfalso. assert (H : Z.testbit (Z.land x (2 ^ k)) k = true).
    { rewrite Z.land_spec, Ex, Z.pow2_bits_true by lia. done. }
    rewrite E, Z.testbit_0_l in H. done.
  - destruct (Z.testbit x k) eqn:Ex; [done|]. destruct E. apply Z.bits_inj'. intros n Hn.
    rewrite Z.land_spec, Z.testbit_0_l, Z.pow2_bits_eqb by lia. destruct (Z.eqb_spec k n) as [<-|]; [by rewrite Ex|apply andb_false_r].
Qed.

Lemma testbit_u8 (x k : Z) : 0 <= k < 8 -> Z.testbit (u8 x) k = Z.testbit x k.
Proof. intros Hk. unfold u8. change 256 with (2 ^ 8). apply Z.mod_pow2_bits_low. lia. Qed.

Lemma bit_testbit (m : memory) (i : Z) : bit m i = Z.testbit (m (i / 8)) (i mod 8).
Proof. unfold bit. apply land_pow2_test. apply Z.mod_pos_bound. lia. Qed.

Lemma bit_set (m : memory) (i j : Z) : bit (set_bit m i) j = (i =? j) || bit m j.
Proof.
  rewrite !bit_testbit. unfold set_bit, store8. pose proof (Z.mod_pos_bound i 8 ltac:(lia)). pose proof (Z.mod_pos_bound j 8 ltac:(lia)).
  destruct (Z.eqb_spec (j / 8) (i / 8)) as [E|E].
  - rewrite testbit_u8, Z.lor_spec, Z.shiftl_1_l, Z.pow2_bits_eqb, E by lia. rewrite orb_comm. f_equal.
    destruct (Z.eqb_spec i j), (Z.eqb_spec (i mod 8) (j mod 8)); try done; zlia.
  - destruct (Z.eqb_spec i j) as [->|]; [done|]. done.
Qed.

Lemma bit_clear (m : memory) (i j : Z) : bit (clear_bmap_bit m i) j = negb (i =? j) && bit m j.
Proof.
  rewrite !bit_testbit. unfold clear_bmap_bit, store8. pose proof (Z.mod_pos_bound i 8 ltac:(lia)). pose proof (Z.mod_pos_bound j 8 ltac:(lia)).
  destruct (Z.eqb_spec (j / 8) (i / 8)) as [E|E].
  - rewrite testbit_u8, Z.land_spec, Z.lnot_spec, Z.shiftl_1_l, Z.pow2_bits_eqb, E by lia. rewrite andb_comm. f_equal. f_equal.
    destruct (Z.eqb_spec i j), (Z.eqb_spec (i mod 8) (j mod 8)); try done; zlia.
  - destruct (Z.eqb_spec i j) as [->|]; [done|]. done.
Qed.

Lemma bit_same (m m' : memory) (i : Z) : same_block m m' -> 0 <= i < BPB -> bit m i = bit m' i.
Proof. intros H Hi. unfold bit. rewrite H; [done|]. zlia. Qed.

Lemma scan_bits_spec (n : nat) (m : memory) (b size bi : Z) :
  match scan_bits m b size bi n with
  | Some r => bi <= r < bi + Z.of_nat n /\ b + r < size /\ bit m r = false /\ (forall k, bi <= k < r -> bit m k = true)
  | None => forall k, bi <= k < bi + Z.of_nat n -> b + k < size -> bit m k = true
  end.
Proof.
  revert bi. induction n as [|n IH]; intros bi; cbn [scan_bits]; [lia|].
  destruct (Z.ltb_spec (b + bi) size) as [H|H]; [|intros; lia]. destruct (bit m bi) eqn:E.
  - specialize (IH (bi + 1)). destruct (scan_bits m b size (bi + 1) n) as [r|].
    + destruct IH as (H1 & H2 & H3 & H4). split_and!; try done; try lia. intros k Hk.
      destruct (decide (k = bi)) as [->|]; [done|apply H4; lia].
    + intros k Hk Hs. destruct (decide (k = bi)) as [->|]; [done|apply IH; lia].
  - split_and!; try done; lia.
Qed.

(** ** The block layer *)

Section Alloc.
Context `{D : Disk} `{V : DevSw}.
Implicit Types (c : lgst) (sb : superblock).

Notation view' c := (view (lbc c)).

Definition used c sb (b : Z) : bool := bit (view' c (BBLOCK b sb)) (b mod BPB).

(** The first data block. *)
Definition datastart sb : Z := sb_bmapstart sb + sb_size sb / BPB + 1.

(** The areas of the disk, in this order. *)
Record geo c sb : Prop := mkgeo {
  ge_log : 1 < l_start c /\ l_start c + l_size c <= sb_inodestart sb;
  ge_inodes : 0 <= sb_ninodes sb /\ sb_inodestart sb + sb_ninodes sb / IPB < sb_bmapstart sb;
  ge_data : datastart sb <= sb_size sb;
  ge_size : sb_size sb <= disksize;
}.

Definition bytes_ok c : Prop := forall n o, 0 <= n < disksize -> 0 <= o < BSIZE -> 0 <= view' c n o < 256.

(** Only data blocks in use are held. *)
Definition hold_ok c sb : Prop :=
  forall i b, bufs (lbc c) !! i = Some b -> is_locked b = true -> b_dev b = 1 ->
    datastart sb <= b_blockno b < sb_size sb /\ used c sb (b_blockno b) = true.

Record blk_ok c sb : Prop := mkblk_ok {
  bk_log : loginv c;
  bk_geo : geo c sb;
  bk_sb : dec_sb (view' c 1) = sb;
  bk_meta : forall b, 0 <= b < datastart sb -> used c sb b = true;
  bk_bytes : bytes_ok c;
  bk_hold : hold_ok c sb;
  bk_trans : 1 <= l_outstanding c;
}.

(** Room for [k] more changes. *)
Definition budget c (k : nat) : Prop := Z.of_nat (logged_n c + k) < l_size c /\ (k < spare (lbc c))%nat.

Lemma budget_step c c' (a k : nat) : lstep c c' a -> budget c (a + k) -> budget c' k.
Proof.
  intros [_ (_ & _ & E & _) _ _ HS HL] [H1 H2]. unfold budget. rewrite E. lia.
Qed.

Lemma geo_pos c sb : loginv c -> geo c sb -> 1 < sb_inodestart sb /\ sb_inodestart sb < sb_bmapstart sb < datastart sb /\ 0 < sb_size sb.
Proof.
  intros I [[H1 H2] [H3 H4] H5 H6]. pose proof (pl_size _ (lg_placed _ I)) as Hz.
  unfold datastart in *. change BPB with 4096 in *. change IPB with 8 in *. zlia.
Qed.

Lemma bblock_eq c sb (b : Z) :
  loginv c -> geo c sb -> 0 <= b < sb_size sb ->
  BBLOCK b sb = b / BPB + sb_bmapstart sb /\ sb_bmapstart sb <= BBLOCK b sb < datastart sb.
Proof.
  intros I [[H1 H2] [H3 H4] H5 H6] Hb. pose proof (pl_disk _ (lg_placed _ I)) as Hd. pose proof (pl_size _ (lg_placed _ I)) as Hz.
  unfold BBLOCK, datastart in *. change BPB with 4096 in *. change IPB with 8 in *. rewrite u32_id by zlia. split; [done|zlia].
Qed.

Lemma meta_low c sb (n : Z) : blk_ok c sb -> 0 <= n < datastart sb -> unheld (lbc c) n.
Proof.
  intros [_ _ _ _ _ HH _] Hn i b Hb D1 En. destruct (is_locked b) eqn:E; [|done]. destruct (HH i b Hb E D1). lia.
Qed.

Lemma free_unheld c sb (n : Z) : blk_ok c sb -> used c sb n = false -> unheld (lbc c) n.
Proof.
  intros [_ _ _ _ _ HH _] Hn i b Hb D1 En. destruct (is_locked b) eqn:E; [|done]. destruct (HH i b Hb E D1). congruence.
Qed.

Lemma home_above c sb (n : Z) : geo c sb -> sb_inodestart sb <= n -> home c n.
Proof. intros [[H1 H2] _ _ _] Hn. unfold home. lia. Qed.

Lemma geo_step c c' sb (a : nat) : lstep c c' a -> geo c sb -> geo c' sb.
Proof.
  intros HL [H1 H2 H3 H4]. destruct (ls_geom _ _ _ HL) as (_ & E1 & E2 & _). split; try done. by rewrite E1, E2.
Qed.

(** Bits do not depend on other blocks. *)
Lemma used_same c c' sb (b : Z) : 0 <= b -> same_block (view' c' (BBLOCK b sb)) (view' c (BBLOCK b sb)) -> used c' sb b = used c sb b.
Proof. intros Hb H. unfold used. apply bit_same; [done|]. zlia. Qed.

(** The invariant after a step. *)
Lemma blk_build c c' sb (a : nat) :
  blk_ok c sb -> lstep c c' a -> same_block (view' c' 1) (view' c 1) -> bytes_ok c' ->
  (forall b, 0 <= b < sb_size sb -> used c sb b = true -> b < datastart sb \/ ~ unheld (lbc c) b -> used c' sb b = true) ->
  blk_ok c' sb.
Proof.
  intros [I G S HM HB HH HT] HL C1 HB' HU. split; [| | | |done| |].
  - apply HL.
  - by eapply geo_step.
  - rewrite <- S. unfold dec_sb. f_equal; apply load32_same; intros o Ho; apply C1; unfold BSIZE; lia.
  - intros b Hb. pose proof (ge_data _ _ G). apply HU; [lia|by apply HM|lia].
  - intros i b Hb Hl D1. apply (ls_held _ _ _ HL i b Hl) in Hb. destruct (HH i b Hb Hl D1) as [H1 H2]. split; [done|].
    apply HU; [|done|right; intros HUn; by rewrite (HUn i b Hb D1 eq_refl) in Hl].
    pose proof (geo_pos c sb I G). lia.
  - destruct (ls_geom _ _ _ HL) as (_ & _ & _ & -> & _). done.
Qed.

(** One block changes. *)
Lemma bytes_change c c' (n : Z) (m : memory) :
  bytes_ok c -> changes c c' n m -> (forall o, 0 <= o < BSIZE -> 0 <= m o < 256) -> bytes_ok c'.
Proof.
  intros HB [C1 C2] Hm k o Hk Ho. destruct (decide (k = n)) as [->|Hkn]; [rewrite (C1 o Ho); by apply Hm|].
  rewrite (C2 k Hkn o Ho). by apply HB.
Qed.

Lemma blk_keep c c' sb (a : nat) (n : Z) (m : memory) :
  blk_ok c sb -> lstep c c' a -> changes c c' n m -> (forall o, 0 <= o < BSIZE -> 0 <= m o < 256) -> n <> 1 ->
  (forall b, 0 <= b < sb_size sb -> used c sb b = true -> b < datastart sb \/ ~ unheld (lbc c) b -> used c' sb b = true) ->
  blk_ok c' sb.
Proof. intros O HL C Hm Hn HU. apply (blk_build c c' sb a O HL); [by apply C|by eapply bytes_change; [apply O|..]|done]. Qed.

Lemma blk_ok_geo_pos c sb : blk_ok c sb -> 1 < sb_inodestart sb < sb_bmapstart sb /\ sb_bmapstart sb < datastart sb <= sb_size sb /\ sb_size sb <= disksize.
Proof. intros O. pose proof (geo_pos _ _ (bk_log _ _ O) (bk_geo _ _ O)). destruct (bk_geo _ _ O). lia. Qed.

(** ** Steps of [fs.c] *)

Implicit Types (s : fsst).

(** Only the log changed. *)
Definition flstep s s' (a : nat) : Prop := s' = set_flog (flog s') s /\ lstep (flog s) (flog s') a.

Lemma flstep_trans s1 s2 s3 (a b : nat) : flstep s1 s2 a -> flstep s2 s3 b -> flstep s1 s3 (a + b).
Proof. intros [E1 L1] [E2 L2]. split; [rewrite E2, E1; done|by eapply lstep_trans]. Qed.

Lemma wp_finish (bp : nat) (f : memory -> memory) {A} (k : MF A) Q s :
  wp (onbc (setb bp (fun b => set_data (f (b_data b)) b)) ;;; log_write bp ;;; onbc (brelse bp))
    (fun _ c => wp k Q (set_flog c s)) (flog s) ->
  wp (bstore bp f ;;; onlog (log_write bp) ;;; onbuf (brelse bp) ;;; k) Q s.
Proof.
  unfold wp, bstore, onbuf, onlog, onbc, zoom, bind. cbn [setb modify].
  destruct (log_write bp _) as [[] c2| | | |]; try done. cbn [flog set_flog].
  destruct (brelse bp (lbc c2)) as [[] c3| | | |]; done.
Qed.

Lemma wp_finish_last (bp : nat) (f : memory -> memory) Q s :
  wp (onbc (setb bp (fun b => set_data (f (b_data b)) b)) ;;; log_write bp ;;; onbc (brelse bp))
    (fun u c => Q u (set_flog c s)) (flog s) ->
  wp (bstore bp f ;;; onlog (log_write bp) ;;; onbuf (brelse bp)) Q s.
Proof.
  unfold wp, bstore, onbuf, onlog, onbc, zoom, bind. cbn [setb modify].
  destruct (log_write bp _) as [[] c2| | | |]; try done. cbn [flog set_flog].
  destruct (brelse bp (lbc c2)) as [[] c3| | | |]; done.
Qed.

(** Reading a block into a buffer. *)
Lemma wp_bread (n : Z) {A} (k : nat -> MF A) Q s :
  loginv (flog s) -> unheld (lbc (flog s)) n -> 0 <= n < disksize -> (0 < spare (lbc (flog s)))%nat ->
  (forall i b c, since (flog s) c 0 i n b -> same_block (b_data b) (view' (flog s) n) ->
     (forall k, same_block (view' c k) (view' (flog s) k)) -> wp (k i) Q (set_flog c s)) ->
  wp (bind (onbuf (bread 1 n)) k) Q s.
Proof.
  intros I HU Hn HS HK. wp_step. apply wp_zoom. eapply wp_mono; [by apply take_block|]. intros i c (b & H1 & H2 & H3). by apply (HK i b c).
Qed.

Lemma wp_bdata (i : nat) (n : Z) (b : buf) {A} (k : memory -> MF A) Q s :
  holds_block (lbc (flog s)) i n b -> wp (k (b_data b)) Q s -> wp (bind (bdata i) k) Q s.
Proof.
  intros ((Hb & _) & _) HK. unfold bdata, wp, bind, onbuf, onlog, onbc, zoom, getb, ret. rewrite Hb. by destruct s as [[]].
Qed.

Lemma wp_brelse c0 (a : nat) (i : nat) (n : Z) (b : buf) {A} (k : MF A) Q s :
  since c0 (flog s) a i n b ->
  (forall c, lstep c0 c a -> (forall k, same_block (view' c k) (view' (flog s) k)) -> wp k Q (set_flog c s)) ->
  wp (onbuf (brelse i) ;;; k) Q s.
Proof.
  intros HSi HK. wp_step. apply wp_zoom. eapply wp_mono; [by apply (drop_block c0 _ a i n b)|]. intros [] c [H1 H2]. by apply HK.
Qed.

Lemma bzero_spec s sb (n : Z) :
  blk_ok (flog s) sb -> unheld (lbc (flog s)) n -> sb_inodestart sb <= n < disksize -> budget (flog s) 1 ->
  wp (bzero 1 n) (fun _ s' => flstep s s' 1 /\ changes (flog s) (flog s') n (fun _ => 0)) s.
Proof.
  intros O HU Hn [B1 B2]. pose proof (bk_log _ _ O) as I. pose proof (geo_pos _ _ I (bk_geo _ _ O)) as HG.
  unfold bzero. apply wp_bread; [done|done|lia|lia|]. intros i b c HSi HD HV. apply (wp_finish_last i (fun m => memset m 0 0 BSIZE)).
  destruct (si_geom _ _ _ _ _ _ HSi) as (_ & G2 & G3 & G4 & _). pose proof (si_len _ _ _ _ _ _ HSi) as HL.
  eapply wp_mono; [apply (finish_change (flog s) c 0 i n b (fun m => memset m 0 0 BSIZE) HSi); [lia| |cbn; lia|pose proof (bk_trans _ _ O); cbn; lia]|].
  { cbn. unfold home. rewrite G2, G3. by apply (home_above _ sb); [apply O|lia]. }
  intros _ c' [HLs [C1 C2]]. split; [split; [done|exact HLs]|]. split.
  - cbn. rewrite C1. intros o Ho. rewrite memset_spec by (unfold BSIZE in *; lia). unfold BSIZE in *. case_match; zbool; lia || done.
  - intros k Hk. cbn. rewrite (C2 k Hk). cbn. apply HV.
Qed.

(** ** [balloc] *)

Record allocated s s' sb (b : Z) : Prop := mkallocated {
  ad_step : flstep s s' 2;
  ad_ok : blk_ok (flog s') sb;
  ad_range : datastart sb <= b < sb_size sb;
  ad_was : used (flog s) sb b = false;
  ad_first : forall k, 0 <= k < b -> used (flog s) sb k = true;
  ad_used : forall k, 0 <= k < sb_size sb -> used (flog s') sb k = (b =? k) || used (flog s) sb k;
  ad_zero : same_block (view' (flog s') b) (fun _ => 0);
  ad_views : forall n, n <> b -> n < sb_bmapstart sb \/ datastart sb <= n -> same_block (view' (flog s') n) (view' (flog s) n);
}.

Lemma store8_byte (m : memory) (a v : Z) :
  (forall o, 0 <= o < BSIZE -> 0 <= m o < 256) -> forall o, 0 <= o < BSIZE -> 0 <= store8 m a v o < 256.
Proof. intros H o Ho. unfold store8. case_match; [unfold u8; apply Z.mod_pos_bound; lia|by apply H]. Qed.

(** Blocks of the same bitmap block. *)
Lemma bblock_same c sb (b k : Z) :
  loginv c -> geo c sb -> 0 <= b < sb_size sb -> 0 <= k < sb_size sb -> BBLOCK b sb = BBLOCK k sb <-> b / BPB = k / BPB.
Proof. intros I G Hb Hk. rewrite (proj1 (bblock_eq c sb b I G Hb)), (proj1 (bblock_eq c sb k I G Hk)). lia. Qed.

(** Setting the bit of the block [b]. *)
Lemma set_used c c' sb (b : Z) (m : memory) :
  loginv c -> geo c sb -> 0 <= b < sb_size sb -> same_block m (view' c (BBLOCK b sb)) ->
  changes c c' (BBLOCK b sb) (set_bit m (b mod BPB)) ->
  forall k, 0 <= k < sb_size sb -> used c' sb k = (b =? k) || used c sb k.
Proof.
  intros I G Hb Hm [C1 C2] k Hk. destruct (decide (BBLOCK k sb = BBLOCK b sb)) as [E|E].
  - unfold used. rewrite E, (bit_same _ _ _ C1), bit_set, (bit_same _ _ _ Hm) by zlia. f_equal.
    apply (bblock_same c sb k b I G Hk Hb) in E. change BPB with 4096 in *.
    destruct (Z.eqb_spec (b mod 4096) (k mod 4096)), (Z.eqb_spec b k); try done; zlia.
  - rewrite (used_same c c' sb k); [|lia|by apply C2]. destruct (Z.eqb_spec b k) as [->|]; done.
Qed.

(** The block found by the scan, marked and zeroed. *)
Lemma balloc_found s sb (c1 : lgst) (b : Z) (i : nat) (bf : buf) :
  blk_ok (flog s) sb -> budget (flog s) 2 -> 0 <= b < sb_size sb -> used (flog s) sb b = false ->
  (forall k, 0 <= k < b -> used (flog s) sb k = true) ->
  since (flog s) c1 0 i (BBLOCK b sb) bf -> same_block (b_data bf) (view' (flog s) (BBLOCK b sb)) ->
  (forall k, same_block (view' c1 k) (view' (flog s) k)) ->
  wp (bstore i (fun m => set_bit m (b mod BPB)) ;;; onlog (log_write i) ;;; onbuf (brelse i) ;;; bzero 1 b ;;; ret (inr (A := Z) b))
    (fun r s' => r = inr b /\ allocated s s' sb b) (set_flog c1 s).
Proof.
  intros O [B1 B2] Hb Hu Hfst HSi HD HV. pose proof (bk_log _ _ O) as I. pose proof (bk_geo _ _ O) as G.
  pose proof (geo_pos _ _ I G) as HG. destruct (bblock_eq _ _ b I G Hb) as [EB HB].
  assert (Hlow : datastart sb <= b).
  { destruct (Z.le_gt_cases (datastart sb) b); [done|]. rewrite (bk_meta _ _ O b) in Hu by lia. done. }
  pose proof (ge_size _ _ G) as Hsz. pose proof (ge_data _ _ G) as Hdt.
  destruct (si_geom _ _ _ _ _ _ HSi) as (_ & G2 & G3 & G4 & _). pose proof (si_len _ _ _ _ _ _ HSi) as HL.
  apply wp_finish. cbn [flog set_flog].
  eapply wp_mono; [apply (finish_change (flog s) c1 0 i (BBLOCK b sb) bf (fun m => set_bit m (b mod BPB)) HSi); [lia| |lia|]|].
  { unfold home. rewrite G2, G3. by apply (home_above _ sb); [|lia]. }
  { rewrite G4. apply O. }
  intros [] c2 [HL2 [C1 C2]].
  assert (C : changes (flog s) c2 (BBLOCK b sb) (set_bit (b_data bf) (b mod BPB))).
  { split; [done|]. intros k Hk. by rewrite (C2 k Hk). }
  assert (HU2 : forall k, 0 <= k < sb_size sb -> used c2 sb k = (b =? k) || used (flog s) sb k).
  { by eapply set_used. }
  assert (O2 : blk_ok c2 sb).
  { eapply (blk_keep (flog s) c2 sb _ _ _ O HL2 C).
    - apply store8_byte. intros o Ho. rewrite (HD o Ho). apply O; [lia|done].
    - lia.
    - intros k Hk Hku _. rewrite HU2, Hku by done. apply orb_true_r. }
  cbn [set_flog]. wp_step.
  assert (Bu2 : budget c2 1) by (apply (budget_step (flog s) c2 1 1 HL2); split; lia).
  eapply wp_mono; [apply (bzero_spec (set_flog c2 s) sb b); [done|by eapply same_held_unheld; [apply HL2|eapply free_unheld]|lia|done]|].
  intros [] s3 [[E3 L3] [Z1 Z2]]. cbn [flog set_flog] in *. apply wp_ret. split; [done|].
  assert (HU3 : forall k, 0 <= k < sb_size sb -> used (flog s3) sb k = used c2 sb k).
  { intros k Hk. apply used_same; [lia|]. apply Z2. destruct (bblock_eq _ _ k I G Hk). lia. }
  split; try done.
  - split; [rewrite E3; done|by apply (lstep_trans _ c2 _ 1 1)].
  - eapply (blk_keep c2 (flog s3) sb _ b _ O2 L3); [by split|intros; lia|lia|]. intros k Hk Hku _. by rewrite HU3.
  - lia.
  - intros k Hk. rewrite HU3, HU2 by done. done.
  - intros n Hn Hnn. rewrite (Z2 n Hn), (proj2 C n); [done|lia].
Qed.

(** Nothing is written. *)
Definition reads s s' (a : nat) : Prop :=
  flstep s s' a /\ (forall k, same_block (view' (flog s') k) (view' (flog s) k)).

Lemma blk_reads s s' sb (a : nat) : blk_ok (flog s) sb -> reads s s' a -> blk_ok (flog s') sb.
Proof.
  intros O [[_ L] HV]. apply (blk_keep (flog s) (flog s') sb a 0 (view' (flog s) 0) O L).
  - by split; [apply HV|].
  - intros o Ho. apply O; [|done]. pose proof (bk_log _ _ O) as I. pose proof (geo_pos _ _ I (bk_geo _ _ O)).
    pose proof (ge_data _ _ (bk_geo _ _ O)). pose proof (ge_size _ _ (bk_geo _ _ O)). lia.
  - done.
  - intros b Hb Hu _. rewrite (used_same (flog s)); [done|lia|apply HV].
Qed.

Lemma allocated_after s s1 s' sb (b : Z) : reads s s1 0 -> blk_ok (flog s) sb -> allocated s1 s' sb b -> allocated s s' sb b.
Proof.
  intros [L HV] O [A1 A2 A3 A4 A5 A6 A7 A8].
  assert (HU : forall k, 0 <= k -> used (flog s1) sb k = used (flog s) sb k).
  { intros k Hk. apply used_same; [done|apply HV]. }
  pose proof (geo_pos _ _ (bk_log _ _ O) (bk_geo _ _ O)). split; try done.
  - by apply (flstep_trans s s1 s' 0 2).
  - rewrite <- HU; [done|lia].
  - intros k Hk. rewrite <- HU by lia. by apply A5.
  - intros k Hk. rewrite A6 by done. rewrite HU by lia. done.
  - intros n Hn Hnn. rewrite (A8 n Hn Hnn). apply HV.
Qed.

(** One block of the bitmap. *)
Lemma balloc_body_spec s sb (b k0 : Z) :
  blk_ok (flog s) sb -> fsb s = sb -> budget (flog s) 2 -> 0 <= b <= k0 -> b mod BPB = 0 -> k0 < sb_size sb ->
  used (flog s) sb k0 = false -> (forall k, 0 <= k < b -> used (flog s) sb k = true) ->
  wp (balloc_body 1 b) (fun r s' =>
    match r with
    | inl b' => reads s s' 0 /\ b' = b + BPB /\ b' <= k0 /\ (forall k, 0 <= k < b' -> used (flog s) sb k = true)
    | inr a => allocated s s' sb a
    end) s.
Proof.
  intros O Es Bu Hb Hm Hk0 Hf Hlow. pose proof (bk_log _ _ O) as I. pose proof (bk_geo _ _ O) as G.
  unfold balloc_body. do 2 (wp_step; cbn beta). rewrite Es. rewrite (proj2 (Z.ltb_lt b (sb_size sb))) by lia.
  pose proof (geo_pos _ _ I G) as HG. destruct (bblock_eq _ _ b I G ltac:(lia)) as [EB HB].
  pose proof (ge_data _ _ G). pose proof (ge_size _ _ G). destruct Bu as [Bu1 Bu2].
  apply wp_bread; [done|apply (meta_low _ sb); [done|lia]|lia|lia|]. intros i bf c HSi HD HV.
  apply (wp_bdata i (BBLOCK b sb) bf); [apply HSi|].
  assert (HU : forall j, 0 <= j < BPB -> b + j < sb_size sb -> bit (b_data bf) j = used (flog s) sb (b + j)).
  { intros j Hj Hs. rewrite (bit_same _ _ j HD Hj). unfold used. change BPB with 4096 in *.
    rewrite (proj2 (bblock_same (flog s) sb b (b + j) I G ltac:(lia) ltac:(lia))) by (change BPB with 4096; zlia). f_equal. zlia. }
  pose proof (scan_bits_spec (Z.to_nat BPB) (b_data bf) b (sb_size sb) 0) as HSc.
  destruct (scan_bits (b_data bf) b (sb_size sb) 0 (Z.to_nat BPB)) as [bi|].
  - destruct HSc as (R1 & R2 & R3 & R4). rewrite Z2Nat.id in R1 by done. rewrite HU in R3 by lia.
    assert (EM : (b + bi) mod BPB = bi) by (change BPB with 4096 in *; zlia).
    assert (EBB : BBLOCK b sb = BBLOCK (b + bi) sb) by (apply (bblock_same (flog s)); try done; change BPB with 4096 in *; zlia).
    rewrite EBB in *. pose proof (balloc_found s sb c (b + bi) i bf O) as HFd. rewrite EM in HFd.
    eapply wp_mono; [apply HFd; try done; [lia|]|].
    + intros k Hk. destruct (Z.lt_ge_cases k b); [apply Hlow; lia|]. replace k with (b + (k - b)) by lia.
      rewrite <- HU by lia. apply R4. lia.
    + intros r s' [-> HA]. done.
  - rewrite Z2Nat.id in HSc by done.
    assert (HA : forall k, 0 <= k < b + BPB -> k < sb_size sb -> used (flog s) sb k = true).
    { intros k Hk Hs. destruct (Z.lt_ge_cases k b); [apply Hlow; lia|]. replace k with (b + (k - b)) by lia.
      rewrite <- HU by lia. apply HSc; lia. }
    apply (wp_brelse (flog s) 0 i (BBLOCK b sb) bf); [done|]. intros c' HL' HV'. apply wp_ret.
    assert (Hle : b + BPB <= k0).
    { destruct (Z.le_gt_cases (b + BPB) k0); [done|]. rewrite HA in Hf by lia. done. }
    split_and!; try done; [split; [by split|]|].
    + intros k. cbn [flog set_flog] in *. by rewrite (HV' k), (HV k).
    + intros k Hk. apply HA; lia.
Qed.

(** [balloc]: the first free block, marked and zeroed. *)
Lemma balloc_spec s sb (k0 : Z) :
  blk_ok (flog s) sb -> fsb s = sb -> budget (flog s) 2 -> 0 <= k0 < sb_size sb -> used (flog s) sb k0 = false ->
  wp (balloc 1) (fun b s' => allocated s s' sb b) s.
Proof.
  intros O Es Bu Hk0 Hf. unfold balloc. wp_step. cbn beta. wp_step. rewrite Es.
  apply (wp_loop (fun b s1 => reads s s1 0 /\ 0 <= b <= k0 /\ b mod BPB = 0 /\ (forall k, 0 <= k < b -> used (flog s) sb k = true))
           (fun b => Z.to_nat ((k0 - b) / BPB))).
  - intros b s1 (R & Hb & Hm & Hlow). pose proof (blk_reads _ _ _ _ O R) as O1. destruct R as [[E1 L1] V1].
    assert (HU : forall k, 0 <= k -> used (flog s1) sb k = used (flog s) sb k).
    { intros k Hk. apply used_same; [done|apply V1]. }
    eapply wp_mono; [apply (balloc_body_spec s1 sb b k0); try done; try lia|].
    + by rewrite E1.
    + by apply (budget_step _ _ 0 2 L1).
    + rewrite HU by lia. done.
    + intros k Hk. rewrite HU by lia. by apply Hlow.
    + intros [b'|a] s'; [|by apply allocated_after]. intros ([L2 V2] & -> & Hle & Hlow2). change BPB with 4096 in *. split_and!; try zlia.
      * split; [by apply (flstep_trans s s1 s' 0 0)|]. intros k. by rewrite (V2 k), (V1 k).
      * intros k Hk. rewrite <- HU by lia. by apply Hlow2.
  - split_and!; try done; try lia. split; [split; [by destruct s|by apply lstep_refl, O]|done].
  - change BPB with 4096 in *. zlia.
Qed.

(** ** [bfree] *)

Lemma readsb_spec s sb : blk_ok (flog s) sb -> budget (flog s) 0 -> wp (onbuf (readsb 1)) (fun r s' => reads s s' 0 /\ r = sb) s.
Proof.
  intros O [B1 B2]. pose proof (blk_ok_geo_pos _ _ O) as HG. unfold readsb.
  assert (HX : forall Q, wp (let! i := onbuf (bread 1 1) in let! m := bdata i in onbuf (brelse i) ;;; ret (dec_sb m)) Q s ->
    wp (onbuf (let! i := bread 1 1 in let! b := getb i in brelse i ;;; ret (dec_sb (b_data b)))) Q s).
  { intros Q. unfold wp, bdata, onbuf, onlog, onbc, zoom, bind, ret. destruct (bread 1 1 (lbc (flog s))) as [i c| | | |]; try done. cbn.
    destruct (getb i c) as [b c2| | | |]; try done. cbn. destruct (brelse i c2) as [[] c3| | | |]; try done. }
  apply HX. apply wp_bread; [apply O|apply (meta_low _ sb); [done|lia]|lia|lia|]. intros i b c HSi HD HV.
  apply (wp_bdata i 1 b); [apply HSi|]. apply (wp_brelse (flog s) 0 i 1 b); [done|]. intros c' HL HV'. apply wp_ret. cbn [flog set_flog] in HV'.
  split; [split; [by split|]|].
  - intros k. cbn [flog set_flog]. by rewrite (HV' k), (HV k).
  - rewrite <- (bk_sb _ _ O). unfold dec_sb. f_equal; apply load32_same; intros o Ho; apply HD; unfold BSIZE; lia.
Qed.

Lemma clear_used c c' sb (b : Z) (m : memory) :
  loginv c -> geo c sb -> 0 <= b < sb_size sb -> same_block m (view' c (BBLOCK b sb)) ->
  changes c c' (BBLOCK b sb) (clear_bmap_bit m (b mod BPB)) ->
  forall k, 0 <= k < sb_size sb -> used c' sb k = negb (b =? k) && used c sb k.
Proof.
  intros I G Hb Hm [C1 C2] k Hk. destruct (decide (BBLOCK k sb = BBLOCK b sb)) as [E|E].
  - unfold used. rewrite E, (bit_same _ _ _ C1), bit_clear, (bit_same _ _ _ Hm) by zlia. f_equal. f_equal.
    apply (bblock_same c sb k b I G Hk Hb) in E. change BPB with 4096 in *.
    destruct (Z.eqb_spec (b mod 4096) (k mod 4096)), (Z.eqb_spec b k); try done; zlia.
  - rewrite (used_same c c' sb k); [|lia|by apply C2]. destruct (Z.eqb_spec b k) as [->|]; done.
Qed.

Record freed s s' sb (b : Z) : Prop := mkfreed {
  fd_step : flstep s s' 1;
  fd_ok : blk_ok (flog s') sb;
  fd_used : forall k, 0 <= k < sb_size sb -> used (flog s') sb k = negb (b =? k) && used (flog s) sb k;
  fd_views : forall n, n < sb_bmapstart sb \/ datastart sb <= n -> same_block (view' (flog s') n) (view' (flog s) n);
}.

Lemma bfree_spec s sb (b : Z) :
  blk_ok (flog s) sb -> fsb s = sb -> budget (flog s) 1 -> datastart sb <= b < sb_size sb -> used (flog s) sb b = true ->
  unheld (lbc (flog s)) b -> wp (bfree 1 b) (fun _ s' => freed s s' sb b) s.
Proof.
  intros O Es Bu Hb Hu HH. unfold bfree. wp_step. eapply wp_mono; [apply readsb_spec; [done|]|].
  { unfold budget in *. lia. }
  intros r s1 [R ->]. pose proof (blk_reads _ _ _ _ O R) as O1. destruct R as [[E1 L1] V1]. wp_step. cbn beta. wp_step.
  assert (E2 : set_fsb sb s1 = s1) by (rewrite E1; destruct s; cbn in *; by subst). rewrite E2.
  pose proof (budget_step _ _ 0 1 L1 Bu) as [B1 B2]. pose proof (blk_ok_geo_pos _ _ O) as HG.
  pose proof (bk_log _ _ O1) as I1. pose proof (bk_geo _ _ O1) as G1. destruct (bblock_eq _ _ b I1 G1 ltac:(lia)) as [EB HB].
  assert (Hu1 : used (flog s1) sb b = true) by (rewrite (used_same (flog s)); [done|lia|apply V1]).
  apply wp_bread; [done|apply (meta_low _ sb); [done|lia]|lia|lia|]. intros i bf c HSi HD HV.
  apply (wp_bdata i (BBLOCK b sb) bf); [apply HSi|]. cbv zeta.
  rewrite (bit_same _ _ _ HD) by zlia. unfold used in Hu1. rewrite Hu1. cbn [negb].
  destruct (si_geom _ _ _ _ _ _ HSi) as (_ & G2 & G3 & G4 & _). pose proof (si_len _ _ _ _ _ _ HSi) as HL. pose proof (bk_trans _ _ O1).
  apply (wp_finish_last i (fun m => clear_bmap_bit m (b mod BPB))). cbn [flog set_flog].
  eapply wp_mono; [apply (finish_change (flog s1) c 0 i (BBLOCK b sb) bf (fun m => clear_bmap_bit m (b mod BPB)) HSi); [lia| |lia|lia]|].
  { unfold home. rewrite G2, G3. by apply (home_above _ sb); [|lia]. }
  intros [] c3 [L3 [C1 C2]]. cbn [flog set_flog].
  assert (C : changes (flog s1) c3 (BBLOCK b sb) (clear_bmap_bit (b_data bf) (b mod BPB))).
  { split; [done|]. intros k Hk. by rewrite (C2 k Hk). }
  assert (HU3 : forall k, 0 <= k < sb_size sb -> used c3 sb k = negb (b =? k) && used (flog s) sb k).
  { intros k Hk. rewrite (clear_used (flog s1) c3 sb b (b_data bf)) by (done || lia). f_equal. apply used_same; [lia|apply V1]. }
  assert (L : lstep (flog s) c3 1) by (by apply (lstep_trans _ (flog s1) _ 0 1)).
  split; cbn [flog set_flog]; [split; [rewrite E1; done|done]| |done|].
  - apply (blk_build (flog s) c3 sb 1 O L).
    + rewrite (proj2 C 1) by lia. apply V1.
    + eapply bytes_change; [apply O1|exact C|]. apply store8_byte. intros o Ho. rewrite (HD o Ho). apply O1; [lia|done].
    + intros k Hk Hku Hkk. rewrite HU3, Hku by done. destruct (Z.eqb_spec b k) as [<-|]; [|done]. destruct Hkk as [|Hkk]; [lia|done].
  - intros n Hn. rewrite (proj2 C n) by lia. apply V1.
Qed.

(** [balloc] inside a transaction, on a disk with a free block: it returns
    the first free block, which is a data block, marks it in use and changes no
    other bit of the bitmap, fills it with zeros, and changes no inode, no
    superblock and no other data block; the buffer cache and the log lose at
    most two entries.  [bfree] of that block puts the bitmap back as it was and
    does not panic. *)
Theorem balloc_bfree s sb (k0 : Z) :
  blk_ok (flog s) sb -> fsb s = sb -> budget (flog s) 3 -> 0 <= k0 < sb_size sb -> used (flog s) sb k0 = false ->
  wp (balloc 1) (fun b s' => allocated s s' sb b /\
    wp (bfree 1 b) (fun _ s'' => freed s' s'' sb b /\ forall k, 0 <= k < sb_size sb -> used (flog s'') sb k = used (flog s) sb k) s') s.
Proof.
  intros O Es Bu Hk Hu. eapply wp_mono; [apply (balloc_spec s sb k0); try done; unfold budget in *; lia|]. intros b s1 A. split; [done|].
  destruct A as [[E1 L1] A2 A3 A4 A5 A6 A7 A8]. pose proof (blk_ok_geo_pos _ _ O) as HG.
  eapply wp_mono; [apply (bfree_spec s1 sb b); [done|by rewrite E1|by apply (budget_step _ _ 2 1 L1)|done| |]|].
  - rewrite A6, Z.eqb_refl by lia. done.
  - apply (same_held_unheld (lbc (flog s))); [apply L1|]. by apply (free_unheld _ sb).
  - intros [] s2 F. split; [done|]. intros k Hkk. rewrite (fd_used _ _ _ _ F), A6 by done.
    destruct (Z.eqb_spec b k) as [<-|]; [by rewrite A4|done].
Qed.
End Alloc.
