(* ===== verification/FsInode.v ===== *)
(** * FsInode: the blocks of a file

    Where the blocks of an inode are, the invariant of its addresses, and the
    specification of [bmap]: it finds the block or allocates a zeroed one, and
    keeps the contents of the file and of all others. *)
From stdpp Require Import base gmap list numbers strings.
From Stdlib Require Import ZArith Lia ZifyBool.
From S2P Require Import Prelude Machine Cstring LockThms Bio BioSpec Log LogSpec LogLoops LogThms LogOps Fs FsBlk FsAlloc.

(** ** Counting *)

Lemma filter_length_le {A} (f g : A -> bool) (l : list A) :
  (forall x, x ∈ l -> f x = true -> g x = true) -> (length (List.filter f l) <= length (List.filter g l))%nat.
Proof.
  induction l as [|x l IH]; intros H; cbn; [done|].
  assert (IH' := IH ltac:(intros; apply H; [by right|done])). pose proof (H x ltac:(left)) as Hx.
  destruct (f x), (g x); cbn; lia.
Qed.

Lemma filter_length_drop (f : Z -> bool) (b : Z) (l : list Z) :
  NoDup l -> (length (List.filter f l) <= length (List.filter (fun k => negb (b =? k)%Z && f k) l) + 1)%nat.
Proof.
  induction 1 as [|x l Hx _ IH]; cbn; [lia|]. destruct (Z.eqb_spec b x) as [->|Hne]; cbn.
  - enough (length (List.filter f l) <= length (List.filter (fun k => negb (x =? k)%Z && f k) l))%nat by (destruct (f x); cbn; lia).
    apply filter_length_le. intros y Hy ->. destruct (Z.eqb_spec x y) as [->|]; done.
  - destruct (f x); cbn; lia.
Qed.

Section Inode.
Context `{D : Disk} `{V : DevSw}.
Implicit Types (c : lgst) (sb : superblock) (d : dinode) (s : fsst).

Notation view' c := (view (lbc c)).

(** ** Free blocks *)

Definition nfree c sb : nat := length (List.filter (fun k => negb (used c sb k)) (seqZ 0 (sb_size sb))).

Lemma nfree_some c sb : (0 < nfree c sb)%nat -> exists k, 0 <= k < sb_size sb /\ used c sb k = false.
Proof.
  unfold nfree. intros H. destruct (List.filter _ _) as [|k l] eqn:E; [by cbn in H; lia|].
  assert (Hk : In k (k :: l)) by (by left). rewrite <- E in Hk. apply List.filter_In in Hk as [H1 H2].
  apply list_elem_of_In, elem_of_seqZ in H1. exists k. split; [lia|]. by destruct (used c sb k).
Qed.

Lemma nfree_same c c' sb : (forall k, 0 <= k < sb_size sb -> used c' sb k = used c sb k) -> nfree c' sb = nfree c sb.
Proof.
  intros H. unfold nfree. apply Nat.le_antisymm; apply filter_length_le; intros k Hk; apply elem_of_seqZ in Hk; by rewrite H by lia.
Qed.

Lemma nfree_alloc c c' sb (b : Z) :
  (forall k, 0 <= k < sb_size sb -> used c' sb k = (b =? k) || used c sb k) -> (nfree c sb <= nfree c' sb + 1)%nat.
Proof.
  intros H. unfold nfree. etrans; [apply (filter_length_drop _ b), NoDup_seqZ|]. apply Nat.add_le_mono_r.
  apply filter_length_le. intros k Hk. apply elem_of_seqZ in Hk. rewrite H by lia. by destruct (b =? k).
Qed.

(** ** The addresses of an inode *)

Definition indirect d : Z := nth (Z.to_nat NDIRECT) (d_addrs d) 0.

(** The disk block of the block [bn] of the file, or zero. *)
Definition blockof c d (bn : Z) : Z :=
  if bn <? NDIRECT then nth (Z.to_nat bn) (d_addrs d) 0
  else if indirect d =? 0 then 0 else load32 (view' c (indirect d)) (4 * (bn - NDIRECT)).

Definition data_block c sb (a : Z) : Prop := datastart sb <= a < sb_size sb /\ used c sb a = true.

Record ino_ok c sb d : Prop := mkino_ok {
  io_len : length (d_addrs d) = Z.to_nat (NDIRECT + 1);
  io_blocks : forall bn, 0 <= bn < MAXFILE -> blockof c d bn <> 0 -> data_block c sb (blockof c d bn);
  io_ind : indirect d <> 0 -> data_block c sb (indirect d);
  io_inj : forall b1 b2, 0 <= b1 < MAXFILE -> 0 <= b2 < MAXFILE -> blockof c d b1 <> 0 ->
    blockof c d b1 = blockof c d b2 -> b1 = b2;
  io_apart : forall bn, 0 <= bn < MAXFILE -> blockof c d bn <> 0 -> blockof c d bn <> indirect d;
}.

(** The byte [o] of the file; what was never written reads as zero. *)
Definition content c d (o : Z) : Z :=
  let a := blockof c d (o / BSIZE) in if a =? 0 then 0 else view' c a (o mod BSIZE).

(** [d'] has the blocks of [d] and perhaps new ones, which are zero. *)
Record grown c c' sb d d' (a : nat) : Prop := mkgrown {
  gr_step : lstep c c' a;
  gr_blk : blk_ok c' sb;
  gr_ino : ino_ok c' sb d';
  gr_same : d' = set_addrs (d_addrs d') d;
  gr_keep : forall bn, 0 <= bn < MAXFILE -> blockof c d bn <> 0 -> blockof c' d' bn = blockof c d bn;
  gr_zero : forall bn, 0 <= bn < MAXFILE -> blockof c d bn = 0 -> blockof c' d' bn <> 0 ->
    same_block (view' c' (blockof c' d' bn)) (fun _ => 0);
  gr_fresh : forall bn, 0 <= bn < MAXFILE -> blockof c d bn = 0 -> blockof c' d' bn <> 0 -> ~ data_block c sb (blockof c' d' bn);
  gr_ind : indirect d' = indirect d \/ indirect d = 0 /\ ~ data_block c sb (indirect d');
  gr_views : forall n, n < sb_bmapstart sb \/ (data_block c sb n /\ n <> indirect d) -> same_block (view' c' n) (view' c n);
  gr_used : forall n, data_block c sb n -> data_block c' sb n;
}.

Lemma grown_content c c' sb d d' (a : nat) :
  ino_ok c sb d -> grown c c' sb d d' a -> forall o, 0 <= o < MAXFILE * BSIZE -> content c' d' o = content c d o.
Proof.
  intros O G o Ho. unfold content.
  assert (Hb : 0 <= o / BSIZE < MAXFILE) by (unfold MAXFILE, NDIRECT, NINDIRECT, BSIZE in *; zlia).
  assert (Hm : 0 <= o mod BSIZE < BSIZE) by (unfold BSIZE; zlia).
  destruct (Z.eqb_spec (blockof c d (o / BSIZE)) 0) as [E|E].
  - destruct (Z.eqb_spec (blockof c' d' (o / BSIZE)) 0) as [E'|E']; [done|]. by apply (gr_zero _ _ _ _ _ _ G).
  - rewrite (gr_keep _ _ _ _ _ _ G _ Hb E). destruct (Z.eqb_spec (blockof c d (o / BSIZE)) 0); [done|].
    apply (gr_views _ _ _ _ _ _ G); [|done]. right. split; [by apply O|by eapply io_apart].
Qed.

(** ** Growing *)

Lemma blockof_same c c' d (bn : Z) :
  0 <= bn < MAXFILE -> (indirect d <> 0 -> same_block (view' c' (indirect d)) (view' c (indirect d))) ->
  blockof c' d bn = blockof c d bn.
Proof.
  intros Hb H. unfold blockof. case_match; [done|]. destruct (Z.eqb_spec (indirect d) 0) as [|Hi]; [done|].
  apply load32_same. intros o Ho. apply H; [done|]. zbool. unfold MAXFILE, NDIRECT, NINDIRECT, BSIZE in *. zlia.
Qed.

Lemma blockof_high c d (bn : Z) : indirect d = 0 -> NDIRECT <= bn -> blockof c d bn = 0.
Proof. intros E Hb. unfold blockof. rewrite E. case_match; [zbool; lia|done]. Qed.

Lemma grown_reads c c' sb d (a : nat) :
  ino_ok c sb d -> blk_ok c' sb -> lstep c c' a -> (forall k, same_block (view' c' k) (view' c k)) -> grown c c' sb d d a.
Proof.
  intros O OB L HV. pose proof (blk_ok_geo_pos c' sb OB) as HG.
  assert (HB : forall bn, 0 <= bn < MAXFILE -> blockof c' d bn = blockof c d bn) by (intros bn Hb; apply blockof_same; [done|intros _; apply HV]).
  assert (HU : forall n, data_block c sb n -> data_block c' sb n).
  { intros n [H1 H2]. split; [done|]. rewrite (used_same c c'); [done|lia|apply HV]. }
  split; try done.
  - destruct O as [O1 O2 O3 O4 O5]. split; try done.
    + intros bn Hb. rewrite HB by done. auto.
    + auto.
    + intros b1 b2 Hb1 Hb2. rewrite !HB by done. by apply O4.
    + intros bn Hb. rewrite HB by done. by apply O5.
  - by destruct d.
  - intros bn Hb _. by apply HB.
  - intros bn Hb E. by rewrite HB, E.
  - intros bn Hb E. by rewrite HB, E.
  - by left.
Qed.

(** A block just allocated. *)
Record fresh c c' sb (b : Z) : Prop := mkfresh {
  fr_range : datastart sb <= b < sb_size sb;
  fr_was : used c sb b = false;
  fr_used : forall k, 0 <= k < sb_size sb -> used c' sb k = (b =? k) || used c sb k;
  fr_zero : same_block (view' c' b) (fun _ => 0);
}.

Lemma fresh_data c c' sb (b : Z) : blk_ok c' sb -> fresh c c' sb b -> data_block c' sb b /\ (forall n, data_block c sb n -> data_block c' sb n /\ n <> b) /\ b <> 0.
Proof.
  intros OB [F1 F2 F3 F4]. pose proof (blk_ok_geo_pos c' sb OB) as HG. split_and!; [| |lia].
  - split; [done|]. rewrite F3, Z.eqb_refl by lia. done.
  - intros n [N1 N2]. split; [|congruence]. split; [done|]. rewrite F3, N2 by lia. apply orb_true_r.
Qed.

(** It becomes a block of the file. *)
Lemma grown_add c c' sb d d' (a : nat) (b bn0 : Z) :
  ino_ok c sb d -> lstep c c' a -> blk_ok c' sb -> fresh c c' sb b ->
  d' = set_addrs (d_addrs d') d -> length (d_addrs d') = Z.to_nat (NDIRECT + 1) -> indirect d' = indirect d ->
  blockof c d bn0 = 0 ->
  (forall bn, 0 <= bn < MAXFILE -> blockof c' d' bn = if bn =? bn0 then b else blockof c d bn) ->
  (forall n, n < sb_bmapstart sb \/ (data_block c sb n /\ n <> indirect d) -> same_block (view' c' n) (view' c n)) ->
  grown c c' sb d d' a.
Proof.
  intros [O1 O2 O3 O4 O5] L OB F Hd Hl Hi H0 HB HV. destruct (fresh_data c c' sb b OB F) as (FD & FN & Fb).
  assert (HE : forall bn, 0 <= bn < MAXFILE -> bn = bn0 /\ blockof c' d' bn = b \/ bn <> bn0 /\ blockof c' d' bn = blockof c d bn).
  { intros bn Hb. rewrite HB by done. destruct (Z.eqb_spec bn bn0); auto. }
  split; try done.
  - split; [done| | | |].
    + intros bn Hb. destruct (HE bn Hb) as [[_ ->]|[_ ->]]; [done|]. intros Hn. by apply FN, O2.
    + rewrite Hi. intros Hn. by apply FN, O3.
    + intros b1 b2 Hb1 Hb2. destruct (HE b1 Hb1) as [[-> ->]|[N1 ->]], (HE b2 Hb2) as [[-> ->]|[N2 ->]]; try done.
      * intros _ E. destruct (FN (blockof c d b2)); [apply O2; congruence|done].
      * intros Hn E. destruct (FN (blockof c d b1)); [by apply O2|done].
      * by apply O4.
    + intros bn Hb. rewrite Hi. destruct (HE bn Hb) as [[_ ->]|[_ ->]]; [|by apply O5].
      intros _ E. destruct (FN (indirect d)); [apply O3; congruence|done].
  - intros bn Hb Hn. destruct (HE bn Hb) as [[-> _]|[_ ->]]; done.
  - intros bn Hb Hz Hn. destruct (HE bn Hb) as [[_ E]|[_ E]]; [rewrite E; apply F|congruence].
  - intros bn Hb Hz Hn. destruct (HE bn Hb) as [[_ ->]|[_ E]]; [|congruence]. intros HD. by destruct (FN b HD).
  - by left.
  - intros n Hn. by apply FN.
Qed.

(** It becomes the indirect block. *)
Lemma grown_ind c c' sb d d' (a : nat) (b : Z) :
  ino_ok c sb d -> lstep c c' a -> blk_ok c' sb -> fresh c c' sb b ->
  d' = set_addrs (d_addrs d') d -> length (d_addrs d') = Z.to_nat (NDIRECT + 1) -> indirect d = 0 -> indirect d' = b ->
  (forall bn, 0 <= bn < MAXFILE -> blockof c' d' bn = blockof c d bn) ->
  (forall n, n < sb_bmapstart sb \/ data_block c sb n -> same_block (view' c' n) (view' c n)) ->
  grown c c' sb d d' a.
Proof.
  intros [O1 O2 O3 O4 O5] L OB F Hd Hl Hi Hi' HB HV. destruct (fresh_data c c' sb b OB F) as (FD & FN & Fb).
  split; try done.
  - split; [done| |by rewrite Hi'| |].
    + intros bn Hb. rewrite HB by done. intros Hn. by apply FN, O2.
    + intros b1 b2 Hb1 Hb2. rewrite !HB by done. by apply O4.
    + intros bn Hb. rewrite HB, Hi' by done. intros Hn. by apply FN, O2.
  - auto.
  - intros bn Hb Hz Hn. rewrite HB in Hn by done. done.
  - intros bn Hb Hz Hn. rewrite HB in Hn by done. done.
  - right. rewrite Hi'. split; [done|]. intros HD. by destruct (FN b HD).
  - intros n [Hn|[Hn _]]; apply HV; auto.
  - intros n Hn. by apply FN.
Qed.

Lemma grown_trans c1 c2 c3 sb d1 d2 d3 (a b : nat) : grown c1 c2 sb d1 d2 a -> grown c2 c3 sb d2 d3 b -> grown c1 c3 sb d1 d3 (a + b).
Proof.
  intros [A1 A2 A3 A4 A5 A6 A7 A8 A9 A10] [B1 B2 B3 B4 B5 B6 B7 B8 B9 B10]. split; try done.
  - by eapply lstep_trans.
  - rewrite B4, A4. done.
  - intros bn Hb Hn. rewrite B5, A5; rewrite ?A5; done.
  - intros bn Hb Hz Hn. destruct (decide (blockof c2 d2 bn = 0)) as [E|E]; [by apply B6|].
    rewrite (B5 bn Hb E) in *. rewrite (B9 (blockof c2 d2 bn)); [by apply A6|]. right. split; [by apply A3|by eapply io_apart].
  - intros bn Hb Hz Hn. destruct (decide (blockof c2 d2 bn = 0)) as [E|E].
    + intros HD. by apply (B7 bn Hb E Hn), A10.
    + rewrite (B5 bn Hb E) in *. by apply A7.
  - destruct B8 as [E2|[E2 N2]]; [rewrite E2; done|]. right. split; [destruct A8 as [E|[E _]]; congruence|].
    intros HD. by apply N2, A10.
  - intros n Hn. assert (H1 := A9 n Hn). rewrite (B9 n); [done|]. destruct Hn as [Hn|[Hn Hi]]; [by left|right].
    split; [by apply A10|]. destruct A8 as [->|[E N]]; [done|]. by intros ->.
  - auto.
Qed.

Lemma grown_weaken c c' sb d d' (a b : nat) : grown c c' sb d d' a -> (a <= b)%nat -> grown c c' sb d d' b.
Proof. intros [] H. split; try done. by apply (lstep_weaken _ _ a b). Qed.

(** ** [bmap] *)

(** Holding a data block. *)
Lemma blk_take c c1 sb (a i : nat) (n : Z) (b : buf) :
  blk_ok c sb -> since c c1 a i n b -> data_block c sb n -> (forall k, same_block (view' c1 k) (view' c k)) -> blk_ok c1 sb.
Proof.
  intros O HSi [Hn Hu] HV. pose proof (blk_ok_geo_pos c sb O) as HG. destruct O as [I G S HM HB HH HT].
  destruct (si_geom _ _ _ _ _ _ HSi) as (_ & G2 & G3 & G4 & _).
  assert (HU : forall k, 0 <= k -> used c1 sb k = used c sb k) by (intros k Hk; apply used_same; [done|apply HV]).
  split.
  - apply HSi.
  - destruct G as [g1 g2 g3 g4]. split; try done. by rewrite G2, G3.
  - rewrite <- S. unfold dec_sb. f_equal; apply load32_same; intros o Ho; apply (HV 1); unfold BSIZE; lia.
  - intros k Hk. rewrite HU by lia. by apply HM.
  - intros k o Hk Ho. rewrite (HV k o Ho). by apply HB.
  - intros j x Hx Hl D1. destruct (decide (j = i)) as [->|Hj].
    + destruct (si_holds _ _ _ _ _ _ HSi) as ((Hb & _ & <- & _) & _). rewrite Hb in Hx. injection Hx as <-.
      rewrite HU by lia. done.
    + apply (si_others _ _ _ _ _ _ HSi j x Hj Hl) in Hx. destruct (HH j x Hx Hl D1). rewrite HU by lia. done.
  - by rewrite G4.
Qed.

Lemma allocated_fresh s s' sb (b : Z) : allocated s s' sb b -> fresh (flog s) (flog s') sb b.
Proof. intros []. by split. Qed.

(** The state after [bmap]. *)
Definition at_inode s s' (ip : nat) (x : inode) d : Prop :=
  s' = set_icache (<[ip := set_d d x]> (icache s)) (set_flog (flog s') s).

Lemma at_inode_same s c ip x : icache s !! ip = Some x -> at_inode s (set_flog c s) ip x (i_d x).
Proof. intros H. unfold at_inode. destruct s, x. cbn in *. by rewrite list_insert_id. Qed.

Lemma wp_setd s s1 ip x (f : dinode -> dinode) (Q : unit -> fsst -> Prop) :
  icache s !! ip = Some x -> s1 = set_flog (flog s1) s ->
  Q tt (set_icache (<[ip := set_d (f (i_d x)) x]> (icache s)) (set_flog (flog s1) s)) -> wp (setd ip f) Q s1.
Proof.
  intros H -> HQ. unfold setd, seti, wp, modify. cbn. by rewrite (alter_item _ ip x).
Qed.

Lemma wp_geti ip x {A} (k : inode -> MF A) Q s : icache s !! ip = Some x -> wp (k x) Q s -> wp (bind (geti ip) k) Q s.
Proof. intros H HK. unfold wp, bind, geti. by rewrite H. Qed.

Lemma wp_finish_ret (bp : nat) (f : memory -> memory) (a : Z) Q s :
  wp (onbc (setb bp (fun b => set_data (f (b_data b)) b)) ;;; log_write bp ;;; onbc (brelse bp))
    (fun _ c => Q a (set_flog c s)) (flog s) ->
  wp (bstore bp f ;;; onlog (log_write bp) ;;; ret a) (fun a s => wp (onbuf (brelse bp) ;;; ret a) Q s) s.
Proof.
  unfold wp, bstore, onbuf, onlog, onbc, zoom, bind, ret. cbn [setb modify].
  destruct (log_write bp _) as [[] c2| | | |]; try done. cbn [flog set_flog].
  destruct (brelse bp (lbc c2)) as [[] c3| | | |]; done.
Qed.

(** The post-condition: the inode has grown, and [a] is the block [bn]. *)
Definition bmapped s s' (ip : nat) (x : inode) sb (bn a : Z) (k : nat) : Prop :=
  exists d', at_inode s s' ip x d' /\ grown (flog s) (flog s') sb (i_d x) d' k /\ a = blockof (flog s') d' bn /\ a <> 0 /\
    (blockof (flog s) (i_d x) bn <> 0 -> d' = i_d x) /\ (nfree (flog s) sb <= nfree (flog s') sb + 2)%nat.

(** A block that is there. *)
Lemma bmap_found s ip x sb (bn : Z) :
  icache s !! ip = Some x -> i_dev x = 1 -> blk_ok (flog s) sb -> ino_ok (flog s) sb (i_d x) ->
  unheld (lbc (flog s)) (indirect (i_d x)) -> 0 <= bn < MAXFILE -> budget (flog s) 0 -> blockof (flog s) (i_d x) bn <> 0 ->
  wp (bmap ip bn) (fun a s' => reads s s' 0 /\ a = blockof (flog s) (i_d x) bn) s.
Proof.
  intros Hx Hd O OI HU Hb [B1 B2] Hn. unfold bmap. eapply wp_geti; [exact Hx|].
  assert (R0 : reads s s 0) by (split; [split; [by destruct s|by apply lstep_refl, O]|done]).
  unfold blockof in Hn |- *. destruct (bn <? NDIRECT) eqn:E.
  { destruct (Z.eqb_spec (nth (Z.to_nat bn) (i_addrs x) 0) 0); [done|]. by apply wp_ret. }
  zbool. rewrite (proj2 (Z.ltb_lt (bn - NDIRECT) NINDIRECT)) by (unfold MAXFILE in *; lia).
  fold (indirect (i_d x)) in *. destruct (Z.eqb_spec (indirect (i_d x)) 0) as [|Hi]; [done|].
  destruct (io_ind _ _ _ OI Hi) as [HD _]. pose proof (blk_ok_geo_pos _ _ O) as HG.
  wp_step. apply wp_ret. rewrite Hd. apply wp_bread; [apply O|done|lia|lia|]. intros i bf c HSi HDt HV.
  apply (wp_bdata i (indirect (i_d x)) bf); [apply HSi|].
  assert (E4 : load32 (b_data bf) (4 * (bn - NDIRECT)) = load32 (view' (flog s) (indirect (i_d x))) (4 * (bn - NDIRECT))).
  { apply load32_same. intros o Ho. apply HDt. unfold MAXFILE, NDIRECT, NINDIRECT, BSIZE in *. zlia. }
  rewrite E4. destruct (Z.eqb_spec (load32 (view' (flog s) (indirect (i_d x))) (4 * (bn - NDIRECT))) 0); [done|].
  wp_step. apply wp_ret. apply (wp_brelse (flog s) 0 i (indirect (i_d x)) bf); [done|]. intros c' HL HV'. apply wp_ret.
  split; [split; [by split|]|done]. intros k. cbn [flog set_flog] in *. by rewrite (HV' k), (HV k).
Qed.

(** A new direct block. *)
Lemma bmap_direct s ip x sb (bn : Z) :
  icache s !! ip = Some x -> i_dev x = 1 -> fsb s = sb -> blk_ok (flog s) sb -> ino_ok (flog s) sb (i_d x) ->
  0 <= bn < NDIRECT -> budget (flog s) 2 -> (1 <= nfree (flog s) sb)%nat -> blockof (flog s) (i_d x) bn = 0 ->
  wp (bmap ip bn) (fun a s' => bmapped s s' ip x sb bn a 2) s.
Proof.
  intros Hx Hd Hs O OI Hb Bu Hf Hn. unfold bmap. eapply wp_geti; [exact Hx|].
  assert (Hbn : 0 <= bn < MAXFILE) by (change MAXFILE with 140; change NDIRECT with 12 in *; lia).
  unfold blockof in Hn. rewrite (proj2 (Z.ltb_lt bn NDIRECT)) in Hn |- * by lia. rewrite Hn, Z.eqb_refl, Hd.
  destruct (nfree_some (flog s) sb ltac:(lia)) as (k0 & Hk0 & Hu0).
  wp_step. eapply wp_mono; [by apply (balloc_spec s sb k0)|]. intros b s1 A. pose proof (allocated_fresh _ _ _ _ A) as F.
  destruct A as [[E1 L1] A2 A3 A4 A5 A6 A7 A8]. destruct (fresh_data _ _ sb b A2 F) as (FD & FN & Fb).
  wp_step. apply (wp_setd s s1 ip x); [done..|]. apply wp_ret. set (d' := set_addrs _ _).
  assert (HL := io_len _ _ _ OI). assert (Hlt : (Z.to_nat bn < length (i_addrs x))%nat) by (rewrite HL; lia).
  assert (HI : indirect d' = indirect (i_d x)).
  { unfold indirect, d'. cbn [d_addrs set_addrs]. rewrite !nth_lookup, list_lookup_insert_ne by lia. done. }
  assert (HV : forall n, n < sb_bmapstart sb \/ (data_block (flog s) sb n /\ n <> indirect (i_d x)) -> same_block (view' (flog s1) n) (view' (flog s) n)).
  { intros n Hnn. pose proof (blk_ok_geo_pos _ _ O). apply A8; [|unfold data_block in *; lia]. destruct Hnn as [|[HD _]]; [lia|by apply FN]. }
  assert (HB : forall b0, 0 <= b0 < MAXFILE -> blockof (flog s1) d' b0 = if b0 =? bn then b else blockof (flog s) (i_d x) b0).
  { intros b0 Hb0. unfold blockof at 1. rewrite HI. unfold d'. cbn [d_addrs set_addrs]. rewrite nth_lookup.
    destruct (Z.ltb_spec b0 NDIRECT) as [Hlo|Hhi].
    - destruct (Z.eqb_spec b0 bn) as [->|Hne]; [by rewrite list_lookup_insert_eq|].
      rewrite list_lookup_insert_ne by lia. unfold blockof. rewrite (proj2 (Z.ltb_lt b0 NDIRECT)), nth_lookup by lia. done.
    - destruct (Z.eqb_spec b0 bn) as [->|Hne]; [lia|]. rewrite <- (blockof_same (flog s) (flog s1)); [|done|].
      + unfold blockof. rewrite (proj2 (Z.ltb_ge b0 NDIRECT)) by lia. done.
      + intros Hi. pose proof (io_ind _ _ _ OI Hi) as HD. apply A8; [by apply FN|right; apply HD]. }
  exists d'. split_and!; [done| | |done| |].
  - eapply grown_add; try done.
    + unfold d'. cbn. by rewrite length_insert.
    + unfold blockof. rewrite (proj2 (Z.ltb_lt bn NDIRECT)) by lia. exact Hn.
  - cbn [flog set_icache set_flog]. rewrite HB, Z.eqb_refl by done. done.
  - intros []. unfold blockof. by rewrite (proj2 (Z.ltb_lt bn NDIRECT)) by lia.
  - pose proof (nfree_alloc _ _ sb b A6). cbn [flog set_icache set_flog]. lia.
Qed.

Lemma load32_store (m : memory) (o o' v : Z) :
  0 <= v < 4294967296 -> o mod 4 = 0 -> o' mod 4 = 0 -> load32 (store32 m o v) o' = if o' =? o then v else load32 m o'.
Proof.
  intros Hv Ho Ho'. destruct (Z.eqb_spec o' o) as [->|Hne]; [by apply load32_store32_eq|].
  apply load32_store32_ne. zlia.
Qed.

Lemma store32_byte (m : memory) (a v : Z) :
  (forall o, 0 <= o < BSIZE -> 0 <= m o < 256) -> forall o, 0 <= o < BSIZE -> 0 <= store32 m a v o < 256.
Proof. intros H o Ho. unfold store32. repeat case_match; (by apply H) || zlia. Qed.

(** The entry of the indirect block: the block [b], just allocated. *)
Lemma entry_grown c c2 c3 sb d (k : nat) (b bn : Z) (m : memory) :
  blk_ok c sb -> ino_ok c sb d -> indirect d <> 0 -> NDIRECT <= bn < MAXFILE -> blockof c d bn = 0 ->
  lstep c c3 k -> fresh c c2 sb b -> blk_ok c2 sb ->
  (forall n, n <> b -> n < sb_bmapstart sb \/ datastart sb <= n -> same_block (view' c2 n) (view' c n)) ->
  same_block m (view' c (indirect d)) -> changes c2 c3 (indirect d) (store32 m (4 * (bn - NDIRECT)) b) ->
  grown c c3 sb d d k /\ blockof c3 d bn = b.
Proof.
  intros O OI Hi Hbn Hn L F O2 HV Hm [C1 C2]. destruct (io_ind _ _ _ OI Hi) as [Hid Hiu].
  destruct (fresh_data _ _ sb b O2 F) as (FD & FN & Fb). pose proof (blk_ok_geo_pos _ _ O) as HG.
  assert (HdB := ge_size _ _ (bk_geo _ _ O)). pose proof (pl_disk _ (lg_placed _ (bk_log _ _ O))) as HP.
  assert (Hne : indirect d <> b) by (apply FN; done). pose proof (fr_range _ _ _ _ F) as HR.
  assert (HU : forall n, 0 <= n < sb_size sb -> used c3 sb n = used c2 sb n).
  { intros n Hn0. apply used_same; [lia|]. apply C2. destruct (bblock_eq _ _ n (bk_log _ _ O) (bk_geo _ _ O) Hn0). lia. }
  assert (O3 : blk_ok c3 sb).
  { apply (blk_build c c3 sb k O L).
    - rewrite (C2 1) by lia. apply HV; lia.
    - eapply bytes_change; [apply O2|by split|]. apply store32_byte. intros o Ho. rewrite (Hm o Ho). apply O; [lia|done].
    - intros n Hn0 Hu _. rewrite HU, (fr_used _ _ _ _ F), Hu by done. apply orb_true_r. }
  assert (HB : forall b0, 0 <= b0 < MAXFILE -> blockof c3 d b0 = if b0 =? bn then b else blockof c d b0).
  { intros b0 Hb0. unfold blockof. destruct (Z.ltb_spec b0 NDIRECT) as [Hlo|Hhi].
    - destruct (Z.eqb_spec b0 bn); [lia|done].
    - rewrite (proj2 (Z.eqb_neq (indirect d) 0)) by done. change MAXFILE with 140 in *. change NDIRECT with 12 in *.
      rewrite (load32_same _ _ (4 * (b0 - 12)) ltac:(intros o Ho; apply (C1 o); unfold BSIZE; lia)), load32_store by (zlia || lia).
      destruct (Z.eqb_spec b0 bn) as [->|Hb]; [by rewrite Z.eqb_refl|].
      rewrite (proj2 (Z.eqb_neq _ _)) by lia. apply load32_same. intros o Ho. apply Hm. unfold BSIZE. lia. }
  split; [|rewrite HB, Z.eqb_refl by (unfold NDIRECT in *; lia); done].
  eapply (grown_add c c3 sb d d k b bn); try done.
  - split; [apply F|apply F| |].
    + intros n Hn0. rewrite HU by done. by apply F.
    + rewrite (C2 b) by done. apply F.
  - by destruct d.
  - apply OI.
  - intros n Hnn. assert (n <> b) by (destruct Hnn as [|[HD _]]; [pose proof (fr_range _ _ _ _ F); lia|by apply FN]).
    rewrite (C2 n) by (destruct Hnn as [|[_ ]]; [lia|done]). apply HV; [done|]. unfold data_block in Hnn. lia.
Qed.

(** The second half of [bmap]: a new entry in the indirect block. *)
Lemma bmap_entry s sb d (bn : Z) :
  fsb s = sb -> blk_ok (flog s) sb -> ino_ok (flog s) sb d -> indirect d <> 0 -> unheld (lbc (flog s)) (indirect d) ->
  NDIRECT <= bn < MAXFILE -> budget (flog s) 3 -> (1 <= nfree (flog s) sb)%nat -> blockof (flog s) d bn = 0 ->
  wp (let! bp := onbuf (bread 1 (indirect d)) in
      let! m := bdata bp in
      let addr := load32 m (4 * (bn - NDIRECT)) in
      let! addr :=
        (if addr =? 0 then
           let! addr := balloc 1 in
           bstore bp (fun m => store32 m (4 * (bn - NDIRECT)) addr) ;;;
           onlog (log_write bp) ;;;
           ret addr
         else ret addr) in
      onbuf (brelse bp) ;;;
      ret addr)
    (fun a s' => s' = set_flog (flog s') s /\ grown (flog s) (flog s') sb d d 3 /\ a = blockof (flog s') d bn /\ a <> 0 /\
      (nfree (flog s) sb <= nfree (flog s') sb + 1)%nat) s.
Proof.
  intros Hs O OI Hi HU Hb [B1 B2] Hf Hn. pose proof (io_ind _ _ _ OI Hi) as HDb. pose proof (blk_ok_geo_pos _ _ O) as HG.
  pose proof (bk_trans _ _ O) as HT.
  apply wp_bread; [apply O|done|destruct HDb; lia|lia|]. intros i bf c1 HSi HDt HV1.
  apply (wp_bdata i (indirect d) bf); [apply HSi|]. cbv zeta.
  assert (E4 : load32 (b_data bf) (4 * (bn - NDIRECT)) = 0).
  { rewrite <- Hn. unfold blockof. rewrite (proj2 (Z.ltb_ge bn NDIRECT)), (proj2 (Z.eqb_neq (indirect d) 0)) by lia.
    apply load32_same. intros o Ho. apply HDt. change MAXFILE with 140 in *. change NDIRECT with 12 in *. unfold BSIZE. lia. }
  rewrite E4, Z.eqb_refl.
  assert (O1 : blk_ok c1 sb) by (by eapply (blk_take (flog s))).
  assert (HU1 : forall k, 0 <= k -> used c1 sb k = used (flog s) sb k) by (intros k Hk; apply used_same; [done|apply HV1]).
  destruct (si_geom _ _ _ _ _ _ HSi) as (_ & G2 & G3 & G4 & _). pose proof (si_len _ _ _ _ _ _ HSi) as HL1.
  assert (Bu1 : budget c1 2).
  { pose proof (si_spare _ _ _ _ _ _ HSi) as HSp. unfold budget. rewrite G3. destruct (dirty bf); cbn in HSp; lia. }
  destruct (nfree_some (flog s) sb ltac:(lia)) as (k0 & Hk0 & Hu0).
  do 2 wp_step. eapply wp_mono; [apply (balloc_spec (set_flog c1 s) sb k0); try done; cbn [flog set_flog]; rewrite HU1 by lia; done|].
  intros b s2 A. pose proof (allocated_fresh _ _ _ _ A) as F. destruct A as [[E2 L2] A2 A3 A4 A5 A6 A7 A8]. cbn [flog set_flog] in *.
  apply (wp_finish_ret i (fun m => store32 m (4 * (bn - NDIRECT)) b)).
  pose proof (since_step _ _ _ _ _ _ _ _ HSi L2) as HSi2. pose proof (si_len _ _ _ _ _ _ HSi2) as HL2.
  destruct (si_geom _ _ _ _ _ _ HSi2) as (_ & G2' & G3' & G4' & _).
  eapply wp_mono; [apply (finish_change (flog s) (flog s2) 2 i (indirect d) bf (fun m => store32 m (4 * (bn - NDIRECT)) b) HSi2)|].
  { destruct HDb. lia. }
  { unfold home. rewrite G2', G3'. apply (home_above _ sb); [apply O|]. destruct HDb. lia. }
  { rewrite G3'. lia. }
  { rewrite G4'. lia. }
  intros [] c3 [L3 C3].
  assert (F' : fresh (flog s) (flog s2) sb b).
  { destruct F as [F1 F2 F3 F4]. split; try done; [rewrite <- HU1 by lia; done|]. intros k Hk. rewrite F3, HU1 by lia. done. }
  destruct (entry_grown (flog s) (flog s2) c3 sb d 3 b bn (b_data bf)) as [HGr HBo]; try done.
  { intros n Hnb Hnn. by rewrite (A8 n Hnb Hnn), (HV1 n). }
  split_and!; [rewrite E2; done|done|done|lia|].
  cbn [flog set_flog]. etrans; [apply (nfree_alloc _ _ sb b (fr_used _ _ _ _ F'))|]. rewrite (nfree_same (flog s2) c3); [done|].
  intros k Hk. apply used_same; [lia|]. apply C3. destruct (bblock_eq _ _ k (bk_log _ _ O) (bk_geo _ _ O) Hk), HDb. lia.
Qed.

(** The indirect block itself. *)
Lemma indirect_grown s s1 ip x sb (b : Z) :
  icache s !! ip = Some x -> blk_ok (flog s) sb -> ino_ok (flog s) sb (i_d x) -> indirect (i_d x) = 0 -> allocated s s1 sb b ->
  let d' := set_addrs (<[Z.to_nat NDIRECT := b]> (i_addrs x)) (i_d x) in
  indirect d' = b /\ b <> 0 /\ grown (flog s) (flog s1) sb (i_d x) d' 2 /\ (forall bn, NDIRECT <= bn < MAXFILE -> blockof (flog s1) d' bn = 0).
Proof.
  intros Hx O OI H0 A d'. pose proof (allocated_fresh _ _ _ _ A) as F. destruct A as [[E1 L1] A2 A3 A4 A5 A6 A7 A8].
  destruct (fresh_data _ _ sb b A2 F) as (FD & FN & Fb). assert (HL := io_len _ _ _ OI).
  assert (HI : indirect d' = b).
  { unfold indirect, d'. cbn [d_addrs set_addrs]. rewrite nth_lookup, list_lookup_insert_eq by (rewrite HL; unfold NDIRECT; lia). done. }
  assert (HZ : forall bn, NDIRECT <= bn < MAXFILE -> blockof (flog s1) d' bn = 0).
  { intros bn Hb. unfold blockof. rewrite (proj2 (Z.ltb_ge bn NDIRECT)), HI by lia. case_match; [done|].
    change MAXFILE with 140 in *. change NDIRECT with 12 in *.
    rewrite (load32_same (fun _ => 0)); [done|]. intros o Ho. apply A7. unfold BSIZE. lia. }
  split_and!; try done. eapply grown_ind; try done.
  - unfold d'. cbn. by rewrite length_insert.
  - intros bn Hb. destruct (Z.lt_ge_cases bn NDIRECT) as [Hlo|Hhi]; [|rewrite HZ by lia; by rewrite blockof_high].
    unfold blockof. rewrite (proj2 (Z.ltb_lt bn NDIRECT)) by lia. unfold d'. cbn [d_addrs set_addrs].
    rewrite !nth_lookup, list_lookup_insert_ne by lia. done.
  - intros n Hn. pose proof (blk_ok_geo_pos _ _ O). apply A8; [|unfold data_block in *; lia]. destruct Hn as [|HD]; [lia|by apply FN].
Qed.

(** [bmap]: the block of the file, allocated and zeroed if it was not there. *)
Lemma bmap_spec s ip x sb (bn : Z) :
  icache s !! ip = Some x -> i_dev x = 1 -> fsb s = sb -> blk_ok (flog s) sb -> ino_ok (flog s) sb (i_d x) ->
  unheld (lbc (flog s)) (indirect (i_d x)) -> 0 <= bn < MAXFILE -> budget (flog s) 5 -> (2 <= nfree (flog s) sb)%nat ->
  wp (bmap ip bn) (fun a s' => bmapped s s' ip x sb bn a 5) s.
Proof.
  intros Hx Hd Hs O OI HU Hb Bu Hf. destruct (decide (blockof (flog s) (i_d x) bn = 0)) as [Hn|Hn].
  2: { eapply wp_mono; [apply (bmap_found s ip x sb bn); try done; unfold budget in *; lia|].
    intros a s' [[[E L] HV] ->]. pose proof (blk_reads s s' sb 0 O ltac:(by split)) as O'.
    assert (G : grown (flog s) (flog s') sb (i_d x) (i_d x) 0) by (by apply grown_reads).
    exists (i_d x). split_and!; [rewrite E; by apply at_inode_same| |by rewrite (gr_keep _ _ _ _ _ _ G)|done|done|].
    - by apply (grown_weaken _ _ _ _ _ 0 5); [|lia].
    - rewrite (nfree_same (flog s) (flog s')); [lia|]. intros k Hk. apply used_same; [lia|apply HV]. }
  destruct (Z.lt_ge_cases bn NDIRECT) as [Hlo|Hhi].
  { eapply wp_mono; [apply (bmap_direct s ip x sb bn); try done; unfold budget in *; lia|].
    intros a s' (d' & H1 & H2 & H3 & H4 & H5 & H6). exists d'. split_and!; try done. by apply (grown_weaken _ _ _ _ _ 2 5); [|lia]. }
  unfold bmap. eapply wp_geti; [exact Hx|]. rewrite (proj2 (Z.ltb_ge bn NDIRECT)) by lia. cbv zeta.
  rewrite (proj2 (Z.ltb_lt (bn - NDIRECT) NINDIRECT)) by (unfold MAXFILE in *; lia). fold (indirect (i_d x)). rewrite Hd.
  wp_step. destruct (Z.eqb_spec (indirect (i_d x)) 0) as [Hi|Hi].
  - destruct (nfree_some (flog s) sb ltac:(lia)) as (k0 & Hk0 & Hu0).
    wp_step. eapply wp_mono; [apply (balloc_spec s sb k0); try done; unfold budget in *; lia|]. intros b s1 A.
    destruct (indirect_grown s s1 ip x sb b Hx O OI Hi A) as (HI & Hb0 & HG1 & HZ).
    pose proof (nfree_alloc _ _ sb b (ad_used _ _ _ _ A)) as HF1. destruct (ad_step _ _ _ _ A) as [E1 L1].
    wp_step. apply (wp_setd s s1 ip x); [done..|]. apply wp_ret. set (d' := set_addrs _ _) in *. cbn beta. rewrite <- HI.
    eapply wp_mono; [apply (bmap_entry _ sb d' bn); cbn [flog fsb set_icache set_flog]; try done; [apply HG1|apply HG1|congruence| |lia| |lia|apply HZ; lia]|].
    + apply (same_held_unheld (lbc (flog s))); [apply L1|]. rewrite HI. apply (free_unheld _ sb); [done|apply A].
    + by apply (budget_step _ _ 2 3 L1).
    + intros a s' (E & G & -> & Ha & HF). cbn [flog set_icache set_flog] in *. exists d'.
      split_and!; [rewrite E; done|by apply (grown_trans _ _ _ sb _ _ _ 2 3 HG1 G)|done|done|done|lia].
  - apply wp_ret. cbn beta. eapply wp_mono; [apply (bmap_entry s sb (i_d x) bn); try done; unfold budget in *; lia|].
    intros a s' (E & G & -> & Ha & HF). exists (i_d x).
    split_and!; [rewrite E; by apply at_inode_same| |done|done|done|lia]. by apply (grown_weaken _ _ _ _ _ 3 5); [|lia].
Qed.
End Inode.
