(* ===== verification/FsFile.v ===== *)
(** * FsFile: reading and writing files

    The specifications of [readi] and [writei] on the contents of a file. *)
From stdpp Require Import base gmap list numbers strings.
From Stdlib Require Import ZArith Lia ZifyBool.
From S2P Require Import Prelude Machine Cstring LockThms Bio BioSpec Log LogSpec LogLoops LogThms LogOps Fs FsBlk FsAlloc FsInode.

Section File.
Context `{D : Disk} `{V : DevSw}.
Implicit Types (c : lgst) (sb : superblock) (d : dinode) (s : fsst).

Notation view' c := (view (lbc c)).

(** No buffer is held. *)
Definition idle c : Prop := forall n, unheld (lbc c) n.

Lemma idle_step c c' (a : nat) : lstep c c' a -> idle c -> idle c'.
Proof. intros L H n. eapply same_held_unheld; [apply L|apply H]. Qed.

(** The inode [x] of the cache, ready for its contents to be used. *)
Record file_ok s (ip : nat) (x : inode) sb : Prop := mkfile_ok {
  fo_at : icache s !! ip = Some x;
  fo_dev : i_dev x = 1;
  fo_sb : fsb s = sb;
  fo_blk : blk_ok (flog s) sb;
  fo_ino : ino_ok (flog s) sb (i_d x);
  fo_idle : idle (flog s);
}.

Lemma file_reads s s' ip x sb (a : nat) : file_ok s ip x sb -> reads s s' a -> file_ok s' ip x sb.
Proof.
  intros [F1 F2 F3 F4 F5 F6] R. pose proof (blk_reads _ _ _ _ F4 R) as O'. destruct R as [[E L] HV]. split; try done.
  - by rewrite E.
  - by rewrite E.
  - by apply (grown_reads (flog s) (flog s') sb (i_d x) a).
  - by eapply idle_step.
Qed.

Lemma reads_content s s' d (a : nat) (o : Z) : reads s s' a -> 0 <= o < MAXFILE * BSIZE -> content (flog s') d o = content (flog s) d o.
Proof.
  intros [_ HV] Ho. unfold content.
  assert (Hb : 0 <= o / BSIZE < MAXFILE) by (change MAXFILE with 140 in *; unfold BSIZE in *; zlia).
  rewrite (blockof_same (flog s) (flog s')) by (done || (intros _; apply HV)). case_match; [done|]. apply HV. unfold BSIZE. zlia.
Qed.

Lemma reads_trans s1 s2 s3 : reads s1 s2 0 -> reads s2 s3 0 -> reads s1 s3 0.
Proof. intros [L1 V1] [L2 V2]. split; [by apply (flstep_trans s1 s2 s3 0 0)|]. intros k. by rewrite (V2 k), (V1 k). Qed.

Lemma reads_refl s : loginv (flog s) -> reads s s 0.
Proof. intros I. split; [split; [by destruct s|by apply lstep_refl]|done]. Qed.

(** ** [readi] *)

(** Bytes [off .. off + n) of the file are in one block. *)
Lemma bytes_content c d (m : memory) (off n : Z) :
  0 <= off -> 0 <= n <= BSIZE - off mod BSIZE -> blockof c d (off / BSIZE) <> 0 -> same_block m (view' c (blockof c d (off / BSIZE))) ->
  bytes m (off mod BSIZE) n = content c d <$> seqZ off n.
Proof.
  intros Ho Hn Hb Hm. unfold bytes. apply list_eq. intros i. rewrite !list_lookup_fmap.
  destruct (decide (Z.of_nat i < n)) as [Hi|Hi].
  - rewrite !lookup_seqZ_lt by lia. cbn. f_equal. unfold content.
    assert (E : (off + Z.of_nat i) / BSIZE = off / BSIZE /\ (off + Z.of_nat i) mod BSIZE = off mod BSIZE + Z.of_nat i) by (unfold BSIZE in *; zlia).
    destruct E as [-> ->]. rewrite (proj2 (Z.eqb_neq _ _) Hb). by rewrite Hm by (unfold BSIZE in *; zlia).
  - rewrite !lookup_seqZ_ge by lia. done.
Qed.

Lemma read_loop_spec (fuel : nat) : forall s ip x sb (off tot n : Z),
  file_ok s ip x sb -> budget (flog s) 0 -> 0 <= tot <= n -> 0 <= off -> off + (n - tot) <= MAXFILE * BSIZE ->
  (forall o, off <= o < off + (n - tot) -> blockof (flog s) (i_d x) (o / BSIZE) <> 0) -> n - tot < Z.of_nat fuel ->
  wp (read_loop fuel ip off tot n) (fun l s' => reads s s' 0 /\ l = content (flog s) (i_d x) <$> seqZ off (n - tot)) s.
Proof.
  induction fuel as [|fuel IH]; intros s ip x sb off tot n F Bu Ht Ho Hmx HB Hfu; [lia|]. cbn [read_loop].
  pose proof F as [F1 F2 F3 F4 F5 F6]. destruct (Z.ltb_spec tot n) as [Hlt|Hge].
  2: { apply wp_ret. split; [by apply reads_refl, F4|]. replace (n - tot) with 0 by lia. done. }
  eapply wp_geti; [exact F1|]. set (m := Z.min (n - tot) (BSIZE - off mod BSIZE)).
  assert (Hm : 0 < m <= n - tot /\ m <= BSIZE - off mod BSIZE) by (unfold m, BSIZE; zlia).
  assert (Hb : 0 <= off / BSIZE < MAXFILE) by (change MAXFILE with 140 in *; unfold BSIZE in *; zlia).
  assert (Hn := HB off ltac:(lia)). wp_step.
  eapply wp_mono; [apply (bmap_found s ip x sb (off / BSIZE)); try done|]. intros a s1 [R1 ->].
  pose proof (file_reads _ _ _ _ _ _ F R1) as G1. pose proof (blk_ok_geo_pos _ _ F4) as HG.
  destruct (io_blocks _ _ _ F5 _ Hb Hn) as [HDr _]. assert (Bu1 := budget_step _ _ 0 0 (proj2 (proj1 R1)) Bu). rewrite F2.
  apply wp_bread; [apply G1|apply G1|lia|apply Bu1|]. intros i bf c HSi HDt HV.
  apply (wp_bdata i (blockof (flog s) (i_d x) (off / BSIZE)) bf); [apply HSi|].
  apply (wp_brelse (flog s1) 0 i (blockof (flog s) (i_d x) (off / BSIZE)) bf); [done|]. intros c' HL HV'. cbn [flog set_flog] in HV'.
  assert (R2 : reads s (set_flog c' (set_flog c s1)) 0).
  { eapply reads_trans; [exact R1|]. split; [by split|]. intros k. cbn [flog set_flog]. by rewrite (HV' k), (HV k). }
  set (s2 := set_flog c' _) in *. pose proof (file_reads _ _ _ _ _ _ F R2) as G2. wp_step.
  eapply wp_mono; [apply (IH s2 ip x sb); try done; try lia|].
  - by apply (budget_step _ _ 0 0 (proj2 (proj1 R2))).
  - intros o Ho2. rewrite (blockof_same (flog s)); [apply HB; lia| |intros _; apply R2].
    change MAXFILE with 140 in *. unfold BSIZE in *. zlia.
  - intros l s3 [R3 ->]. apply wp_ret. split; [by eapply reads_trans|].
    rewrite (bytes_content (flog s) (i_d x)) by (lia || done || (rewrite HDt; apply R1)).
    replace (n - tot) with (m + (n - (tot + m))) at 1 by lia. rewrite seqZ_app, fmap_app by lia. f_equal.
    apply list_fmap_ext. intros j o Hj. apply lookup_seqZ in Hj. apply (reads_content s s2 _ 0); [done|lia].
Qed.

(** Every byte below the size has a block. *)
Definition filled c d : Prop :=
  0 <= d_size d <= MAXFILE * BSIZE /\ (forall o, 0 <= o < d_size d -> blockof c d (o / BSIZE) <> 0).

Lemma readi_spec s ip x sb (off n : Z) :
  file_ok s ip x sb -> filled (flog s) (i_d x) -> i_type x <> T_DEV -> budget (flog s) 0 ->
  0 <= off < 4294967296 -> 0 <= n < 4294967296 ->
  wp (readi ip off n) (fun r s' => reads s s' 0 /\
    r = if (i_size x <? off) || (4294967296 <=? off + n) then (-1, [])
        else let k := Z.min n (i_size x - off) in (k, content (flog s) (i_d x) <$> seqZ off k)) s.
Proof.
  intros F [Hsz HB] HT Bu Ho Hn. pose proof F as [F1 F2 F3 F4 F5 F6]. unfold readi. eapply wp_geti; [exact F1|].
  rewrite (proj2 (Z.eqb_neq _ _) HT). change MAXFILE with 140 in *. unfold BSIZE in Hsz.
  assert (EQ : (u32 (off + n) <? off) = (4294967296 <=? off + n)) by (unfold u32; zlia). rewrite EQ.
  destruct ((i_size x <? off) || (4294967296 <=? off + n)) eqn:E.
  { apply wp_ret. split; [by apply reads_refl, F4|done]. }
  zbool. rewrite u32_id by lia. cbv zeta.
  replace (if i_size x <? off + n then i_size x - off else n) with (Z.min n (i_size x - off)) by (case_match; zbool; lia).
  set (k := Z.min n (i_size x - off)). assert (Hk : 0 <= k <= i_size x - off) by (unfold k; lia). wp_step.
  eapply wp_mono; [apply (read_loop_spec _ s ip x sb off 0 k); try done; try lia|].
  - change MAXFILE with 140. unfold BSIZE. lia.
  - intros o Ho2. apply HB. lia.
  - intros l s' [R ->]. apply wp_ret. split; [done|]. rewrite i32_id by lia. by rewrite Z.sub_0_r.
Qed.

(** ** [writei] *)

Definition owned c d (n : Z) : Prop := n = indirect d \/ exists bn, 0 <= bn < MAXFILE /\ n = blockof c d bn.

(** From [d] to [d'], with the bytes [off .. off + n) written from [src]. *)
Record wrote c c' sb d d' (off n : Z) (src : Z -> Z) (a : nat) : Prop := mkwrote {
  wr_step : lstep c c' a;
  wr_blk : blk_ok c' sb;
  wr_ino : ino_ok c' sb d';
  wr_same : d' = set_addrs (d_addrs d') d;
  wr_keep : forall bn, 0 <= bn < MAXFILE -> blockof c d bn <> 0 -> blockof c' d' bn = blockof c d bn;
  wr_owned : forall b, data_block c sb b -> owned c' d' b -> owned c d b;
  wr_content : forall o, 0 <= o < MAXFILE * BSIZE ->
    content c' d' o = if (off <=? o) && (o <? off + n) then src (o - off) else content c d o;
  wr_mapped : forall o, off <= o < off + n -> blockof c' d' (o / BSIZE) <> 0;
  wr_stable : (forall o, off <= o < off + n -> blockof c d (o / BSIZE) <> 0) -> d' = d;
  wr_views : forall b, b < sb_bmapstart sb \/ (data_block c sb b /\ ~ owned c d b) -> same_block (view' c' b) (view' c b);
  wr_used : forall b, data_block c sb b -> data_block c' sb b;
}.

Lemma wrote_trans c1 c2 c3 sb d1 d2 d3 (off n n' : Z) (src : Z -> Z) (a b : nat) :
  0 <= off -> 0 <= n -> 0 <= n' -> off + (n + n') <= MAXFILE * BSIZE ->
  wrote c1 c2 sb d1 d2 off n src a -> wrote c2 c3 sb d2 d3 (off + n) n' (fun i => src (i + n)) b ->
  wrote c1 c3 sb d1 d3 off (n + n') src (a + b).
Proof.
  intros Ho Hn Hn' Hmx [A1 A2 A3 A4 A5 A6 A7 A8 A9 A10 A11] [B1 B2 B3 B4 B5 B6 B7 B8 B9 B10 B11].
  assert (Hrg : forall o, off <= o < off + (n + n') -> 0 <= o / BSIZE < MAXFILE).
  { intros o H. change MAXFILE with 140 in *. unfold BSIZE in *. zlia. }
  split; try done.
  - by eapply lstep_trans.
  - rewrite B4, A4. done.
  - intros bn Hb H. rewrite B5, A5; rewrite ?A5; done.
  - intros k Hk H. apply A6; [done|]. apply B6; [by apply A11|done].
  - intros o H. rewrite B7, A7 by done.
    destruct (Z.leb_spec off o), (Z.leb_spec (off + n) o), (Z.ltb_spec o (off + n)), (Z.ltb_spec o (off + n + n')), (Z.ltb_spec o (off + (n + n')));
      cbn; try lia; try done. f_equal. lia.
  - intros o H. destruct (Z.lt_ge_cases o (off + n)); [|apply B8; lia]. rewrite B5; [apply A8; lia|by apply Hrg|apply A8; lia].
  - intros H. rewrite B9; [apply A9; intros o Ho2; apply H; lia|].
    intros o Ho2. rewrite A5; [apply H; lia|apply Hrg; lia|apply H; lia].
  - intros k Hk. assert (H1 := A10 k Hk). rewrite (B10 k); [done|]. destruct Hk as [Hk|[Hk Hno]]; [by left|right].
    split; [by apply A11|]. intros H. by apply Hno, A6.
  - auto.
Qed.

(** The addresses do not depend on the data. *)
Lemma ino_keep c c' sb d :
  ino_ok c sb d -> (forall n, data_block c sb n -> data_block c' sb n) ->
  (indirect d <> 0 -> same_block (view' c' (indirect d)) (view' c (indirect d))) ->
  ino_ok c' sb d /\ (forall bn, 0 <= bn < MAXFILE -> blockof c' d bn = blockof c d bn).
Proof.
  intros [O1 O2 O3 O4 O5] HU HI. assert (HB : forall bn, 0 <= bn < MAXFILE -> blockof c' d bn = blockof c d bn) by (intros; by apply blockof_same).
  split; [|done]. split; try done.
  - intros bn Hb. rewrite HB by done. auto.
  - auto.
  - intros b1 b2 H1 H2. rewrite !HB by done. by apply O4.
  - intros bn Hb. rewrite HB by done. by apply O5.
Qed.

(** A data block changes. *)
Lemma data_change c c' sb (k : nat) (a : Z) (m : memory) :
  blk_ok c sb -> lstep c c' k -> data_block c sb a -> changes c c' a m -> (forall o, 0 <= o < BSIZE -> 0 <= m o < 256) ->
  blk_ok c' sb /\ (forall n, 0 <= n < sb_size sb -> used c' sb n = used c sb n).
Proof.
  intros O L [Ha _] C Hm. pose proof (blk_ok_geo_pos _ _ O) as HG.
  assert (HU : forall n, 0 <= n < sb_size sb -> used c' sb n = used c sb n).
  { intros n Hn. apply used_same; [lia|]. apply C. destruct (bblock_eq _ _ n (bk_log _ _ O) (bk_geo _ _ O) Hn). lia. }
  split; [|done]. eapply (blk_keep c c' sb k a m); try done; [lia|]. intros n Hn Hu _. by rewrite HU.
Qed.

(** The contents after a change of the block [bn]. *)
Lemma content_change c c' d (bn : Z) (m : memory) (o : Z) sb :
  ino_ok c sb d -> 0 <= bn < MAXFILE -> blockof c d bn <> 0 -> changes c c' (blockof c d bn) m ->
  (forall b, 0 <= b < MAXFILE -> blockof c' d b = blockof c d b) -> 0 <= o < MAXFILE * BSIZE ->
  content c' d o = if o / BSIZE =? bn then m (o mod BSIZE) else content c d o.
Proof.
  intros OI Hb Hn [C1 C2] HB Ho. unfold content.
  assert (Hob : 0 <= o / BSIZE < MAXFILE) by (change MAXFILE with 140 in *; unfold BSIZE in *; zlia).
  assert (Hmo : 0 <= o mod BSIZE < BSIZE) by (unfold BSIZE; zlia). rewrite HB by done.
  destruct (Z.eqb_spec (o / BSIZE) bn) as [->|Hne]; [rewrite (proj2 (Z.eqb_neq _ _) Hn); by apply C1|].
  destruct (Z.eqb_spec (blockof c d (o / BSIZE)) 0) as [|Hz]; [done|]. apply C2; [|done]. intros E. apply Hne.
  by apply (io_inj _ _ _ OI _ _ Hob Hb Hz).
Qed.

Lemma grown_owned c c' sb d d' (k : nat) (b : Z) : grown c c' sb d d' k -> data_block c sb b -> owned c' d' b -> owned c d b.
Proof.
  intros G Hb [->|(bn & Hr & ->)].
  - destruct (gr_ind _ _ _ _ _ _ G) as [->|[_ N]]; [by left|done].
  - destruct (decide (blockof c' d' bn = 0)) as [E|E]; [|destruct (decide (blockof c d bn = 0)) as [E0|E0]].
    + rewrite E in Hb. pose proof (blk_ok_geo_pos _ _ (gr_blk _ _ _ _ _ _ G)). destruct Hb. lia.
    + by destruct (gr_fresh _ _ _ _ _ _ G bn Hr E0 E).
    + right. exists bn. by rewrite (gr_keep _ _ _ _ _ _ G).
Qed.

(** One turn of the loop of [writei]. *)
Lemma grown_write c c1 c3 sb d d' (k : nat) (off m : Z) (src : Z -> Z) (md : memory) :
  let bn := off / BSIZE in
  blk_ok c sb -> ino_ok c sb d -> grown c c1 sb d d' k -> 0 <= off -> 0 <= bn < MAXFILE -> blockof c1 d' bn <> 0 ->
  (blockof c d bn <> 0 -> d' = d) -> 0 < m <= BSIZE - off mod BSIZE -> lstep c1 c3 1 ->
  changes c1 c3 (blockof c1 d' bn) (put_bytes md (off mod BSIZE) src m) -> same_block md (view' c1 (blockof c1 d' bn)) ->
  (forall i, 0 <= src i < 256) -> wrote c c3 sb d d' off m src (k + 1).
Proof.
  intros bn O OI G Ho Hb Hn Hst Hm L C Hmd Hsrc. pose proof (gr_ino _ _ _ _ _ _ G) as OI1. pose proof (gr_blk _ _ _ _ _ _ G) as O1.
  pose proof (io_blocks _ _ _ OI1 bn Hb Hn) as HDb. pose proof (io_apart _ _ _ OI1 bn Hb Hn) as Hap.
  pose proof (blk_ok_geo_pos _ _ O) as HG.
  destruct (data_change c1 c3 sb 1 _ _ O1 L HDb C) as [O3 HU3].
  { intros o Hoo. unfold put_bytes. case_match; [apply Hsrc|]. rewrite (Hmd o Hoo). apply O1; [destruct HDb; lia|done]. }
  assert (HD3 : forall n, data_block c1 sb n -> data_block c3 sb n) by (intros n [N1 N2]; split; [done|]; rewrite HU3 by lia; done).
  destruct (ino_keep c1 c3 sb d' OI1 HD3) as [OI3 HB3]; [intros _; by apply C|].
  assert (HC : forall o, 0 <= o < MAXFILE * BSIZE -> content c3 d' o = if (off <=? o) && (o <? off + m) then src (o - off) else content c d o).
  { intros o Hoo. rewrite (content_change c1 c3 d' bn _ o sb OI1 Hb Hn C HB3 Hoo). rewrite <- (grown_content c c1 sb d d' k OI G o Hoo).
    subst bn. unfold put_bytes, content. rewrite Hmd by (unfold BSIZE; zlia). unfold BSIZE in *.
    destruct (Z.eqb_spec (o / 512) (off / 512)) as [E|E].
    - rewrite E, (proj2 (Z.eqb_neq _ _) Hn). replace (o mod 512 - off mod 512) with (o - off) by zlia.
      replace ((off mod 512 <=? o mod 512) && (o mod 512 <? off mod 512 + m)) with ((off <=? o) && (o <? off + m)) by (clear -E Hm Ho; zlia). done.
    - replace ((off <=? o) && (o <? off + m)) with false by (clear -E Hm Ho; zlia). done. }
  split; try done.
  - by apply (lstep_trans _ c1 _ k 1); [apply G|].
  - apply G.
  - intros b Hbb Hnn. rewrite HB3 by done. by apply (gr_keep _ _ _ _ _ _ G).
  - intros b Hd H. apply (grown_owned c c1 sb d d' k); [done..|]. destruct H as [->|(b0 & Hb0 & ->)]; [by left|right].
    exists b0. by rewrite HB3.
  - intros o Hoo. replace (o / BSIZE) with bn by (unfold bn, BSIZE in *; zlia). by rewrite HB3.
  - intros H. apply Hst, H. lia.
  - intros b Hbb. assert (Hne : b <> blockof c1 d' bn).
    { intros ->. destruct Hbb as [Hlo|[Hd Hno]]; [destruct HDb; lia|]. apply Hno. eapply grown_owned; [done..|].
      right. by exists bn. }
    rewrite (proj2 C b Hne). apply (gr_views _ _ _ _ _ _ G). destruct Hbb as [|[Hd Hno]]; [by left|right]. split; [done|].
    intros ->. apply Hno. by left.
  - intros b Hd. by apply HD3, (gr_used _ _ _ _ _ _ G).
Qed.

Lemma wrote_none c sb d (off : Z) (src : Z -> Z) : blk_ok c sb -> ino_ok c sb d -> wrote c c sb d d off 0 src 0.
Proof.
  intros O OI. split; try done; try (intros; lia).
  - apply lstep_refl, O.
  - by destruct d.
  - intros o Ho. replace ((off <=? o) && (o <? off + 0)) with false by lia. done.
Qed.

Lemma at_inode_trans s1 s2 s3 ip x d d' :
  at_inode s1 s2 ip x d -> at_inode s2 s3 ip (set_d d x) d' -> at_inode s1 s3 ip x d'.
Proof.
  intros H1 H2. unfold at_inode in *. rewrite H2, H1. destruct s1. cbn. by rewrite list_insert_insert_eq.
Qed.

(** A step of a file system call on the inode [ip]. *)
Lemma file_wrote s s' ip x sb d (off n : Z) (src : Z -> Z) (a : nat) :
  file_ok s ip x sb -> at_inode s s' ip x d -> wrote (flog s) (flog s') sb (i_d x) d off n src a -> file_ok s' ip (set_d d x) sb.
Proof.
  intros [F1 F2 F3 F4 F5 F6] HA W. unfold at_inode in HA. split; try done.
  - rewrite HA. cbn. apply list_lookup_insert_eq. by eapply lookup_lt_Some.
  - by rewrite HA.
  - apply W.
  - apply W.
  - by eapply idle_step; [apply W|].
Qed.

(** The blocks [n] bytes from [off] are in. *)
Definition turns (off n : Z) : nat := if n <=? 0 then 0%nat else Z.to_nat ((off + n + 511) / 512 - off / 512).

Lemma turns_step (off n : Z) : 0 <= off -> 0 < n ->
  let m := Z.min n (BSIZE - off mod BSIZE) in turns off n = S (turns (off + m) (n - m)).
Proof. intros Ho Hn m. unfold turns, m, BSIZE. destruct (Z.leb_spec n 0), (Z.leb_spec (n - Z.min n (512 - off mod 512)) 0); zlia. Qed.

(** One turn, up to the recursive call. *)
Lemma write_turn s ip x sb (off m : Z) (src : Z -> Z) {A} (k : MF A) Q :
  file_ok s ip x sb -> (forall i, 0 <= src i < 256) -> 0 <= off -> 0 <= off / BSIZE < MAXFILE -> 0 < m <= BSIZE - off mod BSIZE ->
  budget (flog s) 6 -> (2 <= nfree (flog s) sb)%nat ->
  (forall s' d, at_inode s s' ip x d -> wrote (flog s) (flog s') sb (i_d x) d off m src 6 ->
     (nfree (flog s) sb <= nfree (flog s') sb + 2)%nat -> wp k Q s') ->
  wp (let! a := bmap ip (off / BSIZE) in
      let! bp := onbuf (bread (i_dev x) a) in
      bstore bp (fun v => put_bytes v (off mod BSIZE) src m) ;;;
      onlog (log_write bp) ;;;
      onbuf (brelse bp) ;;; k) Q s.
Proof.
  intros F Hsrc Ho Hb Hm [B1 B2] Hf HK. pose proof F as [F1 F2 F3 F4 F5 F6]. rewrite F2.
  wp_step. eapply wp_mono; [apply (bmap_spec s ip x sb (off / BSIZE)); try done; unfold budget; lia|].
  intros a s1 (d' & HA & G & Ea & Hn & Hst & HF). pose proof (gr_ino _ _ _ _ _ _ G) as OI1. pose proof (gr_blk _ _ _ _ _ _ G) as O1.
  pose proof (gr_step _ _ _ _ _ _ G) as L1. pose proof (bk_trans _ _ O1) as HT1. pose proof (blk_ok_geo_pos _ _ O1) as HG.
  rewrite Ea in Hn. destruct (io_blocks _ _ _ OI1 _ Hb Hn) as [HDr HDu]. subst a. set (a := blockof _ _ _) in *.
  pose proof (budget_step _ _ 5 1 L1 ltac:(split; [lia|exact B2])) as [B3 B4].
  apply wp_bread; [apply O1|by eapply idle_step; [apply L1|]|lia|lia|]. intros i bf c HSi HDt HV.
  destruct (si_geom _ _ _ _ _ _ HSi) as (_ & G2 & G3 & G4 & _). pose proof (si_len _ _ _ _ _ _ HSi) as HL.
  apply (wp_finish i (fun v => put_bytes v (off mod BSIZE) src m)). cbn [flog set_flog].
  eapply wp_mono; [apply (finish_change (flog s1) c 0 i a bf (fun v => put_bytes v (off mod BSIZE) src m) HSi)|].
  { lia. }
  { unfold home. rewrite G2, G3. apply (home_above _ sb); [apply O1|lia]. }
  { rewrite G3. lia. }
  { rewrite G4. lia. }
  intros [] c3 [L3 [C1 C2]].
  assert (C : changes (flog s1) c3 a (put_bytes (b_data bf) (off mod BSIZE) src m)).
  { split; [done|]. intros k' Hk'. by rewrite (C2 k' Hk'). }
  assert (HF3 : nfree c3 sb = nfree (flog s1) sb).
  { apply nfree_same. intros n Hn'. apply used_same; [lia|]. apply C.
    destruct (bblock_eq _ _ n (bk_log _ _ O1) (bk_geo _ _ O1) Hn'). lia. }
  apply (HK _ d').
  - unfold at_inode in *. cbn [flog set_flog]. rewrite HA. done.
  - cbn [flog set_flog]. by eapply (grown_write _ (flog s1) c3 sb _ d' 5 off m src (b_data bf)).
  - cbn [flog set_flog]. lia.
Qed.

Lemma write_loop_spec (fuel : nat) : forall s ip x sb (src : Z -> Z) (off tot n : Z),
  let t := turns off (n - tot) in
  file_ok s ip x sb -> (forall i, 0 <= src i < 256) -> 0 <= tot <= n -> 0 <= off -> off + (n - tot) <= MAXFILE * BSIZE ->
  budget (flog s) (6 * t) -> (2 * t <= nfree (flog s) sb)%nat -> n - tot < Z.of_nat fuel ->
  wp (write_loop fuel ip src off tot n) (fun r s' => r = off + (n - tot) /\
    exists d', at_inode s s' ip x d' /\ wrote (flog s) (flog s') sb (i_d x) d' off (n - tot) src (6 * t)) s.
Proof.
  induction fuel as [|fuel IH]; intros s ip x sb src off tot n t F Hsrc Ht Ho Hmx Bu Hf Hfu; [lia|]. cbn [write_loop].
  pose proof F as [F1 F2 F3 F4 F5 F6]. destruct (Z.ltb_spec tot n) as [Hlt|Hge].
  2: { unfold t. replace (n - tot) with 0 by lia. apply wp_ret. split; [lia|]. exists (i_d x).
    split; [|by apply wrote_none]. pose proof (at_inode_same s (flog s) ip x F1) as H. unfold at_inode in *. by destruct s. }
  eapply wp_geti; [exact F1|]. cbv zeta. pose proof (turns_step off (n - tot) Ho ltac:(lia)) as HTn. cbv zeta in HTn.
  set (m := Z.min (n - tot) (BSIZE - off mod BSIZE)) in *.
  assert (Hm : 0 < m <= n - tot /\ m <= BSIZE - off mod BSIZE) by (unfold m, BSIZE; zlia).
  fold t in HTn. replace (n - tot - m) with (n - (tot + m)) in HTn by lia. unfold budget in Bu.
  apply (write_turn s ip x sb off m src); try done; try lia.
  { change MAXFILE with 140 in *. unfold BSIZE in *. zlia. }
  { unfold budget. lia. }
  intros s2 d HA W HF. pose proof (file_wrote _ _ _ _ _ _ _ _ _ _ F HA W) as F'.
  eapply wp_mono; [apply (IH s2 ip (set_d d x) sb (fun i => src (i + m)) (off + m) (tot + m) n); try done; try lia|].
  - apply (budget_step (flog s) _ 6); [apply W|]. split; lia.
  - intros r s3 (-> & d' & HA' & W'). split; [lia|]. exists d'. split; [by eapply at_inode_trans|].
    replace (n - tot) with (m + (n - (tot + m))) by lia.
    replace (6 * t)%nat with (6 + 6 * turns (off + m) (n - (tot + m)))%nat by lia.
    eapply wrote_trans; [lia|lia|lia|lia|exact W|exact W'].
Qed.
End File.
