(* ===== verification/FsWrite.v ===== *)
(** * FsWrite: inodes on the disk, and the theorems of [readi] and [writei]

    [iupdate] writes the copy in the cache to its place on the disk and
    changes no other inode; [writei] then [readi] gives back what was written. *)
From stdpp Require Import base gmap list numbers strings.
From Stdlib Require Import ZArith Lia ZifyBool.
From S2P Require Import Prelude Machine Cstring LockThms Bio BioSpec Log LogSpec LogLoops LogThms LogOps Fs FsBlk FsAlloc FsInode FsFile.

(** ** [struct dinode] in a block *)

Lemma store16_other (m : memory) (a v x : Z) : x < a \/ a + 2 <= x -> store16 m a v x = m x.
Proof. intros H. unfold store16, store8. repeat case_match; zbool; lia. Qed.

Lemma load16_same (m m' : memory) (a : Z) : same_range m m' a 2 -> load16 m' a = load16 m a.
Proof. intros H. unfold load16. by rewrite !H by lia. Qed.

Lemma load16_store16 (m : memory) (a v : Z) : -32768 <= v < 32768 -> i16 (load16 (store16 m a v) a) = v.
Proof.
  intros H. unfold i16, load16, store16, store8, u8. replace (a =? a + 1) with false by lia. rewrite !Z.eqb_refl. zlia.
Qed.

Lemma store_words_other (l : list Z) (m : memory) (a x : Z) : x < a \/ a + 4 * Z.of_nat (length l) <= x -> store_words m a l x = m x.
Proof.
  revert m a. induction l as [|v l IH]; intros m a H; cbn in *; [done|]. rewrite IH by lia. apply store32_other. lia.
Qed.

Lemma load16_store16_ne (m : memory) (a b v : Z) : b + 2 <= a \/ a + 2 <= b -> load16 (store16 m a v) b = load16 m b.
Proof. intros H. apply load16_same. intros x Hx. apply store16_other. lia. Qed.

Lemma load16_store32_ne (m : memory) (a b v : Z) : b + 2 <= a -> load16 (store32 m a v) b = load16 m b.
Proof. intros H. apply load16_same. intros x Hx. apply store32_other. lia. Qed.

Lemma load16_words (l : list Z) (m : memory) (a b : Z) : b + 2 <= a -> load16 (store_words m a l) b = load16 m b.
Proof. intros H. apply load16_same. intros x Hx. apply store_words_other. lia. Qed.

(** The numbers fit in their fields. *)
Record dinode_ok (d : dinode) : Prop := mkdinode_ok {
  dk_type : -32768 <= d_type d < 32768;
  dk_major : -32768 <= d_major d < 32768;
  dk_minor : -32768 <= d_minor d < 32768;
  dk_nlink : -32768 <= d_nlink d < 32768;
  dk_size : word (d_size d);
  dk_addrs : Forall word (d_addrs d);
  dk_len : length (d_addrs d) = Z.to_nat (NDIRECT + 1);
}.

Lemma enc_dinode_other (m : memory) (o : Z) (d : dinode) (x : Z) :
  length (d_addrs d) = Z.to_nat (NDIRECT + 1) -> x < o \/ o + 64 <= x -> enc_dinode m o d x = m x.
Proof.
  intros Hl H. unfold enc_dinode. change (Z.to_nat (NDIRECT + 1)) with 13%nat in Hl.
  rewrite store_words_other by (rewrite Hl; lia). rewrite store32_other, !store16_other by lia. done.
Qed.

Lemma dec_enc_dinode (m : memory) (o : Z) (d : dinode) : dinode_ok d -> dec_dinode (enc_dinode m o d) o = d.
Proof.
  intros [H1 H2 H3 H4 H5 H6 H7]. destruct d as [t mj mn nl sz ad]. cbn in *. unfold dec_dinode, enc_dinode. cbn [d_type d_major d_minor d_nlink d_size d_addrs].
  f_equal.
  1-4: rewrite load16_words, load16_store32_ne by lia; rewrite ?load16_store16_ne by lia; by apply load16_store16.
  - rewrite store_words_below by lia. by apply load32_store32_eq.
  - rewrite <- H7. by apply load_store_words.
Qed.

Lemma store_words_byte (l : list Z) (m : memory) (a : Z) :
  (forall x, 0 <= x < BSIZE -> 0 <= m x < 256) -> forall x, 0 <= x < BSIZE -> 0 <= store_words m a l x < 256.
Proof. revert m a. induction l as [|v l IH]; intros m a Hm; cbn; [done|]. apply IH. by apply store32_byte. Qed.

Lemma enc_dinode_byte (m : memory) (o : Z) (d : dinode) :
  (forall x, 0 <= x < BSIZE -> 0 <= m x < 256) -> forall x, 0 <= x < BSIZE -> 0 <= enc_dinode m o d x < 256.
Proof.
  intros H. unfold enc_dinode, store16. apply store_words_byte, store32_byte. do 8 apply store8_byte. done.
Qed.

Section Write.
Context `{D : Disk} `{V : DevSw}.
Implicit Types (c : lgst) (sb : superblock) (d : dinode) (s : fsst).

Notation view' c := (view (lbc c)).

(** The inode [j] on the disk. *)
Definition dinode_at c sb (j : Z) : dinode := dec_dinode (view' c (IBLOCK j sb)) (j mod IPB * 64).

Lemma iblock_eq c sb (j : Z) :
  blk_ok c sb -> 0 <= j < sb_ninodes sb -> IBLOCK j sb = j / IPB + sb_inodestart sb /\ sb_inodestart sb <= IBLOCK j sb < sb_bmapstart sb.
Proof.
  intros O Hj. destruct (ge_inodes _ _ (bk_geo _ _ O)) as [H1 H2]. pose proof (blk_ok_geo_pos _ _ O) as HG.
  pose proof (pl_disk _ (lg_placed _ (bk_log _ _ O))) as HP. unfold IBLOCK. change IPB with 8 in *. rewrite u32_id by zlia. zlia.
Qed.

Lemma dec_dinode_same (m m' : memory) (o : Z) : (forall x, o <= x < o + 64 -> m' x = m x) -> dec_dinode m' o = dec_dinode m o.
Proof.
  intros H. unfold dec_dinode. rewrite !(load16_same m m') by (intros x Hx; apply H; lia).
  rewrite (load32_same m m') by (intros x Hx; apply H; lia). f_equal. change (Z.to_nat (NDIRECT + 1)) with 13%nat.
  cbn [load_words]. rewrite !(load32_same m m') by (intros x Hx; apply H; lia). done.
Qed.

Lemma dinode_at_same c c' sb (j : Z) : same_block (view' c' (IBLOCK j sb)) (view' c (IBLOCK j sb)) -> dinode_at c' sb j = dinode_at c sb j.
Proof. intros H. apply dec_dinode_same. intros x Hx. apply H. change IPB with 8 in *. unfold BSIZE. zlia. Qed.

(** ** [iupdate] *)

Record iupdated c c' sb (inum : Z) d (a : nat) : Prop := mkiupdated {
  iu_step : lstep c c' a;
  iu_blk : blk_ok c' sb;
  iu_views : forall b, b <> IBLOCK inum sb -> same_block (view' c' b) (view' c b);
  iu_inodes : forall j, 0 <= j < sb_ninodes sb -> dinode_at c' sb j = if j =? inum then d else dinode_at c sb j;
}.

Lemma iupdate_spec s ip x sb :
  file_ok s ip x sb -> 0 <= i_inum x < sb_ninodes sb -> dinode_ok (i_d x) -> budget (flog s) 1 ->
  wp (iupdate ip) (fun _ s' => s' = set_flog (flog s') s /\ iupdated (flog s) (flog s') sb (i_inum x) (i_d x) 1) s.
Proof.
  intros [F1 F2 F3 F4 F5 F6] Hi Hd [B1 B2]. unfold iupdate. eapply wp_geti; [exact F1|]. wp_step. cbn beta. wp_step. rewrite F3, F2.
  destruct (iblock_eq _ _ _ F4 Hi) as [EB HB]. pose proof (blk_ok_geo_pos _ _ F4) as HG. pose proof (bk_trans _ _ F4) as HT.
  apply wp_bread; [apply F4|apply F6|lia|lia|]. intros i bf c HSi HDt HV.
  destruct (si_geom _ _ _ _ _ _ HSi) as (_ & G2 & G3 & G4 & _). pose proof (si_len _ _ _ _ _ _ HSi) as HL.
  set (n := IBLOCK (i_inum x) sb) in *. set (o := i_inum x mod IPB * 64).
  apply (wp_finish_last i (fun m => enc_dinode m o (i_d x))). cbn [flog set_flog].
  eapply wp_mono; [apply (finish_change (flog s) c 0 i n bf (fun m => enc_dinode m o (i_d x)) HSi)|].
  { lia. }
  { unfold home. rewrite G2, G3. apply (home_above _ sb); [apply F4|lia]. }
  { rewrite G3. lia. }
  { rewrite G4. lia. }
  intros [] c3 [L3 [C1 C2]]. cbn [flog set_flog]. split; [done|].
  assert (C : changes (flog s) c3 n (enc_dinode (b_data bf) o (i_d x))).
  { split; [done|]. intros k Hk. by rewrite (C2 k Hk). }
  split; [done| |apply C|].
  - eapply (blk_keep (flog s) c3 sb 1 n _ F4 L3 C); [|lia|].
    + apply enc_dinode_byte. intros y Hy. rewrite (HDt y Hy). apply F4; [lia|done].
    + intros b Hb Hu _. rewrite (used_same (flog s) c3); [done|lia|]. apply C.
      destruct (bblock_eq _ _ b (bk_log _ _ F4) (bk_geo _ _ F4) Hb). lia.
  - intros j Hj. destruct (iblock_eq _ _ _ F4 Hj) as [EJ HJ]. destruct (Z.eqb_spec j (i_inum x)) as [->|Hne].
    + unfold dinode_at. fold n o. transitivity (dec_dinode (enc_dinode (b_data bf) o (i_d x)) o); [|by apply dec_enc_dinode]. apply dec_dinode_same.
      intros y Hy. apply C. unfold o in Hy. change IPB with 8 in *. unfold BSIZE. zlia.
    + destruct (decide (IBLOCK j sb = n)) as [E|E]; [|by apply dinode_at_same, C].
      unfold dinode_at. rewrite E. apply dec_dinode_same. intros y Hy.
      assert (Hy2 : 0 <= y < BSIZE) by (change IPB with 8 in *; unfold BSIZE; zlia).
      assert (Hoj : o + 64 <= j mod IPB * 64 \/ j mod IPB * 64 + 64 <= o).
      { unfold o. rewrite EJ, EB in E. change IPB with 8 in *. zlia. }
      rewrite (proj1 C y Hy2), enc_dinode_other by (apply Hd || lia). by apply HDt.
Qed.

(** ** [writei] *)

Lemma ino_words c sb d : blk_ok c sb -> ino_ok c sb d -> Forall word (d_addrs d).
Proof.
  intros O [O1 O2 O3 _ _]. pose proof (blk_ok_geo_pos _ _ O) as HG. pose proof (pl_disk _ (lg_placed _ (bk_log _ _ O))) as HP.
  assert (HD : forall a, (a <> 0 -> data_block c sb a) -> word a).
  { intros a Ha. unfold word. destruct (decide (a = 0)) as [->|Hn]; [lia|]. destruct (Ha Hn). lia. }
  apply Forall_lookup. intros i a Hi. apply HD. pose proof (lookup_lt_Some _ _ _ Hi) as Hl. rewrite O1 in Hl.
  assert (HN : forall j, j = i -> nth j (d_addrs d) 0 = a) by (intros j ->; by rewrite nth_lookup, Hi).
  change (Z.to_nat (NDIRECT + 1)) with 13%nat in Hl. destruct (decide (i = 12%nat)) as [E|E].
  - rewrite <- (HN (Z.to_nat NDIRECT)) by (by rewrite E). exact O3.
  - specialize (O2 (Z.of_nat i) ltac:(change MAXFILE with 140; lia)). unfold blockof in O2.
    rewrite (proj2 (Z.ltb_lt _ _)), (HN (Z.to_nat (Z.of_nat i))) in O2 by (unfold NDIRECT; lia). exact O2.
Qed.

(** The inode numbers and the disk of a file that is in use. *)
Record open_ok s (ip : nat) (x : inode) sb : Prop := mkopen_ok {
  op_file : file_ok s ip x sb;
  op_filled : filled (flog s) (i_d x);
  op_fields : dinode_ok (i_d x);
  op_inum : 0 <= i_inum x < sb_ninodes sb;
  op_synced : dinode_at (flog s) sb (i_inum x) = i_d x;
}.

(** What else is on the disk: other inodes, and the files they own. *)
Definition others c c' sb (x : inode) : Prop :=
  (forall j, 0 <= j < sb_ninodes sb -> j <> i_inum x -> dinode_at c' sb j = dinode_at c sb j) /\
  (forall y, ino_ok c sb y -> (forall b, b <> 0 -> owned c y b -> ~ owned c (i_d x) b) ->
     ino_ok c' sb y /\ forall o, 0 <= o < MAXFILE * BSIZE -> content c' y o = content c y o).

Lemma wrote_others c c' c3 sb (x : inode) d (off n : Z) (src : Z -> Z) (a : nat) :
  blk_ok c sb -> 0 <= i_inum x < sb_ninodes sb -> wrote c c' sb (i_d x) d off n src a ->
  (forall b, b <> IBLOCK (i_inum x) sb -> same_block (view' c3 b) (view' c' b)) ->
  (forall j, 0 <= j < sb_ninodes sb -> j <> i_inum x -> dinode_at c3 sb j = dinode_at c' sb j) -> others c c3 sb x.
Proof.
  intros O Hi W HV3 HI3. pose proof (blk_ok_geo_pos _ _ O) as HG. destruct (iblock_eq _ _ _ O Hi) as [EI HI].
  split.
  - intros j Hj Hne. rewrite HI3 by done. apply dinode_at_same, (wr_views _ _ _ _ _ _ _ _ _ W). left.
    destruct (iblock_eq _ _ _ O Hj). lia.
  - intros y OY Hdis.
    assert (HU : forall k, data_block c sb k -> data_block c3 sb k).
    { intros k Hk. destruct (wr_used _ _ _ _ _ _ _ _ _ W k Hk) as [K1 K2]. split; [done|].
      rewrite (used_same c' c3); [done|lia|]. apply HV3. destruct (bblock_eq _ _ k (bk_log _ _ O) (bk_geo _ _ O) ltac:(lia)). lia. }
    assert (HV : forall b, b <> 0 -> owned c y b -> data_block c sb b -> same_block (view' c3 b) (view' c b)).
    { intros b Hb Ho Hd. rewrite (HV3 b) by (destruct Hd; lia). apply (wr_views _ _ _ _ _ _ _ _ _ W). right. split; [done|by apply Hdis]. }
    destruct (ino_keep c c3 sb y OY HU) as [OY3 HB3].
    { intros Hn. apply HV; [done|by left|by apply OY]. }
    split; [done|]. intros o Ho. unfold content.
    assert (Hob : 0 <= o / BSIZE < MAXFILE) by (change MAXFILE with 140 in *; unfold BSIZE in *; zlia).
    rewrite HB3 by done. destruct (Z.eqb_spec (blockof c y (o / BSIZE)) 0) as [|Hz]; [done|].
    apply HV; [done|right; by exists (o / BSIZE)|by apply OY|unfold BSIZE; zlia].
Qed.

(** The state after a successful [writei]. *)
Record writei_done s s' (ip : nat) (x : inode) sb d (off n : Z) (src : Z -> Z) : Prop := mkwritei_done {
  wd_at : at_inode s s' ip x d;
  wd_open : open_ok s' ip (set_d d x) sb;
  wd_step : lstep (flog s) (flog s') (6 * turns off n + 1);
  wd_type : d_type d = i_type x;
  wd_size : d_size d = if 0 <? n then Z.max (i_size x) (off + n) else i_size x;
  wd_content : forall o, 0 <= o < MAXFILE * BSIZE ->
    content (flog s') d o = if (off <=? o) && (o <? off + n) then src (o - off) else content (flog s) (i_d x) o;
  wd_others : others (flog s) (flog s') sb x;
}.

Lemma wrote_filled c c' sb d d' (off n : Z) (src : Z -> Z) (a : nat) :
  wrote c c' sb d d' off n src a -> filled c d -> 0 <= off <= d_size d -> 0 <= n -> off + n <= MAXFILE * BSIZE ->
  forall o, 0 <= o < Z.max (d_size d) (off + n) -> blockof c' d' (o / BSIZE) <> 0.
Proof.
  intros W [Hs HF] Ho Hn Hmx o Hoo. destruct (decide (off <= o < off + n)) as [Hi|Hi]; [by apply W|].
  assert (Hb : 0 <= o / BSIZE < MAXFILE) by (change MAXFILE with 140 in *; unfold BSIZE in *; zlia).
  rewrite (wr_keep _ _ _ _ _ _ _ _ _ W); [apply HF; lia|done|apply HF; lia].
Qed.

(** The fields that [writei] does not change. *)
Lemma grown_fields c sb d d' (z : Z) :
  blk_ok c sb -> ino_ok c sb d' -> dinode_ok d -> word z -> d' = set_addrs (d_addrs d') d -> dinode_ok (set_size z d').
Proof.
  intros O OI [K1 K2 K3 K4 K5 K6 K7] Hz E. pose proof (ino_words _ _ _ O OI) as HW. pose proof (io_len _ _ _ OI) as HL.
  rewrite E in *. by split.
Qed.

(** The file did not grow: the inode is as before. *)
Lemma writei_within s s1 ip x sb d (off n : Z) (src : Z -> Z) :
  open_ok s ip x sb -> at_inode s s1 ip x d -> wrote (flog s) (flog s1) sb (i_d x) d off n src (6 * turns off n) ->
  0 <= off <= i_size x -> 0 <= n -> (0 <? n) && (i_size x <? off + n) = false -> writei_done s s1 ip x sb d off n src.
Proof.
  intros [F [Hs HF] HK Hi HS] HA W Ho Hn Hg.
  assert (E : d = i_d x) by (apply (wr_stable _ _ _ _ _ _ _ _ _ W); intros o Hoo; apply HF; lia). subst d.
  assert (HV := wr_views _ _ _ _ _ _ _ _ _ W). destruct (iblock_eq _ _ _ (fo_blk _ _ _ _ F) Hi) as [EI HI].
  split; try done.
  - split; cbn; try done; [by eapply file_wrote| |].
    + split; [done|]. intros o Hoo. apply (wrote_filled _ _ _ _ _ _ _ _ _ W); [done|lia|lia| |lia].
      destruct (decide (n = 0)); lia.
    + etrans; [|exact HS]. apply dinode_at_same, HV. lia.
  - eapply lstep_weaken; [apply W|lia].
  - case_match; zbool; lia.
  - apply W.
  - by eapply wrote_others; [apply F|done|exact W|..].
Qed.

(** The file grew: its size changes, here and on the disk. *)
Lemma writei_grows s s1 ip x sb d (off n : Z) (src : Z -> Z) :
  open_ok s ip x sb -> at_inode s s1 ip x d -> wrote (flog s) (flog s1) sb (i_d x) d off n src (6 * turns off n) ->
  0 <= off <= i_size x -> 0 < n -> i_size x < off + n <= MAXFILE * BSIZE -> budget (flog s) (6 * turns off n + 1) ->
  wp (setd ip (set_size (off + n)) ;;; iupdate ip) (fun _ s' => exists d', writei_done s s' ip x sb d' off n src) s1.
Proof.
  intros [F [Hs HF] HK Hi HS] HA W Ho Hn Hg Bu. pose proof (wr_blk _ _ _ _ _ _ _ _ _ W) as O1.
  pose proof (wr_ino _ _ _ _ _ _ _ _ _ W) as OI1. pose proof (wr_same _ _ _ _ _ _ _ _ _ W) as Ed.
  pose proof (file_wrote _ _ _ _ _ _ _ _ _ _ F HA W) as F1. set (d' := set_size (off + n) d).
  set (s2 := set_icache (<[ip := set_d d' (set_d d x)]> (icache s1)) s1).
  assert (HK' : dinode_ok d').
  { apply (grown_fields (flog s1) sb (i_d x)); try done. unfold word. change MAXFILE with 140 in *. unfold BSIZE in *. lia. }
  assert (F2 : file_ok s2 ip (set_d d' x) sb).
  { destruct F1 as [A1 A2 A3 A4 A5 A6]. split; try done; [cbn; apply list_lookup_insert_eq; by eapply lookup_lt_Some|].
    cbn in *. by destruct A5. }
  wp_step. apply (wp_setd s1 s1 ip (set_d d x)); [apply F1|by destruct s1|].
  replace (set_icache _ (set_flog _ s1)) with s2 by (by destruct s1).
  eapply wp_mono; [apply (iupdate_spec s2 ip (set_d d' x) sb F2 Hi HK'); by apply (budget_step _ _ _ _ (wr_step _ _ _ _ _ _ _ _ _ W))|].
  intros [] s3 [E3 [U1 U2 U3 U4]]. change (flog s2) with (flog s1) in *. cbn in U3, U4. exists d'.
  destruct (iblock_eq _ _ _ O1 Hi) as [EI HI]. pose proof (blk_ok_geo_pos _ _ O1) as HG.
  assert (HU3 : forall k, data_block (flog s1) sb k -> data_block (flog s3) sb k).
  { intros k [K1 K2]. split; [done|]. rewrite (used_same (flog s1)); [done|lia|]. apply U3.
    destruct (bblock_eq _ _ k (bk_log _ _ O1) (bk_geo _ _ O1) ltac:(lia)). lia. }
  destruct (ino_keep (flog s1) (flog s3) sb d' (fo_ino _ _ _ _ F2) HU3) as [OI3 HB3].
  { intros Hz. apply U3. destruct (io_ind _ _ _ (fo_ino _ _ _ _ F2) Hz). cbn in *. lia. }
  assert (HA3 : at_inode s s3 ip x d').
  { unfold at_inode in *. rewrite E3. unfold s2. rewrite HA. destruct s. cbn. by rewrite list_insert_insert_eq. }
  assert (HC3 : forall o, 0 <= o < MAXFILE * BSIZE -> content (flog s3) d' o = content (flog s1) d o).
  { intros o Hoo. unfold content. assert (Hob : 0 <= o / BSIZE < MAXFILE) by (change MAXFILE with 140 in *; unfold BSIZE in *; zlia).
    rewrite HB3 by done. change (blockof (flog s1) d' (o / BSIZE)) with (blockof (flog s1) d (o / BSIZE)).
    destruct (Z.eqb_spec (blockof (flog s1) d (o / BSIZE)) 0) as [|Hz]; [done|].
    apply U3; [destruct (io_blocks _ _ _ OI1 _ Hob Hz); lia|unfold BSIZE; zlia]. }
  split; try done.
  - destruct F2 as [A1 A2 A3 A4 A5 A6]. split; cbn; try done.
    + split; cbn; try done; [rewrite E3; exact A1|by rewrite E3|by eapply idle_step; [apply U1|]].
    + split; cbn; [lia|]. intros o Hoo. rewrite HB3 by (change MAXFILE with 140 in *; unfold BSIZE in *; zlia).
      apply (wrote_filled _ _ _ _ _ _ _ _ _ W); [done|lia|lia|lia|lia].
    + rewrite U4, Z.eqb_refl by done. done.
  - eapply lstep_trans; [apply W|done].
  - cbn. by rewrite Ed.
  - cbn. case_match; zbool; lia.
  - intros o Hoo. rewrite HC3 by done. by apply (wr_content _ _ _ _ _ _ _ _ _ W).
  - eapply (wrote_others _ (flog s1)); [apply F|done|exact W|done|]. intros j Hj Hne. rewrite U4 by done.
    destruct (Z.eqb_spec j (i_inum x)); done.
Qed.

Lemma writei_spec s ip x sb (src : Z -> Z) (off n : Z) :
  open_ok s ip x sb -> i_type x <> T_DEV -> (forall i, 0 <= src i < 256) ->
  budget (flog s) (6 * turns off n + 1) -> (2 * turns off n <= nfree (flog s) sb)%nat ->
  0 <= off < 4294967296 -> 0 <= n < 4294967296 ->
  wp (writei ip src off n) (fun r s' =>
    if (i_size x <? off) || (MAXFILE * BSIZE <? off + n) then r = -1 /\ s' = s
    else r = n /\ exists d, writei_done s s' ip x sb d off n src) s.
Proof.
  intros OP HT Hsrc Bu Hf Ho Hn. pose proof OP as [F [Hs HF] HK Hi HS]. pose proof F as [F1 F2 F3 F4 F5 F6].
  unfold writei. eapply wp_geti; [exact F1|]. rewrite (proj2 (Z.eqb_neq _ _) HT). change (MAXFILE * BSIZE) with 71680 in *.
  destruct (Z.ltb_spec (i_size x) off) as [Hlo|Hlo]; [by apply wp_ret|]. cbn [orb].
  assert (Eu : (u32 (off + n) <? off) = (4294967296 <=? off + n)) by (unfold u32; zlia). rewrite Eu.
  destruct (Z.leb_spec 4294967296 (off + n)) as [Hov|Hov]; [rewrite (proj2 (Z.ltb_lt 71680 (off + n))) by lia; by apply wp_ret|].
  rewrite u32_id by lia. destruct (Z.ltb_spec 71680 (off + n)) as [Hmx|Hmx]; [by apply wp_ret|].
  wp_step. eapply wp_mono; [apply (write_loop_spec _ s ip x sb src off 0 n); rewrite ?Z.sub_0_r; try done; try lia|].
  { unfold budget in *. lia. }
  rewrite Z.sub_0_r. intros r s1 (-> & d & HA & W). pose proof (file_wrote _ _ _ _ _ _ _ _ _ _ F HA W) as [G1 _ _ _ _ _].
  eapply wp_geti; [exact G1|]. cbn [i_d set_d]. assert (Ez : d_size d = i_size x) by (by rewrite (wr_same _ _ _ _ _ _ _ _ _ W)). rewrite Ez.
  destruct ((0 <? n) && (i_size x <? off + n)) eqn:E; wp_step; cbn [when].
  - eapply wp_mono; [apply (writei_grows s s1 ip x sb d off n src); try done; change (MAXFILE * BSIZE) with 71680; lia|].
    intros [] s' Hd. apply wp_ret. rewrite i32_id by lia. done.
  - apply wp_ret, wp_ret. rewrite i32_id by lia. split; [done|]. exists d. apply writei_within; try done; lia.
Qed.

(** C20. [writei] on a file that is open: an offset beyond the size, or an end
    beyond [MAXFILE] blocks, gives -1 and changes nothing; otherwise all [n]
    bytes are written, the size grows to the end of the write when that is
    beyond it, every byte outside the range keeps its value, the inode on the
    disk is the one in the cache, the invariants are kept, and the other inodes
    and the contents of the files that share no block with this one stay. *)
Theorem writei_correct s ip x sb (src : Z -> Z) (off n : Z) :
  open_ok s ip x sb -> i_type x <> T_DEV -> (forall i, 0 <= src i < 256) ->
  budget (flog s) (6 * turns off n + 1) -> (2 * turns off n <= nfree (flog s) sb)%nat ->
  0 <= off < 4294967296 -> 0 <= n < 4294967296 ->
  wp (writei ip src off n) (fun r s' =>
    if (i_size x <? off) || (MAXFILE * BSIZE <? off + n) then r = -1 /\ s' = s
    else r = n /\ exists d, writei_done s s' ip x sb d off n src) s.
Proof. apply writei_spec. Qed.
End Write.
