(* ===== verification/FsThms.v ===== *)
(** * FsThms: theorems of the file system

    What is written to a file is read back, and a concrete file system on which
    the theorems apply. *)
From stdpp Require Import base gmap list numbers strings.
From Stdlib Require Import ZArith Lia ZifyBool.
From S2P Require Import Prelude Machine Cstring LockThms Bio BioSpec Log LogSpec LogLoops LogThms LogOps Fs FsBlk FsAlloc FsInode FsFile FsWrite.

Section Thms.
Context `{D : Disk} `{V : DevSw}.
Implicit Types (sb : superblock) (s : fsst).

(** Everything that a process sees of the contents of the file. *)
Definition file_bytes s (x : inode) (off n : Z) : list Z := content (flog s) (i_d x) <$> seqZ off n.

(** A write, and a read of the same range. *)
Definition write_read (ip : nat) (src : Z -> Z) (off n : Z) : MF (Z * (Z * list Z)) :=
  let! r := writei ip src off n in
  let! l := readi ip off n in
  ret (r, l).

(** [readi] on a file all of whose blocks below its size are allocated: an
    offset beyond the size, or a sum that overflows, gives -1; otherwise it
    returns the number of bytes up to the end of the file and exactly those
    bytes, and changes nothing on the disk or in the inode cache. *)
Theorem readi_correct s ip x sb (off n : Z) :
  file_ok s ip x sb -> filled (flog s) (i_d x) -> i_type x <> T_DEV -> budget (flog s) 0 ->
  0 <= off < 4294967296 -> 0 <= n < 4294967296 ->
  wp (readi ip off n) (fun r s' => reads s s' 0 /\
    r = if (i_size x <? off) || (4294967296 <=? off + n) then (-1, [])
        else let k := Z.min n (i_size x - off) in (k, file_bytes s x off k)) s.
Proof. apply readi_spec. Qed.

(** C19. What [writei] stores, [readi] gives back, whatever blocks of the file
    had to be allocated in between. *)
Theorem write_then_read s ip x sb (src : Z -> Z) (off n : Z) :
  open_ok s ip x sb -> i_type x <> T_DEV -> (forall i, 0 <= src i < 256) ->
  budget (flog s) (6 * turns off n + 1) -> (2 * turns off n <= nfree (flog s) sb)%nat ->
  0 <= off <= i_size x -> 0 <= n -> off + n <= MAXFILE * BSIZE ->
  wp (write_read ip src off n) (fun p _ => p = (n, (n, src <$> seqZ 0 n))) s.
Proof.
  intros OP HT Hsrc Bu Hf Ho Hn Hmx. pose proof OP as [_ [Hs _] _ _ _]. change (MAXFILE * BSIZE) with 71680 in *.
  unfold write_read. wp_step. eapply wp_mono; [apply (writei_spec s ip x sb src off n); try done; lia|]. cbn beta. change (MAXFILE * BSIZE) with 71680.
  rewrite (proj2 (Z.ltb_ge (i_size x) off)), (proj2 (Z.ltb_ge 71680 (off + n))) by lia. intros r s1 [-> [d W]].
  pose proof (wd_size _ _ _ _ _ _ _ _ _ W) as Ez. pose proof (wd_content _ _ _ _ _ _ _ _ _ W) as HC.
  wp_step. eapply wp_mono; [apply (readi_spec s1 ip (set_d d x) sb off n); try lia; [apply W..| |]|].
  { cbn. by rewrite (wd_type _ _ _ _ _ _ _ _ _ W). }
  { apply (budget_step _ _ _ 0 (wd_step _ _ _ _ _ _ _ _ _ W)). rewrite Nat.add_0_r. done. }
  cbn [i_d set_d]. intros l s2 [_ ->]. apply wp_ret. f_equal. rewrite Ez.
  assert (Hk : Z.min n (d_size d - off) = n) by (rewrite Ez; case_match; zbool; lia). rewrite Ez in Hk.
  replace ((if 0 <? n then Z.max (i_size x) (off + n) else i_size x) <? off) with false by (case_match; zbool; lia).
  rewrite (proj2 (Z.leb_gt 4294967296 (off + n))) by lia. cbn [orb]. cbv zeta. rewrite Hk. f_equal.
  apply list_eq. intros i. rewrite !list_lookup_fmap. destruct (decide (Z.of_nat i < n)) as [Hi|Hi].
  - rewrite !lookup_seqZ_lt by lia. cbn. f_equal. rewrite HC by (change (MAXFILE * BSIZE) with 71680; lia).
    replace ((off <=? off + Z.of_nat i) && (off + Z.of_nat i <? off + n)) with true by lia. f_equal. lia.
  - rewrite !lookup_seqZ_ge by lia. done.
Qed.
End Thms.

Module FsSample.
#[export] Instance disk100 : Disk := { disksize := 100 }.
#[export] Instance nodev : DevSw := { dev_read := fun _ => None; dev_write := fun _ => None }.

(** A disk of a hundred blocks: the log from block 2, eight inodes in block 32,
    the bitmap in block 34.  The inode 1 is a file of 700 bytes in the blocks 35
    and 36; as directory entries, the second one in block 35 is inode 3, [a]. *)
Definition sb100 : superblock := mksb 100 65 8 30 2 32 34.
Definition file1 : dinode := mkdinode T_FILE 0 0 1 700 (35 :: 36 :: replicate 11 0).
Definition image (n : Z) : memory :=
  if n =? 1 then store_words (fun _ => 0) 0 [100; 65; 8; 30; 2; 32; 34]
  else if n =? 32 then enc_dinode (fun _ => 0) 64 file1
  else if n =? 34 then (fun o => if o <? 4 then 255 else if o =? 4 then 31 else 0)
  else if n =? 35 then (fun o => if o =? 16 then 3 else if o =? 18 then 97 else 0)
  else fun _ => 0.
Definition bcache : bcst := mkbc image [] (replicate 30 buf0) (seq 0 30) false 1.
Definition log : lgst := mklg bcache 2 30 1 0 1 [] false.
Definition inode1 : inode := mkinode 1 1 1 (mksleeplock 1 "inode" 1) 1 file1.
Definition fs : fsst := mkfs log sb100 [inode1] false 0.

Lemma all_range (P : Z -> bool) (a n : Z) : forallb P (seqZ a n) = true -> forall z, a <= z < a + n -> P z = true.
Proof. intros H z Hz. eapply forallb_forall in H; [exact H|]. apply list_elem_of_In, elem_of_seqZ. lia. Qed.

Lemma in_blank i b : bufs bcache !! i = Some b -> b = buf0.
Proof. intros H%lookup_replicate. apply H. Qed.

Lemma bcache_inv : binv bcache.
Proof.
  split; [done|apply NoDup_seq| | |].
  - intros i. cbn -[seq]. rewrite elem_of_seq. lia.
  - intros i b ->%in_blank. split; try done. cbv. tauto.
  - intros i j b c ->%in_blank _. done.
Qed.

Lemma log_inv : loginv log.
Proof.
  split; [apply bcache_inv|split; cbn; unfold LOGSIZE, MAXOPBLOCKS; lia|done| | |done].
  - split; cbn; [apply NoDup_nil_2|set_solver..|lia].
  - intros n. split; [|set_solver]. by intros (i & b & ->%in_blank & Dv & _).
Qed.

Lemma image_bytes n o : 0 <= o < BSIZE -> 0 <= image n o < 256.
Proof.
  intros Ho. unfold image. repeat case_match; try lia; [by apply store_words_byte|by apply enc_dinode_byte].
Qed.

Lemma log_ok : blk_ok log sb100.
Proof.
  split; [apply log_inv| |reflexivity| | | |done].
  - split; vm_compute; repeat split; congruence.
  - apply (all_range (used log sb100) 0 35). vm_compute. reflexivity.
  - intros n o _ Ho. change (0 <= image n o < 256). by apply image_bytes.
  - intros i b ->%in_blank. done.
Qed.

Lemma log_idle : idle log.
Proof. by intros n i b ->%in_blank. Qed.

Lemma file1_ok : ino_ok log sb100 file1.
Proof.
  assert (HB : forall bn, 0 <= bn < MAXFILE -> blockof log file1 bn <> 0 -> bn = 0 /\ blockof log file1 bn = 35 \/ bn = 1 /\ blockof log file1 bn = 36).
  { intros bn Hb Hn. assert (H : ((blockof log file1 bn =? 0) || (bn =? 0) || (bn =? 1)) = true).
    { apply (all_range (fun bn => (blockof log file1 bn =? 0) || (bn =? 0) || (bn =? 1)) 0 140); [vm_compute; reflexivity|].
      by change MAXFILE with 140 in Hb. }
    apply orb_true_iff in H as [[H|H]%orb_true_iff|H]; apply Z.eqb_eq in H; [done| |]; subst bn; [left|right]; done. }
  split; [done| |done| |].
  - intros bn Hb Hn. destruct (HB bn Hb Hn) as [[_ ->]|[_ ->]]; (split; [vm_compute; split; congruence|reflexivity]).
  - intros b1 b2 H1 H2 Hn E. destruct (HB b1 H1 Hn) as [[-> E1]|[-> E1]], (HB b2 H2 ltac:(congruence)) as [[-> E2]|[-> E2]]; congruence.
  - intros bn Hb Hn. exact Hn.
Qed.

Lemma fs_file : file_ok fs 0 inode1 sb100.
Proof. split; [done..|apply log_ok|apply file1_ok|apply log_idle]. Qed.

Lemma fs_filled : filled log file1.
Proof.
  split; [vm_compute; split; congruence|]. intros o Ho. cbn in Ho. unfold BSIZE.
  assert (H : o / 512 = 0 \/ o / 512 = 1) by zlia. destruct H as [-> | ->]; done.
Qed.

Lemma file1_fields : dinode_ok file1.
Proof.
  split; [split; vm_compute; congruence..| |done].
  repeat (apply Forall_cons; split; [split; vm_compute; congruence|]). by apply Forall_nil.
Qed.

Lemma fs_open : open_ok fs 0 inode1 sb100.
Proof. split; [apply fs_file|apply fs_filled|apply file1_fields|done|apply dec_enc_dinode, file1_fields]. Qed.

Definition seven (i : Z) : Z := i mod 7.

Lemma seven_bytes i : 0 <= seven i < 256.
Proof. unfold seven. zlia. Qed.

Lemma balloc_bfree_witness :
  wp (balloc 1) (fun b s' => allocated fs s' sb100 b /\
    wp (bfree 1 b) (fun _ s'' => freed s' s'' sb100 b /\ forall k, 0 <= k < 100 -> used (flog s'') sb100 k = used log sb100 k) s') fs.
Proof. apply (balloc_bfree fs sb100 37); [apply log_ok|done|vm_compute; split; [done|lia]|done|vm_compute; reflexivity]. Defined.

Lemma readi_correct_witness :
  wp (readi 0 690 100) (fun r s' => reads fs s' 0 /\ r = (10, file_bytes fs inode1 690 10)) fs.
Proof.
  apply (readi_correct fs 0 inode1 sb100 690 100); [apply fs_file|apply fs_filled|done|vm_compute; split; [done|lia]|lia|lia].
Defined.

Lemma writei_correct_witness :
  wp (writei 0 seven 500 1000) (fun r s' => r = 1000 /\ exists d, writei_done fs s' 0 inode1 sb100 d 500 1000 seven) fs.
Proof.
  apply (writei_correct fs 0 inode1 sb100 seven 500 1000); [apply fs_open|done|apply seven_bytes|vm_compute; split; [done|lia]| |lia|lia].
  vm_compute. lia.
Defined.

Lemma write_then_read_witness :
  wp (write_read 0 seven 500 1000) (fun p _ => p = (1000, (1000, seven <$> seqZ 0 1000))) fs.
Proof.
  apply (write_then_read fs 0 inode1 sb100 seven 500 1000); [apply fs_open|done|apply seven_bytes|vm_compute; split; [done|lia]| |cbn; lia|lia|].
  - vm_compute. lia.
  - vm_compute. congruence.
Defined.
End FsSample.
