(* ===== verification/FsDir.v ===== *)
(** * FsDir: paths, directories and the inode cache

    The elements that [skipelem] takes from a path, one call after the other,
    are the names between its slashes; [iget] keeps one entry per inode. *)
From stdpp Require Import base gmap list numbers strings.
From Stdlib Require Import ZArith Lia ZifyBool.
From S2P Require Import Prelude Machine Cstring LockThms Bio BioSpec Log LogSpec LogLoops LogThms LogOps Fs FsBlk FsAlloc FsInode FsFile FsWrite FsThms.

(** ** Names and paths *)

(** The name in a buffer: up to [n] bytes, or to the NUL. *)
Fixpoint cname_from (m : Z -> Z) (n : nat) : list Z :=
  match n with
  | O => []
  | S n => if m 0 =? 0 then [] else m 0 :: cname_from (next m) n
  end.
Definition cname (m : memory) : list Z := cname_from m (Z.to_nat DIRSIZ).

(** The reference: the non-empty strings between slashes; [cur] is the one
    being read. *)
Fixpoint split_path (cur : list Z) (p : list Z) : list (list Z) :=
  match p with
  | [] => match cur with [] => [] | _ => [cur] end
  | c :: q =>
      if c =? 47 then match cur with [] => split_path [] q | _ => cur :: split_path [] q end
      else split_path (cur ++ [c]) q
  end.

(** The loop of [namex]: the names that successive calls of [skipelem] leave in
    the buffer. *)
Fixpoint walk (fuel : nat) (path : list Z) (name : memory) : option (list (list Z)) :=
  match fuel with
  | O => None
  | S fuel =>
      match skipelem path name with
      | None => Some []
      | Some (rest, name) => cons (cname name) <$> walk fuel rest name
      end
  end.

Lemma cname_from_spec (n : nat) : forall (m : Z -> Z) (l : list Z),
  Forall (fun c => c <> 0) l ->
  (forall i, (i < n)%nat -> (i < length l)%nat -> m (Z.of_nat i) = nth i l 0) ->
  ((length l < n)%nat -> m (Z.of_nat (length l)) = 0) -> cname_from m n = take n l.
Proof.
  induction n as [|n IH]; intros m l HF HM HE; cbn [cname_from]; [done|]. destruct l as [|c l]; cbn [take].
  - assert (E : m 0 = 0) by (apply HE; cbn; lia). by rewrite E.
  - apply Forall_cons in HF as [Hc HF]. assert (E : m 0 = c) by (apply (HM 0%nat); cbn; lia). rewrite E.
    rewrite (proj2 (Z.eqb_neq c 0) Hc). f_equal. apply IH; [done| |].
    + intros i Hi Hl. unfold next. replace (Z.of_nat i + 1) with (Z.of_nat (S i)) by lia. apply (HM (S i)); cbn; lia.
    + intros Hl. unfold next. replace (Z.of_nat (length l) + 1) with (Z.of_nat (length (c :: l))) by (cbn; lia). apply HE. cbn. lia.
Qed.

Lemma split_skip (p : list Z) : split_path [] (skip_slashes p) = split_path [] p.
Proof. induction p as [|c p IH]; cbn; [done|]. destruct (c =? 47) eqn:E; [done|]. cbn. by rewrite E. Qed.

Lemma skip_head (p : list Z) : skip_slashes p = [] \/ exists c q, skip_slashes p = c :: q /\ c <> 47.
Proof. induction p as [|c p IH]; cbn; [by left|]. destruct (Z.eqb_spec c 47); [done|]. right. by exists c, p. Qed.

Lemma take_drop_elem (p : list Z) : take_elem p ++ drop_elem p = p.
Proof. induction p as [|c p IH]; cbn; [done|]. case_match; cbn; [done|]. by rewrite IH. Qed.

Lemma split_elem (p cur : list Z) : cur ++ take_elem p <> [] -> split_path cur p = (cur ++ take_elem p) :: split_path [] (drop_elem p).
Proof.
  revert cur. induction p as [|c p IH]; intros cur H; cbn in *.
  - rewrite app_nil_r in *. by destruct cur.
  - destruct (c =? 47) eqn:E.
    + rewrite app_nil_r in *. cbn. rewrite E. by destruct cur.
    + rewrite IH; [by rewrite <- app_assoc|]. by destruct cur.
Qed.

(** One call. *)
Lemma skipelem_spec (p : list Z) (name : memory) :
  Forall (fun c => 0 < c < 256) p ->
  match skipelem p name with
  | None => split_path [] p = []
  | Some (rest, name') => exists e, split_path [] p = e :: split_path [] rest /\ cname name' = take (Z.to_nat DIRSIZ) e /\
      (length rest < length p)%nat /\ Forall (fun c => 0 < c < 256) rest
  end.
Proof.
  intros HF. unfold skipelem. rewrite <- (split_skip p).
  assert (HL : (length (skip_slashes p) <= length p)%nat) by (clear; induction p; cbn; [lia|]; case_match; cbn; lia).
  assert (HS : Forall (fun c => 0 < c < 256) (skip_slashes p)).
  { clear HL. induction HF; cbn; [done|]. case_match; [done|]. by constructor. }
  destruct (skip_head p) as [->|(c & q & E & Hc)]; [done|]. rewrite E in *. set (s := c :: q) in *.
  assert (HT : take_elem s = c :: take_elem q) by (cbn; by rewrite (proj2 (Z.eqb_neq c 47) Hc)).
  exists (take_elem s). pose proof (take_drop_elem s) as HTD. rewrite <- HTD in HS. apply Forall_app in HS as [HS1 HS2].
  assert (HN : forall i, (i < length (take_elem s))%nat -> nth i s 0 = nth i (take_elem s) 0).
  { intros i Hi. rewrite <- HTD at 1. by apply app_nth1. }
  split_and!.
  - rewrite split_skip. rewrite split_elem; [done|]. by rewrite HT.
  - apply cname_from_spec.
    + eapply Forall_impl; [exact HS1|]. intros z Hz. cbn beta in *. lia.
    + intros i Hi Hl. rewrite <- HN by done. change (Z.to_nat DIRSIZ) with 14%nat in Hi. unfold DIRSIZ.
      destruct (Z.leb_spec 14 (Z.of_nat (length (take_elem s)))); [|rewrite store8_ne by lia]; unfold bcopy;
        rewrite (proj2 (andb_true_iff _ _)) by lia; by rewrite Nat2Z.id.
    + intros Hl. change (Z.to_nat DIRSIZ) with 14%nat in Hl. rewrite (proj2 (Z.leb_gt DIRSIZ _)) by (unfold DIRSIZ; lia). apply store8_eq.
  - assert (H2 : (length (skip_slashes (drop_elem s)) <= length (drop_elem s))%nat)
      by (clear; induction (drop_elem s); cbn; [lia|]; case_match; cbn; lia).
    apply (f_equal length) in HTD. rewrite length_app, HT in HTD. cbn [length] in HTD, HL |- *. lia.
  - clear -HS2. induction HS2; cbn; [done|]. case_match; [done|]. by constructor.
Qed.

(** Calling [skipelem] again and again on what is left of a path gives, in
    order, exactly the non-empty strings between its slashes, each cut to
    [DIRSIZ] bytes, and stops within as many calls as the path has bytes. *)
Theorem skipelem_splits (p : list Z) (name : memory) :
  Forall (fun c => 0 < c < 256) p -> walk (S (length p)) p name = Some (take (Z.to_nat DIRSIZ) <$> split_path [] p).
Proof.
  intros HF. assert (HW : forall fuel q nm, Forall (fun c => 0 < c < 256) q -> (length q < fuel)%nat ->
    walk fuel q nm = Some (take (Z.to_nat DIRSIZ) <$> split_path [] q)); [|apply HW; [done|lia]].
  induction fuel as [|fuel IH]; intros q nm Hq Hl; [lia|]. cbn [walk]. pose proof (skipelem_spec q nm Hq) as HSp.
  destruct (skipelem q nm) as [[rest nm']|]; [|by rewrite HSp].
  destruct HSp as (e & -> & -> & Hr & HFr). rewrite IH by (done || lia). done.
Qed.

(** The path [///usr//bin/.]. *)
Lemma skipelem_splits_witness :
  walk 14 [47; 47; 47; 117; 115; 114; 47; 47; 98; 105; 110; 47; 46] (fun _ => 0) = Some [[117; 115; 114]; [98; 105; 110]; [46]].
Proof. apply (skipelem_splits [47; 47; 47; 117; 115; 114; 47; 47; 98; 105; 110; 47; 46]). repeat (apply Forall_cons; split; [lia|]). by apply Forall_nil. Defined.

(** ** The inode cache *)

Definition is_entry (dev inum : Z) (x : inode) : Prop := 0 < i_ref x /\ i_dev x = dev /\ i_inum x = inum.

(** At most one entry in use for each inode. *)
Definition one_entry (l : list inode) : Prop :=
  forall i j x y, l !! i = Some x -> l !! j = Some y -> 0 < i_ref x -> is_entry (i_dev x) (i_inum x) y -> i = j.

Definition absent (dev inum : Z) (l : list inode) : Prop := forall j x, l !! j = Some x -> ~ is_entry dev inum x.

Lemma find_inode_spec (dev inum : Z) (l : list inode) : forall (i : nat) (empty : option nat),
  match find_inode dev inum i empty l with
  | (true, Some k) => exists x, (i <= k)%nat /\ l !! (k - i)%nat = Some x /\ is_entry dev inum x
  | (true, None) => False
  | (false, Some k) => absent dev inum l /\ (empty = Some k \/ exists x, (i <= k)%nat /\ l !! (k - i)%nat = Some x /\ i_ref x = 0)
  | (false, None) => absent dev inum l /\ empty = None /\ Forall (fun x => i_ref x <> 0) l
  end.
Proof.
  induction l as [|x l IH]; intros i empty; cbn [find_inode].
  { destruct empty; (split; [by intros j y|]); auto. }
  destruct ((0 <? i_ref x) && (i_dev x =? dev) && (i_inum x =? inum)) eqn:E.
  { exists x. rewrite Nat.sub_diag. unfold is_entry. zbool. split_and!; done || lia. }
  assert (HX : ~ is_entry dev inum x) by (unfold is_entry; lia).
  assert (HA : absent dev inum l -> absent dev inum (x :: l)) by (intros H [|j] y Hy; [by injection Hy as <-|by apply (H j)]).
  assert (HS : forall k, (S i <= k)%nat -> (x :: l) !! (k - i)%nat = l !! (k - S i)%nat).
  { intros k Hk. by replace (k - i)%nat with (S (k - S i)) by lia. }
  match goal with |- context [find_inode dev inum (S i) ?e l] => specialize (IH (S i) e); destruct (find_inode dev inum (S i) e l) as [[] [k|]] end.
  - destruct IH as (y & Hk & Hy & Hi). exists y. rewrite HS by done. split_and!; [lia|done..].
  - done.
  - destruct IH as [H1 [H2|(y & Hk & Hy & Hi)]]; (split; [by apply HA|]).
    + destruct empty as [e|]; [by left|]. destruct (Z.eqb_spec (i_ref x) 0); [|done]. injection H2 as <-. right. exists x. by rewrite Nat.sub_diag.
    + right. exists y. rewrite HS by done. split_and!; [lia|done..].
  - destruct IH as (H1 & H2 & H3). destruct empty; [done|]. destruct (Z.eqb_spec (i_ref x) 0); [done|].
    split_and!; [by apply HA|done|]. by apply Forall_cons.
Qed.

(** Counts that cannot overflow. *)
Definition refs_ok (l : list inode) : Prop := Forall (fun x => 0 <= i_ref x < 2147483647) l.

(** The entry [ip] is that of the inode, with one more reference; it is an old
    entry, or a free one where there was none. *)
Definition gotten (dev inum : Z) (l l' : list inode) (ip : nat) : Prop :=
  exists x, l !! ip = Some x /\
    (is_entry dev inum x /\ l' = <[ip := set_ref (i_ref x + 1) x]> l \/
     absent dev inum l /\ i_ref x = 0 /\ l' = <[ip := set_valid 0 (set_ref 1 (set_ident dev inum x))]> l).

Lemma iget_spec (s : fsst) (dev inum : Z) :
  ic_lock s = false -> refs_ok (icache s) -> ~ (absent dev inum (icache s) /\ Forall (fun x => i_ref x <> 0) (icache s)) ->
  wp (iget dev inum) (fun ip s' => s' = set_icache (icache s') s /\ gotten dev inum (icache s) (icache s') ip) s.
Proof.
  intros HL HR HF. unfold iget, wp, bind, acquire_icache, gets. rewrite HL. cbn [icache set_ic_lock].
  pose proof (find_inode_spec dev inum (icache s) 0 None) as HS.
  destruct (find_inode dev inum 0 None (icache s)) as [[] [k|]]; [| |
    destruct HS as [HA [|(x & _ & Hx & H0)]]; [done|]|destruct HS as (H1 & _ & H2); by destruct HF].
  - destruct HS as (x & _ & Hx & Hi). rewrite Nat.sub_0_r in Hx. unfold refs_ok in HR. rewrite Forall_lookup in HR. pose proof (HR k x Hx) as Hr.
    destruct s. cbn in *. subst. split; [done|]. exists x. split; [done|left]. split; [done|].
    rewrite (alter_item _ k x) by done. by rewrite i32_id by lia.
  - done.
  - rewrite Nat.sub_0_r in Hx. destruct s. cbn in *. subst. split; [done|]. exists x. split; [done|right]. split_and!; try done.
    by rewrite (alter_item _ k x).
Qed.

Lemma gotten_one (dev inum : Z) (l l' : list inode) (ip : nat) : one_entry l -> gotten dev inum l l' ip -> one_entry l'.
Proof.
  intros HO (x & Hx & HG).
  assert (HN : exists y, l' = <[ip := y]> l /\ is_entry dev inum y /\ (forall j z, l !! j = Some z -> is_entry dev inum z -> j = ip)).
  { destruct HG as [[Hi ->]|(HA & H0 & ->)]; eexists; (split; [done|]).
    - split; [unfold is_entry in *; cbn; lia|]. intros j z Hz Hj. symmetry. eapply (HO ip j x z); try done; [apply Hi|].
      unfold is_entry in *. intuition congruence.
    - split; [unfold is_entry; cbn; lia|]. intros j z Hz Hj. by destruct (HA j z Hz). }
  destruct HN as (y & -> & Hy & HU). intros i j a b Ha Hb Hra Hb'.
  apply list_lookup_insert_Some in Ha as [(-> & -> & _)|(Hi & Ha)]; apply list_lookup_insert_Some in Hb as [(-> & -> & _)|(Hj & Hb)].
  - done.
  - symmetry. apply (HU j b Hb). unfold is_entry in *. intuition congruence.
  - apply (HU i a Ha). unfold is_entry in *. intuition congruence.
  - by eapply (HO i j a b).
Qed.

(** [iget] keeps the inode cache a function of the inode: if no two entries
    in use are the same inode, then so it is afterwards.  The entry it returns
    is the one the inode had, with one more reference, or a free one that
    becomes it, not yet read from the disk. *)
Theorem iget_one_entry (s : fsst) (dev inum : Z) :
  ic_lock s = false -> refs_ok (icache s) -> one_entry (icache s) ->
  ~ (absent dev inum (icache s) /\ Forall (fun x => i_ref x <> 0) (icache s)) ->
  wp (iget dev inum) (fun ip s' => one_entry (icache s') /\ gotten dev inum (icache s) (icache s') ip /\
    s' = set_icache (icache s') s) s.
Proof.
  intros HL HR HO HF. eapply wp_mono; [by apply iget_spec|]. intros ip s' [E HG]. split_and!; [by eapply gotten_one|done|done].
Qed.


(** * Directories

    [dirlookup] returns the first entry in use that has the name. *)

Section Dir.
Context `{D : Disk} `{V : DevSw}.
Implicit Types (sb : superblock) (s : fsst) (name : Z -> Z).

(** The entries of the directory, as bytes. *)
Definition entries s (x : inode) : list (list Z) := (fun k => file_bytes s x (16 * k) 16) <$> seqZ 0 (i_size x / 16).

(** An entry in use with the name. *)
Definition named name (e : list Z) : Prop := de_inum e <> 0 /\ namecmp name (de_name e) = 0.

#[export] Instance named_dec name e : Decision (named name e).
Proof. unfold named. solve_decision. Defined.

(** A directory whose entries can be read, with room in the inode cache for
    whichever inode is found. *)
Record dir_ok s (dp : nat) (x : inode) sb : Prop := mkdir_ok {
  di_file : file_ok s dp x sb;
  di_filled : filled (flog s) (i_d x);
  di_type : i_type x = T_DIR;
  di_size : i_size x mod 16 = 0;
  di_budget : budget (flog s) 0;
  di_lock : ic_lock s = false;
  di_refs : refs_ok (icache s);
  di_room : exists j y, icache s !! j = Some y /\ i_ref y = 0;
}.

(** What [dirlookup] finds from the entry [k] on. *)
Definition found s s' name (x : inode) (k : nat) (r : option (nat * Z)) : Prop :=
  reads s (set_icache (icache s) s') 0 /\
  match list_find (named name) (drop k (entries s x)) with
  | None => r = None /\ icache s' = icache s
  | Some (i, e) => exists ip, r = Some (ip, 16 * Z.of_nat (k + i)) /\ gotten 1 (de_inum e) (icache s) (icache s') ip
  end.

Lemma dir_reads s s' dp x sb : dir_ok s dp x sb -> reads s s' 0 -> dir_ok s' dp x sb /\ icache s' = icache s /\ entries s' x = entries s x.
Proof.
  intros [F1 F2 F3 F4 F5 F6 F7 F8] R. pose proof (file_reads _ _ _ _ _ _ F1 R) as F1'. pose proof R as [[E L] HV].
  assert (HI : icache s' = icache s) by (by rewrite E). destruct F2 as [Hs HB]. split_and!; [|done|].
  - split; try done; try (by rewrite HI); [|by apply (budget_step _ _ 0 0 L)|by rewrite E]. split; [done|].
    intros o Ho. rewrite (blockof_same (flog s)); [by apply HB| |intros _; apply HV]. change (MAXFILE * BSIZE) with 71680 in *. change MAXFILE with 140.
    unfold BSIZE. zlia.
  - unfold entries. apply list_fmap_ext. intros i k Hk. apply lookup_seqZ in Hk as [-> Hk]. unfold file_bytes.
    apply list_fmap_ext. intros j o Ho. apply lookup_seqZ in Ho. apply (reads_content s s' _ 0); [done|].
    change (MAXFILE * BSIZE) with 71680 in *. zlia.
Qed.

(** The entry [k], read. *)
Lemma read_dirent_spec s dp x sb (k : nat) (msg : string) e :
  dir_ok s dp x sb -> entries s x !! k = Some e ->
  wp (read_dirent dp (16 * Z.of_nat k) msg) (fun r s' => reads s s' 0 /\ r = e) s.
Proof.
  intros [F1 F2 F3 F4 F5 F6 F7 F8] He. unfold entries in He. rewrite list_lookup_fmap in He. pose proof F2 as [Hs _]. change (MAXFILE * BSIZE) with 71680 in *.
  assert (Hk : Z.of_nat k < i_size x / 16).
  { apply fmap_Some in He as (z & Hz & _). apply lookup_seqZ in Hz. lia. }
  rewrite lookup_seqZ_lt in He by lia. cbn in He. injection He as <-.
  unfold read_dirent. wp_step. eapply wp_mono; [apply (readi_spec s dp x sb (16 * Z.of_nat k) 16); try done; try zlia|].
  { by rewrite F3. }
  intros r s' [R ->]. rewrite (proj2 (Z.ltb_ge _ _)), (proj2 (Z.leb_gt _ _)) by zlia. cbn [orb]. cbv zeta.
  replace (Z.min 16 (i_size x - 16 * Z.of_nat k)) with 16 by zlia. cbn [fst snd]. apply wp_ret. by split.
Qed.

Lemma find_drop {A} (P : A -> Prop) `{!forall x, Decision (P x)} (l : list A) (k : nat) (e : A) :
  l !! k = Some e -> list_find P (drop k l) = if decide (P e) then Some (0%nat, e) else prod_map S id <$> list_find P (drop (S k) l).
Proof. intros He. by rewrite (drop_S l e k He). Qed.

Lemma dirlookup_loop_spec (fuel : nat) : forall s dp x sb name (k : nat),
  dir_ok s dp x sb -> (k <= length (entries s x))%nat -> (length (entries s x) - k < fuel)%nat ->
  wp (dirlookup_loop fuel dp name (16 * Z.of_nat k)) (fun r s' => found s s' name x k r) s.
Proof.
  induction fuel as [|fuel IH]; intros s dp x sb name k HD Hk Hfu; [lia|]. cbn [dirlookup_loop].
  pose proof HD as [F1 F2 F3 F4 F5 F6 F7 F8]. pose proof F2 as [Hs _].
  assert (HN : length (entries s x) = Z.to_nat (i_size x / 16)) by (unfold entries; by rewrite length_fmap, length_seqZ).
  eapply wp_geti; [apply F1|]. destruct (Z.ltb_spec (16 * Z.of_nat k) (i_size x)) as [Hlt|Hge].
  2: { apply wp_ret. unfold found. rewrite drop_ge by zlia. cbn. split; [|done].
    replace (set_icache (icache s) s) with s by (by destruct s). apply reads_refl, (fo_blk _ _ _ _ F1). }
  destruct (lookup_lt_is_Some_2 (entries s x) k) as [e He]; [zlia|]. pose proof (lookup_lt_Some _ _ _ He) as Hkl.
  wp_step. eapply wp_mono; [by apply (read_dirent_spec s dp x sb k)|]. intros r s1 [R ->].
  destruct (dir_reads s s1 dp x sb HD R) as (HD1 & HI1 & HE1).
  assert (HX : forall s2 b, found s1 s2 name x (S k) b -> ~ named name e -> found s s2 name x k b).
  { intros s2 b [Q1 Q2] Hn. unfold found. rewrite (find_drop _ _ k e He), decide_False by done. rewrite HE1, HI1 in *. split; [by eapply reads_trans|].
    destruct (list_find (named name) (drop (S k) (entries s x))) as [[i e']|]; cbn; [|done]. destruct Q2 as (ip & -> & Hg). exists ip. split; [|done]. do 2 f_equal. lia. }
  assert (HG : ~ named name e -> wp (dirlookup_loop fuel dp name (16 * Z.of_nat k + 16)) (fun r s' => found s s' name x k r) s1).
  { intros Hn. replace (16 * Z.of_nat k + 16) with (16 * Z.of_nat (S k)) by lia. eapply wp_mono; [apply (IH s1 dp x sb name (S k) HD1)|].
    - rewrite HE1. lia.
    - rewrite HE1. lia.
    - intros b s2 Hb. by apply HX. }
  destruct (Z.eqb_spec (de_inum e) 0) as [H0|H0]; [apply HG; by intros [? _]|].
  destruct (Z.eqb_spec (namecmp name (de_name e)) 0) as [H1|H1]; [|apply HG; by intros [_ ?]].
  wp_step. rewrite (fo_dev _ _ _ _ F1). eapply wp_mono; [apply (iget_spec s1 1 (de_inum e)); [apply HD1|apply HD1|]|].
  { intros [_ HA]. destruct (di_room _ _ _ _ HD1) as (j & y & Hy & Hy0). rewrite Forall_lookup in HA. by apply (HA j y Hy). }
  intros ip s2 [E2 HGt]. apply wp_ret. unfold found. rewrite (find_drop _ _ k e He), decide_True by done. split.
  - rewrite E2. replace (set_icache (icache s) (set_icache (icache s2) s1)) with s1; [done|]. rewrite <- HI1. by destruct s1.
  - exists ip. rewrite <- HI1. split; [|done]. do 2 f_equal. lia.
Qed.

Lemma dirlookup_spec s dp x sb name :
  dir_ok s dp x sb ->
  wp (dirlookup dp name) (fun r s' => reads s (set_icache (icache s) s') 0 /\
    match list_find (named name) (entries s x) with
    | None => r = None /\ icache s' = icache s
    | Some (i, e) => exists ip, r = Some (ip, 16 * Z.of_nat i) /\ gotten 1 (de_inum e) (icache s) (icache s') ip
    end) s.
Proof.
  intros HD. pose proof HD as [F1 [Hs _] F3 F4 F5 F6 F7 F8]. unfold dirlookup. eapply wp_geti; [apply F1|]. rewrite F3. cbn [Z.eqb negb T_DIR].
  eapply wp_mono; [apply (dirlookup_loop_spec _ s dp x sb name 0 HD); [lia|]|intros r s' H; exact H].
  unfold entries. rewrite length_fmap, length_seqZ. zlia.
Qed.

(** [dirlookup] on a directory: it returns the first entry whose inode
    number is not zero and whose name matches, with the offset of that entry and
    one more reference to the inode's only entry in the cache; if there is no
    such entry it returns nothing and takes no reference.  The disk and the
    other entries of the cache stay, and it always returns. *)
Theorem dirlookup_first s dp x sb name :
  dir_ok s dp x sb ->
  wp (dirlookup dp name) (fun r s' => reads s (set_icache (icache s) s') 0 /\
    match list_find (named name) (entries s x) with
    | None => r = None /\ icache s' = icache s
    | Some (i, e) => exists ip, r = Some (ip, 16 * Z.of_nat i) /\ gotten 1 (de_inum e) (icache s) (icache s') ip
    end) s.
Proof. apply dirlookup_spec. Qed.

End Dir.

Module DirSample.
Import FsSample.

(** A directory of two entries in block 35. *)
Definition dir : dinode := mkdinode T_DIR 0 0 1 32 (35 :: replicate 12 0).
Definition dir_inode : inode := mkinode 1 2 1 (mksleeplock 1 "inode" 1) 1 dir.
Definition unused_inode : inode := mkinode 0 0 0 (initsleeplock "inode") 0 (mkdinode 0 0 0 0 0 []).
Definition dfs : fsst := mkfs log sb100 [dir_inode; unused_inode] false 0.

Lemma dir_ino : ino_ok log sb100 dir.
Proof.
  assert (HB : forall bn, 0 <= bn < MAXFILE -> blockof log dir bn <> 0 -> bn = 0).
  { intros bn Hb Hn. assert (H : ((blockof log dir bn =? 0) || (bn =? 0)) = true).
    { apply (all_range (fun bn => (blockof log dir bn =? 0) || (bn =? 0)) 0 140); [vm_compute; reflexivity|]. by change MAXFILE with 140 in Hb. }
    apply orb_true_iff in H as [H|H]; by apply Z.eqb_eq in H. }
  split; [done| |done| |].
  - intros bn Hb Hn. rewrite (HB bn Hb Hn). split; [vm_compute; split; congruence|reflexivity].
  - intros b1 b2 H1 H2 Hn E. rewrite (HB b1 H1 Hn). symmetry. apply HB; [done|congruence].
  - intros bn Hb Hn. exact Hn.
Qed.

Lemma dfs_ok : dir_ok dfs 0 dir_inode sb100.
Proof.
  split; [|split; [vm_compute; split; congruence|]|done|done|vm_compute; split; [done|lia]|done| |by exists 1%nat, unused_inode].
  - split; [done..|apply log_ok|apply dir_ino|apply log_idle].
  - intros o Ho. cbn in Ho. unfold BSIZE. replace (o / 512) with 0 by zlia. done.
  - repeat (apply Forall_cons; split; [cbn; lia|]). by apply Forall_nil.
Qed.

(** The name [a]. *)
Definition name_a (i : Z) : Z := if i =? 0 then 97 else 0.

Lemma dirlookup_first_witness :
  wp (dirlookup 0 name_a) (fun r s' => reads dfs (set_icache (icache dfs) s') 0 /\
    exists ip, r = Some (ip, 16) /\ gotten 1 3 (icache dfs) (icache s') ip) dfs.
Proof. apply (dirlookup_first dfs 0 dir_inode sb100 name_a). apply dfs_ok. Defined.

Lemma iget_one_entry_witness :
  wp (iget 1 3) (fun ip s' => one_entry (icache s') /\ gotten 1 3 (icache dfs) (icache s') ip /\ s' = set_icache (icache s') dfs) dfs.
Proof.
  apply (iget_one_entry dfs 1 3); [done|apply dfs_ok| |].
  - intros [|[|i]] [|[|j]] x y Hx Hy Hr [He _]; cbn in Hx, Hy; try done; injection Hx as <-; injection Hy as <-; done.
  - intros [_ HA]. rewrite Forall_lookup in HA. by apply (HA 1%nat unused_inode).
Defined.
End DirSample.


(** * [iinit] reads the superblock, [ilock] the inode from the disk *)

Section Load.
Context `{D : Disk}.

Implicit Types (s : fsst) (sb : superblock) (x : inode) (ip : nat).

Lemma wp_seti s ip x (f : inode -> inode) (Q : unit -> fsst -> Prop) :
  icache s !! ip = Some x -> Q tt (set_icache (<[ip := f x]> (icache s)) s) -> wp (seti ip f) Q s.
Proof. intros H HQ. unfold seti, wp, modify. by rewrite (alter_item _ ip x). Qed.

(** The entry of the inode cache locked and read. *)
Definition locked_by (me : Z) x : inode := set_ilock (mksleeplock 1 (sl_name (i_lock x)) me) x.
Definition loaded_by (me : Z) (d : dinode) x : inode := set_valid 1 (set_d d (locked_by me x)).

(** [s'] differs from [s] in the inode cache and in the buffers only. *)
Definition cached s s' (l : list inode) : Prop := icache s' = l /\ reads s (set_icache (icache s) s') 0.

Lemma cached_intro s (c : lgst) l : reads s (set_flog c s) 0 -> cached s (set_icache l (set_flog c s)) l.
Proof. intros R. split; [done|]. by destruct s. Qed.

Lemma wp_lock_inode s ip x {A} (k : MF A) Q :
  icache s !! ip = Some x -> sl_locked (i_lock x) = 0 ->
  wp k Q (set_icache (<[ip := locked_by (me (lbc (flog s))) x]> (icache s)) s) -> wp (lock_inode ip ;;; k) Q s.
Proof.
  intros H Hl HK. wp_step. unfold lock_inode. eapply wp_geti; [done|].
  unfold acquiresleep. unfold wp, bind, onbuf, onlog, onbc, zoom, gets. rewrite Hl. cbn. rewrite (alter_item _ ip x) by done. by destruct s as [[]].
Qed.

(** [ilock] locks the inode and, as it is not valid, reads it from the disk. *)
Lemma ilock_spec s ip x sb :
  blk_ok (flog s) sb -> fsb s = sb -> budget (flog s) 0 -> icache s !! ip = Some x -> 0 < i_ref x -> sl_locked (i_lock x) = 0 ->
  i_valid x = 0 -> i_dev x = 1 -> 0 <= i_inum x < sb_ninodes sb -> let d := dinode_at (flog s) sb (i_inum x) in d_type d <> 0 ->
  wp (ilock ip) (fun _ s' => cached s s' (<[ip := loaded_by (me (lbc (flog s))) d x]> (icache s))) s.
Proof.
  intros O EB [B1 B2] H Hr Hl Hv Hd Hi d Ht. unfold ilock. eapply wp_geti; [done|]. replace (i_ref x <? 1) with false by lia.
  eapply wp_lock_inode; [done|done|]. pose proof (lookup_lt_Some _ _ _ H) as Hlt.
  set (x1 := locked_by _ x). set (s1 := set_icache (<[ip := x1]> (icache s)) s).
  assert (H1 : icache s1 !! ip = Some x1) by (by apply list_lookup_insert_eq).
  eapply wp_geti; [done|]. change (i_valid x1) with (i_valid x). rewrite Hv. cbn [Z.eqb when]. wp_step. apply wp_gets.
  change (fsb s1) with (fsb s). rewrite EB. change (i_dev x1) with (i_dev x). change (i_inum x1) with (i_inum x). rewrite Hd.
  destruct (iblock_eq _ _ _ O Hi) as [Eb Hb]. pose proof (blk_ok_geo_pos _ _ O) as HG. pose proof (ge_data _ _ (bk_geo _ _ O)) as HD. pose proof (ge_size _ _ (bk_geo _ _ O)) as HZ.
  apply wp_bread; [apply O|apply (meta_low _ sb); [done|]|..]; [change (flog s1) with (flog s); lia..|]. change (flog s1) with (flog s). intros i b c HSi HDt HV.
  apply (wp_bdata i (IBLOCK (i_inum x) sb) b); [apply HSi|]. cbv zeta.
  assert (Ed : dec_dinode (b_data b) (i_inum x mod IPB * 64) = d).
  { apply dec_dinode_same. intros o Ho. apply HDt. change IPB with 8 in Ho. unfold BSIZE. zlia. }
  rewrite Ed. wp_step. apply (wp_setd s1 _ ip x1); [done|done|]. apply (wp_brelse (flog s) 0 i (IBLOCK (i_inum x) sb) b); [done|].
  intros c' HL' HV'. wp_step. eapply wp_seti.
  { cbn. apply list_lookup_insert_eq. by rewrite length_insert. }
  rewrite (proj2 (Z.eqb_neq _ _) Ht). apply wp_ret. split; [by cbn; rewrite !list_insert_insert_eq|].
  split; [split; [by destruct s|done]|]. intros k. cbn in *. by rewrite (HV' k), (HV k).
Qed.
End Load.
