(* ===== verification/Mkfs.v ===== *)
(** * Mkfs: the program that makes a file system ([mkfs.c])

    [mkfs] writes the image that the kernel later uses as its disk.  The state
    is the image, as an array of sectors with the number of sectors it has so
    far, and the variables of the program.  The input is what the host gives
    for the files named on the command line. *)
From stdpp Require Import base gmap list numbers strings.
From Stdlib Require Import ZArith Lia ZifyBool.
From S2P Require Import Prelude Machine Cstring LockThms Bio Log Fs.

Definition NINODES : Z := 200.
Definition nbitmap : Z := FSSIZE / (BSIZE * 8) + 1.
Definition ninodeblocks : Z := NINODES / IPB + 1.
Definition nlog : Z := LOGSIZE.
Definition nmeta : Z := 2 + nlog + ninodeblocks + nbitmap.
Definition nblocks : Z := FSSIZE - nmeta.

(** [img] is the file [fsfd], [nsect] its length in sectors. *)
Record mkst := mkmk {
  img : Z -> memory;
  nsect : Z;
  msb : superblock;
  freeinode : Z;
  freeblock : Z;
}.

Definition set_img (x : Z -> memory) (n : Z) (s : mkst) : mkst := mkmk x n (msb s) (freeinode s) (freeblock s).
Definition set_msb (x : superblock) (s : mkst) : mkst := mkmk (img s) (nsect s) x (freeinode s) (freeblock s).
Definition set_freeinode (x : Z) (s : mkst) : mkst := mkmk (img s) (nsect s) (msb s) x (freeblock s).
Definition set_freeblock (x : Z) (s : mkst) : mkst := mkmk (img s) (nsect s) (msb s) (freeinode s) x.

Notation MK := (M mkst).

(** Intel byte order, on a host that has it too. *)
Definition xshort (x : Z) : Z := load16 (store8 (store8 (fun _ => 0) 0 x) 1 (Z.shiftr x 8)) 0.
Definition xint (x : Z) : Z :=
  load32 (store8 (store8 (store8 (store8 (fun _ => 0) 0 x) 1 (Z.shiftr x 8)) 2 (Z.shiftr x 16)) 3 (Z.shiftr x 24)) 0.

(** ** Sectors *)

(** A write beyond the end makes the file longer, a read there fails. *)
Definition wsect (sec : Z) (buf : memory) : MK unit :=
  let sec := u32 (sec * BSIZE) / BSIZE in
  modify (fun s => set_img (fun b => if b =? sec then bcopy (img s b) buf BSIZE else img s b) (Z.max (nsect s) (sec + 1)) s).

Definition rsect (sec : Z) : MK memory :=
  let sec := u32 (sec * BSIZE) / BSIZE in
  let! s := gets (fun s => s) in
  if nsect s <=? sec then panic "read" else ret (bcopy (fun _ => 0) (img s sec) BSIZE).

Definition winode (inum : Z) (ip : dinode) : MK unit :=
  let! sb := gets msb in
  let bn := IBLOCK inum sb in
  let! buf := rsect bn in
  wsect bn (enc_dinode buf (inum mod IPB * 64) ip).

Definition rinode (inum : Z) : MK dinode :=
  let! sb := gets msb in
  let! buf := rsect (IBLOCK inum sb) in
  ret (dec_dinode buf (inum mod IPB * 64)).

Definition mk_ialloc (type : Z) : MK Z :=
  let! inum := gets freeinode in
  modify (set_freeinode (u32 (inum + 1))) ;;;
  winode inum (mkdinode (i16 (xshort type)) 0 0 (i16 (xshort 1)) (xint 0) (replicate 13 0)) ;;;
  ret inum.

(** The loop of [balloc]: the bits from [i], [n] of them. *)
Fixpoint mark_used (m : memory) (i : Z) (n : nat) : memory :=
  match n with O => m | S n => mark_used (set_bit m i) (i + 1) n end.

Definition mk_balloc (used : Z) : MK unit :=
  if BSIZE * 8 <=? used then panic "assert"
  else
    let! sb := gets msb in
    wsect (sb_bmapstart sb) (mark_used (fun _ => 0) 0 (Z.to_nat used)).

(** ** Contents *)

(** [freeblock++] *)
Definition next_block : MK Z :=
  let! b := gets freeblock in
  modify (set_freeblock (u32 (b + 1))) ;;;
  ret b.

(** The entry [i] of the indirect block [ind], which may get a block only now. *)
Definition find_entry (ind i : Z) : MK Z :=
  let! m := rsect ind in
  let! m :=
    (if load32 m (4 * i) =? 0 then
       let! b := next_block in
       let m := store32 m (4 * i) (xint b) in
       wsect ind m ;;;
       ret m
     else ret m) in
  ret (xint (load32 m (4 * i))).

(** The block of the file that holds block [fbn], and the inode, which may have
    got it only now. *)
Definition find_block (din : dinode) (fbn : Z) : MK (dinode * Z) :=
  if fbn <? NDIRECT then
    let! din :=
      (if xint (nth (Z.to_nat fbn) (d_addrs din) 0) =? 0 then
         let! b := next_block in
         ret (set_addrs (<[Z.to_nat fbn := xint b]> (d_addrs din)) din)
       else ret din) in
    ret (din, xint (nth (Z.to_nat fbn) (d_addrs din) 0))
  else
    let! din :=
      (if xint (nth (Z.to_nat NDIRECT) (d_addrs din) 0) =? 0 then
         let! b := next_block in
         ret (set_addrs (<[Z.to_nat NDIRECT := xint b]> (d_addrs din)) din)
       else ret din) in
    let! x := find_entry (xint (nth (Z.to_nat NDIRECT) (d_addrs din) 0)) (fbn - NDIRECT) in
    ret (din, x).

(** The loop of [iappend]: the inode and the offset reached. *)
Fixpoint iappend_loop (fuel : nat) (din : dinode) (p : Z -> Z) (off n : Z) : MK (dinode * Z) :=
  match fuel with
  | O => fun _ => NoFuel
  | S fuel =>
      if 0 <? n then
        let fbn := off / BSIZE in
        if MAXFILE <=? fbn then panic "assert"
        else
          let! r := find_block din fbn in
          let '(din, x) := r in
          let n1 := Z.min n ((fbn + 1) * BSIZE - off) in
          let! buf := rsect x in
          wsect x (put_bytes buf (off - fbn * BSIZE) p n1) ;;;
          iappend_loop fuel din (fun i => p (i + n1)) (off + n1) (n - n1)
      else ret (din, off)
  end.

Definition iappend (inum : Z) (p : Z -> Z) (n : Z) : MK unit :=
  let! din := rinode inum in
  let! r := iappend_loop (S (Z.to_nat n)) din p (xint (d_size din)) n in
  let '(din, off) := r in
  winode inum (set_size (xint off) din).

(** ** The program *)

(** A file of the host: its name, and what the calls of [read] deliver, each
    at most [BSIZE] bytes; [None] when it cannot be opened. *)
Record hostfile := mkhost { h_name : list Z; h_reads : option (list (list Z)) }.

(** The bytes of a C string or an array. *)
Definition chars (l : list Z) : Z -> Z := fun i => nth (Z.to_nat i) l 0.

(** [struct dirent] cleared, with [inum] and a name put in by [strncpy]. *)
Definition mk_dirent (inum : Z) (name : list Z) : Z -> Z := enc_dirent (xshort inum) (chars name).

Fixpoint append_all (inum : Z) (l : list (list Z)) : MK unit :=
  match l with
  | [] => ret tt
  | b :: l => iappend inum (chars b) (Z.of_nat (length b)) ;;; append_all inum l
  end.

(** One turn of the loop over the arguments. *)
Definition add_file (rootino : Z) (f : hostfile) : MK unit :=
  if existsb (fun c => c =? 47) (h_name f) then panic "assert"
  else
    match h_reads f with
    | None => panic "open"
    | Some reads =>
        let name := match h_name f with 95 :: l => l | l => l end in
        let! inum := mk_ialloc T_FILE in
        iappend rootino (mk_dirent inum name) 16 ;;;
        append_all inum reads
    end.

Fixpoint add_files (rootino : Z) (l : list hostfile) : MK unit :=
  match l with
  | [] => ret tt
  | f :: l => add_file rootino f ;;; add_files rootino l
  end.

Fixpoint clear_sectors (i : Z) (n : nat) : MK unit :=
  match n with
  | O => ret tt
  | S n => wsect i (fun _ => 0) ;;; clear_sectors (i + 1) n
  end.

Definition enc_sb (sb : superblock) : memory :=
  store_words (fun _ => 0) 0 [sb_size sb; sb_nblocks sb; sb_ninodes sb; sb_nlog sb; sb_logstart sb; sb_inodestart sb; sb_bmapstart sb].

Definition mkfs_main (files : list hostfile) : MK unit :=
  let sb := mksb (xint FSSIZE) (xint nblocks) (xint NINODES) (xint nlog) (xint 2) (xint (2 + nlog)) (xint (2 + nlog + ninodeblocks)) in
  modify (set_msb sb) ;;;
  modify (set_freeblock nmeta) ;;;
  clear_sectors 0 (Z.to_nat FSSIZE) ;;;
  wsect 1 (enc_sb sb) ;;;
  let! rootino := mk_ialloc T_DIR in
  if negb (rootino =? ROOTINO) then panic "assert"
  else
    iappend rootino (mk_dirent rootino [46]) 16 ;;;
    iappend rootino (mk_dirent rootino [46; 46]) 16 ;;;
    add_files rootino files ;;;
    let! din := rinode rootino in
    let off := xint (d_size din) in
    let off := (off / BSIZE + 1) * BSIZE in
    winode rootino (set_size (xint off) din) ;;;
    let! b := gets freeblock in
    mk_balloc b.

(** The state in which the program starts: an empty image. *)
Definition mk_start : mkst := mkmk (fun _ _ => 0) 0 (mksb 0 0 0 0 0 0 0) 1 0.
