(* ===== verification/MkfsAppend.v ===== *)
(** * MkfsAppend: the blocks of a file that [mkfs] is writing

    What an inode of the image stands for while [iappend] extends it, in terms
    of the view that the kernel's file system has of the image. *)
From stdpp Require Import base gmap list numbers strings.
From Stdlib Require Import ZArith Lia ZifyBool.
From S2P Require Import Prelude Machine Cstring LockThms Bio BioSpec Log LogSpec LogLoops Fs FsBlk FsAlloc FsInode FsFile FsWrite Mkfs.

(** The image as the disk of a kernel that has just started, inside the first
    transaction. *)
#[export] Instance image_disk : Disk := {| disksize := FSSIZE |}.
Definition mount (I : Z -> memory) : lgst :=
  mklg (mkbc I [] (replicate 30 buf0) (seq 0 30) false 1) 2 30 1 0 1 [] false.

Implicit Types (I : Z -> memory) (d : dinode).

Lemma mount_view I n : view (lbc (mount I)) n = I n.
Proof. reflexivity. Qed.

(** A sector replaced. *)
Definition put I (n : Z) (m : memory) : Z -> memory := fun b => if b =? n then bcopy (I b) m BSIZE else I b.

Lemma put_eq I n m : same_block (put I n m n) m.
Proof. unfold put. rewrite Z.eqb_refl. apply same_bcopy. Qed.
Lemma put_ne I n m b : b <> n -> put I n m b = I b.
Proof. intros H. unfold put. by rewrite (proj2 (Z.eqb_neq _ _) H). Qed.

(** ** What an inode holds *)

(** [nb] blocks are allocated, [ix] tells whether the indirect block is; they
    lie below [fb], and hold the bytes [bs] and then zeros. *)
Record holds I (fb : Z) d (nb : Z) (ix : bool) (bs : list Z) : Prop := mkholds {
  hd_len : length (d_addrs d) = 13%nat;
  hd_nb : 0 <= nb <= 140;
  hd_size : Z.of_nat (length bs) <= 512 * nb;
  hd_blk : forall bn, 0 <= bn < nb -> 59 <= blockof (mount I) d bn < fb;
  hd_none : forall bn, nb <= bn < 140 -> blockof (mount I) d bn = 0;
  hd_ind : if ix then 59 <= indirect d < fb else indirect d = 0 /\ nb <= 12;
  hd_inj : forall b1 b2, 0 <= b1 < nb -> 0 <= b2 < nb -> blockof (mount I) d b1 = blockof (mount I) d b2 -> b1 = b2;
  hd_apart : forall bn, 0 <= bn < nb -> blockof (mount I) d bn <> indirect d;
  hd_bytes : forall bn i, 0 <= bn < nb -> 0 <= i < 512 -> I (blockof (mount I) d bn) i = nth (Z.to_nat (512 * bn + i)) bs 0;
}.

Lemma blockof_low I d bn : bn < 12 -> blockof (mount I) d bn = nth (Z.to_nat bn) (d_addrs d) 0.
Proof. intros H. unfold blockof, NDIRECT. by replace (bn <? 12) with true by lia. Qed.
Lemma blockof_ind I d bn : 12 <= bn -> indirect d <> 0 -> blockof (mount I) d bn = load32 (I (indirect d)) (4 * (bn - 12)).
Proof. intros H H1. unfold blockof, NDIRECT. replace (bn <? 12) with false by lia. by rewrite (proj2 (Z.eqb_neq _ _) H1). Qed.
Lemma blockof_noind I d bn : 12 <= bn -> indirect d = 0 -> blockof (mount I) d bn = 0.
Proof. intros H H1. unfold blockof, NDIRECT. replace (bn <? 12) with false by lia. by rewrite H1. Qed.

(** The blocks of the file unchanged. *)
Lemma blockof_frame I I' d bn :
  0 <= bn < 140 -> (indirect d <> 0 -> same_block (I' (indirect d)) (I (indirect d))) -> blockof (mount I') d bn = blockof (mount I) d bn.
Proof.
  intros Hb H. destruct (Z.lt_ge_cases bn 12); [by rewrite !blockof_low|]. destruct (decide (indirect d = 0)) as [E|E]; [by rewrite !blockof_noind|].
  rewrite !blockof_ind by done. apply load32_same. intros x Hx. apply H; [done|]. unfold BSIZE. lia.
Qed.

Lemma holds_frame I I' fb fb' d nb ix bs :
  holds I fb d nb ix bs -> fb <= fb' -> (ix = true -> same_block (I' (indirect d)) (I (indirect d))) ->
  (forall bn, 0 <= bn < nb -> same_block (I' (blockof (mount I) d bn)) (I (blockof (mount I) d bn))) -> holds I' fb' d nb ix bs.
Proof.
  intros [H1 H2 H3 H4 H5 H6 H7 H8 H9] Hfb Hi Hb.
  assert (HB : forall bn, 0 <= bn < 140 -> blockof (mount I') d bn = blockof (mount I) d bn).
  { intros bn Hbn. apply blockof_frame; [done|]. intros Hne. apply Hi. destruct ix; [done|]. by destruct H6. }
  split; try done.
  - intros bn Hbn. rewrite HB by lia. specialize (H4 bn Hbn). lia.
  - intros bn Hbn. rewrite HB by lia. auto.
  - destruct ix; [lia|done].
  - intros b1 b2 Hb1 Hb2. rewrite !HB by lia. auto.
  - intros bn Hbn. rewrite HB by lia. auto.
  - intros bn i Hbn Hii. rewrite HB by lia. rewrite Hb by (done || unfold BSIZE; lia). auto.
Qed.

(** A new direct block. *)
Lemma blockof_new I fb d nb bn :
  length (d_addrs d) = 13%nat -> 0 <= nb < 12 -> 0 <= bn < 140 ->
  let d' := set_addrs (<[Z.to_nat nb := fb]> (d_addrs d)) d in indirect d' = indirect d /\
    blockof (mount I) d' bn = if bn =? nb then fb else blockof (mount I) d bn.
Proof.
  intros H1 Hnb Hb d'. assert (EI : indirect d' = indirect d).
  { unfold indirect. cbn. by rewrite !nth_lookup, list_lookup_insert_ne by (unfold NDIRECT; lia). }
  split; [done|]. destruct (Z.eqb_spec bn nb) as [->|Hne].
  - rewrite blockof_low by lia. cbn. rewrite nth_lookup, list_lookup_insert_eq by lia. done.
  - destruct (Z.lt_ge_cases bn 12); [rewrite !blockof_low by done; cbn; by rewrite !nth_lookup, list_lookup_insert_ne by lia|].
    unfold blockof, NDIRECT. replace (bn <? 12) with false by lia. by rewrite EI.
Qed.

Lemma holds_direct I fb d nb ix bs :
  holds I fb d nb ix bs -> nb < 12 -> 59 <= fb -> same_block (I fb) (fun _ => 0) ->
  holds I (fb + 1) (set_addrs (<[Z.to_nat nb := fb]> (d_addrs d)) d) (nb + 1) ix bs.
Proof.
  intros [H1 H2 H3 H4 H5 H6 H7 H8 H9] Hnb Hfb HZ. set (d' := set_addrs _ d).
  pose proof (fun bn => blockof_new I fb d nb bn H1 ltac:(lia)) as HX. destruct (HX 0 ltac:(lia)) as [EI _]. fold d' in EI.
  assert (HB : forall bn, 0 <= bn < 140 -> bn <> nb -> blockof (mount I) d' bn = blockof (mount I) d bn).
  { intros bn Hb Hne. destruct (HX bn Hb) as [_ E]. fold d' in E. rewrite E. by rewrite (proj2 (Z.eqb_neq _ _) Hne). }
  assert (HN : blockof (mount I) d' nb = fb). { destruct (HX nb ltac:(lia)) as [_ E]. fold d' in E. by rewrite E, Z.eqb_refl. }
  assert (HL : forall bn, 0 <= bn < nb -> blockof (mount I) d' bn = blockof (mount I) d bn /\ 59 <= blockof (mount I) d bn < fb) by (intros bn Hb; split; [apply HB; lia|auto]).
  split; [cbn; by rewrite length_insert|lia|lia| | | | | |].
  - intros bn Hb. destruct (decide (bn = nb)) as [->|Hne]; [lia|]. destruct (HL bn ltac:(lia)) as [-> ?]. lia.
  - intros bn Hb. rewrite HB by lia. apply H5. lia.
  - rewrite EI. destruct ix; lia.
  - intros b1 b2 Hb1 Hb2. destruct (decide (b1 = nb)) as [->|N1], (decide (b2 = nb)) as [->|N2]; [done|rewrite HN; destruct (HL b2 ltac:(lia)) as [-> ?]; lia
      |rewrite HN; destruct (HL b1 ltac:(lia)) as [-> ?]; lia|rewrite !HB by lia; apply H7; lia].
  - intros bn Hb. rewrite EI. destruct (decide (bn = nb)) as [->|Hne]; [rewrite HN; destruct ix; lia|]. rewrite HB by lia. apply H8. lia.
  - intros bn i Hb Hi. destruct (decide (bn = nb)) as [->|Hne]; [|rewrite HB by lia; apply H9; lia].
    rewrite HN, HZ by (unfold BSIZE; lia). rewrite nth_overflow by lia. done.
Qed.

(** The indirect block. *)
Lemma blockof_new_ind I fb d bn :
  length (d_addrs d) = 13%nat -> 0 < fb -> same_block (I fb) (fun _ => 0) -> indirect d = 0 -> 0 <= bn < 140 ->
  let d' := set_addrs (<[12%nat := fb]> (d_addrs d)) d in indirect d' = fb /\ blockof (mount I) d' bn = blockof (mount I) d bn.
Proof.
  intros H1 Hfb HZ H6 Hb d'. assert (EI : indirect d' = fb). { unfold indirect. cbn. rewrite nth_lookup, list_lookup_insert_eq by lia. done. }
  split; [done|]. destruct (Z.lt_ge_cases bn 12).
  - rewrite !blockof_low by done. cbn. by rewrite !nth_lookup, list_lookup_insert_ne by lia.
  - rewrite blockof_ind, (blockof_noind I d) by (done || lia). rewrite EI, (load32_same (fun _ => 0)); [done|]. intros x Hx. apply HZ. unfold BSIZE. lia.
Qed.

Lemma holds_indirect I fb d nb bs :
  holds I fb d nb false bs -> 59 <= fb -> same_block (I fb) (fun _ => 0) ->
  holds I (fb + 1) (set_addrs (<[12%nat := fb]> (d_addrs d)) d) nb true bs.
Proof.
  intros [H1 H2 H3 H4 H5 [H6 H6'] H7 H8 H9] Hfb HZ. set (d' := set_addrs _ d).
  assert (EI : indirect d' = fb) by (apply (blockof_new_ind I fb d 0); done || lia).
  assert (HB : forall bn, 0 <= bn < 140 -> blockof (mount I) d' bn = blockof (mount I) d bn) by (intros bn Hb; apply (blockof_new_ind I fb d bn); done || lia).
  split; [cbn; by rewrite length_insert|done|done| | |lia| | |].
  - intros bn Hb. rewrite HB by lia. specialize (H4 bn Hb). lia.
  - intros bn Hb. rewrite HB by lia. auto.
  - intros b1 b2 Hb1 Hb2. rewrite !HB by lia. auto.
  - intros bn Hb. rewrite HB, EI by lia. specialize (H4 bn Hb). lia.
  - intros bn i Hb Hi. rewrite HB by lia. auto.
Qed.

(** A new entry of the indirect block. *)
Lemma holds_entry I fb d nb bs m :
  holds I fb d nb true bs -> 12 <= nb < 140 -> 59 <= fb < 4294967296 -> same_block (I fb) (fun _ => 0) ->
  same_block m (store32 (I (indirect d)) (4 * (nb - 12)) fb) -> holds (put I (indirect d) m) (fb + 1) d (nb + 1) true bs.
Proof.
  intros [H1 H2 H3 H4 H5 H6 H7 H8 H9] Hnb Hfb HZ HM. set (I' := put I (indirect d) m).
  assert (HI : same_block (I' (indirect d)) (store32 (I (indirect d)) (4 * (nb - 12)) fb)) by (etransitivity; [apply put_eq|done]).
  assert (HL : forall bn, 12 <= bn < 140 -> blockof (mount I') d bn = load32 (store32 (I (indirect d)) (4 * (nb - 12)) fb) (4 * (bn - 12))).
  { intros bn Hb. rewrite blockof_ind by lia. apply load32_same. intros x Hx. apply HI. unfold BSIZE. lia. }
  assert (HB : forall bn, 0 <= bn < 140 -> bn <> nb -> blockof (mount I') d bn = blockof (mount I) d bn).
  { intros bn Hb Hne. destruct (Z.lt_ge_cases bn 12); [by rewrite !blockof_low|]. rewrite HL, load32_store32_ne by lia. by rewrite blockof_ind by lia. }
  assert (HN : blockof (mount I') d nb = fb) by (rewrite HL, load32_store32_eq by lia; done).
  assert (HO : forall n, n <> indirect d -> I' n = I n) by (intros n Hn; by apply put_ne).
  split; [done|lia|lia| | |lia| | |].
  - intros bn Hb. destruct (decide (bn = nb)) as [->|Hne]; [lia|]. rewrite HB by lia. specialize (H4 bn ltac:(lia)). lia.
  - intros bn Hb. rewrite HB by lia. apply H5. lia.
  - intros b1 b2 Hb1 Hb2. destruct (decide (b1 = nb)) as [->|N1], (decide (b2 = nb)) as [->|N2]; [done| | |rewrite !HB by lia; apply H7; lia];
      rewrite HN, HB by lia; [specialize (H4 b2 ltac:(lia))|specialize (H4 b1 ltac:(lia))]; lia.
  - intros bn Hb. destruct (decide (bn = nb)) as [->|Hne]; [rewrite HN; lia|]. rewrite HB by lia. apply H8. lia.
  - intros bn i Hb Hi. destruct (decide (bn = nb)) as [->|Hne].
    + rewrite HN, HO by lia. rewrite HZ by (unfold BSIZE; lia). by rewrite nth_overflow by lia.
    + rewrite HB, HO by (lia || (apply H8; lia)). apply H9; lia.
Qed.

(** Bytes appended in the last block. *)
Lemma holds_append I fb d nb ix bs (p : Z -> Z) (n : Z) m :
  holds I fb d nb ix bs -> let off := Z.of_nat (length bs) in off / 512 < nb -> 0 < n -> off mod 512 + n <= 512 ->
  let x := blockof (mount I) d (off / 512) in same_block m (put_bytes (I x) (off mod 512) p n) ->
  holds (put I x m) fb d nb ix (bs ++ (p <$> seqZ 0 n)).
Proof.
  intros H off Hb Hn Hlen x HM. pose proof H as [H1 H2 H3 H4 H5 H6 H7 H8 H9]. set (I' := put I x m).
  assert (Hoff : 0 <= off / 512) by (subst off; zlia). assert (Hx : 59 <= x < fb) by (apply H4; lia).
  assert (HB : forall bn, 0 <= bn < 140 -> blockof (mount I') d bn = blockof (mount I) d bn).
  { intros bn Hbn. apply blockof_frame; [done|]. intros Hne. unfold I'. rewrite put_ne; [done|]. intros E. by apply (H8 (off / 512)). }
  assert (HL : length (bs ++ (p <$> seqZ 0 n)) = (length bs + Z.to_nat n)%nat) by (by rewrite length_app, length_fmap, length_seqZ).
  split; [done|done|rewrite HL; subst off; zlia| | |done| | |].
  - intros bn Hbn. rewrite HB by lia. auto.
  - intros bn Hbn. rewrite HB by lia. auto.
  - intros b1 b2 Hb1 Hb2. rewrite !HB by lia. auto.
  - intros bn Hbn. rewrite HB by lia. auto.
  - intros bn i Hbn Hi. rewrite HB by lia. destruct (decide (bn = off / 512)) as [->|Hne].
    + fold x. unfold I'. rewrite put_eq, HM by (unfold BSIZE; lia). unfold put_bytes. destruct ((off mod 512 <=? i) && (i <? off mod 512 + n)) eqn:EC.
      * rewrite app_nth2 by (subst off; zlia). rewrite nth_lookup, list_lookup_fmap, (proj2 (lookup_seqZ _ _ _ (0 + Z.of_nat (Z.to_nat (512 * (off / 512) + i) - length bs)))) by (split; subst off; zlia).
        cbn. f_equal. subst off. zlia.
      * unfold x. rewrite H9 by lia. destruct (Z.lt_ge_cases (512 * (off / 512) + i) off) as [Hlt|Hge].
        -- by rewrite app_nth1 by (subst off; lia).
        -- rewrite !nth_overflow; [done|rewrite HL; subst off; zlia|subst off; lia].
    + unfold I'. rewrite put_ne by (intros E; apply Hne; eapply H7; [..|exact E]; lia). rewrite H9 by lia.
      destruct (Z.lt_ge_cases bn (off / 512)) as [Hlt|Hge]; [by rewrite app_nth1 by (subst off; zlia)|].
      rewrite !nth_overflow; [done|rewrite HL; subst off; zlia|subst off; zlia].
Qed.


(** * [iappend] extends a file *)

Implicit Types (s : mkst).

Lemma xint_id x : 0 <= x < 4294967296 -> xint x = x.
Proof.
  intros H. rewrite <- (load32_store32_eq (fun _ => 0) 0 x H) at 2. unfold xint, store32. by rewrite !Z.shiftr_div_pow2 by lia.
Qed.

Lemma xshort_id x : 0 <= x < 65536 -> xshort x = x.
Proof.
  intros H. unfold xshort, load16. rewrite Z.shiftr_div_pow2 by lia. change (2 ^ 8) with 256.
  rewrite store8_ne, !store8_eq by lia. unfold u8. zlia.
Qed.

(** ** Sectors *)

Lemma sector_id sec : 0 <= sec < 1000 -> u32 (sec * BSIZE) / BSIZE = sec.
Proof. intros H. unfold BSIZE. rewrite u32_id by lia. zlia. Qed.

Lemma wp_wsect sec buf (Q : unit -> mkst -> Prop) s :
  0 <= sec < nsect s -> nsect s <= 1000 -> Q tt (set_img (put (img s) sec buf) (nsect s) s) -> wp (wsect sec buf) Q s.
Proof.
  intros H1 H2 HQ. unfold wsect. rewrite sector_id by lia. apply wp_modify. rewrite Z.max_l by lia. exact HQ.
Qed.

Lemma wp_rsect sec (Q : memory -> mkst -> Prop) s :
  0 <= sec < nsect s -> nsect s <= 1000 -> (forall m, same_block m (img s sec) -> mem_wf (img s sec) -> Q m s) -> mem_wf (img s sec) -> wp (rsect sec) Q s.
Proof.
  intros H1 H2 HQ HW. unfold rsect. rewrite sector_id by lia. wp_step. apply wp_gets. replace (nsect s <=? sec) with false by lia.
  apply wp_ret. apply HQ; [apply same_bcopy|done].
Qed.

Lemma wp_next_block (Q : Z -> mkst -> Prop) s :
  0 <= freeblock s < 1000 -> Q (freeblock s) (set_freeblock (freeblock s + 1) s) -> wp next_block Q s.
Proof. intros H HQ. unfold next_block. wp_step. apply wp_gets. wp_step. apply wp_modify. rewrite u32_id by lia. by apply wp_ret. Qed.

(** ** What [iappend] changes *)

Definition own I d (n : Z) : Prop := n <> 0 /\ owned (mount I) d n.

Record extends I I' (fb fb' : Z) d d' : Prop := mkextends {
  ex_fb : fb <= fb';
  ex_out : forall n, ~ own I d n -> ~ (fb <= n < fb') -> I' n = I n;
  ex_own : forall n, own I' d' n -> own I d n \/ fb <= n < fb';
  ex_d : d' = set_addrs (d_addrs d') d;
}.

Lemma extends_refl I fb d : extends I I fb fb d d.
Proof. split; [lia|done|by left|by destruct d]. Qed.

Lemma extends_trans I1 I2 I3 f1 f2 f3 d1 d2 d3 : extends I1 I2 f1 f2 d1 d2 -> extends I2 I3 f2 f3 d2 d3 -> extends I1 I3 f1 f3 d1 d3.
Proof.
  intros [A1 A2 A3 A4] [B1 B2 B3 B4]. split; [lia| | |].
  - intros n Hn Hr. rewrite B2, A2; [done|done|lia| |lia]. intros H. destruct (A3 n H); [done|lia].
  - intros n H. destruct (B3 n H) as [H'|H']; [destruct (A3 n H'); [by left|right; lia]|right; lia].
  - rewrite B4, A4. done.
Qed.

Lemma holds_own I fb d nb ix bs n : holds I fb d nb ix bs -> own I d n -> 59 <= n < fb.
Proof.
  intros [H1 H2 H3 H4 H5 H6 H7 H8 H9] [Hn [->|(bn & Hb & ->)]]; [destruct ix; [lia|by destruct H6]|].
  change MAXFILE with 140 in Hb. destruct (Z.lt_ge_cases bn nb); [apply H4; lia|]. by rewrite H5 in Hn by lia.
Qed.

Lemma own_block I fb d nb ix bs bn : holds I fb d nb ix bs -> 0 <= bn < nb -> own I d (blockof (mount I) d bn).
Proof. intros H Hb. pose proof (hd_blk _ _ _ _ _ _ H bn Hb). pose proof (hd_nb _ _ _ _ _ _ H). split; [lia|]. right. exists bn. change MAXFILE with 140. split; [lia|done]. Qed.

Lemma own_new I I' fb fb' d d' :
  (forall bn, 0 <= bn < 140 -> blockof (mount I') d' bn = blockof (mount I) d bn \/ fb <= blockof (mount I') d' bn < fb') ->
  indirect d' = indirect d \/ fb <= indirect d' < fb' -> forall n, own I' d' n -> own I d n \/ fb <= n < fb'.
Proof.
  intros HB HI n [Hn [->|(bn & Hb & ->)]].
  - destruct HI as [E|E]; [left|by right]. split; [done|by left].
  - destruct (HB bn Hb) as [E|E]; [left|by right]. split; [done|]. right. exists bn. by rewrite E.
Qed.

Lemma own_indirect I fb d nb bs : holds I fb d nb true bs -> own I d (indirect d).
Proof. intros H. pose proof (hd_ind _ _ _ _ _ _ H). cbn in *. split; [lia|by left]. Qed.

(** Blocks that are not allocated are zero. *)
Definition blank I (fb : Z) : Prop := forall n, fb <= n < 1000 -> same_block (I n) (fun _ => 0).

Lemma blank_extends I I' fb fb' d d' nb ix bs : holds I fb d nb ix bs -> extends I I' fb fb' d d' -> blank I fb -> blank I' fb'.
Proof.
  intros H [E1 E2 _ _] HB n Hn. rewrite E2; [apply HB; lia| |lia]. intros Ho. pose proof (holds_own _ _ _ _ _ _ _ H Ho). lia.
Qed.

(** The bytes of all sectors are bytes. *)
Definition all_wf I : Prop := forall n, mem_wf (I n).

(** The number of blocks that a file of [nb] blocks takes. *)
Definition cost (nb : Z) : Z := nb + (if 12 <? nb then 1 else 0).
Definition nblk (len : Z) : Z := (len + 511) / 512.

Lemma put_wf I n m : all_wf I -> (forall o, 0 <= o < BSIZE -> 0 <= m o < 256) -> all_wf (put I n m).
Proof.
  intros HI HM b o. unfold put, bcopy. repeat case_match; try apply HI. apply HM. lia.
Qed.

(** ** One turn *)

Lemma holds_zero I fb d nb ix bs bn : holds I fb d nb ix bs -> 0 <= bn < 140 -> 59 <= fb -> (blockof (mount I) d bn =? 0) = (nb <=? bn).
Proof.
  intros H Hb Hfb. destruct (Z.leb_spec nb bn).
  - rewrite (hd_none _ _ _ _ _ _ H) by lia. done.
  - pose proof (hd_blk _ _ _ _ _ _ H bn ltac:(lia)). lia.
Qed.

(** The state in which the image and the block counter have changed. *)
Definition moved I (fb : Z) s : mkst := set_freeblock fb (set_img I (nsect s) s).

Definition found_block s d (nb : Z) (bs : list Z) (r : dinode * Z) s' : Prop :=
  exists I' fb', s' = moved I' fb' s /\ all_wf I' /\ r.2 = blockof (mount I') r.1 nb /\ holds I' fb' r.1 (nb + 1) (12 <? nb + 1) bs /\
    extends (img s) I' (freeblock s) fb' d r.1 /\ fb' - cost (nb + 1) = freeblock s - cost nb.

Lemma find_direct s d nb bs :
  holds (img s) (freeblock s) d nb (12 <? nb) bs -> blank (img s) (freeblock s) -> all_wf (img s) -> 0 <= nb < 12 ->
  59 <= freeblock s < 1000 -> wp (find_block d nb) (found_block s d nb bs) s.
Proof.
  intros H HB HW Hnb Hfb. unfold find_block, NDIRECT. replace (nb <? 12) with true by lia. wp_step.
  rewrite <- (blockof_low (img s)) by lia. rewrite (hd_none _ _ _ _ _ _ H) by lia. rewrite xint_id by lia. cbn [Z.eqb].
  wp_step. apply wp_next_block; [lia|]. wp_steps. rewrite xint_id by lia.
  pose proof (holds_direct _ _ _ _ _ _ H ltac:(lia) ltac:(lia) (HB (freeblock s) ltac:(lia))) as H'.
  set (d' := set_addrs _ d) in *. rewrite <- (blockof_low (img s)) by lia. pose proof (hd_blk _ _ _ _ _ _ H' nb ltac:(lia)) as Hn.
  exists (img s), (freeblock s + 1). cbn [fst snd]. split_and!; [by destruct s|done|by rewrite xint_id by lia| | |].
  - replace (12 <? nb + 1) with (12 <? nb) by lia. exact H'.
  - pose proof (hd_len _ _ _ _ _ _ H) as HL. split; [lia|done| |done]. apply own_new.
    + intros bn Hb. destruct (blockof_new (img s) (freeblock s) d nb bn HL ltac:(lia) Hb) as [_ E]. fold d' in E. rewrite E. case_match; [right; lia|by left].
    + left. apply (blockof_new (img s) (freeblock s) d nb 0 HL); lia.
  - unfold cost. repeat case_match; lia.
Qed.

Lemma find_entry_spec s d nb bs :
  holds (img s) (freeblock s) d nb true bs -> blank (img s) (freeblock s) -> all_wf (img s) -> 12 <= nb < 140 ->
  59 <= freeblock s < 1000 -> nsect s = 1000 ->
  wp (find_entry (indirect d) (nb - 12)) (fun x s' => exists I', s' = moved I' (freeblock s + 1) s /\ all_wf I' /\ x = blockof (mount I') d nb /\
    holds I' (freeblock s + 1) d (nb + 1) true bs /\ extends (img s) I' (freeblock s) (freeblock s + 1) d d) s.
Proof.
  intros H HB HW Hnb Hfb HS. pose proof (hd_ind _ _ _ _ _ _ H) as HI. cbn in HI. pose proof (hd_none _ _ _ _ _ _ H nb ltac:(lia)) as HN.
  unfold find_entry. wp_step. apply wp_rsect; [lia|lia| |apply HW]. intros m HM _. rewrite blockof_ind in HN by lia.
  assert (E0 : load32 m (4 * (nb - 12)) = 0).
  { rewrite <- HN. apply load32_same. intros x Hx. apply HM. unfold BSIZE. lia. }
  rewrite E0. cbn [Z.eqb]. wp_step. wp_step. apply wp_next_block; [lia|]. wp_step. rewrite xint_id by lia.
  apply wp_wsect; [cbn; lia|cbn; lia|]. wp_steps.
  assert (HM' : same_block (store32 m (4 * (nb - 12)) (freeblock s)) (store32 (img s (indirect d)) (4 * (nb - 12)) (freeblock s))).
  { intros o Ho. unfold store32. repeat case_match; try done. by apply HM. }
  pose proof (holds_entry _ _ _ _ _ _ H Hnb ltac:(lia) (HB (freeblock s) ltac:(lia)) HM') as H'.
  set (I' := put (img s) (indirect d) _) in *. exists I'. pose proof (hd_blk _ _ _ _ _ _ H' nb ltac:(lia)) as Hr.
  assert (EX : load32 (store32 m (4 * (nb - 12)) (freeblock s)) (4 * (nb - 12)) = blockof (mount I') d nb).
  { rewrite blockof_ind by lia. apply load32_same. intros x Hx. unfold I'. rewrite put_eq; [done|unfold BSIZE; lia]. }
  split_and!; [by destruct s| |by rewrite EX, xint_id by lia|done|].
  - apply put_wf; [done|]. intros o Ho. unfold store32. repeat case_match; try (apply Z.mod_pos_bound; lia). rewrite HM by done. apply HW.
  - split; [lia| | |by destruct d].
    + intros n Hn _. apply put_ne. intros ->. apply Hn. eapply own_indirect, H.
    + apply own_new; [|by left]. intros bn Hb. destruct (decide (bn = nb)) as [->|Hne].
      * right. rewrite <- EX. rewrite load32_store32_eq by lia. lia.
      * left. destruct (Z.lt_ge_cases bn 12); [by rewrite !blockof_low|]. rewrite !blockof_ind by lia.
        rewrite <- (load32_store32_ne (img s (indirect d)) (4 * (nb - 12)) (4 * (bn - 12)) (freeblock s)) by lia.
        apply load32_same. intros x Hx. unfold I'. rewrite put_eq by (unfold BSIZE; lia). apply HM'. unfold BSIZE. lia.
Qed.

Lemma find_high s d nb bs :
  holds (img s) (freeblock s) d nb (12 <? nb) bs -> blank (img s) (freeblock s) -> all_wf (img s) -> 12 <= nb < 140 ->
  59 <= freeblock s -> freeblock s + (cost (nb + 1) - cost nb) <= 1000 -> nsect s = 1000 -> wp (find_block d nb) (found_block s d nb bs) s.
Proof.
  intros H HB HW Hnb Hfb HC HS. unfold find_block, NDIRECT. replace (nb <? 12) with false by lia. wp_step.
  change (nth (Z.to_nat 12) (d_addrs d) 0) with (indirect d). pose proof (hd_ind _ _ _ _ _ _ H) as HI. unfold cost in *.
  assert (Hlt : freeblock s < 1000) by (repeat case_match; lia).
  destruct (Z.ltb_spec 12 nb) as [Hgt|Hle].
  - rewrite xint_id by lia. replace (indirect d =? 0) with false by lia. wp_steps.
    change (nth (Z.to_nat 12) (d_addrs d) 0) with (indirect d). rewrite xint_id by lia.
    eapply wp_mono; [apply (find_entry_spec s d nb bs); try done; case_match; lia|]. intros x s' (I' & -> & HW' & -> & H' & HE). apply wp_ret.
    exists I', (freeblock s + 1). cbn [fst snd]. replace (12 <? nb + 1) with true by lia. split_and!; try done. unfold cost. repeat case_match; lia.
  - assert (nb = 12) as -> by lia. destruct HI as [EI _]. rewrite EI. cbn [Z.eqb]. rewrite xint_id by lia. cbn [Z.eqb]. change (12 <? 12 + 1) with true in HC. cbv iota in HC.
    wp_step. apply wp_next_block; [lia|]. wp_steps. rewrite (xint_id (freeblock s)) by lia. pose proof (hd_len _ _ _ _ _ _ H) as HL.
    set (d' := set_addrs _ d). pose proof (holds_indirect _ _ _ _ _ H ltac:(lia) (HB (freeblock s) ltac:(lia))) as H1. change (holds (img s) (freeblock s + 1) d' 12 true bs) in H1.
    assert (EI' : indirect d' = freeblock s). { apply (blockof_new_ind (img s) (freeblock s) d 0); try done; [lia|apply HB; lia]. }
    assert (X1 : extends (img s) (img s) (freeblock s) (freeblock s + 1) d d').
    { split; [lia|done| |done]. apply own_new; [|right; lia]. intros bn Hb. left. apply (blockof_new_ind (img s) (freeblock s) d bn); try done; [lia|apply HB; lia]. }
    change (nth (Z.to_nat 12) (d_addrs d') 0) with (indirect d'). rewrite (xint_id (indirect d')) by lia.
    eapply wp_mono; [apply (find_entry_spec (set_freeblock (freeblock s + 1) s) d' 12 bs); cbn; try done; try lia|].
    { intros n Hn. apply HB. lia. }
    intros x s' (I' & -> & HW' & -> & H' & HE). apply wp_ret. exists I', (freeblock s + 2). cbn [fst snd] in *.
    cbn [freeblock set_freeblock img] in *. replace (freeblock s + 1 + 1) with (freeblock s + 2) in * by lia.
    split_and!; try done; [by eapply extends_trans|]. change (cost (12 + 1)) with 14. change (cost 12) with 12. lia.
Qed.

(** The block is there already. *)
Lemma find_old s d nb bs bn :
  holds (img s) (freeblock s) d nb (12 <? nb) bs -> all_wf (img s) -> 0 <= bn < nb -> 59 <= freeblock s <= 1000 -> nsect s = 1000 ->
  wp (find_block d bn) (fun r s' => s' = s /\ r = (d, blockof (mount (img s)) d bn)) s.
Proof.
  intros H HW Hb Hfb HS. pose proof (hd_blk _ _ _ _ _ _ H bn Hb) as HR. pose proof (hd_nb _ _ _ _ _ _ H) as Hnb. pose proof (hd_ind _ _ _ _ _ _ H) as HI.
  unfold find_block, NDIRECT. destruct (Z.ltb_spec bn 12) as [Hlt|Hge].
  - rewrite <- (blockof_low (img s)) by done. rewrite xint_id by lia. replace (blockof (mount (img s)) d bn =? 0) with false by lia. wp_steps.
    rewrite <- (blockof_low (img s)) by done. by rewrite xint_id by lia.
  - replace (12 <? nb) with true in HI by lia. change (nth (Z.to_nat 12) (d_addrs d) 0) with (indirect d). rewrite xint_id by lia.
    replace (indirect d =? 0) with false by lia. wp_steps. change (nth (Z.to_nat 12) (d_addrs d) 0) with (indirect d). rewrite xint_id by lia.
    unfold find_entry. wp_step. apply wp_rsect; [lia|lia| |apply HW]. intros m HM _.
    assert (E : load32 m (4 * (bn - 12)) = blockof (mount (img s)) d bn).
    { rewrite blockof_ind by lia. apply load32_same. intros x Hx. apply HM. unfold BSIZE. lia. }
    rewrite E. replace (blockof (mount (img s)) d bn =? 0) with false by lia. wp_steps. by rewrite E, xint_id by lia.
Qed.

Lemma find_block_spec s d bs :
  let off := Z.of_nat (length bs) in let bn := off / 512 in
  holds (img s) (freeblock s) d (nblk off) (12 <? nblk off) bs -> blank (img s) (freeblock s) -> all_wf (img s) -> bn < 140 ->
  59 <= freeblock s <= 1000 -> freeblock s + (cost (bn + 1) - cost (nblk off)) <= 1000 -> nsect s = 1000 ->
  wp (find_block d bn) (fun r s' => exists I' fb', s' = moved I' fb' s /\ all_wf I' /\ r.2 = blockof (mount I') r.1 bn /\
    holds I' fb' r.1 (bn + 1) (12 <? bn + 1) bs /\ extends (img s) I' (freeblock s) fb' d r.1 /\
    fb' - cost (bn + 1) = freeblock s - cost (nblk off)) s.
Proof.
  intros off bn H HB HW Hbn Hfb HC HS. assert (H0 : 0 <= off) by (subst off; lia).
  destruct (decide (off mod 512 = 0)) as [E|E].
  - assert (EN : nblk off = bn) by (unfold nblk; subst bn; zlia). rewrite EN in *. destruct (Z.lt_ge_cases bn 12).
    + apply find_direct; try done; subst bn; [zlia|]. unfold cost in HC. repeat case_match; lia.
    + apply find_high; try done; subst bn; lia.
  - assert (EN : nblk off = bn + 1) by (unfold nblk; subst bn; zlia). rewrite EN in *.
    eapply wp_mono; [apply (find_old s d (bn + 1) bs bn); try done; subst bn; zlia|]. intros r s' [-> ->]. exists (img s), (freeblock s).
    split_and!; try done; [by destruct s|apply extends_refl].
Qed.

Lemma fmap_seqZ_split (p : Z -> Z) n1 n : 0 <= n1 <= n -> p <$> seqZ 0 n = (p <$> seqZ 0 n1) ++ ((fun i => p (i + n1)) <$> seqZ 0 (n - n1)).
Proof.
  intros H. replace n with (n1 + (n - n1)) at 1 by lia. rewrite seqZ_app by lia. rewrite fmap_app. f_equal.
  rewrite Z.add_0_l. replace (seqZ n1 (n - n1)) with (Z.add n1 <$> seqZ 0 (n - n1)) by (rewrite fmap_add_seqZ; f_equal; lia).
  rewrite <- list_fmap_compose. apply list_fmap_ext. intros i x _. cbn. by rewrite Z.add_comm.
Qed.

Definition appended s d (p : Z -> Z) (bs : list Z) (n : Z) (r : dinode * Z) s' : Prop :=
  let off := Z.of_nat (length bs) in
  exists I' fb', s' = moved I' fb' s /\ all_wf I' /\ r.2 = off + n /\
    holds I' fb' r.1 (nblk (off + n)) (12 <? nblk (off + n)) (bs ++ (p <$> seqZ 0 n)) /\
    extends (img s) I' (freeblock s) fb' d r.1 /\ fb' - cost (nblk (off + n)) = freeblock s - cost (nblk off).

(** The bytes written into their block. *)
Lemma chunk_written s d I fb bs p n1 :
  let off := Z.of_nat (length bs) in let bn := off / 512 in let s1 := moved I fb s in
  holds I fb d (bn + 1) (12 <? bn + 1) bs -> all_wf I -> (forall i, 0 <= p i < 256) -> 0 < n1 -> off mod 512 + n1 <= 512 -> fb <= 1000 -> nsect s = 1000 ->
  wp (let! buf := rsect (blockof (mount I) d bn) in wsect (blockof (mount I) d bn) (put_bytes buf (off - bn * BSIZE) p n1))
    (fun _ s' => exists I', s' = moved I' fb s /\ all_wf I' /\ holds I' fb d (bn + 1) (12 <? bn + 1) (bs ++ (p <$> seqZ 0 n1)) /\ extends I I' fb fb d d) s1.
Proof.
  intros off bn s1 H HW Hp Hn Hlen Hfb HS. assert (Hb : 0 <= bn < bn + 1) by (subst bn off; zlia). pose proof (hd_blk _ _ _ _ _ _ H bn Hb) as HR.
  set (x := blockof (mount I) d bn) in *. wp_step. apply wp_rsect; [cbn; lia|cbn; lia| |apply HW]. cbn [img moved set_freeblock set_img]. intros m HM _.
  apply wp_wsect; [cbn; lia|cbn; lia|]. cbn [img moved set_freeblock set_img]. replace (off - bn * BSIZE) with (off mod 512) by (subst bn; unfold BSIZE; zlia).
  set (m' := put_bytes m (off mod 512) p n1).
  assert (HM' : same_block m' (put_bytes (I x) (off mod 512) p n1)). { intros o Ho. unfold m', put_bytes. case_match; [done|]. by apply HM. }
  exists (put I x m'). split_and!; [done| | |].
  - apply put_wf; [done|]. intros o Ho. unfold m', put_bytes. case_match; [done|]. rewrite HM by done. apply HW.
  - apply (holds_append I fb d (bn + 1) _ bs p n1 m' H); try done. fold off bn. lia.
  - split; [lia| | |by destruct d].
    + intros n Hno _. apply put_ne. intros ->. apply Hno. by eapply own_block.
    + apply own_new; [|by left]. intros b Hbb. left. apply blockof_frame; [done|]. intros Hne. rewrite put_ne; [done|]. intros E. by eapply (hd_apart _ _ _ _ _ _ H bn Hb).
Qed.

Lemma wp_bind_bind {S A B C} (a : M S A) (f : A -> M S B) (k : B -> M S C) Q (t : S) :
  wp (bind a f) (fun b t' => wp (k b) Q t') t -> wp (bind a (fun x => bind (f x) k)) Q t.
Proof. unfold wp, bind. destruct (a t) as [x t1| | | |]; [|done..]. by destruct (f x t1). Qed.

Lemma iappend_loop_spec fuel : forall s d p bs n,
  let off := Z.of_nat (length bs) in
  0 <= n -> (Z.to_nat n < fuel)%nat -> holds (img s) (freeblock s) d (nblk off) (12 <? nblk off) bs -> blank (img s) (freeblock s) ->
  all_wf (img s) -> (forall i, 0 <= p i < 256) -> 59 <= freeblock s <= 1000 ->
  freeblock s + (cost (nblk (off + n)) - cost (nblk off)) <= 1000 -> off + n <= 71680 -> nsect s = 1000 ->
  wp (iappend_loop fuel d p off n) (appended s d p bs n) s.
Proof.
  induction fuel as [|fuel IH]; intros s d p bs n off Hn Hf H HB HW Hp Hfb HC Hmx HS; [lia|]. assert (H0 : 0 <= off) by (subst off; lia).
  cbn [iappend_loop]. destruct (Z.ltb_spec 0 n) as [Hpos|Hle]; cycle 1.
  { assert (n = 0) as -> by lia. apply wp_ret. exists (img s), (freeblock s). fold off. rewrite Z.add_0_r. cbn. rewrite app_nil_r.
    split_and!; try done; [by destruct s|apply extends_refl]. }
  change (off / BSIZE) with (off / 512). change MAXFILE with 140. set (bn := off / 512) in *. assert (Hbn : 0 <= bn < 140) by (subst bn; zlia).
  replace (140 <=? bn) with false by lia. set (n1 := Z.min n ((bn + 1) * BSIZE - off)).
  assert (Hn1 : 0 < n1 <= n /\ off mod 512 + n1 <= 512) by (subst n1 bn; unfold BSIZE; zlia).
  assert (Hsh : bn + 1 <= nblk (off + n) /\ nblk (off + n1) = bn + 1) by (unfold nblk; subst bn; zlia).
  assert (Hcm : cost (bn + 1) <= cost (nblk (off + n))) by (unfold cost; repeat case_match; lia).
  wp_step. eapply wp_mono; [apply (find_block_spec s d bs); try done; fold off bn; lia|].
  intros [d1 x] s1 (I1 & fb1 & -> & W1 & Ex & H1 & X1 & C1). cbn [fst snd] in *. fold off bn in Ex, H1, C1. subst x.
  apply wp_bind_bind. eapply wp_mono; [apply (chunk_written s d1 I1 fb1 bs p n1); try done; fold off bn; lia|].
  intros _ s2 (I2 & -> & W2 & H2 & X2). pose proof (extends_trans _ _ _ _ _ _ _ _ _ X1 X2) as X12.
  set (bs2 := bs ++ (p <$> seqZ 0 n1)) in *. assert (EL : Z.of_nat (length bs2) = off + n1) by (subst bs2; rewrite length_app, length_fmap, length_seqZ; lia).
  rewrite <- EL. pose proof (blank_extends _ _ _ _ _ _ _ _ _ H X12 HB) as B2.
  assert (Hfb1 : 59 <= fb1 <= 1000) by (pose proof (ex_fb _ _ _ _ _ _ X12); lia).
  eapply wp_mono; [apply (IH (moved I2 fb1 s) d1 (fun i => p (i + n1)) bs2 (n - n1)); rewrite ?EL; cbn [img freeblock nsect moved set_freeblock set_img]; try done; try lia|].
  - replace (nblk (off + n1)) with (bn + 1) by lia. exact H2.
  - replace (nblk (off + n1)) with (bn + 1) by lia. replace (off + n1 + (n - n1)) with (off + n) by lia. lia.
  - intros r s3 (I3 & fb3 & -> & W3 & Er & H3 & X3 & C3). cbn [img freeblock moved set_freeblock set_img] in *. rewrite EL in *.
    replace (off + n1 + (n - n1)) with (off + n) in * by lia. exists I3, fb3. fold off. split_and!; try done.
    + rewrite (fmap_seqZ_split p n1 n), app_assoc by lia. exact H3.
    + by eapply extends_trans.
    + replace (nblk (off + n1)) with (bn + 1) in C3 by lia. lia.
Qed.
