(* ===== verification/MkfsMade.v ===== *)
(** * MkfsMade: the image as a list of files

    What the image holds while [mkfs] runs, as the list of the files made so
    far with their types and bytes, and what each operation does to it. *)
From stdpp Require Import base gmap list numbers strings.
From Stdlib Require Import ZArith Lia ZifyBool.
From S2P Require Import Prelude Machine Cstring LockThms Bio BioSpec Log LogSpec LogLoops Fs FsBlk FsAlloc FsInode FsFile FsWrite Mkfs MkfsAppend.

Implicit Types (I : Z -> memory) (d : dinode) (s : mkst) (fs : list (Z * list Z)).

(** The layout of the image. *)
Definition SB : superblock := mksb 1000 941 200 30 2 32 58.
Definition inode_at I (j : Z) : dinode := dinode_at (mount I) SB j.

Lemma iblock_SB j : 0 <= j < 200 -> IBLOCK j SB = j / 8 + 32 /\ 32 <= IBLOCK j SB < 58.
Proof. intros H. unfold IBLOCK. cbn [sb_inodestart SB]. change IPB with 8. rewrite u32_id by zlia. zlia. Qed.

Lemma inode_at_eq I j : inode_at I j = dec_dinode (I (IBLOCK j SB)) (j mod 8 * 64).
Proof. reflexivity. Qed.

Lemma inode_at_same I I' j : same_block (I' (IBLOCK j SB)) (I (IBLOCK j SB)) -> inode_at I' j = inode_at I j.
Proof. intros H. by apply (dinode_at_same (mount I) (mount I')). Qed.

(** ** Inodes on the image *)

Lemma wp_rinode s inum (Q : dinode -> mkst -> Prop) :
  nsect s = 1000 -> msb s = SB -> 0 <= inum < 200 -> all_wf (img s) -> Q (inode_at (img s) inum) s -> wp (rinode inum) Q s.
Proof.
  intros HS HB Hi HW HQ. unfold rinode. wp_step. apply wp_gets. rewrite HB. destruct (iblock_SB inum Hi) as [_ Hr]. wp_step.
  apply wp_rsect; [lia|lia| |apply HW]. intros m HM _. apply wp_ret. rewrite inode_at_eq in HQ. change IPB with 8.
  rewrite (dec_dinode_same (img s (IBLOCK inum SB)) m); [done|]. intros x Hx. apply HM. unfold BSIZE. zlia.
Qed.

(** The image with the inode [inum] changed. *)
Record inode_set I I' (inum : Z) d : Prop := mkinode_set {
  is_wf : all_wf I';
  is_new : inode_at I' inum = d;
  is_old : forall j, 0 <= j < 200 -> j <> inum -> inode_at I' j = inode_at I j;
  is_out : forall n, n < 32 \/ 58 <= n -> I' n = I n;
}.

Lemma wp_winode s inum d (Q : unit -> mkst -> Prop) :
  nsect s = 1000 -> msb s = SB -> 0 <= inum < 200 -> all_wf (img s) -> dinode_ok d ->
  (forall I', inode_set (img s) I' inum d -> Q tt (moved I' (freeblock s) s)) -> wp (winode inum d) Q s.
Proof.
  intros HS HB Hi HW HD HQ. unfold winode. wp_step. apply wp_gets. rewrite HB. destruct (iblock_SB inum Hi) as [Eb Hr]. wp_step.
  apply wp_rsect; [lia|lia| |apply HW]. intros m HM _. apply wp_wsect; [lia|lia|]. change IPB with 8. pose proof (dk_len _ HD) as HL.
  set (m' := enc_dinode m (inum mod 8 * 64) d). set (I' := put (img s) (IBLOCK inum SB) m').
  replace (set_img I' (nsect s) s) with (moved I' (freeblock s) s) by (by destruct s). apply HQ.
  assert (HI : same_block (I' (IBLOCK inum SB)) m') by apply put_eq. split.
  - apply put_wf; [done|]. apply enc_dinode_byte. intros x Hx. rewrite HM by done. apply HW.
  - rewrite inode_at_eq, <- (dec_enc_dinode m (inum mod 8 * 64) d HD). apply dec_dinode_same. intros x Hx. apply HI. unfold BSIZE. zlia.
  - intros j Hj Hne. rewrite !inode_at_eq. destruct (iblock_SB j Hj) as [Ej _]. destruct (decide (IBLOCK j SB = IBLOCK inum SB)) as [E|E].
    + rewrite E. apply dec_dinode_same. intros x Hx. rewrite HI by (unfold BSIZE; zlia). unfold m'. rewrite enc_dinode_other by (done || zlia).
      apply HM. unfold BSIZE. zlia.
    + unfold I'. by rewrite put_ne.
  - intros n Hn. apply put_ne. lia.
Qed.

(** ** The files *)

Definition fcost (f : Z * list Z) : Z := cost (nblk (Z.of_nat (length f.2))).
Fixpoint total fs : Z := match fs with [] => 0 | f :: fs => fcost f + total fs end.

Lemma cost_mono a b : a <= b -> cost a <= cost b.
Proof. unfold cost. intros H. repeat case_match; lia. Qed.
Lemma fcost_nonneg f : 0 <= fcost f.
Proof. unfold fcost, cost, nblk. case_match; zlia. Qed.
Lemma file_total_nonneg fs : 0 <= total fs.
Proof. induction fs as [|f fs IH]; cbn; [lia|]. pose proof (fcost_nonneg f). lia. Qed.
Lemma total_app fs fs' : total (fs ++ fs') = total fs + total fs'.
Proof. induction fs as [|f fs IH]; cbn; lia. Qed.
Lemma total_insert fs i f g : fs !! i = Some f -> total (<[i := g]> fs) = total fs - fcost f + fcost g.
Proof.
  revert i. induction fs as [|x fs IH]; intros [|i] H; [done|done|cbn in H; simplify_eq; cbn; lia|].
  change (fcost x + total (<[i := g]> fs) = fcost x + total fs - fcost f + fcost g). rewrite (IH i H). lia.
Qed.

(** The inode [d] is that of a file with type [f.1] and bytes [f.2]. *)
Record is_file I (fb : Z) d (f : Z * list Z) : Prop := mkis_file {
  if_type : d_type d = f.1;
  if_major : d_major d = 0;
  if_minor : d_minor d = 0;
  if_nlink : d_nlink d = 1;
  if_size : d_size d = Z.of_nat (length f.2);
  if_holds : let nb := nblk (Z.of_nat (length f.2)) in holds I fb d nb (12 <? nb) f.2;
}.

Record made s fs : Prop := mkmade {
  md_sect : nsect s = 1000;
  md_sb : msb s = SB;
  md_inode : freeinode s = 1 + Z.of_nat (length fs);
  md_block : freeblock s = 59 + total fs;
  md_bound : 59 + total fs <= 1000 /\ (length fs < 200)%nat;
  md_wf : all_wf (img s);
  md_blank : blank (img s) (freeblock s);
  md_super : dec_sb (img s 1) = SB;
  md_log : same_block (img s 2) (fun _ => 0);
  md_map : same_block (img s 58) (fun _ => 0);
  md_types : Forall (fun f => f.1 = 1 \/ f.1 = 2) fs;
  md_file : forall i f, fs !! i = Some f -> is_file (img s) (freeblock s) (inode_at (img s) (1 + Z.of_nat i)) f;
  md_apart : forall i j n, (i < length fs)%nat -> (j < length fs)%nat -> i <> j ->
    own (img s) (inode_at (img s) (1 + Z.of_nat i)) n -> ~ own (img s) (inode_at (img s) (1 + Z.of_nat j)) n;
  md_unused : forall j, Z.of_nat (length fs) < j < 200 -> d_type (inode_at (img s) j) = 0;
}.

Lemma holds_words I fb d nb ix bs : holds I fb d nb ix bs -> fb <= 1000 -> Forall word (d_addrs d).
Proof.
  intros H Hfb. pose proof (hd_len _ _ _ _ _ _ H) as HL. pose proof (hd_nb _ _ _ _ _ _ H) as Hnb. apply Forall_lookup. intros i a Hi. unfold word.
  pose proof (lookup_lt_Some _ _ _ Hi) as Hlt. destruct (decide (i = 12%nat)) as [->|Hne].
  - assert (indirect d = a) as <- by (unfold indirect; by rewrite nth_lookup, (Hi : d_addrs d !! Z.to_nat NDIRECT = Some a)).
    pose proof (hd_ind _ _ _ _ _ _ H). destruct ix; lia.
  - assert (blockof (mount I) d (Z.of_nat i) = a) as <- by (rewrite blockof_low by lia; by rewrite nth_lookup, Nat2Z.id, Hi).
    destruct (Z.lt_ge_cases (Z.of_nat i) nb); [pose proof (hd_blk _ _ _ _ _ _ H (Z.of_nat i)); lia|rewrite (hd_none _ _ _ _ _ _ H) by lia; lia].
Qed.

Lemma file_dinode I fb d f : is_file I fb d f -> fb <= 1000 -> f.1 = 1 \/ f.1 = 2 -> Z.of_nat (length f.2) <= 71680 -> dinode_ok d.
Proof.
  intros [F1 F2 F3 F4 F5 F6] Hfb Ht Hl. split; rewrite ?F1, ?F2, ?F3, ?F4, ?F5; unfold word; try lia; [by eapply holds_words|].
  change (Z.to_nat (NDIRECT + 1)) with 13%nat. apply F6.
Qed.

Lemma holds_size z I fb d nb ix bs : holds I fb d nb ix bs -> holds I fb (set_size z d) nb ix bs.
Proof. by intros []; split. Qed.

(** A file none of whose blocks changes. *)
Lemma holds_still I I' fb fb' d nb ix bs :
  holds I fb d nb ix bs -> fb <= fb' -> (forall n, own I d n -> I' n = I n) ->
  holds I' fb' d nb ix bs /\ forall n, own I' d n -> own I d n.
Proof.
  intros H Hfb HS. assert (HI : ix = true -> I' (indirect d) = I (indirect d)) by (intros ->; eapply HS, own_indirect, H). split.
  - apply (holds_frame I I' fb fb' d nb ix bs H Hfb); [intros Hx; by rewrite HI|]. intros bn Hb. by rewrite (HS _ (own_block _ _ _ _ _ _ _ H Hb)).
  - intros n Hn. destruct (own_new I I' fb fb d d) with (n := n) as [?|?]; try done; [|by left|lia]. intros bn Hb. left. apply blockof_frame; [done|].
    intros Hne. rewrite HI; [done|]. pose proof (hd_ind _ _ _ _ _ _ H). destruct ix; [done|lia].
Qed.

Lemma file_still I I' fb fb' d f :
  is_file I fb d f -> fb <= fb' -> (forall n, own I d n -> I' n = I n) -> is_file I' fb' d f /\ forall n, own I' d n -> own I d n.
Proof.
  intros [F1 F2 F3 F4 F5 F6] Hfb HS. destruct (holds_still _ I' _ fb' _ _ _ _ F6 Hfb HS) as [H1 H2]. split; [by split|done].
Qed.

Lemma made_own s fs i n :
  made s fs -> (i < length fs)%nat -> own (img s) (inode_at (img s) (1 + Z.of_nat i)) n -> 59 <= n < freeblock s.
Proof. intros MD [f Hf]%lookup_lt_is_Some_2 Ho. eapply holds_own; [apply (md_file _ _ MD _ _ Hf)|done]. Qed.

(** ** [ialloc] *)

Lemma i16_id x : 0 <= x < 32768 -> i16 x = x.
Proof. intros H. zlia. Qed.

Lemma holds_empty I fb d : d_addrs d = replicate 13 0 -> holds I fb d 0 false [].
Proof.
  intros HA. assert (HI : indirect d = 0) by (unfold indirect; by rewrite HA).
  split; try (intros; lia); [by rewrite HA|cbn; lia|].
  intros bn Hb. destruct (Z.lt_ge_cases bn 12); [|by apply blockof_noind]. rewrite blockof_low, HA by done. rewrite nth_lookup, lookup_replicate_2 by lia. done.
Qed.

Lemma ialloc_made s fs ty :
  made s fs -> ty = 1 \/ ty = 2 -> (length fs < 199)%nat ->
  wp (mk_ialloc ty) (fun r s' => r = 1 + Z.of_nat (length fs) /\ made s' (fs ++ [(ty, [])])) s.
Proof.
  intros MD Ht Hl. pose proof MD as [M1 M2 M3 M4 M5 M6 M7 M8 M9 M10 M11 M12 M13 M14]. pose proof (file_total_nonneg fs) as HT0. unfold mk_ialloc. wp_step. apply wp_gets. wp_step. apply wp_modify.
  rewrite M3, u32_id by lia. rewrite (xshort_id ty), (xshort_id 1), xint_id by lia. rewrite !i16_id by lia. set (inum := 1 + Z.of_nat (length fs)). set (d := mkdinode _ _ _ _ _ _).
  wp_step. apply wp_winode; cbn [img nsect msb set_freeinode freeblock]; try done; [lia| |].
  { subst d. split; cbn; unfold word; try done; try lia. repeat (apply Forall_cons; split; [lia|]). apply Forall_nil. done. }
  intros I' [W1 W2 W3 W4]. apply wp_ret. split; [done|].
  assert (HT : total (fs ++ [(ty, [])]) = total fs) by (rewrite total_app; cbn [total]; change (fcost (ty, [])) with 0; lia).
  assert (HS : forall n, 59 <= n -> I' n = img s n) by (intros n Hn; apply W4; lia).
  assert (HD : forall i, (i < length fs)%nat -> inode_at I' (1 + Z.of_nat i) = inode_at (img s) (1 + Z.of_nat i)) by (intros i Hi; apply W3; subst inum; lia).
  assert (HF : forall i f, fs !! i = Some f -> is_file I' (freeblock s) (inode_at I' (1 + Z.of_nat i)) f /\
    forall n, own I' (inode_at I' (1 + Z.of_nat i)) n -> own (img s) (inode_at (img s) (1 + Z.of_nat i)) n).
  { intros i f Hf. pose proof (lookup_lt_Some _ _ _ Hf) as Hi. rewrite HD by done. apply (file_still (img s) I' (freeblock s)); [by apply M12|lia|].
    intros n Hn. apply HS. by eapply made_own. }
  assert (H0 : holds I' (freeblock s) d 0 false []) by (apply holds_empty; done).
  assert (HN : forall n, ~ own I' d n) by (intros n Hn; apply (holds_own _ _ _ _ _ _ _ (holds_empty I' 59 d eq_refl)) in Hn; lia).
  split; cbn [img nsect msb set_freeinode freeblock freeinode moved set_freeblock set_img]; rewrite ?HT, ?length_app; cbn [length]; try done; try lia.
  - intros n Hn. rewrite HS by lia. apply M7. lia.
  - by rewrite W4 by lia.
  - by rewrite W4 by lia.
  - by rewrite W4 by lia.
  - apply Forall_app. split; [done|]. by apply Forall_singleton.
  - intros i f Hf. apply lookup_app_Some in Hf as [Hf|[Hge Hf]]; [by apply HF|]. apply list_lookup_singleton_Some in Hf as [Ei <-].
    assert (i = length fs) as -> by lia. fold inum. rewrite W2. by split.
  - intros i j n Hi Hj Hne Ho. destruct (decide (i = length fs)) as [->|Ni]; [fold inum in Ho; rewrite W2 in Ho; by destruct (HN n)|].
    destruct (decide (j = length fs)) as [->|Nj]; [fold inum; rewrite W2; apply HN|].
    destruct (lookup_lt_is_Some_2 fs i) as [f Hf]; [lia|]. destruct (lookup_lt_is_Some_2 fs j) as [g Hg]; [lia|].
    intros Ho'. apply (HF _ _ Hf) in Ho. apply (HF _ _ Hg) in Ho'. eapply M13; [..|exact Ho|exact Ho']; lia.
  - intros j Hj. rewrite W3 by (subst inum; lia). apply M14. lia.
Qed.

(** ** [iappend] *)

(** The image after the loop of [iappend] on file [i], and the inode stored. *)
Lemma made_append s fs i f p n I1 fb1 d1 I2 :
  let d := inode_at (img s) (1 + Z.of_nat i) in
  let off := Z.of_nat (length f.2) in let f' := (f.1, f.2 ++ (p <$> seqZ 0 n)) in
  made s fs -> fs !! i = Some f -> 0 <= n -> off + n <= 71680 -> 59 + total (<[i := f']> fs) <= 1000 ->
  holds I1 fb1 d1 (nblk (off + n)) (12 <? nblk (off + n)) f'.2 -> extends (img s) I1 (freeblock s) fb1 d d1 ->
  fb1 - cost (nblk (off + n)) = freeblock s - cost (nblk off) ->
  inode_set I1 I2 (1 + Z.of_nat i) (set_size (off + n) d1) -> made (moved I2 fb1 s) (<[i := f']> fs).
Proof.
  intros d off f' MD Hf Hn Hmx Htot H1 X1 C1 [W1 W2 W3 W4]. pose proof MD as [M1 M2 M3 M4 M5 M6 M7 M8 M9 M10 M11 M12 M13 M14].
  pose proof (lookup_lt_Some _ _ _ Hf) as Hi. pose proof (M12 _ _ Hf) as FI. fold d in FI. pose proof (file_total_nonneg fs) as HT0.
  assert (EL : Z.of_nat (length f'.2) = off + n) by (cbn; rewrite length_app, length_fmap, length_seqZ; subst off; lia).
  assert (HT : fb1 = 59 + total (<[i := f']> fs)) by (rewrite (total_insert _ _ _ _ Hf); unfold fcost; rewrite EL; fold off; lia).
  pose proof (ex_fb _ _ _ _ _ _ X1) as HX.
  assert (HO : forall n, own (img s) d n -> 59 <= n < freeblock s) by (intros m Hm; by eapply made_own).
  assert (HM : forall m, m < 59 -> I1 m = img s m) by (intros m Hm; apply (ex_out _ _ _ _ _ _ X1); [intros Ho%HO; lia|lia]).
  assert (HS : forall m, 59 <= m -> I2 m = I1 m) by (intros m Hm; apply W4; lia).
  assert (HD : forall j, 0 <= j < 200 -> j <> 1 + Z.of_nat i -> inode_at I2 j = inode_at (img s) j).
  { intros j Hj Hne. rewrite W3 by done. apply inode_at_same. rewrite HM; [done|]. destruct (iblock_SB j Hj). lia. }
  assert (HB : blank I1 fb1) by (eapply blank_extends; [apply FI|exact X1|done]).
  (* the extended file *)
  assert (HF : is_file I2 fb1 (inode_at I2 (1 + Z.of_nat i)) f' /\ forall m, own I2 (inode_at I2 (1 + Z.of_nat i)) m -> own (img s) d m \/ freeblock s <= m < fb1).
  { rewrite W2. rewrite (ex_d _ _ _ _ _ _ X1). destruct (holds_still I1 I2 fb1 fb1 d1 _ _ _ H1) as [H2 O2]; [lia|intros m Hm; apply HS; eapply holds_own in Hm; [lia|done]|].
    rewrite (ex_d _ _ _ _ _ _ X1) in H2, O2. split.
    - destruct FI as [F1 F2 F3 F4 F5 F6]. split; try done; rewrite ?EL; try done. by apply holds_size.
    - intros m Hm. apply (ex_own _ _ _ _ _ _ X1). rewrite (ex_d _ _ _ _ _ _ X1). by apply O2. }
  (* the other files *)
  assert (HG : forall j g, j <> i -> fs !! j = Some g -> is_file I2 fb1 (inode_at I2 (1 + Z.of_nat j)) g /\
    forall m, own I2 (inode_at I2 (1 + Z.of_nat j)) m -> own (img s) (inode_at (img s) (1 + Z.of_nat j)) m).
  { intros j g Hne Hg. pose proof (lookup_lt_Some _ _ _ Hg) as Hj. rewrite HD by lia. apply (file_still (img s) I2 (freeblock s)); [by apply M12|apply X1|].
    intros m Hm. pose proof (made_own _ _ _ _ MD Hj Hm) as Hr. rewrite HS by lia. apply (ex_out _ _ _ _ _ _ X1); [|lia]. by apply (M13 j i). }
  split; cbn [img nsect msb freeblock freeinode moved set_freeblock set_img]; rewrite ?length_insert; try done; try lia.
  - intros m Hm. rewrite HS by lia. by apply HB.
  - by rewrite W4, HM by lia.
  - by rewrite W4, HM by lia.
  - by rewrite W4, HM by lia.
  - apply Forall_insert; [done|]. exact (proj1 (Forall_lookup _ _) M11 _ _ Hf).
  - intros j g Hg. apply list_lookup_insert_Some in Hg as [(<- & <- & _)|[Hne Hg]]; [apply HF|]. by apply HG.
  - intros j j' m Hj Hj' Hne Ho Ho'. destruct (lookup_lt_is_Some_2 fs j Hj) as [g Hg]. destruct (lookup_lt_is_Some_2 fs j' Hj') as [g' Hg'].
    destruct (decide (j = i)) as [->|Nj], (decide (j' = i)) as [->|Nj']; [done| | |].
    + apply HF in Ho. apply (HG _ _ Nj' Hg') in Ho'. pose proof (made_own _ _ _ _ MD Hj' Ho'). destruct Ho as [Ho|Ho]; [|lia]. by apply (M13 i j' m).
    + apply HF in Ho'. apply (HG _ _ Nj Hg) in Ho. pose proof (made_own _ _ _ _ MD Hj Ho). destruct Ho' as [Ho'|Ho']; [|lia]. by apply (M13 j i m).
    + apply (HG _ _ Nj Hg) in Ho. apply (HG _ _ Nj' Hg') in Ho'. by apply (M13 j j' m).
  - intros j Hj. rewrite HD by lia. apply M14. lia.
Qed.

Lemma iappend_made s fs i f p n :
  let f' := (f.1, f.2 ++ (p <$> seqZ 0 n)) in
  made s fs -> fs !! i = Some f -> (forall x, 0 <= p x < 256) -> 0 <= n -> Z.of_nat (length f.2) + n <= 71680 -> 59 + total (<[i := f']> fs) <= 1000 ->
  wp (iappend (1 + Z.of_nat i) p n) (fun _ s' => made s' (<[i := f']> fs)) s.
Proof.
  intros f' MD Hf Hp Hn Hmx Htot. pose proof MD as [M1 M2 M3 M4 M5 M6 M7 M8 M9 M10 M11 M12 M13 M14]. pose proof (lookup_lt_Some _ _ _ Hf) as Hi.
  pose proof (M12 _ _ Hf) as FI. pose proof (if_size _ _ _ _ FI) as ES. pose proof (file_total_nonneg fs) as HT0. set (off := Z.of_nat (length f.2)) in *.
  assert (EL : Z.of_nat (length f'.2) = off + n) by (cbn; rewrite length_app, length_fmap, length_seqZ; subst off; lia).
  unfold iappend. wp_step. apply wp_rinode; try done; [lia|]. set (d := inode_at (img s) (1 + Z.of_nat i)) in *. rewrite ES, xint_id by lia.
  wp_step. eapply wp_mono.
  { apply (iappend_loop_spec (S (Z.to_nat n)) s d p f.2 n); try done; fold off; try lia; [apply FI|].
    rewrite (total_insert _ _ _ _ Hf) in Htot. unfold fcost in Htot. rewrite EL in Htot. fold off in Htot. lia. }
  intros [d1 z] s1 (I1 & fb1 & -> & W1 & Ez & H1 & X1 & C1). cbn [fst snd] in *. fold off in Ez, H1, C1. subst z. rewrite xint_id by lia.
  assert (HT : fb1 = 59 + total (<[i := f']> fs)) by (rewrite (total_insert _ _ _ _ Hf); unfold fcost; rewrite EL; fold off; lia).
  assert (HF1 : f.1 = 1 \/ f.1 = 2) by exact (proj1 (Forall_lookup _ _) M11 _ _ Hf).
  apply wp_winode; cbn [img nsect msb freeblock moved set_freeblock set_img]; try done; [lia| |].
  - destruct FI as [F1 F2 F3 F4 F5 F6].
    assert (d_type d1 = d_type d /\ d_major d1 = d_major d /\ d_minor d1 = d_minor d /\ d_nlink d1 = d_nlink d) as (E1 & E2 & E3 & E4) by (rewrite (ex_d _ _ _ _ _ _ X1); done).
    split; cbn; rewrite ?E1, ?E2, ?E3, ?E4, ?F1, ?F2, ?F3, ?F4; unfold word; try lia.
    + apply (holds_words _ _ _ _ _ _ H1). lia.
    + apply H1.
  - intros I2 HI. by apply (made_append s fs i f p n I1 fb1 d1 I2).
Qed.


(** * From the empty image to all the files *)


(** ** What the program makes of the files of the host *)

Definition host_bytes (f : hostfile) : list Z := concat (default [] (h_reads f)).
Definition stem (f : hostfile) : list Z := match h_name f with 95 :: l => l | l => l end.
Definition dirent (inum : Z) (name : list Z) : list Z := mk_dirent inum name <$> seqZ 0 16.

(** The files after those of the host are added to the directory [rb] and to
    the other files [rest]. *)
Fixpoint build (rb : list Z) (rest : list (Z * list Z)) (files : list hostfile) : list (Z * list Z) :=
  match files with
  | [] => (T_DIR, rb) :: rest
  | f :: files => build (rb ++ dirent (2 + Z.of_nat (length rest)) (stem f)) (rest ++ [(T_FILE, host_bytes f)]) files
  end.

Definition built (files : list hostfile) : list (Z * list Z) := build (dirent 1 [46] ++ dirent 1 [46; 46]) [] files.

(** A file that can be put on the image. *)
Record host_ok (f : hostfile) : Prop := mkhost_ok {
  hk_name : Forall (fun c => 0 < c < 256) (h_name f);
  hk_slash : 47 ∉ h_name f;
  hk_open : is_Some (h_reads f);
  hk_bytes : Forall (fun c => 0 <= c < 256) (host_bytes f);
  hk_size : Z.of_nat (length (host_bytes f)) <= 71680;
}.

Lemma chars_list (l : list Z) : chars l <$> seqZ 0 (Z.of_nat (length l)) = l.
Proof.
  apply list_eq. intros i. rewrite list_lookup_fmap. destruct (l !! i) as [x|] eqn:E.
  - rewrite (proj2 (lookup_seqZ _ _ _ (0 + Z.of_nat i))) by (apply lookup_lt_Some in E; lia). cbn [fmap option_fmap option_map]. unfold chars. by rewrite Z.add_0_l, Nat2Z.id, nth_lookup, E.
  - rewrite lookup_seqZ_ge; [done|]. apply lookup_ge_None in E. lia.
Qed.

Lemma chars_byte (l : list Z) i : Forall (fun c => 0 <= c < 256) l -> 0 <= chars l i < 256.
Proof.
  intros H. unfold chars. destruct (Nat.lt_ge_cases (Z.to_nat i) (length l)); [|rewrite nth_overflow by lia; lia].
  apply (proj1 (List.Forall_forall _ _) H). by apply nth_In.
Qed.

Lemma length_dirent inum name : length (dirent inum name) = 16%nat.
Proof. unfold dirent. by rewrite length_fmap, length_seqZ. Qed.

Lemma strncpy_wf (n : nat) (m t : memory) (a : Z) : mem_wf m -> mem_wf (strncpy m a t n).
Proof.
  assert (HP : forall n m a, mem_wf m -> mem_wf (strncpy_pad m a n)) by (induction n0 as [|k IH]; intros m0 a0 H; cbn; [done|by apply IH, store8_wf]).
  revert m a t. induction n as [|n IH]; intros m a t H; cbn; [done|]. case_match; [by apply HP, store8_wf|by apply IH, store8_wf].
Qed.

Lemma mk_dirent_byte inum name i : 0 <= mk_dirent inum name i < 256.
Proof. unfold mk_dirent, enc_dirent, store16. apply store8_wf, store8_wf, strncpy_wf. intros x. lia. Qed.

(** ** Sums *)

Lemma fcost_app ty l l' : fcost (ty, l) <= fcost (ty, l ++ l').
Proof. unfold fcost. cbn. apply cost_mono. unfold nblk. rewrite length_app. zlia. Qed.

Lemma build_total files : forall rb rest, total ((T_DIR, rb) :: rest) <= total (build rb rest files).
Proof.
  induction files as [|f files IH]; intros rb rest; cbn [build]; [lia|]. etransitivity; [|apply IH]. cbn [total]. rewrite total_app. cbn [total].
  pose proof (fcost_app T_DIR rb (dirent (2 + Z.of_nat (length rest)) (stem f))). pose proof (fcost_nonneg (T_FILE, host_bytes f)). lia.
Qed.

Lemma length_build files : forall rb rest, length (build rb rest files) = (1 + length rest + length files)%nat.
Proof. induction files as [|f files IH]; intros rb rest; cbn [build]; [cbn; lia|]. rewrite IH, length_app. cbn. lia. Qed.

(** ** Adding the files *)

Lemma append_all_made (l : list (list Z)) : forall s fs i bs,
  made s fs -> fs !! i = Some (T_FILE, bs) -> Forall (fun c => 0 <= c < 256) (concat l) -> Z.of_nat (length (bs ++ concat l)) <= 71680 ->
  59 + total (<[i := (T_FILE, bs ++ concat l)]> fs) <= 1000 ->
  wp (append_all (1 + Z.of_nat i) l) (fun _ s' => made s' (<[i := (T_FILE, bs ++ concat l)]> fs)) s.
Proof.
  induction l as [|b l IH]; intros s fs i bs MD Hf HB Hl Ht; cbn [append_all concat] in *.
  { apply wp_ret. by rewrite app_nil_r, list_insert_id. }
  apply Forall_app in HB as [HB1 HB2]. rewrite app_assoc in *. pose proof (lookup_lt_Some _ _ _ Hf) as Hi.
  pose proof (fcost_app T_FILE (bs ++ b) (concat l)) as HC. rewrite length_app in Hl.
  wp_step. eapply wp_mono; [apply (iappend_made s fs i (T_FILE, bs) (chars b) (Z.of_nat (length b)) MD Hf)|]; cbn [fst snd]; rewrite ?chars_list.
  - intros x. by apply chars_byte.
  - lia.
  - rewrite length_app in Hl. lia.
  - rewrite (total_insert _ _ _ _ Hf) in Ht. rewrite (total_insert _ _ _ _ Hf). lia.
  - intros _ s1 MD1. rewrite <- (list_insert_insert_eq fs i _ (T_FILE, bs ++ b)). apply IH; [done|by apply list_lookup_insert_eq|done|by rewrite length_app|].
    by rewrite list_insert_insert_eq.
Qed.

Lemma add_file_made s rb rest f :
  let inum := 2 + Z.of_nat (length rest) in
  let fs' := (T_DIR, rb ++ dirent inum (stem f)) :: rest ++ [(T_FILE, host_bytes f)] in
  made s ((T_DIR, rb) :: rest) -> host_ok f -> (length rest < 198)%nat -> Z.of_nat (length rb) + 16 <= 71680 -> 59 + total fs' <= 1000 ->
  wp (add_file 1 f) (fun _ s' => made s' fs') s.
Proof.
  intros inum fs' MD [K1 K2 K3 K4 K5] Hr Hb Ht. destruct K3 as [reads ER]. unfold add_file.
  assert (existsb (fun c => c =? 47) (h_name f) = false) as ->.
  { apply not_true_is_false. intros (c & Hc & E)%existsb_exists. apply K2. apply Z.eqb_eq in E as <-. by apply list_elem_of_In. }
  assert (EB : host_bytes f = concat reads) by (unfold host_bytes; by rewrite ER). rewrite EB in K4, K5. subst fs'. rewrite EB in *.
  rewrite ER. fold (stem f). cbn [total] in Ht. rewrite total_app in Ht. cbn [total] in Ht.
  pose proof (fcost_nonneg (T_FILE, concat reads)) as HN. wp_step. eapply wp_mono; [apply (ialloc_made s _ T_FILE MD); [by right|cbn; lia]|].
  intros r s1 [-> MD1]. replace (1 + Z.of_nat (length ((T_DIR, rb) :: rest))) with inum in * by (cbn [length]; subst inum; lia).
  wp_step. eapply wp_mono; [apply (iappend_made s1 _ 0 (T_DIR, rb) (mk_dirent inum (stem f)) 16 MD1)|]; cbn [fst snd]; try done.
  - apply mk_dirent_byte.
  - fold (dirent inum (stem f)). cbn [app]. change (<[0%nat := ?x]> (_ :: ?l)) with (x :: l). cbn [total]. rewrite total_app. cbn [total].
    change (fcost (T_FILE, [])) with 0. lia.
  - fold (dirent inum (stem f)). cbn [app]. change (<[0%nat := ?x]> (_ :: ?l)) with (x :: l). intros _ s2 MD2.
    set (fs2 := _ :: _) in MD2. assert (Hi : fs2 !! S (length rest) = Some (T_FILE, [])).
    { change ((rest ++ [(T_FILE, [] : list Z)]) !! length rest = Some (T_FILE, [])). by rewrite lookup_app_r, Nat.sub_diag by lia. }
    assert (E2 : <[S (length rest) := (T_FILE, [] ++ concat reads)]> fs2 = (T_DIR, rb ++ dirent inum (stem f)) :: rest ++ [(T_FILE, concat reads)]).
    { subst fs2. change (<[S (length rest) := ?x]> (?y :: ?l)) with (y :: <[length rest := x]> l). f_equal. rewrite insert_app_r_alt, Nat.sub_diag by lia. done. }
    pose proof (append_all_made reads s2 fs2 (S (length rest)) [] MD2 Hi K4 K5) as HA. rewrite E2 in HA.
    replace (1 + Z.of_nat (S (length rest))) with inum in HA by (subst inum; lia). apply HA. cbn [total]. rewrite total_app. cbn [total]. lia.
Qed.

Lemma add_files_made files : forall s rb rest,
  made s ((T_DIR, rb) :: rest) -> Forall host_ok files -> (length rest + length files <= 198)%nat ->
  Z.of_nat (length rb) = 16 * (2 + Z.of_nat (length rest)) -> 59 + total (build rb rest files) <= 1000 ->
  wp (add_files 1 files) (fun _ s' => made s' (build rb rest files)) s.
Proof.
  induction files as [|f files IH]; intros s rb rest MD HK Hl Hb Ht; cbn [add_files build] in *; [by apply wp_ret|].
  apply Forall_cons in HK as [K1 K2]. cbn [length] in Hl. pose proof (build_total files (rb ++ dirent (2 + Z.of_nat (length rest)) (stem f)) (rest ++ [(T_FILE, host_bytes f)])) as HT.
  wp_step. eapply wp_mono; [apply (add_file_made s rb rest f MD K1); lia|]. intros [] s1 MD1.
  apply IH; [done|done|rewrite length_app; cbn; lia| |done]. rewrite !length_app, length_dirent. cbn [length]. lia.
Qed.
