(* ===== verification/MkfsThms.v ===== *)
(** * MkfsThms: the kernel's view of what [mkfs] has made *)
From stdpp Require Import base gmap list numbers strings.
From Stdlib Require Import ZArith Lia ZifyBool.
From S2P Require Import Prelude Machine Cstring LockThms Bio BioSpec Log LogSpec LogLoops LogThms Fs FsBlk FsAlloc FsInode FsFile FsWrite FsThms FsDir Mkfs MkfsAppend MkfsMade.

Implicit Types (I : Z -> memory) (d : dinode) (s : mkst) (fs : list (Z * list Z)).

(** ** The start *)

Lemma clear_sectors_spec (n : nat) : forall s i,
  0 <= i -> i + Z.of_nat n <= 1000 -> nsect s = i -> (forall b o, img s b o = 0) ->
  wp (clear_sectors i n) (fun _ s' => exists I, s' = set_img I (i + Z.of_nat n) s /\ forall b o, I b o = 0) s.
Proof.
  induction n as [|n IH]; intros s i Hi Hn HS HZ; cbn [clear_sectors].
  { apply wp_ret. exists (img s). split; [|done]. rewrite Z.add_0_r. subst i. by destruct s. }
  wp_step. unfold wsect. rewrite sector_id by lia. apply wp_modify. eapply wp_mono; [apply IH|].
  - lia.
  - lia.
  - cbn. lia.
  - intros b o. cbn. unfold bcopy. repeat case_match; done.
  - intros _ s' (I & -> & HI). exists I. split; [|done]. unfold set_img. cbn [msb freeinode freeblock]. by replace (i + 1 + Z.of_nat n) with (i + Z.of_nat (S n)) by lia.
Qed.

Lemma zero_inode I j : (forall b o, 0 <= o < 512 -> I b o = 0) -> 0 <= j -> d_type (inode_at I j) = 0.
Proof.
  intros H Hj. rewrite inode_at_eq. cbn. unfold load16. rewrite !H by zlia. done.
Qed.

(** The state once the superblock is written. *)
Lemma start_made I : (forall b o, I b o = 0) -> made (mkmk (put I 1 (enc_sb SB)) 1000 SB 1 59) [].
Proof.
  intros HZ. set (I' := put I 1 (enc_sb SB)). assert (HO : forall n, n <> 1 -> I' n = I n) by (intros n Hn; by apply put_ne).
  assert (H1 : same_block (I' 1) (enc_sb SB)) by apply put_eq.
  split; cbn [nsect msb freeinode freeblock img length total]; try done; try lia.
  - apply put_wf; [intros n o; rewrite HZ; lia|]. apply store_words_byte. intros x _. lia.
  - intros n Hn o Ho. rewrite HO by lia. apply HZ.
  - intros o Ho. rewrite HO by lia. apply HZ.
  - intros o Ho. rewrite HO by lia. apply HZ.
  - intros j Hj. assert (E : inode_at I' j = inode_at I j). { apply inode_at_same. rewrite HO; [done|]. destruct (iblock_SB j); lia. }
    rewrite E. apply zero_inode; [intros b o _; apply HZ|lia].
Qed.

(** ** The bitmap *)

Lemma mark_used_bit (n : nat) : forall (m : memory) i j, bit (mark_used m i n) j = ((i <=? j) && (j <? i + Z.of_nat n)) || bit m j.
Proof.
  induction n as [|n IH]; intros m i j; cbn [mark_used].
  - by replace ((i <=? j) && (j <? i + Z.of_nat 0)) with false by lia.
  - rewrite IH, bit_set. destruct (bit m j); [by rewrite !orb_true_r|]. rewrite !orb_false_r. lia.
Qed.

Lemma mark_used_byte (n : nat) : forall m i, mem_wf m -> mem_wf (mark_used m i n).
Proof. induction n as [|n IH]; intros m i H; cbn; [done|]. by apply IH, store8_wf. Qed.

(** ** The image as a file system *)

(** The size in the inode of a file: that of the root is rounded. *)
Definition final_size (i : nat) (f : Z * list Z) : Z :=
  if decide (i = 0%nat) then (Z.of_nat (length f.2) / 512 + 1) * 512 else Z.of_nat (length f.2).

Record fs_image I (fb : Z) fs : Prop := mkfs_image {
  im_blk : blk_ok (mount I) SB;
  im_used : forall b, 0 <= b < 1000 -> used (mount I) SB b = (b <? fb);
  im_type : forall i f, fs !! i = Some f -> d_type (inode_at I (1 + Z.of_nat i)) = f.1 /\ d_nlink (inode_at I (1 + Z.of_nat i)) = 1;
  im_size : forall i f, fs !! i = Some f -> d_size (inode_at I (1 + Z.of_nat i)) =
    final_size i f;
  im_ino : forall i f, fs !! i = Some f -> ino_ok (mount I) SB (inode_at I (1 + Z.of_nat i));
  im_bytes : forall i f, fs !! i = Some f -> forall o, 0 <= o < MAXFILE * BSIZE ->
    content (mount I) (inode_at I (1 + Z.of_nat i)) o = nth (Z.to_nat o) f.2 0;
  im_blocks : forall i f, fs !! i = Some f -> forall o, 0 <= o < 512 * nblk (Z.of_nat (length f.2)) ->
    blockof (mount I) (inode_at I (1 + Z.of_nat i)) (o / BSIZE) <> 0;
  im_apart : forall i j n, (i < length fs)%nat -> (j < length fs)%nat -> i <> j ->
    own I (inode_at I (1 + Z.of_nat i)) n -> ~ own I (inode_at I (1 + Z.of_nat j)) n;
  im_free : forall j, Z.of_nat (length fs) < j < 200 -> d_type (inode_at I j) = 0;
  im_log : same_block (I 2) (fun _ => 0);
}.

Lemma mount_inv I : dec_head (I 2) = [] -> loginv (mount I).
Proof.
  intros HH. assert (HB : forall i b, bufs (lbc (mount I)) !! i = Some b -> b = buf0) by (intros i b H%lookup_replicate; apply H).
  split; [|split; cbn; unfold LOGSIZE, MAXOPBLOCKS, FSSIZE; lia|done| | |done].
  - split; [done|apply NoDup_seq| | |].
    + intros i. cbn -[seq]. rewrite elem_of_seq. lia.
    + intros i b ->%HB. split; try done. cbv. tauto.
    + intros i j b c ->%HB _. done.
  - split; cbn; [apply NoDup_nil_2|set_solver..|lia].
  - intros n. split; [|set_solver]. by intros (i & b & ->%HB & Dv & _).
Qed.

Lemma mount_used I b : 0 <= b < 1000 -> used (mount I) SB b = bit (I 58) b.
Proof.
  intros H. unfold used, BBLOCK. cbn [sb_bmapstart SB]. change BPB with 4096. rewrite mount_view.
  replace (b / 4096) with 0 by zlia. rewrite Z.mod_small by lia. reflexivity.
Qed.

Lemma mount_ok I fb :
  dec_head (I 2) = [] -> dec_sb (I 1) = SB -> all_wf I -> (forall b, 0 <= b < 1000 -> bit (I 58) b = (b <? fb)) -> 59 <= fb -> blk_ok (mount I) SB.
Proof.
  intros H2 H1 HW HU Hfb. split; [by apply mount_inv| |done| | | |done].
  - split; vm_compute; repeat split; congruence.
  - intros b Hb. change (datastart SB) with 59 in Hb. rewrite mount_used, HU by lia. lia.
  - intros n o _ _. rewrite mount_view. apply HW.
  - intros i b H%lookup_replicate. destruct H as [-> _]. done.
Qed.

Lemma holds_ino I fb d nb ix bs : holds I fb d nb ix bs -> fb <= 1000 -> (forall b, 0 <= b < 1000 -> bit (I 58) b = (b <? fb)) -> ino_ok (mount I) SB d.
Proof.
  intros H Hfb HU. pose proof H as [H1 H2 H3 H4 H5 H6 H7 H8 H9].
  assert (HD : forall a, 59 <= a < fb -> data_block (mount I) SB a).
  { intros a Ha. split; [change (datastart SB) with 59; cbn; lia|]. rewrite mount_used, HU by lia. lia. }
  assert (HN : forall bn, 0 <= bn < MAXFILE -> blockof (mount I) d bn <> 0 -> bn < nb).
  { intros bn Hb Hn. change MAXFILE with 140 in Hb. destruct (Z.lt_ge_cases bn nb); [done|]. by rewrite H5 in Hn by lia. }
  split; [done| | | |].
  - intros bn Hb Hn. apply HD, H4. specialize (HN bn Hb Hn). lia.
  - intros Hn. apply HD. destruct ix; [done|]. by destruct H6.
  - intros b1 b2 Hb1 Hb2 Hn E. pose proof (HN b1 Hb1 Hn). pose proof (HN b2 Hb2 ltac:(congruence)). apply H7; [lia|lia|done].
  - intros bn Hb Hn. apply H8. specialize (HN bn Hb Hn). lia.
Qed.

Lemma holds_content I fb d nb ix bs o : holds I fb d nb ix bs -> 0 <= o < MAXFILE * BSIZE -> content (mount I) d o = nth (Z.to_nat o) bs 0.
Proof.
  intros H Ho. change (MAXFILE * BSIZE) with 71680 in Ho. unfold content. unfold BSIZE. destruct (Z.lt_ge_cases (o / 512) nb) as [Hlt|Hge].
  - pose proof (hd_blk _ _ _ _ _ _ H (o / 512) ltac:(zlia)) as Hr. replace (blockof (mount I) d (o / 512) =? 0) with false by lia.
    rewrite mount_view, (hd_bytes _ _ _ _ _ _ H) by zlia. f_equal. f_equal. zlia.
  - rewrite (hd_none _ _ _ _ _ _ H) by zlia. cbn. pose proof (hd_size _ _ _ _ _ _ H). rewrite nth_overflow by zlia. done.
Qed.

(** The image once the size of the root is rounded and the bitmap written. *)
Record final s (z : Z) I : Prop := mkfinal {
  fn_wf : all_wf I;
  fn_super : I 1 = img s 1;
  fn_log : I 2 = img s 2;
  fn_bits : forall b, 0 <= b < 1000 -> bit (I 58) b = (b <? freeblock s);
  fn_root : inode_at I 1 = set_size z (inode_at (img s) 1);
  fn_inode : forall j, 0 <= j < 200 -> j <> 1 -> inode_at I j = inode_at (img s) j;
  fn_data : forall n, 59 <= n -> I n = img s n;
}.

Lemma final_intro s I1 (z : Z) :
  all_wf (img s) -> 0 <= freeblock s -> inode_set (img s) I1 1 (set_size z (inode_at (img s) 1)) ->
  final s z (put I1 58 (mark_used (fun _ => 0) 0 (Z.to_nat (freeblock s)))).
Proof.
  intros HW Hfb [W1 W2 W3 W4]. set (m := mark_used _ _ _). set (I2 := put I1 58 m).
  assert (HO : forall n, n <> 58 -> I2 n = I1 n) by (intros n Hn; by apply put_ne).
  assert (HI : forall j, 0 <= j < 200 -> inode_at I2 j = inode_at I1 j).
  { intros j Hj. apply inode_at_same. rewrite HO; [done|]. destruct (iblock_SB j Hj). lia. }
  split.
  - apply put_wf; [done|]. intros x _. apply mark_used_byte. intros y. lia.
  - rewrite HO by lia. apply W4. lia.
  - rewrite HO by lia. apply W4. lia.
  - intros b Hb. transitivity (bit m b).
    + unfold bit. unfold I2. rewrite put_eq by (unfold BSIZE; zlia). done.
    + unfold m. rewrite mark_used_bit. change (bit (fun _ => 0) b) with false. lia.
  - by rewrite HI by lia.
  - intros j Hj Hne. rewrite HI by lia. by apply W3.
  - intros n Hn. rewrite HO by lia. apply W4. lia.
Qed.

Lemma final_file s fs rb I i f :
  made s fs -> fs !! 0%nat = Some (T_DIR, rb) -> final s (final_size 0 (T_DIR, rb)) I -> fs !! i = Some f ->
  let d := inode_at (img s) (1 + Z.of_nat i) in let nb := nblk (Z.of_nat (length f.2)) in
  inode_at I (1 + Z.of_nat i) = set_size (final_size i f) d /\ is_file (img s) (freeblock s) d f /\
  holds I (freeblock s) d nb (12 <? nb) f.2 /\ forall n, own I d n -> own (img s) d n.
Proof.
  intros MD HR [N1 N2 N3 N4 N5 N6 N7] Hf d nb. pose proof (lookup_lt_Some _ _ _ Hf) as Hi. pose proof (md_file _ _ MD _ _ Hf) as F. pose proof (md_bound _ _ MD) as HB.
  split; [|split; [done|]].
  - destruct (decide (i = 0%nat)) as [->|Hne].
    + rewrite HR in Hf. injection Hf as <-. apply N5.
    + unfold final_size. rewrite decide_False by done. rewrite N6 by lia. rewrite <- (if_size _ _ _ _ F). fold d. by destruct d.
  - apply (holds_still (img s) I (freeblock s)); [apply F|lia|]. intros n Hn. apply N7. pose proof (made_own s fs i n MD Hi Hn). lia.
Qed.

Lemma own_size I z d n : own I (set_size z d) n <-> own I d n.
Proof. done. Qed.

Lemma final_image s fs rb I :
  made s fs -> fs !! 0%nat = Some (T_DIR, rb) -> final s (final_size 0 (T_DIR, rb)) I -> fs_image I (freeblock s) fs.
Proof.
  intros MD HR FN. pose proof MD as [M1 M2 M3 M4 M5 M6 M7 M8 M9 M10 M11 M12 M13 M14]. pose proof FN as [N1 N2 N3 N4 N5 N6 N7].
  pose proof (file_total_nonneg fs) as HT0. pose proof (fun i f => final_file s fs rb I i f MD HR FN) as HF. split.
  - apply (mount_ok I (freeblock s)); [|by rewrite N2|done|done|lia]. unfold dec_head. rewrite N3.
    rewrite (load32_same (fun _ => 0) (img s 2)) by (intros x Hx; apply M9; unfold BSIZE; lia). done.
  - intros b Hb. by rewrite mount_used, N4.
  - intros i f Hf. destruct (HF i f Hf) as (-> & F & _). split; apply F.
  - intros i f Hf. destruct (HF i f Hf) as (-> & F & _). done.
  - intros i f Hf. destruct (HF i f Hf) as (-> & F & H & _). eapply holds_ino; [apply holds_size, H|lia|done].
  - intros i f Hf o Ho. destruct (HF i f Hf) as (-> & F & H & _). eapply holds_content; [apply holds_size, H|done].
  - intros i f Hf o Ho. destruct (HF i f Hf) as (-> & F & H & _). pose proof (hd_blk _ _ _ _ _ _ (holds_size (final_size i f) _ _ _ _ _ _ H) (o / BSIZE)) as HB.
    unfold BSIZE in *. zlia.
  - intros i j n [f Hf]%lookup_lt_is_Some_2 [g Hg]%lookup_lt_is_Some_2 Hne. destruct (HF i f Hf) as (-> & _ & _ & H1), (HF j g Hg) as (-> & _ & _ & H2).
    rewrite !own_size. intros Hn%H1 Hm%H2. exact (M13 i j n (lookup_lt_Some _ _ _ Hf) (lookup_lt_Some _ _ _ Hg) Hne Hn Hm).
  - intros j Hj. destruct fs; [done|]. cbn [length] in *. rewrite N6 by lia. by apply M14.
  - by rewrite N3.
Qed.

(** ** The whole program *)

Lemma built_root files : exists rb, built files !! 0%nat = Some (T_DIR, rb).
Proof.
  unfold built. generalize (dirent 1 [46] ++ dirent 1 [46; 46]) ([] : list (Z * list Z)). induction files as [|f files IH]; intros rb rest; cbn [build]; [by exists rb|apply IH].
Qed.

Lemma dinode_ok_size z d : dinode_ok d -> word z -> dinode_ok (set_size z d).
Proof. by intros []; split. Qed.

(** The two entries of the root. *)
Lemma root_made s (k : Z -> MK unit) (Q : unit -> mkst -> Prop) :
  made s [] -> 59 + total [(T_DIR, dirent 1 [46] ++ dirent 1 [46; 46])] <= 1000 ->
  (forall s', made s' [(T_DIR, dirent 1 [46] ++ dirent 1 [46; 46])] -> wp (k 1) Q s') ->
  wp (let! rootino := mk_ialloc T_DIR in
      if negb (rootino =? ROOTINO) then panic "assert"
      else iappend rootino (mk_dirent rootino [46]) 16 ;;; iappend rootino (mk_dirent rootino [46; 46]) 16 ;;; k rootino) Q s.
Proof.
  intros MD Ht HQ. wp_step. eapply wp_mono; [apply (ialloc_made s [] T_DIR MD); [by left|cbn; lia]|]. intros r s1 [-> MD1]. change (1 + Z.of_nat (length [])) with 1.
  change (negb (1 =? ROOTINO)) with false. cbv iota. cbn [app] in MD1.
  pose proof (fcost_app T_DIR (dirent 1 [46]) (dirent 1 [46; 46])) as HC. cbn [total] in Ht.
  wp_step. eapply wp_mono; [apply (iappend_made s1 _ 0 (T_DIR, []) (mk_dirent 1 [46]) 16 MD1 eq_refl)|].
  - intros x. apply mk_dirent_byte.
  - lia.
  - cbn. lia.
  - change (59 + total [(T_DIR, dirent 1 [46])] <= 1000). cbn [total]. lia.
  - intros [] s2 MD2. wp_step. eapply wp_mono; [apply (iappend_made s2 _ 0 (T_DIR, dirent 1 [46]) (mk_dirent 1 [46; 46]) 16 MD2 eq_refl)|].
    + intros x. apply mk_dirent_byte.
    + lia.
    + cbn [fst snd]. rewrite length_dirent. lia.
    + exact Ht.
    + intros [] s3 MD3. apply HQ. exact MD3.
Qed.

Lemma mkfs_spec files :
  Forall host_ok files -> (length files <= 198)%nat -> 59 + total (built files) <= 1000 ->
  wp (mkfs_main files) (fun _ s => nsect s = 1000 /\ fs_image (img s) (freeblock s) (built files)) mk_start.
Proof.
  intros HK Hl Ht. unfold mkfs_main. change (mksb (xint FSSIZE) _ _ _ _ _ _) with SB. do 2 (wp_step; apply wp_modify).
  wp_step. eapply wp_mono; [by apply clear_sectors_spec|]. intros [] s0 (I & -> & HZ). change (0 + Z.of_nat (Z.to_nat FSSIZE)) with 1000.
  wp_step. apply wp_wsect; [cbn; lia|cbn; lia|]. pose proof (start_made I HZ) as MD.
  set (s1 := set_img (put _ 1 _) _ _). change (mkmk _ 1000 SB 1 59) with s1 in MD. clearbody s1. clear I HZ.
  pose proof (build_total files (dirent 1 [46] ++ dirent 1 [46; 46]) []) as HB. fold (built files) in HB.
  destruct (built_root files) as [rb Hrb]. apply root_made; [done|lia|]. clear s1 MD. intros s2 MD.
  wp_step. eapply wp_mono; [apply (add_files_made files s2 _ [] MD HK)|].
  { cbn. lia. }
  { rewrite length_app, !length_dirent. done. }
  { done. }
  fold (built files). clear s2 MD. intros [] s MD. pose proof MD as [M1 M2 M3 M4 M5 M6 M7 M8 M9 M10 M11 M12 M13 M14]. pose proof (M12 _ _ Hrb) as F. change (1 + Z.of_nat 0) with 1 in F.
  pose proof (hd_nb _ _ _ _ _ _ (if_holds _ _ _ _ F)) as Hnb. unfold nblk in Hnb. cbn [snd] in Hnb.
  wp_step. apply wp_rinode; try done. rewrite (if_size _ _ _ _ F). cbn [snd]. rewrite (xint_id (Z.of_nat _)) by zlia. rewrite xint_id by (unfold BSIZE; zlia).
  wp_step. apply wp_winode; try done.
  { apply dinode_ok_size; [|unfold word, BSIZE; zlia]. apply (file_dinode _ _ _ _ F); [lia|by left|cbn; zlia]. }
  intros I1 HI. wp_step. apply wp_gets. change (freeblock (moved I1 (freeblock s) s)) with (freeblock s). pose proof (file_total_nonneg (built files)) as HT.
  unfold mk_balloc. replace (BSIZE * 8 <=? freeblock s) with false by (unfold BSIZE; lia). wp_step. apply wp_gets. cbn [msb moved set_freeblock set_img]. rewrite M2.
  apply wp_wsect; [cbn; lia|cbn; lia|]. cbn [img nsect freeblock moved set_freeblock set_img sb_bmapstart SB]. split; [done|].
  apply (final_image s (built files) rb); [done|done|]. apply final_intro; [done|lia|exact HI].
Qed.

(** C22. [mkfs] makes a file system the kernel can use.  From the files of the
    host, whose names have no [/] and whose bytes fit, the program always ends;
    the image has its thousand blocks; its superblock, log, bitmap and inodes
    are those the kernel's invariants ask for; exactly the blocks below
    [freeblock] are marked in use; the inode of each file has its type, one
    link, its size and its bytes, and blocks shared with no other file; every
    inode after them is free. *)
Theorem mkfs_makes_image files :
  Forall host_ok files -> (length files <= 198)%nat -> 59 + total (built files) <= 1000 ->
  wp (mkfs_main files) (fun _ s => nsect s = 1000 /\ fs_image (img s) (freeblock s) (built files)) mk_start.
Proof. apply mkfs_spec. Qed.
