(* ===== verification/ForkRet.v ===== *)
(** * ForkRet: the first process starts the file system ([forkret] of [proc.c])

    [forkret] reads the superblock and runs the recovery of the log, once.  Here
    it is run on a disk whose log is empty: all that changes is the first word
    of the header, which is written again. *)
From stdpp Require Import base gmap list numbers strings.
From Stdlib Require Import ZArith Lia ZifyBool.
From S2P Require Import Prelude Machine LockThms Bio BioSpec Log LogSpec LogLoops LogThms Fs.

(** ** [pinit] and [forkret] *)

(** Its static variable, whether [ptable.lock] is held, and the file system. *)
Record fkst := mkfk { fk_first : bool; fk_locked : bool; fk_fs : fsst }.
Definition set_fs (x : fsst) (s : fkst) : fkst := mkfk (fk_first s) (fk_locked s) x.

Section Fork.
Context `{D : Disk} `{V : DevSw}.

Definition pinit : M fkst unit := modify (fun s => mkfk (fk_first s) false (fk_fs s)).

Definition onfs {A} (c : MF A) : M fkst A := zoom fk_fs set_fs c.

Definition forkret : M fkst unit :=
  let! l := gets fk_locked in
  (if l then modify (fun s => mkfk (fk_first s) false (fk_fs s)) else panic "release") ;;;
  let! first := gets fk_first in
  when first (
    modify (fun s => mkfk false (fk_locked s) (fk_fs s)) ;;;
    onfs (iinit ROOTDEV) ;;;
    onfs (onlog (initlog ROOTDEV))).

(** ** Reading and releasing a block *)

Lemma look_moves (s : bcst) (n : Z) : binv s -> all_idle s -> (0 < spare s)%nat -> 0 <= n < disksize ->
  wp (let! i := bread 1 n in let! b := getb i in brelse i ;;; ret (b_data b)) (fun m c => same_block m (view s n) /\ moves s c []) s.
Proof.
  intros I HI HS Hn. bstep. eapply wp_mono; [apply read_alike; try done; [by apply idle_unheld|by left]|].
  intros i s1 (b & u & A1 & H1 & B1 & S1 & U1 & D1 & Y1 & _). bstep. eapply wp_getb; [apply H1|]. bstep.
  eapply wp_mono; [apply (release_alike s1 i n b); [apply A1|done|by rewrite (al_disk _ _ A1)]|].
  intros _ c (A2 & B2 & S2). pose proof (alike_trans _ _ _ A1 A2) as A. apply wp_ret. split; [done|]. split; try apply A.
  - intros j x Hx. rewrite B2 in Hx. apply list_lookup_insert_Some in Hx as [(_ & <- & _)|(Hj & Hx)]; [done|].
    rewrite B1, list_lookup_insert_ne in Hx by done. by apply (HI j x).
  - destruct u; rewrite ?U1 in S2 by done; cbn in S1, S2; lia.
  - intros k. rewrite (al_dirty _ _ A). pose proof (not_elem_of_nil k). cbn. tauto.
  - by intros _ t m ?%not_elem_of_nil.
  - intros k _. apply A.
Qed.

Lemma dec_sb_same (m m' : memory) : same_block m' m -> dec_sb m' = dec_sb m.
Proof. intros H. unfold dec_sb. f_equal; apply load32_same; intros o Ho; apply H; unfold BSIZE; lia. Qed.

Lemma readsb_moves (s : bcst) : binv s -> all_idle s -> (0 < spare s)%nat -> 1 < disksize ->
  wp (readsb 1) (fun sb c => sb = dec_sb (view s 1) /\ moves s c []) s.
Proof.
  intros I HI HS Hn. pose proof (look_moves s 1 I HI HS ltac:(lia)) as H. unfold wp, readsb, bind, ret in *.
  destruct (bread 1 1 s) as [i c| | | |]; try done. destruct (getb i c) as [b c2| | | |]; try done. destruct (brelse i c2) as [[] c3| | | |]; try done.
  destruct H as [H HM]. split; [by apply dec_sb_same|done].
Qed.

(** ** Recovery of an empty log *)

Lemma recover_empty (s : lgst) :
  binv (lbc s) -> all_idle (lbc s) -> (0 < spare (lbc s))%nat -> placed s -> dec_head (view (lbc s) (l_start s)) = [] ->
  wp recover_from_log (fun _ s' => exists m0 c, s' = set_lbc c (set_blocks [] s) /\
    moves (lbc s) c [(l_start s, enc_head m0 [])] /\ same_block m0 (view (lbc s) (l_start s))) s.
Proof.
  intros I HI HS P HE. unfold recover_from_log. wp_step. eapply wp_mono; [apply read_head_spec; try done; rewrite HE; unfold LOGSIZE, MAXOPBLOCKS; cbn; lia|]. rewrite HE.
  intros _ s1 (c1 & -> & M1). pose proof (ms_spare _ _ _ M1) as S1. wp_step. apply (wp_from_Ok install_trans _ _ tt (set_lbc c1 (set_blocks [] s))); [done|].
  wp_step. apply wp_modify. eapply wp_mono; [apply write_head_keeps; cbn; try apply M1; [lia|by apply (placed_same s)]|].
  cbn [lbc l_blocks l_start set_lbc set_blocks]. intros _ s2 (m0 & c2 & -> & M2 & H0). exists m0, c2. split_and!; [done|by apply (moves_app _ _ _ [] _ M1)|].
  rewrite H0. apply (ms_views _ _ _ M1). set_solver.
Qed.

Lemma initlog_spec (s : lgst) sb :
  binv (lbc s) -> all_idle (lbc s) -> (0 < spare (lbc s))%nat -> 1 < disksize -> dec_sb (view (lbc s) 1) = sb ->
  let s0 := set_geometry (sb_logstart sb) (sb_nlog sb) 1 (set_l_lock false s) in placed s0 -> dec_head (view (lbc s) (sb_logstart sb)) = [] ->
  wp (initlog 1) (fun _ s' => exists m0 c, s' = set_lbc c (set_blocks [] s0) /\
    moves (lbc s) c [(sb_logstart sb, enc_head m0 [])] /\ same_block m0 (view (lbc s) (sb_logstart sb))) s.
Proof.
  intros I HI HS HD ESB s0 P HE. unfold initlog. wp_step. apply wp_modify. wp_step. apply wp_zoom. eapply wp_mono; [by apply readsb_moves|].
  cbn [lbc set_l_lock]. rewrite ESB. intros r c1 [-> M1]. pose proof (ms_spare _ _ _ M1) as S1. wp_step. apply wp_modify.
  eapply wp_mono; [apply recover_empty; cbn; try apply M1; [lia|by apply (placed_same s0)|]|].
  - rewrite <- HE. apply dec_head_same; [symmetry; apply (ms_views _ _ _ M1); set_solver|rewrite HE; cbn; lia].
  - cbn [lbc l_start set_lbc set_geometry set_l_lock]. intros _ s' (m0 & c & -> & M2 & H0). exists m0, c. split_and!; [done|by apply (moves_app _ _ _ [] _ M1)|].
    rewrite H0. apply (ms_views _ _ _ M1). set_solver.
Qed.

(** ** The start *)

(** A file system that nothing has used yet, on the disk [d]. *)
Record cold (s : fsst) (d : Z -> memory) sb : Prop := mkcold {
  co_bc : binv (lbc (flog s));
  co_idle : all_idle (lbc (flog s));
  co_spare : (0 < spare (lbc (flog s)))%nat;
  co_clean : forall k, ~ isdirty (lbc (flog s)) k;
  co_disk : disk (lbc (flog s)) = d;
  co_size : 1 < disksize;
  co_sb : dec_sb (d 1) = sb;
  co_placed : placed (set_geometry (sb_logstart sb) (sb_nlog sb) 1 (flog s));
  co_head : dec_head (d (sb_logstart sb)) = [];
}.

(** What [forkret] leaves: the superblock read, the log in order and empty, the
    inode cache fresh, and on the disk the header rewritten. *)
Record ready (s : fsst) (d : Z -> memory) sb (s' : fsst) : Prop := mkready {
  re_fs : s' = mkfs (flog s') sb (set_ilock (initsleeplock "inode") <$> icache s) false (cwd s);
  re_log : flog s' = set_lbc (lbc (flog s')) (set_blocks [] (set_geometry (sb_logstart sb) (sb_nlog sb) 1 (set_l_lock false (flog s))));
  re_moves : exists m0, moves (lbc (flog s)) (lbc (flog s')) [(sb_logstart sb, enc_head m0 [])] /\ same_block m0 (d (sb_logstart sb));
}.

Theorem forkret_starts (s : fsst) (d : Z -> memory) sb : cold s d sb ->
  wp forkret (fun _ k => fk_first k = false /\ fk_locked k = false /\ ready s d sb (fk_fs k)) (mkfk true true s).
Proof.
  intros [C1 C2 C3 C4 <- C6 C7 C8 C9]. unfold forkret. apply wp_bind, wp_gets, wp_bind. cbn [fk_locked]. apply wp_modify, wp_bind, wp_gets. cbn [fk_first fk_fs].
  apply wp_when; [intros _|done]. apply wp_bind, wp_modify, wp_bind, wp_zoom. unfold ROOTDEV, iinit. do 2 (wp_step; apply wp_modify). wp_step.
  unfold onbuf, onlog, onbc. do 2 apply wp_zoom. assert (HV : forall k, same_block (view (lbc (flog s)) k) (disk (lbc (flog s)) k)).
  { intros k. apply clean_synced; [done|by apply idle_unheld|apply C4]. }
  cbn [fk_fs set_fs flog lbc set_icache set_ic_lock]. eapply wp_mono; [by apply readsb_moves|]. intros r c1 [-> M1]. rewrite (dec_sb_same _ _ (HV 1)), C7.
  apply wp_modify. apply wp_zoom, wp_zoom. pose proof (ms_spare _ _ _ M1) as S1. assert (HV1 : forall k, same_block (view c1 k) (disk (lbc (flog s)) k)).
  { intros k. rewrite (ms_views _ _ _ M1) by set_solver. apply HV. }
  eapply wp_mono; [apply (initlog_spec _ sb); cbn [fk_fs set_fs flog lbc set_flog set_lbc set_icache set_ic_lock set_fsb]; try apply M1; try done; [lia|by rewrite (dec_sb_same _ _ (HV1 1))|by apply (placed_same (set_geometry (sb_logstart sb) (sb_nlog sb) 1 (flog s)))|]|].
  { rewrite <- C9. apply dec_head_same; [symmetry; apply HV1|by rewrite C9]. }
  cbn [fk_fs set_fs flog lbc set_flog set_lbc set_icache set_ic_lock set_fsb]. intros _ l (m0 & c & -> & M2 & H0). split_and!; [done..|]. split; [done|done|].
  exists m0. split; [by apply (moves_app _ _ _ [] _ M1)|]. by rewrite H0.
Qed.

Lemma forkret_later (s : fkst) : fk_first s = false -> fk_locked s = true -> forkret s = Ok tt (mkfk false false (fk_fs s)).
Proof. destruct s as [f l x]. cbn. by intros -> ->. Qed.
End Fork.
