(* ===== verification/MkfsRead.v ===== *)
(** * MkfsRead: the kernel finds and reads the files [mkfs] has put on the disk *)
From stdpp Require Import base gmap list numbers strings.
From Stdlib Require Import ZArith Lia ZifyBool.
From S2P Require Import Prelude Machine Cstring LockThms Bio BioSpec Log LogSpec LogLoops LogThms Fs FsBlk FsAlloc FsInode FsFile FsWrite FsThms FsDir Mkfs MkfsAppend MkfsMade MkfsThms ForkRet.

Implicit Types (I : Z -> memory) (d : dinode) (s : fsst) (files : list hostfile) (f : hostfile).

(** ** The entries of the root *)

Definition root_entries files : list (list Z) :=
  dirent 1 [46] :: dirent 1 [46; 46] :: imap (fun i f => dirent (2 + Z.of_nat i) (stem f)) files.

Lemma build_eq files : forall rb rest,
  build rb rest files = (T_DIR, rb ++ concat (imap (fun i f => dirent (2 + Z.of_nat (length rest + i)) (stem f)) files)) :: rest ++ ((fun f => (T_FILE, host_bytes f)) <$> files).
Proof.
  induction files as [|f files IH]; intros rb rest; cbn [build]; [by rewrite !app_nil_r|].
  rewrite IH. rewrite imap_cons. cbn [concat fmap list_fmap]. rewrite <- !app_assoc. rewrite Nat.add_0_r. f_equal. f_equal. f_equal. f_equal. f_equal.
  apply imap_ext. intros i x _. unfold compose. rewrite length_app. cbn [length]. f_equal. lia.
Qed.

Lemma built_eq files : built files = (T_DIR, concat (root_entries files)) :: ((fun f => (T_FILE, host_bytes f)) <$> files).
Proof. unfold built. rewrite build_eq. unfold root_entries. cbn [concat length app Nat.add]. by rewrite <- app_assoc. Qed.

(** Entry [k] of a directory of entries of sixteen bytes. *)
Lemma entry_at (l : list (list Z)) : forall k, Forall (fun e => length e = 16%nat) l ->
  (fun o => nth (Z.to_nat o) (concat l) 0) <$> seqZ (16 * Z.of_nat k) 16 = default (replicate 16 0) (l !! k).
Proof.
  induction l as [|e l IH]; intros k HL.
  - cbn [concat]. rewrite lookup_nil. cbn [default]. apply list_eq_same_length with 16%nat; [done|by rewrite length_fmap, length_seqZ|].
    intros i x y Hi Hx Hy. apply lookup_replicate in Hy as [-> _]. apply list_lookup_fmap_Some in Hx as (o & -> & _). by destruct (Z.to_nat o).
  - apply Forall_cons in HL as [He HL]. cbn [concat]. destruct k as [|k].
    + change (default _ ((e :: l) !! 0%nat)) with e. apply list_eq_same_length with 16%nat; [done|by rewrite length_fmap, length_seqZ|].
      intros i x y Hi Hx Hy. apply list_lookup_fmap_Some in Hx as (o & -> & Ho). apply lookup_seqZ in Ho as [-> Ho].
      replace (Z.to_nat _) with i by lia. rewrite app_nth1 by lia. by rewrite nth_lookup, Hy.
    + change ((e :: l) !! S k) with (l !! k). rewrite <- (IH k HL). apply list_eq. intros i. rewrite !list_lookup_fmap. destruct (decide (i < 16)%nat) as [Hi|Hi].
      * rewrite (proj2 (lookup_seqZ (16 * Z.of_nat (S k)) _ _ (16 * Z.of_nat (S k) + Z.of_nat i))) by lia.
        rewrite (proj2 (lookup_seqZ (16 * Z.of_nat k) _ _ (16 * Z.of_nat k + Z.of_nat i))) by lia. cbn [fmap option_fmap option_map]. rewrite app_nth2 by lia. do 2 f_equal. lia.
      * by rewrite !lookup_seqZ_ge by lia.
Qed.

Lemma root_entries_len files : Forall (fun e => length e = 16%nat) (root_entries files).
Proof.
  repeat (apply Forall_cons; split; [apply length_dirent|]). apply Forall_lookup. intros i e He.
  apply list_lookup_imap_Some in He as (f & _ & ->). apply length_dirent.
Qed.
Lemma length_concat16 (l : list (list Z)) : Forall (fun e => length e = 16%nat) l -> length (concat l) = (16 * length l)%nat.
Proof. induction 1 as [|e l H1 H2 IH]; cbn [concat length]; [done|]. rewrite length_app, H1. lia. Qed.
Lemma length_root files : length (root_entries files) = (2 + length files)%nat.
Proof. cbn. by rewrite length_imap. Qed.

(** ** Names *)

(** What a directory keeps of the name of a file. *)
Definition short (name : list Z) : list Z := take 14 name.

Lemma chars_len (l : list Z) : Forall (fun c => 0 < c < 256) l -> cstr_len (chars l) (Z.of_nat (length l)).
Proof.
  intros H. rewrite Forall_lookup in H. unfold chars. split_and!; [lia| |].
  - by rewrite nth_overflow by lia.
  - intros j Hj. destruct (lookup_lt_is_Some_2 l (Z.to_nat j)) as [c Hc]; [lia|]. rewrite nth_lookup, Hc. specialize (H _ _ Hc). cbn. lia.
Qed.

(** The characters of an entry are those of the name, then zeros. *)
Lemma dirent_char inum (l : list Z) i : Forall (fun c => 0 < c < 256) l -> 0 <= i < 14 -> de_name (dirent inum l) i = chars (short l) i.
Proof.
  intros Hl Hi. unfold de_name, dirent. rewrite nth_lookup, list_lookup_fmap, (proj2 (lookup_seqZ _ _ _ (2 + i))) by lia. cbn [fmap option_fmap option_map default].
  unfold mk_dirent, enc_dirent, store16. rewrite !store8_ne by lia. change (Z.to_nat DIRSIZ) with 14%nat.
  rewrite (strncpy_spec 14 _ 2 (chars l) (Z.of_nat (length l))).
  - replace ((2 <=? 2 + i) && (2 + i <? 2 + Z.of_nat 14)) with true by lia. replace (2 + i - 2) with i by lia. unfold chars, short.
    rewrite !nth_lookup, lookup_take_lt by lia. destruct (Z.ltb_spec i (Z.of_nat (length l))) as [H|H]; [done|]. by rewrite lookup_ge_None_2 by lia.
  - intros x. apply chars_byte. eapply Forall_impl; [exact Hl|]. cbn. lia.
  - by apply chars_len.
Qed.

Lemma dirent_inum inum (l : list Z) : 0 <= inum < 65536 -> de_inum (dirent inum l) = inum.
Proof.
  intros H. unfold de_inum, dirent, mk_dirent, enc_dirent, store16. change (seqZ 0 16) with (0 :: 1 :: seqZ 2 14). cbn [fmap list_fmap nth].
  rewrite xshort_id by lia. rewrite store8_eq, store8_ne, store8_eq by lia. unfold u8. zlia.
Qed.

Lemma chars_short (l : list Z) i : 0 <= i < 14 -> chars (short l) i = chars l i.
Proof. intros H. unfold chars, short. rewrite !nth_lookup, lookup_take_lt by lia. done. Qed.

(** [namecmp] on an entry compares the short names. *)
Lemma named_dirent inum (l l' : list Z) :
  Forall (fun c => 0 < c < 256) l -> Forall (fun c => 0 < c < 256) l' -> 0 < inum < 65536 ->
  named (chars l) (dirent inum l') <-> short l = short l'.
Proof.
  intros H1 H2 Hi. unfold named, namecmp. rewrite dirent_inum by lia. rewrite strncmp_eq. change (Z.of_nat (Z.to_nat DIRSIZ)) with 14. split.
  - intros [_ H]. assert (HC : forall i, 0 <= i < 14 -> i <= Z.of_nat (length l) -> chars (short l) i = chars (short l') i).
    { intros i Hi' Hle. rewrite chars_short by done. rewrite <- (dirent_char inum l') by done. apply H; [done|]. intros j Hj. apply (chars_len l H1). lia. }
    pose proof (chars_len _ (Forall_take _ 14 _ H1)) as (_ & N1 & P1). pose proof (chars_len _ (Forall_take _ 14 _ H2)) as (_ & N2 & P2).
    fold (short l) (short l') in *. assert (HL : length (short l) = Nat.min 14 (length l)) by apply length_take.
    assert (HL' : length (short l') = Nat.min 14 (length l')) by apply length_take.
    assert (EL : length (short l) = length (short l')).
    { destruct (Nat.lt_trichotomy (length (short l)) (length (short l'))) as [Hx|[Hx|Hx]]; [|done|].
      - destruct (P2 (Z.of_nat (length (short l)))); [lia|]. rewrite <- HC by lia. exact N1.
      - destruct (P1 (Z.of_nat (length (short l')))); [lia|]. rewrite HC by lia. exact N2. }
    apply (nth_ext _ _ 0 0 EL). intros i Hlt. specialize (HC (Z.of_nat i)). unfold chars in HC. rewrite Nat2Z.id in HC. apply HC; lia.
  - intros E. split; [lia|]. intros i Hi' _. by rewrite dirent_char, <- E, chars_short by done.
Qed.

(** ** Images that agree block by block *)

Section Alike.
Variables (I I' : Z -> memory).
Hypothesis HS : forall k, same_block (I' k) (I k).

Lemma alike_blockof d (bn : Z) : 0 <= bn < MAXFILE -> blockof (mount I') d bn = blockof (mount I) d bn.
Proof. intros Hb. apply blockof_same; [done|]. intros _. apply HS. Qed.

Lemma alike_used (b : Z) : used (mount I') SB b = used (mount I) SB b.
Proof. unfold used, bit. rewrite !mount_view. rewrite HS; [done|]. change BPB with 4096. unfold BSIZE. zlia. Qed.

Lemma alike_inode (j : Z) : 0 <= j < 200 -> inode_at I' j = inode_at I j.
Proof. intros Hj. by apply inode_at_same. Qed.

Lemma alike_own d (n : Z) : own I' d n -> own I d n.
Proof. intros [H0 [H|(bn & Hb & ->)]]; (split; [done|]); [by left|]. right. exists bn. split; [done|]. by apply alike_blockof. Qed.

Lemma alike_content d (o : Z) : 0 <= o < MAXFILE * BSIZE -> content (mount I') d o = content (mount I) d o.
Proof.
  change (MAXFILE * BSIZE) with 71680. intros Ho. unfold content. rewrite alike_blockof by (change MAXFILE with 140; unfold BSIZE; zlia). cbv zeta. case_match; [done|].
  rewrite !mount_view. apply HS. unfold BSIZE. zlia.
Qed.

Lemma alike_ino d : ino_ok (mount I) SB d -> ino_ok (mount I') SB d.
Proof.
  assert (HD : forall a, data_block (mount I) SB a -> data_block (mount I') SB a) by (intros a [H1 H2]; split; [done|by rewrite alike_used]).
  intros [J1 J2 J3 J4 J5]. split; [done|..].
  - intros bn Hb. rewrite alike_blockof by done. auto.
  - auto.
  - intros b1 b2 H1 H2. rewrite !alike_blockof by done. auto.
  - intros bn Hb. rewrite alike_blockof by done. auto.
Qed.

Lemma alike_image (fb : Z) fs : (length fs < 200)%nat -> Forall (fun g : Z * list Z => Z.of_nat (length g.2) <= 71680) fs -> fs_image I fb fs -> fs_image I' fb fs.
Proof.
  intros Hn Hsz [F1 F2 F3 F4 F5 F6 F7 F8 F9 F10]. assert (HL : forall i (f : Z * list Z), fs !! i = Some f -> inode_at I' (1 + Z.of_nat i) = inode_at I (1 + Z.of_nat i)).
  { intros i f Hf%lookup_lt_Some. apply alike_inode. lia. }
  split.
  - destruct F1 as [B1 B2 B3 B4 B5 B6 B7]. split; [|done| | | | |done].
    + apply mount_inv. pose proof (lg_head _ B1 : dec_head (I 2) = []) as E. rewrite <- E. apply dec_head_same; [symmetry; apply HS|by rewrite E].
    + rewrite <- B3. by apply dec_sb_same.
    + intros b Hb. rewrite alike_used. auto.
    + intros n o Hn' Ho. rewrite mount_view, (HS n o Ho). by apply B5.
    + intros i b H%lookup_replicate. destruct H as [-> _]. done.
  - intros b Hb. rewrite alike_used. auto.
  - intros i f Hf. rewrite (HL i f Hf). auto.
  - intros i f Hf. rewrite (HL i f Hf). auto.
  - intros i f Hf. rewrite (HL i f Hf). by apply alike_ino, F5 with f.
  - intros i f Hf o Ho. rewrite (HL i f Hf), alike_content by done. by apply F6.
  - intros i f Hf o Ho. rewrite (HL i f Hf), alike_blockof; [by apply (F7 i f)|]. pose proof (proj1 (Forall_lookup _ _) Hsz i f Hf) as Hz. cbn in Hz. unfold nblk in Ho. change MAXFILE with 140. unfold BSIZE. zlia.
  - intros i j n Hi Hj Hij. rewrite !alike_inode by lia. intros H1%alike_own H2%alike_own. by apply (F8 i j n).
  - intros j Hj. rewrite alike_inode by lia. auto.
  - by rewrite (HS 2).
Qed.
End Alike.

(** ** A kernel on the image *)

(** A kernel state on the image [I], with the inode cache [l]. *)
Record grounded I s (l : list inode) : Prop := mkgrounded {
  gr_log : lstep (mount I) (flog s) 0;
  gr_view : forall k, same_block (view (lbc (flog s)) k) (I k);
  gr_sb : fsb s = SB;
  gr_lock : ic_lock s = false;
  gr_cache : icache s = l;
}.

Lemma grounded_reads I s l : grounded I s l -> reads (set_flog (mount I) s) s 0.
Proof. intros [G1 G2 G3 G4 G5]. split; [split; [by destruct s|done]|done]. Qed.

Lemma grounded_cached I s s' l l' : grounded I s l -> cached s s' l' -> grounded I s' l'.
Proof.
  intros [G1 G2 G3 G4 G5] [E [[E1 L] HV]]. assert (HF : fsb s' = fsb s /\ ic_lock s' = ic_lock s) by (destruct s, s'; cbn in E1; by injection E1).
  destruct HF as [F1 F2]. split; [|intros k; cbn in HV; by rewrite (HV k)|congruence|congruence|done].
  change 0%nat with (0 + 0)%nat. eapply lstep_trans; [exact G1|exact L].
Qed.

Lemma grounded_blk I s l fb fs : fs_image I fb fs -> grounded I s l -> blk_ok (flog s) SB.
Proof. intros IM G. apply (blk_reads (set_flog (mount I) s) s SB 0); [apply IM|by eapply grounded_reads]. Qed.

Lemma grounded_inode I s l j : grounded I s l -> 0 <= j < 200 -> dinode_at (flog s) SB j = inode_at I j.
Proof. intros G Hj. apply dec_dinode_same. intros x Hx. apply (gr_view _ _ _ G). change IPB with 8 in Hx. unfold BSIZE. zlia. Qed.

Lemma grounded_budget I s l : grounded I s l -> budget (flog s) 0.
Proof. intros G. apply (budget_step (mount I) (flog s) 0 0 (gr_log _ _ _ G)). split; [done|]. vm_compute. lia. Qed.

Lemma mount_idle I : idle (mount I).
Proof. intros n i b H. by apply lookup_replicate in H as [-> _]. Qed.

(** The entry [ip] of the cache holds the file [i] of the image. *)
Definition has_file I (i : nat) (x : inode) : Prop := i_dev x = 1 /\ i_d x = inode_at I (1 + Z.of_nat i).

Lemma grounded_file I s l fb fs i g ip x :
  fs_image I fb fs -> grounded I s l -> fs !! i = Some g -> l !! ip = Some x -> has_file I i x -> file_ok s ip x SB.
Proof.
  intros IM G Hf Hx [X1 X2]. apply (file_reads (set_flog (mount I) s) s ip x SB 0); [|by eapply grounded_reads].
  split; [by rewrite <- (gr_cache _ _ _ G) in Hx|done|apply G|apply IM| |apply mount_idle]. rewrite X2. by eapply IM.
Qed.

Lemma grounded_content I s l fb fs i g x (o : Z) :
  fs_image I fb fs -> grounded I s l -> fs !! i = Some g -> has_file I i x -> 0 <= o < 71680 -> content (flog s) (i_d x) o = nth (Z.to_nat o) g.2 0.
Proof.
  intros IM G Hf [_ X2] Ho. pose proof (grounded_reads _ _ _ G) as R. rewrite (reads_content _ _ _ 0 _ R Ho). rewrite X2. by apply IM.
Qed.

Lemma grounded_filled I s l fb fs i g x :
  fs_image I fb fs -> grounded I s l -> fs !! i = Some g -> has_file I i x ->
  0 <= final_size i g <= 512 * nblk (Z.of_nat (length g.2)) -> final_size i g <= 71680 -> filled (flog s) (i_d x).
Proof.
  intros IM G Hf [_ X2] Hs Hm. rewrite X2. split; [rewrite (im_size _ _ _ IM _ _ Hf); change (MAXFILE * BSIZE) with 71680; lia|]. intros o Ho. rewrite (im_size _ _ _ IM _ _ Hf) in Ho.
  rewrite (blockof_same (mount I)).
  - apply (im_blocks _ _ _ IM _ _ Hf). lia.
  - unfold BSIZE. change MAXFILE with 140. zlia.
  - intros _. apply (gr_view _ _ _ G).
Qed.

(** ** Finding a name in the root *)

(** The names of the root are different once cut to their fourteen bytes. *)
Definition names_differ files : Prop := NoDup ([46] :: [46; 46] :: ((fun f => short (stem f)) <$> files)).

Lemma stem_chars f : host_ok f -> Forall (fun c => 0 < c < 256) (stem f).
Proof.
  intros [K _ _ _ _]. unfold stem. destruct (h_name f) as [|c l]; [done|]. assert (HL : Forall (fun c => 0 < c < 256) l) by (by apply Forall_cons in K as [_ ?]).
  repeat (case_match; try done).
Qed.

Lemma root_name files k (e : list Z) :
  Forall host_ok files -> (length files <= 198)%nat -> root_entries files !! k = Some e ->
  exists inum name, e = dirent inum name /\ 0 < inum < 65536 /\ Forall (fun c => 0 < c < 256) name /\
    ([46] :: [46; 46] :: ((fun f => short (stem f)) <$> files)) !! k = Some (short name).
Proof.
  intros HK Hl He. destruct k as [|[|k]].
  - injection He as <-. exists 1, [46]. split_and!; try done. repeat constructor.
  - injection He as <-. exists 1, [46; 46]. split_and!; try done. repeat constructor.
  - change (imap (fun i f => dirent (2 + Z.of_nat i) (stem f)) files !! k = Some e) in He. apply list_lookup_imap_Some in He as (f & Hf & ->).
    pose proof (lookup_lt_Some _ _ _ Hf). exists (2 + Z.of_nat k), (stem f). split; [done|]. split; [lia|]. split.
    + apply stem_chars. by apply (proj1 (Forall_lookup _ _) HK k).
    + change (((fun f => short (stem f)) <$> files) !! k = Some (short (stem f))). by rewrite list_lookup_fmap, Hf.
Qed.

(** The entries of the root as the kernel sees them, and the one of a file. *)
Lemma root_found I s l fb files x i f :
  fs_image I fb (built files) -> grounded I s l -> has_file I 0 x -> Forall host_ok files -> (length files <= 198)%nat -> names_differ files ->
  files !! i = Some f -> list_find (named (chars (stem f))) (entries s x) = Some (S (S i), dirent (2 + Z.of_nat i) (stem f)).
Proof.
  intros IM G HX HK Hl HN Hf. pose proof (lookup_lt_Some _ _ _ Hf) as Hi. assert (HR : built files !! 0%nat = Some (T_DIR, concat (root_entries files))) by (by rewrite built_eq).
  assert (EL : length (concat (root_entries files)) = (16 * (2 + length files))%nat).
  { rewrite <- length_root. apply length_concat16, root_entries_len. }
  assert (ES : i_size x = (Z.of_nat (16 * (2 + length files)) / 512 + 1) * 512).
  { destruct HX as [_ ->]. rewrite (im_size _ _ _ IM _ _ HR). unfold final_size. rewrite decide_True by done. cbn [snd]. by rewrite EL. }
  assert (HE : forall k, Z.of_nat k < i_size x / 16 -> entries s x !! k = Some (default (replicate 16 0) (root_entries files !! k))).
  { intros k Hk. unfold entries. rewrite list_lookup_fmap, (proj2 (lookup_seqZ _ _ _ (Z.of_nat k))) by lia. cbn [fmap option_fmap option_map]. f_equal.
    rewrite <- (entry_at _ k (root_entries_len files)). apply list_fmap_ext. intros j o Ho. apply lookup_seqZ in Ho as [-> Ho].
    rewrite (grounded_content I s l fb _ 0 _ x _ IM G HR HX) by (rewrite ES in Hk; zlia). done. }
  assert (HE2 : forall k e, (k <= S (S i))%nat -> entries s x !! k = Some e -> root_entries files !! k = Some e).
  { intros k e Hk He. rewrite HE in He by (rewrite ES; zlia). destruct (lookup_lt_is_Some_2 (root_entries files) k) as [e' He']; [rewrite length_root; lia|]. rewrite He' in He |- *. exact He. }
  apply list_find_Some. split_and!.
  - rewrite HE by (rewrite ES; zlia).
    change (root_entries files !! S (S i)) with (imap (fun i f => dirent (2 + Z.of_nat i) (stem f)) files !! i). by rewrite list_lookup_imap, Hf.
  - apply named_dirent; [apply stem_chars; by apply (proj1 (Forall_lookup _ _) HK i)..|lia|done].
  - intros k e He Hk. destruct (root_name files k e HK Hl (HE2 k e ltac:(lia) He)) as (inum & name & -> & Hn & Hc & Hs).
    rewrite named_dirent; [|apply stem_chars; by apply (proj1 (Forall_lookup _ _) HK i)|done|done]. intros Heq.
    assert (k = S (S i)); [|lia]. eapply NoDup_lookup; [exact HN|exact Hs|]. rewrite <- Heq.
    change (((fun f => short (stem f)) <$> files) !! i = Some (short (stem f))). by rewrite list_lookup_fmap, Hf.
Qed.

(** ** From the start of the kernel to the bytes of a file *)

Definition no_inode : inode := mkinode 0 0 0 (mksleeplock 0 "" 0) 0 (mkdinode 0 0 0 0 0 []).

(** The kernel as the first process enters [forkret], on the disk [I]: the log
    and the superblock are still zero. *)
Definition cold_fs I : fsst :=
  mkfs (mklg (mkbc I [] (replicate 30 buf0) (seq 0 30) false 1) 0 0 0 0 0 [] true) (mksb 0 0 0 0 0 0 0) (replicate 50 no_inode) true 0.
Definition boot I : fkst := mkfk true true (cold_fs I).

(** An entry of the cache after [iinit], and one that [iget] has taken. *)
Definition free_inode : inode := set_ilock (initsleeplock "inode") no_inode.
Definition got_inode (inum : Z) : inode := set_valid 0 (set_ref 1 (set_ident 1 inum free_inode)).

(** A cache in which [inum] is not yet. *)
Definition without (inum : Z) (l : list inode) : Prop := Forall (fun x => x = free_inode \/ i_ref x = 1 /\ i_inum x <> inum) l.

Lemma without_free inum n : without inum (replicate n free_inode).
Proof. apply Forall_replicate. by left. Qed.
Lemma without_put inum l ip y : without inum l -> i_ref y = 1 -> i_inum y <> inum -> without inum (<[ip := y]> l).
Proof. intros H H1 H2. apply Forall_insert; [done|by right]. Qed.
Lemma without_refs inum l : without inum l -> refs_ok l.
Proof. intros H. eapply Forall_impl; [exact H|]. cbn. intros x [->|[-> _]]; cbn; lia. Qed.

Lemma without_absent inum l : without inum l -> absent 1 inum l.
Proof.
  intros H j x Hx [H1 [_ H2]]. destruct (proj1 (Forall_lookup _ _) H j x Hx) as [->|[_ H3]]; [|done]. cbn in H1. lia.
Qed.

Lemma gotten_free inum l l' ip : without inum l -> gotten 1 inum l l' ip -> l !! ip = Some free_inode /\ l' = <[ip := got_inode inum]> l.
Proof.
  intros H (x & Hx & [[HE _]|(_ & H0 & E)]); [by destruct (without_absent _ _ H _ _ Hx)|].
  destruct (proj1 (Forall_lookup _ _) H ip x Hx) as [->|[H1 _]]; [done|lia].
Qed.

Section Read.
Context `{V : DevSw}.

(** In a transaction: the name is looked up in the root directory, and the first
    [n] bytes of the file are read. *)
Definition look_and_read (name : Z -> Z) (n : Z) : MF (Z * list Z) :=
  onlog begin_op ;;;
  let! dp := iget 1 ROOTINO in
  ilock dp ;;;
  let! r := dirlookup dp name in
  match r with
  | None => panic "no such file"
  | Some (ip, _) => ilock ip ;;; readi ip 0 n
  end.

(** The first process starts the file system, then reads the file. *)
Definition start_and_read (name : Z -> Z) (n : Z) : M fkst (Z * list Z) := forkret ;;; onfs (look_and_read name n).

Lemma boot_cold I fb fs : fs_image I fb fs -> cold (cold_fs I) I SB.
Proof.
  intros IM. pose proof (bk_log _ _ (im_blk _ _ _ IM)) as L. split; try done.
  - exact (lg_bc _ L).
  - intros i b H%lookup_replicate. by destruct H as [-> _].
  - vm_compute. lia.
  - intros k (i & b & H%lookup_replicate & Dv & _). by destruct H as [-> _].
  - exact (bk_sb _ _ (im_blk _ _ _ IM)).
  - exact (lg_head _ L).
Qed.

(** The cache after the header has been written again. *)
Lemma rewritten I c m0 : same_block (I 2) (fun _ => 0) -> moves (lbc (flog (cold_fs I))) c [(2, enc_head m0 [])] -> same_block m0 (I 2) ->
  (forall k, same_block (disk c k) (I k)) /\ (forall k, ~ isdirty c k) /\ (forall k, same_block (view c k) (disk c k)).
Proof.
  intros HZ M H0. assert (HC : forall k, ~ isdirty c k).
  { intros k Hk%(ms_dirty _ _ _ M). destruct Hk as [(i & b & H%lookup_replicate & Dv & _) _]. by destruct H as [-> _]. }
  split_and!; [|done|intros k; apply clean_synced; [apply M|apply idle_unheld, M|done]].
  intros k. rewrite (ms_disk _ _ _ M). cbn [replay foldl fold_left fst snd]. unfold disk_put. destruct (Z.eqb_spec k 2) as [->|]; [|done].
  rewrite same_bcopy. intros o Ho. unfold enc_head. cbn [store_words length]. rewrite HZ by done. unfold store32. repeat case_match; try done. by rewrite H0, HZ.
Qed.

Lemma boot_spec I fb fs {A} (k : MF A) Q :
  fs_image I fb fs -> (length fs < 200)%nat -> Forall (fun g : Z * list Z => Z.of_nat (length g.2) <= 71680) fs ->
  (forall I' s, fs_image I' fb fs -> grounded I' s (replicate 50 free_inode) -> wp k (fun r s' => forall k0, Q r (set_fs s' k0)) s) ->
  wp (forkret ;;; onfs (onlog begin_op ;;; k)) Q (boot I).
Proof.
  intros IM Hn Hsz HQ. wp_step. eapply wp_mono; [apply forkret_starts, (boot_cold _ _ _ IM)|]. intros [] k0 (_ & _ & [R1 R2 (m0 & M & H0)]).
  apply wp_zoom. wp_step. set (s := fk_fs k0) in *. clearbody s. set (c := lbc (flog s)) in *. clearbody c.
  destruct (rewritten I c m0 (im_log _ _ _ IM) M H0) as (E1 & E2 & E3). apply wp_zoom. rewrite R2.
  apply (wp_from_Ok _ _ _ tt (mklg c 2 30 1 0 1 [] false)); [reflexivity|].
  eapply wp_mono; [apply (HQ (disk c)); [by apply (alike_image I)|]|].
  - rewrite R1. split; cbn [flog set_flog fsb ic_lock icache]; [|done..|].
    + split; cbn [lbc l_dev l_start l_size l_outstanding l_committing mount]; try done.
      * split; cbn [lbc l_blocks]; [apply M| |done| | |].
        -- split; cbn; unfold LOGSIZE, MAXOPBLOCKS, FSSIZE; lia.
        -- split; cbn; [apply NoDup_nil_2|set_solver..|lia].
        -- intros b. split; [by intros ?%E2|set_solver].
        -- pose proof (lg_head _ (bk_log _ _ (im_blk _ _ _ IM)) : dec_head (I 2) = []) as E. cbn [l_start]. rewrite <- E. apply dec_head_same; [symmetry; apply E1|by rewrite E].
      * split; [done|]. apply M.
      * intros j b Hb. split; [intros H%lookup_replicate; destruct H as [-> _]; done|]. intros H. by rewrite (ms_idle _ _ _ M j b H) in Hb.
      * rewrite Nat.add_0_r. exact (ms_spare _ _ _ M).
    + unfold cold_fs. cbn [icache]. by rewrite fmap_replicate.
  - intros r s' H. apply H.
Qed.

(** Getting and reading an inode that is not in the cache. *)
Lemma load_inode I fb fs s l ip inum i g :
  fs_image I fb fs -> grounded I s l -> fs !! i = Some g -> g.1 <> 0 -> (length fs < 200)%nat -> inum = 1 + Z.of_nat i -> l !! ip = Some (got_inode inum) ->
  wp (ilock ip) (fun _ s' => exists y, has_file I i y /\ i_ref y = 1 /\ i_inum y = inum /\ i_dev y = 1 /\ grounded I s' (<[ip := y]> l)) s.
Proof.
  intros IM G Hg Ht Hn -> Hx. pose proof (lookup_lt_Some _ _ _ Hg) as Hi. pose proof (gr_cache _ _ _ G) as EC. rewrite <- EC in Hx.
  eapply wp_mono; [eapply (ilock_spec s ip _ SB (grounded_blk _ _ _ _ _ IM G) (gr_sb _ _ _ G) (grounded_budget _ _ _ G) Hx)|].
  - done.
  - done.
  - done.
  - done.
  - cbn. lia.
  - change (i_inum (got_inode ?n)) with n. rewrite (grounded_inode _ _ _ _ G) by lia. by rewrite (proj1 (im_type _ _ _ IM _ _ Hg)).
  - intros [] s' HC. change (i_inum (got_inode ?n)) with n in HC. rewrite (grounded_inode _ _ _ _ G) in HC by lia. eexists. split; [|split; [|split; [|split; [|eapply grounded_cached; [exact G|rewrite <- EC; exact HC]]]]]; done.
Qed.

(** [iget] on an inode that is not in the cache. *)
Lemma get_spec I s l inum :
  grounded I s l -> without inum l -> free_inode ∈ l ->
  wp (iget 1 inum) (fun ip s' => l !! ip = Some free_inode /\ grounded I s' (<[ip := got_inode inum]> l)) s.
Proof.
  intros G HW HF. pose proof (gr_cache _ _ _ G) as EC. eapply wp_mono; [apply (iget_spec s 1 inum)|]; rewrite ?EC.
  - apply G.
  - by eapply without_refs.
  - intros [_ HA]. rewrite Forall_forall in HA. by apply (HA _ HF).
  - intros ip s' [E HG]. apply (gotten_free _ _ _ _ HW) in HG as [H1 H2]. split; [done|]. rewrite E, H2. destruct G as [G1 G2 G3 G4 G5]. by split.
Qed.

(** The root read in: [dirlookup] can run. *)
Lemma root_dir I fb files s l dp y :
  fs_image I fb (built files) -> grounded I s l -> (length files <= 198)%nat -> (2 + Z.of_nat (length files)) mod 32 <> 0 ->
  l !! dp = Some y -> has_file I 0 y -> refs_ok l -> free_inode ∈ l -> dir_ok s dp y SB.
Proof.
  intros IM G Hl H32 Hy HX HR HF. assert (HB : built files !! 0%nat = Some (T_DIR, concat (root_entries files))) by (by rewrite built_eq).
  pose proof (gr_cache _ _ _ G) as EC. pose proof (im_size _ _ _ IM _ _ HB) as ES. pose proof (im_type _ _ _ IM _ _ HB) as [ET _].
  assert (EF : final_size 0 (T_DIR, concat (root_entries files)) = ((2 + Z.of_nat (length files)) / 32 + 1) * 512).
  { unfold final_size. rewrite decide_True by done. cbn [snd]. rewrite length_concat16, length_root by apply root_entries_len. zlia. }
  split.
  - by eapply grounded_file.
  - eapply grounded_filled; [done|done|done|done| |]; rewrite EF; [|zlia]. cbn [snd]. unfold nblk. rewrite length_concat16, length_root by apply root_entries_len. zlia.
  - destruct HX as [_ ->]. by rewrite ET.
  - destruct HX as [_ ->]. rewrite ES, EF. zlia.
  - by eapply grounded_budget.
  - apply G.
  - by rewrite EC.
  - rewrite EC. apply list_elem_of_lookup in HF as [j Hj]. by exists j, free_inode.
Qed.

Lemma lookup_spec I fb files s l dp y i f :
  fs_image I fb (built files) -> grounded I s l -> Forall host_ok files -> (length files <= 198)%nat -> names_differ files ->
  (2 + Z.of_nat (length files)) mod 32 <> 0 -> files !! i = Some f ->
  l !! dp = Some y -> has_file I 0 y -> without (2 + Z.of_nat i) l -> free_inode ∈ l ->
  wp (dirlookup dp (chars (stem f))) (fun r s' => exists ip, r = Some (ip, 16 * Z.of_nat (S (S i))) /\
    l !! ip = Some free_inode /\ grounded I s' (<[ip := got_inode (2 + Z.of_nat i)]> l)) s.
Proof.
  intros IM G HK Hl HN H32 Hf Hy HX HW HF. pose proof (gr_cache _ _ _ G) as EC. pose proof (lookup_lt_Some _ _ _ Hf) as Hi.
  eapply wp_mono; [apply (dirlookup_spec s dp y SB (chars (stem f)))|].
  - eapply root_dir; try done. by eapply without_refs.
  - intros r s' [R H]. rewrite (root_found I s l fb files y i f IM G HX HK Hl HN Hf) in H. destruct H as (ip & -> & HG). exists ip. split; [done|].
    rewrite dirent_inum in HG by lia. rewrite EC in HG. apply (gotten_free _ _ _ _ HW) in HG as [H1 H2]. split; [done|].
    eapply grounded_cached; [exact G|]. by split.
Qed.

Lemma read_file I fb files s l ip x i f n :
  fs_image I fb (built files) -> grounded I s l -> files !! i = Some f -> host_ok f -> l !! ip = Some x -> has_file I (S i) x -> 0 <= n < 4294967296 ->
  wp (readi ip 0 n) (fun r _ => r = (Z.min n (Z.of_nat (length (host_bytes f))), take (Z.to_nat n) (host_bytes f))) s.
Proof.
  intros IM G Hf HK Hx HX Hn. assert (HF : built files !! S i = Some (T_FILE, host_bytes f)).
  { rewrite built_eq. change (((fun f => (T_FILE, host_bytes f)) <$> files) !! i = Some (T_FILE, host_bytes f)). by rewrite list_lookup_fmap, Hf. }
  pose proof (hk_size _ HK) as Hs. pose proof HX as [_ ED]. pose proof (im_size _ _ _ IM _ _ HF) as ES. pose proof (im_type _ _ _ IM _ _ HF) as [ET _].
  unfold final_size in ES. rewrite decide_False in ES by done. rewrite <- ED in ES, ET. cbn [fst snd] in ES, ET.
  eapply wp_mono; [apply (readi_spec s ip x SB 0 n)|].
  - by eapply grounded_file.
  - eapply grounded_filled; [done..| |]; unfold final_size, nblk; rewrite decide_False by done; cbn [snd]; zlia.
  - by rewrite ET.
  - by eapply grounded_budget.
  - lia.
  - done.
  - intros r s' [_ ->]. rewrite ES. replace ((_ <? 0) || _) with false by lia. cbv zeta. rewrite Z.sub_0_r. f_equal.
    apply list_eq. intros k. rewrite list_lookup_fmap. destruct (decide (Z.of_nat k < Z.min n (Z.of_nat (length (host_bytes f))))) as [Hk|Hk].
    + rewrite (proj2 (lookup_seqZ _ _ _ (Z.of_nat k))) by lia. cbn [fmap option_fmap option_map]. rewrite (grounded_content _ _ _ _ _ _ _ _ _ IM G HF HX) by lia.
      cbn [snd]. rewrite Nat2Z.id, lookup_take_lt by lia. destruct (lookup_lt_is_Some_2 (host_bytes f) k) as [c Hc]; [lia|]. by rewrite nth_lookup, Hc.
    + rewrite lookup_seqZ_ge by lia. symmetry. apply lookup_ge_None_2. rewrite length_take. lia.
Qed.

Lemma built_sizes files : Forall host_ok files -> (length files <= 198)%nat -> Forall (fun g : Z * list Z => Z.of_nat (length g.2) <= 71680) (built files).
Proof.
  intros HK Hl. rewrite built_eq. constructor; [cbn [snd]; rewrite length_concat16, length_root by apply root_entries_len; lia|].
  apply Forall_fmap. eapply Forall_impl; [exact HK|]. intros f K. cbn. pose proof (hk_size _ K). lia.
Qed.

Lemma read_image I fb files i f n :
  fs_image I fb (built files) -> Forall host_ok files -> (length files <= 198)%nat -> names_differ files -> (2 + Z.of_nat (length files)) mod 32 <> 0 ->
  files !! i = Some f -> 0 <= n < 4294967296 ->
  wp (start_and_read (chars (stem f)) n) (fun r _ => r = (Z.min n (Z.of_nat (length (host_bytes f))), take (Z.to_nat n) (host_bytes f))) (boot I).
Proof.
  intros IM HK Hl HN H32 Hf Hn. pose proof (lookup_lt_Some _ _ _ Hf) as Hi. unfold start_and_read, look_and_read.
  assert (HLb : (length (built files) < 200)%nat) by (rewrite built_eq; cbn; rewrite length_fmap; lia).
  apply (boot_spec I fb (built files)); [done|done|by apply built_sizes|]. clear I IM. intros I s1 IM G1.
  assert (HR : built files !! 0%nat = Some (T_DIR, concat (root_entries files))) by (by rewrite built_eq).
  assert (HF : exists g, built files !! S i = Some g /\ g.1 <> 0).
  { rewrite built_eq. exists (T_FILE, host_bytes f). split; [|done].
    change (((fun f => (T_FILE, host_bytes f)) <$> files) !! i = Some (T_FILE, host_bytes f)). by rewrite list_lookup_fmap, Hf. }
  destruct HF as (g & HF & Hg). set (l0 := replicate 50 free_inode) in *.
  wp_step. eapply wp_mono; [apply (get_spec I s1 l0 1 G1); [apply without_free|by left]|]. intros dp s2 [Hdp G2].
  pose proof (lookup_lt_Some _ _ _ Hdp) as Hlt. change (length l0) with 50%nat in Hlt.
  wp_step. eapply wp_mono; [apply (load_inode I fb (built files) s2 _ dp 1 0 _ IM G2 HR); [done|done|done|by apply list_lookup_insert_eq]|].
  intros [] s3 (y & Y1 & Y2 & Y3 & Y4 & G3). rewrite list_insert_insert_eq in G3. set (l3 := <[dp := y]> l0) in *.
  assert (HW : without (2 + Z.of_nat i) l3) by (apply without_put; [apply without_free|done|lia]).
  assert (HFr : exists j, j <> dp /\ l3 !! j = Some free_inode).
  { exists (if decide (dp = 0%nat) then 1%nat else 0%nat). case_decide; (split; [lia|]); unfold l3; by rewrite list_lookup_insert_ne by lia. }
  destruct HFr as (j & Hj & Hfr).
  wp_step. eapply wp_mono; [apply (lookup_spec I fb files s3 l3 dp y i f); try done|].
  { by apply list_lookup_insert_eq. }
  { by eapply list_elem_of_lookup_2. }
  intros r s4 (ip & -> & Hip & G4). pose proof (lookup_lt_Some _ _ _ Hip) as Hlt4.
  wp_step. eapply wp_mono; [apply (load_inode I fb (built files) s4 _ ip (2 + Z.of_nat i) (S i) g IM G4 HF Hg HLb); [lia|by apply list_lookup_insert_eq]|].
  intros [] s5 (x & X1 & _ & _ & _ & G5). rewrite list_insert_insert_eq in G5.
  eapply wp_mono; [eapply (read_file I fb files s5 _ ip x i f n IM G5 Hf); [by apply (proj1 (Forall_lookup _ _) HK i)|by apply list_lookup_insert_eq|done|done]|done].
Qed.

(** C21. What [mkfs] puts on the disk the kernel reads back.  After [mkfs] has run
    on the files of the host, with names that differ in their first fourteen
    bytes, a kernel whose first process starts the file system on the image
    ([forkret]: superblock, recovery of the log), begins a call, reads the root
    inode, looks up the name of any of the files ([dirlookup]) and reads it
    ([readi]) gets the bytes of that file, as many as it asks for.  The number of
    entries of the root is not a multiple of 32: then the rounded size of the
    root would take in a block that was never allocated. *)
Theorem mkfs_then_read files i f n :
  Forall host_ok files -> (length files <= 198)%nat -> 59 + total (built files) <= 1000 ->
  names_differ files -> (2 + Z.of_nat (length files)) mod 32 <> 0 -> files !! i = Some f -> 0 <= n < 4294967296 ->
  wp (mkfs_main files) (fun _ t =>
    wp (start_and_read (chars (stem f)) n) (fun r _ => r = (Z.min n (Z.of_nat (length (host_bytes f))), take (Z.to_nat n) (host_bytes f))) (boot (img t))) mk_start.
Proof.
  intros HK Hl Ht HN H32 Hf Hn. eapply wp_mono; [by apply mkfs_spec|]. intros [] s [_ IM]. by eapply read_image.
Qed.
End Read.

(** ** An example *)

(** The files [README] and [_cat]. *)
Definition readme : hostfile := mkhost [82; 69; 65; 68; 77; 69] (Some [replicate 512 65; [66; 10]]).
Definition cat : hostfile := mkhost [95; 99; 97; 116] (Some [[127; 69; 76; 70]; []]).

Lemma sample_ok : Forall host_ok [readme; cat].
Proof.
  assert (HB : forall l lo, forallb (fun c => (lo <=? c) && (c <? 256)) l = true -> Forall (fun c => lo <= c < 256) l).
  { intros l lo H. apply List.Forall_forall. intros c Hc. pose proof (proj1 (forallb_forall _ _) H c Hc). cbn in *. lia. }
  apply Forall_cons. split; [|apply Forall_cons; split; [|by apply Forall_nil]]; (split; [|by apply (bool_decide_unpack _)|done|apply HB; by vm_compute|vm_compute; congruence]);
    (eapply Forall_impl; [apply (HB _ 1); by vm_compute|cbn; lia]).
Qed.

Lemma sample_names : names_differ [readme; cat].
Proof. apply (bool_decide_unpack _). by vm_compute. Qed.

Lemma mkfs_makes_image_witness :
  wp (mkfs_main [readme; cat]) (fun _ t => nsect t = 1000 /\ fs_image (img t) (freeblock t) (built [readme; cat])) mk_start.
Proof. apply (mkfs_makes_image [readme; cat]); [apply sample_ok|cbn; lia|by vm_compute]. Defined.

Lemma mkfs_then_read_witness :
  wp (mkfs_main [readme; cat]) (fun _ t =>
    wp (start_and_read (V := FsSample.nodev) (chars [99; 97; 116]) 100) (fun r _ => r = (4, [127; 69; 76; 70])) (boot (img t))) mk_start.
Proof.
  apply (mkfs_then_read [readme; cat] 1 cat 100); [apply sample_ok|cbn; lia|by vm_compute|apply sample_names|done|done|lia].
Defined.
