(* ===== verification/Pipe.v ===== *)
(** * Pipe: pipes ([pipe.c])

    The ring buffer with its two 32-bit counters.  A routine that goes to sleep
    stops there, with the lock released, and reports how far it got; when the
    process is woken it resumes with the lock held.  The theorem: a pipe is a
    bounded first-in first-out queue, whatever the values of the counters. *)
From stdpp Require Import base gmap list numbers strings.
From Stdlib Require Import ZArith Lia ZifyBool.
From S2P Require Import Prelude Machine.

Definition PIPESIZE : Z := 512.
#[export] Hint Unfold PIPESIZE : xv6.

Record pipe := mkpipe {
  p_lock : bool;
  p_data : Z -> Z;
  nread : Z;
  nwrite : Z;
  readopen : Z;
  writeopen : Z;
}.

Definition set_p_lock (x : bool) (p : pipe) : pipe :=
  mkpipe x (p_data p) (nread p) (nwrite p) (readopen p) (writeopen p).
Definition set_open (r w : Z) (p : pipe) : pipe := mkpipe (p_lock p) (p_data p) (nread p) (nwrite p) r w.

(** The two channels of a pipe: [&p->nread] and [&p->nwrite]. *)
Inductive chan := Nread | Nwrite.

(** A pipe, the wakeups done on its channels, the last one first, and the
    [killed] flag of the running process. *)
Record pipest := mkpst {
  the : pipe;
  woken : list chan;
  killed : Z;
}.
Definition set_the (x : pipe) (s : pipest) : pipest := mkpst x (woken s) (killed s).
Definition wake (c : chan) : M pipest unit := modify (fun s => mkpst (the s) (c :: woken s) (killed s)).

(** What a routine that can sleep does: it returns, or it is asleep with a
    number of bytes done. *)
Inductive io (A : Type) := Done (a : A) | Asleep (c : chan) (i : Z).
Arguments Done {A} a.
Arguments Asleep {A} c i.

Definition acquire_pipe : M pipest unit := fun s =>
  if p_lock (the s) then Panic "acquire" else Ok tt (set_the (set_p_lock true (the s)) s).
Definition release_pipe : M pipest unit := fun s =>
  if p_lock (the s) then Ok tt (set_the (set_p_lock false (the s)) s) else Panic "release".

(** The pipe that [pipealloc] sets up. *)
Definition newpipe (data : Z -> Z) : pipe := mkpipe false data 0 0 1 1.

(** [pipeclose]; the result says that both ends are closed, so that the page
    is freed. *)
Definition pipeclose (writable : Z) : M pipest bool :=
  acquire_pipe ;;;
  (if negb (writable =? 0) then
     modify (fun s => set_the (set_open (readopen (the s)) 0 (the s)) s) ;;; wake Nread
   else
     modify (fun s => set_the (set_open 0 (writeopen (the s)) (the s)) s) ;;; wake Nwrite) ;;;
  let! p := gets the in
  release_pipe ;;;
  ret ((readopen p =? 0) && (writeopen p =? 0)).

(** [p->data[p->nwrite++ % PIPESIZE] = c] *)
Definition put_byte (c : Z) (p : pipe) : pipe :=
  mkpipe (p_lock p) (fun k => if k =? nwrite p mod PIPESIZE then i8 c else p_data p k)
         (nread p) (u32 (nwrite p + 1)) (readopen p) (writeopen p).

(** The loop of [pipewrite] from byte [i], with [fuel] the bytes left. *)
Fixpoint write_from (fuel : nat) (addr : Z -> Z) (i n : Z) : M pipest (io Z) :=
  match fuel with
  | O =>
      wake Nread ;;;
      release_pipe ;;;
      ret (Done n)
  | S fuel =>
      let! s := gets id in
      if nwrite (the s) =? u32 (nread (the s) + PIPESIZE) then
        if (readopen (the s) =? 0) || negb (killed s =? 0) then
          release_pipe ;;;
          ret (Done (-1))
        else
          wake Nread ;;;
          release_pipe ;;;
          ret (Asleep Nwrite i)
      else
        modify (fun s => set_the (put_byte (addr i) (the s)) s) ;;;
        write_from fuel addr (i + 1) n
  end.

Definition pipewrite (addr : Z -> Z) (n : Z) : M pipest (io Z) :=
  acquire_pipe ;;;
  write_from (Z.to_nat n) addr 0 n.

(** A writer woken up goes on from byte [i]. *)
Definition pipewrite_resume (addr : Z -> Z) (i n : Z) : M pipest (io Z) :=
  acquire_pipe ;;;
  write_from (Z.to_nat (n - i)) addr i n.

(** [p->data[p->nread++ % PIPESIZE]] *)
Definition take_byte (p : pipe) : Z * pipe :=
  (p_data p (nread p mod PIPESIZE),
   mkpipe (p_lock p) (p_data p) (u32 (nread p + 1)) (nwrite p) (readopen p) (writeopen p)).

(** The copy loop of [piperead]: the bytes stored at [addr]. *)
Fixpoint copy_out (n : nat) (p : pipe) : list Z * pipe :=
  match n with
  | O => ([], p)
  | S n =>
      if nread p =? nwrite p then ([], p)
      else
        let '(c, p) := take_byte p in
        let '(l, p) := copy_out n p in
        (c :: l, p)
  end.

(** A reader that is woken up starts again at the test, so that [piperead]
    resumes as [piperead]. *)
Definition piperead (n : Z) : M pipest (io (Z * list Z)) :=
  acquire_pipe ;;;
  let! s := gets id in
  if (nread (the s) =? nwrite (the s)) && negb (writeopen (the s) =? 0) then
    if negb (killed s =? 0) then
      release_pipe ;;;
      ret (Done (-1, []))
    else
      release_pipe ;;;
      ret (Asleep Nread 0)
  else
    let '(l, p) := copy_out (Z.to_nat n) (the s) in
    modify (set_the p) ;;;
    wake Nwrite ;;;
    release_pipe ;;;
    ret (Done (Z.of_nat (length l), l)).

(** ** The queue *)

(** The number of bytes in the pipe, and the bytes, the next one to read first. *)
Definition fill (p : pipe) : Z := u32 (nwrite p - nread p).
Definition queue (p : pipe) : list Z := (fun k => p_data p ((nread p + k) mod PIPESIZE)) <$> seqZ 0 (fill p).

Record pipe_ok (p : pipe) : Prop := mkpipe_ok {
  po_free : p_lock p = false;
  po_read : 0 <= nread p < 4294967296;
  po_write : 0 <= nwrite p < 4294967296;
  po_fill : fill p <= PIPESIZE;
}.

(** The same with the lock held. *)
Definition held_ok (p : pipe) : Prop := p_lock p = true /\ pipe_ok (set_p_lock false p).

Lemma queue_length (p : pipe) : Z.of_nat (length (queue p)) = fill p.
Proof. unfold queue. rewrite length_fmap, length_seqZ. pose proof (u32_range (nwrite p - nread p)). unfold fill. lia. Qed.

Lemma pipe_full_test (p : pipe) : pipe_ok p -> (nwrite p =? u32 (nread p + PIPESIZE)) = (fill p =? PIPESIZE).
Proof. intros [_ Hr Hw Hf]. unfold fill in *. destruct (Z.eqb_spec (nwrite p) (u32 (nread p + PIPESIZE))), (Z.eqb_spec (u32 (nwrite p - nread p)) PIPESIZE); try done; zlia. Qed.

Lemma empty_test (p : pipe) : pipe_ok p -> (nread p =? nwrite p) = (fill p =? 0).
Proof. intros [_ Hr Hw Hf]. unfold fill in *. destruct (Z.eqb_spec (nread p) (nwrite p)), (Z.eqb_spec (u32 (nwrite p - nread p)) 0); try done; zlia. Qed.

Lemma put_fill (p : pipe) (c : Z) : pipe_ok p -> fill p < PIPESIZE -> fill (put_byte c p) = fill p + 1.
Proof. intros [_ Hr Hw _] Hf. unfold fill, put_byte in *. cbn [nwrite nread]. zlia. Qed.

Lemma take_fill (p : pipe) : pipe_ok p -> 0 < fill p -> fill (take_byte p).2 = fill p - 1.
Proof. intros [_ Hr Hw _] Hf. unfold fill, take_byte in *. cbn [nwrite nread snd]. zlia. Qed.

(** [put_byte] appends and [take_byte] removes the first byte: the counters are
    taken modulo 2^32 and the indices modulo 512, which divides it. *)
Lemma put_queue (p : pipe) (c : Z) :
  pipe_ok p -> fill p < PIPESIZE -> pipe_ok (put_byte c p) /\ queue (put_byte c p) = queue p ++ [i8 c].
Proof.
  intros O Hf. pose proof (put_fill p c O Hf) as Hp. destruct O as [Hl Hr Hw _].
  pose proof (u32_range (nwrite p - nread p)) as Hrange. fold (fill p) in Hrange.
  split; [split; cbn [p_lock nread nwrite put_byte]; try done; [apply u32_range|lia]|].
  unfold queue. rewrite Hp. rewrite seqZ_app by lia. rewrite fmap_app. cbn [nread put_byte]. f_equal.
  - apply list_fmap_ext. intros i k Hk. apply lookup_seqZ in Hk as [-> Hi]. unfold put_byte. cbn [p_data].
    destruct (Z.eqb_spec ((nread p + (0 + Z.of_nat i)) mod PIPESIZE) (nwrite p mod PIPESIZE)) as [E|]; [|done].
    exfalso. unfold fill in *. zlia.
  - replace (seqZ (0 + fill p) 1) with [fill p] by done. cbn. f_equal. unfold put_byte. cbn [p_data].
    destruct (Z.eqb_spec ((nread p + fill p) mod PIPESIZE) (nwrite p mod PIPESIZE)) as [|E]; [done|].
    exfalso. apply E. unfold fill. zlia.
Qed.

Lemma take_queue (p : pipe) :
  pipe_ok p -> 0 < fill p -> pipe_ok (take_byte p).2 /\ queue p = (take_byte p).1 :: queue (take_byte p).2.
Proof.
  intros O Hf. pose proof (take_fill p O Hf) as Hp. destruct O as [Hl Hr Hw Hm].
  split; [split; [done|apply u32_range|done|rewrite Hp; lia]|].
  unfold queue. rewrite Hp. rewrite (seqZ_cons 0 (fill p)) by lia. cbn [fmap list_fmap]. f_equal.
  - cbn. by rewrite Z.add_0_r.
  - replace (Z.pred (fill p)) with (fill p - 1) by lia. rewrite <- (Z.add_0_r 1) at 1.
    apply list_eq. intros i. rewrite !list_lookup_fmap. destruct (decide (Z.of_nat i < fill p - 1)) as [H|H].
    + rewrite !lookup_seqZ_lt by lia. cbn. f_equal. f_equal. zlia.
    + rewrite !lookup_seqZ_ge by lia. done.
Qed.

(** The bytes [addr[i .. i+k-1]], as [char]s. *)
Definition chars (addr : Z -> Z) (i k : Z) : list Z := (fun j => i8 (addr (i + j))) <$> seqZ 0 k.

Lemma chars_cons (addr : Z -> Z) (i k : Z) : 0 < k -> chars addr i k = i8 (addr i) :: chars addr (i + 1) (k - 1).
Proof.
  intros Hk. unfold chars. rewrite (seqZ_cons 0 k) by lia. cbn [fmap list_fmap]. rewrite Z.add_0_r. f_equal.
  apply list_eq. intros j. rewrite !list_lookup_fmap. destruct (decide (Z.of_nat j < k - 1)) as [H|H].
  - rewrite !lookup_seqZ_lt by lia. cbn. f_equal. f_equal. f_equal. lia.
  - rewrite !lookup_seqZ_ge by lia. done.
Qed.

(** What a writer that starts at byte [i] of [n] leaves. *)
Record pwrite_post (addr : Z -> Z) (i n : Z) (s s' : pipest) (r : io Z) (k : Z) : Prop := mkwpost {
  wp_ok : pipe_ok (the s');
  wp_queue : queue (the s') = queue (the s) ++ chars addr i k;
  wp_count : 0 <= k <= n - i;
  wp_ends : readopen (the s') = readopen (the s) /\ writeopen (the s') = writeopen (the s);
  wp_result : match r with
              | Done x => (x = n /\ k = n - i /\ woken s' = Nread :: woken s) \/
                          (x = -1 /\ fill (the s') = PIPESIZE /\ woken s' = woken s /\
                           (readopen (the s) = 0 \/ killed s <> 0))
              | Asleep c j => c = Nwrite /\ j = i + k /\ j < n /\ fill (the s') = PIPESIZE /\
                              woken s' = Nread :: woken s /\ readopen (the s) <> 0
              end;
}.

Lemma held_put (p : pipe) (c : Z) :
  held_ok p -> fill p < PIPESIZE ->
  held_ok (put_byte c p) /\ queue (put_byte c p) = queue p ++ [i8 c].
Proof.
  intros [Hl O] Hf. destruct (put_queue (set_p_lock false p) c O Hf) as [O' HQ]. split; [|exact HQ]. split; [done|exact O'].
Qed.

Lemma wp_release_pipe (s : pipest) Q :
  p_lock (the s) = true -> Q tt (set_the (set_p_lock false (the s)) s) -> wp release_pipe Q s.
Proof. intros Hl HQ. eapply wp_from_Ok; [|exact HQ]. unfold release_pipe. by rewrite Hl. Qed.

Lemma wp_acquire_pipe (s : pipest) Q :
  p_lock (the s) = false -> Q tt (set_the (set_p_lock true (the s)) s) -> wp acquire_pipe Q s.
Proof. intros Hl HQ. eapply wp_from_Ok; [|exact HQ]. unfold acquire_pipe. by rewrite Hl. Qed.

Lemma wp_wake (c : chan) (s : pipest) Q : Q tt (mkpst (the s) (c :: woken s) (killed s)) -> wp (wake c) Q s.
Proof. exact id. Qed.

Ltac pipe_step :=
  cbn beta; match goal with
  | |- wp (wake _) _ _ => apply wp_wake
  | |- wp release_pipe _ _ => apply wp_release_pipe; [done|]
  | |- wp acquire_pipe _ _ => apply wp_acquire_pipe; [done|]
  | _ => wp_step
  end; cbn [the woken killed set_the].

Lemma write_from_spec (fuel : nat) (addr : Z -> Z) (i n : Z) (s : pipest) :
  held_ok (the s) -> Z.of_nat fuel = n - i ->
  wp (write_from fuel addr i n) (fun r s' => exists k, pwrite_post addr i n s s' r k) s.
Proof.
  revert i s. induction fuel as [|fuel IH]; intros i s [Hl O] HF; cbn [write_from].
  - repeat pipe_step. exists 0. split; cbn [the set_the]; try done; try lia; [by rewrite app_nil_r|].
    left. split_and!; done || lia.
  - pose proof (pipe_full_test _ O) as HT. cbn [nwrite nread set_p_lock] in HT. do 2 (wp_step; cbn beta). unfold id. rewrite HT.
    change (fill (set_p_lock false (the s))) with (fill (the s)) in *.
    destruct (Z.eqb_spec (fill (the s)) PIPESIZE) as [E|E].
    + wp_step; repeat pipe_step; exists 0; (split; cbn [the set_the woken]; try done; try lia; [by rewrite app_nil_r|]).
      * right. split_and!; done || lia.
      * split_and!; done || lia.
    + assert (Hlt : fill (the s) < PIPESIZE) by (pose proof (po_fill _ O) as HP; change (fill (set_p_lock false (the s))) with (fill (the s)) in HP; lia).
      destruct (held_put (the s) (addr i) (conj Hl O) Hlt) as [H' HQ]. repeat (wp_step; cbn beta).
      eapply wp_mono; [apply IH; [exact H'|lia]|]. intros r s' (k & [P1 P2 P3 P4 P5]). cbn [the set_the woken killed] in *.
      exists (k + 1). split; try done; try lia.
      * rewrite P2, HQ, (chars_cons addr i (k + 1)) by lia. rewrite <- app_assoc. cbn. by replace (k + 1 - 1) with k by lia.
      * destruct r as [x|c j]; [|naive_solver lia]. destruct P5 as [(-> & -> & Hw)|P5]; [left|right; done].
        split_and!; done || lia.
Qed.

Lemma write_spec (addr : Z -> Z) (i n : Z) (s : pipest) :
  pipe_ok (the s) -> i <= n ->
  wp (pipewrite_resume addr i n) (fun r s' => exists k, pwrite_post addr i n s s' r k) s.
Proof.
  intros O Hi. unfold pipewrite_resume. pipe_step. apply wp_acquire_pipe; [apply O|].
  eapply wp_mono; [apply write_from_spec; [|lia]|].
  - split; [done|]. cbn. destruct s as [p w kl]. cbn in *. destruct O as [O1 O2 O3 O4]. destruct p; cbn in *. by subst.
  - intros r s' (k & [P1 P2 P3 P4 P5]). exists k. by split.
Qed.

Lemma copy_out_spec (n : nat) (p : pipe) :
  pipe_ok (set_p_lock false p) -> let '(l, p') := copy_out n p in
  pipe_ok (set_p_lock false p') /\ queue p = l ++ queue p' /\ length l = Nat.min n (length (queue p)) /\
  p_lock p' = p_lock p /\ readopen p' = readopen p /\ writeopen p' = writeopen p.
Proof.
  revert p. induction n as [|n IH]; intros p O; cbn [copy_out]; [done|].
  change (nread p =? nwrite p) with (nread (set_p_lock false p) =? nwrite (set_p_lock false p)). rewrite (empty_test _ O).
  change (fill (set_p_lock false p)) with (fill p). destruct (Z.eqb_spec (fill p) 0) as [E|E].
  - pose proof (queue_length p) as HL. assert (length (queue p) = 0%nat) as H0 by lia. split_and!; try done. by rewrite H0.
  - assert (Hf : 0 < fill p) by (pose proof (u32_range (nwrite p - nread p)); unfold fill in *; lia).
    destruct (take_queue (set_p_lock false p) O Hf) as [O' HQ].
    change (queue p = (take_byte p).1 :: queue (take_byte p).2) in HQ. change (pipe_ok (set_p_lock false (take_byte p).2)) in O'.
    destruct (take_byte p) as [c p1] eqn:ET. cbn [fst snd] in *.
    specialize (IH p1 O'). destruct (copy_out n p1) as [l p']. destruct IH as (I1 & I2 & I3 & I4 & I5 & I6).
    rewrite HQ. unfold take_byte in ET. injection ET as <- <-. split_and!; try done; [by rewrite I2|]. cbn [length]. lia.
Qed.

Lemma pipe_ok_lock (p : pipe) (b : bool) : pipe_ok p -> set_p_lock false (set_p_lock b p) = p.
Proof. intros []. destruct p; cbn in *. by subst. Qed.

(** What a reader of [n] bytes leaves. *)
Definition pread_post (n : Z) (s s' : pipest) (r : io (Z * list Z)) : Prop :=
  match r with
  | Done (m, l) =>
      (m = -1 /\ l = [] /\ s' = s /\ killed s <> 0) \/
      (m = Z.of_nat (length l) /\ queue (the s) = l ++ queue (the s') /\ woken s' = Nwrite :: woken s /\
       length l = Nat.min (Z.to_nat n) (length (queue (the s))) /\ (queue (the s) = [] -> writeopen (the s) = 0))
  | Asleep c _ => c = Nread /\ s' = s /\ queue (the s) = [] /\ writeopen (the s) <> 0
  end.

Lemma queue_nil (p : pipe) : queue p = [] <-> fill p = 0.
Proof. rewrite <- queue_length. split; [by intros ->|]. intros H. apply nil_length_inv. lia. Qed.

Lemma read_spec (n : Z) (s : pipest) :
  pipe_ok (the s) ->
  wp (piperead n) (fun r s' => pipe_ok (the s') /\ readopen (the s') = readopen (the s) /\
    writeopen (the s') = writeopen (the s) /\ pread_post n s s' r) s.
Proof.
  intros O. pose proof (po_free _ O) as Hl. unfold piperead. pipe_step. apply wp_acquire_pipe; [done|].
  do 2 (wp_step; cbn beta). unfold id. cbn [the set_the killed].
  change (nread (set_p_lock true (the s)) =? nwrite (set_p_lock true (the s))) with (nread (the s) =? nwrite (the s)).
  rewrite (empty_test _ O).
  assert (Hs : mkpst (set_p_lock false (set_p_lock true (the s))) (woken s) (killed s) = s).
  { rewrite (pipe_ok_lock _ _ O). by destruct s. }
  wp_step.
  - zbool. wp_step; repeat pipe_step; unfold set_the; cbn [the woken killed]; rewrite Hs; unfold pread_post.
    + split_and!; try done; [by rewrite (pipe_ok_lock _ _ O)|left]. by split_and!; zbool.
    + split_and!; try done; [by rewrite (pipe_ok_lock _ _ O)|]. by apply queue_nil.
  - pose proof (copy_out_spec (Z.to_nat n) (set_p_lock true (the s))) as HC. rewrite (pipe_ok_lock _ _ O) in HC. specialize (HC O).
    destruct (copy_out (Z.to_nat n) (set_p_lock true (the s))) as [l p']. destruct HC as (C1 & C2 & C3 & C4 & C5 & C6).
    repeat (cbn [p_lock set_p_lock] in C4; pipe_step). split_and!; try done. right. split_and!; try done.
    intros E. apply queue_nil in E. rewrite E in *. cbn in Heqb. by apply negb_false_iff, Z.eqb_eq in Heqb.
Qed.

(** ** Readers and writers together *)

#[export] Instance chan_eq_dec : EqDecision chan.
Proof. solve_decision. Defined.

(** A pipe, the channels with a process asleep on them, all bytes that writers
    have put in and readers have got, and whether a killed writer has given up
    at a full pipe. *)
Record psys := mkpsys {
  sp : pipe;
  sleepers : list chan;
  sent : list Z;
  rcvd : list Z;
  gave_up : bool;
}.

Definition after {A} (r : io A) (w : list chan) (sl : list chan) : list chan :=
  filter (fun c => c ∉ w) sl ++ match r with Done _ => [] | Asleep c _ => [c] end.

Definition gives_up (kl : Z) (r : io Z) : bool :=
  match r with Done x => negb (kl =? 0) && (x =? -1) | Asleep _ _ => false end.

(** A process, killed or not, writes (from the start or woken up), reads, or
    closes an end; or a process that sleeps is killed and made runnable.  Who
    writes or reads has the end open, and an end is not closed while a process
    is asleep using it. *)
Inductive pstep : psys -> psys -> Prop :=
| ps_write p sl st rc g kl addr i n r s' :
    writeopen p <> 0 -> 0 <= i <= n ->
    pipewrite_resume addr i n (mkpst p [] kl) = Ok r s' ->
    pstep (mkpsys p sl st rc g)
          (mkpsys (the s') (after r (woken s') sl) (st ++ chars addr i (fill (the s') - fill p)) rc
                  (g || gives_up kl r))
| ps_read p sl st rc g kl n r s' :
    readopen p <> 0 ->
    piperead n (mkpst p [] kl) = Ok r s' ->
    pstep (mkpsys p sl st rc g)
          (mkpsys (the s') (after r (woken s') sl) st (rc ++ match r with Done (_, l) => l | Asleep _ _ => [] end) g)
| ps_close p sl st rc g kl writable b s' :
    (if writable =? 0 then Nread ∉ sl else Nwrite ∉ sl) ->
    pipeclose writable (mkpst p [] kl) = Ok b s' ->
    pstep (mkpsys p sl st rc g) (mkpsys (the s') (after (Done tt) (woken s') sl) st rc g)
| ps_kill p sl1 c sl2 st rc g :
    pstep (mkpsys p (sl1 ++ c :: sl2) st rc g) (mkpsys p (sl1 ++ sl2) st rc g).

Record psys_inv (S : psys) : Prop := mkpsinv {
  pv_ok : pipe_ok (sp S);
  pv_fifo : sent S = rcvd S ++ queue (sp S);
  pv_reader : Nread ∈ sleepers S -> readopen (sp S) <> 0 /\ writeopen (sp S) <> 0 /\
                (gave_up S = false -> queue (sp S) = []);
  pv_writer : Nwrite ∈ sleepers S -> fill (sp S) = PIPESIZE /\ readopen (sp S) <> 0;
}.

Lemma elem_after {A} (c : chan) (r : io A) (w sl : list chan) :
  c ∈ after r w sl -> (c ∈ sl /\ c ∉ w) \/ (exists i, r = Asleep c i).
Proof.
  unfold after. rewrite elem_of_app, list_elem_of_filter. intros [[H1 H2]|H]; [by left|right].
  destruct r as [a|c' i]; [by apply not_elem_of_nil in H|]. apply list_elem_of_singleton in H as ->. eauto.
Qed.

Lemma write_inv (p : pipe) (sl : list chan) (st rc : list Z) g kl addr i n r s' :
  psys_inv (mkpsys p sl st rc g) -> writeopen p <> 0 -> 0 <= i <= n ->
  pipewrite_resume addr i n (mkpst p [] kl) = Ok r s' ->
  psys_inv (mkpsys (the s') (after r (woken s') sl) (st ++ chars addr i (fill (the s') - fill p)) rc (g || gives_up kl r)).
Proof.
  intros [O F HR HW] Hw Hi E. cbn in *.
  destruct (wp_Ok _ _ _ (write_spec addr i n (mkpst p [] kl) O ltac:(lia))) as (r0 & s0 & E0 & k & [P1 P2 P3 [P4a P4b] P5]).
  rewrite E in E0. injection E0 as <- <-. cbn [the woken killed] in *.
  assert (HF : fill (the s') - fill p = k).
  { rewrite <- !queue_length, P2, length_app. unfold chars. rewrite length_fmap, length_seqZ. lia. }
  pose proof (po_fill _ P1) as HM.
  split; cbn [sp sleepers sent rcvd gave_up]; [done|rewrite HF, P2, F; by rewrite app_assoc|..].
  - intros Hin. rewrite P4a, P4b. apply elem_after in Hin as [[Hin Hn]|[j ->]]; [|by destruct P5].
    destruct (HR Hin) as (HO & HC & _). split_and!; [done|done|]. intros HG. exfalso.
    destruct r as [x|c j]; [destruct P5 as [(_ & _ & EW)|(-> & _ & _ & [|Hk])]|destruct P5 as (_ & _ & _ & _ & EW & _)];
      [rewrite EW in Hn; apply Hn; left|done| |rewrite EW in Hn; apply Hn; left].
    cbn in HG. rewrite (proj2 (Z.eqb_neq kl 0) Hk) in HG. by destruct g.
  - intros Hin. rewrite P4a. apply elem_after in Hin as [[Hin Hn]|[j ->]]; [|by destruct P5 as (_ & _ & _ & ? & _ & ?)].
    destruct (HW Hin) as [HP HO]. split; [lia|done].
Qed.

Lemma read_inv (p : pipe) (sl : list chan) (st rc : list Z) g kl n r s' :
  psys_inv (mkpsys p sl st rc g) -> readopen p <> 0 -> piperead n (mkpst p [] kl) = Ok r s' ->
  psys_inv (mkpsys (the s') (after r (woken s') sl) st (rc ++ match r with Done (_, l) => l | Asleep _ _ => [] end) g).
Proof.
  intros [O F HR HW] Ho E. cbn in *.
  destruct (wp_Ok _ _ _ (read_spec n (mkpst p [] kl) O)) as (r0 & s0 & E0 & P1 & P2 & P3 & P4).
  rewrite E in E0. injection E0 as <- <-. unfold pread_post in P4. cbn [the woken killed] in *.
  destruct r as [[m l]|c j].
  - destruct P4 as [(_ & -> & -> & _)|(_ & Q1 & Q2 & _ & Q3)].
    { cbn [the woken]. split; cbn [sp sleepers sent rcvd gave_up]; [done|by rewrite app_nil_r|..];
        intros Hin; apply elem_after in Hin as [[Hin _]|[? [=]]]; auto. }
    split; cbn [sp sleepers sent rcvd gave_up]; [done|by rewrite F, Q1, app_assoc|..]; rewrite Q2.
    + intros Hin. apply elem_after in Hin as [[Hin _]|[? [=]]]. destruct (HR Hin) as (H1 & Hc & EQ).
      rewrite P2, P3. split_and!; [done|done|]. intros Hg. by destruct (Hc (Q3 (EQ Hg))).
    + intros Hin. apply elem_after in Hin as [[_ Hn]|[? [=]]]. destruct Hn. left.
  - destruct P4 as (-> & -> & Q1 & Q2). cbn [the woken] in *.
    split; cbn [sp sleepers sent rcvd gave_up]; [done|by rewrite app_nil_r|done|].
    intros Hin. apply elem_after in Hin as [[Hin _]|[? [=]]]. by apply HW.
Qed.

Lemma close_inv (p : pipe) (sl : list chan) (st rc : list Z) g kl writable b s' :
  psys_inv (mkpsys p sl st rc g) -> (if writable =? 0 then Nread ∉ sl else Nwrite ∉ sl) ->
  pipeclose writable (mkpst p [] kl) = Ok b s' ->
  psys_inv (mkpsys (the s') (after (Done tt) (woken s') sl) st rc g).
Proof.
  intros [O F HR HW] Hsl E. cbn in *. unfold pipeclose, acquire_pipe, release_pipe, wake, bind, modify, gets in E.
  cbn [the set_the p_lock set_p_lock set_open] in E. rewrite (po_free _ O) in E.
  destruct O as [O1 O2 O3 O4]. destruct (writable =? 0); cbn in E; injection E as _ <-; cbn [the woken set_the];
    (split; cbn [sp sleepers sent rcvd gave_up]; [by split|done|..]); intros Hin; apply elem_after in Hin as [[Hin Hn]|[? [=]]].
  - done.
  - destruct Hn. left.
  - destruct Hn. left.
  - done.
Qed.

Lemma kill_inv (p : pipe) (sl1 sl2 : list chan) (c : chan) (st rc : list Z) g :
  psys_inv (mkpsys p (sl1 ++ c :: sl2) st rc g) -> psys_inv (mkpsys p (sl1 ++ sl2) st rc g).
Proof.
  intros [O F HR HW]. cbn in *. split; cbn; try done; intros Hin; [apply HR|apply HW]; set_solver.
Qed.

Lemma pstep_inv (S S' : psys) : pstep S S' -> psys_inv S -> psys_inv S'.
Proof.
  destruct 1; intros I; [by eapply write_inv|by eapply read_inv|by eapply close_inv|by eapply kill_inv].
Qed.

Lemma reach_inv (data : Z -> Z) (S : psys) :
  rtc pstep (mkpsys (newpipe data) [] [] [] false) S -> psys_inv S.
Proof.
  intros HS. assert (I0 : psys_inv (mkpsys (newpipe data) [] [] [] false)).
  { split; cbn; [by split|done|by intros ?%not_elem_of_nil..]. }
  revert I0. induction HS as [|S1 S2 S3 H _ IH]; eauto using pstep_inv.
Qed.

(** C23. A pipe is a first-in first-out queue of at most [PIPESIZE] bytes: after
    any sequence of writes, reads and closes, by processes killed or not, in any
    order and with any number of processes going to sleep and being woken or
    killed, what readers have got followed by what is in the pipe is exactly
    what writers have put in.  A writer is asleep only when the pipe is full and
    a reader could still come.  A reader is asleep only when a writer could
    still come and, as long as no killed writer has returned -1 from a write,
    only when the pipe is empty: no wakeup is lost. *)
Theorem pipe_fifo (data : Z -> Z) (S : psys) :
  rtc pstep (mkpsys (newpipe data) [] [] [] false) S ->
  sent S = rcvd S ++ queue (sp S) /\ (length (queue (sp S)) <= 512)%nat /\
  (Nwrite ∈ sleepers S -> length (queue (sp S)) = 512%nat /\ readopen (sp S) <> 0) /\
  (Nread ∈ sleepers S -> writeopen (sp S) <> 0 /\ (gave_up S = false -> queue (sp S) = [])).
Proof.
  intros HS. destruct (reach_inv data S HS) as [O F HR HW].
  pose proof (queue_length (sp S)) as HL. pose proof (po_fill _ O) as HM. unfold PIPESIZE in *.
  split_and!; [done|lia| |naive_solver]. intros H. destruct (HW H). split; [lia|done].
Qed.

(** Two bytes are written, by a killed process, and one is read. *)
Lemma pipe_fifo_witness :
  exists S, rcvd S = [97] /\ sent S = [97; 98] /\ gave_up S = false /\
    sent S = rcvd S ++ queue (sp S) /\ (length (queue (sp S)) <= 512)%nat /\
    (Nwrite ∈ sleepers S -> length (queue (sp S)) = 512%nat /\ readopen (sp S) <> 0) /\
    (Nread ∈ sleepers S -> writeopen (sp S) <> 0 /\ (gave_up S = false -> queue (sp S) = [])).
Proof.
  assert (H : exists S, rtc pstep (mkpsys (newpipe (fun _ => 0)) [] [] [] false) S /\
                rcvd S = [97] /\ sent S = [97; 98] /\ gave_up S = false).
  { eexists. split; [|split_and!].
    - eapply rtc_l; [apply (ps_write (newpipe (fun _ => 0)) [] [] [] false 1 (fun i => 97 + i) 0 2); [done|lia|reflexivity]|].
      eapply rtc_l; [|apply rtc_refl]. apply (ps_read _ _ _ _ _ 0 1); [done|reflexivity].
    - reflexivity.
    - reflexivity.
    - reflexivity. }
  destruct H as (S & H & E1 & E2 & E3). exists S. split_and!; [done|done|done|..]; apply (pipe_fifo (fun _ => 0) S H).
Defined.

(** A writer that has been killed does not wake the readers for the bytes it
    has put in: in an empty pipe, a killed process that writes 513 bytes fills
    the pipe with 512 of them and returns -1, and no process asleep in
    [piperead] is woken. *)
Theorem killed_writer_wakes_nobody :
  exists s', pipewrite (fun _ => 7) 513 (mkpst (newpipe (fun _ => 0)) [] 1) = Ok (Done (-1)) s' /\
    fill (the s') = PIPESIZE /\ woken s' = [].
Proof. eexists. split; [vm_compute; reflexivity|]. split; vm_compute; reflexivity. Qed.
