(* ===== verification/Syscall.v ===== *)
(** * Syscall: the arguments of system calls ([syscall.c])

    The memory of the running process as it sees it, its size, its saved stack
    pointer and its open files; the routines that fetch arguments; and the
    theorem that what they accept lies inside the process. *)
From stdpp Require Import base gmap list numbers strings.
From Stdlib Require Import ZArith Lia ZifyBool.
From S2P Require Import Prelude Machine.


Record uproc := mkup {
  u_mem : memory;
  u_sz : Z;
  u_esp : Z;
  u_ofile : list (option nat);
  u_killed : Z;
  u_pid : Z;
}.
Definition set_u_mem (x : memory) (u : uproc) : uproc := mkup x (u_sz u) (u_esp u) (u_ofile u) (u_killed u) (u_pid u).
Definition set_u_ofile (x : list (option nat)) (u : uproc) : uproc :=
  mkup (u_mem u) (u_sz u) (u_esp u) x (u_killed u) (u_pid u).

Notation MU := (M uproc).

(** [None] is the result -1. *)
Definition fetchint (addr : Z) : MU (option Z) :=
  let! u := gets id in
  if (u_sz u <=? addr) || (u_sz u <? u32 (addr + 4)) then ret None
  else ret (Some (i32 (load32 (u_mem u) addr))).

(** The loop of [fetchstr]: the bytes before the NUL, of at most [n]. *)
Fixpoint find_nul (m : memory) (s : Z) (n : nat) : option (list Z) :=
  match n with
  | O => None
  | S n => if m s =? 0 then Some [] else cons (m s) <$> find_nul m (s + 1) n
  end.

(** The address and the string there. *)
Definition fetchstr (addr : Z) : MU (option (Z * list Z)) :=
  let! u := gets id in
  if u_sz u <=? addr then ret None
  else
    match find_nul (u_mem u) addr (Z.to_nat (u_sz u - addr)) with
    | Some l => ret (Some (addr, l))
    | None => ret None
    end.

Definition argint (n : Z) : MU (option Z) :=
  let! u := gets id in
  fetchint (u32 (u_esp u + 4 + 4 * n)).

Definition argptr (n size : Z) : MU (option Z) :=
  let! u := gets id in
  let! r := argint n in
  match r with
  | None => ret None
  | Some i =>
      if (size <? 0) || (u_sz u <=? u32 i) || (u_sz u <? u32 (u32 i + size)) then ret None
      else ret (Some (u32 i))
  end.

Definition argstr (n : Z) : MU (option (Z * list Z)) :=
  let! r := argint n in
  match r with
  | None => ret None
  | Some addr => fetchstr (u32 addr)
  end.

(** ** Arguments lie inside the process *)

Lemma find_nul_spec (m : memory) (n : nat) (s : Z) (l : list Z) :
  find_nul m s n = Some l ->
  (length l < n)%nat /\ m (s + Z.of_nat (length l)) = 0 /\
  (forall i, (i < length l)%nat -> l !! i = Some (m (s + Z.of_nat i)) /\ m (s + Z.of_nat i) <> 0).
Proof.
  revert s l. induction n as [|n IH]; intros s l; cbn; [done|]. destruct (Z.eqb_spec (m s) 0) as [E|E].
  - intros [= <-]. cbn. rewrite Z.add_0_r. split_and!; [lia|done|]. intros i Hi. lia.
  - destruct (find_nul m (s + 1) n) as [l'|] eqn:EF; cbn; [|done]. intros [= <-].
    destruct (IH _ _ EF) as (H1 & H2 & H3). cbn [length]. split_and!; [lia| |].
    + rewrite <- H2. f_equal. lia.
    + intros [|i] Hi; [cbn; by rewrite Z.add_0_r|]. change ((m s :: l') !! S i) with (l' !! i).
      destruct (H3 i ltac:(lia)) as [-> HN]. by replace (s + Z.of_nat (S i)) with (s + 1 + Z.of_nat i) by lia.
Qed.

(** The words that the calls read. *)
Definition word_in (u : uproc) (a : Z) : Prop := 0 <= a /\ a + 4 <= u_sz u.

Lemma fetchint_spec (u : uproc) (a x : Z) (u' : uproc) :
  0 <= u_sz u <= 2147483648 -> 0 <= a -> fetchint a u = Ok (Some x) u' ->
  u' = u /\ word_in u a /\ x = i32 (load32 (u_mem u) a).
Proof.
  intros Hs Ha. unfold fetchint, bind, gets, id. destruct (_ || _) eqn:E; [done|].
  intros [= <- <-]. zbool. rewrite u32_id in * by lia. done.
Qed.

(** C24. A pointer argument that [argptr] accepts for [size] bytes is the word that
    the caller pushed, that word and all [size] bytes are below the size of the
    process, and no address computation wraps around; a string argument that
    [argstr] accepts starts below the size of the process, ends with the first
    NUL after it, and that NUL is still below the size.  [argint] reads only a
    word of the process.  In each case the process is not changed. *)
Theorem arguments_in_process (u u' : uproc) (n : Z) :
  0 <= u_sz u <= 2147483648 ->
  (forall size p, -2147483648 <= size < 2147483648 -> argptr n size u = Ok (Some p) u' ->
     u' = u /\ word_in u (u32 (u_esp u + 4 + 4 * n)) /\
     p = u32 (load32 (u_mem u) (u32 (u_esp u + 4 + 4 * n))) /\ 0 <= size /\ 0 <= p < u_sz u /\ p + size <= u_sz u) /\
  (forall p l, argstr n u = Ok (Some (p, l)) u' ->
     u' = u /\ word_in u (u32 (u_esp u + 4 + 4 * n)) /\
     0 <= p /\ p + Z.of_nat (length l) < u_sz u /\ u_mem u (p + Z.of_nat (length l)) = 0 /\
     (forall i, (i < length l)%nat -> l !! i = Some (u_mem u (p + Z.of_nat i)) /\ u_mem u (p + Z.of_nat i) <> 0)) /\
  (forall x, argint n u = Ok (Some x) u' -> u' = u /\ word_in u (u32 (u_esp u + 4 + 4 * n)) /\ -2147483648 <= x < 2147483648).
Proof.
  intros Hs. pose proof (u32_range (u_esp u + 4 + 4 * n)) as Ha.
  assert (HI : forall x v, argint n u = Ok (Some x) v -> v = u /\ word_in u (u32 (u_esp u + 4 + 4 * n)) /\
                 x = i32 (load32 (u_mem u) (u32 (u_esp u + 4 + 4 * n)))).
  { intros x v E. apply fetchint_spec; [done|lia|exact E]. }
  split_and!.
  - intros size p Hsz E. unfold argptr, bind, gets, id in E. destruct (argint n u) as [[x|] v| | | |] eqn:EI; try done.
    destruct (HI x v eq_refl) as (-> & HW & ->). destruct (_ || _) eqn:EC; [done|]. injection E as <- <-. zbool.
    assert (EU : forall z, u32 (i32 z) = u32 z) by (intros; zlia). rewrite EU in *.
    pose proof (u32_range (load32 (u_mem u) (u32 (u_esp u + 4 + 4 * n)))) as HR. rewrite u32_id in * by lia.
    split_and!; done || lia.
  - intros p l E. unfold argstr, fetchstr, bind, gets, id in E. destruct (argint n u) as [[x|] v| | | |] eqn:EI; try done.
    destruct (HI x v eq_refl) as (-> & HW & ->). destruct (u_sz u <=? _) eqn:EC; [done|].
    destruct (find_nul _ _ _) as [l'|] eqn:EF; [|done]. injection E as <- <- <-. zbool.
    destruct (find_nul_spec _ _ _ _ EF) as (H1 & H2 & H3). pose proof (u32_range (i32 (load32 (u_mem u) (u32 (u_esp u + 4 + 4 * n))))).
    split_and!; try done; lia.
  - intros x E. destruct (HI x u' E) as (-> & HW & ->). split_and!; [done|done|zlia..].
Qed.

(** A process of one page whose stack holds the arguments 100 and 200; at 100
    there is the string "a". *)
Definition sample_up : uproc :=
  mkup (store8 (store32 (store32 (fun _ => 0) 4000 100) 4004 200) 100 97) 4096 3996 [] 0 1.

Lemma arguments_in_process_witness :
  argptr 1 50 sample_up = Ok (Some 200) sample_up /\ argstr 0 sample_up = Ok (Some (100, [97])) sample_up /\
  200 + 50 <= u_sz sample_up /\ 100 + 1 < u_sz sample_up.
Proof.
  destruct (arguments_in_process sample_up sample_up 1) as (H1 & _ & _); [cbn; lia|].
  destruct (arguments_in_process sample_up sample_up 0) as (_ & H2 & _); [cbn; lia|].
  assert (E1 : argptr 1 50 sample_up = Ok (Some 200) sample_up) by reflexivity.
  assert (E2 : argstr 0 sample_up = Ok (Some (100, [97])) sample_up) by reflexivity.
  split; [exact E1|]. split; [exact E2|]. split.
  - apply (H1 50 200); [lia|exact E1].
  - apply (H2 100 [97] E2).
Defined.
