(* ===== verification/File.v ===== *)
(** * File: open files and their system calls ([file.c], [pipe.c], [sysfile.c])

    The file table over the file system, the pipes and the page allocator.  A
    pointer to a [struct file] is its index in [ftable]; a pipe is found at the
    address of the page it lives in. *)
From stdpp Require Import base gmap list numbers strings.
From Stdlib Require Import ZArith Lia ZifyBool.
From S2P Require Import Prelude Machine Cstring Kalloc LockThms Bio Log Fs Pipe Syscall.

Definition O_RDONLY : Z := 0.
Definition O_WRONLY : Z := 1.
Definition O_RDWR : Z := 2.
Definition O_CREATE : Z := 512.

Inductive fdtype := FD_NONE | FD_PIPE | FD_INODE.

Record file := mkfile {
  f_type : fdtype;
  f_ref : Z;
  f_readable : Z;
  f_writable : Z;
  f_pipe : Z;
  f_ip : nat;
  f_off : Z;
}.
Definition set_f_ref (x : Z) (f : file) : file :=
  mkfile (f_type f) x (f_readable f) (f_writable f) (f_pipe f) (f_ip f) (f_off f).
Definition set_f_type (x : fdtype) (f : file) : file :=
  mkfile x (f_ref f) (f_readable f) (f_writable f) (f_pipe f) (f_ip f) (f_off f).
Definition set_f_off (x : Z) (f : file) : file :=
  mkfile (f_type f) (f_ref f) (f_readable f) (f_writable f) (f_pipe f) (f_ip f) x.

Record filest := mkfst {
  ffs : fsst;
  fvm : vmst;
  ftable : list file;
  ft_lock : bool;
  pipes : gmap Z pipe;
  pwoken : list (Z * chan);
  up : uproc;
}.
Definition set_ffs (x : fsst) (s : filest) : filest :=
  mkfst x (fvm s) (ftable s) (ft_lock s) (pipes s) (pwoken s) (up s).
Definition set_fvm (x : vmst) (s : filest) : filest :=
  mkfst (ffs s) x (ftable s) (ft_lock s) (pipes s) (pwoken s) (up s).
Definition set_ftable (x : list file) (s : filest) : filest :=
  mkfst (ffs s) (fvm s) x (ft_lock s) (pipes s) (pwoken s) (up s).
Definition set_ft_lock (x : bool) (s : filest) : filest :=
  mkfst (ffs s) (fvm s) (ftable s) x (pipes s) (pwoken s) (up s).
Definition set_pipes (x : gmap Z pipe) (w : list (Z * chan)) (s : filest) : filest :=
  mkfst (ffs s) (fvm s) (ftable s) (ft_lock s) x w (up s).
Definition set_up (x : uproc) (s : filest) : filest :=
  mkfst (ffs s) (fvm s) (ftable s) (ft_lock s) (pipes s) (pwoken s) x.

Notation MI := (M filest).

Section File.
Context `{K : KernelImage} `{D : Disk} `{V : DevSw}.

Definition onfs {A} (c : MF A) : MI A := zoom ffs set_ffs c.
Definition onpages {A} (c : MV A) : MI A := zoom fvm set_fvm c.
Definition onproc {A} (c : MU A) : MI A := zoom up set_up c.
Definition begin_op_fs : MI unit := onfs (onlog begin_op).
Definition end_op_fs : MI unit := onfs (onlog end_op).

Definition acquire_ftable : MI unit := fun s =>
  if ft_lock s then Panic "acquire" else Ok tt (set_ft_lock true s).
Definition release_ftable : MI unit := fun s =>
  if ft_lock s then Ok tt (set_ft_lock false s) else Panic "release".

Definition getf (f : nat) : MI file := fun s =>
  match ftable s !! f with Some x => Ok x s | None => Fault "ftable" end.
Definition setf (f : nat) (g : file -> file) : MI unit :=
  modify (fun s => set_ftable (alter g f (ftable s)) s).

(** Running a routine on the pipe at [p]. *)
Definition onpipe {A} (p : Z) (c : M pipest A) : MI A := fun s =>
  match pipes s !! p with
  | None => Fault "pipe"
  | Some x =>
      match c (mkpst x [] (u_killed (up s))) with
      | Ok a t => Ok a (set_pipes (<[p := the t]> (pipes s)) ((pair p <$> woken t) ++ pwoken s) s)
      | Panic m => Panic m
      | Fault w => Fault w
      | Block ch => Block ch
      | NoFuel => NoFuel
      end
  end.

(** ** [file.c] *)

Definition fileinit : MI unit := modify (set_ft_lock false).

Fixpoint find_file (i : nat) (l : list file) : option nat :=
  match l with
  | [] => None
  | f :: l => if f_ref f =? 0 then Some i else find_file (S i) l
  end.

Definition filealloc : MI (option nat) :=
  acquire_ftable ;;;
  let! l := gets ftable in
  match find_file 0 l with
  | Some f => setf f (set_f_ref 1) ;;; release_ftable ;;; ret (Some f)
  | None => release_ftable ;;; ret None
  end.

Definition filedup (f : nat) : MI nat :=
  acquire_ftable ;;;
  let! x := getf f in
  if f_ref x <? 1 then panic "filedup"
  else
    setf f (set_f_ref (i32 (f_ref x + 1))) ;;;
    release_ftable ;;;
    ret f.

(** [pipeclose], with the [kfree] of the page when both ends are closed. *)
Definition close_pipe (p writable : Z) : MI unit :=
  let! last := onpipe p (pipeclose writable) in
  when last
    (modify (fun s => set_pipes (delete p (pipes s)) (pwoken s) s) ;;;
     onpages (kfree p)).

Definition fileclose (f : nat) : MI unit :=
  acquire_ftable ;;;
  let! x := getf f in
  if f_ref x <? 1 then panic "fileclose"
  else
    setf f (set_f_ref (f_ref x - 1)) ;;;
    if 0 <? f_ref x - 1 then release_ftable
    else
      setf f (fun x => set_f_type FD_NONE (set_f_ref 0 x)) ;;;
      release_ftable ;;;
      match f_type x with
      | FD_PIPE => close_pipe (f_pipe x) (f_writable x)
      | FD_INODE => begin_op_fs ;;; onfs (iput (f_ip x)) ;;; end_op_fs
      | FD_NONE => ret tt
      end.

Definition filestat (f : nat) : MI (option stat) :=
  let! x := getf f in
  match f_type x with
  | FD_INODE =>
      onfs (ilock (f_ip x)) ;;;
      let! st := onfs (stati (f_ip x)) in
      onfs (iunlock (f_ip x)) ;;;
      ret (Some st)
  | _ => ret None
  end.

Definition fileread (f : nat) (n : Z) : MI (io (Z * list Z)) :=
  let! x := getf f in
  if f_readable x =? 0 then ret (Done (-1, []))
  else
    match f_type x with
    | FD_PIPE => onpipe (f_pipe x) (piperead n)
    | FD_INODE =>
        onfs (ilock (f_ip x)) ;;;
        let! r := onfs (readi (f_ip x) (f_off x) (u32 n)) in
        when (0 <? r.1) (setf f (fun x => set_f_off (u32 (f_off x + r.1)) x)) ;;;
        onfs (iunlock (f_ip x)) ;;;
        ret (Done r)
    | FD_NONE => panic "fileread"
    end.

Definition write_max : Z := (MAXOPBLOCKS - 1 - 1 - 2) / 2 * 512.

(** One transaction of [filewrite]: at most [write_max] bytes. *)
Definition write_chunk (f : nat) (addr : Z -> Z) (i n1 : Z) : MI Z :=
  let! x := getf f in
  begin_op_fs ;;;
  onfs (ilock (f_ip x)) ;;;
  let! r := onfs (writei (f_ip x) (fun k => addr (i + k)) (f_off x) n1) in
  when (0 <? r) (setf f (fun x => set_f_off (u32 (f_off x + r)) x)) ;;;
  onfs (iunlock (f_ip x)) ;;;
  end_op_fs ;;;
  ret r.

Fixpoint filewrite_loop (fuel : nat) (f : nat) (addr : Z -> Z) (i n : Z) : MI Z :=
  match fuel with
  | O => fun _ => NoFuel
  | S fuel =>
      if i <? n then
        let n1 := if write_max <? n - i then write_max else n - i in
        let! r := write_chunk f addr i n1 in
        if r <? 0 then ret i
        else if negb (r =? n1) then panic "short filewrite"
        else filewrite_loop fuel f addr (i + r) n
      else ret i
  end.

Definition filewrite (f : nat) (addr : Z -> Z) (n : Z) : MI (io Z) :=
  let! x := getf f in
  if f_writable x =? 0 then ret (Done (-1))
  else
    match f_type x with
    | FD_PIPE => onpipe (f_pipe x) (pipewrite addr n)
    | FD_INODE =>
        let! i := filewrite_loop (S (Z.to_nat n)) f addr 0 n in
        ret (Done (if i =? n then n else -1))
    | FD_NONE => panic "filewrite"
    end.

(** ** [pipealloc] *)

Definition close_opt (f : option nat) : MI unit :=
  match f with Some f => fileclose f | None => ret tt end.

(** The page is zeroed memory or junk, whatever [kalloc] left in it; only the
    fields that the code sets are determined. *)
Definition pipealloc (junk : Z -> Z) : MI (option (nat * nat)) :=
  let! f0 := filealloc in
  let! f1 := (match f0 with None => ret None | Some _ => filealloc end) in
  match f0, f1 with
  | Some a, Some b =>
      let! p := onpages kalloc in
      if p =? 0 then
        fileclose a ;;; fileclose b ;;; ret None
      else
        modify (fun s => set_pipes (<[p := newpipe junk]> (pipes s)) (pwoken s) s) ;;;
        setf a (fun x => mkfile FD_PIPE (f_ref x) 1 0 p (f_ip x) (f_off x)) ;;;
        setf b (fun x => mkfile FD_PIPE (f_ref x) 0 1 p (f_ip x) (f_off x)) ;;;
        ret (Some (a, b))
  | _, _ => close_opt f0 ;;; close_opt f1 ;;; ret None
  end.
(** ** [sysfile.c] *)

(** Storing bytes in the memory of the process. *)
Definition uwrite (a : Z) (l : list Z) : MI unit :=
  onproc (modify (fun u => set_u_mem (put_bytes (u_mem u) a (fun i => nth (Z.to_nat i) l 0) (Z.of_nat (length l))) u)).

(** The descriptor and its file. *)
Definition argfd (n : Z) : MI (option (Z * nat)) :=
  let! r := onproc (argint n) in
  match r with
  | None => ret None
  | Some fd =>
      let! u := gets up in
      if (fd <? 0) || (NOFILE <=? fd) then ret None
      else
        match u_ofile u !! Z.to_nat fd with
        | Some (Some f) => ret (Some (fd, f))
        | _ => ret None
        end
  end.

Fixpoint free_fd (i : nat) (l : list (option nat)) : option nat :=
  match l with
  | [] => None
  | None :: _ => Some i
  | Some _ :: l => free_fd (S i) l
  end.

Definition set_fd (fd : nat) (x : option nat) : MI unit :=
  onproc (modify (fun u => set_u_ofile (<[fd := x]> (u_ofile u)) u)).

Definition fdalloc (f : nat) : MI (option nat) :=
  let! u := gets up in
  match free_fd 0 (u_ofile u) with
  | Some fd => set_fd fd (Some f) ;;; ret (Some fd)
  | None => ret None
  end.

Definition sys_dup : MI Z :=
  let! r := argfd 0 in
  match r with
  | None => ret (-1)
  | Some (_, f) =>
      let! fd := fdalloc f in
      match fd with
      | None => ret (-1)
      | Some fd => filedup f ;;; ret (Z.of_nat fd)
      end
  end.

(** The arguments of [sys_read] and [sys_write]. *)
Definition arg_rw : MI (option (nat * Z * Z)) :=
  let! r := argfd 0 in
  match r with
  | None => ret None
  | Some (_, f) =>
      let! n := onproc (argint 2) in
      match n with
      | None => ret None
      | Some n =>
          let! p := onproc (argptr 1 n) in
          match p with
          | None => ret None
          | Some p => ret (Some (f, p, n))
          end
      end
  end.

Definition sys_read : MI (io Z) :=
  let! r := arg_rw in
  match r with
  | None => ret (Done (-1))
  | Some (f, p, n) =>
      let! r := fileread f n in
      match r with
      | Done (m, l) => uwrite p l ;;; ret (Done m)
      | Asleep c i => ret (Asleep c i)
      end
  end.

Definition sys_write : MI (io Z) :=
  let! r := arg_rw in
  match r with
  | None => ret (Done (-1))
  | Some (f, p, n) =>
      let! u := gets up in
      filewrite f (fun i => u_mem u (p + i)) n
  end.

Definition sys_close : MI Z :=
  let! r := argfd 0 in
  match r with
  | None => ret (-1)
  | Some (fd, f) =>
      set_fd (Z.to_nat fd) None ;;;
      fileclose f ;;;
      ret 0
  end.

(** [struct stat] as bytes in memory: its fields are at 0, 4, 8, 12 and 16. *)
Definition enc_stat (m : memory) (a : Z) (st : stat) : memory :=
  store32 (store16 (store32 (store32 (store16 m a (st_type st)) (a + 4) (st_dev st))
    (a + 8) (st_ino st)) (a + 12) (st_nlink st)) (a + 16) (st_size st).

Definition sys_fstat : MI Z :=
  let! r := argfd 0 in
  match r with
  | None => ret (-1)
  | Some (_, f) =>
      let! p := onproc (argptr 1 20) in
      match p with
      | None => ret (-1)
      | Some p =>
          let! st := filestat f in
          match st with
          | None => ret (-1)
          | Some st => onproc (modify (fun u => set_u_mem (enc_stat (u_mem u) p st) u)) ;;; ret 0
          end
      end
  end.

(** The exit of [sys_link] that takes the new link back. *)
Definition link_bad (ip : nat) : MI Z :=
  onfs (ilock ip) ;;;
  onfs (setd ip (fun d => set_nlink (i16 (d_nlink d - 1)) d)) ;;;
  onfs (iupdate ip) ;;;
  onfs (iunlockput ip) ;;;
  end_op_fs ;;;
  ret (-1).

Definition sys_link : MI Z :=
  let! old := onproc (argstr 0) in
  match old with
  | None => ret (-1)
  | Some (_, old) =>
      let! new := onproc (argstr 1) in
      match new with
      | None => ret (-1)
      | Some (_, new) =>
          begin_op_fs ;;;
          let! ip := onfs (namei old) in
          match ip with
          | None => end_op_fs ;;; ret (-1)
          | Some ip =>
              onfs (ilock ip) ;;;
              let! x := onfs (geti ip) in
              if i_type x =? T_DIR then
                onfs (iunlockput ip) ;;; end_op_fs ;;; ret (-1)
              else
                onfs (setd ip (fun d => set_nlink (i16 (d_nlink d + 1)) d)) ;;;
                onfs (iupdate ip) ;;;
                onfs (iunlock ip) ;;;
                let! r := onfs (nameiparent new (fun _ => 0)) in
                match r with
                | (None, _) => link_bad ip
                | (Some dp, name) =>
                    onfs (ilock dp) ;;;
                    let! d := onfs (geti dp) in
                    let! x := onfs (geti ip) in
                    let! e := (if negb (i_dev d =? i_dev x) then ret (-1)
                               else onfs (dirlink dp name (i_inum x))) in
                    if e <? 0 then onfs (iunlockput dp) ;;; link_bad ip
                    else
                      onfs (iunlockput dp) ;;;
                      onfs (iput ip) ;;;
                      end_op_fs ;;;
                      ret 0
                end
          end
      end
  end.

Fixpoint isdirempty_loop (fuel : nat) (dp : nat) (off : Z) : MF bool :=
  match fuel with
  | O => fun _ => NoFuel
  | S fuel =>
      let! x := geti dp in
      if off <? i_size x then
        let! de := read_dirent dp off "isdirempty: readi" in
        if negb (de_inum de =? 0) then ret false else isdirempty_loop fuel dp (off + 16)
      else ret true
  end.

Definition isdirempty (dp : nat) : MF bool :=
  let! x := geti dp in
  isdirempty_loop (S (Z.to_nat (i_size x / 16 + 1))) dp 32.

Definition dot : Z -> Z := fun i => if i =? 0 then 46 else 0.
Definition dotdot : Z -> Z := fun i => if (i =? 0) || (i =? 1) then 46 else 0.

Definition unlink_bad (dp : nat) : MI Z :=
  onfs (iunlockput dp) ;;; end_op_fs ;;; ret (-1).

(** The end of [sys_unlink]: the entry of [ip] at [off] of [dp] is removed. *)
Definition unlink_entry (dp ip : nat) (off : Z) : MI Z :=
  let! r := onfs (writei dp (fun _ => 0) off 16) in
  if negb (r =? 16) then panic "unlink: writei"
  else
    let! x := onfs (geti ip) in
    when (i_type x =? T_DIR)
      (onfs (setd dp (fun d => set_nlink (i16 (d_nlink d - 1)) d)) ;;;
       onfs (iupdate dp)) ;;;
    onfs (iunlockput dp) ;;;
    onfs (setd ip (fun d => set_nlink (i16 (d_nlink d - 1)) d)) ;;;
    onfs (iupdate ip) ;;;
    onfs (iunlockput ip) ;;;
    end_op_fs ;;;
    ret 0.

Definition sys_unlink : MI Z :=
  let! path := onproc (argstr 0) in
  match path with
  | None => ret (-1)
  | Some (_, path) =>
      begin_op_fs ;;;
      let! r := onfs (nameiparent path (fun _ => 0)) in
      match r with
      | (None, _) => end_op_fs ;;; ret (-1)
      | (Some dp, name) =>
          onfs (ilock dp) ;;;
          if (namecmp name dot =? 0) || (namecmp name dotdot =? 0) then unlink_bad dp
          else
            let! e := onfs (dirlookup dp name) in
            match e with
            | None => unlink_bad dp
            | Some (ip, off) =>
                onfs (ilock ip) ;;;
                let! x := onfs (geti ip) in
                if i_nlink x <? 1 then panic "unlink: nlink < 1"
                else
                  let! full := (if i_type x =? T_DIR then let! b := onfs (isdirempty ip) in ret (negb b) else ret false) in
                  if full then onfs (iunlockput ip) ;;; unlink_bad dp
                  else unlink_entry dp ip off
            end
      end
  end.
(** The end of [create]: a new inode for the entry [name] of [dp]. *)
Definition create_new (dp : nat) (name : memory) (type major minor : Z) : MF (option nat) :=
  let! d := geti dp in
  let! ip := ialloc (i_dev d) type in
  ilock ip ;;;
  setd ip (fun x => set_nlink 1 (set_dev_no major minor x)) ;;;
  iupdate ip ;;;
  let! x := geti ip in
  when (type =? T_DIR)
    (setd dp (fun d => set_nlink (i16 (d_nlink d + 1)) d) ;;;
     iupdate dp ;;;
     let! r := dirlink ip dot (i_inum x) in
     if r <? 0 then panic "create dots"
     else
       let! r := dirlink ip dotdot (i_inum d) in
       if r <? 0 then panic "create dots" else ret tt) ;;;
  let! r := dirlink dp name (i_inum x) in
  if r <? 0 then panic "create: dirlink"
  else iunlockput dp ;;; ret (Some ip).

Definition create (path : list Z) (type major minor : Z) : MF (option nat) :=
  let! r := nameiparent path (fun _ => 0) in
  match r with
  | (None, _) => ret None
  | (Some dp, name) =>
      ilock dp ;;;
      let! e := dirlookup dp name in
      match e with
      | Some (ip, _) =>
          iunlockput dp ;;;
          ilock ip ;;;
          let! x := geti ip in
          if (type =? T_FILE) && (i_type x =? T_FILE) then ret (Some ip)
          else iunlockput ip ;;; ret None
      | None => create_new dp name type major minor
      end
  end.

(** The inode that [sys_open] opens, locked. *)
Definition open_inode (path : list Z) (omode : Z) : MF (option nat) :=
  if negb (Z.land omode O_CREATE =? 0) then create path T_FILE 0 0
  else
    let! r := namei path in
    match r with
    | None => ret None
    | Some ip =>
        ilock ip ;;;
        let! x := geti ip in
        if (i_type x =? T_DIR) && negb (omode =? O_RDONLY) then iunlockput ip ;;; ret None
        else ret (Some ip)
    end.

Definition bool_int (b : bool) : Z := if b then 1 else 0.

Definition sys_open : MI Z :=
  let! path := onproc (argstr 0) in
  match path with
  | None => ret (-1)
  | Some (_, path) =>
      let! omode := onproc (argint 1) in
      match omode with
      | None => ret (-1)
      | Some omode =>
          begin_op_fs ;;;
          let! r := onfs (open_inode path omode) in
          match r with
          | None => end_op_fs ;;; ret (-1)
          | Some ip =>
              let! f := filealloc in
              let! fd := (match f with None => ret None | Some f => fdalloc f end) in
              match f, fd with
              | Some f, Some fd =>
                  onfs (iunlock ip) ;;;
                  end_op_fs ;;;
                  setf f (fun x => mkfile FD_INODE (f_ref x)
                                     (bool_int (Z.land omode O_WRONLY =? 0))
                                     (bool_int (negb (Z.land omode O_WRONLY =? 0) || negb (Z.land omode O_RDWR =? 0)))
                                     (f_pipe x) ip 0) ;;;
                  ret (Z.of_nat fd)
              | _, _ =>
                  close_opt f ;;;
                  onfs (iunlockput ip) ;;;
                  end_op_fs ;;;
                  ret (-1)
              end
          end
      end
  end.

Definition sys_mkdir : MI Z :=
  begin_op_fs ;;;
  let! path := onproc (argstr 0) in
  let! r := (match path with None => ret None | Some (_, path) => onfs (create path T_DIR 0 0) end) in
  match r with
  | None => end_op_fs ;;; ret (-1)
  | Some ip => onfs (iunlockput ip) ;;; end_op_fs ;;; ret 0
  end.

Definition sys_mknod : MI Z :=
  begin_op_fs ;;;
  let! path := onproc (argstr 0) in
  let! major := onproc (argint 1) in
  let! minor := onproc (argint 2) in
  let! r := (match path, major, minor with
             | Some (_, path), Some major, Some minor => onfs (create path T_DEV (i16 major) (i16 minor))
             | _, _, _ => ret None
             end) in
  match r with
  | None => end_op_fs ;;; ret (-1)
  | Some ip => onfs (iunlockput ip) ;;; end_op_fs ;;; ret 0
  end.

Definition sys_chdir : MI Z :=
  begin_op_fs ;;;
  let! path := onproc (argstr 0) in
  let! r := (match path with None => ret None | Some (_, path) => onfs (namei path) end) in
  match r with
  | None => end_op_fs ;;; ret (-1)
  | Some ip =>
      onfs (ilock ip) ;;;
      let! x := onfs (geti ip) in
      if negb (i_type x =? T_DIR) then onfs (iunlockput ip) ;;; end_op_fs ;;; ret (-1)
      else
        onfs (iunlock ip) ;;;
        let! c := onfs (gets cwd) in
        onfs (iput c) ;;;
        end_op_fs ;;;
        onfs (modify (set_fcwd ip)) ;;;
        ret 0
  end.

(** The strings of [argv], from the [i]-th, of at most [n] more. *)
Fixpoint fetch_argv (n : nat) (uargv i : Z) : MU (option (list (list Z))) :=
  match n with
  | O => ret None
  | S n =>
      let! uarg := fetchint (u32 (uargv + 4 * i)) in
      match uarg with
      | None => ret None
      | Some uarg =>
          if uarg =? 0 then ret (Some [])
          else
            let! s := fetchstr (u32 uarg) in
            match s with
            | None => ret None
            | Some (_, s) =>
                let! l := fetch_argv n uargv (i + 1) in
                ret (cons s <$> l)
            end
      end
  end.

Definition sys_exec (exec : list Z -> list (list Z) -> MI Z) : MI Z :=
  let! path := onproc (argstr 0) in
  let! uargv := onproc (argint 1) in
  match path, uargv with
  | Some (_, path), Some uargv =>
      let! argv := onproc (fetch_argv (Z.to_nat MAXARG) (u32 uargv) 0) in
      match argv with
      | None => ret (-1)
      | Some argv => exec path argv
      end
  | _, _ => ret (-1)
  end.

Definition sys_pipe (junk : Z -> Z) : MI Z :=
  let! p := onproc (argptr 0 8) in
  match p with
  | None => ret (-1)
  | Some p =>
      let! r := pipealloc junk in
      match r with
      | None => ret (-1)
      | Some (rf, wf) =>
          let! fd0 := fdalloc rf in
          let! fd1 := (match fd0 with None => ret None | Some _ => fdalloc wf end) in
          match fd0, fd1 with
          | Some fd0, Some fd1 =>
              onproc (modify (fun u => set_u_mem (store32 (store32 (u_mem u) p (Z.of_nat fd0)) (p + 4) (Z.of_nat fd1)) u)) ;;;
              ret 0
          | _, _ =>
              (match fd0 with Some fd0 => set_fd fd0 None | None => ret tt end) ;;;
              fileclose rf ;;;
              fileclose wf ;;;
              ret (-1)
          end
      end
  end.
End File.
