(* ===== verification/Console.v ===== *)
(** * Console: the console ([console.c], [uart.c])

    Formatted output, the text screen and the serial line, the input line with
    its editing keys, and the history of commands that the up and down keys
    recall.  The devices are the cursor register, the cells of the screen and
    the bytes sent on the line. *)
From stdpp Require Import base gmap list numbers strings.
From Stdlib Require Import ZArith Lia ZifyBool.
From S2P Require Import Prelude Machine LockThms Bio Log Fs.

Definition BACKSPACE : Z := 256.
Definition INPUT_BUF : Z := 128.
Definition MAX_MEMORY : Z := 5.
Definition KEY_UP : Z := 226.
Definition KEY_DN : Z := 227.
Definition newline : Z := 10.
(** [C(x)], a control character, of the letter [x]. *)
Definition ctrl (x : Z) : Z := x - 64.
#[export] Hint Unfold INPUT_BUF : xv6.

(** [History]: [PervCmd] points to rows of [temp_buf]. *)
Record History := mkhist {
  PervCmd : list (option nat);
  cmd_count : Z;
  cursor : Z;
  hsize : list Z;
}.

Record consst := mkcons {
  cons_lock : bool;
  cons_locking : Z;
  panicked : Z;
  uart : Z;
  serial : list Z;
  crt : Z -> Z;
  crtpos : Z;
  ibuf : Z -> Z;
  i_r : Z;
  i_w : Z;
  i_e : Z;
  history : History;
  temp_buf : nat -> Z -> Z;
  cons_woken : list unit;
  cons_killed : Z;
}.

Definition set_cons_lock (x : bool) (s : consst) : consst :=
  mkcons x (cons_locking s) (panicked s) (uart s) (serial s) (crt s) (crtpos s) (ibuf s) (i_r s) (i_w s) (i_e s)
    (history s) (temp_buf s) (cons_woken s) (cons_killed s).
Definition set_cons_flags (l p : Z) (s : consst) : consst :=
  mkcons (cons_lock s) l p (uart s) (serial s) (crt s) (crtpos s) (ibuf s) (i_r s) (i_w s) (i_e s)
    (history s) (temp_buf s) (cons_woken s) (cons_killed s).
Definition set_serial (x : list Z) (s : consst) : consst :=
  mkcons (cons_lock s) (cons_locking s) (panicked s) (uart s) x (crt s) (crtpos s) (ibuf s) (i_r s) (i_w s) (i_e s)
    (history s) (temp_buf s) (cons_woken s) (cons_killed s).
Definition set_screen (c : Z -> Z) (p : Z) (s : consst) : consst :=
  mkcons (cons_lock s) (cons_locking s) (panicked s) (uart s) (serial s) c p (ibuf s) (i_r s) (i_w s) (i_e s)
    (history s) (temp_buf s) (cons_woken s) (cons_killed s).
Definition set_input (b : Z -> Z) (r w e : Z) (s : consst) : consst :=
  mkcons (cons_lock s) (cons_locking s) (panicked s) (uart s) (serial s) (crt s) (crtpos s) b r w e
    (history s) (temp_buf s) (cons_woken s) (cons_killed s).
Definition set_history (x : History) (s : consst) : consst :=
  mkcons (cons_lock s) (cons_locking s) (panicked s) (uart s) (serial s) (crt s) (crtpos s) (ibuf s) (i_r s) (i_w s) (i_e s)
    x (temp_buf s) (cons_woken s) (cons_killed s).
Definition set_temp (x : nat -> Z -> Z) (s : consst) : consst :=
  mkcons (cons_lock s) (cons_locking s) (panicked s) (uart s) (serial s) (crt s) (crtpos s) (ibuf s) (i_r s) (i_w s) (i_e s)
    (history s) x (cons_woken s) (cons_killed s).
Definition wake_reader (s : consst) : consst :=
  mkcons (cons_lock s) (cons_locking s) (panicked s) (uart s) (serial s) (crt s) (crtpos s) (ibuf s) (i_r s) (i_w s) (i_e s)
    (history s) (temp_buf s) (tt :: cons_woken s) (cons_killed s).

Notation MC := (M consst).

Definition acquire_cons : MC unit := fun s =>
  if cons_lock s then Panic "acquire" else Ok tt (set_cons_lock true s).
Definition release_cons : MC unit := fun s =>
  if cons_lock s then Ok tt (set_cons_lock false s) else Panic "release".

(** A CPU that loops for ever. *)
Definition freeze {A} : MC A := sleep_on (-1).

(** ** Output *)

(** [uartputc]: the byte is sent after the port is ready or 128 polls. *)
Definition uartputc (c : Z) : MC unit :=
  modify (fun s => if uart s =? 0 then s else set_serial (serial s ++ [u8 c]) s).

(** A cell of the screen, which has 25 rows of 80 columns. *)
Definition crt_store (p v : Z) : MC unit := fun s =>
  if (0 <=? p) && (p <? 25 * 80) then Ok tt (set_screen (fun i => if i =? p then v else crt s i) (crtpos s) s)
  else Fault "crt".

(** The [memmove] and [memset] that scroll up; [pos] is the new position. *)
Definition scroll (pos : Z) (c : Z -> Z) : Z -> Z :=
  let c1 := fun i => if (0 <=? i) && (i <? 23 * 80) then c (i + 80) else c i in
  fun i => if (pos <=? i) && (i <? 24 * 80) then 0 else c1 i.

Definition cgaputc (c : Z) : MC unit :=
  let! s := gets id in
  let pos := crtpos s in
  let! pos :=
    (if c =? newline then ret (pos + (80 - pos mod 80))
     else if c =? BACKSPACE then ret (if 0 <? pos then pos - 1 else pos)
     else crt_store pos (Z.lor (Z.land c 255) 1792) ;;; ret (pos + 1)) in
  if (pos <? 0) || (25 * 80 <? pos) then panic "pos under/overflow"
  else
    let! pos :=
      (if 24 <=? pos / 80 then
         modify (fun s => set_screen (scroll (pos - 80) (crt s)) (crtpos s) s) ;;; ret (pos - 80)
       else ret pos) in
    modify (fun s => set_screen (crt s) (u16 pos) s) ;;;
    crt_store pos (Z.lor 32 1792).

Definition consputc (c : Z) : MC unit :=
  let! s := gets id in
  if negb (panicked s =? 0) then freeze
  else
    (if c =? BACKSPACE then uartputc 8 ;;; uartputc 32 ;;; uartputc 8 else uartputc c) ;;;
    cgaputc c.

Fixpoint consputs (l : list Z) : MC unit :=
  match l with
  | [] => ret tt
  | c :: l => consputc c ;;; consputs l
  end.

(** ** [printint] *)

Definition digit (d : Z) : Z := if d <? 10 then 48 + d else 87 + d.

(** The characters stored in [buf], the last digit first. *)
Fixpoint digits_from (fuel : nat) (x base : Z) : list Z :=
  match fuel with
  | O => []
  | S fuel => digit (x mod base) :: (if x / base =? 0 then [] else digits_from fuel (x / base) base)
  end.

Definition printint_chars (xx base : Z) (sign : bool) : list Z :=
  let neg := sign && (xx <? 0) in
  let x := u32 (if neg then - xx else xx) in
  rev (digits_from 32 x base ++ if neg then [45] else []).

Definition printint (xx base : Z) (sign : bool) : MC unit := consputs (printint_chars xx base sign).

(** An argument of [cprintf]: a word, or a string (a null pointer is [None]). *)
Inductive arg := AInt (x : Z) | AStr (s : option (list Z)).

Definition null_str : list Z := [40; 110; 117; 108; 108; 41].

(** The loop of [cprintf] over the format; a conversion without its argument
    reads beyond the arguments. *)
Fixpoint format (fmt : list Z) (args : list arg) : MC unit :=
  match fmt with
  | [] => ret tt
  | c :: fmt =>
      if negb (c =? 37) then consputc c ;;; format fmt args
      else
        match fmt with
        | [] => ret tt
        | c :: fmt =>
            if c =? 100 then
              match args with AInt x :: args => printint (i32 x) 10 true ;;; format fmt args | _ => fault "va_arg" end
            else if (c =? 120) || (c =? 112) then
              match args with AInt x :: args => printint (i32 x) 16 false ;;; format fmt args | _ => fault "va_arg" end
            else if c =? 115 then
              match args with
              | AStr s :: args => consputs (match s with Some s => s | None => null_str end) ;;; format fmt args
              | _ => fault "va_arg"
              end
            else if c =? 37 then consputc 37 ;;; format fmt args
            else consputc 37 ;;; consputc c ;;; format fmt args
        end
  end.

Definition cprintf (fmt : list Z) (args : list arg) : MC unit :=
  let! s := gets id in
  let locking := negb (cons_locking s =? 0) in
  when locking acquire_cons ;;;
  format fmt args ;;;
  when locking release_cons.

(** ** Input *)

(** The byte of the input at the index [i], which is taken modulo [INPUT_BUF]. *)
Definition ibyte (s : consst) (i : Z) : Z := ibuf s (i mod INPUT_BUF).

(** [input.buf[input.e++ % INPUT_BUF] = c] *)
Definition append (c : Z) (s : consst) : consst :=
  set_input (fun k => if k =? i_e s mod INPUT_BUF then i8 c else ibuf s k) (i_r s) (i_w s) (u32 (i_e s + 1)) s.

(** [input.e--] *)
Definition unput (s : consst) : consst := set_input (ibuf s) (i_r s) (i_w s) (u32 (i_e s - 1)) s.

(** The copy loop of [InsertNewCmd] from index [i] of the input to column [j]
    of [row], to [last]; the new row and its length. *)
Fixpoint copy_line (fuel : nat) (buf : Z -> Z) (i last j : Z) (row : Z -> Z) : option ((Z -> Z) * Z) :=
  match fuel with
  | O => None
  | S fuel =>
      if i =? last then Some (row, j)
      else copy_line fuel buf ((i + 1) mod INPUT_BUF) last (j + 1) (fun k => if k =? j then buf i else row k)
  end.

Definition InsertNewCmd : MC unit :=
  let! s := gets id in
  let h := history s in
  let row := Z.to_nat (Z.rem (cmd_count h) 5) in
  match copy_line (S (Z.to_nat INPUT_BUF)) (ibuf s) (i_w s mod INPUT_BUF) (u32 (i_e s - 1) mod INPUT_BUF) 0 (fun _ => 0) with
  | None => fun _ => NoFuel
  | Some (line, j) =>
      modify (set_temp (fun k => if Nat.eqb k row then line else temp_buf s k)) ;;;
      modify (set_history (mkhist (Some row :: firstn 4 (PervCmd h)) (cmd_count h) (cursor h) (j :: firstn 4 (hsize h))))
  end.

Fixpoint kill_line_loop (fuel : nat) : MC unit :=
  match fuel with
  | O => fun _ => NoFuel
  | S fuel =>
      let! s := gets id in
      if negb (i_e s =? i_w s) && negb (ibyte s (u32 (i_e s - 1)) =? newline) then
        modify unput ;;;
        consputc BACKSPACE ;;;
        kill_line_loop fuel
      else ret tt
  end.

Definition killLine : MC unit :=
  let! s := gets id in
  kill_line_loop (S (Z.to_nat (u32 (i_e s - i_w s)))).

(** [history.size[k]]: the word before the array [size] is [cursor]. *)
Definition size_at (h : History) (k : Z) : option Z :=
  if k =? -1 then Some (cursor h) else if k <? 0 then None else hsize h !! Z.to_nat k.

(** The loop of [fillBuf], from column [i] of the [n]. *)
Fixpoint fill_loop (n : nat) (row : Z -> Z) (i : Z) : MC unit :=
  match n with
  | O => ret tt
  | S n => modify (append (row i)) ;;; fill_loop n row (i + 1)
  end.

Definition fillBuf : MC unit :=
  killLine ;;;
  let! s := gets id in
  match size_at (history s) (cursor (history s)) with
  | None => fault "history.size"
  | Some n =>
      if 0 <? n then
        match PervCmd (history s) !! Z.to_nat (cursor (history s)) with
        | Some (Some row) => fill_loop (Z.to_nat n) (temp_buf s row) 0
        | _ => fault "PervCmd"
        end
      else ret tt
  end.

Definition set_cursor (x : Z) (s : consst) : consst :=
  set_history (mkhist (PervCmd (history s)) (cmd_count (history s)) x (hsize (history s))) s.

Definition inc_cursor (h : History) : Z :=
  if cursor h =? 4 then 4
  else
    let c := Z.rem (cursor h + 1) 5 in
    if c =? cmd_count h then cmd_count h - 1 else c.
Definition IncCursor : MC unit := modify (fun s => set_cursor (inc_cursor (history s)) s).

Definition DecCursor : MC unit :=
  modify (fun s => if cursor (history s) <? 0 then s else set_cursor (cursor (history s) - 1) s).

Fixpoint print_loop (fuel : nat) (i : Z) : MC unit :=
  match fuel with
  | O => fun _ => NoFuel
  | S fuel =>
      let! s := gets id in
      if i =? i_e s mod INPUT_BUF then ret tt
      else
        consputc (ibuf s i) ;;;
        print_loop fuel ((i + 1) mod INPUT_BUF)
  end.

Definition printInput : MC unit :=
  let! s := gets id in
  print_loop (S (Z.to_nat INPUT_BUF)) (i_w s mod INPUT_BUF).

Definition KeyUpPressed : MC unit :=
  let! s := gets id in
  if cmd_count (history s) =? 0 then ret tt
  else IncCursor ;;; fillBuf ;;; printInput.

Definition KeyDownPressed : MC unit :=
  let! s := gets id in
  if cmd_count (history s) =? 0 then ret tt
  else if cursor (history s) =? -1 then killLine
  else DecCursor ;;; fillBuf ;;; printInput.

(** The line is complete. *)
Definition end_line : MC unit :=
  let! s := gets id in
  when (negb (u32 (i_e s - i_w s) =? 1))
    (InsertNewCmd ;;;
     modify (fun s => set_history (mkhist (PervCmd (history s)) (i32 (cmd_count (history s) + 1)) (-1) (hsize (history s))) s)) ;;;
  modify (fun s => wake_reader (set_input (ibuf s) (i_r s) (i_e s) (i_e s) s)).

(** One character of [consoleintr]'s loop; the result is [doprocdump]. *)
Definition cons_key (c : Z) : MC bool :=
  if c =? ctrl 80 then ret true
  else if c =? ctrl 85 then killLine ;;; ret false
  else if (c =? ctrl 72) || (c =? 127) then
    let! s := gets id in
    when (negb (i_e s =? i_w s)) (modify unput ;;; consputc BACKSPACE) ;;;
    ret false
  else if c =? KEY_UP then KeyUpPressed ;;; ret false
  else if c =? KEY_DN then KeyDownPressed ;;; ret false
  else
    let! s := gets id in
    when (negb (c =? 0) && (u32 (i_e s - i_r s) <? INPUT_BUF))
      (let c := if c =? 13 then newline else c in
       modify (append c) ;;;
       consputc c ;;;
       let! s := gets id in
       when ((c =? newline) || (c =? ctrl 68) || (i_e s =? u32 (i_r s + INPUT_BUF))) end_line) ;;;
    ret false.

Fixpoint cons_keys (cs : list Z) : MC bool :=
  match cs with
  | [] => ret false
  | c :: cs =>
      let! d := cons_key c in
      let! d' := cons_keys cs in
      ret (d || d')
  end.

(** [consoleintr] on the characters that [getc] gives; the result says that
    [procdump] is called. *)
Definition consoleintr (cs : list Z) : MC bool :=
  acquire_cons ;;;
  let! d := cons_keys cs in
  release_cons ;;;
  ret d.

(** ** Reading and writing *)

(** A reader returns a count and the bytes stored, or is asleep with the bytes
    stored so far. *)
Inductive cread := CDone (r : Z) (l : list Z) | CAsleep (l : list Z).

(** The loop of [consoleread] for [n] more bytes, [l] already stored; the lock
    is released when the process sleeps or is killed. *)
Fixpoint cread_loop (n : nat) (l : list Z) : MC cread :=
  match n with
  | O => release_cons ;;; ret (CDone (Z.of_nat (length l)) l)
  | S n =>
      let! s := gets id in
      if i_r s =? i_w s then
        if negb (cons_killed s =? 0) then release_cons ;;; ret (CDone (-1) l)
        else release_cons ;;; ret (CAsleep l)
      else
        let c := ibyte s (i_r s) in
        modify (set_input (ibuf s) (u32 (i_r s + 1)) (i_w s) (i_e s)) ;;;
        if c =? ctrl 68 then
          when (0 <? Z.of_nat (length l)) (modify (fun s => set_input (ibuf s) (u32 (i_r s - 1)) (i_w s) (i_e s) s)) ;;;
          release_cons ;;;
          ret (CDone (Z.of_nat (length l)) l)
        else if c =? newline then
          release_cons ;;;
          ret (CDone (Z.of_nat (length l) + 1) (l ++ [u8 c]))
        else cread_loop n (l ++ [u8 c])
  end.

(** The console with the inode of its device. *)
Record confs := mkconfs { con : consst; confs_fs : fsst }.
Definition oncon {A} (c : MC A) : M confs A := zoom con (fun x s => mkconfs x (confs_fs s)) c.
Definition onconfs {A} (c : MF A) : M confs A := zoom confs_fs (fun x s => mkconfs (con s) x) c.

Section Read.
Context `{D : Disk} `{V : DevSw}.

(** Going on, with the lock, after [l] has been stored. *)
Definition consoleread_from (ip : nat) (n : Z) (l : list Z) : M confs cread :=
  oncon acquire_cons ;;;
  let! r := oncon (cread_loop (Z.to_nat (n - Z.of_nat (length l))) l) in
  match r with
  | CDone _ _ => onconfs (ilock ip) ;;; ret r
  | CAsleep _ => ret r
  end.

Definition consoleread (ip : nat) (n : Z) : M confs cread :=
  onconfs (iunlock ip) ;;;
  consoleread_from ip n [].

Definition consolewrite (ip : nat) (buf : Z -> Z) (n : Z) : M confs Z :=
  onconfs (iunlock ip) ;;;
  oncon acquire_cons ;;;
  oncon (consputs ((fun i => u8 (buf i)) <$> seqZ 0 n)) ;;;
  oncon release_cons ;;;
  onconfs (ilock ip) ;;;
  ret n.
End Read.
