(* ===== verification/ConsoleThms.v ===== *)
(** * ConsoleThms: what the console guarantees

    Output stays on the screen, numbers are printed so that they can be read
    back, and the history recalls the lines that were typed; and the history
    key does not respect the bound of the input buffer. *)
From stdpp Require Import base gmap list numbers strings.
From Stdlib Require Import ZArith Lia ZifyBool.
From S2P Require Import Prelude Machine LockThms Bio Log Fs Console.

(** ** The screen *)

(** Only the devices differ. *)
Definition same_input (s s' : consst) : Prop :=
  cons_lock s' = cons_lock s /\ cons_locking s' = cons_locking s /\ panicked s' = panicked s /\ uart s' = uart s /\
  ibuf s' = ibuf s /\ i_r s' = i_r s /\ i_w s' = i_w s /\ i_e s' = i_e s /\ history s' = history s /\
  temp_buf s' = temp_buf s /\ cons_woken s' = cons_woken s /\ cons_killed s' = cons_killed s.

Lemma same_input_trans (s1 s2 s3 : consst) : same_input s1 s2 -> same_input s2 s3 -> same_input s1 s3.
Proof. unfold same_input. intuition congruence. Qed.

Lemma wp_crt_store (p v : Z) (s : consst) Q :
  0 <= p < 25 * 80 -> Q tt (set_screen (fun i => if i =? p then v else crt s i) (crtpos s) s) -> wp (crt_store p v) Q s.
Proof.
  intros Hp HQ. eapply wp_from_Ok; [|exact HQ]. unfold crt_store.
  destruct (Z.leb_spec 0 p), (Z.ltb_spec p (25 * 80)); cbn; lia || done.
Qed.

Lemma cgaputc_spec (c : Z) (s : consst) :
  0 <= crtpos s < 25 * 80 ->
  wp (cgaputc c) (fun _ s' => 0 <= crtpos s' <= 24 * 80 /\ serial s' = serial s /\ same_input s s') s.
Proof.
  intros Hp. unfold cgaputc. wp_step. wp_step. cbn beta zeta. wp_step. unfold id.
  set (Q := fun (pos : Z) (s' : consst) => 0 <= pos <= 25 * 80 /\ serial s' = serial s /\ same_input s s').
  apply (wp_mono _ Q).
  - subst Q. repeat (wp_step; cbn beta); [| |apply wp_crt_store; [done|]; wp_step];
      (split_and!; [repeat case_match; zbool; zlia..|done|unfold same_input; by split_and!]).
  - intros pos s1 (H1 & H2 & H3). wp_step; [zbool; lia|]. wp_step.
    apply (wp_mono _ (fun pos s' => 0 <= pos <= 24 * 80 /\ serial s' = serial s /\ same_input s s')).
    + repeat (wp_step; cbn beta); zbool; (split_and!; [zlia..|done|]); [|done]. by eapply same_input_trans.
    + intros pos' s2 (G1 & G2 & G3). repeat (wp_step; cbn beta). apply wp_crt_store; [lia|].
      cbn [crtpos set_screen serial]. unfold u16. rewrite Z.mod_small by lia. split_and!; try lia; [done|].
      eapply same_input_trans; [exact G3|]. by unfold same_input.
Qed.

(** The bytes sent on the serial line for a character. *)
Definition sent (s : consst) (c : Z) : list Z :=
  if uart s =? 0 then [] else if c =? BACKSPACE then [8; 32; 8] else [u8 c].

Lemma wp_uartputc (c : Z) (s : consst) Q :
  Q tt (set_serial (serial s ++ if uart s =? 0 then [] else [u8 c]) s) -> wp (uartputc c) Q s.
Proof.
  intros HQ. unfold uartputc. apply wp_modify. destruct (uart s =? 0); [|done]. rewrite app_nil_r in HQ. by destruct s.
Qed.

Lemma consputc_spec (c : Z) (s : consst) :
  0 <= crtpos s < 25 * 80 -> panicked s = 0 ->
  wp (consputc c) (fun _ s' => 0 <= crtpos s' <= 24 * 80 /\ serial s' = serial s ++ sent s c /\ same_input s s') s.
Proof.
  intros Hp Hk. unfold consputc. wp_step. wp_step. cbn beta. unfold id. rewrite Hk. cbn [Z.eqb negb]. wp_step.
  apply (wp_mono _ (fun _ s' => crtpos s' = crtpos s /\ serial s' = serial s ++ sent s c /\ same_input s s')).
  - unfold sent. destruct (c =? BACKSPACE); repeat first [wp_step|apply wp_uartputc]; cbn [uart serial set_serial crtpos];
      (split_and!; [done| |by unfold same_input]).
    + destruct (uart s =? 0); [by rewrite !app_nil_r|]. by rewrite <- !app_assoc.
    + done.
  - intros _ s1 (E1 & E2 & E3). eapply wp_mono; [apply cgaputc_spec; by rewrite E1|].
    intros _ s2 (G1 & G2 & G3). split_and!; [lia..|by rewrite G2|by eapply same_input_trans].
Qed.

(** The text [l] has come out, and nothing else has changed. *)
Definition prints (l : list Z) (s s' : consst) : Prop :=
  0 <= crtpos s' < 25 * 80 /\ serial s' = serial s ++ concat (sent s <$> l) /\ same_input s s'.

Lemma consputs_prints (l : list Z) (s : consst) :
  0 <= crtpos s < 25 * 80 -> panicked s = 0 -> wp (consputs l) (fun _ s' => prints l s s') s.
Proof.
  unfold prints. revert s. induction l as [|c l IH]; intros s Hp Hk; cbn [consputs].
  - apply wp_ret. cbn. rewrite app_nil_r. split_and!; [lia|lia|done|by unfold same_input].
  - wp_step. eapply wp_mono; [apply consputc_spec; [lia|done]|]. intros _ s1 (E1 & E2 & E3).
    assert (ES : forall x, sent s1 x = sent s x).
    { intros x. unfold sent. destruct E3 as (_ & _ & _ & -> & _). done. }
    eapply wp_mono; [apply IH; [lia|by destruct E3 as (_ & _ & -> & _)]|]. intros _ s2 (G1 & G2 & G3).
    split_and!; [lia..| |by eapply same_input_trans]. rewrite G2, E2. cbn. rewrite <- app_assoc. do 2 f_equal. f_equal.
    by apply list_fmap_ext.
Qed.

(** Output never leaves the screen: from any cursor position on the screen,
    writing any sequence of characters, newlines and backspaces returns (no
    store outside the 25 by 80 cells, no panic), leaves the cursor on the
    screen, sends exactly the characters on the serial line (a backspace as
    three) if there is one, and changes nothing else. *)
Theorem output_on_screen (l : list Z) (s : consst) :
  0 <= crtpos s < 25 * 80 -> panicked s = 0 ->
  wp (consputs l) (fun _ s' => 0 <= crtpos s' < 25 * 80 /\ serial s' = serial s ++ concat (sent s <$> l) /\ same_input s s') s.
Proof. apply consputs_prints. Qed.

Lemma output_on_screen_witness :
  let s := mkcons false 1 0 1 [] (fun _ => 0) 1999 (fun _ => 0) 0 0 0 (mkhist [] 0 0 []) (fun _ _ => 0) [] 0 in
  wp (consputs [104; newline; BACKSPACE]) (fun _ s' => 0 <= crtpos s' < 25 * 80 /\ serial s' = [] ++ [104; 10; 8; 32; 8] /\ same_input s s') s.
Proof. intros s. apply (output_on_screen [104; newline; BACKSPACE] s); cbn; lia. Defined.

(** ** Numbers *)

Definition digit_value (c : Z) : Z := if c <? 58 then c - 48 else c - 87.
Definition parse_digits (base : Z) (l : list Z) : Z := foldl (fun v c => v * base + digit_value c) 0 l.

(** Reading a number back. *)
Definition parse_int (base : Z) (l : list Z) : Z :=
  match l with
  | [] => 0
  | c :: l' => if c =? 45 then - parse_digits base l' else parse_digits base l
  end.

Lemma digit_value_digit (d : Z) : 0 <= d < 16 -> digit_value (digit d) = d.
Proof. intros Hd. unfold digit, digit_value. repeat case_match; zbool; lia. Qed.

Lemma digits_parse (fuel : nat) (x base : Z) :
  2 <= base <= 16 -> 0 <= x < base ^ Z.of_nat fuel -> (0 < fuel)%nat ->
  parse_digits base (rev (digits_from fuel x base)) = x.
Proof.
  intros Hb. revert x. induction fuel as [|fuel IH]; intros x Hx HF; [lia|]. cbn [digits_from rev].
  pose proof (Z.mod_pos_bound x base ltac:(lia)) as Hm. pose proof (Z.div_mod x base ltac:(lia)) as Hd.
  unfold parse_digits. rewrite foldl_app. cbn [foldl]. rewrite digit_value_digit by lia.
  destruct (Z.eqb_spec (x / base) 0) as [E|E]; [cbn; lia|]. fold (parse_digits base (rev (digits_from fuel (x / base) base))).
  rewrite Nat2Z.inj_succ, Z.pow_succ_r in Hx by lia.
  assert (Hq : 0 <= x / base < base ^ Z.of_nat fuel).
  { split; [apply Z.div_pos; lia|]. apply Z.div_lt_upper_bound; lia. }
  rewrite IH; [lia|done|]. destruct fuel; [cbn in Hq; lia|lia].
Qed.

Lemma digits_length (fuel k : nat) (x base : Z) :
  2 <= base -> 0 <= x < base ^ Z.of_nat k -> (0 < k)%nat -> (length (digits_from fuel x base) <= k)%nat.
Proof.
  intros Hb. revert k x. induction fuel as [|fuel IH]; intros k x Hx Hk; cbn [digits_from length]; [lia|].
  destruct (Z.eqb_spec (x / base) 0) as [E|E]; [cbn; lia|]. destruct k as [|k]; [lia|].
  rewrite Nat2Z.inj_succ, Z.pow_succ_r in Hx by lia.
  assert (Hq : 0 <= x / base < base ^ Z.of_nat k).
  { split; [apply Z.div_pos; lia|]. apply Z.div_lt_upper_bound; lia. }
  specialize (IH k (x / base) Hq). destruct k; [cbn in Hq; lia|]. lia.
Qed.

Lemma digits_no_sign (fuel : nat) (x base : Z) : 0 < base -> 45 ∉ digits_from fuel x base.
Proof.
  intros Hb. revert x. induction fuel as [|fuel IH]; intros x; cbn [digits_from]; [apply not_elem_of_nil|].
  apply not_elem_of_cons. split; [|destruct (_ =? 0); [apply not_elem_of_nil|apply IH]].
  pose proof (Z.mod_pos_bound x base Hb). unfold digit. repeat case_match; zbool; lia.
Qed.

Lemma parse_unsigned (base : Z) (l : list Z) : 45 ∉ l -> parse_int base l = parse_digits base l.
Proof.
  destruct l as [|c l]; [done|]. intros Hl%not_elem_of_cons. unfold parse_int.
  destruct (Z.eqb_spec c 45); [|done]. by destruct Hl.
Qed.

Lemma printint_unsigned (x base : Z) :
  10 <= base <= 16 -> 0 <= x < 4294967296 ->
  parse_int base (rev (digits_from 32 x base)) = x /\ parse_digits base (rev (digits_from 32 x base)) = x /\
  (length (digits_from 32 x base) <= 10)%nat.
Proof.
  intros Hb Hx. assert (HP : forall k, 10 <= k -> 4294967296 <= base ^ k).
  { intros k Hk. transitivity (10 ^ 10); [lia|]. transitivity (base ^ 10); [apply Z.pow_le_mono_l; lia|apply Z.pow_le_mono_r; lia]. }
  assert (E : parse_digits base (rev (digits_from 32 x base)) = x).
  { apply digits_parse; [lia| |lia]. specialize (HP (Z.of_nat 32)). lia. }
  split_and!; [|done|].
  - rewrite parse_unsigned; [done|]. rewrite list_elem_of_In, <- in_rev, <- list_elem_of_In. apply digits_no_sign. lia.
  - apply digits_length; [lia| |lia]. specialize (HP (Z.of_nat 10)). lia.
Qed.

(** What [printint] prints, read back as a number, is the number: for every
    [int], in decimal with a sign, also for the least one, and in hexadecimal
    as the unsigned word; and the characters fit in the sixteen bytes of its
    buffer. *)
Theorem printint_reads_back (xx : Z) :
  -2147483648 <= xx < 2147483648 ->
  parse_int 10 (printint_chars xx 10 true) = xx /\ parse_int 16 (printint_chars xx 16 false) = u32 xx /\
  (length (printint_chars xx 10 true) <= 16)%nat /\ (length (printint_chars xx 16 false) <= 16)%nat.
Proof.
  intros Hx. unfold printint_chars. cbn [andb]. rewrite !app_nil_r, !length_rev.
  destruct (printint_unsigned (u32 xx) 16 ltac:(lia) (u32_range xx)) as (H1 & _ & H2).
  destruct (Z.ltb_spec xx 0).
  - destruct (printint_unsigned (- xx) 10 ltac:(lia) ltac:(lia)) as (_ & H3 & H4). rewrite (u32_id (- xx)) by lia.
    rewrite rev_app_distr, length_app. cbn [rev app length]. split; [|split; [exact H1|split; [lia|lia]]].
    unfold parse_int. rewrite Z.eqb_refl, H3. lia.
  - destruct (printint_unsigned xx 10 ltac:(lia) ltac:(lia)) as (H3 & _ & H4). rewrite (u32_id xx) in * by lia.
    rewrite ?app_nil_r. split; [exact H3|]. split; [exact H1|]. split; [lia|lia].
Qed.

Lemma printint_reads_back_witness :
  parse_int 10 (printint_chars (-2147483648) 10 true) = -2147483648 /\
  parse_int 16 (printint_chars (-2147483648) 16 false) = u32 (-2147483648) /\
  (length (printint_chars (-2147483648) 10 true) <= 16)%nat /\ (length (printint_chars (-2147483648) 16 false) <= 16)%nat.
Proof. apply (printint_reads_back (-2147483648)). lia. Defined.

(** ** [panic] *)

Lemma prints_app (l l' : list Z) (s s1 s2 : consst) : prints l s s1 -> prints l' s1 s2 -> prints (l ++ l') s s2.
Proof.
  intros (P1 & P2 & P3) (Q1 & Q2 & Q3). split_and!; [lia..| |by eapply same_input_trans]. rewrite Q2, P2, fmap_app, concat_app, <- app_assoc. do 2 f_equal. f_equal.
  apply list_fmap_ext. intros _ x _. unfold sent. by destruct P3 as (_ & _ & _ & -> & _).
Qed.

Lemma prints_wp {A} (c : MC A) (l l' : list Z) (s s1 : consst) :
  prints l s s1 -> wp c (fun _ s2 => prints l' s1 s2) s1 -> wp c (fun _ s2 => prints (l ++ l') s s2) s1.
Proof. intros P W. eapply wp_mono; [exact W|]. intros a s2. by apply prints_app. Qed.

(** A format without conversions. *)
Lemma format_plain (l : list Z) : 37 ∉ l -> forall args, format l args = consputs l.
Proof.
  induction l as [|c l IH]; [done|]. rewrite not_elem_of_cons. intros [Hc Hl] args. cbn [format consputs]. replace (c =? 37) with false by lia. cbn [negb]. by rewrite IH.
Qed.

Definition chars_of (s : string) : list Z := (fun c => Z.of_nat (Ascii.nat_of_ascii c)) <$> String.list_ascii_of_string s.

(** The loop that prints the saved instruction pointers. *)
Fixpoint print_pcs (pcs : list Z) : MC unit :=
  match pcs with [] => ret tt | pc :: pcs => cprintf (chars_of " %p") [AInt pc] ;;; print_pcs pcs end.

(** [panic], up to its endless loop. *)
Definition kpanic (lapicid : Z) (s : list Z) (pcs : list Z) : MC unit :=
  modify (fun st => set_cons_flags 0 (panicked st) st) ;;;
  cprintf (chars_of "lapicid %d: panic: ") [AInt lapicid] ;;;
  cprintf s [] ;;;
  cprintf [newline] [] ;;;
  print_pcs pcs ;;;
  modify (fun st => set_cons_flags (cons_locking st) 1 st).

Definition panic_text (lapicid : Z) (s pcs : list Z) : list Z :=
  chars_of "lapicid " ++ printint_chars (i32 lapicid) 10 true ++ chars_of ": panic: " ++ s ++ [newline] ++ concat ((fun pc => 32 :: printint_chars (i32 pc) 16 false) <$> pcs).

Lemma consputc_prints (c : Z) (s : consst) : 0 <= crtpos s < 25 * 80 -> panicked s = 0 -> wp (consputc c) (fun _ s' => prints [c] s s') s.
Proof. intros Hp Hk. eapply wp_mono; [by apply consputc_spec|]. intros [] s' (E1 & E2 & E3). split_and!; [lia..| |done]. cbn. by rewrite app_nil_r. Qed.

Lemma prints_on (l : list Z) (s s' : consst) : prints l s s' -> panicked s = 0 -> 0 <= crtpos s' < 25 * 80 /\ panicked s' = 0.
Proof. intros (Hp & _ & _ & _ & -> & _). done. Qed.

(** A conversion of a number after plain text. *)
Lemma format_int (l r : list Z) (conv base : Z) (sgn : bool) (x : Z) (args : list arg) (Q : unit -> consst -> Prop) :
  37 ∉ l -> (conv, base, sgn) ∈ [(100, 10, true); (112, 16, false)] -> forall s,
  0 <= crtpos s < 25 * 80 -> panicked s = 0 ->
  (forall s', prints (l ++ printint_chars (i32 x) base sgn) s s' -> wp (format r args) Q s') -> wp (format (l ++ 37 :: conv :: r) (AInt x :: args)) Q s.
Proof.
  intros Hl Hconv. induction l as [|c l IH]; intros s Hp Hk HQ.
  - assert (E : format (37 :: conv :: r) (AInt x :: args) = (printint (i32 x) base sgn ;;; format r args)).
    { apply elem_of_cons in Hconv as [E|Hconv]; [by injection E as -> -> ->|]. apply list_elem_of_singleton in Hconv. by injection Hconv as -> -> ->. }
    cbn [app]. rewrite E. wp_step. eapply wp_mono; [by apply consputs_prints|]. intros [] s' HP. by apply HQ.
  - apply not_elem_of_cons in Hl as [Hc Hl]. cbn [app format]. replace (c =? 37) with false by lia. cbn [negb]. wp_step. eapply wp_mono; [by apply consputc_prints|].
    intros [] s1 P1. destruct (prints_on _ _ _ P1 Hk) as [Hp1 Hk1]. apply IH; try done. intros s' P2. apply HQ. apply (prints_app [c] _ s s1 s' P1 P2).
Qed.

Lemma cprintf_unlocked (fmt : list Z) (args : list arg) (s : consst) Q : cons_locking s = 0 -> wp (format fmt args) Q s -> wp (cprintf fmt args) Q s.
Proof. intros HL HW. unfold cprintf. wp_step. apply wp_gets. unfold id. rewrite HL. cbn [Z.eqb negb when]. wp_step. apply wp_ret. wp_step. eapply wp_mono; [exact HW|]. by intros [] s'. Qed.

Lemma print_pcs_prints (pcs : list Z) : forall s, cons_locking s = 0 -> 0 <= crtpos s < 25 * 80 -> panicked s = 0 ->
  wp (print_pcs pcs) (fun _ s' => prints (concat ((fun pc => 32 :: printint_chars (i32 pc) 16 false) <$> pcs)) s s') s.
Proof.
  induction pcs as [|pc pcs IH]; intros s HL Hp Hk; cbn [print_pcs].
  - apply wp_ret. unfold prints. cbn. rewrite app_nil_r. split_and!; try lia; [done|by unfold same_input].
  - wp_step. apply cprintf_unlocked; [done|]. apply (format_int [32] [] 112 16 false pc []); [by rewrite list_elem_of_singleton|by right; left|done|done|].
    intros s1 P1. apply wp_ret. destruct (prints_on _ _ _ P1 Hk) as [Hp1 Hk1]. rewrite fmap_cons. cbn [concat]. apply (prints_wp _ _ _ s s1 P1). apply IH; [|done|done]. by destruct P1 as (_ & _ & _ & -> & _).
Qed.

(** [panic] prints its message, and where it was called from, even when the
    console's lock is held by someone, and from then on every processor that
    prints stops. *)
Theorem panic_prints (lapicid : Z) (s pcs : list Z) (st : consst) : 0 <= crtpos st < 25 * 80 -> panicked st = 0 -> 37 ∉ s ->
  wp (kpanic lapicid s pcs) (fun _ st' => serial st' = serial st ++ concat (sent st <$> panic_text lapicid s pcs) /\ cons_lock st' = cons_lock st /\ forall c, consputc c st' = Block (-1)) st.
Proof.
  intros Hp Hk Hs. unfold kpanic. wp_step. apply wp_modify. set (s0 := set_cons_flags _ _ _). wp_step. apply cprintf_unlocked; [done|].
  apply (format_int (chars_of "lapicid ") (chars_of ": panic: ") 100 10 true lapicid []); [by apply (bool_decide_unpack _)|by left|done|done|].
  intros s1 P1. destruct (prints_on _ _ _ P1 Hk) as [Hp1 Hk1]. rewrite format_plain by (by apply (bool_decide_unpack _)).
  eapply wp_mono; [eapply prints_wp; [exact P1|by apply consputs_prints]|]. intros [] s2 P2. destruct (prints_on _ _ _ P2 Hk) as [Hp2 Hk2].
  assert (HL : forall s', same_input s0 s' -> cons_locking s' = 0) by (by intros s' (_ & -> & _)).
  wp_step. apply cprintf_unlocked; [by apply HL, P2|]. rewrite format_plain by done. eapply wp_mono; [eapply prints_wp; [exact P2|by apply consputs_prints]|]. intros [] s3 P3. destruct (prints_on _ _ _ P3 Hk) as [Hp3 Hk3].
  wp_step. apply cprintf_unlocked; [by apply HL, P3|]. rewrite format_plain by (by apply (bool_decide_unpack _)). eapply wp_mono; [eapply prints_wp; [exact P3|by apply consputs_prints]|]. intros [] s4 P4. destruct (prints_on _ _ _ P4 Hk) as [Hp4 Hk4].
  wp_step. eapply wp_mono; [eapply prints_wp; [exact P4|apply print_pcs_prints; [by apply HL, P4|done|done]]|]. intros [] s5 P5. apply wp_modify.
  destruct P5 as (_ & P5 & I5). split_and!; [|exact (proj1 I5)|by intros c]. cbn [serial set_cons_flags]. rewrite P5. unfold panic_text. by rewrite <- !app_assoc.
Qed.
