(* ===== verification/ConsoleEdit.v ===== *)
(** * ConsoleEdit: the line editor of the console

    An abstract editor (text typed and not yet entered, text entered and not
    yet read, lines entered so far, position in the history) and the proof that
    [consoleintr]'s treatment of a key implements it while the recalled text
    fits in the buffer. *)
From stdpp Require Import base gmap list numbers strings.
From Stdlib Require Import ZArith Lia ZifyBool.
From S2P Require Import Prelude Machine LockThms Bio Log Fs Console ConsoleThms.

(** ** Text in the ring buffer *)

(** [n] bytes from the index [a]. *)
Definition seg (buf : Z -> Z) (a n : Z) : list Z := (fun k => buf ((a + k) mod INPUT_BUF)) <$> seqZ 0 n.

Lemma seg_length (buf : Z -> Z) (a n : Z) : 0 <= n -> Z.of_nat (length (seg buf a n)) = n.
Proof. intros Hn. unfold seg. rewrite length_fmap, length_seqZ. lia. Qed.

Lemma seg_app (buf : Z -> Z) (a n m : Z) : 0 <= n -> 0 <= m -> seg buf a (n + m) = seg buf a n ++ seg buf (a + n) m.
Proof.
  intros Hn Hm. unfold seg. rewrite seqZ_app by lia. rewrite fmap_app. f_equal.
  apply list_eq. intros i. rewrite !list_lookup_fmap. destruct (decide (Z.of_nat i < m)) as [H|H].
  - rewrite !lookup_seqZ_lt by lia. cbn. do 2 f_equal. f_equal. lia.
  - rewrite !lookup_seqZ_ge by lia. done.
Qed.

Lemma seg_one (buf : Z -> Z) (a : Z) : seg buf a 1 = [buf (a mod INPUT_BUF)].
Proof. unfold seg. replace (seqZ 0 1) with [0] by done. cbn [fmap list_fmap]. by rewrite Z.add_0_r. Qed.

Lemma seg_ext (buf buf' : Z -> Z) (a a' n : Z) :
  (forall k, 0 <= k < n -> buf ((a + k) mod INPUT_BUF) = buf' ((a' + k) mod INPUT_BUF)) -> seg buf a n = seg buf' a' n.
Proof.
  intros H. unfold seg. apply list_eq. intros i. rewrite !list_lookup_fmap. destruct (decide (Z.of_nat i < n)) as [Hi|Hi].
  - rewrite !lookup_seqZ_lt by lia. cbn. f_equal. apply H. lia.
  - rewrite !lookup_seqZ_ge by lia. done.
Qed.

Lemma seg_lookup (buf : Z -> Z) (a n : Z) (k : nat) :
  Z.of_nat k < n -> seg buf a n !! k = Some (buf ((a + Z.of_nat k) mod INPUT_BUF)).
Proof. intros H. unfold seg. rewrite list_lookup_fmap, lookup_seqZ_lt by lia. done. Qed.

(** The lengths of the two parts, and the parts. *)
Definition lu (s : consst) : Z := u32 (i_w s - i_r s).
Definition lp (s : consst) : Z := u32 (i_e s - i_w s).
Definition unread (s : consst) : list Z := seg (ibuf s) (i_r s) (lu s).
Definition pend (s : consst) : list Z := seg (ibuf s) (i_w s) (lp s).

Record con_ok (s : consst) : Prop := mkcon_ok {
  co_r : 0 <= i_r s < 4294967296;
  co_w : 0 <= i_w s < 4294967296;
  co_e : 0 <= i_e s < 4294967296;
  co_room : lu s + lp s <= INPUT_BUF;
  co_live : panicked s = 0;
  co_pos : 0 <= crtpos s < 25 * 80;
}.

Lemma lengths (s : consst) : Z.of_nat (length (unread s)) = lu s /\ Z.of_nat (length (pend s)) = lp s /\ 0 <= lu s /\ 0 <= lp s.
Proof.
  pose proof (u32_range (i_w s - i_r s)). pose proof (u32_range (i_e s - i_w s)). unfold unread, pend.
  rewrite !seg_length; unfold lu, lp; lia.
Qed.

Lemma room_test (s : consst) : con_ok s -> u32 (i_e s - i_r s) = lu s + lp s.
Proof. intros [Hr Hw He HR _ _]. unfold lu, lp in *. zlia. Qed.

Lemma full_test (s : consst) : con_ok s -> (i_e s =? u32 (i_r s + INPUT_BUF)) = (lu s + lp s =? INPUT_BUF).
Proof.
  intros O. pose proof (room_test s O) as H. destruct O as [Hr Hw He HR _ _].
  destruct (Z.eqb_spec (i_e s) (u32 (i_r s + INPUT_BUF))), (Z.eqb_spec (lu s + lp s) INPUT_BUF); try done; unfold lu, lp in *; zlia.
Qed.

(** Everything but the devices and the input is as before. *)
Definition same_rest (s s' : consst) : Prop :=
  cons_lock s' = cons_lock s /\ panicked s' = panicked s /\ history s' = history s /\ temp_buf s' = temp_buf s /\
  cons_killed s' = cons_killed s /\ cons_woken s' = cons_woken s.

Lemma same_rest_trans (s1 s2 s3 : consst) : same_rest s1 s2 -> same_rest s2 s3 -> same_rest s1 s3.
Proof. unfold same_rest. intuition congruence. Qed.

(** Output keeps the text. *)
Lemma putc_keeps (c : Z) (s : consst) Q :
  con_ok s -> (forall s', con_ok s' -> same_input s s' -> Q tt s') -> wp (consputc c) Q s.
Proof.
  intros [Hr Hw He HR HL HP] HQ. eapply wp_mono; [by apply consputc_spec|]. intros [] s' (E1 & _ & E2). apply HQ; [|done].
  destruct E2 as (_ & _ & Ep & _ & Eb & Er & Ew & Ee & _). split; unfold lu, lp; rewrite ?Er, ?Ew, ?Ee, ?Ep; try done. lia.
Qed.

Lemma same_text (s s' : consst) : same_input s s' ->
  unread s' = unread s /\ pend s' = pend s /\ lu s' = lu s /\ lp s' = lp s /\ same_rest s s'.
Proof.
  intros (E0 & _ & Ep & _ & Eb & Er & Ew & Ee & Eh & Et & Ek & El). unfold unread, pend, lu, lp, same_rest.
  by rewrite Eb, Er, Ew, Ee, E0, Ep, Eh, Et, Ek, El.
Qed.

Lemma append_text (c : Z) (s : consst) :
  con_ok s -> lu s + lp s < INPUT_BUF ->
  con_ok (append c s) /\ unread (append c s) = unread s /\ pend (append c s) = pend s ++ [i8 c] /\
  lu (append c s) = lu s /\ lp (append c s) = lp s + 1 /\ same_rest s (append c s).
Proof.
  intros [Hr Hw He HR HL HP] Hf. pose proof (lengths s) as (_ & _ & G1 & G2).
  assert (E1 : lu (append c s) = lu s) by done.
  assert (E2 : lp (append c s) = lp s + 1) by (unfold lp, lu, append in *; cbn; zlia).
  split_and!; try done.
  - split; try done; [apply u32_range|]. rewrite E1, E2. lia.
  - unfold unread. rewrite E1. apply seg_ext. intros k Hk. unfold append. cbn [ibuf i_r set_input].
    destruct (Z.eqb_spec ((i_r s + k) mod INPUT_BUF) (i_e s mod INPUT_BUF)) as [E|]; [|done].
    exfalso. unfold lu, lp in *. zlia.
  - unfold pend. rewrite E2, seg_app by lia. unfold append. cbn [ibuf i_w set_input]. f_equal.
    + apply seg_ext. intros k Hk.
      destruct (Z.eqb_spec ((i_w s + k) mod INPUT_BUF) (i_e s mod INPUT_BUF)) as [E|]; [|done].
      exfalso. unfold lu, lp in *. zlia.
    + rewrite seg_one. destruct (Z.eqb_spec ((i_w s + lp s) mod INPUT_BUF) (i_e s mod INPUT_BUF)) as [E|E]; [done|].
      exfalso. apply E. unfold lp. zlia.
Qed.

Lemma unput_text (s : consst) :
  con_ok s -> 0 < lp s ->
  con_ok (unput s) /\ unread (unput s) = unread s /\ pend s = pend (unput s) ++ [ibyte s (u32 (i_e s - 1))] /\
  lu (unput s) = lu s /\ lp (unput s) = lp s - 1 /\ same_rest s (unput s).
Proof.
  intros [Hr Hw He HR HL HP] Hf. pose proof (lengths s) as (_ & _ & G1 & G2).
  assert (E1 : lu (unput s) = lu s) by done.
  assert (E2 : lp (unput s) = lp s - 1) by (unfold lp, unput in *; cbn; zlia).
  split_and!; try done.
  - split; try done; [apply u32_range|]. rewrite E1, E2. lia.
  - unfold pend. rewrite E2. replace (lp s) with (lp s - 1 + 1) at 1 by lia. rewrite seg_app by lia. f_equal.
    rewrite seg_one. unfold ibyte. do 2 f_equal. unfold lp. zlia.
Qed.

(** ** The editing loops *)

(** The text is [p], and the entered text is as before. *)
Record edits (s s' : consst) (p : list Z) : Prop := mkedits {
  es_ok : con_ok s';
  es_pend : pend s' = p;
  es_unread : unread s' = unread s;
  es_rest : same_rest s s';
}.

Lemma edits_trans (s1 s2 s3 : consst) (p q : list Z) : edits s1 s2 p -> edits s2 s3 q -> edits s1 s3 q.
Proof. intros [] []. split; try done; [congruence|by eapply same_rest_trans]. Qed.

Lemma edits_out (s s1 s2 : consst) (p : list Z) : edits s s1 p -> con_ok s2 -> same_input s1 s2 -> edits s s2 p.
Proof.
  intros [O P U R] O2 HS. destruct (same_text s1 s2 HS) as (E1 & E2 & _ & _ & E3).
  split; [done|congruence|congruence|by eapply same_rest_trans].
Qed.

Lemma edits_append (s : consst) (c : Z) : con_ok s -> lu s + lp s < INPUT_BUF -> edits s (append c s) (pend s ++ [i8 c]).
Proof. intros O H. destruct (append_text c s O H) as (? & ? & ? & _ & _ & ?). by split. Qed.

Lemma lp_nil (s : consst) : lp s = 0 <-> pend s = [].
Proof.
  destruct (lengths s) as (_ & H & _). split; [|intros E; rewrite E in H; cbn in H; lia].
  intros E. apply nil_length_inv. lia.
Qed.

Lemma kill_line_loop_spec (fuel : nat) (s : consst) :
  con_ok s -> newline ∉ pend s -> lp s < Z.of_nat fuel -> wp (kill_line_loop fuel) (fun _ s' => edits s s' []) s.
Proof.
  revert s. induction fuel as [|fuel IH]; intros s O HN HF; [pose proof (lengths s); lia|]. cbn [kill_line_loop].
  do 2 (wp_step; cbn beta). unfold id. destruct (Z.eqb_spec (i_e s) (i_w s)) as [E|E]; cbn [negb andb].
  - apply wp_ret. split; try done. apply lp_nil. unfold lp. rewrite E, Z.sub_diag. done.
  - assert (Hp : 0 < lp s) by (destruct O; unfold lp; zlia).
    destruct (unput_text s O Hp) as (O1 & U1 & P1 & _ & L1 & R1).
    assert (HN1 : newline ∉ pend (unput s) /\ ibyte s (u32 (i_e s - 1)) <> newline).
    { rewrite P1 in HN. apply not_elem_of_app in HN as [H1 H2]. rewrite list_elem_of_singleton in H2. by split; [|intros Ex; apply H2]. }
    destruct HN1 as [HN1 HN2]. destruct (Z.eqb_spec (ibyte s (u32 (i_e s - 1))) newline) as [|_]; [done|]. cbn [negb].
    repeat (wp_step; cbn beta). apply putc_keeps; [done|]. intros s2 O2 HS.
    destruct (same_text _ _ HS) as (T1 & T2 & T3 & T4 & T5).
    eapply wp_mono; [apply IH; [done|by rewrite T2|lia]|]. intros [] s3 HE. eapply edits_trans; [|exact HE].
    split; [done|reflexivity|congruence|by eapply same_rest_trans].
Qed.

Lemma killLine_spec (s : consst) : con_ok s -> newline ∉ pend s -> wp killLine (fun _ s' => edits s s' []) s.
Proof.
  intros O HN. unfold killLine. wp_step. wp_step. cbn beta. unfold id. apply kill_line_loop_spec; [done|done|].
  fold (lp s). pose proof (lengths s). lia.
Qed.

Lemma fill_loop_spec (n : nat) (row : Z -> Z) (i : Z) (s : consst) :
  con_ok s -> lu s + lp s + Z.of_nat n <= INPUT_BUF ->
  wp (fill_loop n row i) (fun _ s' => edits s s' (pend s ++ ((fun k => i8 (row (i + k))) <$> seqZ 0 (Z.of_nat n)))) s.
Proof.
  revert i s. induction n as [|n IH]; intros i s O HR; cbn [fill_loop].
  - apply wp_ret. cbn. rewrite app_nil_r. by split.
  - repeat (wp_step; cbn beta). destruct (append_text (row i) s O ltac:(lia)) as (O1 & U1 & P1 & L1 & L2 & R1).
    eapply wp_mono; [apply (IH (i + 1)); [done|lia]|]. intros [] s' HE.
    assert (EQ : pend s ++ ((fun k => i8 (row (i + k))) <$> seqZ 0 (Z.of_nat (S n))) =
                 pend (append (row i) s) ++ ((fun k => i8 (row (i + 1 + k))) <$> seqZ 0 (Z.of_nat n))).
    { rewrite P1, <- app_assoc. f_equal. rewrite seqZ_cons by lia. cbn [fmap list_fmap app]. rewrite Z.add_0_r. f_equal.
      replace (Z.pred (Z.of_nat (S n))) with (Z.of_nat n) by lia. apply list_eq. intros k. rewrite !list_lookup_fmap.
      destruct (decide (Z.of_nat k < Z.of_nat n)) as [H|H]; [rewrite !lookup_seqZ_lt by lia; cbn; do 3 f_equal; lia|].
      by rewrite !lookup_seqZ_ge by lia. }
    rewrite EQ. eapply edits_trans; [|exact HE]. by split.
Qed.

Lemma print_loop_spec (fuel : nat) (i : Z) (s : consst) :
  con_ok s -> (i_e s - i) mod INPUT_BUF < Z.of_nat fuel -> 0 <= i < INPUT_BUF ->
  wp (print_loop fuel i) (fun _ s' => con_ok s' /\ same_input s s') s.
Proof.
  revert i s. induction fuel as [|fuel IH]; intros i s O HF Hi; [zlia|]. cbn [print_loop].
  do 2 (wp_step; cbn beta). unfold id. destruct (Z.eqb_spec i (i_e s mod INPUT_BUF)) as [E|E].
  - apply wp_ret. split; [done|by unfold same_input].
  - wp_step. apply putc_keeps; [done|]. intros s1 O1 HS. assert (Ee : i_e s1 = i_e s) by apply HS.
    eapply wp_mono; [apply IH; [done|rewrite Ee; zlia|zlia]|]. intros _ s2 [O2 HS2]. split; [done|by eapply same_input_trans].
Qed.

Lemma printInput_spec (s : consst) : con_ok s -> wp printInput (fun _ s' => con_ok s' /\ same_input s s') s.
Proof. intros O. unfold printInput. wp_step. wp_step. cbn beta. unfold id. apply print_loop_spec; [done|zlia|zlia]. Qed.

(** ** The history *)

Definition row (n : nat) : nat := (n mod 5)%nat.

(** A line as it can be recalled: characters without a newline. *)
Definition line_ok (l : list Z) : Prop := newline ∉ l /\ Forall (fun c => -128 <= c < 128) l.

(** The lines entered, the last one first; the last five can be recalled. *)
Record hist_ok (h : History) (tb : nat -> Z -> Z) (lines : list (list Z)) : Prop := mkhist_ok {
  ho_count : cmd_count h = Z.of_nat (length lines);
  ho_prev : length (PervCmd h) = 5%nat /\ length (hsize h) = 5%nat;
  ho_rows : forall i l, (i < 5)%nat -> lines !! i = Some l ->
      PervCmd h !! i = Some (Some (row (length lines - 1 - i))) /\ hsize h !! i = Some (Z.of_nat (length l)) /\
      (forall j c, l !! j = Some c -> tb (row (length lines - 1 - i)) (Z.of_nat j) = c);
  ho_lines : Forall line_ok lines;
  ho_cursor : lines <> [] -> -1 <= cursor h <= 4 /\ cursor h < Z.of_nat (length lines);
}.

Lemma copy_line_spec (fuel : nat) (buf : Z -> Z) (i last j : Z) (r : Z -> Z) :
  0 <= i < INPUT_BUF -> 0 <= last < INPUT_BUF -> (last - i) mod INPUT_BUF < Z.of_nat fuel ->
  exists r', copy_line fuel buf i last j r = Some (r', j + (last - i) mod INPUT_BUF) /\
    (forall k, 0 <= k < (last - i) mod INPUT_BUF -> r' (j + k) = buf ((i + k) mod INPUT_BUF)) /\
    (forall k, k < j -> r' k = r k).
Proof.
  revert i j r. induction fuel as [|fuel IH]; intros i j r Hi Hl HF; [zlia|]. cbn [copy_line].
  destruct (Z.eqb_spec i last) as [->|E].
  - exists r. rewrite Z.sub_diag. change (0 mod INPUT_BUF) with 0. rewrite Z.add_0_r. split_and!; [done|lia|done].
  - set (n := (last - i) mod INPUT_BUF) in *. set (i' := (i + 1) mod INPUT_BUF).
    assert (En : (last - i') mod INPUT_BUF = n - 1 /\ 0 < n) by (unfold n, i'; zlia). destruct En as [En Hn].
    destruct (IH i' (j + 1) (fun k => if k =? j then buf i else r k)) as (r' & E1 & E2 & E3); [unfold i'; zlia|done|lia|].
    exists r'. rewrite En in *. split_and!.
    + rewrite E1. do 2 f_equal. lia.
    + intros k Hk. destruct (decide (k = 0)) as [->|Hk0].
      * rewrite !Z.add_0_r, E3 by lia. rewrite Z.eqb_refl. f_equal. rewrite Z.mod_small; lia.
      * replace (j + k) with (j + 1 + (k - 1)) by lia. rewrite E2 by lia. f_equal. unfold i'. zlia.
    + intros k Hk. rewrite E3 by lia. destruct (Z.eqb_spec k j); [lia|done].
Qed.

Lemma lookup_firstn4 {A} (l : list A) (i : nat) : (i < 4)%nat -> firstn 4 l !! i = l !! i.
Proof. intros H. by apply lookup_take_lt. Qed.

(** [InsertNewCmd], after the last character [c] has been put in. *)
Lemma insert_hist (s : consst) (p : list Z) (c : Z) (lines : list (list Z)) :
  con_ok s -> pend s = p ++ [c] -> line_ok p -> hist_ok (history s) (temp_buf s) lines ->
  Z.of_nat (length lines) < 2147483647 ->
  wp InsertNewCmd (fun _ s' => exists h tb, s' = set_history h (set_temp tb s) /\
    cmd_count h = cmd_count (history s) /\ cursor h = cursor (history s) /\
    forall cur, cur = -1 -> hist_ok (mkhist (PervCmd h) (cmd_count h + 1) cur (hsize h)) tb (p :: lines)) s.
Proof.
  intros O HP HL [HC [HV1 HV2] HR HLs HCu] Hb. unfold InsertNewCmd. do 2 (wp_step; cbn beta zeta). unfold id.
  assert (Hlp : lp s = Z.of_nat (length p) + 1).
  { destruct (lengths s) as (_ & H & _). rewrite HP, length_app in H. cbn in H. lia. }
  assert (Hdist : (u32 (i_e s - 1) mod INPUT_BUF - i_w s mod INPUT_BUF) mod INPUT_BUF = Z.of_nat (length p)).
  { destruct O as [_ Hw He HRm _ _]. pose proof (lengths s) as (_ & _ & ? & ?). unfold lp in *. zlia. }
  destruct (copy_line_spec (S (Z.to_nat INPUT_BUF)) (ibuf s) (i_w s mod INPUT_BUF) (u32 (i_e s - 1) mod INPUT_BUF) 0 (fun _ => 0))
    as (r' & E1 & E2 & _); [zlia..|]. rewrite Hdist in *. rewrite E1. repeat (wp_step; cbn beta).
  set (rw := Z.to_nat (Z.rem (cmd_count (history s)) 5)).
  assert (Erw : rw = row (length lines)).
  { unfold rw, row. rewrite HC, Z.rem_mod_nonneg by lia. rewrite <- (Nat2Z.id (length lines mod 5)). f_equal. by rewrite Nat2Z.inj_mod. }
  eexists _, _. split; [reflexivity|]. cbn [cmd_count cursor PervCmd hsize set_history set_temp]. split_and!; [done..|].
  intros cur ->. rewrite Erw. split; cbn [PervCmd cmd_count cursor hsize].
  - cbn [length]. lia.
  - cbn [length]. rewrite !length_firstn. lia.
  - intros [|i] l Hi Hl.
    + injection Hl as <-. cbn [length]. replace (S (length lines) - 1 - 0)%nat with (length lines) by lia.
      split_and!; [done|cbn; f_equal; lia|]. intros j x Hj. rewrite Nat.eqb_refl.
      pose proof (lookup_lt_Some _ _ _ Hj) as Hlt. specialize (E2 (Z.of_nat j) ltac:(lia)). rewrite Z.add_0_l in E2. rewrite E2.
      assert (Hx : pend s !! j = Some x) by (rewrite HP; by apply lookup_app_l_Some).
      unfold pend in Hx. rewrite seg_lookup in Hx by lia. injection Hx as <-. f_equal. zlia.
    + change ((p :: lines) !! S i) with (lines !! i) in Hl. destruct (HR i l ltac:(lia) Hl) as (H1 & H2 & H3).
      pose proof (lookup_lt_Some _ _ _ Hl) as Hlt. cbn [length].
      replace (S (length lines) - 1 - S i)%nat with (length lines - 1 - i)%nat by lia. split_and!.
      * change ((Some (row (length lines)) :: firstn 4 (PervCmd (history s))) !! S i) with (firstn 4 (PervCmd (history s)) !! i).
        by rewrite lookup_firstn4 by lia.
      * change ((0 + Z.of_nat (length p) :: firstn 4 (hsize (history s))) !! S i) with (firstn 4 (hsize (history s)) !! i).
        by rewrite lookup_firstn4 by lia.
      * intros j x Hj. destruct (Nat.eqb_spec (row (length lines - 1 - i)) (row (length lines))) as [E|]; [|by apply H3].
        exfalso. unfold row in E. apply (f_equal Z.of_nat) in E. rewrite !Nat2Z.inj_mod in E.
        replace (Z.of_nat (length lines - 1 - i)) with (Z.of_nat (length lines) - 1 - Z.of_nat i) in E by lia. zlia.
  - by constructor.
  - intros _. cbn [length]. lia.
Qed.

(** ** The abstract editor *)

Record editor := mked {
  ed_pend : list Z;
  ed_unread : list Z;
  ed_lines : list (list Z);
  ed_cursor : Z;
}.

Definition nth_line (ed : editor) (k : Z) : list Z := if k <? 0 then [] else nth (Z.to_nat k) (ed_lines ed) [].

(** The text becomes the [k]-th last line. *)
Definition ed_recall (k : Z) (ed : editor) : editor :=
  mked (nth_line ed k) (ed_unread ed) (ed_lines ed) k.

Definition ed_up (ed : editor) : editor :=
  match ed_lines ed with
  | [] => ed
  | _ => ed_recall (Z.min (ed_cursor ed + 1) (Z.min 4 (Z.of_nat (length (ed_lines ed)) - 1))) ed
  end.

Definition ed_down (ed : editor) : editor :=
  match ed_lines ed with
  | [] => ed
  | _ => ed_recall (Z.max (ed_cursor ed - 1) (-1)) ed
  end.

(** The text with its last character [c] is entered. *)
Definition ed_enter (c : Z) (ed : editor) : editor :=
  let unread := ed_unread ed ++ ed_pend ed ++ [c] in
  match ed_pend ed with
  | [] => mked [] unread (ed_lines ed) (ed_cursor ed)
  | p => mked [] unread (p :: ed_lines ed) (-1)
  end.

Definition ed_type (c : Z) (ed : editor) : editor :=
  let n := Z.of_nat (length (ed_unread ed)) + Z.of_nat (length (ed_pend ed)) in
  if n <? INPUT_BUF then
    let c := if c =? 13 then newline else c in
    if (c =? newline) || (c =? ctrl 68) || (n + 1 =? INPUT_BUF) then ed_enter (i8 c) ed
    else mked (ed_pend ed ++ [i8 c]) (ed_unread ed) (ed_lines ed) (ed_cursor ed)
  else ed.

Definition ed_text (p : list Z) (ed : editor) : editor := mked p (ed_unread ed) (ed_lines ed) (ed_cursor ed).

Definition ed_key (c : Z) (ed : editor) : editor :=
  if c =? ctrl 80 then ed
  else if c =? ctrl 85 then ed_text [] ed
  else if (c =? ctrl 72) || (c =? 127) then ed_text (removelast (ed_pend ed)) ed
  else if c =? KEY_UP then ed_up ed
  else if c =? KEY_DN then ed_down ed
  else if c =? 0 then ed
  else ed_type c ed.

(** The text that a history key recalls fits in the buffer. *)
Definition fits (c : Z) (ed : editor) : Prop :=
  c = KEY_UP \/ c = KEY_DN ->
  Z.of_nat (length (ed_unread ed)) + Z.of_nat (length (ed_pend (ed_key c ed))) <= INPUT_BUF.

(** The console shows the editor [ed]. *)
Record shows (s : consst) (ed : editor) : Prop := mkshows {
  sh_ok : con_ok s;
  sh_pend : pend s = ed_pend ed;
  sh_unread : unread s = ed_unread ed;
  sh_line : line_ok (ed_pend ed);
  sh_hist : hist_ok (history s) (temp_buf s) (ed_lines ed);
  sh_cursor : cursor (history s) = ed_cursor ed;
}.

Lemma shows_edits (s s' : consst) (ed : editor) (p : list Z) :
  shows s ed -> edits s s' p -> line_ok p -> shows s' (ed_text p ed).
Proof.
  intros [O P U L H C] [O' P' U' R'] Lp. destruct R' as (_ & _ & Eh & Et & _).
  split; cbn; rewrite ?Eh, ?Et; try done. by rewrite U'.
Qed.

Lemma line_ok_nil : line_ok [].
Proof. split; [apply not_elem_of_nil|constructor]. Qed.

Lemma line_ok_app (l l' : list Z) : line_ok (l ++ l') <-> line_ok l /\ line_ok l'.
Proof. unfold line_ok. rewrite not_elem_of_app, Forall_app. tauto. Qed.

(** [fillBuf] makes the text the line at the cursor. *)
Lemma fillBuf_spec (s : consst) (ed : editor) :
  shows s ed -> -1 <= ed_cursor ed <= 4 -> ed_cursor ed < Z.of_nat (length (ed_lines ed)) ->
  Z.of_nat (length (ed_unread ed)) + Z.of_nat (length (nth_line ed (ed_cursor ed))) <= INPUT_BUF ->
  wp fillBuf (fun _ s' => edits s s' (nth_line ed (ed_cursor ed))) s.
Proof.
  intros HS Hc1 Hc2 HF. pose proof HS as [O P U L H C]. unfold fillBuf. wp_step.
  eapply wp_mono; [apply killLine_spec; [done|rewrite P; apply L]|]. intros [] s1 HE1.
  pose proof HE1 as [O1 P1 U1 (Ek & _ & Eh & Et & _)]. do 2 (wp_step; cbn beta). unfold id. rewrite Eh, Et, C.
  unfold size_at, nth_line in *. destruct (Z.eqb_spec (ed_cursor ed) (-1)) as [E|E].
  - rewrite C, E. apply wp_ret. exact HE1.
  - destruct (Z.ltb_spec (ed_cursor ed) 0) as [|Hc]; [lia|]. set (k := Z.to_nat (ed_cursor ed)) in *.
    destruct (ed_lines ed !! k) as [l|] eqn:El; [|apply lookup_ge_None in El; lia].
    rewrite (nth_lookup_Some _ _ _ _ El) in *. destruct (ho_rows _ _ _ H k l ltac:(lia) El) as (H1 & H2 & H3). rewrite H1, H2.
    pose proof (Forall_lookup_1 _ _ _ _ (ho_lines _ _ _ H) El) as [_ Hch].
    assert (HR : lu s1 + lp s1 + Z.of_nat (length l) <= INPUT_BUF).
    { destruct (lengths s1) as (G1 & G2 & _). rewrite P1 in G2. rewrite U1, U in G1. cbn in G2. lia. }
    destruct (Z.ltb_spec 0 (Z.of_nat (length l))) as [Hl|Hl].
    + rewrite Nat2Z.id. eapply wp_mono; [by apply (fill_loop_spec (length l))|]. intros [] s2 HE2.
      assert (Etext : (fun k0 => i8 (temp_buf s (row (length (ed_lines ed) - 1 - k)) (0 + k0))) <$> seqZ 0 (Z.of_nat (length l)) = l).
      { apply list_eq. intros j. rewrite list_lookup_fmap. destruct (l !! j) as [c|] eqn:Ej.
        - pose proof (lookup_lt_Some _ _ _ Ej). rewrite lookup_seqZ_lt by lia. cbn [fmap option_fmap option_map]. f_equal. rewrite !Z.add_0_l, (H3 j c Ej).
          apply i8_id. by apply (Forall_lookup_1 _ _ _ _ Hch Ej).
        - apply lookup_ge_None in Ej. by rewrite lookup_seqZ_ge by lia. }
      rewrite P1, Etext in HE2. by eapply edits_trans.
    + apply wp_ret. destruct l; [exact HE1|cbn in Hl; lia].
Qed.

Lemma set_cursor_shows (s : consst) (ed : editor) (k : Z) :
  shows s ed -> ed_lines ed <> [] -> -1 <= k <= 4 -> k < Z.of_nat (length (ed_lines ed)) ->
  shows (set_cursor k s) (mked (ed_pend ed) (ed_unread ed) (ed_lines ed) k).
Proof.
  intros [O P U L [HC HV HR HLs HCu] C] Hn Hk1 Hk2. split; cbn; try done; by (destruct O || split).
Qed.

(** A history key, once the cursor is set. *)
Lemma recall_spec (s : consst) (ed : editor) (k : Z) :
  shows s ed -> ed_lines ed <> [] -> -1 <= k <= 4 -> k < Z.of_nat (length (ed_lines ed)) ->
  Z.of_nat (length (ed_unread ed)) + Z.of_nat (length (nth_line ed k)) <= INPUT_BUF ->
  wp (fillBuf ;;; printInput) (fun _ s' => shows s' (ed_recall k ed) /\ cons_lock s' = cons_lock s) (set_cursor k s).
Proof.
  intros HS Hn Hk1 Hk2 HF. pose proof (set_cursor_shows s ed k HS Hn Hk1 Hk2) as HS1. wp_step.
  eapply wp_mono; [by apply (fillBuf_spec _ _ HS1)|]. intros [] s2 HE. cbn [ed_cursor ed_lines] in HE.
  eapply wp_mono; [apply printInput_spec, HE|]. intros [] s3 [O3 HS3].
  pose proof (edits_out _ _ _ _ HE O3 HS3) as HE3. split; [|by destruct (es_rest _ _ _ HE3) as (-> & _)].
  assert (Hl : line_ok (nth_line ed k)).
  { unfold nth_line. destruct (k <? 0); [apply line_ok_nil|]. destruct (nth_in_or_default (Z.to_nat k) (ed_lines ed) []) as [Hin|E].
    - apply list_elem_of_In in Hin. pose proof (ho_lines _ _ _ (sh_hist _ _ HS)) as HFa. rewrite Forall_forall in HFa. by apply HFa.
    - rewrite E. apply line_ok_nil. }
  exact (shows_edits _ _ _ _ HS1 HE3 Hl).
Qed.

(** ** Keys *)

Lemma count_zero (s : consst) (ed : editor) : shows s ed -> (cmd_count (history s) =? 0) = match ed_lines ed with [] => true | _ => false end.
Proof. intros HS. rewrite (ho_count _ _ _ (sh_hist _ _ HS)). by destruct (ed_lines ed). Qed.

Lemma up_spec (s : consst) (ed : editor) :
  shows s ed -> fits KEY_UP ed -> wp KeyUpPressed (fun _ s' => shows s' (ed_up ed) /\ cons_lock s' = cons_lock s) s.
Proof.
  intros HS HF. unfold KeyUpPressed. do 2 (wp_step; cbn beta). unfold id. rewrite (count_zero s ed HS).
  specialize (HF (or_introl eq_refl)). change (ed_key KEY_UP ed) with (ed_up ed) in HF. unfold ed_up in *.
  destruct (ed_lines ed) as [|l0 ls] eqn:EL; [by apply wp_ret|]. wp_step. unfold IncCursor. apply wp_modify.
  assert (Hn : ed_lines ed <> []) by (by rewrite EL). pose proof (ho_cursor _ _ _ (sh_hist _ _ HS) Hn) as [Hc1 Hc2].
  pose proof (ho_count _ _ _ (sh_hist _ _ HS)) as HC.
  assert (Ek : inc_cursor (history s) = Z.min (ed_cursor ed + 1) (Z.min 4 (Z.of_nat (length (l0 :: ls)) - 1))).
  { rewrite <- EL, <- (sh_cursor _ _ HS). unfold inc_cursor. rewrite HC. destruct (Z.eqb_spec (cursor (history s)) 4); [lia|].
    rewrite Z.rem_mod_nonneg, Z.mod_small by lia. destruct (Z.eqb_spec (cursor (history s) + 1) (Z.of_nat (length (ed_lines ed)))); lia. }
  rewrite Ek. rewrite (sh_cursor _ _ HS) in Hc1, Hc2. rewrite <- EL in *. apply recall_spec; [done|done|lia|lia|]. exact HF.
Qed.

Lemma down_spec (s : consst) (ed : editor) :
  shows s ed -> fits KEY_DN ed -> wp KeyDownPressed (fun _ s' => shows s' (ed_down ed) /\ cons_lock s' = cons_lock s) s.
Proof.
  intros HS HF. unfold KeyDownPressed. do 2 (wp_step; cbn beta). unfold id. rewrite (count_zero s ed HS), (sh_cursor _ _ HS).
  specialize (HF (or_intror eq_refl)). change (ed_key KEY_DN ed) with (ed_down ed) in HF. unfold ed_down in *.
  destruct (ed_lines ed) as [|l0 ls] eqn:EL; [by apply wp_ret|].
  assert (Hn : ed_lines ed <> []) by (by rewrite EL). pose proof (ho_cursor _ _ _ (sh_hist _ _ HS) Hn) as [Hc1 Hc2].
  rewrite (sh_cursor _ _ HS) in Hc1, Hc2. destruct (Z.eqb_spec (ed_cursor ed) (-1)) as [E|E].
  - eapply wp_mono; [apply killLine_spec; [apply HS|rewrite (sh_pend _ _ HS); apply HS]|]. intros [] s' HE.
    split; [|by destruct (es_rest _ _ _ HE) as (-> & _)]. rewrite E. cbn.
    pose proof (shows_edits _ _ _ _ HS HE line_ok_nil) as HR. unfold ed_text in HR. rewrite E in HR. exact HR.
  - wp_step. unfold DecCursor. apply wp_modify. rewrite (sh_cursor _ _ HS).
    destruct (Z.ltb_spec (ed_cursor ed) 0) as [|Hc]; [lia|]. rewrite Z.max_l in * by lia. apply recall_spec; [done|done|lia|lia|]. exact HF.
Qed.

Lemma back_spec (s : consst) (ed : editor) :
  shows s ed -> wp (when (negb (i_e s =? i_w s)) (modify unput ;;; consputc BACKSPACE))
    (fun _ s' => shows s' (ed_text (removelast (ed_pend ed)) ed) /\ cons_lock s' = cons_lock s) s.
Proof.
  intros HS. pose proof HS as [O P U L H C]. apply wp_when; intros E; zbool.
  - assert (Hp : 0 < lp s) by (destruct O; unfold lp; zlia). destruct (unput_text s O Hp) as (O1 & U1 & P1 & _ & _ & R1).
    wp_step. apply wp_modify. apply putc_keeps; [done|]. intros s2 O2 HS2.
    assert (HE : edits s s2 (pend (unput s))) by (eapply edits_out; [|exact O2|exact HS2]; by split).
    split; [|by destruct (es_rest _ _ _ HE) as (-> & _)]. rewrite <- P, P1, removelast_last.
    apply (shows_edits s); [done|done|]. rewrite <- P, P1 in L. by apply line_ok_app in L as [? _].
  - split; [|done]. assert (E0 : ed_pend ed = []) by (rewrite <- P; apply lp_nil; unfold lp; by rewrite E, Z.sub_diag).
    rewrite E0. replace (ed_text (removelast []) ed) with ed; [done|]. destruct ed as [p u ls k]. cbn in E0. by rewrite E0.
Qed.

Lemma typed_len (s : consst) (ed : editor) : shows s ed ->
  lu s + lp s = Z.of_nat (length (ed_unread ed)) + Z.of_nat (length (ed_pend ed)).
Proof. intros [O P U _ _ _]. destruct (lengths s) as (G1 & G2 & _). rewrite U in G1. rewrite P in G2. lia. Qed.

(** The end of a line: [w] moves up to [e]. *)
Lemma enter_text (s : consst) :
  con_ok s -> let s' := wake_reader (set_input (ibuf s) (i_r s) (i_e s) (i_e s) s) in
  con_ok s' /\ unread s' = unread s ++ pend s /\ pend s' = [].
Proof.
  intros O s'. pose proof (room_test s O) as HR. pose proof (lengths s) as (_ & _ & G1 & G2).
  assert (E1 : lu s' = lu s + lp s) by exact HR.
  assert (E2 : lp s' = 0) by (unfold lp, s'; cbn; by rewrite Z.sub_diag).
  destruct O as [Hr Hw He Hm HL HP]. split_and!.
  - split; try done. lia.
  - unfold unread at 1. rewrite E1. cbn [ibuf i_r s' set_input wake_reader]. rewrite seg_app by done. f_equal.
    apply seg_ext. intros k Hk. f_equal. unfold lu. zlia.
  - by apply lp_nil.
Qed.

Lemma end_line_spec (s : consst) (p u : list Z) (x : Z) (lines : list (list Z)) :
  con_ok s -> pend s = p ++ [x] -> unread s = u -> line_ok p -> hist_ok (history s) (temp_buf s) lines ->
  Z.of_nat (length lines) < 2147483647 ->
  wp end_line (fun _ s' => shows s' (ed_enter x (mked p u lines (cursor (history s)))) /\ cons_lock s' = cons_lock s) s.
Proof.
  intros O HP HU HL HH Hb. unfold end_line. do 2 (wp_step; cbn beta). unfold id. fold (lp s).
  assert (Hlp : lp s = Z.of_nat (length p) + 1).
  { destruct (lengths s) as (_ & H & _). rewrite HP, length_app in H. cbn in H. lia. }
  wp_step. unfold ed_enter. cbn [ed_pend ed_unread ed_lines ed_cursor].
  apply (wp_mono _ (fun _ s1 => exists h tb, s1 = set_history h (set_temp tb s) /\
    hist_ok h tb (match p with [] => lines | _ => p :: lines end) /\
    cursor h = match p with [] => cursor (history s) | _ => -1 end)).
  - apply wp_when; intros E; zbool.
    + wp_step. eapply wp_mono; [by eapply insert_hist|]. intros [] s1 (h & tb & -> & E1 & E2 & E3).
      apply wp_modify. eexists _, tb. split; [reflexivity|]. cbn [history set_history cursor PervCmd cmd_count hsize].
      destruct p as [|p0 p]; [cbn in Hlp; lia|]. split; [|done].
      rewrite i32_id by (rewrite E1, (ho_count _ _ _ HH); lia). by apply E3.
    + exists (history s), (temp_buf s). destruct p as [|p0 p]; [|cbn in Hlp; lia]. split; [by destruct s|done].
  - intros [] s1 (h & tb & -> & Hh & Hc). apply wp_modify.
    assert (O1 : con_ok (set_history h (set_temp tb s))) by (by destruct O).
    destruct (enter_text _ O1) as (O2 & U2 & P2). split; [|done].
    change (unread (set_history h (set_temp tb s))) with (unread s) in U2. change (pend (set_history h (set_temp tb s))) with (pend s) in U2.
    rewrite HU, HP in U2. destruct p as [|p0 p]; (split; [done|done|done|apply line_ok_nil|exact Hh|exact Hc]).
Qed.

Lemma i8_newline (c : Z) : 0 <= c < 256 -> i8 c = newline -> c = newline.
Proof. unfold newline. intros H. zlia. Qed.

Lemma line_ok_char (c : Z) : 0 <= c < 256 -> c <> newline -> line_ok [i8 c].
Proof.
  intros Hc Hn. split; [rewrite list_elem_of_singleton; intros E; by apply Hn, i8_newline|].
  constructor; [zlia|constructor].
Qed.

Lemma type_spec (s : consst) (ed : editor) (c : Z) :
  shows s ed -> 0 < c < 256 -> Z.of_nat (length (ed_lines ed)) < 2147483647 ->
  wp (when (negb (c =? 0) && (u32 (i_e s - i_r s) <? INPUT_BUF))
      (let c := if c =? 13 then newline else c in
       modify (append c) ;;;
       consputc c ;;;
       let! s := gets id in
       when ((c =? newline) || (c =? ctrl 68) || (i_e s =? u32 (i_r s + INPUT_BUF))) end_line))
    (fun _ s' => shows s' (ed_type c ed) /\ cons_lock s' = cons_lock s) s.
Proof.
  intros HS Hc Hb. pose proof (typed_len s ed HS) as HN. pose proof HS as [O P U L H C]. rewrite (room_test s O), HN.
  unfold ed_type. destruct (Z.eqb_spec c 0); [lia|]. cbn [negb andb]. apply wp_when; intros E; rewrite E; [|done]. zbool.
  set (c' := if c =? 13 then newline else c). assert (Hc' : 0 <= c' < 256) by (unfold c', newline; destruct (c =? 13); lia).
  cbn zeta. wp_step. apply wp_modify. pose proof (edits_append s c' O ltac:(lia)) as HE1. wp_step. apply putc_keeps; [apply HE1|].
  intros s2 O2 HS2. pose proof (edits_out _ _ _ _ HE1 O2 HS2) as HE. destruct HE as [_ P2 U2 (R1 & R2 & R3 & R4 & R5 & R6)].
  rewrite P in P2. rewrite U in U2. do 2 (wp_step; cbn beta). unfold id. rewrite (full_test s2 O2).
  assert (HN2 : lu s2 + lp s2 = Z.of_nat (length (ed_unread ed)) + Z.of_nat (length (ed_pend ed)) + 1).
  { destruct (lengths s2) as (G1 & G2 & _). rewrite P2, length_app in G2. rewrite U2 in G1. cbn in G2. lia. }
  rewrite HN2. apply wp_when; intros E2; rewrite E2.
  - eapply wp_mono; [eapply (end_line_spec s2); [done|exact P2|exact U2|done|by rewrite R3, R4|done]|].
    intros [] s3 [HS3 HL3]. rewrite R3, C in HS3. split; [by destruct ed|by rewrite HL3].
  - split; [|done]. apply orb_false_iff in E2 as [E2 _]. apply orb_false_iff in E2 as [E2 _]. zbool.
    split; cbn [ed_pend ed_unread ed_lines ed_cursor]; rewrite ?R3, ?R4; try done.
    apply line_ok_app. split; [done|by apply line_ok_char].
Qed.

Lemma key_spec (s : consst) (ed : editor) (c : Z) :
  shows s ed -> 0 <= c < 256 -> Z.of_nat (length (ed_lines ed)) < 2147483647 -> fits c ed ->
  wp (cons_key c) (fun _ s' => shows s' (ed_key c ed) /\ cons_lock s' = cons_lock s) s.
Proof.
  intros HS Hc Hb HF. unfold cons_key, ed_key. destruct (c =? ctrl 80); [by apply wp_ret|].
  destruct (c =? ctrl 85).
  { wp_step. eapply wp_mono; [apply killLine_spec; [apply HS|rewrite (sh_pend _ _ HS); apply HS]|]. intros [] s' HE. apply wp_ret.
    split; [|by destruct (es_rest _ _ _ HE) as (-> & _)]. by apply (shows_edits _ _ _ _ HS HE), line_ok_nil. }
  destruct (_ || _).
  { do 3 (wp_step; cbn beta). unfold id. eapply wp_mono; [by apply back_spec|]. intros [] s' HE. by apply wp_ret. }
  destruct (Z.eqb_spec c KEY_UP) as [->|_].
  { wp_step. eapply wp_mono; [by apply up_spec|]. intros [] s' HE. by apply wp_ret. }
  destruct (Z.eqb_spec c KEY_DN) as [->|_].
  { wp_step. eapply wp_mono; [by apply down_spec|]. intros [] s' HE. by apply wp_ret. }
  do 3 (wp_step; cbn beta). unfold id. destruct (Z.eqb_spec c 0) as [->|Hc0]; [by repeat wp_step|].
  pose proof (type_spec s ed c HS ltac:(lia) Hb) as HT. destruct (Z.eqb_spec c 0); [done|].
  eapply wp_mono; [exact HT|]. intros [] s' HE. by apply wp_ret.
Qed.

(** All keys of a list fit, each in the editor that the keys before it leave. *)
Fixpoint all_fit (cs : list Z) (ed : editor) : Prop :=
  match cs with
  | [] => True
  | c :: cs => fits c ed /\ all_fit cs (ed_key c ed)
  end.

Lemma key_lines (c : Z) (ed : editor) : (length (ed_lines (ed_key c ed)) <= S (length (ed_lines ed)))%nat.
Proof.
  destruct ed as [p u ls k]. unfold ed_key, ed_up, ed_down, ed_type, ed_enter, ed_text, ed_recall.
  cbn [ed_pend ed_unread ed_lines ed_cursor]. destruct p, ls; repeat case_match; cbn; lia.
Qed.

Lemma keys_spec (cs : list Z) (s : consst) (ed : editor) :
  shows s ed -> Forall (fun c => 0 <= c < 256) cs -> Z.of_nat (length (ed_lines ed) + length cs) < 2147483647 -> all_fit cs ed ->
  wp (cons_keys cs) (fun _ s' => shows s' (foldl (fun e c => ed_key c e) ed cs) /\ cons_lock s' = cons_lock s) s.
Proof.
  revert s ed. induction cs as [|c cs IH]; intros s ed HS HC Hb HF; cbn [cons_keys]; [by apply wp_ret|].
  apply Forall_cons in HC as [Hc HC]. destruct HF as [HF HFs]. cbn [length] in Hb. wp_step.
  eapply wp_mono; [apply key_spec; [done|done|lia|done]|]. intros d s1 [HS1 HL1]. wp_step.
  pose proof (key_lines c ed) as HKL.
  eapply wp_mono; [apply (IH s1 (ed_key c ed)); [done|done|lia|done]|]. intros d' s2 [HS2 HL2]. apply wp_ret. split; [done|congruence].
Qed.

(** C25. The console implements a line editor with history: for any keys, ordinary
    characters, backspace, kill line, return, end of file and the up and down
    keys, in any order, the text being typed, the text waiting to be read and the
    history afterwards are those of the abstract editor [ed_key] applied key by
    key, where up and down replace the text by the lines entered last (at most
    five), provided that what the history keys recall fits in the free part of
    the buffer.  Nothing on the way indexes outside an array, panics or loops. *)
Theorem console_implements_editor (cs : list Z) (s : consst) (ed : editor) :
  shows s ed -> cons_lock s = false -> Forall (fun c => 0 <= c < 256) cs ->
  Z.of_nat (length (ed_lines ed) + length cs) < 2147483647 -> all_fit cs ed ->
  wp (consoleintr cs) (fun _ s' => shows s' (foldl (fun e c => ed_key c e) ed cs) /\ cons_lock s' = false) s.
Proof.
  intros HS HL HC Hb HF. unfold consoleintr. wp_step. eapply wp_from_Ok; [unfold acquire_cons; by rewrite HL|]. wp_step.
  assert (HS1 : shows (set_cons_lock true s) ed) by (destruct HS as [[] P U L H C]; by split).
  eapply wp_mono; [by apply keys_spec|]. intros d s1 [HS2 HL2]. cbn in HL2. wp_step.
  eapply wp_from_Ok; [unfold release_cons; by rewrite HL2|]. apply wp_ret. split; [|done].
  destruct HS2 as [[] P U L H C]; by split.
Qed.

(** The console when the kernel starts. *)
Definition console0 : consst :=
  mkcons false 1 0 1 [] (fun _ => 0) 0 (fun _ => 0) 0 0 0 (mkhist (replicate 5 None) 0 0 (replicate 5 0)) (fun _ _ => 0) [] 0.

Lemma console0_shows : shows console0 (mked [] [] [] 0).
Proof.
  split; [split; vm_compute; intuition congruence|done|done|apply line_ok_nil|by split|done].
Qed.

(** "ab", return, "c", up. *)
Lemma console_implements_editor_witness :
  wp (consoleintr [97; 98; 13; 99; KEY_UP]) (fun _ s' => shows s' (mked [97; 98] [97; 98; 10] [[97; 98]] 0) /\ cons_lock s' = false) console0.
Proof.
  apply (console_implements_editor [97; 98; 13; 99; KEY_UP] console0 (mked [] [] [] 0)); [apply console0_shows|done| |cbn; lia|].
  - repeat constructor; unfold KEY_UP; lia.
  - cbn. unfold fits, KEY_UP, KEY_DN, INPUT_BUF. split_and!; try done; intros _; vm_compute; congruence.
Defined.

(** The history keys do not check for room in the input buffer.  A line of a
    hundred characters that starts with "b" is entered and not yet read; then
    the up key is pressed.  The recalled line is written over the unread one,
    whose first byte is now "a"; the buffer, of 128 bytes, is taken to hold 201;
    and a return is not accepted any more. *)
Theorem history_overwrites_input :
  match consoleintr ([98] ++ replicate 99 97 ++ [13]) console0 with
  | Ok _ s =>
      ibyte s (i_r s) = 98 /\
      match consoleintr [KEY_UP] s with
      | Ok _ s1 =>
          ibyte s1 (i_r s1) = 97 /\ u32 (i_e s1 - i_r s1) = 201 /\
          match consoleintr [13] s1 with
          | Ok _ s2 => i_w s2 = i_w s1 /\ i_e s2 = i_e s1
          | _ => False
          end
      | _ => False
      end
  | _ => False
  end.
Proof. vm_compute. split_and!; reflexivity. Qed.
