(* ===== verification/Dev.v ===== *)
(** * Dev: interrupt controllers, serial port and clock ([lapic.c], [ioapic.c], [picirq.c], [uart.c])

    The registers of the devices as state and the routines that set them up.
    The theorems: which interrupts the I/O controller lets through, the text
    that reaches the serial port, and that [cmostime] returns a date that the
    clock showed twice in a row, in binary. *)
From stdpp Require Import base gmap list numbers strings.
From Stdlib Require Import ZArith Lia ZifyBool.
From S2P Require Import Prelude Machine Trap Console.

(** ** [ioapic.c] *)

Definition REG_ID : Z := 0.
Definition REG_VER : Z := 1.
Definition REG_TABLE : Z := 16.
Definition INT_DISABLED : Z := 65536.

(** The selected register and the registers. *)
Record ioapic := mkioapic { io_reg : Z; io_data : Z -> Z }.
Notation MI := (M ioapic).

Definition ioapicread (reg : Z) : MI Z :=
  modify (fun s => mkioapic reg (io_data s)) ;;; gets (fun s => io_data s (io_reg s)).
Definition ioapicwrite (reg data : Z) : MI unit :=
  modify (fun s => mkioapic reg (io_data s)) ;;;
  modify (fun s => mkioapic (io_reg s) (fun r => if r =? io_reg s then data else io_data s r)).

Fixpoint ioapic_mask (n : nat) (i : Z) : MI unit :=
  match n with
  | O => ret tt
  | S n =>
      ioapicwrite (REG_TABLE + 2 * i) (Z.lor INT_DISABLED (T_IRQ0 + i)) ;;;
      ioapicwrite (REG_TABLE + 2 * i + 1) 0 ;;;
      ioapic_mask n (i + 1)
  end.

(** The message when the identifiers differ is left out. *)
Definition ioapicinit : MI unit :=
  let! v := ioapicread REG_VER in
  let maxintr := Z.land (Z.shiftr v 16) 255 in
  ioapicread REG_ID ;;;
  ioapic_mask (Z.to_nat (maxintr + 1)) 0.

Definition ioapicenable (irq cpunum : Z) : MI unit :=
  ioapicwrite (REG_TABLE + 2 * irq) (T_IRQ0 + irq) ;;;
  ioapicwrite (REG_TABLE + 2 * irq + 1) (Z.shiftl cpunum 24).

(** What the controller does with interrupt line [irq]: nothing, or it raises a
    vector on a processor. *)
Definition routed (s : ioapic) (irq : Z) : option (Z * Z) :=
  let low := io_data s (REG_TABLE + 2 * irq) in
  if Z.testbit low 16 then None else Some (Z.land low 255, Z.shiftr (io_data s (REG_TABLE + 2 * irq + 1)) 24).

Lemma ioapicwrite_at reg data s : ioapicwrite reg data s = Ok tt (mkioapic reg (fun r => if r =? reg then data else io_data s r)).
Proof. done. Qed.

Lemma ioapic_mask_spec (n : nat) : forall i s, 0 <= i -> wp (ioapic_mask n i) (fun _ s' =>
  (forall j, i <= j < i + Z.of_nat n -> io_data s' (REG_TABLE + 2 * j) = Z.lor INT_DISABLED (T_IRQ0 + j)) /\
  (forall r, r < REG_TABLE + 2 * i \/ REG_TABLE + 2 * (i + Z.of_nat n) <= r -> io_data s' r = io_data s r)) s.
Proof.
  induction n as [|n IH]; intros i s Hi; cbn [ioapic_mask]; [apply wp_ret; split; [lia|done]|]. unfold wp, bind. rewrite !ioapicwrite_at. fold (wp (ioapic_mask n (i + 1)) (fun _ s' =>
  (forall j, i <= j < i + Z.of_nat (S n) -> io_data s' (REG_TABLE + 2 * j) = Z.lor INT_DISABLED (T_IRQ0 + j)) /\
  (forall r, r < REG_TABLE + 2 * i \/ REG_TABLE + 2 * (i + Z.of_nat (S n)) <= r -> io_data s' r = io_data s r))).
  eapply wp_mono; [apply IH; lia|]. intros [] s' (I1 & I2). cbn [io_data] in I2. split.
  - intros j Hj. destruct (decide (j = i)) as [->|Hne]; [|apply I1; lia]. rewrite I2 by lia. replace (REG_TABLE + 2 * i =? REG_TABLE + 2 * i + 1) with false by lia. by rewrite Z.eqb_refl.
  - intros r Hr. rewrite I2 by lia. replace (r =? REG_TABLE + 2 * i + 1) with false by lia. by replace (r =? REG_TABLE + 2 * i) with false by lia.
Qed.

Lemma masked_bit j : 0 <= j < 224 -> Z.testbit (Z.lor INT_DISABLED (T_IRQ0 + j)) 16 = true.
Proof. intros _. by rewrite Z.lor_spec. Qed.

Lemma ioapicinit_spec s : Z.land (Z.shiftr (io_data s REG_VER) 16) 255 < 224 ->
  wp ioapicinit (fun _ s1 => forall j, 0 <= j <= Z.land (Z.shiftr (io_data s REG_VER) 16) 255 -> routed s1 j = None) s.
Proof.
  set (n := Z.land _ _). intros Hn. unfold ioapicinit, ioapicread. do 2 wp_step. apply wp_modify, wp_gets. cbn [io_data io_reg]. fold n. do 2 wp_step. apply wp_modify, wp_gets.
  eapply wp_mono; [apply ioapic_mask_spec; lia|]. intros [] s1 (I1 & _) j Hj. unfold routed. rewrite I1 by lia. by rewrite masked_bit by lia.
Qed.

Lemma ioapicenable_spec irq cpunum s : 0 <= irq < 224 -> 0 <= cpunum < 256 ->
  wp (ioapicenable irq cpunum) (fun _ s' => routed s' irq = Some (T_IRQ0 + irq, cpunum) /\ forall j, j <> irq -> routed s' j = routed s j) s.
Proof.
  intros Hi Hc. unfold wp, ioapicenable, bind. rewrite !ioapicwrite_at. unfold routed. cbn [io_data]. split.
  - replace (REG_TABLE + 2 * irq =? REG_TABLE + 2 * irq + 1) with false by lia. rewrite !Z.eqb_refl. unfold T_IRQ0. rewrite Z.testbit_eqb, Z.div_small by lia. change (0 mod 2 =? 1) with false. cbn match. rewrite Z.shiftr_shiftl_l, Z.sub_diag, Z.shiftl_0_r by lia.
    change 255 with (Z.ones 8). rewrite Z.land_ones by lia. change (2 ^ 8) with 256. by rewrite Z.mod_small by lia.
  - intros j Hj. replace (REG_TABLE + 2 * j =? REG_TABLE + 2 * irq + 1) with false by lia. replace (REG_TABLE + 2 * j =? REG_TABLE + 2 * irq) with false by lia.
    replace (REG_TABLE + 2 * j + 1 =? REG_TABLE + 2 * irq + 1) with false by lia. by replace (REG_TABLE + 2 * j + 1 =? REG_TABLE + 2 * irq) with false by lia.
Qed.

(** ** [lapic.c] *)

Definition ID : Z := 8.
Definition VER : Z := 12.
Definition TPR : Z := 32.
Definition EOI : Z := 44.
Definition SVR : Z := 60.
Definition ENABLE : Z := 256.
Definition ESR : Z := 160.
Definition ICRLO : Z := 192.
Definition INIT : Z := 1280.
Definition STARTUP : Z := 1536.
Definition ASSERT : Z := 16384.
Definition LEVEL : Z := 32768.
Definition BCAST : Z := 524288.
Definition ICRHI : Z := 196.
Definition TIMER : Z := 200.
Definition X1 : Z := 11.
Definition PERIODIC : Z := 131072.
Definition PCINT : Z := 208.
Definition LINT0 : Z := 212.
Definition LINT1 : Z := 216.
Definition ERROR : Z := 220.
Definition MASKED : Z := 65536.
Definition TICR : Z := 224.
Definition TDCR : Z := 248.
Definition IRQ_ERROR : Z := 19.

(** The registers, how often reading the command register will still show a
    delivery under way, the interrupts sent to other processors, and the CMOS
    shutdown code and warm reset vector; no registers is a machine without the
    controller. *)
Record apic := mkapic { ap_regs : option (Z -> Z); ap_busy : nat; ap_sent : list (Z * Z); ap_shutdown : Z; ap_reset : Z }.
Notation MA := (M apic).

Definition set_reg (r : Z -> Z) (index value : Z) : Z -> Z := fun i => if i =? index then value else r i.

(** A write to the lower command register sends an interrupt to the processor
    that the upper one names. *)
Definition lapicw (index value : Z) : MA unit := fun s =>
  match ap_regs s with
  | None => Fault "lapic"
  | Some r =>
      Ok tt (mkapic (Some (set_reg r index value)) (ap_busy s)
               (if index =? ICRLO then ap_sent s ++ [(Z.shiftr (r ICRHI) 24, value)] else ap_sent s) (ap_shutdown s) (ap_reset s))
  end.

(** The wait for the delivery: each reading brings its end nearer. *)
Definition lapicwait (fuel : nat) : MA unit :=
  loop fuel (fun _ => let! n := gets ap_busy in
    match n with O => ret (inr tt) | S n => modify (fun s => mkapic (ap_regs s) n (ap_sent s) (ap_shutdown s) (ap_reset s)) ;;; ret (inl tt) end) tt.

Fixpoint lapicws (l : list (Z * Z)) : MA unit := match l with [] => ret tt | (i, v) :: l => lapicw i v ;;; lapicws l end.

Definition lapicinit (fuel : nat) : MA unit :=
  let! r := gets ap_regs in
  match r with
  | None => ret tt
  | Some r =>
      lapicws [(SVR, Z.lor ENABLE (T_IRQ0 + IRQ_SPURIOUS)); (TDCR, X1); (TIMER, Z.lor PERIODIC (T_IRQ0 + IRQ_TIMER)); (TICR, 10000000); (LINT0, MASKED); (LINT1, MASKED)] ;;;
      when (4 <=? Z.land (Z.shiftr (r VER) 16) 255) (lapicw PCINT MASKED) ;;;
      lapicws [(ERROR, T_IRQ0 + IRQ_ERROR); (ESR, 0); (ESR, 0); (EOI, 0); (ICRHI, 0); (ICRLO, Z.lor (Z.lor BCAST INIT) LEVEL)] ;;;
      lapicwait fuel ;;;
      lapicw TPR 0
  end.

Definition lapicid : MA Z := gets (fun s => match ap_regs s with None => 0 | Some r => Z.shiftr (r ID) 24 end).
Definition lapiceoi : MA unit := let! r := gets ap_regs in match r with None => ret tt | Some _ => lapicw EOI 0 end.

(** The shutdown code, the warm reset vector at 0x467, and the interrupts that start a processor at
    [addr]. *)
Definition lapicstartap (apicid addr : Z) : MA unit :=
  modify (fun s => mkapic (ap_regs s) (ap_busy s) (ap_sent s) 10 (65536 * Z.land (Z.shiftr addr 4) 65535)) ;;;
  lapicws [(ICRHI, Z.shiftl apicid 24); (ICRLO, Z.lor (Z.lor INIT LEVEL) ASSERT); (ICRLO, Z.lor INIT LEVEL);
           (ICRHI, Z.shiftl apicid 24); (ICRLO, Z.lor STARTUP (Z.shiftr addr 12));
           (ICRHI, Z.shiftl apicid 24); (ICRLO, Z.lor STARTUP (Z.shiftr addr 12))].

Lemma wp_lapicws_cons i v l' r n l d w Q :
  wp (lapicws l') Q (mkapic (Some (set_reg r i v)) n (if i =? ICRLO then l ++ [(Z.shiftr (r ICRHI) 24, v)] else l) d w) ->
  wp (lapicws ((i, v) :: l')) Q (mkapic (Some r) n l d w).
Proof. done. Qed.

Lemma lapicwait_spec fuel r n l d w Q : (n < fuel)%nat -> Q tt (mkapic r 0 l d w) -> wp (lapicwait fuel) Q (mkapic r n l d w).
Proof.
  intros Hf HQ. revert n Hf. unfold lapicwait. induction fuel as [|fuel IH]; intros n Hf; [lia|]. cbn [loop]. wp_step. wp_step. apply wp_gets. cbn [ap_busy].
  destruct n as [|n]; [by repeat wp_step|]. wp_step. apply wp_modify, wp_ret. cbn [ap_regs ap_sent ap_shutdown ap_reset]. apply IH. lia.
Qed.

(** After [lapicinit] the timer raises its vector again and again, the local
    lines are masked, and no interrupt is held back by priority. *)
Theorem lapicinit_sets fuel r n l d w : (n < fuel)%nat ->
  wp (lapicinit fuel) (fun _ s => exists r', ap_regs s = Some r' /\ r' TIMER = PERIODIC + 32 /\ Z.testbit (r' SVR) 8 = true /\ r' LINT0 = MASKED /\ r' LINT1 = MASKED /\ r' TPR = 0 /\ ap_reset s = w) (mkapic (Some r) n l d w).
Proof.
  intros Hf. unfold lapicinit. wp_step. apply wp_gets. cbn [ap_regs]. wp_step. eapply wp_from_Ok; [reflexivity|]. wp_step.
  assert (HS : forall s Q, (forall s', (exists r0 r', ap_regs s = Some r0 /\ ap_regs s' = Some r' /\ ap_busy s' = ap_busy s /\ ap_reset s' = ap_reset s /\ (forall i, i <> PCINT -> r' i = r0 i)) -> Q tt s') -> forall r0, ap_regs s = Some r0 ->
    wp (when (4 <=? Z.land (Z.shiftr (r VER) 16) 255) (lapicw PCINT MASKED)) Q s).
  { intros s Q HQ r0 E0. destruct (4 <=? _); [|apply wp_ret; apply HQ; eexists _, _; by split_and!]. unfold wp, when, lapicw. rewrite E0. apply HQ. eexists _, _. split_and!; [done..|]. intros i Hi. cbn. unfold set_reg. by replace (i =? PCINT) with false by lia. }
  eapply HS; [|reflexivity]. intros s' (r0 & r1 & E0 & E1 & EB & ER & HI). wp_step. destruct s' as [rs b l' d' w']. cbn [ap_regs ap_busy ap_reset] in *. subst. injection E0 as <-.
  eapply wp_from_Ok; [reflexivity|]. wp_step. apply lapicwait_spec; [done|]. eapply wp_from_Ok; [reflexivity|]. eexists. split; [reflexivity|]. cbn -[Z.testbit]. rewrite !HI by done. by split_and!.
Qed.

(** [lapicstartap] resets the processor and starts it, twice, at the page of
    [addr], and sends nothing to any other one. *)
Theorem lapicstartap_sends apicid addr r n l d w : 0 <= apicid < 256 ->
  wp (lapicstartap apicid addr) (fun _ s => is_Some (ap_regs s) /\ ap_shutdown s = 10 /\ ap_sent s = l ++ ((fun v => (apicid, v)) <$> [Z.lor (Z.lor INIT LEVEL) ASSERT; Z.lor INIT LEVEL; Z.lor STARTUP (Z.shiftr addr 12); Z.lor STARTUP (Z.shiftr addr 12)])) (mkapic (Some r) n l d w).
Proof.
  intros Ha. unfold lapicstartap. wp_step. apply wp_modify. cbn [ap_regs ap_busy ap_sent].
  repeat (apply wp_lapicws_cons; lazy beta iota delta [set_reg ICRLO ICRHI Z.eqb Pos.eqb]). apply wp_ret. cbn [ap_sent ap_shutdown ap_regs]. split_and!; [done|done|].
  rewrite !Z.shiftr_shiftl_l, Z.sub_diag, Z.shiftl_0_r by lia. by rewrite <- !app_assoc.
Qed.

(** ** The clock: [cmostime] *)

Definition CMOS_STATA : Z := 10.
Definition CMOS_STATB : Z := 11.
Definition CMOS_UIP : Z := 128.
Definition SECS : Z := 0.
Definition MINS : Z := 2.
Definition HOURS : Z := 4.
Definition DAY : Z := 7.
Definition MONTH : Z := 8.
Definition YEAR : Z := 9.

Record rtcdate := mkrtc { second : Z; minute : Z; hour : Z; day : Z; month : Z; year : Z }.
#[export] Instance rtcdate_eq : EqDecision rtcdate.
Proof. solve_decision. Defined.

Definition rtc_map (f : Z -> Z) (r : rtcdate) : rtcdate := mkrtc (f (second r)) (f (minute r)) (f (hour r)) (f (day r)) (f (month r)) (f (year r)).
Definition rtc_add_year (n : Z) (r : rtcdate) : rtcdate := mkrtc (second r) (minute r) (hour r) (day r) (month r) (u32 (year r + n)).

(** The value of each register at each reading, and how many there were. *)
Section Clock.
Variable clock : nat -> Z -> Z.
Notation MT := (M nat).

Definition cmos_read (reg : Z) : MT Z := fun t => Ok (clock t reg) (S t).

Definition fill_rtcdate : MT rtcdate :=
  let! s := cmos_read SECS in
  let! m := cmos_read MINS in
  let! h := cmos_read HOURS in
  let! d := cmos_read DAY in
  let! mo := cmos_read MONTH in
  let! y := cmos_read YEAR in
  ret (mkrtc s m h d mo y).

Definition CONV (x : Z) : Z := Z.shiftr x 4 * 10 + Z.land x 15.

Definition cmos_round (_ : unit) : MT (unit + rtcdate) :=
  let! t1 := fill_rtcdate in
  let! a := cmos_read CMOS_STATA in
  if negb (Z.land a CMOS_UIP =? 0) then ret (inl tt)
  else let! t2 := fill_rtcdate in if decide (t1 = t2) then ret (inr t1) else ret (inl tt).

Definition cmostime (fuel : nat) : MT rtcdate :=
  let! sb := cmos_read CMOS_STATB in
  let bcd := Z.land sb 4 =? 0 in
  let! t1 := loop fuel cmos_round tt in
  ret (rtc_add_year 2000 (if bcd then rtc_map CONV t1 else t1)).

(** What the clock shows at reading [t]. *)
Definition shown (t : nat) : rtcdate := mkrtc (clock t SECS) (clock t MINS) (clock t HOURS) (clock t DAY) (clock t MONTH) (clock t YEAR).

(** The date changes at most once in any thirteen readings. *)
Definition slow : Prop := forall a, exists c, (forall t, a <= t < c -> shown t = shown a)%nat /\ (forall t, c <= t < a + 13 -> shown t = shown (a + 12))%nat.
(** From reading [n] on, for two rounds, there is no update. *)
Definition quiet (n : nat) : Prop := forall t, (n <= t < n + 26)%nat -> shown t = shown n /\ Z.land (clock t CMOS_STATA) CMOS_UIP = 0.

Definition torn (a : nat) : rtcdate := mkrtc (clock a SECS) (clock (1 + a) MINS) (clock (2 + a) HOURS) (clock (3 + a) DAY) (clock (4 + a) MONTH) (clock (5 + a) YEAR).

Lemma cmos_round_at a : cmos_round tt a =
  if negb (Z.land (clock (6 + a) CMOS_STATA) CMOS_UIP =? 0) then Ok (inl tt) (7 + a)%nat
  else if decide (torn a = torn (7 + a)) then Ok (inr (torn a)) (13 + a)%nat else Ok (inl tt) (13 + a)%nat.
Proof. unfold cmos_round, bind. cbn. destruct negb; [done|]. cbn. by destruct decide. Qed.

Lemma torn_same a x : (forall t, a <= t < a + 6 -> shown t = x)%nat -> torn a = x.
Proof.
  intros HS. unfold torn. destruct x as [s m h d mo y].
  pose proof (HS a ltac:(lia)) as H0. pose proof (HS (1 + a)%nat ltac:(lia)) as H1. pose proof (HS (2 + a)%nat ltac:(lia)) as H2.
  pose proof (HS (3 + a)%nat ltac:(lia)) as H3. pose proof (HS (4 + a)%nat ltac:(lia)) as H4. pose proof (HS (5 + a)%nat ltac:(lia)) as H5.
  f_equal; [exact (f_equal second H0)|exact (f_equal minute H1)|exact (f_equal hour H2)|exact (f_equal day H3)|exact (f_equal month H4)|exact (f_equal year H5)].
Qed.

(** Two equal readings in a row are a date the clock has shown: an update that
    falls into the one does not fall into the other. *)
Lemma same_twice a : slow -> torn a = torn (7 + a) -> exists t, torn a = shown t.
Proof.
  intros HS E. destruct (HS a) as (c & H1 & H2). destruct (decide (a + 6 <= c)%nat).
  - exists a. apply torn_same. intros t Ht. apply H1. lia.
  - exists (a + 12)%nat. rewrite E. apply torn_same. intros t Ht. apply H2. lia.
Qed.

Lemma quiet_round n a : quiet n -> (n <= a <= n + 13)%nat -> cmos_round tt a = Ok (inr (shown n)) (13 + a)%nat.
Proof.
  intros HQ Ha. rewrite cmos_round_at. destruct (HQ (6 + a)%nat ltac:(lia)) as [_ ->]. cbn [negb Z.eqb].
  assert (E1 : torn a = shown n) by (apply torn_same; intros t Ht; apply HQ; lia).
  assert (E2 : torn (7 + a) = shown n) by (apply torn_same; intros t Ht; apply HQ; lia). rewrite E1, E2. by rewrite decide_True.
Qed.

Lemma cmos_loop n : slow -> quiet n -> forall fuel a, (a <= n + 13)%nat -> (n - a < fuel)%nat ->
  wp (loop fuel cmos_round tt) (fun r _ => exists t, r = shown t) a.
Proof.
  intros HS HQ. induction fuel as [|fuel IH]; intros a Ha Hf; [lia|]. cbn [loop]. apply wp_bind. destruct (decide (n <= a)%nat) as [Hn|Hn].
  { eapply wp_from_Ok; [by apply (quiet_round n)|]. apply wp_ret. eauto. }
  unfold wp. rewrite cmos_round_at. destruct negb; [apply IH; lia|]. destruct decide as [E|E]; [|apply IH; lia]. by apply same_twice.
Qed.
End Clock.

(** A number below 100 in two decimal digits. *)
Definition to_bcd (x : Z) : Z := 16 * (x / 10) + x mod 10.

Lemma CONV_bcd x : 0 <= x < 100 -> CONV (to_bcd x) = x.
Proof.
  intros Hx. unfold CONV, to_bcd. rewrite Z.shiftr_div_pow2 by lia. change 15 with (Z.ones 4). rewrite Z.land_ones by lia. change (2 ^ 4) with 16. zlia.
Qed.

Definition rtc_ok (r : rtcdate) : Prop := Forall (fun x => 0 <= x < 100) [second r; minute r; hour r; day r; month r; year r].

Lemma CONV_rtc r : rtc_ok r -> rtc_map CONV (rtc_map to_bcd r) = r.
Proof. destruct r as [s m h d mo y]. unfold rtc_ok. rewrite !Forall_cons. intros (? & ? & ? & ? & ? & ? & _). unfold rtc_map. cbn [second minute hour day month year] in *. by rewrite !CONV_bcd. Qed.

(** [cmostime] over a clock that keeps [date], in BCD when bit 2 of status
    register B is clear and in binary when it is set, whose date changes at most
    once in any thirteen readings: once there is no update for two rounds
    [cmostime] returns, and it returns a date that the clock kept at one moment,
    never a mixture of two, in binary and counted from the year 2000. *)
Theorem cmostime_reads clock (date : nat -> rtcdate) n fuel a :
  (forall t, rtc_ok (date t)) ->
  (forall t, shown clock t = if Z.land (clock a CMOS_STATB) 4 =? 0 then rtc_map to_bcd (date t) else date t) ->
  slow clock -> quiet clock n -> (n < fuel)%nat -> (a < n + 13)%nat ->
  wp (cmostime clock fuel) (fun r _ => exists t, r = rtc_add_year 2000 (date t) /\ 2000 <= year r < 2100) a.
Proof.
  intros HD HC HS HQ Hf Ha. unfold cmostime. wp_step. unfold cmos_read at 1. eapply wp_from_Ok; [reflexivity|]. wp_step.
  eapply wp_mono; [apply (cmos_loop clock n); [done|done|lia|lia]|]. intros r s' (t & ->). apply wp_ret. exists t. rewrite HC.
  pose proof (HD t) as Hok. assert (HY : 0 <= year (date t) < 100) by (unfold rtc_ok in Hok; rewrite !Forall_cons in Hok; tauto).
  assert (E : (if Z.land (clock a CMOS_STATB) 4 =? 0 then rtc_map CONV (if Z.land (clock a CMOS_STATB) 4 =? 0 then rtc_map to_bcd (date t) else date t) else (if Z.land (clock a CMOS_STATB) 4 =? 0 then rtc_map to_bcd (date t) else date t)) = date t)
    by (destruct (_ =? 0); [by apply CONV_rtc|done]). rewrite E. split; [done|]. cbn. rewrite u32_id; lia.
Qed.

(** A clock that goes from 23:59:59 on the last day of 2019 to the new year
    while it is being read: the first three rounds are torn or interrupted. *)
Definition new_year (t : nat) : rtcdate := if decide (t < 17)%nat then mkrtc 59 59 23 31 12 19 else mkrtc 0 0 0 1 1 20.
Definition new_year_clock (t : nat) (reg : Z) : Z :=
  let r := rtc_map to_bcd (new_year t) in
  if reg =? SECS then second r else if reg =? MINS then minute r else if reg =? HOURS then hour r else
  if reg =? DAY then day r else if reg =? MONTH then month r else if reg =? YEAR then year r else
  if reg =? CMOS_STATA then (if decide (t < 20)%nat then 128 else 0) else 2.

Lemma cmostime_reads_witness :
  (exists r s, cmostime new_year_clock 30 0%nat = Ok r s /\ r = mkrtc 0 0 0 1 1 2020) /\
  wp (cmostime new_year_clock 30) (fun r _ => exists t, r = rtc_add_year 2000 (new_year t) /\ 2000 <= year r < 2100) 0%nat.
Proof.
  assert (HS : forall t, shown new_year_clock t = rtc_map to_bcd (new_year t)) by (intros t; unfold shown, new_year_clock, new_year; by destruct decide).
  split; [eexists _, _; split; vm_compute; reflexivity|]. apply (cmostime_reads new_year_clock new_year 20); [| | | |lia|lia].
  - intros t. unfold new_year. by destruct decide; unfold rtc_ok; cbn [second minute hour day month year]; repeat constructor.
  - intros t. apply HS.
  - intros x. exists (x `max` 17)%nat. split; intros t Ht; rewrite !HS; unfold new_year; repeat destruct decide; try done; lia.
  - intros t Ht. split; [rewrite !HS; unfold new_year; repeat destruct decide; try done; lia|]. unfold new_year_clock. cbn. destruct decide; [lia|done].
Defined.

(** ** [picirq.c] *)

Definition IO_PIC1 : Z := 32.
Definition IO_PIC2 : Z := 160.
Definition picinit (ports : Z -> Z) : Z -> Z := set_reg (set_reg ports (IO_PIC1 + 1) 255) (IO_PIC2 + 1) 255.

(** Line [irq] of the two controllers together is held back. *)
Definition pic_masked (ports : Z -> Z) (irq : Z) : bool :=
  if irq <? 8 then Z.testbit (ports (IO_PIC1 + 1)) irq else Z.testbit (ports (IO_PIC2 + 1)) (irq - 8).

Theorem picinit_masks ports irq : 0 <= irq < 16 -> pic_masked (picinit ports) irq = true.
Proof.
  intros Hi. unfold pic_masked, picinit, set_reg. cbn [Z.eqb Z.add Pos.add Pos.eqb IO_PIC1 IO_PIC2]. change 255 with (Z.ones 8).
  destruct (irq <? 8) eqn:E; apply Z.ones_spec_low; lia.
Qed.

(** ** [uart.c]

    The port: whether there is one, the divisor and whether it is unlocked,
    the line control and interrupt enable registers, how often the line status
    will still be read before the transmitter is free, the bytes sent, and the
    bytes received that wait to be read; [u_uart] is the variable [uart]. *)
Definition COM1 : Z := 1016.
Record uartst := mkuart {
  u_there : bool; u_uart : Z; u_div : Z; u_lcr : Z; u_ier : Z;
  u_full : nat; u_out : list Z; u_in : list Z; u_io : ioapic }.
Notation MU := (M uartst).

Section Uart.
(** How many readings of the status a byte takes to leave. *)
Variable delay : nat.

(** Writing to a port.  A byte for the transmitter replaces one that has not
    left it. *)
Definition uart_outb (port v : Z) : MU unit := modify (fun s =>
  let '(mkuart p f d l i b o n io) := s in
  if negb p then s
  else if port =? COM1 then
    if Z.testbit l 7 then mkuart p f (256 * (d / 256) + u8 v) l i b o n io
    else match b with O => mkuart p f d l i delay (o ++ [u8 v]) n io | S _ => mkuart p f d l i delay (removelast o ++ [u8 v]) n io end
  else if port =? COM1 + 1 then if Z.testbit l 7 then mkuart p f (u8 d + 256 * u8 v) l i b o n io else mkuart p f d l (u8 v) b o n io
  else if port =? COM1 + 3 then mkuart p f d (u8 v) i b o n io
  else s).

Definition uart_inb (port : Z) : MU Z := fun s =>
  let '(mkuart p f d l i b o n io) := s in
  if negb p then Ok 255 s
  else if port =? COM1 then Ok (nth 0 n 0) (mkuart p f d l i b o (tail n) io)
  else if port =? COM1 + 5 then
    Ok (Z.lor (match n with [] => 0 | _ => 1 end) (match b with O => 32 | _ => 0 end)) (mkuart p f d l i (pred b) o n io)
  else Ok 0 s.

Definition uartputc (c : Z) : MU unit :=
  let! u := gets u_uart in
  if u =? 0 then ret tt
  else
    loop 129 (fun i =>
      if i <? 128 then let! st := uart_inb (COM1 + 5) in if Z.land st 32 =? 0 then ret (inl (i + 1)) else ret (inr tt)
      else ret (inr tt)) 0 ;;;
    uart_outb COM1 c.

Fixpoint uart_puts (l : list Z) : MU unit := match l with [] => ret tt | c :: l => uartputc c ;;; uart_puts l end.

(** The text xv6... and a newline. *)
Definition banner : list Z := [120; 118; 54; 46; 46; 46; 10].

Definition uartinit : MU unit :=
  uart_outb (COM1 + 2) 0 ;;;
  uart_outb (COM1 + 3) 128 ;;;
  uart_outb COM1 (115200 / 9600) ;;;
  uart_outb (COM1 + 1) 0 ;;;
  uart_outb (COM1 + 3) 3 ;;;
  uart_outb (COM1 + 4) 0 ;;;
  uart_outb (COM1 + 1) 1 ;;;
  let! st := uart_inb (COM1 + 5) in
  if st =? 255 then ret tt
  else
    modify (fun s => mkuart (u_there s) 1 (u_div s) (u_lcr s) (u_ier s) (u_full s) (u_out s) (u_in s) (u_io s)) ;;;
    uart_inb (COM1 + 2) ;;;
    uart_inb COM1 ;;;
    zoom u_io (fun io s => mkuart (u_there s) (u_uart s) (u_div s) (u_lcr s) (u_ier s) (u_full s) (u_out s) (u_in s) io) (ioapicenable IRQ_COM1 0) ;;;
    uart_puts banner.

Definition uartgetc : MU Z :=
  let! u := gets u_uart in
  if u =? 0 then ret (-1)
  else
    let! st := uart_inb (COM1 + 5) in
    if Z.land st 1 =? 0 then ret (-1) else uart_inb COM1.

(** The calls of [uartgetc] that [consoleintr] makes, up to the one that says
    that there is nothing more. *)
Fixpoint uart_chars (fuel : nat) : MU (list Z) :=
  match fuel with
  | O => fun _ => NoFuel
  | S fuel => let! c := uartgetc in if c <? 0 then ret [] else let! l := uart_chars fuel in ret (c :: l)
  end.

Definition uartintr (fuel : nat) : M (uartst * consst) bool :=
  let! cs := zoom fst (fun u s => (u, s.2)) (uart_chars fuel) in
  zoom snd (fun c s => (s.1, c)) (consoleintr cs).

Lemma uart_poll f d l i o n io fuel : forall k b, 0 <= k -> (128 - k < Z.of_nat fuel) -> k <= 128 ->
  loop fuel (fun i => if i <? 128 then let! st := uart_inb (COM1 + 5) in if Z.land st 32 =? 0 then ret (inl (i + 1)) else ret (inr tt) else ret (inr tt)) k (mkuart true f d l i b o n io) =
  Ok tt (mkuart true f d l i (b - Z.to_nat (128 - k))%nat o n io).
Proof.
  induction fuel as [|fuel IH]; intros k b Hk Hf Hle; [lia|]. cbn [loop]. unfold bind at 1. destruct (k <? 128) eqn:Ek.
  - unfold bind, uart_inb. cbn [negb]. replace (COM1 + 5 =? COM1) with false by done. rewrite Z.eqb_refl. destruct b as [|b].
    + replace (Z.land (Z.lor _ 32) 32 =? 0) with false by (by destruct n). done.
    + replace (Z.land (Z.lor _ 0) 32 =? 0) with true by (by destruct n). cbn [ret pred]. rewrite IH by lia. do 2 f_equal. lia.
  - cbn. by replace (b - Z.to_nat (128 - k))%nat with b by lia.
Qed.

Lemma uartputc_at f d l i b o n io c : f <> 0 -> Z.testbit l 7 = false ->
  uartputc c (mkuart true f d l i b o n io) = Ok tt (mkuart true f d l i delay ((if decide (b <= 128)%nat then o else removelast o) ++ [u8 c]) n io).
Proof.
  intros Hf Hl. unfold uartputc, bind, gets. cbn [u_uart]. replace (f =? 0) with false by lia. rewrite uart_poll by lia. change (Z.to_nat (128 - 0)) with 128%nat.
  unfold uart_outb, modify. rewrite Hl. cbn [negb]. rewrite Z.eqb_refl. destruct (decide _); [by replace (b - 128)%nat with 0%nat by lia|]. by destruct (b - 128)%nat eqn:E; [lia|].
Qed.

(** The port is set up and a byte leaves it within the 128 readings that
    [uartputc] allows. *)
Definition uart_ready (s : uartst) : Prop := u_there s = true /\ Z.testbit (u_lcr s) 7 = false /\ (u_full s <= 128)%nat.
Definition same_serial (s : uartst) (c : consst) : Prop := u_out s = serial c /\ u_uart s = uart c /\ (u_uart s <> 0 -> uart_ready s).

(** The polling [uartputc] implements the one that the console is verified
    with: the console's serial output is the sequence of bytes the port has
    sent, when a byte leaves the port within 128 readings of its status. *)
Theorem uartputc_refines s cs c : (delay <= 128)%nat -> same_serial s cs ->
  wp (uartputc c) (fun _ s' => wp (Console.uartputc c) (fun _ cs' => same_serial s' cs' /\ u_in s' = u_in s /\ u_io s' = u_io s) cs) s.
Proof.
  intros Hd (EO & EU & HR). destruct s as [p f d l i b o n io]. cbn [u_there u_uart u_lcr u_full u_out] in *. subst f. destruct (decide (uart cs = 0)) as [E|E].
  - unfold wp, uartputc, Console.uartputc, bind, gets, modify. cbn [u_uart]. rewrite E. cbn. split; [|done]. split_and!; cbn; congruence.
  - destruct (HR E) as (HT & Hl & Hb). cbn in *. subst p. unfold wp. rewrite uartputc_at by done. unfold Console.uartputc, modify. replace (uart cs =? 0) with false by lia.
    rewrite decide_True by lia. cbn. split; [|done]. split_and!; cbn; [congruence|done|]. intros _. by split_and!.
Qed.

(** A slower port loses what it was sending. *)
Theorem uartputc_loses s c b x : (128 < u_full s)%nat -> u_out s = b ++ [x] -> u_there s = true -> u_uart s <> 0 -> Z.testbit (u_lcr s) 7 = false ->
  wp (uartputc c) (fun _ s' => u_out s' = b ++ [u8 c]) s.
Proof.
  destruct s as [p f d l i n o m io]. cbn. intros Hb -> -> Hf Hl. unfold wp. rewrite uartputc_at by done. rewrite decide_False by lia. cbn. by rewrite removelast_last.
Qed.

Lemma uart_puts_spec l : forall s, (delay <= 128)%nat -> uart_ready s -> u_uart s <> 0 ->
  uart_puts l s = Ok tt (mkuart true (u_uart s) (u_div s) (u_lcr s) (u_ier s) (match l with [] => u_full s | _ => delay end) (u_out s ++ (u8 <$> l)) (u_in s) (u_io s)).
Proof.
  induction l as [|c l IH]; intros [p f d lc i b o n io] Hd (HT & Hl & Hb) Hf; cbn [u_there u_uart u_lcr u_full u_out u_div u_ier u_in u_io uart_puts] in *; subst p; [cbn; by rewrite app_nil_r|].
  unfold bind. rewrite uartputc_at by done. rewrite decide_True by done. rewrite IH by done. cbn [u_there u_uart u_lcr u_full u_out u_div u_ier u_in u_io fmap list_fmap]. rewrite <- app_assoc. by destruct l.
Qed.

(** [uartinit] finds a port that is there, sets it to 9600 baud and eight bits,
    has its interrupt sent to processor 0, drops one byte that may be waiting,
    and announces the kernel; when there is none it leaves the variable and the
    interrupt controller alone. *)
Theorem uartinit_announces s : (delay <= 128)%nat -> u_uart s = 0 -> (u_full s <= 128)%nat -> 0 <= u_div s < 65536 ->
  wp uartinit (fun _ s' => if u_there s
    then u_uart s' = 1 /\ uart_ready s' /\ u_div s' = 12 /\ u_lcr s' = 3 /\ u_ier s' = 1 /\ u_out s' = u_out s ++ banner /\ u_in s' = tail (u_in s) /\ routed (u_io s') IRQ_COM1 = Some (T_IRQ0 + IRQ_COM1, 0) /\ (forall j, j <> IRQ_COM1 -> routed (u_io s') j = routed (u_io s) j)
    else s' = s) s.
Proof.
  intros Hd Hu Hb Hv. destruct s as [p f d l i b o n io]. cbn [u_there u_uart u_lcr u_full u_out u_div u_ier u_in u_io] in *. subst f. destruct p; [|done].
  set (o' := mkuart true 1 (u8 (256 * (d / 256) + 12) + 256 * 0) 3 1 (pred b) o (tail n) (mkioapic (REG_TABLE + 2 * IRQ_COM1 + 1) (set_reg (set_reg (io_data io) (REG_TABLE + 2 * IRQ_COM1) (T_IRQ0 + IRQ_COM1)) (REG_TABLE + 2 * IRQ_COM1 + 1) (Z.shiftl 0 24)))).
  assert (E : uartinit (mkuart true 0 d l i b o n io) = uart_puts banner o').
  { unfold uartinit, bind, uart_outb, modify, uart_inb, zoom, ioapicenable. cbn -[uart_puts Z.div Z.mul u8]. by destruct n, b. }
  assert (HR : uart_ready o') by (unfold o', uart_ready; cbn [u_there u_lcr u_full]; split_and!; [done|done|lia]).
  eapply wp_from_Ok; [rewrite E; apply uart_puts_spec; [done|done|by unfold o']|].
  cbn [u_uart u_there u_lcr u_full u_div u_ier u_out u_in u_io o']. split_and!; try done; [unfold u8; zlia|]. apply (ioapicenable_spec IRQ_COM1 0 io); done.
Qed.

Lemma uartgetc_at f d lc i b o n io : f <> 0 ->
  uartgetc (mkuart true f d lc i b o n io) = match n with [] => Ok (-1) (mkuart true f d lc i (pred b) o [] io) | x :: n => Ok x (mkuart true f d lc i (pred b) o n io) end.
Proof. intros Hf. unfold uartgetc, bind, gets. cbn [u_uart]. replace (f =? 0) with false by lia. by destruct n, b. Qed.

Lemma uart_chars_spec l : forall fuel s, u_uart s <> 0 -> u_there s = true -> u_in s = l -> Forall (fun x => 0 <= x < 256) l -> (length l < fuel)%nat ->
  wp (uart_chars fuel) (fun cs s' => cs = l /\ u_in s' = [] /\ u_out s' = u_out s) s.
Proof.
  induction l as [|x l IH]; intros [|fuel] [p f d lc i b o n io] Hf HT Hn HF Hlen; cbn [u_uart u_there u_in u_out length] in *; subst; try lia; cbn [uart_chars].
  - apply wp_bind. eapply wp_from_Ok; [rewrite uartgetc_at by done; reflexivity|]. by apply wp_ret.
  - apply Forall_cons in HF as [Hx HF]. apply wp_bind. eapply wp_from_Ok; [rewrite uartgetc_at by done; reflexivity|].
    replace (x <? 0) with false by lia. wp_step. eapply wp_mono; [by apply IH; [..|lia]|]. intros cs s' (-> & E1 & E2). by apply wp_ret.
Qed.

(** An interrupt of the port hands every byte that has been received to the
    console, in the order of arrival, and leaves none behind. *)
Theorem uartintr_types fuel s cs Q : u_uart s <> 0 -> u_there s = true -> Forall (fun x => 0 <= x < 256) (u_in s) -> (length (u_in s) < fuel)%nat ->
  wp (consoleintr (u_in s)) Q cs -> wp (uartintr fuel) (fun r s' => Q r s'.2 /\ u_in s'.1 = [] /\ u_out s'.1 = u_out s) (s, cs).
Proof.
  intros Hf HT HF Hlen HC. unfold uartintr. wp_step. apply wp_zoom. eapply wp_mono; [by apply (uart_chars_spec (u_in s))|]. intros l s' (-> & E1 & E2).
  apply wp_zoom. eapply wp_mono; [exact HC|]. intros r c' HQ. by split_and!.
Qed.
End Uart.
