(* ===== verification/Cpus.v ===== *)
(** * Cpus: processors, segments and start-up ([mmu.h], [asm.h], [bootasm.S], [entryother.S], [entry.S], [main.c], [seginit], [mycpu], [sched])

    Segment descriptors as the processor reads them; the assembly code that a
    processor runs before it enters C; the processor table and [sched]; and the
    start of the other processors. *)
From stdpp Require Import base gmap list numbers strings.
From Stdlib Require Import ZArith Lia ZifyBool.
From S2P Require Import Prelude Machine Cstring Ptable Trap Entry Kalloc Sample LockThms Console Dev.

(** ** Segment descriptors *)

(** [struct segdesc]: the bit fields. *)
Record segdesc := mkseg {
  lim_15_0 : Z;
  base_15_0 : Z;
  base_23_16 : Z;
  sd_type : Z;
  sd_s : Z;
  sd_dpl : Z;
  sd_p : Z;
  lim_19_16 : Z;
  sd_avl : Z;
  sd_rsv1 : Z;
  sd_db : Z;
  sd_g : Z;
  base_31_24 : Z;
}.

Definition STA_X : Z := 8.
Definition STA_W : Z := 2.
Definition STA_R : Z := 2.
Definition STS_T32A : Z := 9.

Definition SEG (type base lim dpl : Z) : segdesc :=
  mkseg (Z.land (Z.shiftr lim 12) 65535) (Z.land base 65535) (Z.land (Z.shiftr base 16) 255) type 1 dpl 1 (Z.shiftr lim 28) 0 0 1 1 (Z.shiftr base 24).
Definition SEG16 (type base lim dpl : Z) : segdesc :=
  mkseg (Z.land lim 65535) (Z.land base 65535) (Z.land (Z.shiftr base 16) 255) type 1 dpl 1 (Z.shiftr lim 16) 0 0 1 0 (Z.shiftr base 24).

(** The eight bytes of a descriptor in memory. *)
Definition enc_seg (d : segdesc) : list Z :=
  [lim_15_0 d mod 256; lim_15_0 d / 256; base_15_0 d mod 256; base_15_0 d / 256; base_23_16 d;
   sd_type d + 16 * sd_s d + 32 * sd_dpl d + 128 * sd_p d;
   lim_19_16 d + 16 * sd_avl d + 32 * sd_rsv1 d + 64 * sd_db d + 128 * sd_g d; base_31_24 d].

(** The macro [SEG_ASM] of the assembly files, and the null descriptor. *)
Definition SEG_ASM (type base lim : Z) : list Z :=
  let w0 := Z.land (Z.shiftr lim 12) 65535 in
  let w1 := Z.land base 65535 in
  [w0 mod 256; w0 / 256; w1 mod 256; w1 / 256; Z.land (Z.shiftr base 16) 255; Z.lor 0x90 type; Z.lor 0xC0 (Z.land (Z.shiftr lim 28) 15); Z.land (Z.shiftr base 24) 255].
Definition SEG_NULLASM : list Z := replicate 8 0.

(** What the processor takes from the bytes: base, last offset, kind and
    privilege level; nothing when the segment is not present. *)
Record segment := mksegment { sg_base : Z; sg_limit : Z; sg_type : Z; sg_app : bool; sg_dpl : Z }.
Definition dec_seg (l : list Z) : option segment :=
  match l with
  | [b0; b1; b2; b3; b4; b5; b6; b7] =>
      if Z.testbit b5 7 then
        let lim := b0 + 256 * b1 + 65536 * (b6 mod 16) in
        Some (mksegment (b2 + 256 * b3 + 65536 * b4 + 16777216 * b7) (if Z.testbit b6 7 then 4096 * lim + 4095 else lim) (b5 mod 16) (Z.testbit b5 4) (b5 / 32 mod 4))
      else None
  | _ => None
  end.

Lemma land_mod x k : 0 <= k -> Z.land x (Z.ones k) = x mod 2 ^ k.
Proof. apply Z.land_ones. Qed.
Lemma land_255 x : Z.land x 255 = x mod 256.
Proof. by apply (land_mod x 8). Qed.
Lemma land_65535 x : Z.land x 65535 = x mod 65536.
Proof. by apply (land_mod x 16). Qed.
Lemma land_15 x : Z.land x 15 = x mod 16.
Proof. by apply (land_mod x 4). Qed.
Lemma testbit_div x k c : 0 <= k -> 2 ^ k = c -> Z.testbit x k = (x / c mod 2 =? 1).
Proof. intros Hk <-. by rewrite Z.testbit_eqb. Qed.

Definition word32 (x : Z) : Prop := 0 <= x < 4294967296.

(** The processor finds in a descriptor made by [SEG] what the macro was
    given, with a limit that ends at a page. *)
Theorem SEG_decodes type base lim dpl : 0 <= type < 16 -> word32 base -> word32 lim -> 0 <= dpl < 4 ->
  dec_seg (enc_seg (SEG type base lim dpl)) = Some (mksegment base (4096 * (lim / 4096) + 4095) type true dpl).
Proof.
  unfold word32. intros Ht Hb Hl Hd. unfold enc_seg, SEG. cbn [lim_15_0 base_15_0 base_23_16 sd_type sd_s sd_dpl sd_p lim_19_16 sd_avl sd_rsv1 sd_db sd_g base_31_24].
  rewrite !Z.shiftr_div_pow2, land_255, !land_65535 by lia. change (2 ^ 12) with 4096. change (2 ^ 16) with 65536. change (2 ^ 24) with 16777216. change (2 ^ 28) with 268435456.
  unfold dec_seg. rewrite (testbit_div _ 7 128), (testbit_div _ 7 128), (testbit_div _ 4 16) by done.
  replace ((type + 16 * 1 + 32 * dpl + 128 * 1) / 128 mod 2 =? 1) with true by zlia.
  replace ((lim / 268435456 + 16 * 0 + 32 * 0 + 64 * 1 + 128 * 1) / 128 mod 2 =? 1) with true by zlia.
  replace ((type + 16 * 1 + 32 * dpl + 128 * 1) / 16 mod 2 =? 1) with true by zlia.
  do 2 f_equal; zlia.
Qed.

(** The assembly macro makes the same bytes as the C macro for ring 0. *)
Theorem SEG_ASM_same type base lim : 0 <= type < 16 -> word32 base -> word32 lim -> SEG_ASM type base lim = enc_seg (SEG type base lim 0).
Proof.
  unfold word32. intros Ht Hb Hl. unfold SEG_ASM, enc_seg, SEG. cbn [lim_15_0 base_15_0 base_23_16 sd_type sd_s sd_dpl sd_p lim_19_16 sd_avl sd_rsv1 sd_db sd_g base_31_24].
  assert (H1 : Z.lor 144 type = type + 16 * 1 + 32 * 0 + 128 * 1).
  { assert (HF : Forall (fun t => Z.lor 144 t = t + 16 * 1 + 32 * 0 + 128 * 1) (seqZ 0 16)) by (vm_compute; repeat constructor). rewrite Forall_forall in HF. apply HF, elem_of_seqZ. lia. }
  assert (H2 : forall x, 0 <= x < 16 -> Z.lor 192 x = x + 16 * 0 + 32 * 0 + 64 * 1 + 128 * 1).
  { intros x Hx. assert (HF : Forall (fun t => Z.lor 192 t = t + 16 * 0 + 32 * 0 + 64 * 1 + 128 * 1) (seqZ 0 16)) by (vm_compute; repeat constructor). rewrite Forall_forall in HF. apply HF, elem_of_seqZ. lia. }
  rewrite H1, land_15, (land_255 (Z.shiftr base 24)), !Z.shiftr_div_pow2 by lia. change (2 ^ 28) with 268435456. change (2 ^ 24) with 16777216.
  rewrite H2 by zlia. rewrite (Z.mod_small (lim / 268435456)), (Z.mod_small (base / 16777216)) by zlia. done.
Qed.

(** ** Code that runs before C *)

Definition CR0_PE : Z := 1.
Definition CR0_WP : Z := 0x10000.
Definition CR0_PG : Z := 0x80000000.
Definition CR4_PSE : Z := 16.

(** A processor that starts: control registers, selectors, the registers used,
    the instruction pointer, the interrupt flag, the descriptor table, how
    often the keyboard controller will still be seen busy, the bytes written to
    ports, and memory. *)
Record bcpu := mkbc {
  bc_cr : Z -> Z;
  bc_sel : seg -> Z;
  bc_eax : Z;
  bc_esp : Z;
  bc_pc : Z;
  bc_if : bool;
  bc_gdt : list (list Z);
  bc_kbc : nat;
  bc_outs : list (Z * Z);
  bc_mem : memory;
}.
Notation MB := (M bcpu).

(** Address translation with 4 MB pages. *)
Definition translate (s : bcpu) (a : Z) : option Z :=
  if Z.testbit (bc_cr s 0) 31 then
    let pde := load32 (bc_mem s) (bc_cr s 3 + 4 * (a / 4194304)) in
    if Z.testbit pde 0 && Z.testbit pde 7 && Z.testbit (bc_cr s 4) 4 then Some (pde / 4194304 * 4194304 + a mod 4194304) else None
  else Some a.

Definition seg_eqb (a b : seg) : bool :=
  match a, b with CS, CS | DS, DS | ES, ES | FS, FS | GS, GS | SS, SS => true | _, _ => false end.

Inductive binstr :=
  | Bcli
  | Bmovw_ax (v : Z)
  | Bmovw_seg (r : seg)
  | Bwait_kbc
  | Boutb (v port : Z)
  | Blgdt (t : list (list Z))
  | Bmovl_from_cr (n : Z)
  | Borl (v : Z)
  | Bmovl_to_cr (n : Z)
  | Bljmp (sel pc : Z)
  | Bmovl_eax (v : Z)
  | Bmovl_eax_at (a : Z)
  | Bmovl_esp (v : Z)
  | Bmovl_esp_at (a : Z)
  | Bcall (pc : Z)
  | Bcall_at (a : Z)
  | Bjmp_eax.

Section Boot.
(** How long the keyboard controller takes for a byte, and the address after
    the call. *)
Variable kbc_delay : nat.
Variable back : Z.

Definition set_eax (v : Z) (s : bcpu) : bcpu := mkbc (bc_cr s) (bc_sel s) v (bc_esp s) (bc_pc s) (bc_if s) (bc_gdt s) (bc_kbc s) (bc_outs s) (bc_mem s).
Definition set_esp (v : Z) (s : bcpu) : bcpu := mkbc (bc_cr s) (bc_sel s) (bc_eax s) v (bc_pc s) (bc_if s) (bc_gdt s) (bc_kbc s) (bc_outs s) (bc_mem s).
Definition set_bpc (v : Z) (s : bcpu) : bcpu := mkbc (bc_cr s) (bc_sel s) (bc_eax s) (bc_esp s) v (bc_if s) (bc_gdt s) (bc_kbc s) (bc_outs s) (bc_mem s).
Definition set_sel (r : seg) (v : Z) (s : bcpu) : bcpu :=
  mkbc (bc_cr s) (fun x => if seg_eqb x r then v else bc_sel s x) (bc_eax s) (bc_esp s) (bc_pc s) (bc_if s) (bc_gdt s) (bc_kbc s) (bc_outs s) (bc_mem s).
Definition set_cr (n v : Z) (s : bcpu) : bcpu := mkbc (set_reg (bc_cr s) n v) (bc_sel s) (bc_eax s) (bc_esp s) (bc_pc s) (bc_if s) (bc_gdt s) (bc_kbc s) (bc_outs s) (bc_mem s).
Definition set_kbc (n : nat) (o : list (Z * Z)) (s : bcpu) : bcpu := mkbc (bc_cr s) (bc_sel s) (bc_eax s) (bc_esp s) (bc_pc s) (bc_if s) (bc_gdt s) n o (bc_mem s).

Definition bload (a : Z) : MB Z := fun s =>
  match translate s a with None => Fault "page fault" | Some p => Ok (load32 (bc_mem s) p) s end.
Definition bstore (a v : Z) : MB unit := fun s =>
  match translate s a with
  | None => Fault "page fault"
  | Some p => Ok tt (mkbc (bc_cr s) (bc_sel s) (bc_eax s) (bc_esp s) (bc_pc s) (bc_if s) (bc_gdt s) (bc_kbc s) (bc_outs s) (store32 (bc_mem s) p v))
  end.

(** The loops that wait for the keyboard controller. *)
Definition a20_turn (_ : unit) : MB (unit + unit) :=
  let! n := gets bc_kbc in
  match n with O => ret (inr tt) | S n => modify (fun s => set_kbc n (bc_outs s) s) ;;; ret (inl tt) end.
Definition seta20 : MB unit := fun s => loop (S (bc_kbc s)) a20_turn tt s.

Definition bcall (pc : Z) : MB unit :=
  modify (fun s => set_esp (u32 (bc_esp s - 4)) s) ;;;
  let! sp := gets bc_esp in
  bstore sp back ;;;
  modify (set_bpc pc).

Definition bexec (i : binstr) : MB unit :=
  match i with
  | Bcli => modify (fun s => mkbc (bc_cr s) (bc_sel s) (bc_eax s) (bc_esp s) (bc_pc s) false (bc_gdt s) (bc_kbc s) (bc_outs s) (bc_mem s))
  | Bmovw_ax v => modify (fun s => set_eax (65536 * (bc_eax s / 65536) + v) s)
  | Bmovw_seg r => modify (fun s => set_sel r (bc_eax s mod 65536) s)
  | Bwait_kbc => seta20
  | Boutb v port => modify (fun s => set_kbc kbc_delay (bc_outs s ++ [(port, v)]) (set_eax (256 * (bc_eax s / 256) + v) s))
  | Blgdt t => modify (fun s => mkbc (bc_cr s) (bc_sel s) (bc_eax s) (bc_esp s) (bc_pc s) (bc_if s) t (bc_kbc s) (bc_outs s) (bc_mem s))
  | Bmovl_from_cr n => modify (fun s => set_eax (bc_cr s n) s)
  | Borl v => modify (fun s => set_eax (Z.lor (bc_eax s) v) s)
  | Bmovl_to_cr n => modify (fun s => set_cr n (bc_eax s) s)
  | Bljmp sel pc => modify (fun s => set_bpc pc (set_sel CS sel s))
  | Bmovl_eax v => modify (set_eax v)
  | Bmovl_eax_at a => let! v := bload a in modify (set_eax v)
  | Bmovl_esp v => modify (set_esp v)
  | Bmovl_esp_at a => let! v := bload a in modify (set_esp v)
  | Bcall pc => bcall pc
  | Bcall_at a => let! pc := bload a in bcall pc
  | Bjmp_eax => modify (fun s => set_bpc (bc_eax s) s)
  end.

(** Each instruction is fetched from where the code lies. *)
Fixpoint brun (l : list binstr) : MB unit :=
  match l with
  | [] => ret tt
  | i :: l =>
      let! s := gets id in
      (if decide (translate s (bc_pc s) = Some (bc_pc s)) then bexec i else fault "fetch") ;;;
      brun l
  end.

(** The bootstrap table of [bootasm.S] and [entryother.S]. *)
Definition boot_gdt : list (list Z) := [SEG_NULLASM; SEG_ASM (Z.lor STA_X STA_R) 0 0xffffffff; SEG_ASM STA_W 0 0xffffffff].

(** Loading the data segments in protected mode. *)
Definition load_segs : list binstr :=
  [Bmovw_ax (Z.shiftl SEG_KDATA 3); Bmovw_seg DS; Bmovw_seg ES; Bmovw_seg SS; Bmovw_ax 0; Bmovw_seg FS; Bmovw_seg GS].

Definition bootasm (start start32 bootmain : Z) : list binstr :=
  [Bcli; Bmovw_ax 0; Bmovw_seg DS; Bmovw_seg ES; Bmovw_seg SS;
   Bwait_kbc; Boutb 0xd1 0x64; Bwait_kbc; Boutb 0xdf 0x60;
   Blgdt boot_gdt; Bmovl_from_cr 0; Borl CR0_PE; Bmovl_to_cr 0; Bljmp (Z.shiftl SEG_KCODE 3) start32] ++
  load_segs ++ [Bmovl_esp start; Bcall bootmain].

Definition entryother (start start32 : Z) : list binstr :=
  [Bcli; Bmovw_ax 0; Bmovw_seg DS; Bmovw_seg ES; Bmovw_seg SS;
   Blgdt boot_gdt; Bmovl_from_cr 0; Borl CR0_PE; Bmovl_to_cr 0; Bljmp (Z.shiftl SEG_KCODE 3) start32] ++
  load_segs ++
  [Bmovl_from_cr 4; Borl CR4_PSE; Bmovl_to_cr 4;
   Bmovl_eax_at (start - 12); Bmovl_to_cr 3;
   Bmovl_from_cr 0; Borl (Z.lor CR0_PE (Z.lor CR0_PG CR0_WP)); Bmovl_to_cr 0;
   Bmovl_esp_at (start - 4); Bcall_at (start - 8)].

Definition entry (entrypgdir stack main : Z) : list binstr :=
  [Bmovl_from_cr 4; Borl CR4_PSE; Bmovl_to_cr 4;
   Bmovl_eax (V2P entrypgdir); Bmovl_to_cr 3;
   Bmovl_from_cr 0; Borl (Z.lor CR0_PG CR0_WP); Bmovl_to_cr 0;
   Bmovl_esp (stack + KSTACKSIZE); Bmovl_eax main; Bjmp_eax].

(** The segment that a selector stands for. *)
Definition segment_of (s : bcpu) (r : seg) : option segment :=
  if bc_sel s r / 8 =? 0 then None else (bc_gdt s !! Z.to_nat (bc_sel s r / 8)) ≫= dec_seg.
Definition flat (type dpl : Z) : segment := mksegment 0 0xffffffff type true dpl.

Lemma translate_off s a : Z.testbit (bc_cr s 0) 31 = false -> translate s a = Some a.
Proof. unfold translate. by intros ->. Qed.

Lemma brun_cons i l Q s : translate s (bc_pc s) = Some (bc_pc s) -> wp (bexec i) (fun _ s' => wp (brun l) Q s') s -> wp (brun (i :: l)) Q s.
Proof. intros HT HW. cbn [brun]. wp_step. apply wp_gets. wp_step. unfold id. by rewrite decide_True by done. Qed.

Lemma a20_loop n : forall s, bc_kbc s = n -> loop (S n) a20_turn tt s = Ok tt (set_kbc 0 (bc_outs s) s).
Proof.
  induction n as [|n IH]; intros s Es; cbn [loop]; unfold bind at 1, a20_turn at 1, bind at 1, gets; rewrite Es.
  - by destruct s; cbn in *; subst.
  - transitivity (loop (S n) a20_turn tt (set_kbc n (bc_outs s) s)); [done|]. rewrite IH by done. by destruct s.
Qed.

Lemma wp_seta20 s Q : Q tt (set_kbc 0 (bc_outs s) s) -> wp seta20 Q s.
Proof. unfold wp, seta20. by rewrite a20_loop. Qed.

Lemma wp_bcall pc s p Q : translate s (u32 (bc_esp s - 4)) = Some p ->
  Q tt (mkbc (bc_cr s) (bc_sel s) (bc_eax s) (u32 (bc_esp s - 4)) pc (bc_if s) (bc_gdt s) (bc_kbc s) (bc_outs s) (store32 (bc_mem s) p back)) -> wp (bcall pc) Q s.
Proof. intros HT HQ. unfold bcall. wp_step. apply wp_modify. wp_step. apply wp_gets. wp_step. unfold wp, bstore. unfold translate in *. cbn [bc_cr bc_mem bc_esp set_esp] in *. by rewrite HT. Qed.

Lemma boot_ax q v : 0 <= v < 65536 -> (65536 * q + v) mod 65536 = v.
Proof. zlia. Qed.

Ltac bunfold := lazy beta iota zeta delta [set_eax set_esp set_bpc set_sel set_cr set_kbc bc_cr bc_sel bc_eax bc_esp bc_pc bc_if bc_gdt bc_kbc bc_outs bc_mem].
Ltac bstep := apply brun_cons; [|first [apply wp_modify|apply wp_seta20]; bunfold].

(** The parts of the state that the selectors loaded give. *)
Definition protected (s : bcpu) : Prop :=
  bc_if s = false /\ bc_gdt s = boot_gdt /\ Z.testbit (bc_cr s 0) 0 = true /\
  segment_of s CS = Some (flat (STA_X + STA_R) 0) /\ segment_of s DS = Some (flat STA_W 0) /\ segment_of s ES = Some (flat STA_W 0) /\
  segment_of s SS = Some (flat STA_W 0) /\ bc_sel s FS = 0 /\ bc_sel s GS = 0.

Lemma protected_segs s : bc_if s = false -> bc_gdt s = boot_gdt -> Z.testbit (bc_cr s 0) 0 = true ->
  bc_sel s CS = 8 -> bc_sel s DS = 16 -> bc_sel s ES = 16 -> bc_sel s SS = 16 -> bc_sel s FS = 0 -> bc_sel s GS = 0 -> protected s.
Proof. intros H1 H2 H3 H4 H5 H6 H7 H8 H9. unfold protected, segment_of. rewrite H2, H4, H5, H6, H7, H8, H9. by split_and!. Qed.

(** The boot sector's code enables the A20 line, enters protected mode with
    flat segments and interrupts off, and calls [bootmain] on a stack below
    itself; [%fs] and [%gs] are left without a segment. *)
Theorem bootasm_enters start start32 bootmain s : Z.testbit (bc_cr s 0) 31 = false ->
  wp (brun (bootasm start start32 bootmain)) (fun _ s' => protected s' /\ bc_pc s' = bootmain /\ bc_esp s' = u32 (start - 4) /\
    Z.testbit (bc_cr s' 0) 31 = false /\ bc_outs s' = bc_outs s ++ [(0x64, 0xd1); (0x60, 0xdf)]) s.
Proof.
  intros HP. unfold bootasm, load_segs. destruct s as [cr sl ax sp pc fl gd kb ou m]. cbn [bc_cr bc_outs app] in *.
  assert (HP' : Z.testbit (Z.lor (cr 0) 1) 31 = false) by (by rewrite Z.lor_spec, HP).
  do 22 (bstep; [by apply translate_off|]). apply brun_cons; [by apply translate_off|]. eapply wp_bcall; [by apply translate_off|]. apply wp_ret. bunfold.
  split_and!; try done; [..|by rewrite <- app_assoc]; (apply protected_segs; [done|done|change (Z.testbit (Z.lor (cr 0) 1) 0 = true); by rewrite Z.lor_spec, orb_true_r|..]; cbn [bc_sel seg_eqb]; by rewrite ?boot_ax by done).
Qed.

(** [entrypgdir] of [main.c] *)
Definition entrypgdir (i : Z) : Z :=
  if i =? 0 then Z.lor (Z.lor PTE_P PTE_W) PTE_PS
  else if i =? Z.shiftr KERNBASE PDXSHIFT then Z.lor (Z.lor PTE_P PTE_W) PTE_PS
  else 0.
Definition has_pgdir (m : memory) (base : Z) : Prop := forall i, 0 <= i < 1024 -> load32 m (base + 4 * i) = entrypgdir i.
Definition paging (s : bcpu) : Prop := Z.testbit (bc_cr s 0) 31 = true /\ Z.testbit (bc_cr s 4) 4 = true /\ has_pgdir (bc_mem s) (bc_cr s 3).

(** The first page directory maps the first 4 MB to themselves and at
    [KERNBASE], and nothing else. *)
Theorem entrypgdir_maps s a : paging s -> word32 a ->
  translate s a = if a <? 4194304 then Some a else if (KERNBASE <=? a) && (a <? KERNBASE + 4194304) then Some (a - KERNBASE) else None.
Proof.
  unfold word32. intros (HP & H4 & HD) Ha. unfold translate. cbv zeta. rewrite HP, H4, !HD by zlia. unfold entrypgdir, KERNBASE. change (Z.shiftr _ PDXSHIFT) with 512. change (Z.lor (Z.lor PTE_P PTE_W) PTE_PS) with 131.
  destruct (a <? 4194304) eqn:E1; [replace (a / 4194304 =? 0) with true by zlia; change (Z.testbit 131 0 && Z.testbit 131 7 && true) with true; change (131 / 4194304 * 4194304) with 0; cbv iota; apply f_equal; zlia|]. replace (a / 4194304 =? 0) with false by zlia.
  destruct ((2147483648 <=? a) && (a <? 2147483648 + 4194304)) eqn:E2; [replace (a / 4194304 =? 512) with true by zlia; change (Z.testbit 131 0 && Z.testbit 131 7 && true) with true; change (131 / 4194304 * 4194304) with 0; cbv iota; apply f_equal; zlia|]. by replace (a / 4194304 =? 512) with false by zlia.
Qed.

Lemma translate_low s a : paging s -> 0 <= a < 4194304 -> translate s a = Some a.
Proof. intros HP Ha. rewrite entrypgdir_maps by (done || (unfold word32; lia)). by replace (a <? 4194304) with true by lia. Qed.
Lemma translate_high s a : paging s -> KERNBASE <= a < KERNBASE + 4194304 -> translate s a = Some (a - KERNBASE).
Proof.
  intros HP Ha. unfold KERNBASE in *. rewrite entrypgdir_maps by (done || (unfold word32; lia)). unfold KERNBASE. replace (a <? 4194304) with false by lia. by replace (_ && _) with true by lia.
Qed.

Lemma wp_bload a s p Q : translate s a = Some p -> Q (load32 (bc_mem s) p) s -> wp (bload a) Q s.
Proof. unfold wp, bload. by intros ->. Qed.

Lemma lor_bit x v k : Z.testbit v k = true -> Z.testbit (Z.lor x v) k = true.
Proof. intros Hv. by rewrite Z.lor_spec, Hv, orb_true_r. Qed.

(** The kernel's first instructions turn paging on under themselves and jump
    to [main] at its address above [KERNBASE], on the stack [stack]. *)
Theorem entry_enters pgdir stack main s :
  Z.testbit (bc_cr s 0) 31 = false -> 0 <= bc_pc s < 4194304 -> has_pgdir (bc_mem s) (V2P pgdir) -> KERNBASE <= main < KERNBASE + 4194304 ->
  wp (brun (entry pgdir stack main)) (fun _ s' => bc_pc s' = main /\ translate s' main = Some (main - KERNBASE) /\ bc_esp s' = stack + KSTACKSIZE /\ paging s' /\ Z.testbit (bc_cr s' 0) 16 = true /\ bc_mem s' = bc_mem s) s.
Proof.
  intros HP Hpc HD Hm. unfold entry. destruct s as [cr sl ax sp pc fl gd kb ou m]. cbn [bc_cr bc_pc bc_mem app] in *.
  do 8 (bstep; [by apply translate_off|]).
  set (s1 := mkbc _ _ _ _ _ _ _ _ _ _). assert (Hs : paging s1) by (split_and!; [by apply lor_bit|by apply lor_bit|done]). change pc with (bc_pc s1) in Hpc.
  bstep; [by apply translate_low|]. bstep; [by apply (translate_low s1)|]. bstep; [by apply (translate_low s1)|]. apply wp_ret. bunfold.
  split_and!; try done; [by apply (translate_high s1)|by apply lor_bit].
Qed.
(** Another processor, started in real mode at [start], ends up in protected
    mode with flat segments and paging on, in the routine that the word at
    [start - 8] names and on the stack that the word at [start - 4] names. *)
Lemma entryother_spec start start32 pgdir stack enter s :
  Z.testbit (bc_cr s 0) 31 = false -> 0 <= bc_pc s < 4194304 -> 0 <= start32 < 4194304 -> 12 <= start < 4194304 ->
  load32 (bc_mem s) (start - 12) = pgdir -> load32 (bc_mem s) (start - 8) = enter -> load32 (bc_mem s) (start - 4) = stack ->
  has_pgdir (bc_mem s) pgdir -> KERNBASE + 4 <= stack <= KERNBASE + 4194304 ->
  wp (brun (entryother start start32)) (fun _ s' => protected s' /\ bc_pc s' = enter /\ bc_esp s' = stack - 4 /\ bc_cr s' 3 = pgdir /\
    Z.testbit (bc_cr s' 0) 31 = true /\ Z.testbit (bc_cr s' 0) 16 = true /\ bc_mem s' = store32 (bc_mem s) (stack - 4 - KERNBASE) back) s.
Proof.
  intros HP Hpc H32 Hst M12 M8 M4 HD Hstk. unfold entryother, load_segs. destruct s as [cr sl ax sp pc fl gd kb ou m]. cbn [bc_cr bc_pc bc_mem app] in *.
  assert (HP' : Z.testbit (Z.lor (cr 0) 1) 31 = false) by (by rewrite Z.lor_spec, HP).
  do 20 (bstep; [by apply translate_off|]). apply brun_cons; [by apply translate_off|]. cbn [bexec]. wp_step. eapply wp_bload; [by apply translate_off|]. apply wp_modify. bunfold. rewrite M12.
  do 4 (bstep; [by apply translate_off|]).
  set (s1 := mkbc _ _ _ _ _ _ _ _ _ _). assert (Hs : paging s1) by (split_and!; [by apply lor_bit|by apply lor_bit|done]).
  apply brun_cons; [by apply translate_low|]. cbn [bexec]. wp_step. eapply wp_bload; [apply translate_low; [done|lia]|]. apply wp_modify. bunfold. cbn [bc_mem s1]. rewrite M4.
  apply brun_cons; [by apply (translate_low s1)|]. cbn [bexec]. wp_step. eapply wp_bload; [apply (translate_low s1); [done|lia]|]. bunfold. rewrite M8.
  assert (EU : u32 (stack - 4) = stack - 4) by (unfold KERNBASE in *; apply u32_id; lia).
  eapply wp_bcall; [cbn [bc_esp]; rewrite EU; apply (translate_high s1); [done|lia]|]. apply wp_ret. bunfold. rewrite EU. split_and!; try done; [|by apply lor_bit|by apply lor_bit].
  apply protected_segs; [done|done|by apply lor_bit|..]; cbn [bc_sel seg_eqb]; by rewrite ?boot_ax by done.
Qed.
End Boot.

(** ** [seginit] *)

Definition SEG_UCODE : Z := 3.
Definition SEG_UDATA : Z := 4.
Definition NSEGS : nat := 6.

(** The table of the processor, as [seginit] fills it in, and [lgdt]. *)
Definition seginit_gdt (g : list segdesc) : list segdesc :=
  <[Z.to_nat SEG_UDATA := SEG STA_W 0 0xffffffff DPL_USER]> (<[Z.to_nat SEG_UCODE := SEG (Z.lor STA_X STA_R) 0 0xffffffff DPL_USER]>
  (<[Z.to_nat SEG_KDATA := SEG STA_W 0 0xffffffff 0]> (<[Z.to_nat SEG_KCODE := SEG (Z.lor STA_X STA_R) 0 0xffffffff 0]> g))).
Definition lgdt (g : list segdesc) (s : bcpu) : bcpu :=
  mkbc (bc_cr s) (bc_sel s) (bc_eax s) (bc_esp s) (bc_pc s) (bc_if s) (enc_seg <$> g) (bc_kbc s) (bc_outs s) (bc_mem s).

(** A store through [%gs]: without a segment it is a general protection
    fault. *)
Definition gs_store (off v : Z) : MB unit := fun s =>
  match segment_of s GS with
  | None => Fault "general protection"
  | Some d => bstore (u32 (sg_base d + off)) v s
  end.

Definition seginit (g : list segdesc) (c : Z) : MB (list segdesc) :=
  let g := seginit_gdt g in
  modify (lgdt g) ;;;
  gs_store 0 c ;;;
  gs_store 4 0 ;;;
  ret g.

(** The table that [seginit] loads has flat segments for the kernel and for
    user programs; but on a processor that comes from [bootasm.S] or
    [entryother.S] the stores that follow, to [cpu] and [proc], fault: nothing
    has loaded [%gs]. *)
Theorem seginit_flat g c s : length g = NSEGS -> protected s ->
  (forall r sel type dpl, bc_sel s r = 8 * sel + dpl -> (sel, type, dpl) ∈ [(SEG_KCODE, STA_X + STA_R, 0); (SEG_KDATA, STA_W, 0); (SEG_UCODE, STA_X + STA_R, DPL_USER); (SEG_UDATA, STA_W, DPL_USER)] ->
    segment_of (lgdt (seginit_gdt g) s) r = Some (flat type dpl)) /\
  seginit g c s = Fault "general protection".
Proof.
  intros Hg HP. destruct g as [|g0 [|g1 [|g2 [|g3 [|g4 [|g5 [|]]]]]]]; try done. split.
  - intros r sel type dpl Hs Hin. unfold segment_of. cbn [lgdt bc_sel bc_gdt]. rewrite Hs. repeat (apply elem_of_cons in Hin as [Hin|Hin]; [injection Hin as -> -> ->; done|]). by apply elem_of_nil in Hin.
  - unfold seginit, bind, modify, gs_store, segment_of. destruct HP as (_ & _ & _ & _ & _ & _ & _ & _ & HG). cbn [lgdt bc_sel].
    by rewrite HG.
Qed.

(** ** [mycpu], [myproc] and [sched] *)

Section Sched.
(** [cpus[i].apicid] and [cpus[i].proc]; the identifier that the interrupt
    controller of each processor has. *)
Variable ids : list Z.
Variable running : list (option nat).
Variable lapicid : nat -> Z.

Fixpoint find_cpu (i : nat) (l : list Z) (apicid : Z) : option nat :=
  match l with [] => None | x :: l => if x =? apicid then Some i else find_cpu (S i) l apicid end.

Definition readeflags_IF (me : nat) : M smp bool := fun s => match cpus s !! me with Some c => Ok (eflags_IF c) s | None => Fault "no such cpu" end.

Definition mycpu (me : nat) : M smp nat :=
  let! f := readeflags_IF me in
  if f then panic "mycpu called with interrupts enabled"
  else match find_cpu 0 ids (lapicid me) with Some i => ret i | None => panic "unknown apicid" end.
Definition cpuid (me : nat) : M smp Z := let! i := mycpu me in ret (Z.of_nat i).

Definition myproc (me : nat) : M smp (option nat) :=
  pushcli_on me ;;;
  let! c := mycpu me in
  let p := default None (running !! c) in
  popcli_on me ;;;
  ret p.

Definition get_cpu (i : nat) : M smp cpu := fun s => match cpus s !! i with Some c => Ok c s | None => Fault "no such cpu" end.

(** [sched] up to [swtch], for a process in state [st]; the result is the
    local variable [intena].  What follows [swtch] when the process is
    scheduled again, by the processor [me] of that time. *)
Definition sched (me : nat) (st : procstate) : M smp bool :=
  myproc me ;;;
  let! h := holding me in
  if negb h then panic "sched ptable.lock"
  else
    let! i := mycpu me in
    let! c := get_cpu i in
    if negb (ncli c =? 1) then panic "sched locks"
    else if bool_decide (st = RUNNING) then panic "sched running"
    else
      let! f := readeflags_IF me in
      if f then panic "sched interruptible"
      else
        let! i := mycpu me in
        let! c := get_cpu i in
        ret (intena c).
Definition sched_resume (me : nat) (ie : bool) : M smp unit :=
  let! i := mycpu me in
  let! c := get_cpu i in
  modify (set_cpu i (mkcpu (eflags_IF c) (ncli c) ie)).

(** Every processor is in the table, once. *)
Definition table_ok : Prop := NoDup ids /\ forall me, (me < length ids)%nat -> ids !! me = Some (lapicid me).

Lemma find_cpu_at (l : list Z) : forall i n x, NoDup l -> l !! n = Some x -> find_cpu i l x = Some (i + n)%nat.
Proof.
  induction l as [|y l IH]; intros i [|n] x HN Hx; try done; apply NoDup_cons in HN as [Hy HN]; cbn in *.
  - injection Hx as ->. rewrite Z.eqb_refl. f_equal. lia.
  - destruct (Z.eqb_spec y x) as [->|]; [by apply list_elem_of_lookup_2 in Hx|]. rewrite (IH _ n) by done. f_equal. lia.
Qed.

(** [mycpu] gives the entry of the processor it runs on, and insists on
    interrupts being off. *)
Theorem mycpu_finds me s c : table_ok -> (me < length ids)%nat -> cpus s !! me = Some c ->
  mycpu me s = if eflags_IF c then Panic "mycpu called with interrupts enabled" else Ok me s.
Proof.
  intros [HN HT] Hm Hc. unfold mycpu, readeflags_IF, bind. rewrite Hc. destruct (eflags_IF c); [done|]. by rewrite (find_cpu_at ids 0 me) by eauto.
Qed.

Lemma myproc_at me s c : table_ok -> (me < length ids)%nat -> cpus s !! me = Some c -> 1 <= ncli c <= 1001 -> eflags_IF c = false ->
  myproc me s = Ok (default None (running !! me)) s.
Proof.
  intros HT Hm Hc Hn HI. pose proof (lookup_lt_Some _ _ _ Hc) as Hi. unfold myproc, pushcli_on, popcli_on, on_cpu, bind, modify. rewrite Hc.
  rewrite (mycpu_finds me _ (pushcli c)) by (done || by apply list_lookup_insert_eq). cbn [pushcli eflags_IF set_cpu cpus]. rewrite list_lookup_insert_eq by done.
  unfold popcli, pushcli. cbn [eflags_IF ncli intena]. replace (i32 (i32 (ncli c + 1) - 1)) with (ncli c) by zlia.
  destruct (Z.ltb_spec (ncli c) 0); [lia|]. destruct (Z.eqb_spec (ncli c) 0); [lia|]. cbn. f_equal. destruct s as [cs l]. unfold set_cpu. cbn. f_equal.
  rewrite list_insert_insert_eq. apply list_insert_id. cbn in Hc. rewrite Hc. f_equal. destruct c; cbn in *. by subst.
Qed.

(** [sched] with interrupts off below [ncli] locks: it checks that the lock of
    the process table is held, and is the only one, and that the process has
    left the state [RUNNING]; then it goes to the scheduler with the interrupt
    flag in hand. *)
Lemma sched_checks me st s c : table_ok -> (me < length ids)%nat -> cpus s !! me = Some c -> 1 <= ncli c <= 1001 -> eflags_IF c = false ->
  sched me st s =
    if negb (negb (locked (lk s) =? 0) && bool_decide (lcpu (lk s) = Some me)) then Panic "sched ptable.lock"
    else if negb (ncli c =? 1) then Panic "sched locks"
    else if bool_decide (st = RUNNING) then Panic "sched running"
    else Ok (intena c) s.
Proof.
  intros HT Hm Hc Hn HI. unfold sched, bind. rewrite (myproc_at me s c), (holding_ok me s c) by done. destruct (negb (_ && _)); [done|].
  rewrite (mycpu_finds me s c), HI by done. unfold get_cpu, readeflags_IF. rewrite Hc. destruct (negb (ncli c =? 1)); [done|]. destruct (bool_decide _); [done|].
  rewrite Hc, HI. rewrite (mycpu_finds me s c), HI by done. by rewrite Hc.
Qed.

(** The lock of the process table is held by [me], which has taken no other
    one since interrupts were as [f] says. *)
Definition holds_table (f : bool) (me : nat) (s : smp) : Prop :=
  (me < length ids)%nat /\ locked (lk s) = 1 /\ lcpu (lk s) = Some me /\ exists c, cpus s !! me = Some c /\ at_depth f 1 c.

(** C38. Whether interrupts are enabled goes with the process: it enters [sched] on
    one processor, comes back on another, whose interrupt flag was whatever its
    scheduler found, releases the lock, and has its own flag back. *)
Theorem sched_keeps_flag (a b : nat) (f f' : bool) (st : procstate) (s s' : smp) :
  table_ok -> st <> RUNNING -> holds_table f a s -> holds_table f' b s' ->
  wp (sched a st) (fun ie s1 => s1 = s /\
    wp (sched_resume b ie ;;; release b) (fun _ s2 => locked (lk s2) = 0 /\ lcpu (lk s2) = None /\ exists c, cpus s2 !! b = Some c /\ at_depth f 0 c) s') s.
Proof.
  intros HT Hst (Ha & L1 & L2 & c & Hc & D1 & _ & _ & D2) (Hb & L1' & L2' & c' & Hc' & D1' & _ & _ & D2').
  destruct (D2 ltac:(lia)) as [HI HE]. destruct (D2' ltac:(lia)) as [HI' HE']. pose proof (lookup_lt_Some _ _ _ Hc') as Hlt.
  unfold wp at 1. rewrite (sched_checks a st s c) by (done || lia). rewrite L1, L2, D1, !bool_decide_true by done. rewrite bool_decide_false by done. cbn. split; [done|].
  wp_step. unfold sched_resume. wp_step. unfold wp at 1. rewrite (mycpu_finds b s' c'), HI' by done. wp_step. unfold wp at 1, get_cpu. rewrite Hc'. apply wp_modify. rewrite D1'.
  assert (Hs : cpus (set_cpu b (mkcpu (eflags_IF c') 1 (intena c)) s') !! b = Some (mkcpu (eflags_IF c') 1 (intena c))) by (by apply list_lookup_insert_eq).
  unfold release. wp_step. eapply wp_from_Ok; [by apply (release_clear_ok b _ _ Hs); cbn [ncli eflags_IF]; [lia|..]|].
  eapply wp_from_Ok; [by apply (release_store_ok b _ (mkcpu (eflags_IF c') 1 (intena c))); cbn [ncli eflags_IF]; [|lia|]|].
  cbn [lk set_cpu set_lk locked lcpu cpus]. split_and!; [done|done|]. rewrite HE. eexists. split; [apply list_lookup_insert_eq; by rewrite length_insert|]. by split_and!.
Qed.
End Sched.

(** ** [startothers] *)

Definition AP_CODE : Z := 0x7000.

(** The memory, the interrupt controller of this processor and
    [cpus[i].started]. *)
Record otherst := mkot { ot_vm : vmst; ot_apic : apic; ot_started : nat -> Z }.
Notation MO := (M otherst).
Definition on_vm {A} (c : M vmst A) : MO A := zoom ot_vm (fun v s => mkot v (ot_apic s) (ot_started s)) c.
Definition on_apic {A} (c : M apic A) : MO A := zoom ot_apic (fun v s => mkot (ot_vm s) v (ot_started s)) c.

(** What a processor does once [entryother.S] has called [mpenter]:
    [switchkvm] and [seginit], with [k] the physical address of the kernel's
    page directory, [g] its descriptor table and [c] its entry in [cpus].
    [lapicinit] and [mpmain], which sets [started], come after them. *)
Definition mpenter_begins (k : Z) (g : list segdesc) (c : Z) : MB (list segdesc) :=
  modify (set_cr 3 k) ;;;
  seginit g c.

(** A processor that has been sent the interrupt to start: the state it comes
    out of reset in, with the memory given; and the rest of what its run
    depends on (the delays of the keyboard controller, addresses in the code,
    the page directory of the kernel, its descriptors and its entry). *)
Record apcpu := mkapcpu {
  ac_reset : memory -> bcpu;
  ac_kbc : nat;
  ac_back : Z;
  ac_start32 : Z;
  ac_kpgdir : Z;
  ac_gdt : list segdesc;
  ac_cpu : Z;
}.

Definition ap_enters (a : apcpu) : MB unit :=
  brun (ac_kbc a) (ac_back a) (entryother AP_CODE (ac_start32 a)).
Definition ap_begins (a : apcpu) : MB (list segdesc) :=
  ap_enters a ;;;
  mpenter_begins (ac_kpgdir a) (ac_gdt a) (ac_cpu a).

(** Real mode, at the address the interrupt gives. *)
Definition apcpu_ok (a : apcpu) : Prop :=
  (forall m, bc_mem (ac_reset a m) = m /\ bc_pc (ac_reset a m) = AP_CODE /\ Z.testbit (bc_cr (ac_reset a m) 0) 31 = false) /\
  0 <= ac_start32 a < 4194304 /\ length (ac_gdt a) = NSEGS.

Section Others.
Context `{KernelImageOk}.
(** Where the image of [entryother.S] lies in the kernel and its size, and the
    addresses of [mpenter] and [entrypgdir]; and the processors. *)
Variable image size mpenter pgdir : Z.
Variable ap : nat -> apcpu.

(** The loop that waits for [started]: a processor that has been sent the
    interrupt to start at [AP_CODE] sets it if it gets past [seginit];
    otherwise the loop goes round for ever. *)
Definition await_started (c : nat) (id : Z) : MO unit := fun s =>
  if negb (ot_started s c =? 0) then Ok tt s
  else if decide (last (ap_sent (ot_apic s)) = Some (id, Z.lor STARTUP (Z.shiftr AP_CODE 12)))
  then match ap_begins (ap c) (ac_reset (ap c) (mem (ot_vm s))) with
       | Ok _ _ => Ok tt (mkot (ot_vm s) (ot_apic s) (fun i => if decide (i = c) then 1 else ot_started s i))
       | _ => Block 0
       end
  else Block 0.

(** The body of the loop up to the wait. *)
Definition send_startup (id : Z) : MO unit :=
  let! stack := on_vm kalloc in
  on_vm (kstore (P2V AP_CODE - 4) (u32 (stack + KSTACKSIZE))) ;;;
  on_vm (kstore (P2V AP_CODE - 8) mpenter) ;;;
  on_vm (kstore (P2V AP_CODE - 12) (V2P pgdir)) ;;;
  on_apic (lapicstartap id (V2P (P2V AP_CODE))).

Definition startother (c : nat) (id : Z) : MO unit :=
  send_startup id ;;;
  await_started c id.

Fixpoint start_all (l : list Z) (i me : nat) : MO unit :=
  match l with
  | [] => ret tt
  | id :: l => (if (i =? me)%nat then ret tt else startother i id) ;;; start_all l (S i) me
  end.

Definition copy_entryother : MO unit := on_vm (kmemmove (P2V AP_CODE) image size).

Definition startothers (ids : list Z) (me : nat) : MO unit :=
  copy_entryother ;;;
  start_all ids 0 me.

(** What a processor finds: its stack at the page [f], where to go, and, from
    [AP_CODE] on, the memory [m0]. *)
Definition finds (m0 : memory) (f : Z) (m : memory) : Prop :=
  load32 m (AP_CODE - 4) = P2V f + KSTACKSIZE /\ load32 m (AP_CODE - 8) = mpenter /\ load32 m (AP_CODE - 12) = V2P pgdir /\
  forall x, AP_CODE <= x -> m x = m0 x.

Definition ot_ok (m0 : memory) (fl : list Z) (s : otherst) : Prop :=
  kmem_lock (ot_vm s) = false /\ freelist_rep (mem (ot_vm s)) (freelist (ot_vm s)) fl /\ is_Some (ap_regs (ot_apic s)) /\
  forall x, AP_CODE <= x -> mem (ot_vm s) x = m0 x.

Lemma kstore_low k x v : 4 <= k <= AP_CODE -> kstore (P2V AP_CODE - k) x v = Ok tt (set_mem (store32 (mem v) (AP_CODE - k) x) v).
Proof.
  intros Ho. unfold kstore. change (P2V AP_CODE) with (2147483648 + 0x7000). unfold AP_CODE in *. replace (kvalid _ 4) with true by (unfold kvalid, KERNBASE, PHYSTOP; lia).
  do 3 f_equal. unfold V2P, KERNBASE. zlia.
Qed.

Lemma words_found m0 m f : page_ok f -> 0 <= mpenter < 4294967296 -> 0 <= V2P pgdir < 4294967296 -> (forall x, AP_CODE <= x -> m x = m0 x) ->
  finds m0 f (store32 (store32 (store32 m (AP_CODE - 4) (u32 (P2V f + KSTACKSIZE))) (AP_CODE - 8) mpenter) (AP_CODE - 12) (V2P pgdir)).
Proof.
  intros Hf He Hp Hm. pose proof (page_ok_bounds f Hf) as [Hf1 Hf2].
  assert (EU : u32 (P2V f + KSTACKSIZE) = P2V f + KSTACKSIZE) by (rewrite P2V_page by done; unfold KERNBASE, KSTACKSIZE, PGSIZE, PHYSTOP, EXTMEM in *; apply u32_id; lia).
  split_and!.
  - rewrite !load32_store32_ne by lia. rewrite load32_store32_eq; [done|]. rewrite EU, P2V_page by done. unfold KERNBASE, KSTACKSIZE, PGSIZE, PHYSTOP, EXTMEM in *. lia.
  - rewrite load32_store32_ne by lia. by apply load32_store32_eq.
  - by apply load32_store32_eq.
  - intros x Hx. rewrite !store32_other by lia. by apply Hm.
Qed.

Lemma copied_ok m0 fl vm apc st : 0 <= size -> 0x7000 + size <= EXTMEM -> mem_wf (mem vm) -> m0 = memmove (mem vm) AP_CODE (V2P image) size ->
  kmem_lock vm = false -> freelist_rep (mem vm) (freelist vm) fl -> is_Some (ap_regs apc) -> ot_ok m0 fl (mkot (set_mem m0 vm) apc st).
Proof.
  intros Hsz Hlow HW Em HL HF HR. split_and!; [done| |done|done]. eapply freelist_rep_same; [|exact HF]. cbn. intros f Hf x Hx. rewrite Em, memmove_spec by done.
  pose proof (freelist_rep_pages _ _ _ HF) as HP. rewrite Forall_forall in HP. destruct (page_ok_bounds f (HP f Hf)) as [Hf1 _]. unfold EXTMEM, AP_CODE in *. by replace (_ && _) with false by lia.
Qed.

(** The interrupts sent to start a processor. *)
Definition startup_ipis (id : Z) : list (Z * Z) :=
  (fun v => (id, v)) <$> [Z.lor (Z.lor INIT LEVEL) ASSERT; Z.lor INIT LEVEL; Z.lor STARTUP (Z.shiftr AP_CODE 12); Z.lor STARTUP (Z.shiftr AP_CODE 12)].

Lemma send_startup_spec m0 id f fl s : ot_ok m0 (f :: fl) s -> 0 <= id < 256 -> 0 <= mpenter < 4294967296 -> 0 <= V2P pgdir < 4294967296 ->
  wp (send_startup id) (fun _ s' => finds m0 f (mem (ot_vm s')) /\ ot_started s' = ot_started s /\
    ap_sent (ot_apic s') = ap_sent (ot_apic s) ++ startup_ipis id) s.
Proof.
  intros (HL & HF & [r Hr] & Hm) Hid He Hp. destruct s as [vm apc st]. cbn [ot_vm ot_apic ot_started] in *.
  unfold send_startup. wp_step. apply wp_zoom. destruct (kalloc_pop vm (f :: fl) HL HF) as (h' & EK & HF'). eapply wp_from_Ok; [exact EK|].
  assert (Hf : page_ok f) by (by destruct HF as (_ & Hf & _)). pose proof (page_ok_bounds f Hf) as [Hf1 Hf2].
  do 3 (wp_step; apply wp_zoom; eapply wp_from_Ok; [apply kstore_low; unfold AP_CODE; lia|]). cbn [ot_vm ot_apic ot_started].
  apply wp_zoom. destruct apc as [rs n l d w]. cbn [ap_regs ot_apic] in *. subst rs. eapply wp_mono; [by apply lapicstartap_sends|]. intros [] a' (HR & _ & HS).
  split_and!; [by apply words_found|done|done].
Qed.

(** The processors of the table [l], the first of which is number [i], other
    than [me]. *)
Fixpoint others (l : list Z) (i me : nat) : list (nat * Z) :=
  match l with [] => [] | id :: l => if (i =? me)%nat then others l (S i) me else (i, id) :: others l (S i) me end.

Lemma start_all_skips l : forall i me s,
  match others l i me with
  | [] => start_all l i me s = Ok tt s
  | (c, id) :: _ => startother c id s = Block 0 -> start_all l i me s = Block 0
  end.
Proof.
  induction l as [|x l IH]; intros i me s; cbn [others start_all]; [done|]. destruct (i =? me)%nat; [apply IH|].
  unfold bind at 1. by intros ->.
Qed.

(** [seginit] faults whatever page directory [switchkvm] has loaded. *)
Lemma mpenter_faults k g c s : length g = NSEGS -> protected s -> mpenter_begins k g c s = Fault "general protection".
Proof. intros Hg HP. unfold mpenter_begins, bind, modify. by apply (seginit_flat g c (set_cr 3 k s)). Qed.

Lemma finds_runs m0 f m a : page_ok f -> f + PGSIZE <= 4194304 -> EXTMEM <= V2P pgdir < 4194304 -> has_pgdir m0 (V2P pgdir) -> finds m0 f m -> apcpu_ok a ->
  wp (ap_enters a) (fun _ c' => protected c' /\ bc_pc c' = mpenter /\ bc_esp c' = P2V f + KSTACKSIZE - 4 /\ Z.testbit (bc_cr c' 0) 31 = true /\ bc_cr c' 3 = V2P pgdir) (ac_reset a m).
Proof.
  intros Hf H4 Hp HD (M4 & M8 & M12 & Hm) (HR & H32 & _). destruct (HR m) as (Hc & Hpc & Hcr). pose proof (page_ok_bounds f Hf) as [Hf1 _]. pose proof (P2V_page f Hf) as EP. unfold EXTMEM, PGSIZE, KSTACKSIZE in *.
  unfold ap_enters. eapply (wp_mono (brun _ _ _)); [apply (entryother_spec _ _ AP_CODE (ac_start32 a) (V2P pgdir) (P2V f + 4096) mpenter)|]; rewrite ?Hc, ?Hpc; unfold AP_CODE in *; try done; try lia.
  - intros i Hi. rewrite <- HD by done. apply load32_same. intros x Hx. apply Hm. lia.
  - intros [] c' (Q1 & Q2 & Q3 & Q5 & Q6 & _). by split_and!.
Qed.

Lemma ap_begins_faults a m Q : apcpu_ok a -> wp (ap_enters a) Q (ac_reset a m) -> (forall c', Q tt c' -> protected c') ->
  ap_begins a (ac_reset a m) = Fault "general protection".
Proof.
  intros (_ & _ & HG) HW HQ. unfold ap_begins, bind. unfold wp in HW. destruct (ap_enters a _) as [[] c'| | | |]; try done.
  apply mpenter_faults; auto.
Qed.

(** C37. The start of the other processors, as far as it gets.  When there is a
    free page below 4 MB and another processor in the table, [startothers] puts
    the code of [entryother.S] at 0x7000 with the top of a free page as the
    stack, the address of [mpenter] and the boot page directory in front of it,
    and interrupts that processor, and no other, with two resets and two starts
    at that page.  The processor, coming out of reset there, runs
    [entryother.S] into [mpenter], in protected mode with paging on and on that
    stack; but [seginit], the second routine that [mpenter] calls, faults, so
    that [started] stays 0 and [startothers] waits for it for ever.  With no
    other processor in the table it only copies the code. *)
Theorem others_start ids me f fl s m0 :
  0 <= mpenter < 4294967296 -> EXTMEM <= V2P pgdir < 4194304 -> has_pgdir m0 (V2P pgdir) ->
  0 <= size -> kvalid image size = true -> 0x7000 + size <= EXTMEM -> mem_wf (mem (ot_vm s)) ->
  m0 = memmove (mem (ot_vm s)) AP_CODE (V2P image) size ->
  kmem_lock (ot_vm s) = false -> freelist_rep (mem (ot_vm s)) (freelist (ot_vm s)) (f :: fl) -> f + PGSIZE <= 4194304 ->
  is_Some (ap_regs (ot_apic s)) -> Forall (fun id => 0 <= id < 256) ids -> (forall j, ot_started s j = 0) -> (forall j, apcpu_ok (ap j)) ->
  match others ids 0 me with
  | [] => startothers ids me s = Ok tt (mkot (set_mem m0 (ot_vm s)) (ot_apic s) (ot_started s))
  | (c, id) :: _ =>
      wp (copy_entryother ;;; send_startup id) (fun _ s' =>
        ap_sent (ot_apic s') = ap_sent (ot_apic s) ++ startup_ipis id /\ (forall x, EXTMEM <= x -> mem (ot_vm s') x = mem (ot_vm s) x) /\
        wp (ap_enters (ap c)) (fun _ c' => protected c' /\ bc_pc c' = mpenter /\ bc_esp c' = P2V f + KSTACKSIZE - 4 /\
            Z.testbit (bc_cr c' 0) 31 = true /\ bc_cr c' 3 = V2P pgdir /\
            mpenter_begins (ac_kpgdir (ap c)) (ac_gdt (ap c)) (ac_cpu (ap c)) c' = Fault "general protection") (ac_reset (ap c) (mem (ot_vm s')))) s /\
      startothers ids me s = Block 0
  end.
Proof.
  intros He Hp HD Hsz HV Hlow HW Em HL HF H4 HR HA HZ HP. destruct s as [vm apc st]. cbn [ot_vm ot_apic ot_started] in *.
  assert (EM : copy_entryother (mkot vm apc st) = Ok tt (mkot (set_mem m0 vm) apc st)).
  { unfold copy_entryother, on_vm, zoom, kmemmove. rewrite HV. replace (kvalid (P2V AP_CODE) size) with true by (change (P2V AP_CODE) with 2147512320; unfold kvalid, EXTMEM, KERNBASE, PHYSTOP in *; lia). by rewrite Em. }
  assert (HO : ot_ok m0 (f :: fl) (mkot (set_mem m0 vm) apc st)) by (by eapply copied_ok).
  assert (Hid : Forall (fun o => 0 <= o.2 < 256) (others ids 0 me)).
  { clear -HA. revert HA. generalize 0%nat. induction ids as [|x ids IH]; intros i HA; cbn [others]; [constructor|]. apply Forall_cons in HA as [Hx HA].
    destruct (i =? me)%nat; [by apply IH|]. apply Forall_cons. split; [done|by apply IH]. }
  pose proof (start_all_skips ids 0 me (mkot (set_mem m0 vm) apc st)) as HS.
  assert (ES : startothers ids me (mkot vm apc st) = start_all ids 0 me (mkot (set_mem m0 vm) apc st)) by (unfold startothers, bind; by rewrite EM).
  destruct (others ids 0 me) as [|[c id] os]; [by rewrite ES|]. apply Forall_cons in Hid as [Hid _].
  assert (Hf : page_ok f) by (by destruct HF as (_ & Hf & _)).
  pose proof (send_startup_spec m0 id f fl _ HO Hid He ltac:(unfold EXTMEM in *; lia)) as HSS.
  rewrite ES. unfold wp, bind. rewrite EM. unfold startother, bind in HS. unfold wp in HSS.
  destruct (send_startup id _) as [[] s'| | | |]; try done. destruct HSS as (Hfinds & Est & Esent). cbn [ot_apic ot_started] in *.
  pose proof (finds_runs m0 f (mem (ot_vm s')) (ap c) Hf H4 Hp HD Hfinds (HP c)) as HRun. split.
  - split_and!; [done| |].
    + intros x Hx. destruct Hfinds as (_ & _ & _ & Hm). rewrite Hm by (unfold AP_CODE, EXTMEM in *; lia). rewrite Em, memmove_spec by done.
      by replace (_ && _) with false by (unfold AP_CODE, EXTMEM in *; lia).
    + eapply wp_mono; [exact HRun|]. intros [] c' (Q1 & Q2 & Q3 & Q4 & Q5). split_and!; try done. apply mpenter_faults; [apply (HP c)|done].
  - apply HS. unfold await_started. rewrite Est, HZ, Esent. cbn [Z.eqb negb]. rewrite decide_True by (by rewrite last_app).
    rewrite (ap_begins_faults (ap c) (mem (ot_vm s')) _ (HP c) HRun); [done|]. by intros c' [Q1 _].
Qed.
End Others.

(** ** [main]: the devices *)

(** The console's state and the serial port's, with the interrupt controller. *)
Record mainst := mkmain { mn_cons : consst; mn_uart : uartst }.
Definition on_io {A} (c : M ioapic A) : M mainst A :=
  zoom (fun s => u_io (mn_uart s)) (fun io s =>
    mkmain (mn_cons s) (let u := mn_uart s in mkuart (u_there u) (u_uart u) (u_div u) (u_lcr u) (u_ier u) (u_full u) (u_out u) (u_in u) io)) c.

(** The entries of [devsw] are not part of this state. *)
Definition consoleinit : M mainst unit :=
  modify (fun s => mkmain (set_cons_flags 1 (panicked (mn_cons s)) (set_cons_lock false (mn_cons s))) (mn_uart s)) ;;;
  on_io (ioapicenable IRQ_KBD 0).

(** The interrupt controller, the console, the serial port, and the call that
    [ideinit] makes, in the order of [main]. *)
Definition main_devices (delay : nat) (ncpu : Z) : M mainst unit :=
  on_io ioapicinit ;;;
  consoleinit ;;;
  zoom mn_uart (fun u s => mkmain (mn_cons s) u) (uartinit delay) ;;;
  on_io (ioapicenable IRQ_IDE (ncpu - 1)).

(** After the devices are set up, the keyboard and the serial port, if there is
    one, interrupt the first processor, the disk the last one, each at its
    vector, and nothing else interrupts any. *)
Theorem main_routes delay ncpu s :
  let n := Z.land (Z.shiftr (io_data (u_io (mn_uart s)) REG_VER) 16) 255 in
  IRQ_IDE <= n < 224 -> 1 <= ncpu <= 8 -> (delay <= 128)%nat -> u_uart (mn_uart s) = 0 -> (u_full (mn_uart s) <= 128)%nat -> 0 <= u_div (mn_uart s) < 65536 ->
  wp (main_devices delay ncpu) (fun _ s' => forall j, 0 <= j <= n -> routed (u_io (mn_uart s')) j =
    if j =? IRQ_KBD then Some (33, 0) else if (j =? IRQ_COM1) && u_there (mn_uart s) then Some (36, 0) else if j =? IRQ_IDE then Some (46, ncpu - 1) else None) s.
Proof.
  intros n Hn Hc Hd Hu Hb Hv. unfold main_devices. destruct s as [cs u]. cbn [mn_uart] in *. wp_step. apply wp_zoom. cbn [mn_uart]. eapply wp_mono; [apply ioapicinit_spec; fold n; lia|].
  intros [] io1 I1. unfold consoleinit. cbn [mn_uart u_io] in *. fold n in I1. wp_step. wp_step. apply wp_modify, wp_zoom. cbn [mn_uart mn_cons u_io].
  eapply wp_mono; [by apply ioapicenable_spec|]. intros [] io2 (K1 & K2). wp_step. apply wp_zoom. cbn [mn_uart].
  eapply wp_mono; [apply uartinit_announces; done|]. intros [] u3 H3. cbn [u_there u_io] in H3. apply wp_zoom. cbn [mn_uart]. eapply wp_mono; [apply ioapicenable_spec; [done|lia]|]. intros [] io4 (D1 & D2). cbn [mn_uart u_io].
  assert (HU : forall j, 0 <= j <= n -> routed (u_io u3) j = if j =? IRQ_KBD then Some (33, 0) else if (j =? IRQ_COM1) && u_there u then Some (36, 0) else None).
  { intros j Hj. unfold IRQ_KBD, IRQ_COM1 in *. destruct (u_there u) eqn:ET.
    - destruct H3 as (_ & _ & _ & _ & _ & _ & _ & R1 & R2). rewrite andb_true_r. destruct (Z.eqb_spec j 4) as [->|E4]; [by rewrite R1|]. rewrite R2 by done. destruct (Z.eqb_spec j 1) as [->|E1]; [by rewrite K1|]. rewrite K2 by done. by apply I1.
    - subst u3. cbn [u_io]. rewrite andb_false_r. destruct (Z.eqb_spec j 1) as [->|E1]; [by rewrite K1|]. rewrite K2 by done. by apply I1. }
  intros j Hj. destruct (Z.eqb_spec j IRQ_IDE) as [->|E]; [by rewrite D1|]. rewrite D2 by done. by apply HU.
Qed.

(** ** Two processors *)
Module CpuSample.

Definition ids : list Z := [3; 7].
Definition hw (me : nat) : Z := nth me ids 0.
Definition held_by (me : nat) (cs : list cpu) : smp := mksmp cs (mkspinlock 1 "ptable" (Some me) []).

(** A process that ran with interrupts enabled on the first processor comes
    back on the second, whose scheduler had them disabled. *)
Lemma sched_keeps_flag_witness :
  wp (sched ids [Some 4%nat; None] hw 0 SLEEPING) (fun ie s1 => s1 = held_by 0 [mkcpu false 1 true; mkcpu true 0 false] /\
    wp (sched_resume ids hw 1 ie ;;; release 1) (fun _ s2 => locked (lk s2) = 0 /\ lcpu (lk s2) = None /\ exists c, cpus s2 !! 1%nat = Some c /\ at_depth true 0 c)
      (held_by 1 [mkcpu true 0 true; mkcpu false 1 false])) (held_by 0 [mkcpu false 1 true; mkcpu true 0 false]).
Proof.
  apply (sched_keeps_flag ids [Some 4%nat; None] hw 0 1 true false SLEEPING).
  - split; [by apply (bool_decide_unpack _)|]. intros [|[|me]] Hm; cbn in *; [done|done|lia].
  - done.
  - split_and!; [cbn; lia|done|done|]. eexists. split; [reflexivity|]. by split_and!.
  - split_and!; [cbn; lia|done|done|]. eexists. split; [reflexivity|]. by split_and!.
Defined.

Definition pgdir : Z := P2V 0x108000.
Definition ram : memory := fun x =>
  if (0x108000 <=? x) && (x <? 0x109000) then (if x mod 4 =? 0 then entrypgdir ((x - 0x108000) / 4) else 0)
  else nth (Z.to_nat (x - 0x200000)) (if 0x200000 <=? x then [0; 0x10; 0x20; 0x80] else []) 0.
Definition at_boot : otherst :=
  mkot (mkvm ram 0 false (P2V 0x200000) 2 false (fun _ => 0) 0 0 (mktss 0 0 0 0)) (mkapic (Some (fun _ => 0)) 0 [] 0 0) (fun _ => 0).
Definition ap0 (j : nat) : apcpu :=
  mkapcpu (mkbc (fun _ => 0) (fun _ => 0) 0 0 AP_CODE true [] 0 []) 0 0 0x7020 0x109000 (replicate NSEGS (SEG 0 0 0 0)) 0.

Lemma ram_bytes : mem_wf ram.
Proof.
  intros x. unfold ram. destruct (_ && _).
  - destruct (x mod 4 =? 0); [|lia]. unfold entrypgdir. destruct (_ =? 0); [done|]. by destruct (_ =? _).
  - generalize (Z.to_nat (x - 0x200000)). destruct (_ <=? x); intros [|[|[|[|[|n]]]]]; cbn; lia.
Qed.

(** Processor 0 starts processor 1, whose identifier is 7. *)
Lemma others_start_witness :
  others ids 0 0 = [(1%nat, 7)] /\
  startothers (P2V 0x10a000) 16 0x80103000 pgdir ap0 ids 0 at_boot = Block 0.
Proof.
  split; [reflexivity|].
  refine (proj2 (others_start (P2V 0x10a000) 16 0x80103000 pgdir ap0 ids 0 0x200000 [0x201000] at_boot (memmove ram AP_CODE (V2P (P2V 0x10a000)) 16) _ _ _ _ _ _ _ _ _ _ _ _ _ _ _)).
  - lia.
  - vm_compute. split; congruence.
  - assert (HB : forallb (fun i => load32 (memmove ram AP_CODE (V2P (P2V 0x10a000)) 16) (V2P pgdir + 4 * i) =? entrypgdir i) (seqZ 0 1024) = true) by (vm_compute; reflexivity).
    intros i Hi. rewrite forallb_forall in HB. apply Z.eqb_eq, HB, list_elem_of_In, elem_of_seqZ. lia.
  - lia.
  - reflexivity.
  - vm_compute. congruence.
  - apply ram_bytes.
  - reflexivity.
  - reflexivity.
  - cbn [freelist_rep]. unfold page_ok. split_and!; vm_compute; first [reflexivity|congruence].
  - vm_compute. congruence.
  - by eexists.
  - by repeat constructor.
  - done.
  - intros j. by split_and!.
Defined.
End CpuSample.
