(* ===== verification/ProcShow.v ===== *)
(** * ProcShow: the process listings of [proc.c]

    The text that [show_all_processes_scheduling], [getprocs] and [procdump]
    print, and the theorem that the columns of the first one line up. *)
From stdpp Require Import base gmap list numbers strings.
From Stdlib Require Import ZArith Lia ZifyBool.
From S2P Require Import Prelude Machine Cstring LockThms Bio Log Fs Ptable Console ConsoleThms.

(** [cprintf] of a string, of a number, and of [n] spaces. *)
Definition text (s : string) : list Z := (fun c => Z.of_nat (Ascii.nat_of_ascii c)) <$> String.list_ascii_of_string s.
Definition num (x : Z) : list Z := printint_chars (i32 x) 10 true.
Definition spaces (n : Z) : list Z := replicate (Z.to_nat n) 32.
Definition len (s : string) : Z := Z.of_nat (String.length s).
Definition newline : list Z := [10].

(** ** [show_all_processes_scheduling] *)

Definition name_spaces (ps : list proc) : Z :=
  fold_left (fun n p => if pid p =? 0 then n else if n <? len (name p) then len (name p) else n) ps 0.

Definition show_header (ns : Z) : list Z :=
  text "name" ++ spaces (ns - len "name" + 3) ++ text "pid" ++ spaces 4 ++ text "state" ++ spaces 6 ++ text "queue" ++ spaces 5 ++
  text "priority" ++ spaces 3 ++ text "lottery" ++ spaces 3 ++ text "burstTime" ++ spaces 3 ++ text "createTime" ++ spaces 2 ++
  text "number" ++ newline ++ text "- - - - - - - - - - - - - - - - - - - - - - - - - - - - - - - - - - - - - - - - " ++ newline.

(** The columns of a row. *)
Definition name_col (ns : Z) (p : proc) : list Z := text (name p) ++ spaces (ns - len (name p) + 4).
Definition pid_col (p : proc) : list Z := num (pid p) ++ spaces (6 - int_size (pid p)).
Definition state_col (p : proc) : list Z :=
  let st := print_state (state_num (state p)) in text st ++ spaces (11 - len st).
Definition queue_col (p : proc) : list Z :=
  let q := find_queue_name (schedQueue p) in text q ++ [32] ++ spaces (12 - len q).
Definition num_col (x w : Z) : list Z := num x ++ [32; 32] ++ spaces (w - int_size x).

Definition show_row (ns : Z) (p : proc) : list Z :=
  name_col ns p ++ pid_col p ++ state_col p ++ queue_col p ++ num_col (priority p) 8 ++ num_col (lottery_ticket p) 10 ++
  num_col (burst_time p) 10 ++ num_col (creation_time p) 10 ++ num (process_count p) ++ [32; 32] ++ newline.

Definition show_all_processes_scheduling (ps : list proc) : list Z :=
  show_header (name_spaces ps) ++ concat ((fun p => if pid p =? 0 then [] else show_row (name_spaces ps) p) <$> ps).

(** ** [getprocs] and [procdump] *)

(** [p->parent->pid]; [low] is what is at that offset from the address 0. *)
Definition parent_pid `{ProcTable} (low : Z) (ps : list proc) (p : proc) : Z :=
  if parent p =? 0 then low
  else match ps !! Z.to_nat ((parent p - ptable_proc) / PROCSIZE) with Some q => pid q | None => low end.

Definition printProcess `{ProcTable} (low : Z) (ps : list proc) (p : proc) : list Z :=
  text "name : " ++ text (name p) ++ newline ++ text "PID : " ++ num (pid p) ++ newline ++
  text "PPID : " ++ num (parent_pid low ps p) ++ newline ++
  text "state : " ++ text (print_state (state_num (state p))) ++ newline.

Definition rule : list Z := newline ++ text "-----------------------------" ++ newline.

Definition getprocs `{ProcTable} (low : Z) (ps : list proc) : list Z * Z :=
  (rule ++ concat ((fun p => if pid p =? 0 then [] else printProcess low ps p ++ rule) <$> ps), 23).

(** [pcs] gives the return addresses that [getcallerpcs] finds on the stack of
    a sleeping process. *)
Definition state_name (st : procstate) : string :=
  match st with
  | UNUSED => "unused" | EMBRYO => "embryo" | SLEEPING => "sleep " | RUNNABLE => "runble" | RUNNING => "run   " | ZOMBIE => "zombie"
  end.

Fixpoint until_zero (l : list Z) : list Z :=
  match l with [] => [] | x :: l => if x =? 0 then [] else x :: until_zero l end.

Definition procdump (pcs : proc -> list Z) (ps : list proc) : list Z :=
  concat ((fun p =>
    if bool_decide (state p = UNUSED) then []
    else num (pid p) ++ [32] ++ text (state_name (state p)) ++ [32] ++ text (name p) ++
      (if bool_decide (state p = SLEEPING) then concat ((fun pc => [32] ++ printint_chars (i32 pc) 16 false) <$> until_zero (take 10 (pcs p))) else []) ++
      newline) <$> ps).

(** ** The columns line up *)

Lemma digits_exact (k : nat) : forall (fuel : nat) (x : Z), (k < fuel)%nat -> 10 ^ Z.of_nat k <= x < 10 ^ Z.of_nat (S k) \/ (k = 0%nat /\ 0 <= x < 10) ->
  length (digits_from fuel x 10) = S k.
Proof.
  induction k as [|k IH]; intros [|fuel] x Hf Hx; try lia; cbn [digits_from length].
  - assert (0 <= x < 10) as H by (destruct Hx as [Hx|[_ Hx]]; [change (10 ^ Z.of_nat 1) with 10 in Hx; lia|done]).
    replace (x / 10 =? 0) with true by zlia. done.
  - destruct Hx as [Hx|[Hx _]]; [|done]. rewrite !Nat2Z.inj_succ, !Z.pow_succ_r in Hx by lia. pose proof (Z.pow_pos_nonneg 10 (Z.of_nat k) ltac:(lia) ltac:(lia)) as Hp.
    replace (x / 10 =? 0) with false by (symmetry; apply Z.eqb_neq; zlia). f_equal. apply IH; [lia|]. left. rewrite Nat2Z.inj_succ, Z.pow_succ_r by lia. split; [apply Z.div_le_lower_bound; lia|apply Z.div_lt_upper_bound; lia].
Qed.

Lemma num_size (x : Z) : 0 <= x < 2147483648 -> Z.of_nat (length (num x)) = int_size x.
Proof.
  intros Hx. unfold num, printint_chars. replace (i32 x) with x by zlia. replace (true && (x <? 0)) with false by lia. rewrite app_nil_r, length_rev, u32_id by lia.
  assert (HD : forall (k : nat) lo hi, (k < 10)%nat -> lo = 10 ^ Z.of_nat k -> hi = 10 ^ Z.of_nat (S k) -> lo <= x < hi ->
    Z.of_nat (length (digits_from 32 x 10)) = Z.of_nat (S k)).
  { intros k lo hi Hk -> -> H. f_equal. apply digits_exact; [lia|by left]. }
  unfold int_size. repeat match goal with
  | |- context [if ?c <=? x then _ else _] => destruct (Z.leb_spec c x) as [?H|?H]
  end.
  all: cycle -1. { rewrite (digits_exact 0); [done|lia|right; lia]. }
  - apply (HD 9%nat 1000000000 10000000000); done || lia.
  - apply (HD 8%nat 100000000 1000000000); done || lia.
  - apply (HD 7%nat 10000000 100000000); done || lia.
  - apply (HD 6%nat 1000000 10000000); done || lia.
  - apply (HD 5%nat 100000 1000000); done || lia.
  - apply (HD 4%nat 10000 100000); done || lia.
  - apply (HD 3%nat 1000 10000); done || lia.
  - apply (HD 2%nat 100 1000); done || lia.
  - apply (HD 1%nat 10 100); done || lia.
Qed.

Lemma length_text (s : string) : Z.of_nat (length (text s)) = len s.
Proof. unfold text, len. rewrite length_fmap. induction s as [|c s IH]; [done|]. cbn [String.list_ascii_of_string length String.length]. lia. Qed.

Lemma length_spaces (n : Z) : Z.of_nat (length (spaces n)) = Z.max n 0.
Proof. unfold spaces. rewrite length_replicate. lia. Qed.

Lemma print_state_len (st : procstate) : len (print_state (state_num st)) <= 8.
Proof. by destruct st. Qed.
Lemma queue_len (q : Z) : len (find_queue_name q) <= 8.
Proof. unfold find_queue_name. by repeat case_match. Qed.

(** The rows of the listing have their columns at the same places, whatever
    process is listed: the widths do not depend on it as long as the numbers
    have no more digits than the columns have room for. *)
Theorem columns_line_up (ps : list proc) (p : proc) :
  let ns := name_spaces ps in
  len (name p) <= ns -> 0 <= pid p < 1000000 -> 0 <= priority p < 100000000 -> 0 <= lottery_ticket p < 2147483648 -> 0 <= burst_time p < 2147483648 ->
  0 <= creation_time p < 2147483648 ->
  Z.of_nat (length (name_col ns p)) = ns + 4 /\ Z.of_nat (length (pid_col p)) = 6 /\ Z.of_nat (length (state_col p)) = 11 /\
  Z.of_nat (length (queue_col p)) = 13 /\ Z.of_nat (length (num_col (priority p) 8)) = 10 /\ Z.of_nat (length (num_col (lottery_ticket p) 10)) = 12 /\
  Z.of_nat (length (num_col (burst_time p) 10)) = 12 /\ Z.of_nat (length (num_col (creation_time p) 10)) = 12.
Proof.
  intros ns Hn H1 H2 H3 H4 H5.
  assert (HC : forall x w, 0 <= x < 2147483648 -> int_size x <= w -> Z.of_nat (length (num_col x w)) = w + 2).
  { intros x w Hx Hw. unfold num_col. rewrite !length_app, !Nat2Z.inj_add, num_size, length_spaces by done. cbn [length]. lia. }
  assert (HI : forall x, int_size x <= 10) by (intros x; unfold int_size; repeat case_match; lia).
  split_and!; try (rewrite HC; [done|lia|apply HI]).
  - unfold name_col. rewrite length_app, Nat2Z.inj_add, length_text, length_spaces. lia.
  - unfold pid_col. rewrite length_app, Nat2Z.inj_add, num_size, length_spaces by lia. unfold int_size. repeat case_match; lia.
  - unfold state_col. rewrite length_app, Nat2Z.inj_add, length_text, length_spaces. pose proof (print_state_len (state p)). lia.
  - unfold queue_col. rewrite !length_app, !Nat2Z.inj_add, length_text, length_spaces. cbn [length]. pose proof (queue_len (schedQueue p)). lia.
  - rewrite HC; [done|lia|]. unfold int_size. repeat case_match; lia.
Qed.

(** The names of the listed processes fit in their column. *)
Lemma name_spaces_le (ps : list proc) p : p ∈ ps -> pid p <> 0 -> len (name p) <= name_spaces ps.
Proof.
  unfold name_spaces. set (f := fun n p => _). assert (HM : forall l n, n <= fold_left f l n).
  { induction l as [|q l IH]; intros n; cbn; [lia|]. etransitivity; [|apply IH]. unfold f. repeat case_match; lia. }
  intros Hp Hpid. enough (HE : forall n, len (name p) <= fold_left f ps n) by apply HE.
  induction ps as [|q ps IH]; intros n; [by apply not_elem_of_nil in Hp|]. apply elem_of_cons in Hp as [->|Hp]; cbn [fold_left]; [|by apply IH].
  etransitivity; [|apply HM]. unfold f. repeat case_match; lia.
Qed.
