(* ===== verification/User.v ===== *)
(** * User: the C library of user programs and the small programs ([ulib.c], [printf.c], [cat.c], [wc.c], [echo.c], [ls.c], ...)

    The string functions and [printf], and the programs that read files and
    print, over an interface to the system calls.  The laws of the interface
    are what a program may rely on: a read gives some non-empty part of what is
    left of the input, as long as anything is left. *)
From stdpp Require Import base gmap list numbers strings.
From Stdlib Require Import ZArith Lia ZifyBool Sorted.
From S2P Require Import Prelude Machine Cstring Console ConsoleThms.

(** ** [ulib.c]: strings

    A C string that is only read is the list of its characters; the end of the
    list is the zero byte. *)

Fixpoint ustrcmp (p q : list Z) : Z :=
  match p with
  | [] => 0 - hd 0 q
  | c :: p' =>
      match q with
      | [] => c - 0
      | d :: q' => if c =? d then ustrcmp p' q' else c - d
      end
  end.

Fixpoint ustrlen (s : list Z) : Z := match s with [] => 0 | _ :: s => 1 + ustrlen s end.

(** The rest of the string from the first [c] on. *)
Fixpoint ustrchr (s : list Z) (c : Z) : option (list Z) :=
  match s with
  | [] => None
  | d :: s' => if d =? c then Some s else ustrchr s' c
  end.

Fixpoint atoi_loop (s : list Z) (n : Z) : Z :=
  match s with
  | [] => n
  | c :: s => if (48 <=? c) && (c <=? 57) then atoi_loop s (i32 (n * 10 + c - 48)) else n
  end.
Definition atoi (s : list Z) : Z := atoi_loop s 0.

(** Copies in memory, from the first byte on. *)
Fixpoint umemmove (m : memory) (dst src : Z) (n : nat) : memory :=
  match n with
  | O => m
  | S n => umemmove (store8 m dst (m src)) (dst + 1) (src + 1) n
  end.

Fixpoint ustrcpy (fuel : nat) (m : memory) (s t : Z) : option memory :=
  match fuel with
  | O => None
  | S fuel => let m' := store8 m s (m t) in if m t =? 0 then Some m' else ustrcpy fuel m' (s + 1) (t + 1)
  end.

(** [memset] *)
Definition umemset (m : memory) (dst c : Z) (n : nat) : memory := stosb m dst c n.

(** ** System calls *)

(** [struct stat], as far as programs print it. *)
Record ustat := mkustat { us_type : Z; us_ino : Z; us_size : Z }.

Class Sys (W : Type) := {
  read : Z -> Z -> M W (option (list Z));
  write : Z -> list Z -> M W Z;
  open : list Z -> Z -> M W Z;
  close : Z -> M W Z;
  fstat : Z -> M W (option ustat);
  link : list Z -> list Z -> M W Z;
  unlink : list Z -> M W Z;
  mkdir : list Z -> M W Z;
  kill : Z -> M W Z;
  uptime : M W Z;
}.

(** A program goes on or has called [exit]. *)
Inductive flow (A : Type) := Go (a : A) | Exited.
Arguments Go {A} a.
Arguments Exited {A}.

Section Programs.
Context {W : Type} `{!Sys W}.

Definition U (A : Type) : Type := M W (flow A).
Definition go {A} (a : A) : U A := ret (Go a).
Definition exit {A} : U A := ret Exited.
Definition run {A} (c : M W A) : U A := let! a := c in go a.
Definition andthen {A B} (c : U A) (k : A -> U B) : U B := let! r := c in match r with Go a => k a | Exited => exit end.

Lemma wp_andthen {A B} (c : U A) (k : A -> U B) Q s :
  wp c (fun r s' => match r with Go a => wp (k a) Q s' | Exited => Q Exited s' end) s -> wp (andthen c k) Q s.
Proof. intros H. apply wp_bind. eapply wp_mono; [exact H|]. by intros [a|] s'. Qed.

(** [gets] reads a character at a time. *)
Fixpoint gets_loop (n : nat) (buf : list Z) : M W (list Z) :=
  match n with
  | O => ret buf
  | S n =>
      let! r := read 0 1 in
      match r with
      | Some (c :: _) => if (c =? 10) || (c =? 13) then ret (buf ++ [c]) else gets_loop n (buf ++ [c])
      | _ => ret buf
      end
  end.
Definition ugets (max : nat) : M W (list Z) := gets_loop (max - 1) [].

Definition ustat_of (n : list Z) : M W (option ustat) :=
  let! fd := open n 0 in
  if fd <? 0 then ret None
  else
    let! r := fstat fd in
    close fd ;;;
    ret r.

(** [delay] *)
Fixpoint delay_loop (fuel : nat) (firstClock n incClock : Z) : M W unit :=
  match fuel with
  | O => fun _ => NoFuel
  | S fuel =>
      if firstClock + n <=? incClock then let! t := uptime in delay_loop fuel firstClock n t else ret tt
  end.
Definition delay (fuel : nat) (n : Z) : M W unit :=
  let! firstClock := uptime in
  let! incClock := uptime in
  delay_loop fuel firstClock n incClock.

(** ** [printf.c] *)

Definition uputc (fd c : Z) : M W unit := write fd [c] ;;; ret tt.
Fixpoint uputs (fd : Z) (s : list Z) : M W unit :=
  match s with [] => ret tt | c :: s => uputc fd c ;;; uputs fd s end.

Definition udigit (d : Z) : Z := if d <? 10 then 48 + d else 55 + d.
Fixpoint udigits (fuel : nat) (x base : Z) : list Z :=
  match fuel with
  | O => []
  | S fuel => udigit (x mod base) :: (if x / base =? 0 then [] else udigits fuel (x / base) base)
  end.
Definition uint_chars (xx base : Z) (sgn : bool) : list Z :=
  let neg := sgn && (xx <? 0) in
  let x := u32 (if neg then - xx else xx) in
  rev (udigits 32 x base ++ if neg then [45] else []).
Definition uprintint (fd xx base : Z) (sgn : bool) : M W unit := uputs fd (uint_chars xx base sgn).

(** The loop over the format; [pct] is the state after a percent sign. *)
Fixpoint printf_loop (fd : Z) (pct : bool) (fmt : list Z) (ap : list arg) : M W unit :=
  match fmt with
  | [] => ret tt
  | c :: fmt =>
      if negb pct then
        if c =? 37 then printf_loop fd true fmt ap else uputc fd c ;;; printf_loop fd false fmt ap
      else if c =? 100 then
        match ap with AInt x :: ap => uprintint fd (i32 x) 10 true ;;; printf_loop fd false fmt ap | _ => fault "ap" end
      else if (c =? 120) || (c =? 112) then
        match ap with AInt x :: ap => uprintint fd (i32 x) 16 false ;;; printf_loop fd false fmt ap | _ => fault "ap" end
      else if c =? 115 then
        match ap with
        | AStr s :: ap => uputs fd (match s with Some s => s | None => null_str end) ;;; printf_loop fd false fmt ap
        | _ => fault "ap"
        end
      else if c =? 99 then
        match ap with AInt x :: ap => uputc fd (u8 x) ;;; printf_loop fd false fmt ap | _ => fault "ap" end
      else if c =? 37 then uputc fd c ;;; printf_loop fd false fmt ap
      else uputc fd 37 ;;; uputc fd c ;;; printf_loop fd false fmt ap
  end.
Definition printf (fd : Z) (fmt : list Z) (ap : list arg) : M W unit := printf_loop fd false fmt ap.

(** ** [cat.c] *)

(** A message and a newline. *)
Definition bytes (s : string) : list Z := (fun c => Z.of_nat (Ascii.nat_of_ascii c)) <$> String.list_ascii_of_string s.
Definition line (s : string) : list Z := bytes s ++ [10].

Fixpoint cat (fuel : nat) (fd : Z) : U unit :=
  match fuel with
  | O => fun _ => NoFuel
  | S fuel =>
      let! n := read fd 512 in
      match n with
      | None => printf 1 (line "cat: read error") [] ;;; exit
      | Some [] => go tt
      | Some d =>
          let! k := write 1 d in
          if negb (k =? Z.of_nat (length d)) then printf 1 (line "cat: write error") [] ;;; exit else cat fuel fd
      end
  end.

Fixpoint cat_files (fuel : nat) (argv : list (list Z)) : U unit :=
  match argv with
  | [] => exit
  | a :: argv =>
      let! fd := open a 0 in
      if fd <? 0 then printf 1 (line "cat: cannot open %s") [AStr (Some a)] ;;; exit
      else andthen (cat fuel fd) (fun _ => close fd ;;; cat_files fuel argv)
  end.

(** [main]; [argv] without the name of the program. *)
Definition cat_main (fuel : nat) (argv : list (list Z)) : U unit :=
  match argv with [] => andthen (cat fuel 0) (fun _ => exit) | _ => cat_files fuel argv end.

(** ** The prompt of [sh.c] *)

(** [getcmd]: what is put in the buffer, [None] at the end of the input. *)
Definition getcmd (nbuf : nat) : M W (option (list Z)) :=
  printf 2 (bytes "$ ") [] ;;;
  let! buf := ugets nbuf in
  if hd 0 buf =? 0 then ret None else ret (Some buf).

(** ** [wc.c] *)

Record counts := mkcounts { wc_l : Z; wc_w : Z; wc_c : Z; wc_in : bool }.
Definition blanks : list Z := [32; 13; 9; 10; 11].
Definition wc_char (s : counts) (b : Z) : counts :=
  let c := wc_c s + 1 in
  let l := if b =? 10 then wc_l s + 1 else wc_l s in
  match ustrchr blanks b with
  | Some _ => mkcounts l (wc_w s) c false
  | None => if negb (wc_in s) then mkcounts l (wc_w s + 1) c true else mkcounts l (wc_w s) c true
  end.

Fixpoint wc_loop (fuel : nat) (fd : Z) (s : counts) : U counts :=
  match fuel with
  | O => fun _ => NoFuel
  | S fuel =>
      let! n := read fd 512 in
      match n with
      | None => printf 1 (line "wc: read error") [] ;;; exit
      | Some [] => go s
      | Some d => wc_loop fuel fd (fold_left wc_char d s)
      end
  end.
Definition wc (fuel : nat) (fd : Z) (name : list Z) : U unit :=
  andthen (wc_loop fuel fd (mkcounts 0 0 0 false))
    (fun s => run (printf 1 (line "%d %d %d %s") [AInt (wc_l s); AInt (wc_w s); AInt (wc_c s); AStr (Some name)])).

Fixpoint wc_files (fuel : nat) (argv : list (list Z)) : U unit :=
  match argv with
  | [] => exit
  | a :: argv =>
      let! fd := open a 0 in
      if fd <? 0 then printf 1 (line "wc: cannot open %s") [AStr (Some a)] ;;; exit
      else andthen (wc fuel fd a) (fun _ => close fd ;;; wc_files fuel argv)
  end.
Definition wc_main (fuel : nat) (argv : list (list Z)) : U unit :=
  match argv with [] => andthen (wc fuel 0 []) (fun _ => exit) | _ => wc_files fuel argv end.

(** ** [echo.c], [kill.c], [ln.c], [rm.c], [mkdir.c] *)

Fixpoint echo_main (argv : list (list Z)) : U unit :=
  match argv with
  | [] => exit
  | a :: argv => printf 1 (bytes "%s%s") [AStr (Some a); AStr (Some (match argv with [] => [10] | _ => [32] end))] ;;; echo_main argv
  end.

Fixpoint kill_all (argv : list (list Z)) : U unit :=
  match argv with [] => exit | a :: argv => kill (atoi a) ;;; kill_all argv end.
Definition kill_main (argv : list (list Z)) : U unit :=
  match argv with [] => printf 2 (line "usage: kill pid...") [] ;;; exit | _ => kill_all argv end.

Definition ln_main (argv : list (list Z)) : U unit :=
  match argv with
  | [old; new] =>
      let! r := link old new in
      when (r <? 0) (printf 2 (line "link %s %s: failed") [AStr (Some old); AStr (Some new)]) ;;; exit
  | _ => printf 2 (line "Usage: ln old new") [] ;;; exit
  end.

Fixpoint rm_files (argv : list (list Z)) : U unit :=
  match argv with
  | [] => exit
  | a :: argv =>
      let! r := unlink a in
      if r <? 0 then printf 2 (line "rm: %s failed to delete") [AStr (Some a)] ;;; exit else rm_files argv
  end.
Definition rm_main (argv : list (list Z)) : U unit :=
  match argv with [] => printf 2 (line "Usage: rm files...") [] ;;; exit | _ => rm_files argv end.

Fixpoint mkdir_dirs (argv : list (list Z)) : U unit :=
  match argv with
  | [] => exit
  | a :: argv =>
      let! r := mkdir a in
      if r <? 0 then printf 2 (line "mkdir: %s failed to create") [AStr (Some a)] ;;; exit else mkdir_dirs argv
  end.
Definition mkdir_main (argv : list (list Z)) : U unit :=
  match argv with [] => printf 2 (line "Usage: mkdir files...") [] ;;; exit | _ => mkdir_dirs argv end.

(** ** [ls.c] *)

Fixpoint upto_slash (l : list Z) : list Z := match l with [] => [] | c :: l => if c =? 47 then [] else c :: upto_slash l end.
Definition fmtname (path : list Z) : list Z :=
  let p := rev (upto_slash (rev path)) in
  if 14 <=? ustrlen p then p else p ++ replicate (Z.to_nat (14 - ustrlen p)) 32.

Fixpoint cut_zero (l : list Z) : list Z := match l with [] => [] | c :: l => if c =? 0 then [] else c :: cut_zero l end.
Definition de_inum (de : list Z) : Z := nth 0 de 0 + 256 * nth 1 de 0.
Definition de_name (de : list Z) : list Z := cut_zero (take 14 (drop 2 de)).

Definition ls_line (path : list Z) (st : ustat) : M W unit :=
  printf 1 (line "%s %d %d %d") [AStr (Some (fmtname path)); AInt (us_type st); AInt (us_ino st); AInt (us_size st)].

Fixpoint ls_dir (fuel : nat) (fd : Z) (path : list Z) : M W unit :=
  match fuel with
  | O => fun _ => NoFuel
  | S fuel =>
      let! r := read fd 16 in
      match r with
      | Some de =>
          if negb (Z.of_nat (length de) =? 16) then ret tt
          else if de_inum de =? 0 then ls_dir fuel fd path
          else
            let buf := path ++ [47] ++ de_name de in
            let! st := ustat_of buf in
            match st with
            | None => printf 1 (line "ls: cannot stat %s") [AStr (Some buf)] ;;; ls_dir fuel fd path
            | Some st => ls_line buf st ;;; ls_dir fuel fd path
            end
      | None => ret tt
      end
  end.

Definition ls (fuel : nat) (path : list Z) : M W unit :=
  let! fd := open path 0 in
  if fd <? 0 then printf 2 (line "ls: cannot open %s") [AStr (Some path)]
  else
    let! st := fstat fd in
    match st with
    | None => printf 2 (line "ls: cannot stat %s") [AStr (Some path)] ;;; close fd ;;; ret tt
    | Some st =>
        (if us_type st =? 2 then ls_line path st
         else if us_type st =? 1 then
           if 512 <? ustrlen path + 1 + 14 + 1 then printf 1 (line "ls: path too long") [] else ls_dir fuel fd path
         else ret tt) ;;;
        close fd ;;; ret tt
    end.

Fixpoint ls_all (fuel : nat) (argv : list (list Z)) : U unit :=
  match argv with [] => exit | a :: argv => ls fuel a ;;; ls_all fuel argv end.
Definition ls_main (fuel : nat) (argv : list (list Z)) : U unit :=
  match argv with [] => ls fuel [46] ;;; exit | _ => ls_all fuel argv end.
End Programs.

(** ** What programs rely on

    [file]: what a path names; [inp]: what is left to read from a descriptor;
    [out]: what was written to it.  [can_write] is said of descriptors of the
    console or of a pipe to another process. *)
Class SysLaws (W : Type) `{!Sys W} := {
  file : W -> list Z -> option (ustat * list Z);
  inp : W -> Z -> list Z;
  out : W -> Z -> list Z;
  can_read : W -> Z -> Prop;
  can_write : W -> Z -> Prop;
  is_file : W -> Z -> option ustat;
  quiet (w w' : W) : Prop := (forall p, file w' p = file w p) /\ (forall fd, out w' fd = out w fd) /\ (forall fd, can_write w fd -> can_write w' fd);
  kept (w w' : W) (fd : Z) : Prop := can_read w fd -> can_read w' fd /\ inp w' fd = inp w fd /\ is_file w' fd = is_file w fd;
  read_law : forall fd n w, can_read w fd -> 0 < n ->
    wp (read fd n) (fun r w' => exists d, r = Some d /\ inp w fd = d ++ inp w' fd /\ Z.of_nat (length d) <= n /\ (d = [] -> inp w fd = []) /\
      (is_file w fd <> None -> Z.of_nat (length d) = Z.min n (Z.of_nat (length (inp w fd)))) /\ can_read w' fd /\ is_file w' fd = is_file w fd /\ quiet w w') w;
  write_law : forall fd d w, can_write w fd ->
    wp (write fd d) (fun r w' => r = Z.of_nat (length d) /\ out w' fd = out w fd ++ d /\ (forall fd', fd' <> fd -> out w' fd' = out w fd') /\
      (forall p, file w' p = file w p) /\ (forall fd', can_write w fd' -> can_write w' fd') /\ (forall fd', kept w w' fd')) w;
  open_law : forall p w st c, file w p = Some (st, c) ->
    wp (open p 0) (fun fd w' => 0 <= fd /\ can_read w' fd /\ is_file w' fd = Some st /\ inp w' fd = c /\ quiet w w' /\
      (forall fd', can_read w fd' -> fd' <> fd) /\ (forall fd', kept w w' fd')) w;
  open_none : forall p w, file w p = None -> wp (open p 0) (fun fd w' => fd < 0 /\ quiet w w' /\ (forall fd', kept w w' fd')) w;
  fstat_law : forall fd w st, can_read w fd -> is_file w fd = Some st -> wp (fstat fd) (fun r w' => r = Some st /\ w' = w) w;
  close_law : forall fd w, can_read w fd -> wp (close fd) (fun _ w' => quiet w w' /\ (forall fd', fd' <> fd -> kept w w' fd')) w;
}.

(** ** [printf] prints the text that its format describes *)

(** What a conversion prints, and the arguments left. *)
Definition conversion (d : Z) (ap : list arg) : option (list Z * list arg) :=
  if d =? 100 then match ap with AInt x :: ap => Some (uint_chars (i32 x) 10 true, ap) | _ => None end
  else if (d =? 120) || (d =? 112) then match ap with AInt x :: ap => Some (uint_chars (i32 x) 16 false, ap) | _ => None end
  else if d =? 115 then match ap with AStr s :: ap => Some (default null_str s, ap) | _ => None end
  else if d =? 99 then match ap with AInt x :: ap => Some ([u8 x], ap) | _ => None end
  else Some (if d =? 37 then [37] else [37; d], ap).

Fixpoint text (fmt : list Z) (ap : list arg) : option (list Z) :=
  match fmt with
  | [] => Some []
  | c :: fmt =>
      if negb (c =? 37) then cons c <$> text fmt ap
      else
        match fmt with
        | [] => Some []
        | d :: fmt => match conversion d ap with Some (s, ap) => app s <$> text fmt ap | None => None end
        end
  end.

Section Laws.
Context {W : Type} `{!Sys W} {L : SysLaws W}.
Implicit Types (w : W).

(** The text [t] and nothing else was written. *)
Definition wrote (fd : Z) (t : list Z) w w' : Prop :=
  out w' fd = out w fd ++ t /\ (forall fd', fd' <> fd -> out w' fd' = out w fd') /\ (forall p, file w' p = file w p) /\
  (forall fd', can_write w fd' -> can_write w' fd') /\ (forall fd', kept w w' fd').

Lemma kept_trans w1 w2 w3 fd : kept w1 w2 fd -> kept w2 w3 fd -> kept w1 w3 fd.
Proof. intros H1 H2 HR. destruct (H1 HR) as (A1 & A2 & A3). destruct (H2 A1) as (B1 & B2 & B3). split_and!; [done|congruence|congruence]. Qed.
Lemma quiet_trans w1 w2 w3 : quiet w1 w2 -> quiet w2 w3 -> quiet w1 w3.
Proof. intros (A1 & A2 & A3) (B1 & B2 & B3). split_and!; intros; [by rewrite B1|by rewrite B2|auto]. Qed.
Lemma kept_refl w fd : kept w w fd.
Proof. by intros HR. Qed.

Lemma wrote_nil fd w : wrote fd [] w w.
Proof. split; [by rewrite app_nil_r|by split_and!]. Qed.
Lemma wrote_more fd t1 t2 w1 w2 w3 : wrote fd t1 w1 w2 -> wrote fd t2 w2 w3 -> wrote fd (t1 ++ t2) w1 w3.
Proof.
  intros (A1 & A2 & A3 & A4 & A5) (B1 & B2 & B3 & B4 & B5). split_and!; intros; [by rewrite B1, A1, app_assoc|by rewrite B2, A2|by rewrite B3, A3|auto|by eapply kept_trans].
Qed.

Lemma uputs_wrote fd s : forall w, can_write w fd -> wp (uputs fd s) (fun _ w' => wrote fd s w w') w.
Proof.
  induction s as [|c s IH]; intros w HW; cbn [uputs]; [apply wp_ret, wrote_nil|]. wp_step. unfold uputc. wp_step. eapply wp_mono; [by apply write_law|].
  intros r w1 (_ & H1). apply wp_ret. eapply wp_mono; [apply IH; by apply H1|]. intros [] w2 H2. by apply (wrote_more fd [c] s w w1).
Qed.

Lemma uputc_wrote fd c w : can_write w fd -> wp (uputc fd c) (fun _ w' => wrote fd [c] w w') w.
Proof. intros HW. pose proof (uputs_wrote fd [c] w HW) as H. apply wp_Ok in H as ([] & w' & E & H). unfold uputs, bind in E. unfold wp. destruct (uputc fd c w) as [[] w1| | | |]; try done. by injection E as ->. Qed.

(** One conversion, then the rest of the format. *)
Lemma wrote_then fd t1 t (c : M W unit) (k : M W unit) w :
  can_write w fd -> wp c (fun _ w' => wrote fd t1 w w') w -> (forall w', can_write w' fd -> wp k (fun _ w2 => wrote fd t w' w2) w') ->
  wp (c ;;; k) (fun _ w' => wrote fd (t1 ++ t) w w') w.
Proof.
  intros HW H1 H2. wp_step. eapply wp_mono; [exact H1|]. intros [] w1 HO. eapply wp_mono; [apply H2; by apply HO|]. intros [] w2. by apply wrote_more.
Qed.

Lemma printf_wrote fd fmt ap t w : can_write w fd -> text fmt ap = Some t -> wp (printf fd fmt ap) (fun _ w' => wrote fd t w w') w.
Proof.
  unfold printf. remember (length fmt) as n eqn:En. assert (Hn : (length fmt <= n)%nat) by lia. clear En. revert fmt ap t w Hn.
  induction n as [|n IH]; intros [|c fmt] ap t w Hn HW HT; cbn [length] in Hn; try lia; try (injection HT as <-; apply wp_ret, wrote_nil).
  cbn [text printf_loop negb] in *. destruct (c =? 37) eqn:E37; cbn [negb] in *.
  - destruct fmt as [|d fmt]; [injection HT as <-; apply wp_ret, wrote_nil|]. cbn [length printf_loop negb] in *. destruct (conversion d ap) as [[s ap']|] eqn:EC; [|done].
    apply fmap_Some in HT as (t' & HT & ->). assert (HK : forall w', can_write w' fd -> wp (printf_loop fd false fmt ap') (fun _ w2 => wrote fd t' w' w2) w') by (intros w' Hw'; apply IH; [lia|done|done]).
    unfold conversion in EC. repeat case_match; simplify_eq; try (apply wrote_then; [done| |done]; apply uputs_wrote || apply uputc_wrote; done).
    { assert (d = 37) as -> by lia. apply (wrote_then fd [37]); [done|by apply uputc_wrote|done]. }
    apply (wrote_then fd [37] (d :: t')); [done|by apply uputc_wrote|]. intros w' Hw'. apply (wrote_then fd [d]); [done|by apply uputc_wrote|done].
  - apply fmap_Some in HT as (t' & HT & ->). apply (wrote_then fd [c]); [done|by apply uputc_wrote|]. intros w' Hw'. apply IH; [lia|done|done].
Qed.

(** ** [cat] copies *)

Lemma cat_copies fd : forall (fuel : nat) w, can_read w fd -> can_write w 1 -> (length (inp w fd) < fuel)%nat ->
  wp (cat fuel fd) (fun r w' => r = Go tt /\ out w' 1 = out w 1 ++ inp w fd /\ can_read w' fd /\ can_write w' 1 /\ (forall p, file w' p = file w p)) w.
Proof.
  induction fuel as [|fuel IH]; intros w HR HW Hf; [lia|]. cbn [cat]. wp_step. eapply wp_mono; [by apply read_law|].
  intros r w1 (d & -> & Ei & _ & Hd & _ & HR1 & _ & Hq). destruct Hq as (Q1 & Q2 & Q3). destruct d as [|c d].
  - apply wp_ret. rewrite Hd, app_nil_r by done. split_and!; auto.
  - set (d' := c :: d) in *. wp_step. eapply wp_mono; [apply write_law; auto|]. intros k w2 (-> & O1 & _ & O3 & O4 & O5). rewrite Z.eqb_refl. cbn [negb].
    destruct (O5 fd HR1) as (HR2 & Ei2 & _). eapply wp_mono; [apply IH; [done|auto|]|].
    { rewrite Ei2. rewrite Ei in Hf. rewrite length_app in Hf. subst d'. cbn [length] in Hf. lia. }
    intros r w3 (-> & E3 & HR3 & HW3 & F3). split_and!; try done; [rewrite E3, O1, Ei2, Q2, Ei; by rewrite <- app_assoc|]. intros p. by rewrite F3, O3, Q1.
Qed.

(** The files named exist, with these contents. *)
Definition contents w (argv : list (list Z)) (cs : list (list Z)) : Prop := Forall2 (fun a c => exists st, file w a = Some (st, c)) argv cs.

Lemma contents_file w w' argv cs : (forall p, file w' p = file w p) -> contents w argv cs -> contents w' argv cs.
Proof. intros HF HC. eapply Forall2_impl; [exact HC|]. intros a c (st & E). exists st. by rewrite HF. Qed.

Lemma cat_main_copies (fuel : nat) argv : forall cs w, contents w argv cs -> argv <> [] -> can_write w 1 -> Forall (fun c => length c < fuel)%nat cs ->
  wp (cat_main fuel argv) (fun r w' => r = Exited /\ out w' 1 = out w 1 ++ concat cs) w.
Proof.
  intros cs w HC Ha. replace (cat_main fuel argv) with (cat_files fuel argv) by (by destruct argv). clear Ha. revert cs w HC.
  induction argv as [|a argv IH]; intros cs w HC HW HF; inversion HC as [|? c ? cs' (st & E) HC']; subst; cbn [cat_files]; [apply wp_ret; cbn; by rewrite app_nil_r|].
  apply Forall_cons in HF as [Hc HF]. wp_step. eapply wp_mono; [by apply open_law|]. intros fd w1 (Hfd & HR & _ & Ei & (Q1 & Q2 & Q3) & _). replace (fd <? 0) with false by lia.
  apply wp_andthen. eapply wp_mono; [apply cat_copies; [done|auto|by rewrite Ei]|]. intros r w2 (-> & E2 & HR2 & HW2 & F2). wp_step. eapply wp_mono; [by apply close_law|].
  intros k w3 ((R1 & R2 & R3) & _). eapply wp_mono; [apply (IH cs'); [|auto|done]|].
  { eapply contents_file; [|exact HC']. intros p. by rewrite R1, F2, Q1. }
  intros r w4 (-> & E4). split; [done|]. rewrite E4, R2, E2, Ei, Q2. cbn. by rewrite app_assoc.
Qed.

(** ** [wc] counts *)

Definition blank (b : Z) : bool := bool_decide (b ∈ blanks).

(** The text between blanks. *)
Fixpoint pieces (cur : list Z) (l : list Z) : list (list Z) :=
  match l with
  | [] => [cur]
  | b :: l => if blank b then cur :: pieces [] l else pieces (cur ++ [b]) l
  end.
Definition nonempty (p : list Z) : bool := match p with [] => false | _ => true end.
Definition words (l : list Z) : list (list Z) := List.filter nonempty (pieces [] l).
Definition newlines (l : list Z) : Z := Z.of_nat (length (List.filter (fun b => b =? 10) l)).

Lemma ustrchr_in s c : is_Some (ustrchr s c) <-> c ∈ s.
Proof.
  induction s as [|d s IH]; cbn; [split; [by intros []|by intros ?%not_elem_of_nil]|]. rewrite elem_of_cons. destruct (d =? c) eqn:E; [split; [|by eauto]; left; lia|]. rewrite IH. split; [tauto|]. intros [->|]; [lia|done].
Qed.

Lemma wc_fold l : forall s cur, wc_in s = nonempty cur ->
  let s' := fold_left wc_char l s in
  wc_l s' = wc_l s + newlines l /\ wc_c s' = wc_c s + Z.of_nat (length l) /\
  wc_w s' = wc_w s + Z.of_nat (length (List.filter nonempty (pieces cur l))) - (if nonempty cur then 1 else 0).
Proof.
  induction l as [|b l IH]; intros s cur Hs; cbn [fold_left pieces].
  - unfold newlines. destruct cur as [|x cur]; cbn; split_and!; lia.
  - assert (EB : newlines (b :: l) = newlines l + if b =? 10 then 1 else 0) by (unfold newlines; cbn; destruct (b =? 10); cbn [length]; lia). rewrite EB. cbn [length].
    assert (Hblank : blank b = match ustrchr blanks b with Some _ => true | None => false end).
    { unfold blank. destruct (ustrchr blanks b) eqn:EU; [apply bool_decide_true, ustrchr_in; eauto|apply bool_decide_false; intros [? HB]%ustrchr_in; congruence]. }
    rewrite Hblank. unfold wc_char at 2 4 6. destruct (ustrchr blanks b) as [u|].
    + destruct (IH (mkcounts (if b =? 10 then wc_l s + 1 else wc_l s) (wc_w s) (wc_c s + 1) false) [] eq_refl) as (I1 & I2 & I3). cbn [wc_l wc_w wc_c] in *.
      rewrite I1, I2, I3. destruct cur as [|x cur]; cbn; destruct (b =? 10); split_and!; lia.
    + assert (HN : nonempty (cur ++ [b]) = true) by (by destruct cur). rewrite Hs. destruct (IH (mkcounts (if b =? 10 then wc_l s + 1 else wc_l s) (if negb (nonempty cur) then wc_w s + 1 else wc_w s) (wc_c s + 1) true) (cur ++ [b]) (eq_sym HN)) as (I1 & I2 & I3).
      rewrite HN in I3. destruct (nonempty cur); cbn [negb wc_l wc_w wc_c] in *; rewrite I1, I2, I3; destruct (b =? 10); split_and!; lia.
Qed.

Lemma wc_loop_folds fd : forall (fuel : nat) s w, can_read w fd -> (length (inp w fd) < fuel)%nat ->
  wp (wc_loop fuel fd s) (fun r w' => r = Go (fold_left wc_char (inp w fd) s) /\ can_read w' fd /\ quiet w w') w.
Proof.
  induction fuel as [|fuel IH]; intros s w HR Hf; [lia|]. cbn [wc_loop]. wp_step. eapply wp_mono; [by apply read_law|].
  intros r w1 (d & -> & Ei & _ & Hd & _ & HR1 & _ & Hq). destruct d as [|c d]; [apply wp_ret; by rewrite Hd|]. rewrite Ei, fold_left_app. set (d' := c :: d) in *.
  eapply wp_mono; [apply IH; [done|]|].
  { rewrite Ei, length_app in Hf. subst d'. cbn [length] in Hf. lia. }
  intros r w2 (-> & HR2 & Hq2). split_and!; try done. by eapply quiet_trans.
Qed.

(** The line that [wc] prints. *)
Definition dec (x : Z) : list Z := uint_chars (i32 x) 10 true.
Definition wc_line (name c : list Z) : list Z :=
  dec (newlines c) ++ [32] ++ dec (Z.of_nat (length (words c))) ++ [32] ++ dec (Z.of_nat (length c)) ++ [32] ++ name ++ [10].

Lemma wc_prints (fuel : nat) fd name w : can_read w fd -> can_write w 1 -> (length (inp w fd) < fuel)%nat ->
  wp (wc fuel fd name) (fun r w' => r = Go tt /\ out w' 1 = out w 1 ++ wc_line name (inp w fd) /\ can_read w' fd /\ can_write w' 1 /\ (forall p, file w' p = file w p)) w.
Proof.
  intros HR HW Hf. unfold wc. apply wp_andthen. eapply wp_mono; [by apply wc_loop_folds|]. intros r w1 (-> & HR1 & Q1 & Q2 & Q3).
  destruct (wc_fold (inp w fd) (mkcounts 0 0 0 false) [] eq_refl) as (E1 & E2 & E3). cbv zeta in E1, E2, E3. cbn [nonempty wc_l wc_w wc_c] in E1, E2, E3. set (s' := fold_left _ _ _) in *. clearbody s'.
  unfold run. wp_step. eapply wp_mono; [apply (printf_wrote 1 _ _ (wc_line name (inp w fd))); [auto|]|].
  { unfold wc_line, words, dec. rewrite E1, E2, E3. rewrite !Z.add_0_l, Z.sub_0_r. cbn -[uint_chars i32]. by rewrite <- ?app_assoc. }
  intros [] w2 (O1 & _ & O3 & O4 & O5). destruct (O5 fd HR1) as (HR2 & _). apply wp_ret. split_and!; auto; [by rewrite O1, Q2|intros p; by rewrite O3, Q1].
Qed.

(** [wc] prints for each file its number of lines, of words (the non-empty
    pieces between blanks) and of characters, however the reads cut the
    text. *)
Theorem wc_counts (fuel : nat) argv cs w :
  contents w argv cs -> argv <> [] -> can_write w 1 -> Forall (fun c => length c < fuel)%nat cs ->
  wp (wc_main fuel argv) (fun r w' => r = Exited /\ out w' 1 = out w 1 ++ concat (zip_with wc_line argv cs)) w.
Proof.
  intros HC Ha. replace (wc_main fuel argv) with (wc_files fuel argv) by (by destruct argv). clear Ha. revert cs w HC.
  induction argv as [|a argv IH]; intros cs w HC HW HF; inversion HC as [|? c ? cs' (st & E) HC']; subst; cbn [wc_files]; [apply wp_ret; cbn; by rewrite app_nil_r|].
  apply Forall_cons in HF as [Hc HF]. wp_step. eapply wp_mono; [by apply open_law|]. intros fd w1 (Hfd & HR & _ & Ei & (Q1 & Q2 & Q3) & _). replace (fd <? 0) with false by lia.
  apply wp_andthen. eapply wp_mono; [apply wc_prints; [done|auto|by rewrite Ei]|]. intros r w2 (-> & E2 & HR2 & HW2 & F2). wp_step. eapply wp_mono; [by apply close_law|].
  intros k w3 ((R1 & R2 & R3) & _). eapply wp_mono; [apply (IH cs'); [|auto|done]|].
  { eapply contents_file; [|exact HC']. intros p. by rewrite R1, F2, Q1. }
  intros r w4 (-> & E4). split; [done|]. rewrite E4, R2, E2, Ei, Q2. cbn [zip_with concat]. by rewrite app_assoc.
Qed.

(** ** [echo] *)

Fixpoint joined (argv : list (list Z)) : list Z :=
  match argv with [] => [] | [a] => a ++ [10] | a :: argv => a ++ [32] ++ joined argv end.

Theorem echo_prints argv : forall w, can_write w 1 -> wp (echo_main argv) (fun r w' => r = Exited /\ wrote 1 (joined argv) w w') w.
Proof.
  induction argv as [|a argv IH]; intros w HW; cbn [echo_main]; [apply wp_ret; split; [done|apply wrote_nil]|]. wp_step.
  eapply wp_mono; [apply (printf_wrote 1 _ _ (a ++ match argv with [] => [10] | _ => [32] end)); [done|]|].
  { by destruct argv. }
  intros [] w1 H1. eapply wp_mono; [apply IH; by apply H1|]. intros r w2 (-> & H2). split; [done|]. pose proof (wrote_more _ _ _ _ _ _ H1 H2) as H3. destruct argv; [by rewrite app_nil_r in H3|by rewrite <- app_assoc in H3].
Qed.

(** ** [ls] *)

Lemma stat_spec p fd w : can_read w fd -> wp (ustat_of p) (fun r w' => r = fst <$> file w p /\ quiet w w' /\ kept w w' fd) w.
Proof.
  intros HR. unfold ustat_of. wp_step. destruct (file w p) as [[st c]|] eqn:E.
  - eapply wp_mono; [by apply open_law|]. intros fd1 w1 (Hfd & HR1 & HF1 & _ & HQ1 & Hne & HK1). replace (fd1 <? 0) with false by lia. wp_step.
    eapply wp_mono; [by apply fstat_law|]. intros r w2 (-> & ->). wp_step. eapply wp_mono; [by apply close_law|]. intros k w3 (HQ3 & HK3). apply wp_ret. split_and!; [done|by eapply quiet_trans|].
    eapply kept_trans; [apply HK1|apply HK3]. by apply Hne.
  - eapply wp_mono; [by apply open_none|]. intros fd1 w1 (Hfd & HQ1 & HK1). replace (fd1 <? 0) with true by lia. apply wp_ret. by split_and!.
Qed.

(** The line for a file, and for an entry of a directory. *)
Definition stat_line (path : list Z) (st : ustat) : list Z :=
  fmtname path ++ [32] ++ dec (us_type st) ++ [32] ++ dec (us_ino st) ++ [32] ++ dec (us_size st) ++ [10].
Definition entry_line w (path de : list Z) : list Z :=
  if de_inum de =? 0 then []
  else
    let name := path ++ [47] ++ de_name de in
    match file w name with Some (st, _) => stat_line name st | None => bytes "ls: cannot stat " ++ name ++ [10] end.

Lemma ls_line_wrote path st w : can_write w 1 -> wp (ls_line path st) (fun _ w' => wrote 1 (stat_line path st) w w') w.
Proof. intros HW. apply printf_wrote; [done|]. unfold stat_line, dec. cbn -[uint_chars i32 fmtname]. by rewrite <- ?app_assoc. Qed.

Lemma ls_dir_lists fd path tail : (length tail < 16)%nat -> forall des (fuel : nat) w,
  can_read w fd -> is_file w fd <> None -> can_write w 1 -> inp w fd = concat des ++ tail -> Forall (fun de => length de = 16%nat) des -> (length des < fuel)%nat ->
  wp (ls_dir fuel fd path) (fun _ w' => out w' 1 = out w 1 ++ concat (entry_line w path <$> des) /\ can_read w' fd /\ (forall p, file w' p = file w p)) w.
Proof.
  intros Ht des. induction des as [|de des IH]; intros [|fuel] w HR HF HW Ei HL Hf; cbn [length] in Hf; try lia; cbn [ls_dir]; wp_step; (eapply wp_mono; [by apply read_law|]);
    intros r w1 (d & -> & Ed & _ & _ & Hd & HR1 & HF1 & Q1 & Q2 & Q3); specialize (Hd HF).
  - rewrite Ei in Hd. cbn in Hd. replace (Z.of_nat (length d) =? 16) with false by lia. apply wp_ret. split_and!; [by rewrite Q2, app_nil_r|done|done].
  - apply Forall_cons in HL as [Hde HL]. cbn [concat] in Ei. rewrite Ei, !length_app in Hd. rewrite Ei, <- app_assoc in Ed. apply app_inj_1 in Ed as [<- Ei1]; [|lia]. replace (Z.of_nat (length de) =? 16) with true by lia. cbn [negb].
    assert (EL : forall w', (forall p, file w' p = file w p) -> entry_line w' path <$> des = entry_line w path <$> des).
    { intros w' Hw'. apply list_fmap_ext. intros _ x _. unfold entry_line. by rewrite Hw'. }
    assert (HR' : forall w2 t, out w2 1 = out w 1 ++ t -> t = entry_line w path de -> can_read w2 fd -> inp w2 fd = inp w1 fd -> is_file w2 fd <> None -> can_write w2 1 -> (forall p, file w2 p = file w p) ->
      wp (ls_dir fuel fd path) (fun _ w' => out w' 1 = out w 1 ++ concat (entry_line w path <$> de :: des) /\ can_read w' fd /\ (forall p, file w' p = file w p)) w2).
    { intros w2 t E2 -> HR2 Ei2 HF2 HW2 HP2. eapply wp_mono; [apply IH; [done|done|done|by rewrite Ei2|done|lia]|]. intros [] w3 (E3 & HR3 & HP3). split_and!; [|done|intros p; by rewrite HP3].
      rewrite E3, E2, (EL w2 HP2). cbn [fmap list_fmap concat]. by rewrite app_assoc. }
    destruct (de_inum de =? 0) eqn:E0; [apply (HR' w1 []); auto; [by rewrite Q2, app_nil_r|by unfold entry_line; rewrite E0|by rewrite HF1]|]. wp_step.
    eapply wp_mono; [by apply (stat_spec _ fd)|]. intros st w2 (-> & (S1 & S2 & S3) & HK). destruct (HK HR1) as (HR2 & Ei2 & HF2). rewrite Q1. set (name := path ++ [47] ++ de_name de).
    assert (HE : entry_line w path de = match file w name with Some (st, _) => stat_line name st | None => bytes "ls: cannot stat " ++ name ++ [10] end) by (unfold entry_line; by rewrite E0).
    destruct (file w name) as [[st c]|]; cbn [fmap option_fmap option_map fst]; wp_step.
    + eapply wp_mono; [apply ls_line_wrote; auto|]. intros [] w3 (O1 & _ & O3 & O4 & O5). destruct (O5 fd HR2) as (HR3 & Ei3 & HF3). apply (HR' w3 (stat_line name st)); auto; [by rewrite O1, S2, Q2|congruence|congruence|intros p; by rewrite O3, S1, Q1].
    + eapply wp_mono; [apply (printf_wrote 1 _ _ (bytes "ls: cannot stat " ++ name ++ [10])); [auto|done]|]. intros [] w3 (O1 & _ & O3 & O4 & O5). destruct (O5 fd HR2) as (HR3 & Ei3 & HF3). apply (HR' w3 (bytes "ls: cannot stat " ++ name ++ [10])); auto; [by rewrite O1, S2, Q2|congruence|congruence|intros p; by rewrite O3, S1, Q1].
Qed.

(** [ls] of a directory prints a line for each entry in use, in order. *)
Theorem ls_lists (fuel : nat) path st des tail w :
  file w path = Some (st, concat des ++ tail) -> us_type st = 1 -> ustrlen path <= 496 -> (length tail < 16)%nat -> Forall (fun de => length de = 16%nat) des -> (length des < fuel)%nat ->
  can_write w 1 -> wp (ls fuel path) (fun _ w' => out w' 1 = out w 1 ++ concat (entry_line w path <$> des)) w.
Proof.
  intros HP HT Hl Ht HL Hf HW. unfold ls. wp_step. eapply wp_mono; [by apply open_law|]. intros fd w1 (Hfd & HR & HF & Ei & (Q1 & Q2 & Q3) & _). replace (fd <? 0) with false by lia. wp_step.
  eapply wp_mono; [by apply fstat_law|]. intros r w2 (-> & ->). rewrite HT. cbn [Z.eqb Pos.eqb]. replace (512 <? ustrlen path + 1 + 14 + 1) with false by lia. wp_step.
  eapply wp_mono; [apply (ls_dir_lists fd path tail Ht des fuel w1); [done|by rewrite HF|auto|done|done|done]|]. intros [] w3 (E3 & HR3 & HP3). wp_step. eapply wp_mono; [by apply close_law|].
  intros k w4 ((_ & R2 & _) & _). apply wp_ret. rewrite R2, E3, Q2. do 2 f_equal. apply list_fmap_ext. intros _ de _. unfold entry_line. by rewrite Q1.
Qed.

(** ** [gets] *)

(** The first line of the input, its end included, or the first [n]
    characters when they hold no end of line. *)
Fixpoint first_line (n : nat) (l : list Z) : list Z :=
  match n, l with
  | S n, c :: l => if (c =? 10) || (c =? 13) then [c] else c :: first_line n l
  | _, _ => []
  end.

Lemma gets_reads (n : nat) : forall buf w, can_read w 0 ->
  wp (gets_loop n buf) (fun r w' => r = buf ++ first_line n (inp w 0) /\ inp w 0 = first_line n (inp w 0) ++ inp w' 0 /\ can_read w' 0 /\ quiet w w') w.
Proof.
  induction n as [|n IH]; intros buf w HR; cbn [gets_loop first_line]; [apply wp_ret; rewrite app_nil_r; by split_and!|]. wp_step. eapply wp_mono; [by apply read_law|].
  intros r w1 (d & -> & Ei & Hl & Hd & _ & HR1 & _ & HQ). destruct d as [|c [|c' d]]; cbn [length] in Hl; [|rewrite Ei; cbn [app]|lia].
  - apply wp_ret. rewrite Hd by done. rewrite Hd in Ei by done. cbn [app] in Ei. rewrite app_nil_r. by split_and!.
  - destruct ((c =? 10) || (c =? 13)); [by apply wp_ret|]. eapply wp_mono; [by apply IH|]. intros r w2 (-> & E2 & HR2 & HQ2). split_and!; [by rewrite <- app_assoc|cbn [app]; by rewrite <- E2|done|by eapply quiet_trans].
Qed.

(** The shell prompts on its error output and takes one line of its input, cut
    to what the buffer holds. *)
Theorem getcmd_reads (nbuf : nat) w : can_read w 0 -> can_write w 2 ->
  wp (getcmd nbuf) (fun r w' => let l := first_line (nbuf - 1) (inp w 0) in
    r = (if hd 0 l =? 0 then None else Some l) /\ inp w 0 = l ++ inp w' 0 /\ out w' 2 = out w 2 ++ bytes "$ " /\ can_read w' 0 /\ can_write w' 2) w.
Proof.
  intros HR HW. unfold getcmd. wp_step. eapply wp_mono; [by apply (printf_wrote 2 _ _ (bytes "$ "))|]. intros [] w1 (O1 & _ & _ & O4 & O5).
  destruct (O5 0 HR) as (HR1 & Ei1 & _). wp_step. eapply wp_mono; [by apply gets_reads|]. rewrite Ei1. intros r w2 (-> & E2 & HR2 & Q1 & Q2 & Q3). cbn [app].
  cbv zeta. destruct (hd 0 _ =? 0); apply wp_ret; split_and!; auto; by rewrite Q2.
Qed.
End Laws.

(** ** Numbers *)

Lemma atoi_digits (fuel : nat) : forall x rest, 0 <= x < 10 ^ Z.of_nat fuel -> x < 2147483648 -> (0 < fuel)%nat -> atoi_loop (rev (udigits fuel x 10) ++ rest) 0 = atoi_loop rest x.
Proof.
  induction fuel as [|fuel IH]; intros x rest Hx Hm Hf; [lia|]. assert (HD : forall n, 0 <= n -> n * 10 + x mod 10 < 2147483648 -> atoi_loop (udigit (x mod 10) :: rest) n = atoi_loop rest (n * 10 + x mod 10)).
  { intros n Hn Hb. pose proof (Z.mod_pos_bound x 10 ltac:(lia)). unfold udigit. replace (x mod 10 <? 10) with true by lia. cbn [atoi_loop]. replace ((48 <=? 48 + x mod 10) && (48 + x mod 10 <=? 57)) with true by lia.
    f_equal. replace (n * 10 + (48 + x mod 10) - 48) with (n * 10 + x mod 10) by lia. apply i32_id. lia. }
  cbn [udigits]. destruct (x / 10 =? 0) eqn:E; cbn [rev app].
  - rewrite HD by zlia. f_equal. zlia.
  - rewrite <- app_assoc. cbn [app]. rewrite IH; [|replace (Z.of_nat (S fuel)) with (Z.of_nat fuel + 1) in Hx by lia; rewrite Z.pow_add_r, Z.pow_1_r in Hx by lia; zlia|zlia|destruct fuel; [zlia|lia]].
    rewrite HD by zlia. f_equal. zlia.
Qed.

(** [atoi] reads what [printf] prints for [%d]. *)
Theorem atoi_reads_back x rest : 0 <= x < 2147483648 -> (forall c, head rest = Some c -> ~ 48 <= c <= 57) -> atoi (dec x ++ rest) = x.
Proof.
  intros Hx Hr. unfold atoi, dec, uint_chars. rewrite i32_id by lia. replace (x <? 0) with false by lia. cbn [andb]. rewrite u32_id, app_nil_r by lia. rewrite atoi_digits by (cbn; lia).
  destruct rest as [|c rest]; [done|]. cbn. specialize (Hr c eq_refl). replace ((48 <=? c) && (c <=? 57)) with false by lia. done.
Qed.

(** ** Strings *)

Theorem ustrcmp_equal p : forall q, Forall (fun c => 0 < c < 256) p -> Forall (fun c => 0 < c < 256) q -> (ustrcmp p q = 0 <-> p = q).
Proof.
  induction p as [|c p IH]; intros [|d q] Hp Hq; cbn; try apply Forall_cons in Hp as [Hc Hp]; try apply Forall_cons in Hq as [Hd Hq]; [done|split; [lia|done]|split; [lia|done]|].
  destruct (c =? d) eqn:E; [assert (c = d) as -> by lia; rewrite IH by done; split; [by intros ->|by intros [= ->]]|]. split; [lia|intros [= ? _]; lia].
Qed.

Lemma umemmove_other n : forall m dst src x, x < dst \/ dst + Z.of_nat n <= x -> umemmove m dst src n x = m x.
Proof.
  induction n as [|n IH]; intros m dst src x Hx; cbn [umemmove]; [done|]. rewrite IH by lia. unfold store8. by replace (x =? dst) with false by lia.
Qed.

(** [memmove] copies when the destination is not inside the rest of the
    source. *)
Theorem umemmove_copies n : forall m dst src i, mem_wf m -> dst <= src \/ src + Z.of_nat n <= dst -> 0 <= i < Z.of_nat n -> umemmove m dst src n (dst + i) = m (src + i).
Proof.
  induction n as [|n IH]; intros m dst src i Hm Hd Hi; [lia|]. cbn [umemmove]. assert (Hm' : mem_wf (store8 m dst (m src))) by (intros x; unfold store8; case_match; [apply Z.mod_pos_bound; lia|apply Hm]).
  destruct (decide (i = 0)) as [->|Hi0].
  - rewrite umemmove_other by lia. unfold store8. rewrite !Z.add_0_r, Z.eqb_refl. apply Z.mod_small. apply Hm.
  - replace (dst + i) with (dst + 1 + (i - 1)) by lia. rewrite IH by (done || lia). unfold store8. replace (src + 1 + (i - 1) =? dst) with false by lia. f_equal. lia.
Qed.

(** Onto a later part of the source it does not: here the first byte is
    repeated, where the C library's [memmove] would give 1, 2. *)
Lemma umemmove_overlap : let m := fun a => a mod 256 in let m' := umemmove m 2 1 2 in (m' 2, m' 3) = (1, 1).
Proof. done. Qed.

(** [strcpy] of a string of [k] characters to memory apart from it. *)
Theorem ustrcpy_copies (k : nat) : forall fuel m s t, mem_wf m -> (forall i, 0 <= i < Z.of_nat k -> m (t + i) <> 0) -> m (t + Z.of_nat k) = 0 -> (k < fuel)%nat ->
  (s + Z.of_nat k < t \/ t + Z.of_nat k < s) ->
  exists m', ustrcpy fuel m s t = Some m' /\ (forall i, 0 <= i <= Z.of_nat k -> m' (s + i) = m (t + i)) /\ (forall x, x < s \/ s + Z.of_nat k < x -> m' x = m x).
Proof.
  induction k as [|k IH]; intros [|fuel] m s t Hm Hn Hz Hf Hd; try lia; cbn [ustrcpy].
  - rewrite Z.add_0_r in Hz. rewrite Hz. cbn [Z.eqb]. eexists. split; [done|]. unfold store8. split; [intros i Hi; assert (i = 0) as -> by lia; by rewrite !Z.add_0_r, Z.eqb_refl, Hz|intros x Hx; by replace (x =? s) with false by lia].
  - pose proof (Hn 0 ltac:(lia)) as H0. rewrite Z.add_0_r in H0. replace (m t =? 0) with false by lia.
    assert (EO : forall x, x <> s -> store8 m s (m t) x = m x) by (intros x Hx; unfold store8; by replace (x =? s) with false by lia).
    destruct (IH fuel (store8 m s (m t)) (s + 1) (t + 1)) as (m' & E & H1 & H2).
    + intros x. unfold store8. case_match; [apply Z.mod_pos_bound; lia|apply Hm].
    + intros i Hi. rewrite EO by lia. replace (t + 1 + i) with (t + (i + 1)) by lia. apply Hn. lia.
    + rewrite EO by lia. by replace (t + 1 + Z.of_nat k) with (t + Z.of_nat (S k)) by lia.
    + lia.
    + lia.
    + exists m'. split; [done|]. split.
      * intros i Hi. destruct (decide (i = 0)) as [->|Hi0].
        -- rewrite H2 by lia. rewrite !Z.add_0_r. unfold store8. rewrite Z.eqb_refl. apply Z.mod_small. apply Hm.
        -- replace (s + i) with (s + 1 + (i - 1)) by lia. rewrite H1 by lia. rewrite EO by lia. f_equal. lia.
      * intros x Hx. rewrite H2 by lia. apply EO. lia.
Qed.

(** ** [delay] *)

(** [delay] goes on as long as the time has come, and so returns at once. *)
Lemma delay_returns_at_once {W} `{!Sys W} fuel n t0 t1 (w w1 w2 : W) :
  uptime w = Ok t0 w1 -> uptime w1 = Ok t1 w2 -> t1 < t0 + n -> delay (S fuel) n w = Ok tt w2.
Proof. intros E0 E1 Ht. unfold delay, bind. rewrite E0, E1. cbn [delay_loop]. by replace (t0 + n <=? t1) with false by lia. Qed.

(** ** [middle.c]: the middle one of seven numbers *)

(** The first [k] steps of a pass of the bubble sort. *)
Fixpoint bubble_pass (k : nat) (l : list Z) : list Z :=
  match k, l with
  | S k, x :: y :: l => if y <? x then y :: bubble_pass k (x :: l) else x :: bubble_pass k (y :: l)
  | _, _ => l
  end.

(** The passes [i], [i + 1], ... of [num]. *)
Fixpoint bubble_sort (num i n : nat) (l : list Z) : list Z :=
  match n with O => l | S n => bubble_sort num (S i) n (bubble_pass (num - i - 1) l) end.

(** The digits of the number, the last one first; the argument of [t] is the
    character of the remainder. *)
Fixpoint mid_inverse (fuel : nat) (mid : Z) : list Z :=
  match fuel with
  | O => []
  | S fuel => if mid =? 0 then [] else u8 (Z.rem mid 10 + 48) :: mid_inverse fuel (Z.quot mid 10)
  end.

(** What [main] puts into [middle]. *)
Definition middle_text (argv : list (list Z)) : list Z :=
  let array := bubble_sort 7 0 7 (atoi <$> argv) in
  rev (mid_inverse 10 (nth 3 array 0)) ++ [10].

Lemma pass_max rest : forall x b, exists a mx, bubble_pass (length rest) (x :: rest ++ b) = a ++ mx :: b /\ Permutation (x :: rest) (a ++ [mx]) /\ Forall (fun y => y <= mx) a.
Proof.
  induction rest as [|y rest IH]; intros x b; cbn [length bubble_pass app]; [by exists [], x|]. destruct (y <? x) eqn:E.
  - destruct (IH x b) as (a & mx & E1 & P1 & F1). exists (y :: a), mx. rewrite E1. split_and!; [done|rewrite perm_swap; cbn; by f_equiv|]. apply Forall_cons. split; [|done].
    assert (Hx : x ∈ a ++ [mx]) by (rewrite <- P1; by left). apply elem_of_app in Hx as [Hx|Hx]; [rewrite Forall_forall in F1; specialize (F1 x Hx)|apply list_elem_of_singleton in Hx]; lia.
  - destruct (IH y b) as (a & mx & E1 & P1 & F1). exists (x :: a), mx. rewrite E1. split_and!; [done|cbn; by f_equiv|]. apply Forall_cons. split; [|done].
    assert (Hy : y ∈ a ++ [mx]) by (rewrite <- P1; by left). apply elem_of_app in Hy as [Hy|Hy]; [rewrite Forall_forall in F1; specialize (F1 y Hy)|apply list_elem_of_singleton in Hy]; lia.
Qed.

Lemma sort_passes num (n : nat) : forall a b, (n = length a)%nat -> (num = length a + length b)%nat -> StronglySorted Z.le b -> Forall (fun x => Forall (Z.le x) b) a ->
  StronglySorted Z.le (bubble_sort num (length b) n (a ++ b)) /\ Permutation (a ++ b) (bubble_sort num (length b) n (a ++ b)).
Proof.
  induction n as [|n IH]; intros a b Hn Hnum Hs Hle; [by destruct a|]. destruct a as [|x rest]; [done|]. cbn [bubble_sort]. injection Hn as Hn.
  replace (num - length b - 1)%nat with (length rest) by (cbn [length] in Hnum; lia). destruct (pass_max rest x b) as (a' & mx & E & P & F). change ((x :: rest) ++ b) with (x :: rest ++ b). rewrite E.
  assert (HL : (S (length rest) = length a' + 1)%nat) by (apply Permutation_length in P; rewrite length_app in P; cbn in P; lia).
  destruct (IH a' (mx :: b)) as [S1 P1]; [lia|cbn [length] in *; lia| | |].
  - constructor; [done|]. rewrite Forall_forall in Hle. assert (Hmx : mx ∈ x :: rest) by (rewrite P; apply elem_of_app; right; by left). by apply Hle.
  - rewrite Forall_forall in Hle, F |- *. intros y Hy. apply Forall_cons. split; [by apply F|]. apply Hle. rewrite P. apply elem_of_app. by left.
  - split; [exact S1|]. rewrite <- P1. change (x :: rest ++ b) with ((x :: rest) ++ b). rewrite P, <- app_assoc. done.
Qed.

(** The bubble sort sorts. *)
Theorem bubble_sorts (l : list Z) : StronglySorted Z.le (bubble_sort (length l) 0 (length l) l) /\ Permutation l (bubble_sort (length l) 0 (length l) l).
Proof.
  pose proof (sort_passes (length l) (length l) l [] eq_refl) as H. cbn [length] in H. rewrite app_nil_r in H. apply H; [lia|constructor|]. apply Forall_forall. intros x _. constructor.
Qed.

Lemma mid_inverse_digits (f : nat) : forall f' x, 0 < x < 10 ^ Z.of_nat f -> x < 10 ^ Z.of_nat f' -> mid_inverse f x = udigits f' x 10.
Proof.
  induction f as [|f IH]; intros [|f'] x Hx Hx'; [cbn in Hx; lia|cbn in Hx; lia|cbn in Hx'; lia|]. cbn [mid_inverse udigits]. replace (x =? 0) with false by lia.
  rewrite Z.rem_mod_nonneg, Z.quot_div_nonneg by lia. pose proof (Z.mod_pos_bound x 10 ltac:(lia)).
  assert (HP : forall g, 10 ^ Z.of_nat (S g) = 10 * 10 ^ Z.of_nat g) by (intros g; replace (Z.of_nat (S g)) with (Z.succ (Z.of_nat g)) by lia; apply Z.pow_succ_r; lia). rewrite HP in Hx, Hx'.
  f_equal; [unfold udigit, u8; replace (x mod 10 <? 10) with true by lia; rewrite Z.mod_small; lia|]. destruct (x / 10 =? 0) eqn:E; [destruct f; cbn; by rewrite ?E|]. apply IH; zlia.
Qed.

(** For positive numbers [middle] holds the decimal digits of the middle one
    and a newline. *)
Theorem middle_prints argv :
  let mid := nth 3 (bubble_sort 7 0 7 (atoi <$> argv)) 0 in 0 < mid < 2147483648 -> middle_text argv = dec mid ++ [10].
Proof.
  intros mid Hm. unfold middle_text. fold mid. f_equal. unfold dec, uint_chars. rewrite i32_id by lia. replace (mid <? 0) with false by lia. cbn [andb]. rewrite u32_id, app_nil_r by lia.
  rewrite (mid_inverse_digits 10 32); [done|change (10 ^ Z.of_nat 10) with 10000000000; lia|change (10 ^ Z.of_nat 32) with 100000000000000000000000000000000; lia].
Qed.

(** ** A small world *)

Module UserSample.
Record world := mkworld { files : list (list Z * (ustat * list Z)); opened : list (option (ustat * list Z)); printed : Z -> list Z }.

Fixpoint find (p : list Z) (l : list (list Z * (ustat * list Z))) : option (ustat * list Z) :=
  match l with [] => None | (q, x) :: l => if decide (p = q) then Some x else find p l end.
Definition slot (w : world) (fd : Z) : option (ustat * list Z) := if fd <? 0 then None else mjoin (opened w !! Z.to_nat fd).
Definition set_slot (fd : Z) (x : option (ustat * list Z)) (w : world) : world := mkworld (files w) (<[Z.to_nat fd := x]> (opened w)) (printed w).

#[export] Instance sample_sys : Sys world := {
  read fd n := fun w => match slot w fd with Some (st, c) => Ok (Some (take (Z.to_nat n) c)) (set_slot fd (Some (st, drop (Z.to_nat n) c)) w) | None => Ok None w end;
  write fd d := fun w => if (fd =? 1) || (fd =? 2) then Ok (Z.of_nat (length d)) (mkworld (files w) (opened w) (fun x => if x =? fd then printed w x ++ d else printed w x)) else Ok (-1) w;
  open p _ := fun w => match find p (files w) with Some x => Ok (Z.of_nat (length (opened w))) (mkworld (files w) (opened w ++ [Some x]) (printed w)) | None => Ok (-1) w end;
  close fd := fun w => Ok 0 (set_slot fd None w);
  fstat fd := fun w => Ok (fst <$> slot w fd) w;
  link _ _ := ret (-1);
  unlink _ := ret (-1);
  mkdir _ := ret (-1);
  kill _ := ret (-1);
  uptime := ret 0;
}.

Lemma slot_set w fd x : is_Some (slot w fd) -> slot (set_slot fd x w) fd = x.
Proof.
  unfold slot. destruct (fd <? 0) eqn:E; [by intros []|]. intros [y Hy]. cbn. destruct (opened w !! Z.to_nat fd) eqn:El; [|done]. by rewrite list_lookup_insert_eq by (by eapply lookup_lt_Some).
Qed.
Lemma slot_set_ne w fd fd' x : fd' <> fd -> is_Some (slot w fd) -> slot (set_slot fd x w) fd' = slot w fd'.
Proof.
  intros Hne. unfold slot. destruct (fd <? 0) eqn:E; [by intros []|]. intros _. cbn. destruct (fd' <? 0) eqn:E'; [done|]. rewrite list_lookup_insert_ne; [done|]. lia.
Qed.
Lemma slot_app w x fd : is_Some (slot w fd) ->
  slot (mkworld (files w) (opened w ++ [x]) (printed w)) fd = slot w fd /\ fd <> Z.of_nat (length (opened w)).
Proof.
  unfold slot. destruct (fd <? 0) eqn:E; [by intros []|]. cbn. intros [y Hy]. destruct (opened w !! Z.to_nat fd) eqn:El; [|done]. pose proof (lookup_lt_Some _ _ _ El). rewrite lookup_app_l by done. rewrite El. split; [done|lia].
Qed.
Lemma slot_new w x : slot (mkworld (files w) (opened w ++ [Some x]) (printed w)) (Z.of_nat (length (opened w))) = Some x.
Proof. unfold slot. cbn. replace (Z.of_nat _ <? 0) with false by lia. rewrite Nat2Z.id. by rewrite lookup_app_r, Nat.sub_diag by lia. Qed.

#[export, refine] Instance sample_laws : SysLaws world := {
  file w p := find p (files w);
  inp w fd := match slot w fd with Some (_, c) => c | None => [] end;
  out w fd := printed w fd;
  can_read w fd := is_Some (slot w fd);
  can_write w fd := fd = 1 \/ fd = 2;
  is_file w fd := fst <$> slot w fd;
}.
Proof.
  - intros fd n w HR Hn. unfold wp, read, sample_sys. destruct HR as [[st c] E]. rewrite E. assert (HS : is_Some (slot w fd)) by eauto. exists (take (Z.to_nat n) c). rewrite slot_set by done. rewrite length_take. split_and!; try done.
    + by rewrite take_drop.
    + lia.
    + intros H0. apply (f_equal length) in H0. rewrite length_take in H0. destruct c; [done|]. cbn in H0. lia.
    + intros _. lia.
  - intros fd d w HW. unfold wp, write, sample_sys. replace ((fd =? 1) || (fd =? 2)) with true by lia. split_and!; try done; cbn; [by rewrite Z.eqb_refl|]. intros fd' Hne. by replace (fd' =? fd) with false by lia.
  - intros p w st c HF. unfold wp, open, sample_sys. rewrite HF. rewrite slot_new. split_and!; try done; [lia|intros fd' HR; by apply (slot_app w (Some (st, c)))|]. intros fd' HR. by rewrite (proj1 (slot_app w (Some (st, c)) fd' HR)).
  - intros p w HF. unfold wp, open, sample_sys. rewrite HF. by split_and!.
  - intros fd w st HR HF. unfold wp, fstat, sample_sys. by split.
  - intros fd w HR. unfold wp, close, sample_sys. split; [by split_and!|]. intros fd' Hne HR'. by rewrite slot_set_ne.
Defined.

Definition name : list Z := bytes "f".
Definition start : world := mkworld [(name, (mkustat 2 5 8, bytes "to be or" ++ [10]))] [None; None; None] (fun _ => []).

Lemma wc_counts_witness : wp (wc_main 10 [name]) (fun r w' => r = Exited /\ printed w' 1 = bytes "1 3 9 f" ++ [10]) start.
Proof. apply (wc_counts (L := sample_laws) 10 [name] [bytes "to be or" ++ [10]] start); [constructor; [exists (mkustat 2 5 8); vm_compute; reflexivity|constructor]|done|by left|repeat constructor; vm_compute; lia]. Defined.
End UserSample.
