(* ===== verification/Progs.v ===== *)
(** * Progs: user programs that make processes ([forktest.c], [schedTest.c])

    A program is the tree of the system calls it makes; a system of processes
    takes their steps in any order, over a process table with a limit, where
    [fork] may also fail for lack of memory.  What the kernel promises about
    [fork], [wait] and [exit] is the theorems of [ProcThms]; here it is the
    step relation.  The theorems are that [forktest] passes whatever the order,
    and what becomes of the children of [schedTest] in the lottery. *)
From stdpp Require Import base gmap list numbers strings.
From Stdlib Require Import ZArith Lia ZifyBool.
From S2P Require Import Prelude Machine Ptable Sched ConsoleThms User.

(** ** Programs *)

(** System calls other than those on processes; [Delay] is the function of the
    library, which reads the clock. *)
Inductive req :=
  | Write (fd : Z) (l : list Z)
  | Read (fd n : Z)
  | Open (path : list Z) (mode : Z)
  | Close (fd : Z)
  | Dup (fd : Z)
  | Mknod (path : list Z) (major minor : Z)
  | Exec (path : list Z) (argv : list (list Z))
  | Sleep (n : Z)
  | Delay (n : Z)
  | Getpid
  | IncNum (n : Z)
  | Getprocs
  | ShowSched
  | SetQueue (queue pid : Z)
  | SetPriority (priority pid : Z)
  | SetBurst (burst pid : Z)
  | SetTickets (tickets pid : Z).

Inductive prog :=
  | PExit
  | PFork (k : Z -> prog)
  | PWait (k : Z -> prog)
  | PCall (r : req) (k : Z -> prog).

(** ** The system of processes *)

(** A process: its parent, and what it still does; nothing for a zombie. *)
Record pstate := mkps { ps_parent : Z; ps_run : option prog }.
Record sys := mksys { table : gmap Z pstate; nextpid : Z; calls : list (Z * req) }.

Definition reparent (p : Z) (m : gmap Z pstate) : gmap Z pstate :=
  (fun x => if decide (ps_parent x = p) then mkps 1 (ps_run x) else x) <$> m.

(** A step of the process [p]. *)
Inductive pstep (p : Z) : sys -> sys -> Prop :=
  | st_fork s par k :
      table s !! p = Some (mkps par (Some (PFork k))) -> (size (table s) < Z.to_nat NPROC)%nat ->
      pstep p s (mksys (<[nextpid s := mkps p (Some (k 0))]> (<[p := mkps par (Some (k (nextpid s)))]> (table s))) (nextpid s + 1) (calls s))
  | st_fork_fails s par k :
      table s !! p = Some (mkps par (Some (PFork k))) ->
      pstep p s (mksys (<[p := mkps par (Some (k (-1)))]> (table s)) (nextpid s) (calls s))
  | st_wait s par k c :
      table s !! p = Some (mkps par (Some (PWait k))) -> table s !! c = Some (mkps p None) ->
      pstep p s (mksys (delete c (<[p := mkps par (Some (k c))]> (table s))) (nextpid s) (calls s))
  | st_wait_none s par k :
      table s !! p = Some (mkps par (Some (PWait k))) -> (forall c x, table s !! c = Some x -> ps_parent x <> p) ->
      pstep p s (mksys (<[p := mkps par (Some (k (-1)))]> (table s)) (nextpid s) (calls s))
  | st_exit s par :
      table s !! p = Some (mkps par (Some PExit)) ->
      pstep p s (mksys (<[p := mkps par None]> (reparent p (table s))) (nextpid s) (calls s))
  | st_call s par r k v :
      table s !! p = Some (mkps par (Some (PCall r k))) ->
      pstep p s (mksys (<[p := mkps par (Some (k v))]> (table s)) (nextpid s) (calls s ++ [(p, r)])).

(** ** [forktest.c] *)

Definition FT_N : nat := 1000.

(** Its own [printf]. *)
Definition fputs (l : list Z) (k : prog) : prog := PCall (Write 1 l) (fun _ => k).

Definition ft_begin : list Z := chars_of "fork test" ++ [10].
Definition ft_ok : list Z := chars_of "fork test OK" ++ [10].

Fixpoint ft_waits (n : nat) : prog :=
  match n with
  | O => PWait (fun r => if negb (r =? -1) then fputs (chars_of "wait got too many" ++ [10]) PExit else fputs ft_ok PExit)
  | S n => PWait (fun r => if r <? 0 then fputs (chars_of "wait stopped early" ++ [10]) PExit else ft_waits n)
  end.
Definition ft_after (n : nat) : prog :=
  if (n =? FT_N)%nat then fputs (chars_of "fork claimed to work N times!" ++ [10]) PExit else ft_waits n.
Fixpoint ft_forks (todo n : nat) : prog :=
  match todo with
  | O => ft_after n
  | S todo => PFork (fun pid => if pid <? 0 then ft_after n else if pid =? 0 then PExit else ft_forks todo (S n))
  end.
Definition forktest : prog := fputs ft_begin (ft_forks FT_N 0).

(** ** What a process sees of the system *)

Definition run_of (p : Z) (s : sys) : option prog := table s !! p ≫= ps_run.
Definition kids (p : Z) (m : gmap Z pstate) : gmap Z pstate := filter (fun x => ps_parent x.2 = p) m.
Definition live_kids (p : Z) (m : gmap Z pstate) : gmap Z pstate := filter (fun x => is_Some (ps_run x.2)) (kids p m).
Definition said (p : Z) (s : sys) : list req := (filter (fun x => x.1 = p) (calls s)).*2.

(** The table fits, and process identifiers are fresh. *)
Record wf (s : sys) : Prop := mkwf {
  wf_size : (size (table s) <= Z.to_nat NPROC)%nat;
  wf_pids : forall q x, table s !! q = Some x -> 0 < q < nextpid s;
}.

(** A test process: it runs [r], it is not its own parent, and its children
    do nothing but exit. *)
Record tester (p : Z) (r : prog) (s : sys) : Prop := mktester {
  te_run : exists par, par <> p /\ table s !! p = Some (mkps par (Some r));
  te_kids : forall c x, table s !! c = Some x -> ps_parent x = p -> ps_run x = Some PExit \/ ps_run x = None;
}.

(** Changing an entry. *)
Lemma put_keeps_wf (m : gmap Z pstate) n c q x : is_Some (m !! q) -> wf (mksys m n c) -> forall c', wf (mksys (<[q := x]> m) n c').
Proof.
  intros [y Hy] [W1 W2] c'. constructor; cbn in *; [by rewrite map_size_insert_Some by eauto|]. intros i z Hz. apply lookup_insert_Some in Hz as [[<- _]|[_ Hz]]; by eapply W2.
Qed.

Lemma wf_step q s s' : pstep q s s' -> wf s -> wf s'.
Proof.
  intros HS W. pose proof W as [W1 W2]. destruct HS as [s par k Hq Hn|s par k Hq|s par k c Hq Hc|s par k Hq Hc|s par Hq|s par r k v Hq]; try (destruct s as [m n cs]; by eapply put_keeps_wf).
  - pose proof (W2 _ _ Hq) as Hq'. constructor; cbn [table nextpid].
    + rewrite map_size_insert_None, map_size_insert_Some by (eauto || (apply lookup_insert_None; split; [|lia]; destruct (table s !! nextpid s) eqn:E; [apply W2 in E; lia|done])). lia.
    + intros i x Hx. apply lookup_insert_Some in Hx as [[<- _]|[_ Hx]]; [lia|]. apply lookup_insert_Some in Hx as [[<- _]|[_ Hx]]; [lia|]. apply W2 in Hx. lia.
  - assert (W' : wf (mksys (<[q := mkps par (Some (k c))]> (table s)) (nextpid s) (calls s))) by (destruct s as [m n cs]; by eapply put_keeps_wf).
    destruct W' as [W1' W2']. constructor; cbn [table nextpid] in *; [rewrite map_size_delete; destruct (<[q:=_]> (table s) !! c); cbn; lia|]. intros i x Hx. apply lookup_delete_Some in Hx as [_ Hx]. by eapply W2'.
  - eapply put_keeps_wf with (c := calls s); [unfold reparent; rewrite lookup_fmap, Hq; eauto|]. constructor; cbn [table nextpid]; unfold reparent; [by rewrite map_size_fmap|].
    intros i x Hx. rewrite lookup_fmap in Hx. destruct (table s !! i) eqn:E; [|done]. by apply W2 in E.
Qed.

(** *** The children of [p], as other processes and [p] itself take steps *)

Lemma kids_put_other p (m : gmap Z pstate) i x : ps_parent x <> p -> (forall y, m !! i = Some y -> ps_parent y <> p) -> kids p (<[i := x]> m) = kids p m.
Proof. intros Hx Hm. unfold kids. rewrite map_filter_insert_False by done. rewrite map_filter_delete_not; [done|]. intros y Hy Hp. by eapply Hm. Qed.

Lemma kids_put p (m : gmap Z pstate) i x : ps_parent x = p -> kids p (<[i := x]> m) = <[i := x]> (kids p m).
Proof. intros Hx. unfold kids. by rewrite map_filter_insert_True. Qed.

Lemma kids_delete_other p (m : gmap Z pstate) i : (forall y, m !! i = Some y -> ps_parent y <> p) -> kids p (delete i m) = kids p m.
Proof. intros Hm. unfold kids. apply map_filter_delete_not. intros y Hy Hp. by eapply Hm. Qed.

Lemma kids_reparent p q (m : gmap Z pstate) : p <> q -> p <> 1 -> kids p (reparent q m) = kids p m.
Proof.
  intros Hq H1. apply map_eq. intros i. unfold kids, reparent. apply option_eq. intros x. rewrite !map_lookup_filter_Some, lookup_fmap. cbn. destruct (m !! i) as [y|]; [|naive_solver]. cbn.
  destruct (decide (ps_parent y = q)) as [E|E]; [|done]. split; intros [Hx Hp]; injection Hx as <-; cbn in *; congruence.
Qed.

Lemma kids_lookup p (m : gmap Z pstate) c x : kids p m !! c = Some x <-> m !! c = Some x /\ ps_parent x = p.
Proof. unfold kids. by rewrite map_lookup_filter_Some. Qed.

Lemma said_app p s m n q r : said p (mksys m n (calls s ++ [(q, r)])) = said p s ++ (if decide (q = p) then [r] else []).
Proof. unfold said. cbn [calls]. rewrite filter_app, fmap_app. f_equal. rewrite filter_cons, filter_nil. cbn. by destruct (decide (q = p)). Qed.

(** The view of [p] has not changed but for children that have exited. *)
Definition view_kept (p : Z) (r : prog) (s s' : sys) : Prop :=
  tester p r s' /\ kids p (table s') = kids p (table s) /\ said p s' = said p s.

(** Putting back the entry of another process that is not a child of [p]. *)
Lemma put_view p r s q par x n cs : q <> p -> par <> p -> (exists y, table s !! q = Some y /\ ps_parent y <> p) -> tester p r s ->
  said p (mksys (table s) n cs) = said p s -> view_kept p r s (mksys (<[q := mkps par x]> (table s)) n cs).
Proof.
  intros Hq Hpar (y & Hy & Hyp) [(pp & Hpp & Hp) HK] HC. split_and!; [|apply kids_put_other; [done|intros z Hz; rewrite Hy in Hz; by injection Hz as <-]|done].
  constructor; [exists pp; split; [done|]; cbn [table]; by rewrite lookup_insert_ne|]. cbn [table]. intros c z Hz Hzp.
  apply lookup_insert_Some in Hz as [[<- <-]|[_ Hz]]; [done|by eapply HK].
Qed.

Lemma reparent_lookup q (m : gmap Z pstate) i : reparent q m !! i = (fun x => if decide (ps_parent x = q) then mkps 1 (ps_run x) else x) <$> m !! i.
Proof. unfold reparent. apply lookup_fmap. Qed.

Lemma reparent_view p r s q : q <> p -> p <> 1 -> tester p r s -> tester p r (mksys (reparent q (table s)) (nextpid s) (calls s)).
Proof.
  intros Hq H1 [(pp & Hpp & Hp) HK]. constructor; cbn [table].
  - rewrite reparent_lookup, Hp. cbn. destruct (decide (pp = q)); [exists 1; split; [lia|done]|by exists pp].
  - intros c x Hx Hxp. rewrite reparent_lookup in Hx. destruct (table s !! c) as [y|] eqn:Ey; [|done]. cbn in Hx. injection Hx as <-. destruct (decide (ps_parent y = q)); cbn in *; [lia|by eapply HK].
Qed.

(** A step of a process that is neither [p] nor a child of it. *)
Lemma stranger_step p r q s s' : pstep q s s' -> q <> p -> p <> 1 -> wf s -> tester p r s -> (forall x, table s !! q = Some x -> ps_parent x <> p) -> view_kept p r s s'.
Proof.
  intros HS Hq H1 W HT HN. destruct HS as [s par k Hs Hn|s par k Hs|s par k c Hs Hc|s par k Hs Hc|s par Hs|s par rq k v Hs]; pose proof (HN _ Hs) as Hpar; cbn in Hpar.
  - destruct (put_view p r s q par (Some (k (nextpid s))) (nextpid s) (calls s) Hq Hpar ltac:(eauto) HT eq_refl) as (T1 & K1 & S1).
    assert (Hfresh : table s !! nextpid s = None) by (destruct (table s !! nextpid s) eqn:E; [apply (wf_pids s W) in E; lia|done]).
    assert (Hqn : q <> nextpid s) by (intros ->; congruence). assert (Hpn : p <> nextpid s) by (destruct HT as [(pp & _ & Hp) _]; intros ->; congruence).
    split_and!; [|cbn [table] in *; rewrite kids_put_other; [exact K1|done|]|done].
    + destruct T1 as [(pp & Hpp & Hp) HK]. constructor; cbn [table] in *; [exists pp; split; [done|]; by rewrite lookup_insert_ne by done|].
      intros c x Hx Hxp. apply lookup_insert_Some in Hx as [[<- <-]|[_ Hx]]; [done|by eapply HK].
    + intros y Hy. rewrite lookup_insert_ne in Hy by done. congruence.
  - apply put_view; eauto.
  - assert (Hcp : c <> p) by (destruct HT as [(pp & _ & Hp) _]; intros ->; congruence). destruct (put_view p r s q par (Some (k c)) (nextpid s) (calls s) Hq Hpar ltac:(eauto) HT eq_refl) as (T1 & K1 & S1).
    split_and!; [|cbn [table] in *; rewrite kids_delete_other; [exact K1|]|done].
    + destruct T1 as [(pp & Hpp & Hp) HK]. constructor; cbn [table] in *; [exists pp; split; [done|]; by rewrite lookup_delete_ne|]. intros d x Hx. apply lookup_delete_Some in Hx as [_ Hx]. by eapply HK.
    + intros y Hy. apply lookup_insert_Some in Hy as [[_ <-]|[_ Hy]]; [done|]. rewrite Hc in Hy. by injection Hy as <-.
  - apply put_view; eauto.
  - pose proof (reparent_view p r s q Hq H1 HT) as TR.
    destruct (put_view p r (mksys (reparent q (table s)) (nextpid s) (calls s)) q par None (nextpid s) (calls s) Hq Hpar) as (T1 & K1 & S1); [|done|done|].
    { cbn [table]. rewrite reparent_lookup, Hs. cbn. destruct (decide (par = q)); eexists; (split; [reflexivity|]); cbn; [lia|done]. }
    split_and!; [done| |done]. cbn [table] in *. by rewrite K1, kids_reparent.
  - apply put_view; eauto. rewrite said_app, decide_False by done. by rewrite app_nil_r.
Qed.

(** A step of a child of [p]: it exits. *)
Lemma kid_step p r q s s' : pstep q s s' -> q <> p -> p <> 1 -> tester p r s -> (exists x, table s !! q = Some x /\ ps_parent x = p) ->
  tester p r s' /\ size (kids p (table s')) = size (kids p (table s)) /\ (size (live_kids p (table s')) < size (live_kids p (table s)))%nat /\ said p s' = said p s.
Proof.
  intros HS Hq H1 HT (x & Hx & Hxp). pose proof HT as [(pp & Hpp & Hp) HK]. assert (Hx' : x = mkps p (Some PExit)).
  { destruct (HK q x Hx Hxp) as [E|E]; destruct x as [par run]; cbn in *; subst; [done|]. inversion HS; subst; congruence. }
  subst x. clear Hxp. inversion HS as [? ? ? Ht|? ? ? Ht|? ? ? ? Ht|? ? ? Ht|? par Ht|? ? ? ? ? Ht]; subst; rewrite Hx in Ht; try discriminate. injection Ht as <-.
  assert (HR : kids p (reparent q (table s)) = kids p (table s)) by (by apply kids_reparent). assert (Hkq : kids p (table s) !! q = Some (mkps p (Some PExit))) by (by apply kids_lookup).
  cbn [table]. split_and!; [|rewrite kids_put, HR by done; by rewrite map_size_insert_Some by eauto| |done].
  - destruct (reparent_view p r s q Hq H1 HT) as [(p2 & Hp2 & Hpe) HK2]. constructor; cbn [table] in *; [exists p2; split; [done|]; by rewrite lookup_insert_ne|].
    intros c z Hz Hzp. apply lookup_insert_Some in Hz as [[_ <-]|[_ Hz]]; [by right|by eapply HK2].
  - unfold live_kids. rewrite kids_put, HR by done. rewrite map_filter_insert_False by (cbn; by intros [? ?]).
    rewrite map_filter_delete. assert (HL : filter (fun x => is_Some (ps_run x.2)) (kids p (table s)) !! q = Some (mkps p (Some PExit))) by (apply map_lookup_filter_Some; split; [done|cbn; eauto]).
    rewrite map_size_delete, HL. cbn. assert (size (filter (fun x => is_Some (ps_run x.2)) (kids p (table s))) <> 0%nat); [|lia]. intros E. apply map_size_empty_inv in E. by rewrite E, lookup_empty in HL.
Qed.

(** *** Steps of [p] itself *)

Lemma own_put p r r' s n cs : tester p r s -> tester p r' (mksys (<[p := mkps (default 0 (ps_parent <$> table s !! p)) (Some r')]> (table s)) n cs) /\
  kids p (<[p := mkps (default 0 (ps_parent <$> table s !! p)) (Some r')]> (table s)) = kids p (table s).
Proof.
  intros [(pp & Hpp & Hp) HK]. rewrite Hp. cbn. split; [constructor; cbn [table]|apply kids_put_other; [done|intros y Hy; rewrite Hp in Hy; by injection Hy as <-]].
  - exists pp. split; [done|]. by rewrite lookup_insert_eq.
  - intros c x Hx Hxp. apply lookup_insert_Some in Hx as [[<- <-]|[_ Hx]]; [done|by eapply HK].
Qed.

Ltac own HS Hp := inversion HS as [? ? ? Ht ?|? ? ? Ht|? ? ? ? Ht Hz|? ? ? Ht Hz|? ? Ht|? ? ? ? ? Ht]; subst; rewrite Hp in Ht; try discriminate; injection Ht as <- <-.

Lemma own_call p r0 k s s' : tester p (PCall r0 k) s -> pstep p s s' -> exists v, tester p (k v) s' /\ kids p (table s') = kids p (table s) /\ said p s' = said p s ++ [r0].
Proof.
  intros HT HS. pose proof HT as [(pp & Hpp & Hp) HK]. inversion HS as [? ? ? Ht ?|? ? ? Ht|? ? ? ? Ht Hz|? ? ? Ht Hz|? ? Ht|? ? ? ? v Ht]; subst; rewrite Hp in Ht; try discriminate. injection Ht as <- <- <-.
  exists v. destruct (own_put p _ (k v) s (nextpid s) (calls s ++ [(p, r0)]) HT) as [T K]. rewrite Hp in T, K. cbn in T, K. split_and!; [done|done|]. by rewrite said_app, decide_True.
Qed.

Lemma own_fork p k s s' : wf s -> p <> 1 -> k 0 = PExit -> tester p (PFork k) s -> pstep p s s' -> said p s' = said p s /\
  (tester p (k (-1)) s' /\ kids p (table s') = kids p (table s) \/
   exists c, 0 < c /\ tester p (k c) s' /\ size (kids p (table s')) = S (size (kids p (table s))) /\ size (live_kids p (table s')) = S (size (live_kids p (table s)))).
Proof.
  intros W H1 Hk HT HS. pose proof HT as [(pp & Hpp & Hp) HK]. own HS Hp; (split; [done|]).
  - right. exists (nextpid s). pose proof (wf_pids s W _ _ Hp) as Hb. destruct (own_put p _ (k (nextpid s)) s (nextpid s + 1) (calls s) HT) as [T K]. rewrite Hp in T, K. cbn in T, K.
    assert (Hfresh : table s !! nextpid s = None) by (destruct (table s !! nextpid s) eqn:E; [apply (wf_pids s W) in E; lia|done]).
    assert (Hkf : kids p (table s) !! nextpid s = None) by (destruct (kids p (table s) !! nextpid s) eqn:E; [apply kids_lookup in E as [E _]; congruence|done]).
    cbn [table]. rewrite Hk. split_and!; [lia| |rewrite kids_put, K, map_size_insert_None by done; done|].
    + destruct T as [(p2 & Hp2 & Hpe) HK2]. constructor; cbn [table] in *; [exists p2; split; [done|]; rewrite lookup_insert_ne by lia; done|]. intros c x Hx Hxp. apply lookup_insert_Some in Hx as [[_ <-]|[_ Hx]]; [by left|by eapply HK2].
    + unfold live_kids. rewrite kids_put, K by done. rewrite map_filter_insert_True by (cbn; eauto). apply map_size_insert_None, map_lookup_filter_None. by left.
  - left. destruct (own_put p _ (k (-1)) s (nextpid s) (calls s) HT) as [T K]. rewrite Hp in T, K. by cbn in T, K.
Qed.

Lemma own_wait p k s s' : wf s -> tester p (PWait k) s -> pstep p s s' -> said p s' = said p s /\
  (tester p (k (-1)) s' /\ kids p (table s') = kids p (table s) /\ kids p (table s) = ∅ \/
   exists c, 0 < c /\ tester p (k c) s' /\ S (size (kids p (table s'))) = size (kids p (table s)) /\ size (live_kids p (table s')) = size (live_kids p (table s))).
Proof.
  intros W HT HS. pose proof HT as [(pp & Hpp & Hp) HK]. own HS Hp; (split; [done|]).
  - right. exists c. pose proof (wf_pids s W _ _ Hz) as Hb. assert (Hcp : c <> p) by (intros ->; congruence). destruct (own_put p _ (k c) s (nextpid s) (calls s) HT) as [T K]. rewrite Hp in T, K. cbn in T, K.
    assert (Hkc : kids p (table s) !! c = Some (mkps p None)) by (by apply kids_lookup).
    assert (HD : kids p (delete c (<[p := mkps pp (Some (k c))]> (table s))) = delete c (kids p (table s))) by (rewrite <- K; unfold kids; by rewrite map_filter_delete).
    cbn [table]. split_and!; [lia| |rewrite HD, map_size_delete, Hkc; cbn|].
    + destruct T as [(p2 & Hp2 & Hpe) HK2]. constructor; cbn [table] in *; [exists p2; split; [done|]; by rewrite lookup_delete_ne|]. intros d x Hx. apply lookup_delete_Some in Hx as [_ Hx]. by eapply HK2.
    + assert (size (kids p (table s)) <> 0%nat); [|lia]. intros E. apply map_size_empty_inv in E. by rewrite E, lookup_empty in Hkc.
    + unfold live_kids. rewrite HD, map_filter_delete_not; [done|]. intros y Hy. rewrite Hkc in Hy. injection Hy as <-. cbn. by intros [? ?].
  - left. destruct (own_put p _ (k (-1)) s (nextpid s) (calls s) HT) as [T K]. rewrite Hp in T, K. cbn in T, K. split_and!; [done|done|]. apply map_empty. intros i. destruct (kids p (table s) !! i) eqn:E; [|done]. apply kids_lookup in E as [E1 E2]. by apply Hz in E1.
Qed.

Lemma own_exit p s s' : p <> 1 -> wf s -> tester p PExit s -> pstep p s s' -> run_of p s' = None /\ kids p (table s') = ∅ /\ said p s' = said p s /\ p < nextpid s'.
Proof.
  intros H1 W [(pp & Hpp & Hp) HK] HS. inversion HS as [? ? ? Ht ?|? ? ? Ht|? ? ? ? Ht Hz|? ? ? Ht Hz|? ? Ht|? ? ? ? ? Ht]; subst; rewrite Hp in Ht; try discriminate. injection Ht as <-.
  split_and!; [unfold run_of; cbn [table]; by rewrite lookup_insert_eq| |done|apply (wf_pids s W _ _ Hp)]. cbn [table]. apply map_empty. intros i. destruct (kids p _ !! i) as [x|] eqn:E; [|done].
  apply kids_lookup in E as [E Ex]. apply lookup_insert_Some in E as [[_ <-]|[_ E]]; [done|]. rewrite reparent_lookup in E. destruct (table s !! i) as [y|]; [|done]. cbn in E. injection E as <-. by destruct (decide (ps_parent y = p)).
Qed.

(** A process that has exited, and has no children, stays so. *)
Definition gone (p : Z) (s : sys) : Prop := run_of p s = None /\ kids p (table s) = ∅ /\ p < nextpid s.

Lemma gone_step p q s s' : p <> 1 -> wf s -> gone p s -> pstep q s s' -> gone p s' /\ said p s' = said p s.
Proof.
  intros H1 W (HR & HK & HN) HS. assert (HKn : forall i x, table s !! i = Some x -> ps_parent x <> p).
  { intros i x Hi Hx. assert (E : kids p (table s) !! i = Some x) by (by apply kids_lookup). by rewrite HK, lookup_empty in E. }
  assert (Hqp : q <> p) by (intros ->; unfold run_of in HR; destruct HS as [? ? ? Ht|? ? ? Ht|? ? ? ? Ht|? ? ? Ht|? ? Ht|? ? ? ? ? Ht]; by rewrite Ht in HR).
  assert (HE : forall m, (forall i x, m !! i = Some x -> ps_parent x <> p) -> kids p m = ∅).
  { intros m Hm. apply map_empty. intros i. destruct (kids p m !! i) eqn:E; [|done]. apply kids_lookup in E as [E1 E2]. by apply Hm in E1. }
  unfold gone, run_of in *.
  destruct HS as [s par k Hs Hn|s par k Hs|s par k c Hs Hc|s par k Hs Hc|s par Hs|s par rq k v Hs]; pose proof (HKn _ _ Hs) as Hpar; cbn in Hpar; cbn [table nextpid];
    (split; [split_and!; [|apply HE|try done; lia]|try done; by rewrite said_app, decide_False, app_nil_r by done]).
  - rewrite !lookup_insert_ne by (done || lia). done.
  - intros i x Hx. apply lookup_insert_Some in Hx as [[_ <-]|[_ Hx]]; [done|]. apply lookup_insert_Some in Hx as [[_ <-]|[_ Hx]]; [done|]. by eapply HKn.
  - by rewrite lookup_insert_ne.
  - intros i x Hx. apply lookup_insert_Some in Hx as [[_ <-]|[_ Hx]]; [done|]. by eapply HKn.
  - destruct (decide (c = p)) as [->|]; [by rewrite lookup_delete_eq|]. rewrite lookup_delete_ne, lookup_insert_ne by done. done.
  - intros i x Hx. apply lookup_delete_Some in Hx as [_ Hx]. apply lookup_insert_Some in Hx as [[_ <-]|[_ Hx]]; [done|]. by eapply HKn.
  - by rewrite lookup_insert_ne.
  - intros i x Hx. apply lookup_insert_Some in Hx as [[_ <-]|[_ Hx]]; [done|]. by eapply HKn.
  - rewrite lookup_insert_ne, reparent_lookup by done. destruct (table s !! p) as [y|]; [|done]. cbn in *. by destruct (decide (ps_parent y = q)).
  - intros i x Hx. apply lookup_insert_Some in Hx as [[_ <-]|[_ Hx]]; [done|]. rewrite reparent_lookup in Hx. destruct (table s !! i) as [y|] eqn:Ey; [|done]. cbn in Hx. injection Hx as <-. destruct (decide (ps_parent y = q)); [cbn; lia|by eapply HKn].
  - by rewrite lookup_insert_ne.
  - intros i x Hx. apply lookup_insert_Some in Hx as [[_ <-]|[_ Hx]]; [done|]. by eapply HKn.
Qed.

Lemma kids_bound p r s : wf s -> tester p r s -> (size (kids p (table s)) < 64)%nat.
Proof.
  intros W [(pp & Hpp & Hp) _]. assert (HS : kids p (table s) ⊆ delete p (table s)).
  { apply map_subseteq_spec. intros i x Hx. apply kids_lookup in Hx as [Hx Hxp]. apply lookup_delete_Some. split; [|done]. intros ->. rewrite Hp in Hx. injection Hx as <-. done. }
  apply map_subseteq_size in HS. rewrite map_size_delete, Hp in HS. cbn in HS. pose proof (wf_size s W) as HW. change (Z.to_nat NPROC) with 64%nat in HW.
  assert (size (table s) <> 0%nat); [|lia]. intros E. apply map_size_empty_inv in E. by rewrite E, lookup_empty in Hp.
Qed.

Lemma live_le p m : (size (live_kids p m) <= size (kids p m))%nat.
Proof. apply map_subseteq_size, map_filter_subseteq. Qed.

(** ** [forktest] passes *)

(** Where [forktest] is: a bound on the steps it still takes, the number of its
    children, what is left of it and what it has printed. *)
Inductive ft_phase : nat -> nat -> prog -> list req -> Prop :=
  | fp_begin : ft_phase 4000 0 forktest []
  | fp_forks todo n : (todo + n = FT_N)%nat -> ft_phase (3 * todo + 900) n (ft_forks todo n) [Write 1 ft_begin]
  | fp_waits n : ft_phase (2 * n + 10) n (ft_waits n) [Write 1 ft_begin]
  | fp_ok : ft_phase 5 0 (fputs ft_ok PExit) [Write 1 ft_begin]
  | fp_exit : ft_phase 2 0 PExit [Write 1 ft_begin; Write 1 ft_ok].

Inductive ft_at (p : Z) (s : sys) : nat -> Prop :=
  | ft_running b n r l : ft_phase b n r l -> tester p r s -> size (kids p (table s)) = n -> said p s = l -> ft_at p s (b + size (live_kids p (table s)))
  | ft_done : gone p s -> said p s = [Write 1 ft_begin; Write 1 ft_ok] -> ft_at p s 0.

(** The process [q] is the test or a child of it. *)
Definition own (p : Z) (s : sys) (q : Z) : Prop := q = p \/ exists x, table s !! q = Some x /\ ps_parent x = p.

Lemma ft_moves p s' b n r l m : ft_phase b n r l -> tester p r s' -> size (kids p (table s')) = n -> said p s' = l ->
  (b + size (live_kids p (table s')) < m)%nat -> exists m', ft_at p s' m' /\ (m' < m)%nat.
Proof. intros HP HT HK HS Hm. eexists. split; [by eapply ft_running|done]. Qed.

(** A step of the test itself. *)
Lemma ft_own p s s' m : p <> 1 -> wf s -> ft_at p s m -> pstep p s s' -> exists m', ft_at p s' m' /\ (m' < m)%nat.
Proof.
  intros H1 W HA HS. destruct HA as [b n r l HP HT HK HL|HG HL].
  2: { destruct HG as (HR & _ & _). exfalso. unfold run_of in HR. destruct HS as [? ? ? Ht|? ? ? Ht|? ? ? ? Ht|? ? ? Ht|? ? Ht|? ? ? ? ? Ht]; by rewrite Ht in HR. }
  pose proof (kids_bound p r s W HT) as HB. pose proof (live_le p (table s)) as HLe. destruct HP as [|todo n Hn|n| |].
  - destruct (own_call _ _ _ _ _ HT HS) as (v & T & K & SD). eapply (ft_moves p s' _ _ _ _ _ (fp_forks FT_N 0 eq_refl)); [done|congruence|by rewrite SD, HL|]. unfold live_kids in *. rewrite K. change FT_N with 1000%nat. lia.
  - assert (HN : FT_N = 1000%nat) by done. destruct todo as [|todo]; [lia|]. cbn [ft_forks] in HT. destruct (own_fork p _ s s' W H1 eq_refl HT HS) as (SD & [(T & K)|(c & Hc & T & K & L)]).
    + cbn in T. unfold ft_after in T. replace (n =? FT_N)%nat with false in T by (symmetry; apply Nat.eqb_neq; lia). eapply (ft_moves p s' _ _ _ _ _ (fp_waits n)); [done|congruence|congruence|]. unfold live_kids in *. rewrite K. lia.
    + replace (c <? 0) with false in T by lia. replace (c =? 0) with false in T by lia. eapply (ft_moves p s' _ _ _ _ _ (fp_forks todo (S n) ltac:(lia))); [done|congruence|congruence|]. rewrite L. lia.
  - destruct n as [|n]; cbn [ft_waits] in HT; destruct (own_wait p _ s s' W HT HS) as (SD & [(T & K & E)|(c & Hc & T & K & L)]).
    + cbn in T. eapply (ft_moves p s' _ _ _ _ _ fp_ok); [done|congruence|congruence|]. pose proof (live_le p (table s')) as HLe'. rewrite K, E, map_size_empty in HLe'. lia.
    + lia.
    + rewrite E, map_size_empty in HK. lia.
    + replace (c <? 0) with false in T by lia. eapply (ft_moves p s' _ _ _ _ _ (fp_waits n)); [done|lia|congruence|]. rewrite L. lia.
  - destruct (own_call _ _ _ _ _ HT HS) as (v & T & K & SD). eapply (ft_moves p s' _ _ _ _ _ fp_exit); [done|congruence|by rewrite SD, HL|]. unfold live_kids in *. rewrite K. lia.
  - destruct (own_exit p s s' H1 W HT HS) as (R & K & SD & N). exists 0%nat. split; [|lia]. apply ft_done; [by split_and!|congruence].
Qed.

Lemma ft_step p q s s' m : p <> 1 -> wf s -> ft_at p s m -> pstep q s s' -> exists m', ft_at p s' m' /\ (m' <= m)%nat /\ (own p s q -> (m' < m)%nat).
Proof.
  intros H1 W HA HS. destruct (decide (q = p)) as [->|Hq].
  { destruct (ft_own p s s' m H1 W HA HS) as (m' & HA' & Hm). exists m'. split_and!; [done|lia|done]. }
  destruct HA as [b n r l HP HT HK HL|HG HL].
  - assert (HX : (exists x, table s !! q = Some x /\ ps_parent x = p) \/ (forall x, table s !! q = Some x -> ps_parent x <> p)).
    { destruct (table s !! q) as [x|]; [|by right]. destruct (decide (ps_parent x = p)); [left; eauto|right; congruence]. }
    destruct HX as [HX|HX].
    + destruct (kid_step p r q s s' HS Hq H1 HT HX) as (T & K & L & SD). eexists. split; [apply (ft_running p s' _ _ _ _ HP T); congruence|]. split; [lia|intros _; lia].
    + destruct (stranger_step p r q s s' HS Hq H1 W HT HX) as (T & K & SD). eexists. split; [apply (ft_running p s' _ _ _ _ HP T); congruence|]. unfold live_kids. rewrite K. split; [lia|]. intros [->|(x & Ex & Px)]; [done|]. by apply HX in Ex.
  - destruct (gone_step p q s s' H1 W HG HS) as [HG' SD]. exists 0%nat. split_and!; [by apply ft_done; [|congruence]|lia|]. intros [->|(x & Ex & Px)]; [done|].
    assert (E : kids p (table s) !! q = Some x) by (by apply kids_lookup). destruct HG as (_ & HK & _). by rewrite HK, lookup_empty in E.
Qed.

(** A run of the system from [s]: [n] counts the steps of the test and of its
    children. *)
Inductive runs (p : Z) (s : sys) : nat -> sys -> Prop :=
  | runs_none : runs p s 0 s
  | runs_own n s1 s2 q : runs p s n s1 -> pstep q s1 s2 -> own p s1 q -> runs p s (S n) s2
  | runs_other n s1 s2 q : runs p s n s1 -> pstep q s1 s2 -> ~ own p s1 q -> runs p s n s2.

(** As long as the test has not ended, it or one of its children can go on. *)
Lemma ft_progress p s m : wf s -> ft_at p s m -> run_of p s <> None -> exists q s', own p s q /\ pstep q s s'.
Proof.
  intros W HA HR. destruct HA as [b n r l HP HT HK HL|[HG _] _]; [|done]. pose proof HT as [(pp & Hpp & Hp) HKs].
  assert (HC : forall rq k, r = PCall rq k -> exists q s', own p s q /\ pstep q s s') by (intros rq k ->; eexists p, _; split; [by left|exact (st_call p s pp rq k 0 Hp)]).
  assert (HW : forall k, r = PWait k -> exists q s', own p s q /\ pstep q s s').
  { intros k ->. destruct (decide (kids p (table s) = ∅)) as [E|E].
    - eexists p, _. split; [by left|]. eapply (st_wait_none p s pp k Hp). intros c x Hx Hxp. assert (Ek : kids p (table s) !! c = Some x) by (by apply kids_lookup). by rewrite E, lookup_empty in Ek.
    - apply map_choose in E as (c & x & Ex). apply kids_lookup in Ex as [Ex Exp]. destruct (HKs c x Ex Exp) as [Er|Er]; destruct x as [par run]; cbn in *; subst.
      + eexists c, _. split; [right; eauto|]. exact (st_exit c s p Ex).
      + eexists p, _. split; [by left|]. exact (st_wait p s pp k c Hp Ex). }
  destruct HP as [|[|todo] n Hn|[|n]| |]; try (by eapply HC); try (by eapply HW).
  - pose proof (kids_bound p _ s W HT). change FT_N with 1000%nat in Hn. lia.
  - eexists p, _. split; [by left|]. exact (st_fork_fails p s pp _ Hp).
  - eexists p, _. split; [by left|]. exact (st_exit p s pp Hp).
Qed.

(** C39. [forktest] passes under every scheduling.  In the system of [pstep],
    where processes fork, exit, wait and make other calls and none is killed
    by another, whenever [fork] fails for lack of memory or because the table is
    full, and in whatever order the processes take their steps: the test and
    its children take at most 4000 steps; as long as the test has not ended one
    of them can go on; it prints nothing but the announcement and then, when it
    ends, the message of success. *)
Theorem forktest_passes p par s0 n s :
  p <> 1 -> par <> p -> wf s0 -> table s0 !! p = Some (mkps par (Some forktest)) -> kids p (table s0) = ∅ -> said p s0 = [] -> runs p s0 n s ->
  (n <= 4000)%nat /\ (run_of p s <> None -> exists q s', own p s q /\ pstep q s s') /\
  (exists k, said p s = take k [Write 1 ft_begin; Write 1 ft_ok]) /\ (run_of p s = None -> said p s = [Write 1 ft_begin; Write 1 ft_ok]).
Proof.
  intros H1 Hpar W0 Hp HK HS HR. assert (HI : wf s /\ exists m, ft_at p s m /\ (n + m <= 4000)%nat).
  { induction HR as [|n s1 s2 q HR IH Hst Ho|n s1 s2 q HR IH Hst Ho].
    - split; [done|]. exists (4000 + size (live_kids p (table s0)))%nat. split; [|pose proof (live_le p (table s0)) as HLe; rewrite HK, map_size_empty in HLe; lia]. eapply (ft_running p s0 _ _ _ _ fp_begin); [|by rewrite HK|done].
      constructor; [by exists par|]. intros c x Hx Hxp. assert (E : kids p (table s0) !! c = Some x) by (by apply kids_lookup). by rewrite HK, lookup_empty in E.
    - destruct IH as (W & m & HA & Hm). split; [by eapply wf_step|]. destruct (ft_step p q s1 s2 m H1 W HA Hst) as (m' & HA' & _ & Hlt). specialize (Hlt Ho). exists m'. split; [done|lia].
    - destruct IH as (W & m & HA & Hm). split; [by eapply wf_step|]. destruct (ft_step p q s1 s2 m H1 W HA Hst) as (m' & HA' & Hle & _). exists m'. split; [done|lia]. }
  destruct HI as (W & m & HA & Hm). split_and!; [lia|by eapply ft_progress| |].
  - destruct HA as [b k r l HP HT _ HL|_ HL]; [|by exists 2%nat]. rewrite HL. destruct HP; [by exists 0%nat|by exists 1%nat|by exists 1%nat|by exists 1%nat|by exists 2%nat].
  - intros HN. destruct HA as [b k r l HP [(pp & _ & HT) _] _ HL|_ HL]; [|done]. unfold run_of in HN. by rewrite HT in HN.
Qed.

(** ** Programs of the scheduling exercise ([schedTest.c], [sf.c], [ps.c], [myproc.c]) *)

(** [printf] of the library writes a character at a time. *)
Definition uprint (fd : Z) (l : list Z) (k : prog) : prog := foldr (fun c k => PCall (Write fd [c]) (fun _ => k)) k l.
Definition call (r : req) (k : prog) : prog := PCall r (fun _ => k).

Fixpoint repeatp (n : nat) (body : prog -> prog) (k : prog) : prog := match n with O => k | S n => body (repeatp n body k) end.
Definition waits (n : nat) (k : prog) : prog := repeatp n (fun k => PWait (fun _ => k)) k.

Definition NCHILD : nat := 5.
(** The queues as [user.h] numbers them. *)
Definition U_PRIORITY : Z := 1.
Definition U_SJF : Z := 2.
Definition U_LOTTERY : Z := 3.

(** The loops of the tests: children number [i] to the end are made as long as
    the last [fork] gave a pid; [set] is what is done with each, and the
    continuation gets [pid] and the [i] at which a child left the loop. *)
Fixpoint make_children (todo : nat) (i pid : Z) (set : Z -> Z -> prog -> prog) (k : Z -> Z -> prog) : prog :=
  match todo with
  | O => k pid i
  | S todo =>
      if 0 <? pid then
        PFork (fun pid =>
          let next := if pid =? 0 then k pid i else make_children todo (i + 1) pid set k in
          if 0 <? pid then set i pid next else next)
      else make_children todo (i + 1) pid set k
  end.

Definition fork_error : list Z := chars_of "fork error" ++ [10].

(** The body of a child that computes. *)
Definition busy_child (n : nat) (d : Z) (k : prog) : prog :=
  PCall Getpid (fun me => repeatp n (call (Delay d)) (uprint 1 (uint_chars me 10 true ++ [10]) k)).

Definition priorityTest (k : prog) : prog :=
  PCall Getpid (fun me => call (SetQueue U_PRIORITY me) (
  PCall Getpid (fun me => call (SetPriority 0 me) (
  PCall Getpid (fun me =>
    make_children (NCHILD - 1) 1 me (fun i pid k => call (SetQueue U_PRIORITY pid) (call (SetPriority (10 - i) pid) k)) (fun pid _ =>
      if pid <? 0 then uprint 2 fork_error k
      else if pid =? 0 then busy_child (200 * 1000) 200000000 k
      else waits NCHILD (PCall Getpid (fun me => uprint 1 (chars_of "Main user program finished pid " ++ uint_chars me 10 true ++ [10]) k)))))))).

Definition SJFTest (k : prog) : prog :=
  PCall Getpid (fun me =>
  PCall Getpid (fun me' => call (SetQueue U_SJF me') (
    make_children (NCHILD - 1) 1 me (fun i pid k => call (SetQueue U_SJF pid) (call (SetBurst (10 + 2 * i) pid) k)) (fun pid _ =>
      if pid <? 0 then uprint 2 fork_error k
      else if pid =? 0 then busy_child (20 * 1000) 200000000 k
      else waits (NCHILD + 1) (PCall Getpid (fun me => uprint 1 (chars_of "Main user program finished pid " ++ uint_chars me 10 true ++ [10]) k)))))).

Definition lotteryTest (k : prog) : prog :=
  PCall Getpid (fun me =>
    make_children (NCHILD - 1) 1 me (fun i pid k => call (SetQueue U_LOTTERY pid) (call (SetTickets (10 - i) pid) k)) (fun pid _ =>
      if pid <? 0 then uprint 2 fork_error k
      else if pid =? 0 then busy_child (20 * 1000 * 1000) 2000000000 k
      else waits NCHILD k)).

Definition mlq_set (i pid : Z) (k : prog) : prog :=
  if i <? 5 then call (SetQueue U_PRIORITY pid) (call (SetPriority (5 * 3 - i) pid) k)
  else if i <? 5 * 2 then call (SetQueue U_SJF pid) (call (SetBurst (5 * 5 - i) pid) k)
  else if i <? 5 * 3 then call (SetQueue U_LOTTERY pid) (call (SetTickets (5 * 4 - i) pid) k)
  else k.

(** What the processes do after the loop: a child that computes, a child that
    does not, and the parent. *)
Definition mlq_busy (k : prog) : prog :=
  repeatp (250 * 1000) (call (Delay 2000000000)) (PCall Getpid (fun me => uprint 1 (chars_of "pid " ++ uint_chars me 10 true ++ chars_of " finished" ++ [10]) k)).
Definition mlq_idle (k : prog) : prog :=
  PCall Getpid (fun me => uprint 1 (chars_of "IO bound process with pid " ++ uint_chars me 10 true ++ chars_of " finished" ++ [10]) k).
Definition mlq_parent (k : prog) : prog :=
  call ShowSched (waits (NCHILD * 3) (PCall Getpid (fun me => uprint 1 (chars_of "main program with pid " ++ uint_chars me 10 true ++ chars_of " finished" ++ [10]) k))).
Definition mlq_rest (k : prog) (pid i : Z) : prog :=
  let queue := if pid =? 0 then (if i <? 5 then U_PRIORITY else if i <? 5 * 2 then U_SJF else U_LOTTERY) else U_LOTTERY in
  if pid <? 0 then uprint 2 fork_error k
  else if (pid =? 0) && ((queue =? U_LOTTERY) || (queue =? U_SJF)) then mlq_busy k
  else if (pid =? 0) && (queue =? U_PRIORITY) then mlq_idle k
  else mlq_parent k.

Definition multilevelQueue (k : prog) : prog := PCall Getpid (fun me => make_children (3 * NCHILD) 0 me mlq_set (mlq_rest k)).

Definition schedTest_main : prog := PCall Getpid (fun me => call (SetTickets 50 me) (multilevelQueue PExit)).

(** What a process with pid [me] asks of the kernel when its calls of [fork]
    return [forks]. *)
Fixpoint requests (me : Z) (p : prog) (forks : list Z) : list req :=
  match p with
  | PExit => []
  | PFork k => match forks with [] => [] | f :: forks => requests me (k f) forks end
  | PWait k => requests me (k (-1)) forks
  | PCall r k => r :: requests me (k (match r with Getpid => me | _ => 0 end)) forks
  end.

(** What is asked for child number [i]. *)
Definition mlq_acts (i : nat) (pid : Z) : list req :=
  if (i <? 5)%nat then [SetQueue U_PRIORITY pid; SetPriority (15 - Z.of_nat i) pid]
  else if (i <? 10)%nat then [SetQueue U_SJF pid; SetBurst (25 - Z.of_nat i) pid]
  else [SetQueue U_LOTTERY pid; SetTickets (20 - Z.of_nat i) pid].

Lemma last_cons_default (l : list Z) : forall x d, List.last (x :: l) d = List.last l x.
Proof. induction l as [|y l IH]; intros x d; [done|]. transitivity (List.last l y); [exact (IH y d)|symmetry; exact (IH y x)]. Qed.

Lemma make_children_requests me set acts (k : Z -> Z -> prog) :
  (forall i pid next forks, (i < 15)%nat -> requests me (set (Z.of_nat i) pid next) forks = acts i pid ++ requests me next forks) ->
  forall pids i pid, 0 < pid -> Forall (fun x => 0 < x) pids -> (i + length pids <= 15)%nat ->
  requests me (make_children (length pids) (Z.of_nat i) pid set k) pids = concat (imap (fun j x => acts (i + j)%nat x) pids) ++ requests me (k (List.last pids pid) (Z.of_nat (i + length pids))) [].
Proof.
  intros HS. induction pids as [|x pids IH]; intros i pid Hp HA Hi; cbn [length make_children].
  - cbn. by rewrite Nat.add_0_r.
  - apply Forall_cons in HA as [Hx HA]. replace (0 <? pid) with true by lia. cbn [requests]. replace (x =? 0) with false by lia. replace (0 <? x) with true by lia. cbv zeta.
    cbn [length] in Hi. rewrite HS by lia. rewrite imap_cons. cbn [concat]. rewrite Nat.add_0_r, <- app_assoc. f_equal.
    replace (Z.of_nat i + 1) with (Z.of_nat (S i)) by lia. rewrite IH by (done || lia). f_equal.
    + f_equal. apply imap_ext. intros j y _. cbn. by rewrite Nat.add_succ_r.
    + replace (S i + length pids)%nat with (i + S (length pids))%nat by lia. by rewrite last_cons_default.
Qed.

Definition no_queue (r : req) : Prop := match r with SetQueue _ _ => False | _ => True end.

Lemma uprint_quiet me fd l : Forall no_queue (requests me (uprint fd l PExit) []).
Proof. induction l as [|c l IH]; [constructor|]. cbn. by constructor. Qed.

Lemma mlq_rest_parent k pid i : 0 < pid -> mlq_rest k pid i = mlq_parent k.
Proof. intros Hp. unfold mlq_rest. destruct (Z.ltb_spec pid 0); [lia|]. by destruct (Z.eqb_spec pid 0); [lia|]. Qed.

Lemma mlq_parent_quiet me : Forall no_queue (requests me (mlq_parent PExit) []).
Proof. unfold mlq_parent, waits. cbn [repeatp requests call NCHILD Nat.mul Nat.add]. constructor; [done|]. constructor; [done|]. apply uprint_quiet. Qed.

Lemma mlq_set_requests me i pid next forks : (i < 15)%nat -> requests me (mlq_set (Z.of_nat i) pid next) forks = mlq_acts i pid ++ requests me next forks.
Proof.
  intros Hi. unfold mlq_set, mlq_acts. change (5 * 2) with 10. change (5 * 3) with 15. change (5 * 5) with 25. change (5 * 4) with 20.
  destruct (i <? 5)%nat eqn:E1; [replace (Z.of_nat i <? 5) with true by lia; done|]. replace (Z.of_nat i <? 5) with false by lia.
  destruct (i <? 10)%nat eqn:E2; [replace (Z.of_nat i <? 10) with true by lia; done|]. replace (Z.of_nat i <? 10) with false by lia. by replace (Z.of_nat i <? 15) with true by lia.
Qed.

Lemma mlq_requests me pids k : 0 < me -> length pids = (3 * NCHILD)%nat -> Forall (fun x => 0 < x) pids ->
  requests me (make_children (3 * NCHILD) 0 me mlq_set k) pids = concat (imap mlq_acts pids) ++ requests me (k (List.last pids me) (Z.of_nat (3 * NCHILD))) [].
Proof.
  intros Hm Hl HA. rewrite <- Hl. exact (make_children_requests me mlq_set mlq_acts k (mlq_set_requests me) pids 0 me Hm HA ltac:(rewrite Hl; cbn; lia)).
Qed.

Lemma schedTest_unfold me pids : requests me schedTest_main pids = [Getpid; SetTickets 50 me; Getpid] ++ requests me (make_children (3 * NCHILD) 0 me mlq_set (mlq_rest PExit)) pids.
Proof. reflexivity. Qed.

(** [schedTest] gives its first five children to the queue it calls PRIORITY,
    with falling priorities, the next five to SJF and the last five to LOTTERY;
    nothing else it asks concerns them. *)
Lemma schedTest_requests me pids : 0 < me -> length pids = (3 * NCHILD)%nat -> Forall (fun x => 0 < x) pids ->
  exists rest, requests me schedTest_main pids = [Getpid; SetTickets 50 me; Getpid] ++ concat (imap mlq_acts pids) ++ rest /\ Forall no_queue rest.
Proof.
  intros Hm Hl HA. exists (requests me (mlq_parent PExit) []). split; [|apply mlq_parent_quiet]. rewrite schedTest_unfold. f_equal. rewrite mlq_requests by done. f_equal. rewrite mlq_rest_parent; [done|].
  revert me Hm. clear Hl. induction HA as [|x l Hx HA IH]; intros me Hm; [done|]. rewrite last_cons_default. by apply IH.
Qed.

(** What the kernel does with the requests on scheduling. *)
Definition apply_req (r : req) (ps : list proc) : list proc :=
  match r with
  | SetQueue q x => find_and_set_sched_queue q x ps
  | SetPriority n x => find_and_set_priority n x ps
  | SetBurst n x => find_and_set_burst_time n x ps
  | SetTickets n x => find_and_set_lottery_ticket n x ps
  | _ => ps
  end.
Definition apply_reqs (l : list req) (ps : list proc) : list proc := fold_left (fun ps r => apply_req r ps) l ps.

Lemma update_pid_In f x ps p' : (forall p, pid (f p) = pid p) -> p' ∈ update_pid f x ps -> exists p, p ∈ ps /\ pid p' = pid p /\ (p' = p \/ p' = f p /\ pid p = x).
Proof.
  intros Hf. induction ps as [|p ps IH]; cbn [update_pid]; intros Hin; [by apply elem_of_nil in Hin|]. destruct (Z.eqb_spec x (pid p)) as [->|E]; apply elem_of_cons in Hin as [->|Hin].
  - exists p. split_and!; [by left|apply Hf|by right].
  - exists p'. split_and!; [by right|done|by left].
  - exists p. split_and!; [by left|done|by left].
  - destruct (IH Hin) as (p0 & H1 & H2 & H3). exists p0. split_and!; [by right|done|done].
Qed.

Lemma update_pid_pids f x ps : (forall p, pid (f p) = pid p) -> pid <$> update_pid f x ps = pid <$> ps.
Proof. intros Hf. induction ps as [|p ps IH]; [done|]. cbn. destruct (x =? pid p); cbn; [by rewrite Hf|by rewrite IH]. Qed.

(** The process with pid [x] has the queue [q]. *)
Definition queue_is (x q : Z) (ps : list proc) : Prop := forall p, p ∈ ps -> pid p = x -> schedQueue p = q.

(** No two slots have the same pid, but for those with pid 0, which are unused. *)
Definition pids_distinct (ps : list proc) : Prop := NoDup (filter (fun x => x <> 0) (pid <$> ps)).

Lemma set_queue_is q x ps : x <> 0 -> pids_distinct ps -> queue_is x q (find_and_set_sched_queue q x ps).
Proof.
  unfold pids_distinct. intros H0 HN. induction ps as [|p ps IH]; intros p' Hin Hp; [by apply elem_of_nil in Hin|]. cbn [fmap list_fmap] in HN.
  rewrite filter_cons in HN. cbn in Hin. destruct (Z.eqb_spec x (pid p)) as [E|E]; apply elem_of_cons in Hin as [->|Hin]; [done| |congruence|].
  - exfalso. rewrite decide_True in HN by congruence. apply NoDup_cons in HN as [Hp0 _]. apply Hp0.
    rewrite <- E, <- Hp. apply list_elem_of_filter. split; [congruence|by apply list_elem_of_fmap_2].
  - case_decide; [apply NoDup_cons in HN as [_ HN]|]; by apply IH.
Qed.

Lemma apply_pids r ps : pid <$> apply_req r ps = pid <$> ps.
Proof. destruct r; try done; by apply update_pid_pids. Qed.

Lemma apply_keeps x q r ps : (forall q', r <> SetQueue q' x) -> queue_is x q ps -> queue_is x q (apply_req r ps).
Proof.
  intros Hr HQ p' Hin Hp. destruct r; try (by apply HQ); cbn in Hin; unfold find_and_set_sched_queue, find_and_set_priority, find_and_set_burst_time, find_and_set_lottery_ticket in Hin;
    (apply update_pid_In in Hin; [|by intros ?]); destruct Hin as (p & Hin' & E & [->|[-> Ex]]); try (by apply HQ);
    [exfalso; apply (Hr queue); congruence|..]; cbn in *; apply HQ; congruence.
Qed.

Lemma applys_keep x q l : Forall (fun r => forall q', r <> SetQueue q' x) l -> forall ps, queue_is x q ps -> queue_is x q (apply_reqs l ps).
Proof. induction 1 as [|r l Hr HF IH]; intros ps HQ; [done|]. cbn. apply IH. by apply apply_keeps. Qed.

Lemma applys_pids l : forall ps, pid <$> apply_reqs l ps = pid <$> ps.
Proof. induction l as [|r l IH]; intros ps; [done|]. cbn. by rewrite IH, apply_pids. Qed.

Lemma acts_other x pids i : x ∉ pids -> Forall (fun r => forall q', r <> SetQueue q' x) (concat (imap (fun j y => mlq_acts (i + j)%nat y) pids)).
Proof.
  revert i. induction pids as [|y pids IH]; intros i Hx; [constructor|]. apply not_elem_of_cons in Hx as [Hxy Hx]. rewrite imap_cons. cbn [concat]. apply Forall_app. split.
  - unfold mlq_acts. destruct (_ <? 5)%nat; [|destruct (_ <? 10)%nat]; repeat constructor; congruence.
  - rewrite (imap_ext _ (fun j z => mlq_acts (S i + j) z)) by (intros j z _; cbn; by rewrite Nat.add_succ_r). by apply IH.
Qed.

Lemma apply_reqs_app l1 l2 ps : apply_reqs (l1 ++ l2) ps = apply_reqs l2 (apply_reqs l1 ps).
Proof. apply fold_left_app. Qed.

Lemma starved_queue me l1 l2 x rest ps : (10 <= length l1)%nat -> x ∉ l2 -> Forall no_queue rest -> x <> 0 -> pids_distinct ps ->
  queue_is x U_LOTTERY (apply_reqs ([Getpid; SetTickets 50 me; Getpid] ++ concat (imap mlq_acts (l1 ++ x :: l2)) ++ rest) ps).
Proof.
  intros H10 Hx HR H0 HN. rewrite imap_app, imap_cons, concat_app. cbn [concat]. rewrite <- !app_assoc, !apply_reqs_app.
  apply applys_keep; [eapply Forall_impl; [exact HR|]; by intros [] Hr q'; try done|].
  apply applys_keep.
  - rewrite (imap_ext _ (fun j y => mlq_acts (S (length l1) + j) y)) by (intros j y _; cbn; by rewrite Nat.add_succ_r). by apply acts_other.
  - unfold mlq_acts at 1. replace (length l1 + 0 <? 5)%nat with false by lia. replace (length l1 + 0 <? 10)%nat with false by lia.
    assert (HX : pids_distinct (apply_reqs (concat (imap mlq_acts l1)) (apply_reqs [Getpid; SetTickets 50 me; Getpid] ps))) by (unfold pids_distinct; by rewrite !applys_pids).
    revert HX. generalize (apply_reqs (concat (imap mlq_acts l1)) (apply_reqs [Getpid; SetTickets 50 me; Getpid] ps)). intros qs HX. cbn [apply_reqs fold_left]. apply apply_keeps; [done|]. by apply set_queue_is.
Qed.

(** C40. The children that [schedTest] puts into the queue LOTTERY are never
    run: [user.h] calls number 3 what the kernel calls number 2.  Whatever table
    the kernel has, its used slots having different pids, after the requests
    that the test makes for the fifteen children it has forked, and while the
    tickets are in range, the scheduler chooses none of the last five. *)
Theorem lottery_children_starve me pids ticks ps j p :
  0 < me -> length pids = (3 * NCHILD)%nat -> Forall (fun x => 0 < x) pids -> NoDup pids -> pids_distinct ps ->
  let ps' := apply_reqs (requests me schedTest_main pids) ps in
  tickets_ok ps' -> sched_choice ticks ps' = Some (Some j) -> ps' !! j = Some p -> pid p ∉ drop 10 pids.
Proof.
  intros Hm Hl HA HN HP ps' Hok Hc Hj Hin. destruct (schedTest_requests me pids Hm Hl HA) as (rest & ER & HR).
  apply list_elem_of_lookup in Hin as [i Hi]. rewrite lookup_drop in Hi. pose proof (take_drop_middle pids _ _ Hi) as ES.
  assert (HQ : queue_is (pid p) U_LOTTERY ps').
  { unfold ps'. rewrite ER. rewrite <- ES in HN |- *. apply NoDup_app in HN as (_ & _ & HN). apply NoDup_cons in HN as [HN _].
    apply (starved_queue me (take (10 + i) pids) (drop (S (10 + i)) pids) (pid p) rest ps); try done; [rewrite length_take; apply lookup_lt_Some in Hi; lia|].
    pose proof (proj1 (Forall_lookup _ _) HA _ _ Hi) as Hpos. cbn in Hpos. lia. }
  apply (proj2 (proj2 (proj2 (queue_names_shifted ticks ps' j))) Hok Hc p Hj). apply HQ; [by eapply list_elem_of_lookup_2|done].
Qed.

(** ** Examples *)
Module ProgsSample.

(** [init], a shell that waits, and the test, which has just begun. *)
Definition idle : prog := PCall (Sleep 100) (fun _ => PExit).
Definition three : gmap Z pstate := {[1 := mkps 0 (Some idle); 2 := mkps 1 (Some (PWait (fun _ => PExit))); 3 := mkps 2 (Some forktest)]}.
Definition start : sys := mksys three 4 [].
Definition begun : sys := mksys (<[3 := mkps 2 (Some (ft_forks FT_N 0))]> three) 4 [(3, Write 1 ft_begin)].

Lemma forktest_passes_witness :
  runs 3 start 1 begun /\ (1 <= 4000)%nat /\ (run_of 3 begun <> None -> exists q s', own 3 begun q /\ pstep q begun s') /\
  (exists k, said 3 begun = take k [Write 1 ft_begin; Write 1 ft_ok]) /\ (run_of 3 begun = None -> said 3 begun = [Write 1 ft_begin; Write 1 ft_ok]).
Proof.
  assert (HR : runs 3 start 1 begun).
  { eapply (runs_own 3 start 0 start begun 3); [apply runs_none| |by left]. exact (st_call 3 start 2 (Write 1 ft_begin) (fun _ => ft_forks FT_N 0) 0 eq_refl). }
  split; [exact HR|]. apply (forktest_passes 3 2 start 1 begun); try done.
  constructor; [vm_compute; lia|]. intros q x Hx. unfold start, three in Hx. cbn [table] in Hx. repeat (apply lookup_insert_Some in Hx as [[<- _]|[_ Hx]]; [cbn; lia|]). apply lookup_singleton_Some in Hx as [<- _]. cbn. lia.
Defined.

Definition child (x : Z) : proc := set_pid x (set_schedQueue PRIORITY (set_state RUNNABLE proc_zero)).
Definition fifteen : list Z := seqZ 4 15.
(** The table of 64 slots: [init], the shell and the test sleep, then come the
    children, and the other slots are unused, with pid 0. *)
Definition sleeper (x : Z) : proc := set_pid x (set_schedQueue LOTTERY (set_state SLEEPING proc_zero)).
Definition children : list proc := (sleeper <$> [1; 2; 3]) ++ (child <$> fifteen) ++ replicate 46 proc_zero.

Lemma lottery_children_starve_witness :
  exists j p, sched_choice 7 (apply_reqs (requests 3 schedTest_main fifteen) children) = Some (Some j) /\
    apply_reqs (requests 3 schedTest_main fifteen) children !! j = Some p /\ pid p ∉ drop 10 fifteen.
Proof.
  eexists _, _. split; [vm_compute; reflexivity|]. split; [vm_compute; reflexivity|].
  eapply (lottery_children_starve 3 fifteen 7 children); [lia|reflexivity|by repeat constructor|apply NoDup_seqZ|by apply (bool_decide_unpack _)| |vm_compute; reflexivity|vm_compute; reflexivity].
  split; [|vm_compute; done]. vm_compute. repeat constructor; congruence.
Defined.
End ProgsSample.
