(* ===== verification/Grep.v ===== *)
(** * Grep: the program [grep] ([grep.c])

    The matcher of regular expressions, against the language that a pattern
    denotes, the loop that cuts the input into lines, and the program over the
    system calls of [User].  Strings are lists of bytes without the final NUL. *)
From stdpp Require Import base gmap list numbers strings.
From Stdlib Require Import ZArith Lia ZifyBool.
From S2P Require Import Prelude Machine Console ConsoleThms User.

(** The characters with a meaning: [^ $ . *] and the newline. *)
Definition CARET : Z := 94.
Definition DOLLAR : Z := 36.
Definition DOT : Z := 46.
Definition STAR : Z := 42.
Definition NL : Z := 10.

(** ** The matcher *)

(** [matchstar], where [here] is [matchhere] of the rest of the pattern. *)
Fixpoint matchstar (here : list Z -> bool) (c : Z) (text : list Z) : bool :=
  here text ||
  match text with
  | [] => false
  | t :: ts => if (t =? c) || (c =? DOT) then matchstar here c ts else false
  end.

Fixpoint matchhere (re text : list Z) : bool :=
  match re with
  | [] => true
  | c :: re1 =>
      match re1 with
      | [] =>
          if c =? DOLLAR then match text with [] => true | _ => false end
          else match text with t :: ts => if (c =? DOT) || (c =? t) then matchhere re1 ts else false | [] => false end
      | d :: re2 =>
          if d =? STAR then matchstar (matchhere re2) c text
          else match text with t :: ts => if (c =? DOT) || (c =? t) then matchhere re1 ts else false | [] => false end
      end
  end.

(** The loop of [match]: each suffix of the text, the empty one too. *)
Fixpoint match_any (re text : list Z) : bool :=
  matchhere re text ||
  match text with
  | [] => false
  | _ :: ts => match_any re ts
  end.

Definition match_ (re text : list Z) : bool :=
  match re with
  | c :: re1 => if c =? CARET then matchhere re1 text else match_any re text
  | [] => match_any re text
  end.

(** ** The language of a pattern *)

Inductive item := Atom (c : Z) | Repeat (c : Z).

(** The items of a pattern, and whether it is anchored at the end. *)
Fixpoint parse (re : list Z) : list item * bool :=
  match re with
  | [] => ([], false)
  | c :: re1 =>
      match re1 with
      | [] => if c =? DOLLAR then ([], true) else ([Atom c], false)
      | d :: re2 =>
          if d =? STAR then let '(l, e) := parse re2 in (Repeat c :: l, e)
          else let '(l, e) := parse re1 in (Atom c :: l, e)
      end
  end.

Definition accepts (c t : Z) : Prop := c = DOT \/ c = t.

Inductive denotes : list item -> list Z -> Prop :=
  | denotes_nil : denotes [] []
  | denotes_atom c t l w : accepts c t -> denotes l w -> denotes (Atom c :: l) (t :: w)
  | denotes_none c l w : denotes l w -> denotes (Repeat c :: l) w
  | denotes_more c t l w : accepts c t -> denotes (Repeat c :: l) w -> denotes (Repeat c :: l) (t :: w).

(** A prefix of the text is in the language; all of it if anchored. *)
Definition prefix_in (p : list item * bool) (text : list Z) : Prop :=
  exists w rest, text = w ++ rest /\ denotes p.1 w /\ (p.2 = true -> rest = []).

Lemma accepts_test (c t : Z) : ((c =? DOT) || (c =? t) = true) <-> accepts c t.
Proof. unfold accepts. lia. Qed.

Lemma matchstar_spec (here : list Z -> bool) (p : list item * bool) (c : Z) :
  (forall text, here text = true <-> prefix_in p text) ->
  forall text, matchstar here c text = true <-> prefix_in (Repeat c :: p.1, p.2) text.
Proof.
  intros HH. induction text as [|t ts IH]; cbn [matchstar]; rewrite orb_true_iff, HH.
  - split; [intros [(w & r & E & Hd & He)|]; [|done]; exists w, r; split_and!; [done|by constructor|done]|].
    intros (w & r & E & Hd & He). left. exists w, r. destruct w; [|done]. cbn in *. inversion Hd; subst. by split_and!.
  - split.
    + intros [(w & r & E & Hd & He)|H]; [exists w, r; split_and!; [done|by constructor|done]|].
      destruct ((t =? c) || (c =? DOT)) eqn:Et; [|done]. apply IH in H as (w & r & -> & Hd & He).
      exists (t :: w), r. split_and!; [done| |done]. constructor; [unfold accepts; lia|done].
    + intros (w & r & E & Hd & He). cbn in Hd. inversion Hd as [| |? ? ? Hd'|? t' ? w' Ha Hd']; subst.
      * left. by exists w, r.
      * right. cbn in E. injection E as <- ->. rewrite (proj2 (orb_true_iff _ _)) by (unfold accepts in Ha; lia).
        apply IH. by exists w', r.
Qed.

(** One item that is not repeated. *)
Lemma prefix_atom (c : Z) (p : list item * bool) (text : list Z) (here : list Z -> bool) :
  (forall ts, here ts = true <-> prefix_in p ts) ->
  (match text with t :: ts => if (c =? DOT) || (c =? t) then here ts else false | [] => false end = true <->
   prefix_in (Atom c :: p.1, p.2) text).
Proof.
  intros HH. split.
  - destruct text as [|t ts]; [done|]. destruct ((c =? DOT) || (c =? t)) eqn:E; [|done]. intros H.
    apply HH in H as (w & r & -> & Hd & He). exists (t :: w), r. split_and!; [done| |done]. constructor; [by apply accepts_test|done].
  - intros (w & r & -> & Hd & He). cbn in Hd. inversion Hd as [|? t ? w' Ha Hd'| |]; subst. cbn.
    rewrite (proj2 (accepts_test c t) Ha). apply HH. by exists w', r.
Qed.

Lemma matchhere_cons (c d : Z) (re text : list Z) :
  matchhere (c :: d :: re) text =
  if d =? STAR then matchstar (matchhere re) c text
  else match text with t :: ts => if (c =? DOT) || (c =? t) then matchhere (d :: re) ts else false | [] => false end.
Proof. reflexivity. Qed.

Lemma parse_cons (c d : Z) (re : list Z) :
  parse (c :: d :: re) =
  if d =? STAR then let '(l, e) := parse re in (Repeat c :: l, e) else let '(l, e) := parse (d :: re) in (Atom c :: l, e).
Proof. reflexivity. Qed.

Lemma matchhere_spec (re : list Z) : forall text, matchhere re text = true <-> prefix_in (parse re) text.
Proof.
  remember (length re) as n eqn:Hn. assert (Hle : (length re <= n)%nat) by lia. clear Hn. revert re Hle.
  induction n as [|n IH]; intros re Hl text; (destruct re as [|c re1]; [|cbn in Hl; try lia]).
  1-2: split; [intros _; exists [], text; split_and!; [done|constructor|done]|done].
  destruct re1 as [|d re2].
  - cbn [matchhere parse]. destruct (c =? DOLLAR) eqn:E.
    + split; [destruct text; [|done]; intros _; exists [], []; split_and!; [done|constructor|done]|].
      intros (w & r & -> & Hd & He). cbn in *. inversion Hd; subst. by rewrite He.
    + apply (prefix_atom c ([], false)). apply (IH []). cbn. lia.
  - rewrite matchhere_cons, parse_cons. cbn in Hl. destruct (d =? STAR) eqn:E.
    + destruct (parse re2) as [l e] eqn:Ep. apply (matchstar_spec (matchhere re2) (l, e) c). rewrite <- Ep. apply IH. lia.
    + destruct (parse (d :: re2)) as [l e] eqn:Ep.
      apply (prefix_atom c (l, e)). rewrite <- Ep. apply IH. cbn. lia.
Qed.

(** C26. [match] decides the language of the pattern: it is true exactly when
    some part of the text (from its start if the pattern begins with [^], up to
    its end if it ends with [$]) is a sequence of the characters and
    repetitions that the pattern lists; it returns for every pattern and text. *)
Theorem match_correct (re text : list Z) :
  match_ re text = true <->
  match re with
  | c :: re1 => if c =? CARET then prefix_in (parse re1) text else exists pre post, text = pre ++ post /\ prefix_in (parse re) post
  | [] => True
  end.
Proof.
  assert (HA : forall re text, match_any re text = true <-> exists pre post, text = pre ++ post /\ prefix_in (parse re) post).
  { clear. intros re. induction text as [|t ts IH]; cbn [match_any]; rewrite orb_true_iff, matchhere_spec.
    - split; [intros [H|]; [by exists [], []|done]|]. intros (pre & post & E & H). left. by destruct pre, post.
    - split.
      + intros [H|H]; [by exists [], (t :: ts)|]. apply IH in H as (pre & post & -> & H). by exists (t :: pre), post.
      + intros ([|t' pre] & post & E & H); cbn in E; [left; by rewrite E|]. right. injection E as <- ->. apply IH. by exists pre, post. }
  unfold match_. destruct re as [|c re1].
  - split; [done|]. intros _. apply HA. exists [], text. split; [done|]. exists [], text. split_and!; [done|constructor|done].
  - destruct (c =? CARET); [apply matchhere_spec|apply HA].
Qed.

(** ** Lines *)

(** [strchr(p, '\n')]: what is before the newline and what is after it; the
    search stops at a NUL. *)
Fixpoint cut_line (p : list Z) : option (list Z * list Z) :=
  match p with
  | [] => None
  | c :: q =>
      if c =? 0 then None
      else if c =? NL then Some ([], q)
      else '(l, r) ← cut_line q; Some (c :: l, r)
  end.

(** The inner loop: what is written, and what is left from [p] on. *)
Fixpoint grep_lines (fuel : nat) (re p : list Z) : list (list Z) * list Z :=
  match fuel with
  | O => ([], p)
  | S fuel =>
      match cut_line p with
      | None => ([], p)
      | Some (l, q) =>
          let '(out, r) := grep_lines fuel re q in
          (if match_ re l then (l ++ [NL]) :: out else out, r)
      end
  end.

(** One pass over the buffer: what is written, and the bytes that stay in it. *)
Definition grep_pass (re b : list Z) : list (list Z) * list Z :=
  let '(out, p) := grep_lines (S (length b)) re b in
  (out, if (length p =? length b)%nat then [] else p).

(** The lines written when the calls of [read] store [reads]; [held] is the
    first [m] bytes of [buf]. *)
Fixpoint grep_loop (re held : list Z) (reads : list (list Z)) : list (list Z) :=
  match reads with
  | [] => []
  | [] :: _ => []
  | r :: reads => let '(out, p) := grep_pass re (held ++ r) in out ++ grep_loop re p reads
  end.

Definition grep_reads (re : list Z) (reads : list (list Z)) : list (list Z) := grep_loop re [] reads.

(** ** The program *)

Definition BUFSIZE : Z := 1024.

Section Program.
Context {W : Type} `{!Sys W}.

Fixpoint write_lines (ls : list (list Z)) : M W unit :=
  match ls with [] => ret tt | l :: ls => write 1 l ;;; write_lines ls end.

(** The loop of [grep]; a read that fails ends it like the end of the file. *)
Fixpoint grep_from (fuel : nat) (re held : list Z) (fd : Z) : M W unit :=
  match fuel with
  | O => fun _ => NoFuel
  | S fuel =>
      let! r := read fd (BUFSIZE - Z.of_nat (length held) - 1) in
      match r with
      | None | Some [] => ret tt
      | Some r => let '(out, p) := grep_pass re (held ++ r) in write_lines out ;;; grep_from fuel re p fd
      end
  end.
Definition grep (fuel : nat) (re : list Z) (fd : Z) : M W unit := grep_from fuel re [] fd.

Fixpoint grep_files (fuel : nat) (re : list Z) (argv : list (list Z)) : U unit :=
  match argv with
  | [] => exit
  | a :: argv =>
      let! fd := open a 0 in
      if fd <? 0 then printf 1 (line "grep: cannot open %s") [AStr (Some a)] ;;; exit
      else grep fuel re fd ;;; close fd ;;; grep_files fuel re argv
  end.

(** [main]; [argv] without the name of the program. *)
Definition grep_main (fuel : nat) (argv : list (list Z)) : U unit :=
  match argv with
  | [] => printf 2 (line "usage: grep pattern [file ...]") [] ;;; exit
  | [re] => grep fuel re 0 ;;; exit
  | re :: argv => grep_files fuel re argv
  end.
End Program.

(** The complete lines of a text, and what is after the last of them. *)
Fixpoint text_lines (cur text : list Z) : list (list Z) * list Z :=
  match text with
  | [] => ([], cur)
  | c :: q => if c =? NL then let '(l, r) := text_lines [] q in (cur :: l, r) else text_lines (cur ++ [c]) q
  end.

(** The lines that match, as they are printed. *)
Definition matching (re : list Z) (ls : list (list Z)) : list (list Z) :=
  (fun l => l ++ [NL]) <$> filter (fun l => match_ re l = true) ls.

Lemma cut_line_spec (p : list Z) : Forall (fun c => c <> 0) p ->
  match cut_line p with
  | None => NL ∉ p
  | Some (l, q) => p = l ++ NL :: q /\ NL ∉ l
  end.
Proof.
  induction 1 as [|c p Hc HF IH]; cbn [cut_line]; [set_solver|]. rewrite (proj2 (Z.eqb_neq c 0) Hc).
  destruct (Z.eqb_spec c NL) as [->|Hn]; [split; [done|set_solver]|]. destruct (cut_line p) as [[l q]|]; cbn.
  - destruct IH as [-> IH]. split; [done|set_solver].
  - set_solver.
Qed.

Lemma text_lines_cut (l q cur : list Z) : NL ∉ l ->
  text_lines cur (l ++ NL :: q) = ((cur ++ l) :: (text_lines [] q).1, (text_lines [] q).2).
Proof.
  revert cur. induction l as [|c l IH]; intros cur HN; cbn.
  - rewrite app_nil_r. by destruct (text_lines [] q).
  - destruct (Z.eqb_spec c NL) as [->|_]; [set_solver|]. rewrite IH by set_solver. by rewrite <- app_assoc.
Qed.

Lemma text_lines_none (l cur : list Z) : NL ∉ l -> text_lines cur l = ([], cur ++ l).
Proof.
  revert cur. induction l as [|c l IH]; intros cur HN; cbn; [by rewrite app_nil_r|].
  destruct (Z.eqb_spec c NL) as [->|_]; [set_solver|]. rewrite IH by set_solver. by rewrite <- app_assoc.
Qed.

Lemma text_lines_app (a b cur : list Z) :
  text_lines cur (a ++ b) = ((text_lines cur a).1 ++ (text_lines (text_lines cur a).2 b).1, (text_lines (text_lines cur a).2 b).2).
Proof.
  revert cur. induction a as [|c a IH]; intros cur; cbn; [by destruct (text_lines cur b)|]. destruct (c =? NL); [|apply IH].
  specialize (IH []). destruct (text_lines [] (a ++ b)) as [l r]. destruct (text_lines [] a) as [l' r']. cbn in *. by injection IH as -> ->.
Qed.

Lemma grep_lines_spec (fuel : nat) (re : list Z) : forall p, Forall (fun c => c <> 0) p -> (length p < fuel)%nat ->
  grep_lines fuel re p = (matching re (text_lines [] p).1, (text_lines [] p).2).
Proof.
  induction fuel as [|fuel IH]; intros p HF Hl; [lia|]. cbn [grep_lines]. pose proof (cut_line_spec p HF) as HC.
  destruct (cut_line p) as [[l q]|].
  - destruct HC as [-> HN]. rewrite text_lines_cut by done. apply Forall_app in HF as [_ HF]. apply Forall_cons_1 in HF as [_ HF].
    rewrite length_app in Hl. cbn in Hl. rewrite IH by (done || lia). cbn [fst snd app]. unfold matching. rewrite filter_cons.
    destruct (match_ re l) eqn:E; cbn; [rewrite decide_True by done|rewrite decide_False by congruence]; done.
  - rewrite text_lines_none by done. done.
Qed.

(** What is left after the last newline has none, and is shorter. *)
Lemma text_lines_rest (p cur : list Z) : NL ∈ p -> (length (text_lines cur p).2 < length p)%nat.
Proof.
  revert cur. induction p as [|c p IH]; intros cur HN; [set_solver|]. cbn. destruct (Z.eqb_spec c NL) as [->|Hc].
  - destruct (decide (NL ∈ p)) as [H|H].
    + specialize (IH [] H). destruct (text_lines [] p). cbn in *. lia.
    + rewrite (text_lines_none p []) by done. cbn. lia.
  - specialize (IH (cur ++ [c]) ltac:(set_solver)). lia.
Qed.

Lemma text_lines_cur (a b : list Z) : NL ∉ a -> text_lines [] (a ++ b) = text_lines a b.
Proof. intros H. rewrite text_lines_app, text_lines_none by done. cbn. by destruct (text_lines a b). Qed.

Lemma text_lines_left (p cur : list Z) : NL ∉ cur -> NL ∉ (text_lines cur p).2.
Proof.
  revert cur. induction p as [|c p IH]; intros cur HN; cbn; [done|]. destruct (Z.eqb_spec c NL) as [->|Hc].
  - specialize (IH []). destruct (text_lines [] p). cbn in *. apply IH. set_solver.
  - apply IH. set_solver.
Qed.

Lemma text_lines_chars (P : Z -> Prop) (p cur : list Z) : Forall P p -> Forall P cur -> Forall P (text_lines cur p).2.
Proof.
  intros HF. revert cur. induction HF as [|c p Hc HF IH]; intros cur HP; cbn; [done|]. destruct (c =? NL).
  - specialize (IH [] (Forall_nil_2 _)). by destruct (text_lines [] p).
  - apply IH. apply Forall_app. split; [done|]. by apply Forall_singleton.
Qed.

(** A pass over a buffer that starts at the start of a line. *)
Lemma grep_pass_spec (re b : list Z) : Forall (fun c => c <> 0) b ->
  grep_pass re b = (matching re (text_lines [] b).1, if decide (NL ∈ b) then (text_lines [] b).2 else []).
Proof.
  intros HZ. unfold grep_pass. rewrite grep_lines_spec by (done || lia). case_decide as HN.
  - pose proof (text_lines_rest b [] HN). by rewrite (proj2 (Nat.eqb_neq _ _)) by lia.
  - rewrite (text_lines_none b []) by done. cbn [fst snd app]. by rewrite Nat.eqb_refl.
Qed.

Lemma cut_line_length (p l q : list Z) : cut_line p = Some (l, q) -> (length q < length p)%nat.
Proof.
  revert l. induction p as [|c p IH]; intros l E; [done|]. cbn in E. repeat case_match; simplify_eq/=; [lia|].
  destruct (cut_line p) as [[l' r']|] eqn:E'; simplify_eq/=. specialize (IH l' eq_refl). lia.
Qed.

Lemma grep_lines_length (fuel : nat) (re p : list Z) : (length (grep_lines fuel re p).2 <= length p)%nat.
Proof.
  revert p. induction fuel as [|fuel IH]; intros p; [done|]. cbn [grep_lines]. destruct (cut_line p) as [[l q]|] eqn:E; [|done].
  specialize (IH q). apply cut_line_length in E. destruct (grep_lines fuel re q). cbn in *. lia.
Qed.

(** After a pass the buffer has room again. *)
Lemma grep_pass_short (re b : list Z) : b <> [] -> (length (grep_pass re b).2 < length b)%nat.
Proof.
  intros Hb. unfold grep_pass. pose proof (grep_lines_length (S (length b)) re b) as H. destruct (grep_lines _ re b) as [out p]. cbn [snd] in *.
  destruct (Nat.eqb_spec (length p) (length b)); [|lia]. destruct b; [done|cbn; lia].
Qed.

(** How the calls of [read] cut a text: each brings something, at most what the
    buffer has room for; on a file ([full]) as much as there is. *)
Inductive cuts (full : bool) (re : list Z) : list Z -> list Z -> list (list Z) -> Prop :=
  | cuts_end held : cuts full re held [] []
  | cuts_more held r text reads :
      r <> [] -> (length held + length r <= 1023)%nat ->
      (full = true -> length held + length r = 1023 \/ text = [])%nat ->
      cuts full re (grep_pass re (held ++ r)).2 text reads ->
      cuts full re held (r ++ text) (r :: reads).

(** A line of at most 1022 characters fits in the buffer with its newline. *)
Definition short_lines (text : list Z) : Prop := Forall (fun l => (length l <= 1022)%nat) (text_lines [] text).1.

(** On a file with short lines every line is seen whole. *)
Lemma cuts_matching (re held text : list Z) (reads : list (list Z)) :
  cuts true re held text reads -> NL ∉ held -> Forall (fun c => c <> 0) (held ++ text) -> short_lines (held ++ text) ->
  grep_loop re held reads = matching re (text_lines held text).1.
Proof.
  induction 1 as [held|held r text reads Hr Hl Hf HC IH]; intros HN HZ HS; [done|].
  rewrite app_assoc in HZ, HS. apply Forall_app in HZ as [HZb HZt]. unfold short_lines in HS. rewrite text_lines_app in HS. cbn [fst] in HS. apply Forall_app in HS as [HS1 HS2].
  cbn [grep_loop]. destruct r as [|c r]; [done|]. set (r' := c :: r) in *. clearbody r'. rewrite <- (text_lines_cur held) by done. rewrite app_assoc, text_lines_app.
  rewrite grep_pass_spec in * by done. cbn [fst snd] in *. case_decide as HNb.
  - rewrite IH; [unfold matching; by rewrite list.filter_app, fmap_app|by apply text_lines_left; set_solver| |].
    + apply Forall_app. split; [by apply text_lines_chars|done].
    + unfold short_lines. rewrite text_lines_cur by (apply text_lines_left; set_solver). done.
  - rewrite (text_lines_none (held ++ r') []) in * by done. cbn [fst snd app] in *.
    assert (HNt : NL ∉ text).
    { intros Hin. destruct (Hf eq_refl) as [E| ->]; [|set_solver]. apply list_elem_of_split_l in Hin as (l & q & -> & Hl').
      rewrite text_lines_cut in HS2 by done. apply Forall_cons in HS2 as [HS2 _]. rewrite !length_app in HS2. lia. }
    rewrite (text_lines_none text) by done. rewrite IH; [by rewrite (text_lines_none text) by done|set_solver|done|].
    unfold short_lines. cbn [app]. rewrite (text_lines_none text) by done. constructor.
Qed.
Lemma grep_loop_spec (re : list Z) (reads : list (list Z)) : forall held,
  NL ∉ held -> Forall (fun c => c <> 0) held -> Forall (fun r => NL ∈ r /\ Forall (fun c => c <> 0) r) reads ->
  grep_loop re held reads = matching re (text_lines held (concat reads)).1.
Proof.
  induction reads as [|r reads IH]; intros held HN HZ HR; [done|]. apply Forall_cons_1 in HR as [[Hr HZr] HR].
  assert (HZb : Forall (fun c => c <> 0) (held ++ r)) by (by apply Forall_app).
  cbn [grep_loop]. destruct r as [|c r]; [set_solver|]. set (r' := c :: r) in *.
  rewrite grep_pass_spec, decide_True by (done || set_solver). rewrite text_lines_cur by done. cbn [concat]. rewrite text_lines_app. cbn [fst].
  rewrite IH; [unfold matching; by rewrite list.filter_app, fmap_app|by apply text_lines_left|by apply text_lines_chars|done].
Qed.

(** [grep] on text whose every read brings the end of a line: it writes
    exactly the complete lines that match, in their order, each with its
    newline, however the reads cut the lines. *)
Theorem grep_correct (re : list Z) (reads : list (list Z)) :
  Forall (fun r => NL ∈ r /\ Forall (fun c => c <> 0) r) reads ->
  grep_reads re reads = matching re (text_lines [] (concat reads)).1.
Proof. intros H. apply grep_loop_spec; [set_solver|done|done]. Qed.

(** [grep b] on [ab<newline>xb<newline>c], where the second read starts inside a line. *)
Lemma grep_correct_witness : grep_reads [98] [[97; 98; 10; 120]; [98; 10; 99]] = [[97; 98; 10]; [120; 98; 10]].
Proof.
  apply (grep_correct [98] [[97; 98; 10; 120]; [98; 10; 99]]).
  repeat (apply Forall_cons_2; [split; [unfold NL; set_solver|by repeat (apply Forall_cons_2; [lia|])]|]). done.
Defined.

(** [grep] loses the start of a line whose end comes with a later read:
    when a read brings no newline, what is in the buffer is dropped.  The line
    [ab] matches the pattern [a]; read at once it is printed, read in two parts
    (from a pipe, or a terminal) it is not. *)
Theorem grep_drops_partial_line :
  grep_reads [97] [[97; 98; 10]] = [[97; 98; 10]] /\ grep_reads [97] [[97]; [98; 10]] = [].
Proof. split; vm_compute; reflexivity. Qed.

(** ** The program prints the lines that match *)

Section Prints.
Context {W : Type} `{!Sys W} `{!SysLaws W}.
Implicit Types w : W.

Lemma write_lines_wrote (ls : list (list Z)) : forall w, can_write w 1 -> wp (write_lines ls) (fun _ w' => wrote 1 (concat ls) w w') w.
Proof.
  induction ls as [|l ls IH]; intros w HW; cbn [write_lines concat]; [apply wp_ret, wrote_nil|].
  wp_step. eapply wp_mono; [by apply write_law|]. intros k w1 (_ & HO). eapply wp_mono; [apply IH; by apply HO|]. intros [] w2. by apply wrote_more.
Qed.

(** Whatever the descriptor, the program writes what [grep_loop] does on some
    cut of its input. *)
Lemma grep_from_cuts (re : list Z) (fd : Z) : forall (fuel : nat) held w,
  can_read w fd -> can_write w 1 -> (length held <= 1022)%nat -> (length (inp w fd) < fuel)%nat ->
  wp (grep_from fuel re held fd) (fun _ w' => exists reads, cuts (bool_decide (is_file w fd <> None)) re held (inp w fd) reads /\
    out w' 1 = out w 1 ++ concat (grep_loop re held reads) /\ can_read w' fd /\ can_write w' 1 /\ (forall p, file w' p = file w p)) w.
Proof.
  induction fuel as [|fuel IH]; intros held w HR HW Hh Hf; [lia|]. cbn [grep_from]. unfold BUFSIZE. wp_step. eapply wp_mono; [apply read_law; [done|lia]|].
  intros r w1 (d & -> & Ei & Hn & Hd & HF & HR1 & HF1 & Q1 & Q2 & Q3). destruct d as [|c d].
  { apply wp_ret. exists []. rewrite Hd by done. split_and!; auto; [constructor|cbn; by rewrite app_nil_r]. }
  assert (Hd' : c :: d <> []) by done. set (d' := c :: d) in *. cbn [grep_loop] in *.
  pose proof (grep_pass_short re (held ++ d')) as HP. destruct (grep_pass re (held ++ d')) as [o p] eqn:EP. cbn [snd] in HP. rewrite length_app in HP.
  wp_step. eapply wp_mono; [apply write_lines_wrote; auto|]. intros [] w2 (O1 & _ & O3 & O4 & O5). destruct (O5 fd HR1) as (HR2 & Ei2 & HF2).
  eapply wp_mono; [apply IH; [done|auto| |]|].
  { assert (held ++ d' <> []) by (by destruct held). specialize (HP ltac:(done)). lia. }
  { rewrite Ei2. rewrite Ei, length_app in Hf. subst d'. cbn [length] in Hf. lia. }
  intros [] w3 (reads & HC & E3 & HR3 & HW3 & F3). exists (d' :: reads). rewrite HF2, HF1, Ei2 in HC. split_and!; auto.
  - rewrite Ei. constructor; [done|lia| |by rewrite EP]. intros Hb%bool_decide_eq_true. specialize (HF Hb). rewrite Ei, length_app in HF.
    destruct (inp w1 fd); [by right|left; cbn [length] in HF; lia].
  - rewrite E3, O1, Q2. cbn [grep_loop]. subst d'. rewrite EP, concat_app. by rewrite app_assoc.
  - intros q. by rewrite F3, O3, Q1.
Qed.

(** The text that [grep] prints for a file. *)
Definition grep_text (re c : list Z) : list Z := concat (matching re (text_lines [] c).1).

(** C27. [grep pattern file ...] on files whose lines have at most 1022
    characters, and no NUL: it prints, file after file, exactly the complete
    lines that match, in their order, each with its newline, wherever the
    1023-byte reads cut them; and it exits. *)
Theorem grep_main_prints (fuel : nat) (re : list Z) (argv cs : list (list Z)) w :
  contents w argv cs -> argv <> [] -> can_write w 1 ->
  Forall (fun c => (length c < fuel)%nat /\ Forall (fun b => b <> 0) c /\ short_lines c) cs ->
  wp (grep_main fuel (re :: argv)) (fun r w' => r = Exited /\ out w' 1 = out w 1 ++ concat (grep_text re <$> cs)) w.
Proof.
  intros HC Ha. replace (grep_main fuel (re :: argv)) with (grep_files fuel re argv) by (by destruct argv). clear Ha. revert cs w HC.
  induction argv as [|a argv IH]; intros cs w HC HW HF; inversion HC as [|? c ? cs' (st & E) HC']; subst; cbn [grep_files]; [apply wp_ret; cbn; by rewrite app_nil_r|].
  apply Forall_cons in HF as [(Hc & HZ & HS) HF]. wp_step. eapply wp_mono; [by apply open_law|]. intros fd w1 (Hfd & HR & Hst & Ei & (Q1 & Q2 & Q3) & _). replace (fd <? 0) with false by lia.
  wp_step. eapply wp_mono; [apply grep_from_cuts; [done|auto|cbn; lia|by rewrite Ei]|]. intros [] w2 (reads & HCut & E2 & HR2 & HW2 & F2).
  rewrite Hst, bool_decide_true, Ei in HCut by done. rewrite (cuts_matching _ _ _ _ HCut) in E2 by (done || set_solver). wp_step. eapply wp_mono; [by apply close_law|].
  intros k w3 ((R1 & R2 & R3) & _). eapply wp_mono; [apply (IH cs'); [|auto|done]|].
  { eapply contents_file; [|exact HC']. intros p. by rewrite R1, F2, Q1. }
  intros r w4 (-> & E4). split; [done|]. rewrite E4, R2, E2, Q2. cbn [fmap list_fmap concat]. by rewrite app_assoc.
Qed.
End Prints.

Module GrepSample.
Import UserSample.

(** [grep be f] on the file of [User], [to be or<newline>]. *)
Lemma grep_main_prints_witness :
  wp (grep_main 10 [bytes "be"; name]) (fun r w' => r = Exited /\ printed w' 1 = bytes "to be or" ++ [10]) start.
Proof.
  eapply wp_mono; [apply (grep_main_prints 10 (bytes "be") [name] [bytes "to be or" ++ [10]] start)|].
  - constructor; [exists (mkustat 2 5 8); vm_compute; reflexivity|constructor].
  - done.
  - by left.
  - constructor; [|constructor]. split_and!; [cbn; lia|apply (bool_decide_unpack _); vm_compute; done|]. apply (bool_decide_unpack _). vm_compute. done.
  - intros r w' (-> & E). split; [done|]. exact E.
Defined.
End GrepSample.
