(* ===== verification/Sh.v ===== *)
(** * Sh: the parser of the shell ([sh.c])

    Lexer and recursive-descent parser over the command line.  A pointer into
    the line is an offset; the line is a list of bytes without NUL, and reading
    at its end gives the NUL.  The structures that [malloc] gives are a tree:
    [parseexec] fills the arguments of a command that is already inside its
    redirections, so the redirections are kept in a list until the end. *)
From stdpp Require Import base gmap list numbers strings.
From Stdlib Require Import ZArith Lia ZifyBool.
From S2P Require Import Prelude Machine.

Definition MAXARGS : nat := 10.

(** ** Data *)

Record redir := mkredir { r_file : nat; r_efile : nat; r_mode : Z; r_fd : Z }.

Inductive cmd :=
  | Exec (argv : list (nat * nat))
  | Redir (c : cmd) (r : redir)
  | PipeCmd (left right : cmd)
  | ListCmd (left right : cmd)
  | Back (c : cmd).

Definition redircmd (c : cmd) (r : redir) : cmd := Redir c r.

(** ** Characters *)

(** [strchr(whitespace, c)] and [strchr(symbols, c)] *)
Definition is_white (c : Z) : bool := existsb (Z.eqb c) [32; 9; 13; 10; 11].
Definition is_symbol (c : Z) : bool := existsb (Z.eqb c) [60; 124; 62; 38; 59; 40; 41].
Definition is_word (c : Z) : bool := negb (is_white c) && negb (is_symbol c).
#[global] Arguments is_white : simpl never.
#[global] Arguments is_symbol : simpl never.
#[global] Arguments is_word : simpl never.

(** The number of characters a loop skips that runs while it is before the end
    and [f] holds of the character. *)
Fixpoint span (f : Z -> bool) (l : list Z) : nat :=
  match l with
  | [] => 0
  | c :: q => if f c then S (span f q) else 0
  end.

Notation MP := (M nat).

Section Parser.
Variable line : list Z.

(** [*s] *)
Definition at_ (s : nat) : Z := nth s line 0.

Definition skip_white (s : nat) : nat := s + span is_white (drop s line).

(** ** The lexer *)

(** The token, its end, and where the next one starts; [q] is the start. *)
Definition token (s : nat) : Z * nat :=
  let c := at_ s in
  if c =? 0 then (0, s)
  else if existsb (Z.eqb c) [124; 40; 41; 59; 38; 60] then (c, S s)
  else if c =? 62 then
    if at_ (S s) =? 62 then (43, S (S s)) else (62, S s)
  else (97, (s + span is_word (drop s line))%nat).

Definition gettoken : MP (Z * nat * nat) := fun ps =>
  let q := skip_white ps in
  let '(t, eq) := token q in
  Ok (t, q, eq) (skip_white eq).

Definition peek (toks : list Z) : MP bool := fun ps =>
  let s := skip_white ps in
  Ok (negb (at_ s =? 0) && existsb (Z.eqb (at_ s)) toks) s.

(** ** The parser *)

(** The loop of [parseredirs]: the redirections, the inner one first. *)
Fixpoint parseredirs (n : nat) : MP (list redir) :=
  match n with
  | O => fun _ => NoFuel
  | S n =>
      let! p := peek [60; 62] in
      if p : bool then
        let! t := gettoken in
        let! f := gettoken in
        if negb (f.1.1 =? 97) then panic "missing file for redirection"
        else
          let r := if t.1.1 =? 60 then mkredir f.1.2 f.2 0 0 else mkredir f.1.2 f.2 (Z.lor 1 512) 1 in
          let! rs := parseredirs n in
          ret (r :: rs)
      else ret []
  end.

(** The loop of [parseexec]; [argc] arguments so far. *)
Fixpoint parseargs (n : nat) (argc : nat) : MP (list (nat * nat) * list redir) :=
  match n with
  | O => fun _ => NoFuel
  | S n =>
      let! p := peek [124; 41; 38; 59] in
      if p : bool then ret ([], [])
      else
        let! t := gettoken in
        if t.1.1 =? 0 then ret ([], [])
        else if negb (t.1.1 =? 97) then panic "syntax"
        else if (MAXARGS <=? S argc)%nat then panic "too many args"
        else
          let! rs := parseredirs (S (length line)) in
          let! l := parseargs n (S argc) in
          ret ((t.1.2, t.2) :: l.1, rs ++ l.2)
  end.

(** The loop of [parseline] over [&]. *)
Fixpoint parseback (n : nat) (c : cmd) : MP cmd :=
  match n with
  | O => fun _ => NoFuel
  | S n =>
      let! p := peek [38] in
      if p : bool then gettoken ;;; parseback n (Back c) else ret c
  end.

Definition loops : nat := S (length line).

Fixpoint parseline (fuel : nat) : MP cmd :=
  match fuel with
  | O => fun _ => NoFuel
  | S fuel =>
      let! c := parsepipe fuel in
      let! c := parseback loops c in
      let! p := peek [59] in
      if p : bool then
        gettoken ;;;
        let! d := parseline fuel in
        ret (ListCmd c d)
      else ret c
  end
with parsepipe (fuel : nat) : MP cmd :=
  match fuel with
  | O => fun _ => NoFuel
  | S fuel =>
      let! c := parseexec fuel in
      let! p := peek [124] in
      if p : bool then
        gettoken ;;;
        let! d := parsepipe fuel in
        ret (PipeCmd c d)
      else ret c
  end
with parseexec (fuel : nat) : MP cmd :=
  match fuel with
  | O => fun _ => NoFuel
  | S fuel =>
      let! p := peek [40] in
      if p : bool then parseblock fuel
      else
        let! rs := parseredirs loops in
        let! l := parseargs loops 0 in
        ret (foldl redircmd (Exec l.1) (rs ++ l.2))
  end
with parseblock (fuel : nat) : MP cmd :=
  match fuel with
  | O => fun _ => NoFuel
  | S fuel =>
      let! p := peek [40] in
      if negb p then panic "parseblock"
      else
        gettoken ;;;
        let! c := parseline fuel in
        let! p := peek [41] in
        if negb p then panic "syntax - missing )"
        else
          gettoken ;;;
          let! rs := parseredirs loops in
          ret (foldl redircmd c rs)
  end.
End Parser.

(** [nulterminate]: the stores into the buffer. *)
Fixpoint nulterminate (c : cmd) (buf : list Z) : list Z :=
  match c with
  | Exec argv => foldl (fun b a => <[a.2 := 0]> b) buf argv
  | Redir c r => <[r_efile r := 0]> (nulterminate c buf)
  | PipeCmd l r => nulterminate r (nulterminate l buf)
  | ListCmd l r => nulterminate r (nulterminate l buf)
  | Back c => nulterminate c buf
  end.

(** [parsecmd]: the tree and the buffer with the line and its NUL. *)
Definition parsecmd (line : list Z) : MP (cmd * list Z) :=
  let! c := parseline line (4 * length line + 5) in
  let! _ := peek line [] in
  let! s := gets id in
  if negb (s =? length line)%nat then panic "syntax"
  else ret (c, nulterminate c (line ++ [0])).
