(* ===== verification/ShThms.v ===== *)
(** * ShThms: what the shell understands

    Commands as trees of words, written in the shell's syntax; the parser reads
    every such text back as the tree it stands for. *)
From stdpp Require Import base gmap list numbers strings.
From Stdlib Require Import ZArith Lia ZifyBool.
From S2P Require Import Prelude Machine Sh.

(** ** Commands and their syntax *)

Inductive ast :=
  | AExec (ws : list (list Z))
  | ARedir (a : ast) (inp : bool) (f : list Z)
  | APipe (l r : ast)
  | AList (l r : ast)
  | ABack (a : ast).

Inductive level := LBase | LPipe | LBack | LLine.

Definition show_word (w : list Z) : list Z := w ++ [32].
Definition show_words (ws : list (list Z)) : list Z := concat (show_word <$> ws).
Definition show_redir (inp : bool) (f : list Z) : list Z := (if inp then 60 else 62) :: show_word f.
Definition paren (b : bool) (t : list Z) : list Z := if b then 40 :: t ++ [41] else t.

Fixpoint show (lv : level) (a : ast) : list Z :=
  match a with
  | AExec ws => show_words ws
  | ARedir c inp f => show LBase c ++ show_redir inp f
  | APipe l r => paren (match lv with LBase => true | _ => false end) (show LBase l ++ 124 :: show LPipe r)
  | ABack c => paren (match lv with LBase | LPipe => true | _ => false end) (show LBack c ++ [38])
  | AList l r => paren (match lv with LLine => false | _ => true end) (show LBack l ++ 59 :: show LLine r)
  end.

(** Words, and the bound on their number. *)
Definition word_ok (w : list Z) : Prop := w <> [] /\ Forall (fun c => is_word c = true /\ c <> 0) w.

Fixpoint ast_ok (a : ast) : Prop :=
  match a with
  | AExec ws => (length ws < MAXARGS)%nat /\ Forall word_ok ws
  | ARedir c _ f => ast_ok c /\ word_ok f
  | APipe l r | AList l r => ast_ok l /\ ast_ok r
  | ABack c => ast_ok c
  end.

(** What follows a word in the line. *)
Definition delim (t : list Z) : Prop := match t with [] => True | c :: _ => is_word c = false end.
Definition normal (t : list Z) : Prop := match t with [] => True | c :: _ => is_white c = false end.

Definition drop_white (l : list Z) : list Z := drop (span is_white l) l.

Lemma drop_white_normal (l : list Z) : normal (drop_white l).
Proof. unfold drop_white. induction l as [|c l IH]; cbn; [done|]. destruct (is_white c) eqn:E; cbn; [done|by rewrite E]. Qed.

Lemma normal_white (l : list Z) : normal l -> drop_white l = l.
Proof. destruct l as [|c l]; [done|]. unfold drop_white. cbn. by intros ->. Qed.

Lemma drop_white_space (l : list Z) : drop_white (32 :: l) = drop_white l.
Proof. done. Qed.

Lemma span_word (w t : list Z) : Forall (fun c => is_word c = true /\ c <> 0) w -> delim t -> span is_word (w ++ t) = length w.
Proof. induction 1 as [|c w [Hc _] _ IH]; intros HD; cbn; [destruct t as [|c t]; [done|]; cbn in *; by rewrite HD|]. rewrite Hc. f_equal. by apply IH. Qed.

Section Lexer.
Variable line : list Z.
Hypothesis nonul : Forall (fun c => c <> 0) line.

(** What the parser sees at [i]: the rest of the line after white space. *)
Definition rest (i : nat) : list Z := drop (skip_white line i) line.

Lemma rest_drop (i : nat) : rest i = drop_white (drop i line).
Proof. unfold rest, skip_white, drop_white. by rewrite drop_drop. Qed.

Lemma rest_normal (i : nat) : normal (rest i).
Proof. rewrite rest_drop. apply drop_white_normal. Qed.

Lemma rest_skip (i : nat) : rest (skip_white line i) = rest i.
Proof. rewrite (rest_drop (skip_white line i)). fold (rest i). apply normal_white, rest_normal. Qed.

Lemma at_rest (i : nat) : at_ line (skip_white line i) = hd 0 (rest i).
Proof.
  unfold at_, rest. rewrite nth_lookup. destruct (drop (skip_white line i) line) as [|c t] eqn:E; cbn.
  - apply (f_equal length) in E. rewrite length_drop in E. cbn in E. rewrite lookup_ge_None_2 by lia. done.
  - assert (H : line !! (skip_white line i + 0)%nat = Some c) by (rewrite <- lookup_drop, E; done).
    rewrite Nat.add_0_r in H. by rewrite H.
Qed.

Lemma rest_char (i : nat) (c : Z) (t : list Z) : rest i = c :: t -> c <> 0.
Proof. intros E. assert (HF : Forall (fun c => c <> 0) (rest i)) by (by apply Forall_drop). rewrite E in HF. by apply Forall_cons_1 in HF as [? _]. Qed.

Lemma rest_length (i : nat) : (length (rest i) <= length line)%nat.
Proof. unfold rest. rewrite length_drop. lia. Qed.

(** [peek] *)
Lemma peek_eq (toks : list Z) (i : nat) :
  peek line toks i = Ok (match rest i with [] => false | c :: _ => existsb (Z.eqb c) toks end) (skip_white line i).
Proof.
  unfold peek. rewrite at_rest. destruct (rest i) as [|c t] eqn:E; [done|]. cbn [hd]. by rewrite (proj2 (Z.eqb_neq c 0) (rest_char i c t E)).
Qed.

Lemma rest_after (i : nat) (w t : list Z) : rest i = w ++ t -> rest (skip_white line (skip_white line i + length w)) = drop_white t.
Proof.
  intros E. rewrite rest_skip, rest_drop. f_equal. rewrite <- drop_drop. fold (rest i). rewrite E. by rewrite drop_app_length.
Qed.

(** [gettoken] *)
Lemma gettoken_symbol (i : nat) (c : Z) (t : list Z) :
  rest i = c :: t -> In c [124; 40; 41; 59; 38; 60] ->
  exists q e j, gettoken line i = Ok (c, q, e) j /\ rest j = drop_white t.
Proof.
  intros E Hc. unfold gettoken, token. rewrite at_rest, E. cbn [hd]. rewrite (proj2 (Z.eqb_neq c 0) (rest_char i c t E)).
  assert (Ex : existsb (Z.eqb c) [124; 40; 41; 59; 38; 60] = true) by (apply existsb_exists; exists c; split; [done|lia]). rewrite Ex.
  do 3 eexists. split; [done|]. replace (S (skip_white line i)) with (skip_white line i + length [c])%nat by (cbn; lia). by apply rest_after.
Qed.

Lemma gettoken_out (i : nat) (t : list Z) :
  rest i = 62 :: t -> hd 0 t <> 62 -> exists q e j, gettoken line i = Ok (62, q, e) j /\ rest j = drop_white t.
Proof.
  intros E Ht. unfold gettoken, token. rewrite at_rest, E. cbn [hd Z.eqb existsb orb]. cbn.
  assert (Hn : at_ line (S (skip_white line i)) = hd 0 t).
  { unfold at_. rewrite nth_lookup. unfold rest in E. destruct t as [|d t]; cbn.
    - apply (f_equal length) in E. rewrite length_drop in E. cbn in E. rewrite lookup_ge_None_2 by lia. done.
    - assert (H : line !! (skip_white line i + 1)%nat = Some d) by (rewrite <- lookup_drop, E; done).
      rewrite Nat.add_1_r in H. by rewrite H. }
  rewrite Hn, (proj2 (Z.eqb_neq _ _) Ht). do 3 eexists. split; [done|].
  replace (S (skip_white line i)) with (skip_white line i + length [62%Z])%nat by (cbn; lia). by apply rest_after.
Qed.

(** A word in the line, with its two pointers. *)
Definition word_at (p : nat * nat) (w : list Z) : Prop :=
  p.2 = (p.1 + length w)%nat /\ word_ok w /\ exists t, drop p.1 line = w ++ t /\ delim t.

Lemma gettoken_word (i : nat) (w t : list Z) :
  rest i = w ++ t -> word_ok w -> delim t ->
  exists q e j, gettoken line i = Ok (97, q, e) j /\ word_at (q, e) w /\ rest j = drop_white t.
Proof.
  intros E [Hw HF] HD. unfold gettoken, token. rewrite at_rest, E. destruct w as [|c w]; [done|]. cbn [hd app].
  pose proof HF as HF0. apply Forall_cons_1 in HF as [[Hc1 Hc2] _]. rewrite (proj2 (Z.eqb_neq c 0) Hc2).
  assert (Hs : existsb (Z.eqb c) [124; 40; 41; 59; 38; 60] = false /\ (c =? 62) = false).
  { unfold is_word, is_symbol in Hc1. cbn in *. lia. }
  destruct Hs as [-> ->]. fold (rest i). rewrite E, span_word by done.
  do 3 eexists. split_and!; [done| |by apply rest_after]. split_and!; [done|done|]. exists t. split; [exact E|done].
Qed.

Lemma gettoken_end (i : nat) : rest i = [] -> exists q e j, gettoken line i = Ok (0, q, e) j /\ rest j = [].
Proof. intros E. unfold gettoken, token. rewrite at_rest, E. cbn. do 3 eexists. split; [done|]. by rewrite rest_skip, rest_skip. Qed.

(** ** Redirections and arguments *)

(** What may follow: nothing, or one of the symbols. *)
Definition follow (toks : list Z) (k : list Z) : Prop := match k with [] => True | c :: _ => In c toks end.

Definition show_redirs (rs : list (bool * list Z)) : list Z := concat ((fun r => show_redir r.1 r.2) <$> rs).

Definition redir_at (r : redir) (x : bool * list Z) : Prop :=
  word_at (r_file r, r_efile r) x.2 /\ (r_mode r, r_fd r) = (if x.1 then (0, 0) else (513, 1)).

Lemma follow_normal (k : list Z) : follow [124; 41; 38; 59; 60; 62] k -> normal k /\ delim k /\ hd 0 k <> 40.
Proof. destruct k as [|c k]; [done|]. cbn. intros [<-|[<-|[<-|[<-|[<-|[<-|[]]]]]]]; vm_compute; split_and!; congruence. Qed.

Lemma word_head (w t : list Z) : word_ok w -> normal (w ++ t) /\ forall toks, forallb is_symbol toks = true ->
  match w ++ t with [] => false | c :: _ => existsb (Z.eqb c) toks end = false.
Proof.
  intros [Hw HF]. destruct w as [|c w]; [done|]. apply Forall_cons_1 in HF as [[Hc _] _]. cbn. unfold is_word in Hc.
  destruct (is_white c) eqn:E; [done|]. split; [done|]. intros toks HT. destruct (existsb (Z.eqb c) toks) eqn:Ex; [|done].
  apply existsb_exists in Ex as (d & Hd & Ecd). apply Z.eqb_eq in Ecd as <-. apply forallb_forall with (x := c) in HT; [|done]. by rewrite HT in Hc.
Qed.

Lemma delim_space (t : list Z) : delim (32 :: t).
Proof. reflexivity. Qed.

Lemma parseredirs_spec (rs : list (bool * list Z)) : forall (n i : nat) (k : list Z),
  Forall (fun r => word_ok r.2) rs -> rest i = show_redirs rs ++ k -> normal k -> hd 0 k <> 60 -> hd 0 k <> 62 -> (length rs < n)%nat ->
  exists l j, parseredirs line n i = Ok l j /\ rest j = k /\ Forall2 redir_at l rs.
Proof.
  induction rs as [|[inp f] rs IH]; intros n i k HW HR Hk Hk1 Hk2 Hn; (destruct n as [|n]; [cbn in Hn; lia|]); cbn [parseredirs]; unfold bind at 1; rewrite peek_eq.
  - cbn in HR. rewrite HR. assert (E : match k with [] => false | c :: _ => existsb (Z.eqb c) [60; 62] end = false).
    { destruct k as [|c k]; [done|]. cbn in *. lia. }
    rewrite E. exists [], (skip_white line i). split_and!; [done|by rewrite rest_skip|constructor].
  - apply Forall_cons_1 in HW as [Hf HW]. cbn [snd] in Hf.
    assert (HR1 : rest i = (if inp then 60 else 62) :: f ++ 32 :: show_redirs rs ++ k).
    { rewrite HR. unfold show_redirs. cbn. unfold show_redir, show_word. cbn. by rewrite <- !app_assoc. }
    rewrite HR1. rewrite <- (rest_skip i) in HR1. set (i1 := skip_white line i) in *.
    assert (HT : exists q e j, gettoken line i1 = Ok ((if inp then 60 else 62), q, e) j /\ rest j = f ++ 32 :: show_redirs rs ++ k).
    { pose proof (proj1 (word_head f (32 :: show_redirs rs ++ k) Hf)) as Hnm. rewrite <- (normal_white _ Hnm). destruct inp.
      - apply (gettoken_symbol i1 60); [done|cbn; lia].
      - apply (gettoken_out i1); [done|]. destruct Hf as [Hf1 Hf2]. destruct f as [|c f]; [done|]. apply Forall_cons_1 in Hf2 as [[Hc _] _]. cbn. intros ->. done. }
    replace (existsb (Z.eqb (if inp then 60 else 62)) [60; 62]) with true by (by destruct inp).
    destruct HT as (q & e & j & HT & Hj). unfold bind at 1. rewrite HT.
    destruct (gettoken_word j f (32 :: show_redirs rs ++ k) Hj Hf (delim_space _)) as (q2 & e2 & j2 & HT2 & HW2 & Hj2).
    unfold bind at 1. rewrite HT2. cbn [fst snd Z.eqb negb Pos.eqb].
    rewrite drop_white_space in Hj2.
    assert (Hnm : normal (show_redirs rs ++ k)) by (destruct rs as [|[[] f'] rs']; [done|reflexivity|reflexivity]).
    rewrite normal_white in Hj2 by done.
    destruct (IH n j2 k HW Hj2 Hk Hk1 Hk2 ltac:(cbn in Hn; lia)) as (l & j3 & HL & Hj3 & HF). unfold bind. rewrite HL.
    eexists _, j3. split_and!; [done|done|]. constructor; [|done]. destruct inp; (split; [exact HW2|done]).
Qed.

Definition EXEC_END : list Z := [124; 41; 38; 59].

Lemma show_redirs_normal (rs : list (bool * list Z)) (k : list Z) : normal k -> normal (show_redirs rs ++ k).
Proof. intros Hk. by destruct rs as [|[[] f] rs]. Qed.

Lemma show_words_cons (w : list Z) (ws : list (list Z)) (t : list Z) : show_words (w :: ws) ++ t = w ++ 32 :: show_words ws ++ t.
Proof. unfold show_words, show_word. cbn. by rewrite <- !app_assoc. Qed.

Lemma show_words_normal (ws : list (list Z)) (t : list Z) : Forall word_ok ws -> normal t -> normal (show_words ws ++ t).
Proof. intros HW Ht. destruct ws as [|w ws]; [done|]. apply Forall_cons_1 in HW as [Hw _]. rewrite show_words_cons. by apply word_head. Qed.

Lemma exec_end_props (k : list Z) : follow EXEC_END k -> normal k /\ hd 0 k <> 60 /\ hd 0 k <> 62 /\ hd 0 k <> 40.
Proof. destruct k as [|c k]; [done|]. cbn. intros [<-|[<-|[<-|[<-|[]]]]]; vm_compute; split_and!; congruence. Qed.

Lemma parseargs_end (n argc i : nat) (k : list Z) : follow EXEC_END k -> rest i = k ->
  exists j, parseargs line (S n) argc i = Ok ([], []) j /\ rest j = k.
Proof.
  intros Hk HR. cbn [parseargs]. unfold bind at 1. rewrite peek_eq, HR. destruct k as [|c k].
  - rewrite <- (rest_skip i) in HR. destruct (gettoken_end _ HR) as (q & e & j & HT & Hj). unfold bind. rewrite HT. by exists j.
  - assert (Ex : existsb (Z.eqb c) EXEC_END = true) by (apply existsb_exists; exists c; split; [done|lia]).
    unfold EXEC_END in Ex. rewrite Ex. exists (skip_white line i). by rewrite rest_skip.
Qed.

(** Arguments, the last one followed by the redirections. *)
Lemma parseargs_spec (ws : list (list Z)) (rs : list (bool * list Z)) (k : list Z) :
  Forall (fun r => word_ok r.2) rs -> follow EXEC_END k -> (length rs < S (length line))%nat ->
  forall (n argc i : nat), Forall word_ok ws -> (argc + length ws < MAXARGS)%nat -> (length ws < n)%nat -> (ws = [] -> rs = []) ->
  rest i = show_words ws ++ show_redirs rs ++ k ->
  exists l lr j, parseargs line n argc i = Ok (l, lr) j /\ rest j = k /\ Forall2 word_at l ws /\ Forall2 redir_at lr rs.
Proof.
  intros HRs Hk Hrl. destruct (exec_end_props k Hk) as (Kn & K1 & K2 & K3).
  induction ws as [|w ws IH]; intros n argc i HW Hac Hn He HR; (destruct n as [|n]; [cbn in Hn; lia|]).
  - rewrite He in * by done. destruct (parseargs_end n argc i k Hk HR) as (j & HE & Hj). exists [], [], j. split_and!; [done|done|constructor|constructor].
  - cbn [parseargs]. unfold bind at 1. rewrite peek_eq, HR. apply Forall_cons_1 in HW as [Hw HW]. rewrite show_words_cons in HR |- *. destruct (word_head w (32 :: show_words ws ++ show_redirs rs ++ k) Hw) as [_ HH].
    rewrite HH by done. rewrite <- (rest_skip i) in HR.
    destruct (gettoken_word _ w _ HR Hw (delim_space _)) as (q & e & j & HT & HA & Hj). unfold bind at 1. rewrite HT. cbn [fst snd Z.eqb negb Pos.eqb].
    cbn in Hac, Hn. rewrite (proj2 (Nat.leb_gt MAXARGS (S argc))) by lia.
    assert (Hnm : normal (show_words ws ++ show_redirs rs ++ k)) by (apply show_words_normal, show_redirs_normal; done).
    rewrite drop_white_space, normal_white in Hj by done.
    assert (HRd : exists l0 j0, parseredirs line (S (length line)) j = Ok l0 j0 /\
      match ws with [] => rest j0 = k /\ Forall2 redir_at l0 rs | _ => rest j0 = show_words ws ++ show_redirs rs ++ k /\ l0 = [] end).
    { destruct ws as [|w' ws'].
      - apply (parseredirs_spec rs); done.
      - destruct (parseredirs_spec [] (S (length line)) j (show_words (w' :: ws') ++ show_redirs rs ++ k)) as (l0 & j0 & H1 & H2 & H3); [constructor|exact Hj|exact Hnm| | |cbn; lia|].
        + apply Forall_cons_1 in HW as [Hw' _]. rewrite show_words_cons. destruct Hw' as [N F]. destruct w' as [|c w']; [done|].
          apply Forall_cons_1 in F as [[Hc _] _]. cbn. intros ->. done.
        + apply Forall_cons_1 in HW as [Hw' _]. rewrite show_words_cons. destruct Hw' as [N F]. destruct w' as [|c w']; [done|].
          apply Forall_cons_1 in F as [[Hc _] _]. cbn. intros ->. done.
        + exists l0, j0. split_and!; [done|done|]. by inversion H3. }
    destruct HRd as (l0 & j0 & HP & Hd). unfold bind at 1. rewrite HP.
    destruct ws as [|w' ws'].
    + destruct Hd as [Hd1 Hd2]. destruct n as [|n]; [lia|]. destruct (parseargs_end n (S argc) j0 k Hk Hd1) as (j2 & HE & Hj2).
      unfold bind. rewrite HE. eexists _, _, j2. split_and!; [done|done|constructor; [done|constructor]|cbn; by rewrite app_nil_r].
    + destruct Hd as [Hd1 ->]. destruct (IH n (S argc) j0 HW) as (l & lr & j3 & HL & Hj3 & F1 & F2); [cbn in *; lia|lia|done|done|].
      unfold bind. rewrite HL. eexists _, _, j3. split_and!; [done|done|by constructor|done].
Qed.

(** ** Trees *)

(** The tree with pointers stands for the tree of words. *)
Fixpoint means (c : cmd) (a : ast) : Prop :=
  match c, a with
  | Exec l, AExec ws => Forall2 word_at l ws
  | Redir c r, ARedir a inp f => means c a /\ redir_at r (inp, f)
  | PipeCmd l r, APipe l' r' => means l l' /\ means r r'
  | ListCmd l r, AList l' r' => means l l' /\ means r r'
  | Back c, ABack a => means c a
  | _, _ => False
  end.

Definition wrap (a : ast) (rs : list (bool * list Z)) : ast := foldl (fun a r => ARedir a r.1 r.2) a rs.

Lemma means_wrap (l : list redir) (rs : list (bool * list Z)) (c : cmd) (a : ast) :
  means c a -> Forall2 redir_at l rs -> means (foldl redircmd c l) (wrap a rs).
Proof. intros Hm HF. revert c a Hm. induction HF as [|r [inp f] l rs Hr HF IH]; intros c a Hm; cbn; [done|]. by apply IH. Qed.

Lemma show_wrap (rs : list (bool * list Z)) (a : ast) : show LBase (wrap a rs) = show LBase a ++ show_redirs rs.
Proof.
  revert a. induction rs as [|[inp f] rs IH]; intros a; cbn; [by rewrite app_nil_r|]. fold (wrap (ARedir a inp f) rs). rewrite IH. cbn.
  unfold show_redirs. cbn. by rewrite <- app_assoc.
Qed.

Definition is_redir (a : ast) : bool := match a with ARedir _ _ _ => true | _ => false end.

Fixpoint ast_size (a : ast) : nat :=
  match a with
  | AExec _ => 1
  | ARedir a _ _ | ABack a => S (ast_size a)
  | APipe l r | AList l r => S (ast_size l + ast_size r)
  end.

Lemma ast_split (a : ast) : ast_ok a ->
  exists core rs, a = wrap core rs /\ is_redir core = false /\ ast_ok core /\ Forall (fun r => word_ok r.2) rs /\
    (ast_size core <= ast_size a)%nat /\ (rs = [] \/ (ast_size core < ast_size a)%nat).
Proof.
  induction a as [ws|a IH inp f|l IHl r IHr|l IHl r IHr|a IH]; intros Ha.
  2: { destruct Ha as [Ha Hf]. destruct (IH Ha) as (core & rs & -> & H1 & H2 & H3 & H4 & H5). exists core, (rs ++ [(inp, f)]). cbn.
    split_and!; try done; [unfold wrap; by rewrite foldl_app|apply Forall_app; split; [done|by apply Forall_singleton]|lia|right; lia]. }
  all: eexists _, []; split_and!; [done|done|done|constructor|done|by left].
Qed.

Lemma bind_assoc {A B C} (p : MP A) (q : A -> MP B) (k : B -> MP C) (i : nat) :
  bind p (fun x => bind (q x) k) i = bind (bind p q) k i.
Proof. unfold bind. by destruct (p i). Qed.

Definition parses (p : MP cmd) (i : nat) (a : ast) (k : list Z) : Prop :=
  exists c j, p i = Ok c j /\ rest j = k /\ means c a.

Definition PB (a : ast) : Prop := forall fuel i k, follow EXEC_END k -> rest i = show LBase a ++ k ->
  (4 * length (show LBase a) + 1 <= fuel)%nat -> parses (parseexec line fuel) i a k.
Definition PP (a : ast) : Prop := forall fuel i k, follow [41; 38; 59] k -> rest i = show LPipe a ++ k ->
  (4 * length (show LPipe a) + 2 <= fuel)%nat -> parses (parsepipe line fuel) i a k.
Definition PK (a : ast) : Prop := forall fuel i k, follow [41; 38; 59] k -> rest i = show LBack a ++ k ->
  (4 * length (show LBack a) + 2 <= fuel)%nat ->
  exists c j m, (m <= length (show LBack a))%nat /\ rest j = k /\ means c a /\
    forall n, bind (parsepipe line fuel) (parseback line (m + n)) i = parseback line n c j.
Definition PL (a : ast) : Prop := forall fuel i k, follow [41] k -> rest i = show LLine a ++ k ->
  (4 * length (show LLine a) + 3 <= fuel)%nat -> parses (parseline line fuel) i a k.

Lemma follow_sub (t1 t2 k : list Z) : incl t1 t2 -> follow t1 k -> follow t2 k.
Proof. destruct k; [done|]. intros H. apply H. Qed.

(** [peek] of a symbol that does not come. *)
Lemma peek_no (toks t k : list Z) (i : nat) : follow t k -> rest i = k -> forallb (fun c => negb (existsb (Z.eqb c) toks)) t = true ->
  peek line toks i = Ok false (skip_white line i).
Proof.
  intros Hk HR HT. rewrite peek_eq, HR. destruct k as [|c k]; [done|]. f_equal. cbn in Hk.
  apply (proj1 (forallb_forall _ _) HT) in Hk. by destruct (existsb (Z.eqb c) toks).
Qed.

Lemma peek_yes (c : Z) (t : list Z) (i : nat) : rest i = c :: t -> peek line [c] i = Ok true (skip_white line i).
Proof. intros HR. rewrite peek_eq, HR. cbn. by rewrite Z.eqb_refl. Qed.

(** A simple command. *)
Lemma exec_base (ws : list (list Z)) (rs : list (bool * list Z)) (fuel i : nat) (k : list Z) :
  ast_ok (AExec ws) -> Forall (fun r => word_ok r.2) rs -> follow EXEC_END k -> rest i = show_words ws ++ show_redirs rs ++ k ->
  parses (parseexec line (S fuel)) i (wrap (AExec ws) rs) k.
Proof.
  intros [Hl HW] HRs Hk HR. destruct (exec_end_props k Hk) as (Kn & K1 & K2 & K3). pose proof (rest_length i) as HLen. rewrite HR, !length_app in HLen.
  assert (Hrs : (length rs < S (length line))%nat).
  { enough (length rs <= length (show_redirs rs))%nat by lia. clear. induction rs as [|[inp f] rs IH]; [done|]. unfold show_redirs in *. cbn. rewrite length_app. lia. }
  assert (Hws : (length ws < S (length line))%nat).
  { enough (length ws <= length (show_words ws))%nat by lia. clear. induction ws as [|w ws IH]; [done|]. unfold show_words, show_word in *. cbn. rewrite !length_app. cbn. lia. }
  unfold parses. cbn [parseexec]. unfold bind at 1. rewrite peek_eq, HR.
  assert (E40 : match show_words ws ++ show_redirs rs ++ k with [] => false | c :: _ => existsb (Z.eqb c) [40] end = false).
  { destruct ws as [|w ws]; [|rewrite show_words_cons; apply Forall_cons_1 in HW as [Hw _]; by apply word_head].
    cbn. destruct rs as [|[[] f] rs]; [|done|done]. cbn. destruct k as [|c k]; [done|]. cbn in K3 |- *. lia. }
  rewrite E40. rewrite <- (rest_skip i) in HR. set (i1 := skip_white line i) in *.
  destruct ws as [|w ws].
  - destruct (parseredirs_spec rs (S (length line)) i1 k HRs HR Kn K1 K2 Hrs) as (l & j & HP & Hj & HF).
    unfold loops. unfold bind at 1. rewrite HP. destruct (parseargs_end (length line) 0 j k Hk Hj) as (j2 & HE & Hj2). unfold bind. rewrite HE.
    eexists _, j2. split_and!; [done|done|]. cbn. rewrite app_nil_r. apply means_wrap; [constructor|done].
  - destruct (parseredirs_spec [] (S (length line)) i1 (show_words (w :: ws) ++ show_redirs rs ++ k)) as (l & j & HP & Hj & HF); [constructor|exact HR| | | |cbn; lia|].
    + apply show_words_normal, show_redirs_normal; done.
    + rewrite show_words_cons. apply Forall_cons_1 in HW as [[N F] _]. destruct w as [|c w]; [done|]. apply Forall_cons_1 in F as [[Hc _] _]. cbn. by intros ->.
    + rewrite show_words_cons. apply Forall_cons_1 in HW as [[N F] _]. destruct w as [|c w]; [done|]. apply Forall_cons_1 in F as [[Hc _] _]. cbn. by intros ->.
    + inversion HF; subst l. unfold loops. unfold bind at 1. rewrite HP.
      destruct (parseargs_spec (w :: ws) rs k HRs Hk Hrs (S (length line)) 0 j HW) as (l1 & lr & j2 & HE & Hj2 & F1 & F2); [cbn in *; lia|lia|done|done|].
      unfold bind. rewrite HE. eexists _, j2. split_and!; [done|done|]. cbn [fst snd app]. by apply means_wrap.
Qed.

(** A text starts with a word or a symbol. *)
Lemma show_follow (a : ast) (lv : level) (k : list Z) : ast_ok a -> follow [124; 41; 38; 59; 60; 62] k -> normal (show lv a ++ k).
Proof.
  revert lv k. induction a as [ws|a IH inp f|l IHl r IHr|l IHl r IHr|a IH]; intros lv k Ha Hk; cbn [show].
  - apply show_words_normal; [apply Ha|by apply follow_normal].
  - rewrite <- app_assoc. apply IH; [apply Ha|]. destruct inp; cbn; lia.
  - destruct lv; cbn [paren app]; try done; rewrite <- app_assoc; (apply IHl; [apply Ha|cbn; lia]).
  - destruct lv; cbn [paren app]; try done; rewrite <- app_assoc; (apply IHl; [apply Ha|cbn; lia]).
  - destruct lv; cbn [paren app]; try done; rewrite <- app_assoc; (apply IH; [apply Ha|cbn; lia]).
Qed.

(** A command in parentheses. *)
Lemma block_base (core : ast) (rs : list (bool * list Z)) (fuel i : nat) (k : list Z) :
  ast_ok core -> PL core -> show LBase core = 40 :: show LLine core ++ [41] -> Forall (fun r => word_ok r.2) rs -> follow EXEC_END k ->
  rest i = show LBase core ++ show_redirs rs ++ k -> (4 * length (show LBase core) + 1 <= fuel)%nat ->
  parses (parseexec line fuel) i (wrap core rs) k.
Proof.
  intros Oc HL HS HRs Hk HR Hfu. destruct (exec_end_props k Hk) as (Kn & K1 & K2 & K3). rewrite HS in HR, Hfu. cbn [length] in Hfu. rewrite length_app in Hfu. cbn [length] in Hfu.
  destruct fuel as [|[|fuel]]; [lia|lia|]. cbn [app] in HR. rewrite <- app_assoc in HR. cbn [app] in HR.
  unfold parses. cbn [parseexec]. unfold bind at 1. rewrite (peek_yes _ _ _ HR). rewrite <- (rest_skip i) in HR. set (i1 := skip_white line i) in *.
  cbn [parseblock]. unfold bind at 1. rewrite (peek_yes _ _ _ HR). cbn [negb]. rewrite <- (rest_skip i1) in HR. set (i2 := skip_white line i1) in *.
  pose proof (rest_length i2) as HLen. rewrite HR in HLen. cbn [length] in HLen. rewrite !length_app in HLen. cbn [length] in HLen. rewrite !length_app in HLen.
  destruct (gettoken_symbol _ _ _ HR ltac:(cbn; lia)) as (q & e & j & HT & Hj). unfold bind at 1. rewrite HT.
  assert (Hnm : normal (show LLine core ++ 41 :: show_redirs rs ++ k)) by (apply show_follow; [done|cbn; lia]).
  rewrite normal_white in Hj by done.
  destruct (HL fuel j (41 :: show_redirs rs ++ k)) as (c & j2 & HP & Hj2 & Hm); [cbn; lia|done|lia|].
  unfold bind at 1. rewrite HP. unfold bind at 1. rewrite (peek_yes _ _ _ Hj2). cbn [negb]. rewrite <- (rest_skip j2) in Hj2.
  destruct (gettoken_symbol _ _ _ Hj2 ltac:(cbn; lia)) as (q3 & e3 & j3 & HT3 & Hj3). unfold bind at 1. rewrite HT3.
  rewrite normal_white in Hj3 by (by apply show_redirs_normal).
  destruct (parseredirs_spec rs (loops line) j3 k HRs Hj3 Kn K1 K2) as (l & j4 & HP4 & Hj4 & HF).
  { unfold loops. enough (length rs <= length (show_redirs rs))%nat by lia. clear. induction rs as [|[inp f] rs IH]; [done|]. unfold show_redirs in *. cbn. rewrite length_app. lia. }
  unfold bind. rewrite HP4. eexists _, j4. split_and!; [done|done|]. by apply means_wrap.
Qed.

Lemma pipe_of_base (a : ast) : PB a -> show LPipe a = show LBase a -> PP a.
Proof.
  intros HB HS fuel i k Hk HR Hfu. rewrite HS in *. destruct fuel as [|fuel]; [lia|].
  destruct (HB fuel i k) as (c & j & HP & Hj & Hm); [by apply (follow_sub [41; 38; 59]); [intros x; cbn; tauto|]|done|lia|].
  unfold parses. cbn [parsepipe]. unfold bind at 1. rewrite HP. unfold bind. rewrite (peek_no [124] _ _ _ Hk Hj eq_refl).
  exists c, (skip_white line j). by rewrite rest_skip.
Qed.

Lemma pipe_step (l r : ast) : ast_ok r -> PB l -> PP r -> PP (APipe l r).
Proof.
  intros Or HB HP fuel i k Hk HR Hfu. cbn [show paren] in HR, Hfu. rewrite length_app in Hfu. cbn [length] in Hfu. destruct fuel as [|fuel]; [lia|].
  rewrite <- app_assoc in HR. cbn [app] in HR.
  destruct (HB fuel i (124 :: show LPipe r ++ k)) as (c & j & HP1 & Hj & Hm); [cbn; lia|done|lia|].
  unfold parses. cbn [parsepipe]. unfold bind at 1. rewrite HP1. unfold bind at 1. rewrite (peek_yes _ _ _ Hj). rewrite <- (rest_skip j) in Hj.
  destruct (gettoken_symbol _ _ _ Hj ltac:(cbn; lia)) as (q & e & j2 & HT & Hj2). unfold bind at 1. rewrite HT.
  rewrite normal_white in Hj2 by (apply show_follow; [done|by apply (follow_sub [41; 38; 59]); [intros x; cbn; tauto|]]).
  destruct (HP fuel j2 k Hk Hj2 ltac:(lia)) as (d & j3 & HP3 & Hj3 & Hm3). unfold bind. rewrite HP3.
  eexists _, j3. by split_and!.
Qed.

Lemma back_of_pipe (a : ast) : PP a -> show LBack a = show LPipe a -> PK a.
Proof.
  intros HP HS fuel i k Hk HR Hfu. rewrite HS in *. destruct (HP fuel i k Hk HR Hfu) as (c & j & H1 & Hj & Hm).
  exists c, j, 0%nat. split_and!; [lia|done|done|]. intros n. unfold bind. by rewrite H1.
Qed.

Lemma back_step (a : ast) : PK a -> PK (ABack a).
Proof.
  intros HK fuel i k Hk HR Hfu. cbn [show paren] in *. rewrite length_app in Hfu. cbn [length] in Hfu. rewrite <- app_assoc in HR. cbn [app] in HR.
  destruct (HK fuel i (38 :: k)) as (c & j & m & Hm & Hj & Hc & HN); [cbn; lia|done|lia|]. pose proof Hj as Hj0. rewrite <- (rest_skip j) in Hj.
  destruct (gettoken_symbol _ _ _ Hj ltac:(cbn; lia)) as (q & e & j2 & HT & Hj2).
  rewrite normal_white in Hj2 by (destruct k as [|x k]; [done|]; cbn in Hk |- *; destruct Hk as [<-|[<-|[<-|[]]]]; done).
  exists (Back c), j2, (S m). rewrite length_app. split_and!; [cbn; lia|done|done|]. intros n.
  replace (S m + n)%nat with (m + S n)%nat by lia. rewrite HN. cbn [parseback]. unfold bind at 1. rewrite (peek_yes _ _ _ Hj0). unfold bind. by rewrite HT.
Qed.

(** The end of the loop over [&]. *)
Lemma back_end (n : nat) (c : cmd) (j : nat) (k : list Z) : follow [41; 59] k -> rest j = k ->
  parseback line (S n) c j = Ok c (skip_white line j).
Proof. intros Hk Hj. cbn [parseback]. unfold bind. by rewrite (peek_no [38] _ _ _ Hk Hj eq_refl). Qed.

(** [parseline] up to the test for a semicolon. *)
Lemma line_back (a : ast) (fuel i : nat) (k : list Z) (K : cmd -> MP cmd) :
  PK a -> follow [41; 59] k -> rest i = show LBack a ++ k -> (4 * length (show LBack a) + 2 <= fuel)%nat ->
  exists c j, rest j = k /\ means c a /\
    (let! c := parsepipe line fuel in let! c := parseback line (loops line) c in K c) i = K c j.
Proof.
  intros HK Hk HR Hfu. destruct (HK fuel i k) as (c & j & m & Hm & Hj & Hc & HN); [by apply (follow_sub [41; 59]); [intros x; cbn; tauto|]|done|done|].
  pose proof (rest_length i) as HLen. rewrite HR, length_app in HLen.
  exists c, (skip_white line j). split_and!; [by rewrite rest_skip|done|]. rewrite bind_assoc.
  unfold loops. replace (S (length line)) with (m + S (length line - m))%nat by lia. unfold bind at 1. rewrite HN. by rewrite (back_end _ c j k).
Qed.

Lemma line_of_back (a : ast) : PK a -> show LLine a = show LBack a -> PL a.
Proof.
  intros HK HS fuel i k Hk HR Hfu. rewrite HS in *. destruct fuel as [|fuel]; [lia|]. unfold parses. cbn [parseline].
  edestruct (line_back a fuel i k) as (c & j & Hj & Hm & ->); [done|by apply (follow_sub [41]); [intros x; cbn; tauto|]|done|lia|].
  unfold bind. rewrite (peek_no [59] _ _ _ Hk Hj eq_refl). exists c, (skip_white line j). by rewrite rest_skip.
Qed.

Lemma line_step (l r : ast) : ast_ok r -> PK l -> PL r -> PL (AList l r).
Proof.
  intros Or HK HL fuel i k Hk HR Hfu. cbn [show paren] in HR, Hfu. rewrite length_app in Hfu. cbn [length] in Hfu. destruct fuel as [|fuel]; [lia|].
  rewrite <- app_assoc in HR. cbn [app] in HR. unfold parses. cbn [parseline].
  edestruct (line_back l fuel i (59 :: show LLine r ++ k)) as (c & j & Hj & Hm & ->); [done|cbn; lia|done|lia|].
  unfold bind at 1. rewrite (peek_yes _ _ _ Hj). rewrite <- (rest_skip j) in Hj.
  destruct (gettoken_symbol _ _ _ Hj ltac:(cbn; lia)) as (q & e & j2 & HT & Hj2). unfold bind at 1. rewrite HT.
  rewrite normal_white in Hj2 by (apply show_follow; [done|by apply (follow_sub [41]); [intros x; cbn; tauto|]]).
  destruct (HL fuel j2 k Hk Hj2 ltac:(lia)) as (d & j3 & HP3 & Hj3 & Hm3). unfold bind. rewrite HP3. eexists _, j3. by split_and!.
Qed.

Lemma parser_spec (n : nat) : forall a, (ast_size a <= n)%nat -> ast_ok a -> PB a /\ PP a /\ PK a /\ PL a.
Proof.
  induction n as [|n IH]; intros a Hn Ha; [destruct a; cbn in Hn; lia|].
  assert (HBlock : forall core, ast_ok core -> PL core -> show LBase core = 40 :: show LLine core ++ [41] -> PB core).
  { intros core Oc HL HS fuel i k Hk HR Hfu. apply (block_base core [] fuel i k); try done. }
  destruct a as [ws|a inp f|l r|l r|a].
  - assert (HB : PB (AExec ws)).
    { intros fuel i k Hk HR Hfu. destruct fuel as [|fuel]; [lia|]. by apply (exec_base ws [] fuel i k). }
    pose proof (pipe_of_base _ HB eq_refl) as HP. pose proof (back_of_pipe _ HP eq_refl) as HK. split_and!; try done. by apply line_of_back.
  - assert (HB : PB (ARedir a inp f)).
    { destruct (ast_split _ Ha) as (core & rs & E & Hc & Oc & HRs & _ & [->|Hlt]); [cbn in E; by rewrite <- E in Hc|]. intros fuel i k Hk HR Hfu.
      rewrite E in HR, Hfu |- *. rewrite show_wrap in HR, Hfu. rewrite length_app in Hfu. rewrite <- app_assoc in HR. destruct fuel as [|fuel]; [lia|].
      rewrite E in Hn, Hlt. destruct core as [ws'|core inp' f'|l' r'|l' r'|a'].
      1: by apply (exec_base ws' rs fuel i k).
      1: done.
      all: apply (block_base _ rs (S fuel) i k); try done; [apply IH; [lia|done]|lia]. }
    pose proof (pipe_of_base _ HB eq_refl) as HP. pose proof (back_of_pipe _ HP eq_refl) as HK. split_and!; try done. by apply line_of_back.
  - destruct Ha as [Hl Hr]. cbn in Hn. destruct (IH l ltac:(lia) Hl) as (Bl & _). destruct (IH r ltac:(lia) Hr) as (_ & Pr & _).
    pose proof (pipe_step l r Hr Bl Pr) as HP. pose proof (back_of_pipe _ HP eq_refl) as HK. pose proof (line_of_back _ HK eq_refl) as HL.
    split_and!; try done. by apply HBlock.
  - destruct Ha as [Hl Hr]. cbn in Hn. destruct (IH l ltac:(lia) Hl) as (_ & _ & Kl & _). destruct (IH r ltac:(lia) Hr) as (_ & _ & _ & Lr).
    pose proof (line_step l r Hr Kl Lr) as HL. pose proof (HBlock (AList l r) (conj Hl Hr) HL eq_refl) as HB.
    pose proof (pipe_of_base _ HB eq_refl) as HP. split_and!; try done. by apply back_of_pipe.
  - cbn in Hn. destruct (IH a ltac:(lia) Ha) as (_ & _ & Ka & _). pose proof (back_step a Ka) as HK. pose proof (line_of_back _ HK eq_refl) as HL.
    pose proof (HBlock (ABack a) Ha HL eq_refl) as HB. split_and!; try done. by apply pipe_of_base.
Qed.
End Lexer.
