(* ===== verification/ShCmd.v ===== *)
(** * ShCmd: [parsecmd]

    The parser stays inside the line and always ends; what it makes of the text
    of a command, after [nulterminate], reads as that command. *)
From stdpp Require Import base gmap list numbers strings.
From Stdlib Require Import ZArith Lia ZifyBool.
From S2P Require Import Prelude Machine Sh ShThms.

(** ** Positions *)

Section Moves.
Variable line : list Z.
Hypothesis nonul : Forall (fun c => c <> 0) line.

Notation len := (length line).

(** From a position in the line [p] ends, and if it returns it is at the same
    place or further on, in the line, with a value that satisfies [Q]. *)
Definition ends_from {A} (Q : A -> Prop) (p : MP A) (i : nat) : Prop :=
  match p i with Ok a j => (i <= j <= len)%nat /\ Q a | Panic _ => True | _ => False end.

Lemma ends_bind {A B} (Q : A -> Prop) (Q' : B -> Prop) (p : MP A) (q : A -> MP B) (i : nat) :
  ends_from Q p i -> (forall a j, p i = Ok a j -> (i <= j <= len)%nat -> Q a -> ends_from Q' (q a) j) -> ends_from Q' (bind p q) i.
Proof.
  unfold ends_from, bind. destruct (p i) as [a j| | | |]; try done. intros [H HA] HQ. specialize (HQ a j eq_refl H HA).
  destruct (q a j); try done. destruct HQ. split; [lia|done].
Qed.

Lemma ends_ret {A} (Q : A -> Prop) (a : A) (i : nat) : (i <= len)%nat -> Q a -> ends_from Q (ret a) i.
Proof. unfold ends_from. cbn. intros Hi HQ. split; [lia|done]. Qed.

(** The pointers of a command to the ends of its words. *)
Fixpoint ends (c : cmd) : list nat :=
  match c with
  | Exec argv => snd <$> argv
  | Redir c r => ends c ++ [r_efile r]
  | PipeCmd l r | ListCmd l r => ends l ++ ends r
  | Back c => ends c
  end.

(** The words of a command: where each begins, [argv[i]] or [file], and where
    it ends, [eargv[i]] or [efile]. *)
Definition redir_word (r : redir) : nat * nat := (r_file r, r_efile r).
Fixpoint words (c : cmd) : list (nat * nat) :=
  match c with
  | Exec argv => argv
  | Redir c r => words c ++ [redir_word r]
  | PipeCmd l r | ListCmd l r => words l ++ words r
  | Back c => words c
  end.

Lemma ends_words (c : cmd) : ends c = snd <$> words c.
Proof. induction c as [l|c IH r|l IHl r IHr|l IHl r IHr|c IH]; cbn; rewrite ?fmap_app, ?IH, ?IHl, ?IHr; done. Qed.

(** Words that are not empty and end in the line or at the NUL after it. *)
Definition inside (l : list (nat * nat)) : Prop := Forall (fun p => (p.1 < p.2 <= len)%nat) l.

Lemma inside_redirs (rs : list redir) (c : cmd) : inside (words c) -> inside (redir_word <$> rs) -> inside (words (foldl redircmd c rs)).
Proof.
  revert c. induction rs as [|r rs IH]; intros c Hc HR; cbn; [done|]. apply Forall_cons_1 in HR as [Hr HR]. apply IH; [|done]. apply Forall_app. split; [done|by apply Forall_singleton].
Qed.

Lemma span_length (f : Z -> bool) (l : list Z) : (span f l <= length l)%nat.
Proof. induction l as [|c l IH]; cbn; [lia|]. destruct (f c); lia. Qed.

Lemma skip_bounds (i : nat) : (i <= len)%nat -> (i <= skip_white line i <= len)%nat.
Proof. intros Hi. unfold skip_white. pose proof (span_length is_white (drop i line)) as H. rewrite length_drop in H. lia. Qed.

Lemma ends_peek (toks : list Z) (i : nat) : (i <= len)%nat -> ends_from (fun _ => True) (peek line toks) i.
Proof. intros Hi. unfold ends_from, peek. split; [by apply skip_bounds|done]. Qed.

(** A token is not empty unless the line is at its end. *)
Lemma token_bounds (s : nat) : (s <= len)%nat -> is_white (at_ line s) = false ->
  (s <= (token line s).2 <= len)%nat /\ (at_ line s <> 0 -> (s < (token line s).2)%nat).
Proof.
  intros Hs Hw. unfold token. destruct (Z.eqb_spec (at_ line s) 0) as [E0|E0]; [cbn; lia|].
  assert (Hlt : (s < len)%nat).
  { destruct (decide (s < len)%nat); [done|]. destruct E0. unfold at_. rewrite nth_lookup, lookup_ge_None_2 by lia. done. }
  destruct (existsb (Z.eqb (at_ line s)) [124; 40; 41; 59; 38; 60]) eqn:E1; [cbn; lia|].
  destruct (Z.eqb_spec (at_ line s) 62) as [E2|E2].
  - destruct (Z.eqb_spec (at_ line (S s)) 62) as [E3|E3]; cbn; [|lia].
    assert (S s < len)%nat; [|lia]. destruct (decide (S s < len)%nat); [done|]. unfold at_ in E3. by rewrite nth_lookup, lookup_ge_None_2 in E3 by lia.
  - cbn. pose proof (span_length is_word (drop s line)) as H. rewrite length_drop in H. split; [lia|]. intros _.
    assert (Hsp : drop s line = at_ line s :: drop (S s) line).
    { destruct (lookup_lt_is_Some_2 line s Hlt) as [c Hc]. unfold at_. rewrite nth_lookup, Hc. by apply drop_S. }
    rewrite Hsp. cbn. unfold is_word. rewrite Hw. cbn.
    replace (is_symbol (at_ line s)) with false; [cbn; lia|]. symmetry. unfold is_symbol. cbn in E1 |- *. lia.
Qed.

Lemma white_skip (i : nat) : is_white (at_ line (skip_white line i)) = false.
Proof. rewrite at_rest. pose proof (rest_normal line i) as H. by destruct (rest line i). Qed.

Lemma token_end (s : nat) : at_ line s = 0 -> (token line s).1 = 0.
Proof. unfold token. by intros ->. Qed.

Lemma ends_gettoken (i : nat) : (i <= len)%nat ->
  ends_from (fun t => (t.2 <= len)%nat /\ (t.1.1 <> 0 -> (t.1.2 < t.2)%nat)) (gettoken line) i.
Proof.
  intros Hi. unfold ends_from, gettoken. pose proof (skip_bounds i Hi). destruct (token_bounds (skip_white line i)) as [Ht Hp]; [lia|apply white_skip|].
  pose proof (token_end (skip_white line i)) as H0.
  destruct (token line (skip_white line i)) as [t e]. cbn in Ht, Hp, H0 |- *. pose proof (skip_bounds e). split; [lia|]. split; [lia|].
  intros Hn. apply Hp. intros E. by apply Hn, H0.
Qed.

(** After [peek] has seen a symbol, [gettoken] moves on; so it does when it
    returns a token. *)
Lemma gettoken_moves (i j : nat) t q e : (i <= len)%nat -> gettoken line i = Ok (t, q, e) j -> t <> 0 -> (i < j)%nat.
Proof.
  intros Hi HT Ht. unfold gettoken in HT. pose proof (skip_bounds i Hi) as Hs. destruct (token_bounds (skip_white line i)) as [Hb Hp]; [lia|apply white_skip|].
  destruct (token line (skip_white line i)) as [t' e'] eqn:Et. injection HT as -> <- -> <-. cbn in Hb, Hp. pose proof (skip_bounds e ltac:(lia)).
  assert (at_ line (skip_white line i) <> 0); [|lia]. intros E. unfold token in Et. rewrite E in Et. cbn in Et. congruence.
Qed.

Lemma peek_moves (toks : list Z) (i j : nat) : peek line toks i = Ok true j -> (i <= len)%nat ->
  (j <= len)%nat /\ exists t q e k, gettoken line j = Ok (t, q, e) k /\ (j < k <= len)%nat.
Proof.
  intros HP Hi. unfold peek in HP. injection HP as Hb <-. apply andb_true_iff in Hb as [Hb _]. zbool.
  pose proof (skip_bounds i Hi) as Hs. split; [lia|]. pose proof (ends_gettoken (skip_white line i) ltac:(lia)) as HE. unfold ends_from in HE.
  destruct (gettoken line (skip_white line i)) as [[[t q] e] k|m| | |] eqn:ET; try done; [|unfold gettoken in ET; by destruct (token line _)]. exists t, q, e, k. split; [done|]. split; [|lia].
  eapply gettoken_moves; [|exact ET|]; [lia|]. unfold gettoken in ET.
  assert (Ess : skip_white line (skip_white line i) = skip_white line i).
  { unfold skip_white at 1. fold (rest line i). pose proof (rest_normal line i) as HN. destruct (rest line i) as [|c r]; cbn; [lia|]. cbn in HN. rewrite HN. lia. }
  rewrite Ess in ET. destruct (token line (skip_white line i)) as [t' e'] eqn:Et. injection ET as -> _ _ _. intros ->. unfold token in Et.
  rewrite (proj2 (Z.eqb_neq _ _) Hb) in Et. repeat case_match; simplify_eq; zbool; lia.
Qed.

(** ** Termination *)

Lemma ends_redirs (n : nat) : forall i, (i <= len)%nat -> (len - i < n)%nat -> ends_from (fun rs => inside (redir_word <$> rs)) (parseredirs line n) i.
Proof.
  induction n as [|n IH]; intros i Hi Hn; [lia|]. cbn [parseredirs]. eapply ends_bind; [by apply ends_peek|]. intros p j HP Hj _.
  destruct p; [|apply ends_ret; [lia|constructor]]. destruct (peek_moves _ _ _ HP Hi) as (_ & t & q & e & k & HT & Hk).
  eapply ends_bind; [apply ends_gettoken; lia|]. intros x j1 Hx Hj1 _. rewrite HT in Hx. injection Hx as <- <-.
  eapply ends_bind; [apply ends_gettoken; lia|]. intros f j2 Hf Hj2 [He Hlt]. destruct (Z.eqb_spec f.1.1 97) as [E97|]; [|done]. cbn [negb].
  eapply ends_bind; [apply IH; lia|]. intros rs j3 _ Hj3 HR. apply ends_ret; [lia|]. apply Forall_cons. split; [|done].
  case_match; cbn; (split; [apply Hlt; lia|done]).
Qed.

Lemma ends_args (n : nat) : forall argc i, (i <= len)%nat -> (len - i < n)%nat ->
  ends_from (fun l => inside l.1 /\ inside (redir_word <$> l.2)) (parseargs line n argc) i.
Proof.
  induction n as [|n IH]; intros argc i Hi Hn; [lia|]. cbn [parseargs]. eapply ends_bind; [by apply ends_peek|]. intros p j HP Hj _.
  destruct p; [apply ends_ret; [lia|by split; constructor]|]. eapply ends_bind; [apply ends_gettoken; lia|]. intros [[t q] e] j1 HT Hj1 [He Hlt]. cbn [fst snd] in *.
  destruct (Z.eqb_spec t 0) as [|Ht]; [apply ends_ret; [lia|by split; constructor]|]. destruct (negb (t =? 97)); [done|]. destruct (MAXARGS <=? S argc)%nat; [done|].
  pose proof (gettoken_moves j j1 t q e ltac:(lia) HT Ht) as Hm.
  eapply ends_bind; [apply ends_redirs; lia|]. intros rs j2 _ Hj2 HR. eapply ends_bind; [apply IH; lia|]. intros l j3 _ Hj3 [H1 H2].
  apply ends_ret; [lia|]. split; [apply Forall_cons; split; [cbn; auto|done]|]. cbn. rewrite fmap_app. by apply Forall_app.
Qed.

Lemma ends_back (n : nat) : forall c i, (i <= len)%nat -> inside (words c) -> (len - i < n)%nat -> ends_from (fun c => inside (words c)) (parseback line n c) i.
Proof.
  induction n as [|n IH]; intros c i Hi Hc Hn; [lia|]. cbn [parseback]. eapply ends_bind; [by apply ends_peek|]. intros p j HP Hj _.
  destruct p; [|apply ends_ret; [lia|done]]. destruct (peek_moves _ _ _ HP Hi) as (_ & t & q & e & k & HT & Hk).
  eapply ends_bind; [apply ends_gettoken; lia|]. intros x j1 Hx Hj1 _. rewrite HT in Hx. injection Hx as _ <-. apply IH; [lia|done|lia].
Qed.

(** The four routines: the depth of the calls is at most four for each byte. *)
Lemma ends_parser (fuel : nat) : forall i, (i <= len)%nat ->
  ((4 * (len - i) + 4 <= fuel)%nat -> ends_from (fun c => inside (words c)) (parseline line fuel) i) /\
  ((4 * (len - i) + 3 <= fuel)%nat -> ends_from (fun c => inside (words c)) (parsepipe line fuel) i) /\
  ((4 * (len - i) + 2 <= fuel)%nat -> ends_from (fun c => inside (words c)) (parseexec line fuel) i) /\
  ((4 * (len - i) + 1 <= fuel)%nat -> ends_from (fun c => inside (words c)) (parseblock line fuel) i).
Proof.
  induction fuel as [|fuel IH]; intros i Hi; [split_and!; lia|]. split_and!; intros Hfu.
  - cbn [parseline]. eapply ends_bind; [apply IH; lia|]. intros c j1 _ Hj1 Hc. eapply ends_bind; [apply ends_back; unfold loops; [lia|done|lia]|]. intros c2 j2 _ Hj2 Hc2.
    eapply ends_bind; [apply ends_peek; lia|]. intros p j3 HP Hj3 _. destruct p; [|apply ends_ret; [lia|done]].
    destruct (peek_moves _ _ _ HP ltac:(lia)) as (_ & t & q & e & k & HT & Hk).
    eapply ends_bind; [apply ends_gettoken; lia|]. intros x j4 Hx Hj4 _. rewrite HT in Hx. injection Hx as _ <-.
    eapply ends_bind; [apply IH; lia|]. intros d j5 _ Hj5 Hd. apply ends_ret; [lia|]. by apply Forall_app.
  - cbn [parsepipe]. eapply ends_bind; [apply IH; lia|]. intros c j1 _ Hj1 Hc.
    eapply ends_bind; [apply ends_peek; lia|]. intros p j3 HP Hj3 _. destruct p; [|apply ends_ret; [lia|done]].
    destruct (peek_moves _ _ _ HP ltac:(lia)) as (_ & t & q & e & k & HT & Hk).
    eapply ends_bind; [apply ends_gettoken; lia|]. intros x j4 Hx Hj4 _. rewrite HT in Hx. injection Hx as _ <-.
    eapply ends_bind; [apply IH; lia|]. intros d j5 _ Hj5 Hd. apply ends_ret; [lia|]. by apply Forall_app.
  - cbn [parseexec]. eapply ends_bind; [by apply ends_peek|]. intros p j HP Hj _. destruct p; [apply IH; lia|].
    eapply ends_bind; [apply ends_redirs; unfold loops; lia|]. intros rs j1 _ Hj1 HR.
    eapply ends_bind; [apply ends_args; unfold loops; lia|]. intros l j2 _ Hj2 [H1 H2]. apply ends_ret; [lia|].
    apply inside_redirs; [done|]. rewrite fmap_app. by apply Forall_app.
  - cbn [parseblock]. eapply ends_bind; [by apply ends_peek|]. intros p j HP Hj _. destruct p; [|done]. cbn [negb].
    destruct (peek_moves _ _ _ HP Hi) as (_ & t & q & e & k & HT & Hk).
    eapply ends_bind; [apply ends_gettoken; lia|]. intros x j1 Hx Hj1 _. rewrite HT in Hx. injection Hx as _ <-.
    eapply ends_bind; [apply IH; lia|]. intros c j2 _ Hj2 Hc. eapply ends_bind; [apply ends_peek; lia|]. intros p j3 _ Hj3 _. destruct p; [|done]. cbn [negb].
    eapply ends_bind; [apply ends_gettoken; lia|]. intros y j4 _ Hj4 _. eapply ends_bind; [apply ends_redirs; unfold loops; lia|]. intros rs j5 _ Hj5 HR.
    apply ends_ret; [lia|]. by apply inside_redirs.
Qed.
End Moves.

(** ** The stores of [nulterminate] *)

Definition clear (buf : list Z) (l : list nat) : list Z := foldl (fun b e => <[e := 0]> b) buf l.

Lemma nul_clear (c : cmd) (buf : list Z) : nulterminate c buf = clear buf (ends c).
Proof.
  revert buf. induction c as [l|c IH r|l IHl r IHr|l IHl r IHr|c IH]; intros buf; cbn [nulterminate ends]; unfold clear in *; rewrite ?foldl_app.
  - revert buf. induction l as [|p l IH]; intros buf; cbn; [done|]. apply IH.
  - by rewrite IH.
  - by rewrite IHl, IHr.
  - by rewrite IHl, IHr.
  - apply IH.
Qed.

Lemma clear_length (l : list nat) (buf : list Z) : length (clear buf l) = length buf.
Proof. unfold clear. revert buf. induction l as [|e l IH]; intros buf; cbn; [done|]. by rewrite IH, length_insert. Qed.

Lemma clear_other (l : list nat) (buf : list Z) (i : nat) : i ∉ l -> clear buf l !! i = buf !! i.
Proof.
  unfold clear. revert buf. induction l as [|e l IH]; intros buf H; cbn; [done|]. rewrite IH by set_solver. apply list_lookup_insert_ne. set_solver.
Qed.

Lemma clear_end (l : list nat) (buf : list Z) (i : nat) : i ∈ l -> (i < length buf)%nat -> clear buf l !! i = Some 0.
Proof.
  unfold clear. revert buf. induction l as [|e l IH]; intros buf H Hl; cbn; [set_solver|]. destruct (decide (i ∈ l)) as [Hi|Hi].
  - apply IH; [done|]. by rewrite length_insert.
  - assert (i = e) as -> by set_solver. fold (clear (<[e := 0]> buf) l). rewrite clear_other by done. by apply list_lookup_insert_eq.
Qed.

(** C28. On every line without NUL bytes [parsecmd] ends: it refuses the line in
    the panic of a syntax error, or it returns a tree each of whose words,
    arguments and file names alike, begins inside the line, is not empty and
    ends inside the line or at the NUL after it; and [nulterminate] has stored a
    NUL exactly at the ends of the words and changed no other byte. *)
Theorem parsecmd_ends (line : list Z) :
  Forall (fun c => c <> 0) line ->
  match parsecmd line 0%nat with
  | Ok (c, buf) _ =>
      inside line (words c) /\ length buf = S (length line) /\
      (forall p, p ∈ words c -> buf !! p.2 = Some 0) /\
      (forall i, i ∉ snd <$> words c -> buf !! i = (line ++ [0]) !! i)
  | Panic _ => True
  | _ => False
  end.
Proof.
  intros HN. destruct (ends_parser line (4 * length line + 5) 0 ltac:(lia)) as [HL _]. specialize (HL ltac:(lia)). unfold ends_from in HL.
  unfold parsecmd, bind. destruct (parseline line (4 * length line + 5) 0%nat) as [c j| | | |]; try done. destruct HL as [Hj Hc].
  unfold peek, gets. cbn. destruct (negb _); [done|]. split; [done|].
  rewrite nul_clear, clear_length, length_app, ends_words. cbn. split_and!; [lia| |].
  - intros p Hp. apply clear_end; [apply list_elem_of_fmap; eauto|].
    pose proof (proj1 (Forall_forall _ _) Hc p Hp) as Hb. rewrite length_app. cbn in *. lia.
  - intros i Hi. by apply clear_other.
Qed.

(** [ls > x] *)
Lemma parsecmd_ends_witness :
  exists c buf j, parsecmd [108; 115; 32; 62; 32; 120] 0%nat = Ok (c, buf) j /\
    words c = [(0, 2); (5, 6)]%nat /\ inside [108; 115; 32; 62; 32; 120] (words c) /\ length buf = 7%nat.
Proof.
  pose proof (parsecmd_ends [108; 115; 32; 62; 32; 120]) as H.
  specialize (H ltac:(repeat (apply Forall_cons_2; [lia|]); constructor)).
  destruct (parsecmd [108; 115; 32; 62; 32; 120] 0%nat) as [[c buf] j| | | |] eqn:E; vm_compute in E; try discriminate E.
  exists c, buf, j. split; [reflexivity|]. injection E as <- <- <-. split; [reflexivity|]. split; apply H.
Defined.

(** ** Words in the buffer *)

(** The C string at the head of a buffer. *)
Fixpoint cstr (l : list Z) : list Z := match l with [] => [] | c :: q => if c =? 0 then [] else c :: cstr q end.

(** The command that the pointers stand for in a buffer, as [runcmd] and
    [exec] read it. *)
Fixpoint strings (buf : list Z) (c : cmd) : ast :=
  match c with
  | Exec argv => AExec ((fun p => cstr (drop p.1 buf)) <$> argv)
  | Redir c r => ARedir (strings buf c) ((r_mode r =? 0) && (r_fd r =? 0)) (cstr (drop (r_file r) buf))
  | PipeCmd l r => APipe (strings buf l) (strings buf r)
  | ListCmd l r => AList (strings buf l) (strings buf r)
  | Back c => ABack (strings buf c)
  end.

Lemma cstr_spec (w l : list Z) : Forall (fun c => c <> 0) w -> (forall i, (i < length w)%nat -> l !! i = w !! i) -> l !! length w = Some 0 -> cstr l = w.
Proof.
  intros HF. revert l. induction HF as [|c w Hc HF IH]; intros l HW H0.
  - destruct l as [|x l]; [done|]. cbn in H0. injection H0 as ->. done.
  - pose proof (HW 0%nat ltac:(cbn; lia)) as Hx. destruct l as [|x l]; [done|]. cbn in Hx. injection Hx as ->. cbn.
    rewrite (proj2 (Z.eqb_neq c 0) Hc). f_equal. apply IH; [|done]. intros i Hi. apply (HW (S i)). cbn. lia.
Qed.

(** A word of the tree, in the buffer after [nulterminate]. *)
Lemma read_word (line : list Z) (l : list nat) (p : nat * nat) (w : list Z) :
  (forall e, e ∈ l -> delim (drop e line)) -> p.2 ∈ l -> word_at line p w -> cstr (drop p.1 (clear (line ++ [0]) l)) = w.
Proof.
  destruct p as [q e]. cbn. intros HD He (Ee & [Hw HF] & t & Et & Ht). cbn in *.
  assert (HL : (q + length w + length t = length line)%nat).
  { pose proof (f_equal length Et) as H. rewrite length_drop, length_app in H. destruct w; [done|]. cbn in *. lia. }
  apply cstr_spec.
  - eapply Forall_impl; [exact HF|]. by intros c [_ Hc].
  - intros i Hi. rewrite lookup_drop. assert (Hc : line !! (q + i)%nat = w !! i) by (rewrite <- lookup_drop, Et; by apply lookup_app_l).
    destruct (lookup_lt_is_Some_2 w i Hi) as [c Ec]. rewrite Ec in *.
    rewrite clear_other; [rewrite lookup_app_l; [done|lia]|]. intros Hin. specialize (HD _ Hin).
    rewrite (drop_S line c (q + i) Hc) in HD. cbn in HD. rewrite Forall_lookup in HF. destruct (HF i c Ec). congruence.
  - rewrite lookup_drop, <- Ee. apply clear_end; [done|]. rewrite length_app. cbn. lia.
Qed.

Lemma means_ends (line : list Z) (c : cmd) : forall a, means line c a -> forall e, e ∈ ends c -> delim (drop e line).
Proof.
  assert (HW : forall p w, word_at line p w -> delim (drop p.2 line)).
  { intros [q e] w (Ee & _ & t & Et & Ht). cbn in *. by rewrite Ee, <- drop_drop, Et, drop_app_length. }
  induction c as [l|c IH r|l IHl r IHr|l IHl r IHr|c IH]; intros [ws|a inp f|a1 a2|a1 a2|a] Hm e He; cbn in Hm, He; try done.
  - apply list_elem_of_fmap in He as (p & -> & Hp). apply list_elem_of_lookup in Hp as [i Hi].
    destruct (Forall2_lookup_l _ _ _ _ _ Hm Hi) as (w & _ & Hw). by apply (HW p w).
  - destruct Hm as [Hm [Hr _]]. apply elem_of_app in He as [He|He]; [by eapply IH|]. apply list_elem_of_singleton in He as ->. by apply (HW (r_file r, r_efile r) f).
  - destruct Hm as [H1 H2]. apply elem_of_app in He as [He|He]; [by eapply IHl|by eapply IHr].
  - destruct Hm as [H1 H2]. apply elem_of_app in He as [He|He]; [by eapply IHl|by eapply IHr].
  - by eapply IH.
Qed.

Lemma strings_means (line buf : list Z) (c : cmd) : forall a,
  means line c a -> (forall p w, p.2 ∈ ends c -> word_at line p w -> cstr (drop p.1 buf) = w) -> strings buf c = a.
Proof.
  induction c as [l|c IH r|l IHl r IHr|l IHl r IHr|c IH]; intros [ws|a inp f|a1 a2|a1 a2|a] Hm HR; cbn in Hm |- *; try done.
  - f_equal. cbn in HR. induction Hm as [|p w l ws Hw HF IH]; [done|]. cbn. f_equal; [apply HR; [set_solver|done]|].
    apply IH. intros p' w' Hp'. apply HR. set_solver.
  - destruct Hm as [Hm [Hr Em]]. cbn in Em. rewrite (IH a) by (done || (intros; apply HR; [set_solver|done])).
    assert (Ef : cstr (drop (r_file r) buf) = f) by (apply (HR (r_file r, r_efile r) f); [cbn; set_solver|done]). rewrite Ef.
    by destruct inp; injection Em as -> ->.
  - destruct Hm as [H1 H2]. f_equal; [apply IHl|apply IHr]; try done; intros; apply HR; set_solver.
  - destruct Hm as [H1 H2]. f_equal; [apply IHl|apply IHr]; try done; intros; apply HR; set_solver.
  - f_equal. by apply IH.
Qed.

Lemma show_nonul (a : ast) (lv : level) : ast_ok a -> Forall (fun c => c <> 0) (show lv a).
Proof.
  assert (HW : forall w, word_ok w -> Forall (fun c => c <> 0) (show_word w)).
  { intros w [_ HF]. apply Forall_app. split; [|by repeat constructor]. eapply Forall_impl; [exact HF|]. by intros c [_ Hc]. }
  assert (HP : forall b t, Forall (fun c => c <> 0) t -> Forall (fun c => c <> 0) (paren b t)).
  { intros [] t Ht; [|done]. apply Forall_cons. split; [done|]. apply Forall_app. split; [done|by repeat constructor]. }
  revert lv. induction a as [ws|a IH inp f|l IHl r IHr|l IHl r IHr|a IH]; intros lv Ha; cbn [show].
  - destruct Ha as [_ Ha]. unfold show_words. induction Ha as [|w ws Hw Ha IH]; [constructor|]. cbn. apply Forall_app. by split; [apply HW|].
  - destruct Ha as [Ha Hf]. apply Forall_app. split; [by apply IH|]. apply Forall_cons. split; [by destruct inp|by apply HW].
  - destruct Ha. apply HP, Forall_app. split; [by apply IHl|]. apply Forall_cons. by split; [|apply IHr].
  - destruct Ha. apply HP, Forall_app. split; [by apply IHl|]. apply Forall_cons. by split; [|apply IHr].
  - apply HP, Forall_app. split; [by apply IH|by repeat constructor].
Qed.

(** The redirections that the parser makes: reading on descriptor 0, writing on
    descriptor 1. *)
Definition O_CREATE_WRONLY : Z := 513.
Fixpoint redirs_std (c : cmd) : Prop :=
  match c with
  | Exec _ => True
  | Redir c r => redirs_std c /\ ((r_mode r = 0 /\ r_fd r = 0) \/ (r_mode r = O_CREATE_WRONLY /\ r_fd r = 1))
  | PipeCmd l r | ListCmd l r => redirs_std l /\ redirs_std r
  | Back c => redirs_std c
  end.

Lemma means_redirs (line : list Z) (c : cmd) : forall a, means line c a -> redirs_std c.
Proof.
  induction c as [l|c IH r|l IHl r IHr|l IHl r IHr|c IH]; intros [ws|a inp f|a1 a2|a1 a2|a] Hm; cbn in Hm |- *; try done.
  - destruct Hm as [Hm [_ Em]]. split; [by eapply IH|]. destruct inp; injection Em as -> ->; auto.
  - destruct Hm as [H1 H2]. split; [by eapply IHl|by eapply IHr].
  - destruct Hm as [H1 H2]. split; [by eapply IHl|by eapply IHr].
  - by eapply IH.
Qed.

Lemma parsecmd_reads (a : ast) :
  ast_ok a -> wp (parsecmd (show LLine a)) (fun p _ => strings p.2 p.1 = a /\ redirs_std p.1) 0%nat.
Proof.
  intros Ha. set (line := show LLine a). pose proof (show_nonul a LLine Ha) as HN. fold line in HN.
  assert (HR : rest line 0 = show LLine a ++ []).
  { rewrite rest_drop, drop_0, app_nil_r. apply normal_white. unfold line. rewrite <- (app_nil_r (show LLine a)). by apply show_follow. }
  destruct (parser_spec line HN (ast_size a) a ltac:(lia) Ha) as (_ & _ & _ & HL).
  destruct (HL (4 * length line + 5)%nat 0%nat [] I HR ltac:(fold line; lia)) as (c & j & HP & Hj & Hm).
  destruct (ends_parser line (4 * length line + 5) 0 ltac:(lia)) as [HE _]. specialize (HE ltac:(lia)). unfold ends_from in HE. rewrite HP in HE. destruct HE as [Hb _].
  unfold parsecmd, wp, bind. rewrite HP. unfold peek, gets. cbn.
  assert (Es : skip_white line j = length line).
  { unfold rest in Hj. apply (f_equal length) in Hj. rewrite length_drop in Hj. cbn in Hj. pose proof (skip_bounds line j ltac:(lia)). lia. }
  rewrite Es, Nat.eqb_refl. cbn. split; [|by apply (means_redirs line c a)]. apply (strings_means line); [done|]. intros p w Hp Hw. rewrite nul_clear.
  apply read_word; [|done|done]. by apply (means_ends line c a).
Qed.

(** The parser reads back what the syntax says: for every command (simple
    commands with up to nine words, redirections, pipes, lists, background
    commands, nested in any way), [parsecmd] accepts its text and returns a tree
    whose pointers, in the buffer that [nulterminate] has cut into strings, are
    exactly that command. *)
Theorem parsecmd_reads_back (a : ast) :
  ast_ok a -> wp (parsecmd (show LLine a)) (fun p _ => strings p.2 p.1 = a) 0%nat.
Proof. intros Ha. eapply wp_mono; [by apply parsecmd_reads|]. by intros p s [H _]. Qed.

(** [ls -l > x | (wc; a &)] *)
Definition sample_cmd : ast := APipe (ARedir (AExec [[108; 115]; [45; 108]]) false [120]) (AList (AExec [[119; 99]]) (ABack (AExec [[97]]))).

Lemma parsecmd_reads_back_witness : wp (parsecmd (show LLine sample_cmd)) (fun p _ => strings p.2 p.1 = sample_cmd) 0%nat.
Proof.
  apply (parsecmd_reads_back sample_cmd). cbn. unfold MAXARGS.
  repeat match goal with
  | |- _ /\ _ => split
  | |- Forall _ (_ :: _) => apply Forall_cons
  | |- Forall _ [] => constructor
  | |- word_ok _ => split; [done|]
  | |- _ => done || lia
  end.
Defined.
