(* ===== verification/ShRun.v ===== *)
(** * ShRun: how the shell runs commands ([runcmd], [getcmd] and [main] of [sh.c])

    The processes that the shell makes for a command, each with its table of
    descriptors, built by the [close], [dup], [open] and [pipe] calls of
    [runcmd].  The reference is the wiring that the syntax stands for: which
    channel each program has as input and output. *)
From stdpp Require Import base gmap list numbers strings.
From Stdlib Require Import ZArith Lia ZifyBool.
From S2P Require Import Prelude Machine Sh ShThms ShCmd.

(** ** Descriptors *)

Inductive chan := Console | Opened (path : list Z) (mode : Z) | PipeR (n : nat) | PipeW (n : nat).
Abbreviation fdt := (list (option chan)).

(** The system calls on the table of a process; a new descriptor is the lowest
    free one. *)
Fixpoint lowest (i : nat) (fds : fdt) : option nat :=
  match fds with [] => None | None :: _ => Some i | Some _ :: fds => lowest (S i) fds end.
Definition sh_close (fd : nat) (fds : fdt) : fdt := <[fd := None]> fds.
Definition sh_new (c : chan) (fds : fdt) : option (nat * fdt) :=
  match lowest 0 fds with Some i => Some (i, <[i := Some c]> fds) | None => None end.
Definition sh_dup (fd : nat) (fds : fdt) : fdt :=
  match fds !! fd with
  | Some (Some c) => match sh_new c fds with Some (_, fds) => fds | None => fds end
  | _ => fds
  end.

(** ** Processes *)

Inductive fate := Execs (argv : list (list Z)) | Exits.

(** What a process does up to its [exec] or [exit], and its descriptors
    then. *)
Inductive proc := Proc (steps : list step) (fin : fate) (fds : fdt)
with step := Fork (p : proc) | Wait | Say (text : list Z).

Definition before (l : list step) (p : proc) : proc := let 'Proc steps fin fds := p in Proc (l ++ steps) fin fds.

Definition chars (s : string) : list Z := (fun c => Z.of_nat (Ascii.nat_of_ascii c)) <$> String.list_ascii_of_string s.

(** What succeeds: opening a file, running a program, and the forks and pipes
    by their number. *)
Class Env := {
  can_open : list Z -> Z -> bool;
  can_exec : list (list Z) -> bool;
  fork_ok : nat -> bool;
  pipe_ok : nat -> bool;
}.

Record shst := mksh { forks : nat; pipes : nat }.
Notation MS := (M shst).

Section Run.
Context {En : Env}.

(** [panic] of the shell prints and exits. *)
Definition sh_panic (text : string) (fds : fdt) : MS proc := ret (Proc [Say (chars text ++ [10])] Exits fds).

(** [fork1] and the test of its result: the child and then the parent. *)
Definition fork1 (child : MS proc) (fds : fdt) (parent : proc -> MS proc) : MS proc :=
  let! s := gets id in
  modify (fun s => mksh (S (forks s)) (pipes s)) ;;;
  if fork_ok (forks s) then let! p := child in parent p else sh_panic "fork" fds.

(** [pipe] *)
Definition sh_pipe (fds : fdt) : MS (option (nat * nat * fdt)) :=
  let! s := gets id in
  modify (fun s => mksh (forks s) (S (pipes s))) ;;;
  if negb (pipe_ok (pipes s)) then ret None
  else
    match sh_new (PipeR (pipes s)) fds with
    | None => ret None
    | Some (p0, fds1) =>
        match sh_new (PipeW (pipes s)) fds1 with
        | None => ret None
        | Some (p1, fds2) => ret (Some (p0, p1, fds2))
        end
    end.

(** [open] *)
Definition sh_open (path : list Z) (mode : Z) (fds : fdt) : option fdt :=
  if can_open path mode then snd <$> sh_new (Opened path mode) fds else None.

Definition exec_failed (a : list Z) : step := Say (chars "exec " ++ a ++ chars " failed" ++ [10]).
Definition open_failed (f : list Z) : step := Say (chars "open " ++ f ++ chars " failed" ++ [10]).

Fixpoint runcmd (buf : list Z) (c : cmd) (fds : fdt) : MS proc :=
  match c with
  | Exec argv =>
      let argv := (fun p => cstr (drop p.1 buf)) <$> argv in
      match argv with
      | [] => ret (Proc [] Exits fds)
      | a :: _ => if can_exec argv then ret (Proc [] (Execs argv) fds) else ret (Proc [exec_failed a] Exits fds)
      end
  | Redir c r =>
      let file := cstr (drop (r_file r) buf) in
      let fds := sh_close (Z.to_nat (r_fd r)) fds in
      match sh_open file (r_mode r) fds with
      | None => ret (Proc [open_failed file] Exits fds)
      | Some fds => runcmd buf c fds
      end
  | ListCmd l r =>
      fork1 (runcmd buf l fds) fds (fun p => let! q := runcmd buf r fds in ret (before [Fork p; Wait] q))
  | PipeCmd l r =>
      let! p := sh_pipe fds in
      match p with
      | None => sh_panic "pipe" fds
      | Some (p0, p1, fds) =>
          fork1 (runcmd buf l (sh_close p1 (sh_close p0 (sh_dup p1 (sh_close 1 fds))))) fds (fun pl =>
            let! q := fork1 (runcmd buf r (sh_close p1 (sh_close p0 (sh_dup p0 (sh_close 0 fds))))) fds (fun pr =>
              ret (Proc [Fork pr; Wait; Wait] Exits (sh_close p1 (sh_close p0 fds)))) in
            ret (before [Fork pl] q))
      end
  | Back c => fork1 (runcmd buf c fds) fds (fun p => ret (Proc [Fork p] Exits fds))
  end.

(** The descriptors that [main] makes sure of: it opens the console until it
    gets a descriptor that is not among the first three. *)
Fixpoint ensure_fds (fuel : nat) (fds : fdt) : option fdt :=
  match fuel with
  | O => None
  | S fuel =>
      match (if can_open (chars "console") 2 then sh_new Console fds else None) with
      | None => Some fds
      | Some (fd, fds') => if (3 <=? fd)%nat then Some (sh_close fd fds') else ensure_fds fuel fds'
      end
  end.

(** What [main] does with a line: [cd] itself, or a child that parses and runs
    it. *)
Inductive action := Chdir (path : list Z) | Runs (p : proc) | Bad.
Definition sh_line (buf : list Z) (fds : fdt) : MS action :=
  if (nth 0 buf 0 =? 99) && (nth 1 buf 0 =? 100) && (nth 2 buf 0 =? 32) then ret (Chdir (drop 3 (take (length buf - 1) buf)))
  else
    match parsecmd buf 0%nat with
    | Ok (c, text) _ => let! p := fork1 (runcmd text c fds) fds (fun p => ret (Proc [Fork p; Wait] Exits fds)) in ret (Runs p)
    | Panic msg => let! p := fork1 (sh_panic msg fds) fds (fun p => ret (Proc [Fork p; Wait] Exits fds)) in ret (Runs p)
    | _ => ret Bad
    end.

(** ** What a command stands for *)

(** A process with three descriptors. *)
Definition std (i o e : chan) : fdt := [Some i; Some o; Some e] ++ replicate 13 None.

Definition newfork : MS unit := modify (fun s => mksh (S (forks s)) (pipes s)).
Definition newpipe : MS nat := let! s := gets id in modify (fun s => mksh (forks s) (S (pipes s))) ;;; ret (pipes s).

Fixpoint wire (a : ast) (i o e : chan) : MS proc :=
  match a with
  | AExec [] => ret (Proc [] Exits (std i o e))
  | AExec (w :: ws) => ret (if can_exec (w :: ws) then Proc [] (Execs (w :: ws)) (std i o e) else Proc [exec_failed w] Exits (std i o e))
  | ARedir a true f =>
      if can_open f 0 then wire a (Opened f 0) o e else ret (Proc [open_failed f] Exits (sh_close 0 (std i o e)))
  | ARedir a false f =>
      if can_open f O_CREATE_WRONLY then wire a i (Opened f O_CREATE_WRONLY) e else ret (Proc [open_failed f] Exits (sh_close 1 (std i o e)))
  | AList l r =>
      newfork ;;; let! p := wire l i o e in let! q := wire r i o e in ret (before [Fork p; Wait] q)
  | APipe l r =>
      let! n := newpipe in
      newfork ;;; let! pl := wire l i (PipeW n) e in
      newfork ;;; let! pr := wire r (PipeR n) o e in
      ret (Proc [Fork pl; Fork pr; Wait; Wait] Exits (std i o e))
  | ABack a => newfork ;;; let! p := wire a i o e in ret (Proc [Fork p] Exits (std i o e))
  end.

(** ** The shell wires commands as they are written *)

Hypothesis forks_ok : forall n, fork_ok n = true.
Hypothesis pipes_ok : forall n, pipe_ok n = true.

Lemma fork1_ok child fds parent s : fork1 child fds parent s = (newfork ;;; let! p := child in parent p) s.
Proof. unfold fork1, bind, gets, modify, newfork, id. by rewrite forks_ok. Qed.

Lemma bind_eq {A B} (c c' : MS A) (k k' : A -> MS B) s : c s = c' s -> (forall a s', k a s' = k' a s') -> bind c k s = bind c' k' s.
Proof. intros E HK. unfold bind. rewrite E. by destruct (c' s). Qed.

Lemma sh_pipe_std i o e s :
  sh_pipe (std i o e) s = (let! n := newpipe in ret (Some (3, 4, <[4 := Some (PipeW n)]> (<[3 := Some (PipeR n)]> (std i o e)))))%nat s.
Proof. unfold sh_pipe, newpipe, bind, gets, modify, id, ret. by rewrite pipes_ok. Qed.

Lemma seq_assoc {A B C} (c : MS A) (k : A -> MS B) (g : B -> MS C) s : bind (bind c k) g s = bind c (fun a => bind (k a) g) s.
Proof. unfold bind. by destruct (c s). Qed.

Lemma runcmd_wires buf c : redirs_std c -> forall i o e s, runcmd buf c (std i o e) s = wire (strings buf c) i o e s.
Proof.
  induction c as [argv|c IH r|l IHl r IHr|l IHl r IHr|c IH]; intros HR i o e s; cbn [runcmd strings wire redirs_std] in *.
  - destruct argv as [|p argv]; [done|]. cbn [fmap list_fmap]. by destruct (can_exec _).
  - destruct HR as [HR [[Em Ef]|[Em Ef]]]; rewrite Em, Ef; cbn [Z.eqb andb]; [change (Z.to_nat 0) with 0%nat|change (Z.to_nat 1) with 1%nat]; unfold sh_open; destruct (can_open _ _); try done.
    + cbn. apply (IH HR (Opened _ 0) o e s).
    + apply (IH HR i (Opened _ _) e s).
  - destruct HR as [HRl HRr]. etrans; [eapply bind_eq; [apply sh_pipe_std|intros; reflexivity]|]. rewrite seq_assoc. apply bind_eq; [done|]. intros n s1.
    unfold bind at 1, ret at 1. rewrite fork1_ok. apply bind_eq; [done|]. intros [] s2. apply bind_eq; [apply (IHl HRl i (PipeW n) e s2)|]. intros pl s3.
    etrans; [eapply bind_eq; [apply fork1_ok|intros; reflexivity]|]. rewrite seq_assoc. apply bind_eq; [done|]. intros [] s4. rewrite seq_assoc. apply bind_eq; [apply (IHr HRr (PipeR n) o e s4)|done].
  - destruct HR as [HRl HRr]. rewrite fork1_ok. apply bind_eq; [done|]. intros [] s1. apply bind_eq; [by apply IHl|]. intros p s2. apply bind_eq; [by apply IHr|done].
  - rewrite fork1_ok. apply bind_eq; [done|]. intros [] s1. apply bind_eq; [by apply IH|done].
Qed.

(** [cd] is for the shell itself. *)
Definition is_cd (buf : list Z) : bool := (nth 0 buf 0 =? 99) && (nth 1 buf 0 =? 100) && (nth 2 buf 0 =? 32).

(** C34. The shell.  For every command of at most nine words in each simple
    command, written as a line that is not a [cd], and with every [fork] and
    [pipe] succeeding, [main] forks a child
    and waits for it; the child parses the line and makes exactly the
    processes that the syntax stands for, each with three descriptors and no
    other: the programs of a pipeline joined by a pipe of their own, files
    instead of the input or output where the line says so, the second of a
    list only after a wait for the first. *)
Theorem shell_wires_line a i o e s :
  ast_ok a -> is_cd (show LLine a) = false ->
  sh_line (show LLine a) (std i o e) s = (newfork ;;; let! p := wire a i o e in ret (Runs (Proc [Fork p; Wait] Exits (std i o e)))) s.
Proof.
  intros Ha Hcd. unfold sh_line. fold (is_cd (show LLine a)). rewrite Hcd. pose proof (parsecmd_reads a Ha) as ((c & text) & j & -> & ES & HR)%wp_Ok. cbn [fst snd] in *.
  etrans; [eapply bind_eq; [apply fork1_ok|intros; reflexivity]|]. rewrite seq_assoc. apply bind_eq; [done|]. intros [] s1. rewrite seq_assoc. apply bind_eq; [|done]. by rewrite runcmd_wires, ES.
Qed.

(** ** Ends of pipes *)

(** The process or one of its descendants has the channel open at its end. *)
Inductive held (ch : chan) : proc -> Prop :=
  | held_own steps fin fds : Some ch ∈ fds -> held ch (Proc steps fin fds)
  | held_child steps fin fds q : Fork q ∈ steps -> held ch q -> held ch (Proc steps fin fds).

Definition fresh_in (n n' : nat) (ch : chan) : Prop := exists m, (n <= m < n')%nat /\ (ch = PipeR m \/ ch = PipeW m).
Definition is_opened (ch : chan) : Prop := match ch with Opened _ _ => True | _ => False end.

Lemma std_held ch i o e : Some ch ∈ std i o e -> ch = i \/ ch = o \/ ch = e.
Proof.
  unfold std. intros [H|H]%elem_of_app; [|by apply elem_of_replicate_inv in H]. rewrite !elem_of_cons in H. destruct H as [[= ->]|[[= ->]|[[= ->]|H]]]; [tauto..|]. by apply not_elem_of_nil in H.
Qed.

Lemma std_close ch (j : nat) i o e : Some ch ∈ sh_close j (std i o e) -> ch = i \/ ch = o \/ ch = e.
Proof.
  intros H. apply std_held. apply list_elem_of_lookup in H as [m Hm]. unfold sh_close in Hm. apply list_lookup_insert_Some in Hm as [(_ & ? & _)|[_ Hm]]; [done|]. by eapply list_elem_of_lookup_2.
Qed.

Lemma held_leaf ch steps fin fds : held ch (Proc steps fin fds) -> (match steps with [] | [Say _] => True | _ => False end) -> Some ch ∈ fds.
Proof.
  inversion 1 as [? ? ? H1|? ? ? q H1 H2]; subst; [done|]. destruct steps as [|[] []]; try done; [by apply not_elem_of_nil in H1|]. intros _. apply list_elem_of_singleton in H1. done.
Qed.

Lemma before_held ch l q : held ch (before l q) -> (exists p, Fork p ∈ l /\ held ch p) \/ held ch q.
Proof.
  destruct q as [steps fin fds]. cbn. inversion 1 as [? ? ? H1|? ? ? p H1 H2]; subst; [right; by left|]. apply elem_of_app in H1 as [H1|H1]; [left; eauto|right; by eapply held_child].
Qed.

Lemma wire_held a : forall i o e s, exists p s', wire a i o e s = Ok p s' /\ (pipes s <= pipes s')%nat /\
  forall ch, held ch p -> ch = i \/ ch = o \/ ch = e \/ is_opened ch \/ fresh_in (pipes s) (pipes s') ch.
Proof.
  induction a as [ws|a IH inp f|l IHl r IHr|l IHl r IHr|a IH]; intros i o e s; cbn [wire].
  - exists (match ws with [] => Proc [] Exits (std i o e) | w :: ws' => if can_exec ws then Proc [] (Execs ws) (std i o e) else Proc [exec_failed w] Exits (std i o e) end), s. split_and!; [by destruct ws|done|].
    intros ch HH. assert (HS : Some ch ∈ std i o e); [|apply std_held in HS; tauto]. destruct ws as [|w ws]; [by apply held_leaf in HH|]. destruct (can_exec _); by apply held_leaf in HH.
  - destruct inp; destruct (can_open _ _).
    + destruct (IH (Opened f 0) o e s) as (p & s' & E & Hs & HH). exists p, s'. split_and!; [done|done|]. intros ch Hch. destruct (HH ch Hch) as [->|[->|[->|[H|H]]]]; cbn; tauto.
    + eexists _, s. split_and!; [done|done|]. intros ch Hch. apply held_leaf in Hch; [|done]. unfold sh_close in Hch. apply (std_close ch 0 i o e) in Hch. tauto.
    + destruct (IH i (Opened f O_CREATE_WRONLY) e s) as (p & s' & E & Hs & HH). exists p, s'. split_and!; [done|done|]. intros ch Hch. destruct (HH ch Hch) as [->|[->|[->|[H|H]]]]; cbn; tauto.
    + eexists _, s. split_and!; [done|done|]. intros ch Hch. apply held_leaf in Hch; [|done]. apply (std_close ch 1 i o e) in Hch. tauto.
  - unfold bind, newpipe, newfork, gets, modify, ret, id. cbn [forks pipes].
    destruct (IHl i (PipeW (pipes s)) e (mksh (S (forks s)) (S (pipes s)))) as (pl & s1 & El & Hs1 & HHl). unfold bind. cbn [forks pipes] in *. rewrite El.
    destruct (IHr (PipeR (pipes s)) o e (mksh (S (forks s1)) (pipes s1))) as (pr & s2 & Er & Hs2 & HHr). cbn [forks pipes] in *. rewrite Er.
    eexists _, s2. split_and!; [done|lia|]. intros ch Hch. inversion Hch as [? ? ? H1|? ? ? q H1 H2]; subst; [apply std_held in H1; tauto|].
    rewrite !elem_of_cons in H1. destruct H1 as [[= ->]|[[= ->]|[H1|[H1|H1]]]]; [| |done|done|by apply not_elem_of_nil in H1].
    + destruct (HHl ch H2) as [->|[->|[->|[H|(m & Hm & H)]]]]; try tauto; do 4 right; [exists (pipes s)|exists m]; (split; [lia|tauto]).
    + destruct (HHr ch H2) as [->|[->|[->|[H|(m & Hm & H)]]]]; try tauto; do 4 right; [exists (pipes s)|exists m]; (split; [lia|tauto]).
  - unfold bind, newfork, modify, ret. cbn [forks pipes]. destruct (IHl i o e (mksh (S (forks s)) (pipes s))) as (pl & s1 & El & Hs1 & HHl). cbn [forks pipes] in *. rewrite El.
    destruct (IHr i o e s1) as (pr & s2 & Er & Hs2 & HHr). rewrite Er. eexists _, s2. split_and!; [done|lia|]. intros ch Hch. apply before_held in Hch as [(q & H1 & H2)|Hch].
    + rewrite !elem_of_cons in H1. destruct H1 as [[= ->]|[H1|H1]]; [|done|by apply not_elem_of_nil in H1]. destruct (HHl ch H2) as [->|[->|[->|[H|(m & Hm & H)]]]]; try tauto. do 4 right. exists m. split; [lia|tauto].
    + destruct (HHr ch Hch) as [->|[->|[->|[H|(m & Hm & H)]]]]; try tauto. do 4 right. exists m. split; [lia|tauto].
  - unfold bind, newfork, modify, ret. cbn [forks pipes]. destruct (IH i o e (mksh (S (forks s)) (pipes s))) as (pl & s1 & El & Hs1 & HHl). cbn [forks pipes] in *. rewrite El.
    eexists _, s1. split_and!; [done|lia|]. intros ch Hch. inversion Hch as [? ? ? H1|? ? ? q H1 H2]; subst; [apply std_held in H1; tauto|].
    rewrite elem_of_cons in H1. destruct H1 as [[= ->]|H1]; [by apply HHl|by apply not_elem_of_nil in H1].
Qed.

(** A channel that is not a pipe still to be made. *)
Definition made_before (n : nat) (ch : chan) : Prop := match ch with PipeR m | PipeW m => (m < n)%nat | _ => True end.

(** In a pipeline, once every process has come to its [exec] or [exit], the
    writing end is open only on the left and the reading end only on the right;
    the shell that waits holds neither, so the right side sees the end of its
    input when the left side is done. *)
Theorem pipe_ends_closed l r i o e s :
  made_before (pipes s) i -> made_before (pipes s) o -> made_before (pipes s) e ->
  exists pl pr s', wire (APipe l r) i o e s = Ok (Proc [Fork pl; Fork pr; Wait; Wait] Exits (std i o e)) s' /\
    ~ held (PipeR (pipes s)) pl /\ ~ held (PipeW (pipes s)) pr /\ Some (PipeR (pipes s)) ∉ std i o e /\ Some (PipeW (pipes s)) ∉ std i o e.
Proof.
  intros Hi Ho He. cbn [wire]. unfold bind, newpipe, newfork, gets, modify, ret, id. cbn [forks pipes]. unfold bind. cbn [forks pipes].
  destruct (wire_held l i (PipeW (pipes s)) e (mksh (S (forks s)) (S (pipes s)))) as (pl & s1 & El & Hs1 & HHl). cbn [forks pipes] in *. rewrite El.
  destruct (wire_held r (PipeR (pipes s)) o e (mksh (S (forks s1)) (pipes s1))) as (pr & s2 & Er & Hs2 & HHr). cbn [forks pipes] in *. rewrite Er.
  assert (HN : forall ch, made_before (pipes s) ch -> PipeR (pipes s) <> ch /\ PipeW (pipes s) <> ch) by (intros ch Hch; split; intros <-; cbn in Hch; lia).
  pose proof (HN _ Hi) as []. pose proof (HN _ Ho) as []. pose proof (HN _ He) as [].
  exists pl, pr, s2. split; [done|]. split_and!.
  - intros HH. destruct (HHl _ HH) as [?|[?|[?|[?|(m & Hm & [[= ?]|?])]]]]; try done. lia.
  - intros HH. destruct (HHr _ HH) as [?|[?|[?|[?|(m & Hm & [?|[= ?]])]]]]; try done. lia.
  - intros HH. apply std_held in HH. tauto.
  - intros HH. apply std_held in HH. tauto.
Qed.

(** [main] starts with the first three descriptors open, whatever it was
    given. *)
Theorem main_has_three a b c rest : can_open (chars "console") 2 = true ->
  ensure_fds 4 (a :: b :: c :: None :: rest) = Some (Some (default Console a) :: Some (default Console b) :: Some (default Console c) :: None :: rest).
Proof. intros HO. cbn [ensure_fds]. rewrite HO. by destruct a, b, c. Qed.
End Run.

Module ShSample.
#[export] Instance all_ok : Env := { can_open _ _ := true; can_exec _ := true; fork_ok _ := true; pipe_ok _ := true }.

(** [ls -l > x | (wc; a &)]: the program [wc] reads from the pipe. *)
Lemma shell_wires_line_witness : exists p s', sh_line (show LLine sample_cmd) (std Console Console Console) (mksh 0 0) = Ok (Runs p) s'.
Proof.
  rewrite (shell_wires_line (En := all_ok) (fun _ => eq_refl) (fun _ => eq_refl) sample_cmd); [vm_compute; eauto| |by vm_compute]. cbn. unfold MAXARGS.
  repeat match goal with
  | |- _ /\ _ => split
  | |- Forall _ (_ :: _) => apply Forall_cons
  | |- Forall _ [] => constructor
  | |- word_ok _ => split; [done|]
  | |- _ => done || lia
  end.
Defined.
End ShSample.
