(* ===== verification/Kbd.v ===== *)
(** * Kbd: the keyboard driver ([kbd.c], [kbd.h])

    The state of the driver is the word [shift]; a call sees the status and the
    data that the keyboard controller gives. *)
From stdpp Require Import base list numbers strings.
From Stdlib Require Import ZArith Lia ZifyBool.
From S2P Require Import Prelude Machine.

Definition KBS_DIB : Z := 1.
Definition SHIFT : Z := 1.
Definition CTL : Z := 2.
Definition CAPSLOCK : Z := 8.
Definition E0ESC : Z := 64.

(** An array of 256 bytes: the first elements and the designated ones. *)
Definition table (l : list Z) (d : list (Z * Z)) (i : Z) : Z :=
  match List.find (fun p => i =? p.1) d with
  | Some p => p.2
  | None => nth (Z.to_nat i) l 0
  end.

Definition shiftcode : Z -> Z :=
  table []
    [(29, 2); (42, 1); (54, 1); (56, 4); (157, 2); (184, 4)].
Definition togglecode : Z -> Z :=
  table []
    [(58, 8); (69, 16); (70, 32)].
Definition normalmap : Z -> Z :=
  table [0; 27; 49; 50; 51; 52; 53; 54; 55; 56; 57; 48; 45; 61; 8; 9;
   113; 119; 101; 114; 116; 121; 117; 105; 111; 112; 91; 93; 10; 0; 97; 115;
   100; 102; 103; 104; 106; 107; 108; 59; 39; 96; 0; 92; 122; 120; 99; 118;
   98; 110; 109; 44; 46; 47; 0; 42; 0; 32; 0; 0; 0; 0; 0; 0;
   0; 0; 0; 0; 0; 0; 0; 55; 56; 57; 45; 52; 53; 54; 43; 49;
   50; 51; 48; 46; 0; 0; 0; 0]
    [(156, 10); (181, 47); (200, 226); (208, 227); (201, 230); (209, 231); (203, 228); (205, 229); (151, 224); (207, 225); (210, 232); (211, 233)].
Definition shiftmap : Z -> Z :=
  table [0; 27; 33; 64; 35; 36; 37; 94; 38; 42; 40; 41; 95; 43; 8; 9;
   81; 87; 69; 82; 84; 89; 85; 73; 79; 80; 123; 125; 10; 0; 65; 83;
   68; 70; 71; 72; 74; 75; 76; 58; 34; 126; 0; 124; 90; 88; 67; 86;
   66; 78; 77; 60; 62; 63; 0; 42; 0; 32; 0; 0; 0; 0; 0; 0;
   0; 0; 0; 0; 0; 0; 0; 55; 56; 57; 45; 52; 53; 54; 43; 49;
   50; 51; 48; 46; 0; 0; 0; 0]
    [(156, 10); (181, 47); (200, 226); (208, 227); (201, 230); (209, 231); (203, 228); (205, 229); (151, 224); (207, 225); (210, 232); (211, 233)].
Definition ctlmap : Z -> Z :=
  table [0; 0; 0; 0; 0; 0; 0; 0; 0; 0; 0; 0; 0; 0; 0; 0;
   17; 23; 5; 18; 20; 25; 21; 9; 15; 16; 0; 0; 13; 0; 1; 19;
   4; 6; 7; 8; 10; 11; 12; 0; 0; 0; 0; 28; 26; 24; 3; 22;
   2; 14; 13; 0; 0; 239; 0; 0]
    [(156, 13); (181, 239); (200, 226); (208, 227); (201, 230); (209, 231); (203, 228); (205, 229); (151, 224); (207, 225); (210, 232); (211, 233)].

(** [charcode] *)
Definition charcode (i : Z) : Z -> Z := if i =? 0 then normalmap else if i =? 1 then shiftmap else ctlmap.

(** The part after the scan code is known, [shift] already without the escape. *)
Definition key_char (shift data : Z) : Z * Z :=
  let shift := Z.lor shift (shiftcode data) in
  let shift := Z.lxor shift (togglecode data) in
  let c := charcode (Z.land shift (Z.lor CTL SHIFT)) data in
  let c :=
    if negb (Z.land shift CAPSLOCK =? 0) then
      if (97 <=? c) && (c <=? 122) then u32 (c + (65 - 97))
      else if (65 <=? c) && (c <=? 90) then u32 (c + (97 - 65))
      else c
    else c in
  (i32 c, shift).

(** [kbdgetc]: the result and the new value of [shift]. *)
Definition kbdgetc (shift st data : Z) : Z * Z :=
  if Z.land st KBS_DIB =? 0 then (-1, shift)
  else if data =? 224 then (0, Z.lor shift E0ESC)
  else if negb (Z.land data 128 =? 0) then
    let data := if negb (Z.land shift E0ESC =? 0) then data else Z.land data 127 in
    (0, Z.land shift (u32 (Z.lnot (Z.lor (shiftcode data) E0ESC))))
  else if negb (Z.land shift E0ESC =? 0) then
    key_char (Z.land shift (u32 (Z.lnot E0ESC))) (Z.lor data 128)
  else key_char shift data.

(** The driver on the bytes that the controller delivers, one call each: the
    characters returned, without the zeros that [consoleintr] skips. *)
Fixpoint kbd_run (shift : Z) (bytes : list Z) : list Z * Z :=
  match bytes with
  | [] => ([], shift)
  | b :: rest =>
      let '(c, shift1) := kbdgetc shift KBS_DIB b in
      let '(cs, shift2) := kbd_run shift1 rest in
      (if c =? 0 then cs else c :: cs, shift2)
  end.

(** ** A US keyboard

    The rows of the main block: the scan code of the first key, then what the
    keys show without and with shift. *)
Definition codes (s : string) : list Z := map (fun a => Z.of_N (Ascii.N_of_ascii a)) (String.list_ascii_of_string s).
Definition rows : list (Z * list Z * list Z) :=
  [(2, codes "1234567890-=", codes "!@#$%^&*()_+");
   (16, codes "qwertyuiop[]", codes "QWERTYUIOP{}");
   (30, codes "asdfghjkl;'`", 65 :: 83 :: codes "DFGHJKL:" ++ [34; 126]);
   (43, codes "\zxcvbnm,./", codes "|ZXCVBNM<>?");
   (57, codes " ", codes " ");
   (28, [10], [10])].

(** The keys: character, scan code, and whether shift is held. *)
Definition row_keys (shifted : bool) (r : Z * list Z * list Z) : list (Z * (Z * bool)) :=
  imap (fun i c => (c, (r.1.1 + Z.of_nat i, shifted))) (if shifted then r.2 else r.1.2).
Definition keys : list (Z * (Z * bool)) :=
  flat_map (row_keys false) rows ++ flat_map (row_keys true) rows.

Definition LSHIFT : Z := 42.

(** What the keyboard sends while one key is struck, and while a text is. *)
Definition stroke (k : Z * bool) : list Z :=
  let struck := [k.1; Z.lor k.1 128] in
  if k.2 then LSHIFT :: struck ++ [Z.lor LSHIFT 128] else struck.
Definition strokes (ks : list (Z * (Z * bool))) : list Z := flat_map (fun k => stroke k.2) ks.

Definition decodes (k : Z * (Z * bool)) : bool :=
  match kbd_run 0 (stroke k.2) with ([c], shift) => (c =? k.1) && (shift =? 0) | _ => false end.

Lemma kbd_run_app a b shift :
  kbd_run shift (a ++ b) =
  let '(cs, shift1) := kbd_run shift a in
  let '(ds, shift2) := kbd_run shift1 b in (cs ++ ds, shift2).
Proof.
  induction a as [|x a IH] in shift |- *; cbn [kbd_run app]; [by destruct kbd_run|].
  destruct kbdgetc as [c s1]. rewrite IH.
  destruct (kbd_run s1 a) as [cs s2], (kbd_run s2 b) as [ds s3]. by case_match.
Qed.

Lemma keys_decode : forallb decodes keys = true.
Proof. vm_compute. reflexivity. Qed.

Lemma key_decodes k : k ∈ keys -> kbd_run 0 (stroke k.2) = ([k.1], 0).
Proof.
  intros H%list_elem_of_In. pose proof (proj1 (forallb_forall _ _) keys_decode k H) as D.
  unfold decodes in D. destruct kbd_run as [[|c [|? ?]] s]; try done.
  apply andb_prop in D as [->%Z.eqb_eq ->%Z.eqb_eq]. done.
Qed.

(** Whatever is typed on the main block of the keyboard, with shift around the
    keys that need it, is what [kbdgetc] returns, and no modifier stays set. *)
Theorem typed_text ks :
  Forall (fun k => k ∈ keys) ks -> kbd_run 0 (strokes ks) = (map fst ks, 0).
Proof.
  induction 1 as [|k ks K _ IH]; [done|].
  unfold strokes in *. cbn [flat_map map]. rewrite kbd_run_app, key_decodes by done.
  by rewrite IH.
Qed.

(** Every printable character can be typed. *)
Theorem printable_typed c : 32 <= c < 127 -> exists k, (c, k) ∈ keys.
Proof.
  intros H. assert (forallb (fun c => existsb (fun k => k.1 =? c) keys) (seqZ 32 95) = true) as E by (vm_compute; reflexivity).
  rewrite forallb_forall in E. specialize (E c). rewrite existsb_exists in E.
  destruct E as ([c' k] & I & Q).
  - apply list_elem_of_In, elem_of_seqZ. lia.
  - cbn [fst] in Q. apply Z.eqb_eq in Q as ->. exists k. by apply list_elem_of_In.
Qed.

(** A character is at most a byte, whatever the state of the driver. *)
Definition all_keys : list (Z * Z) := list_prod (seqZ 0 128) (seqZ 0 256).
Lemma kbdgetc_byte shift data :
  0 <= shift < 128 -> 0 <= data < 256 ->
  0 <= (kbdgetc shift KBS_DIB data).1 < 256 /\ 0 <= (kbdgetc shift KBS_DIB data).2 < 128.
Proof.
  intros S D.
  assert (forallb (fun p => let r := kbdgetc p.1 KBS_DIB p.2 in
    (0 <=? r.1) && (r.1 <? 256) && (0 <=? r.2) && (r.2 <? 128)) all_keys = true) as E by (vm_compute; reflexivity).
  rewrite forallb_forall in E. specialize (E (shift, data)). cbn [fst snd] in E.
  assert (In (shift, data) all_keys) as I.
  { apply in_prod; apply list_elem_of_In, elem_of_seqZ; lia. }
  specialize (E I). cbn zeta in E. lia.
Qed.

(** Letting one shift key go while the other is held turns shift off. *)
Theorem two_shifts : kbd_run 0 [42; 54; 170; 30] = ([97], 0).
Proof. vm_compute. reflexivity. Qed.
