(* ===== verification/UmallocInv.v ===== *)
(** * UmallocInv: the memory allocator of user programs ([umalloc.c])

    The circular list of free blocks of Kernighan and Ritchie, in the bytes of
    the process's memory.  A pointer to a [Header] is its address; pointer
    arithmetic moves by the 8 bytes of a header. *)
From stdpp Require Import base gmap list numbers strings.
From Stdlib Require Import ZArith Lia ZifyBool.
From stdpp Require Import base gmap list numbers strings sorting.
From S2P Require Import Prelude Machine.

(** The memory of the process, its size, and the variable [freep]. *)
Record ust := mkust { um : memory; usz : Z; freep : Z }.
Definition set_um (x : memory) (s : ust) : ust := mkust x (usz s) (freep s).
Definition set_usz (x : Z) (s : ust) : ust := mkust (um s) x (freep s).
Definition set_freep (x : Z) (s : ust) : ust := mkust (um s) (usz s) x.

Notation MA := (M ust).

Definition HDR : Z := 8.

(** [p + n] for a [Header *]. *)
Definition hplus (p n : Z) : Z := u32 (p + HDR * n).

(** Words of the process's memory; an address outside it is a page fault that
    the kernel does not resolve. *)
Definition word (a : Z) : MA Z := fun s =>
  if (0 <=? a) && (a + 4 <=? usz s) then Ok (load32 (um s) a) s else Fault "page fault".
Definition set_word (a v : Z) : MA unit := fun s =>
  if (0 <=? a) && (a + 4 <=? usz s) then Ok tt (set_um (store32 (um s) a v) s) else Fault "page fault".

(** The fields of a [Header]. *)
Definition h_ptr (p : Z) : MA Z := word p.
Definition h_size (p : Z) : MA Z := word (p + 4).
Definition set_h_ptr (p v : Z) : MA unit := set_word p v.
Definition set_h_size (p v : Z) : MA unit := set_word (p + 4) v.

(** The loop of [free] that finds the free block before [bp]. *)
Fixpoint free_loop (fuel : nat) (bp p : Z) : MA Z :=
  match fuel with
  | O => fun _ => NoFuel
  | S fuel =>
      let! q := h_ptr p in
      if (p <? bp) && (bp <? q) then ret p
      else if (q <=? p) && ((p <? bp) || (bp <? q)) then ret p
      else free_loop fuel bp q
  end.

(** [x->s.ptr] becomes the block [q], or [x] takes [q] over when [q] begins
    where [x] ends: the two statements of [free]. *)
Definition merge (x q : Z) : MA unit :=
  let! n := h_size x in
  if hplus x n =? q then
    let! m := h_size q in
    set_h_size x (u32 (n + m)) ;;;
    let! r := h_ptr q in
    set_h_ptr x r
  else set_h_ptr x q.

(** [free] of the block whose header is at [ap - 8]. *)
Definition free (fuel : nat) (ap : Z) : MA unit :=
  let bp := hplus ap (-1) in
  let! p0 := gets freep in
  let! p := free_loop fuel bp p0 in
  let! q := h_ptr p in
  merge bp q ;;;
  merge p bp ;;;
  modify (set_freep p).

(** ** Getting memory from the kernel

    What [malloc] relies on of the system call [sbrk]: a request to grow either
    fails, [None] standing for -1, or adds memory at the end of the process. *)
Class Sbrk := {
  sbrk : Z -> MA (option Z);
  sbrk_grows : forall n s, 0 < n < 2147483648 -> 0 <= usz s < KERNBASE ->
    match sbrk n s with
    | Ok None s' => s' = s
    | Ok (Some p) s' =>
        p = usz s /\ usz s' = usz s + n /\ usz s' < KERNBASE /\ freep s' = freep s /\
        (forall a, a < usz s -> um s' a = um s a)
    | _ => False
    end;
}.

(** [sbrk] as a program sees it ([sys_sbrk] with [growproc]).  [avail sz n]
    says whether the kernel has the pages to grow a process of size [sz] by
    [n]; new pages are zeroed, and a request to shrink to size 0 fails. *)
Definition user_sbrk (avail : Z -> Z -> bool) (n : Z) : MA (option Z) :=
  let! sz := gets usz in
  let newsz := u32 (sz + n) in
  if 0 <? n then
    if KERNBASE <=? newsz then ret None
    else if newsz <? sz then ret (Some sz)
    else if avail sz n then
      modify (fun s => set_usz newsz (set_um (fun x => if PGROUNDUP sz <=? x then 0 else um s x) s)) ;;;
      ret (Some sz)
    else ret None
  else if n <? 0 then
    if sz <=? newsz then ret (Some sz)
    else if newsz =? 0 then ret None
    else modify (set_usz newsz) ;;; ret (Some sz)
  else ret (Some sz).

#[export] Instance kernel_sbrk (avail : Z -> Z -> bool) : Sbrk.
Proof.
  refine {| sbrk := user_sbrk avail |}. intros n s Hn Hs. unfold user_sbrk, bind, gets, modify, ret.
  change KERNBASE with 2147483648 in *. rewrite u32_id by lia.
  replace (0 <? n) with true by lia. destruct (Z.leb_spec 2147483648 (usz s + n)); [done|].
  replace (usz s + n <? usz s) with false by lia. destruct (avail _ _); [|done].
  cbn. split_and!; try done. intros x Hx. cbn. destruct (Z.leb_spec (PGROUNDUP (usz s)) x) as [Hp|]; [|done].
  exfalso. rewrite PGROUNDUP_eq in Hp by lia. zlia.
Defined.

Section Umalloc.
Context `{Sbrk} (fuel : nat) (base : Z).

(** 0 is the null pointer. *)
Definition morecore (nu : Z) : MA Z :=
  let nu := if nu <? 4096 then 4096 else nu in
  let! r := sbrk (i32 (u32 (nu * HDR))) in
  match r with
  | None => ret 0
  | Some p =>
      set_h_size p nu ;;;
      free fuel (hplus p 1) ;;;
      gets freep
  end.

(** Taking [nunits] units from the free block [p] behind [prevp]: the whole
    block, or its tail. *)
Definition carve (nunits prevp p size : Z) : MA Z :=
  let! p :=
    (if size =? nunits then
       let! q := h_ptr p in
       set_h_ptr prevp q ;;; ret p
     else
       set_h_size p (u32 (size - nunits)) ;;;
       let p := hplus p (u32 (size - nunits)) in
       set_h_size p nunits ;;; ret p) in
  modify (set_freep prevp) ;;; ret (hplus p 1).

(** The search of [malloc] from [p], the successor of [prevp]. *)
Fixpoint malloc_loop (n : nat) (nunits prevp p : Z) : MA Z :=
  match n with
  | O => fun _ => NoFuel
  | S n =>
      let! size := h_size p in
      if nunits <=? size then carve nunits prevp p size
      else
        let! fp := gets freep in
        if p =? fp then
          let! p := morecore nunits in
          if p =? 0 then ret 0
          else let! q := h_ptr p in malloc_loop n nunits p q
        else let! q := h_ptr p in malloc_loop n nunits p q
  end.

Definition malloc (nbytes : Z) : MA Z :=
  let nunits := u32 (nbytes + HDR - 1) / HDR + 1 in
  let! fp := gets freep in
  let! prevp :=
    (if fp =? 0 then
       set_h_ptr base base ;;; modify (set_freep base) ;;; set_h_size base 0 ;;; ret base
     else ret fp) in
  let! p := h_ptr prevp in
  malloc_loop fuel nunits prevp p.
End Umalloc.


(** * The ring of free blocks

    The invariant of the allocator and the specification of [free]: the block
    goes back to the ring at its place and merges with its neighbours. *)

(** A block: the address of its header and its size in units of 8 bytes, the
    header included. *)
Notation blk := (Z * Z)%type.

(** The blocks of a list are linked, the last one to [q]. *)
Definition next (l : list blk) (q : Z) : Z := match l with [] => q | x :: _ => x.1 end.
Fixpoint lseg (m : memory) (l : list blk) (q : Z) : Prop :=
  match l with
  | [] => True
  | x :: l' => load32 m x.1 = next l' q /\ load32 m (x.1 + 4) = x.2 /\ lseg m l' q
  end.

(** One block ends before the other begins, with a gap. *)
Definition before (x y : blk) : Prop := x.1 + 8 * x.2 < y.1.
Definition apart (x y : blk) : Prop := x.1 + 8 * x.2 <= y.1 \/ y.1 + 8 * y.2 <= x.1.
Definition in_blk (x : blk) (a : Z) : Prop := x.1 <= a < x.1 + 8 * x.2.
Definition covers (l : list blk) (a : Z) : Prop := Exists (fun x => in_blk x a) l.

(** [x] put before the list [l], merged with its first block if they touch. *)
Definition join (x : blk) (l : list blk) : list blk :=
  match l with
  | y :: l' => if x.1 + 8 * x.2 =? y.1 then (x.1, x.2 + y.2) :: l' else x :: l
  | [] => [x]
  end.

Definition reaches (x : blk) (l : list blk) : Prop := Forall (fun y => x.1 + 8 * x.2 <= y.1 /\ 0 < y.2) l.

Lemma next_join x l q : next (join x l) q = x.1.
Proof. destruct l as [|y l]; cbn; [done|]. by case_match. Qed.

Lemma length_join x l : (length (join x l) <= S (length l))%nat.
Proof. destruct l as [|y l]; cbn; [lia|]. case_match; cbn; lia. Qed.

Lemma covers_cons x l a : covers (x :: l) a <-> in_blk x a \/ covers l a.
Proof. unfold covers. by rewrite Exists_cons. Qed.

Lemma covers_join x l a : 0 <= x.2 -> reaches x l -> covers (join x l) a <-> in_blk x a \/ covers l a.
Proof.
  intros H0 H. destruct l as [|y l]; cbn; [apply covers_cons|].
  apply Forall_cons_1 in H as [[_ H] _]. case_match; rewrite !covers_cons; [|done].
  unfold in_blk. cbn. split; [intros [|]|intros [|[|]]]; (try by auto); try lia.
Qed.

Lemma sorted_join x l : 0 <= x.2 -> reaches x l -> StronglySorted before l -> StronglySorted before (join x l).
Proof.
  intros H0 H SS. destruct l as [|y l]; cbn; [by repeat constructor|].
  apply Forall_cons_1 in H as [[H1 H2] H3]. apply StronglySorted_inv in SS as [S1 S2].
  unfold before in *. case_match; constructor.
  - done.
  - eapply Forall_impl; [exact S2|]. cbn. intros z Hz. cbn in Hz. lia.
  - by constructor.
  - constructor; cbn; [lia|]. eapply Forall_impl; [exact S2|]. intros z Hz. cbn in Hz. lia.
Qed.

Lemma before_join z x l : before z x -> Forall (before z) l -> Forall (before z) (join x l).
Proof.
  intros H F. destruct l as [|y l]; cbn; [by repeat constructor|]. apply Forall_cons_1 in F as [F1 F2].
  case_match; repeat constructor; done.
Qed.

Lemma apart_join z x l : 0 < z.2 -> apart z x -> Forall (apart z) l -> Forall (apart z) (join x l).
Proof.
  intros HZ H F. destruct l as [|y l]; cbn; [by apply Forall_cons_2|]. apply Forall_cons_1 in F as [F1 F2].
  case_match; apply Forall_cons_2; try done; [|by apply Forall_cons_2]. unfold apart in *. cbn. lia.
Qed.

(** The block that now holds [x]. *)
Definition holds (x y : blk) : Prop := y.1 <= x.1 /\ x.1 + 8 * x.2 <= y.1 + 8 * y.2.

Lemma holds_join x l : reaches x l -> Exists (holds x) (join x l).
Proof.
  intros H. destruct l as [|y l]; cbn; [left; unfold holds; lia|].
  apply Forall_cons_1 in H as [[_ H] _]. case_match; left; unfold holds; cbn; lia.
Qed.

Lemma holds_join_tail x z l : 0 <= x.2 -> Exists (holds z) l -> Exists (holds z) (join x l).
Proof.
  intros H0 H. destruct l as [|y l]; [by inversion H|]. cbn. case_match; [|by right].
  apply Exists_cons in H as [H|H]; [|by right]. left. unfold holds in *. cbn. lia.
Qed.

Section Ring.
Context (base : Z).

Definition in_heap (sz : Z) (x : blk) : Prop := base < x.1 /\ 0 < x.2 /\ x.1 mod 8 = 0 /\ x.1 + 8 * x.2 <= sz.

(** [F] are the free blocks in the order of their addresses, [L] the blocks in
    use. *)
Record heap_ok (s : ust) (F L : list blk) : Prop := {
  hk_base : 0 < base /\ base mod 8 = 0 /\ base + 8 <= usz s;
  hk_size : usz s mod 8 = 0 /\ usz s < KERNBASE;
  hk_ring : lseg (um s) ((base, 0) :: F) base;
  hk_sorted : StronglySorted before ((base, 0) :: F);
  hk_freep : exists k, (freep s, k) ∈ (base, 0) :: F;
  hk_free : Forall (in_heap (usz s)) F;
  hk_live : Forall (in_heap (usz s)) L;
  hk_apart : Forall (fun x => Forall (apart x) F) L;
  hk_pairs : ForallOrdPairs apart L;
  hk_sizes : Forall (fun x => load32 (um s) (x.1 + 4) = x.2) L;
}.

(** Where a routine may write: the headers of [base] and the bytes of [l]. *)
Definition writes (m m' : memory) (l : list blk) : Prop :=
  forall a, m' a = m a \/ base <= a < base + 8 \/ covers l a.

Lemma lseg_app m l1 l2 q : lseg m (l1 ++ l2) q <-> lseg m l1 (next l2 q) /\ lseg m l2 q.
Proof.
  induction l1 as [|x l1 IH]; cbn; [naive_solver|].
  assert (next (l1 ++ l2) q = next l1 (next l2 q)) as -> by by destruct l1.
  rewrite IH. naive_solver.
Qed.

Lemma lseg_frame m m' l q :
  Forall (fun x => same_range m m' x.1 8) l -> lseg m l q -> lseg m' l q.
Proof.
  induction 1 as [|x l Hx _ IH]; cbn; [done|]. intros (H1 & H2 & H3).
  rewrite !(load32_same m m'); [by auto|intros a Ha; apply Hx; lia..].
Qed.

Lemma next_base l : next ((base, 0) :: l) base = base.
Proof. done. Qed.

Section Spec.
Context (s : ust) (F L : list blk) (HK : heap_ok s F L).
Notation ring := ((base, 0) :: F).

Lemma ring_in x : x ∈ ring -> base <= x.1 /\ 0 <= x.2 /\ x.1 mod 8 = 0 /\ x.1 + 8 <= usz s /\ x.1 + 8 * x.2 <= usz s /\ (x.1 = base -> x = (base, 0)) /\ (base < x.1 -> 0 < x.2).
Proof using HK.
  pose proof (hk_base _ _ _ HK) as (B1 & B2 & B3). intros [->|Hx]%elem_of_cons; cbn; [split_and!; try done; lia|].
  pose proof (proj1 (Forall_forall _ _) (hk_free _ _ _ HK) x Hx) as (H1 & H2 & H3 & H4).
  split_and!; lia.
Qed.

Lemma wp_word a Q t : 0 <= a -> a + 4 <= usz t -> Q (load32 (um t) a) t -> wp (word a) Q t.
Proof. intros. unfold wp, word. by replace ((0 <=? a) && (a + 4 <=? usz t)) with true by lia. Qed.

Lemma wp_set_word a v Q t : 0 <= a -> a + 4 <= usz t -> Q tt (set_um (store32 (um t) a v) t) -> wp (set_word a v) Q t.
Proof. intros. unfold wp, set_word. by replace ((0 <=? a) && (a + 4 <=? usz t)) with true by lia. Qed.

(** The neighbours of an element of the ring. *)
Lemma ring_at pre x post : ring = pre ++ x :: post ->
  load32 (um s) x.1 = next post base /\ load32 (um s) (x.1 + 4) = x.2 /\
  Forall (fun y => before y x) pre /\ Forall (before x) post /\ StronglySorted before post.
Proof using HK.
  intros E. pose proof (hk_ring _ _ _ HK) as R. pose proof (hk_sorted _ _ _ HK) as SS. rewrite E in R, SS.
  apply lseg_app in R as [_ (R1 & R2 & _)]. split_and!; [done..| | |].
  - apply Forall_forall. intros y Hy. eapply (StronglySorted_app_1_elem_of); [done|done|left].
  - apply StronglySorted_app_1_r in SS. by inversion SS.
  - apply StronglySorted_app_1_r in SS. by inversion SS.
Qed.

(** Where the search of [free] stops. *)
Definition place (bp p : Z) : Prop :=
  exists pre k post, ring = pre ++ (p, k) :: post /\ p < bp /\ Forall (fun y => bp < y.1) post.

Lemma forward bp post : forall pre p k fuel, ring = pre ++ (p, k) :: post -> p < bp ->
  Forall (fun y => bp <> y.1) post -> (length post < fuel)%nat ->
  wp (free_loop fuel bp p) (fun r t => t = s /\ place bp r) s.
Proof using HK.
  induction post as [|y post IH]; intros pre p k [|fuel] E Hp N Hf; try (cbn in Hf; lia).
  all: destruct (ring_in (p, k)) as (P1 & _ & _ & P2 & _); [rewrite E; set_solver|]; cbn in P1, P2.
  all: pose proof (hk_base _ _ _ HK) as (B1 & B2 & B3).
  all: destruct (ring_at _ _ _ E) as (R1 & R2 & _ & R3 & R4); cbn in R1, R3.
  all: cbn [free_loop]; unfold h_ptr; wp_step; apply wp_word; [lia..|]; rewrite R1; cbn [next].
  - replace ((p <? bp) && (bp <? base)) with false by lia. replace ((base <=? p) && _) with true by lia.
    apply wp_ret. split; [done|]. by exists pre, k, [].
  - apply Forall_cons_1 in R3 as [R3 _]. unfold before in R3. cbn in R3.
    apply Forall_cons_1 in N as [N1 N2]. destruct (ring_in (p, k)) as (_ & K & _); [rewrite E; set_solver|]. cbn in K.
    destruct (Z.ltb_spec bp y.1) as [Hy|Hy].
    + replace (p <? bp) with true by lia. cbn. apply wp_ret. split; [done|]. exists pre, k, (y :: post). split_and!; [done..|].
      apply Forall_cons. split; [done|]. apply StronglySorted_inv in R4 as [_ R4].
      eapply Forall_impl; [done|]. unfold before. intros z Hz. cbn in Hz.
      destruct (ring_in y) as (_ & K' & _); [rewrite E; set_solver|]. lia.
    + replace ((p <? bp) && false) with false by lia. replace (y.1 <=? p) with false by lia. cbn.
      apply (IH (pre ++ [(p, k)]) y.1 y.2); [rewrite <- app_assoc; cbn; by destruct y|lia|done|cbn in Hf; lia].
Qed.

Lemma around bp post : forall pre p k fuel, ring = pre ++ (p, k) :: post -> base < bp -> bp <> p ->
  Forall (fun y => bp <> y.1) ring -> (length post + length ring < fuel)%nat ->
  wp (free_loop fuel bp p) (fun r t => t = s /\ place bp r) s.
Proof using HK.
  induction post as [|y post IH]; intros pre p k fuel E Hb Hp N Hf.
  all: destruct (decide (p < bp)) as [Hlt|Hge].
  1, 3: rewrite E in N; apply Forall_app in N as [_ [_ N]%Forall_cons_1]; eapply forward; [done..|cbn in Hf |- *; lia].
  all: destruct (ring_in (p, k)) as (P1 & _ & _ & P2 & _); [rewrite E; set_solver|]; cbn in P1, P2.
  all: pose proof (hk_base _ _ _ HK) as (B1 & B2 & B3).
  all: destruct (ring_at _ _ _ E) as (R1 & _ & _ & R3 & R4); cbn in R1, R3.
  all: destruct fuel as [|fuel]; [lia|]; cbn [free_loop]; unfold h_ptr; wp_step; apply wp_word; [lia..|]; rewrite R1; cbn [next].
  - replace ((p <? bp) && _) with false by lia. replace ((base <=? p) && _) with false by lia.
    eapply (forward bp F [] base 0); [done|lia|by apply Forall_cons_1 in N as [_ N]|cbn in Hf |- *; lia].
  - replace ((p <? bp) && _) with false by lia. apply Forall_cons_1 in R3 as [R3 _]. unfold before in R3. cbn in R3.
    destruct (ring_in (p, k)) as (_ & K & _); [rewrite E; set_solver|]. cbn in K.
    replace ((y.1 <=? p) && _) with false by lia.
    apply (IH (pre ++ [(p, k)]) y.1 y.2); [rewrite <- app_assoc; cbn; by destruct y|done| |done|cbn in Hf |- *; lia].
    rewrite E in N. apply Forall_app in N as [_ [_ [N _]%Forall_cons_1]%Forall_cons_1]. done.
Qed.
End Spec.

Lemma hplus_id p n : 0 <= p + 8 * n < 4294967296 -> hplus p n = p + 8 * n.
Proof. intros. unfold hplus, HDR. by rewrite u32_id. Qed.

(** What [merge] needs of a block of the ring or about to join it. *)
Definition header_ok (sz : Z) (x : blk) : Prop := 0 <= x.1 /\ x.1 + 8 <= sz /\ 0 <= x.2 /\ x.1 + 8 * x.2 <= sz.

Lemma merge_spec s x l :
  usz s < KERNBASE -> header_ok (usz s) x -> Forall (header_ok (usz s)) l ->
  load32 (um s) (x.1 + 4) = x.2 -> lseg (um s) l base -> reaches x l -> Forall (fun y => x.1 + 8 <= y.1) l ->
  0 <= base < KERNBASE -> (l = [] -> x.1 + 8 * x.2 <> base) ->
  wp (merge x.1 (next l base)) (fun _ t => usz t = usz s /\ freep t = freep s /\ lseg (um t) (join x l) base /\
    forall a, um t a = um s a \/ x.1 <= a < x.1 + 8) s.
Proof.
  intros HS (X1 & X2 & X3 & X4) HL HX HSeg HR HF HB HN. change KERNBASE with 2147483648 in *.
  assert (Hfr : forall m l', (forall a, m a = um s a \/ x.1 <= a < x.1 + 8) -> Forall (fun y => x.1 + 8 <= y.1) l' -> lseg (um s) l' base -> lseg m l' base).
  { intros m l' Hm F. apply lseg_frame. eapply Forall_impl; [exact F|]. intros y Hy a Ha. cbn in Hy. destruct (Hm a) as [|]; [done|lia]. }
  unfold merge, h_size, h_ptr, set_h_size, set_h_ptr. wp_step. apply wp_word; [lia..|]. rewrite HX, hplus_id by lia.
  destruct l as [|y l]; cbn [next join].
  { replace (x.1 + 8 * x.2 =? base) with false by (specialize (HN eq_refl); lia).
    apply wp_set_word; [lia..|]. split_and!; [done..| |].
    - cbn. rewrite load32_store32_eq, load32_store32_ne by lia. by destruct x.
    - intros a. cbn. destruct (decide (x.1 <= a < x.1 + 8)); [by right|left]. apply store32_other. lia. }
  apply Forall_cons_1 in HL as [(Y1 & Y2 & Y3 & Y4) HL]. apply Forall_cons_1 in HR as [[R1 R2] HR].
  pose proof HF as HF0. apply Forall_cons_1 in HF as [F1 HF]. pose proof HSeg as (S1 & S2 & S3).
  assert (0 <= next l base < 2147483648) as HNx. { destruct l as [|z l]; cbn; [lia|]. apply Forall_cons_1 in HL as [(?&?&?&?) _]. lia. }
  case_match eqn:E.
  - apply Z.eqb_eq in E. wp_step. apply wp_word; [lia..|]. rewrite S2. wp_step. apply wp_set_word; [lia..|].
    rewrite u32_id by lia. wp_step. apply wp_word; cbn [um usz set_um]; [lia..|].
    rewrite load32_store32_ne by lia. rewrite S1. apply wp_set_word; cbn [um usz set_um]; [lia..|].
    assert (Hw : forall a, store32 (store32 (um s) (x.1 + 4) (x.2 + y.2)) x.1 (next l base) a = um s a \/ x.1 <= a < x.1 + 8).
    { intros a. destruct (decide (x.1 <= a < x.1 + 8)); [by right|left]. rewrite !store32_other by lia. done. }
    split_and!; try done. cbn [lseg fst snd]. split_and!; [rewrite load32_store32_eq by lia; done| |by apply Hfr].
    rewrite load32_store32_ne, load32_store32_eq by lia. done.
  - apply wp_set_word; [lia..|].
    assert (Hw : forall a, store32 (um s) x.1 y.1 a = um s a \/ x.1 <= a < x.1 + 8).
    { intros a. destruct (decide (x.1 <= a < x.1 + 8)); [by right|left]. rewrite !store32_other by lia. done. }
    split_and!; try done. cbn [lseg next um set_um]. split_and!; [by rewrite load32_store32_eq by lia| |by apply (Hfr _ (y :: l))..].
    by rewrite load32_store32_ne by lia.
Qed.
End Ring.


(** * [free]

    The block goes back to the ring, which covers what it covered and the
    block, and nothing outside the free memory is written. *)

Section Free.
Context (base : Z) (s : ust) (F L : list blk) (b : blk) (HK : heap_ok base s F (b :: L)).
Notation ring := ((base, 0) :: F).

Lemma freed_in : base + 8 <= b.1 /\ 0 < b.2 /\ b.1 mod 8 = 0 /\ b.1 + 8 * b.2 <= usz s.
Proof using HK.
  destruct (hk_base _ _ _ _ HK) as (B1 & B2 & B3). pose proof (hk_live _ _ _ _ HK) as HL.
  apply Forall_cons_1 in HL as [(H1 & H2 & H3 & H4) _]. split_and!; try done. zlia.
Qed.

Lemma freed_apart x : x ∈ ring -> apart b x.
Proof using HK.
  pose proof freed_in as (H1 & H2 & H3 & H4). intros [->|Hx]%elem_of_cons; [right; cbn; lia|].
  pose proof (hk_apart _ _ _ _ HK) as HA. apply Forall_cons_1 in HA as [HA _].
  by apply (proj1 (Forall_forall _ _) HA).
Qed.

Lemma freed_new x : x ∈ ring -> b.1 <> x.1.
Proof using HK.
  intros Hx. pose proof freed_in as (H1 & H2 & H3 & H4). pose proof (freed_apart x Hx) as HA.
  destruct (ring_in base s F _ HK x Hx) as (R1 & R2 & R3 & R4 & R5 & R6 & R7). unfold apart in HA.
  intros E. assert (base < x.1) by lia. lia.
Qed.

(** The ring after [free], for a place found by the search. *)
Definition ring_with (pre : list blk) (x : blk) (post : list blk) : list blk := pre ++ join x (join b post).

Section At.
Context (pre : list blk) (x : blk) (post : list blk)
  (HE : ring = pre ++ x :: post) (Hx : x.1 < b.1) (Hpost : Forall (fun y => b.1 < y.1) post).

Lemma at_in y : y ∈ pre ++ x :: post -> y ∈ ring.
Proof using HE. by rewrite HE. Qed.

Lemma at_reaches : reaches b post.
Proof using HK HE Hx Hpost.
  apply Forall_forall. intros y Hy. pose proof (proj1 (Forall_forall _ _) Hpost y Hy) as Hlt. cbn in Hlt.
  assert (y ∈ ring) as Hr by (apply at_in; set_solver).
  destruct (ring_in base s F _ HK y Hr) as (R1 & R2 & R3 & R4 & R5 & R6 & R7).
  pose proof (freed_apart y Hr) as HA. pose proof freed_in. unfold apart in HA. lia.
Qed.

Lemma at_reaches_x : reaches x (join b post).
Proof using HK HE Hx Hpost.
  pose proof freed_in as (H1 & H2 & H3 & H4). assert (x ∈ ring) as Hr by (apply at_in; set_solver).
  destruct (ring_in base s F _ HK x Hr) as (R1 & R2 & R3 & R4 & R5 & R6 & R7).
  assert (x.1 + 8 * x.2 <= b.1) as Hle.
  { pose proof (freed_apart x Hr) as HA. unfold apart in HA. lia. }
  pose proof at_reaches as HR. destruct post as [|y l]; cbn; [by apply Forall_cons_2|].
  assert (Forall (fun z => b.1 < z.1) (y :: l)) as HP by done.
  assert (Hl : Forall (fun z => x.1 + 8 * x.2 <= z.1 /\ 0 < z.2) (y :: l)).
  { eapply Forall_impl; [exact HR|]. cbn. intros z. lia. }
  case_match; apply Forall_cons_2; cbn; try done.
  - apply Forall_cons_1 in Hl as [? _]. lia.
  - by apply Forall_cons_1 in Hl as [_ ?].
Qed.

Lemma ring_with_sorted : StronglySorted before (ring_with pre x post).
Proof using HK HE Hx Hpost.
  pose proof freed_in as (H1 & H2 & H3 & H4). assert (x ∈ ring) as Hr by (apply at_in; set_solver).
  destruct (ring_in base s F _ HK x Hr) as (R1 & R2 & R3 & R4 & R5 & R6 & R7).
  pose proof (hk_sorted _ _ _ _ HK) as SS. rewrite HE in SS.
  destruct (ring_at base s F _ HK _ _ _ HE) as (_ & _ & Hpre & Hpo & SP).
  unfold ring_with. apply StronglySorted_app_2.
  - intros y z Hy Hz. revert z Hz. apply Forall_forall.
    pose proof (proj1 (Forall_forall _ _) Hpre y Hy) as Hyx. cbn in Hyx.
    assert (y ∈ ring) as Hyr by (apply at_in; set_solver).
    assert (before y b) by (unfold before in *; lia).
    apply before_join, before_join; try done.
    apply Forall_forall. intros z Hz. pose proof (proj1 (Forall_forall _ _) Hpo z Hz) as Hxz. unfold before in *. lia.
  - by apply StronglySorted_app_1_l in SS.
  - apply sorted_join; [lia|apply at_reaches_x|]. apply sorted_join; [lia|apply at_reaches|done].
Qed.

Lemma ring_with_covers a : covers (ring_with pre x post) a <-> covers F a \/ in_blk b a.
Proof using HK HE Hx Hpost.
  pose proof freed_in as (H1 & H2 & H3 & H4). assert (x ∈ ring) as Hr by (apply at_in; set_solver).
  destruct (ring_in base s F _ HK x Hr) as (R1 & R2 & _).
  assert (covers F a <-> covers ring a) as ->. { rewrite covers_cons. unfold in_blk. cbn. naive_solver lia. }
  rewrite HE. unfold ring_with, covers at 1 2. rewrite !Exists_app. fold (covers pre a) (covers (join x (join b post)) a) (covers (x :: post) a).
  rewrite covers_join by (lia || apply at_reaches_x). rewrite covers_join by (lia || apply at_reaches). rewrite covers_cons. tauto.
Qed.

Lemma ring_with_shape : exists F', ring_with pre x post = (base, 0) :: F' /\ (length F' <= S (length F))%nat.
Proof using HK HE Hx Hpost.
  pose proof freed_in as (H1 & H2 & H3 & H4). unfold ring_with.
  pose proof (length_join x (join b post)) as J1. pose proof (length_join b post) as J2.
  assert (length ring = length pre + S (length post))%nat as HL by (rewrite HE, length_app; done). cbn in HL.
  destruct pre as [|y pre']; cbn in HE; injection HE as HE1 HE2.
  - subst x. pose proof (next_join b post base) as HN. destruct (join b post) as [|z l] eqn:E; cbn in *; [lia|].
    rewrite HN. replace (base + 8 * 0 =? b.1) with false by lia. eexists. split; [done|]. cbn in *. lia.
  - subst y. eexists. split; [done|]. rewrite length_app. cbn in *. lia.
Qed.

Lemma header_ok_in y : y ∈ ring -> header_ok (usz s) y.
Proof using HK HE Hx Hpost. intros Hy. destruct (ring_in base s F _ HK y Hy) as (R1 & R2 & R3 & R4 & R5 & R6 & R7). pose proof (hk_base _ _ _ _ HK). unfold header_ok. lia. Qed.

Lemma header_ok_freed : header_ok (usz s) b.
Proof using HK HE Hx Hpost. pose proof freed_in. pose proof (hk_base _ _ _ _ HK). unfold header_ok. lia. Qed.

Lemma header_ok_join : Forall (header_ok (usz s)) (join b post).
Proof using HK HE Hx Hpost.
  pose proof header_ok_freed as HB. assert (Forall (header_ok (usz s)) post) as HP.
  { apply Forall_forall. intros y Hy. apply header_ok_in, at_in. set_solver. }
  destruct post as [|y l]; cbn; [by apply Forall_cons_2|].
  apply Forall_cons_1 in HP as [P1 P2]. case_match; apply Forall_cons_2; try done; [|by apply Forall_cons_2].
  unfold header_ok in *. cbn. lia.
Qed.

(** Blocks of the ring, [base] included. *)
Definition ring_blk (y : blk) : Prop :=
  base <= y.1 /\ 0 <= y.2 /\ y.1 mod 8 = 0 /\ y.1 + 8 * y.2 <= usz s /\ (base < y.1 -> 0 < y.2).

Lemma ring_blk_join y l : ring_blk y -> Forall ring_blk l -> reaches y l -> Forall ring_blk (join y l).
Proof using.
  intros Hy HF HR. destruct l as [|z l]; cbn; [by apply Forall_cons_2|].
  apply Forall_cons_1 in HF as [F1 F2]. apply Forall_cons_1 in HR as [[R1 R2] _].
  case_match; apply Forall_cons_2; try done; [|by apply Forall_cons_2]. unfold ring_blk in *. cbn. lia.
Qed.

Lemma ring_with_in : Forall ring_blk (ring_with pre x post).
Proof using HK HE Hx Hpost.
  assert (HR : Forall ring_blk ring).
  { apply Forall_forall. intros y Hy. destruct (ring_in base s F _ HK y Hy) as (R1 & R2 & R3 & R4 & R5 & R6 & R7). unfold ring_blk. lia. }
  rewrite HE in HR. apply Forall_app in HR as [HR1 [HR2 HR3]%Forall_cons_1]. pose proof freed_in as (H1 & H2 & H3 & H4).
  unfold ring_with. apply Forall_app. split; [done|].
  apply ring_blk_join; [done| |apply at_reaches_x]. apply ring_blk_join; [unfold ring_blk; lia|done|apply at_reaches].
Qed.

Lemma after_freed : Forall (fun y : blk => b.1 + 8 <= y.1) post.
Proof using HK HE Hx Hpost.
  apply Forall_forall. intros y Hy. pose proof (proj1 (Forall_forall _ _) Hpost y Hy) as Hlt. cbn in Hlt.
  destruct (ring_in base s F _ HK y) as (R1 & R2 & R3 & _); [apply at_in; set_solver|]. pose proof freed_in. zlia.
Qed.

Lemma after_x : Forall (fun y : blk => x.1 + 8 <= y.1) (join b post).
Proof using HK HE Hx Hpost.
  destruct (ring_in base s F _ HK x) as (R1 & R2 & R3 & _); [apply at_in; set_solver|]. pose proof freed_in as HB.
  assert (x.1 + 8 <= b.1) as Hxb by zlia. pose proof after_freed as HA.
  assert (Forall (fun y : blk => x.1 + 8 <= y.1) post) as HP by (eapply Forall_impl; [exact HA|]; cbn; lia).
  clear - HP Hxb. destruct post as [|y l]; cbn; [by apply Forall_cons_2|].
  apply Forall_cons_1 in HP as [P1 P2]. case_match; apply Forall_cons_2; try done. by apply Forall_cons_2.
Qed.

(** The two statements of [free] that link the block. *)
Lemma link_spec :
  wp (merge b.1 (next post base) ;;; merge x.1 b.1) (fun _ t => usz t = usz s /\ freep t = freep s /\
    lseg (um t) (ring_with pre x post) base /\
    forall a, um t a = um s a \/ b.1 <= a < b.1 + 8 \/ x.1 <= a < x.1 + 8) s.
Proof using HK HE Hx Hpost.
  pose proof freed_in as (H1 & H2 & H3 & H4). destruct (hk_base _ _ _ _ HK) as (B1 & B2 & B3). destruct (hk_size _ _ _ _ HK) as (Z1 & Z2).
  pose proof (hk_ring _ _ _ _ HK) as R. rewrite HE in R. apply lseg_app in R as [Rpre (Rx1 & Rx2 & Rpost)]. cbn [next] in Rpre.
  pose proof (hk_sizes _ _ _ _ HK) as HS. apply Forall_cons_1 in HS as [HSb _].
  assert (Hxr : x ∈ ring) by (apply at_in; set_solver).
  destruct (ring_in base s F _ HK x Hxr) as (R1 & R2 & R3 & R4 & R5 & R6 & R7).
  wp_step. eapply wp_mono.
  { apply (merge_spec base s b post); try done; [apply header_ok_freed| |apply at_reaches|apply after_freed|lia|lia].
    apply Forall_forall. intros y Hy. apply header_ok_in, at_in. set_solver. }
  intros _ t (T1 & T2 & T3 & T4). replace (merge x.1 b.1) with (merge x.1 (next (join b post) base)) by by rewrite next_join.
  eapply wp_mono.
  { apply (merge_spec base t x (join b post)); rewrite ?T1; try done; [by apply header_ok_in|apply header_ok_join| |apply at_reaches_x|apply after_x|lia|].
    - rewrite <- Rx2. apply load32_same. intros a Ha. destruct (T4 a) as [|]; [done|]. zlia.
    - intros E. pose proof (next_join b post base) as HN. rewrite E in HN. cbn in HN. lia. }
  intros _ u (U1 & U2 & U3 & U4). split_and!; [congruence..| |].
  - unfold ring_with. apply lseg_app. rewrite next_join. split; [|done].
    eapply lseg_frame; [|exact Rpre]. apply Forall_forall. intros y Hy a Ha.
    destruct (ring_at base s F _ HK _ _ _ HE) as (_ & _ & Hpre & _).
    pose proof (proj1 (Forall_forall _ _) Hpre y Hy) as Hyx. unfold before in Hyx. cbn in Hyx.
    destruct (ring_in base s F _ HK y) as (Q1 & Q2 & Q3 & _); [apply at_in; set_solver|].
    destruct (U4 a) as [->|]; [|zlia]. destruct (T4 a) as [->|]; [done|zlia].
  - intros a. destruct (U4 a) as [->|]; [|by auto]. destruct (T4 a) as [->|]; [by left|by right; left].
Qed.
End At.

(** A write at the header of a block of the ring, or of the freed block, does
    not touch another block in use. *)
Lemma live_apart y : y ∈ L -> apart b y /\ (forall x, x ∈ ring -> y.1 + 8 * y.2 <= x.1 \/ x.1 + 8 <= y.1) /\ (b.1 + 8 <= y.1 \/ y.1 + 8 * y.2 <= b.1) /\ 0 < y.2 /\ base + 8 <= y.1.
Proof using HK.
  intros Hy. pose proof freed_in as (H1 & H2 & H3 & H4). destruct (hk_base _ _ _ _ HK) as (B1 & B2 & B3).
  pose proof (hk_live _ _ _ _ HK) as HL. apply Forall_cons_1 in HL as [_ HL].
  pose proof (proj1 (Forall_forall _ _) HL y Hy) as (L1 & L2 & L3 & L4).
  pose proof (hk_pairs _ _ _ _ HK) as HP. inversion HP as [|? ? HP1 HP2]; subst.
  pose proof (proj1 (List.Forall_forall _ _) HP1 y (proj1 (list_elem_of_In _ _) Hy)) as HA.
  assert (base + 8 <= y.1) as L5 by zlia.
  split_and!; try done; [|unfold apart in HA; lia]. intros x [->|Hx]%elem_of_cons; cbn; [lia|].
  pose proof (hk_apart _ _ _ _ HK) as HF. apply Forall_cons_1 in HF as [_ HF].
  pose proof (proj1 (Forall_forall _ _) (proj1 (Forall_forall _ _) HF y Hy) x Hx) as HX. cbn in HX.
  pose proof (proj1 (Forall_forall _ _) (hk_free _ _ _ _ HK) x Hx) as (X1 & X2 & _). unfold apart in HX. lia.
Qed.

(** What [free] promises. *)
Definition freed (t : ust) : Prop :=
  usz t = usz s /\ exists F', heap_ok base t F' L /\ (length F' <= S (length F))%nat /\
    (forall a, covers F' a <-> covers F a \/ in_blk b a) /\ Exists (holds b) F' /\
    (forall a, um t a = um s a \/ base <= a < base + 8 \/ covers (b :: F) a).

Lemma linked_ok pre x post t :
  ring = pre ++ x :: post -> x.1 < b.1 -> Forall (fun y : blk => b.1 < y.1) post ->
  usz t = usz s -> freep t = x.1 -> lseg (um t) (ring_with pre x post) base ->
  (forall a, um t a = um s a \/ b.1 <= a < b.1 + 8 \/ x.1 <= a < x.1 + 8) -> freed t.
Proof using HK.
  intros HE Hx Hpost T1 T2 T3 T4. split; [done|].
  pose proof freed_in as (H1 & H2 & H3 & H4). destruct (hk_base _ _ _ _ HK) as (B1 & B2 & B3). destruct (hk_size _ _ _ _ HK) as (Z1 & Z2).
  assert (Hxr : x ∈ ring) by (rewrite HE; set_solver).
  destruct (ring_in base s F _ HK x Hxr) as (R1 & R2 & R3 & R4 & R5 & R6 & R7).
  destruct (ring_with_shape pre x post HE Hx Hpost) as (F' & EF & LF). exists F'.
  pose proof (ring_with_sorted pre x post HE Hx Hpost) as SS. pose proof (ring_with_in pre x post HE Hx Hpost) as RI.
  pose proof (ring_with_covers pre x post HE Hx Hpost) as RC.
  assert (HX : exists k, (x.1, k) ∈ ring_with pre x post).
  { unfold ring_with. destruct (join b post) as [|z l]; cbn; [exists x.2; destruct x; set_solver|]. case_match; [exists (x.2 + z.2)|exists x.2]; destruct x; set_solver. }
  assert (HH : Exists (holds b) (ring_with pre x post)).
  { unfold ring_with. apply Exists_app. right. apply holds_join_tail; [done|]. apply holds_join. by eapply at_reaches. }
  rewrite EF in *. apply StronglySorted_inv in SS as SS'. destruct SS' as [SS1 SS2]. apply Forall_cons_1 in RI as [_ RI].
  assert (HIn : Forall (in_heap base (usz s)) F').
  { apply Forall_forall. intros y Hy. pose proof (proj1 (Forall_forall _ _) SS2 y Hy) as Q1. pose proof (proj1 (Forall_forall _ _) RI y Hy) as Q2.
    unfold before, ring_blk, in_heap in *. cbn in *. lia. }
  assert (HLs : forall y, y ∈ L -> same_range (um s) (um t) y.1 (8 * y.2)).
  { intros y Hy a Ha. destruct (live_apart y Hy) as (A1 & A2 & A3 & A4 & A5). specialize (A2 x Hxr). destruct (T4 a) as [|[|]]; [done|lia..]. }
  split_and!; [|done| | |].
  - constructor; rewrite ?T1, ?T2; try done.
    + pose proof (hk_live _ _ _ _ HK) as HL. by apply Forall_cons_1 in HL as [_ HL].
    + apply Forall_forall. intros y Hy. destruct (live_apart y Hy) as (A1 & A2 & A3 & A4 & A5).
      assert (HJ : Forall (apart y) (ring_with pre x post)); [|rewrite EF in HJ; by apply Forall_cons_1 in HJ as [_ HJ]].
      assert (HR : Forall (apart y) ring).
      { apply Forall_cons_2; [right; cbn; lia|]. pose proof (hk_apart _ _ _ _ HK) as HF. apply Forall_cons_1 in HF as [_ HF].
        by apply (proj1 (Forall_forall _ _) HF). }
      rewrite HE in HR. apply Forall_app in HR as [HR1 [HR2 HR3]%Forall_cons_1]. unfold ring_with. apply Forall_app. split; [done|].
      apply apart_join; [done|done|]. apply apart_join; [done|unfold apart in *; lia|done].
    + pose proof (hk_pairs _ _ _ _ HK) as HP. by inversion HP.
    + pose proof (hk_sizes _ _ _ _ HK) as HS. apply Forall_cons_1 in HS as [_ HS]. apply Forall_forall. intros y Hy.
      rewrite <- (proj1 (Forall_forall _ _) HS y Hy). apply load32_same. intros a Ha.
      destruct (live_apart y Hy) as (A1 & A2 & A3 & A4 & A5). apply (HLs y Hy). lia.
  - intros a. rewrite <- RC, covers_cons. unfold in_blk. cbn. naive_solver lia.
  - apply Exists_cons in HH as [HH|HH]; [|done]. unfold holds in HH. cbn in HH. lia.
  - intros a. destruct (T4 a) as [|[Ha|Ha]]; [by left| |].
    + right; right. apply covers_cons. left. unfold in_blk. lia.
    + destruct (decide (x.1 = base)) as [|Hb]; [right; left; lia|]. right; right. apply covers_cons. right. apply Exists_exists. exists x.
      split; [|unfold in_blk; lia]. by apply elem_of_cons in Hxr as [->|].
Qed.

Lemma free_spec fuel : (2 * S (length F) < fuel)%nat -> wp (free fuel (b.1 + 8)) (fun _ t => freed t) s.
Proof using HK.
  intros Hf. pose proof freed_in as (H1 & H2 & H3 & H4). destruct (hk_base _ _ _ _ HK) as (B1 & B2 & B3). destruct (hk_size _ _ _ _ HK) as (Z1 & Z2).
  change KERNBASE with 2147483648 in *. unfold free. rewrite hplus_id by lia. replace (b.1 + 8 + 8 * -1) with b.1 by lia.
  wp_step. apply wp_gets. destruct (hk_freep _ _ _ _ HK) as [k Hk]. apply list_elem_of_split in Hk as (pre & post & Hk).
  assert (length ring = length pre + S (length post))%nat as HL by (rewrite Hk, length_app; done). cbn in HL.
  wp_step. eapply wp_mono.
  { apply (around base s F _ HK b.1 post pre (freep s) k fuel Hk); [lia| | |cbn; lia].
    - apply (freed_new (freep s, k)). rewrite Hk. set_solver.
    - apply Forall_forall. intros y Hy. by apply freed_new. }
  intros p t [-> (pre' & k' & post' & E & Hp & Hpo)].
  destruct (ring_in base s F _ HK (p, k')) as (R1 & R2 & R3 & R4 & _); [rewrite E; set_solver|]. cbn in R1, R4.
  destruct (ring_at base s F _ HK _ _ _ E) as (Q1 & _). cbn in Q1.
  wp_step. unfold h_ptr. apply wp_word; [lia..|]. rewrite Q1.
  pose proof (link_spec pre' (p, k') post' E Hp Hpo) as LS.
  unfold wp in LS. wp_step. unfold wp at 1. unfold bind in LS. destruct (merge b.1 (next post' base) s) as [[] s1| | | |]; try done.
  wp_step. unfold wp at 1. cbn in LS. destruct (merge p b.1 s1) as [[] s2| | | |]; try done. destruct LS as (L1 & L2 & L3 & L4).
  apply wp_modify. eapply (linked_ok pre' (p, k') post'); try done.
Qed.
End Free.


(** * Taking a block from the ring

    What [malloc] does once it has found a free block that is large enough. *)

Section Take.
Context (base : Z) (s : ust) (F L : list blk) (HK : heap_ok base s F L).
Notation ring := ((base, 0) :: F).

(** What [malloc] promises of the block [c] when it does not ask the kernel
    for memory. *)
Definition taken (c : blk) (t : ust) : Prop :=
  usz t = usz s /\ exists F', heap_ok base t F' (c :: L) /\ (length F' <= length F)%nat /\
    (forall a, covers F a <-> covers F' a \/ in_blk c a) /\
    (forall a, um t a = um s a \/ base <= a < base + 8 \/ covers F a).

Section At.
Context (pre : list blk) (y x : blk) (post : list blk) (m : Z)
  (HE : ring = pre ++ y :: x :: post) (Hm : 0 <= m < x.2).

Notation c := (x.1 + 8 * m, x.2 - m).
Definition left_over : list blk := if m =? 0 then [] else [(x.1, m)].
Definition ring_less : list blk := pre ++ y :: left_over ++ post.

Lemma x_in_ring : x ∈ ring.
Proof using HK HE Hm. rewrite HE. set_solver. Qed.

Lemma less_shape : exists F', ring_less = (base, 0) :: F' /\ (length F' <= length F)%nat.
Proof using HK HE Hm.
  assert (length ring = length pre + S (S (length post)))%nat as HL by (rewrite HE, length_app; done). cbn in HL.
  unfold ring_less, left_over. destruct pre as [|z pre']; cbn in HE; injection HE as HE1 HE2; subst.
  all: eexists; split; [done|]; rewrite ?length_app; cbn in *; case_match; cbn; lia.
Qed.

Lemma x_neighbours :
  Forall (fun z => before z y) pre /\ before y x /\ Forall (before y) post /\ Forall (before x) post /\
  Forall (fun z => before z x) pre /\ StronglySorted before (pre ++ [y]) /\ StronglySorted before post /\
  (forall z w, z ∈ pre ++ [y] -> w ∈ post -> before z w).
Proof using HK HE Hm.
  pose proof (hk_sorted _ _ _ _ HK) as SS. rewrite HE in SS.
  assert (pre ++ y :: x :: post = (pre ++ [y]) ++ x :: post) as E2 by by rewrite <- app_assoc.
  assert (ring = (pre ++ [y]) ++ x :: post) as HE2 by by rewrite HE.
  destruct (ring_at base s F _ HK _ _ _ HE) as (_ & _ & P1 & P2 & P3).
  destruct (ring_at base s F _ HK _ _ _ HE2) as (_ & _ & Q1 & Q2 & Q3).
  apply Forall_cons_1 in P2 as [P21 P22]. apply Forall_app in Q1 as [Q11 _]. rewrite E2 in SS.
  split_and!; try done.
  - by apply StronglySorted_app_1_l in SS.
  - intros z w Hz Hw. eapply StronglySorted_app_1_elem_of; [exact SS|done|by right].
Qed.

Lemma less_sorted : StronglySorted before ring_less.
Proof using HK HE Hm.
  destruct x_neighbours as (N1 & N2 & N3 & N4 & N5 & N6 & N7 & N8). unfold ring_less, left_over.
  change (pre ++ y :: ?l) with (pre ++ [y] ++ l). rewrite app_assoc. apply StronglySorted_app_2; [|done|].
  - intros z w Hz Hw. case_match; [by apply N8|]. apply elem_of_cons in Hw as [->|Hw]; [|by apply N8].
    apply elem_of_app in Hz as [Hz| ->%list_elem_of_singleton]; [|done]. by apply (proj1 (Forall_forall _ _) N5).
  - case_match; [done|]. constructor; [done|]. eapply Forall_impl; [exact N4|]. unfold before. cbn. intros z. lia.
Qed.

Lemma less_in z : z ∈ ring_less -> z ∈ ring \/ z = (x.1, m) /\ 0 < m.
Proof using HK HE Hm.
  rewrite HE. unfold ring_less, left_over. destruct (Z.eqb_spec m 0) as [|Hm0]; [set_solver|].
  intros [?|[->|[->|?]%elem_of_cons]%elem_of_cons]%elem_of_app; [set_solver..|right; split; [done|lia]|set_solver].
Qed.

Lemma x_in_heap : base + 8 <= x.1 /\ 0 < x.2 /\ x.1 mod 8 = 0 /\ x.1 + 8 * x.2 <= usz s.
Proof using HK HE Hm.
  destruct (ring_in base s F _ HK x x_in_ring) as (R1 & R2 & R3 & R4 & R5 & R6 & R7). destruct (hk_base _ _ _ _ HK) as (B1 & B2 & B3).
  assert (x.1 <> base) as Hb. { intros E. apply R6 in E. rewrite E in Hm. cbn in Hm. lia. }
  split_and!; [zlia|lia|done|done].
Qed.

Lemma less_covers a : covers F a <-> covers ring_less a \/ in_blk c a.
Proof using HK HE Hm.
  assert (covers F a <-> covers ring a) as ->. { rewrite covers_cons. unfold in_blk. cbn. naive_solver lia. }
  rewrite HE. unfold ring_less, left_over, covers. rewrite !Exists_app, !Exists_cons.
  assert (in_blk x a <-> (m =? 0) = false /\ in_blk (x.1, m) a \/ in_blk c a) as ->.
  { unfold in_blk. cbn. destruct (Z.eqb_spec m 0); lia. }
  destruct (m =? 0); cbn [app]; rewrite ?Exists_cons; [assert (true <> false) by done|assert (false = false) by done]; tauto.
Qed.

Lemma apart_part z : apart z x -> apart z c /\ apart z (x.1, m).
Proof using HK HE Hm. unfold apart. cbn. lia. Qed.

Lemma less_apart z : 0 < z.2 -> Forall (apart z) F -> base + 8 <= z.1 -> Forall (apart z) ring_less.
Proof using HK HE Hm.
  intros Hz HF Hb. assert (HR : forall w, w ∈ ring -> apart z w).
  { intros w [->|Hw]%elem_of_cons; [right; cbn; lia|]. by apply (proj1 (Forall_forall _ _) HF). }
  apply Forall_forall. intros w [Hw|[-> _]]%less_in; [by apply HR|]. by apply apart_part, HR, x_in_ring.
Qed.

Lemma c_apart : Forall (apart c) ring_less.
Proof using HK HE Hm.
  destruct x_neighbours as (N1 & N2 & N3 & N4 & N5 & N6 & N7 & N8). pose proof x_in_heap as (X1 & X2 & X3 & X4).
  apply Forall_forall. intros w Hw. unfold ring_less, left_over in Hw.
  assert (HP : w ∈ pre ++ [y] ++ left_over ++ post) by exact Hw.
  apply elem_of_app in HP as [HP|HP]; [|apply elem_of_app in HP as [->%list_elem_of_singleton|HP]; [|apply elem_of_app in HP as [HP|HP]]].
  - pose proof (proj1 (Forall_forall _ _) N5 w HP) as Hb. unfold before, apart in *. cbn in *. lia.
  - unfold before, apart in *. cbn in *. lia.
  - unfold left_over in HP. case_match; [set_solver|]. apply list_elem_of_singleton in HP as ->. unfold apart. cbn. lia.
  - pose proof (proj1 (Forall_forall _ _) N4 w HP) as Hb. unfold before, apart in *. cbn in *. lia.
Qed.

Lemma c_live z : z ∈ L -> apart z c /\ (x.1 + 8 * x.2 <= z.1 \/ z.1 + 8 * z.2 <= x.1) /\ (y.1 + 8 <= z.1 \/ z.1 + 8 * z.2 <= y.1) /\ 0 < z.2 /\ base + 8 <= z.1.
Proof using HK HE Hm.
  intros Hz. destruct (hk_base _ _ _ _ HK) as (B1 & B2 & B3).
  pose proof (proj1 (Forall_forall _ _) (hk_live _ _ _ _ HK) z Hz) as (L1 & L2 & L3 & L4).
  pose proof (proj1 (Forall_forall _ _) (hk_apart _ _ _ _ HK) z Hz) as HA. cbn in HA.
  assert (base + 8 <= z.1) as L5 by zlia. pose proof x_in_heap as (X1 & X2 & X3 & X4).
  assert (HR : forall w, w ∈ ring -> apart z w).
  { intros w [->|Hw]%elem_of_cons; [right; cbn; lia|]. by apply (proj1 (Forall_forall _ _) HA). }
  pose proof (HR x x_in_ring) as Ax. assert (y ∈ ring) as Hy by (rewrite HE; set_solver). pose proof (HR y Hy) as Ay.
  destruct (ring_in base s F _ HK y Hy) as (R1 & R2 & R3 & R4 & R5 & R6 & R7).
  split_and!; try done; [by apply apart_part|unfold apart in *; lia|].
  destruct (decide (y.1 = base)); [lia|]. unfold apart in *. lia.
Qed.

Lemma taken_ok t :
  usz t = usz s -> freep t = y.1 -> lseg (um t) ring_less base -> load32 (um t) (x.1 + 8 * m + 4) = x.2 - m ->
  (forall a, um t a = um s a \/ y.1 <= a < y.1 + 8 \/ in_blk x a) -> taken c t.
Proof using HK HE Hm.
  intros T1 T2 T3 T4 T5. split; [done|]. pose proof x_in_heap as (X1 & X2 & X3 & X4).
  destruct (hk_base _ _ _ _ HK) as (B1 & B2 & B3).
  destruct less_shape as (F' & EF & LF). exists F'. pose proof less_sorted as SS. pose proof less_covers as LC. rewrite EF in SS, LC, T3.
  split_and!; [|done| |].
  - constructor; rewrite ?T1, ?T2; try done.
    + exact (hk_size _ _ _ _ HK).
    + exists y.2. rewrite <- EF. unfold ring_less. destruct y. set_solver.
    + apply Forall_forall. intros z Hz. apply StronglySorted_inv in SS as [_ SS]. pose proof (proj1 (Forall_forall _ _) SS z Hz) as Hb.
      destruct (less_in z) as [Hr|[-> Hr]]; [rewrite EF; by right| |unfold in_heap; cbn; lia].
      destruct (ring_in base s F _ HK z Hr) as (R1 & R2 & R3 & R4 & R5 & R6 & R7). unfold before, in_heap in *. cbn in *. lia.
    + apply Forall_cons_2; [|exact (hk_live _ _ _ _ HK)]. unfold in_heap. cbn. split_and!; [lia|lia|zlia|lia].
    + apply Forall_cons_2; [pose proof c_apart as CA; rewrite EF in CA; by apply Forall_cons_1 in CA as [_ CA]|].
      apply Forall_forall. intros z Hz. destruct (c_live z Hz) as (C1 & C2 & C3 & C4 & C5).
      assert (HJ : Forall (apart z) ring_less); [|rewrite EF in HJ; by apply Forall_cons_1 in HJ as [_ HJ]].
      apply less_apart; [done| |done]. by apply (proj1 (Forall_forall _ _) (hk_apart _ _ _ _ HK)).
    + constructor; [|exact (hk_pairs _ _ _ _ HK)]. apply List.Forall_forall. intros z Hz%list_elem_of_In.
      destruct (c_live z Hz) as (C1 & _). unfold apart in *. cbn in *. lia.
    + apply Forall_cons_2; [done|]. apply Forall_forall. intros z Hz. destruct (c_live z Hz) as (C1 & C2 & C3 & C4 & C5).
      rewrite <- (proj1 (Forall_forall _ _) (hk_sizes _ _ _ _ HK) z Hz). apply load32_same. intros a Ha.
      destruct (T5 a) as [|[|]]; [done|lia|unfold in_blk in *; lia].
  - intros a. rewrite LC, covers_cons. unfold in_blk. cbn. naive_solver lia.
  - intros a. assert (y ∈ ring) as Hy by (rewrite HE; set_solver).
    destruct (ring_in base s F _ HK y Hy) as (R1 & R2 & R3 & R4 & R5 & R6 & R7). destruct (T5 a) as [|[Ha|Ha]]; [by left| |].
    + destruct (decide (y.1 = base)) as [|Hb]; [right; left; lia|]. right; right. apply Exists_exists. exists y.
      split; [|unfold in_blk; lia]. by apply elem_of_cons in Hy as [->|].
    + right; right. apply Exists_exists. exists x. split; [|done]. pose proof x_in_ring as Hx. apply elem_of_cons in Hx as [->|]; [cbn in X2; lia|done].
Qed.
End At.

Lemma carve_spec pre y x post nunits :
  ring = pre ++ y :: x :: post -> 0 < nunits <= x.2 ->
  wp (carve nunits y.1 x.1 x.2) (fun r t => exists c, r = c.1 + 8 /\ c.2 = nunits /\ taken c t) s.
Proof using HK.
  intros HE Hn. assert (0 <= x.2 - nunits < x.2) as Hm by lia. pose proof (taken_ok pre y x post _ HE Hm) as HT.
  pose proof (x_in_heap pre y x post _ HE Hm) as (X1 & X2 & X3 & X4). destruct (hk_base _ _ _ _ HK) as (B1 & B2 & B3). destruct (hk_size _ _ _ _ HK) as (Z1 & Z2).
  assert (y ∈ ring) as Hy by (rewrite HE; set_solver). destruct (ring_in base s F _ HK y Hy) as (R1 & R2 & R3 & R4 & R5 & R6 & R7).
  destruct (x_neighbours pre y x post _ HE Hm) as (N1 & N2 & N3 & N4 & N5 & N6 & N7 & N8).
  pose proof (hk_ring _ _ _ _ HK) as RR. rewrite HE in RR. apply lseg_app in RR as [RR1 (RR2 & RR3 & RR4 & RR5 & RR6)]. cbn [next] in RR1, RR2.
  assert (HY : y.1 + 8 <= x.1). { unfold before in N2. cbn in N2. zlia. }
  assert (HP : Forall (fun z : blk => z.1 + 8 <= y.1) pre).
  { apply Forall_forall. intros z Hz. pose proof (proj1 (Forall_forall _ _) N1 z Hz) as Hb. unfold before in Hb. cbn in Hb.
    destruct (ring_in base s F _ HK z) as (Q1 & Q2 & Q3 & _); [rewrite HE; set_solver|]. zlia. }
  assert (HQ : Forall (fun z : blk => x.1 + 8 * x.2 <= z.1) post) by (eapply Forall_impl; [exact N4|]; unfold before; intros z; lia).
  assert (HNx : 0 <= next post base < 2147483648).
  { change KERNBASE with 2147483648 in *. destruct post as [|z l]; cbn; [lia|]. destruct (ring_in base s F _ HK z) as (Q1 & Q2 & Q3 & Q4 & _); [rewrite HE; set_solver|]. lia. }
  change KERNBASE with 2147483648 in *. unfold carve, h_ptr, h_size, set_h_ptr, set_h_size. wp_step. wp_step.
  - apply Z.eqb_eq in Heqb as Heq. wp_step. apply wp_word; [lia..|]. rewrite RR4. wp_step. apply wp_set_word; [lia..|].
    wp_step. wp_step. apply wp_modify, wp_ret. rewrite hplus_id by lia.
    replace (x.2 - nunits) with 0 in * by lia. exists (x.1 + 8 * 0, x.2 - 0). cbn [fst snd]. split_and!; [lia|lia|].
    apply HT; try done; cbn [um set_freep set_um].
    + unfold ring_less, left_over. cbn [Z.eqb app]. apply lseg_app. split; [|cbn [lseg]; split_and!].
      * eapply lseg_frame; [|exact RR1]. eapply Forall_impl; [exact HP|]. intros z Hz a Ha. apply store32_other. cbn in Hz. lia.
      * by rewrite load32_store32_eq by lia.
      * by rewrite load32_store32_ne by lia.
      * eapply lseg_frame; [|exact RR6]. eapply Forall_impl; [exact HQ|]. intros z Hz a Ha. apply store32_other. cbn in Hz. lia.
    + rewrite load32_store32_ne by lia. rewrite Z.mul_0_r, Z.add_0_r, Z.sub_0_r. done.
    + intros a. destruct (decide (y.1 <= a < y.1 + 8)); [by right; left|left]. apply store32_other. lia.
  - rewrite u32_id by lia. wp_step. apply wp_set_word; [lia..|]. rewrite hplus_id by lia.
    wp_step. apply wp_set_word; cbn [usz um set_um]; [lia..|]. wp_step. wp_step. apply wp_modify, wp_ret. rewrite hplus_id by lia.
    exists (x.1 + 8 * (x.2 - nunits), x.2 - (x.2 - nunits)). cbn [fst snd]. split_and!; [lia|lia|].
    apply HT; try done; cbn [um set_freep set_um].
    + unfold ring_less, left_over. replace (x.2 - nunits =? 0) with false by lia. cbn [app]. apply lseg_app. split; [|cbn [lseg fst snd]; split_and!].
      * eapply lseg_frame; [|exact RR1]. eapply Forall_impl; [exact HP|]. intros z Hz a Ha. cbn in Hz. rewrite !store32_other by lia. done.
      * by rewrite !load32_store32_ne by lia.
      * by rewrite !load32_store32_ne by lia.
      * by rewrite !load32_store32_ne by lia.
      * by rewrite load32_store32_ne, load32_store32_eq by lia.
      * eapply lseg_frame; [|exact RR6]. eapply Forall_impl; [exact HQ|]. intros z Hz a Ha. cbn in Hz. rewrite !store32_other by lia. done.
    + rewrite load32_store32_eq by lia. lia.
    + intros a. unfold in_blk. destruct (decide (x.1 <= a < x.1 + 8 * x.2)); [by right; right|left]. rewrite !store32_other by lia. done.
Qed.
End Take.
