(* ===== verification/UmallocThms.v ===== *)
(** * UmallocThms: what [malloc] and [free] promise

    The search of [malloc] goes once around the ring; if no block is large
    enough it asks the kernel for memory and goes around once more. *)
From stdpp Require Import base gmap list numbers strings sorting.
From Stdlib Require Import ZArith Lia ZifyBool.
From S2P Require Import Prelude Machine UmallocInv.

Section Search.
Context `{Sbrk} (base : Z) (s : ust) (F L : list blk) (HK : heap_ok base s F L).
Notation ring := ((base, 0) :: F).

(** [w] follows the block at [prev] in the ring. *)
Definition adj (prev : Z) (w : blk) : Prop :=
  exists pre k post, ring = pre ++ (prev, k) :: post /\
    ((exists post', post = w :: post') \/ post = [] /\ w = (base, 0)).

Fixpoint path (prev : Z) (ws : list blk) : Prop :=
  match ws with
  | [] => True
  | w :: ws' => adj prev w /\ path w.1 ws'
  end.

Lemma path_seg seg : forall pre x post, ring = pre ++ x :: seg ++ post -> path x.1 seg.
Proof using.
  induction seg as [|w seg IH]; intros pre x post E; cbn; [done|]. split.
  - exists pre, x.2, (w :: seg ++ post). split; [by destruct x|left; by eexists].
  - apply (IH (pre ++ [x]) w post). rewrite <- app_assoc. done.
Qed.

Lemma path_app l1 : forall prev x l2, path prev (l1 ++ x :: l2) <-> path prev (l1 ++ [x]) /\ path x.1 l2.
Proof using. induction l1 as [|w l1 IH]; intros; cbn; [tauto|]. rewrite IH. tauto. Qed.

Lemma path_wrap l : forall prev x, path prev l -> path prev (l ++ [x]) <-> adj (default prev (fst <$> last l)) x.
Proof using.
  induction l as [|w l IH]; intros prev x Hp; cbn; [tauto|]. destruct Hp as [H1 H2]. rewrite (IH w.1 x H2).
  destruct l as [|z l]; cbn; [tauto|]. destruct (last (z :: l)) eqn:E; [tauto|]. by apply last_None in E.
Qed.

(** Once around, from the successor of an element to the element itself. *)
Lemma path_around pre x post : ring = pre ++ x :: post -> path x.1 (post ++ pre ++ [x]).
Proof using.
  intros E. assert (Hpost : path x.1 post) by (apply (path_seg post pre x []); by rewrite app_nil_r).
  assert (Hw : path x.1 (post ++ [(base, 0)])).
  { apply path_wrap; [done|]. destruct (last post) as [z|] eqn:EL; cbn.
    - apply last_Some in EL as [l ->]. exists (pre ++ x :: l), z.2, []. split; [|by right]. rewrite E, <- app_assoc. cbn. by destruct z.
    - apply last_None in EL as ->. exists pre, x.2, []. split; [|by right]. rewrite E. by destruct x. }
  destruct pre as [|z pre]; cbn in E |- *; injection E as E1 E2.
  - by subst x.
  - subst z. apply path_app. split; [done|]. apply (path_seg (pre ++ [x]) [] (base, 0) post). cbn. by rewrite E2, <- app_assoc.
Qed.

Lemma adj_read prev w : adj prev w ->
  load32 (um s) prev = w.1 /\ load32 (um s) (w.1 + 4) = w.2 /\ 0 < prev /\ prev + 8 <= usz s /\ 0 < w.1 /\ w.1 + 8 <= usz s.
Proof using HK.
  intros (pre & k & post & E & HP). destruct (hk_base _ _ _ _ HK) as (B1 & B2 & B3).
  destruct (ring_at base s F _ HK _ _ _ E) as (R1 & R2 & _). cbn in R1.
  destruct (ring_in base s F _ HK (prev, k)) as (Q1 & _ & _ & Q2 & _); [rewrite E; set_solver|]. cbn in Q1, Q2.
  destruct HP as [[post' ->]|[-> ->]].
  - assert (ring = (pre ++ [(prev, k)]) ++ w :: post') as E' by (rewrite <- app_assoc; done).
    destruct (ring_at base s F _ HK _ _ _ E') as (_ & R3 & _).
    destruct (ring_in base s F _ HK w) as (W1 & _ & _ & W2 & _); [rewrite E; set_solver|]. cbn in R1. split_and!; (done || lia).
  - pose proof (hk_ring _ _ _ _ HK) as (_ & R3 & _). cbn in *. split_and!; (done || lia).
Qed.

Context (fuel : nat) (nunits : Z) (Hn : 0 < nunits).

(** What the search does when it is back at its start. *)
Definition more (n : nat) : MA Z :=
  let! p := morecore fuel nunits in
  if p =? 0 then ret 0 else let! q := h_ptr p in malloc_loop fuel n nunits p q.

Lemma search_ring Q ws : forall prev n, path prev ws -> (length ws <= n)%nat ->
  (exists vs k, ws = vs ++ [(freep s, k)] /\ Forall (fun v => v.1 <> freep s) vs) ->
  (forall pre y x post, ring = pre ++ y :: x :: post -> nunits <= x.2 -> wp (carve nunits y.1 x.1 x.2) Q s) ->
  (forall n', (n <= n' + length ws)%nat -> Forall (fun v => v.2 < nunits) ws -> wp (more n') Q s) ->
  wp (malloc_loop fuel n nunits prev (next ws 0)) Q s.
Proof using HK Hn.
  induction ws as [|w ws IH]; intros prev n HP Hl HV Hfit Hmore.
  { destruct HV as (vs & k & E & _). by destruct vs. }
  destruct HP as [HA HP]. destruct (adj_read _ _ HA) as (R1 & R2 & R3 & R4 & R5 & R6).
  destruct n as [|n]; [cbn in Hl; lia|]. cbn [malloc_loop next]. unfold h_size. wp_step. apply wp_word; [lia..|]. rewrite R2.
  destruct (Z.leb_spec nunits w.2) as [Hfits|Hno].
  - destruct HA as (pre & k & post & E & [[post' ->]|[-> ->]]); [|cbn in Hfits; lia]. by apply (Hfit pre (prev, k) w post').
  - wp_step. apply wp_gets. destruct HV as (vs & k & EV & HN). destruct vs as [|v vs]; cbn in EV; injection EV as EV1 EV2.
    + subst w ws. cbn [fst]. rewrite Z.eqb_refl. apply Hmore; [cbn; lia|by repeat constructor].
    + subst v. apply Forall_cons_1 in HN as [HN1 HN2]. replace (w.1 =? freep s) with false by lia.
      unfold h_ptr. destruct ws as [|w' ws]; [by destruct vs|]. pose proof HP as [HA' _]. destruct (adj_read _ _ HA') as (R1' & _).
      wp_step. apply wp_word; [lia..|]. rewrite R1'. apply (IH w.1); try done; [cbn in Hl |- *; lia|by exists vs, k|].
      intros n' Hn' HF. apply Hmore; [cbn in Hn' |- *; lia|by apply Forall_cons_2].
Qed.

Lemma search_spec Q n : (S (length F) <= n)%nat ->
  (forall pre y x post, ring = pre ++ y :: x :: post -> nunits <= x.2 -> wp (carve nunits y.1 x.1 x.2) Q s) ->
  (forall n', (n <= n' + S (length F))%nat -> Forall (fun v => v.2 < nunits) F -> wp (more n') Q s) ->
  wp (let! q := h_ptr (freep s) in malloc_loop fuel n nunits (freep s) q) Q s.
Proof using HK Hn.
  intros Hl Hfit Hmore. destruct (hk_freep _ _ _ _ HK) as [k Hk]. apply list_elem_of_split in Hk as (pre & post & E).
  pose proof (path_around _ _ _ E) as HP. set (ws := post ++ pre ++ [(freep s, k)]) in *. cbn [fst] in HP.
  assert (Hperm : ring ≡ₚ ws). { rewrite E. subst ws. rewrite (Permutation_app_comm pre), app_assoc, (Permutation_app_comm (post ++ pre)). done. }
  assert (Hlen : length ws = S (length F)) by (rewrite <- Hperm; done).
  assert (HV : exists vs k, ws = vs ++ [(freep s, k)] /\ Forall (fun v => v.1 <> freep s) vs).
  { exists (post ++ pre), k. split; [by subst ws; rewrite app_assoc|].
    destruct (ring_at base s F _ HK _ _ _ E) as (_ & _ & P1 & P2 & _). destruct (ring_in base s F _ HK (freep s, k)) as (_ & K1 & _); [rewrite E; set_solver|].
    cbn in K1. apply Forall_app. split.
    - eapply Forall_impl; [exact P2|]. unfold before. cbn. intros v. lia.
    - apply Forall_forall. intros v Hv. pose proof (proj1 (Forall_forall _ _) P1 v Hv) as Hb.
      destruct (ring_in base s F _ HK v) as (_ & K2 & _); [rewrite E; set_solver|]. unfold before in Hb. cbn in Hb. lia. }
  destruct ws as [|w ws'] eqn:EW; [done|]. destruct HP as [HA HP]. destruct (adj_read _ _ HA) as (R1 & _ & R3 & R4 & _).
  unfold h_ptr. wp_step. apply wp_word; [lia..|]. rewrite R1.
  apply (search_ring Q (w :: ws')); try done; [lia|]. intros n' Hn' HF. apply Hmore; [lia|].
  rewrite <- Hperm in HF. by apply Forall_cons_1 in HF as [_ HF].
Qed.
End Search.

Section Malloc.
Context `{Sbrk} (base : Z).

(** The block [c] that [malloc] takes, in a state [t] after [s]: it lies in
    memory that was free or that the kernel added; the rest of that memory is
    free; and only such memory and the header [base] are written. *)
Definition granted (s : ust) (F L : list blk) (c : blk) (t : ust) : Prop :=
  usz s <= usz t /\ exists F', heap_ok base t F' (c :: L) /\ (length F' <= S (length F))%nat /\
    (forall a, covers F a \/ usz s <= a < usz t <-> covers F' a \/ in_blk c a) /\
    (forall a, um t a = um s a \/ base <= a < base + 8 \/ covers F a \/ usz s <= a).

(** [malloc] has no memory to give: no free block is large enough and the
    kernel refused to add one. *)
Definition refused (s : ust) (F L : list blk) (nunits : Z) (t : ust) : Prop :=
  usz t = usz s /\ heap_ok base t F L /\ Forall (fun x => x.2 < nunits) F /\
  (forall a, um t a = um s a \/ base <= a < base + 8).

Lemma taken_granted s F L c t : taken base s F L c t -> granted s F L c t.
Proof using.
  intros (T1 & F' & T2 & T3 & T4 & T5). split; [lia|]. exists F'. split_and!; [done|lia| |].
  - intros a. rewrite <- T4. split; [intros [|]; [done|lia]|by left].
  - intros a. destruct (T5 a) as [|[|]]; auto.
Qed.

(** The state after [sbrk] gave [nu] units, which are a block in use until
    [free] puts it into the ring. *)
Lemma grown_ok s F L nu t :
  heap_ok base s F L -> 0 < nu -> usz t = usz s + 8 * nu -> usz t < KERNBASE -> freep t = freep s ->
  (forall a, a < usz s -> um t a = um s a) ->
  heap_ok base (set_um (store32 (um t) (usz s + 4) nu) t) F ((usz s, nu) :: L).
Proof using.
  intros HK Hnu T1 T2 T3 T4. destruct (hk_base _ _ _ _ HK) as (B1 & B2 & B3). destruct (hk_size _ _ _ _ HK) as (Z1 & Z2).
  change KERNBASE with 2147483648 in *.
  assert (HM : forall a, 0 <= a < usz s -> store32 (um t) (usz s + 4) nu a = um s a).
  { intros a Ha. rewrite store32_other by lia. apply T4. lia. }
  assert (Hgrow : forall x : blk, in_heap base (usz s) x -> in_heap base (usz t) x) by (unfold in_heap; intros x; lia).
  assert (Hold : forall x : blk, in_heap base (usz s) x -> apart (usz s, nu) x) by (unfold in_heap, apart; cbn; intros x; lia).
  constructor; cbn [um usz freep set_um]; try (change KERNBASE with 2147483648); try (by destruct HK).
  - lia.
  - split; [rewrite T1; zlia|lia].
  - eapply lseg_frame; [|exact (hk_ring _ _ _ _ HK)]. apply Forall_forall. intros x Hx a Ha.
    destruct (ring_in base s F _ HK x Hx) as (R1 & R2 & R3 & R4 & _). apply HM. lia.
  - rewrite T3. exact (hk_freep _ _ _ _ HK).
  - eapply Forall_impl; [exact (hk_free _ _ _ _ HK)|done].
  - apply Forall_cons_2; [unfold in_heap; cbn; lia|]. eapply Forall_impl; [exact (hk_live _ _ _ _ HK)|done].
  - apply Forall_cons_2; [|exact (hk_apart _ _ _ _ HK)]. eapply Forall_impl; [exact (hk_free _ _ _ _ HK)|done].
  - constructor; [|exact (hk_pairs _ _ _ _ HK)]. eapply Forall_impl; [exact (hk_live _ _ _ _ HK)|done].
  - apply Forall_cons_2; [cbn; rewrite load32_store32_eq by lia; done|]. apply Forall_forall. intros x Hx.
    rewrite <- (proj1 (Forall_forall _ _) (hk_sizes _ _ _ _ HK) x Hx). apply load32_same. intros a Ha.
    pose proof (proj1 (Forall_forall _ _) (hk_live _ _ _ _ HK) x Hx) as (X1 & X2 & X3 & X4). apply HM. lia.
Qed.

(** What [morecore] leaves: 0 and nothing changed, or a ring with a block that
    is large enough. *)
Definition grown (s : ust) (F L : list blk) (nunits : Z) (r : Z) (t : ust) : Prop :=
  r = 0 /\ t = s \/
  r <> 0 /\ r = freep t /\ usz s < usz t /\ exists F', heap_ok base t F' L /\ (length F' <= S (length F))%nat /\
    Exists (fun x => nunits <= x.2) F' /\ (forall a, covers F' a <-> covers F a \/ usz s <= a < usz t) /\
    (forall a, um t a = um s a \/ base <= a < base + 8 \/ covers F a \/ usz s <= a).

Lemma morecore_spec s F L fuel nunits :
  heap_ok base s F L -> 0 < nunits -> 8 * nunits < 2147483648 -> (2 * S (length F) < fuel)%nat ->
  wp (morecore fuel nunits) (grown s F L nunits) s.
Proof using.
  intros HK Hn Hn8 Hf. destruct (hk_base _ _ _ _ HK) as (B1 & B2 & B3). destruct (hk_size _ _ _ _ HK) as (Z1 & Z2).
  unfold morecore. set (nu := if nunits <? 4096 then 4096 else nunits).
  assert (nunits <= nu /\ 0 < 8 * nu < 2147483648) as Hnu by (subst nu; case_match; lia). clearbody nu.
  rewrite u32_id, i32_id by (unfold HDR; lia). unfold HDR.
  wp_step. pose proof (sbrk_grows (nu * 8) s) as HS. unfold wp at 1. destruct (sbrk (nu * 8) s) as [[p|] t| | | |]; try (by apply HS; lia).
  2: { apply wp_ret. left. split; [done|]. apply HS; lia. }
  destruct HS as (-> & T1 & T2 & T3 & T4); [lia..|]. change KERNBASE with 2147483648 in *.
  unfold set_h_size. wp_step. apply wp_set_word; [lia..|]. rewrite hplus_id by lia. rewrite Z.mul_1_r.
  assert (HK' : heap_ok base (set_um (store32 (um t) (usz s + 4) nu) t) F ((usz s, nu) :: L)) by (apply grown_ok; (done || lia)).
  wp_step. eapply wp_mono; [apply (free_spec base _ F L (usz s, nu) HK' fuel Hf)|].
  intros _ u (U1 & F' & U2 & U3 & U4 & U5 & U6). cbn [usz um set_um] in *. apply wp_gets. right.
  destruct (hk_freep _ _ _ _ U2) as [k Hk]. destruct (ring_in base u F' L U2 _ Hk) as (Q1 & _). cbn in Q1.
  split_and!; [lia|done|lia|]. exists F'. split_and!; [done|done| | |].
  - eapply Exists_impl; [exact U5|]. unfold holds. cbn. intros x. lia.
  - intros a. rewrite U4. unfold in_blk. cbn. rewrite U1, T1. replace (nu * 8) with (8 * nu) by lia. tauto.
  - intros a. destruct (decide (usz s <= a)) as [|Ha]; [by auto|]. destruct (U6 a) as [Hu|[Hu|Hu]]; [|by auto|].
    + destruct (decide (base <= a < base + 8)); [by auto|]. left. rewrite Hu, store32_other by lia. apply T4. lia.
    + apply covers_cons in Hu as [Hu|Hu]; [unfold in_blk in Hu; cbn in Hu; lia|by auto].
Qed.

Lemma malloc_loop_spec s F L fuel nunits :
  heap_ok base s F L -> 0 < nunits -> 8 * nunits < 2147483648 -> (2 * length F + 6 < fuel)%nat ->
  wp (let! q := h_ptr (freep s) in malloc_loop fuel fuel nunits (freep s) q)
    (fun r t => r = 0 /\ refused s F L nunits t \/ exists c, r = c.1 + 8 /\ c.2 = nunits /\ granted s F L c t /\
      (Exists (fun x => nunits <= x.2) F -> usz t = usz s)) s.
Proof using.
  intros HK Hn Hn8 Hf. apply (search_spec base s F L HK fuel nunits Hn); [lia| |].
  - intros pre y x post E Hx. eapply wp_mono; [apply (carve_spec base s F L HK pre y x post nunits E); lia|].
    intros r t (c & R1 & R2 & R3). right. exists c. split_and!; [done|done|by apply taken_granted|by destruct R3].
  - intros n Hl HF. unfold more. wp_step. eapply wp_mono; [apply (morecore_spec s F L); [done..|lia]|].
    intros p t [[-> ->]|(P1 & -> & P2 & F' & P3 & P4 & P5 & P6 & P7)].
    + apply wp_ret. left. split; [done|]. split_and!; [done..|by left].
    + replace (freep t =? 0) with false by lia.
      apply (search_spec base t F' L P3 fuel nunits Hn); [lia| |].
      * intros pre y x post E Hx. eapply wp_mono; [apply (carve_spec base t F' L P3 pre y x post nunits E); lia|].
        intros r u (c & R1 & R2 & (T1 & F2 & T2 & T3 & T4 & T5)). right. exists c. split_and!; [done|done| |].
        -- split; [lia|]. exists F2. split_and!; [done|lia| |].
           ++ intros a. rewrite <- T4, P6, T1. done.
           ++ intros a. destruct (T5 a) as [->|[|Ha]]; [apply P7|by auto|]. apply P6 in Ha as [|[? _]]; auto.
        -- intros HE. exfalso. apply Exists_exists in HE as (z & Hz & HE). pose proof (proj1 (Forall_forall _ _) HF z Hz). cbn in *. lia.
      * intros n' _ HF'. exfalso. apply Exists_exists in P5 as (z & Hz & HE). pose proof (proj1 (Forall_forall _ _) HF' z Hz). cbn in *. lia.
Qed.

(** A program that has not called [malloc] yet. *)
Definition untouched (s : ust) : Prop :=
  freep s = 0 /\ 0 < base /\ base mod 8 = 0 /\ base + 8 <= usz s /\ usz s mod 8 = 0 /\ usz s < KERNBASE.

Definition allocator (s : ust) (F L : list blk) : Prop :=
  heap_ok base s F L \/ untouched s /\ F = [] /\ L = [].

Definition units (nbytes : Z) : Z := (nbytes + 7) / 8 + 1.

Lemma first_ring s : untouched s -> forall t, usz t = usz s -> freep t = base -> load32 (um t) base = base -> load32 (um t) (base + 4) = 0 -> heap_ok base t [] [].
Proof using.
  intros (U1 & U2 & U3 & U4 & U5 & U6) t T1 T2 T3 T4. constructor; rewrite ?T1; try done.
  - by repeat constructor.
  - exists 0. rewrite T2. set_solver.
  - constructor.
Qed.

Lemma malloc_spec s F L fuel nbytes :
  allocator s F L -> 0 <= nbytes <= 2147483632 -> (2 * length F + 6 < fuel)%nat ->
  wp (malloc fuel base nbytes)
    (fun r t => r = 0 /\ refused s F L (units nbytes) t \/ exists c, r = c.1 + 8 /\ c.2 = units nbytes /\ granted s F L c t /\
      (Exists (fun x => units nbytes <= x.2) F -> usz t = usz s)) s.
Proof using.
  intros HA Hb Hf. unfold malloc. replace (u32 (nbytes + HDR - 1) / HDR + 1) with (units nbytes).
  2: { unfold units, HDR. rewrite u32_id by lia. f_equal. f_equal. lia. }
  assert (0 < units nbytes /\ 8 * units nbytes < 2147483648) as [Hn Hn8] by (unfold units; zlia).
  wp_step. apply wp_gets. destruct HA as [HK|(U & -> & ->)].
  - destruct (hk_base _ _ _ _ HK) as (B1 & _). destruct (hk_freep _ _ _ _ HK) as [k Hk]. destruct (ring_in base s F L HK _ Hk) as (Q1 & _). cbn in Q1.
    replace (freep s =? 0) with false by lia. wp_step. wp_step. by apply malloc_loop_spec.
  - pose proof U as (U1 & U2 & U3 & U4 & U5 & U6). change KERNBASE with 2147483648 in *. rewrite U1. cbn [Z.eqb].
    unfold set_h_ptr, set_h_size. wp_step. wp_step. apply wp_set_word; [lia..|]. wp_step. apply wp_modify. wp_step. apply wp_set_word; cbn [usz um set_um set_freep]; [lia..|]. wp_step.
    set (t := set_um _ _). assert (HK : heap_ok base t [] []).
    { apply (first_ring s U); subst t; cbn; [done|done| |].
      - rewrite load32_store32_ne, load32_store32_eq by lia. done.
      - by rewrite load32_store32_eq by lia. }
    assert (HM : forall a, um t a = um s a \/ base <= a < base + 8).
    { intros a. destruct (decide (base <= a < base + 8)); [by right|left]. subst t. cbn. rewrite !store32_other by lia. done. }
    assert (HZ : usz t = usz s) by done. pose proof (malloc_loop_spec t [] [] fuel (units nbytes) HK Hn Hn8 Hf) as HW.
    assert (HFp : freep t = base) by done. rewrite HFp in HW. clearbody t. eapply wp_mono; [exact HW|].
    intros r u [[-> (R1 & R2 & R3 & R4)]|(c & C1 & C2 & (G1 & F' & G2 & G3 & G4 & G5) & C4)].
    + left. split; [done|]. split_and!; [congruence|done..|]. intros a. destruct (R4 a) as [->|]; auto.
    + right. exists c. split_and!; [done..| |by rewrite <- HZ]. split; [lia|]. exists F'. rewrite <- HZ. split_and!; [done..|].
      intros a. destruct (G5 a) as [->|]; [|by auto]. destruct (HM a); auto.
Qed.
End Malloc.
