(* ===== verification/UmallocObjs.v ===== *)
(** * UmallocObjs: programs that use [malloc] and [free]

    A program that allocates, frees and writes into its objects, in any order:
    the objects are separate, and each keeps what the program wrote. *)
From stdpp Require Import base gmap list numbers strings sorting.
From Stdlib Require Import ZArith Lia ZifyBool.
From S2P Require Import Prelude Machine UmallocInv UmallocThms.

Lemma Forall2_impl_in {A B} (P Q : A -> B -> Prop) l k :
  Forall2 P l k -> (forall x y, y ∈ k -> P x y -> Q x y) -> Forall2 Q l k.
Proof. induction 1; intros HI; constructor; [apply HI; set_solver|]. apply IHForall2. intros. apply HI; set_solver. Qed.

(** An object of the program: its address, the number of bytes asked for, and
    its bytes. *)
Record obj := mkobj { o_ptr : Z; o_size : Z; o_data : Z -> Z }.

Inductive op :=
| Malloc (n : Z)
| Free (k : nat)
| Store (k : nat) (i v : Z).

Section Objects.
Context `{Sbrk} (fuel : nat) (base : Z).

(** The program names its objects by their position in the list of those it
    has; it writes only inside an object. *)
Definition do_op (o : op) (objs : list obj) : MA (list obj) :=
  match o with
  | Malloc n =>
      let! r := malloc fuel base n in
      if r =? 0 then ret objs
      else let! m := gets um in ret (mkobj r n (fun i => m (r + i)) :: objs)
  | Free k =>
      match objs !! k with
      | Some x => free fuel (o_ptr x) ;;; ret (delete k objs)
      | None => ret objs
      end
  | Store k i v =>
      match objs !! k with
      | Some x =>
          if (0 <=? i) && (i <? o_size x) then
            modify (fun s => set_um (store8 (um s) (o_ptr x + i) v) s) ;;;
            ret (<[k := mkobj (o_ptr x) (o_size x) (fun j => if j =? i then u8 v else o_data x j)]> objs)
          else ret objs
      | None => ret objs
      end
  end.

Fixpoint do_ops (ops : list op) (objs : list obj) : MA (list obj) :=
  match ops with
  | [] => ret objs
  | o :: ops => let! objs := do_op o objs in do_ops ops objs
  end.

Definition separate (x y : obj) : Prop := o_ptr x + o_size x <= o_ptr y \/ o_ptr y + o_size y <= o_ptr x.

(** An object is aligned, inside the memory of the process, and holds its data. *)
Definition intact (s : ust) (x : obj) : Prop :=
  o_ptr x mod 8 = 0 /\ base < o_ptr x /\ o_ptr x + o_size x <= usz s /\
  forall i, 0 <= i < o_size x -> um s (o_ptr x + i) = o_data x i.

Definition asked (o : op) : Prop := match o with Malloc n => 0 <= n <= 2147483632 | _ => True end.

(** The object in the block [c]. *)
Definition in_block (m : memory) (x : obj) (c : blk) : Prop :=
  o_ptr x = c.1 + 8 /\ 0 <= o_size x <= 8 * (c.2 - 1) /\
  forall i, 0 <= i < o_size x -> m (o_ptr x + i) = o_data x i.

Definition inv (n : nat) (objs : list obj) (s : ust) : Prop :=
  exists F L, allocator base s F L /\ (length F <= n)%nat /\ Forall2 (in_block (um s)) objs L.

Lemma pairs_middle L1 b L2 : ForallOrdPairs apart (L1 ++ b :: L2) -> ForallOrdPairs apart (b :: L1 ++ L2).
Proof using.
  induction L1 as [|x L1 IH]; cbn; [done|]. intros HP. inversion HP as [|? ? P1 P2]; subst.
  apply IH in P2. inversion P2 as [|? ? Q1 Q2]; subst. apply Forall_app in P1 as [P11 [P12 P13]%Forall_cons_1].
  constructor.
  - apply Forall_cons_2; [unfold apart in *; lia|done].
  - constructor; [by apply Forall_app|done].
Qed.

Lemma heap_ok_middle s F L1 b L2 : heap_ok base s F (L1 ++ b :: L2) -> heap_ok base s F (b :: L1 ++ L2).
Proof using.
  assert (HP : L1 ++ b :: L2 ≡ₚ b :: L1 ++ L2) by (by rewrite Permutation_middle).
  intros []. constructor; try done; [by rewrite <- HP..|by apply pairs_middle|by rewrite <- HP].
Qed.

(** Writes outside a block do not change the object in it. *)
Lemma in_block_frame m m' x c : (forall a, in_blk c a -> m' a = m a) -> in_block m x c -> in_block m' x c.
Proof using.
  intros HM (H1 & H2 & H3). split; [done|]. split; [done|]. intros i Hi. rewrite HM; [by apply H3|]. unfold in_blk. lia.
Qed.

Lemma objects_frame s F L (m' : memory) objs :
  heap_ok base s F L -> (forall a, m' a = um s a \/ base <= a < base + 8 \/ covers F a \/ usz s <= a) ->
  Forall2 (in_block (um s)) objs L -> Forall2 (in_block m') objs L.
Proof using.
  intros HK HM HF. eapply Forall2_impl_in; [exact HF|]. intros x c Hc.
  apply in_block_frame. intros a Ha. destruct (hk_base _ _ _ _ HK) as (B1 & B2 & B3).
  pose proof (proj1 (Forall_forall _ _) (hk_live _ _ _ _ HK) c Hc) as (C1 & C2 & C3 & C4).
  pose proof (proj1 (Forall_forall _ _) (hk_apart _ _ _ _ HK) c Hc) as CA. cbn in CA. unfold in_blk in Ha.
  destruct (HM a) as [|[|[HC|]]]; [done|zlia| |lia]. exfalso. apply Exists_exists in HC as (z & Hz & HC).
  pose proof (proj1 (Forall_forall _ _) CA z Hz) as HA. unfold apart, in_blk in *. lia.
Qed.

Lemma payload_ok s F L c a v :
  heap_ok base s F L -> c ∈ L -> c.1 + 8 <= a < c.1 + 8 * c.2 -> heap_ok base (set_um (store8 (um s) a v) s) F L.
Proof using.
  intros HK Hc Ha. destruct (hk_base _ _ _ _ HK) as (B1 & B2 & B3).
  pose proof (proj1 (Forall_forall _ _) (hk_live _ _ _ _ HK) c Hc) as (C1 & C2 & C3 & C4).
  pose proof (proj1 (Forall_forall _ _) (hk_apart _ _ _ _ HK) c Hc) as CA. cbn in CA.
  assert (HM : forall x n, a < x \/ x + n <= a -> same_range (um s) (store8 (um s) a v) x n).
  { intros x n Hx b Hb. unfold store8. by replace (b =? a) with false by lia. }
  constructor; cbn [um usz freep set_um]; try (by destruct HK).
  - eapply lseg_frame; [|exact (hk_ring _ _ _ _ HK)]. apply Forall_forall. intros x [->|Hx]%elem_of_cons; apply HM; cbn; [zlia|].
    pose proof (proj1 (Forall_forall _ _) CA x Hx) as HA. pose proof (proj1 (Forall_forall _ _) (hk_free _ _ _ _ HK) x Hx) as (X1 & X2 & _).
    unfold apart in HA. lia.
  - apply Forall_forall. intros x Hx. rewrite <- (proj1 (Forall_forall _ _) (hk_sizes _ _ _ _ HK) x Hx). apply load32_same, HM.
    pose proof (proj1 (Forall_forall _ _) (hk_live _ _ _ _ HK) x Hx) as (X1 & X2 & X3 & X4).
    destruct (decide (x = c)) as [->|Hne]; [lia|].
    assert (apart x c) as HA; [|unfold apart in HA; lia].
    destruct (ForallOrdPairs_In (hk_pairs _ _ _ _ HK) x c) as [E|[E|E]]; [by apply list_elem_of_In..|done|done|]. unfold apart in *. lia.
Qed.

Lemma do_malloc n objs s nb : 0 <= nb <= 2147483632 -> (2 * n + 6 < fuel)%nat -> inv n objs s -> wp (do_op (Malloc nb) objs) (inv (S n)) s.
Proof using.
  intros Hasked Hf (F & L & HA & HF & HO). cbn [do_op]. wp_step. eapply wp_mono; [apply (malloc_spec base s F L fuel nb HA Hasked); lia|].
  intros r t [[-> (R1 & R2 & _ & R3)]|(c & -> & C2 & (G1 & F' & G2 & G3 & G4 & G5) & _)].
  - apply wp_ret. exists F, L. split_and!; [by left|lia|]. destruct HA as [HK|(_ & -> & ->)]; [|inversion HO; constructor].
    apply (objects_frame s F L); [done| |done]. intros a. destruct (R3 a); auto.
  - pose proof (hk_live _ _ _ _ G2) as HL. apply Forall_cons_1 in HL as [(L1 & L2 & L3 & L4) _]. destruct (hk_base _ _ _ _ G2) as (B1 & _).
    replace (c.1 + 8 =? 0) with false by lia. wp_step. apply wp_gets, wp_ret. exists F', (c :: L). split_and!; [by left|lia|].
    constructor.
    + split_and!; cbn; [done|apply Hasked|rewrite C2; unfold units; zlia|done].
    + destruct HA as [HK|(_ & -> & ->)]; [|inversion HO; constructor]. by apply (objects_frame s F L).
Qed.

(** An object and its block, among the others. *)
Lemma find_obj objs L m k x : Forall2 (in_block m) objs L -> objs !! k = Some x ->
  exists o1 o2 L1 c L2, objs = o1 ++ x :: o2 /\ k = length o1 /\ L = L1 ++ c :: L2 /\ in_block m x c /\
    Forall2 (in_block m) o1 L1 /\ Forall2 (in_block m) o2 L2.
Proof using.
  intros HO Ex. exists (take k objs), (drop (S k) objs).
  pose proof (take_drop_middle _ _ _ Ex) as E. rewrite <- E in HO.
  apply Forall2_app_inv_l in HO as (L1 & L2' & HO1 & HO2 & ->). apply Forall2_cons_inv_l in HO2 as (c & L2 & Hc & HO2 & ->).
  exists L1, c, L2. split_and!; try done. apply lookup_lt_Some in Ex. rewrite length_take. lia.
Qed.

Lemma do_free n objs s k : (2 * n + 6 < fuel)%nat -> inv n objs s -> wp (do_op (Free k) objs) (inv (S n)) s.
Proof using.
  intros Hf (F & L & HA & HF & HO). cbn [do_op].
  destruct (objs !! k) as [x|] eqn:Ex; [|apply wp_ret; exists F, L; split_and!; [done|lia|done]].
  destruct HA as [HK|(_ & -> & ->)]; [|inversion HO; subst; done].
  destruct (find_obj _ _ _ _ _ HO Ex) as (o1 & o2 & L1 & c & L2 & -> & -> & -> & Hc & HO1 & HO2). rewrite delete_middle.
  apply heap_ok_middle in HK. wp_step. destruct Hc as (-> & _).
  eapply wp_mono; [apply (free_spec base s F (L1 ++ L2) c HK); lia|]. intros _ t (T1 & F' & T2 & T3 & T4 & T5 & T6). apply wp_ret.
  exists F', (L1 ++ L2). split_and!; [by left|lia|].
  assert (Forall2 (in_block (um s)) (o1 ++ o2) (L1 ++ L2)) as HO' by (by apply Forall2_app).
  eapply Forall2_impl_in; [exact HO'|]. intros y d Hd. apply in_block_frame. intros a Ha.
  destruct (live_apart base s F (L1 ++ L2) c HK d Hd) as (A1 & A2 & A3 & A4 & A5).
  pose proof (hk_apart _ _ _ _ HK) as HX. apply Forall_cons_1 in HX as [_ HX]. pose proof (proj1 (Forall_forall _ _) HX d Hd) as AD. cbn in AD.
  unfold in_blk in Ha. destruct (T6 a) as [|[|[HC|HC]%covers_cons]]; [done|lia|unfold in_blk, apart in *; lia|].
  exfalso. apply Exists_exists in HC as (z & Hz & HC). pose proof (proj1 (Forall_forall _ _) AD z Hz) as HAz. unfold apart, in_blk in *. lia.
Qed.

Lemma do_store n objs s k i v : inv n objs s -> wp (do_op (Store k i v) objs) (inv (S n)) s.
Proof using.
  intros (F & L & HA & HF & HO). cbn [do_op].
  assert (HS : wp (ret objs) (inv (S n)) s) by (apply wp_ret; exists F, L; split_and!; [done|lia|done]).
  destruct (objs !! k) as [x|] eqn:Ex; [|done]. destruct ((0 <=? i) && (i <? o_size x)) eqn:Ei; [|done]. clear HS. zbool.
  destruct HA as [HK|(_ & -> & ->)]; [|inversion HO; subst; done].
  destruct (find_obj _ _ _ _ _ HO Ex) as (o1 & o2 & L1 & c & L2 & -> & -> & -> & (X1 & X2 & X3) & HO1 & HO2). rewrite <- (Nat.add_0_r (length o1)), insert_app_r. cbn [insert list_insert].
  wp_step. apply wp_modify, wp_ret. exists F, (L1 ++ c :: L2). split_and!; [left|lia|].
  { apply (payload_ok s F _ c); [done|set_solver|lia]. }
  pose proof (hk_pairs _ _ _ _ HK) as HP. apply pairs_middle in HP. inversion HP as [|? ? P1 P2]; subst. apply Forall_app in P1 as [P11 P12].
  assert (Hother : forall y d, apart c d -> in_block (um s) y d -> in_block (store8 (um s) (o_ptr x + i) v) y d).
  { intros y d Hd. apply in_block_frame. intros a Ha. unfold store8, in_blk, apart in *. by replace (a =? o_ptr x + i) with false by lia. }
  cbn [um set_um]. apply Forall2_app; [|constructor].
  - eapply Forall2_impl_in; [exact HO1|]. intros y d Hd. apply Hother. by apply (proj1 (Forall_forall _ _) P11).
  - split_and!; cbn; try done; try lia. intros j Hj. unfold store8. destruct (Z.eqb_spec j i) as [->|]; [by rewrite Z.eqb_refl|].
    replace (o_ptr x + j =? o_ptr x + i) with false by lia. by apply X3.
  - eapply Forall2_impl_in; [exact HO2|]. intros y d Hd. apply Hother. by apply (proj1 (Forall_forall _ _) P12).
Qed.

Lemma do_ops_spec ops : forall n objs s, Forall asked ops -> (2 * (n + length ops) + 6 < fuel)%nat -> inv n objs s ->
  wp (do_ops ops objs) (inv (n + length ops)) s.
Proof using.
  induction ops as [|o ops IH]; intros n objs s HA Hf HI; cbn [do_ops length] in *.
  { apply wp_ret. by rewrite Nat.add_0_r. }
  apply Forall_cons_1 in HA as [HA1 HA2]. wp_step. apply (wp_mono _ (inv (S n))).
  - destruct o; [apply do_malloc|apply do_free|apply do_store]; (done || lia).
  - intros objs' t HI'. rewrite Nat.add_succ_r. rewrite <- Nat.add_succ_l. apply IH; (done || lia).
Qed.

Lemma inv_separate n objs s : inv n objs s -> ForallOrdPairs separate objs /\ Forall (intact s) objs.
Proof using.
  intros (F & L & HA & _ & HO). destruct HA as [HK|(_ & -> & ->)]; [|inversion HO; by repeat constructor].
  split.
  - pose proof (hk_pairs _ _ _ _ HK) as HP. clear HK. revert HP. induction HO as [|x c objs L Hx HO IH]; [constructor|].
    intros HP. inversion HP as [|? ? P1 P2]; subst. constructor; [|by apply IH].
    clear - P1 Hx HO. induction HO as [|y d objs L Hy HO IH]; [constructor|]. apply Forall_cons_1 in P1 as [P1 P2].
    apply Forall_cons_2; [|by apply IH]. destruct Hx as (X1 & X2 & _), Hy as (Y1 & Y2 & _). unfold apart, separate in *. lia.
  - pose proof (hk_live _ _ _ _ HK) as HL. clear HK. induction HO as [|x c objs L Hx HO IH]; [constructor|].
    apply Forall_cons_1 in HL as [(L1 & L2 & L3 & L4) HL]. apply Forall_cons_2; [|by apply IH].
    destruct Hx as (X1 & X2 & X3). split_and!; [rewrite X1; zlia|lia|lia|done].
Qed.

(** C29. A program that allocates objects of at most 2^31 - 16 bytes, frees them
    and writes into them, in any order, over an [sbrk] whose successful calls
    add usable memory at the end of the process (the class [Sbrk]; when the
    last free pages go, the kernel's can break this, [allocuvm_false_success]),
    never faults in the allocator and never loops in it; at every point its
    objects are aligned, inside its memory and pairwise separate, and each
    holds exactly the bytes that the program has written to it (and what was
    there when it was allocated where it has not).  For larger requests see
    [malloc_wraps]. *)
Theorem objects_separate (ops : list op) (s : ust) :
  untouched base s -> Forall asked ops -> (2 * length ops + 6 < fuel)%nat ->
  wp (do_ops ops []) (fun objs t => ForallOrdPairs separate objs /\ Forall (intact t) objs) s.
Proof using.
  intros HU HA Hf. eapply wp_mono; [apply (do_ops_spec ops 0); [done|done|]|].
  - exists [], []. split_and!; [by right|done|constructor].
  - intros objs t HI. by eapply inv_separate.
Qed.
End Objects.

(** ** A program with room for a heap of 84 KB *)
Definition plenty : Sbrk := kernel_sbrk (fun sz n => sz + n <=? 98304).
Definition fresh : ust := mkust (fun _ => 0) 12288 0.
Definition sample_ops : list op := [Malloc 10; Malloc 100; Store 0 99 7; Free 1; Store 0 0 5; Malloc 40000; Malloc 0].

Lemma objects_separate_witness :
  wp (@do_ops plenty 40 4096 sample_ops [])
    (fun objs t => ForallOrdPairs separate objs /\ Forall (intact 4096 t) objs) fresh.
Proof.
  apply (@objects_separate plenty 40 4096 sample_ops fresh).
  - unfold untouched. cbn. split_and!; try done; lia.
  - unfold sample_ops. repeat (apply Forall_cons_2; [cbn; lia || done|]). constructor.
  - cbn. lia.
Defined.

(** What the program has at the end: the objects of 0, 40000 and 100 bytes. *)
Example sample_objects :
  match @do_ops plenty 40 4096 sample_ops [] fresh with
  | Ok objs t => map (fun x => (o_size x, o_data x 0)) objs = [(0, 0); (40000, 0); (100, 5)] /\ usz t = 12288 + 8 * 4096 + 8 * 5001
  | _ => False
  end.
Proof. vm_compute. split; reflexivity. Qed.

(** A request for almost 4 GB is rounded up past the width of [uint]: [malloc]
    returns a block with no room at all instead of failing. *)
Theorem malloc_wraps :
  match @malloc plenty 40 4096 4294967295 fresh with
  | Ok r t => r = 45056 /\ load32 (um t) (r - 4) = 1
  | _ => False
  end.
Proof. vm_compute. split; reflexivity. Qed.
